(* ===== verification/_CoqProject ===== *)
-Q . S2P
Prelude.v
Bytes.v
PacketStore.v
PacketPool.v
PacketData.v
PacketLease.v
TransportWindow.v
TransportTypes.v
TransportWire.v
TransportReassembly.v
TransportForward.v
TransportCacheSafety.v
TransportReorder.v
TransportReorderRuntime.v
TransportReorderSafety.v
TransportReorderSubmit.v
TransportReorderWorker.v
TransportReorderProgress.v
TransportPeer.v
TransportPeerSafety.v
TransportPeerLife.v
LinkPath.v
LinkPathRace.v
Thread.v
Link.v
LinkSubmit.v
LinkLife.v
LinkLifeSafety.v
LinkManager.v
LinkRegistry.v
TransportRx.v
LinkRx.v
TransportRxAccept.v
TransportRxSafety.v
TransportRxBatch.v
TransportTx.v
TransportTxEncode.v
TransportTxSafety.v
TransportTxLife.v
TransportTxForward.v
SwitchWire.v
SwitchWireCodec.v
SwitchCore.v
SwitchTx.v
SwitchEvent.v
SwitchPlan.v
SwitchRx.v
SwitchSystem.v
SwitchPlanSafety.v
SwitchAgreement.v
SwitchPlanSpec.v
SwitchPlanProgress.v
Scheduler.v
SchedulerSpec.v
SchedulerDispatch.v
