(* ===== verification/Prelude.v ===== *)
(** * LinkG: a verification of the data plane and of the agreement on sending plans

    LinkG bonds a Wi-Fi and a cellular link between the nodes of a small network.
    Packets of the local TUN device or of modules of the daemon are given to the
    scheduler (src/core/scheduler), which picks target links; the transport
    (src/core/transport) numbers and if need be splits them and hands them to the
    links (src/core/link); what a link receives goes back up through the transport,
    which drops duplicates, puts user data in order, joins fragments, and delivers
    locally or relays. Which links a peer's packets take is the sending plan, which
    the switching module (src/core/switch) of a station decides and synchronises to
    the access point. All of them share one reference-counted packet pool
    (src/core/packet). This development models the packet pool, the scheduler, the
    whole transport, the links with their manager and their threads, paths, and the
    plan side of the switching module, function by function, and proves what they
    promise to each other.

    ** The way code is modelled

    - Machine integers are [Z] with their wrap-around written out ([u8] ... [u64]
      below), bytes are integers of [0, 256).
    - A sequential part is written in the state monad [M] of this file: a value with
      the next state, or stuck ([None]). Stuck is a failed assertion, an access
      outside an array, or fuel that ran out; error codes are ordinary results. The
      triple [wp] says that a computation is not stuck, so that a theorem stated
      with it includes termination.
    - A pointer is an index into the array it points into; [None] is NULL.
    - Arrays of fixed size are lists of that length; loops with a fixed bound are
      folds or recursions over the list of indices.
    - What is outside a component is an argument: return codes of pthread calls,
      clocks, handlers, the concrete links, and what other threads do while a lock
      is free. These arguments are functions of a counter of observations, so that
      no two observations need agree, and a theorem holds for every one of them that
      keeps the stated contract.

    ** Files and the code they model

    Packets.
    - [Bytes], [PacketStore] (what a client may rely on: a class of operations and
      its laws), [PacketPool] (linkg_packet_pool.c: every function; it discharges
      the laws), [PacketData] (payloads as byte lists), [PacketLease] (what a callee
      may do with borrowed packets).

    Transport, src/core/transport.
    - [TransportTypes] (linkg_transport_types.h, validity tests), [TransportWindow]
      (transport_window.c), [TransportWire] (transport_wire.c).
    - [TransportReassembly] (transport_reassembly.c), [TransportForward]
      (transport_forward.c), [TransportCacheSafety] (both with arbitrary packets).
    - [TransportReorder] and [TransportReorderRuntime] (transport_reorder.c: the
      decisions on one window; locks, references, worker and life cycle), with
      [TransportReorderSafety], [TransportReorderSubmit], [TransportReorderWorker]
      and [TransportReorderProgress] for their properties.
    - [TransportPeer] (linkg_transport.c), with [TransportPeerSafety] and
      [TransportPeerLife].
    - [TransportRx] (transport_rx.c), which calls all of the above, with
      [TransportRxAccept], [TransportRxSafety] and [TransportRxBatch].
    - [TransportTx] (transport_tx.c), with [TransportTxEncode],
      [TransportTxSafety], [TransportTxLife] and [TransportTxForward].

    Links, src/core/link.
    - [LinkPath] (linkg_path.c and linkg_path_stats.c), [LinkPathRace] (the same
      operations cut into atomic accesses, as a step relation), [Link] (link_tx.c)
      with [LinkSubmit].
    - [Thread] (src/infra/base/linkg_thread.c), [LinkLife] (linkg_link.c and
      link_runtime.c: creation and destruction as computations over the resources
      alive, starting, stopping, and the locking of submission and purge as
      programs) with [LinkLifeSafety] (these programs interleaved), [LinkManager]
      (linkg_link_manager.c) with [LinkRegistry], [LinkRx] (link_rx.c).

    Scheduling, src/core/scheduler.
    - [Scheduler] (linkg_scheduler.c: every function, as trees of operations on other
      modules), [SchedulerSpec] (grouping and targets against references),
      [SchedulerDispatch] (a batch and a relay, for every answer of the others).

    Switching, src/core/switch.
    - [SwitchWire] (switch_wire.c) with [SwitchWireCodec].
    - [SwitchCore] (the context of switch_internal.h; functions as trees of critical
      sections, questions and transmissions), [SwitchTx] (switch_tx.c),
      [SwitchEvent] (switch_event.c), [SwitchPlan] (switch_plan.c), [SwitchRx]
      (switch_rx.c, the receive life cycle of linkg_switch.c, the event loop of
      switch_runtime.c).
    - [SwitchSystem] (threads and nodes as a step relation, the invariant),
      [SwitchPlanSafety] (every function keeps it), [SwitchAgreement] (two nodes
      over a network), [SwitchPlanSpec] and [SwitchPlanProgress] (single functions
      and the worker, undisturbed).

    ** What the theorems show

    - Ownership. Whatever order clients use the pool in, reference counts are the
      references held and a free packet has none ([pool_run_sound]). The receive
      pipeline ([receive_batch_sound]), the sender ([send_batch_sound]), the relay
      ([forward_batch_spec]), the reorder windows ([reorder_submit_sound],
      [reorder_worker_safe]), the caches ([reassembly_batch_sound]) and the links
      ([link_submit_sound], [link_rx_sound]) never get stuck and leave exactly the references their
      contracts say, whatever other threads do.
    - Contracts between parts. The reorder windows are proved against a contract of
      their delivery callback that the pipeline's callback discharges
      ([emit_reordered_ok]); the sender against [TransportLink], discharged by the
      links of [Link]; the relay cache and the reorder windows against [PacketStore];
      linkg_transport.c against [TransportParts].
    - No duplicate, counted loss. The bitmap window refines a window over unbounded
      numbers ([window_accept_refines]), accepts no number twice
      ([window_exactly_once], [rx_accepts_once] through the pipeline), counts as lost
      exactly the numbers it left behind unaccepted ([window_loss_exact]) and loses
      nothing when a stream starts out of order ([rx_first_chunk_complete], [accept_batch_spec]).
    - Fragments. Both caches refine an abstract two-way cache
      ([reassembly_submit_refines], [forward_submit_refines]), and either order of
      arrival gives the packet ([reassembly_either_order], [forward_either_order]).
    - Sending. [send_chunk_spec] gives the frames on the wire and the sequence
      numbers after every outcome; the receiver's decoders accept the packets of an
      encoded chunk, with consecutive numbers, and get the payload back
      ([sent_packet_decodes], [decode_accepts_iff]);
      [link_chunks_keep_groups] is about their way through a link.
    - Scheduling. For every answer of the node, the links, the switching module and
      the transport, a batch gives each hop its packets in order and once, in calls
      whose paths are held and which the transport's checks accept, and reports as
      accepted what the transport accepted ([submit_batch_dispatch], [relay_dispatch]); packets are
      partitioned by hop ([grouping_is_partition]) and links chosen as the plan says
      ([targets_follow_plan]).
    - Links. However starts, stops, submissions and purges interleave, the concrete
      link is opened and closed when nobody is in it, and used while it is open
      ([link_calls_exclusive]); the exception is a purge during the roll-back of a
      start ([rollback_close_meets_purge]). A receive thread that is told to stop
      leaves promptly ([link_rx_sound]). Creation and destruction balance
      ([link_life_balanced]). The manager refines a finite map
      ([manager_refines_registry]).
    - Life cycles. Epochs identify a peer, its sequence numbers outlive its slot,
      every sequence of calls keeps the table well formed, and creation and teardown
      balance ([captured_epoch_identifies_peer], [tx_sequences_survive_peer_life],
      [peer_calls_keep_invariant], [transport_life_cycle_balanced],
      [reorder_reset_peer_spec]); a failed creation also tears down the parts it had
      set up ([TransportPartsLife]); paths are counted exactly, move along their life
      cycle and are never reused while somebody holds them, yet a release can be lost ([path_references_exact],
      [path_not_recycled], [path_release_lost]).
    - Progress. The pressure loop ends ([reorder_submit_returns]), the worker misses
      no deadline ([reorder_worker_no_miss]), and a synchronisation nobody answers
      ends after at most 23 steps ([sync_settles]).
    - Plans. The codec of control messages is a bijection on valid messages
      ([switch_wire_roundtrip], [switch_decode_canonical], [switch_encode_total]);
      the event ring is a bounded list ([event_queue_fifo]); [commit_local_spec]
      says exactly when a commit succeeds and all it then does; and a station that takes its plan for
      confirmed is right, over a network that duplicates, reorders and loses
      messages ([plan_agreement]).

    ** Bounds and fuel

    The chunks of the sender and the receiver recurse on the number of items left,
    the scans on the arrays. Only loops of transport_reorder.c need fuel, which is
    an argument of the model: [reorder_submit_returns] shows that 4291 is enough for
    the pressure loop of a batch without interference. The worker and receive loops
    run for the number of rounds they are given, and [process_events] for the budget
    of the code, the capacity of the queue. The three ids the link manager tries are
    enough for its two slots.

    ** Interference

    Inside the transport other threads act at the lock operations: [transport_env],
    [reorder_env] and [rx_env] hold what they do there, constrained by a relation
    that says what they leave alone ([reorder_rely], [rx_rely]). A scheduler property
    holds for every answer to every operation, so whatever happens in between is
    covered. [LinkPathRace], [LinkLifeSafety] and [SwitchSystem] are step
    relations instead, of atomic accesses and of critical sections. In [SwitchSystem] the rest of the switching module may change, between
    any two steps, everything but a peer's identity, its synchronisation, what it
    acknowledged and the queue.

    ** Not modelled

    - Node, path probe, discovery and the switching
      policy with its maintenance protocol: own logic of the program, not reached.
      They appear as arguments: what the node answers for a source, the
      paths of a peer, the commits of the policy at any
      time.
    - Address translation, routes, TUN, DHCP, upgrade, the cellular, Wi-Fi and
      Ethernet modules, platform drivers, configuration, services, supervisor and
      application start-up: mostly system calls, external processes and devices.
    - The firmware of the microcontroller: a separate program.
    - Logging, and the rate-limited diagnostics that only feed it.
    - Vendored code: kernel drivers, cJSON, wpa_ctrl, CMSIS and the STM32 HAL.
    - Weak memory: atomic accesses are sequentially consistent, and the code between
      them runs at once. *)

From stdpp Require Export base option list list_numbers numbers gmap sets.
From Stdlib Require Export ZArith Lia.

#[global] Open Scope Z_scope.

(** ** Machine integers

    Unsigned integers are kept as [Z] in the range of their width; every
    arithmetic operation that C performs modulo [2^w] is written with its wrap. *)

Definition wrap (w x : Z) : Z := x mod 2 ^ w.

Abbreviation u8 := (wrap 8).
Abbreviation u16 := (wrap 16).
Abbreviation u32 := (wrap 32).
Abbreviation u64 := (wrap 64).

(** Conversion of a [uint32_t] to [int32_t] (two's complement). *)
Definition i32_of_u32 (x : Z) : Z :=
  if x <? 2 ^ 31 then x else x - 2 ^ 32.

Definition in_range (w x : Z) : Prop := 0 <= x < 2 ^ w.

Lemma pow32 : 2 ^ 32 = 4294967296. Proof. reflexivity. Qed.
Lemma pow31 : 2 ^ 31 = 2147483648. Proof. reflexivity. Qed.
Lemma pow16 : 2 ^ 16 = 65536. Proof. reflexivity. Qed.
Lemma pow8 : 2 ^ 8 = 256. Proof. reflexivity. Qed.
Lemma pow64 : 2 ^ 64 = 18446744073709551616. Proof. reflexivity. Qed.

(** [mlia]: linear arithmetic after the machine widths have been computed. *)
Ltac widths :=
  unfold wrap, in_range, i32_of_u32 in *;
  rewrite ?pow32, ?pow31, ?pow16, ?pow8, ?pow64 in *.
Ltac mlia := widths; (lia || (Z.div_mod_to_equations; lia)).

(** Turn the boolean comparisons of the code into propositions and close the
    arithmetic contradictions. *)
Ltac zb :=
  repeat match goal with
  | H : (_ =? _) = true |- _ => apply Z.eqb_eq in H
  | H : (_ =? _) = false |- _ => apply Z.eqb_neq in H
  | H : (_ <? _) = true |- _ => apply Z.ltb_lt in H
  | H : (_ <? _) = false |- _ => apply Z.ltb_ge in H
  | H : (_ <=? _) = true |- _ => apply Z.leb_le in H
  | H : (_ <=? _) = false |- _ => apply Z.leb_gt in H
  | H : (_ && _)%bool = true |- _ => apply andb_true_iff in H; destruct H
  | H : (_ || _)%bool = false |- _ => apply orb_false_iff in H; destruct H
  | H : negb _ = true |- _ => apply negb_true_iff in H
  | H : negb _ = false |- _ => apply negb_false_iff in H
  end.

(** Split a goal that is syntactically a conjunction. *)
Ltac splits := repeat match goal with |- _ /\ _ => split end.

(** Evaluate the next boolean test of the goal from the arithmetic context. *)
Ltac bsimp :=
  repeat match goal with
  | |- context [?a =? ?b] =>
      first [ replace (a =? b) with true by (symmetry; apply Z.eqb_eq; lia)
            | replace (a =? b) with false by (symmetry; apply Z.eqb_neq; lia) ]
  | |- context [?a <? ?b] =>
      first [ replace (a <? b) with true by (symmetry; apply Z.ltb_lt; lia)
            | replace (a <? b) with false by (symmetry; apply Z.ltb_ge; lia) ]
  | |- context [?a <=? ?b] =>
      first [ replace (a <=? b) with true by (symmetry; apply Z.leb_le; lia)
            | replace (a <=? b) with false by (symmetry; apply Z.leb_gt; lia) ]
  end; cbn [negb andb orb].

Lemma wrap_range w x : 0 <= w -> in_range w (wrap w x).
Proof. intros ?. apply Z.mod_pos_bound, Z.pow_pos_nonneg; lia. Qed.

Lemma wrap_small w x : in_range w x -> wrap w x = x.
Proof. apply Z.mod_small. Qed.

Lemma wrap_add_l w x y : wrap w (wrap w x + y) = wrap w (x + y).
Proof. apply Zplus_mod_idemp_l. Qed.

Lemma wrap_sub_idemp w x y : wrap w (wrap w x - wrap w y) = wrap w (x - y).
Proof. unfold wrap. by rewrite Zminus_mod_idemp_l, Zminus_mod_idemp_r. Qed.

(** The signed distance of two sequence numbers taken modulo [2^32] is the
    true distance when that distance fits in 31 bits. *)
Lemma i32_distance x y :
  - 2 ^ 31 <= x - y < 2 ^ 31 ->
  i32_of_u32 (u32 (u32 x - u32 y)) = x - y.
Proof.
  intros H. rewrite wrap_sub_idemp.
  set (d := x - y) in *. clearbody d. widths.
  destruct (decide (0 <= d)).
  - rewrite Z.mod_small by lia. bsimp. lia.
  - replace (d mod 4294967296) with (d + 4294967296)
      by (apply Z.mod_unique with (-1); lia).
    bsimp. lia.
Qed.

(** ** Error codes of <errno.h> used by the components (Linux values) *)

Definition EPERM := 1.
Definition ENOENT := 2.
Definition EIO := 5.
Definition EAGAIN := 11.
Definition ENOMEM := 12.
Definition EFAULT := 14.
Definition EBUSY := 16.
Definition EEXIST := 17.
Definition EXDEV := 18.
Definition ENODEV := 19.
Definition EINVAL := 22.
Definition ENOSPC := 28.
Definition EDEADLK := 35.
Definition ELOOP := 40.
Definition EPROTO := 71.
Definition EOVERFLOW := 75.
Definition EMSGSIZE := 90.
Definition EPROTONOSUPPORT := 93.
Definition EOPNOTSUPP := 95.
Definition ENETDOWN := 100.
Definition ENOBUFS := 105.
Definition ESHUTDOWN := 108.
Definition ECANCELED := 125.
Definition ETIMEDOUT := 110.
Definition EHOSTUNREACH := 113.
Definition EALREADY := 114.
Definition EINPROGRESS := 115.
Definition ESTALE := 116.

(** ** Return codes of the POSIX mutex calls

    The pthread library is not part of the repository: its return codes are an
    argument of every operation that branches on them. *)

Record mutex_api := MutexApi {
  mtx_init : Z;
  mtx_lock : Z;
  mtx_unlock : Z;
  mtx_destroy : Z }.

(** Documented behaviour of a default, correctly used mutex: every call
    succeeds with 0. *)
Definition mutex_ok (mx : mutex_api) : Prop :=
  mtx_init mx = 0 /\ mtx_lock mx = 0 /\ mtx_unlock mx = 0 /\ mtx_destroy mx = 0.

Definition mutex_default : mutex_api := MutexApi 0 0 0 0.

Lemma mutex_default_ok : mutex_ok mutex_default.
Proof. by repeat split. Qed.

(** ** Stuck-able state monad

    [M S A] runs from a state and either returns a result with the final state
    or is stuck ([None]): a failed [assert] or an access outside an object. *)

Definition M (S A : Type) : Type := S -> option (A * S).

#[global] Instance M_ret S : MRet (M S) := fun A a s => Some (a, s).
#[global] Instance M_bind S : MBind (M S) :=
  fun A B f m s => match m s with Some (a, s') => f a s' | None => None end.

Definition get {S} : M S S := fun s => Some (s, s).
Definition gets {S A} (f : S -> A) : M S A := fun s => Some (f s, s).
Definition modify {S} (f : S -> S) : M S unit := fun s => Some (tt, f s).
Definition stuck {S A} : M S A := fun _ => None.
Definition assert_ {S} (b : bool) : M S unit := if b then mret tt else stuck.
Definition of_option {S A} (o : option A) : M S A :=
  match o with Some a => mret a | None => stuck end.
Definition when {S} (b : bool) (m : M S unit) : M S unit :=
  if b then m else mret tt.

(** [mfor l f]: the loop [for (x in l) f(x)]. *)
Fixpoint mfor {S A} (l : list A) (f : A -> M S unit) : M S unit :=
  match l with
  | [] => mret tt
  | x :: l' => f x ;; mfor l' f
  end.

(** Run an operation of a part of the state. *)
Definition zoom {S T A} (proj : S -> T) (upd : T -> S -> S) (m : M T A) : M S A :=
  fun s => match m (proj s) with
           | Some (a, t) => Some (a, upd t s)
           | None => None
           end.

Section Monad.
Context {S A B : Type}.

Lemma bind_Some (m : M S A) (f : A -> M S B) s r :
  mbind f m s = Some r <-> exists a s', m s = Some (a, s') /\ f a s' = Some r.
Proof.
  unfold mbind, M_bind. destruct (m s) as [[a s']|]; naive_solver.
Qed.

Lemma bind_step (m : M S A) (f : A -> M S B) s a s' :
  m s = Some (a, s') -> mbind f m s = f a s'.
Proof. unfold mbind, M_bind. by intros ->. Qed.
End Monad.

(** The first step of a monadic run: the operations that always succeed are
    rewrite rules of the database [monad]; [mrun] normalises a run with them and
    [mstep E] takes a step whose result is the equation [E]. *)
Section MonadRules.
Context {S A B C : Type}.

Lemma bind_ret (a : A) (f : A -> M S B) s : mbind f (mret a : M S A) s = f a s.
Proof. done. Qed.

Lemma bind_get (f : S -> M S B) s : mbind f get s = f s s.
Proof. done. Qed.

Lemma bind_gets (g : S -> A) (f : A -> M S B) s : mbind f (gets g) s = f (g s) s.
Proof. done. Qed.

Lemma bind_modify (g : S -> S) (f : unit -> M S B) s : mbind f (modify g) s = f tt (g s).
Proof. done. Qed.

Lemma bind_assert_true (f : unit -> M S B) s : mbind f (assert_ true) s = f tt s.
Proof. done. Qed.

Lemma bind_of_option_Some (a : A) (f : A -> M S B) s : mbind f (of_option (Some a)) s = f a s.
Proof. done. Qed.

Lemma bind_when_true (m : M S unit) (f : unit -> M S B) s :
  mbind f (when true m) s = mbind f m s.
Proof. done. Qed.

Lemma bind_when_false (m : M S unit) (f : unit -> M S B) s : mbind f (when false m) s = f tt s.
Proof. done. Qed.

Lemma bind_assoc (m : M S A) (g : A -> M S B) (f : B -> M S C) s :
  mbind f (mbind g m) s = mbind (fun a => mbind f (g a)) m s.
Proof. unfold mbind, M_bind. by destruct (m s) as [[a s']|]. Qed.

Lemma ret_run (a : A) (s : S) : (mret a : M S A) s = Some (a, s).
Proof. done. Qed.

(** Runs are functional. *)
Lemma run_inj (r : option (A * S)) a b s t : r = Some (a, s) -> r = Some (b, t) -> a = b /\ s = t.
Proof. intros ->. by intros [=]. Qed.

Lemma zoom_run {T} (proj : S -> T) (upd : T -> S -> S) (m : M T A) s a t :
  m (proj s) = Some (a, t) -> zoom proj upd m s = Some (a, upd t s).
Proof. unfold zoom. by intros ->. Qed.
End MonadRules.

Create HintDb monad discriminated.
#[export] Hint Rewrite @bind_assoc @bind_ret @bind_get @bind_gets @bind_modify @bind_assert_true
  @bind_of_option_Some @bind_when_true @bind_when_false @ret_run : monad.

Ltac mrun := autorewrite with monad; cbn beta iota zeta.
Ltac mstep E := rewrite ?bind_assoc; rewrite (bind_step _ _ _ _ _ E); cbn beta iota zeta; mrun.

(** Full unfolding of the monad, for runs that compute. *)
Ltac munfold :=
  unfold get, gets, modify, assert_, of_option, stuck, when, zoom, mret, M_ret in *.
Ltac msimp :=
  repeat (progress (unfold mbind, M_bind, get, gets, modify, assert_, of_option,
                    stuck, when, zoom, mret, M_ret; cbn)).

(** ** Weakest preconditions

    [wp m Q s]: the run of [m] from [s] is not stuck and ends with [Q]. *)

Definition wp {S A} (m : M S A) (Q : A -> S -> Prop) (s : S) : Prop :=
  match m s with Some (a, s') => Q a s' | None => False end.

Section Wp.
Context {S A B : Type}.

Lemma wp_elim (m : M S A) Q s : wp m Q s -> exists a s', m s = Some (a, s') /\ Q a s'.
Proof. unfold wp. destruct (m s) as [[a s']|]; [|done]. intros H. by exists a, s'. Qed.

Lemma wp_run (m : M S A) (Q : A -> S -> Prop) s a s' : m s = Some (a, s') -> Q a s' -> wp m Q s.
Proof. unfold wp. by intros ->. Qed.

Lemma wp_mono (m : M S A) (P Q : A -> S -> Prop) s :
  wp m P s -> (forall a s', P a s' -> Q a s') -> wp m Q s.
Proof. unfold wp. destruct (m s) as [[a s']|]; auto. Qed.

Lemma wp_and (m : M S A) (P Q : A -> S -> Prop) s :
  wp m P s -> wp m Q s -> wp m (fun a s' => P a s' /\ Q a s') s.
Proof. unfold wp. by destruct (m s) as [[a s']|]. Qed.

Lemma wp_bind (m : M S A) (f : A -> M S B) Q s :
  wp m (fun a s' => wp (f a) Q s') s -> wp (mbind f m) Q s.
Proof. unfold wp, mbind, M_bind. by destruct (m s) as [[a s']|]. Qed.

Lemma wp_ret (a : A) (Q : A -> S -> Prop) s : Q a s -> wp (mret a) Q s.
Proof. done. Qed.

Lemma wp_when (b : bool) (m : M S unit) (Q : unit -> S -> Prop) s :
  (b = true -> wp m Q s) -> (b = false -> Q tt s) -> wp (when b m) Q s.
Proof. intros H1 H2. destruct b; [by apply H1|by apply H2]. Qed.

End Wp.

Lemma wp_get {S} (Q : S -> S -> Prop) (s : S) : Q s s -> wp get Q s.
Proof. done. Qed.

Lemma wp_gets {S A} (f : S -> A) (Q : A -> S -> Prop) s : Q (f s) s -> wp (gets f) Q s.
Proof. done. Qed.

Lemma wp_modify {S} (f : S -> S) (Q : unit -> S -> Prop) s : Q tt (f s) -> wp (modify f) Q s.
Proof. done. Qed.

Lemma wp_of_option {S A} (o : option A) (a : A) (Q : A -> S -> Prop) s :
  o = Some a -> Q a s -> wp (of_option o) Q s.
Proof. by intros ->. Qed.

Lemma wp_assert {S} (b : bool) (Q : unit -> S -> Prop) s : b = true -> Q tt s -> wp (assert_ b) Q s.
Proof. by intros ->. Qed.

(** A loop over [l] that keeps an invariant. *)
Lemma wp_mfor_inv {S A} (I : S -> Prop) (l : list A) (f : A -> M S unit) s :
  (forall x s, x ∈ l -> I s -> wp (f x) (fun _ s' => I s') s) -> I s -> wp (mfor l f) (fun _ s' => I s') s.
Proof.
  revert s. induction l as [|x l IH]; intros s Hf HI; [done|]. cbn [mfor]. apply wp_bind.
  eapply wp_mono; [apply Hf; [left|done]|]. intros [] s' HI'. apply IH; [|done]. intros; apply Hf; [by right|done].
Qed.
(** Take the next step of a run under [wp] as far as it is determined. *)
Ltac wstep :=
  repeat first
    [ apply wp_bind | apply wp_ret | apply wp_get | apply wp_gets | apply wp_modify ]; cbn beta iota zeta.

(** ** Loops that preserve an invariant *)

Lemma mfor_inv {S A} (I : S -> Prop) (l : list A) (f : A -> M S unit) s :
  (forall x s, x ∈ l -> I s -> exists s', f x s = Some (tt, s') /\ I s') ->
  I s -> exists s', mfor l f s = Some (tt, s') /\ I s'.
Proof.
  revert s. induction l as [|x l IH]; intros s Hf HI; cbn.
  - by exists s.
  - destruct (Hf x s) as (s1 & E & HI1); [left|done|].
    destruct (IH s1) as (s2 & E2 & HI2); [|done|].
    + intros y t Hy. apply Hf. by right.
    + exists s2. unfold mbind, M_bind. by rewrite E.
Qed.

Lemma mfor_app {S A} (l1 l2 : list A) (f : A -> M S unit) s :
  mfor (l1 ++ l2) f s = mbind (fun _ => mfor l2 f) (mfor l1 f) s.
Proof.
  revert s. induction l1 as [|x l1 IH]; intros s; cbn; [done|].
  unfold mbind, M_bind in *. destruct (f x s) as [[[] s']|]; [|done]. apply IH.
Qed.

(** ** Lists used as arrays *)

Lemma lookup_insert_case {A} (l : list A) i j x :
  (i < length l)%nat ->
  <[i:=x]> l !! j = if decide (i = j) then Some x else l !! j.
Proof.
  intros H. case_decide as E; subst.
  - by apply list_lookup_insert_eq.
  - by apply list_lookup_insert_ne.
Qed.

Definition nat_upto (n : Z) : list nat := seq 0 (Z.to_nat n).

(** Sum of an integer-valued function over a list. *)
Fixpoint sumZ {A} (f : A -> Z) (l : list A) : Z :=
  match l with
  | [] => 0
  | x :: l' => f x + sumZ f l'
  end.

Lemma sumZ_app {A} (f : A -> Z) l1 l2 : sumZ f (l1 ++ l2) = sumZ f l1 + sumZ f l2.
Proof. induction l1 as [|x l1 IH]; cbn; [done|]. rewrite IH. lia. Qed.

Lemma sumZ_nonneg {A} (f : A -> Z) l : (forall x, x ∈ l -> 0 <= f x) -> 0 <= sumZ f l.
Proof.
  induction l as [|x l IH]; cbn; intros H; [lia|].
  specialize (H x (list_elem_of_here _ _)) as Hx.
  assert (0 <= sumZ f l) by (apply IH; intros; apply H; by right). lia.
Qed.

Lemma alter_lookup {A} (f : A -> A) (l : list A) i x : l !! i = Some x -> alter f i l = <[i := f x]> l.
Proof.
  intros H. apply list_eq. intros j. destruct (decide (i = j)) as [<-|Hn].
  - rewrite list_lookup_alter_eq, H. symmetry. apply list_lookup_insert_eq. by eapply lookup_lt_Some.
  - by rewrite list_lookup_alter_ne, list_lookup_insert_ne.
Qed.

Lemma sumZ_insert {A} (f : A -> Z) (l : list A) i x y :
  l !! i = Some y -> sumZ f (<[i:=x]> l) = sumZ f l - f y + f x.
Proof.
  revert i. induction l as [|z l IH]; intros [|i] H; simplify_eq/=; [lia|].
  specialize (IH _ H). lia.
Qed.

Lemma sumZ_replicate {A} (f : A -> Z) n x : sumZ f (replicate n x) = Z.of_nat n * f x.
Proof. induction n as [|n IH]; cbn; [done|]. rewrite IH. lia. Qed.

Lemma sumZ_ext {A} (f g : A -> Z) l : (forall x, x ∈ l -> f x = g x) -> sumZ f l = sumZ g l.
Proof.
  induction l as [|x l IH]; cbn; intros H; [done|].
  rewrite (H x), IH; [done| |]; [intros; apply H; by right|left].
Qed.

Lemma sumZ_lookup_le {A} (f : A -> Z) l i x :
  (forall y, y ∈ l -> 0 <= f y) -> l !! i = Some x -> f x <= sumZ f l.
Proof.
  revert i. induction l as [|z l IH]; intros [|i] Hn H; cbn in *; simplify_eq.
  - assert (0 <= sumZ f l); [|lia]. apply sumZ_nonneg. intros. apply Hn. by right.
  - assert (f x <= sumZ f l). { eapply IH; eauto. intros. apply Hn. by right. }
    assert (0 <= f z) by (apply Hn; left). lia.
Qed.

(** The element just past a prefix. *)
Lemma insert_middle {A} (l r : list A) x y : <[length l := x]> (l ++ y :: r) = l ++ x :: r.
Proof. induction l as [|z l IH]; [done|]. simpl. by rewrite IH. Qed.

Lemma insert_seq_next {A} (l r : list A) i x y :
  length l = i -> <[i := x]> (l ++ y :: r) = l ++ x :: r.
Proof. intros <-. apply insert_middle. Qed.

Lemma fmap_seq_snoc {A} (f : nat -> A) i l : (f <$> seq 0 (S i)) ++ l = (f <$> seq 0 i) ++ f i :: l.
Proof. rewrite seq_S, fmap_app, <- app_assoc. done. Qed.

(** A filter keeps every element exactly when its test holds throughout. *)
Lemma filter_len_forallb {A} (P : A -> Prop) `{!forall x, Decision (P x)} (f : A -> bool) (l : list A) :
  (forall x, P x <-> f x = true) ->
  forallb f l = bool_decide (length (filter P l) = length l).
Proof.
  intros Hf. induction l as [|x l IH]; [done|]. cbn [forallb].
  pose proof (length_filter P l). rewrite filter_cons. specialize (Hf x).
  rewrite IH. destruct (decide (P x)) as [HP|HP]; cbn [length].
  - rewrite (proj1 Hf HP). apply bool_decide_ext. lia.
  - destruct (f x) eqn:E; [tauto|]. symmetry. apply bool_decide_eq_false. lia.
Qed.

Lemma sumZ_fmap {A B} (f : B -> Z) (g : A -> B) l : sumZ f (g <$> l) = sumZ (fun x => f (g x)) l.
Proof. induction l as [|x l IH]; cbn; [done|]. by rewrite IH. Qed.

(** ** Sums over the integers of an interval *)

(** [sum_from f a n] is [f a + f (a+1) + ... + f (a+n-1)]. *)
Definition sum_from (f : Z -> Z) (a n : Z) : Z :=
  sumZ (fun i => f (a + Z.of_nat i)) (seq 0 (Z.to_nat n)).

Lemma sum_from_ext f g a n :
  (forall k, a <= k < a + n -> f k = g k) -> sum_from f a n = sum_from g a n.
Proof.
  intros H. apply sumZ_ext. intros i Hi%elem_of_seq. apply H. lia.
Qed.

Lemma sum_from_empty f a n : n <= 0 -> sum_from f a n = 0.
Proof. intros H. unfold sum_from. by replace (Z.to_nat n) with 0%nat by lia. Qed.

Lemma sum_from_shift f a b n : sum_from f (a + b) n = sum_from (fun k => f (k + b)) a n.
Proof. unfold sum_from. apply sumZ_ext. intros i _. f_equal. lia. Qed.

Lemma sumZ_seq_shift (f : nat -> Z) a n : sumZ f (seq a n) = sumZ (fun i => f (a + i)%nat) (seq 0 n).
Proof.
  rewrite <- (sumZ_fmap f (fun i => (a + i)%nat)). f_equal.
  rewrite fmap_add_seq. by rewrite Nat.add_0_r.
Qed.

Lemma sum_from_split f a m n :
  0 <= m -> 0 <= n -> sum_from f a (m + n) = sum_from f a m + sum_from f (a + m) n.
Proof.
  intros Hm Hn. unfold sum_from. rewrite Z2Nat.inj_add, seq_app, sumZ_app by lia.
  f_equal. rewrite sumZ_seq_shift. apply sumZ_ext. intros i _. f_equal. lia.
Qed.

Lemma sum_from_const c a n : 0 <= n -> sum_from (fun _ => c) a n = n * c.
Proof.
  intros Hn. unfold sum_from.
  assert (forall l : list nat, sumZ (fun _ => c) l = Z.of_nat (length l) * c) as ->.
  { induction l as [|x l IH]; cbn [sumZ length]; [lia|].
    rewrite IH, Nat2Z.inj_succ. lia. }
  by rewrite length_seq, Z2Nat.id.
Qed.

Lemma sum_from_nonneg f a n : (forall k, 0 <= f k) -> 0 <= sum_from f a n.
Proof. intros H. by apply sumZ_nonneg. Qed.

Lemma sum_from_le_const f a n c : 0 <= n -> (forall k, f k <= c) -> sum_from f a n <= n * c.
Proof.
  intros Hn H. rewrite <- (sum_from_const c a n Hn). unfold sum_from.
  induction (seq 0 (Z.to_nat n)) as [|x l IH]; cbn; [lia|].
  specialize (H (a + Z.of_nat x)). lia.
Qed.

(** The sum read from the other end of the interval. *)
Lemma sum_from_reverse f a n :
  0 <= n -> sum_from f a n = sum_from (fun k => f (2 * a + n - 1 - k)) a n.
Proof.
  intros Hn. unfold sum_from.
  assert (forall (m : nat) a (f : Z -> Z), sumZ (fun i => f (a + Z.of_nat i)) (seq 0 m) =
    sumZ (fun i => f (a + Z.of_nat m - 1 - Z.of_nat i)) (seq 0 m)) as H.
  { clear. intros m a. induction m as [|m IH]; intros f; [done|].
    rewrite seq_S at 1. rewrite sumZ_app. cbn [sumZ seq].
    rewrite IH, (sumZ_seq_shift _ 1). cbn [Nat.add].
    rewrite (sumZ_ext (fun i => f (a + Z.of_nat (S m) - 1 - Z.of_nat (S i)))
      (fun i => f (a + Z.of_nat m - 1 - Z.of_nat i)) (seq 0 m)); [|intros i _; f_equal; lia].
    replace (a + Z.of_nat (S m) - 1 - Z.of_nat 0) with (a + Z.of_nat m) by lia. lia. }
  rewrite H. apply sumZ_ext. intros i _. f_equal. lia.
Qed.
