(* ===== verification/Bytes.v ===== *)
(** * Network byte order

    [htons]/[htonl] followed by [memcpy] writes the bytes of an integer most
    significant first; the wire codecs are stated on these byte lists. A byte is
    an integer of [0, 256). *)

From S2P Require Import Prelude.

Definition byte_ok (b : Z) : Prop := 0 <= b < 256.

(** [be_bytes n x]: the [n] low bytes of [x], most significant first. *)
Fixpoint be_bytes (n : nat) (x : Z) : list Z :=
  match n with
  | O => []
  | S n' => be_bytes n' (x / 256) ++ [x mod 256]
  end.

Definition be_value (l : list Z) : Z := foldl (fun acc b => acc * 256 + b) 0 l.

Lemma be_value_snoc l b : be_value (l ++ [b]) = be_value l * 256 + b.
Proof. unfold be_value. by rewrite foldl_app. Qed.

Lemma length_be_bytes n : forall x, length (be_bytes n x) = n.
Proof. induction n as [|n IH]; intros x; cbn; [done|]. rewrite length_app, IH. cbn. lia. Qed.

Lemma be_bytes_ok n : forall x, Forall byte_ok (be_bytes n x).
Proof.
  induction n as [|n IH]; intros x; cbn; [done|]. apply Forall_app. split; [done|].
  repeat constructor; apply Z.mod_pos_bound; lia.
Qed.

Lemma be_value_bytes n : forall x, 0 <= x < 256 ^ Z.of_nat n -> be_value (be_bytes n x) = x.
Proof.
  induction n as [|n IH]; intros x Hx; cbn [be_bytes].
  - cbn in *. unfold be_value. cbn. lia.
  - rewrite Nat2Z.inj_succ, Z.pow_succ_r in Hx by lia. rewrite be_value_snoc, IH.
    + pose proof (Z.div_mod x 256). lia.
    + split; [apply Z.div_pos; lia|]. apply Z.div_lt_upper_bound; lia.
Qed.

Lemma be_bytes_value l : Forall byte_ok l -> be_bytes (length l) (be_value l) = l.
Proof.
  induction l as [|b l IH] using rev_ind; intros H; [done|].
  apply Forall_app in H as [Hl Hb]. apply Forall_inv in Hb. unfold byte_ok in Hb.
  rewrite length_app, Nat.add_1_r, be_value_snoc. cbn [be_bytes].
  rewrite Z.div_add_l, (Z.div_small b) by lia. rewrite Z.add_0_r.
  rewrite (Z.add_comm _ b), Z.mod_add, (Z.mod_small b) by lia.
  by rewrite IH.
Qed.

Lemma be_value_range l : Forall byte_ok l -> 0 <= be_value l < 256 ^ Z.of_nat (length l).
Proof.
  induction l as [|b l IH] using rev_ind; intros H; [unfold be_value; cbn; lia|].
  apply Forall_app in H as [Hl Hb]. apply Forall_inv in Hb. unfold byte_ok in Hb. specialize (IH Hl).
  rewrite be_value_snoc, length_app, Nat2Z.inj_add, Z.pow_add_r by lia.
  change (256 ^ Z.of_nat (length [b])) with 256. lia.
Qed.

(** Field [n] bytes long at offset [off] of a byte list. *)
Definition field (off n : nat) (l : list Z) : Z := be_value (take n (drop off l)).

Lemma field_here n (f rest : list Z) : length f = n -> field 0 n (f ++ rest) = be_value f.
Proof. intros <-. unfold field. by rewrite drop_0, take_app_length. Qed.

Lemma field_skip off n (f rest : list Z) :
  (length f <= off)%nat -> field off n (f ++ rest) = field (off - length f) n rest.
Proof. intros H. unfold field. by rewrite drop_app_ge. Qed.
