(* ===== verification/PacketStore.v ===== *)
(** * Interface between the packet pool and its clients

    What core/packet/linkg_packet_pool.c promises to the components that only
    hold packet references (fragment pairing, reorder): reference counting with
    NULL-tolerant [retain]/[release] and access to the traffic flags. The
    clients' theorems are proved against this interface; [PacketPool] discharges
    its laws. *)

From S2P Require Import Prelude.

(** Clients keep the count of a packet below this bound, some way from the
    overflow of the 32-bit counter. *)
Definition ps_room : Z := 2 ^ 32 - 1024.

Class PacketStore (S : Type) := {
  ps_inv : S -> Prop;
  ps_refs : S -> nat -> Z;
  ps_flags : S -> nat -> Z;
  ps_retain : option nat -> M S unit;
  ps_release : option nat -> M S unit;
  ps_update_flags : nat -> (Z -> Z) -> M S unit }.

(** One reference of packet [i], as a contribution to the count of packet [j]. *)
Definition one_ref (i j : nat) : Z := if decide (i = j) then 1 else 0.

Class PacketStoreLaws (S : Type) `{PacketStore S} := {
  ps_refs_nonneg s i : ps_inv s -> 0 <= ps_refs s i;
  ps_retain_null s : ps_retain None s = Some (tt, s);
  ps_release_null s : ps_release None s = Some (tt, s);
  ps_retain_ok s i : ps_inv s -> 0 < ps_refs s i < ps_room ->
    exists s', ps_retain (Some i) s = Some (tt, s') /\ ps_inv s' /\
      (forall j, ps_refs s' j = ps_refs s j + one_ref i j) /\
      (forall j, ps_flags s' j = ps_flags s j);
  ps_release_ok s i : ps_inv s -> 0 < ps_refs s i ->
    exists s', ps_release (Some i) s = Some (tt, s') /\ ps_inv s' /\
      (forall j, ps_refs s' j = ps_refs s j - one_ref i j) /\
      (forall j, j <> i -> ps_flags s' j = ps_flags s j) /\
      (1 < ps_refs s i -> ps_flags s' i = ps_flags s i);
  ps_update_flags_ok s i f : ps_inv s -> 0 < ps_refs s i ->
    exists s', ps_update_flags i f s = Some (tt, s') /\ ps_inv s' /\
      (forall j, ps_refs s' j = ps_refs s j) /\
      (forall j, ps_flags s' j = if decide (i = j) then f (ps_flags s j) else ps_flags s j) }.

Lemma one_ref_same i : one_ref i i = 1.
Proof. unfold one_ref. by rewrite decide_True. Qed.

Lemma one_ref_other i j : i <> j -> one_ref i j = 0.
Proof. intros. unfold one_ref. by rewrite decide_False. Qed.

Lemma one_ref_range i j : 0 <= one_ref i j <= 1.
Proof. unfold one_ref. case_decide; lia. Qed.

(** References held by an optional pointer. *)
Definition held_opt (o : option nat) (j : nat) : Z :=
  match o with Some i => one_ref i j | None => 0 end.

Lemma held_opt_range o j : 0 <= held_opt o j <= 1.
Proof. destruct o as [i|]; cbn; [apply one_ref_range|lia]. Qed.

Section Derived.
Context {S : Type} `{PacketStoreLaws S}.

(** Releasing an optional pointer that is covered by its references. *)
Lemma release_opt s o :
  ps_inv s -> (forall j, held_opt o j <= ps_refs s j) ->
  exists s', ps_release o s = Some (tt, s') /\ ps_inv s' /\
    forall j, ps_refs s' j = ps_refs s j - held_opt o j.
Proof.
  intros Hi Hc. destruct o as [i|]; cbn in *.
  - specialize (Hc i) as Hp. rewrite one_ref_same in Hp.
    destruct (ps_release_ok s i Hi ltac:(lia)) as (s'&E&I&Rr&_). by exists s'.
  - exists s. rewrite ps_release_null. split_and!; [done..|]. intros. lia.
Qed.
End Derived.
