(* ===== verification/PacketPool.v ===== *)
(** * Packet pool  (core/packet/linkg_packet_pool.c, linkg_packet_pool.h)

    The reference-counted packet pool every data-plane component shares: the
    descriptor array, the stack of free descriptors and the contiguous slot
    memory. The program creates one pool (app/linkg_main.c); a packet pointer is
    an index into its descriptor array, a slot pointer an offset into its data
    region. [None] is NULL. A failed [assert] or an access outside an array is
    the stuck state of the monad. *)

From S2P Require Import Prelude.
From S2P Require Import PacketStore.

Abbreviation pkt_ptr := nat.
Abbreviation pool_ptr := nat.

(** ** Data *)

Definition LINKG_PACKET_SLOT_ALIGNMENT := 64.

Definition LINKG_PACKET_FLAG_NONE := 0.
Definition LINKG_PACKET_FLAG_REALTIME := Z.shiftl 1 0.
Definition LINKG_PACKET_FLAG_VIDEO := Z.shiftl 1 1.
Definition LINKG_PACKET_FLAG_TX_GROUP_FIRST := Z.shiftl 1 16.
Definition LINKG_PACKET_FLAG_TX_GROUP_LAST := Z.shiftl 1 17.
Definition LINKG_PACKET_FLAG_TX_GROUP_MASK :=
  Z.lor LINKG_PACKET_FLAG_TX_GROUP_FIRST LINKG_PACKET_FLAG_TX_GROUP_LAST.

Record linkg_packet_pool_config := PoolConfig {
  cfg_packet_count : Z;
  cfg_slot_size : Z;
  cfg_headroom : Z }.

Record linkg_packet := Packet {
  pk_pool : option pool_ptr;
  pk_slot : option Z;
  pk_reference_count : Z;
  pk_data_offset : Z;
  pk_data_length : Z;
  pk_flags : Z }.

(** [po_addr] is the address of the pool object itself. *)
Record linkg_packet_pool := Pool {
  po_addr : pool_ptr;
  po_packets : option (list linkg_packet);
  po_free_packets : option (list (option pkt_ptr));
  po_data_region : option (list Z);
  po_packet_count : Z;
  po_slot_size : Z;
  po_slot_stride : Z;
  po_headroom : Z;
  po_free_count : Z;
  po_initialized : bool }.

(** The object after [memset(pool, 0, sizeof( *pool))]. *)
Definition pool_zero (addr : pool_ptr) : linkg_packet_pool :=
  Pool addr None None None 0 0 0 0 0 false.

Definition packet_zero : linkg_packet := Packet None None 0 0 0 0.

(** Field updates. *)
Definition set_refcount (n : Z) (k : linkg_packet) :=
  Packet (pk_pool k) (pk_slot k) n (pk_data_offset k) (pk_data_length k) (pk_flags k).
Definition set_window (off len : Z) (k : linkg_packet) :=
  Packet (pk_pool k) (pk_slot k) (pk_reference_count k) off len (pk_flags k).
Definition set_flags (f : Z) (k : linkg_packet) :=
  Packet (pk_pool k) (pk_slot k) (pk_reference_count k) (pk_data_offset k) (pk_data_length k) f.
Definition set_home (pool : pool_ptr) (slot : Z) (k : linkg_packet) :=
  Packet (Some pool) (Some slot) (pk_reference_count k) (pk_data_offset k) (pk_data_length k) (pk_flags k).

Definition with_packets (ks : list linkg_packet) (p : linkg_packet_pool) :=
  Pool (po_addr p) (Some ks) (po_free_packets p) (po_data_region p) (po_packet_count p)
       (po_slot_size p) (po_slot_stride p) (po_headroom p) (po_free_count p) (po_initialized p).
Definition with_free (fs : list (option pkt_ptr)) (n : Z) (p : linkg_packet_pool) :=
  Pool (po_addr p) (po_packets p) (Some fs) (po_data_region p) (po_packet_count p)
       (po_slot_size p) (po_slot_stride p) (po_headroom p) n (po_initialized p).
Definition with_data (d : list Z) (p : linkg_packet_pool) :=
  Pool (po_addr p) (po_packets p) (po_free_packets p) (Some d) (po_packet_count p)
       (po_slot_size p) (po_slot_stride p) (po_headroom p) (po_free_count p) (po_initialized p).
Definition with_initialized (n : Z) (b : bool) (p : linkg_packet_pool) :=
  Pool (po_addr p) (po_packets p) (po_free_packets p) (po_data_region p) (po_packet_count p)
       (po_slot_size p) (po_slot_stride p) (po_headroom p) n b.

Abbreviation PM := (M linkg_packet_pool).

(** ** Memory access *)

Definition packet_at (i : pkt_ptr) : PM linkg_packet :=
  fun p => match po_packets p ≫= (.!! i) with Some k => Some (k, p) | None => None end.

Definition packet_update (i : pkt_ptr) (f : linkg_packet -> linkg_packet) : PM unit :=
  fun p => match po_packets p with
           | Some ks => match ks !! i with
                        | Some k => Some (tt, with_packets (<[i := f k]> ks) p)
                        | None => None
                        end
           | None => None
           end.

(** Dereference of [packet->pool]: only the program's pool exists. *)
Definition pool_deref (q : option pool_ptr) : PM unit :=
  p ← get; assert_ (bool_decide (q = Some (po_addr p))).

Definition free_read (i : Z) : PM (option pkt_ptr) :=
  p ← get; of_option (po_free_packets p ≫= (.!! Z.to_nat i)).

Definition free_write (i : Z) (v : option pkt_ptr) (n : Z) : PM unit :=
  p ← get;
  match po_free_packets p with
  | Some fs => assert_ (bool_decide (Z.to_nat i < length fs)%nat) ;;
               modify (with_free (<[Z.to_nat i := v]> fs) n)
  | None => stuck
  end.

Definition set_free_count (n : Z) : PM unit :=
  modify (fun p => Pool (po_addr p) (po_packets p) (po_free_packets p) (po_data_region p)
                        (po_packet_count p) (po_slot_size p) (po_slot_stride p)
                        (po_headroom p) n (po_initialized p)).

(** [memcpy] from and to the data region. *)
Definition data_load (addr : Z) (n : nat) : PM (list Z) :=
  p ← get;
  match po_data_region p with
  | Some d => assert_ ((0 <=? addr) && (addr + Z.of_nat n <=? Z.of_nat (length d))) ;;
              mret (take n (drop (Z.to_nat addr) d))
  | None => stuck
  end.

Definition data_store (addr : Z) (bs : list Z) : PM unit :=
  p ← get;
  match po_data_region p with
  | Some d => assert_ ((0 <=? addr) && (addr + Z.of_nat (length bs) <=? Z.of_nat (length d))) ;;
              modify (with_data (list_inserts (Z.to_nat addr) bs d))
  | None => stuck
  end.

(** ** Internal helpers *)

Definition _linkg_packet_release_reference (i : pkt_ptr) : PM bool :=
  k ← packet_at i;
  packet_update i (set_refcount (u32 (pk_reference_count k - 1))) ;;
  assert_ (0 <? pk_reference_count k) ;;
  mret (pk_reference_count k =? 1).

Definition _linkg_packet_reset (packet : option pkt_ptr) : PM unit :=
  match packet with
  | None => mret tt
  | Some i =>
      k ← packet_at i;
      match pk_pool k with
      | None => mret tt
      | Some q =>
          pool_deref (Some q) ;;
          headroom ← gets po_headroom;
          packet_update i (fun k => set_flags LINKG_PACKET_FLAG_NONE (set_window headroom 0 k))
      end
  end.

(** ** Life cycle *)

(** Results of the allocation calls and the platform's [SIZE_MAX]. *)
Record alloc_api := AllocApi {
  calloc_packets : bool;
  calloc_free_packets : bool;
  memalign_ret : Z;
  size_max : Z }.

Definition alloc_ok (al : alloc_api) : Prop :=
  calloc_packets al = true /\ calloc_free_packets al = true /\ memalign_ret al = 0.

Definition pool_init_packet (i : nat) : PM unit :=
  addr ← gets po_addr;
  stride ← gets po_slot_stride;
  packet_update i (set_home addr (Z.of_nat i * stride)) ;;
  _linkg_packet_reset (Some i) ;;
  packet_update i (set_refcount 0) ;;
  n ← gets po_free_count;
  free_write (Z.of_nat i) (Some i) n.

Definition linkg_packet_pool_init (mx : mutex_api) (al : alloc_api)
    (pool : option pool_ptr) (config : option linkg_packet_pool_config) : PM Z :=
  match pool, config with
  | Some self, Some cfg =>
      pool_deref (Some self) ;;
      p ← get;
      if po_initialized p then mret (- EALREADY)
      else if (cfg_packet_count cfg =? 0) || (cfg_slot_size cfg =? 0) then mret (- EINVAL)
      else if cfg_slot_size cfg <=? cfg_headroom cfg then mret (- EINVAL)
      else if 2 ^ 32 - 1 - (LINKG_PACKET_SLOT_ALIGNMENT - 1) <? cfg_slot_size cfg
      then mret (- EOVERFLOW)
      else
        let slot_stride := Z.land (u32 (cfg_slot_size cfg + LINKG_PACKET_SLOT_ALIGNMENT - 1))
                                  (u32 (Z.lnot (LINKG_PACKET_SLOT_ALIGNMENT - 1))) in
        if size_max al / slot_stride <? cfg_packet_count cfg then mret (- EOVERFLOW)
        else
          let data_region_size := cfg_packet_count cfg * slot_stride in
          let fail ret := modify (fun p => pool_zero (po_addr p)) ;; mret ret in
          modify (fun p => Pool (po_addr p) None None None (cfg_packet_count cfg)
                                (cfg_slot_size cfg) slot_stride (cfg_headroom cfg) 0 false) ;;
          if negb (calloc_packets al) then fail (- ENOMEM) else
          modify (with_packets (replicate (Z.to_nat (cfg_packet_count cfg)) packet_zero)) ;;
          if negb (calloc_free_packets al) then fail (- ENOMEM) else
          modify (with_free (replicate (Z.to_nat (cfg_packet_count cfg)) None) 0) ;;
          if negb (memalign_ret al =? 0) then fail (- memalign_ret al) else
          modify (with_data (replicate (Z.to_nat data_region_size) 0)) ;;
          if negb (mtx_init mx =? 0) then fail (- mtx_init mx) else
          mfor (nat_upto (cfg_packet_count cfg)) pool_init_packet ;;
          modify (with_initialized (cfg_packet_count cfg) true) ;;
          mret 0
  | _, _ => mret (- EINVAL)
  end.

Definition linkg_packet_pool_deinit (mx : mutex_api) (pool : option pool_ptr) : PM Z :=
  match pool with
  | None => mret (- EINVAL)
  | Some self =>
      pool_deref (Some self) ;;
      p ← get;
      if negb (po_initialized p) then mret 0
      else if bool_decide (po_packets p = None) || bool_decide (po_free_packets p = None) ||
              bool_decide (po_data_region p = None) || (po_packet_count p =? 0)
      then mret (- EINVAL)
      else if negb (mtx_lock mx =? 0) then mret (- mtx_lock mx)
      else if negb (po_free_count p =? po_packet_count p)
      then if negb (mtx_unlock mx =? 0) then mret (- mtx_unlock mx) else mret (- EBUSY)
      else if negb (mtx_unlock mx =? 0) then mret (- mtx_unlock mx)
      else if negb (mtx_destroy mx =? 0) then mret (- mtx_destroy mx)
      else modify (fun p => pool_zero (po_addr p)) ;; mret 0
  end.

(** ** Allocation *)

(** [packet = pool->free_packets[--pool->free_count]], reset, one reference. *)
Definition pool_pop : PM (option pkt_ptr) :=
  n ← gets po_free_count;
  set_free_count (u32 (n - 1)) ;;
  packet ← free_read (u32 (n - 1));
  _linkg_packet_reset packet ;;
  match packet with
  | Some i => packet_update i (set_refcount 1) ;; mret packet
  | None => stuck
  end.

Definition linkg_packet_pool_alloc (mx : mutex_api) (pool : option pool_ptr)
    : PM (option pkt_ptr) :=
  match pool with
  | None => mret None
  | Some self =>
      pool_deref (Some self) ;;
      p ← get;
      if negb (po_initialized p) || bool_decide (po_free_packets p = None) then mret None
      else if negb (mtx_lock mx =? 0) then mret None
      else if po_free_count p =? 0 then mret None
      else pool_pop
  end.

Fixpoint pool_pop_n (n : nat) : PM (list (option pkt_ptr)) :=
  match n with
  | O => mret []
  | S n' => x ← pool_pop; xs ← pool_pop_n n'; mret (x :: xs)
  end.

(** The [packets] output array is the list of the second component. *)
Definition linkg_packet_pool_alloc_batch (mx : mutex_api) (pool : option pool_ptr)
    (packets_null : bool) (packet_count : Z) : PM (Z * list (option pkt_ptr)) :=
  match pool with
  | None => mret (0, [])
  | Some self =>
      pool_deref (Some self) ;;
      p ← get;
      if negb (po_initialized p) || bool_decide (po_free_packets p = None) ||
         packets_null || (packet_count =? 0)
      then mret (0, [])
      else if negb (mtx_lock mx =? 0) then mret (0, [])
      else
        let allocated_count :=
          if po_free_count p <? packet_count then po_free_count p else packet_count in
        xs ← pool_pop_n (Z.to_nat allocated_count);
        mret (allocated_count, xs)
  end.

(** ** References *)

Definition linkg_packet_retain (packet : option pkt_ptr) : PM unit :=
  match packet with
  | None => mret tt
  | Some i =>
      k ← packet_at i;
      packet_update i (set_refcount (u32 (pk_reference_count k + 1))) ;;
      assert_ (0 <? pk_reference_count k) ;;
      assert_ (pk_reference_count k <? 2 ^ 32 - 1)
  end.

Definition linkg_packet_release (mx : mutex_api) (packet : option pkt_ptr) : PM unit :=
  match packet with
  | None => mret tt
  | Some i =>
      k ← packet_at i;
      match pk_pool k with
      | None => mret tt
      | Some q =>
          last ← _linkg_packet_release_reference i;
          if negb last then mret tt
          else
            pool_deref (Some q) ;;
            _linkg_packet_reset (Some i) ;;
            if negb (mtx_lock mx =? 0) then mret tt
            else
              p ← get;
              if po_free_count p <? po_packet_count p
              then free_write (po_free_count p) (Some i) (u32 (po_free_count p + 1))
              else mret tt
      end
  end.

Definition pool_release_one (self : pool_ptr) (packet : option pkt_ptr) : PM unit :=
  match packet with
  | None => mret tt
  | Some i =>
      k ← packet_at i;
      if negb (bool_decide (pk_pool k = Some self)) then stuck
      else
        last ← _linkg_packet_release_reference i;
        if negb last then mret tt
        else
          p ← get;
          if po_packet_count p <=? po_free_count p then stuck
          else
            _linkg_packet_reset (Some i) ;;
            p ← get;
            free_write (po_free_count p) (Some i) (u32 (po_free_count p + 1))
  end.

Definition linkg_packet_pool_release_batch (mx : mutex_api) (pool : option pool_ptr)
    (packets : option (list (option pkt_ptr))) (packet_count : Z) : PM unit :=
  match pool, packets with
  | Some self, Some ps =>
      if packet_count =? 0 then mret tt
      else
        pool_deref (Some self) ;;
        if negb (mtx_lock mx =? 0) then mret tt
        else
          assert_ (packet_count <=? Z.of_nat (length ps)) ;;
          mfor (take (Z.to_nat packet_count) ps) (pool_release_one self)
  | _, _ => mret tt
  end.

(** ** Data access *)

Definition linkg_packet_data (i : pkt_ptr) : PM Z :=
  k ← packet_at i;
  slot ← of_option (pk_slot k);
  mret (slot + pk_data_offset k).

Definition linkg_packet_const_data := linkg_packet_data.

Definition linkg_packet_capacity (i : pkt_ptr) : PM Z :=
  k ← packet_at i;
  pool_deref (pk_pool k) ;;
  p ← get;
  mret (u32 (po_slot_size p - pk_data_offset k)).

Definition linkg_packet_pull (packet : option pkt_ptr) (data_size : Z) : PM (option Z) :=
  match packet with
  | None => mret None
  | Some i =>
      k ← packet_at i;
      if bool_decide (pk_slot k = None) || (pk_data_length k <? data_size) then mret None
      else
        packet_update i (set_window (u32 (pk_data_offset k + data_size))
                                    (u32 (pk_data_length k - data_size))) ;;
        a ← linkg_packet_data i; mret (Some a)
  end.

Definition linkg_packet_headroom (i : pkt_ptr) : PM Z :=
  k ← packet_at i; mret (pk_data_offset k).

Definition linkg_packet_push (packet : option pkt_ptr) (header_size : Z) : PM (option Z) :=
  match packet with
  | None => mret None
  | Some i =>
      if header_size =? 0 then mret None
      else
        k ← packet_at i;
        if pk_data_offset k <? header_size then mret None
        else
          packet_update i (set_window (u32 (pk_data_offset k - header_size))
                                      (u32 (pk_data_length k + header_size))) ;;
          a ← linkg_packet_data i; mret (Some a)
  end.

(** ** Traffic flags *)

Definition linkg_packet_is_realtime (packet : option linkg_packet) : bool :=
  match packet with
  | None => false
  | Some k => negb (Z.land (pk_flags k) LINKG_PACKET_FLAG_REALTIME =? 0)
  end.

Definition linkg_packet_set_realtime (packet : option pkt_ptr) (realtime : bool) : PM unit :=
  match packet with
  | None => mret tt
  | Some i =>
      if realtime
      then packet_update i (fun k => set_flags (Z.land (pk_flags k) (u32 (Z.lnot LINKG_PACKET_FLAG_VIDEO))) k) ;;
           packet_update i (fun k => set_flags (Z.lor (pk_flags k) LINKG_PACKET_FLAG_REALTIME) k)
      else packet_update i (fun k => set_flags (Z.land (pk_flags k) (u32 (Z.lnot LINKG_PACKET_FLAG_REALTIME))) k)
  end.

Definition linkg_packet_is_video (packet : option linkg_packet) : bool :=
  match packet with
  | None => false
  | Some k => negb (Z.land (pk_flags k) LINKG_PACKET_FLAG_VIDEO =? 0)
  end.

Definition linkg_packet_set_video (packet : option pkt_ptr) (video : bool) : PM unit :=
  match packet with
  | None => mret tt
  | Some i =>
      if video
      then packet_update i (fun k => set_flags (Z.land (pk_flags k) (u32 (Z.lnot LINKG_PACKET_FLAG_REALTIME))) k) ;;
           packet_update i (fun k => set_flags (Z.lor (pk_flags k) LINKG_PACKET_FLAG_VIDEO) k)
      else packet_update i (fun k => set_flags (Z.land (pk_flags k) (u32 (Z.lnot LINKG_PACKET_FLAG_VIDEO))) k)
  end.

Definition linkg_packet_is_data (packet : option linkg_packet) : bool :=
  match packet with
  | None => false
  | Some k => Z.land (pk_flags k) (Z.lor LINKG_PACKET_FLAG_REALTIME LINKG_PACKET_FLAG_VIDEO) =? 0
  end.

Definition linkg_packet_set_data (packet : option pkt_ptr) : PM unit :=
  match packet with
  | None => mret tt
  | Some i =>
      packet_update i (fun k => set_flags (Z.land (pk_flags k)
        (u32 (Z.lnot (Z.lor LINKG_PACKET_FLAG_REALTIME LINKG_PACKET_FLAG_VIDEO)))) k)
  end.

#[global] Arguments packet_at : simpl never.
#[global] Arguments packet_update : simpl never.
#[global] Arguments pool_deref : simpl never.
#[global] Arguments free_read : simpl never.
#[global] Arguments free_write : simpl never.
#[global] Arguments data_load : simpl never.
#[global] Arguments data_store : simpl never.
#[global] Arguments _linkg_packet_reset : simpl never.
#[global] Arguments pool_pop : simpl never.
#[global] Arguments linkg_packet_retain : simpl never.
#[global] Arguments linkg_packet_release : simpl never.

(** ** Representation invariant

    [pool_repr p ks fs d free]: the initialised pool [p] has descriptors [ks],
    free array [fs], data region [d], and [free] is the live part of the free
    stack: without duplicates and exactly the descriptors with no reference. *)

Record packet_wf (p : linkg_packet_pool) (i : nat) (k : linkg_packet) : Prop := {
  kwf_pool : pk_pool k = Some (po_addr p);
  kwf_slot : pk_slot k = Some (Z.of_nat i * po_slot_stride p);
  kwf_refs : 0 <= pk_reference_count k < 2 ^ 32;
  kwf_off : 0 <= pk_data_offset k;
  kwf_len : 0 <= pk_data_length k;
  kwf_end : pk_data_offset k + pk_data_length k <= po_slot_size p }.

Record pool_repr (p : linkg_packet_pool) (ks : list linkg_packet)
    (fs : list (option pkt_ptr)) (d : list Z) (free : list nat) : Prop := {
  rp_packets : po_packets p = Some ks;
  rp_free : po_free_packets p = Some fs;
  rp_data : po_data_region p = Some d;
  rp_init : po_initialized p = true;
  rp_count : Z.of_nat (length ks) = po_packet_count p;
  rp_fcount : length fs = length ks;
  rp_dlen : Z.of_nat (length d) = po_packet_count p * po_slot_stride p;
  rp_range : 0 < po_packet_count p < 2 ^ 32;
  rp_head : 0 <= po_headroom p < po_slot_size p;
  rp_stride : po_slot_size p <= po_slot_stride p < 2 ^ 32;
  rp_align : po_slot_stride p mod LINKG_PACKET_SLOT_ALIGNMENT = 0;
  rp_wf : forall i k, ks !! i = Some k -> packet_wf p i k;
  rp_stack : take (Z.to_nat (po_free_count p)) fs = Some <$> free;
  rp_flen : po_free_count p = Z.of_nat (length free);
  rp_nodup : NoDup free;
  rp_live : forall i, i ∈ free <-> exists k, ks !! i = Some k /\ pk_reference_count k = 0 }.

Definition pool_wf (p : linkg_packet_pool) : Prop :=
  exists ks fs d free, pool_repr p ks fs d free.

(** Observations used by the clients of the pool. *)
Definition packet_of (p : linkg_packet_pool) (i : nat) : option linkg_packet :=
  po_packets p ≫= (.!! i).

Definition refs (p : linkg_packet_pool) (i : nat) : Z :=
  match packet_of p i with Some k => pk_reference_count k | None => 0 end.

Lemma packet_wf_with p p' i k :
  po_addr p' = po_addr p -> po_slot_stride p' = po_slot_stride p ->
  po_slot_size p' = po_slot_size p -> packet_wf p i k -> packet_wf p' i k.
Proof. intros E1 E2 E3 []. split; rewrite ?E1, ?E2, ?E3; done. Qed.

Lemma repr_wf p ks fs d free : pool_repr p ks fs d free -> pool_wf p.
Proof. intros R. by exists ks, fs, d, free. Qed.

Lemma repr_packet p ks fs d free i :
  pool_repr p ks fs d free -> packet_of p i = ks !! i.
Proof. intros R. unfold packet_of. by rewrite (rp_packets _ _ _ _ _ R). Qed.

(** A stack of distinct free descriptors that misses one has room for it. *)
Lemma nodup_bound (l : list nat) n : NoDup l -> (forall x, x ∈ l -> (x < n)%nat) -> (length l <= n)%nat.
Proof.
  intros Hnd Hlt. rewrite <- (length_seq n 0). apply submseteq_length, NoDup_submseteq; [done|].
  intros x Hx. apply elem_of_seq. specialize (Hlt x Hx). lia.
Qed.

Lemma repr_room p ks fs d free i k :
  pool_repr p ks fs d free -> ks !! i = Some k -> pk_reference_count k <> 0 ->
  po_free_count p < po_packet_count p.
Proof.
  intros R Hi Hr. destruct R. rewrite rp_flen0, <- rp_count0.
  assert (i ∉ free) as Hn by (rewrite rp_live0; naive_solver).
  assert (length (i :: free) <= length ks)%nat; [|cbn in *; lia].
  apply nodup_bound; [by constructor|].
  intros x [->|Hx]%elem_of_cons; [by eapply lookup_lt_Some|].
  apply rp_live0 in Hx as (?&?&_). by eapply lookup_lt_Some.
Qed.

(** Changing a descriptor without crossing the free boundary. *)
Lemma repr_update p ks fs d free i k k' :
  pool_repr p ks fs d free -> ks !! i = Some k -> packet_wf p i k' ->
  (pk_reference_count k' = 0 <-> pk_reference_count k = 0) ->
  pool_repr (with_packets (<[i := k']> ks) p) (<[i := k']> ks) fs d free.
Proof.
  intros R Hi Hk Hz. pose proof (lookup_lt_Some _ _ _ Hi) as Hlt.
  destruct R. split; cbn; rewrite ?length_insert; try done.
  - intros j kj. rewrite lookup_insert_case by done.
    case_decide; [intros [= <-]; subst|intros ?]; apply (packet_wf_with p); eauto.
  - intros j. rewrite rp_live0. rewrite lookup_insert_case by done.
    case_decide; subst; naive_solver.
Qed.

(** The last reference goes: the descriptor is pushed on the free stack. *)
Lemma repr_push p ks fs d free i k k' :
  pool_repr p ks fs d free -> ks !! i = Some k -> pk_reference_count k <> 0 ->
  packet_wf p i k' -> pk_reference_count k' = 0 ->
  let n := po_free_count p in
  pool_repr (with_free (<[Z.to_nat n := Some i]> fs) (n + 1) (with_packets (<[i := k']> ks) p))
            (<[i := k']> ks) (<[Z.to_nat n := Some i]> fs) d (free ++ [i]).
Proof.
  intros R Hi Hr Hk Hz n. pose proof (repr_room _ _ _ _ _ _ _ R Hi Hr) as Hroom.
  pose proof (lookup_lt_Some _ _ _ Hi) as Hlt. subst n.
  destruct R. split; cbn; rewrite ?length_insert; try done.
  - intros j kj. rewrite lookup_insert_case by done.
    case_decide; [intros [= <-]; subst|intros ?]; apply (packet_wf_with p); eauto.
  - rewrite fmap_app, <- rp_stack0. replace (Z.to_nat (po_free_count p + 1))
      with (S (Z.to_nat (po_free_count p))) by lia.
    rewrite (take_S_r _ _ (Some i)) by (apply list_lookup_insert_eq; lia).
    by rewrite take_insert_ge by lia.
  - rewrite length_app. cbn. lia.
  - apply NoDup_app. split_and!; [done| |apply NoDup_singleton].
    intros x Hx ->%list_elem_of_singleton. apply rp_live0 in Hx. naive_solver.
  - intros j. rewrite elem_of_app, list_elem_of_singleton, rp_live0.
    rewrite lookup_insert_case by done. case_decide; naive_solver.
Qed.

(** The top of the stack leaves it with a first reference. *)
Lemma repr_pop p ks fs d free i k k' :
  pool_repr p ks fs d (free ++ [i]) -> ks !! i = Some k ->
  packet_wf p i k' -> pk_reference_count k' <> 0 ->
  pool_repr (with_free fs (po_free_count p - 1) (with_packets (<[i := k']> ks) p))
            (<[i := k']> ks) fs d free.
Proof.
  intros R Hi Hk Hz. pose proof (lookup_lt_Some _ _ _ Hi) as Hlt.
  destruct R. rewrite length_app in rp_flen0. cbn in rp_flen0.
  split; cbn; rewrite ?length_insert; try done.
  - intros j kj. rewrite lookup_insert_case by done.
    case_decide; [intros [= <-]; subst|intros ?]; apply (packet_wf_with p); eauto.
  - replace (Z.to_nat (po_free_count p - 1))
      with (Nat.min (length free) (Z.to_nat (po_free_count p))) by lia.
    rewrite <- take_take, rp_stack0, fmap_app, take_app_length'; [done|].
    by rewrite length_fmap.
  - lia.
  - by apply NoDup_app in rp_nodup0 as (?&_&_).
  - intros j. specialize (rp_live0 j). rewrite elem_of_app, list_elem_of_singleton in rp_live0.
    apply NoDup_app in rp_nodup0 as (_&Hd&_).
    rewrite lookup_insert_case by done. case_decide; subst.
    + split; [|naive_solver]. intros Hin. specialize (Hd _ Hin). set_solver.
    + naive_solver.
Qed.

(** ** Symbolic execution of the primitives *)

Lemma packet_at_eq p i k : packet_of p i = Some k -> packet_at i p = Some (k, p).
Proof. unfold packet_at, packet_of. by intros ->. Qed.

Lemma packet_update_eq p ks i k f :
  po_packets p = Some ks -> ks !! i = Some k ->
  packet_update i f p = Some (tt, with_packets (<[i := f k]> ks) p).
Proof. unfold packet_update. by intros -> ->. Qed.

Lemma pool_deref_eq p q : q = po_addr p -> pool_deref (Some q) p = Some (tt, p).
Proof. intros ->. unfold pool_deref. msimp. by rewrite bool_decide_true. Qed.

Lemma packet_reset_eq p ks i k :
  po_packets p = Some ks -> ks !! i = Some k -> pk_pool k = Some (po_addr p) ->
  _linkg_packet_reset (Some i) p =
  Some (tt, with_packets (<[i := set_flags 0 (set_window (po_headroom p) 0 k)]> ks) p).
Proof.
  intros Hp Hi Hk. unfold _linkg_packet_reset. unfold mbind, M_bind.
  rewrite (packet_at_eq _ _ k) by (unfold packet_of; by rewrite Hp).
  rewrite Hk, pool_deref_eq by done. cbn. by rewrite (packet_update_eq _ _ _ _ _ Hp Hi).
Qed.

Lemma free_write_eq p fs i v n :
  po_free_packets p = Some fs -> (Z.to_nat i < length fs)%nat ->
  free_write i v n p = Some (tt, with_free (<[Z.to_nat i := v]> fs) n p).
Proof. intros Hf Hi. unfold free_write. msimp. rewrite Hf. by rewrite bool_decide_true. Qed.

Lemma packet_wf_refcount p i k n :
  packet_wf p i k -> 0 <= n < 2 ^ 32 -> packet_wf p i (set_refcount n k).
Proof. intros [] ?. by split. Qed.

Lemma packet_wf_reset p i k n :
  packet_wf p i k -> 0 <= po_headroom p < po_slot_size p -> 0 <= n < 2 ^ 32 ->
  packet_wf p i (set_refcount n (set_flags 0 (set_window (po_headroom p) 0 k))).
Proof. intros [] ? ?. split; cbn; try done; lia. Qed.

Section PoolOps.
Context (mx : mutex_api) (Hmx : mutex_ok mx).
Context (p : linkg_packet_pool) (ks : list linkg_packet) (fs : list (option pkt_ptr)).
Context (d : list Z) (free : list nat) (R : pool_repr p ks fs d free).

Lemma retain_repr i k :
  ks !! i = Some k -> 0 < pk_reference_count k < 2 ^ 32 - 1 ->
  let k' := set_refcount (pk_reference_count k + 1) k in
  let p' := with_packets (<[i := k']> ks) p in
  linkg_packet_retain (Some i) p = Some (tt, p') /\
  pool_repr p' (<[i := k']> ks) fs d free.
Proof using R.
  intros Hi Hr k' p'. split.
  - unfold linkg_packet_retain. unfold mbind, M_bind.
    rewrite (packet_at_eq _ _ k) by (by rewrite (repr_packet _ _ _ _ _ _ R)).
    rewrite (packet_update_eq _ _ _ _ _ (rp_packets _ _ _ _ _ R) Hi). cbn.
    unfold assert_. rewrite !(proj2 (Z.ltb_lt _ _)) by lia. cbn.
    do 2 f_equal. unfold p', k'. by rewrite wrap_small by mlia.
  - apply repr_update with k; [done..| |cbn; lia].
    apply packet_wf_refcount; [by apply (rp_wf _ _ _ _ _ R)|lia].
Qed.

Lemma release_repr_more i k :
  ks !! i = Some k -> 1 < pk_reference_count k ->
  let k' := set_refcount (pk_reference_count k - 1) k in
  let p' := with_packets (<[i := k']> ks) p in
  linkg_packet_release mx (Some i) p = Some (tt, p') /\
  pool_repr p' (<[i := k']> ks) fs d free.
Proof using R.
  intros Hi Hr k' p'. pose proof (rp_wf _ _ _ _ _ R _ _ Hi) as [].
  split.
  - unfold linkg_packet_release, _linkg_packet_release_reference. unfold mbind, M_bind.
    rewrite !(packet_at_eq _ _ k) by (by rewrite (repr_packet _ _ _ _ _ _ R)).
    rewrite kwf_pool0. cbn.
    rewrite !(packet_at_eq _ _ k) by (by rewrite (repr_packet _ _ _ _ _ _ R)).
    rewrite (packet_update_eq _ _ _ _ _ (rp_packets _ _ _ _ _ R) Hi). cbn.
    unfold assert_. bsimp. cbn.
    do 2 f_equal. unfold p', k'. by rewrite wrap_small by mlia.
  - apply repr_update with k; [done..| |cbn; lia].
    apply packet_wf_refcount; [by apply (rp_wf _ _ _ _ _ R)|lia].
Qed.

Lemma release_repr_last i k :
  ks !! i = Some k -> pk_reference_count k = 1 ->
  let k' := set_refcount 0 (set_flags 0 (set_window (po_headroom p) 0 k)) in
  let n := po_free_count p in
  let p' := with_free (<[Z.to_nat n := Some i]> fs) (n + 1) (with_packets (<[i := k']> ks) p) in
  linkg_packet_release mx (Some i) p = Some (tt, p') /\
  pool_repr p' (<[i := k']> ks) (<[Z.to_nat n := Some i]> fs) d (free ++ [i]).
Proof using R Hmx.
  intros Hi Hr k' n p'. pose proof (rp_wf _ _ _ _ _ R _ _ Hi) as Hwf.
  pose proof (lookup_lt_Some _ _ _ Hi) as Hlt.
  pose proof (repr_room _ _ _ _ _ _ _ R Hi ltac:(lia)) as Hroom.
  destruct Hmx as (_&Hl&_&_). pose proof (rp_range _ _ _ _ _ R) as Hrange.
  split; [|apply repr_push with k; [done|done|lia| |done];
           apply packet_wf_reset; [done|apply (rp_head _ _ _ _ _ R)|lia]].
  unfold linkg_packet_release, _linkg_packet_release_reference. unfold mbind, M_bind.
  rewrite !(packet_at_eq _ _ k) by (by rewrite (repr_packet _ _ _ _ _ _ R)).
  rewrite (kwf_pool _ _ _ Hwf). cbn.
  rewrite !(packet_at_eq _ _ k) by (by rewrite (repr_packet _ _ _ _ _ _ R)).
  rewrite (packet_update_eq _ _ _ _ _ (rp_packets _ _ _ _ _ R) Hi). cbn.
  unfold assert_. bsimp. cbn. rewrite pool_deref_eq by done.
  erewrite packet_reset_eq; [|done|by apply list_lookup_insert_eq|apply Hwf].
  cbn. bsimp. rewrite Hr, list_insert_insert_eq.
  rewrite (free_write_eq _ fs); [|apply (rp_free _ _ _ _ _ R)|].
  - rewrite wrap_small; [done|]. pose proof (rp_flen _ _ _ _ _ R). mlia.
  - pose proof (rp_flen _ _ _ _ _ R). rewrite (rp_fcount _ _ _ _ _ R).
    pose proof (rp_count _ _ _ _ _ R). lia.
Qed.
End PoolOps.

Lemma pop_repr p ks fs d free i k :
  pool_repr p ks fs d (free ++ [i]) -> ks !! i = Some k ->
  let k' := set_refcount 1 (set_flags 0 (set_window (po_headroom p) 0 k)) in
  let p' := with_free fs (po_free_count p - 1) (with_packets (<[i := k']> ks) p) in
  pool_pop p = Some (Some i, p') /\ pool_repr p' (<[i := k']> ks) fs d free.
Proof.
  intros R Hi k' p'. pose proof (rp_wf _ _ _ _ _ R _ _ Hi) as Hwf.
  pose proof (lookup_lt_Some _ _ _ Hi) as Hlt.
  pose proof (rp_flen _ _ _ _ _ R) as Hfl. rewrite length_app in Hfl. cbn in Hfl.
  pose proof (rp_range _ _ _ _ _ R) as Hrange.
  assert (fs !! length free = Some (Some i)) as Htop.
  { rewrite <- (lookup_take_lt fs (Z.to_nat (po_free_count p))) by lia.
    rewrite (rp_stack _ _ _ _ _ R), fmap_app, lookup_app_r by (by rewrite length_fmap).
    by rewrite length_fmap, Nat.sub_diag. }
  assert (po_free_count p <= po_packet_count p).
  { rewrite <- (rp_count _ _ _ _ _ R), <- (rp_fcount _ _ _ _ _ R).
    apply lookup_lt_Some in Htop. lia. }
  split; [|apply repr_pop with k; [done|done| |done];
           apply packet_wf_reset; [done|apply (rp_head _ _ _ _ _ R)|lia]].
  unfold pool_pop, set_free_count, free_read. unfold mbind, M_bind. cbn.
  rewrite (rp_free _ _ _ _ _ R). cbn.
  rewrite wrap_small by mlia.
  replace (Z.to_nat (po_free_count p - 1)) with (length free) by lia.
  rewrite Htop. cbn.
  erewrite packet_reset_eq; [|apply (rp_packets _ _ _ _ _ R)|done|apply Hwf].
  erewrite packet_update_eq; [|done|by apply list_lookup_insert_eq].
  by rewrite list_insert_insert_eq.
Qed.

(** ** The reference-count view of the pool *)

Lemma refs_update p ks i k j :
  po_packets p = Some ks -> (i < length ks)%nat ->
  refs (with_packets (<[i := k]> ks) p) j =
  if decide (i = j) then pk_reference_count k else refs p j.
Proof.
  intros Hp Hi. unfold refs, packet_of. rewrite Hp. cbn.
  rewrite lookup_insert_case by done. by case_decide.
Qed.

Lemma refs_packet p i : 0 < refs p i -> exists k, packet_of p i = Some k /\ refs p i = pk_reference_count k.
Proof. unfold refs. destruct (packet_of p i) as [k|]; [by exists k|lia]. Qed.

(** What a caller may rely on about every packet other than [i]. *)
Definition same_except (i : nat) (p p' : linkg_packet_pool) : Prop :=
  (forall j, j <> i -> packet_of p' j = packet_of p j) /\
  po_data_region p' = po_data_region p /\ po_slot_size p' = po_slot_size p /\
  po_slot_stride p' = po_slot_stride p /\ po_addr p' = po_addr p /\
  po_packet_count p' = po_packet_count p /\ po_headroom p' = po_headroom p.

Lemma same_except_update p ks i k :
  po_packets p = Some ks -> same_except i p (with_packets (<[i := k]> ks) p).
Proof.
  intros Hp. split_and!; try done. intros j Hj. unfold packet_of. cbn. rewrite Hp. cbn.
  by apply list_lookup_insert_ne.
Qed.

Lemma same_except_trans i p1 p2 p3 :
  same_except i p1 p2 -> same_except i p2 p3 -> same_except i p1 p3.
Proof.
  intros (A1&A2&A3&A4&A5&A6&A7) (B1&B2&B3&B4&B5&B6&B7).
  split_and!; try congruence. intros j Hj. by rewrite B1, A1.
Qed.

Lemma same_except_refs i p p' j : same_except i p p' -> j <> i -> refs p' j = refs p j.
Proof. intros (E&_) Hj. unfold refs. by rewrite E. Qed.

Lemma retain_spec p i :
  pool_wf p -> 0 < refs p i < 2 ^ 32 - 1 ->
  exists p' k, linkg_packet_retain (Some i) p = Some (tt, p') /\ pool_wf p' /\
    same_except i p p' /\ refs p' i = refs p i + 1 /\
    packet_of p i = Some k /\ packet_of p' i = Some (set_refcount (refs p i + 1) k).
Proof.
  intros (ks&fs&d&free&R) Hr. destruct (refs_packet p i) as (k&Hk&Er); [lia|].
  pose proof Hk as Hi. rewrite (repr_packet _ _ _ _ _ _ R) in Hi.
  pose proof (lookup_lt_Some _ _ _ Hi) as Hlt.
  destruct (retain_repr _ _ _ _ _ R i k Hi ltac:(lia)) as [E R'].
  eexists _, k. split_and!; [exact E|exact (repr_wf _ _ _ _ _ R')| | |done|].
  - apply same_except_update, (rp_packets _ _ _ _ _ R).
  - rewrite (refs_update _ ks) by (exact Hlt || exact (rp_packets _ _ _ _ _ R)). rewrite decide_True by done. cbn. lia.
  - rewrite (repr_packet _ _ _ _ _ _ R'), list_lookup_insert_eq by done.
    by rewrite Er.
Qed.

Lemma release_spec mx p i :
  mutex_ok mx -> pool_wf p -> 0 < refs p i ->
  exists p' k, linkg_packet_release mx (Some i) p = Some (tt, p') /\ pool_wf p' /\
    same_except i p p' /\ refs p' i = refs p i - 1 /\ packet_of p i = Some k /\
    po_free_count p' = po_free_count p + (if refs p i =? 1 then 1 else 0) /\
    (1 < refs p i -> packet_of p' i = Some (set_refcount (refs p i - 1) k)).
Proof.
  intros Hmx (ks&fs&d&free&R) Hr. destruct (refs_packet p i Hr) as (k&Hk&Er).
  pose proof Hk as Hi. rewrite (repr_packet _ _ _ _ _ _ R) in Hi.
  pose proof (lookup_lt_Some _ _ _ Hi) as Hlt.
  destruct (decide (pk_reference_count k = 1)) as [E1|E1].
  - destruct (release_repr_last mx Hmx _ _ _ _ _ R i k Hi E1) as [E R'].
    eexists _, k. split_and!; [exact E|exact (repr_wf _ _ _ _ _ R')| | |done| |lia].
    + apply same_except_update, (rp_packets _ _ _ _ _ R).
    + unfold refs at 1. rewrite (repr_packet _ _ _ _ _ _ R').
      rewrite list_lookup_insert_eq by done. cbn. lia.
    + cbn. bsimp. lia.
  - destruct (release_repr_more mx _ _ _ _ _ R i k Hi ltac:(lia)) as [E R'].
    eexists _, k. split_and!; [exact E|exact (repr_wf _ _ _ _ _ R')| | |done| |].
    + apply same_except_update, (rp_packets _ _ _ _ _ R).
    + rewrite (refs_update _ ks) by (exact Hlt || exact (rp_packets _ _ _ _ _ R)). rewrite decide_True by done. cbn. lia.
    + cbn. bsimp. lia.
    + intros _. rewrite (repr_packet _ _ _ _ _ _ R'), list_lookup_insert_eq by done.
      by rewrite Er.
Qed.

Lemma update_spec p i f :
  pool_wf p -> 0 < refs p i ->
  (forall k, packet_wf p i k -> packet_wf p i (f k) /\
             (pk_reference_count (f k) = pk_reference_count k)) ->
  exists p' k, packet_update i f p = Some (tt, p') /\ pool_wf p' /\ same_except i p p' /\
    refs p' i = refs p i /\ packet_of p i = Some k /\ packet_of p' i = Some (f k).
Proof.
  intros (ks&fs&d&free&R) Hr Hf. destruct (refs_packet p i Hr) as (k&Hk&Er).
  pose proof Hk as Hi. rewrite (repr_packet _ _ _ _ _ _ R) in Hi.
  pose proof (lookup_lt_Some _ _ _ Hi) as Hlt.
  destruct (Hf k (rp_wf _ _ _ _ _ R _ _ Hi)) as [Hwf Hrc].
  pose proof (repr_update _ _ _ _ _ i k (f k) R Hi Hwf ltac:(lia)) as R'.
  eexists _, k. split_and!.
  - apply packet_update_eq with (ks := ks); [apply (rp_packets _ _ _ _ _ R)|done].
  - exact (repr_wf _ _ _ _ _ R').
  - apply same_except_update, (rp_packets _ _ _ _ _ R).
  - rewrite (refs_update _ ks) by (exact Hlt || exact (rp_packets _ _ _ _ _ R)). rewrite decide_True by done. lia.
  - done.
  - by rewrite (repr_packet _ _ _ _ _ _ R'), list_lookup_insert_eq.
Qed.

(** ** The pool discharges the client interface *)

Definition pool_update_flags (i : pkt_ptr) (f : Z -> Z) : PM unit :=
  packet_update i (fun k => set_flags (f (pk_flags k)) k).

Definition pool_flags (p : linkg_packet_pool) (i : nat) : Z :=
  match packet_of p i with Some k => pk_flags k | None => 0 end.

#[export] Instance pool_store (mx : mutex_api) : PacketStore linkg_packet_pool := {
  ps_inv := pool_wf;
  ps_refs := refs;
  ps_flags := pool_flags;
  ps_retain := linkg_packet_retain;
  ps_release := linkg_packet_release mx;
  ps_update_flags := pool_update_flags }.

Lemma refs_nonneg p i : pool_wf p -> 0 <= refs p i.
Proof.
  intros (ks&fs&d&free&R). unfold refs. rewrite (repr_packet _ _ _ _ _ _ R).
  destruct (ks !! i) eqn:E; [|done]. apply (rp_wf _ _ _ _ _ R) in E as []. lia.
Qed.

Lemma refs_one p p' i c j :
  same_except i p p' -> refs p' i = refs p i + c ->
  refs p' j = refs p j + c * one_ref i j.
Proof.
  intros Hs Hi. unfold one_ref. case_decide as E; subst; [lia|].
  rewrite (same_except_refs i p p') by congruence. lia.
Qed.

Lemma same_except_flags i p p' j : same_except i p p' -> j <> i -> pool_flags p' j = pool_flags p j.
Proof. intros (E&_) Hj. unfold pool_flags. by rewrite E. Qed.

#[export] Instance pool_store_laws mx : mutex_ok mx -> @PacketStoreLaws linkg_packet_pool (pool_store mx).
Proof.
  intros Hmx. split; cbn.
  - apply refs_nonneg.
  - done.
  - done.
  - intros p i Hi Hr. unfold ps_room in Hr. destruct (retain_spec p i Hi ltac:(lia)) as (p'&k&E&W&Sm&Er&K&K').
    exists p'. split_and!; [done..| |].
    + intros j. rewrite (refs_one _ _ _ 1 _ Sm) by done. lia.
    + intros j. destruct (decide (j = i)) as [->|]; [|by eapply same_except_flags].
      unfold pool_flags. by rewrite K, K'.
  - intros p i Hi Hr. destruct (release_spec mx p i Hmx Hi Hr) as (p'&k&E&W&Sm&Er&K&_&K').
    exists p'. split_and!; [done..| | |].
    + intros j. rewrite (refs_one _ _ _ (-1) _ Sm) by lia. lia.
    + intros j Hj. by eapply same_except_flags.
    + intros H1. unfold pool_flags. by rewrite K, K'.
  - intros p i f Hi Hr.
    destruct (update_spec p i (fun k => set_flags (f (pk_flags k)) k) Hi Hr)
      as (p'&k&E&W&Sm&Er&K&K').
    { intros k []. by split. }
    exists p'. split_and!; [done..| |].
    + intros j. rewrite (refs_one _ _ _ 0 _ Sm) by lia. lia.
    + intros j. case_decide as Ej; [subst j|by eapply same_except_flags].
      unfold pool_flags. by rewrite K, K'.
Qed.

(** ** Allocation *)

Lemma repr_stack_top p ks fs d free :
  pool_repr p ks fs d free -> po_free_count p <> 0 ->
  exists fr i k, free = fr ++ [i] /\ ks !! i = Some k /\ pk_reference_count k = 0.
Proof.
  intros R Hn. pose proof (rp_flen _ _ _ _ _ R) as Hl.
  destruct free as [|i fr] using rev_ind; [cbn in Hl; lia|].
  destruct (proj1 (rp_live _ _ _ _ _ R i)) as (k&Hk&Hz); [set_solver|].
  by exists fr, i, k.
Qed.

Lemma pop_spec p :
  pool_wf p -> po_free_count p <> 0 ->
  exists p' i k, pool_pop p = Some (Some i, p') /\ pool_wf p' /\ same_except i p p' /\
    packet_of p i = Some k /\ refs p i = 0 /\ refs p' i = 1 /\
    packet_of p' i = Some (set_refcount 1 (set_flags 0 (set_window (po_headroom p) 0 k))) /\
    po_free_count p' = po_free_count p - 1.
Proof.
  intros (ks&fs&d&free&R) Hn. destruct (repr_stack_top _ _ _ _ _ R Hn) as (fr&i&k&->&Hi&Hz).
  pose proof (lookup_lt_Some _ _ _ Hi) as Hlt.
  destruct (pop_repr _ _ _ _ _ i k R Hi) as [E R'].
  eexists _, i, k. split_and!; [exact E|exact (repr_wf _ _ _ _ _ R')|..].
  - apply same_except_update, (rp_packets _ _ _ _ _ R).
  - by rewrite (repr_packet _ _ _ _ _ _ R).
  - unfold refs. by rewrite (repr_packet _ _ _ _ _ _ R), Hi.
  - unfold refs. by rewrite (repr_packet _ _ _ _ _ _ R'), list_lookup_insert_eq.
  - by rewrite (repr_packet _ _ _ _ _ _ R'), list_lookup_insert_eq.
  - done.
Qed.

Lemma pool_wf_init p : pool_wf p -> po_initialized p = true /\ po_free_packets p <> None.
Proof. intros (ks&fs&d&free&R). split; [apply (rp_init _ _ _ _ _ R)|]. by rewrite (rp_free _ _ _ _ _ R). Qed.

Lemma alloc_unfold mx p :
  mutex_ok mx -> pool_wf p ->
  linkg_packet_pool_alloc mx (Some (po_addr p)) p =
  if po_free_count p =? 0 then Some (None, p) else pool_pop p.
Proof.
  intros (_&Hl&_) Hw. destruct (pool_wf_init p Hw) as [Hi Hf].
  unfold linkg_packet_pool_alloc. unfold mbind, M_bind. rewrite pool_deref_eq by done.
  cbn. rewrite Hi, Hl. cbn. rewrite bool_decide_false by done. cbn. by case_match.
Qed.

Section Init.
Context (addr : pool_ptr) (cfg : linkg_packet_pool_config) (stride : Z).

Definition init_packet (i : nat) : linkg_packet :=
  Packet (Some addr) (Some (Z.of_nat i * stride)) 0 (cfg_headroom cfg) 0 0.

Definition init_state (n i : nat) (d : list Z) : linkg_packet_pool :=
  Pool addr (Some ((init_packet <$> seq 0 i) ++ replicate (n - i) packet_zero))
    (Some ((Some <$> seq 0 i) ++ replicate (n - i) None)) (Some d) (cfg_packet_count cfg)
    (cfg_slot_size cfg) stride (cfg_headroom cfg) 0 false.

Lemma init_step n i d :
  (i < n)%nat ->
  pool_init_packet i (init_state n i d) = Some (tt, init_state n (S i) d).
Proof.
  intros Hi. unfold init_state at 2. rewrite !fmap_seq_snoc.
  unfold init_state. replace (n - i)%nat with (S (n - S i)) by lia.
  unfold pool_init_packet. unfold mbind, M_bind. cbn.
  set (ks := (init_packet <$> seq 0 i) ++ packet_zero :: replicate (n - S i) packet_zero).
  assert (length (init_packet <$> seq 0 i) = i) as L1 by (by rewrite length_fmap, length_seq).
  assert (length (Some <$> seq 0 i) = i) as L2 by (by rewrite length_fmap, length_seq).
  assert (ks !! i = Some packet_zero) as Hk.
  { unfold ks. rewrite lookup_app_r by lia. by rewrite L1, Nat.sub_diag. }
  assert (i < length ks)%nat as Hlt by (by eapply lookup_lt_Some).
  erewrite packet_update_eq; [|done|exact Hk].
  erewrite packet_reset_eq; [|done|by apply list_lookup_insert_eq|done].
  rewrite list_insert_insert_eq.
  erewrite packet_update_eq; [|done|by apply list_lookup_insert_eq].
  rewrite list_insert_insert_eq. cbn.
  erewrite free_write_eq; [|done|].
  2: { rewrite length_app, L2, Nat2Z.id. cbn. lia. }
  rewrite Nat2Z.id. unfold with_free, with_packets; cbn.
  unfold ks. rewrite (insert_seq_next _ _ i) by done.
  rewrite (insert_seq_next _ _ i) by done.
  done.
Qed.

Lemma init_loop n m i d :
  (i + m = n)%nat ->
  mfor (seq i m) pool_init_packet (init_state n i d) = Some (tt, init_state n n d).
Proof.
  revert i. induction m as [|m IH]; intros i Hm; cbn.
  - by replace i with n by lia.
  - unfold mbind, M_bind. rewrite init_step by lia. apply IH. lia.
Qed.
End Init.

(** ** Life cycle theorems *)

Definition slot_stride_of (slot_size : Z) : Z :=
  Z.land (u32 (slot_size + LINKG_PACKET_SLOT_ALIGNMENT - 1))
         (u32 (Z.lnot (LINKG_PACKET_SLOT_ALIGNMENT - 1))).

Lemma slot_stride_round s :
  0 < s <= 2 ^ 32 - 64 -> slot_stride_of s = (s + 63) / 64 * 64.
Proof.
  intros H. unfold slot_stride_of, LINKG_PACKET_SLOT_ALIGNMENT.
  replace (s + 64 - 1) with (s + 63) by lia. rewrite (wrap_small 32 (s + 63)) by mlia.
  change (u32 (Z.lnot (64 - 1))) with (Z.land (Z.ones 32) (Z.lnot (Z.ones 6))).
  rewrite Z.land_assoc, Z.land_ones, <- Z.ldiff_land, Z.ldiff_ones_r by lia.
  rewrite (Z.mod_small (s + 63)) by mlia.
  by rewrite Z.shiftl_mul_pow2, Z.shiftr_div_pow2 by lia.
Qed.

Lemma slot_stride_bounds s :
  0 < s <= 2 ^ 32 - 64 ->
  s <= slot_stride_of s < 2 ^ 32 /\ slot_stride_of s mod LINKG_PACKET_SLOT_ALIGNMENT = 0.
Proof.
  intros H. rewrite slot_stride_round by done. unfold LINKG_PACKET_SLOT_ALIGNMENT.
  split; [mlia|apply Z_mod_mult].
Qed.

(** The configurations the code accepts. *)
Record config_valid (al : alloc_api) (cfg : linkg_packet_pool_config) : Prop := {
  cv_count : 0 < cfg_packet_count cfg < 2 ^ 32;
  cv_slot : 0 < cfg_slot_size cfg <= 2 ^ 32 - 64;
  cv_head : 0 <= cfg_headroom cfg < cfg_slot_size cfg;
  cv_size : cfg_packet_count cfg <= size_max al / slot_stride_of (cfg_slot_size cfg) }.

Lemma init_state_repr addr cfg al :
  config_valid al cfg ->
  let n := Z.to_nat (cfg_packet_count cfg) in
  let stride := slot_stride_of (cfg_slot_size cfg) in
  let d := replicate (Z.to_nat (cfg_packet_count cfg * stride)) 0 in
  pool_repr (with_initialized (cfg_packet_count cfg) true (init_state addr cfg stride n n d))
    (init_packet addr cfg stride <$> seq 0 n) (Some <$> seq 0 n) d (seq 0 n).
Proof.
  intros [] n stride d. pose proof (slot_stride_bounds _ cv_slot0) as [Hs Ha].
  fold stride in Hs, Ha.
  split; cbn; rewrite ?Nat.sub_diag, ?app_nil_r; cbn;
    rewrite ?length_fmap, ?length_seq; try done.
  - lia.
  - unfold d. rewrite length_replicate, Z2Nat.id; [done|]. apply Z.mul_nonneg_nonneg; lia.
  - intros i k. rewrite list_lookup_fmap. intros (j&Hj&->)%fmap_Some.
    apply lookup_seq in Hj as [-> Hj]. split; cbn; try done; lia.
  - rewrite take_ge; [done|]. rewrite length_fmap, length_seq. lia.
  - lia.
  - apply NoDup_seq.
  - intros i. rewrite elem_of_seq. split.
    + intros Hi. exists (init_packet addr cfg stride i). split; [|done].
      rewrite list_lookup_fmap, (proj2 (lookup_seq 0 n i i)) by lia. done.
    + intros (k&Hk&_). rewrite list_lookup_fmap in Hk.
      apply fmap_Some in Hk as (j&Hj&_). apply lookup_seq in Hj. lia.
Qed.

Lemma pool_init_ok_fact (mx : mutex_api) (al : alloc_api) (cfg : linkg_packet_pool_config) (addr : pool_ptr) :
  mutex_ok mx -> alloc_ok al -> config_valid al cfg ->
  exists p', linkg_packet_pool_init mx al (Some addr) (Some cfg) (pool_zero addr) = Some (0, p') /\
    pool_wf p' /\ po_free_count p' = cfg_packet_count cfg /\
    (forall i, refs p' i = 0) /\ po_headroom p' = cfg_headroom cfg /\
    po_slot_size p' = cfg_slot_size cfg /\ po_packet_count p' = cfg_packet_count cfg.
Proof.
  intros (Hm&_) (A1&A2&A3) Hv. pose proof (init_state_repr addr cfg al Hv) as R. cbn in R.
  eexists. split; [|split; [exact (repr_wf _ _ _ _ _ R)|]].
  - destruct Hv. unfold linkg_packet_pool_init. unfold mbind, M_bind.
    rewrite pool_deref_eq by done. cbn.
    fold (slot_stride_of (cfg_slot_size cfg)).
    unfold LINKG_PACKET_SLOT_ALIGNMENT. bsimp.
    rewrite A1, A2. cbn. unfold nat_upto.
    set (n := Z.to_nat (cfg_packet_count cfg)). set (d := replicate (Z.to_nat _) 0).
    pose proof (init_loop addr cfg (slot_stride_of (cfg_slot_size cfg)) n n 0 d ltac:(lia)) as L.
    unfold init_state at 1 in L. rewrite Nat.sub_0_r in L. cbn in L.
    unfold with_data, with_free, with_packets. cbn. by rewrite L.
  - split_and!; try done. intros i. unfold refs. rewrite (repr_packet _ _ _ _ _ _ R).
    rewrite list_lookup_fmap. by destruct (seq 0 _ !! i).
Qed.

(** [linkg_packet_pool_init] on a zeroed object with a valid
    configuration and successful allocations returns 0 and establishes the pool
    invariant with every descriptor free. *)
Theorem pool_init_ok (mx : mutex_api) (al : alloc_api) (cfg : linkg_packet_pool_config) (addr : pool_ptr) :
  mutex_ok mx -> alloc_ok al -> config_valid al cfg ->
  exists p', linkg_packet_pool_init mx al (Some addr) (Some cfg) (pool_zero addr) = Some (0, p') /\
    pool_wf p' /\ po_free_count p' = cfg_packet_count cfg /\
    (forall i, refs p' i = 0) /\ po_headroom p' = cfg_headroom cfg /\
    po_slot_size p' = cfg_slot_size cfg /\ po_packet_count p' = cfg_packet_count cfg.
Proof. by apply pool_init_ok_fact. Qed.

(** When [linkg_packet_pool_init] fails on a fresh object (bad
    configuration, overflow, failed allocation or mutex) it leaves the object
    zeroed: no half-initialised pool escapes. *)
Theorem pool_init_all_or_nothing (mx : mutex_api) (al : alloc_api)
    (pool : option pool_ptr) (cfg : option linkg_packet_pool_config) (addr : pool_ptr) r p' :
  linkg_packet_pool_init mx al pool cfg (pool_zero addr) = Some (r, p') ->
  (r = 0 /\ po_initialized p' = true) \/ (r <> 0 /\ p' = pool_zero addr).
Proof.
  unfold linkg_packet_pool_init. destruct pool as [self|], cfg as [cfg|];
    [|cbn; intros [= <- <-]; by right..].
  rewrite bind_Some. intros ([]&p0&D&H). revert D. unfold pool_deref. msimp.
  case_bool_decide; [|done]. intros [= <-]. revert H. msimp.
  repeat (case_match; zb; msimp); try intros [= <- <-]; try (by right);
    try (right; split; [unfold ENOMEM, EINVAL, EOVERFLOW; lia|done]).
  by left.
Qed.

Lemma alloc_ok_spec_fact (mx : mutex_api) (p : linkg_packet_pool) :
  mutex_ok mx -> pool_wf p ->
  (po_free_count p = 0 /\ linkg_packet_pool_alloc mx (Some (po_addr p)) p = Some (None, p)) \/
  (exists p' i k, linkg_packet_pool_alloc mx (Some (po_addr p)) p = Some (Some i, p') /\
     pool_wf p' /\ same_except i p p' /\ refs p i = 0 /\ refs p' i = 1 /\
     packet_of p' i = Some k /\ pk_data_offset k = po_headroom p /\ pk_data_length k = 0 /\
     pk_flags k = LINKG_PACKET_FLAG_NONE /\ po_free_count p' = po_free_count p - 1).
Proof.
  intros Hmx Hw. rewrite alloc_unfold by done. destruct (Z.eqb_spec (po_free_count p) 0) as [E|E].
  - by left.
  - right. destruct (pop_spec p Hw E) as (p'&i&k&?&?&?&?&?&?&?&?).
    eexists p', i, _. by split_and!.
Qed.

(** [linkg_packet_pool_alloc] fails exactly when no descriptor is
    free; otherwise it hands out a descriptor nobody referenced, with one
    reference, the configured headroom and no data, and touches nothing else. *)
Theorem alloc_ok_spec (mx : mutex_api) (p : linkg_packet_pool) :
  mutex_ok mx -> pool_wf p ->
  (po_free_count p = 0 /\ linkg_packet_pool_alloc mx (Some (po_addr p)) p = Some (None, p)) \/
  (exists p' i k, linkg_packet_pool_alloc mx (Some (po_addr p)) p = Some (Some i, p') /\
     pool_wf p' /\ same_except i p p' /\ refs p i = 0 /\ refs p' i = 1 /\
     packet_of p' i = Some k /\ pk_data_offset k = po_headroom p /\ pk_data_length k = 0 /\
     pk_flags k = LINKG_PACKET_FLAG_NONE /\ po_free_count p' = po_free_count p - 1).
Proof. by apply alloc_ok_spec_fact. Qed.

Lemma free_count_conservation_fact (p : linkg_packet_pool) :
  pool_wf p ->
  po_free_count p =
  Z.of_nat (length (filter (fun i => refs p i = 0) (seq 0 (Z.to_nat (po_packet_count p))))).
Proof.
  intros (ks&fs&d&free&R). rewrite (rp_flen _ _ _ _ _ R). f_equal. apply Permutation_length.
  apply NoDup_Permutation; [apply (rp_nodup _ _ _ _ _ R)|apply NoDup_filter, NoDup_seq|].
  intros i. rewrite list_elem_of_filter, elem_of_seq, (rp_live _ _ _ _ _ R).
  unfold refs. rewrite (repr_packet _ _ _ _ _ _ R), <- (rp_count _ _ _ _ _ R), Nat2Z.id. split.
  - intros (k&Hk&Hz). rewrite Hk. apply lookup_lt_Some in Hk. split; [done|lia].
  - intros [Hz Hi]. destruct (lookup_lt_is_Some_2 ks i) as [k Hk]; [lia|].
    rewrite Hk in Hz. by exists k.
Qed.

(** At every moment the free descriptors and the referenced ones
    partition the pool: [free_count] is the number of descriptors without a
    reference. *)
Theorem free_count_conservation (p : linkg_packet_pool) :
  pool_wf p ->
  po_free_count p =
  Z.of_nat (length (filter (fun i => refs p i = 0) (seq 0 (Z.to_nat (po_packet_count p))))).
Proof. by apply free_count_conservation_fact. Qed.

(** [linkg_packet_pool_deinit] refuses with -EBUSY, changing nothing,
    while any packet is still referenced, and otherwise frees the pool. *)
Theorem deinit_spec (mx : mutex_api) (p : linkg_packet_pool) :
  mutex_ok mx -> pool_wf p ->
  linkg_packet_pool_deinit mx (Some (po_addr p)) p =
  if forallb (fun i => refs p i =? 0) (seq 0 (Z.to_nat (po_packet_count p)))
  then Some (0, pool_zero (po_addr p)) else Some (- EBUSY, p).
Proof.
  intros (_&Hl&Hu&Hd) Hw. pose proof (free_count_conservation_fact p Hw) as Hc.
  destruct Hw as (ks&fs&d&free&R). pose proof (rp_range _ _ _ _ _ R).
  unfold linkg_packet_pool_deinit. unfold mbind, M_bind. rewrite pool_deref_eq by done. cbn.
  rewrite (rp_init _ _ _ _ _ R), (rp_packets _ _ _ _ _ R), (rp_free _ _ _ _ _ R),
    (rp_data _ _ _ _ _ R), Hl, Hu, Hd. cbn. bsimp.
  set (l := seq 0 _) in *.
  assert (length l = Z.to_nat (po_packet_count p)) as Hlen by apply length_seq.
  rewrite (filter_len_forallb (fun i => refs p i = 0)) by (intros; by rewrite Z.eqb_eq).
  case_bool_decide as E; by bsimp.
Qed.

(** ** Batches *)

Lemma pop_n_spec n : forall p,
  pool_wf p -> Z.of_nat n <= po_free_count p ->
  exists p' l, pool_pop_n n p = Some (Some <$> l, p') /\ pool_wf p' /\
    length l = n /\ (forall i, i ∈ l -> refs p i = 0 /\ refs p' i = 1) /\
    (forall i, i ∉ l -> refs p' i = refs p i) /\ NoDup l /\
    po_free_count p' = po_free_count p - Z.of_nat n.
Proof.
  induction n as [|n IH]; intros p Hw Hn.
  - exists p, []. cbn. split_and!; try done; try lia; [set_solver|constructor].
  - destruct (pop_spec p Hw ltac:(lia)) as (p1&i&k&E&W1&Sm&_&R0&R1&_&F).
    destruct (IH p1 W1 ltac:(lia)) as (p2&l&E2&W2&L&Rl&Nl&Nd&F2).
    assert (i ∉ l) as Hil by (intros Hi; specialize (Rl _ Hi); lia).
    exists p2, (i :: l). cbn. unfold mbind, M_bind. rewrite E, E2.
    split_and!; [done..|cbn; lia| | |by constructor|lia].
    + intros j [->|Hj]%elem_of_cons; [rewrite Nl by done; lia|].
      destruct (Rl _ Hj) as [Z1 Z2]. rewrite <- (same_except_refs _ _ _ j Sm); [done|set_solver].
    + intros j Hj. rewrite Nl by set_solver. apply (same_except_refs _ _ _ _ Sm). set_solver.
Qed.

(** The batch allocation hands out [min(requested, free)]
    distinct descriptors, all previously unreferenced, each gaining exactly one
    reference; no other count changes. *)
Theorem alloc_batch_spec (mx : mutex_api) (p : linkg_packet_pool) (n : Z) :
  mutex_ok mx -> pool_wf p -> 0 <= n ->
  exists p' l, linkg_packet_pool_alloc_batch mx (Some (po_addr p)) false n p =
      Some ((Z.min n (po_free_count p), Some <$> l), p') /\
    pool_wf p' /\ Z.of_nat (length l) = Z.min n (po_free_count p) /\
    (forall i, i ∈ l -> refs p i = 0 /\ refs p' i = 1) /\
    (forall i, i ∉ l -> refs p' i = refs p i) /\ NoDup l /\
    po_free_count p' = po_free_count p - Z.of_nat (length l).
Proof.
  intros (_&Hl&_) Hw Hn. destruct (pool_wf_init p Hw) as [Hi Hf].
  assert (0 <= po_free_count p) as Hfc.
  { destruct Hw as (ks&fs&d&free&R). rewrite (rp_flen _ _ _ _ _ R). lia. }
  set (m := Z.min n (po_free_count p)).
  destruct (pop_n_spec (Z.to_nat m) p Hw ltac:(lia)) as (p'&l&E&W&L&Rl&Nl&Nd&F).
  exists p', l. split; [|split_and!; try done; lia].
  unfold linkg_packet_pool_alloc_batch. unfold mbind, M_bind. rewrite pool_deref_eq by done.
  cbn. rewrite Hi, Hl, bool_decide_false by done. cbn.
  destruct (Z.eqb_spec n 0) as [->|Hn0].
  - replace (Z.to_nat m) with 0%nat in E by lia. cbn in E. injection E as El ->.
    replace m with 0 by lia. by rewrite El.
  - replace (if po_free_count p <? n then po_free_count p else n) with m by (subst m; case_match; zb; lia).
    by rewrite E.
Qed.

(** A list of references is covered by the counts of the pool. *)
Definition covered (p : linkg_packet_pool) (l : list (option pkt_ptr)) : Prop :=
  forall i, sumZ (fun o => held_opt o i) l <= refs p i.

Lemma covered_cons p o l i : covered p (o :: l) -> o = Some i -> 0 < refs p i.
Proof.
  intros Hc ->. specialize (Hc i). cbn in Hc. rewrite one_ref_same in Hc.
  assert (0 <= sumZ (fun o => held_opt o i) l); [|lia].
  apply sumZ_nonneg. intros. apply held_opt_range.
Qed.

Lemma release_one_eq mx p i :
  mutex_ok mx -> pool_wf p -> 0 < refs p i ->
  pool_release_one (po_addr p) (Some i) p = linkg_packet_release mx (Some i) p.
Proof.
  intros (_&Hl&_) (ks&fs&d&free&R) Hr. destruct (refs_packet p i Hr) as (k&Hk&Er).
  pose proof Hk as Hi. rewrite (repr_packet _ _ _ _ _ _ R) in Hi.
  pose proof (rp_wf _ _ _ _ _ R _ _ Hi) as Hwf.
  pose proof (repr_room _ _ _ _ _ _ _ R Hi ltac:(lia)) as Hroom.
  unfold pool_release_one, linkg_packet_release, _linkg_packet_release_reference.
  unfold mbind, M_bind. rewrite !(packet_at_eq _ _ k) by done.
  rewrite (kwf_pool _ _ _ Hwf), bool_decide_true by done. cbn.
  rewrite !(packet_at_eq _ _ k) by done.
  rewrite (packet_update_eq _ ks _ _ _ (rp_packets _ _ _ _ _ R) Hi).
  cbn. unfold assert_. bsimp. cbn. destruct (pk_reference_count k =? 1); [|done]. cbn.
  rewrite pool_deref_eq by done.
  assert ((i < length ks)%nat) as Hlt by (by eapply lookup_lt_Some).
  set (k0 := set_refcount _ k). set (p0 := with_packets _ p).
  pose proof (packet_reset_eq p0 _ i k0 eq_refl (list_lookup_insert_eq _ _ _ Hlt)
    (kwf_pool _ _ _ Hwf)) as E.
  cbn. rewrite !E. subst p0. cbn. bsimp. rewrite ?E. cbn. bsimp. done.
Qed.

(** Releasing a batch is releasing its packets one by one,
    and never trips an assertion when the caller owns the references. *)
Theorem release_batch_equiv (mx : mutex_api) (p : linkg_packet_pool)
    (l : list (option pkt_ptr)) :
  mutex_ok mx -> pool_wf p -> covered p l ->
  exists p', linkg_packet_pool_release_batch mx (Some (po_addr p)) (Some l) (Z.of_nat (length l)) p
      = Some (tt, p') /\
    mfor l (linkg_packet_release mx) p = Some (tt, p') /\ pool_wf p' /\
    forall i, refs p' i = refs p i - sumZ (fun o => held_opt o i) l.
Proof.
  intros Hmx Hw Hc. pose proof Hmx as (_&Hl&_).
  assert (exists p', mfor l (pool_release_one (po_addr p)) p = Some (tt, p') /\
            mfor l (linkg_packet_release mx) p = Some (tt, p') /\ pool_wf p' /\
            forall i, refs p' i = refs p i - sumZ (fun o => held_opt o i) l) as (p'&E1&E2&W&Rr).
  { revert p Hw Hc. induction l as [|o l IH]; intros p Hw Hc; cbn.
    { exists p. split_and!; try done. intros. lia. }
    unfold mbind, M_bind. destruct o as [i|].
    - pose proof (covered_cons _ _ _ i Hc eq_refl) as Hp.
      rewrite (release_one_eq mx) by done.
      destruct (release_spec mx p i Hmx Hw Hp) as (p1&k&E&W1&Sm&R1&_).
      rewrite E. pose proof Sm as (_&_&_&_&Ha&_&_). rewrite <- Ha.
      destruct (IH p1 W1) as (p2&A&B&W2&R2).
      { intros j. specialize (Hc j). cbn in Hc. rewrite (refs_one _ _ _ (-1) _ Sm) by lia. lia. }
      exists p2. split_and!; [done..|]. intros j. rewrite R2, (refs_one _ _ _ (-1) _ Sm) by lia.
      cbn. lia.
    - destruct (IH p Hw) as (p2&A&B&W2&R2); [intros j; specialize (Hc j); cbn in Hc; lia|].
      exists p2. by split_and!. }
  exists p'. split_and!; try done.
  unfold linkg_packet_pool_release_batch. destruct (Z.eqb_spec (Z.of_nat (length l)) 0) as [E0|E0].
  - destruct l; [|done]. cbn in E1. by simplify_eq.
  - unfold mbind, M_bind. rewrite pool_deref_eq by done. rewrite Hl. cbn. unfold assert_. bsimp. cbn.
    by rewrite Nat2Z.id, take_ge by lia.
Qed.

(** ** Slot memory

    [slot_view p i]: the bytes of the slot of packet [i]; [payload p i]: its
    current data, the bytes from [data_offset] on. *)

Definition region (p : linkg_packet_pool) : list Z := default [] (po_data_region p).

Definition slot_base (p : linkg_packet_pool) (i : nat) : Z := Z.of_nat i * po_slot_stride p.

Definition slot_view (p : linkg_packet_pool) (i : nat) : list Z :=
  take (Z.to_nat (po_slot_size p)) (drop (Z.to_nat (slot_base p i)) (region p)).

Definition payload (p : linkg_packet_pool) (i : nat) : list Z :=
  match packet_of p i with
  | Some k => take (Z.to_nat (pk_data_length k))
                (drop (Z.to_nat (pk_data_offset k)) (slot_view p i))
  | None => []
  end.

Lemma data_load_eq p a n d :
  po_data_region p = Some d -> 0 <= a -> a + Z.of_nat n <= Z.of_nat (length d) ->
  data_load a n p = Some (take n (drop (Z.to_nat a) d), p).
Proof. intros Hd H1 H2. unfold data_load. msimp. rewrite Hd. bsimp. done. Qed.

Lemma data_store_eq p a bs d :
  po_data_region p = Some d -> 0 <= a -> a + Z.of_nat (length bs) <= Z.of_nat (length d) ->
  data_store a bs p = Some (tt, with_data (list_inserts (Z.to_nat a) bs d) p).
Proof. intros Hd H1 H2. unfold data_store. msimp. rewrite Hd. bsimp. done. Qed.

Lemma repr_with_data p ks fs d free d' :
  pool_repr p ks fs d free -> length d' = length d ->
  pool_repr (with_data d' p) ks fs d' free.
Proof.
  intros [] Hl. split; cbn; try done; [congruence|].
  intros i k Hi. apply (packet_wf_with p); eauto.
Qed.

Lemma slot_in_region p ks fs d free i k :
  pool_repr p ks fs d free -> ks !! i = Some k ->
  0 <= slot_base p i /\ slot_base p i + po_slot_size p <= Z.of_nat (length d).
Proof.
  intros R Hi. pose proof (lookup_lt_Some _ _ _ Hi) as Hlt.
  rewrite (rp_dlen _ _ _ _ _ R). unfold slot_base.
  pose proof (rp_count _ _ _ _ _ R). pose proof (rp_stride _ _ _ _ _ R).
  pose proof (rp_head _ _ _ _ _ R).
  assert ((Z.of_nat i + 1) * po_slot_stride p <= po_packet_count p * po_slot_stride p).
  { apply Z.mul_le_mono_nonneg_r; lia. }
  split; [apply Z.mul_nonneg_nonneg; lia|lia].
Qed.

(** Reading a window of a list after writing another one. *)
Lemma window_inserts_same (d bs : list Z) a :
  (a + length bs <= length d)%nat ->
  take (length bs) (drop a (list_inserts a bs d)) = bs.
Proof.
  intros H. apply list_eq. intros j. destruct (decide (j < length bs)%nat).
  - rewrite lookup_take_lt, lookup_drop by done. rewrite list_lookup_inserts by lia.
    f_equal. lia.
  - rewrite lookup_take_ge by lia. symmetry. apply lookup_ge_None. lia.
Qed.

Lemma window_inserts_disjoint (d bs : list Z) a b n :
  (b + n <= a \/ a + length bs <= b)%nat ->
  take n (drop b (list_inserts a bs d)) = take n (drop b d).
Proof.
  intros H. apply list_eq. intros j. destruct (decide (j < n)%nat).
  - rewrite !lookup_take_lt, !lookup_drop by done. destruct H.
    + apply list_lookup_inserts_lt. lia.
    + apply list_lookup_inserts_ge. lia.
  - by rewrite !lookup_take_ge by lia.
Qed.

Lemma slots_apart stride size (i j : nat) :
  i <> j -> 0 <= size <= stride ->
  Z.of_nat i * stride + size <= Z.of_nat j * stride \/
  Z.of_nat j * stride + size <= Z.of_nat i * stride.
Proof.
  intros Hij Hs. destruct (decide (i < j)%nat).
  - left. assert ((Z.of_nat i + 1) * stride <= Z.of_nat j * stride); [|lia].
    apply Z.mul_le_mono_nonneg_r; lia.
  - right. assert ((Z.of_nat j + 1) * stride <= Z.of_nat i * stride); [|lia].
    apply Z.mul_le_mono_nonneg_r; lia.
Qed.

Lemma slot_write_isolated_fact (p : linkg_packet_pool) (i : nat) (off : Z) (bs : list Z) :
  pool_wf p -> is_Some (packet_of p i) -> 0 <= off ->
  off + Z.of_nat (length bs) <= po_slot_size p ->
  exists p', data_store (slot_base p i + off) bs p = Some (tt, p') /\ pool_wf p' /\
    (forall j, packet_of p' j = packet_of p j) /\
    slot_view p' i = list_inserts (Z.to_nat off) bs (slot_view p i) /\
    (forall j, j <> i -> is_Some (packet_of p j) -> slot_view p' j = slot_view p j).
Proof.
  intros (ks&fs&d&free&R) [k Hi] H0 Hlen. rewrite (repr_packet _ _ _ _ _ _ R) in Hi.
  destruct (slot_in_region _ _ _ _ _ _ _ R Hi) as [Hb He].
  pose proof (rp_data _ _ _ _ _ R) as Hd. pose proof (rp_head _ _ _ _ _ R) as Hh.
  eexists. split; [apply data_store_eq with (d := d); [done|lia..]|].
  split; [|split; [|split]].
  - eapply repr_wf, repr_with_data; [exact R|]. apply length_inserts.
  - done.
  - unfold slot_view, slot_base, region. cbn. rewrite Hd. cbn. fold (slot_base p i).
    apply list_eq. intros j. destruct (decide (j < Z.to_nat (po_slot_size p))%nat) as [Hj|Hj].
    2: { rewrite lookup_take_ge by lia. symmetry. apply lookup_ge_None.
         rewrite length_inserts, length_take. lia. }
    rewrite lookup_take_lt, lookup_drop by done.
    set (s := take _ _). set (a := Z.to_nat (slot_base p i + off)).
    assert (length s = Z.to_nat (po_slot_size p)) as Ls.
    { unfold s. rewrite length_take, length_drop. lia. }
    assert (s !! j = d !! (Z.to_nat (slot_base p i) + j)%nat) as Lj.
    { unfold s. by rewrite lookup_take_lt, lookup_drop. }
    destruct (decide (j < Z.to_nat off)%nat); [|destruct (decide (Z.to_nat off + length bs <= j)%nat)].
    + rewrite !list_lookup_inserts_lt by lia. done.
    + rewrite !list_lookup_inserts_ge by lia. done.
    + rewrite !list_lookup_inserts by lia. f_equal. lia.
  - intros j Hj [kj Hkj]. rewrite (repr_packet _ _ _ _ _ _ R) in Hkj.
    destruct (slot_in_region _ _ _ _ _ _ _ R Hkj) as [Hbj _].
    unfold slot_view, region. cbn. rewrite Hd. cbn. change (slot_base (with_data _ p) j) with (slot_base p j).
    apply window_inserts_disjoint.
    pose proof (slots_apart (po_slot_stride p) (po_slot_size p) i j ltac:(done)) as Ha.
    pose proof (rp_stride _ _ _ _ _ R). unfold slot_base in *. lia.
Qed.

(** A write that stays inside the slot of packet [i] succeeds, keeps
    the pool invariant and every reference count, and leaves the memory of every
    other packet untouched: slots do not overlap. *)
Theorem slot_write_isolated (p : linkg_packet_pool) (i : nat) (off : Z) (bs : list Z) :
  pool_wf p -> is_Some (packet_of p i) -> 0 <= off ->
  off + Z.of_nat (length bs) <= po_slot_size p ->
  exists p', data_store (slot_base p i + off) bs p = Some (tt, p') /\ pool_wf p' /\
    (forall j, packet_of p' j = packet_of p j) /\
    slot_view p' i = list_inserts (Z.to_nat off) bs (slot_view p i) /\
    (forall j, j <> i -> is_Some (packet_of p j) -> slot_view p' j = slot_view p j).
Proof. by apply slot_write_isolated_fact. Qed.

(** ** Reference ledger

    [pool_run mx own p]: the pool reached state [p] through allocations,
    retains and releases by clients that together hold [own i] references to
    packet [i] and follow the reference rules at the top of linkg_packet_pool.c:
    only a holder may retain or release. *)

Definition add_ref (own : nat -> Z) (i : nat) (c : Z) : nat -> Z :=
  fun j => own j + c * one_ref i j.

Inductive pool_run (mx : mutex_api) : (nat -> Z) -> linkg_packet_pool -> Prop :=
| run_init al cfg addr p :
    alloc_ok al -> config_valid al cfg ->
    linkg_packet_pool_init mx al (Some addr) (Some cfg) (pool_zero addr) = Some (0, p) ->
    pool_run mx (fun _ => 0) p
| run_alloc own p i p' :
    pool_run mx own p ->
    linkg_packet_pool_alloc mx (Some (po_addr p)) p = Some (Some i, p') ->
    pool_run mx (add_ref own i 1) p'
| run_retain own p i p' :
    pool_run mx own p -> 0 < own i ->
    linkg_packet_retain (Some i) p = Some (tt, p') ->
    pool_run mx (add_ref own i 1) p'
| run_release own p i p' :
    pool_run mx own p -> 0 < own i ->
    linkg_packet_release mx (Some i) p = Some (tt, p') ->
    pool_run mx (add_ref own i (-1)) p'.

Lemma retain_overflow p i :
  pool_wf p -> 2 ^ 32 - 1 <= refs p i -> linkg_packet_retain (Some i) p = None.
Proof.
  intros (ks&fs&d&free&R) Hr. destruct (refs_packet p i) as (k&Hk&Er); [lia|].
  unfold linkg_packet_retain. unfold mbind, M_bind. rewrite (packet_at_eq _ _ k) by done.
  rewrite (repr_packet _ _ _ _ _ _ R) in Hk.
  rewrite (packet_update_eq _ ks _ _ _ (rp_packets _ _ _ _ _ R) Hk). unfold assert_.
  bsimp. done.
Qed.

(** C25: along every run the pool invariant holds and each reference
    count is exactly the number of references the clients hold. *)
Theorem pool_run_sound (mx : mutex_api) (own : nat -> Z) (p : linkg_packet_pool) :
  mutex_ok mx -> pool_run mx own p ->
  pool_wf p /\ (forall i, refs p i = own i).
Proof.
  intros Hmx H. induction H as [al cfg addr p Ha Hc E|own p i p' H [IHw IHr] E
    |own p i p' H [IHw IHr] Hi E|own p i p' H [IHw IHr] Hi E].
  - destruct (pool_init_ok_fact mx al cfg addr Hmx Ha Hc) as (p'&E'&W&_&Rr&_).
    rewrite E in E'. simplify_eq. done.
  - destruct (alloc_ok_spec_fact mx p Hmx IHw) as [[_ E']|(p1&i1&k&E'&W&Sm&R0&R1&_)];
      rewrite E in E'; simplify_eq.
    split; [done|]. intros j. unfold add_ref. rewrite <- IHr. apply (refs_one _ _ _ _ _ Sm). lia.
  - rewrite <- IHr in Hi. destruct (decide (refs p i < 2 ^ 32 - 1)) as [Hb|Hb].
    + destruct (retain_spec p i IHw ltac:(lia)) as (p1&k&E'&W&Sm&R1&_).
      rewrite E in E'. simplify_eq. split; [done|].
      intros j. unfold add_ref. rewrite <- IHr. apply (refs_one _ _ _ _ _ Sm). lia.
    + rewrite (retain_overflow p i) in E by (done || lia). done.
  - rewrite <- IHr in Hi. destruct (release_spec mx p i Hmx IHw Hi) as (p1&k&E'&W&Sm&R1&_).
    rewrite E in E'. simplify_eq. split; [done|].
    intros j. unfold add_ref. rewrite <- IHr. apply (refs_one _ _ _ _ _ Sm). lia.
Qed.

(** ** Concrete pools, used to instantiate the theorems *)

Definition final {S A} (d : S) (r : option (A * S)) : S :=
  match r with Some (_, s) => s | None => d end.

Definition demo_alloc_api : alloc_api := AllocApi true true 0 (2 ^ 32 - 1).
Definition demo_config : linkg_packet_pool_config := PoolConfig 3 100 16.

(** Three free packets of 100 bytes. *)
Definition demo_pool0 : linkg_packet_pool := Eval vm_compute in
  final (pool_zero 7) (linkg_packet_pool_init mutex_default demo_alloc_api (Some 7%nat)
                         (Some demo_config) (pool_zero 7)).

(** Packet 2 allocated. *)
Definition demo_pool1 : linkg_packet_pool := Eval vm_compute in
  final (pool_zero 7) (linkg_packet_pool_alloc mutex_default (Some 7%nat) demo_pool0).

Lemma demo_config_valid : config_valid demo_alloc_api demo_config.
Proof. split; vm_compute; intuition congruence. Qed.

Lemma demo_run0 : pool_run mutex_default (fun _ => 0) demo_pool0.
Proof.
  apply run_init with (al := demo_alloc_api) (cfg := demo_config) (addr := 7%nat);
    [done|apply demo_config_valid|vm_compute; reflexivity].
Qed.

Lemma demo_run1 : pool_run mutex_default (add_ref (fun _ => 0) 2 1) demo_pool1.
Proof. apply run_alloc with (p := demo_pool0); [apply demo_run0|vm_compute; reflexivity]. Qed.

Lemma demo_wf0 : pool_wf demo_pool0.
Proof.
  pose proof (init_state_repr 7 demo_config demo_alloc_api demo_config_valid) as R.
  exact (repr_wf _ _ _ _ _ R).
Qed.

Lemma demo_wf1 : pool_wf demo_pool1.
Proof.
  destruct (pop_spec demo_pool0 demo_wf0 ltac:(done)) as (p'&i&k&E&W&_).
  assert (pool_pop demo_pool0 = Some (Some 2%nat, demo_pool1)) as E' by (vm_compute; reflexivity).
  rewrite E in E'. by simplify_eq.
Qed.

(** Packets 1 and 2 are allocated. *)
Definition demo_pool2 : linkg_packet_pool := Eval vm_compute in
  final (pool_zero 7) (linkg_packet_pool_alloc mutex_default (Some 7%nat) demo_pool1).

Lemma demo_wf2 : pool_wf demo_pool2.
Proof.
  destruct (pop_spec demo_pool1 demo_wf1 ltac:(done)) as (p'&i&k&E&W&_).
  assert (pool_pop demo_pool1 = Some (Some 1%nat, demo_pool2)) as E' by (vm_compute; reflexivity).
  by destruct (run_inj _ _ _ _ _ E E') as [_ ->].
Qed.

(** ** Witnesses *)

Lemma pool_init_ok_witness :
  mutex_ok mutex_default /\ alloc_ok demo_alloc_api /\
  exists p', linkg_packet_pool_init mutex_default demo_alloc_api (Some 7%nat)
               (Some demo_config) (pool_zero 7) = Some (0, p') /\ pool_wf p' /\ po_free_count p' = 3.
Proof.
  split; [apply mutex_default_ok|]. split; [done|].
  destruct (pool_init_ok mutex_default demo_alloc_api demo_config 7)
    as (p'&E&W&F&_); [apply mutex_default_ok|done|apply demo_config_valid|].
  by exists p'.
Defined.

Lemma pool_init_all_or_nothing_witness :
  linkg_packet_pool_init mutex_default (AllocApi true false 0 1000) (Some 7%nat)
    (Some demo_config) (pool_zero 7) = Some (- ENOMEM, pool_zero 7) /\ - ENOMEM <> 0.
Proof.
  assert (linkg_packet_pool_init mutex_default (AllocApi true false 0 1000) (Some 7%nat)
    (Some demo_config) (pool_zero 7) = Some (- ENOMEM, pool_zero 7)) as E by (vm_compute; reflexivity).
  split; [done|].
  destruct (pool_init_all_or_nothing _ _ _ _ _ _ _ E) as [[H _]|[H _]]; [discriminate H|exact H].
Defined.

Lemma alloc_ok_spec_witness :
  exists p' i, linkg_packet_pool_alloc mutex_default (Some (po_addr demo_pool0)) demo_pool0 = Some (Some i, p')
    /\ refs p' i = 1 /\ po_free_count p' = 2.
Proof.
  destruct (alloc_ok_spec mutex_default demo_pool0 mutex_default_ok demo_wf0)
    as [[H _]|(p'&i&k&E&_&_&_&R1&_&_&_&_&F)]; [discriminate H|].
  exists p', i. split_and!; [exact E|exact R1|exact F].
Defined.

Lemma free_count_conservation_witness :
  pool_wf demo_pool1 /\ po_free_count demo_pool1 = 2.
Proof.
  split; [apply demo_wf1|]. rewrite (free_count_conservation demo_pool1 demo_wf1). reflexivity.
Defined.

Lemma deinit_spec_witness :
  linkg_packet_pool_deinit mutex_default (Some 7%nat) demo_pool1 = Some (- EBUSY, demo_pool1) /\
  linkg_packet_pool_deinit mutex_default (Some 7%nat) demo_pool0 = Some (0, pool_zero 7).
Proof.
  split.
  - etransitivity; [exact (deinit_spec mutex_default demo_pool1 mutex_default_ok demo_wf1)|reflexivity].
  - etransitivity; [exact (deinit_spec mutex_default demo_pool0 mutex_default_ok demo_wf0)|reflexivity].
Defined.

Lemma alloc_batch_spec_witness :
  exists p' l, linkg_packet_pool_alloc_batch mutex_default (Some 7%nat) false 12 demo_pool0
    = Some ((3, Some <$> l), p') /\ NoDup l /\ po_free_count p' = 0.
Proof.
  destruct (alloc_batch_spec mutex_default demo_pool0 12 mutex_default_ok demo_wf0 ltac:(lia))
    as (p'&l&E&_&L&_&_&Nd&F).
  exists p', l. split; [exact E|]. split; [exact Nd|]. rewrite F, L. reflexivity.
Defined.

Lemma release_batch_equiv_witness :
  covered demo_pool1 [None; Some 2%nat] /\
  exists p', mfor [None; Some 2%nat] (linkg_packet_release mutex_default) demo_pool1 = Some (tt, p') /\
    refs p' 2 = 0.
Proof.
  assert (covered demo_pool1 [None; Some 2%nat]) as Hc.
  { intros i. cbn. unfold one_ref. case_decide as E; [subst; vm_compute; congruence|].
    assert (0 <= refs demo_pool1 i); [apply refs_nonneg, demo_wf1|lia]. }
  split; [exact Hc|].
  destruct (release_batch_equiv mutex_default demo_pool1 [None; Some 2%nat] mutex_default_ok demo_wf1 Hc)
    as (p'&_&E&_&Rr).
  exists p'. split; [exact E|]. rewrite Rr. reflexivity.
Defined.

Lemma slot_write_isolated_witness :
  exists p', data_store (slot_base demo_pool1 2 + 16) [1; 2; 3] demo_pool1 = Some (tt, p') /\
    slot_view p' 1 = slot_view demo_pool1 1.
Proof.
  destruct (slot_write_isolated demo_pool1 2 16 [1; 2; 3] demo_wf1)
    as (p'&E&_&_&_&H); [by eexists|lia|vm_compute; congruence|].
  exists p'. split; [exact E|]. apply H; [lia|by eexists].
Defined.

Lemma pool_run_sound_witness :
  pool_run mutex_default (add_ref (fun _ => 0) 2 1) demo_pool1 /\ refs demo_pool1 2 = 1.
Proof.
  split; [apply demo_run1|].
  destruct (pool_run_sound mutex_default _ demo_pool1 mutex_default_ok demo_run1) as [_ Rr].
  rewrite Rr. reflexivity.
Defined.
