(* ===== verification/PacketData.v ===== *)
(** * Payload algebra of the packet pool

    How [linkg_packet_push], [linkg_packet_pull] and [memcpy] through
    [linkg_packet_data] act on the payload of a packet, for the codecs and the
    reassembly cache. *)

From S2P Require Import Prelude.
From S2P Require Import PacketStore.
From S2P Require Import PacketPool.

(** The packet is live and its descriptor is [k]. *)
Definition live (p : linkg_packet_pool) (i : nat) (k : linkg_packet) : Prop :=
  pool_wf p /\ 0 < refs p i /\ packet_of p i = Some k.

Definition in_slot (p : linkg_packet_pool) (k : linkg_packet) : Prop :=
  0 <= pk_data_offset k /\ 0 <= pk_data_length k /\
  pk_data_offset k + pk_data_length k <= po_slot_size p /\ po_slot_size p < 2 ^ 32.

Lemma live_wf p i k :
  pool_wf p -> packet_of p i = Some k ->
  packet_wf p i k /\ in_slot p k /\ 0 <= slot_base p i /\
  slot_base p i + po_slot_size p <= Z.of_nat (length (region p)) /\
  po_data_region p = Some (region p).
Proof.
  intros (ks&fs&d&free&R) Hk. rewrite (repr_packet _ _ _ _ _ _ R) in Hk.
  pose proof (rp_wf _ _ _ _ _ R _ _ Hk) as W. pose proof (rp_stride _ _ _ _ _ R).
  destruct (slot_in_region _ _ _ _ _ _ _ R Hk) as [Hb He].
  unfold region. rewrite (rp_data _ _ _ _ _ R). splits; try done.
  destruct W. unfold in_slot. lia.
Qed.

Lemma length_slot_view p i k :
  pool_wf p -> packet_of p i = Some k -> length (slot_view p i) = Z.to_nat (po_slot_size p).
Proof.
  intros Hw Hk. destruct (live_wf p i k Hw Hk) as (_&_&?&?&_).
  unfold slot_view. rewrite length_take, length_drop. lia.
Qed.

Lemma length_payload p i k :
  pool_wf p -> packet_of p i = Some k -> length (payload p i) = Z.to_nat (pk_data_length k).
Proof.
  intros Hw Hk. destruct (live_wf p i k Hw Hk) as (_&(?&?&?&?)&_).
  unfold payload. rewrite Hk, length_take, length_drop, (length_slot_view p i k) by done. lia.
Qed.

Lemma packet_data_eq p i k :
  pool_wf p -> packet_of p i = Some k ->
  linkg_packet_data i p = Some (slot_base p i + pk_data_offset k, p).
Proof.
  intros Hw Hk. destruct (live_wf p i k Hw Hk) as (W&_).
  unfold linkg_packet_data. unfold mbind, M_bind. rewrite (packet_at_eq _ _ k) by done.
  cbn. by rewrite (kwf_slot _ _ _ W).
Qed.

(** Reading from the front of the payload. *)
Lemma load_payload p i k off n :
  pool_wf p -> packet_of p i = Some k -> (off + n <= Z.to_nat (pk_data_length k))%nat ->
  data_load (slot_base p i + pk_data_offset k + Z.of_nat off) n p =
  Some (take n (drop off (payload p i)), p).
Proof.
  intros Hw Hk Hn. destruct (live_wf p i k Hw Hk) as (_&(?&?&?&?)&?&?&Hd).
  rewrite (data_load_eq _ _ _ _ Hd) by lia. do 2 f_equal.
  unfold payload, slot_view. rewrite Hk. apply list_eq. intros j.
  destruct (decide (j < n)%nat); [|by rewrite !lookup_take_ge by lia].
  rewrite lookup_take_lt, lookup_drop by done.
  rewrite lookup_take_lt, lookup_drop by done.
  rewrite lookup_take_lt, lookup_drop by lia.
  rewrite lookup_take_lt, lookup_drop by lia.
  f_equal. lia.
Qed.

Lemma list_inserts_app_prefix (l1 l2 bs : list Z) n :
  length l1 = n -> (length bs <= length l2)%nat ->
  list_inserts n bs (l1 ++ l2) = l1 ++ bs ++ drop (length bs) l2.
Proof.
  intros Hn Hb. apply list_eq. intros j.
  destruct (decide (j < n)%nat).
  { rewrite list_lookup_inserts_lt by done. by rewrite !lookup_app_l by lia. }
  rewrite (lookup_app_r l1 (bs ++ _)) by lia.
  destruct (decide (j < n + length bs)%nat).
  - rewrite list_lookup_inserts by (rewrite ?length_app; lia).
    rewrite lookup_app_l by lia. f_equal. lia.
  - rewrite list_lookup_inserts_ge by lia. rewrite !lookup_app_r by lia.
    rewrite lookup_drop. f_equal. lia.
Qed.

(** Writing inside the payload at [off]. *)
Lemma store_payload p i k off bs :
  pool_wf p -> packet_of p i = Some k ->
  Z.of_nat off + Z.of_nat (length bs) <= pk_data_length k ->
  exists p', data_store (slot_base p i + pk_data_offset k + Z.of_nat off) bs p = Some (tt, p') /\
    pool_wf p' /\ (forall j, packet_of p' j = packet_of p j) /\
    payload p' i = take off (payload p i) ++ bs ++ drop (off + length bs) (payload p i) /\
    (forall j, j <> i -> is_Some (packet_of p j) -> slot_view p' j = slot_view p j) /\
    po_slot_size p' = po_slot_size p /\ po_free_count p' = po_free_count p /\ po_addr p' = po_addr p.
Proof.
  intros Hw Hk Hn. destruct (live_wf p i k Hw Hk) as (_&(?&?&?&?)&?&?&Hd).
  destruct (slot_write_isolated_fact p i (pk_data_offset k + Z.of_nat off) bs Hw)
    as (p'&E&W&P&V&O); [by exists k|lia|lia|].
  rewrite Z.add_assoc in E. exists p'. splits; try done.
  2-4: rewrite (data_store_eq _ _ _ _ Hd) in E by lia; by injection E as <-.
  pose proof (length_payload p i k Hw Hk) as Lp.
  unfold payload at 1. rewrite P, Hk, V.
  set (s := slot_view p i) in *.
  assert (length s = Z.to_nat (po_slot_size p)) as Ls by by apply (length_slot_view p i k).
  assert (payload p i = take (Z.to_nat (pk_data_length k)) (drop (Z.to_nat (pk_data_offset k)) s)) as Ep
    by (unfold payload; by rewrite Hk).
  rewrite Ep. set (o := Z.to_nat (pk_data_offset k)). set (len := Z.to_nat (pk_data_length k)).
  replace (Z.to_nat (pk_data_offset k + Z.of_nat off)) with (o + off)%nat by lia.
  apply list_eq. intros j. destruct (decide (j < len)%nat) as [Hj|Hj].
  2: { rewrite lookup_take_ge by lia. symmetry. apply lookup_ge_None.
       rewrite !length_app, length_drop, !length_take, length_drop. lia. }
  rewrite lookup_take_lt, lookup_drop by done.
  destruct (decide (j < off)%nat); [|destruct (decide (j < off + length bs)%nat)].
  - rewrite list_lookup_inserts_lt by lia. rewrite lookup_app_l by (rewrite !length_take, length_drop; lia).
    rewrite lookup_take_lt, lookup_take_lt, lookup_drop by lia. done.
  - rewrite list_lookup_inserts by lia.
    rewrite lookup_app_r by (rewrite !length_take, length_drop; lia).
    rewrite !length_take, length_drop. rewrite lookup_app_l by lia. f_equal. lia.
  - rewrite list_lookup_inserts_ge by lia.
    rewrite lookup_app_r by (rewrite !length_take, length_drop; lia).
    rewrite !length_take, length_drop. rewrite lookup_app_r by lia.
    rewrite lookup_drop, lookup_take_lt, lookup_drop by lia. f_equal. lia.
Qed.

Lemma same_except_slot_view i p p' j : same_except i p p' -> slot_view p' j = slot_view p j.
Proof.
  intros (_&Hd&Hsz&Hst&_). unfold slot_view, slot_base, region. by rewrite Hd, Hsz, Hst.
Qed.

Lemma same_except_payload i p p' j : same_except i p p' -> j <> i -> payload p' j = payload p j.
Proof.
  intros Hs Hj. unfold payload. rewrite (same_except_slot_view _ _ _ _ Hs).
  destruct Hs as (E&_). by rewrite E.
Qed.

(** Moving the data window of a live packet inside its slot. *)
Lemma window_spec p i k off len :
  live p i k -> 0 <= off -> 0 <= len -> off + len <= po_slot_size p ->
  exists p', packet_update i (set_window off len) p = Some (tt, p') /\
    live p' i (set_window off len k) /\ same_except i p p' /\ refs p' i = refs p i.
Proof.
  intros (Hw&Hr&Hk) Ho Hl He.
  destruct (update_spec p i (set_window off len) Hw Hr) as (p'&k'&E&W&Sm&Rr&K&K').
  { intros k0 []. by split. }
  rewrite Hk in K. injection K as <-. exists p'. splits; try done. split; [done|]. split; [lia|done].
Qed.

Lemma push_spec p i k n :
  live p i k -> 0 < n <= pk_data_offset k ->
  exists p', linkg_packet_push (Some i) n p =
      Some (Some (slot_base p i + (pk_data_offset k - n)), p') /\
    live p' i (set_window (pk_data_offset k - n) (pk_data_length k + n) k) /\
    same_except i p p' /\ refs p' i = refs p i /\
    drop (Z.to_nat n) (payload p' i) = payload p i.
Proof.
  intros L Hn. pose proof L as (Hw&Hr&Hk).
  destruct (live_wf p i k Hw Hk) as (_&(?&?&?&?)&_).
  destruct (window_spec p i k (pk_data_offset k - n) (pk_data_length k + n) L)
    as (p'&E&L'&Sm&Rr); [lia..|].
  exists p'. splits; try done.
  - unfold linkg_packet_push. replace (n =? 0) with false by (symmetry; apply Z.eqb_neq; lia).
    unfold mbind, M_bind. rewrite (packet_at_eq _ _ k) by done.
    replace (pk_data_offset k <? n) with false by (symmetry; apply Z.ltb_ge; lia).
    rewrite !wrap_small by mlia. rewrite E. destruct L' as (W'&_&K').
    rewrite (packet_data_eq p' i _ W' K'). cbn. unfold slot_base.
    by destruct Sm as (_&_&_&->&_).
  - destruct L' as (_&_&K'). unfold payload. rewrite K', Hk, (same_except_slot_view _ _ _ _ Sm). cbn.
    rewrite skipn_firstn_comm, drop_drop.
    f_equal; [|f_equal]; lia.
Qed.

Lemma pull_spec p i k n :
  live p i k -> 0 <= n <= pk_data_length k ->
  exists p', linkg_packet_pull (Some i) n p =
      Some (Some (slot_base p i + (pk_data_offset k + n)), p') /\
    live p' i (set_window (pk_data_offset k + n) (pk_data_length k - n) k) /\
    same_except i p p' /\ refs p' i = refs p i /\
    payload p' i = drop (Z.to_nat n) (payload p i).
Proof.
  intros L Hn. pose proof L as (Hw&Hr&Hk).
  destruct (live_wf p i k Hw Hk) as (W&(?&?&?&?)&_).
  destruct (window_spec p i k (pk_data_offset k + n) (pk_data_length k - n) L)
    as (p'&E&L'&Sm&Rr); [lia..|].
  exists p'. splits; try done.
  - unfold linkg_packet_pull. unfold mbind, M_bind. rewrite (packet_at_eq _ _ k) by done.
    rewrite (kwf_slot _ _ _ W).
    replace (pk_data_length k <? n) with false by (symmetry; apply Z.ltb_ge; lia). cbn [bool_decide orb].
    rewrite bool_decide_false by done. cbn [orb].
    rewrite !wrap_small by mlia. rewrite E. destruct L' as (W'&_&K').
    rewrite (packet_data_eq p' i _ W' K'). cbn. unfold slot_base.
    by destruct Sm as (_&_&_&->&_).
  - destruct L' as (_&_&K'). unfold payload. rewrite K', Hk, (same_except_slot_view _ _ _ _ Sm). cbn.
    rewrite skipn_firstn_comm, drop_drop.
    f_equal; [|f_equal]; lia.
Qed.


(** Only packet [i] and its slot may differ. *)
Record local_change (i : nat) (p p' : linkg_packet_pool) : Prop := {
  lc_packet : forall j, j <> i -> packet_of p' j = packet_of p j;
  lc_slot : forall j, j <> i -> is_Some (packet_of p j) -> slot_view p' j = slot_view p j;
  lc_refs : refs p' i = refs p i;
  lc_size : po_slot_size p' = po_slot_size p;
  lc_addr : po_addr p' = po_addr p }.

Lemma local_change_refl i p : local_change i p p.
Proof. by split. Qed.

Lemma local_change_trans i p1 p2 p3 :
  local_change i p1 p2 -> local_change i p2 p3 -> local_change i p1 p3.
Proof.
  intros [A1 A2 A3 A4 A5] [B1 B2 B3 B4 B5]. split; try congruence.
  - intros j Hj. by rewrite B1, A1.
  - intros j Hj Hs. rewrite B2, A2; [done..|]. by rewrite A1.
Qed.

Lemma local_change_refs i p p' j : local_change i p p' -> refs p' j = refs p j.
Proof.
  intros L. destruct (decide (j = i)) as [->|Hj]; [apply (lc_refs _ _ _ L)|].
  unfold refs. by rewrite (lc_packet _ _ _ L).
Qed.

Lemma local_change_payload i p p' j :
  local_change i p p' -> j <> i -> payload p' j = payload p j.
Proof.
  intros L Hj. unfold payload. rewrite (lc_packet _ _ _ L) by done.
  destruct (packet_of p j) eqn:E; [|done]. rewrite (lc_slot _ _ _ L); [done..|by eexists].
Qed.

Lemma same_except_local i p p' :
  same_except i p p' -> refs p' i = refs p i -> local_change i p p'.
Proof.
  intros S Hr. split; [..|done| |].
  - by destruct S as (E&_).
  - intros j _ _. apply (same_except_slot_view _ _ _ _ S).
  - by destruct S as (_&_&E&_).
  - by destruct S as (_&_&_&_&E&_).
Qed.

(** [memcpy] over the front of the payload. *)
Lemma store_front p i k bs :
  live p i k -> Z.of_nat (length bs) <= pk_data_length k ->
  exists p', data_store (slot_base p i + pk_data_offset k) bs p = Some (tt, p') /\
    live p' i k /\ local_change i p p' /\ payload p' i = bs ++ drop (length bs) (payload p i).
Proof.
  intros (Hw&Hr&Hk) Hb.
  destruct (store_payload p i k 0 bs Hw Hk) as (p'&E&W&P&Pl&O&Sz&_&Ad); [lia|].
  rewrite Z.add_0_r in E. exists p'.
  assert (refs p' i = refs p i) as Er by (unfold refs; by rewrite P).
  splits; [done| | |exact Pl].
  - split; [done|]. split; [lia|]. by rewrite P.
  - by split.
Qed.

(** [linkg_packet_push] followed by the write of the new front. *)
Lemma push_store_spec p i k bs :
  live p i k -> 0 < Z.of_nat (length bs) <= pk_data_offset k ->
  exists a p1 p', linkg_packet_push (Some i) (Z.of_nat (length bs)) p = Some (Some a, p1) /\
    data_store a bs p1 = Some (tt, p') /\
    live p' i (set_window (pk_data_offset k - Z.of_nat (length bs))
                          (pk_data_length k + Z.of_nat (length bs)) k) /\
    local_change i p p' /\ payload p' i = bs ++ payload p i.
Proof.
  intros L Hb. destruct (push_spec p i k _ L Hb) as (p1&E1&L1&S1&R1&D1).
  pose proof L as (Hw&_&Hk). destruct (live_wf p i k Hw Hk) as (_&(?&?&?&?)&_).
  destruct (store_front p1 i _ bs L1) as (p'&E2&L2&C2&P2); [cbn; lia|].
  assert (slot_base p1 i = slot_base p i) as Eb.
  { unfold slot_base. by destruct S1 as (_&_&_&->&_). }
  rewrite Eb in E2. cbn in E2.
  eexists _, p1, p'. splits; [exact E1|exact E2|done| |].
  - eapply local_change_trans; [|exact C2]. by apply same_except_local.
  - rewrite P2. f_equal. rewrite <- D1. f_equal. lia.
Qed.

Lemma load_front p i k n :
  live p i k -> Z.of_nat n <= pk_data_length k ->
  data_load (slot_base p i + pk_data_offset k) n p = Some (take n (payload p i), p).
Proof.
  intros (Hw&_&Hk) Hn. pose proof (load_payload p i k 0 n Hw Hk ltac:(lia)) as E.
  by rewrite Z.add_0_r, drop_0 in E.
Qed.

(** ** What a component that holds references can rely on

    [pool_rel T p p']: packets outside [T] that are still referenced keep their
    data window and their bytes, and nothing is allocated. *)

Definition window_of (p : linkg_packet_pool) (i : nat) : option (Z * Z) :=
  (fun k => (pk_data_offset k, pk_data_length k)) <$> packet_of p i.

Record pool_rel (T : nat -> Prop) (p p' : linkg_packet_pool) : Prop := {
  pr_wf : pool_wf p';
  pr_size : po_slot_size p' = po_slot_size p;
  pr_live : forall j, 0 < refs p' j -> 0 < refs p j;
  pr_window : forall j, ~ T j -> 0 < refs p' j -> window_of p' j = window_of p j;
  pr_payload : forall j, ~ T j -> 0 < refs p' j -> payload p' j = payload p j }.

Definition untouched (j : nat) : Prop := False.

Lemma pool_rel_refl T p : pool_wf p -> pool_rel T p p.
Proof. by split. Qed.

Lemma pool_rel_trans T p1 p2 p3 : pool_rel T p1 p2 -> pool_rel T p2 p3 -> pool_rel T p1 p3.
Proof.
  intros [A1 A2 A3 A4 A5] [B1 B2 B3 B4 B5]. split; [done|congruence|auto|..].
  - intros j HT Hr. rewrite B4, A4; auto.
  - intros j HT Hr. rewrite B5, A5; auto.
Qed.

Lemma pool_rel_weaken (T T' : nat -> Prop) p p' :
  (forall j, T j -> T' j) -> pool_rel T p p' -> pool_rel T' p p'.
Proof. intros H []. split; auto. Qed.

Lemma payload_refcount i p p' n k :
  same_except i p p' -> packet_of p i = Some k -> packet_of p' i = Some (set_refcount n k) ->
  payload p' i = payload p i.
Proof. intros S K K'. unfold payload. by rewrite K, K', (same_except_slot_view _ _ _ _ S). Qed.

Lemma retain_rel p i :
  pool_wf p -> 0 < refs p i < 2 ^ 32 - 1 ->
  exists p', linkg_packet_retain (Some i) p = Some (tt, p') /\ pool_rel untouched p p' /\
    (forall j, refs p' j = refs p j + one_ref i j) /\
    (forall k, packet_of p i = Some k -> exists n, packet_of p' i = Some (set_refcount n k)).
Proof.
  intros Hw Hr. destruct (retain_spec p i Hw Hr) as (p'&k&E&W&Sm&Rr&K&K').
  assert (forall j, refs p' j = refs p j + one_ref i j) as HR.
  { intros j. rewrite (refs_one p p' i 1 j Sm) by lia. lia. }
  exists p'. splits; [done| |done|].
  - split; [done|by destruct Sm as (_&_&?&_)|..].
    + intros j. rewrite HR. destruct (decide (i = j)) as [<-|Hn]; [lia|]. rewrite one_ref_other by done. lia.
    + intros j _ _. unfold window_of. destruct (decide (j = i)) as [->|Hn]; [by rewrite K, K'|].
      by destruct Sm as (->&_).
    + intros j _ _. destruct (decide (j = i)) as [->|Hn]; [by eapply payload_refcount|].
      by apply (same_except_payload i).
  - intros k' Hk'. rewrite K in Hk'. injection Hk' as <-. by eexists.
Qed.

Lemma release_rel mx p i :
  mutex_ok mx -> pool_wf p -> 0 < refs p i ->
  exists p', linkg_packet_release mx (Some i) p = Some (tt, p') /\ pool_rel untouched p p' /\
    (forall j, refs p' j = refs p j - one_ref i j).
Proof.
  intros Hmx Hw Hr. destruct (release_spec mx p i Hmx Hw Hr) as (p'&k&E&W&Sm&Rr&K&_&K').
  assert (forall j, refs p' j = refs p j - one_ref i j) as HR.
  { intros j. rewrite (refs_one p p' i (-1) j Sm) by lia. lia. }
  exists p'. splits; [done| |done].
  split; [done|by destruct Sm as (_&_&?&_)|..].
  - intros j. rewrite HR. pose proof (one_ref_range i j). lia.
  - intros j _ Hp. unfold window_of. destruct (decide (j = i)) as [->|Hn].
    + rewrite K, K'; [done|]. rewrite HR, one_ref_same in Hp. lia.
    + by destruct Sm as (->&_).
  - intros j _ Hp. destruct (decide (j = i)) as [->|Hn]; [|by apply (same_except_payload i)].
    eapply payload_refcount; [done..|]. apply K'. rewrite HR, one_ref_same in Hp. lia.
Qed.

Lemma local_change_rel i p p' : pool_wf p' -> local_change i p p' -> pool_rel (eq i) p p'.
Proof.
  intros W L. split; [done|apply (lc_size _ _ _ L)|..].
  - intros j. by rewrite (local_change_refs i p p').
  - intros j Hj _. unfold window_of. by rewrite (lc_packet _ _ _ L) by congruence.
  - intros j Hj _. apply (local_change_payload i); congruence.
Qed.

Lemma live_window p i k : packet_of p i = Some k -> window_of p i = Some (pk_data_offset k, pk_data_length k).
Proof. intros H. unfold window_of. by rewrite H. Qed.

Lemma window_live p i o n :
  pool_wf p -> 0 < refs p i -> window_of p i = Some (o, n) ->
  exists k, live p i k /\ pk_data_offset k = o /\ pk_data_length k = n.
Proof.
  intros Hw Hr H. unfold window_of in H. destruct (packet_of p i) as [k|] eqn:E; [|done].
  cbn in H. injection H as <- <-. by exists k.
Qed.

Lemma list_inserts_split (l bs : list Z) n :
  (n + length bs <= length l)%nat ->
  list_inserts n bs l = take n l ++ bs ++ drop (n + length bs) l.
Proof.
  intros H. rewrite <- (take_drop n l) at 1.
  rewrite list_inserts_app_prefix by (rewrite ?length_take, ?length_drop; lia).
  by rewrite drop_drop.
Qed.

(** [packet->data_length = length]. *)
Definition set_data_length (i : pkt_ptr) (length : Z) : PM unit :=
  packet_update i (fun k => set_window (pk_data_offset k) length k).

Lemma packet_update_ext p i k f g :
  packet_of p i = Some k -> f k = g k -> packet_update i f p = packet_update i g p.
Proof.
  intros Hk Hf. unfold packet_update. unfold packet_of in Hk.
  destruct (po_packets p) as [ks|]; [|done]. cbn in Hk. by rewrite Hk, Hf.
Qed.

Lemma set_data_length_same p i k :
  packet_of p i = Some k -> set_data_length i (pk_data_length k) p = Some (tt, p).
Proof.
  intros Hk. unfold set_data_length, packet_update. unfold packet_of in Hk.
  destruct (po_packets p) as [ks|] eqn:Ep; [|done]. cbn in Hk. rewrite Hk.
  replace (set_window _ _ k) with k by by destruct k.
  rewrite list_insert_id by done. do 2 f_equal. destruct p; cbn in *. unfold with_packets. cbn. congruence.
Qed.

(** Writing behind the payload and growing the data length over it. *)
Lemma append_spec p i k bs :
  live p i k ->
  pk_data_offset k + pk_data_length k + Z.of_nat (length bs) <= po_slot_size p ->
  exists p1 p', data_store (slot_base p i + pk_data_offset k + pk_data_length k) bs p = Some (tt, p1) /\
    set_data_length i (pk_data_length k + Z.of_nat (length bs)) p1 = Some (tt, p') /\
    live p' i (set_window (pk_data_offset k) (pk_data_length k + Z.of_nat (length bs)) k) /\
    local_change i p p' /\ payload p' i = payload p i ++ bs.
Proof.
  intros L Hn. pose proof L as (Hw&Hr&Hk). destruct (live_wf p i k Hw Hk) as (_&(?&?&?&?)&?&?&Hd).
  destruct (slot_write_isolated_fact p i (pk_data_offset k + pk_data_length k) bs Hw)
    as (p1&E1&W1&P1&V1&O1); [by exists k|lia|lia|].
  rewrite Z.add_assoc in E1.
  assert (po_slot_size p1 = po_slot_size p /\ po_addr p1 = po_addr p) as [Sz Ad].
  { rewrite (data_store_eq _ _ _ _ Hd) in E1 by lia. by injection E1 as <-. }
  assert (live p1 i k) as L1.
  { split; [done|]. unfold refs. rewrite P1. by split. }
  destruct (window_spec p1 i k (pk_data_offset k) (pk_data_length k + Z.of_nat (length bs)) L1)
    as (p'&E2&L'&S2&R2); [lia..|].
  exists p1, p'. splits; [done| |done| |].
  - unfold set_data_length. rewrite <- E2. by apply (packet_update_ext p1 i k); [rewrite P1|].
  - apply (local_change_trans i p p1); [|by apply same_except_local]. split; try done. unfold refs. by rewrite P1.
  - destruct L' as (_&_&K'). unfold payload. rewrite K', Hk, (same_except_slot_view _ _ _ _ S2), V1. cbn.
    pose proof (length_slot_view p i k Hw Hk) as Ls. set (v := slot_view p i) in *. clearbody v.
    rewrite list_inserts_split by lia.
    replace (Z.to_nat (pk_data_offset k + pk_data_length k))
      with (Z.to_nat (pk_data_offset k) + Z.to_nat (pk_data_length k))%nat by lia.
    rewrite drop_app_le by (rewrite length_take; lia).
    rewrite (skipn_firstn_comm (Z.to_nat (pk_data_offset k))).
    replace (Z.to_nat (pk_data_offset k) + Z.to_nat (pk_data_length k) - Z.to_nat (pk_data_offset k))%nat
      with (Z.to_nat (pk_data_length k)) by lia.
    rewrite app_assoc. rewrite take_app_le by (rewrite length_app, length_take, length_drop; lia).
    apply take_ge. rewrite length_app, length_take, length_drop. lia.
Qed.

(** [memcpy(destination, source, n)]: stuck when the areas overlap. *)
Definition memcpy (destination source : Z) (n : nat) : PM unit :=
  assert_ ((destination + Z.of_nat n <=? source) || (source + Z.of_nat n <=? destination)) ;;
  bytes ← data_load source n;
  data_store destination bytes.

Lemma slots_disjoint p i j k kj a b n m :
  pool_wf p -> packet_of p i = Some k -> packet_of p j = Some kj -> i <> j ->
  0 <= a -> a + n <= po_slot_size p -> 0 <= b -> b + m <= po_slot_size p -> n = m ->
  (slot_base p i + a + n <=? slot_base p j + b) || (slot_base p j + b + m <=? slot_base p i + a) = true.
Proof.
  intros Hw Hi Hj Hne Ha Hn Hb Hm Enm.
  destruct Hw as (ks&fs&d&free&R). pose proof (rp_stride _ _ _ _ _ R) as Hs.
  pose proof (slots_apart (po_slot_stride p) (po_slot_size p) i j) as Hd. unfold slot_base.
  apply orb_true_iff. rewrite !Z.leb_le. pose proof (rp_head _ _ _ _ _ R). specialize (Hd Hne ltac:(lia)). lia.
Qed.


(** ** A concrete live packet for the codecs' instances

    A pool of two packets of 1600 bytes with 64 bytes of headroom; packet 1 is
    allocated and holds [len] bytes. *)

Definition frame_config : linkg_packet_pool_config := PoolConfig 2 1600 64.

Definition frame_pool0 : linkg_packet_pool :=
  final (pool_zero 7) (linkg_packet_pool_init mutex_default demo_alloc_api (Some 7%nat)
                         (Some frame_config) (pool_zero 7)).

Definition frame_pool1 : linkg_packet_pool :=
  final (pool_zero 7) (linkg_packet_pool_alloc mutex_default (Some 7%nat) frame_pool0).

Definition frame_pool (len : Z) : linkg_packet_pool :=
  final frame_pool1 (packet_update 1 (set_window 64 len) frame_pool1).

Definition frame_packet (len : Z) : linkg_packet := Packet (Some 7%nat) (Some 1600) 1 64 len 0.

Lemma frame_config_valid : config_valid demo_alloc_api frame_config.
Proof. split; vm_compute; intuition congruence. Qed.

Lemma frame_pool1_live : live frame_pool1 1 (frame_packet 0).
Proof.
  assert (pool_wf frame_pool0) as W0.
  { pose proof (init_state_repr 7 frame_config demo_alloc_api frame_config_valid) as R.
    apply repr_wf in R. match type of R with pool_wf ?q => replace frame_pool0 with q end; [done|].
    vm_compute. reflexivity. }
  destruct (pop_spec frame_pool0 W0 ltac:(vm_compute; done)) as (p'&i&k&E&W&_).
  assert (pool_pop frame_pool0 = Some (Some 1%nat, frame_pool1)) as E' by (vm_compute; reflexivity).
  destruct (run_inj _ _ _ _ _ E E') as [_ ->]. split; [done|]. split; vm_compute; reflexivity.
Qed.

Lemma frame_pool_live len : 0 <= len <= 1536 -> live (frame_pool len) 1 (frame_packet len).
Proof.
  intros Hl. destruct (window_spec frame_pool1 1 (frame_packet 0) 64 len frame_pool1_live)
    as (p'&E&L&_); [lia..| |].
  { assert (po_slot_size frame_pool1 = 1600) as -> by (vm_compute; reflexivity). lia. }
  unfold frame_pool. rewrite E. exact L.
Qed.
