(* ===== verification/PacketLease.v ===== *)
(** * Packets in the hands of a caller

    A caller that holds references lends its packets to a callee. [mine] counts
    the caller's references; a [lease] is what the callee may do meanwhile: count
    references of its own, allocate and release other packets, and change the
    packets it was handed to change. *)

From S2P Require Import Prelude.
From S2P Require Import PacketStore.
From S2P Require Import PacketPool.
From S2P Require Import PacketData.

Definition owned_by (mine : nat -> Z) (p : linkg_packet_pool) : Prop :=
  pool_wf p /\ forall j, 0 <= mine j <= refs p j.

(** The descriptor without its count. *)
Definition meta_of (p : linkg_packet_pool) (j : nat) : option linkg_packet := set_refcount 0 <$> packet_of p j.

(** [T] are the packets the callee may change. *)
Record lease (mine : nat -> Z) (T : nat -> Prop) (p p' : linkg_packet_pool) : Prop := {
  le_owned : owned_by mine p';
  le_size : po_slot_size p' = po_slot_size p;
  le_addr : po_addr p' = po_addr p;
  le_meta : forall j, 0 < mine j -> ~ T j -> meta_of p' j = meta_of p j;
  le_slot : forall j, 0 < mine j -> ~ T j -> slot_view p' j = slot_view p j }.

Definition nothing (j : nat) : Prop := False.

Lemma le_payload mine T p p' j : lease mine T p p' -> 0 < mine j -> ~ T j -> payload p' j = payload p j.
Proof.
  intros L Hj HT. pose proof (le_meta _ _ _ _ L j Hj HT) as E. pose proof (le_slot _ _ _ _ L j Hj HT) as Es.
  unfold payload, meta_of in *. destruct (packet_of p' j) as [k'|], (packet_of p j) as [k|]; try done.
  cbn in E. injection E as _ _ E1 E2 _. by rewrite Es, E1, E2.
Qed.

Lemma lease_refl mine T p : owned_by mine p -> lease mine T p p.
Proof. by split. Qed.

Lemma lease_trans mine T p1 p2 p3 : lease mine T p1 p2 -> lease mine T p2 p3 -> lease mine T p1 p3.
Proof.
  intros [A1 A2 A3 A4 A5] [B1 B2 B3 B4 B5]. split; [done|congruence|congruence|..]; intros j Hm HT.
  - by rewrite B4, A4.
  - by rewrite B5, A5.
Qed.

Lemma lease_weaken mine (T T' : nat -> Prop) p p' : (forall j, T j -> T' j) -> lease mine T p p' -> lease mine T' p p'.
Proof. intros H []. split; auto. Qed.

Lemma owned_live mine p i : owned_by mine p -> 0 < mine i -> exists k, live p i k.
Proof.
  intros [Hw Ho] Hi. specialize (Ho i). assert (0 < refs p i) as Hr by lia.
  destruct (refs_packet p i Hr) as (k&Hk&_). exists k. by split.
Qed.

Lemma meta_live p p' i k : meta_of p' i = meta_of p i -> packet_of p i = Some k ->
  exists n, packet_of p' i = Some (set_refcount n k).
Proof.
  unfold meta_of. intros E Hk. rewrite Hk in E. destruct (packet_of p' i) as [k'|]; [|done]. cbn in E.
  exists (pk_reference_count k'). f_equal. destruct k, k'. unfold set_refcount in *. cbn in *. congruence.
Qed.

(** A borrowed packet that was not changed. *)
Lemma lease_live mine T p p' i k :
  lease mine T p p' -> 0 < mine i -> ~ T i -> packet_of p i = Some k ->
  exists n, live p' i (set_refcount n k) /\ payload p' i = payload p i.
Proof.
  intros L Hi HT Hk. destruct (meta_live p p' i k (le_meta _ _ _ _ L i Hi HT) Hk) as [n Hn].
  exists n. split; [|by eapply le_payload]. destruct (le_owned _ _ _ _ L) as [W O].
  split; [done|]. split; [|done]. specialize (O i). lia.
Qed.

Lemma local_lease mine i p p' :
  owned_by mine p -> pool_wf p' -> local_change i p p' -> lease mine (eq i) p p'.
Proof.
  intros [W O] W' L. split.
  - split; [done|]. intros j. by rewrite (local_change_refs i p p').
  - apply (lc_size _ _ _ L).
  - apply (lc_addr _ _ _ L).
  - intros j _ Hj. unfold meta_of. by rewrite (lc_packet _ _ _ L) by congruence.
  - intros j Hm Hj. apply (lc_slot _ _ _ L); [congruence|]. specialize (O j). unfold refs in O.
    destruct (packet_of p j); [done|lia].
Qed.

(** One reference more: an allocation. *)
Definition with_ref (mine : nat -> Z) (i : nat) (j : nat) : Z := mine j + one_ref i j.

Lemma with_ref_other mine i j : j <> i -> with_ref mine i j = mine j.
Proof. intros H. unfold with_ref. rewrite one_ref_other by congruence. lia. Qed.

Lemma with_ref_same mine i : with_ref mine i i = mine i + 1.
Proof. unfold with_ref. by rewrite one_ref_same. Qed.

Lemma alloc_lease mx mine p :
  mutex_ok mx -> owned_by mine p ->
  (linkg_packet_pool_alloc mx (Some (po_addr p)) p = Some (None, p)) \/
  (exists p' i k, linkg_packet_pool_alloc mx (Some (po_addr p)) p = Some (Some i, p') /\
     mine i = 0 /\ lease mine nothing p p' /\ owned_by (with_ref mine i) p' /\ live p' i k /\ pk_data_length k = 0).
Proof.
  intros Hmx [W O]. destruct (alloc_ok_spec_fact mx p Hmx W) as [[_ E]|(p'&i&k&E&W'&Sm&R0&R1&K&_&Kl&_)]; [by left|].
  right. exists p', i, k. assert (mine i = 0) as Hi by (specialize (O i); lia).
  assert (forall j, refs p' j = refs p j + one_ref i j) as Hr.
  { intros j. rewrite (refs_one p p' i 1 j Sm) by lia. lia. }
  assert (owned_by (with_ref mine i) p') as Ow.
  { split; [done|]. intros j. rewrite Hr. unfold with_ref. specialize (O j). pose proof (one_ref_range i j). lia. }
  splits; try done; [|by split; [done|split; [lia|done]]].
  assert (forall j, 0 < mine j -> j <> i) as Hne by (intros j Hj ->; lia). split.
  - split; [done|]. intros j. rewrite Hr. specialize (O j). pose proof (one_ref_range i j). lia.
  - by destruct Sm as (_&_&?&_).
  - by destruct Sm as (_&_&_&_&?&_).
  - intros j Hj _. unfold meta_of. destruct Sm as (->&_); [done|by apply Hne].
  - intros j _ _. by apply (same_except_slot_view i).
Qed.

Lemma release_lease mx mine i p :
  mutex_ok mx -> owned_by (with_ref mine i) p -> mine i = 0 ->
  exists p', linkg_packet_release mx (Some i) p = Some (tt, p') /\ lease mine nothing p p'.
Proof.
  intros Hmx [W O] Hi. pose proof (O i) as Oi. rewrite with_ref_same in Oi.
  destruct (release_spec mx p i Hmx W ltac:(lia)) as (p'&k&E&W'&Sm&Rr&K&_&K').
  assert (forall j, 0 < mine j -> j <> i) as Hne by (intros j Hj ->; lia).
  exists p'. split; [done|]. split.
  - split; [done|]. intros j. rewrite (refs_one p p' i (-1) j Sm) by lia. specialize (O j). unfold with_ref in O.
    destruct (decide (i = j)) as [<-|Hn]; [rewrite one_ref_same in *|rewrite one_ref_other in * by done]; lia.
  - by destruct Sm as (_&_&?&_).
  - by destruct Sm as (_&_&_&_&?&_).
  - intros j Hj _. unfold meta_of. destruct Sm as (->&_); [done|by apply Hne].
  - intros j _ _. by apply (same_except_slot_view i).
Qed.

Lemma owned_ext mine mine' p : (forall j, mine j = mine' j) -> owned_by mine p -> owned_by mine' p.
Proof. intros H [W O]. split; [done|]. intros j. by rewrite <- H. Qed.

(** A lease in the eyes of a holder of fewer references. *)
Lemma lease_sub mine mine' (T T' : nat -> Prop) p p' :
  (forall j, 0 <= mine j <= mine' j) -> (forall j, T j -> 0 < mine j -> T' j) ->
  lease mine' T p p' -> lease mine T' p p'.
Proof.
  intros Hm HT L. destruct (le_owned _ _ _ _ L) as [W O]. split.
  - split; [done|]. intros j. specialize (Hm j). specialize (O j). lia.
  - apply (le_size _ _ _ _ L).
  - apply (le_addr _ _ _ _ L).
  - intros j Hj Hn. specialize (Hm j). apply (le_meta _ _ _ _ L); [lia|auto].
  - intros j Hj Hn. specialize (Hm j). apply (le_slot _ _ _ _ L); [lia|auto].
Qed.

(** References to a list of packets more. *)
Definition with_refs (mine : nat -> Z) (l : list nat) (j : nat) : Z := mine j + sumZ (fun i => one_ref i j) l.

Lemma with_refs_range mine l j : mine j <= with_refs mine l j.
Proof.
  unfold with_refs. assert (0 <= sumZ (fun i => one_ref i j) l); [|lia].
  apply sumZ_nonneg. intros i _. pose proof (one_ref_range i j). lia.
Qed.

Lemma with_refs_other mine l j : j ∉ l -> with_refs mine l j = mine j.
Proof.
  intros H. unfold with_refs. enough (sumZ (fun i => one_ref i j) l = 0) by lia.
  induction l as [|x l IH]; [done|]. cbn. apply not_elem_of_cons in H as [Hx Hl].
  rewrite (IH Hl), one_ref_other by congruence. done.
Qed.

Lemma with_refs_in mine l j : j ∈ l -> mine j + 1 <= with_refs mine l j.
Proof.
  intros H. unfold with_refs. enough (1 <= sumZ (fun i => one_ref i j) l) by lia.
  apply list_elem_of_lookup in H as [n H]. rewrite <- (one_ref_same j).
  apply (sumZ_lookup_le (fun i => one_ref i j) l n j); [|done]. intros i _. pose proof (one_ref_range i j). lia.
Qed.

Lemma with_refs_cons mine i l j : with_refs mine (i :: l) j = with_refs (with_ref mine i) l j.
Proof. unfold with_refs, with_ref. cbn. lia. Qed.

Lemma with_refs_cons_out mine i l j : with_refs mine (i :: l) j = with_ref (with_refs mine l) i j.
Proof. unfold with_refs, with_ref. cbn. lia. Qed.

(** Releasing each packet of a list. *)
Lemma release_all_lease mx mine l p :
  mutex_ok mx -> (forall j, 0 <= mine j) -> NoDup l -> (forall j, j ∈ l -> mine j = 0) -> owned_by (with_refs mine l) p ->
  exists p', mfor l (fun j => linkg_packet_release mx (Some j)) p = Some (tt, p') /\ lease mine nothing p p'.
Proof.
  intros Hmx Hp Hn. revert p. induction Hn as [|i l Hi Hn IH]; intros p H0 O.
  - exists p. split; [done|]. apply lease_refl. eapply owned_ext; [|exact O]. intros j. unfold with_refs. cbn. lia.
  - destruct (release_lease mx (with_refs mine l) i p Hmx) as (p1&E1&L1).
    { eapply owned_ext; [|exact O]. intros j. apply with_refs_cons_out. }
    { rewrite with_refs_other by done. apply H0. by left. }
    destruct (IH p1) as (p2&E2&L2); [intros j Hj; apply H0; by right|apply (le_owned _ _ _ _ L1)|].
    exists p2. split; [cbn; unfold mbind, M_bind; by rewrite E1|]. eapply lease_trans; [|exact L2].
    eapply lease_sub; [|..|exact L1]; [|done]. intros j. split; [apply Hp|apply with_refs_range].
Qed.
