(* ===== verification/TransportWindow.v ===== *)
(** * Receive sequence window  (core/transport/transport_window.c)

    The 512-bit sliding window that accepts each hop sequence number of a peer
    and traffic class once, and counts the numbers that leave it unreceived.
    Words of the bitmap are 64-bit integers; bit 0 of word 0 is the highest
    sequence number seen. *)

From S2P Require Import Prelude.

(** ** Data *)

Definition LINKG_TRANSPORT_RX_WINDOW_BITS := 512.
Definition LINKG_TRANSPORT_RX_WINDOW_WORDS := LINKG_TRANSPORT_RX_WINDOW_BITS / 64.

Inductive linkg_transport_window_result :=
| WINDOW_INVALID
| WINDOW_ACCEPT
| WINDOW_DUPLICATE
| WINDOW_TOO_OLD.

Record linkg_transport_rx_window := RxWindow {
  received_bitmap : list Z;
  highest_sequence : Z;
  tracked_count : Z;
  initialized : bool }.

Definition bitmap_zero : list Z := replicate (Z.to_nat LINKG_TRANSPORT_RX_WINDOW_WORDS) 0.

Definition window_zero : linkg_transport_rx_window := RxWindow bitmap_zero 0 0 false.

(** [window->received_bitmap[i]] for an index the caller has bounded. *)
Definition word (bm : list Z) (i : Z) : Z := default 0 (bm !! Z.to_nat i).

Definition set_bitmap (bm : list Z) (w : linkg_transport_rx_window) : linkg_transport_rx_window :=
  RxWindow bm (highest_sequence w) (tracked_count w) (initialized w).

(** ** Helpers

    The window a static helper receives is the one [accept_ex] has checked
    against NULL; [bit_test] and [count_missing] keep the guard in their type. *)

Definition _linkg_transport_window_bit_test (window : option linkg_transport_rx_window)
    (offset : Z) : bool :=
  match window with
  | None => false
  | Some w =>
      if LINKG_TRANSPORT_RX_WINDOW_BITS <=? offset then false
      else
        let word_index := offset / 64 in
        let bit_index := offset mod 64 in
        negb (Z.land (word (received_bitmap w) word_index) (u64 (Z.shiftl 1 bit_index)) =? 0)
  end.

Definition _linkg_transport_window_bit_set (w : linkg_transport_rx_window) (offset : Z)
    : linkg_transport_rx_window :=
  if LINKG_TRANSPORT_RX_WINDOW_BITS <=? offset then w
  else
    let word_index := offset / 64 in
    let bit_index := offset mod 64 in
    set_bitmap (<[Z.to_nat word_index :=
      Z.lor (word (received_bitmap w) word_index) (u64 (Z.shiftl 1 bit_index))]> (received_bitmap w)) w.

(** The loop [for (offset = start; offset < end; offset++)] of
    [_linkg_transport_window_count_missing]. *)
Definition count_missing_loop (w : linkg_transport_rx_window) (start_offset end_offset : Z) : Z :=
  foldl (fun missing offset =>
           if _linkg_transport_window_bit_test (Some w) offset then missing else u32 (missing + 1))
        0 (seqZ start_offset (end_offset - start_offset)).

Definition _linkg_transport_window_count_missing (window : option linkg_transport_rx_window)
    (start_offset end_offset : Z) : Z :=
  match window with
  | None => 0
  | Some w =>
      if end_offset <=? start_offset then 0
      else
        let end_offset := if tracked_count w <? end_offset then tracked_count w else end_offset in
        count_missing_loop w start_offset end_offset
  end.

(** One iteration of the word loop of [_linkg_transport_window_shift]. *)
Definition shift_word (bm : list Z) (word_shift bit_shift : Z) (shifted : list Z) (destination_word : Z)
    : list Z :=
  let source_word := destination_word - word_shift in
  let shifted :=
    <[Z.to_nat destination_word :=
        Z.lor (word shifted destination_word) (u64 (Z.shiftl (word bm source_word) bit_shift))]> shifted in
  if negb (bit_shift =? 0) && (0 <? source_word)
  then <[Z.to_nat destination_word :=
           Z.lor (word shifted destination_word)
                 (Z.shiftr (word bm (source_word - 1)) (64 - bit_shift))]> shifted
  else shifted.

Definition _linkg_transport_window_shift (w : linkg_transport_rx_window) (advance : Z)
    : linkg_transport_rx_window :=
  if advance =? 0 then w
  else if LINKG_TRANSPORT_RX_WINDOW_BITS <=? advance then set_bitmap bitmap_zero w
  else
    let word_shift := advance / 64 in
    let bit_shift := advance mod 64 in
    set_bitmap
      (foldl (shift_word (received_bitmap w) word_shift bit_shift) bitmap_zero
             (seqZ word_shift (LINKG_TRANSPORT_RX_WINDOW_WORDS - word_shift))) w.

Definition _linkg_transport_window_confirm_lost (w : linkg_transport_rx_window) (advance : Z) : Z :=
  if (advance =? 0) || (tracked_count w =? 0) then 0
  else if LINKG_TRANSPORT_RX_WINDOW_BITS <=? advance then
    let lost := _linkg_transport_window_count_missing (Some w) 0 (tracked_count w) in
    u32 (lost + u32 (advance - LINKG_TRANSPORT_RX_WINDOW_BITS))
  else
    let leaving_offset := LINKG_TRANSPORT_RX_WINDOW_BITS - advance in
    if tracked_count w <=? leaving_offset then 0
    else _linkg_transport_window_count_missing (Some w) leaving_offset (tracked_count w).

(** ** Operations *)

Definition linkg_transport_window_reset (w : linkg_transport_rx_window) : linkg_transport_rx_window :=
  window_zero.

(** The result, the window and the value written through [confirmed_lost]. *)
Definition linkg_transport_window_accept_ex (window : option linkg_transport_rx_window) (sequence : Z)
    : linkg_transport_window_result * option linkg_transport_rx_window * Z :=
  match window with
  | None => (WINDOW_INVALID, None, 0)
  | Some w =>
      if negb (initialized w) then
        (WINDOW_ACCEPT,
         Some (_linkg_transport_window_bit_set (RxWindow bitmap_zero sequence 1 true) 0), 0)
      else
        let delta := i32_of_u32 (u32 (sequence - highest_sequence w)) in
        if 0 <? delta then
          let advance := delta in
          let confirmed_lost := _linkg_transport_window_confirm_lost w advance in
          let w1 := _linkg_transport_window_shift w advance in
          let sum := u32 (tracked_count w + advance) in
          let new_tracked_count :=
            if (sum <? tracked_count w) || (LINKG_TRANSPORT_RX_WINDOW_BITS <? sum)
            then LINKG_TRANSPORT_RX_WINDOW_BITS else sum in
          (WINDOW_ACCEPT,
           Some (_linkg_transport_window_bit_set
                   (RxWindow (received_bitmap w1) sequence new_tracked_count (initialized w1)) 0),
           confirmed_lost)
        else
          let behind := u32 (highest_sequence w - sequence) in
          if (LINKG_TRANSPORT_RX_WINDOW_BITS <=? behind) || (tracked_count w <=? behind)
          then (WINDOW_TOO_OLD, window, 0)
          else if _linkg_transport_window_bit_test window behind
          then (WINDOW_DUPLICATE, window, 0)
          else (WINDOW_ACCEPT, Some (_linkg_transport_window_bit_set w behind), 0)
  end.

Definition linkg_transport_window_accept (window : option linkg_transport_rx_window) (sequence : Z)
    : linkg_transport_window_result * option linkg_transport_rx_window :=
  let '(r, w, _) := linkg_transport_window_accept_ex window sequence in (r, w).

Example window_two_frames :
  let '(_, w, _) := linkg_transport_window_accept_ex (Some window_zero) 100 in
  let '(r, w, lost) := linkg_transport_window_accept_ex w 1000 in
  (r, lost, option_map tracked_count w) = (WINDOW_ACCEPT, 388, Some 512).
Proof. vm_compute. reflexivity. Qed.

(** ** The bitmap as a set of offsets *)

Definition bitmap_wf (bm : list Z) : Prop :=
  length bm = 8%nat /\ forall i x, bm !! i = Some x -> in_range 64 x.

(** Bit [off] of the bitmap. *)
Definition bit (bm : list Z) (off : Z) : bool := Z.testbit (word bm (off / 64)) (off mod 64).

Lemma word_range bm i : bitmap_wf bm -> in_range 64 (word bm i).
Proof.
  intros [Hl Hr]. unfold word. destruct (bm !! Z.to_nat i) eqn:E; cbn; [by eapply Hr|mlia].
Qed.

Lemma word_insert bm i j x :
  bitmap_wf bm -> 0 <= i < 8 -> 0 <= j < 8 ->
  word (<[Z.to_nat i := x]> bm) j = if j =? i then x else word bm j.
Proof.
  intros [Hl _] Hi Hj. unfold word. rewrite lookup_insert_case by lia.
  case_decide; destruct (Z.eqb_spec j i); try lia; done.
Qed.

Lemma bitmap_wf_insert bm i x :
  bitmap_wf bm -> in_range 64 x -> bitmap_wf (<[i := x]> bm).
Proof.
  intros [Hl Hr] Hx. split; [by rewrite length_insert|].
  intros j y. destruct (decide (i < length bm)%nat).
  - rewrite lookup_insert_case by done. case_decide; [by intros [= <-]|apply Hr].
  - rewrite list_insert_ge by lia. apply Hr.
Qed.

Lemma bitmap_zero_wf : bitmap_wf bitmap_zero.
Proof. split; [done|]. intros i x [-> _]%lookup_replicate. mlia. Qed.

Lemma word_bitmap_zero i : word bitmap_zero i = 0.
Proof.
  unfold word, bitmap_zero. destruct (_ !! _) eqn:E; [|done].
  by apply lookup_replicate in E as [-> _].
Qed.

Lemma lor_range a b : in_range 64 a -> in_range 64 b -> in_range 64 (Z.lor a b).
Proof.
  unfold in_range. intros [A0 A1] [B0 B1]. split; [by apply Z.lor_nonneg|].
  assert (0 <= Z.lor a b) by (by apply Z.lor_nonneg).
  destruct (Z.eq_dec (Z.lor a b) 0) as [->|Hz]; [mlia|].
  apply Z.log2_lt_pow2; [lia|]. rewrite Z.log2_lor by done.
  apply Z.max_lub_lt; [destruct (Z.eq_dec a 0) as [->|]|destruct (Z.eq_dec b 0) as [->|]];
    try (cbn; lia); apply Z.log2_lt_pow2; lia.
Qed.

Lemma shiftr_range a n : 0 <= n -> in_range 64 a -> in_range 64 (Z.shiftr a n).
Proof.
  unfold in_range. intros Hn [A0 A1]. rewrite Z.shiftr_div_pow2 by done.
  assert (0 < 2 ^ n) by (apply Z.pow_pos_nonneg; lia).
  split; [apply Z.div_pos; lia|]. apply Z.div_lt_upper_bound; [done|]. nia.
Qed.

(** One-bit masks and the test of the code. *)
Lemma mask_bit b : 0 <= b < 64 -> u64 (Z.shiftl 1 b) = 2 ^ b.
Proof.
  intros Hb. rewrite Z.shiftl_1_l. apply wrap_small. split; [lia|].
  apply Z.pow_lt_mono_r; lia.
Qed.

Lemma test_mask x b : 0 <= b < 64 -> negb (Z.land x (u64 (Z.shiftl 1 b)) =? 0) = Z.testbit x b.
Proof.
  intros Hb. rewrite mask_bit by done. destruct (Z.testbit x b) eqn:E.
  - apply negb_true_iff, Z.eqb_neq. intros H.
    assert (Z.testbit (Z.land x (2 ^ b)) b = true) as Ht.
    { rewrite Z.land_spec, E, Z.pow2_bits_true by lia. done. }
    rewrite H, Z.bits_0 in Ht. done.
  - apply negb_false_iff, Z.eqb_eq. apply Z.bits_inj'. intros i Hi.
    rewrite Z.land_spec, Z.bits_0. destruct (Z.eq_dec i b) as [->|]; [by rewrite E|].
    rewrite Z.pow2_bits_false by lia. apply andb_false_r.
Qed.

Lemma bit_test_spec w off :
  0 <= off -> _linkg_transport_window_bit_test (Some w) off = (off <? 512) && bit (received_bitmap w) off.
Proof.
  intros Ho. unfold _linkg_transport_window_bit_test, LINKG_TRANSPORT_RX_WINDOW_BITS.
  destruct (Z.leb_spec 512 off); bsimp; [done|].
  apply test_mask. apply Z.mod_pos_bound. lia.
Qed.

Lemma word_index off : 0 <= off < 512 -> 0 <= off / 64 < 8.
Proof. intros. mlia. Qed.

(** Setting a bit changes that bit only. *)
Lemma bit_set_spec w off j :
  bitmap_wf (received_bitmap w) -> 0 <= off < 512 -> 0 <= j < 512 ->
  bit (received_bitmap (_linkg_transport_window_bit_set w off)) j =
  (j =? off) || bit (received_bitmap w) j.
Proof.
  intros Hw Ho Hj. unfold _linkg_transport_window_bit_set, LINKG_TRANSPORT_RX_WINDOW_BITS.
  bsimp. cbn [received_bitmap set_bitmap]. unfold bit at 1.
  pose proof (word_index off Ho). pose proof (word_index j Hj). rewrite word_insert by done.
  pose proof (Z.mod_pos_bound off 64 ltac:(lia)). pose proof (Z.mod_pos_bound j 64 ltac:(lia)).
  rewrite mask_bit by done.
  destruct (Z.eqb_spec (j / 64) (off / 64)) as [E|E].
  - rewrite Z.lor_spec, <- E. fold (bit (received_bitmap w) j). rewrite orb_comm. f_equal.
    destruct (Z.eqb_spec j off) as [->|Hne]; [apply Z.pow2_bits_true; lia|].
    apply Z.pow2_bits_false. intros Hm. apply Hne. mlia.
  - destruct (Z.eqb_spec j off) as [->|]; done.
Qed.

Lemma bit_set_wf w off :
  bitmap_wf (received_bitmap w) -> 0 <= off ->
  bitmap_wf (received_bitmap (_linkg_transport_window_bit_set w off)).
Proof.
  intros Hw Ho. unfold _linkg_transport_window_bit_set. case_match; [done|]. cbn.
  apply bitmap_wf_insert; [done|]. apply lor_range; [by apply word_range|].
  by apply wrap_range.
Qed.

(** ** The word-wise shift moves every bit by [advance] *)

Definition shifted_word (bm : list Z) (ws bs d : Z) : Z :=
  Z.lor (u64 (Z.shiftl (word bm (d - ws)) bs))
        (if negb (bs =? 0) && (0 <? d - ws) then Z.shiftr (word bm (d - ws - 1)) (64 - bs) else 0).

Lemma shift_word_spec bm ws bs acc d j :
  bitmap_wf bm -> bitmap_wf acc -> 0 <= bs < 64 -> 0 <= d < 8 -> 0 <= j < 8 -> word acc d = 0 ->
  bitmap_wf (shift_word bm ws bs acc d) /\
  word (shift_word bm ws bs acc d) j = if j =? d then shifted_word bm ws bs d else word acc j.
Proof.
  intros Hbm Hacc Hbs Hd Hj H0. unfold shift_word. rewrite H0, Z.lor_0_l.
  assert (in_range 64 (u64 (Z.shiftl (word bm (d - ws)) bs))) as Hr by by apply wrap_range.
  unfold shifted_word. destruct (_ && _).
  - rewrite word_insert, Z.eqb_refl by (by try apply bitmap_wf_insert).
    split.
    + apply bitmap_wf_insert; [by apply bitmap_wf_insert|].
      apply lor_range; [done|apply shiftr_range; [lia|by apply word_range]].
    + rewrite !word_insert by (by try apply bitmap_wf_insert). by destruct (j =? d).
  - split; [by apply bitmap_wf_insert|]. rewrite word_insert, Z.lor_0_r by done. done.
Qed.

Lemma shift_fold_spec bm ws bs l : forall acc,
  bitmap_wf bm -> bitmap_wf acc -> 0 <= bs < 64 -> NoDup l ->
  (forall d, d ∈ l -> 0 <= d < 8 /\ word acc d = 0) ->
  bitmap_wf (foldl (shift_word bm ws bs) acc l) /\
  forall j, 0 <= j < 8 ->
    word (foldl (shift_word bm ws bs) acc l) j =
    if decide (j ∈ l) then shifted_word bm ws bs j else word acc j.
Proof.
  induction l as [|d l IH]; intros acc Hbm Hacc Hbs Hnd Hl; cbn.
  - split; [done|]. intros j Hj. rewrite decide_False by set_solver. done.
  - apply NoDup_cons in Hnd as [Hnin Hnd]. destruct (Hl d) as [Hd H0]; [left|].
    destruct (IH (shift_word bm ws bs acc d) Hbm) as [Hwf Hw]; [| done|done| |].
    + by apply (shift_word_spec bm ws bs acc d d).
    + intros e He. destruct (Hl e) as [Her He0]; [by right|]. split; [done|].
      destruct (shift_word_spec bm ws bs acc d e) as [_ ->]; try done.
      destruct (Z.eqb_spec e d); [by subst|done].
    + split; [done|]. intros j Hj. rewrite Hw by done.
      destruct (shift_word_spec bm ws bs acc d j) as [_ ->]; try done.
      destruct (Z.eqb_spec j d) as [->|]; repeat case_decide; try done; set_solver.
Qed.

Lemma shift_wf w a :
  bitmap_wf (received_bitmap w) -> 0 <= a ->
  bitmap_wf (received_bitmap (_linkg_transport_window_shift w a)).
Proof.
  intros Hw Ha. unfold _linkg_transport_window_shift, LINKG_TRANSPORT_RX_WINDOW_BITS.
  case_match; zb; [done|]. case_match; zb; [apply bitmap_zero_wf|]. cbn [received_bitmap set_bitmap].
  apply shift_fold_spec; try done.
  - apply bitmap_zero_wf.
  - apply Z.mod_pos_bound. lia.
  - apply NoDup_seqZ.
  - intros d Hd%elem_of_seqZ. change LINKG_TRANSPORT_RX_WINDOW_WORDS with 8 in Hd.
    split; [mlia|apply word_bitmap_zero].
Qed.

Lemma testbit_high x i : in_range 64 x -> 64 <= i -> Z.testbit x i = false.
Proof.
  intros Hx Hi. destruct (Z.eq_dec x 0) as [->|]; [apply Z.bits_0|].
  apply Z.bits_above_log2; [apply Hx|]. apply Z.lt_le_trans with 64; [|done].
  apply Z.log2_lt_pow2; unfold in_range in Hx; lia.
Qed.

Lemma shift_spec w a j :
  bitmap_wf (received_bitmap w) -> 0 <= a < 512 -> 0 <= j < 512 ->
  bit (received_bitmap (_linkg_transport_window_shift w a)) j =
  (a <=? j) && bit (received_bitmap w) (j - a).
Proof.
  intros Hw Ha Hj. unfold _linkg_transport_window_shift, LINKG_TRANSPORT_RX_WINDOW_BITS.
  destruct (Z.eqb_spec a 0) as [->|Ha0].
  { bsimp. by rewrite Z.sub_0_r. }
  bsimp. cbn [received_bitmap set_bitmap]. set (bm := received_bitmap w) in *.
  set (ws := a / 64). set (bs := a mod 64).
  assert (0 <= bs < 64) as Hbs by (apply Z.mod_pos_bound; lia).
  destruct (shift_fold_spec bm ws bs (seqZ ws (LINKG_TRANSPORT_RX_WINDOW_WORDS - ws)) bitmap_zero)
    as [_ Hwd]; try done.
  { apply bitmap_zero_wf. } { apply NoDup_seqZ. }
  { intros d Hd%elem_of_seqZ. change LINKG_TRANSPORT_RX_WINDOW_WORDS with 8 in Hd.
    split; [subst ws; mlia|apply word_bitmap_zero]. }
  pose proof (word_index j Hj) as Hjw. set (jb := j mod 64).
  assert (0 <= jb < 64) as Hjb by (apply Z.mod_pos_bound; lia).
  assert (j = 64 * (j / 64) + jb) as Ej by (apply Z.div_mod; lia).
  assert (a = 64 * ws + bs) as Ea by (apply Z.div_mod; lia).
  unfold bit at 1. rewrite Hwd by done. fold jb.
  change LINKG_TRANSPORT_RX_WINDOW_WORDS with 8.
  case_decide as Hin; rewrite elem_of_seqZ in Hin.
  2: { rewrite word_bitmap_zero, Z.bits_0. replace (a <=? j) with false; [done|].
       symmetry. apply Z.leb_gt. lia. }
  unfold shifted_word. rewrite Z.lor_spec. unfold wrap. rewrite Z.mod_pow2_bits_low by lia.
  rewrite Z.shiftl_spec by lia. unfold bit.
  destruct (Z.leb_spec bs jb) as [Hle|Hgt].
  - replace ((j - a) / 64) with (j / 64 - ws) by (apply Z.div_unique with (jb - bs); lia).
    replace ((j - a) mod 64) with (jb - bs) by (apply Z.mod_unique with (j / 64 - ws); lia).
    replace (a <=? j) with true by (symmetry; apply Z.leb_le; lia).
    destruct (_ && _) eqn:Ec; [|by rewrite Z.bits_0, orb_false_r].
    rewrite Z.shiftr_spec, (testbit_high _ (jb + (64 - bs))) by (try apply word_range; done || lia).
    by rewrite orb_false_r.
  - rewrite (Z.testbit_neg_r _ (jb - bs)) by lia. cbn [orb].
    destruct (Z.ltb_spec 0 (j / 64 - ws)) as [Hp|Hp].
    + replace (negb (bs =? 0) && true) with true by (bsimp; done).
      rewrite Z.shiftr_spec by lia.
      replace ((j - a) / 64) with (j / 64 - ws - 1) by (apply Z.div_unique with (jb - bs + 64); lia).
      replace ((j - a) mod 64) with (jb + (64 - bs)) by (apply Z.mod_unique with (j / 64 - ws - 1); lia).
      replace (a <=? j) with true by (symmetry; apply Z.leb_le; lia). done.
    + rewrite andb_false_r, Z.bits_0. replace (a <=? j) with false; [done|].
      symmetry. apply Z.leb_gt. lia.
Qed.

(** ** Counting *)

Definition unset (bm : list Z) (off : Z) : Z := if bit bm off then 0 else 1.

Lemma count_loop_acc w l : forall acc,
  (forall off, off ∈ l -> 0 <= off < 512) -> 0 <= acc -> acc + Z.of_nat (length l) < 2 ^ 32 ->
  foldl (fun missing offset =>
           if _linkg_transport_window_bit_test (Some w) offset then missing else u32 (missing + 1)) acc l
  = acc + sumZ (unset (received_bitmap w)) l.
Proof.
  induction l as [|o l IH]; intros acc Hl H0 Hb; cbn [foldl sumZ]; [lia|].
  cbn [length] in Hb. specialize (Hl o (list_elem_of_here _ _)) as Ho.
  rewrite bit_test_spec by lia. replace (o <? 512) with true by (symmetry; apply Z.ltb_lt; lia).
  cbn [andb]. unfold unset at 1. destruct (bit _ o).
  - rewrite IH; [lia| |lia|lia]. intros; apply Hl; by right.
  - rewrite wrap_small by mlia. rewrite IH; [lia| |lia|lia]. intros; apply Hl; by right.
Qed.

Lemma count_missing_spec w s e :
  0 <= s -> e <= 512 -> count_missing_loop w s e = sum_from (unset (received_bitmap w)) s (e - s).
Proof.
  intros Hs He. unfold count_missing_loop. rewrite count_loop_acc.
  - unfold sum_from, seqZ. rewrite sumZ_fmap. apply sumZ_ext. intros i _. f_equal. lia.
  - intros off Hoff%elem_of_seqZ. lia.
  - lia.
  - unfold seqZ. rewrite length_fmap, length_seq. mlia.
Qed.

(** ** Abstract specification

    Sequence numbers are unbounded integers; the window remembers the highest
    one, the lower end [aw_low] of what it still tracks, and the set of all
    numbers ever accepted. A number is confirmed lost when [aw_low] passes it
    before it was accepted. *)

Record awindow := AWindow { aw_high : Z; aw_low : Z; aw_recv : gset Z }.

Definition missing (recv : gset Z) (k : Z) : Z := if decide (k ∈ recv) then 0 else 1.

Definition aw_first (n : Z) : awindow := AWindow n (n - 1) {[ n ]}.

Definition aw_accept (n : Z) (s : awindow) : linkg_transport_window_result * awindow * Z :=
  if aw_high s <? n then
    let low' := Z.max (aw_low s) (n - 512) in
    (WINDOW_ACCEPT, AWindow n low' ({[ n ]} ∪ aw_recv s),
     sum_from (missing (aw_recv s)) (aw_low s + 1) (low' - aw_low s))
  else if n <=? aw_low s then (WINDOW_TOO_OLD, s, 0)
  else if decide (n ∈ aw_recv s) then (WINDOW_DUPLICATE, s, 0)
  else (WINDOW_ACCEPT, AWindow (aw_high s) (aw_low s) ({[ n ]} ∪ aw_recv s), 0).

(** The concrete window [w] represents [s]. *)
Record window_repr (s : awindow) (w : linkg_transport_rx_window) : Prop := {
  wr_init : initialized w = true;
  wr_wf : bitmap_wf (received_bitmap w);
  wr_high : highest_sequence w = u32 (aw_high s);
  wr_count : tracked_count w = aw_high s - aw_low s;
  wr_size : 1 <= aw_high s - aw_low s <= 512;
  wr_recv : forall k, k ∈ aw_recv s -> k <= aw_high s;
  wr_bits : forall off, 0 <= off < tracked_count w ->
    bit (received_bitmap w) off = bool_decide (aw_high s - off ∈ aw_recv s) }.

(** The tracked bits, read upwards in sequence numbers. *)
Lemma tracked_missing s w start :
  window_repr s w -> 0 <= start <= tracked_count w ->
  sum_from (unset (received_bitmap w)) start (tracked_count w - start) =
  sum_from (missing (aw_recv s)) (aw_low s + 1) (aw_high s - start - aw_low s).
Proof.
  intros R Hs. pose proof (wr_count _ _ R) as Hc. rewrite sum_from_reverse by lia.
  replace (aw_low s + 1) with (start + (aw_low s + 1 - start)) by lia.
  rewrite (sum_from_shift _ start (aw_low s + 1 - start)).
  replace (aw_high s - start - aw_low s) with (tracked_count w - start) by lia.
  apply sum_from_ext. intros k Hk. unfold unset, missing.
  rewrite (wr_bits _ _ R) by lia.
  replace (aw_high s - (2 * start + (tracked_count w - start) - 1 - k))
    with (k + (aw_low s + 1 - start)) by lia.
  case_bool_decide; case_decide; done.
Qed.

Lemma missing_range recv k : 0 <= missing recv k <= 1.
Proof. unfold missing. case_decide; lia. Qed.

(** The loss counter of the code is the abstract one. *)
Lemma confirm_lost_spec s w n :
  window_repr s w -> aw_high s < n < aw_high s + 2 ^ 31 ->
  _linkg_transport_window_confirm_lost w (n - aw_high s) =
  sum_from (missing (aw_recv s)) (aw_low s + 1) (Z.max (aw_low s) (n - 512) - aw_low s).
Proof.
  intros R Hn. pose proof (wr_count _ _ R) as Hc. pose proof (wr_size _ _ R) as Hsz.
  unfold _linkg_transport_window_confirm_lost, _linkg_transport_window_count_missing,
    LINKG_TRANSPORT_RX_WINDOW_BITS.
  replace (n - aw_high s =? 0) with false by (symmetry; apply Z.eqb_neq; lia).
  replace (tracked_count w =? 0) with false by (symmetry; apply Z.eqb_neq; lia).
  cbn [orb]. rewrite (Z.ltb_irrefl (tracked_count w)).
  destruct (Z.leb_spec 512 (n - aw_high s)) as [Hbig|Hsmall].
  - replace (tracked_count w <=? 0) with false by (symmetry; apply Z.leb_gt; lia).
    rewrite count_missing_spec by lia. rewrite (tracked_missing s) by (done || lia).
    rewrite Z.max_r by lia.
    replace (n - 512 - aw_low s) with ((aw_high s - 0 - aw_low s) + (n - 512 - aw_high s)) by lia.
    rewrite sum_from_split by lia.
    rewrite (sum_from_ext (missing (aw_recv s)) (fun _ => 1)
      (aw_low s + 1 + (aw_high s - 0 - aw_low s))).
    2: { intros k Hk. unfold missing. rewrite decide_False; [done|].
         intros Hin%(wr_recv _ _ R). lia. }
    rewrite sum_from_const by lia.
    pose proof (sum_from_nonneg (missing (aw_recv s)) (aw_low s + 1) (aw_high s - 0 - aw_low s)
      (fun k => proj1 (missing_range _ k))).
    pose proof (sum_from_le_const (missing (aw_recv s)) (aw_low s + 1) (aw_high s - 0 - aw_low s) 1
      ltac:(lia) (fun k => proj2 (missing_range _ k))).
    rewrite (wrap_small 32 (n - aw_high s - 512)) by mlia. rewrite wrap_small by mlia. lia.
  - destruct (Z.leb_spec (tracked_count w) (512 - (n - aw_high s))) as [Hle|Hgt].
    + rewrite Z.max_l by lia. by rewrite sum_from_empty by lia.
    + rewrite count_missing_spec by lia. rewrite (tracked_missing s) by (done || lia).
      rewrite Z.max_r by lia. f_equal. lia.
Qed.

Lemma shift_big w a : 512 <= a -> _linkg_transport_window_shift w a = set_bitmap bitmap_zero w.
Proof. intros. unfold _linkg_transport_window_shift, LINKG_TRANSPORT_RX_WINDOW_BITS. by bsimp. Qed.

Lemma bit_zero off : bit bitmap_zero off = false.
Proof. unfold bit. rewrite word_bitmap_zero. apply Z.bits_0. Qed.

Lemma bit_set_fields w off :
  highest_sequence (_linkg_transport_window_bit_set w off) = highest_sequence w /\
  tracked_count (_linkg_transport_window_bit_set w off) = tracked_count w /\
  initialized (_linkg_transport_window_bit_set w off) = initialized w.
Proof. unfold _linkg_transport_window_bit_set. by case_match. Qed.

(** The bits after an advance: the new highest number, then the old ones. *)
Lemma advanced_bits bm w a j :
  bitmap_wf (received_bitmap w) -> 0 < a ->
  bm = received_bitmap (_linkg_transport_window_shift w a) -> 0 <= j < 512 ->
  forall h t i, bit (received_bitmap (_linkg_transport_window_bit_set (RxWindow bm h t i) 0)) j =
    (j =? 0) || (a <=? j) && bit (received_bitmap w) (j - a).
Proof.
  intros Hw Ha -> Hj h t i. rewrite bit_set_spec; [|by apply shift_wf; [|lia]|lia|done].
  cbn [received_bitmap]. f_equal. destruct (Z.le_gt_cases 512 a).
  - rewrite shift_big by done. cbn [received_bitmap set_bitmap].
    rewrite bit_zero. replace (a <=? j) with false; [done|]. symmetry. apply Z.leb_gt. lia.
  - apply shift_spec; [done|lia|done].
Qed.

Lemma delta_of s w n :
  window_repr s w -> - 2 ^ 31 <= n - aw_high s < 2 ^ 31 ->
  i32_of_u32 (u32 (u32 n - highest_sequence w)) = n - aw_high s.
Proof. intros R Hn. rewrite (wr_high _ _ R). by apply i32_distance. Qed.

Lemma accept_forward s w n :
  window_repr s w -> aw_high s < n < aw_high s + 2 ^ 31 ->
  exists w', linkg_transport_window_accept_ex (Some w) (u32 n) =
      (WINDOW_ACCEPT, Some w',
       sum_from (missing (aw_recv s)) (aw_low s + 1) (Z.max (aw_low s) (n - 512) - aw_low s)) /\
    window_repr (AWindow n (Z.max (aw_low s) (n - 512)) ({[ n ]} ∪ aw_recv s)) w'.
Proof.
  intros R Hn. pose proof (wr_count _ _ R) as Hc. pose proof (wr_size _ _ R) as Hsz.
  pose proof (wr_wf _ _ R) as Hwf. set (a := n - aw_high s).
  unfold linkg_transport_window_accept_ex. rewrite (wr_init _ _ R). cbn [negb].
  rewrite (delta_of s w n) by (done || lia).
  rewrite (confirm_lost_spec s w n) by done. fold a.
  replace (0 <? a) with true by (symmetry; apply Z.ltb_lt; lia).
  eexists. split; [reflexivity|].
  rewrite (wrap_small 32 (tracked_count w + a)) by mlia.
  unfold LINKG_TRANSPORT_RX_WINDOW_BITS at 1.
  replace (tracked_count w + a <? tracked_count w) with false by (symmetry; apply Z.ltb_ge; lia).
  set (t := if _ || _ then _ else _).
  assert (t = n - Z.max (aw_low s) (n - 512)) as Ht.
  { subst t. cbn [orb]. destruct (Z.ltb_spec 512 (tracked_count w + a));
      unfold LINKG_TRANSPORT_RX_WINDOW_BITS; lia. }
  set (b := RxWindow _ _ _ _).
  destruct (bit_set_fields b 0) as (F1&F2&F3).
  split; rewrite ?F1, ?F2, ?F3; cbn [b highest_sequence tracked_count initialized aw_high aw_low aw_recv].
  - unfold _linkg_transport_window_shift. repeat case_match; apply (wr_init _ _ R).
  - apply bit_set_wf; [|lia]. apply shift_wf; [done|lia].
  - done.
  - done.
  - lia.
  - intros k [->%elem_of_singleton|Hk%(wr_recv _ _ R)]%elem_of_union; lia.
  - intros off Hoff. unfold b. rewrite (advanced_bits _ w a) by (done || lia).
    destruct (Z.eqb_spec off 0) as [->|Hne].
    { cbn [orb]. symmetry. apply bool_decide_eq_true. rewrite Z.sub_0_r. set_solver. }
    cbn [orb]. destruct (Z.leb_spec a off) as [Hle|Hgt]; cbn [andb].
    + rewrite (wr_bits _ _ R) by lia. apply bool_decide_ext.
      assert (aw_high s - (off - a) = n - off) as Hoffs by (unfold a; ring). rewrite Hoffs.
      rewrite elem_of_union, elem_of_singleton. split; [by right|]. intros [E|Hk]; [lia|done].
    + symmetry. apply bool_decide_eq_false.
      intros [E%elem_of_singleton|Hk%(wr_recv _ _ R)]%elem_of_union; lia.
Qed.

Lemma window_accept_refines_fact (s : awindow) (w : linkg_transport_rx_window) (n : Z) :
  window_repr s w -> - 2 ^ 31 <= n - aw_high s < 2 ^ 31 ->
  exists w', linkg_transport_window_accept_ex (Some w) (u32 n) =
      ((aw_accept n s).1.1, Some w', (aw_accept n s).2) /\
    window_repr (aw_accept n s).1.2 w'.
Proof.
  intros R Hn. unfold aw_accept. destruct (Z.ltb_spec (aw_high s) n) as [Hf|Hb].
  { apply accept_forward; [done|lia]. }
  pose proof (wr_count _ _ R) as Hc. pose proof (wr_size _ _ R) as Hsz.
  unfold linkg_transport_window_accept_ex. rewrite (wr_init _ _ R). cbn [negb].
  rewrite (delta_of s w n) by done.
  replace (0 <? n - aw_high s) with false by (symmetry; apply Z.ltb_ge; lia).
  rewrite (wr_high _ _ R), wrap_sub_idemp, (wrap_small 32 (aw_high s - n)) by mlia.
  unfold LINKG_TRANSPORT_RX_WINDOW_BITS.
  destruct (Z.leb_spec n (aw_low s)) as [Hold|Hin].
  { replace (tracked_count w <=? aw_high s - n) with true by (symmetry; apply Z.leb_le; lia).
    rewrite orb_true_r. by exists w. }
  replace (512 <=? aw_high s - n) with false by (symmetry; apply Z.leb_gt; lia).
  replace (tracked_count w <=? aw_high s - n) with false by (symmetry; apply Z.leb_gt; lia).
  cbn [orb]. rewrite bit_test_spec, (wr_bits _ _ R) by lia.
  replace (aw_high s - n <? 512) with true by (symmetry; apply Z.ltb_lt; lia).
  replace (aw_high s - (aw_high s - n)) with n by lia. cbn [andb].
  case_decide as Hd; [rewrite bool_decide_true by done; by exists w|].
  rewrite bool_decide_false by done. eexists. split; [done|].
  destruct (bit_set_fields w (aw_high s - n)) as (F1&F2&F3).
  split; rewrite ?F1, ?F2, ?F3; cbn [aw_high aw_low aw_recv fst snd]; try apply R.
  - apply bit_set_wf; [apply R|lia].
  - intros k [->%elem_of_singleton|Hk%(wr_recv _ _ R)]%elem_of_union; lia.
  - intros off Hoff. rewrite bit_set_spec by (apply R || lia). rewrite (wr_bits _ _ R) by done.
    destruct (Z.eqb_spec off (aw_high s - n)) as [->|Hne].
    + symmetry. apply bool_decide_eq_true. set_solver by lia.
    + cbn [orb]. apply bool_decide_ext. split; [set_solver|].
      intros [E%elem_of_singleton|Hk]%elem_of_union; [lia|done].
Qed.

(** C10: on every sequence number within half the 32-bit space of
    the highest one seen, the bitmap window returns the verdict and the loss
    count of the abstract window over unbounded numbers, and keeps
    representing it; the 32-bit wrap-around is invisible. *)
Theorem window_accept_refines (s : awindow) (w : linkg_transport_rx_window) (n : Z) :
  window_repr s w -> - 2 ^ 31 <= n - aw_high s < 2 ^ 31 ->
  exists w', linkg_transport_window_accept_ex (Some w) (u32 n) =
      ((aw_accept n s).1.1, Some w', (aw_accept n s).2) /\
    window_repr (aw_accept n s).1.2 w'.
Proof. by apply window_accept_refines_fact. Qed.

Lemma accept_first w n :
  initialized w = false ->
  exists w', linkg_transport_window_accept_ex (Some w) (u32 n) = (WINDOW_ACCEPT, Some w', 0) /\
    window_repr (aw_first n) w'.
Proof.
  intros Hi. unfold linkg_transport_window_accept_ex. rewrite Hi. cbn [negb].
  eexists. split; [done|]. set (b := RxWindow _ _ _ _).
  destruct (bit_set_fields b 0) as (F1&F2&F3).
  split; rewrite ?F1, ?F2, ?F3; cbn [b highest_sequence tracked_count initialized aw_first aw_high aw_low aw_recv];
    try done; try lia.
  - apply bit_set_wf; [apply bitmap_zero_wf|lia].
  - set_solver.
  - intros off Hoff. replace off with 0 by lia.
    rewrite bit_set_spec by (apply bitmap_zero_wf || lia). cbn [orb].
    symmetry. apply bool_decide_eq_true. rewrite Z.sub_0_r. set_solver.
Qed.

(** ** Runs *)

(** Feed the numbers of [ns] (truncated to 32 bits, as on the wire) to a window:
    the accepted ones in order, and the sum of the confirmed losses. *)
Fixpoint window_run (w : linkg_transport_rx_window) (ns : list Z) : list Z * Z :=
  match ns with
  | [] => ([], 0)
  | n :: ns' =>
      match linkg_transport_window_accept_ex (Some w) (u32 n) with
      | (r, Some w', lost) =>
          let '(acc, total) := window_run w' ns' in
          (match r with WINDOW_ACCEPT => n :: acc | _ => acc end, lost + total)
      | (_, None, _) => ([], 0)
      end
  end.

(** Each number is within half the sequence space of the highest before it. *)
Fixpoint in_half_range (high : Z) (ns : list Z) : Prop :=
  match ns with
  | [] => True
  | n :: ns' => - 2 ^ 31 <= n - high < 2 ^ 31 /\ in_half_range (Z.max high n) ns'
  end.

Definition run_high (high : Z) (ns : list Z) : Z := foldl Z.max high ns.

Lemma run_high_ge ns : forall h, h <= run_high h ns.
Proof.
  induction ns as [|n ns IH]; intros h; cbn; [done|]. specialize (IH (Z.max h n)).
  unfold run_high in *. lia.
Qed.

Lemma aw_accept_high n s : aw_high (aw_accept n s).1.2 = Z.max (aw_high s) n.
Proof. unfold aw_accept. repeat case_match; zb; cbn; lia. Qed.

(** Membership never changes at or below [aw_low]. *)
Lemma window_run_spec ns : forall s w base,
  window_repr s w -> in_half_range (aw_high s) ns ->
  aw_low s = Z.max base (aw_high s - 512) -> base <= aw_low s ->
  let acc := (window_run w ns).1 in
  NoDup acc /\ (forall k, k ∈ acc -> k ∉ aw_recv s) /\
  (forall k, k ∈ acc -> aw_low s < k) /\
  (window_run w ns).2 =
    sum_from (missing (list_to_set acc ∪ aw_recv s)) (aw_low s + 1)
             (Z.max base (run_high (aw_high s) ns - 512) - aw_low s).
Proof.
  induction ns as [|n ns IH]; intros s w base R Hr Hlow Hbase.
  { cbn. split_and!; [constructor|set_solver|set_solver|].
    rewrite sum_from_empty by lia. done. }
  destruct Hr as [Hn Hr]. cbn [window_run].
  destruct (window_accept_refines_fact s w n R Hn) as (w'&E&R').
  rewrite E. rewrite <- (aw_accept_high n s) in Hr.
  assert (aw_low (aw_accept n s).1.2 = Z.max base (aw_high (aw_accept n s).1.2 - 512)) as Hlow'.
  { unfold aw_accept. repeat case_match; zb; cbn; lia. }
  destruct (IH (aw_accept n s).1.2 w' base R' Hr Hlow' ltac:(lia)) as (Nd&Nr&Nl&L).
  clear IH E. destruct (window_run w' ns) as [acc total]. cbn [fst snd] in *.
  pose proof (aw_accept_high n s) as Hh. rewrite Hh in L.
  change (run_high (aw_high s) (n :: ns)) with (run_high (Z.max (aw_high s) n) ns).
  pose proof (run_high_ge ns (Z.max (aw_high s) n)) as Hge.
  set (H := run_high (Z.max (aw_high s) n) ns) in *. pose proof (wr_size _ _ R) as Hsz.
  unfold aw_accept in *. destruct (Z.ltb_spec (aw_high s) n) as [Hf|Hb]; cbn [fst snd] in *.
  - cbn [aw_high aw_low aw_recv] in *. split_and!.
    + constructor; [set_solver|done].
    + intros k [->|Hk]%elem_of_cons; [intros Hin%(wr_recv _ _ R); lia|set_solver].
    + intros k [->|Hk]%elem_of_cons; [lia|specialize (Nl k Hk); lia].
    + set (low' := Z.max (aw_low s) (n - 512)) in *. rewrite L.
      replace (Z.max base (H - 512) - aw_low s)
        with ((low' - aw_low s) + (Z.max base (H - 512) - low')) by lia.
      rewrite sum_from_split by lia. f_equal.
      * apply sum_from_ext. intros k Hk. unfold missing.
        assert (k ∈ aw_recv s <-> k ∈ list_to_set (n :: acc) ∪ aw_recv s) as Hiff.
        { rewrite elem_of_union, elem_of_list_to_set, elem_of_cons. split; [by right|].
          intros [[->|Hk']|Hk']; [|specialize (Nl k Hk'); lia|done].
          exfalso. pose proof (wr_size _ _ R). lia. }
        repeat case_decide; tauto.
      * replace (aw_low s + 1 + (low' - aw_low s)) with (low' + 1) by lia.
        apply sum_from_ext. intros k Hk. unfold missing. repeat case_decide; set_solver.
  - destruct (Z.leb_spec n (aw_low s)); [|case_decide as Hd]; cbn [fst snd aw_high aw_low aw_recv] in *.
    + by rewrite L.
    + by rewrite L.
    + split_and!.
      * constructor; [set_solver|done].
      * intros k [->|Hk]%elem_of_cons; set_solver.
      * intros k [->|Hk]%elem_of_cons; [lia|by apply Nl].
      * rewrite L. cbn [Z.add]. apply sum_from_ext. intros k Hk. unfold missing.
        repeat case_decide; set_solver.
Qed.

Lemma window_run_first w n0 ns :
  initialized w = false -> in_half_range n0 ns ->
  let acc := (window_run w (n0 :: ns)).1 in
  NoDup acc /\
  (window_run w (n0 :: ns)).2 =
    sum_from (missing (list_to_set acc)) n0 (Z.max (n0 - 1) (run_high n0 ns - 512) - (n0 - 1)).
Proof.
  intros Hi Hr. destruct (accept_first w n0 Hi) as (w'&E&R).
  destruct (window_run_spec ns (aw_first n0) w' (n0 - 1) R Hr) as (Nd&Nr&_&L).
  { cbn. lia. } { cbn. lia. }
  cbn [window_run]. rewrite E. destruct (window_run w' ns) as [acc total].
  cbn [fst snd aw_first aw_high aw_low aw_recv] in *. split.
  - constructor; [|done]. intros Hin. specialize (Nr n0 Hin). set_solver.
  - rewrite L. replace (n0 - 1 + 1) with n0 by lia. cbn [Z.add]. apply sum_from_ext.
    intros k _. unfold missing. repeat case_decide; set_solver.
Qed.

(** C11: starting from a fresh window, whatever the order, the
    repetitions and the gaps, no sequence number is accepted twice. *)
Theorem window_exactly_once (w : linkg_transport_rx_window) (n0 : Z) (ns : list Z) :
  initialized w = false -> in_half_range n0 ns -> NoDup (window_run w (n0 :: ns)).1.
Proof. intros Hi Hr. by apply window_run_first. Qed.

(** C35: the sum of the confirmed losses reported over a run is
    exactly the number of sequence numbers, from the first one seen to the lower
    edge of the final window, that were never accepted. A number that arrives only
    after it left the window is refused and stays counted as lost. *)
Theorem window_loss_exact (w : linkg_transport_rx_window) (n0 : Z) (ns : list Z) :
  initialized w = false -> in_half_range n0 ns ->
  (window_run w (n0 :: ns)).2 =
  sum_from (missing (list_to_set (window_run w (n0 :: ns)).1)) n0
           (Z.max (n0 - 1) (run_high n0 ns - 512) - (n0 - 1)).
Proof. intros Hi Hr. by apply window_run_first. Qed.

(** ** Type invariant, for every 32-bit input *)

Definition window_wf (w : linkg_transport_rx_window) : Prop :=
  bitmap_wf (received_bitmap w) /\ in_range 32 (highest_sequence w) /\
  0 <= tracked_count w <= LINKG_TRANSPORT_RX_WINDOW_BITS /\
  (initialized w = true -> 1 <= tracked_count w).

Lemma count_missing_range w s e : 0 <= count_missing_loop w s e < 2 ^ 32.
Proof.
  unfold count_missing_loop. generalize (seqZ s (e - s)). intros l.
  assert (forall acc, 0 <= acc < 2 ^ 32 -> 0 <= foldl (fun missing offset =>
    if _linkg_transport_window_bit_test (Some w) offset then missing else u32 (missing + 1)) acc l < 2 ^ 32)
    as Hf; [|apply Hf; mlia].
  induction l as [|o l IH]; intros acc Ha; [done|]. cbn [foldl]. apply IH.
  case_match; [done|]. apply (wrap_range 32). lia.
Qed.

Lemma confirm_lost_range w a : 0 <= _linkg_transport_window_confirm_lost w a < 2 ^ 32.
Proof.
  unfold _linkg_transport_window_confirm_lost, _linkg_transport_window_count_missing.
  repeat case_match; try mlia; apply count_missing_range || (apply (wrap_range 32); lia).
Qed.

(** [accept_ex] keeps the window well formed (eight 64-bit words,
    at most 512 tracked numbers) on any 32-bit sequence number, including jumps
    of more than half the sequence space, and reports a loss count that fits in 32 bits. *)
Theorem window_accept_wf (w : linkg_transport_rx_window) (sequence : Z) :
  window_wf w -> in_range 32 sequence ->
  exists r w' lost, linkg_transport_window_accept_ex (Some w) sequence = (r, Some w', lost) /\
    window_wf w' /\ initialized w' = true /\ r <> WINDOW_INVALID /\ 0 <= lost < 2 ^ 32.
Proof.
  intros (Hb&Hh&Ht&Hi) Hs. unfold linkg_transport_window_accept_ex.
  unfold LINKG_TRANSPORT_RX_WINDOW_BITS in *. destruct (initialized w) eqn:Ei; cbn [negb].
  2: { eexists _, _, _. split; [done|]. set (b := RxWindow _ _ _ _).
       destruct (bit_set_fields b 0) as (F1&F2&F3). unfold window_wf. rewrite F1, F2, F3.
       cbn [b highest_sequence tracked_count initialized]. unfold LINKG_TRANSPORT_RX_WINDOW_BITS.
       split_and!; try done; try lia; try mlia. apply bit_set_wf; [apply bitmap_zero_wf|lia]. }
  set (delta := i32_of_u32 _). destruct (Z.ltb_spec 0 delta) as [Hd|Hd].
  - eexists _, _, _. split; [done|]. set (b := RxWindow _ _ _ _).
    destruct (bit_set_fields b 0) as (F1&F2&F3). unfold window_wf. rewrite F1, F2, F3.
    cbn [b highest_sequence tracked_count initialized]. unfold LINKG_TRANSPORT_RX_WINDOW_BITS.
    assert (initialized (_linkg_transport_window_shift w delta) = true) as ->.
    { unfold _linkg_transport_window_shift. by repeat case_match. }
    specialize (Hi eq_refl). split_and!; try done; try (apply confirm_lost_range).
    + apply bit_set_wf; [|lia]. apply shift_wf; [done|lia].
    + pose proof (wrap_range 32 (tracked_count w + delta) ltac:(lia)) as [? _].
      case_match; zb; lia.
    + case_match; zb; lia.
    + case_match; zb; lia.
  - assert (window_wf w) as Hw.
    { unfold window_wf, LINKG_TRANSPORT_RX_WINDOW_BITS. split_and!; try done; lia. }
    set (b := u32 (highest_sequence w - sequence)).
    destruct (_ || _); [exists WINDOW_TOO_OLD, w, 0; refine (conj eq_refl (conj Hw (conj Ei (conj _ (conj _ _))))); done|].
    destruct (_linkg_transport_window_bit_test _ _);
      [exists WINDOW_DUPLICATE, w, 0; refine (conj eq_refl (conj Hw (conj Ei (conj _ (conj _ _))))); done|].
    exists WINDOW_ACCEPT, (_linkg_transport_window_bit_set w b), 0.
    destruct (bit_set_fields w b) as (F1&F2&F3). split; [done|].
    unfold window_wf, LINKG_TRANSPORT_RX_WINDOW_BITS. rewrite F1, F2, F3.
    split_and!; try done; try apply Hh; try lia; try apply Hi.
    apply bit_set_wf; [done|]. apply (wrap_range 32). lia.
Qed.

(** ** Witnesses *)

Lemma window_accept_refines_witness :
  window_repr (aw_first 4294967290) (RxWindow (<[0%nat := 1]> bitmap_zero) 4294967290 1 true) /\
  exists w', linkg_transport_window_accept_ex
      (Some (RxWindow (<[0%nat := 1]> bitmap_zero) 4294967290 1 true)) (u32 4294967300)
    = (WINDOW_ACCEPT, Some w', 0).
Proof.
  assert (window_repr (aw_first 4294967290)
    (RxWindow (<[0%nat := 1]> bitmap_zero) 4294967290 1 true)) as R.
  { destruct (accept_first window_zero 4294967290 eq_refl) as (w'&E&R). vm_compute in E.
    injection E as <-. exact R. }
  split; [exact R|].
  destruct (window_accept_refines _ _ 4294967300 R) as (w'&E&_); [vm_compute; intuition congruence|].
  exists w'. exact E.
Defined.

Lemma window_exactly_once_witness :
  in_half_range 7 [9; 7; 8; 9] /\ NoDup (window_run window_zero [7; 9; 7; 8; 9]).1.
Proof.
  assert (in_half_range 7 [9; 7; 8; 9]) as H by (vm_compute; intuition congruence).
  split; [exact H|]. exact (window_exactly_once window_zero 7 [9; 7; 8; 9] eq_refl H).
Defined.

(** 101 to 488 are lost, 150 too: it arrives after it left the window. *)
Lemma window_loss_exact_witness :
  in_half_range 100 [1000; 150] /\ (window_run window_zero [100; 1000; 150]).2 = 388.
Proof.
  assert (in_half_range 100 [1000; 150]) as H by (vm_compute; intuition congruence).
  split; [exact H|]. rewrite (window_loss_exact window_zero 100 [1000; 150] eq_refl H).
  vm_compute. reflexivity.
Defined.

Lemma window_accept_wf_witness :
  window_wf window_zero /\ exists w' lost,
    linkg_transport_window_accept_ex (Some window_zero) 5 = (WINDOW_ACCEPT, Some w', lost) /\ window_wf w'.
Proof.
  assert (window_wf window_zero) as H.
  { split; [apply bitmap_zero_wf|]. vm_compute. intuition congruence. }
  split; [exact H|].
  destruct (window_accept_wf window_zero 5 H) as (r&w'&lost&E&W&_); [vm_compute; intuition congruence|].
  exists w', lost. split; [|exact W]. rewrite E. vm_compute in E. injection E as <- _ _. reflexivity.
Defined.
