(* ===== verification/TransportTypes.v ===== *)
(** * Shared transport types

    Protocol constants and headers (linkg_transport_types.h), fixed resources
    (linkg_system_resources.h) and the predicates of core/transport/linkg_transport.c
    that every transport component calls: class and type validity, node
    identifiers and the peer life-cycle epoch. *)

From S2P Require Import Prelude.

(** ** Resources *)

Definition LINKG_RESOURCE_NODE_ID_MIN := 1.
Definition LINKG_RESOURCE_NODE_ID_MAX := 254.
Definition LINKG_RESOURCE_NETWORK_STA_MAX := 16.
Definition LINKG_TRANSPORT_PEER_MAX := LINKG_RESOURCE_NETWORK_STA_MAX.

(** ** Protocol constants *)

Definition LINKG_TRANSPORT_WIRE_MAGIC := 0x4C4B4732.
Definition LINKG_TRANSPORT_WIRE_VERSION := 1.
Definition LINKG_TRANSPORT_WIRE_HEADER_SIZE := 16.
Definition LINKG_TRANSPORT_WIRE_FRAGMENT_HEADER_SIZE := 8.
Definition LINKG_TRANSPORT_WIRE_HEADER_MAX_SIZE := 24.
Definition LINKG_TRANSPORT_WIRE_FRAME_MAX_SIZE := 1444.
Definition LINKG_TRANSPORT_PAYLOAD_MAX_SIZE :=
  LINKG_TRANSPORT_WIRE_FRAME_MAX_SIZE - LINKG_TRANSPORT_WIRE_HEADER_SIZE.
Definition LINKG_TRANSPORT_FRAGMENT_PAYLOAD_MAX_SIZE :=
  LINKG_TRANSPORT_WIRE_FRAME_MAX_SIZE - LINKG_TRANSPORT_WIRE_HEADER_SIZE
  - LINKG_TRANSPORT_WIRE_FRAGMENT_HEADER_SIZE.
Definition LINKG_TRANSPORT_PACKET_MAX_SIZE := 1500.

Definition LINKG_TRANSPORT_FLAG_FRAGMENT := 1.
Definition LINKG_TRANSPORT_FLAG_VALID_MASK := LINKG_TRANSPORT_FLAG_FRAGMENT.

Definition LINKG_TRANSPORT_PACKET_ID_INVALID := 0.
Definition LINKG_TRANSPORT_FRAGMENT_COUNT_MAX := 2.

(** Enumerations are the integers C passes around; the validity predicates
    below say which values are members. *)
Definition LINKG_TRANSPORT_CLASS_REALTIME := 0.
Definition LINKG_TRANSPORT_CLASS_VIDEO := 1.
Definition LINKG_TRANSPORT_CLASS_DATA := 2.
Definition LINKG_TRANSPORT_CLASS_COUNT := 3.

Definition LINKG_TRANSPORT_TYPE_NONE := 0.
Definition LINKG_TRANSPORT_TYPE_USER_DATA := 1.
Definition LINKG_TRANSPORT_TYPE_PATH_PROBE := 2.
Definition LINKG_TRANSPORT_TYPE_SWITCH := 3.
Definition LINKG_TRANSPORT_TYPE_COUNT := 4.

(** ** Headers *)

Record linkg_transport_header := Header {
  th_magic : Z;
  th_version : Z;
  th_type : Z;
  th_flags : Z;
  th_sequence : Z;
  th_source_node_id : Z;
  th_destination_node_id : Z;
  th_reserved : Z }.

Record linkg_transport_fragment_header := FragmentHeader {
  fh_packet_id : Z;
  fh_fragment_offset : Z;
  fh_packet_length : Z }.

(** ** Relay

    The frames of a relayed batch (linkg_transport.h). *)
Definition LINKG_TRANSPORT_FORWARD_BATCH_MAX := 32.

Record linkg_transport_forward_item := ForwardItem {
  fi_packet : option nat;
  fi_payload_length : Z;
  fi_destination_node_id : Z;
  fi_peer_node_id : Z }.

#[export] Instance header_eq_dec : EqDecision linkg_transport_header.
Proof. solve_decision. Defined.
#[export] Instance fragment_header_eq_dec : EqDecision linkg_transport_fragment_header.
Proof. solve_decision. Defined.

(** ** Predicates *)

Definition linkg_transport_type_valid (type : Z) : bool :=
  (LINKG_TRANSPORT_TYPE_NONE <? type) && (type <? LINKG_TRANSPORT_TYPE_COUNT).

Definition linkg_transport_class_valid (traffic_class : Z) : bool :=
  (LINKG_TRANSPORT_CLASS_REALTIME <=? traffic_class) && (traffic_class <? LINKG_TRANSPORT_CLASS_COUNT).

(** ** Peer epochs

    A peer pointer is an index into [g_transport.peers]; [epochs] lists the
    atomic [lifecycle_epoch] of the slots: even when usable, odd while the slot
    is being cleaned. *)

Abbreviation peer_ptr := nat.

Definition epoch_load (epochs : list Z) (peer : peer_ptr) : Z := default 0 (epochs !! peer).

(** The result and the value written through [peer_epoch]. *)
Definition linkg_transport_peer_epoch_read_active (epochs : list Z) (peer : option peer_ptr)
    : bool * option Z :=
  match peer with
  | None => (false, None)
  | Some i =>
      let current_epoch := epoch_load epochs i in
      (Z.land current_epoch 1 =? 0, Some current_epoch)
  end.

Definition linkg_transport_peer_epoch_matches (epochs : list Z) (peer : option peer_ptr)
    (peer_epoch : Z) : bool :=
  match peer with
  | None => false
  | Some i =>
      if negb (Z.land peer_epoch 1 =? 0) then false
      else epoch_load epochs i =? peer_epoch
  end.
