(* ===== verification/TransportWire.v ===== *)
(** * Transport wire codec  (core/transport/transport_wire.c)

    The 16-byte base header and the 8-byte fragment header, pushed in front of
    and parsed from the payload of a packet of the pool. *)

From S2P Require Import Prelude.
From S2P Require Import Bytes.
From S2P Require Import PacketPool.
From S2P Require Import PacketData.
From S2P Require Import TransportTypes.

(** ** Helpers *)

Definition _linkg_transport_wire_node_id_valid (node_id : Z) : bool :=
  (LINKG_RESOURCE_NODE_ID_MIN <=? node_id) && (node_id <=? LINKG_RESOURCE_NODE_ID_MAX).

Definition _linkg_transport_wire_flags_valid (flags : Z) : bool :=
  Z.land flags (u16 (Z.lnot LINKG_TRANSPORT_FLAG_VALID_MASK)) =? 0.

Definition _linkg_transport_wire_fragment_layout_valid
    (fragment_offset packet_length fragment_length : Z) : bool :=
  if (packet_length <=? LINKG_TRANSPORT_PAYLOAD_MAX_SIZE)
     || (LINKG_TRANSPORT_PACKET_MAX_SIZE <? packet_length) then false
  else if fragment_offset =? 0 then fragment_length =? LINKG_TRANSPORT_FRAGMENT_PAYLOAD_MAX_SIZE
  else if negb (fragment_offset =? LINKG_TRANSPORT_FRAGMENT_PAYLOAD_MAX_SIZE) then false
  else fragment_length =? u32 (packet_length - LINKG_TRANSPORT_FRAGMENT_PAYLOAD_MAX_SIZE).

(** The memory image of the structs, with every multi-byte field already in
    network order, and the values a host reads back from it. *)
Definition header_bytes (h : linkg_transport_header) : list Z :=
  be_bytes 4 (th_magic h) ++ [th_version h; th_type h] ++ be_bytes 2 (th_flags h) ++
  be_bytes 4 (th_sequence h) ++ [th_source_node_id h; th_destination_node_id h] ++
  be_bytes 2 (th_reserved h).

(** [ntohl] and [ntohs] of the fields; the sequence number is kept as the [uint32_t] it is. *)
Definition header_of_bytes (l : list Z) : linkg_transport_header :=
  Header (field 0 4 l) (field 4 1 l) (field 5 1 l) (field 6 2 l) (u32 (field 8 4 l))
         (field 12 1 l) (field 13 1 l) (field 14 2 l).

Definition fragment_bytes (h : linkg_transport_fragment_header) : list Z :=
  be_bytes 4 (fh_packet_id h) ++ be_bytes 2 (fh_fragment_offset h) ++ be_bytes 2 (fh_packet_length h).

Definition fragment_of_bytes (l : list Z) : linkg_transport_fragment_header :=
  FragmentHeader (field 0 4 l) (field 4 2 l) (field 6 2 l).

(** The checks [decode] and [update_sequence] share, field by field. *)
Definition header_accepted (h : linkg_transport_header) : bool :=
  (th_magic h =? LINKG_TRANSPORT_WIRE_MAGIC) && (th_version h =? LINKG_TRANSPORT_WIRE_VERSION) &&
  linkg_transport_type_valid (th_type h) && _linkg_transport_wire_flags_valid (th_flags h) &&
  _linkg_transport_wire_node_id_valid (th_source_node_id h) &&
  _linkg_transport_wire_node_id_valid (th_destination_node_id h) && (th_reserved h =? 0).

(** ** Encoding *)

Definition linkg_transport_wire_encode (packet : option pkt_ptr)
    (header : option linkg_transport_header) : PM Z :=
  match packet, header with
  | Some i, Some h =>
      k ← packet_at i;
      if bool_decide (pk_slot k = None) then mret (- EINVAL)
      else if negb (linkg_transport_type_valid (th_type h)) ||
              negb (_linkg_transport_wire_flags_valid (th_flags h)) ||
              negb (_linkg_transport_wire_node_id_valid (th_source_node_id h)) ||
              negb (_linkg_transport_wire_node_id_valid (th_destination_node_id h))
      then mret (- EINVAL)
      else if LINKG_TRANSPORT_WIRE_FRAME_MAX_SIZE
              <? u32 (pk_data_length k + LINKG_TRANSPORT_WIRE_HEADER_SIZE)
      then mret (- EMSGSIZE)
      else
        headroom ← linkg_packet_headroom i;
        if headroom <? LINKG_TRANSPORT_WIRE_HEADER_SIZE then mret (- ENOSPC)
        else
          let wire := Header LINKG_TRANSPORT_WIRE_MAGIC LINKG_TRANSPORT_WIRE_VERSION (th_type h)
                        (th_flags h) (th_sequence h) (th_source_node_id h)
                        (th_destination_node_id h) 0 in
          data ← linkg_packet_push (Some i) LINKG_TRANSPORT_WIRE_HEADER_SIZE;
          match data with
          | None => mret (- ENOSPC)
          | Some addr => data_store addr (header_bytes wire) ;; mret 0
          end
  | _, _ => mret (- EINVAL)
  end.

Definition linkg_transport_wire_fragment_encode (packet : option pkt_ptr)
    (header : option linkg_transport_fragment_header) : PM Z :=
  match packet, header with
  | Some i, Some h =>
      k ← packet_at i;
      if bool_decide (pk_slot k = None) then mret (- EINVAL)
      else if (fh_packet_id h =? LINKG_TRANSPORT_PACKET_ID_INVALID) || (pk_data_length k =? 0)
      then mret (- EINVAL)
      else if negb (_linkg_transport_wire_fragment_layout_valid
                      (fh_fragment_offset h) (fh_packet_length h) (pk_data_length k))
      then mret (- EINVAL)
      else if LINKG_TRANSPORT_WIRE_FRAME_MAX_SIZE
              <? u32 (pk_data_length k + LINKG_TRANSPORT_WIRE_FRAGMENT_HEADER_SIZE
                      + LINKG_TRANSPORT_WIRE_HEADER_SIZE)
      then mret (- EMSGSIZE)
      else
        headroom ← linkg_packet_headroom i;
        if headroom <? LINKG_TRANSPORT_WIRE_FRAGMENT_HEADER_SIZE then mret (- ENOSPC)
        else
          data ← linkg_packet_push (Some i) LINKG_TRANSPORT_WIRE_FRAGMENT_HEADER_SIZE;
          match data with
          | None => mret (- ENOSPC)
          | Some addr => data_store addr (fragment_bytes h) ;; mret 0
          end
  | _, _ => mret (- EINVAL)
  end.

(** ** Decoding

    The second component is what is written through [header] ([None]: nothing). *)

Definition linkg_transport_wire_decode (packet : option pkt_ptr) (header_null : bool)
    : PM (Z * option linkg_transport_header) :=
  match packet with
  | None => mret (- EINVAL, None)
  | Some i =>
      if header_null then mret (- EINVAL, None) else
      k ← packet_at i;
      if bool_decide (pk_slot k = None) then mret (- EINVAL, None)
      else if (pk_data_length k <? LINKG_TRANSPORT_WIRE_HEADER_SIZE) ||
              (LINKG_TRANSPORT_WIRE_FRAME_MAX_SIZE <? pk_data_length k)
      then mret (- EMSGSIZE, None)
      else
        data ← linkg_packet_const_data i;
        wire ← data_load data (Z.to_nat LINKG_TRANSPORT_WIRE_HEADER_SIZE);
        let decoded := header_of_bytes wire in
        if negb (header_accepted decoded) then mret (- EPROTO, None)
        else if negb (Z.land (th_flags decoded) LINKG_TRANSPORT_FLAG_FRAGMENT =? 0) &&
                (pk_data_length k <? LINKG_TRANSPORT_WIRE_HEADER_MAX_SIZE + 1)
        then mret (- EPROTO, None)
        else mret (0, Some decoded)
  end.

Definition linkg_transport_wire_fragment_decode (packet : option pkt_ptr) (header_null : bool)
    : PM (Z * option linkg_transport_fragment_header) :=
  match packet with
  | None => mret (- EINVAL, None)
  | Some i =>
      if header_null then mret (- EINVAL, None) else
      k ← packet_at i;
      if bool_decide (pk_slot k = None) then mret (- EINVAL, None)
      else if (pk_data_length k <? LINKG_TRANSPORT_WIRE_HEADER_MAX_SIZE + 1) ||
              (LINKG_TRANSPORT_WIRE_FRAME_MAX_SIZE <? pk_data_length k)
      then mret (- EMSGSIZE, None)
      else
        data ← linkg_packet_const_data i;
        wire ← data_load (data + LINKG_TRANSPORT_WIRE_HEADER_SIZE)
                         (Z.to_nat LINKG_TRANSPORT_WIRE_FRAGMENT_HEADER_SIZE);
        let decoded := fragment_of_bytes wire in
        let fragment_length := u32 (pk_data_length k - LINKG_TRANSPORT_WIRE_HEADER_MAX_SIZE) in
        if (fh_packet_id decoded =? LINKG_TRANSPORT_PACKET_ID_INVALID) ||
           negb (_linkg_transport_wire_fragment_layout_valid
                   (fh_fragment_offset decoded) (fh_packet_length decoded) fragment_length)
        then mret (- EPROTO, None)
        else mret (0, Some decoded)
  end.

(** ** Sequence rewrite *)

(** [wire.sequence = htonl(sequence)] in the 16 bytes of the struct. *)
Definition wire_set_sequence (sequence : Z) (wire : list Z) : list Z :=
  take 8 wire ++ be_bytes 4 sequence ++ drop 12 wire.

Definition linkg_transport_wire_update_sequence (packet : option pkt_ptr) (sequence : Z) : PM Z :=
  match packet with
  | None => mret (- EINVAL)
  | Some i =>
      k ← packet_at i;
      if bool_decide (pk_slot k = None) then mret (- EINVAL)
      else if (pk_data_length k <? LINKG_TRANSPORT_WIRE_HEADER_SIZE) ||
              (LINKG_TRANSPORT_WIRE_FRAME_MAX_SIZE <? pk_data_length k)
      then mret (- EMSGSIZE)
      else
        data ← linkg_packet_const_data i;
        wire ← data_load data (Z.to_nat LINKG_TRANSPORT_WIRE_HEADER_SIZE);
        let header := header_of_bytes wire in
        if negb (header_accepted header) then mret (- EPROTO)
        else
          data ← linkg_packet_data i;
          data_store data (wire_set_sequence sequence wire) ;;
          mret 0
  end.

(** ** Pure codec *)

Definition set_sequence (sequence : Z) (h : linkg_transport_header) : linkg_transport_header :=
  Header (th_magic h) (th_version h) (th_type h) (th_flags h) sequence
         (th_source_node_id h) (th_destination_node_id h) (th_reserved h).

(** Every field fits its C type. *)
Record header_ranges (h : linkg_transport_header) : Prop := {
  hr_magic : 0 <= th_magic h < 2 ^ 32;
  hr_version : byte_ok (th_version h);
  hr_type : byte_ok (th_type h);
  hr_flags : 0 <= th_flags h < 2 ^ 16;
  hr_sequence : 0 <= th_sequence h < 2 ^ 32;
  hr_source : byte_ok (th_source_node_id h);
  hr_destination : byte_ok (th_destination_node_id h);
  hr_reserved : 0 <= th_reserved h < 2 ^ 16 }.

Record fragment_ranges (h : linkg_transport_fragment_header) : Prop := {
  fr_id : 0 <= fh_packet_id h < 2 ^ 32;
  fr_offset : 0 <= fh_fragment_offset h < 2 ^ 16;
  fr_length : 0 <= fh_packet_length h < 2 ^ 16 }.

Lemma length_header_bytes h : length (header_bytes h) = 16%nat.
Proof. done. Qed.

Lemma length_fragment_bytes h : length (fragment_bytes h) = 8%nat.
Proof. done. Qed.

Lemma header_parse_print h : header_ranges h -> header_of_bytes (header_bytes h) = h.
Proof.
  intros []. destruct h as [m v t f s a b r]. cbn in *. unfold header_of_bytes. f_equal.
  - exact (be_value_bytes 4 m hr_magic0).
  - exact (be_value_bytes 2 f hr_flags0).
  - etrans; [apply f_equal, (be_value_bytes 4 s hr_sequence0)|by apply wrap_small].
  - exact (be_value_bytes 2 r hr_reserved0).
Qed.

Lemma fragment_parse_print h : fragment_ranges h -> fragment_of_bytes (fragment_bytes h) = h.
Proof.
  intros []. destruct h as [i o l]. cbn in *. unfold fragment_of_bytes. f_equal.
  - exact (be_value_bytes 4 i fr_id0).
  - exact (be_value_bytes 2 o fr_offset0).
  - exact (be_value_bytes 2 l fr_length0).
Qed.

(** Peel the [n] first elements of a list of known length. *)
Ltac explode l H :=
  repeat (let x := fresh "x" in destruct l as [|x l]; [discriminate H|cbn in H; apply eq_add_S in H]);
  destruct l; [clear H|discriminate H].

Lemma field_bytes (bs : list Z) : Forall byte_ok bs -> be_bytes (length bs) (be_value bs) = bs.
Proof. exact (be_bytes_value bs). Qed.

Lemma header_print_parse l :
  length l = 16%nat -> Forall byte_ok l -> header_bytes (header_of_bytes l) = l.
Proof.
  intros Hl Hb. explode l Hl. unfold header_bytes, header_of_bytes.
  repeat match goal with H : Forall _ (_ :: _) |- _ => apply Forall_cons in H as [? H] end.
  cbn [th_magic th_version th_type th_flags th_sequence th_source_node_id th_destination_node_id
       th_reserved].
  unfold field. cbn [take drop].
  pose proof (field_bytes [x; x0; x1; x2] ltac:(rewrite !Forall_cons; done)) as E1.
  pose proof (field_bytes [x5; x6] ltac:(rewrite !Forall_cons; done)) as E2.
  pose proof (field_bytes [x7; x8; x9; x10] ltac:(rewrite !Forall_cons; done)) as E3.
  pose proof (field_bytes [x13; x14] ltac:(rewrite !Forall_cons; done)) as E4.
  pose proof (be_value_range [x7; x8; x9; x10] ltac:(rewrite !Forall_cons; done)) as R3.
  cbn [length] in E1, E2, E3, E4. rewrite E1, E2, (wrap_small 32) by exact R3. by rewrite E3, E4.
Qed.

Lemma set_sequence_bytes s l :
  length l = 16%nat -> 0 <= s < 2 ^ 32 ->
  header_of_bytes (wire_set_sequence s l) = set_sequence s (header_of_bytes l).
Proof.
  intros Hl Hs. explode l Hl. unfold header_of_bytes, set_sequence. f_equal.
  etrans; [apply f_equal, (be_value_bytes 4 s Hs)|by apply wrap_small].
Qed.

Lemma fragment_print_parse l :
  length l = 8%nat -> Forall byte_ok l -> fragment_bytes (fragment_of_bytes l) = l.
Proof.
  intros Hl Hb. explode l Hl. unfold fragment_bytes, fragment_of_bytes.
  repeat match goal with H : Forall _ (_ :: _) |- _ => apply Forall_cons in H as [? H] end.
  cbn [fh_packet_id fh_fragment_offset fh_packet_length]. unfold field. cbn [take drop].
  pose proof (field_bytes [x; x0; x1; x2] ltac:(rewrite !Forall_cons; done)) as E1.
  pose proof (field_bytes [x3; x4] ltac:(rewrite !Forall_cons; done)) as E2.
  pose proof (field_bytes [x5; x6] ltac:(rewrite !Forall_cons; done)) as E3.
  cbn [length] in E1, E2, E3. rewrite E1, E2, E3. done.
Qed.

Lemma header_of_bytes_ranges l :
  length l = 16%nat -> Forall byte_ok l -> header_ranges (header_of_bytes l).
Proof.
  intros Hl Hb.
  assert (forall off n, 0 <= field off n l < 256 ^ Z.of_nat (length (take n (drop off l)))) as F.
  { intros off n. apply be_value_range. by apply Forall_take, Forall_drop. }
  assert (forall off n, (off + n <= 16)%nat -> 0 <= field off n l < 256 ^ Z.of_nat n) as F'.
  { intros off n Hn. specialize (F off n). by rewrite length_take, length_drop, Nat.min_l in F by lia. }
  split; cbn [header_of_bytes th_magic th_version th_type th_flags th_sequence th_source_node_id
    th_destination_node_id th_reserved].
  - exact (F' 0%nat 4%nat ltac:(lia)).
  - exact (F' 4%nat 1%nat ltac:(lia)).
  - exact (F' 5%nat 1%nat ltac:(lia)).
  - exact (F' 6%nat 2%nat ltac:(lia)).
  - by apply wrap_range.
  - exact (F' 12%nat 1%nat ltac:(lia)).
  - exact (F' 13%nat 1%nat ltac:(lia)).
  - exact (F' 14%nat 2%nat ltac:(lia)).
Qed.

(** What [encode] puts on the wire for the fields its caller supplies. *)
Definition wire_header (h : linkg_transport_header) : linkg_transport_header :=
  Header LINKG_TRANSPORT_WIRE_MAGIC LINKG_TRANSPORT_WIRE_VERSION (th_type h) (th_flags h)
         (th_sequence h) (th_source_node_id h) (th_destination_node_id h) 0.

(** The caller's fields the code checks. *)
Definition encode_valid (h : linkg_transport_header) : bool :=
  linkg_transport_type_valid (th_type h) && _linkg_transport_wire_flags_valid (th_flags h) &&
  _linkg_transport_wire_node_id_valid (th_source_node_id h) &&
  _linkg_transport_wire_node_id_valid (th_destination_node_id h).

Lemma wire_header_accepted h : encode_valid h = true -> header_accepted (wire_header h) = true.
Proof.
  unfold encode_valid, header_accepted, wire_header.
  cbn [th_magic th_version th_type th_flags th_source_node_id th_destination_node_id th_reserved].
  rewrite !Z.eqb_refl, !andb_true_iff. tauto.
Qed.

Lemma wire_header_ranges h : header_ranges h -> header_ranges (wire_header h).
Proof. intros []. by split. Qed.

(** The error [encode] returns, [0] when there is none. *)
Definition encode_error (h : linkg_transport_header) (k : linkg_packet) : Z :=
  if negb (encode_valid h) then - EINVAL
  else if LINKG_TRANSPORT_WIRE_FRAME_MAX_SIZE
          <? u32 (pk_data_length k + LINKG_TRANSPORT_WIRE_HEADER_SIZE) then - EMSGSIZE
  else if pk_data_offset k <? LINKG_TRANSPORT_WIRE_HEADER_SIZE then - ENOSPC
  else 0.

(** The error of [fragment_encode]. *)
Definition fragment_encode_error (h : linkg_transport_fragment_header) (k : linkg_packet) : Z :=
  if (fh_packet_id h =? 0) || (pk_data_length k =? 0) then - EINVAL
  else if negb (_linkg_transport_wire_fragment_layout_valid
                  (fh_fragment_offset h) (fh_packet_length h) (pk_data_length k)) then - EINVAL
  else if LINKG_TRANSPORT_WIRE_FRAME_MAX_SIZE
          <? u32 (pk_data_length k + LINKG_TRANSPORT_WIRE_FRAGMENT_HEADER_SIZE
                  + LINKG_TRANSPORT_WIRE_HEADER_SIZE) then - EMSGSIZE
  else if pk_data_offset k <? LINKG_TRANSPORT_WIRE_FRAGMENT_HEADER_SIZE then - ENOSPC
  else 0.

(** Reading the descriptor, its slot pointer and the headroom of a live packet. *)
Lemma live_at p i k : live p i k -> packet_at i p = Some (k, p) /\ bool_decide (pk_slot k = None) = false.
Proof.
  intros (Hw&_&Hk). split; [by apply packet_at_eq|].
  destruct (live_wf p i k Hw Hk) as (W&_). by rewrite (kwf_slot _ _ _ W), bool_decide_false.
Qed.

Lemma live_headroom p i k : live p i k -> linkg_packet_headroom i p = Some (pk_data_offset k, p).
Proof.
  intros L. destruct (live_at p i k L) as [E _].
  unfold linkg_packet_headroom, mbind, M_bind. by rewrite E.
Qed.

(** Shared by the two encoders: push the header in front of the payload. *)
Lemma push_header_spec p i k bs (e : Z) :
  live p i k -> 0 < Z.of_nat (length bs) <= pk_data_offset k ->
  exists p', (data ← linkg_packet_push (Some i) (Z.of_nat (length bs));
     match data with
     | None => mret e
     | Some addr => data_store addr bs ;; mret 0
     end) p = Some (0, p') /\
    live p' i (set_window (pk_data_offset k - Z.of_nat (length bs))
                          (pk_data_length k + Z.of_nat (length bs)) k) /\
    local_change i p p' /\ payload p' i = bs ++ payload p i.
Proof.
  intros L Hb. destruct (push_store_spec p i k bs L Hb) as (a&p1&p'&E1&E2&L'&C&P).
  exists p'. splits; try done. unfold mbind, M_bind. rewrite E1. cbn. by rewrite E2.
Qed.

Lemma encode_run p i k h :
  live p i k ->
  linkg_transport_wire_encode (Some i) (Some h) p =
    if encode_error h k =? 0 then
      (data ← linkg_packet_push (Some i) LINKG_TRANSPORT_WIRE_HEADER_SIZE;
       match data with
       | None => mret (- ENOSPC)
       | Some addr => data_store addr (header_bytes (wire_header h)) ;; mret 0
       end) p
    else Some (encode_error h k, p).
Proof.
  intros L. destruct (live_at p i k L) as [E Es]. pose proof (live_headroom p i k L) as Eh.
  unfold linkg_transport_wire_encode, encode_error. unfold mbind at 1, M_bind at 1. rewrite E.
  cbn beta iota. rewrite Es. unfold encode_valid. rewrite !negb_andb.
  destruct (_ || _ || _ || _)%bool; [done|]. destruct (_ <? _); [done|].
  unfold mbind at 1, M_bind at 1. rewrite Eh. cbn beta iota. by destruct (_ <? _).
Qed.

Lemma fragment_encode_run p i k h :
  live p i k ->
  linkg_transport_wire_fragment_encode (Some i) (Some h) p =
    if fragment_encode_error h k =? 0 then
      (data ← linkg_packet_push (Some i) LINKG_TRANSPORT_WIRE_FRAGMENT_HEADER_SIZE;
       match data with
       | None => mret (- ENOSPC)
       | Some addr => data_store addr (fragment_bytes h) ;; mret 0
       end) p
    else Some (fragment_encode_error h k, p).
Proof.
  intros L. destruct (live_at p i k L) as [E Es]. pose proof (live_headroom p i k L) as Eh.
  unfold linkg_transport_wire_fragment_encode, fragment_encode_error.
  unfold mbind at 1, M_bind at 1. rewrite E. cbn beta iota. rewrite Es.
  unfold LINKG_TRANSPORT_PACKET_ID_INVALID.
  destruct (_ || _)%bool; [done|]. destruct (negb _); [done|]. destruct (_ <? _); [done|].
  unfold mbind at 1, M_bind at 1. rewrite Eh. cbn beta iota. by destruct (_ <? _).
Qed.

Lemma encode_error_0 h k :
  encode_error h k = 0 -> 0 <= pk_data_length k -> pk_data_offset k + pk_data_length k < 2 ^ 32 ->
  encode_valid h = true /\ 16 <= pk_data_offset k /\ pk_data_length k + 16 <= 1444.
Proof.
  unfold encode_error, LINKG_TRANSPORT_WIRE_HEADER_SIZE, LINKG_TRANSPORT_WIRE_FRAME_MAX_SIZE.
  destruct (encode_valid h); [|discriminate]. cbn [negb]. intros H Hl Ho.
  destruct (1444 <? _) eqn:E1; [discriminate|]. destruct (_ <? 16) eqn:E2; [discriminate|].
  zb. rewrite wrap_small in E1 by mlia. lia.
Qed.

Lemma live_bounds p i k :
  live p i k -> 0 <= pk_data_offset k /\ 0 <= pk_data_length k /\
    pk_data_offset k + pk_data_length k < 2 ^ 32 /\
    Z.of_nat (length (payload p i)) = pk_data_length k.
Proof.
  intros (Hw&_&Hk). destruct (live_wf p i k Hw Hk) as (_&(?&?&?&?)&_).
  rewrite (length_payload p i k) by done. lia.
Qed.

(** The decoders as functions of the payload. *)
Definition decode_bytes (l : list Z) : Z * option linkg_transport_header :=
  let n := Z.of_nat (length l) in
  let h := header_of_bytes (take 16 l) in
  if (n <? LINKG_TRANSPORT_WIRE_HEADER_SIZE) || (LINKG_TRANSPORT_WIRE_FRAME_MAX_SIZE <? n)
  then (- EMSGSIZE, None)
  else if negb (header_accepted h) then (- EPROTO, None)
  else if negb (Z.land (th_flags h) LINKG_TRANSPORT_FLAG_FRAGMENT =? 0) &&
          (n <? LINKG_TRANSPORT_WIRE_HEADER_MAX_SIZE + 1) then (- EPROTO, None)
  else (0, Some h).

Definition fragment_decode_bytes (l : list Z) : Z * option linkg_transport_fragment_header :=
  let n := Z.of_nat (length l) in
  let h := fragment_of_bytes (take 8 (drop 16 l)) in
  if (n <? LINKG_TRANSPORT_WIRE_HEADER_MAX_SIZE + 1) || (LINKG_TRANSPORT_WIRE_FRAME_MAX_SIZE <? n)
  then (- EMSGSIZE, None)
  else if (fh_packet_id h =? 0) ||
          negb (_linkg_transport_wire_fragment_layout_valid (fh_fragment_offset h)
                  (fh_packet_length h) (n - LINKG_TRANSPORT_WIRE_HEADER_MAX_SIZE))
  then (- EPROTO, None)
  else (0, Some h).

Lemma decode_run p i k :
  live p i k -> linkg_transport_wire_decode (Some i) false p = Some (decode_bytes (payload p i), p).
Proof.
  intros L. destruct (live_at p i k L) as [E Es]. pose proof L as (Hw&_&Hk).
  destruct (live_bounds p i k L) as (?&?&?&El).
  unfold linkg_transport_wire_decode, decode_bytes. unfold mbind at 1, M_bind at 1. rewrite E.
  cbn beta iota zeta. rewrite Es, El. destruct (_ || _)%bool eqn:Eb; [done|]. zb.
  unfold LINKG_TRANSPORT_WIRE_HEADER_SIZE in *.
  unfold linkg_packet_const_data, mbind, M_bind. rewrite (packet_data_eq p i k Hw Hk). cbn beta iota.
  rewrite (load_front p i k) by (done || lia). cbn beta iota zeta. change (Z.to_nat 16) with 16%nat.
  destruct (negb _); [done|]. by destruct (_ && _)%bool.
Qed.

Lemma fragment_decode_run p i k :
  live p i k ->
  linkg_transport_wire_fragment_decode (Some i) false p = Some (fragment_decode_bytes (payload p i), p).
Proof.
  intros L. destruct (live_at p i k L) as [E Es]. pose proof L as (Hw&_&Hk).
  destruct (live_bounds p i k L) as (?&?&?&El).
  unfold linkg_transport_wire_fragment_decode, fragment_decode_bytes.
  unfold mbind at 1, M_bind at 1. rewrite E.
  cbn beta iota zeta. rewrite Es, El. destruct (_ || _)%bool eqn:Eb; [done|]. zb.
  unfold LINKG_TRANSPORT_WIRE_HEADER_MAX_SIZE, LINKG_TRANSPORT_WIRE_FRAME_MAX_SIZE in *.
  unfold linkg_packet_const_data, mbind, M_bind. rewrite (packet_data_eq p i k Hw Hk). cbn beta iota.
  unfold LINKG_TRANSPORT_WIRE_HEADER_SIZE, LINKG_TRANSPORT_WIRE_FRAGMENT_HEADER_SIZE.
  pose proof (load_payload p i k 16 8 Hw Hk ltac:(lia)) as E8.
  change (Z.of_nat 16) with 16 in E8. change (Z.to_nat 8) with 8%nat. rewrite E8. cbn beta iota zeta.
  rewrite wrap_small by mlia. unfold LINKG_TRANSPORT_PACKET_ID_INVALID.
  by destruct (_ || _)%bool.
Qed.

Lemma header_take h body : header_ranges h -> header_of_bytes (take 16 (header_bytes h ++ body)) = h.
Proof.
  intros Hr. rewrite <- (length_header_bytes h) at 1. by rewrite take_app_length, header_parse_print.
Qed.

Lemma fragment_take h f body :
  fragment_ranges f -> fragment_of_bytes (take 8 (drop 16 (header_bytes h ++ fragment_bytes f ++ body))) = f.
Proof.
  intros Hr. rewrite <- (length_header_bytes h) at 1. rewrite drop_app_length.
  rewrite <- (length_fragment_bytes f) at 1. by rewrite take_app_length, fragment_parse_print.
Qed.

(** ** Properties *)

(** On a live packet [encode] either reports its error and leaves
    the whole pool untouched, or prepends exactly the sixteen header bytes to
    the payload of that packet, moving its window back into the headroom and
    changing no other packet, slot or reference count. *)
Theorem encode_spec (p : linkg_packet_pool) (i : pkt_ptr) (k : linkg_packet)
    (h : linkg_transport_header) :
  live p i k ->
  exists ret p', linkg_transport_wire_encode (Some i) (Some h) p = Some (ret, p') /\
    ret = encode_error h k /\
    (ret <> 0 -> p' = p) /\
    (ret = 0 ->
       live p' i (set_window (pk_data_offset k - 16) (pk_data_length k + 16) k) /\
       local_change i p p' /\ payload p' i = header_bytes (wire_header h) ++ payload p i).
Proof.
  intros L. destruct (live_bounds p i k L) as (?&?&?&_). rewrite (encode_run p i k h L).
  destruct (encode_error h k =? 0) eqn:E; zb.
  - destruct (encode_error_0 h k E) as (_&Ho&_); [done..|].
    destruct (push_header_spec p i k (header_bytes (wire_header h)) (- ENOSPC) L)
      as (p'&E1&L1&C1&P1); [rewrite length_header_bytes; lia|].
    rewrite length_header_bytes in *. exists 0, p'. by splits.
  - eexists _, p. splits; [done..|]. intros H'. by destruct (E H').
Qed.

(** *** Well-formed headers, said without the code's checks and codec *)

(** The protocol's magic and version, a known type, at most the fragment flag, a
    32-bit sequence number, two node identifiers of the network and nothing reserved. *)
Definition well_formed_header (h : linkg_transport_header) : Prop :=
  th_magic h = 0x4C4B4732 /\ th_version h = 1 /\
  (th_type h = LINKG_TRANSPORT_TYPE_USER_DATA \/ th_type h = LINKG_TRANSPORT_TYPE_PATH_PROBE \/ th_type h = LINKG_TRANSPORT_TYPE_SWITCH) /\
  (th_flags h = 0 \/ th_flags h = LINKG_TRANSPORT_FLAG_FRAGMENT) /\ 0 <= th_sequence h < 2 ^ 32 /\
  LINKG_RESOURCE_NODE_ID_MIN <= th_source_node_id h <= LINKG_RESOURCE_NODE_ID_MAX /\
  LINKG_RESOURCE_NODE_ID_MIN <= th_destination_node_id h <= LINKG_RESOURCE_NODE_ID_MAX /\ th_reserved h = 0.

(** Its sixteen bytes. *)
Definition header_layout (h : linkg_transport_header) : list Z :=
  let n := th_sequence h in
  [0x4C; 0x4B; 0x47; 0x32; 1; th_type h; 0; th_flags h;
   n / 2 ^ 24; n / 2 ^ 16 mod 256; n / 2 ^ 8 mod 256; n mod 256; th_source_node_id h; th_destination_node_id h; 0; 0].

Lemma flags_valid_iff flags : _linkg_transport_wire_flags_valid flags = true -> 0 <= flags < 2 ^ 16 ->
  flags = 0 \/ flags = LINKG_TRANSPORT_FLAG_FRAGMENT.
Proof.
  unfold _linkg_transport_wire_flags_valid. intros H Hr. zb.
  assert (flags = Z.land flags (Z.lor (u16 (Z.lnot LINKG_TRANSPORT_FLAG_VALID_MASK)) (Z.ones 1))) as E.
  { change (Z.lor _ _) with (Z.ones 16). rewrite Z.land_ones by lia. symmetry. by apply Z.mod_small. }
  rewrite Z.land_lor_distr_r, H, Z.lor_0_l, Z.land_ones in E by lia. pose proof (Z.mod_pos_bound flags (2 ^ 1) ltac:(lia)).
  unfold LINKG_TRANSPORT_FLAG_FRAGMENT. lia.
Qed.

Lemma well_formed_iff h : well_formed_header h <-> header_ranges h /\ header_accepted h = true.
Proof.
  unfold header_accepted, linkg_transport_type_valid, _linkg_transport_wire_node_id_valid, well_formed_header. split.
  - intros (Hm&Hv&Ht&Hf&Hs&Ha&Hb&Hr). unfold LINKG_RESOURCE_NODE_ID_MIN, LINKG_RESOURCE_NODE_ID_MAX in *. split.
    + split; rewrite ?Hm, ?Hv, ?Hr; unfold byte_ok; try lia; [destruct Ht as [->|[->| ->]]|destruct Hf as [->| ->]]; vm_compute; intuition congruence.
    + rewrite Hm, Hv, Hr, !Z.eqb_refl. assert (_linkg_transport_wire_flags_valid (th_flags h) = true) as -> by (by destruct Hf as [->| ->]).
      bsimp. by destruct Ht as [->|[->| ->]].
  - intros [[] Ha]. zb. unfold LINKG_TRANSPORT_TYPE_NONE, LINKG_TRANSPORT_TYPE_COUNT in *. splits; try done.
    + unfold LINKG_TRANSPORT_TYPE_USER_DATA, LINKG_TRANSPORT_TYPE_PATH_PROBE, LINKG_TRANSPORT_TYPE_SWITCH. lia.
    + by apply flags_valid_iff.
    + lia.
    + lia.
Qed.

Lemma layout_bytes h : well_formed_header h -> header_bytes h = header_layout h.
Proof.
  intros (Hm&Hv&Ht&Hf&Hs&_&_&Hr). unfold header_bytes, header_layout. rewrite Hm, Hv, Hr.
  change (be_bytes 4 0x4C4B4732) with [0x4C; 0x4B; 0x47; 0x32]. change (be_bytes 2 0) with [0; 0].
  assert (be_bytes 2 (th_flags h) = [0; th_flags h]) as -> by (by destruct Hf as [->| ->]).
  assert (be_bytes 4 (th_sequence h) = [th_sequence h / 2 ^ 24; th_sequence h / 2 ^ 16 mod 256; th_sequence h / 2 ^ 8 mod 256; th_sequence h mod 256]) as ->; [|done].
  cbn [be_bytes app]. rewrite !Z.div_div by lia. repeat f_equal.
  change (256 * 256 * 256) with (2 ^ 24). apply Z.mod_small. split; [apply Z.div_pos; lia|apply Z.div_lt_upper_bound; lia].
Qed.

(** C24: [decode] never changes the pool, and it accepts a frame of bytes exactly when
    the frame is the sixteen bytes of a well-formed header (the magic, the version, a
    known type, at most the fragment flag, node identifiers of the network, a zero
    reserved field) followed by a body that fits the maximum frame, and by at least
    one byte after the fragment header when the fragment flag is set; the header it
    returns is that one. Any other frame is refused: -EMSGSIZE when its length is out
    of range, -EPROTO otherwise. *)
Theorem decode_accepts_iff (p : linkg_packet_pool) (i : pkt_ptr) (k : linkg_packet) :
  live p i k -> Forall byte_ok (payload p i) ->
  (forall h, linkg_transport_wire_decode (Some i) false p = Some ((0, Some h), p) <->
     exists body, payload p i = header_layout h ++ body /\ well_formed_header h /\
       (length body <= 1428)%nat /\ (th_flags h = LINKG_TRANSPORT_FLAG_FRAGMENT -> (9 <= length body)%nat)) /\
  (exists ret out, linkg_transport_wire_decode (Some i) false p = Some ((ret, out), p) /\
     (ret = 0 \/ out = None /\
        ret = if decide (16 <= length (payload p i) <= 1444)%nat then - EPROTO else - EMSGSIZE)).
Proof.
  intros L Hb. rewrite (decode_run p i k L). unfold decode_bytes, LINKG_TRANSPORT_WIRE_HEADER_SIZE,
    LINKG_TRANSPORT_WIRE_FRAME_MAX_SIZE, LINKG_TRANSPORT_WIRE_HEADER_MAX_SIZE.
  set (l := payload p i) in *. clearbody l. split.
  2: { eexists _, _. split; [apply f_equal, pair_equal_spec; split; [apply surjective_pairing|done]|].
    destruct (_ || _)%bool eqn:E1; [right; rewrite decide_False by (zb; lia); done|].
    rewrite decide_True by (zb; lia). destruct (negb _); [by right|]. destruct (_ && _)%bool; [by right|by left]. }
  intros h. split.
  - destruct (_ || _)%bool eqn:E1; [done|]. destruct (header_accepted _) eqn:E2; [|done]. cbn [negb].
    destruct (_ && _)%bool eqn:E3; [done|]. intros E. injection E as <-. zb.
    assert (length (take 16 l) = 16%nat) as L16 by (rewrite length_take; lia).
    pose proof (Forall_take _ 16 _ Hb) as B16.
    assert (well_formed_header (header_of_bytes (take 16 l))) as Hw by (apply well_formed_iff; split; [by apply header_of_bytes_ranges|done]).
    exists (drop 16 l). rewrite <- layout_bytes, header_print_parse, take_drop, length_drop by done.
    splits; [done|done|lia|]. intros Hf. rewrite Hf in E3. change (Z.land _ _) with 1 in E3. cbn [Z.eqb negb andb] in E3. zb. lia.
  - intros (body&->&Hw&Hl&Hf). rewrite <- layout_bytes by done. pose proof Hw as (_&_&_&Hfl&_). apply well_formed_iff in Hw as [Hr Ha].
    rewrite length_app, length_header_bytes, (header_take h body Hr), Ha. bsimp.
    destruct Hfl as [E|E]; rewrite E; [done|]. specialize (Hf E). cbn. by bsimp.
Qed.

(** After a successful [encode] the receiver's [decode]
    returns the header with the protocol's magic, version and reserved field
    filled in, and pulling the sixteen bytes gives back the original payload. *)
Theorem wire_roundtrip (p p' : linkg_packet_pool) (i : pkt_ptr) (k : linkg_packet)
    (h : linkg_transport_header) :
  live p i k -> header_ranges h ->
  (Z.land (th_flags h) LINKG_TRANSPORT_FLAG_FRAGMENT <> 0 -> 9 <= pk_data_length k) ->
  linkg_transport_wire_encode (Some i) (Some h) p = Some (0, p') ->
  linkg_transport_wire_decode (Some i) false p' = Some ((0, Some (wire_header h)), p') /\
  exists a p'', linkg_packet_pull (Some i) LINKG_TRANSPORT_WIRE_HEADER_SIZE p' = Some (Some a, p'') /\
    payload p'' i = payload p i.
Proof.
  intros L Hr Hf E. destruct (live_bounds p i k L) as (?&?&?&El).
  rewrite (encode_run p i k h L) in E. destruct (encode_error h k =? 0) eqn:Ee; zb.
  2: by injection E as E' _.
  destruct (encode_error_0 h k Ee) as (Hv&Ho&Hl); [done..|].
  destruct (push_header_spec p i k (header_bytes (wire_header h)) (- ENOSPC) L)
    as (p1&E1&L1&C1&P1); [rewrite length_header_bytes; lia|].
  rewrite length_header_bytes in *. change (Z.of_nat 16) with LINKG_TRANSPORT_WIRE_HEADER_SIZE in *.
  rewrite E1 in E. injection E as <-.
  split.
  - rewrite (decode_run _ _ _ L1), P1. unfold decode_bytes.
    rewrite header_take by by apply wire_header_ranges.
    rewrite length_app, length_header_bytes, wire_header_accepted by done.
    unfold LINKG_TRANSPORT_WIRE_HEADER_SIZE, LINKG_TRANSPORT_WIRE_FRAME_MAX_SIZE,
      LINKG_TRANSPORT_WIRE_HEADER_MAX_SIZE. bsimp. cbn [wire_header th_flags].
    destruct (Z.land _ _ =? 0) eqn:E2; cbn [negb andb]; [done|]. apply Z.eqb_neq in E2.
    specialize (Hf E2). by bsimp.
  - destruct (pull_spec p1 i _ LINKG_TRANSPORT_WIRE_HEADER_SIZE L1) as (p2&E2&_&_&_&P2).
    { cbn. unfold LINKG_TRANSPORT_WIRE_HEADER_SIZE. lia. }
    eexists _, p2. split; [exact E2|]. rewrite P2, P1.
    change (Z.to_nat LINKG_TRANSPORT_WIRE_HEADER_SIZE) with (length (header_bytes (wire_header h))).
    apply drop_app_length.
Qed.

Lemma layout_valid_spec off len n :
  0 <= n < 2 ^ 32 -> 0 <= len < 2 ^ 16 ->
  _linkg_transport_wire_fragment_layout_valid off len n = true <->
  1428 < len <= 1500 /\ (off = 0 /\ n = 1420 \/ off = 1420 /\ n = len - 1420).
Proof.
  intros Hn Hl. unfold _linkg_transport_wire_fragment_layout_valid.
  change LINKG_TRANSPORT_PAYLOAD_MAX_SIZE with 1428.
  change LINKG_TRANSPORT_PACKET_MAX_SIZE with 1500.
  change LINKG_TRANSPORT_FRAGMENT_PAYLOAD_MAX_SIZE with 1420.
  destruct (_ || _)%bool eqn:E.
  - split; [done|]. apply orb_true_iff in E as [E|E]; zb; lia.
  - zb. rewrite wrap_small by mlia. destruct (off =? 0) eqn:E1; zb; [rewrite Z.eqb_eq; lia|].
    destruct (negb _) eqn:E2; zb; [split; [done|lia]|]. rewrite Z.eqb_eq. lia.
Qed.

Lemma fragment_encode_error_0 h k :
  fragment_encode_error h k = 0 -> fragment_ranges h -> 0 <= pk_data_length k < 2 ^ 32 ->
  fh_packet_id h <> 0 /\ 8 <= pk_data_offset k /\ 9 <= pk_data_length k <= 1420 /\
  _linkg_transport_wire_fragment_layout_valid (fh_fragment_offset h) (fh_packet_length h)
    (pk_data_length k) = true.
Proof.
  unfold fragment_encode_error, LINKG_TRANSPORT_WIRE_FRAGMENT_HEADER_SIZE. intros H [] Hl.
  destruct (_ || _)%bool eqn:E1; [done|]. destruct (_linkg_transport_wire_fragment_layout_valid _ _ _) eqn:E2; [|done].
  cbn [negb] in H. destruct (_ <? _); [done|]. destruct (_ <? _) eqn:E4; [done|]. zb.
  apply layout_valid_spec in E2; [|done..]. lia.
Qed.

(** a fragment that went through [fragment_encode] and then
    [encode] is recovered by [decode] and [fragment_decode]: both headers come
    back, and pulling the 24 header bytes gives back the fragment's bytes. *)
Theorem fragment_roundtrip (p p1 p2 : linkg_packet_pool) (i : pkt_ptr) (k : linkg_packet)
    (h : linkg_transport_header) (f : linkg_transport_fragment_header) :
  live p i k -> header_ranges h -> fragment_ranges f ->
  linkg_transport_wire_fragment_encode (Some i) (Some f) p = Some (0, p1) ->
  linkg_transport_wire_encode (Some i) (Some h) p1 = Some (0, p2) ->
  linkg_transport_wire_decode (Some i) false p2 = Some ((0, Some (wire_header h)), p2) /\
  linkg_transport_wire_fragment_decode (Some i) false p2 = Some ((0, Some f), p2) /\
  exists a p3, linkg_packet_pull (Some i) LINKG_TRANSPORT_WIRE_HEADER_MAX_SIZE p2 = Some (Some a, p3) /\
    payload p3 i = payload p i.
Proof.
  intros L Hr Hfr E1 E2. destruct (live_bounds p i k L) as (?&?&?&El).
  rewrite (fragment_encode_run p i k f L) in E1.
  destruct (fragment_encode_error f k =? 0) eqn:Ee; zb; [|by injection E1 as E' _].
  destruct (fragment_encode_error_0 f k Ee Hfr) as (Hid&Ho&Hl&Hv); [lia|].
  destruct (push_header_spec p i k (fragment_bytes f) (- ENOSPC) L)
    as (q1&F1&L1&C1&P1); [rewrite length_fragment_bytes; lia|].
  rewrite length_fragment_bytes in *. change (Z.of_nat 8) with 8 in *.
  change LINKG_TRANSPORT_WIRE_FRAGMENT_HEADER_SIZE with 8 in E1. rewrite F1 in E1. injection E1 as <-.
  assert (pk_data_offset k - 8 + (pk_data_length k + 8) < 2 ^ 32) by lia.
  rewrite (encode_run q1 i _ h L1) in E2. destruct (encode_error h _ =? 0) eqn:Ee2; zb.
  2: by injection E2 as E' _.
  destruct (encode_error_0 h _ Ee2) as (Hv2&Ho2&Hl2); cbn [pk_data_offset pk_data_length set_window] in *; [lia..|].
  destruct (push_header_spec q1 i _ (header_bytes (wire_header h)) (- ENOSPC) L1)
    as (q2&F2&L2&C2&P2); [rewrite length_header_bytes; cbn [pk_data_offset set_window]; lia|].
  rewrite length_header_bytes in *. change (Z.of_nat 16) with LINKG_TRANSPORT_WIRE_HEADER_SIZE in *.
  rewrite F2 in E2. injection E2 as <-. rewrite P1 in P2. splits.
  - rewrite (decode_run _ _ _ L2), P2. unfold decode_bytes.
    rewrite header_take by by apply wire_header_ranges.
    rewrite !length_app, length_header_bytes, length_fragment_bytes, wire_header_accepted by done.
    unfold LINKG_TRANSPORT_WIRE_HEADER_SIZE, LINKG_TRANSPORT_WIRE_FRAME_MAX_SIZE,
      LINKG_TRANSPORT_WIRE_HEADER_MAX_SIZE. bsimp. by rewrite andb_false_r.
  - rewrite (fragment_decode_run _ _ _ L2), P2. unfold fragment_decode_bytes.
    rewrite fragment_take by done.
    rewrite !length_app, length_header_bytes, length_fragment_bytes.
    unfold LINKG_TRANSPORT_WIRE_FRAME_MAX_SIZE, LINKG_TRANSPORT_WIRE_HEADER_MAX_SIZE. bsimp.
    replace (Z.of_nat (16 + (8 + length (payload p i))) - 24) with (pk_data_length k) by lia.
    by rewrite Hv.
  - destruct (pull_spec q2 i _ LINKG_TRANSPORT_WIRE_HEADER_MAX_SIZE L2) as (p3&E3&_&_&_&P3).
    { cbn. unfold LINKG_TRANSPORT_WIRE_HEADER_SIZE, LINKG_TRANSPORT_WIRE_HEADER_MAX_SIZE. lia. }
    eexists _, p3. split; [exact E3|]. rewrite P3, P2. rewrite app_assoc.
    change (Z.to_nat LINKG_TRANSPORT_WIRE_HEADER_MAX_SIZE)
      with (length (header_bytes (wire_header h) ++ fragment_bytes f)).
    apply drop_app_length.
Qed.

Lemma set_sequence_print s l :
  length l = 16%nat -> Forall byte_ok l -> 0 <= s < 2 ^ 32 ->
  wire_set_sequence s l = header_bytes (set_sequence s (header_of_bytes l)).
Proof.
  intros Hl Hb Hs. rewrite <- set_sequence_bytes, header_print_parse; [done| | |done..].
  - unfold wire_set_sequence. rewrite !length_app, length_take, length_drop, length_be_bytes. lia.
  - unfold wire_set_sequence. apply Forall_app. split; [by apply Forall_take|].
    apply Forall_app. split; [apply be_bytes_ok|by apply Forall_drop].
Qed.

(** The successful path of [update_sequence]. *)
Lemma update_sequence_run (p : linkg_packet_pool) i k s :
  live p i k -> (16 <= pk_data_length k <= LINKG_TRANSPORT_WIRE_FRAME_MAX_SIZE)%Z ->
  header_accepted (header_of_bytes (take 16 (payload p i))) = true ->
  exists p', linkg_transport_wire_update_sequence (Some i) s p = Some (0, p') /\ live p' i k /\ local_change i p p' /\
    payload p' i = wire_set_sequence s (take 16 (payload p i)) ++ drop 16 (payload p i).
Proof.
  intros L Hl Ha. destruct (live_at p i k L) as [E Es]. pose proof L as (Hw&_&Hk).
  destruct (live_bounds p i k L) as (?&?&?&El).
  assert (length (wire_set_sequence s (take 16 (payload p i))) = 16%nat) as L16.
  { unfold wire_set_sequence. rewrite !length_app, length_be_bytes, length_take, length_drop, length_take. lia. }
  destruct (store_front p i k (wire_set_sequence s (take 16 (payload p i))) L) as (p'&E'&L'&C'&P'); [lia|].
  exists p'. split; [|by rewrite L16 in P'].
  unfold linkg_transport_wire_update_sequence. unfold mbind at 1, M_bind at 1. rewrite E. cbn beta iota zeta. rewrite Es.
  unfold LINKG_TRANSPORT_WIRE_HEADER_SIZE. bsimp. unfold linkg_packet_const_data, mbind, M_bind.
  rewrite (packet_data_eq p i k Hw Hk). cbn beta iota. rewrite (load_front p i k) by (done || lia).
  cbn beta iota zeta. change (Z.to_nat 16) with 16%nat. rewrite Ha. cbn [negb].
  rewrite (packet_data_eq p i k Hw Hk). cbn beta iota. by rewrite E'.
Qed.

(** [update_sequence] succeeds exactly on frames carrying an
    acceptable header; it then replaces the sequence field and nothing else, and
    when it fails the pool is untouched. *)
Theorem update_sequence_spec (p : linkg_packet_pool) (i : pkt_ptr) (k : linkg_packet) (s : Z) :
  live p i k -> Forall byte_ok (payload p i) -> 0 <= s < 2 ^ 32 ->
  exists ret p', linkg_transport_wire_update_sequence (Some i) s p = Some (ret, p') /\
    (ret <> 0 -> p' = p /\ fst (decode_bytes (payload p i)) = ret) /\
    (ret = 0 -> live p' i k /\ local_change i p p' /\
       exists h body, payload p i = header_bytes h ++ body /\ header_ranges h /\
         header_accepted h = true /\ payload p' i = header_bytes (set_sequence s h) ++ body).
Proof.
  intros L Hb Hs. destruct (live_at p i k L) as [E Es]. pose proof L as (Hw&_&Hk).
  destruct (live_bounds p i k L) as (?&?&?&El). unfold decode_bytes, LINKG_TRANSPORT_WIRE_HEADER_SIZE. rewrite El.
  destruct ((pk_data_length k <? 16) || (LINKG_TRANSPORT_WIRE_FRAME_MAX_SIZE <? pk_data_length k)) eqn:Eb.
  { exists (- EMSGSIZE), p. split; [|by split]. unfold linkg_transport_wire_update_sequence, LINKG_TRANSPORT_WIRE_HEADER_SIZE.
    unfold mbind at 1, M_bind at 1. rewrite E. cbn beta iota zeta. by rewrite Es, Eb. }
  pose proof Eb as [B1%Z.ltb_ge B2%Z.ltb_ge]%orb_false_iff. set (l := take 16 (payload p i)).
  assert (length l = 16%nat) as L16 by (unfold l; rewrite length_take; lia).
  pose proof (Forall_take _ 16 _ Hb) as B16. fold l in B16.
  destruct (header_accepted (header_of_bytes l)) eqn:Ea; cbn [negb].
  - destruct (update_sequence_run p i k s L ltac:(lia) Ea) as (p'&E'&L'&C'&P'). exists 0, p'. split; [done|]. split; [done|].
    intros _. splits; [done..|]. exists (header_of_bytes l), (drop 16 (payload p i)). fold l in P'.
    rewrite set_sequence_print in P' by done. rewrite header_print_parse by done. unfold l at 1. rewrite take_drop.
    splits; [done|by apply header_of_bytes_ranges|done|exact P'].
  - exists (- EPROTO), p. split; [|by split].
    unfold linkg_transport_wire_update_sequence, LINKG_TRANSPORT_WIRE_HEADER_SIZE. unfold mbind at 1, M_bind at 1. rewrite E.
    cbn beta iota zeta. rewrite Es, Eb. unfold linkg_packet_const_data. unfold mbind, M_bind.
    rewrite (packet_data_eq p i k Hw Hk). cbn beta iota. rewrite (load_front p i k) by (done || lia).
    cbn beta iota zeta. change (Z.to_nat 16) with 16%nat. fold l. by rewrite Ea.
Qed.

(** ** Instances *)

Definition demo_header : linkg_transport_header := Header 0 0 LINKG_TRANSPORT_TYPE_USER_DATA 0 77 1 2 0.
Definition demo_fragment_header : linkg_transport_header :=
  Header 0 0 LINKG_TRANSPORT_TYPE_USER_DATA LINKG_TRANSPORT_FLAG_FRAGMENT 78 1 2 0.
Definition demo_fragment : linkg_transport_fragment_header := FragmentHeader 9 1420 1500.

Lemma demo_header_ranges : header_ranges demo_header /\ header_ranges demo_fragment_header.
Proof. split; split; vm_compute; intuition congruence. Qed.

Lemma demo_fragment_ranges : fragment_ranges demo_fragment.
Proof. split; vm_compute; intuition congruence. Qed.

Definition frame_encoded (len : Z) (h : linkg_transport_header) : linkg_packet_pool :=
  final (frame_pool len) (linkg_transport_wire_encode (Some 1%nat) (Some h) (frame_pool len)).

Definition fragment_encoded : linkg_packet_pool :=
  final (frame_pool 80) (linkg_transport_wire_fragment_encode (Some 1%nat) (Some demo_fragment)
                           (frame_pool 80)).

Definition fragment_framed : linkg_packet_pool :=
  final (frame_pool 80) (linkg_transport_wire_encode (Some 1%nat) (Some demo_fragment_header)
                           fragment_encoded).

Definition encoded_packet (len : Z) : linkg_packet := Packet (Some 7%nat) (Some 1600) 1 48 (len + 16) 0.

Lemma frame_encoded_live : live (frame_encoded 4 demo_header) 1 (encoded_packet 4).
Proof.
  destruct (push_header_spec (frame_pool 4) 1 (frame_packet 4) (header_bytes (wire_header demo_header))
    (- ENOSPC) (frame_pool_live 4 ltac:(lia)) ltac:(cbn; lia)) as (p'&E&L&_).
  unfold frame_encoded. rewrite (encode_run _ _ _ _ (frame_pool_live 4 ltac:(lia))).
  change (encode_error demo_header (frame_packet 4) =? 0) with true. cbn beta iota.
  change LINKG_TRANSPORT_WIRE_HEADER_SIZE
    with (Z.of_nat (length (header_bytes (wire_header demo_header)))).
  rewrite E. exact L.
Qed.

Lemma bytes_ok_dec (l : list Z) : forallb (fun b => (0 <=? b) && (b <? 256)) l = true -> Forall byte_ok l.
Proof.
  intros H. apply Forall_forall. intros b Hb. rewrite forallb_forall in H.
  specialize (H b ltac:(by apply list_elem_of_In)). zb. done.
Qed.

Lemma encode_spec_witness :
  live (frame_pool 4) 1 (frame_packet 4) /\ encode_error demo_header (frame_packet 4) = 0 /\
  exists ret p', linkg_transport_wire_encode (Some 1%nat) (Some demo_header) (frame_pool 4) = Some (ret, p') /\
    ret = encode_error demo_header (frame_packet 4) /\
    (ret <> 0 -> p' = frame_pool 4) /\
    (ret = 0 ->
       live p' 1 (set_window (64 - 16) (4 + 16) (frame_packet 4)) /\
       local_change 1 (frame_pool 4) p' /\
       payload p' 1 = header_bytes (wire_header demo_header) ++ payload (frame_pool 4) 1).
Proof.
  split; [apply frame_pool_live; lia|]. split; [reflexivity|].
  apply (encode_spec (frame_pool 4) 1 (frame_packet 4) demo_header). apply frame_pool_live. lia.
Defined.

Lemma decode_accepts_iff_witness :
  exists body, payload (frame_encoded 4 demo_header) 1 = header_layout (wire_header demo_header) ++ body /\
    well_formed_header (wire_header demo_header) /\
    (length body <= 1428)%nat /\ (th_flags (wire_header demo_header) = LINKG_TRANSPORT_FLAG_FRAGMENT -> (9 <= length body)%nat).
Proof.
  assert (Forall byte_ok (payload (frame_encoded 4 demo_header) 1)) as Hb by (apply bytes_ok_dec; vm_compute; reflexivity).
  apply (proj1 (decode_accepts_iff (frame_encoded 4 demo_header) 1 (encoded_packet 4) frame_encoded_live Hb) (wire_header demo_header)).
  vm_compute. reflexivity.
Defined.

Lemma wire_roundtrip_witness :
  linkg_transport_wire_decode (Some 1%nat) false (frame_encoded 4 demo_header) =
    Some ((0, Some (wire_header demo_header)), frame_encoded 4 demo_header) /\
  exists a p'', linkg_packet_pull (Some 1%nat) LINKG_TRANSPORT_WIRE_HEADER_SIZE
      (frame_encoded 4 demo_header) = Some (Some a, p'') /\
    payload p'' 1 = payload (frame_pool 4) 1.
Proof.
  apply (wire_roundtrip (frame_pool 4) (frame_encoded 4 demo_header) 1 (frame_packet 4) demo_header).
  - apply frame_pool_live. lia.
  - apply demo_header_ranges.
  - vm_compute. intros H. exfalso. apply H. reflexivity.
  - vm_compute. reflexivity.
Defined.

Lemma fragment_roundtrip_witness :
  linkg_transport_wire_decode (Some 1%nat) false fragment_framed =
    Some ((0, Some (wire_header demo_fragment_header)), fragment_framed) /\
  linkg_transport_wire_fragment_decode (Some 1%nat) false fragment_framed =
    Some ((0, Some demo_fragment), fragment_framed) /\
  exists a p3, linkg_packet_pull (Some 1%nat) LINKG_TRANSPORT_WIRE_HEADER_MAX_SIZE fragment_framed =
      Some (Some a, p3) /\ payload p3 1 = payload (frame_pool 80) 1.
Proof.
  apply (fragment_roundtrip (frame_pool 80) fragment_encoded fragment_framed 1 (frame_packet 80)
           demo_fragment_header demo_fragment).
  - apply frame_pool_live. lia.
  - apply demo_header_ranges.
  - apply demo_fragment_ranges.
  - vm_compute. reflexivity.
  - vm_compute. reflexivity.
Defined.

Lemma update_sequence_spec_witness :
  exists ret p', linkg_transport_wire_update_sequence (Some 1%nat) 4000000000
      (frame_encoded 4 demo_header) = Some (ret, p') /\
    (ret <> 0 -> p' = frame_encoded 4 demo_header /\
       fst (decode_bytes (payload (frame_encoded 4 demo_header) 1)) = ret) /\
    (ret = 0 -> live p' 1 (encoded_packet 4) /\ local_change 1 (frame_encoded 4 demo_header) p' /\
       exists h body, payload (frame_encoded 4 demo_header) 1 = header_bytes h ++ body /\ header_ranges h /\
         header_accepted h = true /\ payload p' 1 = header_bytes (set_sequence 4000000000 h) ++ body).
Proof.
  apply (update_sequence_spec (frame_encoded 4 demo_header) 1 (encoded_packet 4) 4000000000).
  - apply frame_encoded_live.
  - apply bytes_ok_dec. vm_compute. reflexivity.
  - lia.
Defined.
