(* ===== verification/TransportReassembly.v ===== *)
(** * Local fragment reassembly  (core/transport/transport_reassembly.c)

    The two-way set-associative cache that turns the two fragments of a large
    packet back into one packet. The first fragment's packet is the carrier:
    the tail's bytes are appended to it in place. The cache runs over the packet
    pool of [PacketPool]; an entry pointer is an index into the flattened array
    [entries[64][2]]. *)

From S2P Require Import Prelude.
From S2P Require Import PacketStore.
From S2P Require Import PacketPool.
From S2P Require Import PacketData.
From S2P Require Import TransportTypes.

(** ** Data *)

Definition LINKG_TRANSPORT_REASSEMBLY_SET_COUNT := 64.
Definition LINKG_TRANSPORT_REASSEMBLY_WAYS := 2.
Definition LINKG_TRANSPORT_REASSEMBLY_TTL_US := 100000.
Definition LINKG_TRANSPORT_REASSEMBLY_GC_INTERVAL_US := 5000.

Definition LINKG_TRANSPORT_REASSEMBLY_FRAGMENT_FIRST := Z.shiftl 1 0.
Definition LINKG_TRANSPORT_REASSEMBLY_FRAGMENT_SECOND := Z.shiftl 1 1.
Definition LINKG_TRANSPORT_REASSEMBLY_FRAGMENT_ALL :=
  Z.lor LINKG_TRANSPORT_REASSEMBLY_FRAGMENT_FIRST LINKG_TRANSPORT_REASSEMBLY_FRAGMENT_SECOND.

Record linkg_transport_reassembly_entry := ReassemblyEntry {
  re_first_packet : option pkt_ptr;
  re_tail_packet : option pkt_ptr;
  re_expires_at_us : Z;
  re_packet_id : Z;
  re_peer_epoch : Z;
  re_type : Z;
  re_traffic_class : Z;
  re_packet_length : Z;
  re_source_node_id : Z;
  re_destination_node_id : Z;
  re_peer_node_id : Z;
  re_received_mask : Z;
  re_valid : bool }.

(** [memset(entry, 0, sizeof( *entry))]. *)
Definition entry_zero : linkg_transport_reassembly_entry :=
  ReassemblyEntry None None 0 0 0 0 0 0 0 0 0 0 false.

(** [g_transport.reassembly] together with the pool its packets live in and the
    global statistic it maintains. *)
Record linkg_transport_reassembly_runtime := ReassemblyRuntime {
  rr_pool : linkg_packet_pool;
  rr_entries : list linkg_transport_reassembly_entry;
  rr_last_gc_us : Z;
  rr_initialized : bool;
  rr_reset_frames : Z }.

Record linkg_transport_reassembly_submit_item := ReassemblyItem {
  ri_header : option linkg_transport_header;
  ri_fragment_header : option linkg_transport_fragment_header;
  ri_packet : option pkt_ptr;
  ri_completed_packet : option pkt_ptr;
  ri_peer : option peer_ptr;
  ri_peer_epoch : Z;
  ri_traffic_class : Z;
  ri_result : Z;
  ri_peer_node_id : Z }.

Abbreviation RM := (M linkg_transport_reassembly_runtime).
Abbreviation entry_ptr := nat.

Definition set_pool (p : linkg_packet_pool) (s : linkg_transport_reassembly_runtime) :=
  ReassemblyRuntime p (rr_entries s) (rr_last_gc_us s) (rr_initialized s) (rr_reset_frames s).
Definition set_entries (es : list linkg_transport_reassembly_entry)
    (s : linkg_transport_reassembly_runtime) :=
  ReassemblyRuntime (rr_pool s) es (rr_last_gc_us s) (rr_initialized s) (rr_reset_frames s).
Definition set_last_gc (t : Z) (s : linkg_transport_reassembly_runtime) :=
  ReassemblyRuntime (rr_pool s) (rr_entries s) t (rr_initialized s) (rr_reset_frames s).
Definition set_initialized (b : bool) (s : linkg_transport_reassembly_runtime) :=
  ReassemblyRuntime (rr_pool s) (rr_entries s) (rr_last_gc_us s) b (rr_reset_frames s).
Definition set_reset_frames (n : Z) (s : linkg_transport_reassembly_runtime) :=
  ReassemblyRuntime (rr_pool s) (rr_entries s) (rr_last_gc_us s) (rr_initialized s) n.

(** The number of entries of the array. *)
Definition entry_count : nat :=
  Z.to_nat (LINKG_TRANSPORT_REASSEMBLY_SET_COUNT * LINKG_TRANSPORT_REASSEMBLY_WAYS).

(** [memset(&g_transport.reassembly, 0, ...)]; the pool and the statistics live
    elsewhere. *)
Definition runtime_zero (s : linkg_transport_reassembly_runtime) : linkg_transport_reassembly_runtime :=
  ReassemblyRuntime (rr_pool s) (replicate entry_count entry_zero) 0 false (rr_reset_frames s).

Definition entry_first (o : option pkt_ptr) (x : linkg_transport_reassembly_entry) :=
  ReassemblyEntry o (re_tail_packet x) (re_expires_at_us x) (re_packet_id x) (re_peer_epoch x)
    (re_type x) (re_traffic_class x) (re_packet_length x) (re_source_node_id x)
    (re_destination_node_id x) (re_peer_node_id x) (re_received_mask x) (re_valid x).
Definition entry_tail (o : option pkt_ptr) (x : linkg_transport_reassembly_entry) :=
  ReassemblyEntry (re_first_packet x) o (re_expires_at_us x) (re_packet_id x) (re_peer_epoch x)
    (re_type x) (re_traffic_class x) (re_packet_length x) (re_source_node_id x)
    (re_destination_node_id x) (re_peer_node_id x) (re_received_mask x) (re_valid x).
Definition entry_mask (bit : Z) (x : linkg_transport_reassembly_entry) :=
  ReassemblyEntry (re_first_packet x) (re_tail_packet x) (re_expires_at_us x) (re_packet_id x)
    (re_peer_epoch x) (re_type x) (re_traffic_class x) (re_packet_length x) (re_source_node_id x)
    (re_destination_node_id x) (re_peer_node_id x) (Z.lor (re_received_mask x) bit) (re_valid x).

Definition pool_op {A} (m : PM A) : RM A := zoom rr_pool set_pool m.

Definition entry_at (e : entry_ptr) : RM linkg_transport_reassembly_entry :=
  s ← get; of_option (rr_entries s !! e).

Definition entry_update (e : entry_ptr)
    (f : linkg_transport_reassembly_entry -> linkg_transport_reassembly_entry) : RM unit :=
  s ← get;
  match rr_entries s !! e with
  | Some x => modify (set_entries (<[e := f x]> (rr_entries s)))
  | None => stuck
  end.

Definition entry_of (set way : Z) : entry_ptr :=
  Z.to_nat (set * LINKG_TRANSPORT_REASSEMBLY_WAYS + way).

(** ** Internal helpers *)

Definition _linkg_transport_reassembly_peer_valid (peer_node_id : Z) : bool :=
  (LINKG_RESOURCE_NODE_ID_MIN <=? peer_node_id) && (peer_node_id <=? LINKG_RESOURCE_NODE_ID_MAX).

Definition _linkg_transport_reassembly_set (traffic_class peer_node_id peer_epoch : Z)
    (header : linkg_transport_header) (packet_id : Z) : Z :=
  let hash := u32 (packet_id * 0x85EBCA6B) in
  let hash := Z.lxor hash (u32 (th_source_node_id header * 0x9E3779B1)) in
  let hash := Z.lxor hash (u32 (th_destination_node_id header * 0xC2B2AE35)) in
  let hash := Z.lxor hash (u32 (th_type header * 0x27D4EB2F)) in
  let hash := Z.lxor hash (u32 (peer_node_id * 0x165667B1)) in
  let hash := Z.lxor hash (u32 (traffic_class * 0xD3A2646C)) in
  let hash := Z.lxor hash (u32 (peer_epoch * 0xA24BAED5)) in
  let hash := Z.lxor hash (Z.shiftr hash 16) in
  Z.land hash (LINKG_TRANSPORT_REASSEMBLY_SET_COUNT - 1).

Definition _linkg_transport_reassembly_match (entry : linkg_transport_reassembly_entry)
    (traffic_class peer_node_id peer_epoch : Z) (header : linkg_transport_header)
    (fragment_header : linkg_transport_fragment_header) : bool :=
  if negb (re_valid entry) then false
  else (re_traffic_class entry =? traffic_class) && (re_peer_node_id entry =? peer_node_id) &&
       (re_peer_epoch entry =? peer_epoch) && (re_source_node_id entry =? th_source_node_id header) &&
       (re_destination_node_id entry =? th_destination_node_id header) &&
       (re_type entry =? th_type header) && (re_packet_id entry =? fh_packet_id fragment_header).

Definition _linkg_transport_reassembly_expired (entry : linkg_transport_reassembly_entry)
    (now_us : Z) : bool :=
  re_valid entry && (re_expires_at_us entry <=? now_us).

Definition _linkg_transport_reassembly_entry_clear (mx : mutex_api) (entry : option entry_ptr) : RM unit :=
  match entry with
  | None => mret tt
  | Some e =>
      x ← entry_at e;
      when (negb (bool_decide (re_first_packet x = None)))
        (pool_op (linkg_packet_release mx (re_first_packet x))) ;;
      when (negb (bool_decide (re_tail_packet x = None)))
        (pool_op (linkg_packet_release mx (re_tail_packet x))) ;;
      entry_update e (fun _ => entry_zero)
  end.

Definition _linkg_transport_reassembly_record_reset (frames : Z) : RM unit :=
  if frames =? 0 then mret tt
  else modify (fun s => set_reset_frames (u64 (rr_reset_frames s + frames)) s).

(** [for set, for way]: the entries in array order. *)
Definition all_entries : list entry_ptr := nat_upto (LINKG_TRANSPORT_REASSEMBLY_SET_COUNT *
                                                      LINKG_TRANSPORT_REASSEMBLY_WAYS).

Definition _linkg_transport_reassembly_gc_locked (mx : mutex_api) (now_us : Z) : RM unit :=
  s ← get;
  if negb (rr_last_gc_us s =? 0) &&
     (u64 (now_us - rr_last_gc_us s) <? LINKG_TRANSPORT_REASSEMBLY_GC_INTERVAL_US)
  then mret tt
  else
    mfor all_entries (fun e =>
      x ← entry_at e;
      when (_linkg_transport_reassembly_expired x now_us)
        (_linkg_transport_reassembly_entry_clear mx (Some e))) ;;
    modify (set_last_gc now_us).

Definition _linkg_transport_reassembly_fragment_bit (fragment_offset : Z) : Z :=
  if fragment_offset =? 0 then LINKG_TRANSPORT_REASSEMBLY_FRAGMENT_FIRST
  else LINKG_TRANSPORT_REASSEMBLY_FRAGMENT_SECOND.

(** The second component is the length written through the out parameter. *)
Definition _linkg_transport_reassembly_fragment_length (fragment_offset packet_length : Z)
    (packet : option pkt_ptr) : RM (Z * option Z) :=
  match packet with
  | None => mret (- EINVAL, None)
  | Some i =>
      k ← pool_op (packet_at i);
      if bool_decide (pk_pool k = None) || bool_decide (pk_slot k = None) then mret (- EINVAL, None)
      else if (packet_length <=? LINKG_TRANSPORT_PAYLOAD_MAX_SIZE) ||
              (LINKG_TRANSPORT_PACKET_MAX_SIZE <? packet_length)
      then mret (- EPROTO, None)
      else if pk_data_length k <? LINKG_TRANSPORT_WIRE_HEADER_MAX_SIZE + 1 then mret (- EMSGSIZE, None)
      else
        let length := u32 (pk_data_length k - LINKG_TRANSPORT_WIRE_HEADER_MAX_SIZE) in
        if fragment_offset =? 0
        then if negb (length =? LINKG_TRANSPORT_FRAGMENT_PAYLOAD_MAX_SIZE)
             then mret (- EPROTO, None) else mret (0, Some length)
        else if negb (fragment_offset =? LINKG_TRANSPORT_FRAGMENT_PAYLOAD_MAX_SIZE) ||
                negb (length =? u32 (packet_length - LINKG_TRANSPORT_FRAGMENT_PAYLOAD_MAX_SIZE))
             then mret (- EPROTO, None) else mret (0, Some length)
  end.

(** ** Storing and joining fragments *)

(** Reading [packet->pool->slot_size]. *)
Definition packet_slot_size (k : linkg_packet) : RM Z :=
  pool_op (pool_deref (pk_pool k)) ;; gets (fun s => po_slot_size (rr_pool s)).

Definition _linkg_transport_reassembly_store_first (mx : mutex_api) (entry : option entry_ptr)
    (packet : option pkt_ptr) : RM Z :=
  match entry, packet with
  | Some e, Some i =>
      k ← pool_op (packet_at i);
      if bool_decide (pk_pool k = None) || bool_decide (pk_slot k = None) then mret (- EINVAL)
      else
        x ← entry_at e;
        r ← _linkg_transport_reassembly_fragment_length 0 (re_packet_length x) packet;
        if negb (fst r =? 0) then mret (fst r)
        else
          slot_size ← packet_slot_size k;
          if (slot_size <? pk_data_offset k) ||
             (u32 (slot_size - pk_data_offset k) <? LINKG_TRANSPORT_WIRE_HEADER_MAX_SIZE)
          then mret (- ENOBUFS)
          else
            let payload_offset := u32 (pk_data_offset k + LINKG_TRANSPORT_WIRE_HEADER_MAX_SIZE) in
            if u32 (slot_size - payload_offset) <? re_packet_length x then mret (- ENOBUFS)
            else
              pool_op (linkg_packet_retain packet) ;;
              data ← pool_op (linkg_packet_pull packet LINKG_TRANSPORT_WIRE_HEADER_MAX_SIZE);
              if bool_decide (data = None)
              then pool_op (linkg_packet_release mx packet) ;; mret (- EMSGSIZE)
              else
                k ← pool_op (packet_at i);
                if negb (bool_decide (Some (pk_data_length k) = snd r))
                then pool_op (linkg_packet_release mx packet) ;; mret (- EPROTO)
                else
                  entry_update e (fun x => entry_mask LINKG_TRANSPORT_REASSEMBLY_FRAGMENT_FIRST
                                             (entry_first packet x)) ;;
                  mret 0
  | _, _ => mret (- EINVAL)
  end.

Definition _linkg_transport_reassembly_store_tail (entry : option entry_ptr)
    (packet : option pkt_ptr) : RM Z :=
  match entry, packet with
  | Some e, Some _ =>
      x ← entry_at e;
      r ← _linkg_transport_reassembly_fragment_length
            (u16 LINKG_TRANSPORT_FRAGMENT_PAYLOAD_MAX_SIZE) (re_packet_length x) packet;
      if negb (fst r =? 0) then mret (fst r)
      else
        pool_op (linkg_packet_retain packet) ;;
        entry_update e (fun x => entry_mask LINKG_TRANSPORT_REASSEMBLY_FRAGMENT_SECOND
                                   (entry_tail packet x)) ;;
        mret 0
  | _, _ => mret (- EINVAL)
  end.

Definition _linkg_transport_reassembly_append_tail (entry : option entry_ptr)
    (tail_packet : option pkt_ptr) : RM Z :=
  match entry, tail_packet with
  | Some e, Some j =>
      x ← entry_at e;
      match re_first_packet x with
      | None => mret (- EINVAL)
      | Some i =>
          kt ← pool_op (packet_at j);
          if bool_decide (pk_pool kt = None) || bool_decide (pk_slot kt = None) then mret (- EINVAL)
          else
            kf ← pool_op (packet_at i);
            if bool_decide (pk_pool kf = None) || bool_decide (pk_slot kf = None) ||
               negb (pk_data_length kf =? LINKG_TRANSPORT_FRAGMENT_PAYLOAD_MAX_SIZE)
            then mret (- EPROTO)
            else
              r ← _linkg_transport_reassembly_fragment_length
                    (u16 LINKG_TRANSPORT_FRAGMENT_PAYLOAD_MAX_SIZE) (re_packet_length x) tail_packet;
              if negb (fst r =? 0) then mret (fst r)
              else
                slot_size ← packet_slot_size kf;
                if (slot_size <? pk_data_offset kf) ||
                   (u32 (slot_size - pk_data_offset kf) <? re_packet_length x)
                then mret (- ENOBUFS)
                else
                  source ← pool_op (linkg_packet_const_data j);
                  destination ← pool_op (linkg_packet_data i);
                  tail_length ← of_option (snd r);
                  pool_op (memcpy (destination + LINKG_TRANSPORT_FRAGMENT_PAYLOAD_MAX_SIZE)
                                  (source + LINKG_TRANSPORT_WIRE_HEADER_MAX_SIZE)
                                  (Z.to_nat tail_length)) ;;
                  pool_op (set_data_length i (re_packet_length x)) ;;
                  entry_update e (entry_mask LINKG_TRANSPORT_REASSEMBLY_FRAGMENT_SECOND) ;;
                  mret 0
      end
  | _, _ => mret (- EINVAL)
  end.

(** The entry after [create_entry]'s assignments. *)
Definition entry_new (traffic_class peer_node_id peer_epoch : Z) (header : linkg_transport_header)
    (fragment_header : linkg_transport_fragment_header) (now_us : Z)
    : linkg_transport_reassembly_entry :=
  ReassemblyEntry None None (u64 (now_us + LINKG_TRANSPORT_REASSEMBLY_TTL_US))
    (fh_packet_id fragment_header) peer_epoch (th_type header) traffic_class
    (fh_packet_length fragment_header) (th_source_node_id header) (th_destination_node_id header)
    peer_node_id 0 true.

Definition _linkg_transport_reassembly_create_entry_locked (mx : mutex_api) (entry : option entry_ptr)
    (traffic_class peer_node_id peer_epoch : Z) (header : option linkg_transport_header)
    (fragment_header : option linkg_transport_fragment_header) (packet : option pkt_ptr)
    (now_us : Z) : RM Z :=
  match entry, header, fragment_header, packet with
  | Some e, Some h, Some fh, Some _ =>
      r ← _linkg_transport_reassembly_fragment_length (fh_fragment_offset fh) (fh_packet_length fh) packet;
      if negb (fst r =? 0) then mret (fst r)
      else
        entry_update e (fun _ => entry_new traffic_class peer_node_id peer_epoch h fh now_us) ;;
        ret ← (if fh_fragment_offset fh =? 0
               then _linkg_transport_reassembly_store_first mx entry packet
               else _linkg_transport_reassembly_store_tail entry packet);
        if negb (ret =? 0)
        then _linkg_transport_reassembly_entry_clear mx entry ;; mret ret
        else mret 0
  | _, _, _, _ => mret (- EINVAL)
  end.

(** The second component is what is written through [completed_packet]. *)
Definition _linkg_transport_reassembly_complete (mx : mutex_api) (entry : option entry_ptr)
    : RM (Z * option pkt_ptr) :=
  match entry with
  | None => mret (- EINVAL, None)
  | Some e =>
      x ← entry_at e;
      match re_first_packet x with
      | None => mret (- EINVAL, None)
      | Some i =>
          if negb (re_received_mask x =? LINKG_TRANSPORT_REASSEMBLY_FRAGMENT_ALL)
          then mret (- EINVAL, None)
          else
            when (negb (bool_decide (re_tail_packet x = None)))
              (pool_op (linkg_packet_release mx (re_tail_packet x)) ;;
               entry_update e (entry_tail None)) ;;
            entry_update e (entry_first None) ;;
            x ← entry_at e;
            pool_op (set_data_length i (re_packet_length x)) ;;
            entry_update e (fun _ => entry_zero) ;;
            mret (1, Some i)
      end
  end.

(** ** Submission *)

(** The loop over the ways of a set: the matching entry, the first free entry
    and the valid entry that expires first. *)
Fixpoint scan_ways (mx : mutex_api) (set : Z) (ways : list Z) (traffic_class peer_node_id peer_epoch : Z)
    (header : linkg_transport_header) (fragment_header : linkg_transport_fragment_header) (now_us : Z)
    (free_entry oldest_entry : option entry_ptr)
    : RM (option entry_ptr * option entry_ptr * option entry_ptr) :=
  match ways with
  | [] => mret (None, free_entry, oldest_entry)
  | way :: ways' =>
      let candidate := entry_of set way in
      x ← entry_at candidate;
      when (_linkg_transport_reassembly_expired x now_us)
        (_linkg_transport_reassembly_entry_clear mx (Some candidate)) ;;
      x ← entry_at candidate;
      if _linkg_transport_reassembly_match x traffic_class peer_node_id peer_epoch header fragment_header
      then mret (Some candidate, free_entry, oldest_entry)
      else if negb (re_valid x)
      then scan_ways mx set ways' traffic_class peer_node_id peer_epoch header fragment_header now_us
             (match free_entry with None => Some candidate | _ => free_entry end) oldest_entry
      else
        older ← match oldest_entry with
                | None => mret true
                | Some o => y ← entry_at o; mret (re_expires_at_us x <? re_expires_at_us y)
                end;
        scan_ways mx set ways' traffic_class peer_node_id peer_epoch header fragment_header now_us
          free_entry (if (older : bool) then Some candidate else oldest_entry)
  end.

(** The part of [submit_locked] that joins a fragment to the entry it matches. *)
Definition merge_fragment (mx : mutex_api) (e : entry_ptr)
    (fh : linkg_transport_fragment_header) (packet : option pkt_ptr) : RM (Z * option pkt_ptr) :=
  let fail ret := _linkg_transport_reassembly_entry_clear mx (Some e) ;; mret (ret, None) in
  let fragment_bit := _linkg_transport_reassembly_fragment_bit (fh_fragment_offset fh) in
  x ← entry_at e;
  if negb (re_packet_length x =? fh_packet_length fh) then fail (- EPROTO)
  else if negb (Z.land (re_received_mask x) fragment_bit =? 0) then mret (0, None)
  else if negb (re_received_mask x =? u8 (Z.lxor LINKG_TRANSPORT_REASSEMBLY_FRAGMENT_ALL fragment_bit))
  then fail (- EPROTO)
  else if fh_fragment_offset fh =? 0 then
    if negb (bool_decide (re_first_packet x = None)) || bool_decide (re_tail_packet x = None)
    then fail (- EPROTO)
    else
      ret ← _linkg_transport_reassembly_store_first mx (Some e) packet;
      ret ← (if ret =? 0 then
               x ← entry_at e;
               _linkg_transport_reassembly_append_tail (Some e) (re_tail_packet x)
             else mret ret);
      if negb (ret =? 0) then fail ret
      else _linkg_transport_reassembly_complete mx (Some e)
  else
    if bool_decide (re_first_packet x = None) || negb (bool_decide (re_tail_packet x = None))
    then fail (- EPROTO)
    else
      ret ← _linkg_transport_reassembly_append_tail (Some e) packet;
      if negb (ret =? 0) then fail ret
      else _linkg_transport_reassembly_complete mx (Some e).

(** The second component is the value of [*completed_packet] on return; callers
    pass a cell holding NULL. *)
Definition _linkg_transport_reassembly_submit_locked (mx : mutex_api)
    (traffic_class peer_node_id peer_epoch : Z) (header : option linkg_transport_header)
    (fragment_header : option linkg_transport_fragment_header) (packet : option pkt_ptr) (now_us : Z)
    (completed_packet_null : bool) : RM (Z * option pkt_ptr) :=
  if negb (linkg_transport_class_valid traffic_class) ||
     negb (_linkg_transport_reassembly_peer_valid peer_node_id) || completed_packet_null
  then mret (- EINVAL, None)
  else match header, fragment_header, packet with
  | Some h, Some fh, Some _ =>
      if Z.land (th_flags h) LINKG_TRANSPORT_FLAG_FRAGMENT =? 0 then mret (- EINVAL, None)
      else
        r ← _linkg_transport_reassembly_fragment_length (fh_fragment_offset fh) (fh_packet_length fh) packet;
        if negb (fst r =? 0) then mret (fst r, None)
        else
          let set := _linkg_transport_reassembly_set traffic_class peer_node_id peer_epoch h (fh_packet_id fh) in
          found ← scan_ways mx set [0; 1] traffic_class peer_node_id peer_epoch h fh now_us None None;
          let '(entry, free_entry, oldest_entry) := found in
          match entry with
          | Some e => merge_fragment mx e fh packet
          | None =>
              match (match free_entry with Some f => Some f | None => oldest_entry end) with
              | None => mret (- ENOSPC, None)
              | Some n =>
                  x ← entry_at n;
                  when (re_valid x) (_linkg_transport_reassembly_entry_clear mx (Some n)) ;;
                  ret ← _linkg_transport_reassembly_create_entry_locked mx (Some n) traffic_class
                          peer_node_id peer_epoch header fragment_header packet now_us;
                  mret (ret, None)
              end
          end
  | _, _, _ => mret (- EINVAL, None)
  end.

(** ** Life cycle *)

Definition linkg_transport_reassembly_runtime_init (mx : mutex_api) : RM Z :=
  s ← get;
  if rr_initialized s then mret (- EALREADY)
  else
    modify runtime_zero ;;
    if negb (mtx_init mx =? 0) then modify runtime_zero ;; mret (- mtx_init mx)
    else modify (set_initialized true) ;; mret 0.

Definition linkg_transport_reassembly_runtime_deinit (mx : mutex_api) : RM Z :=
  s ← get;
  if negb (rr_initialized s) then mret 0
  else if negb (mtx_lock mx =? 0) then mret (- mtx_lock mx)
  else
    mfor all_entries (fun e => _linkg_transport_reassembly_entry_clear mx (Some e)) ;;
    modify (set_initialized false) ;;
    if negb (mtx_unlock mx =? 0) then modify (set_initialized true) ;; mret (- mtx_unlock mx)
    else if negb (mtx_destroy mx =? 0) then modify (set_initialized true) ;; mret (- mtx_destroy mx)
    else modify runtime_zero ;; mret 0.

(** The loop of [reset_peer]; the accumulator is [reset_frames]. *)
Fixpoint reset_entries (mx : mutex_api) (peer_node_id : Z) (es : list entry_ptr) (reset_frames : Z) : RM Z :=
  match es with
  | [] => mret reset_frames
  | e :: es' =>
      x ← entry_at e;
      if re_valid x && (re_peer_node_id x =? peer_node_id) then
        let n := if bool_decide (re_first_packet x = None) then reset_frames else u64 (reset_frames + 1) in
        let n := if bool_decide (re_tail_packet x = None) then n else u64 (n + 1) in
        _linkg_transport_reassembly_entry_clear mx (Some e) ;;
        reset_entries mx peer_node_id es' n
      else reset_entries mx peer_node_id es' reset_frames
  end.

Definition linkg_transport_reassembly_reset_peer (mx : mutex_api) (peer_node_id : Z) : RM Z :=
  if negb (_linkg_transport_reassembly_peer_valid peer_node_id) then mret (- EINVAL)
  else
    s ← get;
    if negb (rr_initialized s) then mret 0
    else if negb (mtx_lock mx =? 0) then mret (- mtx_lock mx)
    else
      reset_frames ← reset_entries mx peer_node_id all_entries 0;
      if negb (mtx_unlock mx =? 0) then mret (- mtx_unlock mx)
      else
        _linkg_transport_reassembly_record_reset reset_frames ;;
        mret 0.

(** ** Batch submission *)

Definition item_result (result : Z) (completed : option pkt_ptr)
    (it : linkg_transport_reassembly_submit_item) : linkg_transport_reassembly_submit_item :=
  ReassemblyItem (ri_header it) (ri_fragment_header it) (ri_packet it) completed (ri_peer it)
    (ri_peer_epoch it) (ri_traffic_class it) result (ri_peer_node_id it).

(** One iteration of the batch loop. The peer epochs are atomics other threads
    write: [epochs] are their values when this item is examined. *)
Definition submit_item (mx : mutex_api) (epochs : list Z) (now_us : Z)
    (it : linkg_transport_reassembly_submit_item) : RM linkg_transport_reassembly_submit_item :=
  match ri_peer it with
  | None => mret (item_result (- EINVAL) (ri_completed_packet it) it)
  | Some _ =>
      if negb (linkg_transport_peer_epoch_matches epochs (ri_peer it) (ri_peer_epoch it))
      then mret (item_result (- ESTALE) (ri_completed_packet it) it)
      else
        r ← _linkg_transport_reassembly_submit_locked mx (ri_traffic_class it) (ri_peer_node_id it)
              (ri_peer_epoch it) (ri_header it) (ri_fragment_header it) (ri_packet it) now_us false;
        mret (item_result (fst r) (snd r) it)
  end.

Fixpoint submit_items (mx : mutex_api) (epochs : nat -> list Z) (index : nat) (now_us : Z)
    (items : list linkg_transport_reassembly_submit_item)
    : RM (list linkg_transport_reassembly_submit_item) :=
  match items with
  | [] => mret []
  | it :: items' =>
      it' ← submit_item mx (epochs index) now_us it;
      items'' ← submit_items mx epochs (S index) now_us items';
      mret (it' :: items'')
  end.

(** The result and the updated array; [now_us] is [linkg_time_elapsed_us()],
    [epochs i] the peer epochs while item [i] is examined. *)
Definition linkg_transport_reassembly_submit_batch (mx : mutex_api) (epochs : nat -> list Z)
    (now_us : Z) (items : option (list linkg_transport_reassembly_submit_item)) (count : Z)
    : RM (Z * option (list linkg_transport_reassembly_submit_item)) :=
  match items with
  | None => mret (- EINVAL, None)
  | Some its =>
      if count =? 0 then mret (- EINVAL, items)
      else
        s ← get;
        if negb (rr_initialized s) then mret (- ENODEV, items)
        else
          assert_ (count <=? Z.of_nat (length its)) ;;
          let n := Z.to_nat count in
          let batch := item_result (- EINPROGRESS) None <$> take n its in
          if negb (mtx_lock mx =? 0) then mret (- mtx_lock mx, Some (batch ++ drop n its))
          else
            _linkg_transport_reassembly_gc_locked mx now_us ;;
            batch' ← submit_items mx epochs 0 now_us batch;
            mret (if mtx_unlock mx =? 0 then 0 else - mtx_unlock mx, Some (batch' ++ drop n its))
  end.

(** ** Invariant

    An entry is free, holds the first fragment (already stripped of its headers,
    with room for the tail), or holds the complete frame of the tail. *)

Definition held_entry (x : linkg_transport_reassembly_entry) (j : nat) : Z :=
  held_opt (re_first_packet x) j + held_opt (re_tail_packet x) j.

Definition held (s : linkg_transport_reassembly_runtime) (j : nat) : Z :=
  sumZ (fun x => held_entry x j) (rr_entries s).

Inductive entry_ok (p : linkg_packet_pool) (x : linkg_transport_reassembly_entry) : Prop :=
| ok_free :
    re_valid x = false -> re_first_packet x = None -> re_tail_packet x = None -> entry_ok p x
| ok_first i o :
    re_valid x = true -> LINKG_TRANSPORT_PAYLOAD_MAX_SIZE < re_packet_length x <= LINKG_TRANSPORT_PACKET_MAX_SIZE ->
    re_first_packet x = Some i -> re_tail_packet x = None -> re_received_mask x = 1 ->
    window_of p i = Some (o, LINKG_TRANSPORT_FRAGMENT_PAYLOAD_MAX_SIZE) ->
    o + re_packet_length x <= po_slot_size p -> entry_ok p x
| ok_tail i o :
    re_valid x = true -> LINKG_TRANSPORT_PAYLOAD_MAX_SIZE < re_packet_length x <= LINKG_TRANSPORT_PACKET_MAX_SIZE ->
    re_first_packet x = None -> re_tail_packet x = Some i -> re_received_mask x = 2 ->
    window_of p i = Some (o, re_packet_length x - LINKG_TRANSPORT_FRAGMENT_PAYLOAD_MAX_SIZE
                             + LINKG_TRANSPORT_WIRE_HEADER_MAX_SIZE) ->
    entry_ok p x.

Record reassembly_wf (s : linkg_transport_reassembly_runtime) : Prop := {
  rw_pool : pool_wf (rr_pool s);
  rw_len : length (rr_entries s) = entry_count;
  rw_entries : forall e x, rr_entries s !! e = Some x -> entry_ok (rr_pool s) x;
  rw_once : forall j, held s j <= 1;
  rw_refs : forall j, held s j <= refs (rr_pool s) j }.

Lemma held_entry_nonneg x j : 0 <= held_entry x j.
Proof.
  unfold held_entry. pose proof (held_opt_range (re_first_packet x) j).
  pose proof (held_opt_range (re_tail_packet x) j). lia.
Qed.

Lemma held_nonneg s j : 0 <= held s j.
Proof. apply sumZ_nonneg. intros. apply held_entry_nonneg. Qed.

Lemma held_entry_le s e x j : rr_entries s !! e = Some x -> held_entry x j <= held s j.
Proof.
  intros H. apply (sumZ_lookup_le (fun x => held_entry x j) _ e x); [|done].
  intros. apply held_entry_nonneg.
Qed.

Lemma held_update s e x y j :
  rr_entries s !! e = Some x ->
  held (set_entries (<[e := y]> (rr_entries s)) s) j = held s j - held_entry x j + held_entry y j.
Proof. intros H. unfold held. cbn. by rewrite (sumZ_insert _ _ _ _ x). Qed.

(** What two different entries hold adds up. *)
Lemma held_two s e1 e2 x y j :
  e1 <> e2 -> rr_entries s !! e1 = Some x -> rr_entries s !! e2 = Some y ->
  held_entry x j + held_entry y j <= held s j.
Proof.
  intros Hne H1 H2. pose proof (held_update s e1 x entry_zero j H1) as Hu.
  pose proof (held_entry_le (set_entries (<[e1 := entry_zero]> (rr_entries s)) s) e2 y j) as Hl.
  cbn [rr_entries set_entries] in Hl. rewrite list_lookup_insert_ne in Hl by done. specialize (Hl H2).
  assert (held_entry entry_zero j = 0) by done. lia.
Qed.

Lemma entry_ok_rel T p p' x :
  pool_rel T p p' ->
  (forall j, 0 < held_entry x j -> ~ T j /\ 0 < refs p' j) -> entry_ok p x -> entry_ok p' x.
Proof.
  intros R H [|i o|i o].
  - by constructor 1.
  - destruct (H i) as [HT Hr].
    { unfold held_entry. rewrite H2, H3. cbn. rewrite one_ref_same. lia. }
    apply (ok_first p' x i o); try done; [by rewrite (pr_window _ _ _ R)|by rewrite (pr_size _ _ _ R)].
  - destruct (H i) as [HT Hr].
    { unfold held_entry. rewrite H2, H3. cbn. rewrite one_ref_same. lia. }
    apply (ok_tail p' x i o); try done. by rewrite (pr_window _ _ _ R).
Qed.

(** References of packet [j] that belong to someone other than the cache. *)
Definition own (s : linkg_transport_reassembly_runtime) (j : nat) : Z := refs (rr_pool s) j - held s j.

Lemma own_nonneg s j : reassembly_wf s -> 0 <= own s j.
Proof. intros W. pose proof (rw_refs _ W j). unfold own. lia. Qed.

(** ** Abstract cache

    The identity of a datagram and the half of it that has arrived; expired
    entries count as absent. *)

Record fragment_key := FragmentKey {
  key_traffic_class : Z;
  key_peer_node_id : Z;
  key_peer_epoch : Z;
  key_source_node_id : Z;
  key_destination_node_id : Z;
  key_type : Z;
  key_packet_id : Z }.

#[export] Instance fragment_key_eq_dec : EqDecision fragment_key.
Proof. solve_decision. Defined.

Inductive half :=
| HalfFirst (bytes : list Z)
| HalfTail (bytes : list Z).

Record pending := Pending {
  pd_key : fragment_key;
  pd_length : Z;
  pd_expires : Z;
  pd_half : half }.

Definition entry_key (x : linkg_transport_reassembly_entry) : fragment_key :=
  FragmentKey (re_traffic_class x) (re_peer_node_id x) (re_peer_epoch x) (re_source_node_id x)
    (re_destination_node_id x) (re_type x) (re_packet_id x).

Definition submit_key (traffic_class peer_node_id peer_epoch : Z) (h : linkg_transport_header)
    (fh : linkg_transport_fragment_header) : fragment_key :=
  FragmentKey traffic_class peer_node_id peer_epoch (th_source_node_id h) (th_destination_node_id h)
    (th_type h) (fh_packet_id fh).

Definition entry_half (p : linkg_packet_pool) (x : linkg_transport_reassembly_entry) : half :=
  match re_first_packet x, re_tail_packet x with
  | Some i, _ => HalfFirst (payload p i)
  | None, Some j => HalfTail (drop (Z.to_nat LINKG_TRANSPORT_WIRE_HEADER_MAX_SIZE) (payload p j))
  | None, None => HalfTail []
  end.

Definition abs_entry (p : linkg_packet_pool) (now_us : Z) (x : linkg_transport_reassembly_entry)
    : option pending :=
  if re_valid x && negb (_linkg_transport_reassembly_expired x now_us)
  then Some (Pending (entry_key x) (re_packet_length x) (re_expires_at_us x) (entry_half p x))
  else None.

Definition abs_cache (now_us : Z) (s : linkg_transport_reassembly_runtime) : list (option pending) :=
  abs_entry (rr_pool s) now_us <$> rr_entries s.

Lemma match_key x c n ep h fh :
  _linkg_transport_reassembly_match x c n ep h fh =
  re_valid x && bool_decide (entry_key x = submit_key c n ep h fh).
Proof.
  unfold _linkg_transport_reassembly_match. destruct (re_valid x); [|done]. cbn [negb andb].
  unfold entry_key, submit_key. symmetry.
  destruct (_ && _)%bool eqn:E.
  - apply bool_decide_eq_true. zb. congruence.
  - apply bool_decide_eq_false. intros [=]. revert E.
    repeat match goal with H : _ = _ |- _ => rewrite H; clear H end. by rewrite !Z.eqb_refl.
Qed.

(** ** One entry and the pool change *)

Definition next (s : linkg_transport_reassembly_runtime) (p : linkg_packet_pool) (e : entry_ptr)
    (y : linkg_transport_reassembly_entry) : linkg_transport_reassembly_runtime :=
  ReassemblyRuntime p (<[e := y]> (rr_entries s)) (rr_last_gc_us s) (rr_initialized s) (rr_reset_frames s).

Lemma held_next s p e x y j :
  rr_entries s !! e = Some x -> held (next s p e y) j = held s j - held_entry x j + held_entry y j.
Proof. intros H. unfold held. cbn. by rewrite (sumZ_insert _ _ _ _ x). Qed.

Lemma next_spec s p' e x y (T : nat -> Prop) (d : nat -> Z) :
  reassembly_wf s -> rr_entries s !! e = Some x -> pool_rel T (rr_pool s) p' -> entry_ok p' y ->
  (forall j, T j -> held s j = held_entry x j) ->
  (forall j, held s j - held_entry x j + held_entry y j <= 1) ->
  (forall j, refs p' j - held_entry y j = refs (rr_pool s) j - held_entry x j + d j) ->
  (forall j, 0 <= own s j + d j) ->
  reassembly_wf (next s p' e y) /\ (forall j, own (next s p' e y) j = own s j + d j) /\
  forall now, abs_cache now (next s p' e y) = <[e := abs_entry p' now y]> (abs_cache now s).
Proof.
  intros W Hx R Hy HT H1 Hd Hp. pose proof (lookup_lt_Some _ _ _ Hx) as Hlt.
  assert (forall j, own (next s p' e y) j = own s j + d j) as Ho.
  { intros j. unfold own. rewrite (held_next _ _ _ x) by done. cbn [rr_pool next]. specialize (Hd j). lia. }
  assert (forall e' z, e' <> e -> rr_entries s !! e' = Some z ->
    forall j, 0 < held_entry z j -> ~ T j /\ 0 < refs p' j) as Hz.
  { intros e' z Hne Hz j Hj. pose proof (held_two s e' e z x j Hne Hz Hx) as H2. split.
    - intros Ht. specialize (HT j Ht). lia.
    - specialize (Hd j). specialize (Hp j). pose proof (held_entry_nonneg y j). unfold own in Hp. lia. }
  splits; [|done|].
  - split; cbn [rr_pool rr_entries next].
    + apply (pr_wf _ _ _ R).
    + rewrite length_insert. apply W.
    + intros e' z. rewrite lookup_insert_case by done. case_decide as E; [by intros [=<-]|].
      intros Hez. apply (entry_ok_rel T (rr_pool s) p' z R); [|by apply (rw_entries _ W e')].
      by apply (Hz e').
    + intros j. rewrite (held_next _ _ _ x) by done. auto.
    + intros j. specialize (Ho j). specialize (Hp j). unfold own in *. cbn [rr_pool next] in Ho. lia.
  - intros now. unfold abs_cache. cbn [rr_pool rr_entries next].
    apply list_eq. intros e'. rewrite list_lookup_fmap.
    rewrite !lookup_insert_case by (rewrite ?length_fmap; done).
    case_decide as E; [done|]. rewrite list_lookup_fmap.
    destruct (rr_entries s !! e') as [z|] eqn:Ez; [|done]. cbn. f_equal.
    unfold abs_entry. destruct (_ && _)%bool; [|done]. do 2 f_equal.
    pose proof (Hz e' z ltac:(done) Ez) as Hz'. unfold held_entry in Hz'.
    unfold entry_half. destruct (re_first_packet z) as [i|] eqn:Ef.
    + destruct (Hz' i). { cbn. rewrite one_ref_same. pose proof (held_opt_range (re_tail_packet z) i). lia. }
      f_equal. by apply (pr_payload _ _ _ R).
    + destruct (re_tail_packet z) as [i|]; [|done].
      destruct (Hz' i). { cbn. rewrite one_ref_same. lia. }
      do 2 f_equal. by apply (pr_payload _ _ _ R).
Qed.

Lemma entry_at_eq s e x : rr_entries s !! e = Some x -> entry_at e s = Some (x, s).
Proof. intros H. unfold entry_at. mrun. by rewrite H. Qed.

Lemma entry_update_eq s e x f :
  rr_entries s !! e = Some x -> entry_update e f s = Some (tt, set_entries (<[e := f x]> (rr_entries s)) s).
Proof. intros H. unfold entry_update. mrun. by rewrite H. Qed.

Lemma pool_op_eq {A} (m : PM A) s (a : A) p' :
  m (rr_pool s) = Some (a, p') -> pool_op m s = Some (a, set_pool p' s).
Proof. apply zoom_run. Qed.

Section Cache.
Context (mx : mutex_api) (Hmx : mutex_ok mx).

(** [if (p != NULL) linkg_packet_release(p)]. *)
Lemma release_when s o :
  pool_wf (rr_pool s) -> (forall j, held_opt o j <= refs (rr_pool s) j) ->
  exists p', when (negb (bool_decide (o = None))) (pool_op (linkg_packet_release mx o)) s =
      Some (tt, set_pool p' s) /\
    pool_rel untouched (rr_pool s) p' /\ (forall j, refs p' j = refs (rr_pool s) j - held_opt o j).
Proof.
  intros Hw Hh. destruct o as [i|].
  - specialize (Hh i). cbn in Hh. rewrite one_ref_same in Hh.
    destruct (release_rel mx (rr_pool s) i Hmx Hw ltac:(lia)) as (p'&E&R&Hr).
    exists p'. rewrite bool_decide_false by done. cbn [negb when]. splits; [by apply pool_op_eq|done|done].
  - exists (rr_pool s). rewrite bool_decide_true by done. cbn. splits; [by destruct s|by apply pool_rel_refl|].
    intros. lia.
Qed.

Lemma entry_clear_run s e x :
  rr_entries s !! e = Some x -> pool_wf (rr_pool s) ->
  (forall j, held_entry x j <= refs (rr_pool s) j) ->
  exists p', _linkg_transport_reassembly_entry_clear mx (Some e) s = Some (tt, next s p' e entry_zero) /\
    pool_rel untouched (rr_pool s) p' /\ (forall j, refs p' j = refs (rr_pool s) j - held_entry x j).
Proof.
  intros Hx Hw Hh. unfold held_entry in *.
  destruct (release_when s (re_first_packet x) Hw) as (p1&E1&R1&H1).
  { intros j. specialize (Hh j). pose proof (held_opt_range (re_tail_packet x) j). lia. }
  destruct (release_when (set_pool p1 s) (re_tail_packet x)) as (p2&E2&R2&H2).
  { apply (pr_wf _ _ _ R1). }
  { intros j. cbn. rewrite H1. specialize (Hh j). lia. }
  exists p2. splits.
  - unfold _linkg_transport_reassembly_entry_clear. mstep (entry_at_eq s e x Hx). mstep E1. mstep E2.
    rewrite (entry_update_eq _ e x) by exact Hx. done.
  - by eapply pool_rel_trans.
  - intros j. rewrite H2. cbn. rewrite H1. lia.
Qed.

Lemma held_entry_zero j : held_entry entry_zero j = 0.
Proof. done. Qed.

Lemma entry_zero_ok p : entry_ok p entry_zero.
Proof. by constructor 1. Qed.

Lemma entry_covered s e x :
  reassembly_wf s -> rr_entries s !! e = Some x -> forall j, held_entry x j <= refs (rr_pool s) j.
Proof.
  intros W Hx j. pose proof (held_entry_le s e x j Hx). pose proof (rw_refs _ W j). lia.
Qed.

Lemma entry_clear_spec s e x :
  reassembly_wf s -> rr_entries s !! e = Some x ->
  exists p', _linkg_transport_reassembly_entry_clear mx (Some e) s = Some (tt, next s p' e entry_zero) /\
    reassembly_wf (next s p' e entry_zero) /\ pool_rel untouched (rr_pool s) p' /\
    (forall j, own (next s p' e entry_zero) j = own s j) /\
    forall now, abs_cache now (next s p' e entry_zero) = <[e := None]> (abs_cache now s).
Proof.
  intros W Hx. destruct (entry_clear_run s e x Hx (rw_pool _ W) (entry_covered s e x W Hx)) as (p'&E&R&Hr).
  destruct (next_spec s p' e x entry_zero untouched (fun _ => 0) W Hx R (entry_zero_ok _)) as (W'&Ho&Ha).
  - done.
  - intros j. rewrite held_entry_zero. pose proof (rw_once _ W j). pose proof (held_entry_nonneg x j). lia.
  - intros j. rewrite held_entry_zero, Hr. lia.
  - intros j. pose proof (own_nonneg s j W). lia.
  - exists p'. splits; [done..| |done]. intros j. rewrite Ho. lia.
Qed.

(** ** Fragment lengths *)

(** The error [fragment_length] reports for a packet of [n] bytes. *)
Definition fragment_error (offset len n : Z) : Z :=
  if (len <=? 1428) || (1500 <? len) then - EPROTO
  else if n <? 25 then - EMSGSIZE
  else if offset =? 0 then (if n - 24 =? 1420 then 0 else - EPROTO)
  else if (offset =? 1420) && (n - 24 =? len - 1420) then 0 else - EPROTO.

Lemma live_home p i k :
  pool_wf p -> packet_of p i = Some k ->
  pk_pool k = Some (po_addr p) /\ bool_decide (pk_pool k = None) = false /\
  bool_decide (pk_slot k = None) = false.
Proof.
  intros Hw Hk. destruct (live_wf p i k Hw Hk) as (W&_).
  rewrite (kwf_slot _ _ _ W), (kwf_pool _ _ _ W). by rewrite !bool_decide_false.
Qed.

Lemma fragment_length_run s offset len i k :
  pool_wf (rr_pool s) -> packet_of (rr_pool s) i = Some k -> 0 <= len < 2 ^ 16 ->
  exists r, _linkg_transport_reassembly_fragment_length offset len (Some i) s = Some (r, s) /\
    fst r = fragment_error offset len (pk_data_length k) /\
    (fst r = 0 -> snd r = Some (pk_data_length k - 24)).
Proof.
  intros Hw Hk Hl. destruct (live_home _ i k Hw Hk) as (_&E1&E2).
  destruct (live_wf _ i k Hw Hk) as (_&(?&?&?&?)&_).
  unfold _linkg_transport_reassembly_fragment_length, fragment_error.
  rewrite (bind_step _ _ s k (set_pool (rr_pool s) s)) by by apply pool_op_eq, packet_at_eq.
  replace (set_pool (rr_pool s) s) with s by by destruct s. rewrite E1, E2. cbn [orb].
  change LINKG_TRANSPORT_PAYLOAD_MAX_SIZE with 1428. change LINKG_TRANSPORT_PACKET_MAX_SIZE with 1500.
  change LINKG_TRANSPORT_FRAGMENT_PAYLOAD_MAX_SIZE with 1420.
  change (LINKG_TRANSPORT_WIRE_HEADER_MAX_SIZE + 1) with 25.
  change LINKG_TRANSPORT_WIRE_HEADER_MAX_SIZE with 24.
  destruct (_ || _)%bool eqn:El; [by eexists|]. zb. destruct (_ <? 25) eqn:En; [by eexists|]. zb.
  cbn zeta. rewrite !wrap_small by mlia.
  destruct (offset =? 0).
  - destruct (_ =? 1420); cbn [negb]; by eexists.
  - destruct (offset =? 1420), (_ =? len - 1420); cbn [negb orb andb]; by eexists.
Qed.

Lemma fragment_error_first len n :
  fragment_error 0 len n = 0 -> 1428 < len <= 1500 /\ n = 1444.
Proof.
  unfold fragment_error. destruct (_ || _)%bool eqn:E; [discriminate|]. destruct (n <? 25) eqn:E2; [discriminate|].
  cbn [Z.eqb]. destruct (_ =? 1420) eqn:E3; [|discriminate]. zb. lia.
Qed.

Lemma fragment_error_tail offset len n :
  fragment_error offset len n = 0 -> offset <> 0 ->
  1428 < len <= 1500 /\ offset = 1420 /\ n = len - 1420 + 24.
Proof.
  unfold fragment_error. destruct (_ || _)%bool eqn:E; [discriminate|]. destruct (n <? 25) eqn:E2; [discriminate|].
  intros H Ho. destruct (offset =? 0) eqn:E4; zb; [lia|]. destruct (_ && _)%bool eqn:E3; [|discriminate]. zb. lia.
Qed.

(** ** Storing a fragment *)

Lemma packet_slot_size_eq s k :
  pk_pool k = Some (po_addr (rr_pool s)) -> packet_slot_size k s = Some (po_slot_size (rr_pool s), s).
Proof.
  intros Hk. unfold packet_slot_size. rewrite Hk.
  rewrite (bind_step _ _ s tt (set_pool (rr_pool s) s)) by by apply pool_op_eq, pool_deref_eq.
  by destruct s.
Qed.

Lemma pool_read_eq {A} (m : PM A) s (a : A) :
  m (rr_pool s) = Some (a, rr_pool s) -> pool_op m s = Some (a, s).
Proof. intros H. rewrite (pool_op_eq m s a _ H). by destruct s. Qed.

(** The room [store_first] asks for. *)
Definition first_room (p : linkg_packet_pool) (i : pkt_ptr) (len : Z) : bool :=
  match window_of p i with
  | Some (o, _) => o + LINKG_TRANSPORT_WIRE_HEADER_MAX_SIZE + len <=? po_slot_size p
  | None => false
  end.

Lemma store_first_run s e x i k :
  pool_wf (rr_pool s) -> rr_entries s !! e = Some x -> packet_of (rr_pool s) i = Some k ->
  0 < refs (rr_pool s) i < 2 ^ 32 - 1 -> 1428 < re_packet_length x <= 1500 -> pk_data_length k = 1444 ->
  (first_room (rr_pool s) i (re_packet_length x) = false /\
   _linkg_transport_reassembly_store_first mx (Some e) (Some i) s = Some (- ENOBUFS, s)) \/
  (first_room (rr_pool s) i (re_packet_length x) = true /\
   exists p', _linkg_transport_reassembly_store_first mx (Some e) (Some i) s =
      Some (0, next s p' e (entry_mask 1 (entry_first (Some i) x))) /\
    pool_rel (eq i) (rr_pool s) p' /\
    (forall j, refs p' j = refs (rr_pool s) j + one_ref i j) /\
    window_of p' i = Some (pk_data_offset k + 24, 1420) /\
    payload p' i = drop 24 (payload (rr_pool s) i)).
Proof.
  intros Hw Hx Hk Hr Hlen Hn. destruct (live_home _ i k Hw Hk) as (Eh&E1&E2).
  destruct (live_wf _ i k Hw Hk) as (_&(?&?&?&?)&_).
  assert (first_room (rr_pool s) i (re_packet_length x) =
          (pk_data_offset k + 24 + re_packet_length x <=? po_slot_size (rr_pool s))) as ->.
  { unfold first_room. by rewrite (live_window _ i k Hk). }
  destruct (fragment_length_run s 0 (re_packet_length x) i k Hw Hk ltac:(mlia)) as (r&Er&Er0&Er1).
  assert (fst r = 0) as F0.
  { rewrite Er0, Hn. unfold fragment_error. by bsimp. }
  unfold _linkg_transport_reassembly_store_first.
  mstep (pool_read_eq (packet_at i) s k (packet_at_eq _ _ _ Hk)). rewrite E1, E2. cbn [orb].
  mstep (entry_at_eq s e x Hx). mstep Er. rewrite F0, (Er1 F0), Hn. cbn [Z.eqb negb].
  mstep (packet_slot_size_eq s k Eh).
  unfold LINKG_TRANSPORT_WIRE_HEADER_MAX_SIZE. rewrite !wrap_small by mlia. bsimp.
  destruct (pk_data_offset k + 24 + re_packet_length x <=? po_slot_size (rr_pool s)) eqn:Eroom; zb; [right|left].
  2: { split; [done|]. by bsimp. }
  split; [done|]. bsimp.
  destruct (retain_rel (rr_pool s) i Hw Hr) as (p1&Er'&R1&HR1&K1).
  destruct (K1 k Hk) as (n&K1').
  assert (live p1 i (set_refcount n k)) as L1.
  { split; [apply (pr_wf _ _ _ R1)|]. split; [|done]. rewrite HR1, one_ref_same. lia. }
  destruct (pull_spec p1 i _ 24 L1) as (p2&E3&L2&S2&R2&P2); [cbn; lia|].
  mstep (pool_op_eq (linkg_packet_retain (Some i)) s tt p1 Er').
  mstep (pool_op_eq (linkg_packet_pull (Some i) 24) (set_pool p1 s) _ p2 E3).
  rewrite bool_decide_false by done. destruct L2 as (W2&_&K2).
  mstep (pool_read_eq (packet_at i) (set_pool p2 (set_pool p1 s)) _ (packet_at_eq _ _ _ K2)).
  cbn [pk_data_length set_window set_refcount]. rewrite Hn. rewrite bool_decide_true by done. cbn [negb].
  exists p2. splits.
  - unfold mbind, M_bind. rewrite (entry_update_eq _ e x) by exact Hx. done.
  - apply (pool_rel_trans _ _ p1).
    + apply (pool_rel_weaken untouched); [done|exact R1].
    + apply local_change_rel; [done|]. by apply same_except_local.
  - intros j. destruct (decide (j = i)) as [->|Hj].
    + rewrite R2. apply HR1.
    + rewrite (same_except_refs i p1 p2) by done. apply HR1.
  - rewrite (live_window _ _ _ K2). cbn. by rewrite Hn.
  - rewrite P2. change (Z.to_nat 24) with 24%nat. f_equal. apply (pr_payload _ _ _ R1); [auto|].
    rewrite HR1, one_ref_same. lia.
Qed.

Lemma store_tail_run s e x i k :
  pool_wf (rr_pool s) -> rr_entries s !! e = Some x -> packet_of (rr_pool s) i = Some k ->
  0 < refs (rr_pool s) i < 2 ^ 32 - 1 -> 1428 < re_packet_length x <= 1500 ->
  pk_data_length k = re_packet_length x - 1420 + 24 ->
  exists p', _linkg_transport_reassembly_store_tail (Some e) (Some i) s =
      Some (0, next s p' e (entry_mask 2 (entry_tail (Some i) x))) /\
    pool_rel untouched (rr_pool s) p' /\
    (forall j, refs p' j = refs (rr_pool s) j + one_ref i j).
Proof.
  intros Hw Hx Hk Hr Hlen Hn.
  destruct (fragment_length_run s (u16 LINKG_TRANSPORT_FRAGMENT_PAYLOAD_MAX_SIZE) (re_packet_length x)
    i k Hw Hk ltac:(mlia)) as (r&Er&Er0&Er1).
  assert (fst r = 0) as F0.
  { rewrite Er0, Hn. unfold fragment_error.
    change (u16 LINKG_TRANSPORT_FRAGMENT_PAYLOAD_MAX_SIZE) with 1420. by bsimp. }
  destruct (retain_rel (rr_pool s) i Hw Hr) as (p1&Er'&R1&HR1&_).
  exists p1. splits; [|done..].
  unfold _linkg_transport_reassembly_store_tail. mstep (entry_at_eq s e x Hx). mstep Er.
  rewrite F0. cbn [Z.eqb negb]. mstep (pool_op_eq (linkg_packet_retain (Some i)) s tt p1 Er').
  unfold mbind, M_bind. rewrite (entry_update_eq _ e x) by exact Hx. done.
Qed.

(** ** Joining and completing *)

Lemma append_tail_run s e x i j k kj :
  pool_wf (rr_pool s) -> rr_entries s !! e = Some x -> re_first_packet x = Some i -> i <> j ->
  live (rr_pool s) i k -> live (rr_pool s) j kj ->
  pk_data_length k = 1420 -> 1428 < re_packet_length x <= 1500 ->
  pk_data_offset k + re_packet_length x <= po_slot_size (rr_pool s) ->
  pk_data_length kj = re_packet_length x - 1420 + 24 ->
  exists p', _linkg_transport_reassembly_append_tail (Some e) (Some j) s =
      Some (0, next s p' e (entry_mask 2 x)) /\
    live p' i (set_window (pk_data_offset k) (re_packet_length x) k) /\
    pool_rel (eq i) (rr_pool s) p' /\
    (forall j, refs p' j = refs (rr_pool s) j) /\
    payload p' i = payload (rr_pool s) i ++ drop 24 (payload (rr_pool s) j).
Proof.
  intros Hw Hx Hf Hij Li Lj Hk Hlen Hroom Hkj. pose proof Li as (_&Hri&Hi). pose proof Lj as (_&Hrj&Hj).
  destruct (live_home _ i k Hw Hi) as (Eh&E1&E2). destruct (live_home _ j kj Hw Hj) as (_&E3&E4).
  destruct (live_wf _ i k Hw Hi) as (_&(?&?&?&?)&_). destruct (live_wf _ j kj Hw Hj) as (_&(?&?&?&?)&_).
  destruct (fragment_length_run s (u16 LINKG_TRANSPORT_FRAGMENT_PAYLOAD_MAX_SIZE) (re_packet_length x)
    j kj Hw Hj ltac:(mlia)) as (r&Er&Er0&Er1).
  assert (fst r = 0) as F0.
  { rewrite Er0, Hkj. unfold fragment_error.
    change (u16 LINKG_TRANSPORT_FRAGMENT_PAYLOAD_MAX_SIZE) with 1420. by bsimp. }
  set (tail := drop 24 (payload (rr_pool s) j)).
  assert (Z.of_nat (length tail) = re_packet_length x - 1420) as Lt.
  { unfold tail. rewrite length_drop, (length_payload _ j kj) by done. lia. }
  assert (data_load (slot_base (rr_pool s) j + pk_data_offset kj + 24)
            (Z.to_nat (re_packet_length x - 1420 + 24 - 24)) (rr_pool s) = Some (tail, rr_pool s)) as Eload.
  { pose proof (load_payload (rr_pool s) j kj 24 (Z.to_nat (re_packet_length x - 1420 + 24 - 24)) Hw Hj
      ltac:(lia)) as E. change (Z.of_nat 24) with 24 in E. rewrite E. fold tail.
    by rewrite take_ge by lia. }
  destruct (append_spec (rr_pool s) i k tail Li) as (p1&p'&Es&Eset&L'&C'&P'); [lia|].
  replace (pk_data_length k + Z.of_nat (length tail)) with (re_packet_length x) in * by lia.
  exists p'. splits; [|done| |by intros; apply (local_change_refs i)|done].
  2: { apply local_change_rel; [|done]. by destruct L'. }
  unfold _linkg_transport_reassembly_append_tail. mstep (entry_at_eq s e x Hx). rewrite Hf.
  mstep (pool_read_eq (packet_at j) s kj (packet_at_eq _ _ _ Hj)). rewrite E3, E4. cbn [orb].
  mstep (pool_read_eq (packet_at i) s k (packet_at_eq _ _ _ Hi)). rewrite E1, E2, Hk.
  change LINKG_TRANSPORT_FRAGMENT_PAYLOAD_MAX_SIZE with 1420 in *. cbn [orb Z.eqb Pos.eqb negb].
  mstep Er. rewrite F0, (Er1 F0). cbn [Z.eqb negb]. mstep (packet_slot_size_eq s k Eh).
  rewrite wrap_small by mlia. bsimp.
  mstep (pool_read_eq (linkg_packet_const_data j) s _ (packet_data_eq _ j kj Hw Hj)).
  mstep (pool_read_eq (linkg_packet_data i) s _ (packet_data_eq _ i k Hw Hi)).
  rewrite Hkj. unfold LINKG_TRANSPORT_WIRE_HEADER_MAX_SIZE.
  rewrite Hk in Es.
  assert (memcpy (slot_base (rr_pool s) i + pk_data_offset k + 1420)
            (slot_base (rr_pool s) j + pk_data_offset kj + 24)
            (Z.to_nat (re_packet_length x - 1420 + 24 - 24)) (rr_pool s) = Some (tt, p1)) as Ecpy.
  { pose proof (slots_disjoint (rr_pool s) i j k kj (pk_data_offset k + 1420) (pk_data_offset kj + 24)
      (re_packet_length x - 1420) (re_packet_length x - 1420) Hw Hi Hj Hij) as Ed.
    specialize (Ed ltac:(lia) ltac:(lia) ltac:(lia) ltac:(lia) eq_refl). rewrite !Z.add_assoc in Ed.
    unfold memcpy. rewrite Z2Nat.id by lia.
    replace (re_packet_length x - 1420 + 24 - 24) with (re_packet_length x - 1420) in * by lia.
    rewrite Ed. mrun.
    mstep Eload. exact Es. }
  mstep (pool_op_eq _ s tt p1 Ecpy). mstep (pool_op_eq _ (set_pool p1 s) tt p' Eset).
  unfold mbind, M_bind. rewrite (entry_update_eq _ e x) by exact Hx. done.
Qed.

Lemma complete_run s e x i k :
  pool_wf (rr_pool s) -> rr_entries s !! e = Some x -> re_first_packet x = Some i ->
  re_received_mask x = 3 -> live (rr_pool s) i k -> pk_data_length k = re_packet_length x ->
  (forall j, held_opt (re_tail_packet x) j <= refs (rr_pool s) j) -> re_tail_packet x <> Some i ->
  exists p', _linkg_transport_reassembly_complete mx (Some e) s =
      Some ((1, Some i), next s p' e entry_zero) /\
    pool_rel untouched (rr_pool s) p' /\
    (forall j, refs p' j = refs (rr_pool s) j - held_opt (re_tail_packet x) j).
Proof.
  intros Hw Hx Hf Hm L Hn Hh Hne. pose proof L as (_&Hr&Hi).
  destruct (release_when s (re_tail_packet x) Hw Hh) as (p1&E1&R1&H1).
  assert (refs p1 i = refs (rr_pool s) i) as Hr1.
  { rewrite H1. destruct (re_tail_packet x) as [j|]; cbn; [|lia]. rewrite one_ref_other by congruence. lia. }
  destruct (window_live p1 i (pk_data_offset k) (re_packet_length x)) as (k1&L1&Ko&Kl).
  { apply (pr_wf _ _ _ R1). }
  { lia. }
  { rewrite (pr_window _ _ _ R1) by (auto || lia). rewrite (live_window _ i k Hi). by rewrite Hn. }
  exists p1. splits; [|done..].
  unfold _linkg_transport_reassembly_complete. mstep (entry_at_eq s e x Hx). rewrite Hf, Hm.
  change (negb (3 =? LINKG_TRANSPORT_REASSEMBLY_FRAGMENT_ALL)) with false. cbn beta iota.
  set (s1 := next s p1 e (entry_tail None x)).
  assert (when (negb (bool_decide (re_tail_packet x = None)))
      (pool_op (linkg_packet_release mx (re_tail_packet x)) ;; entry_update e (entry_tail None)) s =
      Some (tt, s1)) as Ew.
  { unfold s1. destruct (re_tail_packet x) as [j|] eqn:Et.
    - rewrite bool_decide_false in * by done. cbn [negb when] in *. mstep E1.
      by rewrite (entry_update_eq _ e x) by exact Hx.
    - rewrite bool_decide_true in * by done. cbn [negb when] in *.
      replace (entry_tail None x) with x by (unfold entry_tail; rewrite <- Et; by destruct x).
      unfold next. rewrite list_insert_id by done. exact E1. }
  mstep Ew. pose proof (lookup_lt_Some _ _ _ Hx) as Hlt.
  assert (rr_entries s1 !! e = Some (entry_tail None x)) as Hx1 by by apply list_lookup_insert_eq.
  mstep (entry_update_eq s1 e _ (entry_first None) Hx1).
  set (s2 := set_entries _ s1).
  assert (rr_entries s2 !! e = Some (entry_first None (entry_tail None x))) as Hx2
    by (apply list_lookup_insert_eq; unfold s1; cbn; by rewrite length_insert).
  mstep (entry_at_eq s2 e _ Hx2). cbn [re_packet_length entry_first entry_tail]. rewrite <- Kl.
  destruct L1 as (W1&_&Hk1).
  mstep (pool_op_eq (set_data_length i (pk_data_length k1)) s2 tt p1 (set_data_length_same p1 i k1 Hk1)).
  unfold mbind, M_bind. rewrite (entry_update_eq _ e _ _ Hx2). do 2 f_equal.
  unfold s2, s1, next. cbn. by rewrite !list_insert_insert_eq.
Qed.

(** ** The abstract submission *)

Definition pending_half (offset : Z) (bytes : list Z) : half :=
  if offset =? 0 then HalfFirst bytes else HalfTail bytes.

Definition cache_hit (l : list (option pending)) (e : entry_ptr) (key : fragment_key) : bool :=
  match l !! e with
  | Some (Some pd) => bool_decide (pd_key pd = key)
  | _ => false
  end.

Definition cache_find (l : list (option pending)) (set : Z) (key : fragment_key) : option entry_ptr :=
  if cache_hit l (entry_of set 0) key then Some (entry_of set 0)
  else if cache_hit l (entry_of set 1) key then Some (entry_of set 1)
  else None.

(** The slot a new datagram takes: the first free one of its set, else the one
    that expires first. *)
Definition cache_slot (l : list (option pending)) (set : Z) : entry_ptr :=
  match l !! entry_of set 0, l !! entry_of set 1 with
  | Some (Some a), Some (Some b) =>
      if pd_expires b <? pd_expires a then entry_of set 1 else entry_of set 0
  | Some (Some _), Some None => entry_of set 1
  | _, _ => entry_of set 0
  end.

(** A fragment that meets the pending half of its datagram: result code, bytes
    of the completed datagram, new cache. *)
Definition cache_merge (e : entry_ptr) (pd : pending) (offset len : Z) (bytes : list Z) (room : bool)
    (l : list (option pending)) : Z * option (list Z) * list (option pending) :=
  if negb (pd_length pd =? len) then (- EPROTO, None, <[e := None]> l)
  else match pd_half pd, offset =? 0 with
       | HalfFirst _, true | HalfTail _, false => (0, None, l)
       | HalfFirst f, false => (1, Some (f ++ bytes), <[e := None]> l)
       | HalfTail t, true =>
           if room then (1, Some (bytes ++ t), <[e := None]> l)
           else (- ENOBUFS, None, <[e := None]> l)
       end.

Definition cache_submit (set : Z) (key : fragment_key) (offset len : Z) (bytes : list Z) (room : bool)
    (expires : Z) (l : list (option pending)) : Z * option (list Z) * list (option pending) :=
  match cache_find l set key with
  | Some e =>
      match l !! e with
      | Some (Some pd) => cache_merge e pd offset len bytes room l
      | _ => (0, None, l)
      end
  | None =>
      let e := cache_slot l set in
      if (offset =? 0) && negb room then (- ENOBUFS, None, <[e := None]> l)
      else (0, None, <[e := Some (Pending key len expires (pending_half offset bytes))]> l)
  end.

(** ** The scan of a set *)

Record cache_rel (T : nat -> Prop) (s s' : linkg_transport_reassembly_runtime) : Prop := {
  cr_wf : reassembly_wf s';
  cr_pool : pool_rel T (rr_pool s) (rr_pool s');
  cr_gc : rr_last_gc_us s' = rr_last_gc_us s;
  cr_init : rr_initialized s' = rr_initialized s;
  cr_frames : rr_reset_frames s' = rr_reset_frames s }.

Lemma cache_rel_refl T s : reassembly_wf s -> cache_rel T s s.
Proof. intros W. split; try done. apply pool_rel_refl, W. Qed.

Lemma cache_rel_trans T s1 s2 s3 : cache_rel T s1 s2 -> cache_rel T s2 s3 -> cache_rel T s1 s3.
Proof.
  intros [A1 A2 A3 A4 A5] [B1 B2 B3 B4 B5]. split; try congruence. by eapply pool_rel_trans.
Qed.

(** Nothing a client can observe changes at time [now]. *)
Record quiet (now : Z) (s s' : linkg_transport_reassembly_runtime) : Prop := {
  qt_rel : cache_rel untouched s s';
  qt_own : forall j, own s' j = own s j;
  qt_held : forall j, held s' j <= held s j;
  qt_abs : abs_cache now s' = abs_cache now s }.

Lemma quiet_refl now s : reassembly_wf s -> quiet now s s.
Proof. intros W. split; [by apply cache_rel_refl|done..]. Qed.

Lemma quiet_trans now s1 s2 s3 : quiet now s1 s2 -> quiet now s2 s3 -> quiet now s1 s3.
Proof.
  intros [A1 A2 A3 A4] [B1 B2 B3 B4]. split; [by eapply cache_rel_trans|..|congruence]; intros j.
  - by rewrite B2, A2.
  - specialize (A3 j). specialize (B3 j). lia.
Qed.

Lemma abs_lookup now s e x :
  rr_entries s !! e = Some x -> abs_cache now s !! e = Some (abs_entry (rr_pool s) now x).
Proof. intros H. unfold abs_cache. by rewrite list_lookup_fmap, H. Qed.

Lemma drop_expired_spec now s e x :
  reassembly_wf s -> rr_entries s !! e = Some x ->
  exists s' x', when (_linkg_transport_reassembly_expired x now)
      (_linkg_transport_reassembly_entry_clear mx (Some e)) s = Some (tt, s') /\ quiet now s s' /\
    rr_entries s' !! e = Some x' /\ _linkg_transport_reassembly_expired x' now = false /\
    (forall e', e' <> e -> rr_entries s' !! e' = rr_entries s !! e').
Proof.
  intros W Hx. destruct (_linkg_transport_reassembly_expired x now) eqn:Ex; cbn [when].
  - destruct (entry_clear_spec s e x W Hx) as (p'&E&W'&R&Ho&Ha).
    exists (next s p' e entry_zero), entry_zero. splits; [done| |..].
    + split; [by split|done| |].
      { intros j. rewrite (held_next _ _ _ x), held_entry_zero by done.
        pose proof (held_entry_nonneg x j). lia. }
      rewrite Ha. apply list_insert_id.
      rewrite (abs_lookup now s e x Hx). unfold abs_entry. by rewrite Ex, andb_false_r.
    + cbn. apply list_lookup_insert_eq. by eapply lookup_lt_Some.
    + done.
    + intros e' Hne. cbn. by apply list_lookup_insert_ne.
  - exists s, x. splits; [done|by apply quiet_refl|done..].
Qed.

Lemma set_range c n ep h pid : 0 <= _linkg_transport_reassembly_set c n ep h pid < 64.
Proof.
  unfold _linkg_transport_reassembly_set.
  change (LINKG_TRANSPORT_REASSEMBLY_SET_COUNT - 1) with (Z.ones 6).
  rewrite Z.land_ones by lia. apply (Z.mod_pos_bound _ (2 ^ 6)). lia.
Qed.

Lemma ways_in_range set :
  0 <= set < 64 -> entry_of set 0 <> entry_of set 1 /\
  (entry_of set 0 < entry_count)%nat /\ (entry_of set 1 < entry_count)%nat.
Proof.
  intros H. unfold entry_of, entry_count, LINKG_TRANSPORT_REASSEMBLY_WAYS,
    LINKG_TRANSPORT_REASSEMBLY_SET_COUNT. lia.
Qed.

Lemma entry_lookup s e : reassembly_wf s -> (e < entry_count)%nat -> exists x, rr_entries s !! e = Some x.
Proof. intros W He. apply lookup_lt_is_Some. by rewrite (rw_len _ W). Qed.

Lemma abs_unexpired p now x :
  _linkg_transport_reassembly_expired x now = false ->
  abs_entry p now x = if re_valid x
    then Some (Pending (entry_key x) (re_packet_length x) (re_expires_at_us x) (entry_half p x)) else None.
Proof. intros H. unfold abs_entry. by rewrite H, andb_true_r. Qed.

(** What the scan's three results mean for the abstract cache. *)
Definition scan_result (now : Z) (s : linkg_transport_reassembly_runtime) (set : Z) (key : fragment_key)
    (r : option entry_ptr * option entry_ptr * option entry_ptr) : Prop :=
  let '(entry, free_entry, oldest_entry) := r in
  match entry with
  | Some e => cache_find (abs_cache now s) set key = Some e /\
      exists x, rr_entries s !! e = Some x /\ re_valid x = true /\ entry_key x = key /\
        _linkg_transport_reassembly_expired x now = false
  | None => cache_find (abs_cache now s) set key = None /\
      (match free_entry with Some f => Some f | None => oldest_entry end) =
        Some (cache_slot (abs_cache now s) set) /\
      exists x, rr_entries s !! cache_slot (abs_cache now s) set = Some x /\
        _linkg_transport_reassembly_expired x now = false
  end.

Lemma scan_spec now s set c n ep h fh :
  reassembly_wf s -> 0 <= set < 64 ->
  exists r s', scan_ways mx set [0; 1] c n ep h fh now None None s = Some (r, s') /\
    quiet now s s' /\ scan_result now s' set (submit_key c n ep h fh) r.
Proof.
  intros W Hset. destruct (ways_in_range set Hset) as (Hne&H0&H1).
  destruct (entry_lookup s _ W H0) as (x0&Hx0).
  destruct (drop_expired_spec now s _ x0 W Hx0) as (s1&y0&E0&Q0&Hy0&Ey0&Ho0).
  pose proof (cr_wf _ _ _ (qt_rel _ _ _ Q0)) as W1.
  destruct (entry_lookup s1 _ W1 H1) as (x1&Hx1).
  destruct (drop_expired_spec now s1 _ x1 W1 Hx1) as (s2&y1&E1&Q1&Hy1&Ey1&Ho1).
  pose proof (qt_abs _ _ _ Q1) as A1.
  pose proof (abs_lookup now _ _ _ Hy0) as L0. rewrite (abs_unexpired _ _ _ Ey0) in L0.
  pose proof (abs_lookup now _ _ _ Hy1) as L1. rewrite (abs_unexpired _ _ _ Ey1), A1 in L1.
  assert (rr_entries s2 !! entry_of set 0 = Some y0) as Hy0' by (rewrite Ho1; done).
  cbn [scan_ways]. mstep (entry_at_eq _ _ _ Hx0). mstep E0. mstep (entry_at_eq _ _ _ Hy0).
  rewrite match_key. set (key := submit_key c n ep h fh).
  destruct (re_valid y0 && bool_decide (entry_key y0 = key)) eqn:Em0.
  { apply andb_true_iff in Em0 as [V0 K0]. eexists _, s1. splits; [done|done|]. cbn.
    unfold cache_find, cache_hit. rewrite L0, V0. cbn [pd_key]. rewrite K0. split; [done|].
    apply bool_decide_eq_true in K0. by exists y0. }
  assert (cache_hit (abs_cache now s1) (entry_of set 0) key = false) as N0.
  { unfold cache_hit. rewrite L0. by destruct (re_valid y0). }
  assert (cache_hit (abs_cache now s1) (entry_of set 1) key =
          re_valid y1 && bool_decide (entry_key y1 = key)) as N1.
  { unfold cache_hit. rewrite L1. by destruct (re_valid y1). }
  assert (quiet now s s2) as Q2 by by eapply quiet_trans.
  assert (forall r : option entry_ptr * option entry_ptr * option entry_ptr, scan_result now s2 set key r ->
    exists r' s', Some (r, s2) = Some (r', s') /\ quiet now s s' /\ scan_result now s' set key r') as Hfin
    by (intros r Hr; exists r, s2; by splits).
  destruct (re_valid y0) eqn:V0; cbn [negb]; mrun.
  all: mstep (entry_at_eq _ _ _ Hx1); mstep E1; mstep (entry_at_eq _ _ _ Hy1);
    rewrite match_key; fold key;
    destruct (re_valid y1 && bool_decide (entry_key y1 = key)) eqn:Em1.
  1, 3: apply Hfin; unfold scan_result; rewrite A1; unfold cache_find; rewrite N0, N1;
    split; [done|]; apply andb_true_iff in Em1 as [V1 K1]; apply bool_decide_eq_true in K1; by exists y1.
  all: destruct (re_valid y1) eqn:V1; cbn [negb].
  1: mstep (entry_at_eq _ _ _ Hy0').
  all: mrun; apply Hfin; unfold scan_result; rewrite A1; unfold cache_find, cache_slot; rewrite N0, N1;
    rewrite ?L0, ?L1; cbn [pd_expires].
  1: destruct (_ <? _).
  all: split; [done|]; split; [done|]; by eexists.
Qed.

(** ** Creating an entry *)

(** A fragment frame its submitter owns and the cache does not hold. *)
Record submittable (s : linkg_transport_reassembly_runtime) (i : pkt_ptr) (o n : Z) : Prop := {
  sb_window : window_of (rr_pool s) i = Some (o, n);
  sb_own : 0 < own s i < 2 ^ 32 - 1;
  sb_held : held s i = 0 }.

Lemma submittable_refs s i o n : submittable s i o n -> 0 < refs (rr_pool s) i < 2 ^ 32 - 1.
Proof. intros []. unfold own in *. lia. Qed.

Lemma submittable_live s i o n :
  reassembly_wf s -> submittable s i o n ->
  exists k, live (rr_pool s) i k /\ pk_data_offset k = o /\ pk_data_length k = n.
Proof.
  intros W Sb. pose proof (submittable_refs _ _ _ _ Sb).
  apply window_live; [apply W|lia|apply Sb].
Qed.

Lemma submittable_quiet now s s' i o n : quiet now s s' -> submittable s i o n -> submittable s' i o n.
Proof.
  intros Q Sb. pose proof (qt_own _ _ _ Q i) as Eo. pose proof (qt_held _ _ _ Q i).
  pose proof (held_nonneg s' i). destruct Sb as [Sw So Sh].
  assert (held s' i = 0) as Hz by lia.
  split; [|by rewrite Eo|done].
  rewrite (pr_window _ _ _ (cr_pool _ _ _ (qt_rel _ _ _ Q))); [done|auto|]. unfold own in *. lia.
Qed.

Lemma submittable_payload now s s' i o n :
  quiet now s s' -> submittable s i o n -> payload (rr_pool s') i = payload (rr_pool s) i.
Proof.
  intros Q Sb. pose proof (submittable_refs _ _ _ _ (submittable_quiet _ _ _ _ _ _ Q Sb)).
  apply (pr_payload _ _ _ (cr_pool _ _ _ (qt_rel _ _ _ Q))); [auto|lia].
Qed.

(** The bytes a fragment contributes. *)
Definition fragment_data (p : linkg_packet_pool) (i : pkt_ptr) : list Z :=
  drop (Z.to_nat LINKG_TRANSPORT_WIRE_HEADER_MAX_SIZE) (payload p i).

(** The outcome of a submission of packet [i]: [res] is the code, the abstract
    cache becomes [l], and [d] is the change of the references held outside. *)
Record outcome (now : Z) (s s' : linkg_transport_reassembly_runtime) (i : pkt_ptr)
    (l : list (option pending)) (d : nat -> Z) : Prop := {
  oc_rel : cache_rel (fun j => j = i \/ 0 < held s j) s s';
  oc_own : forall j, own s' j = own s j + d j;
  oc_held : forall j, j <> i -> held s' j <= held s j;
  oc_other : forall j, j <> i -> held s j = 0 -> d j = 0;
  oc_abs : abs_cache now s' = l }.

Lemma next_outcome now s i e x y p' (T : nat -> Prop) (d : nat -> Z) :
  reassembly_wf s -> rr_entries s !! e = Some x -> pool_rel T (rr_pool s) p' -> entry_ok p' y ->
  (forall j, T j -> (j = i \/ 0 < held s j) /\ held s j = held_entry x j) ->
  (forall j, held s j - held_entry x j + held_entry y j <= 1) ->
  (forall j, j <> i -> held_entry y j <= held_entry x j) ->
  (forall j, j <> i -> held s j = 0 -> d j = 0) ->
  (forall j, refs p' j - held_entry y j = refs (rr_pool s) j - held_entry x j + d j) ->
  (forall j, 0 <= own s j + d j) ->
  outcome now s (next s p' e y) i (<[e := abs_entry p' now y]> (abs_cache now s)) d.
Proof.
  intros W Hx R Hy HT H1 Hh Hz Hd Hp.
  destruct (next_spec s p' e x y T d W Hx R Hy) as (W'&Ho&Ha); [by intros j Hj; apply HT|done..|].
  split; [|done| |done|done].
  - split; try done. apply (pool_rel_weaken T); [|done]. intros j Hj. by apply HT.
  - intros j Hj. rewrite (held_next _ _ _ x) by done. specialize (Hh j Hj). lia.
Qed.

Lemma free_entry_held s e x :
  reassembly_wf s -> rr_entries s !! e = Some x -> re_valid x = false -> forall j, held_entry x j = 0.
Proof.
  intros W Hx Hv j. destruct (rw_entries _ W e x Hx) as [_ H1 H2| |]; [|congruence..].
  unfold held_entry. by rewrite H1, H2.
Qed.

Lemma create_spec now s e x i o n c nd ep h fh :
  reassembly_wf s -> rr_entries s !! e = Some x -> re_valid x = false -> submittable s i o n ->
  0 <= fh_packet_length fh < 2 ^ 16 -> 0 <= now < 2 ^ 64 - LINKG_TRANSPORT_REASSEMBLY_TTL_US ->
  fragment_error (fh_fragment_offset fh) (fh_packet_length fh) n = 0 ->
  exists s', _linkg_transport_reassembly_create_entry_locked mx (Some e) c nd ep (Some h) (Some fh)
      (Some i) now s =
    Some ((if (fh_fragment_offset fh =? 0) && negb (first_room (rr_pool s) i (fh_packet_length fh))
           then - ENOBUFS else 0), s') /\
    outcome now s s' i
      (<[e := if (fh_fragment_offset fh =? 0) && negb (first_room (rr_pool s) i (fh_packet_length fh))
              then None
              else Some (Pending (submit_key c nd ep h fh) (fh_packet_length fh)
                     (now + LINKG_TRANSPORT_REASSEMBLY_TTL_US)
                     (pending_half (fh_fragment_offset fh) (fragment_data (rr_pool s) i)))]>
         (abs_cache now s)) (fun _ => 0).
Proof.
  intros W Hx Hv Sb Hl Hnow He.
  destruct (submittable_live s i o n W Sb) as (k&L&Ko&Kn). pose proof L as (Hw&_&Hk).
  pose proof (submittable_refs _ _ _ _ Sb) as Hr. destruct Sb as [_ So Sh].
  pose proof (free_entry_held s e x W Hx Hv) as Hx0. pose proof (lookup_lt_Some _ _ _ Hx) as Hlt.
  destruct (fragment_length_run s (fh_fragment_offset fh) (fh_packet_length fh) i k Hw Hk Hl)
    as (r&Er&Er0&_). rewrite Kn, He in Er0.
  set (new := entry_new c nd ep h fh now).
  set (s1 := set_entries (<[e := new]> (rr_entries s)) s).
  assert (rr_entries s1 !! e = Some new) as Hx1 by by apply list_lookup_insert_eq.
  assert (re_expires_at_us new = now + LINKG_TRANSPORT_REASSEMBLY_TTL_US) as Hexp.
  { unfold new, entry_new. cbn [re_expires_at_us]. unfold LINKG_TRANSPORT_REASSEMBLY_TTL_US in *.
    apply wrap_small. mlia. }
  assert (forall p y, re_valid y = true -> re_expires_at_us y = re_expires_at_us new ->
    abs_entry p now y = Some (Pending (entry_key y) (re_packet_length y)
      (now + LINKG_TRANSPORT_REASSEMBLY_TTL_US) (entry_half p y))) as Habs.
  { intros p y Hvy Hey. rewrite abs_unexpired, Hvy, Hey, Hexp; [done|].
    unfold _linkg_transport_reassembly_expired. rewrite Hvy, Hey, Hexp. cbn [andb].
    unfold LINKG_TRANSPORT_REASSEMBLY_TTL_US. by bsimp. }
  assert (forall p' y, next s1 p' e y = next s p' e y) as Hnext.
  { intros p' y. unfold next, s1. cbn. by rewrite list_insert_insert_eq. }
  assert (forall p' T y, pool_rel T (rr_pool s) p' -> entry_ok p' y ->
    (forall j, T j -> j = i) -> (forall j, held_entry y j <= one_ref i j) ->
    (forall j, refs p' j - held_entry y j = refs (rr_pool s) j) ->
    outcome now s (next s p' e y) i (<[e := abs_entry p' now y]> (abs_cache now s)) (fun _ => 0)) as Hout.
  { intros p' T y R Hy HT Hh Hr'. apply (next_outcome now s i e x y p' T); [done..| | | |done| |].
    - intros j Hj%HT. subst j. split; [by left|]. rewrite Hx0. exact Sh.
    - intros j. rewrite Hx0. specialize (Hh j). pose proof (rw_once _ W j).
      revert Hh. unfold one_ref. case_decide; [subst j; lia|lia].
    - intros j Hj. rewrite Hx0. specialize (Hh j). rewrite one_ref_other in Hh by congruence. lia.
    - intros j. rewrite Hx0, Hr'. lia.
    - intros j. pose proof (own_nonneg s j W). lia. }
  unfold _linkg_transport_reassembly_create_entry_locked. mstep Er. rewrite Er0. cbn [Z.eqb negb].
  mstep (entry_update_eq s e x (fun _ => new) Hx). fold s1.
  destruct (fh_fragment_offset fh =? 0) eqn:E0; cbn [andb]; zb.
  - rewrite E0 in He. destruct (fragment_error_first _ _ He) as [Hlen Hn].
    destruct (store_first_run s1 e new i k Hw Hx1 Hk Hr Hlen ltac:(lia)) as [(Eroom&E)|(Eroom&p'&E&R&Rr&Kw&Kp)];
      cbn [re_packet_length new entry_new rr_pool set_entries s1] in Eroom; rewrite Eroom; cbn [negb].
    + mstep E. change (negb (- ENOBUFS =? 0)) with true. cbn beta iota.
      destruct (entry_clear_run s1 e new Hx1 Hw) as (p'&Ec&R&Rr).
      { intros j. cbn. apply refs_nonneg. exact Hw. }
      mstep Ec. eexists. split; [done|]. rewrite Hnext.
      apply (Hout p' untouched entry_zero R (entry_zero_ok _)); [done|..].
      * intros j. rewrite held_entry_zero. apply one_ref_range.
      * intros j. rewrite held_entry_zero, Rr. change (held_entry new j) with 0.
        change (rr_pool s1) with (rr_pool s). lia.
    + mstep E. cbn [Z.eqb negb]. eexists. split; [done|]. rewrite Hnext.
      set (y := entry_mask 1 (entry_first (Some i) new)) in *.
      replace (Some (Pending _ _ _ _)) with (abs_entry p' now y).
      2: { rewrite (Habs p' y) by done. unfold pending_half, fragment_data. rewrite E0. cbn [Z.eqb].
           change (rr_pool s1) with (rr_pool s) in Kp.
           change (Z.to_nat LINKG_TRANSPORT_WIRE_HEADER_MAX_SIZE) with 24%nat. by rewrite <- Kp. }
      apply (Hout p' (eq i) y R); [|done|..].
      * apply (ok_first p' y i (pk_data_offset k + 24)); try done.
        rewrite (pr_size _ _ _ R). revert Eroom. unfold first_room.
        rewrite (live_window _ i k Hk). intros Eroom. zb. exact Eroom.
      * intros j. unfold held_entry. cbn. lia.
      * intros j. rewrite Rr. change (held_entry y j) with (one_ref i j + 0).
        change (rr_pool s1) with (rr_pool s). lia.
  - destruct (fragment_error_tail _ _ _ He E0) as (Hlen&Ho&Hn).
    destruct (store_tail_run s1 e new i k Hw Hx1 Hk Hr Hlen) as (p'&E&R&Rr); [cbn; lia|].
    mstep E. cbn [Z.eqb negb]. eexists. split; [done|]. rewrite Hnext.
    set (y := entry_mask 2 (entry_tail (Some i) new)) in *.
    assert (0 < refs p' i) as Hri by (rewrite Rr, one_ref_same; change (rr_pool s1) with (rr_pool s); lia).
    replace (Some (Pending _ _ _ _)) with (abs_entry p' now y).
    2: { rewrite (Habs p' y) by done. unfold pending_half, fragment_data. bsimp.
         unfold entry_half. cbn [y re_first_packet entry_mask entry_tail new entry_new re_tail_packet].
         rewrite (pr_payload _ _ _ R) by (auto || done). done. }
    apply (Hout p' untouched y R); [|done|..].
    + apply (ok_tail p' y i (pk_data_offset k)); try done.
      rewrite (pr_window _ _ _ R) by (auto || done). cbn. rewrite (live_window _ i k Hk), Kn, Hn. done.
    + intros j. unfold held_entry. cbn. lia.
    + intros j. rewrite Rr. change (held_entry y j) with (0 + one_ref i j).
      change (rr_pool s1) with (rr_pool s). lia.
Qed.

(** ** Merging into an entry *)

Lemma held_exactly s e x j :
  reassembly_wf s -> rr_entries s !! e = Some x -> held_entry x j = 1 -> held s j = 1.
Proof.
  intros W Hx H. pose proof (held_entry_le s e x j Hx). pose proof (rw_once _ W j). lia.
Qed.

Lemma held_live s j o n :
  reassembly_wf s -> held s j = 1 -> window_of (rr_pool s) j = Some (o, n) ->
  exists k, live (rr_pool s) j k /\ pk_data_offset k = o /\ pk_data_length k = n.
Proof.
  intros W H Hw. pose proof (rw_refs _ W j). apply window_live; [apply W|lia|done].
Qed.

(** The carrier is cached, the tail arrives. *)
Lemma merge_tail now s e x i o n f fo :
  reassembly_wf s -> rr_entries s !! e = Some x -> submittable s i o n ->
  LINKG_TRANSPORT_PAYLOAD_MAX_SIZE < re_packet_length x <= LINKG_TRANSPORT_PACKET_MAX_SIZE ->
  re_first_packet x = Some f -> re_tail_packet x = None -> re_received_mask x = 1 ->
  window_of (rr_pool s) f = Some (fo, LINKG_TRANSPORT_FRAGMENT_PAYLOAD_MAX_SIZE) ->
  fo + re_packet_length x <= po_slot_size (rr_pool s) -> n = re_packet_length x - 1420 + 24 ->
  exists s', (ret ← _linkg_transport_reassembly_append_tail (Some e) (Some i);
     if negb (ret =? 0)
     then _linkg_transport_reassembly_entry_clear mx (Some e) ;; mret (ret, None)
     else _linkg_transport_reassembly_complete mx (Some e)) s = Some ((1, Some f), s') /\
    outcome now s s' i (<[e := None]> (abs_cache now s)) (one_ref f) /\
    payload (rr_pool s') f = payload (rr_pool s) f ++ fragment_data (rr_pool s) i.
Proof.
  change LINKG_TRANSPORT_PAYLOAD_MAX_SIZE with 1428. change LINKG_TRANSPORT_PACKET_MAX_SIZE with 1500.
  change LINKG_TRANSPORT_FRAGMENT_PAYLOAD_MAX_SIZE with 1420.
  intros W Hx Sb Hlen Hf Ht Hm Hwf Hroom Hn. pose proof (rw_pool _ W) as Hw.
  destruct (submittable_live s i o n W Sb) as (k&L&Ko&Kn). destruct Sb as [_ So Sh].
  assert (forall j, held_entry x j = one_ref f j) as Hhx.
  { intros j. unfold held_entry. rewrite Hf, Ht. cbn. lia. }
  assert (held s f = 1) as Hhf by (apply (held_exactly s e x); [done..|by rewrite Hhx, one_ref_same]).
  assert (f <> i) as Hfi by (intros ->; lia).
  destruct (held_live s f fo 1420 W Hhf Hwf) as (kf&Lf&Kfo&Kfn).
  destruct (append_tail_run s e x f i kf k Hw Hx Hf Hfi Lf L Kfn Hlen ltac:(lia) ltac:(lia))
    as (p1&E1&L1&R1&Rr1&P1).
  pose proof (lookup_lt_Some _ _ _ Hx) as Hlt.
  set (s1 := next s p1 e (entry_mask 2 x)) in *.
  assert (rr_entries s1 !! e = Some (entry_mask 2 x)) as Hx1 by by apply list_lookup_insert_eq.
  destruct (complete_run s1 e (entry_mask 2 x) f
    (set_window (pk_data_offset kf) (re_packet_length x) kf) (pr_wf _ _ _ R1) Hx1 Hf) as (p2&E2&R2&Rr2).
  { cbn. by rewrite Hm. }
  { exact L1. }
  { done. }
  { intros j. cbn. rewrite Ht. apply refs_nonneg. exact (pr_wf _ _ _ R1). }
  { cbn. by rewrite Ht. }
  assert (forall j, refs p2 j = refs (rr_pool s) j) as Rr.
  { intros j. rewrite Rr2. cbn [re_tail_packet entry_mask]. rewrite Ht. cbn [held_opt].
    change (rr_pool s1) with p1. rewrite Rr1. lia. }
  mstep E1. cbn [Z.eqb negb]. rewrite E2.
  replace (next s1 p2 e entry_zero) with (next s p2 e entry_zero)
    by (unfold next, s1; cbn; by rewrite list_insert_insert_eq).
  eexists. split; [done|]. split.
  - replace (<[e := None]> (abs_cache now s))
      with (<[e := abs_entry p2 now entry_zero]> (abs_cache now s)) by done.
    apply (next_outcome now s i e x entry_zero p2 (eq f)); [done|done| |apply entry_zero_ok|..].
    + eapply pool_rel_trans; [exact R1|]. by apply (pool_rel_weaken untouched).
    + intros j <-. rewrite Hhx, one_ref_same, Hhf. lia.
    + intros j. rewrite Hhx, held_entry_zero. pose proof (rw_once _ W j).
      pose proof (one_ref_range f j). lia.
    + intros j _. rewrite Hhx, held_entry_zero. apply one_ref_range.
    + intros j _ Hj. apply one_ref_other. intros ->. lia.
    + intros j. rewrite Hhx, held_entry_zero, Rr. lia.
    + intros j. pose proof (own_nonneg s j W). pose proof (one_ref_range f j). lia.
  - cbn [rr_pool next]. rewrite (pr_payload _ _ _ R2); [exact P1|auto|].
    rewrite Rr. pose proof (rw_refs _ W f). lia.
Qed.

(** The tail is cached, the carrier arrives with room for it. *)
Lemma merge_first now s e x i o t ot :
  reassembly_wf s -> rr_entries s !! e = Some x -> submittable s i o 1444 ->
  LINKG_TRANSPORT_PAYLOAD_MAX_SIZE < re_packet_length x <= LINKG_TRANSPORT_PACKET_MAX_SIZE ->
  re_first_packet x = None -> re_tail_packet x = Some t -> re_received_mask x = 2 ->
  window_of (rr_pool s) t = Some (ot, re_packet_length x - LINKG_TRANSPORT_FRAGMENT_PAYLOAD_MAX_SIZE
                                        + LINKG_TRANSPORT_WIRE_HEADER_MAX_SIZE) ->
  exists s1, _linkg_transport_reassembly_store_first mx (Some e) (Some i) s =
      Some (if first_room (rr_pool s) i (re_packet_length x) then 0 else - ENOBUFS, s1) /\
  if first_room (rr_pool s) i (re_packet_length x) then
    exists x1 s2 s', rr_entries s1 !! e = Some x1 /\
      _linkg_transport_reassembly_append_tail (Some e) (re_tail_packet x1) s1 = Some (0, s2) /\
      _linkg_transport_reassembly_complete mx (Some e) s2 = Some ((1, Some i), s') /\
      outcome now s s' i (<[e := None]> (abs_cache now s)) (one_ref i) /\
      payload (rr_pool s') i = fragment_data (rr_pool s) i ++ fragment_data (rr_pool s) t
  else s1 = s.
Proof.
  change LINKG_TRANSPORT_PAYLOAD_MAX_SIZE with 1428. change LINKG_TRANSPORT_PACKET_MAX_SIZE with 1500.
  change LINKG_TRANSPORT_FRAGMENT_PAYLOAD_MAX_SIZE with 1420.
  change LINKG_TRANSPORT_WIRE_HEADER_MAX_SIZE with 24.
  intros W Hx Sb Hlen Hf Ht Hm Hwt. pose proof (rw_pool _ W) as Hw.
  destruct (submittable_live s i o _ W Sb) as (k&L&Ko&Kn). pose proof (submittable_refs _ _ _ _ Sb) as Hr.
  destruct Sb as [_ So Sh]. pose proof L as (_&_&Hk).
  assert (forall j, held_entry x j = one_ref t j) as Hhx.
  { intros j. unfold held_entry. rewrite Hf, Ht. cbn. lia. }
  assert (held s t = 1) as Hht by (apply (held_exactly s e x); [done..|by rewrite Hhx, one_ref_same]).
  assert (t <> i) as Hti by (intros ->; lia).
  destruct (held_live s t ot _ W Hht Hwt) as (kt&Lt&Kto&Ktn). pose proof Lt as (_&Hrt&_).
  destruct (store_first_run s e x i k Hw Hx Hk Hr Hlen Kn) as [(Eroom&E)|(Eroom&p1&E1&R1&Rr1&Kw1&Kp1)];
    rewrite Eroom.
  { exists s. by split. }
  pose proof (lookup_lt_Some _ _ _ Hx) as Hlt.
  set (x1 := entry_mask 1 (entry_first (Some i) x)) in *. set (s1 := next s p1 e x1) in *.
  assert (rr_entries s1 !! e = Some x1) as Hx1 by by apply list_lookup_insert_eq.
  exists s1. split; [done|].
  destruct (window_live p1 i (pk_data_offset k + 24) 1420 (pr_wf _ _ _ R1)) as (k1&L1&K1o&K1n); [|exact Kw1|].
  { rewrite Rr1, one_ref_same. lia. }
  destruct (window_live p1 t ot (re_packet_length x - 1420 + 24) (pr_wf _ _ _ R1)) as (kt1&Lt1&Kt1o&Kt1n).
  { rewrite Rr1. pose proof (one_ref_range i t). lia. }
  { rewrite (pr_window _ _ _ R1); [done|congruence|]. rewrite Rr1. pose proof (one_ref_range i t). lia. }
  assert (i <> t) as Hit by congruence.
  destruct (append_tail_run s1 e x1 i t k1 kt1 (pr_wf _ _ _ R1) Hx1 eq_refl Hit L1 Lt1 K1n Hlen)
    as (p2&E2&L2&R2&Rr2&P2).
  { change (rr_pool s1) with p1. change (re_packet_length x1) with (re_packet_length x).
    rewrite (pr_size _ _ _ R1). revert Eroom. unfold first_room. rewrite (live_window _ i k Hk).
    unfold LINKG_TRANSPORT_WIRE_HEADER_MAX_SIZE. intros Eroom. zb. lia. }
  { exact Kt1n. }
  set (x2 := entry_mask 2 x1) in *. set (s2 := next s1 p2 e x2) in *.
  assert (rr_entries s2 !! e = Some x2) as Hx2
    by (apply list_lookup_insert_eq; unfold s1; cbn; by rewrite length_insert).
  destruct (complete_run s2 e x2 i (set_window (pk_data_offset k1) (re_packet_length x1) k1)
    (pr_wf _ _ _ R2) Hx2 eq_refl) as (p3&E3&R3&Rr3).
  { cbn. by rewrite Hm. }
  { exact L2. }
  { done. }
  { intros j. cbn [re_tail_packet x2 x1 entry_mask entry_first]. rewrite Ht. change (rr_pool s2) with p2.
    rewrite Rr2. change (rr_pool s1) with p1. rewrite Rr1. cbn [held_opt].
    pose proof (one_ref_range i j). unfold one_ref at 1. case_decide; [subst j; lia|].
    pose proof (refs_nonneg (rr_pool s) j Hw). lia. }
  { cbn. rewrite Ht. congruence. }
  assert (forall j, refs p3 j = refs (rr_pool s) j + one_ref i j - one_ref t j) as Rr.
  { intros j. rewrite Rr3. cbn [re_tail_packet x2 x1 entry_mask entry_first]. rewrite Ht. cbn [held_opt].
    change (rr_pool s2) with p2. rewrite Rr2. change (rr_pool s1) with p1. rewrite Rr1. lia. }
  exists x1, s2, (next s p3 e entry_zero). splits; [exact Hx1|..].
  - change (re_tail_packet x1) with (re_tail_packet x). rewrite Ht. exact E2.
  - rewrite E3. do 2 f_equal. unfold next, s2, s1. cbn. by rewrite !list_insert_insert_eq.
  - replace (<[e := None]> (abs_cache now s))
      with (<[e := abs_entry p3 now entry_zero]> (abs_cache now s)) by done.
    apply (next_outcome now s i e x entry_zero p3 (eq i)); [done|done| |apply entry_zero_ok|..].
    + eapply pool_rel_trans; [exact R1|]. eapply pool_rel_trans; [exact R2|].
      by apply (pool_rel_weaken untouched).
    + intros j <-. rewrite Hhx, one_ref_other by done. split; [by left|exact Sh].
    + intros j. rewrite Hhx, held_entry_zero. pose proof (rw_once _ W j).
      pose proof (one_ref_range t j). lia.
    + intros j _. rewrite Hhx, held_entry_zero. apply one_ref_range.
    + intros j Hj _. by apply one_ref_other.
    + intros j. rewrite Hhx, held_entry_zero, Rr. lia.
    + intros j. pose proof (own_nonneg s j W). pose proof (one_ref_range i j). lia.
  - cbn [rr_pool next]. rewrite (pr_payload _ _ _ R3); [|auto|].
    + change (rr_pool s2) with p2. rewrite P2. unfold fragment_data.
      change (Z.to_nat LINKG_TRANSPORT_WIRE_HEADER_MAX_SIZE) with 24%nat. change (rr_pool s1) with p1.
      rewrite Kp1. do 2 f_equal. apply (pr_payload _ _ _ R1); [congruence|].
      rewrite Rr1. pose proof (one_ref_range i t). lia.
    + rewrite Rr, one_ref_same, one_ref_other by done. lia.
Qed.

(** The concrete result agrees with the abstract one; the completed packet
    carries the bytes of the datagram and one reference for the caller. *)
Definition submit_outcome (now : Z) (s s' : linkg_transport_reassembly_runtime) (i : pkt_ptr)
    (spec : Z * option (list Z) * list (option pending)) (r : Z * option pkt_ptr) : Prop :=
  fst r = fst (fst spec) /\ outcome now s s' i (snd spec) (held_opt (snd r)) /\
  (fun c => payload (rr_pool s') c) <$> snd r = snd (fst spec).

Lemma outcome_refl now s i : reassembly_wf s -> outcome now s s i (abs_cache now s) (fun _ => 0).
Proof. intros W. split; [by apply cache_rel_refl| |done|done|done]. intros. lia. Qed.

Lemma clear_outcome now s e x i ret :
  reassembly_wf s -> rr_entries s !! e = Some x ->
  exists s', (_linkg_transport_reassembly_entry_clear mx (Some e) ;; mret (ret, None : option pkt_ptr)) s =
      Some ((ret, None), s') /\
    submit_outcome now s s' i (ret, None, <[e := None]> (abs_cache now s)) (ret, None).
Proof.
  intros W Hx. destruct (entry_clear_spec s e x W Hx) as (p'&E&W'&R&Ho&Ha).
  eexists. split; [by mstep E|]. split; [done|]. split; [|done]. cbn [fst snd held_opt]. split.
  - split; try done. by apply (pool_rel_weaken untouched).
  - intros j. rewrite Ho. cbn [held_opt]. lia.
  - intros j _. rewrite (held_next _ _ _ x), held_entry_zero by done.
    pose proof (held_entry_nonneg x j). lia.
  - done.
  - apply Ha.
Qed.

Lemma merge_spec now s e x i o n fh :
  reassembly_wf s -> rr_entries s !! e = Some x -> re_valid x = true -> submittable s i o n ->
  fragment_error (fh_fragment_offset fh) (fh_packet_length fh) n = 0 ->
  exists r s', merge_fragment mx e fh (Some i) s = Some (r, s') /\
    submit_outcome now s s' i
      (cache_merge e (Pending (entry_key x) (re_packet_length x) (re_expires_at_us x)
                        (entry_half (rr_pool s) x))
         (fh_fragment_offset fh) (fh_packet_length fh) (fragment_data (rr_pool s) i)
         (first_room (rr_pool s) i (fh_packet_length fh)) (abs_cache now s)) r.
Proof.
  intros W Hx Hv Sb He. unfold merge_fragment, cache_merge. cbn [pd_length pd_half].
  mstep (entry_at_eq s e x Hx).
  destruct (re_packet_length x =? fh_packet_length fh) eqn:El; cbn [negb].
  2: { destruct (clear_outcome now s e x i (- EPROTO) W Hx) as (s'&E&O). by exists (- EPROTO, None), s'. }
  apply Z.eqb_eq in El.
  assert (exists r s', Some ((0, None), s) = Some (r, s') /\
    submit_outcome now s s' i (0, None, abs_cache now s) r) as Hdup.
  { eexists _, s. split; [done|]. split; [done|]. split; [by apply outcome_refl|done]. }
  destruct (rw_entries _ W e x Hx) as [Hf|f fo _ Hlen Hf Ht Hm Hw Hroom|t ot _ Hlen Hf Ht Hm Hw];
    [congruence|..]; unfold entry_half, _linkg_transport_reassembly_fragment_bit; rewrite Hf, ?Ht, Hm.
  - destruct (fh_fragment_offset fh =? 0) eqn:E0; [exact Hdup|]. apply Z.eqb_neq in E0.
    change (negb (Z.land 1 LINKG_TRANSPORT_REASSEMBLY_FRAGMENT_SECOND =? 0)) with false.
    change (negb (1 =? u8 (Z.lxor LINKG_TRANSPORT_REASSEMBLY_FRAGMENT_ALL
      LINKG_TRANSPORT_REASSEMBLY_FRAGMENT_SECOND))) with false.
    cbn beta iota. rewrite (bool_decide_true (None = None)), bool_decide_false by done. cbn [negb orb].
    destruct (fragment_error_tail _ _ _ He E0) as (_&_&Hn).
    destruct (merge_tail now s e x i o n f fo W Hx Sb Hlen Hf Ht Hm Hw Hroom ltac:(lia)) as (s'&E&O&P).
    exists (1, Some f), s'. split; [exact E|]. split; [done|]. split; [done|]. cbn. by rewrite P.
  - destruct (fh_fragment_offset fh =? 0) eqn:E0; [|exact Hdup]. apply Z.eqb_eq in E0. rewrite E0 in He.
    change (negb (Z.land 2 LINKG_TRANSPORT_REASSEMBLY_FRAGMENT_FIRST =? 0)) with false.
    change (negb (2 =? u8 (Z.lxor LINKG_TRANSPORT_REASSEMBLY_FRAGMENT_ALL
      LINKG_TRANSPORT_REASSEMBLY_FRAGMENT_FIRST))) with false.
    cbn beta iota. rewrite (bool_decide_true (None = None)), bool_decide_false by done. cbn [negb orb].
    destruct (fragment_error_first _ _ He) as [_ ->].
    destruct (merge_first now s e x i o t ot W Hx Sb Hlen Hf Ht Hm Hw) as (s1&E1&Hs1).
    rewrite El in *. mstep E1. destruct (first_room _ _ _); cbn [Z.eqb negb].
    + destruct Hs1 as (x1&s2&s'&Hx1&E2&E3&O&P).
      exists (1, Some i), s'. split.
      * mstep (entry_at_eq s1 e x1 Hx1). mstep E2. cbn [Z.eqb negb]. exact E3.
      * split; [done|]. split; [done|]. cbn. by rewrite P.
    + subst s1. destruct (clear_outcome now s e x i (- ENOBUFS) W Hx) as (s'&E&O).
      exists (- ENOBUFS, None), s'. split; [|exact O]. exact E.
Qed.

(** ** Submission *)

Lemma outcome_after now s s1 s' i l d :
  cache_rel untouched s s1 -> (forall j, own s1 j = own s j) -> (forall j, held s1 j <= held s j) ->
  outcome now s1 s' i l d -> outcome now s s' i l d.
Proof.
  intros R1 Ho Hh [A B D O C]. split; [| | | |done].
  - apply (cache_rel_trans _ s s1).
    + destruct R1 as [W R G I F]. split; try done. by apply (pool_rel_weaken untouched).
    + destruct A as [W R G I F]. split; try done. eapply pool_rel_weaken; [|exact R].
      intros j [->|Hj]; [by left|right]. specialize (Hh j). lia.
  - intros j. by rewrite B, Ho.
  - intros j Hj. specialize (D j Hj). specialize (Hh j). lia.
  - intros j Hj Hz. apply O; [done|]. specialize (Hh j). pose proof (held_nonneg s1 j). lia.
Qed.

Lemma submit_outcome_after now s s1 s' i spec r :
  cache_rel untouched s s1 -> (forall j, own s1 j = own s j) -> (forall j, held s1 j <= held s j) ->
  submit_outcome now s1 s' i spec r -> submit_outcome now s s' i spec r.
Proof. intros R Ho Hh (A&B&C). split; [done|]. split; [|done]. by eapply outcome_after. Qed.

Lemma first_room_window p p' i len :
  window_of p' i = window_of p i -> po_slot_size p' = po_slot_size p ->
  first_room p' i len = first_room p i len.
Proof. intros Ew Es. unfold first_room. by rewrite Ew, Es. Qed.

(** The entry the scan elected is emptied when it is still in use. *)
Lemma evict_spec now s e x :
  reassembly_wf s -> rr_entries s !! e = Some x ->
  exists s' x', when (re_valid x) (_linkg_transport_reassembly_entry_clear mx (Some e)) s = Some (tt, s') /\
    rr_entries s' !! e = Some x' /\ re_valid x' = false /\ cache_rel untouched s s' /\
    (forall j, own s' j = own s j) /\ (forall j, held s' j <= held s j) /\
    (forall z, <[e := z]> (abs_cache now s') = <[e := z]> (abs_cache now s)).
Proof.
  intros W Hx. pose proof (lookup_lt_Some _ _ _ Hx) as Hlt. destruct (re_valid x) eqn:Hv; cbn [when].
  - destruct (entry_clear_spec s e x W Hx) as (p'&E&W'&R&Ho&Ha).
    exists (next s p' e entry_zero), entry_zero. splits; [done|by apply list_lookup_insert_eq|done|by split|done|..].
    + intros j. rewrite (held_next _ _ _ x), held_entry_zero by done.
      pose proof (held_entry_nonneg x j). lia.
    + intros z. by rewrite Ha, list_insert_insert_eq.
  - exists s, x. splits; try done. by apply cache_rel_refl.
Qed.

Lemma submittable_after s s1 i o n :
  cache_rel untouched s s1 -> (forall j, own s1 j = own s j) -> (forall j, held s1 j <= held s j) ->
  submittable s i o n ->
  submittable s1 i o n /\ fragment_data (rr_pool s1) i = fragment_data (rr_pool s) i /\
  forall len, first_room (rr_pool s1) i len = first_room (rr_pool s) i len.
Proof.
  intros R Ho Hh [Sw So Sh]. specialize (Ho i). specialize (Hh i). pose proof (held_nonneg s1 i).
  assert (0 < refs (rr_pool s1) i) as Hr by (unfold own in *; lia).
  assert (window_of (rr_pool s1) i = window_of (rr_pool s) i) as Ew
    by (apply (pr_window _ _ _ (cr_pool _ _ _ R)); auto).
  splits.
  - split; [by rewrite Ew|by rewrite Ho|lia].
  - unfold fragment_data. f_equal. apply (pr_payload _ _ _ (cr_pool _ _ _ R)); auto.
  - intros len. apply first_room_window; [done|apply (pr_size _ _ _ (cr_pool _ _ _ R))].
Qed.

Lemma submit_spec now s i o n c nd ep h fh :
  reassembly_wf s -> submittable s i o n -> 0 <= now < 2 ^ 64 - LINKG_TRANSPORT_REASSEMBLY_TTL_US ->
  linkg_transport_class_valid c = true -> _linkg_transport_reassembly_peer_valid nd = true ->
  Z.land (th_flags h) LINKG_TRANSPORT_FLAG_FRAGMENT <> 0 -> 0 <= fh_packet_length fh < 2 ^ 16 ->
  fragment_error (fh_fragment_offset fh) (fh_packet_length fh) n = 0 ->
  exists r s', _linkg_transport_reassembly_submit_locked mx c nd ep (Some h) (Some fh) (Some i) now false s =
      Some (r, s') /\
    submit_outcome now s s' i
      (cache_submit (_linkg_transport_reassembly_set c nd ep h (fh_packet_id fh)) (submit_key c nd ep h fh)
         (fh_fragment_offset fh) (fh_packet_length fh) (fragment_data (rr_pool s) i)
         (first_room (rr_pool s) i (fh_packet_length fh)) (now + LINKG_TRANSPORT_REASSEMBLY_TTL_US)
         (abs_cache now s)) r.
Proof.
  intros W Sb Hnow Hc Hnd Hfl Hlen He.
  destruct (submittable_live s i o n W Sb) as (k&L&Ko&Kn). pose proof L as (Hw&_&Hk).
  destruct (fragment_length_run s (fh_fragment_offset fh) (fh_packet_length fh) i k Hw Hk Hlen)
    as (r0&Er&Er0&_). rewrite Kn, He in Er0.
  pose proof (set_range c nd ep h (fh_packet_id fh)) as Hset.
  set (set := _linkg_transport_reassembly_set c nd ep h (fh_packet_id fh)) in *.
  destruct (scan_spec now s set c nd ep h fh W Hset) as (found&s1&Es&Q&Hf).
  unfold _linkg_transport_reassembly_submit_locked. rewrite Hc, Hnd. cbn [negb orb].
  rewrite (proj2 (Z.eqb_neq _ _) Hfl). mstep Er. rewrite Er0. cbn [Z.eqb negb]. fold set. mstep Es.
  destruct Q as [QR QO QH QA]. pose proof (cr_wf _ _ _ QR) as W1.
  destruct (submittable_after s s1 i o n QR QO QH Sb) as (Sb1&Fd1&Fr1).
  destruct found as [[entry free_entry] oldest_entry]. cbn beta iota in Hf |- *.
  unfold cache_submit. rewrite <- QA, <- Fd1, <- Fr1. unfold scan_result in Hf.
  destruct entry as [e|].
  - destruct Hf as (Hfind&x&Hx&Hv&Hkey&Hexp). rewrite Hfind.
    rewrite (abs_lookup now s1 e x Hx), (abs_unexpired _ _ _ Hexp), Hv.
    destruct (merge_spec now s1 e x i o n fh W1 Hx Hv Sb1 He) as (r&s'&E&O).
    exists r, s'. split; [exact E|]. by eapply submit_outcome_after.
  - destruct Hf as (Hfind&Hslot&x&Hx&Hexp). rewrite Hfind, Hslot.
    set (e := cache_slot (abs_cache now s1) set) in *.
    destruct (evict_spec now s1 e x W1 Hx) as (s2&x2&E2&Hx2&Hv2&R2&O2&H2&A2).
    destruct (submittable_after s1 s2 i o n R2 O2 H2 Sb1) as (Sb2&Fd2&Fr2).
    destruct (create_spec now s2 e x2 i o n c nd ep h fh (cr_wf _ _ _ R2) Hx2 Hv2 Sb2 Hlen Hnow He)
      as (s'&E&O).
    rewrite Fr2 in E, O. rewrite Fd2, A2 in O.
    mstep (entry_at_eq s1 e x Hx). mstep E2. mstep E.
    eexists _, s'. split; [done|].
    eapply submit_outcome_after; [exact QR|exact QO|exact QH|].
    eapply submit_outcome_after; [exact R2|exact O2|exact H2|].
    clear E. cbn zeta. fold e.
    destruct (_ && _)%bool; (split; [done|]); (split; [|done]); exact O.
Qed.

(** ** Sweeps over the whole cache *)

Lemma all_entries_spec e : e ∈ all_entries <-> (e < entry_count)%nat.
Proof. unfold all_entries, nat_upto. rewrite elem_of_seq. unfold entry_count. lia. Qed.

Lemma all_entries_nodup : NoDup all_entries.
Proof. apply NoDup_seq. Qed.

(** The loop of [gc_locked]. *)
Lemma gc_loop now (es : list entry_ptr) : forall s,
  reassembly_wf s -> (forall e, e ∈ es -> (e < entry_count)%nat) -> NoDup es ->
  exists s', mfor es (fun e =>
      x ← entry_at e;
      when (_linkg_transport_reassembly_expired x now)
        (_linkg_transport_reassembly_entry_clear mx (Some e))) s = Some (tt, s') /\ quiet now s s' /\
    (forall e x, e ∈ es -> rr_entries s' !! e = Some x -> _linkg_transport_reassembly_expired x now = false) /\
    (forall e, e ∉ es -> rr_entries s' !! e = rr_entries s !! e).
Proof.
  induction es as [|e es IH]; intros s W Hin Hnd; cbn [mfor].
  - exists s. splits; [done|by apply quiet_refl|intros e x He; by apply elem_of_nil in He|done].
  - apply NoDup_cons in Hnd as [Hne Hnd].
    destruct (entry_lookup s e W (Hin e ltac:(left))) as (x&Hx).
    destruct (drop_expired_spec now s e x W Hx) as (s1&x1&E1&Q1&Hx1&Ex1&O1).
    destruct (IH s1 (cr_wf _ _ _ (qt_rel _ _ _ Q1))) as (s2&E2&Q2&C2&O2).
    { intros e' He'. apply Hin. by right. }
    { done. }
    exists s2. splits.
    + mstep (entry_at_eq s e x Hx). mstep E1. exact E2.
    + by eapply quiet_trans.
    + intros e' x' [->|He']%elem_of_cons Hx'; [|by eapply C2].
      rewrite O2, Hx1 in Hx' by done. by injection Hx' as <-.
    + intros e' He'. rewrite not_elem_of_cons in He'. destruct He' as [? ?].
      rewrite O2 by done. by apply O1.
Qed.

Lemma quiet_set_last_gc now s s' : quiet now s s' ->
  reassembly_wf (set_last_gc now s') /\ pool_rel untouched (rr_pool s) (rr_pool s') /\
  (forall j, own (set_last_gc now s') j = own s j) /\ abs_cache now (set_last_gc now s') = abs_cache now s.
Proof.
  intros [[W R _ _ _] Ho _ Ha]. splits; [|done|exact Ho|exact Ha].
  destruct W. by split.
Qed.

Definition gc_due (now : Z) (s : linkg_transport_reassembly_runtime) : bool :=
  (rr_last_gc_us s =? 0) || (LINKG_TRANSPORT_REASSEMBLY_GC_INTERVAL_US <=? u64 (now - rr_last_gc_us s)).

Lemma gc_spec now s :
  reassembly_wf s ->
  exists s', _linkg_transport_reassembly_gc_locked mx now s = Some (tt, s') /\
    reassembly_wf s' /\ pool_rel untouched (rr_pool s) (rr_pool s') /\
    (forall j, own s' j = own s j) /\ (forall j, held s' j <= held s j) /\
    abs_cache now s' = abs_cache now s /\ rr_initialized s' = rr_initialized s /\
    (gc_due now s = true -> rr_last_gc_us s' = now /\
       forall e x, rr_entries s' !! e = Some x -> _linkg_transport_reassembly_expired x now = false).
Proof.
  intros W. unfold _linkg_transport_reassembly_gc_locked, gc_due. mrun.
  replace (negb (rr_last_gc_us s =? 0) && _) with
    (negb ((rr_last_gc_us s =? 0) ||
       (LINKG_TRANSPORT_REASSEMBLY_GC_INTERVAL_US <=? u64 (now - rr_last_gc_us s))))
    by (rewrite negb_orb, Z.ltb_antisym; done).
  destruct (_ || _)%bool; cbn [negb].
  - destruct (gc_loop now all_entries s W) as (s'&E&Q&C&_).
    { intros e. apply all_entries_spec. }
    { apply all_entries_nodup. }
    exists (set_last_gc now s'). mstep E. split; [done|].
    destruct (quiet_set_last_gc now s s' Q) as (W'&R'&O'&A').
    splits; [done|done|done|exact (qt_held _ _ _ Q)|done|apply (cr_init _ _ _ (qt_rel _ _ _ Q))|].
    intros _. split; [done|]. intros e x Hx. apply (C e); [|done]. apply all_entries_spec.
    apply lookup_lt_Some in Hx. cbn in Hx. rewrite (rw_len s') in Hx; [done|].
    apply (cr_wf _ _ _ (qt_rel _ _ _ Q)).
  - exists s. splits; try done. by apply pool_rel_refl, W.
Qed.

(** ** Peer reset *)

Definition entry_of_peer (nd : Z) (x : linkg_transport_reassembly_entry) : bool :=
  re_valid x && (re_peer_node_id x =? nd).

(** The fragments of peer [nd] in the cache. *)
Definition peer_frames (nd : Z) (s : linkg_transport_reassembly_runtime) (es : list entry_ptr) : Z :=
  sumZ (fun e => match rr_entries s !! e with
                 | Some x => if entry_of_peer nd x then 1 else 0
                 | None => 0
                 end) es.

Definition strip_peer (nd : Z) (o : option pending) : option pending :=
  pd ← o; if key_peer_node_id (pd_key pd) =? nd then None else Some pd.

Lemma peer_frames_range nd s es : 0 <= peer_frames nd s es <= Z.of_nat (length es).
Proof.
  unfold peer_frames. induction es as [|e es IH]; cbn [sumZ length]; [lia|].
  destruct (rr_entries s !! e) as [x|]; [destruct (entry_of_peer nd x)|]; lia.
Qed.

Lemma strip_entry nd p now x :
  strip_peer nd (abs_entry p now x) = if entry_of_peer nd x then None else abs_entry p now x.
Proof.
  unfold strip_peer, abs_entry, entry_of_peer. destruct (re_valid x); [|done]. cbn [andb].
  destruct (negb _); cbn; by destruct (_ =? nd).
Qed.

Lemma entry_one_frame s e x n :
  reassembly_wf s -> rr_entries s !! e = Some x -> re_valid x = true -> 0 <= n < 2 ^ 64 - 1 ->
  (if bool_decide (re_tail_packet x = None)
   then (if bool_decide (re_first_packet x = None) then n else u64 (n + 1))
   else u64 ((if bool_decide (re_first_packet x = None) then n else u64 (n + 1)) + 1)) = n + 1.
Proof.
  intros W Hx Hv Hn.
  destruct (rw_entries _ W e x Hx) as [|i o _ _ -> -> _ _ _|i o _ _ -> -> _ _]; [congruence|..]; cbn;
    apply wrap_small; mlia.
Qed.

Lemma reset_loop nd (es : list entry_ptr) : forall s n,
  reassembly_wf s -> (forall e, e ∈ es -> (e < entry_count)%nat) -> NoDup es ->
  0 <= n -> n + Z.of_nat (length es) < 2 ^ 64 - 1 ->
  exists s', reset_entries mx nd es n s = Some (n + peer_frames nd s es, s') /\
    cache_rel untouched s s' /\ (forall j, own s' j = own s j) /\
    (forall e, e ∉ es -> rr_entries s' !! e = rr_entries s !! e) /\
    (forall now e, abs_cache now s' !! e =
       (if decide (e ∈ es) then strip_peer nd <$> abs_cache now s !! e else abs_cache now s !! e)) /\
    (forall e x, e ∈ es -> rr_entries s' !! e = Some x -> entry_of_peer nd x = false).
Proof.
  induction es as [|e es IH]; intros s n W Hin Hnd Hn0 Hn; cbn [reset_entries].
  - exists s. unfold peer_frames. cbn [sumZ]. rewrite Z.add_0_r.
    splits; [done|by apply cache_rel_refl|done|done|..].
    + intros now e. by rewrite decide_False by apply not_elem_of_nil.
    + intros e x He. by apply elem_of_nil in He.
  - apply NoDup_cons in Hnd as [Hne Hnd]. cbn [length] in Hn.
    destruct (entry_lookup s e W (Hin e ltac:(left))) as (x&Hx).
    assert (forall s1 m, reassembly_wf s1 -> 0 <= m <= n + 1 ->
      exists s', reset_entries mx nd es m s1 = Some (m + peer_frames nd s1 es, s') /\
      cache_rel untouched s1 s' /\ (forall j, own s' j = own s1 j) /\
      (forall e, e ∉ es -> rr_entries s' !! e = rr_entries s1 !! e) /\
      (forall now e, abs_cache now s' !! e =
         (if decide (e ∈ es) then strip_peer nd <$> abs_cache now s1 !! e else abs_cache now s1 !! e)) /\
      (forall e x, e ∈ es -> rr_entries s' !! e = Some x -> entry_of_peer nd x = false)) as IH'.
    { intros s1 m W1 Hm. apply IH; [done| |done|lia|lia]. intros e' He'. apply Hin. by right. }
    assert (peer_frames nd s (e :: es) = (if entry_of_peer nd x then 1 else 0) + peer_frames nd s es) as Ef
      by (unfold peer_frames; cbn [sumZ]; by rewrite Hx).
    mstep (entry_at_eq s e x Hx). change (re_valid x && _) with (entry_of_peer nd x).
    destruct (entry_of_peer nd x) eqn:Ep.
    + destruct (entry_clear_spec s e x W Hx) as (p1&E1&W1&R1&O1&A1).
      assert (re_valid x = true) as Hv by (unfold entry_of_peer in Ep; by destruct (re_valid x)).
      rewrite (entry_one_frame s e x n W Hx Hv) by lia. mstep E1.
      set (s1 := next s p1 e entry_zero) in *.
      destruct (IH' s1 (n + 1) W1 ltac:(lia)) as (s'&E'&R'&O'&U'&A'&C').
      assert (peer_frames nd s1 es = peer_frames nd s es) as Ep1.
      { apply sumZ_ext. intros e' He'. unfold s1. cbn.
        by rewrite list_lookup_insert_ne by (intros ->; done). }
      exists s'. splits.
      * rewrite E', Ef, Ep1. do 2 f_equal. lia.
      * eapply cache_rel_trans; [|exact R']. by split.
      * intros j. by rewrite O', O1.
      * intros e' He'. apply not_elem_of_cons in He' as [??]. rewrite U' by done. unfold s1. cbn.
        by apply list_lookup_insert_ne.
      * intros now e'. rewrite A', A1. destruct (decide (e' = e)) as [->|Hne'].
        -- rewrite decide_False, decide_True by (done || left).
           rewrite list_lookup_insert_eq
             by (unfold abs_cache; rewrite length_fmap; by eapply lookup_lt_Some).
           rewrite (abs_lookup now s e x Hx). cbn [fmap option_fmap option_map]. by rewrite strip_entry, Ep.
        -- rewrite list_lookup_insert_ne by done. destruct (decide (e' ∈ es)).
           ++ by rewrite decide_True by by right.
           ++ by rewrite decide_False by (rewrite not_elem_of_cons; done).
      * intros e' x' [->|He']%elem_of_cons Hx'; [|by eapply C'].
        rewrite U' in Hx' by done. unfold s1 in Hx'. cbn in Hx'.
        rewrite list_lookup_insert_eq in Hx' by by eapply lookup_lt_Some. by injection Hx' as <-.
    + destruct (IH' s n W ltac:(lia)) as (s'&E'&R'&O'&U'&A'&C').
      exists s'. splits; [by rewrite E', Ef|done|done|..].
      * intros e' He'. apply not_elem_of_cons in He' as [??]. by apply U'.
      * intros now e'. rewrite A'. destruct (decide (e' = e)) as [->|Hne'].
        -- rewrite decide_False, decide_True by (done || left).
           rewrite (abs_lookup now s e x Hx). cbn [fmap option_fmap option_map]. by rewrite strip_entry, Ep.
        -- destruct (decide (e' ∈ es)).
           ++ by rewrite decide_True by by right.
           ++ by rewrite decide_False by (rewrite not_elem_of_cons; done).
      * intros e' x' [->|He']%elem_of_cons Hx'; [|by eapply C'].
        rewrite U' in Hx' by done. by simplify_eq.
Qed.

Lemma clear_loop (es : list entry_ptr) : forall s,
  reassembly_wf s -> (forall e, e ∈ es -> (e < entry_count)%nat) -> NoDup es ->
  exists s', mfor es (fun e => _linkg_transport_reassembly_entry_clear mx (Some e)) s = Some (tt, s') /\
    cache_rel untouched s s' /\ (forall j, own s' j = own s j) /\
    (forall e, e ∈ es -> rr_entries s' !! e = Some entry_zero) /\
    (forall e, e ∉ es -> rr_entries s' !! e = rr_entries s !! e).
Proof.
  induction es as [|e es IH]; intros s W Hin Hnd; cbn [mfor].
  - exists s. splits; [done|by apply cache_rel_refl|done| |done]. intros e He. by apply elem_of_nil in He.
  - apply NoDup_cons in Hnd as [Hne Hnd].
    destruct (entry_lookup s e W (Hin e ltac:(left))) as (x&Hx).
    destruct (entry_clear_spec s e x W Hx) as (p1&E1&W1&R1&O1&_).
    destruct (IH _ W1 ltac:(intros e' He'; apply Hin; by right) Hnd) as (s'&E'&R'&O'&Z'&U').
    exists s'. splits.
    + mstep E1. exact E'.
    + eapply cache_rel_trans; [|exact R']. by split.
    + intros j. by rewrite O', O1.
    + intros e' [->|He']%elem_of_cons; [|by apply Z']. rewrite U' by done. cbn.
      apply list_lookup_insert_eq. by eapply lookup_lt_Some.
    + intros e' He'. apply not_elem_of_cons in He' as [??]. rewrite U' by done. cbn.
      by apply list_lookup_insert_ne.
Qed.

Lemma entries_all_zero s :
  length (rr_entries s) = entry_count ->
  (forall e, (e < entry_count)%nat -> rr_entries s !! e = Some entry_zero) ->
  rr_entries s = replicate entry_count entry_zero.
Proof.
  intros Hl Hz. apply list_eq. intros e. destruct (decide (e < entry_count)%nat).
  - by rewrite Hz, lookup_replicate_2.
  - rewrite !lookup_ge_None_2; [done|by rewrite length_replicate; lia|lia].
Qed.

Lemma held_zero s j : rr_entries s = replicate entry_count entry_zero -> held s j = 0.
Proof. intros E. unfold held. rewrite E, sumZ_replicate, held_entry_zero. lia. Qed.

Lemma empty_cache_wf p t b n :
  pool_wf p -> reassembly_wf (ReassemblyRuntime p (replicate entry_count entry_zero) t b n).
Proof.
  intros W. set (s := ReassemblyRuntime _ _ _ _ _).
  assert (forall j, held s j = 0) as H by (intros; by apply held_zero).
  split; [done|cbn; by rewrite length_replicate| | |].
  - intros e x Hx. apply lookup_replicate in Hx as [-> _]. apply entry_zero_ok.
  - intros j. rewrite H. lia.
  - intros j. rewrite H. by apply refs_nonneg.
Qed.

(** ** Batches *)

(** What the caller guarantees for one item: its packet, if any, is a reference
    it owns and the cache does not hold; the header fields fit their types. *)
Definition item_ready (s : linkg_transport_reassembly_runtime)
    (it : linkg_transport_reassembly_submit_item) : Prop :=
  (forall i, ri_packet it = Some i -> exists o n, submittable s i o n) /\
  (forall fh, ri_fragment_header it = Some fh -> 0 <= fh_packet_length fh < 2 ^ 16).

Definition item_outcome (s s' : linkg_transport_reassembly_runtime) (i : option pkt_ptr)
    (r : Z * option pkt_ptr) : Prop :=
  cache_rel (fun j => i = Some j \/ 0 < held s j) s s' /\
  (forall j, own s' j = own s j + held_opt (snd r) j) /\
  (forall j, i <> Some j -> held s' j <= held s j) /\
  (forall j, i <> Some j -> held s j = 0 -> held_opt (snd r) j = 0) /\
  (fst r = 1 /\ is_Some (snd r) \/ fst r <= 0 /\ snd r = None).

Lemma item_outcome_none s i ret :
  reassembly_wf s -> ret <= 0 -> item_outcome s s i (ret, None).
Proof.
  intros W Hr. split; [by apply cache_rel_refl|]. cbn [fst snd held_opt].
  splits; [intros; lia|done|done|by right].
Qed.

Lemma cache_submit_code set key offset len bytes room expires l :
  let '(r, b, _) := cache_submit set key offset len bytes room expires l in
  r = 1 /\ is_Some b \/ r <= 0 /\ b = None.
Proof.
  unfold cache_submit, cache_merge.
  assert (- EPROTO <= 0 /\ - ENOBUFS <= 0) as [? ?] by (unfold EPROTO, ENOBUFS; lia).
  repeat case_match; simplify_eq/=; first [by right | left; by eauto].
Qed.

(** Any submission of a ready item, valid or not. *)
Lemma submit_any s it c nd ep now :
  reassembly_wf s -> item_ready s it -> 0 <= now < 2 ^ 64 - LINKG_TRANSPORT_REASSEMBLY_TTL_US ->
  exists r s', _linkg_transport_reassembly_submit_locked mx c nd ep (ri_header it)
      (ri_fragment_header it) (ri_packet it) now false s = Some (r, s') /\
    item_outcome s s' (ri_packet it) r.
Proof.
  intros W [Hp Hfh] Hnow.
  assert (- EINVAL <= 0) as Hinv by (unfold EINVAL; lia).
  assert (forall ret, ret <= 0 -> exists r s', Some ((ret, None), s) = Some (r, s') /\
    item_outcome s s' (ri_packet it) r) as Hfail.
  { intros ret Hr. eexists _, s. split; [done|]. by apply item_outcome_none. }
  destruct (linkg_transport_class_valid c) eqn:Hc.
  2: { unfold _linkg_transport_reassembly_submit_locked. rewrite Hc. by apply Hfail. }
  destruct (_linkg_transport_reassembly_peer_valid nd) eqn:Hnd.
  2: { unfold _linkg_transport_reassembly_submit_locked. rewrite Hc, Hnd. by apply Hfail. }
  destruct (ri_header it) as [h|], (ri_fragment_header it) as [fh|], (ri_packet it) as [i|] eqn:Ei;
    try (unfold _linkg_transport_reassembly_submit_locked; rewrite Hc, Hnd; by apply Hfail).
  destruct (Hp i eq_refl) as (o&n&Sb). specialize (Hfh fh eq_refl).
  destruct (decide (Z.land (th_flags h) LINKG_TRANSPORT_FLAG_FRAGMENT = 0)) as [Hfl|Hfl].
  { unfold _linkg_transport_reassembly_submit_locked. rewrite Hc, Hnd, Hfl. by apply Hfail. }
  destruct (decide (fragment_error (fh_fragment_offset fh) (fh_packet_length fh) n = 0)) as [He|He].
  - destruct (submit_spec now s i o n c nd ep h fh W Sb Hnow Hc Hnd Hfl Hfh He) as (r&s'&E&O).
    exists r, s'. split; [exact E|].
    pose proof (cache_submit_code (_linkg_transport_reassembly_set c nd ep h (fh_packet_id fh))
      (submit_key c nd ep h fh) (fh_fragment_offset fh) (fh_packet_length fh)
      (fragment_data (rr_pool s) i) (first_room (rr_pool s) i (fh_packet_length fh))
      (now + LINKG_TRANSPORT_REASSEMBLY_TTL_US) (abs_cache now s)) as Hcode.
    destruct O as (O1&[[W' R' G I F] O3 O4 O5 _]&O6).
    destruct (cache_submit _ _ _ _ _ _ _ _) as [[cr cb] cl]. cbn [fst snd] in *.
    split; [|splits].
    + split; try done. eapply pool_rel_weaken; [|exact R']. intros j [->|Hj]; [by left|by right].
    + exact O3.
    + intros j Hj. apply O4. congruence.
    + intros j Hj. apply O5. congruence.
    + rewrite O1. destruct (snd r), cb; cbn in O6; try done.
      * destruct Hcode as [[? _]|[_ ?]]; [left; split; [done|by eexists]|done].
      * destruct Hcode as [[_ [? ?]]|[? _]]; [done|by right].
  - destruct (submittable_live s i o n W Sb) as (k&L&Ko&Kn). pose proof L as (Hw&_&Hk).
    destruct (fragment_length_run s (fh_fragment_offset fh) (fh_packet_length fh) i k Hw Hk Hfh)
      as (r0&Er&Er0&_). rewrite Kn in Er0.
    unfold _linkg_transport_reassembly_submit_locked. rewrite Hc, Hnd. cbn [negb orb].
    rewrite (proj2 (Z.eqb_neq _ _) Hfl). mstep Er. rewrite Er0, (proj2 (Z.eqb_neq _ _) He). cbn [negb].
    apply Hfail. unfold fragment_error, EPROTO, EMSGSIZE. repeat case_match; lia.
Qed.

Lemma item_ready_after s s' it1 it2 r :
  item_outcome s s' (ri_packet it1) r -> item_ready s it2 ->
  (forall j, ri_packet it2 = Some j -> ri_packet it1 <> Some j) -> item_ready s' it2.
Proof.
  intros (R&Ho&Hh&Hz&_) [Hp Hf] Hd. split; [|done]. intros j Hj.
  destruct (Hp j Hj) as (o&n&[Sw So Sh]). specialize (Hd j Hj). exists o, n.
  specialize (Hz j Hd Sh). specialize (Hh j Hd). pose proof (held_nonneg s' j).
  assert (own s' j = own s j) as Eo by (rewrite Ho; lia).
  split; [|by rewrite Eo|lia].
  rewrite (pr_window _ _ _ (cr_pool _ _ _ R)); [done|intros [?|?]; [done|lia]|]. unfold own in *. lia.
Qed.

(** The verdict on one item given the epochs at the time it is examined. *)
Definition item_verdict (epochs : list Z) (it it' : linkg_transport_reassembly_submit_item) : Prop :=
  it' = item_result (ri_result it') (ri_completed_packet it') it /\
  (ri_result it' = 1 /\ is_Some (ri_completed_packet it') \/
   ri_result it' <= 0 /\ ri_completed_packet it' = None) /\
  (ri_peer it = None -> ri_result it' = - EINVAL) /\
  (is_Some (ri_peer it) -> linkg_transport_peer_epoch_matches epochs (ri_peer it) (ri_peer_epoch it) = false ->
     ri_result it' = - ESTALE).

Lemma submit_item_spec epochs now it s :
  reassembly_wf s -> item_ready s it -> 0 <= now < 2 ^ 64 - LINKG_TRANSPORT_REASSEMBLY_TTL_US ->
  ri_completed_packet it = None ->
  exists it' s', submit_item mx epochs now it s = Some (it', s') /\
    item_outcome s s' (ri_packet it) (ri_result it', ri_completed_packet it') /\ item_verdict epochs it it'.
Proof.
  intros W Hr Hnow Hn. unfold submit_item.
  assert (- EINVAL <= 0 /\ - ESTALE <= 0) as [? ?] by (unfold EINVAL, ESTALE; lia).
  assert (forall ret (P : Prop), ret <= 0 -> exists it' s', Some (item_result ret (ri_completed_packet it) it, s) = Some (it', s') /\
    item_outcome s s' (ri_packet it) (ri_result it', ri_completed_packet it') /\
    it' = item_result (ri_result it') (ri_completed_packet it') it /\
    (ri_result it' <= 0 /\ ri_completed_packet it' = None) /\ ri_result it' = ret) as Hfail.
  { intros ret _ Hret. eexists _, s. split; [done|]. cbn. rewrite Hn. by split; [apply item_outcome_none|]. }
  destruct (ri_peer it) as [pr|] eqn:Epr.
  2: { destruct (Hfail (- EINVAL) True) as (it'&s'&E&O&A&B&C); [done|]. exists it', s'.
       splits; [done|done|]. split; [done|]. split; [by right|]. rewrite Epr. split; [done|]. by intros [? ?]. }
  destruct (linkg_transport_peer_epoch_matches epochs (Some pr) (ri_peer_epoch it)) eqn:Em; cbn [negb].
  - destruct (submit_any s it (ri_traffic_class it) (ri_peer_node_id it) (ri_peer_epoch it) now W Hr Hnow)
      as (r&s'&E&O).
    mstep E. eexists _, s'. split; [done|]. cbn. destruct r as [ret comp]. cbn. split; [done|].
    split; [done|]. cbn. split; [by destruct O as (_&_&_&_&?)|]. rewrite Epr. split; [done|]. congruence.
  - destruct (Hfail (- ESTALE) True) as (it'&s'&E&O&A&B&C); [done|]. exists it', s'.
    splits; [done|done|]. split; [done|]. split; [by right|]. rewrite Epr. by split.
Qed.

Lemma submit_items_spec epochs now (items : list linkg_transport_reassembly_submit_item) : forall s index,
  reassembly_wf s -> Forall (item_ready s) items -> NoDup (omap ri_packet items) ->
  Forall (fun it => ri_completed_packet it = None) items ->
  0 <= now < 2 ^ 64 - LINKG_TRANSPORT_REASSEMBLY_TTL_US ->
  exists items' s', submit_items mx epochs index now items s = Some (items', s') /\
    reassembly_wf s' /\
    (forall j, own s' j = own s j + sumZ (fun it => held_opt (ri_completed_packet it) j) items') /\
    length items' = length items /\
    (forall k it it', items !! k = Some it -> items' !! k = Some it' -> item_verdict (epochs (index + k)%nat) it it').
Proof.
  induction items as [|it items IH]; intros s index W Hr Hnd Hc Hnow; cbn [submit_items].
  - exists [], s. splits; [done|done| |done|done]. intros j. cbn. lia.
  - apply Forall_cons in Hr as [Hr Hrs]. apply Forall_cons in Hc as [Hc Hcs].
    destruct (submit_item_spec (epochs index) now it s W Hr Hnow Hc) as (it'&s1&E1&O1&V1).
    assert (NoDup (omap ri_packet items) /\ forall it2 j, it2 ∈ items -> ri_packet it2 = Some j ->
      ri_packet it <> Some j) as [Hnd' Hdis].
    { cbn [omap list_omap] in Hnd. destruct (ri_packet it) as [i|].
      - apply NoDup_cons in Hnd as [Hne Hnd]. split; [done|]. intros it2 j Hin Hj [= ->]. apply Hne.
        apply list_elem_of_omap. by exists it2.
      - by split. }
    destruct (IH s1 (S index) (cr_wf _ _ _ (proj1 O1))) as (items'&s'&E'&W'&O'&L'&V'); [|done..|].
    { rewrite !Forall_forall in *. intros it2 Hin. apply (item_ready_after s s1 it it2 _ O1); [by apply Hrs|].
      intros j Hj. by apply (Hdis it2). }
    exists (it' :: items'), s'. splits.
    + mstep E1. mstep E'. done.
    + done.
    + intros j. rewrite O'. destruct O1 as (_&O1&_). rewrite O1. cbn. lia.
    + cbn. by rewrite L'.
    + intros [|k] a b Ha Hb; cbn in Ha, Hb.
      * injection Ha as <-. injection Hb as <-. by rewrite Nat.add_0_r.
      * rewrite Nat.add_succ_r. by apply V'.
Qed.
End Cache.

(** ** Properties *)

(** C12: submitting a fragment acts on the cache exactly as the
    abstract two-way cache of pending halves does: same result code, same
    completed bytes, same pending halves afterwards (expired entries counting as
    absent); the invariant is kept, the references held outside the cache change
    only by the one handed over with the completed packet, and packets other
    than the submitted one and the cached ones are untouched. *)
Theorem reassembly_submit_refines (mx : mutex_api) (now : Z) (s : linkg_transport_reassembly_runtime)
    (i : pkt_ptr) (o n c nd ep : Z) (h : linkg_transport_header) (fh : linkg_transport_fragment_header) :
  mutex_ok mx ->
  reassembly_wf s -> submittable s i o n -> 0 <= now < 2 ^ 64 - LINKG_TRANSPORT_REASSEMBLY_TTL_US ->
  linkg_transport_class_valid c = true -> _linkg_transport_reassembly_peer_valid nd = true ->
  Z.land (th_flags h) LINKG_TRANSPORT_FLAG_FRAGMENT <> 0 -> 0 <= fh_packet_length fh < 2 ^ 16 ->
  fragment_error (fh_fragment_offset fh) (fh_packet_length fh) n = 0 ->
  exists r s', _linkg_transport_reassembly_submit_locked mx c nd ep (Some h) (Some fh) (Some i) now false s =
      Some (r, s') /\
    submit_outcome now s s' i
      (cache_submit (_linkg_transport_reassembly_set c nd ep h (fh_packet_id fh)) (submit_key c nd ep h fh)
         (fh_fragment_offset fh) (fh_packet_length fh) (fragment_data (rr_pool s) i)
         (first_room (rr_pool s) i (fh_packet_length fh)) (now + LINKG_TRANSPORT_REASSEMBLY_TTL_US)
         (abs_cache now s)) r.
Proof. intros Hmx. by apply submit_spec. Qed.

(** ** The passage of time *)

Definition expire (now : Z) (o : option pending) : option pending :=
  pd ← o; if pd_expires pd <=? now then None else Some pd.

Lemma abs_later t1 t2 s : t1 <= t2 -> abs_cache t2 s = expire t2 <$> abs_cache t1 s.
Proof.
  intros Ht. unfold abs_cache. rewrite <- list_fmap_compose. apply list_fmap_ext. intros e x _.
  unfold compose, expire, abs_entry, _linkg_transport_reassembly_expired.
  destruct (re_valid x); [|done]. cbn [andb].
  destruct (re_expires_at_us x <=? t1) eqn:E1, (re_expires_at_us x <=? t2) eqn:E2; cbn; rewrite ?E2;
    try done. zb. lia.
Qed.

Lemma length_abs now s : reassembly_wf s -> length (abs_cache now s) = entry_count.
Proof. intros W. unfold abs_cache. by rewrite length_fmap, (rw_len _ W). Qed.

Lemma cache_slot_way l set : cache_slot l set = entry_of set 0 \/ cache_slot l set = entry_of set 1.
Proof. unfold cache_slot. repeat case_match; auto. Qed.

Lemma cache_find_after l set key t pd :
  0 <= set < 64 -> length l = entry_count -> cache_find l set key = None -> pd_key pd = key -> t < pd_expires pd ->
  let e := cache_slot l set in
  let l' := expire t <$> <[e := Some pd]> l in
  cache_find l' set key = Some e /\ l' !! e = Some (Some pd).
Proof.
  intros Hset Hl Hfind Hkey Ht e l'. destruct (ways_in_range set Hset) as (Hne&H0&H1).
  assert (e < length l)%nat as He by (unfold e; destruct (cache_slot_way l set) as [-> | ->]; lia).
  assert (l' !! e = Some (Some pd)) as Hle.
  { unfold l'. rewrite list_lookup_fmap, list_lookup_insert_eq by done. cbn.
    by replace (pd_expires pd <=? t) with false by (symmetry; apply Z.leb_gt; lia). }
  split; [|done].
  assert (cache_hit l' e key = true) as Hhit.
  { unfold cache_hit. rewrite Hle. by apply bool_decide_eq_true. }
  unfold cache_find. destruct (cache_slot_way l set) as [E|E]; fold e in E; rewrite <- E.
  - by rewrite Hhit.
  - assert (cache_hit l' (entry_of set 0) key = false) as ->; [|by rewrite Hhit].
    unfold cache_find in Hfind. destruct (cache_hit l (entry_of set 0) key) eqn:Eh; [done|].
    revert Eh. unfold cache_hit, l'. rewrite list_lookup_fmap, list_lookup_insert_ne by congruence.
    destruct (l !! entry_of set 0) as [[pd'|]|]; cbn; try done. by destruct (_ <=? _).
Qed.

(** Each of the two orders of arrival: [i] first, then [j]. *)
Lemma two_fragments (mx : mutex_api) t1 t2 s i j oi ni oj nj c nd ep h fhi fhj :
  mutex_ok mx -> reassembly_wf s -> i <> j -> submittable s i oi ni -> submittable s j oj nj ->
  0 <= t1 -> t1 <= t2 < t1 + LINKG_TRANSPORT_REASSEMBLY_TTL_US ->
  t2 < 2 ^ 64 - LINKG_TRANSPORT_REASSEMBLY_TTL_US ->
  linkg_transport_class_valid c = true -> _linkg_transport_reassembly_peer_valid nd = true ->
  Z.land (th_flags h) LINKG_TRANSPORT_FLAG_FRAGMENT <> 0 ->
  fh_packet_id fhi = fh_packet_id fhj -> fh_packet_length fhi = fh_packet_length fhj ->
  0 <= fh_packet_length fhi < 2 ^ 16 ->
  fragment_error (fh_fragment_offset fhi) (fh_packet_length fhi) ni = 0 ->
  fragment_error (fh_fragment_offset fhj) (fh_packet_length fhj) nj = 0 ->
  (fh_fragment_offset fhi = 0 -> first_room (rr_pool s) i (fh_packet_length fhi) = true) ->
  (fh_fragment_offset fhj = 0 -> first_room (rr_pool s) j (fh_packet_length fhi) = true) ->
  (fh_fragment_offset fhi =? 0) = negb (fh_fragment_offset fhj =? 0) ->
  cache_find (abs_cache t1 s) (_linkg_transport_reassembly_set c nd ep h (fh_packet_id fhi))
    (submit_key c nd ep h fhi) = None ->
  exists s1 s2 cp,
    _linkg_transport_reassembly_submit_locked mx c nd ep (Some h) (Some fhi) (Some i) t1 false s =
      Some ((0, None), s1) /\
    _linkg_transport_reassembly_submit_locked mx c nd ep (Some h) (Some fhj) (Some j) t2 false s1 =
      Some ((1, Some cp), s2) /\
    reassembly_wf s2 /\ (forall k, own s2 k = own s k + one_ref cp k) /\
    payload (rr_pool s2) cp =
      (if fh_fragment_offset fhi =? 0 then fragment_data (rr_pool s) i ++ fragment_data (rr_pool s) j
       else fragment_data (rr_pool s) j ++ fragment_data (rr_pool s) i).
Proof.
  intros Hmx W Hij Si Sj Ht1 Ht2 Hmax Hc Hnd Hfl Hid Hlen Hl Hei Hej Hri Hrj Hoff Hfind.
  set (set := _linkg_transport_reassembly_set c nd ep h (fh_packet_id fhi)) in *.
  set (key := submit_key c nd ep h fhi) in *.
  assert (submit_key c nd ep h fhj = key) as Ekey by (unfold key, submit_key; by rewrite Hid).
  destruct (submit_spec mx Hmx t1 s i oi ni c nd ep h fhi W Si ltac:(lia) Hc Hnd Hfl Hl Hei)
    as (r1&s1&E1&A1&O1&P1).
  fold set key in A1, O1, P1. unfold cache_submit in A1, O1, P1. rewrite Hfind in A1, O1, P1.
  assert ((fh_fragment_offset fhi =? 0) && negb (first_room (rr_pool s) i (fh_packet_length fhi)) = false) as Er.
  { destruct (fh_fragment_offset fhi =? 0) eqn:E; [|done]. zb. by rewrite Hri. }
  cbn zeta in A1, O1, P1. rewrite Er in A1, O1, P1. cbn [fst snd] in A1, O1, P1.
  destruct r1 as [r1 c1]. cbn [fst snd] in A1, P1. subst r1.
  destruct c1 as [c1|]; cbn in P1; [done|]. cbn [snd held_opt] in O1.
  destruct O1 as [R1 Ow1 He1 _ Ab1]. pose proof (cr_wf _ _ _ R1) as W1.
  assert (refs (rr_pool s1) j > 0 /\ submittable s1 j oj nj) as [Hrj1 Sj1].
  { destruct Sj as [Sw So Sh]. specialize (Ow1 j). cbn [held_opt] in Ow1. specialize (He1 j ltac:(congruence)).
    pose proof (held_nonneg s1 j).
    assert (0 < refs (rr_pool s1) j) by (unfold own in *; lia). split; [lia|].
    split; [|lia|lia]. rewrite (pr_window _ _ _ (cr_pool _ _ _ R1)); [done| |done].
    intros [?|?]; [congruence|lia]. }
  assert (fragment_data (rr_pool s1) j = fragment_data (rr_pool s) j) as Fd1.
  { unfold fragment_data. f_equal. apply (pr_payload _ _ _ (cr_pool _ _ _ R1)); [|lia].
    intros [?|?]; [congruence|]. destruct Sj. lia. }
  assert (first_room (rr_pool s1) j (fh_packet_length fhj) = first_room (rr_pool s) j (fh_packet_length fhj)) as Fr1.
  { apply first_room_window; [|apply (pr_size _ _ _ (cr_pool _ _ _ R1))].
    by rewrite (sb_window _ _ _ _ Sj), (sb_window _ _ _ _ Sj1). }
  pose proof (set_range c nd ep h (fh_packet_id fhi)) as Hset. fold set in Hset.
  set (pd := Pending key (fh_packet_length fhi) (t1 + LINKG_TRANSPORT_REASSEMBLY_TTL_US)
    (pending_half (fh_fragment_offset fhi) (fragment_data (rr_pool s) i))) in *.
  destruct (cache_find_after (abs_cache t1 s) set key t2 pd Hset (length_abs t1 s W) Hfind eq_refl ltac:(cbn; lia))
    as [Hf2 Hl2]. rewrite <- Ab1, <- abs_later in Hf2, Hl2 by lia.
  destruct (submit_spec mx Hmx t2 s1 j oj nj c nd ep h fhj W1 Sj1 ltac:(lia) Hc Hnd Hfl ltac:(by rewrite <- Hlen) Hej)
    as (r2&s2&E2&A2&O2&P2).
  rewrite <- Hid in A2, O2, P2. fold set in A2, O2, P2. rewrite Ekey in A2, O2, P2.
  unfold cache_submit in A2, O2, P2. rewrite Hf2, Hl2 in A2, O2, P2. unfold cache_merge in A2, O2, P2.
  cbn [pd_length pd pd_half] in A2, O2, P2. rewrite Hlen, Z.eqb_refl in A2, O2, P2. cbn [negb] in A2, O2, P2.
  rewrite Fd1, Fr1 in A2, O2, P2. unfold pending_half in A2, O2, P2. rewrite Hlen in Hrj.
  destruct r2 as [r2 cp]. cbn [fst snd] in A2, P2, O2.
  assert (exists cp', cp = Some cp' /\ r2 = 1 /\ payload (rr_pool s2) cp' =
      (if fh_fragment_offset fhi =? 0 then fragment_data (rr_pool s) i ++ fragment_data (rr_pool s) j
       else fragment_data (rr_pool s) j ++ fragment_data (rr_pool s) i)) as (cp'&->&->&Hpay).
  { rewrite Hoff in A2, P2 |- *. destruct (fh_fragment_offset fhj =? 0) eqn:Ej; cbn [negb] in *.
    - apply Z.eqb_eq in Ej. rewrite (Hrj Ej) in A2, P2. cbn in A2, P2.
      destruct cp as [cp|]; cbn in P2; [|done]. injection P2 as P2. by exists cp.
    - cbn in A2, P2. destruct cp as [cp|]; cbn in P2; [|done]. injection P2 as P2. by exists cp. }
  exists s1, s2, cp'. splits; [done|done|by destruct O2 as [[]]| |done].
  intros k. destruct O2 as [_ Ow2 _ _ _]. rewrite Ow2, Ow1. cbn. lia.
Qed.

(** The two fragments of a datagram, submitted in either
    order before the entry's time to live has passed, complete it: the second
    submission returns 1 and a packet whose payload is the first fragment's
    bytes followed by the tail's, with one reference handed to the caller and no
    other reference outside the cache changed. *)
Theorem reassembly_either_order (mx : mutex_api) (t1 t2 : Z) (s : linkg_transport_reassembly_runtime)
    (i j : pkt_ptr) (oi oj c nd ep id len : Z) (h : linkg_transport_header) :
  mutex_ok mx -> reassembly_wf s -> i <> j -> 1428 < len <= 1500 ->
  submittable s i oi 1444 -> submittable s j oj (len - 1420 + 24) ->
  oi + 24 + len <= po_slot_size (rr_pool s) ->
  0 <= t1 <= t2 -> t2 < t1 + LINKG_TRANSPORT_REASSEMBLY_TTL_US ->
  t2 < 2 ^ 64 - LINKG_TRANSPORT_REASSEMBLY_TTL_US ->
  linkg_transport_class_valid c = true -> _linkg_transport_reassembly_peer_valid nd = true ->
  Z.land (th_flags h) LINKG_TRANSPORT_FLAG_FRAGMENT <> 0 ->
  cache_find (abs_cache t1 s) (_linkg_transport_reassembly_set c nd ep h id)
    (submit_key c nd ep h (FragmentHeader id 0 len)) = None ->
  let submit off p t := _linkg_transport_reassembly_submit_locked mx c nd ep (Some h)
    (Some (FragmentHeader id off len)) (Some p) t false in
  (exists s1 s2 cp, submit 0 i t1 s = Some ((0, None), s1) /\ submit 1420 j t2 s1 = Some ((1, Some cp), s2) /\
     reassembly_wf s2 /\ (forall k, own s2 k = own s k + one_ref cp k) /\
     payload (rr_pool s2) cp = fragment_data (rr_pool s) i ++ fragment_data (rr_pool s) j) /\
  (exists s1 s2 cp, submit 1420 j t1 s = Some ((0, None), s1) /\ submit 0 i t2 s1 = Some ((1, Some cp), s2) /\
     reassembly_wf s2 /\ (forall k, own s2 k = own s k + one_ref cp k) /\
     payload (rr_pool s2) cp = fragment_data (rr_pool s) i ++ fragment_data (rr_pool s) j).
Proof.
  intros Hmx W Hij Hlen Si Sj Hroom Ht1 Ht2 Hmax Hc Hnd Hfl Hfind submit.
  assert (first_room (rr_pool s) i len = true) as Hr.
  { unfold first_room. rewrite (sb_window _ _ _ _ Si). unfold LINKG_TRANSPORT_WIRE_HEADER_MAX_SIZE.
    apply Z.leb_le. lia. }
  assert (fragment_error 0 len 1444 = 0) as E0 by (unfold fragment_error; by bsimp).
  assert (fragment_error 1420 len (len - 1420 + 24) = 0) as E1 by (unfold fragment_error; by bsimp).
  split.
  - destruct (two_fragments mx t1 t2 s i j oi _ oj _ c nd ep h (FragmentHeader id 0 len)
      (FragmentHeader id 1420 len) Hmx W Hij Si Sj) as (s1&s2&cp&H); [first [done | cbn; lia | cbn; mlia]..|].
    by exists s1, s2, cp.
  - destruct (two_fragments mx t1 t2 s j i oj _ oi _ c nd ep h (FragmentHeader id 1420 len)
      (FragmentHeader id 0 len) Hmx W ltac:(congruence) Sj Si) as (s1&s2&cp&H); [first [done | cbn; lia | cbn; mlia]..|].
    by exists s1, s2, cp.
Qed.

(** A batch submitted to an initialised cache always
    returns, with a verdict for each of the [count] items: completed items
    (result 1) and only those carry a packet, items without a peer get -EINVAL
    and items of an outdated peer epoch -ESTALE; the items beyond [count] are not
    touched, the invariant is kept, and every packet gains exactly one outside
    reference per item that completed it. *)
Theorem reassembly_batch_sound (mx : mutex_api) (epochs : nat -> list Z) (now : Z)
    (items : list linkg_transport_reassembly_submit_item) (count : Z)
    (s : linkg_transport_reassembly_runtime) :
  mutex_ok mx -> reassembly_wf s -> rr_initialized s = true ->
  0 < count <= Z.of_nat (length items) -> 0 <= now < 2 ^ 64 - LINKG_TRANSPORT_REASSEMBLY_TTL_US ->
  Forall (item_ready s) (take (Z.to_nat count) items) ->
  NoDup (omap ri_packet (take (Z.to_nat count) items)) ->
  exists done_items s', linkg_transport_reassembly_submit_batch mx epochs now (Some items) count s =
      Some ((0, Some (done_items ++ drop (Z.to_nat count) items)), s') /\
    reassembly_wf s' /\ length done_items = Z.to_nat count /\
    (forall k it it', items !! k = Some it -> done_items !! k = Some it' -> item_verdict (epochs k) it it') /\
    (forall j, own s' j = own s j + sumZ (fun it => held_opt (ri_completed_packet it) j) done_items).
Proof.
  intros Hmx W Hi Hc Hnow Hr Hnd. set (n := Z.to_nat count) in *.
  destruct (gc_spec mx Hmx now s W) as (s1&E1&W1&R1&O1&H1&_&_&_).
  set (batch := item_result (- EINPROGRESS) None <$> take n items).
  assert (omap ri_packet batch = omap ri_packet (take n items)) as Eb.
  { unfold batch. clear. induction (take n items) as [|it l IH]; [done|]. cbn. by rewrite IH. }
  destruct (submit_items_spec mx Hmx epochs now batch s1 0 W1) as (its&s2&E2&W2&O2&L2&V2).
  - unfold batch. apply Forall_fmap. apply (Forall_impl _ _ _ Hr). intros it [Hp Hf]. split; [|exact Hf].
    cbn. intros i Hpi. destruct (Hp i Hpi) as (o&k&[Sw So Sh]). exists o, k.
    specialize (O1 i). specialize (H1 i). pose proof (held_nonneg s1 i).
    split; [|lia|lia]. rewrite (pr_window _ _ _ R1); [done|auto|]. unfold own in *. lia.
  - by rewrite Eb.
  - unfold batch. apply Forall_fmap, Forall_true. done.
  - done.
  - assert (length batch = n) as Lb by (unfold batch; rewrite length_fmap, length_take; lia).
    exists its, s2. splits.
    + unfold linkg_transport_reassembly_submit_batch. bsimp. mrun. rewrite Hi. cbn [negb].
      replace (count <=? Z.of_nat (length items)) with true by (symmetry; apply Z.leb_le; lia). mrun.
      destruct Hmx as (_&->&->&_). cbn [Z.eqb negb]. fold n batch. mstep E1. mstep E2. done.
    + done.
    + by rewrite L2.
    + intros k it it' Hk Hk'. assert (k < n)%nat as Hkn.
      { apply lookup_lt_Some in Hk'. lia. }
      destruct (V2 k (item_result (- EINPROGRESS) None it) it') as (A&B&C&D); [|done|].
      { unfold batch. by rewrite list_lookup_fmap, lookup_take_lt, Hk by done. }
      split; [exact A|]. by split.
    + intros j. by rewrite O2, O1.
Qed.

(** Resetting a peer removes exactly that peer's pending
    halves, whatever the time, releases the packets they held and nothing else,
    and counts the released fragments in the global statistic. *)
Theorem reassembly_reset_peer_spec (mx : mutex_api) (nd : Z) (s : linkg_transport_reassembly_runtime) :
  mutex_ok mx -> reassembly_wf s -> rr_initialized s = true ->
  _linkg_transport_reassembly_peer_valid nd = true -> 0 <= rr_reset_frames s < 2 ^ 64 - 128 ->
  exists s', linkg_transport_reassembly_reset_peer mx nd s = Some (0, s') /\ reassembly_wf s' /\
    (forall now, abs_cache now s' = strip_peer nd <$> abs_cache now s) /\
    (forall e x, rr_entries s' !! e = Some x -> entry_of_peer nd x = false) /\
    (forall j, own s' j = own s j) /\ pool_rel untouched (rr_pool s) (rr_pool s') /\
    rr_reset_frames s' = rr_reset_frames s + peer_frames nd s all_entries.
Proof.
  intros Hmx W Hi Hnd Hf.
  destruct (reset_loop mx Hmx nd all_entries s 0 W) as (s1&E1&R1&O1&U1&A1&C1).
  { intros e. apply all_entries_spec. }
  { apply all_entries_nodup. }
  { done. }
  { vm_compute. done. }
  pose proof (peer_frames_range nd s all_entries) as Hpf.
  change (Z.of_nat (length all_entries)) with 128 in Hpf.
  pose proof (cr_wf _ _ _ R1) as W1.
  exists (set_reset_frames (rr_reset_frames s + peer_frames nd s all_entries) s1). splits.
  - unfold linkg_transport_reassembly_reset_peer. rewrite Hnd. cbn [negb]. mrun. rewrite Hi. cbn [negb].
    destruct Hmx as (_&->&->&_). cbn [Z.eqb negb]. mstep E1.
    unfold _linkg_transport_reassembly_record_reset. rewrite Z.add_0_l.
    destruct (peer_frames nd s all_entries =? 0) eqn:E0.
    + apply Z.eqb_eq in E0. rewrite E0. mrun. rewrite <- (cr_frames _ _ _ R1), Z.add_0_r. by destruct s1.
    + mrun. rewrite (cr_frames _ _ _ R1). cbn. rewrite wrap_small by mlia. done.
  - destruct W1. by split.
  - intros now. apply list_eq. intros e. rewrite list_lookup_fmap.
    change (abs_cache now (set_reset_frames _ s1)) with (abs_cache now s1). rewrite A1.
    destruct (decide (e ∈ all_entries)) as [|Hn]; [done|]. rewrite all_entries_spec in Hn.
    rewrite lookup_ge_None_2; [done|]. rewrite (length_abs now s W). lia.
  - intros e x Hx. apply (C1 e); [|done]. apply all_entries_spec.
    apply lookup_lt_Some in Hx. cbn in Hx. by rewrite (rw_len _ W1) in Hx.
  - exact O1.
  - exact (cr_pool _ _ _ R1).
  - done.
Qed.

(** Deinitialising releases every cached packet: afterwards
    the references of each packet are exactly those held outside the cache, the
    cache is empty and marked uninitialised. *)
Theorem reassembly_deinit_releases (mx : mutex_api) (s : linkg_transport_reassembly_runtime) :
  mutex_ok mx -> reassembly_wf s -> rr_initialized s = true ->
  exists s', linkg_transport_reassembly_runtime_deinit mx s = Some (0, s') /\ reassembly_wf s' /\
    rr_initialized s' = false /\ rr_entries s' = replicate entry_count entry_zero /\
    (forall j, refs (rr_pool s') j = own s j).
Proof.
  intros Hmx W Hi.
  destruct (clear_loop mx Hmx all_entries s W) as (s1&E1&R1&O1&Z1&_).
  { intros e. apply all_entries_spec. }
  { apply all_entries_nodup. }
  pose proof (cr_wf _ _ _ R1) as W1.
  assert (rr_entries s1 = replicate entry_count entry_zero) as Ez.
  { apply entries_all_zero; [apply W1|]. intros e He. by apply Z1, all_entries_spec. }
  exists (runtime_zero s1). splits; [|by apply empty_cache_wf, W1|done|done|].
  - unfold linkg_transport_reassembly_runtime_deinit. mrun. rewrite Hi. cbn [negb].
    destruct Hmx as (_&->&->&->). cbn [Z.eqb negb]. mstep E1. done.
  - intros j. cbn. specialize (O1 j). unfold own in O1 at 1. rewrite (held_zero s1 j Ez) in O1. lia.
Qed.

(** A sweep is invisible at its time stamp: the unexpired
    pending halves, the references outside the cache and the live packets are
    unchanged; when it is due, no expired entry survives it. *)
Theorem reassembly_gc_transparent (mx : mutex_api) (now : Z) (s : linkg_transport_reassembly_runtime) :
  mutex_ok mx -> reassembly_wf s ->
  exists s', _linkg_transport_reassembly_gc_locked mx now s = Some (tt, s') /\ reassembly_wf s' /\
    abs_cache now s' = abs_cache now s /\ (forall j, own s' j = own s j) /\
    pool_rel untouched (rr_pool s) (rr_pool s') /\
    (gc_due now s = true -> rr_last_gc_us s' = now /\
       forall e x, rr_entries s' !! e = Some x -> _linkg_transport_reassembly_expired x now = false).
Proof.
  intros Hmx W. destruct (gc_spec mx Hmx now s W) as (s1&E1&W1&R1&O1&H1&A1&_&D1). by exists s1.
Qed.

(** ** Instances

    Packet 1 holds the first fragment's frame (1444 bytes), packet 0 the tail's
    (104 bytes) of a datagram of 1500 bytes. *)

Definition rx_pool0 : linkg_packet_pool :=
  final (pool_zero 7) (linkg_packet_pool_alloc mutex_default (Some 7%nat) (frame_pool 1444)).

Definition rx_pool : linkg_packet_pool :=
  final (pool_zero 7) (packet_update 0 (set_window 64 104) rx_pool0).

Lemma rx_pool_wf : pool_wf rx_pool.
Proof.
  destruct (frame_pool_live 1444 ltac:(lia)) as (W0&_).
  destruct (pop_spec (frame_pool 1444) W0 ltac:(vm_compute; done)) as (p'&i&k&E&W&_).
  assert (pool_pop (frame_pool 1444) = Some (Some 0%nat, rx_pool0)) as E' by (vm_compute; reflexivity).
  destruct (run_inj _ _ _ _ _ E E') as [_ ->].
  assert (live rx_pool0 0 (Packet (Some 7%nat) (Some 0) 1 64 0 0)) as L.
  { split; [done|]. split; vm_compute; reflexivity. }
  destruct (window_spec rx_pool0 0 _ 64 104 L) as (p2&E2&(W2&_)&_); [lia..| |].
  { assert (po_slot_size rx_pool0 = 1600) as -> by (vm_compute; reflexivity). lia. }
  unfold rx_pool. by rewrite E2.
Qed.

Definition rx_cache : linkg_transport_reassembly_runtime :=
  ReassemblyRuntime rx_pool (replicate entry_count entry_zero) 0 true 0.

Lemma rx_cache_wf : reassembly_wf rx_cache.
Proof. apply empty_cache_wf, rx_pool_wf. Qed.

Lemma rx_first : submittable rx_cache 1 64 1444.
Proof. split; vm_compute; by try split. Qed.

Lemma rx_tail : submittable rx_cache 0 64 104.
Proof. split; vm_compute; by try split. Qed.

Definition rx_header : linkg_transport_header :=
  Header 0 0 LINKG_TRANSPORT_TYPE_USER_DATA LINKG_TRANSPORT_FLAG_FRAGMENT 5 1 2 0.

Definition rx_tail_header : linkg_transport_fragment_header := FragmentHeader 9 1420 1500.

(** The tail is pending. *)
Definition rx_cache1 : linkg_transport_reassembly_runtime :=
  final rx_cache (_linkg_transport_reassembly_submit_locked mutex_default 1 3 2 (Some rx_header)
    (Some rx_tail_header) (Some 0%nat) 1000 false rx_cache).

Lemma rx_cache1_wf : reassembly_wf rx_cache1.
Proof.
  destruct (submit_spec mutex_default mutex_default_ok 1000 rx_cache 0 64 104 1 3 2 rx_header
    rx_tail_header rx_cache_wf rx_tail) as (r&s'&E&_&O&_).
  - unfold LINKG_TRANSPORT_REASSEMBLY_TTL_US. lia.
  - reflexivity.
  - reflexivity.
  - vm_compute. discriminate.
  - cbn. lia.
  - reflexivity.
  - pose proof (cr_wf _ _ _ (oc_rel _ _ _ _ _ _ O)) as W.
    unfold rx_cache1. rewrite E. exact W.
Qed.

Lemma reassembly_submit_refines_witness :
  exists r s', _linkg_transport_reassembly_submit_locked mutex_default 1 3 2 (Some rx_header)
      (Some rx_tail_header) (Some 0%nat) 1000 false rx_cache = Some (r, s') /\
    submit_outcome 1000 rx_cache s' 0
      (cache_submit (_linkg_transport_reassembly_set 1 3 2 rx_header (fh_packet_id rx_tail_header))
         (submit_key 1 3 2 rx_header rx_tail_header)
         (fh_fragment_offset rx_tail_header) (fh_packet_length rx_tail_header)
         (fragment_data (rr_pool rx_cache) 0)
         (first_room (rr_pool rx_cache) 0 (fh_packet_length rx_tail_header))
         (1000 + LINKG_TRANSPORT_REASSEMBLY_TTL_US) (abs_cache 1000 rx_cache)) r.
Proof.
  apply (reassembly_submit_refines mutex_default 1000 rx_cache 0 64 104 1 3 2 rx_header
           rx_tail_header).
  - apply mutex_default_ok.
  - apply rx_cache_wf.
  - apply rx_tail.
  - unfold LINKG_TRANSPORT_REASSEMBLY_TTL_US. lia.
  - reflexivity.
  - reflexivity.
  - vm_compute. discriminate.
  - cbn. lia.
  - reflexivity.
Defined.

Lemma reassembly_either_order_witness :
  exists s1 s2 cp,
    _linkg_transport_reassembly_submit_locked mutex_default 1 3 2 (Some rx_header)
      (Some (FragmentHeader 9 1420 1500)) (Some 0%nat) 1000 false rx_cache = Some ((0, None), s1) /\
    _linkg_transport_reassembly_submit_locked mutex_default 1 3 2 (Some rx_header)
      (Some (FragmentHeader 9 0 1500)) (Some 1%nat) 2000 false s1 = Some ((1, Some cp), s2) /\
    reassembly_wf s2 /\ (forall k, own s2 k = own rx_cache k + one_ref cp k) /\
    payload (rr_pool s2) cp = fragment_data (rr_pool rx_cache) 1 ++ fragment_data (rr_pool rx_cache) 0.
Proof.
  refine (proj2 (reassembly_either_order mutex_default 1000 2000 rx_cache 1 0 64 64 1 3 2 9 1500 rx_header
    _ _ _ _ _ _ _ _ _ _ _ _ _ _)).
  - apply mutex_default_ok.
  - apply rx_cache_wf.
  - discriminate.
  - lia.
  - apply rx_first.
  - apply rx_tail.
  - vm_compute. discriminate.
  - lia.
  - unfold LINKG_TRANSPORT_REASSEMBLY_TTL_US. lia.
  - unfold LINKG_TRANSPORT_REASSEMBLY_TTL_US. lia.
  - reflexivity.
  - reflexivity.
  - vm_compute. discriminate.
  - vm_compute. reflexivity.
Defined.

Definition rx_item : linkg_transport_reassembly_submit_item :=
  ReassemblyItem (Some rx_header) (Some (FragmentHeader 9 0 1500)) (Some 1%nat) None (Some 0%nat) 2 1 (-7) 3.

Lemma rx_item_ready : item_ready rx_cache1 rx_item.
Proof.
  split; cbn.
  - intros i [= <-]. exists 64, 1444. split; vm_compute; by try split.
  - intros fh [= <-]. cbn. lia.
Qed.

Lemma reassembly_batch_sound_witness :
  exists done_items s', linkg_transport_reassembly_submit_batch mutex_default (fun _ => [2]) 3000
      (Some [rx_item]) 1 rx_cache1 = Some ((0, Some (done_items ++ [])), s') /\
    reassembly_wf s' /\ length done_items = 1%nat /\
    (forall k it it', [rx_item] !! k = Some it -> done_items !! k = Some it' -> item_verdict [2] it it') /\
    (forall j, own s' j = own rx_cache1 j +
       sumZ (fun it => held_opt (ri_completed_packet it) j) done_items).
Proof.
  apply (reassembly_batch_sound mutex_default (fun _ => [2]) 3000 [rx_item] 1 rx_cache1).
  - apply mutex_default_ok.
  - apply rx_cache1_wf.
  - vm_compute. reflexivity.
  - cbn. lia.
  - unfold LINKG_TRANSPORT_REASSEMBLY_TTL_US. lia.
  - cbn. apply Forall_cons. split; [apply rx_item_ready|apply Forall_nil_2].
  - cbn. apply NoDup_singleton.
Defined.

Lemma reassembly_reset_peer_spec_witness :
  peer_frames 3 rx_cache1 all_entries = 1 /\
  exists s', linkg_transport_reassembly_reset_peer mutex_default 3 rx_cache1 = Some (0, s') /\
    reassembly_wf s' /\
    (forall now, abs_cache now s' = strip_peer 3 <$> abs_cache now rx_cache1) /\
    (forall e x, rr_entries s' !! e = Some x -> entry_of_peer 3 x = false) /\
    (forall j, own s' j = own rx_cache1 j) /\ pool_rel untouched (rr_pool rx_cache1) (rr_pool s') /\
    rr_reset_frames s' = rr_reset_frames rx_cache1 + peer_frames 3 rx_cache1 all_entries.
Proof.
  split; [vm_compute; reflexivity|].
  apply (reassembly_reset_peer_spec mutex_default 3 rx_cache1).
  - apply mutex_default_ok.
  - apply rx_cache1_wf.
  - vm_compute. reflexivity.
  - reflexivity.
  - vm_compute. by split.
Defined.

Lemma reassembly_deinit_releases_witness :
  exists s', linkg_transport_reassembly_runtime_deinit mutex_default rx_cache1 = Some (0, s') /\
    reassembly_wf s' /\ rr_initialized s' = false /\ rr_entries s' = replicate entry_count entry_zero /\
    (forall j, refs (rr_pool s') j = own rx_cache1 j).
Proof.
  apply (reassembly_deinit_releases mutex_default rx_cache1).
  - apply mutex_default_ok.
  - apply rx_cache1_wf.
  - vm_compute. reflexivity.
Defined.

Lemma reassembly_gc_transparent_witness :
  exists s', _linkg_transport_reassembly_gc_locked mutex_default 500000 rx_cache1 = Some (tt, s') /\
    reassembly_wf s' /\ abs_cache 500000 s' = abs_cache 500000 rx_cache1 /\
    (forall j, own s' j = own rx_cache1 j) /\ pool_rel untouched (rr_pool rx_cache1) (rr_pool s') /\
    (gc_due 500000 rx_cache1 = true -> rr_last_gc_us s' = 500000 /\
       forall e x, rr_entries s' !! e = Some x -> _linkg_transport_reassembly_expired x 500000 = false).
Proof.
  apply (reassembly_gc_transparent mutex_default 500000 rx_cache1).
  - apply mutex_default_ok.
  - apply rx_cache1_wf.
Defined.
