(* ===== verification/TransportForward.v ===== *)
(** * Relay fragment pairing  (core/transport/transport_forward.c)

    The two-way set-associative cache in which a relaying node holds the first
    fragment to arrive of a forwarded datagram until the other one comes, so that
    the pair leaves as one transmit group, FIRST before LAST. The cache only holds
    references and edits traffic flags: it is written and proved against the
    interface [PacketStore]. *)

From S2P Require Import Prelude.
From S2P Require Import PacketStore.
From S2P Require Import PacketPool.
From S2P Require Import TransportTypes.

(** ** Data *)

Definition LINKG_TRANSPORT_FORWARD_PAIR_SET_COUNT := 32.
Definition LINKG_TRANSPORT_FORWARD_PAIR_WAYS := 2.
Definition LINKG_TRANSPORT_FORWARD_PAIR_TTL_US := 60000.
Definition LINKG_TRANSPORT_FORWARD_PAIR_GC_INTERVAL_US := 5000.

Record linkg_transport_forward_pair_entry := PairEntry {
  fe_packet : option pkt_ptr;
  fe_expires_at_us : Z;
  fe_packet_id : Z;
  fe_peer_epoch : Z;
  fe_payload_length : Z;
  fe_type : Z;
  fe_traffic_class : Z;
  fe_packet_length : Z;
  fe_fragment_offset : Z;
  fe_source_node_id : Z;
  fe_destination_node_id : Z;
  fe_peer_node_id : Z;
  fe_valid : bool }.

Definition pair_zero : linkg_transport_forward_pair_entry :=
  PairEntry None 0 0 0 0 0 0 0 0 0 0 0 false.

(** [g_transport.forward_pairs], the packets it refers to and the global
    statistics it maintains. *)
Record linkg_transport_forward_pair_runtime (S : Type) := PairRuntime {
  fr_store : S;
  fr_entries : list linkg_transport_forward_pair_entry;
  fr_last_gc_us : Z;
  fr_initialized : bool;
  fr_incomplete_bytes : Z;
  fr_incomplete_frames : Z;
  fr_reset_frames : Z }.
Arguments PairRuntime {S}.
Arguments fr_store {S}.
Arguments fr_entries {S}.
Arguments fr_last_gc_us {S}.
Arguments fr_initialized {S}.
Arguments fr_incomplete_bytes {S}.
Arguments fr_incomplete_frames {S}.
Arguments fr_reset_frames {S}.

Definition pair_count : nat :=
  Z.to_nat (LINKG_TRANSPORT_FORWARD_PAIR_SET_COUNT * LINKG_TRANSPORT_FORWARD_PAIR_WAYS).

Definition all_pairs : list nat :=
  nat_upto (LINKG_TRANSPORT_FORWARD_PAIR_SET_COUNT * LINKG_TRANSPORT_FORWARD_PAIR_WAYS).

Definition pair_of (set way : Z) : nat := Z.to_nat (set * LINKG_TRANSPORT_FORWARD_PAIR_WAYS + way).

(** The counters [*dropped_bytes] and [*dropped_frames] of the callers. *)
Abbreviation drops := (Z * Z)%type.

(** ** Helpers without packets *)

Definition _linkg_transport_forward_peer_valid (peer_node_id : Z) : bool :=
  (LINKG_RESOURCE_NODE_ID_MIN <=? peer_node_id) && (peer_node_id <=? LINKG_RESOURCE_NODE_ID_MAX).

Definition _linkg_transport_forward_pair_set (traffic_class peer_node_id peer_epoch : Z)
    (header : linkg_transport_header) (packet_id : Z) : Z :=
  let hash := u32 (packet_id * 0x85EBCA6B) in
  let hash := Z.lxor hash (u32 (th_source_node_id header * 0x9E3779B1)) in
  let hash := Z.lxor hash (u32 (th_destination_node_id header * 0xC2B2AE35)) in
  let hash := Z.lxor hash (u32 (th_type header * 0x27D4EB2F)) in
  let hash := Z.lxor hash (u32 (peer_node_id * 0x165667B1)) in
  let hash := Z.lxor hash (u32 (traffic_class * 0xD3A2646C)) in
  let hash := Z.lxor hash (u32 (peer_epoch * 0xA24BAED5)) in
  let hash := Z.lxor hash (Z.shiftr hash 16) in
  Z.land hash (LINKG_TRANSPORT_FORWARD_PAIR_SET_COUNT - 1).

Definition _linkg_transport_forward_pair_match (entry : linkg_transport_forward_pair_entry)
    (traffic_class peer_node_id peer_epoch : Z) (header : linkg_transport_header)
    (fragment_header : linkg_transport_fragment_header) : bool :=
  if negb (fe_valid entry) then false
  else (fe_traffic_class entry =? traffic_class) && (fe_peer_node_id entry =? peer_node_id) &&
       (fe_peer_epoch entry =? peer_epoch) && (fe_source_node_id entry =? th_source_node_id header) &&
       (fe_destination_node_id entry =? th_destination_node_id header) &&
       (fe_type entry =? th_type header) && (fe_packet_id entry =? fh_packet_id fragment_header).

Definition _linkg_transport_forward_pair_expired (entry : linkg_transport_forward_pair_entry)
    (now_us : Z) : bool :=
  fe_valid entry && (fe_expires_at_us entry <=? now_us).

(** [flags & ~GROUP_MASK | FIRST] and [flags & ~GROUP_MASK | LAST]. *)
Definition group_first (flags : Z) : Z :=
  Z.lor (Z.land flags (u32 (Z.lnot LINKG_PACKET_FLAG_TX_GROUP_MASK))) LINKG_PACKET_FLAG_TX_GROUP_FIRST.
Definition group_last (flags : Z) : Z :=
  Z.lor (Z.land flags (u32 (Z.lnot LINKG_PACKET_FLAG_TX_GROUP_MASK))) LINKG_PACKET_FLAG_TX_GROUP_LAST.

Section Forward.
Context {S : Type} `{PS : PacketStore S}.

Abbreviation runtime := (linkg_transport_forward_pair_runtime S).
Abbreviation FM := (M runtime).

Definition fset_store (st : S) (s : runtime) : runtime :=
  PairRuntime st (fr_entries s) (fr_last_gc_us s) (fr_initialized s) (fr_incomplete_bytes s)
    (fr_incomplete_frames s) (fr_reset_frames s).
Definition fset_entries (es : list linkg_transport_forward_pair_entry) (s : runtime) : runtime :=
  PairRuntime (fr_store s) es (fr_last_gc_us s) (fr_initialized s) (fr_incomplete_bytes s)
    (fr_incomplete_frames s) (fr_reset_frames s).
Definition fset_last_gc (t : Z) (s : runtime) : runtime :=
  PairRuntime (fr_store s) (fr_entries s) t (fr_initialized s) (fr_incomplete_bytes s)
    (fr_incomplete_frames s) (fr_reset_frames s).
Definition fset_initialized (b : bool) (s : runtime) : runtime :=
  PairRuntime (fr_store s) (fr_entries s) (fr_last_gc_us s) b (fr_incomplete_bytes s)
    (fr_incomplete_frames s) (fr_reset_frames s).
Definition fset_stats (bytes frames reset : Z) (s : runtime) : runtime :=
  PairRuntime (fr_store s) (fr_entries s) (fr_last_gc_us s) (fr_initialized s) bytes frames reset.

(** [memset(&g_transport.forward_pairs, 0, ...)]. *)
Definition pairs_zero (s : runtime) : runtime :=
  PairRuntime (fr_store s) (replicate pair_count pair_zero) 0 false (fr_incomplete_bytes s)
    (fr_incomplete_frames s) (fr_reset_frames s).

Definition store_op {A} (m : M S A) : FM A := zoom fr_store fset_store m.

Definition pair_at (e : nat) : FM linkg_transport_forward_pair_entry :=
  s ← get; of_option (fr_entries s !! e).

Definition pair_write (e : nat) (x : linkg_transport_forward_pair_entry) : FM unit :=
  s ← get;
  assert_ (bool_decide (e < length (fr_entries s))%nat) ;;
  modify (fset_entries (<[e := x]> (fr_entries s))).

(** ** Entries *)

Definition _linkg_transport_forward_pair_entry_clear (entry : option nat) : FM unit :=
  match entry with
  | None => mret tt
  | Some e =>
      x ← pair_at e;
      when (negb (bool_decide (fe_packet x = None))) (store_op (ps_release (fe_packet x))) ;;
      pair_write e pair_zero
  end.

(** Takes the counters and returns them updated. *)
Definition _linkg_transport_forward_pair_entry_drop (entry : option nat) (dropped : drops) : FM drops :=
  match entry with
  | None => mret dropped
  | Some e =>
      x ← pair_at e;
      if negb (fe_valid x) then mret dropped
      else
        let dropped' :=
          if bool_decide (fe_packet x = None) then dropped
          else (u64 (fst dropped + fe_payload_length x), u64 (snd dropped + 1)) in
        _linkg_transport_forward_pair_entry_clear entry ;;
        mret dropped'
  end.

Definition _linkg_transport_forward_record_incomplete (bytes frames : Z) : FM unit :=
  if (bytes =? 0) && (frames =? 0) then mret tt
  else modify (fun s => fset_stats (u64 (fr_incomplete_bytes s + bytes))
                          (u64 (fr_incomplete_frames s + frames)) (fr_reset_frames s) s).

Definition _linkg_transport_forward_record_reset (bytes frames : Z) : FM unit :=
  if (bytes =? 0) && (frames =? 0) then mret tt
  else modify (fun s => fset_stats (u64 (fr_incomplete_bytes s + bytes))
                          (u64 (fr_incomplete_frames s + frames))
                          (u64 (fr_reset_frames s + frames)) s).

(** The sweeps of the file: drop the entries of [es] that satisfy [test]. *)
Fixpoint drop_entries (test : linkg_transport_forward_pair_entry -> bool) (es : list nat)
    (dropped : drops) : FM drops :=
  match es with
  | [] => mret dropped
  | e :: es' =>
      x ← pair_at e;
      d ← (if test x then _linkg_transport_forward_pair_entry_drop (Some e) dropped else mret dropped);
      drop_entries test es' d
  end.

Definition _linkg_transport_forward_pair_gc_locked (now_us : Z) (dropped : drops) : FM drops :=
  s ← get;
  if negb (fr_last_gc_us s =? 0) &&
     (u64 (now_us - fr_last_gc_us s) <? LINKG_TRANSPORT_FORWARD_PAIR_GC_INTERVAL_US)
  then mret dropped
  else
    d ← drop_entries (fun x => _linkg_transport_forward_pair_expired x now_us) all_pairs dropped;
    modify (fset_last_gc now_us) ;;
    mret d.

(** The entry after [create]'s assignments. *)
Definition pair_new (traffic_class peer_node_id peer_epoch : Z) (header : linkg_transport_header)
    (fragment_header : linkg_transport_fragment_header) (packet : option pkt_ptr)
    (payload_length now_us : Z) : linkg_transport_forward_pair_entry :=
  PairEntry packet (u64 (now_us + LINKG_TRANSPORT_FORWARD_PAIR_TTL_US)) (fh_packet_id fragment_header)
    peer_epoch payload_length (th_type header) traffic_class (fh_packet_length fragment_header)
    (fh_fragment_offset fragment_header) (th_source_node_id header) (th_destination_node_id header)
    peer_node_id true.

Definition _linkg_transport_forward_pair_create_locked (entry : option nat)
    (traffic_class peer_node_id peer_epoch : Z) (header : option linkg_transport_header)
    (fragment_header : option linkg_transport_fragment_header) (packet : option pkt_ptr)
    (payload_length now_us : Z) : FM Z :=
  match entry, header, fragment_header, packet with
  | Some e, Some h, Some fh, Some _ =>
      store_op (ps_retain packet) ;;
      pair_write e (pair_new traffic_class peer_node_id peer_epoch h fh packet payload_length now_us) ;;
      mret 0
  | _, _, _, _ => mret (- EINVAL)
  end.

(** [packet->flags = f(packet->flags)]. *)
Definition update_flags (packet : option pkt_ptr) (f : Z -> Z) : FM unit :=
  match packet with
  | Some i => store_op (ps_update_flags i f)
  | None => stuck
  end.

(** The second component is the output array when it is written; its length is
    [*output_count]. *)
Definition _linkg_transport_forward_pair_complete_locked (entry : option nat) (peer_node_id : Z)
    (header : option linkg_transport_header) (fragment_header : option linkg_transport_fragment_header)
    (packet : option pkt_ptr) (payload_length : Z) (output_null : bool)
    : FM (Z * option (list linkg_transport_forward_item)) :=
  match entry, header, fragment_header, packet with
  | Some e, Some h, Some _, Some _ =>
      if output_null then mret (- EINVAL, None)
      else
        store_op (ps_retain packet) ;;
        x ← pair_at e;
        let '(first_packet, first_payload_length, tail_packet, tail_payload_length) :=
          if fe_fragment_offset x =? 0
          then (fe_packet x, fe_payload_length x, packet, payload_length)
          else (packet, payload_length, fe_packet x, fe_payload_length x) in
        update_flags first_packet group_first ;;
        update_flags tail_packet group_last ;;
        pair_write e pair_zero ;;
        mret (0, Some [ForwardItem first_packet first_payload_length (th_destination_node_id h) peer_node_id;
                       ForwardItem tail_packet tail_payload_length (th_destination_node_id h) peer_node_id])
  | _, _, _, _ => mret (- EINVAL, None)
  end.

(** ** Submission *)

Fixpoint scan_pairs (set : Z) (ways : list Z) (traffic_class peer_node_id peer_epoch : Z)
    (header : linkg_transport_header) (fragment_header : linkg_transport_fragment_header) (now_us : Z)
    (free_entry oldest_entry : option nat) (dropped : drops)
    : FM (option nat * option nat * option nat * drops) :=
  match ways with
  | [] => mret (None, free_entry, oldest_entry, dropped)
  | way :: ways' =>
      let candidate := pair_of set way in
      x ← pair_at candidate;
      dropped ← (if _linkg_transport_forward_pair_expired x now_us
                 then _linkg_transport_forward_pair_entry_drop (Some candidate) dropped
                 else mret dropped);
      x ← pair_at candidate;
      if _linkg_transport_forward_pair_match x traffic_class peer_node_id peer_epoch header fragment_header
      then mret (Some candidate, free_entry, oldest_entry, dropped)
      else if negb (fe_valid x)
      then scan_pairs set ways' traffic_class peer_node_id peer_epoch header fragment_header now_us
             (match free_entry with None => Some candidate | _ => free_entry end) oldest_entry dropped
      else
        older ← match oldest_entry with
                | None => mret true
                | Some o => y ← pair_at o; mret (fe_expires_at_us x <? fe_expires_at_us y)
                end;
        scan_pairs set ways' traffic_class peer_node_id peer_epoch header fragment_header now_us
          free_entry (if (older : bool) then Some candidate else oldest_entry) dropped
  end.

(** Result code, outputs ([Some []] once [*output_count] has been zeroed) and
    the counters. *)
Definition _linkg_transport_forward_pair_submit_locked (traffic_class peer_node_id peer_epoch : Z)
    (header : option linkg_transport_header) (fragment_header : option linkg_transport_fragment_header)
    (packet : option pkt_ptr) (payload_length now_us : Z) (output_null : bool) (dropped : drops)
    : FM (Z * option (list linkg_transport_forward_item) * drops) :=
  match header, fragment_header, packet with
  | Some h, Some fh, Some _ =>
      if output_null then mret (- EINVAL, None, dropped)
      else
        let set := _linkg_transport_forward_pair_set traffic_class peer_node_id peer_epoch h (fh_packet_id fh) in
        found ← scan_pairs set [0; 1] traffic_class peer_node_id peer_epoch h fh now_us None None dropped;
        let '(entry, free_entry, oldest_entry, dropped) := found in
        match entry with
        | None =>
            match (match free_entry with Some f => Some f | None => oldest_entry end) with
            | None => mret (- ENOSPC, Some [], dropped)
            | Some n =>
                x ← pair_at n;
                dropped ← (if fe_valid x
                           then _linkg_transport_forward_pair_entry_drop (Some n) dropped
                           else mret dropped);
                ret ← _linkg_transport_forward_pair_create_locked (Some n) traffic_class peer_node_id
                        peer_epoch header fragment_header packet payload_length now_us;
                mret (ret, Some [], dropped)
            end
        | Some e =>
            x ← pair_at e;
            if negb (fe_packet_length x =? fh_packet_length fh) then
              dropped ← _linkg_transport_forward_pair_entry_drop (Some e) dropped;
              mret (- EPROTO, Some [], dropped)
            else if fe_fragment_offset x =? fh_fragment_offset fh then mret (0, Some [], dropped)
            else
              r ← _linkg_transport_forward_pair_complete_locked (Some e) peer_node_id header
                    fragment_header packet payload_length output_null;
              mret (fst r, match snd r with None => Some [] | o => o end, dropped)
        end
  | _, _, _ => mret (- EINVAL, None, dropped)
  end.

(** ** Life cycle *)

Definition linkg_transport_forward_pair_runtime_init (mx : mutex_api) : FM Z :=
  s ← get;
  if fr_initialized s then mret (- EALREADY)
  else
    modify pairs_zero ;;
    if negb (mtx_init mx =? 0) then modify pairs_zero ;; mret (- mtx_init mx)
    else modify (fset_initialized true) ;; mret 0.

Definition linkg_transport_forward_pair_runtime_deinit (mx : mutex_api) : FM Z :=
  s ← get;
  if negb (fr_initialized s) then mret 0
  else if negb (mtx_lock mx =? 0) then mret (- mtx_lock mx)
  else
    d ← drop_entries (fun _ => true) all_pairs (0, 0);
    modify (fset_initialized false) ;;
    if negb (mtx_unlock mx =? 0) then modify (fset_initialized true) ;; mret (- mtx_unlock mx)
    else
      _linkg_transport_forward_record_incomplete (fst d) (snd d) ;;
      if negb (mtx_destroy mx =? 0) then modify (fset_initialized true) ;; mret (- mtx_destroy mx)
      else modify pairs_zero ;; mret 0.

Definition linkg_transport_forward_pair_reset_peer (mx : mutex_api) (peer_node_id : Z) : FM Z :=
  if negb (_linkg_transport_forward_peer_valid peer_node_id) then mret (- EINVAL)
  else
    s ← get;
    if negb (fr_initialized s) then mret 0
    else if negb (mtx_lock mx =? 0) then mret (- mtx_lock mx)
    else
      d ← drop_entries (fun x => fe_valid x && (fe_peer_node_id x =? peer_node_id)) all_pairs (0, 0);
      if negb (mtx_unlock mx =? 0) then mret (- mtx_unlock mx)
      else _linkg_transport_forward_record_reset (fst d) (snd d) ;; mret 0.

(** [transport_initialized] and [local_role_ap] are [g_transport.initialized]
    and [g_transport.local_role == LINKG_DEVICE_ROLE_AP]; [epochs] are the peer
    epochs when the lock is held, [now_us] is [linkg_time_elapsed_us()]. *)
Definition linkg_transport_forward_pair_submit (mx : mutex_api) (transport_initialized local_role_ap : bool)
    (epochs : list Z) (now_us : Z) (peer : option peer_ptr) (peer_epoch traffic_class peer_node_id : Z)
    (header : option linkg_transport_header) (fragment_header : option linkg_transport_fragment_header)
    (packet : option pkt_ptr) (payload_length : Z) (output_null : bool)
    : FM (Z * option (list linkg_transport_forward_item)) :=
  s ← get;
  if negb transport_initialized || negb (fr_initialized s) then mret (- ENODEV, None)
  else if negb local_role_ap then mret (- EPERM, None)
  else match peer, header, fragment_header, packet with
  | Some _, Some h, Some _, Some _ =>
      if negb (linkg_transport_class_valid traffic_class) ||
         negb (_linkg_transport_forward_peer_valid peer_node_id) || output_null || (payload_length =? 0)
      then mret (- EINVAL, None)
      else if Z.land (th_flags h) LINKG_TRANSPORT_FLAG_FRAGMENT =? 0 then mret (- EINVAL, None)
      else if negb (mtx_lock mx =? 0) then mret (- mtx_lock mx, Some [])
      else if negb (linkg_transport_peer_epoch_matches epochs peer peer_epoch)
      then mret (if mtx_unlock mx =? 0 then - ESTALE else - mtx_unlock mx, Some [])
      else
        d ← _linkg_transport_forward_pair_gc_locked now_us (0, 0);
        r ← _linkg_transport_forward_pair_submit_locked traffic_class peer_node_id peer_epoch header
              fragment_header packet payload_length now_us output_null d;
        let '(ret, outputs, d) := r in
        _linkg_transport_forward_record_incomplete (fst d) (snd d) ;;
        if negb (ret =? 0) then mret (ret, outputs)
        else mret (if mtx_unlock mx =? 0 then 0 else - mtx_unlock mx, outputs)
  | _, _, _, _ => mret (- EINVAL, None)
  end.

(** ** Invariant *)

Definition pair_held (s : runtime) (j : nat) : Z := sumZ (fun x => held_opt (fe_packet x) j) (fr_entries s).

(** Fragments waiting in the cache. *)
Definition cached (s : runtime) : Z := sumZ (fun x => if fe_valid x then 1 else 0) (fr_entries s).

Definition pair_ok (x : linkg_transport_forward_pair_entry) : Prop :=
  if fe_valid x then is_Some (fe_packet x) else fe_packet x = None.

Record pairs_wf (s : runtime) : Prop := {
  fw_inv : ps_inv (fr_store s);
  fw_len : length (fr_entries s) = pair_count;
  fw_ok : forall e x, fr_entries s !! e = Some x -> pair_ok x;
  fw_once : forall j, pair_held s j <= 1;
  fw_refs : forall j, pair_held s j <= ps_refs (fr_store s) j }.

(** References held outside the cache. *)
Definition pair_own (s : runtime) (j : nat) : Z := ps_refs (fr_store s) j - pair_held s j.

(** The abstract cache: the unexpired entries. *)
Definition fabs (now : Z) (s : runtime) : list (option linkg_transport_forward_pair_entry) :=
  (fun x => if fe_valid x && negb (_linkg_transport_forward_pair_expired x now) then Some x else None)
    <$> fr_entries s.

(** Packets outside [T] that are still referenced keep their flags; the module's
    own fields are unchanged. *)
Record pairs_rel (T : nat -> Prop) (s s' : runtime) : Prop := {
  fl_wf : pairs_wf s';
  fl_live : forall j, 0 < ps_refs (fr_store s') j -> 0 < ps_refs (fr_store s) j;
  fl_flags : forall j, ~ T j -> 0 < ps_refs (fr_store s') j ->
    ps_flags (fr_store s') j = ps_flags (fr_store s) j;
  fl_init : fr_initialized s' = fr_initialized s;
  fl_bytes : fr_incomplete_bytes s' = fr_incomplete_bytes s;
  fl_frames : fr_incomplete_frames s' = fr_incomplete_frames s;
  fl_reset : fr_reset_frames s' = fr_reset_frames s }.

(** Only expired or dropped entries go away; the counters account for them. *)
Record pairs_quiet (T : nat -> Prop) (s : runtime) (d : drops) (s' : runtime) (d' : drops) : Prop := {
  fq_rel : pairs_rel T s s';
  fq_own : forall j, pair_own s' j = pair_own s j;
  fq_held : forall j, pair_held s' j <= pair_held s j;
  fq_count : cached s' + snd d' = cached s + snd d;
  fq_mono : snd d <= snd d' }.

Lemma pairs_rel_refl T s : pairs_wf s -> pairs_rel T s s.
Proof. by split. Qed.

Lemma pairs_rel_trans T s1 s2 s3 : pairs_rel T s1 s2 -> pairs_rel T s2 s3 -> pairs_rel T s1 s3.
Proof.
  intros [A1 A2 A3 A4 A5 A6 A7] [B1 B2 B3 B4 B5 B6 B7]. split; try congruence; [auto|].
  intros j HT Hr. rewrite B3, A3; auto.
Qed.

Lemma pairs_rel_weaken (T T' : nat -> Prop) s s' :
  (forall j, T j -> T' j) -> pairs_rel T s s' -> pairs_rel T' s s'.
Proof. intros H []. split; auto. Qed.

Lemma pairs_quiet_refl T s d : pairs_wf s -> pairs_quiet T s d s d.
Proof. intros W. split; [by apply pairs_rel_refl|done|done|done|done]. Qed.

Lemma pairs_quiet_trans T s1 d1 s2 d2 s3 d3 :
  pairs_quiet T s1 d1 s2 d2 -> pairs_quiet T s2 d2 s3 d3 -> pairs_quiet T s1 d1 s3 d3.
Proof.
  intros [A1 A2 A3 A4 A5] [B1 B2 B3 B4 B5].
  split; [by eapply pairs_rel_trans|..|lia|lia]; intros j.
  - by rewrite B2, A2.
  - specialize (A3 j). specialize (B3 j). lia.
Qed.

Lemma pair_held_nonneg s j : 0 <= pair_held s j.
Proof. apply sumZ_nonneg. intros. apply held_opt_range. Qed.

Lemma cached_range s : 0 <= cached s <= Z.of_nat (length (fr_entries s)).
Proof.
  unfold cached. induction (fr_entries s) as [|x l IH]; cbn [sumZ length]; [lia|].
  destruct (fe_valid x); lia.
Qed.

Definition no_packet (j : nat) : Prop := False.

(** ** One entry and the store change *)

Definition fnext (s : runtime) (st : S) (e : nat) (y : linkg_transport_forward_pair_entry) : runtime :=
  fset_entries (<[e := y]> (fr_entries s)) (fset_store st s).

Lemma pair_held_next s st e x y j :
  fr_entries s !! e = Some x ->
  pair_held (fnext s st e y) j = pair_held s j - held_opt (fe_packet x) j + held_opt (fe_packet y) j.
Proof. intros H. unfold pair_held. cbn. by rewrite (sumZ_insert _ _ _ _ x). Qed.

Lemma cached_next s st e x y :
  fr_entries s !! e = Some x ->
  cached (fnext s st e y) = cached s - (if fe_valid x then 1 else 0) + (if fe_valid y then 1 else 0).
Proof. intros H. unfold cached. cbn. by rewrite (sumZ_insert _ _ _ _ x). Qed.

Lemma fabs_next now s st e y :
  fabs now (fnext s st e y) =
  <[e := if fe_valid y && negb (_linkg_transport_forward_pair_expired y now) then Some y else None]> (fabs now s).
Proof. unfold fabs, fnext. cbn. by rewrite list_fmap_insert. Qed.

Lemma fabs_lookup now s e x :
  fr_entries s !! e = Some x ->
  fabs now s !! e =
    Some (if fe_valid x && negb (_linkg_transport_forward_pair_expired x now) then Some x else None).
Proof. intros H. unfold fabs. by rewrite list_lookup_fmap, H. Qed.

Lemma fnext_spec s st e x y (T : nat -> Prop) (d : nat -> Z) :
  pairs_wf s -> fr_entries s !! e = Some x -> ps_inv st -> pair_ok y ->
  (forall j, 0 < ps_refs st j -> 0 < ps_refs (fr_store s) j) ->
  (forall j, ~ T j -> 0 < ps_refs st j -> ps_flags st j = ps_flags (fr_store s) j) ->
  (forall j, pair_held s j - held_opt (fe_packet x) j + held_opt (fe_packet y) j <= 1) ->
  (forall j, ps_refs st j - held_opt (fe_packet y) j =
             ps_refs (fr_store s) j - held_opt (fe_packet x) j + d j) ->
  (forall j, 0 <= pair_own s j + d j) ->
  pairs_rel T s (fnext s st e y) /\ (forall j, pair_own (fnext s st e y) j = pair_own s j + d j).
Proof.
  intros W Hx Hi Hy Hl Hf H1 Hd Hp. pose proof (lookup_lt_Some _ _ _ Hx) as Hlt.
  assert (forall j, pair_own (fnext s st e y) j = pair_own s j + d j) as Ho.
  { intros j. unfold pair_own. rewrite (pair_held_next _ _ _ x) by done. cbn. specialize (Hd j). lia. }
  split; [|done]. split; try done. split.
  - done.
  - cbn. rewrite length_insert. apply W.
  - cbn. intros e' z. rewrite lookup_insert_case by done. case_decide; [by intros [=<-]|]. apply (fw_ok _ W).
  - intros j. rewrite (pair_held_next _ _ _ x) by done. auto.
  - intros j. specialize (Ho j). specialize (Hp j). unfold pair_own in *.
    change (fr_store (fnext s st e y)) with st in *. lia.
Qed.

Lemma pair_at_eq s e x : fr_entries s !! e = Some x -> pair_at e s = Some (x, s).
Proof. intros H. unfold pair_at. mrun. by rewrite H. Qed.

Lemma pair_write_eq s e x y :
  fr_entries s !! e = Some x -> pair_write e y s = Some (tt, fset_entries (<[e := y]> (fr_entries s)) s).
Proof.
  intros H. unfold pair_write. mrun. by rewrite bool_decide_true by by eapply lookup_lt_Some.
Qed.

Lemma store_op_eq {A} (m : M S A) s (a : A) st :
  m (fr_store s) = Some (a, st) -> store_op m s = Some (a, fset_store st s).
Proof. apply zoom_run. Qed.

Lemma pair_lookup s e : pairs_wf s -> (e < pair_count)%nat -> exists x, fr_entries s !! e = Some x.
Proof. intros W He. apply lookup_lt_is_Some. by rewrite (fw_len _ W). Qed.

Lemma pair_held_le s e x j : fr_entries s !! e = Some x -> held_opt (fe_packet x) j <= pair_held s j.
Proof.
  intros H. apply (sumZ_lookup_le (fun x => held_opt (fe_packet x) j) _ e x); [|done].
  intros. apply held_opt_range.
Qed.

Section Laws.
Context {PL : PacketStoreLaws S}.

Lemma pair_clear_spec s e x :
  pairs_wf s -> fr_entries s !! e = Some x ->
  exists st, _linkg_transport_forward_pair_entry_clear (Some e) s = Some (tt, fnext s st e pair_zero) /\
    pairs_rel no_packet s (fnext s st e pair_zero) /\
    (forall j, pair_own (fnext s st e pair_zero) j = pair_own s j).
Proof.
  intros W Hx.
  assert (exists st, when (negb (bool_decide (fe_packet x = None))) (store_op (ps_release (fe_packet x))) s =
      Some (tt, fset_store st s) /\ ps_inv st /\
    (forall j, ps_refs st j = ps_refs (fr_store s) j - held_opt (fe_packet x) j) /\
    (forall j, 0 < ps_refs st j -> ps_flags st j = ps_flags (fr_store s) j)) as (st&E&I&R&F).
  { destruct (fe_packet x) as [i|] eqn:Ei.
    - assert (0 < ps_refs (fr_store s) i) as Hr.
      { pose proof (pair_held_le s e x i Hx) as H. rewrite Ei in H. cbn in H. rewrite one_ref_same in H.
        pose proof (fw_refs _ W i). lia. }
      destruct (ps_release_ok _ i (fw_inv _ W) Hr) as (st&E&I&R&F1&F2). exists st.
      rewrite bool_decide_false by done. cbn [negb when]. splits; [by apply store_op_eq|done|done|].
      intros j Hj. destruct (decide (j = i)) as [->|Hn]; [|by apply F1].
      apply F2. rewrite R, one_ref_same in Hj. lia.
    - exists (fr_store s). rewrite bool_decide_true by done. cbn [negb when held_opt].
      splits; [by destruct s|apply W|intros; lia|done]. }
  exists st. destruct (fnext_spec s st e x pair_zero no_packet (fun _ => 0)) as [Rl Ho]; try done.
  - intros j. rewrite R. pose proof (held_opt_range (fe_packet x) j). lia.
  - intros j _. apply F.
  - intros j. cbn. pose proof (fw_once _ W j). pose proof (held_opt_range (fe_packet x) j). lia.
  - intros j. rewrite R. cbn. lia.
  - intros j. pose proof (fw_refs _ W j). unfold pair_own. lia.
  - splits; [|done|intros j; rewrite Ho; lia].
    unfold _linkg_transport_forward_pair_entry_clear. mstep (pair_at_eq s e x Hx). mstep E.
    by rewrite (pair_write_eq _ e x) by exact Hx.
Qed.

(** Dropping an entry, valid or not. *)
Lemma pair_drop_spec s e x d :
  pairs_wf s -> fr_entries s !! e = Some x -> 0 <= snd d -> cached s + snd d < 2 ^ 64 ->
  exists d' s', _linkg_transport_forward_pair_entry_drop (Some e) d s = Some (d', s') /\
    pairs_quiet no_packet s d s' d' /\ fr_last_gc_us s' = fr_last_gc_us s /\
    fr_entries s' = (if fe_valid x then <[e := pair_zero]> (fr_entries s) else fr_entries s).
Proof.
  intros W Hx Hd Hb. unfold _linkg_transport_forward_pair_entry_drop. mstep (pair_at_eq s e x Hx).
  pose proof (fw_ok _ W e x Hx) as Hok. unfold pair_ok in Hok.
  destruct (fe_valid x) eqn:Hv; cbn [negb].
  - destruct Hok as [i Hi]. rewrite bool_decide_false by (rewrite Hi; done).
    destruct (pair_clear_spec s e x W Hx) as (st&E&R&O).
    mstep E. eexists _, _. split; [done|]. split; [|by split]. split; [done|done|..]; cbn [snd].
    + intros j. rewrite (pair_held_next _ _ _ x) by done. cbn [held_opt pair_zero fe_packet].
      pose proof (held_opt_range (fe_packet x) j). lia.
    + rewrite (cached_next _ _ _ x) by done. rewrite Hv. cbn [fe_valid pair_zero].
      pose proof (sumZ_lookup_le (fun x => if fe_valid x then 1 else 0) _ e x
        ltac:(intros y _; cbn; destruct (fe_valid y); lia) Hx) as Hc. cbn in Hc. rewrite Hv in Hc.
      fold (cached s) in Hc. rewrite wrap_small by mlia. lia.
    + pose proof (sumZ_lookup_le (fun x => if fe_valid x then 1 else 0) _ e x
        ltac:(intros y _; cbn; destruct (fe_valid y); lia) Hx) as Hc. cbn in Hc. rewrite Hv in Hc.
      fold (cached s) in Hc. rewrite wrap_small by mlia. lia.
  - mrun. exists d, s. split; [done|]. split; [by apply pairs_quiet_refl|by split].
Qed.

Lemma drop_entries_spec (test : linkg_transport_forward_pair_entry -> bool) (es : list nat) : forall s d,
  pairs_wf s -> (forall e, e ∈ es -> (e < pair_count)%nat) -> NoDup es ->
  0 <= snd d -> cached s + snd d < 2 ^ 64 ->
  exists d' s', drop_entries test es d s = Some (d', s') /\ pairs_quiet no_packet s d s' d' /\
    fr_last_gc_us s' = fr_last_gc_us s /\
    forall e x, fr_entries s !! e = Some x ->
      fr_entries s' !! e = Some (if bool_decide (e ∈ es) && test x && fe_valid x then pair_zero else x).
Proof.
  induction es as [|e es IH]; intros s d W Hin Hnd Hd Hb; cbn [drop_entries].
  - exists d, s. splits; [done|by apply pairs_quiet_refl|done|]. intros e x Hx.
    by rewrite bool_decide_false by apply not_elem_of_nil.
  - apply NoDup_cons in Hnd as [Hne Hnd].
    destruct (pair_lookup s e W (Hin e ltac:(left))) as (x&Hx).
    assert (exists d1 s1, (if test x then _linkg_transport_forward_pair_entry_drop (Some e) d else mret d) s =
        Some (d1, s1) /\ pairs_quiet no_packet s d s1 d1 /\ fr_last_gc_us s1 = fr_last_gc_us s /\
      fr_entries s1 = (if test x && fe_valid x then <[e := pair_zero]> (fr_entries s) else fr_entries s))
      as (d1&s1&E1&Q1&G1&En1).
    { destruct (test x).
      - destruct (pair_drop_spec s e x d W Hx Hd Hb) as (d1&s1&E1&Q1&G1&En1). by exists d1, s1.
      - exists d, s. splits; [done|by apply pairs_quiet_refl|done|done]. }
    pose proof (fq_count _ _ _ _ _ Q1) as Hc. pose proof (fq_mono _ _ _ _ _ Q1) as Hm.
    destruct (IH s1 d1 (fl_wf _ _ _ (fq_rel _ _ _ _ _ Q1)) ltac:(intros e' He'; apply Hin; by right) Hnd
      ltac:(lia) ltac:(lia)) as (d'&s'&E'&Q'&G'&En').
    exists d', s'. splits.
    + mstep (pair_at_eq s e x Hx). mstep E1. exact E'.
    + by eapply pairs_quiet_trans.
    + congruence.
    + intros e' x' Hx'. destruct (decide (e' = e)) as [->|Hne'].
      * rewrite Hx in Hx'. injection Hx' as <-. rewrite bool_decide_true by left. cbn [andb].
        rewrite (En' e (if test x && fe_valid x then pair_zero else x)).
        -- by rewrite bool_decide_false.
        -- rewrite En1. destruct (_ && _)%bool; [|done]. apply list_lookup_insert_eq.
           by eapply lookup_lt_Some.
      * rewrite (En' e' x').
        -- rewrite (bool_decide_ext (e' ∈ e :: es) (e' ∈ es)); [done|]. rewrite elem_of_cons. naive_solver.
        -- rewrite En1. destruct (_ && _)%bool; [|done]. by rewrite list_lookup_insert_ne.
Qed.

Lemma all_pairs_spec e : e ∈ all_pairs <-> (e < pair_count)%nat.
Proof. unfold all_pairs, nat_upto. rewrite elem_of_seq. unfold pair_count. lia. Qed.

Lemma all_pairs_nodup : NoDup all_pairs.
Proof. apply NoDup_seq. Qed.

(** Entries beyond the test survive, the others are gone: the abstract cache is
    filtered. *)
Lemma drop_entries_abs test now s d :
  pairs_wf s -> 0 <= snd d -> cached s + snd d < 2 ^ 64 ->
  exists d' s', drop_entries test all_pairs d s = Some (d', s') /\ pairs_quiet no_packet s d s' d' /\
    fr_last_gc_us s' = fr_last_gc_us s /\
    (forall e x, fr_entries s !! e = Some x ->
      fr_entries s' !! e = Some (if test x && fe_valid x then pair_zero else x)) /\
    fabs now s' = (fun o => match o with Some x => if test x then None else Some x | None => None end) <$> fabs now s.
Proof.
  intros W Hd Hb. destruct (drop_entries_spec test all_pairs s d W) as (d'&s'&E&Q&G&En); [|apply all_pairs_nodup|done..|].
  { intros e. apply all_pairs_spec. }
  assert (forall e x, fr_entries s !! e = Some x ->
      fr_entries s' !! e = Some (if test x && fe_valid x then pair_zero else x)) as En'.
  { intros e x Hx. rewrite (En e x Hx). rewrite bool_decide_true; [done|]. apply all_pairs_spec.
    rewrite <- (fw_len _ W). by eapply lookup_lt_Some. }
  exists d', s'. splits; [done..|].
  pose proof (fl_wf _ _ _ (fq_rel _ _ _ _ _ Q)) as W'.
  apply list_eq. intros e. unfold fabs. rewrite !list_lookup_fmap.
  destruct (fr_entries s !! e) as [x|] eqn:Hx.
  - rewrite (En' e x Hx). cbn. f_equal. destruct (fe_valid x) eqn:Hv; cbn [andb].
    + destruct (test x) eqn:Ht; cbn [andb]; rewrite ?Hv; cbn; destruct (negb _); by rewrite ?Ht.
    + by rewrite andb_false_r, Hv.
  - cbn. apply lookup_ge_None in Hx. rewrite lookup_ge_None_2; [done|].
    rewrite (fw_len _ W'), <- (fw_len _ W). done.
Qed.

Lemma fabs_expired now s :
  (fun o => match o with Some x => if _linkg_transport_forward_pair_expired x now then None else Some x
                    | None => None end) <$> fabs now s = fabs now s.
Proof.
  unfold fabs. rewrite <- list_fmap_compose. apply list_fmap_ext. intros e x _. unfold compose.
  destruct (fe_valid x); [|done]. cbn [andb].
  by destruct (_linkg_transport_forward_pair_expired x now) eqn:E; cbn; rewrite ?E.
Qed.

Lemma pair_gc_spec now s d :
  pairs_wf s -> 0 <= snd d -> cached s + snd d < 2 ^ 64 ->
  exists d' s', _linkg_transport_forward_pair_gc_locked now d s = Some (d', s') /\
    pairs_quiet no_packet s d s' d' /\ fabs now s' = fabs now s.
Proof.
  intros W Hd Hb. unfold _linkg_transport_forward_pair_gc_locked. mrun. destruct (_ && _)%bool.
  - exists d, s. splits; [done|by apply pairs_quiet_refl|done].
  - destruct (drop_entries_abs (fun x => _linkg_transport_forward_pair_expired x now) now s d W Hd Hb)
      as (d'&s'&E&[[W' L F I B Fr Rs] O H C M]&_&_&A).
    mstep E. exists d', (fset_last_gc now s'). split; [done|].
    split; [|by rewrite <- (fabs_expired now s)].
    split; [|exact O|exact H|exact C|exact M]. split; try done. destruct W'. by split.
Qed.

(** ** The abstract submission *)

Definition pair_hit (l : list (option linkg_transport_forward_pair_entry)) (e : nat) (c nd ep : Z)
    (h : linkg_transport_header) (fh : linkg_transport_fragment_header) : bool :=
  match l !! e with
  | Some (Some x) => _linkg_transport_forward_pair_match x c nd ep h fh
  | _ => false
  end.

Definition pair_find (l : list (option linkg_transport_forward_pair_entry)) (set c nd ep : Z)
    (h : linkg_transport_header) (fh : linkg_transport_fragment_header) : option nat :=
  if pair_hit l (pair_of set 0) c nd ep h fh then Some (pair_of set 0)
  else if pair_hit l (pair_of set 1) c nd ep h fh then Some (pair_of set 1)
  else None.

Definition pair_slot (l : list (option linkg_transport_forward_pair_entry)) (set : Z) : nat :=
  match l !! pair_of set 0, l !! pair_of set 1 with
  | Some (Some a), Some (Some b) =>
      if fe_expires_at_us b <? fe_expires_at_us a then pair_of set 1 else pair_of set 0
  | Some (Some _), Some None => pair_of set 1
  | _, _ => pair_of set 0
  end.

(** The group a cached fragment and a new one form. *)
Definition pair_outputs (x : linkg_transport_forward_pair_entry) (nd : Z) (h : linkg_transport_header)
    (i : pkt_ptr) (len : Z) : list linkg_transport_forward_item :=
  let cached_item := ForwardItem (fe_packet x) (fe_payload_length x) (th_destination_node_id h) nd in
  let new_item := ForwardItem (Some i) len (th_destination_node_id h) nd in
  if fe_fragment_offset x =? 0 then [cached_item; new_item] else [new_item; cached_item].

(** Result code, outputs, new cache, change of the number of fragments that are
    cached or dropped. *)
Definition pair_submit_spec (c nd ep : Z) (h : linkg_transport_header) (fh : linkg_transport_fragment_header)
    (i : pkt_ptr) (len now : Z) (l : list (option linkg_transport_forward_pair_entry))
    : Z * list linkg_transport_forward_item * list (option linkg_transport_forward_pair_entry) * Z :=
  let set := _linkg_transport_forward_pair_set c nd ep h (fh_packet_id fh) in
  match pair_find l set c nd ep h fh with
  | Some e =>
      match l !! e with
      | Some (Some x) =>
          if negb (fe_packet_length x =? fh_packet_length fh) then (- EPROTO, [], <[e := None]> l, 0)
          else if fe_fragment_offset x =? fh_fragment_offset fh then (0, [], l, 0)
          else (0, pair_outputs x nd h i len, <[e := None]> l, -1)
      | _ => (0, [], l, 0)
      end
  | None => (0, [], <[pair_slot l set := Some (pair_new c nd ep h fh (Some i) len now)]> l, 1)
  end.

(** ** The scan *)

Lemma fexpire_spec now s e x d :
  pairs_wf s -> fr_entries s !! e = Some x -> 0 <= snd d -> cached s + snd d < 2 ^ 64 ->
  exists d' s' x', (if _linkg_transport_forward_pair_expired x now
                    then _linkg_transport_forward_pair_entry_drop (Some e) d else mret d) s = Some (d', s') /\
    pairs_quiet no_packet s d s' d' /\ fabs now s' = fabs now s /\
    fr_entries s' !! e = Some x' /\ _linkg_transport_forward_pair_expired x' now = false /\
    (forall e', e' <> e -> fr_entries s' !! e' = fr_entries s !! e').
Proof.
  intros W Hx Hd Hb. destruct (_linkg_transport_forward_pair_expired x now) eqn:Ex.
  - assert (fe_valid x = true) as Hv by (unfold _linkg_transport_forward_pair_expired in Ex; by destruct (fe_valid x)).
    destruct (pair_drop_spec s e x d W Hx Hd Hb) as (d'&s'&E&Q&_&En). rewrite Hv in En.
    exists d', s', pair_zero. splits; [done|done| | |done|].
    + unfold fabs. rewrite En, list_fmap_insert. apply list_insert_id.
      rewrite list_lookup_fmap, Hx. cbn. by rewrite Ex, andb_false_r.
    + rewrite En. apply list_lookup_insert_eq. by eapply lookup_lt_Some.
    + intros e' Hne. rewrite En. by apply list_lookup_insert_ne.
  - exists d, s, x. splits; [done|by apply pairs_quiet_refl|done..].
Qed.

Lemma pair_set_range c nd ep h pid : 0 <= _linkg_transport_forward_pair_set c nd ep h pid < 32.
Proof.
  unfold _linkg_transport_forward_pair_set.
  change (LINKG_TRANSPORT_FORWARD_PAIR_SET_COUNT - 1) with (Z.ones 5).
  rewrite Z.land_ones by lia. apply (Z.mod_pos_bound _ (2 ^ 5)). lia.
Qed.

Lemma pair_ways_in_range set :
  0 <= set < 32 -> pair_of set 0 <> pair_of set 1 /\
  (pair_of set 0 < pair_count)%nat /\ (pair_of set 1 < pair_count)%nat.
Proof.
  intros H. unfold pair_of, pair_count, LINKG_TRANSPORT_FORWARD_PAIR_WAYS,
    LINKG_TRANSPORT_FORWARD_PAIR_SET_COUNT. lia.
Qed.

Definition pair_scan_result (now : Z) (s : runtime) (set c nd ep : Z) (h : linkg_transport_header)
    (fh : linkg_transport_fragment_header) (r : option nat * option nat * option nat) : Prop :=
  let '(entry, free_entry, oldest_entry) := r in
  match entry with
  | Some e => pair_find (fabs now s) set c nd ep h fh = Some e /\
      exists x, fr_entries s !! e = Some x /\ fe_valid x = true /\
        _linkg_transport_forward_pair_expired x now = false
  | None => pair_find (fabs now s) set c nd ep h fh = None /\
      (match free_entry with Some f => Some f | None => oldest_entry end) = Some (pair_slot (fabs now s) set) /\
      exists x, fr_entries s !! pair_slot (fabs now s) set = Some x
  end.

Lemma match_valid x c nd ep h fh :
  _linkg_transport_forward_pair_match x c nd ep h fh =
  fe_valid x && _linkg_transport_forward_pair_match x c nd ep h fh.
Proof. unfold _linkg_transport_forward_pair_match. by destruct (fe_valid x). Qed.

Lemma scan_pairs_spec now s set c nd ep h fh d :
  pairs_wf s -> 0 <= set < 32 -> 0 <= snd d -> cached s + snd d < 2 ^ 64 ->
  exists r d' s', scan_pairs set [0; 1] c nd ep h fh now None None d s =
      Some ((fst (fst r), snd (fst r), snd r, d'), s') /\
    pairs_quiet no_packet s d s' d' /\ fabs now s' = fabs now s /\ pair_scan_result now s' set c nd ep h fh r.
Proof.
  intros W Hset Hd Hb. destruct (pair_ways_in_range set Hset) as (Hne&H0&H1).
  destruct (pair_lookup s _ W H0) as (x0&Hx0).
  destruct (fexpire_spec now s _ x0 d W Hx0 Hd Hb) as (d1&s1&y0&E0&Q0&A0&Hy0&Ey0&Ho0).
  pose proof (fl_wf _ _ _ (fq_rel _ _ _ _ _ Q0)) as W1.
  pose proof (fq_count _ _ _ _ _ Q0) as C0. pose proof (fq_mono _ _ _ _ _ Q0) as M0.
  destruct (pair_lookup s1 _ W1 H1) as (x1&Hx1).
  destruct (fexpire_spec now s1 _ x1 d1 W1 Hx1 ltac:(lia) ltac:(lia)) as (d2&s2&y1&E1&Q1&A1&Hy1&Ey1&Ho1).
  pose proof (fabs_lookup now _ _ _ Hy0) as L0. rewrite Ey0, andb_true_r in L0.
  pose proof (fabs_lookup now _ _ _ Hy1) as L1. rewrite Ey1, andb_true_r, A1 in L1.
  assert (fr_entries s2 !! pair_of set 0 = Some y0) as Hy0' by (rewrite Ho1; done).
  cbn [scan_pairs]. mstep (pair_at_eq _ _ _ Hx0). mstep E0. mstep (pair_at_eq _ _ _ Hy0).
  destruct (_linkg_transport_forward_pair_match y0 c nd ep h fh) eqn:Em0.
  { rewrite match_valid in Em0. apply andb_true_iff in Em0 as [V0 K0].
    exists (Some (pair_of set 0), None, None), d1, s1. splits; [done|done|done|]. cbn.
    unfold pair_find, pair_hit. rewrite L0, V0, K0. split; [done|]. by exists y0. }
  assert (pair_hit (fabs now s1) (pair_of set 0) c nd ep h fh = false) as N0.
  { unfold pair_hit. rewrite L0. by destruct (fe_valid y0). }
  assert (pair_hit (fabs now s1) (pair_of set 1) c nd ep h fh =
          _linkg_transport_forward_pair_match y1 c nd ep h fh) as N1.
  { unfold pair_hit. rewrite L1, match_valid. by destruct (fe_valid y1). }
  assert (pairs_quiet no_packet s d s2 d2) as Q2 by by eapply pairs_quiet_trans.
  assert (forall a b f : option nat, pair_scan_result now s2 set c nd ep h fh (a, b, f) ->
    exists r d' s', Some ((a, b, f, d2), s2) = Some ((fst (fst r), snd (fst r), snd r, d'), s') /\
      pairs_quiet no_packet s d s' d' /\ fabs now s' = fabs now s /\
      pair_scan_result now s' set c nd ep h fh r) as Hfin.
  { intros a b f Hr. exists (a, b, f), d2, s2. splits; [done|done|by rewrite A1|done]. }
  destruct (fe_valid y0) eqn:V0; cbn [negb]; mrun.
  all: mstep (pair_at_eq _ _ _ Hx1); mstep E1; mstep (pair_at_eq _ _ _ Hy1);
    destruct (_linkg_transport_forward_pair_match y1 c nd ep h fh) eqn:Em1.
  1, 3: apply Hfin; unfold pair_scan_result; rewrite A1; unfold pair_find; rewrite N0, N1;
    split; [done|]; rewrite match_valid in Em1; apply andb_true_iff in Em1 as [V1 K1]; by exists y1.
  all: destruct (fe_valid y1) eqn:V1; cbn [negb].
  1: mstep (pair_at_eq _ _ _ Hy0').
  all: mrun; apply Hfin; unfold pair_scan_result; rewrite A1; unfold pair_find, pair_slot; rewrite N0, N1;
    rewrite ?L0, ?L1.
  1: destruct (_ <? _).
  all: split; [done|]; split; [done|]; by eexists.
Qed.

(** ** Creating and completing a pair *)

(** A frame its submitter owns and the cache does not hold. *)
Record pairable (s : runtime) (i : pkt_ptr) : Prop := {
  pb_own : 0 < pair_own s i < ps_room;
  pb_held : pair_held s i = 0 }.

Lemma pairable_quiet T s d s' d' i : pairs_quiet T s d s' d' -> pairable s i -> pairable s' i.
Proof.
  intros Q [Ho Hh]. pose proof (fq_own _ _ _ _ _ Q i). pose proof (fq_held _ _ _ _ _ Q i).
  pose proof (pair_held_nonneg s' i). split; lia.
Qed.

Lemma pairable_refs s i : pairable s i -> 0 < ps_refs (fr_store s) i < ps_room.
Proof. intros []. unfold pair_own in *. lia. Qed.

Lemma pair_create_spec now s e x i c nd ep h fh len :
  pairs_wf s -> fr_entries s !! e = Some x -> fe_valid x = false -> pairable s i ->
  0 <= now < 2 ^ 64 - LINKG_TRANSPORT_FORWARD_PAIR_TTL_US ->
  exists s', _linkg_transport_forward_pair_create_locked (Some e) c nd ep (Some h) (Some fh) (Some i) len now s =
      Some (0, s') /\
    pairs_rel no_packet s s' /\ (forall j, pair_own s' j = pair_own s j) /\ cached s' = cached s + 1 /\
    (forall j, pair_held s' j = pair_held s j + one_ref i j) /\
    fabs now s' = <[e := Some (pair_new c nd ep h fh (Some i) len now)]> (fabs now s).
Proof.
  intros W Hx Hv Pb Hnow. pose proof (pairable_refs s i Pb) as Hr. destruct Pb as [Ho Hh].
  pose proof (fw_ok _ W e x Hx) as Hok. unfold pair_ok in Hok. rewrite Hv in Hok.
  destruct (ps_retain_ok _ i (fw_inv _ W) Hr) as (st&E&I&R&F).
  set (y := pair_new c nd ep h fh (Some i) len now).
  destruct (fnext_spec s st e x y no_packet (fun _ => 0) W Hx I) as [Rl Hown].
  - by eexists.
  - intros j. rewrite R. unfold one_ref. case_decide; [subst; lia|lia].
  - intros j _ _. apply F.
  - intros j. rewrite Hok. cbn [held_opt y fe_packet pair_new]. pose proof (fw_once _ W j).
    unfold one_ref. case_decide; [subst; lia|lia].
  - intros j. rewrite Hok, R. cbn [held_opt y fe_packet pair_new]. lia.
  - intros j. pose proof (fw_refs _ W j). unfold pair_own. lia.
  - exists (fnext s st e y). splits.
    + unfold _linkg_transport_forward_pair_create_locked. mstep (store_op_eq _ s tt st E).
      unfold mbind, M_bind. by rewrite (pair_write_eq _ e x) by exact Hx.
    + done.
    + intros j. rewrite Hown. lia.
    + rewrite (cached_next _ _ _ x) by done. rewrite Hv. cbn. lia.
    + intros j. rewrite (pair_held_next _ _ _ x) by done. rewrite Hok. cbn. lia.
    + rewrite fabs_next. unfold _linkg_transport_forward_pair_expired.
      cbn [y fe_valid pair_new fe_expires_at_us andb].
      unfold LINKG_TRANSPORT_FORWARD_PAIR_TTL_US in *. rewrite wrap_small by mlia. by bsimp.
Qed.

(** The flags of the two frames of a completed group. *)
Definition group_flags (s s' : runtime) (outputs : list linkg_transport_forward_item) : Prop :=
  match outputs with
  | [a; b] => exists p q, fi_packet a = Some p /\ fi_packet b = Some q /\ p <> q /\
      ps_flags (fr_store s') p = group_first (ps_flags (fr_store s) p) /\
      ps_flags (fr_store s') q = group_last (ps_flags (fr_store s) q)
  | _ => True
  end.

Definition outputs_refs (outputs : list linkg_transport_forward_item) (j : nat) : Z :=
  sumZ (fun it => held_opt (fi_packet it) j) outputs.

Lemma pair_complete_spec now s e x i nd h fh len :
  pairs_wf s -> fr_entries s !! e = Some x -> fe_valid x = true -> pairable s i ->
  exists s', _linkg_transport_forward_pair_complete_locked (Some e) nd (Some h) (Some fh) (Some i) len false s =
      Some ((0, Some (pair_outputs x nd h i len)), s') /\
    pairs_rel (fun j => 0 < outputs_refs (pair_outputs x nd h i len) j) s s' /\
    (forall j, pair_own s' j = pair_own s j + outputs_refs (pair_outputs x nd h i len) j) /\
    group_flags s s' (pair_outputs x nd h i len) /\ cached s' = cached s - 1 /\
    (forall j, pair_held s' j <= pair_held s j) /\
    fabs now s' = <[e := None]> (fabs now s).
Proof.
  intros W Hx Hv Pb. pose proof (pairable_refs s i Pb) as Hr. destruct Pb as [Ho Hh].
  pose proof (fw_ok _ W e x Hx) as Hok. unfold pair_ok in Hok. rewrite Hv in Hok. destruct Hok as [f Hf].
  pose proof (pair_held_le s e x f Hx) as Hhf. rewrite Hf in Hhf. cbn in Hhf. rewrite one_ref_same in Hhf.
  assert (f <> i) as Hfi by (intros ->; lia).
  pose proof (fw_refs _ W f) as Hrf.
  destruct (ps_retain_ok _ i (fw_inv _ W) Hr) as (st1&E1&I1&R1&F1).
  assert (forall j, outputs_refs (pair_outputs x nd h i len) j = one_ref f j + one_ref i j) as Eo.
  { intros j. unfold outputs_refs, pair_outputs. rewrite Hf.
    destruct (fe_fragment_offset x =? 0); cbn; lia. }
  assert (exists a b, (a = f /\ b = i /\ (fe_fragment_offset x =? 0) = true \/
                       a = i /\ b = f /\ (fe_fragment_offset x =? 0) = false)) as (a&b&Hab).
  { destruct (fe_fragment_offset x =? 0); [exists f, i|exists i, f]; auto. }
  destruct (ps_update_flags_ok st1 a group_first I1) as (st2&E2&I2&R2&F2).
  { rewrite R1. pose proof (one_ref_range i a). destruct Hab as [(->&_)|(->&_)]; lia. }
  destruct (ps_update_flags_ok st2 b group_last I2) as (st3&E3&I3&R3&F3).
  { rewrite R2, R1. pose proof (one_ref_range i b). destruct Hab as [(_&->&_)|(_&->&_)]; lia. }
  assert (a <> b) as Hne by (destruct Hab as [(->&->&_)|(->&->&_)]; congruence).
  assert (forall j, ps_refs st3 j = ps_refs (fr_store s) j + one_ref i j) as R by (intros; by rewrite R3, R2, R1).
  destruct (fnext_spec s st3 e x pair_zero (fun j => 0 < outputs_refs (pair_outputs x nd h i len) j)
    (outputs_refs (pair_outputs x nd h i len)) W Hx I3) as [Rl Hown].
  - done.
  - intros j. rewrite R. unfold one_ref. case_decide; [subst; lia|lia].
  - intros j Hn _. rewrite Eo in Hn. rewrite F3, F2, F1.
    rewrite !decide_False; [done|..]; intros ->; apply Hn;
      pose proof (one_ref_range f j); pose proof (one_ref_range i j);
      destruct Hab as [(->&->&_)|(->&->&_)]; rewrite one_ref_same; lia.
  - intros j. rewrite Hf. cbn. pose proof (fw_once _ W j). pose proof (one_ref_range f j). lia.
  - intros j. rewrite Eo, R, Hf. cbn. lia.
  - intros j. pose proof (fw_refs _ W j). rewrite Eo. pose proof (one_ref_range f j).
    pose proof (one_ref_range i j). unfold pair_own. lia.
  - exists (fnext s st3 e pair_zero). splits.
    + unfold _linkg_transport_forward_pair_complete_locked, pair_outputs.
      mstep (store_op_eq _ s tt st1 E1). mstep (pair_at_eq (fset_store st1 s) e x Hx). rewrite Hf.
      destruct Hab as [(->&->&Eoff)|(->&->&Eoff)]; rewrite Eoff; unfold update_flags;
        mstep (store_op_eq _ (fset_store st1 s) tt st2 E2);
        mstep (store_op_eq _ (fset_store st2 (fset_store st1 s)) tt st3 E3);
        unfold mbind, M_bind; by rewrite (pair_write_eq _ e x) by exact Hx.
    + done.
    + done.
    + assert (ps_flags st3 a = group_first (ps_flags (fr_store s) a)) as Fa.
      { rewrite F3, decide_False by done. by rewrite F2, decide_True, F1. }
      assert (ps_flags st3 b = group_last (ps_flags (fr_store s) b)) as Fb.
      { rewrite F3, decide_True by done. by rewrite F2, decide_False, F1. }
      unfold group_flags, pair_outputs. rewrite Hf.
      destruct Hab as [(->&->&->)|(->&->&->)]; eexists _, _; splits; try done; congruence.
    + rewrite (cached_next _ _ _ x) by done. rewrite Hv. cbn. lia.
    + intros j. rewrite (pair_held_next _ _ _ x) by done. cbn [held_opt fe_packet pair_zero].
      pose proof (held_opt_range (fe_packet x) j). lia.
    + by rewrite fabs_next.
Qed.

(** ** The submission *)

Definition output_packets (outputs : list linkg_transport_forward_item) (j : nat) : Prop :=
  0 < outputs_refs outputs j.

(** Everything [submit_locked] does to the cache, the references and the flags. *)
Record pair_outcome (now : Z) (i : pkt_ptr) (s : runtime) (d : drops) (s' : runtime) (d' : drops)
    (spec : Z * list linkg_transport_forward_item * list (option linkg_transport_forward_pair_entry) * Z)
    (ret : Z) (outputs : list linkg_transport_forward_item) : Prop := {
  pt_ret : ret = fst (fst (fst spec));
  pt_outputs : outputs = snd (fst (fst spec));
  pt_abs : fabs now s' = snd (fst spec);
  pt_count : cached s' + snd d' = cached s + snd d + snd spec;
  pt_mono : snd d <= snd d';
  pt_rel : pairs_rel (output_packets outputs) s s';
  pt_own : forall j, pair_own s' j = pair_own s j + outputs_refs outputs j;
  pt_held : forall j, pair_held s' j <= pair_held s j + one_ref i j;
  pt_flags : group_flags s s' outputs }.

Lemma outcome_quiet now i s d s1 d1 s' d' spec ret outputs :
  pairs_quiet no_packet s d s1 d1 ->
  (forall j, output_packets outputs j -> 0 < ps_refs (fr_store s1) j) ->
  pair_outcome now i s1 d1 s' d' spec ret outputs -> pair_outcome now i s d s' d' spec ret outputs.
Proof.
  intros [R O H C M] Hlive [A1 A2 A3 A4 A5 A6 A7 A9 A8]. split; try done; [lia|lia|..].
  - eapply pairs_rel_trans; [|exact A6]. by apply (pairs_rel_weaken no_packet).
  - intros j. by rewrite A7, O.
  - intros j. specialize (A9 j). specialize (H j). lia.
  - revert A8 Hlive. unfold group_flags, output_packets.
    destruct outputs as [|a [|b [|]]]; try done. intros (p&q&Ep&Eq&Hne&Fp&Fq) Hlive.
    exists p, q. splits; try done.
    + rewrite Fp. f_equal. apply (fl_flags _ _ _ R); [by intros []|]. apply Hlive.
      unfold outputs_refs. cbn. rewrite Ep, Eq. cbn. rewrite one_ref_same. pose proof (one_ref_range q p). lia.
    + rewrite Fq. f_equal. apply (fl_flags _ _ _ R); [by intros []|]. apply Hlive.
      unfold outputs_refs. cbn. rewrite Ep, Eq. cbn. rewrite one_ref_same. pose proof (one_ref_range p q). lia.
Qed.

Lemma no_outputs j : ~ output_packets [] j.
Proof. unfold output_packets, outputs_refs. cbn. lia. Qed.

Lemma drop_outcome now i s e x d ret :
  pairs_wf s -> fr_entries s !! e = Some x -> fe_valid x = true -> 0 <= snd d -> cached s + snd d < 2 ^ 64 ->
  exists d' s', _linkg_transport_forward_pair_entry_drop (Some e) d s = Some (d', s') /\
    fr_entries s' = <[e := pair_zero]> (fr_entries s) /\ pairs_quiet no_packet s d s' d' /\
    pair_outcome now i s d s' d' (ret, [], <[e := None]> (fabs now s), 0) ret [].
Proof.
  intros W Hx Hv Hd Hb. destruct (pair_drop_spec s e x d W Hx Hd Hb) as (d'&s'&E&Q&_&En). rewrite Hv in En.
  exists d', s'. splits; [done|done|done|]. destruct Q as [R O H C M].
  split; try done; cbn; [|lia| | |].
  - unfold fabs. by rewrite En, list_fmap_insert.
  - by apply (pairs_rel_weaken no_packet).
  - intros j. rewrite O. unfold outputs_refs. cbn. lia.
  - intros j. specialize (H j). pose proof (one_ref_range i j). lia.
Qed.

Lemma pair_submit_locked_spec now s i c nd ep h fh len d :
  pairs_wf s -> pairable s i -> 0 <= now < 2 ^ 64 - LINKG_TRANSPORT_FORWARD_PAIR_TTL_US ->
  0 <= snd d -> cached s + snd d < 2 ^ 64 ->
  exists ret outputs d' s',
    _linkg_transport_forward_pair_submit_locked c nd ep (Some h) (Some fh) (Some i) len now false d s =
      Some ((ret, Some outputs, d'), s') /\
    pair_outcome now i s d s' d' (pair_submit_spec c nd ep h fh i len now (fabs now s)) ret outputs.
Proof.
  intros W Pb Hnow Hd Hb. set (set := _linkg_transport_forward_pair_set c nd ep h (fh_packet_id fh)).
  destruct (scan_pairs_spec now s set c nd ep h fh d W (pair_set_range c nd ep h _) Hd Hb)
    as (r&d1&s1&Es&Q&Ha&Hr).
  unfold _linkg_transport_forward_pair_submit_locked. fold set. mstep Es.
  pose proof (fl_wf _ _ _ (fq_rel _ _ _ _ _ Q)) as W1. pose proof (pairable_quiet _ _ _ _ _ _ Q Pb) as Pb1.
  pose proof (fq_count _ _ _ _ _ Q). pose proof (fq_mono _ _ _ _ _ Q).
  unfold pair_submit_spec. fold set. rewrite <- Ha. unfold pair_scan_result in Hr.
  destruct r as [[entry free_entry] oldest_entry]. cbn [fst snd].
  assert (forall s' d' spec ret outputs,
    (forall j, output_packets outputs j -> 0 < ps_refs (fr_store s1) j) ->
    pair_outcome now i s1 d1 s' d' spec ret outputs ->
    exists ret0 outputs0 d'0 s'0, Some ((ret, Some outputs, d'), s') = Some ((ret0, Some outputs0, d'0), s'0) /\
      pair_outcome now i s d s'0 d'0 spec ret0 outputs0) as Hfin.
  { intros s' d' spec ret outputs Hl O. exists ret, outputs, d', s'. split; [done|].
    by eapply outcome_quiet. }
  assert (forall (P : Prop) j, output_packets [] j -> P) as Hno by (intros P j Hj; by destruct (no_outputs j)).
  destruct entry as [e|].
  - destruct Hr as (Hfind&x&Hx&Hv&Hex). rewrite Hfind.
    rewrite (fabs_lookup now s1 e x Hx), Hv, Hex. cbn [andb negb].
    mstep (pair_at_eq s1 e x Hx). destruct (fe_packet_length x =? fh_packet_length fh); cbn [negb].
    + destruct (fe_fragment_offset x =? fh_fragment_offset fh).
      * mrun. apply Hfin; [by intros j; apply Hno|]. split; cbn;
          first [done|lia|by apply pairs_rel_refl|intros j; unfold outputs_refs; cbn; lia|
                 intros j; pose proof (one_ref_range i j); lia].
      * destruct (pair_complete_spec now s1 e x i nd h fh len W1 Hx Hv Pb1) as (s2&E2&R2&O2&F2&C2&H2&A2).
        mstep E2. cbn [fst snd]. apply Hfin; [|split; cbn;
          first [done|lia|intros j; specialize (H2 j); pose proof (one_ref_range i j); lia]].
        intros j Hj. unfold output_packets in Hj. specialize (O2 j).
        assert (0 < ps_refs (fr_store s2) j) as Hr2.
        { pose proof (fw_refs _ (fl_wf _ _ _ R2) j). unfold pair_own in O2.
          pose proof (fw_refs _ W1 j). pose proof (pair_held_nonneg s2 j). lia. }
        by apply (fl_live _ _ _ R2).
    + destruct (drop_outcome now i s1 e x d1 (- EPROTO) W1 Hx Hv ltac:(lia) ltac:(lia)) as (d2&s2&E2&_&_&O2).
      mstep E2. apply Hfin; [by intros j; apply Hno|done].
  - destruct Hr as (Hfind&Hslot&x&Hx). rewrite Hfind, Hslot. set (e := pair_slot (fabs now s1) set) in *.
    mstep (pair_at_eq s1 e x Hx).
    assert (exists d2 s2 x2, (if fe_valid x then _linkg_transport_forward_pair_entry_drop (Some e) d1
        else mret d1) s1 = Some (d2, s2) /\ fr_entries s2 !! e = Some x2 /\ fe_valid x2 = false /\
      pairs_quiet no_packet s1 d1 s2 d2 /\ (forall z, <[e := z]> (fabs now s2) = <[e := z]> (fabs now s1)))
      as (d2&s2&x2&E2&Hx2&Hv2&Q2&A2).
    { destruct (fe_valid x) eqn:Hv.
      - destruct (drop_outcome now i s1 e x d1 0 W1 Hx Hv ltac:(lia) ltac:(lia)) as (d2&s2&E2&En&Q2&O2).
        exists d2, s2, pair_zero. splits; [done| |done|done|].
        + rewrite En. apply list_lookup_insert_eq. by eapply lookup_lt_Some.
        + intros z. rewrite (pt_abs _ _ _ _ _ _ _ _ _ O2). cbn. by rewrite list_insert_insert_eq.
      - exists d1, s1, x. splits; [done|done|done|by apply pairs_quiet_refl|done]. }
    pose proof (fl_wf _ _ _ (fq_rel _ _ _ _ _ Q2)) as W2.
    destruct (pair_create_spec now s2 e x2 i c nd ep h fh len W2 Hx2 Hv2 (pairable_quiet _ _ _ _ _ _ Q2 Pb1) Hnow)
      as (s3&E3&R3&O3&C3&H3&A3).
    mstep E2. mstep E3. apply Hfin; [by intros j; apply Hno|].
    apply (outcome_quiet now i s1 d1 s2 d2); [done|by intros j; apply Hno|].
    split; cbn [fst snd];
      first [done|lia|by rewrite A3, A2|by apply (pairs_rel_weaken no_packet)|
             intros j; rewrite O3; unfold outputs_refs; cbn; lia|intros j; rewrite H3; lia].
Qed.
End Laws.
End Forward.

(** ** The passage of time *)

Lemma fabs_later {S} (t1 t2 : Z) (s : linkg_transport_forward_pair_runtime S) :
  t1 <= t2 ->
  fabs t2 s = (fun o => match o with
                        | Some x => if _linkg_transport_forward_pair_expired x t2 then None else Some x
                        | None => None end) <$> fabs t1 s.
Proof.
  intros Ht. unfold fabs. rewrite <- list_fmap_compose. apply list_fmap_ext. intros e x _.
  unfold compose, _linkg_transport_forward_pair_expired.
  destruct (fe_valid x) eqn:Hv; [|done]. cbn [andb].
  destruct (fe_expires_at_us x <=? t1) eqn:E1, (fe_expires_at_us x <=? t2) eqn:E2; cbn; rewrite ?Hv, ?E2;
    try done. zb. lia.
Qed.

Lemma pair_slot_way l set : pair_slot l set = pair_of set 0 \/ pair_slot l set = pair_of set 1.
Proof. unfold pair_slot. repeat case_match; auto. Qed.

Lemma pair_find_after (l : list (option linkg_transport_forward_pair_entry)) set c nd ep h fh fh' t y :
  0 <= set < 32 -> length l = pair_count -> pair_find l set c nd ep h fh = None ->
  fh_packet_id fh' = fh_packet_id fh ->
  _linkg_transport_forward_pair_match y c nd ep h fh = true ->
  _linkg_transport_forward_pair_expired y t = false ->
  let e := pair_slot l set in
  let l' := (fun o => match o with
                      | Some x => if _linkg_transport_forward_pair_expired x t then None else Some x
                      | None => None end) <$> <[e := Some y]> l in
  pair_find l' set c nd ep h fh' = Some e /\ l' !! e = Some (Some y).
Proof.
  intros Hset Hl Hfind Hid Hm Ht e l'. destruct (pair_ways_in_range set Hset) as (Hne&H0&H1).
  assert (e < length l)%nat as He by (unfold e; destruct (pair_slot_way l set) as [-> | ->]; lia).
  assert (l' !! e = Some (Some y)) as Hle.
  { unfold l'. rewrite list_lookup_fmap, list_lookup_insert_eq by done. cbn. by rewrite Ht. }
  split; [|done].
  assert (forall x, _linkg_transport_forward_pair_match x c nd ep h fh' =
                    _linkg_transport_forward_pair_match x c nd ep h fh) as Em.
  { intros x. unfold _linkg_transport_forward_pair_match. by rewrite Hid. }
  assert (pair_hit l' e c nd ep h fh' = true) as Hhit.
  { unfold pair_hit. by rewrite Hle, Em. }
  unfold pair_find. destruct (pair_slot_way l set) as [E|E]; fold e in E; rewrite <- E.
  - by rewrite Hhit.
  - assert (pair_hit l' (pair_of set 0) c nd ep h fh' = false) as ->; [|by rewrite Hhit].
    unfold pair_find in Hfind. destruct (pair_hit l (pair_of set 0) c nd ep h fh) eqn:Eh; [done|].
    revert Eh. unfold pair_hit, l'. rewrite list_lookup_fmap, list_lookup_insert_ne by congruence.
    destruct (l !! pair_of set 0) as [[x|]|]; cbn; try done.
    destruct (_linkg_transport_forward_pair_expired x t); [done|]. by rewrite Em.
Qed.

(** ** Properties *)

Section Properties.
Context {S : Type} `{PL : PacketStoreLaws S}.
Abbreviation runtime := (linkg_transport_forward_pair_runtime S).

Lemma two_pairs t1 t2 (s : runtime) i j c nd ep h fhi fhj li lj :
  pairs_wf s -> i <> j -> pairable s i -> pairable s j -> cached s + 2 < 2 ^ 64 ->
  0 <= t1 <= t2 -> t2 < t1 + LINKG_TRANSPORT_FORWARD_PAIR_TTL_US ->
  t2 < 2 ^ 64 - LINKG_TRANSPORT_FORWARD_PAIR_TTL_US ->
  fh_packet_id fhi = fh_packet_id fhj -> fh_packet_length fhi = fh_packet_length fhj ->
  fh_fragment_offset fhi <> fh_fragment_offset fhj ->
  pair_find (fabs t1 s) (_linkg_transport_forward_pair_set c nd ep h (fh_packet_id fhi)) c nd ep h fhi = None ->
  exists d1 s1 d2 s2,
    _linkg_transport_forward_pair_submit_locked c nd ep (Some h) (Some fhi) (Some i) li t1 false (0, 0) s =
      Some ((0, Some [], d1), s1) /\
    _linkg_transport_forward_pair_submit_locked c nd ep (Some h) (Some fhj) (Some j) lj t2 false (0, 0) s1 =
      Some ((0, Some (pair_outputs (pair_new c nd ep h fhi (Some i) li t1) nd h j lj), d2), s2) /\
    pairs_wf s2 /\
    (forall k, pair_own s2 k = pair_own s k + one_ref i k + one_ref j k) /\
    group_flags s s2 (pair_outputs (pair_new c nd ep h fhi (Some i) li t1) nd h j lj).
Proof.
  intros W Hij Pi Pj Hb Ht1 Ht2 Hmax Hid Hlen Hoff Hfind.
  set (y := pair_new c nd ep h fhi (Some i) li t1).
  pose proof (cached_range s) as Hcs.
  destruct (pair_submit_locked_spec t1 s i c nd ep h fhi li (0, 0) W Pi ltac:(lia) ltac:(done)
    ltac:(cbn [snd]; lia))
    as (r1&o1&d1&s1&E1&[A1 A2 A3 A4 A5 A6 A7 A8 A9]).
  unfold pair_submit_spec in A1, A2, A3, A4. rewrite Hfind in A1, A2, A3, A4. cbn in A1, A2, A4. subst r1 o1.
  cbn [fst snd] in A3. fold y in A3. pose proof (fl_wf _ _ _ A6) as W1.
  assert (forall k, pair_own s1 k = pair_own s k) as Ho1.
  { intros k. rewrite A7. unfold outputs_refs. cbn. lia. }
  assert (pairable s1 j) as Pj1.
  { destruct Pj as [Oj Hj]. split; [by rewrite Ho1|].
    specialize (A8 j). rewrite one_ref_other in A8 by done. pose proof (pair_held_nonneg s1 j). lia. }
  pose proof (pair_set_range c nd ep h (fh_packet_id fhi)) as Hset.
  assert (_linkg_transport_forward_pair_expired y t2 = false) as Hexp.
  { unfold _linkg_transport_forward_pair_expired. cbn [y fe_valid pair_new fe_expires_at_us andb].
    unfold LINKG_TRANSPORT_FORWARD_PAIR_TTL_US in *. rewrite wrap_small by mlia. by bsimp. }
  assert (_linkg_transport_forward_pair_match y c nd ep h fhi = true) as Hmatch.
  { unfold _linkg_transport_forward_pair_match. cbn. by rewrite !Z.eqb_refl. }
  destruct (pair_find_after (fabs t1 s) _ c nd ep h fhi fhj t2 y Hset
    ltac:(unfold fabs; rewrite length_fmap; apply W) Hfind ltac:(congruence) Hmatch Hexp) as [Hf2 Hl2].
  cbn zeta in Hf2, Hl2. rewrite <- A3, <- fabs_later in Hf2, Hl2 by lia.
  pose proof (cached_range s1) as Hcs1. rewrite (fw_len _ W1) in Hcs1.
  destruct (pair_submit_locked_spec t2 s1 j c nd ep h fhj lj (0, 0) W1 Pj1 ltac:(lia) ltac:(done)
    ltac:(change (Z.of_nat pair_count) with 64 in Hcs1; cbn [snd]; lia))
    as (r2&o2&d2&s2&E2&[B1 B2 B3 B4 B5 B6 B7 B8 B9]).
  unfold pair_submit_spec in B1, B2. rewrite <- Hid, Hf2, Hl2 in B1, B2.
  cbn [y fe_packet_length pair_new fe_fragment_offset] in B1, B2. rewrite Hlen, Z.eqb_refl in B1, B2.
  cbn [negb] in B1, B2. rewrite (proj2 (Z.eqb_neq _ _) Hoff) in B1, B2. cbn [fst snd] in B1, B2.
  subst r2 o2. exists d1, s1, d2, s2. splits; [exact E1|exact E2|apply (fl_wf _ _ _ B6)| |].
  - intros k. rewrite B7, Ho1. unfold outputs_refs, pair_outputs. cbn.
    destruct (fh_fragment_offset fhi =? 0); cbn; lia.
  - assert (forall k, 0 < ps_refs (fr_store s1) k -> ps_flags (fr_store s1) k = ps_flags (fr_store s) k) as Hfl.
    { intros k Hk. apply (fl_flags _ _ _ A6); [apply no_outputs|done]. }
    assert (0 < ps_refs (fr_store s1) i /\ 0 < ps_refs (fr_store s1) j) as [Hri Hrj].
    { pose proof (fw_refs _ W1 i). pose proof (fw_refs _ W1 j).
      pose proof (pb_own _ _ Pi). pose proof (pb_own _ _ Pj).
      pose proof (Ho1 i). pose proof (Ho1 j). pose proof (pair_held_nonneg s1 i).
      pose proof (pair_held_nonneg s1 j). unfold pair_own in *. lia. }
    revert B9. unfold group_flags, pair_outputs. cbn [y fe_fragment_offset pair_new fe_packet fe_payload_length].
    destruct (fh_fragment_offset fhi =? 0); cbn; intros (p&q&[= <-]&[= <-]&Hne&Fp&Fq);
      (eexists _, _; splits; [done..| |]; [rewrite Fp|rewrite Fq]; by rewrite Hfl).
Qed.


(** The two fragments of a datagram that meet in the cache
    before the first one expires leave as the same pair whatever the order of
    arrival: the packet at offset 0 first, flagged FIRST, the other second,
    flagged LAST, each with its own payload length, and the caller receives one
    reference of each. *)
Theorem forward_either_order (t1 t2 : Z) (s : runtime) (i j : pkt_ptr) (c nd ep id len li lj : Z)
    (h : linkg_transport_header) :
  pairs_wf s -> i <> j -> pairable s i -> pairable s j ->
  0 <= t1 <= t2 -> t2 < t1 + LINKG_TRANSPORT_FORWARD_PAIR_TTL_US ->
  t2 < 2 ^ 64 - LINKG_TRANSPORT_FORWARD_PAIR_TTL_US ->
  pair_find (fabs t1 s) (_linkg_transport_forward_pair_set c nd ep h id) c nd ep h
    (FragmentHeader id 0 len) = None ->
  let submit off p l t s := _linkg_transport_forward_pair_submit_locked c nd ep (Some h)
    (Some (FragmentHeader id off len)) (Some p) l t false (0, 0) s in
  let pair := [ForwardItem (Some i) li (th_destination_node_id h) nd;
               ForwardItem (Some j) lj (th_destination_node_id h) nd] in
  let completed s2 := pairs_wf s2 /\ (forall k, pair_own s2 k = pair_own s k + one_ref i k + one_ref j k) /\
    ps_flags (fr_store s2) i = group_first (ps_flags (fr_store s) i) /\
    ps_flags (fr_store s2) j = group_last (ps_flags (fr_store s) j) in
  (exists d1 s1 d2 s2, submit 0 i li t1 s = Some ((0, Some [], d1), s1) /\
     submit LINKG_TRANSPORT_FRAGMENT_PAYLOAD_MAX_SIZE j lj t2 s1 = Some ((0, Some pair, d2), s2) /\ completed s2) /\
  (exists d1 s1 d2 s2, submit LINKG_TRANSPORT_FRAGMENT_PAYLOAD_MAX_SIZE j lj t1 s = Some ((0, Some [], d1), s1) /\
     submit 0 i li t2 s1 = Some ((0, Some pair, d2), s2) /\ completed s2).
Proof.
  intros W Hij Pi Pj Ht1 Ht2 Hmax Hfind submit pair completed.
  pose proof (cached_range s) as Hcs. rewrite (fw_len _ W) in Hcs.
  change (Z.of_nat pair_count) with 64 in Hcs.
  split.
  - destruct (two_pairs t1 t2 s i j c nd ep h (FragmentHeader id 0 len)
      (FragmentHeader id LINKG_TRANSPORT_FRAGMENT_PAYLOAD_MAX_SIZE len) li lj W Hij Pi Pj)
      as (d1&s1&d2&s2&E1&E2&W2&O2&p&q&[= <-]&[= <-]&_&Fp&Fq); try done; [lia|].
    exists d1, s1, d2, s2. by splits.
  - destruct (two_pairs t1 t2 s j i c nd ep h (FragmentHeader id LINKG_TRANSPORT_FRAGMENT_PAYLOAD_MAX_SIZE len)
      (FragmentHeader id 0 len) lj li W ltac:(congruence) Pj Pi)
      as (d1&s1&d2&s2&E1&E2&W2&O2&p&q&[= <-]&[= <-]&_&Fp&Fq); try done; [lia|].
    exists d1, s1, d2, s2. splits; [done..|]. split; [done|]. splits; [|done..].
    intros k. rewrite O2. lia.
Qed.

(** The caller of the public entry point owns the packet it passes. *)
Definition submit_ready (s : runtime) (packet : option pkt_ptr) : Prop :=
  forall i, packet = Some i -> pairable s i.

Lemma pair_submit_spec_cases c nd ep h fh i len now l :
  let '(ret, outputs, _, delta) := pair_submit_spec c nd ep h fh i len now l in
  delta = -1 /\ ret = 0 /\ length outputs = 2%nat \/ delta = 0 /\ outputs = [] \/
  delta = 1 /\ ret = 0 /\ outputs = [].
Proof.
  unfold pair_submit_spec, pair_outputs. repeat case_match; simplify_eq/=; auto.
Qed.

(** Every call of [linkg_transport_forward_pair_submit],
    valid or not, returns and keeps the invariant. The fragments in the cache
    plus those counted as incomplete change by at most one: plus one when the
    fragment is cached, minus one when it completes a pair, in which case the
    outputs are the two packets of the group, both owned by the caller. *)
Theorem forward_submit_conserves (mx : mutex_api) (tinit ap : bool) (epochs : list Z) (now : Z) (s : runtime)
    (peer : option peer_ptr) (ep c nd : Z) (h : option linkg_transport_header)
    (fh : option linkg_transport_fragment_header) (packet : option pkt_ptr) (len : Z) (output_null : bool) :
  mutex_ok mx -> pairs_wf s -> submit_ready s packet ->
  0 <= now < 2 ^ 64 - LINKG_TRANSPORT_FORWARD_PAIR_TTL_US ->
  0 <= fr_incomplete_frames s < 2 ^ 64 - 65 ->
  exists ret outputs s',
    linkg_transport_forward_pair_submit mx tinit ap epochs now peer ep c nd h fh packet len output_null s =
      Some ((ret, outputs), s') /\ pairs_wf s' /\
    (forall j, pair_own s' j = pair_own s j + outputs_refs (default [] outputs) j) /\
    group_flags s s' (default [] outputs) /\
    exists delta, cached s' + fr_incomplete_frames s' = cached s + fr_incomplete_frames s + delta /\
      (delta = -1 /\ ret = 0 /\ length (default [] outputs) = 2%nat \/
       delta = 0 /\ default [] outputs = [] \/
       delta = 1 /\ ret = 0 /\ default [] outputs = []).
Proof.
  intros Hmx W Hr Hnow Hst.
  assert (forall ret o, default [] o = [] -> exists ret0 outputs s', Some ((ret, o), s) = Some ((ret0, outputs), s') /\
    pairs_wf s' /\ (forall j, pair_own s' j = pair_own s j + outputs_refs (default [] outputs) j) /\
    group_flags s s' (default [] outputs) /\
    exists delta, cached s' + fr_incomplete_frames s' = cached s + fr_incomplete_frames s + delta /\
      (delta = -1 /\ ret0 = 0 /\ length (default [] outputs) = 2%nat \/
       delta = 0 /\ default [] outputs = [] \/
       delta = 1 /\ ret0 = 0 /\ default [] outputs = [])) as Hfail.
  { intros ret o Ho. exists ret, o, s. rewrite Ho. splits; [done|done| |done|].
    - intros j. unfold outputs_refs. cbn. lia.
    - exists 0. split; [lia|auto]. }
  unfold linkg_transport_forward_pair_submit. mrun.
  destruct (_ || _)%bool; [by apply Hfail|]. destruct ap; cbn [negb]; [|by apply Hfail].
  destruct peer as [pr|]; [|by apply Hfail]. destruct h as [h|]; [|by apply Hfail].
  destruct fh as [fh|]; [|by apply Hfail]. destruct packet as [i|]; [|by apply Hfail].
  destruct (_ || _)%bool eqn:E0; [by apply Hfail|]. destruct (Z.land (th_flags h) _ =? 0); [by apply Hfail|].
  destruct Hmx as (_&->&->&_). cbn [Z.eqb negb].
  destruct (linkg_transport_peer_epoch_matches _ _ _); cbn [negb]; [|by apply Hfail].
  assert (output_null = false) as -> by (destruct output_null; [by rewrite orb_true_r in E0|done]).
  pose proof (cached_range s) as Hcs. rewrite (fw_len _ W) in Hcs. change (Z.of_nat pair_count) with 64 in Hcs.
  destruct (pair_gc_spec now s (0, 0) W ltac:(done) ltac:(cbn [snd]; lia)) as (d1&s1&Eg&Q&Ag).
  pose proof (fq_count _ _ _ _ _ Q) as C1. pose proof (fq_mono _ _ _ _ _ Q) as M1. cbn [snd] in C1, M1.
  pose proof (fl_wf _ _ _ (fq_rel _ _ _ _ _ Q)) as W1.
  pose proof (cached_range s1) as Hcs1.
  destruct (pair_submit_locked_spec now s1 i c nd ep h fh len d1 W1 (pairable_quiet _ _ _ _ _ _ Q (Hr i eq_refl))
    Hnow ltac:(lia) ltac:(lia)) as (ret&o&d2&s2&Es&O).
  mstep Eg. mstep Es.
  assert (pair_outcome now i s (0, 0) s2 d2 (pair_submit_spec c nd ep h fh i len now (fabs now s1)) ret o) as O'.
  { eapply outcome_quiet; [exact Q| |exact O]. intros j Hj. unfold output_packets in Hj.
    apply (fl_live _ _ _ (pt_rel _ _ _ _ _ _ _ _ _ O)). pose proof (pt_own _ _ _ _ _ _ _ _ _ O j) as Ho.
    pose proof (fw_refs _ W1 j). pose proof (pair_held_nonneg s2 j). unfold pair_own in *. lia. }
  pose proof (pt_count _ _ _ _ _ _ _ _ _ O') as Hcount. pose proof (pt_mono _ _ _ _ _ _ _ _ _ O') as Hmono.
  pose proof (pair_submit_spec_cases c nd ep h fh i len now (fabs now s1)) as Hcases.
  destruct (pair_submit_spec c nd ep h fh i len now (fabs now s1)) as [[[r os] l] delta].
  pose proof (pt_ret _ _ _ _ _ _ _ _ _ O') as Er. pose proof (pt_outputs _ _ _ _ _ _ _ _ _ O') as Eo.
  cbn [fst snd] in *. subst ret o. pose proof (cached_range s2) as Hcs2.
  assert (0 <= snd d2 <= 65) as Hd2 by (destruct Hcases as [(->&_)|[(->&_)|(->&_)]]; lia).
  assert (exists s3, _linkg_transport_forward_record_incomplete (fst d2) (snd d2) s2 = Some (tt, s3) /\
    fr_store s3 = fr_store s2 /\ fr_entries s3 = fr_entries s2 /\
    fr_incomplete_frames s3 = fr_incomplete_frames s + snd d2) as (s3&E3&Est&Een&Efr).
  { unfold _linkg_transport_forward_record_incomplete.
    pose proof (fl_frames _ _ _ (pt_rel _ _ _ _ _ _ _ _ _ O')) as Hfr.
    destruct (_ && _)%bool eqn:Ez.
    - exists s2. zb. splits; [done|done|done|lia].
    - eexists. split; [done|]. cbn. splits; [done|done|]. rewrite Hfr. apply wrap_small. mlia. }
  assert (pairs_wf s3 /\ (forall j, pair_own s3 j = pair_own s2 j) /\ cached s3 = cached s2) as (W3&O3&C3).
  { pose proof (fl_wf _ _ _ (pt_rel _ _ _ _ _ _ _ _ _ O')) as [Wa Wb Wc Wd We].
    unfold pair_own, pair_held, cached in *. rewrite Est, Een. split; [|done].
    split; rewrite ?Est, ?Een; try done; intros j; unfold pair_held; rewrite Een, ?Est; auto. }
  mstep E3. exists r, (Some os), s3. change (default [] (Some os)) with os. splits.
  - destruct (r =? 0) eqn:Er; cbn [negb]; [|done]. zb. by rewrite Er.
  - done.
  - intros j. rewrite O3. apply (pt_own _ _ _ _ _ _ _ _ _ O').
  - pose proof (pt_flags _ _ _ _ _ _ _ _ _ O') as Hf. unfold group_flags in *. by rewrite Est.
  - exists delta. split; [lia|]. destruct Hcases as [(?&?&?)|[(?&?)|(?&?&?)]]; auto.
Qed.

(** resetting a peer drops exactly that peer's waiting
    fragments and counts each of them once, as incomplete and as reset; the
    references outside the cache are unchanged. *)
Theorem forward_reset_peer_spec (mx : mutex_api) (nd : Z) (s : runtime) :
  mutex_ok mx -> pairs_wf s -> fr_initialized s = true -> _linkg_transport_forward_peer_valid nd = true ->
  0 <= fr_incomplete_frames s < 2 ^ 64 - 64 -> 0 <= fr_reset_frames s < 2 ^ 64 - 64 ->
  exists s', linkg_transport_forward_pair_reset_peer mx nd s = Some (0, s') /\ pairs_wf s' /\
    (forall j, pair_own s' j = pair_own s j) /\
    (forall now, fabs now s' = (fun o => match o with
       | Some x => if fe_peer_node_id x =? nd then None else Some x
       | None => None end) <$> fabs now s) /\
    cached s' + fr_incomplete_frames s' = cached s + fr_incomplete_frames s /\
    fr_reset_frames s' - fr_reset_frames s = fr_incomplete_frames s' - fr_incomplete_frames s.
Proof.
  intros Hmx W Hi Hnd Hf Hrs. destruct Hmx as (_&Hl&Hu&_).
  pose proof (cached_range s) as Hcs. rewrite (fw_len _ W) in Hcs. change (Z.of_nat pair_count) with 64 in Hcs.
  set (test := fun x => fe_valid x && (fe_peer_node_id x =? nd)).
  destruct (drop_entries_spec test all_pairs s (0, 0) W) as (d&s1&E1&Q&_&_);
    [intros e; apply all_pairs_spec|apply all_pairs_nodup|done|cbn [snd]; lia|].
  assert (forall now, fabs now s1 = (fun o => match o with
       | Some x => if fe_peer_node_id x =? nd then None else Some x
       | None => None end) <$> fabs now s) as A1.
  { intros now. destruct (drop_entries_abs test now s (0, 0) W) as (d'&s'&E'&_&_&_&A'); [done|cbn [snd]; lia|].
    rewrite E1 in E'. injection E' as -> ->. rewrite A'. unfold fabs. rewrite <- !list_fmap_compose.
    apply list_fmap_ext. intros e x _. unfold compose, test.
    destruct (fe_valid x) eqn:Hv, (negb _); cbn; by rewrite ?Hv. }
  destruct Q as [[W1 L1 F1 I1 B1 Fr1 Rs1] O1 H1 C1 M1]. cbn [snd] in C1, M1.
  pose proof (cached_range s1) as Hcs1.
  unfold linkg_transport_forward_pair_reset_peer. rewrite Hnd. cbn [negb]. mrun. rewrite Hi, Hl, Hu. cbn [negb Z.eqb].
  fold test. mstep E1. unfold _linkg_transport_forward_record_reset.
  destruct (_ && _)%bool eqn:Ez; mrun.
  - exists s1. zb. splits; [done|done|done|done|lia|lia].
  - eexists. split; [done|].
    cbn [fr_incomplete_frames fr_reset_frames fset_stats]. rewrite Fr1, Rs1.
    rewrite (wrap_small 64 (fr_incomplete_frames s + snd d)), (wrap_small 64 (fr_reset_frames s + snd d)) by mlia.
    splits; [destruct W1; by split|done|done|change (cached (fset_stats _ _ _ s1)) with (cached s1); lia|lia].
Qed.
End Properties.


(** ** Instances

    The packet pool as store; packets 1 and 2 are allocated. *)

#[local] Instance demo_store : PacketStore linkg_packet_pool := pool_store mutex_default.
#[local] Instance demo_store_laws : PacketStoreLaws linkg_packet_pool :=
  pool_store_laws mutex_default mutex_default_ok.

Definition demo_pairs : linkg_transport_forward_pair_runtime linkg_packet_pool :=
  PairRuntime demo_pool2 (replicate pair_count pair_zero) 0 true 0 0 0.

Lemma empty_pairs_wf (p : linkg_packet_pool) t b x y z :
  pool_wf p -> pairs_wf (PairRuntime p (replicate pair_count pair_zero) t b x y z).
Proof.
  intros W. set (s := PairRuntime _ _ _ _ _ _ _).
  assert (forall j, pair_held s j = 0) as H.
  { intros j. unfold pair_held. cbn [fr_entries s]. rewrite sumZ_replicate. cbn. lia. }
  split; [exact W|cbn; by rewrite length_replicate| | |].
  - intros e w Hx. apply lookup_replicate in Hx as [-> _]. done.
  - intros j. rewrite H. lia.
  - intros j. rewrite H. apply (refs_nonneg p j W).
Qed.

Lemma demo_pairs_wf : pairs_wf demo_pairs.
Proof. apply empty_pairs_wf, demo_wf2. Qed.

Lemma demo_pairable i : i = 1%nat \/ i = 2%nat -> pairable demo_pairs i.
Proof. intros [-> | ->]; split; vm_compute; by try split. Qed.

Definition relay_header : linkg_transport_header :=
  Header 0 0 LINKG_TRANSPORT_TYPE_USER_DATA LINKG_TRANSPORT_FLAG_FRAGMENT 5 1 2 0.
Definition relay_tail : linkg_transport_fragment_header := FragmentHeader 9 1420 1500.

(** Packet 1 waits in the cache. *)
Definition demo_pairs1 : linkg_transport_forward_pair_runtime linkg_packet_pool :=
  final demo_pairs (_linkg_transport_forward_pair_submit_locked 1 3 2 (Some relay_header)
    (Some relay_tail) (Some 1%nat) 104 1000 false (0, 0) demo_pairs).

Lemma demo_pairs1_wf : pairs_wf demo_pairs1.
Proof.
  destruct (pair_submit_locked_spec 1000 demo_pairs 1 1 3 2 relay_header relay_tail 104 (0, 0)
    demo_pairs_wf (demo_pairable 1 ltac:(auto)) ltac:(unfold LINKG_TRANSPORT_FORWARD_PAIR_TTL_US; lia)
    ltac:(done) ltac:(vm_compute; done)) as (r&o&d&s'&E&O).
  unfold demo_pairs1. rewrite E. apply (fl_wf _ _ _ (pt_rel _ _ _ _ _ _ _ _ _ O)).
Qed.


Lemma forward_either_order_witness :
  exists d1 s1 d2 s2,
    _linkg_transport_forward_pair_submit_locked 1 3 2 (Some relay_header)
      (Some (FragmentHeader 9 LINKG_TRANSPORT_FRAGMENT_PAYLOAD_MAX_SIZE 1500)) (Some 2%nat) 104 1000 false
      (0, 0) demo_pairs = Some ((0, Some [], d1), s1) /\
    _linkg_transport_forward_pair_submit_locked 1 3 2 (Some relay_header)
      (Some (FragmentHeader 9 0 1500)) (Some 1%nat) 1444 2000 false (0, 0) s1 =
      Some ((0, Some [ForwardItem (Some 1%nat) 1444 2 3; ForwardItem (Some 2%nat) 104 2 3], d2), s2) /\
    pairs_wf s2 /\ (forall k, pair_own s2 k = pair_own demo_pairs k + one_ref 1 k + one_ref 2 k) /\
    ps_flags (fr_store s2) 1%nat = group_first (ps_flags (fr_store demo_pairs) 1%nat) /\
    ps_flags (fr_store s2) 2%nat = group_last (ps_flags (fr_store demo_pairs) 2%nat).
Proof.
  refine (proj2 (forward_either_order 1000 2000 demo_pairs 1 2 1 3 2 9 1500 1444 104 relay_header
    _ _ _ _ _ _ _ _)).
  - apply demo_pairs_wf.
  - discriminate.
  - apply demo_pairable. by left.
  - apply demo_pairable. by right.
  - lia.
  - unfold LINKG_TRANSPORT_FORWARD_PAIR_TTL_US. lia.
  - unfold LINKG_TRANSPORT_FORWARD_PAIR_TTL_US. lia.
  - vm_compute. reflexivity.
Defined.

Lemma forward_submit_conserves_witness :
  exists ret outputs s',
    linkg_transport_forward_pair_submit mutex_default true true [2] 3000 (Some 0%nat) 2 1 3 (Some relay_header)
      (Some relay_tail) (Some 1%nat) 104 false demo_pairs = Some ((ret, outputs), s') /\ pairs_wf s' /\
    (forall j, pair_own s' j = pair_own demo_pairs j + outputs_refs (default [] outputs) j) /\
    group_flags demo_pairs s' (default [] outputs) /\
    exists delta, cached s' + fr_incomplete_frames s' =
        cached demo_pairs + fr_incomplete_frames demo_pairs + delta /\
      (delta = -1 /\ ret = 0 /\ length (default [] outputs) = 2%nat \/
       delta = 0 /\ default [] outputs = [] \/
       delta = 1 /\ ret = 0 /\ default [] outputs = []).
Proof.
  apply (forward_submit_conserves mutex_default true true [2] 3000 demo_pairs (Some 0%nat) 2 1 3
           (Some relay_header) (Some relay_tail) (Some 1%nat) 104 false).
  - apply mutex_default_ok.
  - apply demo_pairs_wf.
  - intros i [= <-]. apply demo_pairable. by left.
  - unfold LINKG_TRANSPORT_FORWARD_PAIR_TTL_US. lia.
  - cbn. lia.
Defined.

Lemma forward_reset_peer_spec_witness :
  cached demo_pairs1 = 1 /\
  exists s', linkg_transport_forward_pair_reset_peer mutex_default 3 demo_pairs1 = Some (0, s') /\ pairs_wf s' /\
    (forall j, pair_own s' j = pair_own demo_pairs1 j) /\
    (forall now, fabs now s' = (fun o => match o with
       | Some x => if fe_peer_node_id x =? 3 then None else Some x
       | None => None end) <$> fabs now demo_pairs1) /\
    cached s' + fr_incomplete_frames s' = cached demo_pairs1 + fr_incomplete_frames demo_pairs1 /\
    fr_reset_frames s' - fr_reset_frames demo_pairs1 =
      fr_incomplete_frames s' - fr_incomplete_frames demo_pairs1.
Proof.
  split; [vm_compute; reflexivity|].
  apply (forward_reset_peer_spec mutex_default 3 demo_pairs1).
  - apply mutex_default_ok.
  - apply demo_pairs1_wf.
  - vm_compute. reflexivity.
  - reflexivity.
  - vm_compute. by split.
  - vm_compute. by split.
Defined.
