(* ===== verification/TransportCacheSafety.v ===== *)
(** * The fragment caches with arbitrary packets

    The reassembly cache and the relay pairing cache when nothing is known about
    the packets submitted to them but that the caller holds a reference: no call
    is stuck, no reference is lost or given back twice, whatever the packets are
    and even if one is submitted again while the cache holds it. The receive
    pipeline relies on this, because frames also reach the caches from the
    reorder windows. *)

From S2P Require Import Prelude.
From S2P Require Import PacketStore.
From S2P Require Import PacketPool.
From S2P Require Import PacketData.
From S2P Require Import TransportTypes.
From S2P Require Import TransportForward.
From S2P Require Import TransportReassembly.

(** Most references anybody holds to one packet. *)
Definition keep_room : Z := 2 ^ 32 - 2048.

(** ** Reassembly

    [keep] counts the references outside the cache. *)
Record cache_ok (keep : nat -> Z) (s : linkg_transport_reassembly_runtime) : Prop := {
  ca_pool : pool_wf (rr_pool s);
  ca_len : length (rr_entries s) = entry_count;
  ca_free : forall e x, rr_entries s !! e = Some x -> re_valid x = false -> forall j, held_entry x j = 0;
  ca_refs : forall j, refs (rr_pool s) j = held s j + keep j;
  ca_keep : forall j, 0 <= keep j < keep_room }.

Lemma held_entry_two x j : 0 <= held_entry x j <= 2.
Proof.
  unfold held_entry. pose proof (held_opt_range (re_first_packet x) j).
  pose proof (held_opt_range (re_tail_packet x) j). lia.
Qed.

Lemma held_le keep s j : cache_ok keep s -> held s j <= 256.
Proof.
  intros W. unfold held. change 256 with (2 * Z.of_nat entry_count). rewrite <- (ca_len _ _ W).
  induction (rr_entries s) as [|x l IH]; cbn [sumZ length]; [lia|]. pose proof (held_entry_two x j). lia.
Qed.

Lemma cache_refs_room keep s j : cache_ok keep s -> refs (rr_pool s) j < 2 ^ 32 - 1.
Proof.
  intros W. rewrite (ca_refs _ _ W). pose proof (held_le _ _ j W). pose proof (ca_keep _ _ W j). unfold keep_room in *. lia.
Qed.

Lemma cache_covered keep s e x : cache_ok keep s -> rr_entries s !! e = Some x ->
  forall j, held_entry x j <= refs (rr_pool s) j.
Proof.
  intros W Hx j. rewrite (ca_refs _ _ W). pose proof (held_entry_le s e x j Hx). pose proof (ca_keep _ _ W j). lia.
Qed.

Lemma cache_entry keep s e : cache_ok keep s -> (e < entry_count)%nat -> exists x, rr_entries s !! e = Some x.
Proof. intros W He. apply lookup_lt_is_Some. by rewrite (ca_len _ _ W). Qed.

(** A packet the caller holds. *)
Lemma cache_live keep s i : cache_ok keep s -> 0 < keep i -> exists k, live (rr_pool s) i k.
Proof.
  intros W Hi. pose proof (ca_refs _ _ W i) as Hr. pose proof (held_nonneg s i).
  destruct (refs_packet (rr_pool s) i) as (k&Hk&_); [lia|]. exists k. split; [apply W|]. split; [lia|done].
Qed.

(** A packet the cache holds. *)
Lemma cache_entry_live keep s e x i : cache_ok keep s -> rr_entries s !! e = Some x -> 0 < held_entry x i ->
  exists k, live (rr_pool s) i k.
Proof.
  intros W Hx Hi. pose proof (cache_covered _ _ _ _ W Hx i).
  destruct (refs_packet (rr_pool s) i) as (k&Hk&_); [lia|]. exists k. split; [apply W|]. split; [lia|done].
Qed.

(** One entry and the pool change; [given] is handed to the caller. *)
Lemma cache_next keep given s p' e x y :
  cache_ok keep s -> rr_entries s !! e = Some x -> pool_wf p' -> (re_valid y = false -> forall j, held_entry y j = 0) ->
  (forall j, refs p' j - held_entry y j = refs (rr_pool s) j - held_entry x j + given j) ->
  (forall j, 0 <= keep j + given j < keep_room) -> cache_ok (fun j => keep j + given j) (next s p' e y).
Proof.
  intros W Hx Hw Hy Hd Hk. split; cbn [rr_pool rr_entries next]; [done| | | |done].
  - rewrite length_insert. apply W.
  - intros e' z. rewrite lookup_insert_case by (by eapply lookup_lt_Some). case_decide; [by intros [= <-]|apply (ca_free _ _ W)].
  - intros j. rewrite (held_next _ _ _ x) by done. specialize (Hd j). pose proof (ca_refs _ _ W j). lia.
Qed.

Lemma cache_ext keep keep' s : (forall j, keep j = keep' j) -> cache_ok keep s -> cache_ok keep' s.
Proof. intros H [A B F C D]. split; [done|done|done|..]; intros j; rewrite <- H; auto. Qed.

(** Without a change for the caller. *)
Lemma cache_next_same keep s p' e x y :
  cache_ok keep s -> rr_entries s !! e = Some x -> pool_wf p' -> (re_valid y = false -> forall j, held_entry y j = 0) ->
  (forall j, refs p' j - held_entry y j = refs (rr_pool s) j - held_entry x j) -> cache_ok keep (next s p' e y).
Proof.
  intros W Hx Hw Hy Hd. eapply cache_ext; [|apply (cache_next keep (fun _ => 0) s p' e x y); try done].
  - intros j. cbn. lia.
  - intros j. rewrite Hd. lia.
  - intros j. pose proof (ca_keep _ _ W j). lia.
Qed.

Lemma cache_same keep s s' :
  rr_pool s' = rr_pool s -> rr_entries s' = rr_entries s -> cache_ok keep s -> cache_ok keep s'.
Proof. intros Ep Ee [A B F C D]. split; [by rewrite Ep|by rewrite Ee|by rewrite Ee| |done]. intros j. unfold held. rewrite Ep, Ee. apply C. Qed.

(** ** Steps of the reassembly *)

(** [fragment_length] for any claimed length. *)
Lemma fragment_length_any s offset len i k :
  pool_wf (rr_pool s) -> packet_of (rr_pool s) i = Some k ->
  exists r, _linkg_transport_reassembly_fragment_length offset len (Some i) s = Some (r, s) /\
    fst r = fragment_error offset len (pk_data_length k) /\
    (fst r = 0 -> snd r = Some (pk_data_length k - 24)).
Proof.
  intros Hw Hk. destruct ((len <=? 1428) || (1500 <? len))%bool eqn:El.
  - destruct (live_home _ i k Hw Hk) as (_&E1&E2).
    exists (- EPROTO, None). splits; [|by unfold fragment_error; rewrite El|done].
    unfold _linkg_transport_reassembly_fragment_length.
    mstep (pool_read_eq (packet_at i) s k (packet_at_eq _ _ _ Hk)). rewrite E1, E2. cbn [orb].
    change LINKG_TRANSPORT_PAYLOAD_MAX_SIZE with 1428. change LINKG_TRANSPORT_PACKET_MAX_SIZE with 1500. by rewrite El.
  - zb. apply fragment_length_run; [done|done|lia].
Qed.

Section Reassembly.
Context (mx : mutex_api) (Hmx : mutex_ok mx).

Lemma clear_safe keep s e x :
  cache_ok keep s -> rr_entries s !! e = Some x ->
  exists p', _linkg_transport_reassembly_entry_clear mx (Some e) s = Some (tt, next s p' e entry_zero) /\
    cache_ok keep (next s p' e entry_zero).
Proof.
  intros W Hx. destruct (entry_clear_run mx Hmx s e x Hx (ca_pool _ _ W) (cache_covered _ _ _ _ W Hx)) as (p'&E&R&Hr).
  exists p'. split; [done|]. eapply cache_next_same; [done|done|apply (pr_wf _ _ _ R)|first [done | by cbn; rewrite Hv]|].
  intros j. rewrite held_entry_zero, Hr. lia.
Qed.

Lemma store_first_any keep s e x i :
  cache_ok keep s -> rr_entries s !! e = Some x -> re_valid x = true -> 0 < keep i -> re_first_packet x = None ->
  (exists ret, ret <> 0 /\ _linkg_transport_reassembly_store_first mx (Some e) (Some i) s = Some (ret, s)) \/
  (exists p', _linkg_transport_reassembly_store_first mx (Some e) (Some i) s =
      Some (0, next s p' e (entry_mask 1 (entry_first (Some i) x))) /\
    cache_ok keep (next s p' e (entry_mask 1 (entry_first (Some i) x)))).
Proof.
  intros W Hx Hv Hi Hf. destruct (cache_live _ _ _ W Hi) as (k&Hw&Hr&Hk).
  destruct (fragment_length_any s 0 (re_packet_length x) i k Hw Hk) as (r&Er&Er0&Er1).
  destruct (Z.eqb_spec (fst r) 0) as [F0|F0].
  - rewrite Er0 in F0. apply fragment_error_first in F0 as [Hlen Hn].
    destruct (store_first_run mx s e x i k Hw Hx Hk) as [[_ E]|(_&p'&E&R&Hrr&_)]; try done.
    { pose proof (cache_refs_room _ _ i W). lia. }
    + left. exists (- ENOBUFS). split; [done|exact E].
    + right. exists p'. split; [done|]. eapply cache_next_same; [done|done|apply (pr_wf _ _ _ R)|first [done | by cbn; rewrite Hv]|].
      intros j. unfold held_entry. cbn. rewrite Hrr, Hf. cbn. lia.
  - left. exists (fst r). split; [done|]. destruct (live_home _ i k Hw Hk) as (_&E1&E2).
    unfold _linkg_transport_reassembly_store_first.
    mstep (pool_read_eq (packet_at i) s k (packet_at_eq _ _ _ Hk)). rewrite E1, E2. cbn [orb].
    mstep (entry_at_eq s e x Hx). mstep Er. rewrite (proj2 (Z.eqb_neq _ _) F0). done.
Qed.

Lemma store_tail_any keep s e x i :
  cache_ok keep s -> rr_entries s !! e = Some x -> re_valid x = true -> 0 < keep i -> re_tail_packet x = None ->
  (exists ret, ret <> 0 /\ _linkg_transport_reassembly_store_tail (Some e) (Some i) s = Some (ret, s)) \/
  (exists p', _linkg_transport_reassembly_store_tail (Some e) (Some i) s =
      Some (0, next s p' e (entry_mask 2 (entry_tail (Some i) x))) /\
    cache_ok keep (next s p' e (entry_mask 2 (entry_tail (Some i) x)))).
Proof.
  intros W Hx Hv Hi Hf. destruct (cache_live _ _ _ W Hi) as (k&Hw&Hr&Hk).
  destruct (fragment_length_any s (u16 LINKG_TRANSPORT_FRAGMENT_PAYLOAD_MAX_SIZE) (re_packet_length x) i k Hw Hk)
    as (r&Er&Er0&Er1).
  destruct (Z.eqb_spec (fst r) 0) as [F0|F0].
  - rewrite Er0 in F0. apply fragment_error_tail in F0 as (Hlen&_&Hn); [|done].
    destruct (store_tail_run s e x i k Hw Hx Hk) as (p'&E&R&Hrr); try done.
    { pose proof (cache_refs_room _ _ i W). lia. }
    right. exists p'. split; [done|]. eapply cache_next_same; [done|done|apply (pr_wf _ _ _ R)|first [done | by cbn; rewrite Hv]|].
    intros j. unfold held_entry. cbn. rewrite Hrr, Hf. cbn. lia.
  - left. exists (fst r). split; [done|].
    unfold _linkg_transport_reassembly_store_tail. mstep (entry_at_eq s e x Hx). mstep Er.
    rewrite (proj2 (Z.eqb_neq _ _) F0). done.
Qed.

(** The lengths of the two packets keep a packet from being joined to itself. *)
Lemma append_tail_any keep s e x i j :
  cache_ok keep s -> rr_entries s !! e = Some x -> re_valid x = true -> re_first_packet x = Some i -> (exists kj, live (rr_pool s) j kj) ->
  (exists ret, ret <> 0 /\ _linkg_transport_reassembly_append_tail (Some e) (Some j) s = Some (ret, s)) \/
  (i <> j /\ exists p' k, _linkg_transport_reassembly_append_tail (Some e) (Some j) s =
      Some (0, next s p' e (entry_mask 2 x)) /\ cache_ok keep (next s p' e (entry_mask 2 x)) /\
      live p' i k /\ pk_data_length k = re_packet_length x).
Proof.
  intros W Hx Hv Hf [kj Lj]. pose proof Lj as (Hw&Hrj&Hj).
  destruct (cache_entry_live _ _ _ _ i W Hx) as [k Li].
  { unfold held_entry. rewrite Hf. cbn. rewrite one_ref_same. pose proof (held_opt_range (re_tail_packet x) i). lia. }
  pose proof Li as (_&Hri&Hi). destruct (live_home _ i k Hw Hi) as (Eh&E1&E2). destruct (live_home _ j kj Hw Hj) as (_&E3&E4).
  destruct (live_wf _ i k Hw Hi) as (_&(?&?&?&?)&_).
  unfold _linkg_transport_reassembly_append_tail. mstep (entry_at_eq s e x Hx). rewrite Hf.
  mstep (pool_read_eq (packet_at j) s kj (packet_at_eq _ _ _ Hj)). rewrite E3, E4. cbn [orb].
  mstep (pool_read_eq (packet_at i) s k (packet_at_eq _ _ _ Hi)). rewrite E1, E2. cbn [orb].
  change LINKG_TRANSPORT_FRAGMENT_PAYLOAD_MAX_SIZE with 1420. destruct (Z.eqb_spec (pk_data_length k) 1420) as [Hk|Hk]; cbn [negb].
  2:{ left. by exists (- EPROTO). }
  destruct (fragment_length_any s (u16 1420) (re_packet_length x) j kj Hw Hj) as (r&Er&Er0&Er1).
  destruct (Z.eqb_spec (fst r) 0) as [F0|F0].
  2:{ left. exists (fst r). split; [done|]. mstep Er. rewrite (proj2 (Z.eqb_neq _ _) F0). done. }
  pose proof F0 as F1. rewrite Er0 in F1. apply fragment_error_tail in F1 as (Hlen&_&Hn); [|done].
  destruct (decide (pk_data_offset k + re_packet_length x <= po_slot_size (rr_pool s))) as [Hroom|Hroom].
  2:{ left. exists (- ENOBUFS). split; [done|]. mstep Er. rewrite F0. cbn [Z.eqb negb]. mstep (packet_slot_size_eq s k Eh).
      rewrite wrap_small by mlia. by bsimp. }
  right. assert (i <> j) as Hij by (intros ->; simplify_eq; lia). split; [done|].
  destruct (append_tail_run s e x i j k kj Hw Hx Hf Hij Li Lj Hk Hlen Hroom Hn) as (p'&E&L&R&Hrr&_).
  exists p', (set_window (pk_data_offset k) (re_packet_length x) k). splits; [| |done|done].
  - rewrite <- E. unfold _linkg_transport_reassembly_append_tail. symmetry. mstep (entry_at_eq s e x Hx). rewrite Hf.
    mstep (pool_read_eq (packet_at j) s kj (packet_at_eq _ _ _ Hj)). rewrite E3, E4. cbn [orb].
    mstep (pool_read_eq (packet_at i) s k (packet_at_eq _ _ _ Hi)). rewrite E1, E2. cbn [orb].
    change LINKG_TRANSPORT_FRAGMENT_PAYLOAD_MAX_SIZE with 1420. by rewrite Hk.
  - eapply cache_next_same; [done|done|apply (pr_wf _ _ _ R)|first [done | by cbn; rewrite Hv]|]. intros j'. unfold held_entry. cbn. by rewrite Hrr.
Qed.

Lemma complete_safe keep s e x i k :
  cache_ok keep s -> rr_entries s !! e = Some x -> re_first_packet x = Some i -> re_received_mask x = 3 ->
  live (rr_pool s) i k -> pk_data_length k = re_packet_length x -> re_tail_packet x <> Some i ->
  keep i + 1 < keep_room ->
  exists p', _linkg_transport_reassembly_complete mx (Some e) s = Some ((1, Some i), next s p' e entry_zero) /\
    cache_ok (fun j => keep j + one_ref i j) (next s p' e entry_zero).
Proof.
  intros W Hx Hf Hm L Hn Hne Hk. pose proof (cache_covered _ _ _ _ W Hx) as Hc.
  destruct (complete_run mx Hmx s e x i k (ca_pool _ _ W) Hx Hf Hm L Hn) as (p'&E&R&Hr); [|done|].
  { intros j. specialize (Hc j). unfold held_entry in Hc. pose proof (held_opt_range (re_first_packet x) j). lia. }
  exists p'. split; [done|]. eapply cache_next; [done|done|apply (pr_wf _ _ _ R)|done|..]; intros j.
  - rewrite held_entry_zero, Hr. unfold held_entry. rewrite Hf. cbn. lia.
  - pose proof (ca_keep _ _ W j). destruct (decide (i = j)) as [<-|Hj]; [rewrite one_ref_same; lia|rewrite one_ref_other by done; lia].
Qed.

(** ** Submissions to the reassembly *)

(** The packet handed to the caller is referenced for the caller. *)
Definition cache_out (keep : nat -> Z) (o : option pkt_ptr) (s : linkg_transport_reassembly_runtime) : Prop :=
  cache_ok (fun j => keep j + held_opt o j) s.

Lemma cache_out_none keep s : cache_ok keep s -> cache_out keep None s.
Proof. apply cache_ext. intros j. cbn. lia. Qed.

(** A step that hands out a packet or not. *)
Definition submitted (keep : nat -> Z) (r : option (Z * option pkt_ptr * linkg_transport_reassembly_runtime)) : Prop :=
  exists ret o s', r = Some ((ret, o), s') /\ cache_out keep o s'.

Lemma submitted_none keep ret s : cache_ok keep s -> submitted keep (Some ((ret, None), s)).
Proof. intros W. exists ret, None, s. split; [done|by apply cache_out_none]. Qed.

Lemma clear_submitted keep s e x (ret : Z) :
  cache_ok keep s -> rr_entries s !! e = Some x ->
  submitted keep ((_linkg_transport_reassembly_entry_clear mx (Some e) ;; mret (ret, None)) s).
Proof. intros W Hx. destruct (clear_safe _ _ _ _ W Hx) as (p'&E&W'). mstep E. by apply submitted_none. Qed.

(** The append and what follows it. *)
Lemma join_safe keep s e x i j :
  cache_ok keep s -> rr_entries s !! e = Some x -> re_valid x = true -> re_first_packet x = Some i -> (exists kj, live (rr_pool s) j kj) ->
  Z.lor (re_received_mask x) 2 = 3 -> re_tail_packet x = None \/ re_tail_packet x = Some j ->
  (forall j, keep j + 1 < keep_room) ->
  submitted keep ((ret ← _linkg_transport_reassembly_append_tail (Some e) (Some j);
    if negb (ret =? 0) then _linkg_transport_reassembly_entry_clear mx (Some e) ;; mret (ret, None)
    else _linkg_transport_reassembly_complete mx (Some e)) s).
Proof.
  intros W Hx Hv Hf Lj Hm Ht Hk. destruct (append_tail_any _ _ _ _ _ _ W Hx Hv Hf Lj) as [(ret&Hret&E)|(Hij&p'&k&E&W'&L&Hn)].
  - mstep E. rewrite (proj2 (Z.eqb_neq _ _) Hret). cbn [negb]. by eapply clear_submitted.
  - mstep E. cbn [Z.eqb negb]. pose proof (lookup_lt_Some _ _ _ Hx) as Hlt.
    assert (rr_entries (next s p' e (entry_mask 2 x)) !! e = Some (entry_mask 2 x)) as Hx' by by apply list_lookup_insert_eq.
    destruct (complete_safe _ _ _ _ i k W' Hx') as (p2&E2&W2); try done.
    { cbn. destruct Ht as [->| ->]; congruence. }
    exists 1, (Some i). eexists. split; [exact E2|exact W2].
Qed.

Lemma merge_safe keep s e x i fh :
  cache_ok keep s -> rr_entries s !! e = Some x -> re_valid x = true -> 0 < keep i -> (forall j, keep j + 1 < keep_room) ->
  submitted keep (merge_fragment mx e fh (Some i) s).
Proof.
  intros W Hx Hv Hi Hk. unfold merge_fragment. mstep (entry_at_eq s e x Hx).
  destruct (_ =? fh_packet_length fh); cbn [negb]; [|by eapply clear_submitted].
  destruct (_ =? 0); cbn [negb]; [|by apply submitted_none].
  destruct (_ =? u8 _) eqn:Em; cbn [negb]; [|by eapply clear_submitted]. zb.
  destruct (fh_fragment_offset fh =? 0) eqn:Eo.
  - destruct (re_first_packet x) as [f|] eqn:Ef; [by eapply clear_submitted|].
    destruct (re_tail_packet x) as [t|] eqn:Et; [|by eapply clear_submitted].
    rewrite bool_decide_true, bool_decide_false by done. cbn [negb orb].
    destruct (store_first_any _ _ _ _ _ W Hx Hv Hi Ef) as [(ret&Hret&E)|(p'&E&W')].
    + mstep E. rewrite (proj2 (Z.eqb_neq _ _) Hret). mrun. rewrite (proj2 (Z.eqb_neq _ _) Hret). cbn [negb].
      by eapply clear_submitted.
    + mstep E. cbn [Z.eqb]. pose proof (lookup_lt_Some _ _ _ Hx) as Hlt. set (y := entry_mask 1 (entry_first (Some i) x)) in *.
      assert (rr_entries (next s p' e y) !! e = Some y) as Hy by by apply list_lookup_insert_eq.
      mstep (entry_at_eq _ e y Hy). rewrite (eq_refl : re_tail_packet y = re_tail_packet x), Et.
      apply (join_safe keep (next s p' e y) e y i t); try done.
      * eapply cache_entry_live; [exact W'|exact Hy|]. unfold held_entry. cbn. rewrite Et. cbn. rewrite one_ref_same.
        pose proof (one_ref_range i t). lia.
      * cbn. rewrite Em. unfold _linkg_transport_reassembly_fragment_bit. by rewrite Eo.
      * right. done.
  - destruct (re_first_packet x) as [f|] eqn:Ef; [|by eapply clear_submitted].
    destruct (re_tail_packet x) as [t|] eqn:Et; [by eapply clear_submitted|].
    rewrite bool_decide_false, bool_decide_true by done. cbn [negb orb].
    apply (join_safe keep s e x f i); try done; [by eapply cache_live| |by left].
    rewrite Em. unfold _linkg_transport_reassembly_fragment_bit. by rewrite Eo.
Qed.

Lemma create_safe keep s e x i c nd ep h fh now :
  cache_ok keep s -> rr_entries s !! e = Some x -> 0 < keep i -> (forall j, held_entry x j = 0) ->
  exists ret s', _linkg_transport_reassembly_create_entry_locked mx (Some e) c nd ep (Some h) (Some fh) (Some i) now s =
    Some (ret, s') /\ cache_ok keep s'.
Proof.
  intros W Hx Hi Hz. destruct (cache_live _ _ _ W Hi) as (k&Hw&Hr&Hk).
  destruct (fragment_length_any s (fh_fragment_offset fh) (fh_packet_length fh) i k Hw Hk) as (r&Er&_).
  unfold _linkg_transport_reassembly_create_entry_locked. mstep Er. destruct (fst r =? 0); cbn [negb]; [|by eexists _, _].
  set (y := entry_new c nd ep h fh now). mstep (entry_update_eq s e x (fun _ => y) Hx).
  change (set_entries (<[e:=y]> (rr_entries s)) s) with (next s (rr_pool s) e y).
  assert (cache_ok keep (next s (rr_pool s) e y)) as W1.
  { eapply cache_next_same; [done|done|done|done|]. intros j. by rewrite Hz. }
  pose proof (lookup_lt_Some _ _ _ Hx) as Hlt.
  assert (rr_entries (next s (rr_pool s) e y) !! e = Some y) as Hy by by apply list_lookup_insert_eq.
  assert (forall op, (exists ret, ret <> 0 /\ op (next s (rr_pool s) e y) = Some (ret, next s (rr_pool s) e y)) \/
      (exists s', op (next s (rr_pool s) e y) = Some (0, s') /\ cache_ok keep s') ->
    exists ret s', (ret ← op; if negb (ret =? 0) then _linkg_transport_reassembly_entry_clear mx (Some e) ;; mret ret
      else mret 0) (next s (rr_pool s) e y) = Some (ret, s') /\ cache_ok keep s') as Hop.
  { intros op [(ret&Hret&E)|(s'&E&W')].
    - mstep E. rewrite (proj2 (Z.eqb_neq _ _) Hret). cbn [negb]. destruct (clear_safe _ _ _ _ W1 Hy) as (p'&E'&W').
      mstep E'. by eexists _, _.
    - mstep E. by eexists _, _. }
  destruct (_ =? 0); apply Hop.
  - destruct (store_first_any _ _ _ _ _ W1 Hy eq_refl Hi eq_refl) as [H|(p'&E&W')]; [by left|right; by eexists].
  - destruct (store_tail_any _ _ _ _ _ W1 Hy eq_refl Hi eq_refl) as [H|(p'&E&W')]; [by left|right; by eexists].
Qed.

(** Expired entries of the set are cleared on the way; a free entry found is
    within the array. *)
Definition entry_opt (o : option entry_ptr) : Prop := forall e, o = Some e -> (e < entry_count)%nat.

Lemma scan_safe keep set c nd ep h fh now (ways : list Z) : forall s free oldest,
  cache_ok keep s -> (forall w, w ∈ ways -> (entry_of set w < entry_count)%nat) -> entry_opt free -> entry_opt oldest ->
  exists entry free' oldest' s', scan_ways mx set ways c nd ep h fh now free oldest s = Some ((entry, free', oldest'), s') /\
    cache_ok keep s' /\ (forall e, entry = Some e -> exists x, rr_entries s' !! e = Some x /\ re_valid x = true) /\
    entry_opt free' /\ entry_opt oldest'.
Proof.
  induction ways as [|w ways IH]; intros s free oldest W Hw Hf Ho; cbn [scan_ways].
  { by exists None, free, oldest, s. }
  pose proof (Hw w ltac:(left)) as He. destruct (cache_entry _ _ _ W He) as [x Hx]. mstep (entry_at_eq s _ x Hx).
  assert (exists s1 y, when (_linkg_transport_reassembly_expired x now)
      (_linkg_transport_reassembly_entry_clear mx (Some (entry_of set w))) s = Some (tt, s1) /\ cache_ok keep s1 /\
      rr_entries s1 !! entry_of set w = Some y) as (s1&y&E1&W1&Hy).
  { destruct (_linkg_transport_reassembly_expired x now); cbn [when]; [|by exists s, x].
    destruct (clear_safe _ _ _ _ W Hx) as (p'&E&W'). eexists _, entry_zero. split; [exact E|]. split; [done|].
    apply list_lookup_insert_eq. by eapply lookup_lt_Some. }
  mstep E1. mstep (entry_at_eq s1 _ y Hy).
  destruct (_linkg_transport_reassembly_match _ _ _ _ _ _) eqn:Em.
  { exists (Some (entry_of set w)), free, oldest, s1. split; [done|]. split; [done|]. split; [|done].
    intros ? [= <-]. exists y. split; [done|]. unfold _linkg_transport_reassembly_match in Em. by destruct (re_valid y). }
  destruct (re_valid y); cbn [negb].
  - assert (exists b, (match oldest with None => mret true | Some o => y0 ← entry_at o; mret (re_expires_at_us y <? re_expires_at_us y0) end) s1
      = Some (b, s1)) as [b Eb].
    { destruct oldest as [o|]; [|by eexists]. destruct (cache_entry _ _ _ W1 (Ho o eq_refl)) as [z Hz].
      mstep (entry_at_eq s1 _ z Hz). by eexists. }
    mstep Eb. apply IH; [done|intros; apply Hw; by right|done|]. destruct b; [by intros ? [= <-]|done].
  - apply IH; [done|intros; apply Hw; by right| |done]. destruct free; [done|by intros ? [= <-]].
Qed.

Lemma submit_safe keep s i c nd ep h fh now null :
  cache_ok keep s -> (forall j, i = Some j -> 0 < keep j) -> (forall j, keep j + 1 < keep_room) ->
  submitted keep (_linkg_transport_reassembly_submit_locked mx c nd ep h fh i now null s).
Proof.
  intros W Hi Hk. unfold _linkg_transport_reassembly_submit_locked.
  destruct (_ || _); [by apply submitted_none|]. destruct h as [h|]; [|by apply submitted_none].
  destruct fh as [fh|]; [|by apply submitted_none]. destruct i as [i|]; [|by apply submitted_none].
  specialize (Hi i eq_refl). destruct (_ =? 0); [by apply submitted_none|].
  destruct (cache_live _ _ _ W Hi) as (k&Hw&_&Hkk).
  destruct (fragment_length_any s (fh_fragment_offset fh) (fh_packet_length fh) i k Hw Hkk) as (r&Er&_).
  mstep Er. destruct (fst r =? 0); cbn [negb]; [|by apply submitted_none].
  set (set := _linkg_transport_reassembly_set _ _ _ _ _).
  assert (forall w, w ∈ [0; 1] -> (entry_of set w < entry_count)%nat) as Hset.
  { pose proof (set_range c nd ep h (fh_packet_id fh)) as Hs. fold set in Hs. pose proof (ways_in_range set) as Hr. intros w Hw'.
    unfold entry_of, entry_count, LINKG_TRANSPORT_REASSEMBLY_SET_COUNT, LINKG_TRANSPORT_REASSEMBLY_WAYS in *.
    apply elem_of_cons in Hw' as [->|Hw']; [lia|]. apply list_elem_of_singleton in Hw' as ->. lia. }
  destruct (scan_safe keep set c nd ep h fh now [0; 1] s None None W Hset) as (en&fr&old&s1&E1&W1&Hen&Hfr&Hold); [done|done|].
  mstep E1. destruct en as [e|].
  { destruct (Hen e eq_refl) as (x&Hx&Hv). by eapply merge_safe. }
  assert (forall n, (n < entry_count)%nat -> submitted keep ((x ← entry_at n;
    when (re_valid x) (_linkg_transport_reassembly_entry_clear mx (Some n)) ;;
    ret ← _linkg_transport_reassembly_create_entry_locked mx (Some n) c nd ep (Some h) (Some fh) (Some i) now;
    mret (ret, None)) s1)) as Hn; [|destruct fr as [f|]; [by apply Hn, Hfr|]; destruct old as [o|]; [by apply Hn, Hold|by apply submitted_none]].
  intros n Hn. destruct (cache_entry _ _ _ W1 Hn) as [x Hx]. mstep (entry_at_eq s1 n x Hx).
  assert (exists s2 y, when (re_valid x) (_linkg_transport_reassembly_entry_clear mx (Some n)) s1 = Some (tt, s2) /\
    cache_ok keep s2 /\ rr_entries s2 !! n = Some y /\ forall j, held_entry y j = 0) as (s2&y&E2&W2&Hy&Hz).
  { destruct (re_valid x) eqn:Hv; cbn [when].
    - destruct (clear_safe _ _ _ _ W1 Hx) as (p'&E&W'). eexists _, entry_zero. split; [exact E|]. split; [done|].
      split; [|done]. apply list_lookup_insert_eq. by eapply lookup_lt_Some.
    - exists s1, x. split; [done|]. split; [done|]. split; [done|]. by apply (ca_free _ _ W1 n x). }
  mstep E2. destruct (create_safe keep s2 n y i c nd ep h fh now W2 Hy Hi Hz) as (ret&s3&E3&W3).
  mstep E3. by apply submitted_none.
Qed.

Lemma gc_safe keep s now :
  cache_ok keep s -> exists s', _linkg_transport_reassembly_gc_locked mx now s = Some (tt, s') /\ cache_ok keep s'.
Proof.
  intros W. unfold _linkg_transport_reassembly_gc_locked. mrun. destruct (_ && _); [by exists s|].
  destruct (mfor_inv (cache_ok keep) all_entries (fun e => x ← entry_at e;
    when (_linkg_transport_reassembly_expired x now) (_linkg_transport_reassembly_entry_clear mx (Some e))) s)
    as (s1&E1&W1); [|done|].
  - intros e t He%all_entries_spec Wt. destruct (cache_entry _ _ _ Wt He) as [x Hx]. mstep (entry_at_eq t e x Hx).
    destruct (_linkg_transport_reassembly_expired x now); cbn [when]; [|by exists t].
    destruct (clear_safe _ _ _ _ Wt Hx) as (p'&E&W'). by eexists.
  - mstep E1. eexists. split; [done|]. by apply (cache_same keep s1).
Qed.

Definition completed_refs (items : list linkg_transport_reassembly_submit_item) (j : nat) : Z :=
  sumZ (fun it => held_opt (ri_completed_packet it) j) items.

Lemma completed_refs_range items j : 0 <= completed_refs items j <= Z.of_nat (length items).
Proof.
  unfold completed_refs. induction items as [|it items IH]; cbn [sumZ length]; [lia|].
  pose proof (held_opt_range (ri_completed_packet it) j). lia.
Qed.

(** The packets of the items are the caller's. *)
Definition items_held (keep : nat -> Z) (items : list linkg_transport_reassembly_submit_item) : Prop :=
  forall it i, it ∈ items -> ri_packet it = Some i -> 0 < keep i.

Lemma submit_items_safe epochs now (items : list linkg_transport_reassembly_submit_item) : forall keep s index,
  cache_ok keep s -> items_held keep items -> (forall j, keep j + Z.of_nat (length items) < keep_room) ->
  (forall it, it ∈ items -> ri_completed_packet it = None) ->
  exists items' s', submit_items mx epochs index now items s = Some (items', s') /\
    length items' = length items /\ cache_ok (fun j => keep j + completed_refs items' j) s'.
Proof.
  induction items as [|it items IH]; intros keep s index W Hi Hk Hc; cbn [submit_items].
  { exists [], s. splits; [done|done|]. eapply cache_ext; [|done]. intros j. unfold completed_refs. cbn. lia. }
  assert (exists it' s1, submit_item mx (epochs index) now it s = Some (it', s1) /\
    cache_out keep (ri_completed_packet it') s1) as (it'&s1&E1&W1).
  { unfold submit_item. destruct (ri_peer it) as [pr|]; [|eexists _, s; split; [done|]; cbn; rewrite Hc by left; by apply cache_out_none].
    destruct (negb _); [eexists _, s; split; [done|]; cbn; rewrite Hc by left; by apply cache_out_none|].
    destruct (submit_safe keep s (ri_packet it) (ri_traffic_class it) (ri_peer_node_id it) (ri_peer_epoch it) (ri_header it)
      (ri_fragment_header it) now false W) as (ret&o&s1&E&W1).
    - intros j Ej. by apply (Hi it); [left|].
    - intros j. specialize (Hk j). cbn [length] in Hk. lia.
    - mstep E. eexists _, s1. split; [done|]. exact W1. }
  mstep E1. destruct (IH (fun j => keep j + held_opt (ri_completed_packet it') j) s1 (S index) W1) as (its&s2&E2&L2&W2).
  - intros x i Hx Ex. pose proof (Hi x i ltac:(by right) Ex). pose proof (held_opt_range (ri_completed_packet it') i). cbn. lia.
  - intros j. specialize (Hk j). cbn [length] in Hk. pose proof (held_opt_range (ri_completed_packet it') j). cbn. lia.
  - intros x Hx. apply Hc. by right.
  - mstep E2. exists (it' :: its), s2. splits; [done|by cbn; rewrite L2|]. eapply cache_ext; [|exact W2].
    intros j. unfold completed_refs. cbn. lia.
Qed.

(** A batch of any packets the caller holds. *)
Lemma submit_batch_safe epochs now items keep s :
  cache_ok keep s -> items <> [] -> items_held keep items -> (forall j, keep j + Z.of_nat (length items) < keep_room) ->
  (forall it, it ∈ items -> ri_completed_packet it = None) ->
  exists ret items' s', linkg_transport_reassembly_submit_batch mx epochs now (Some items) (Z.of_nat (length items)) s =
      Some ((ret, Some items'), s') /\
    length items' = length items /\ cache_ok (fun j => keep j + completed_refs items' j) s'.
Proof.
  intros W Hne Hi Hk Hc. unfold linkg_transport_reassembly_submit_batch.
  destruct (Z.eqb_spec (Z.of_nat (length items)) 0) as [E0|_]; [destruct items; [done|cbn in E0; lia]|]. mrun.
  assert (forall j, completed_refs items j = 0) as H0.
  { intros j. unfold completed_refs. revert Hc. clear. induction items as [|it items IH]; intros Hc; [done|]. cbn [sumZ].
    rewrite Hc by left. rewrite IH; [done|]. intros; apply Hc; by right. }
  destruct (rr_initialized s); cbn [negb].
  2:{ exists (- ENODEV), items, s. splits; [done|done|]. eapply cache_ext; [|exact W]. intros j. rewrite H0. lia. }
  rewrite Z.leb_refl. mrun. destruct Hmx as (_&->&->&_). cbn [Z.eqb negb]. rewrite Nat2Z.id, take_ge, drop_ge by done.
  set (batch := item_result _ _ <$> items).
  destruct (gc_safe keep s now W) as (s1&E1&W1). mstep E1.
  destruct (submit_items_safe epochs now batch keep s1 0 W1) as (its&s2&E2&L2&W2).
  - intros it i (it0&->&Hit)%list_elem_of_fmap Ei. by apply (Hi it0).
  - intros j. unfold batch. rewrite length_fmap. apply Hk.
  - intros it (it0&->&_)%list_elem_of_fmap. done.
  - mstep E2. exists 0, its, s2. rewrite app_nil_r. splits; [done| |done]. rewrite L2. unfold batch. by rewrite length_fmap.
Qed.

End Reassembly.

(** ** Relay pairing, over any packet store *)

Section Pairing.
Context {S : Type} {PS : PacketStore S} {PL : PacketStoreLaws S}.
Abbreviation runtime := (linkg_transport_forward_pair_runtime S).

Record pairs_ok (keep : nat -> Z) (s : runtime) : Prop := {
  pa_inv : ps_inv (fr_store s);
  pa_len : length (fr_entries s) = pair_count;
  pa_ok : forall e x, fr_entries s !! e = Some x -> pair_ok x;
  pa_refs : forall j, ps_refs (fr_store s) j = pair_held s j + keep j;
  pa_keep : forall j, 0 <= keep j < keep_room }.

(** What a submission hands out: at most two frames, each with its packet. *)
Definition outputs_ok (os : list linkg_transport_forward_item) : Prop :=
  (length os <= 2)%nat /\ Forall (fun it => fi_packet it <> None) os.

Lemma outputs_ok_nil : outputs_ok [].
Proof. split; [cbn; lia|constructor]. Qed.

Lemma pairs_ext keep keep' s : (forall j, keep j = keep' j) -> pairs_ok keep s -> pairs_ok keep' s.
Proof. intros H [A B F C D]. split; [done|done|done|..]; intros j; rewrite <- H; auto. Qed.

Lemma pairs_same keep s s' :
  fr_store s' = fr_store s -> fr_entries s' = fr_entries s -> pairs_ok keep s -> pairs_ok keep s'.
Proof. intros Es Ee [A B F C D]. split; [by rewrite Es|by rewrite Ee|by rewrite Ee| |done]. intros j. unfold pair_held. rewrite Es, Ee. apply C. Qed.

Lemma pair_held_bound keep s j : pairs_ok keep s -> pair_held s j <= 64.
Proof.
  intros W. unfold pair_held. change 64 with (Z.of_nat pair_count). rewrite <- (pa_len _ _ W).
  induction (fr_entries s) as [|x l IH]; cbn [sumZ length]; [lia|]. pose proof (held_opt_range (fe_packet x) j). lia.
Qed.

Lemma pairs_room keep s j : pairs_ok keep s -> ps_refs (fr_store s) j + 1 < ps_room.
Proof.
  intros W. rewrite (pa_refs _ _ W). pose proof (pair_held_bound _ _ j W). pose proof (pa_keep _ _ W j).
  unfold keep_room, ps_room in *. lia.
Qed.

Lemma pairs_entry keep s e : pairs_ok keep s -> (e < pair_count)%nat -> exists x, fr_entries s !! e = Some x.
Proof. intros W He. apply lookup_lt_is_Some. by rewrite (pa_len _ _ W). Qed.

Lemma pairs_next keep given s st e x y :
  pairs_ok keep s -> fr_entries s !! e = Some x -> ps_inv st -> pair_ok y ->
  (forall j, ps_refs st j - held_opt (fe_packet y) j = ps_refs (fr_store s) j - held_opt (fe_packet x) j + given j) ->
  (forall j, 0 <= keep j + given j < keep_room) -> pairs_ok (fun j => keep j + given j) (fnext s st e y).
Proof.
  intros W Hx Hw Hy Hd Hk. split; [exact Hw| | | |exact Hk].
  - cbn. rewrite length_insert. apply W.
  - cbn. intros e' z. rewrite lookup_insert_case by (by eapply lookup_lt_Some). case_decide; [by intros [= <-]|apply (pa_ok _ _ W)].
  - intros j. rewrite (pair_held_next _ _ _ x) by done. specialize (Hd j). pose proof (pa_refs _ _ W j). cbn. lia.
Qed.

Lemma pairs_next_same keep s st e x y :
  pairs_ok keep s -> fr_entries s !! e = Some x -> ps_inv st -> pair_ok y ->
  (forall j, ps_refs st j - held_opt (fe_packet y) j = ps_refs (fr_store s) j - held_opt (fe_packet x) j) ->
  pairs_ok keep (fnext s st e y).
Proof.
  intros W Hx Hw Hy Hd. eapply pairs_ext; [|apply (pairs_next keep (fun _ => 0) s st e x y); try done].
  - intros j. cbn. lia.
  - intros j. rewrite Hd. lia.
  - intros j. pose proof (pa_keep _ _ W j). lia.
Qed.

Lemma pair_zero_ok : pair_ok pair_zero.
Proof. done. Qed.

Lemma pair_drop_safe keep s e x d :
  pairs_ok keep s -> fr_entries s !! e = Some x ->
  exists d' s' y, _linkg_transport_forward_pair_entry_drop (Some e) d s = Some (d', s') /\ pairs_ok keep s' /\
    fr_entries s' !! e = Some y /\ fe_valid y = false.
Proof.
  intros W Hx. unfold _linkg_transport_forward_pair_entry_drop. mstep (pair_at_eq s e x Hx).
  destruct (fe_valid x) eqn:Hv; cbn [negb].
  2:{ exists d, s, x. done. }
  pose proof (pa_ok _ _ W e x Hx) as Ho. unfold pair_ok in Ho. rewrite Hv in Ho. destruct Ho as [i Hi].
  destruct (ps_release_ok (fr_store s) i (pa_inv _ _ W)) as (st&E&I&R&_).
  { rewrite (pa_refs _ _ W). pose proof (pair_held_le s e x i Hx) as Hh. rewrite Hi in Hh. cbn in Hh. rewrite one_ref_same in Hh.
    pose proof (pa_keep _ _ W i). lia. }
  eexists _, (fnext s st e pair_zero), pair_zero. split; [|split; [|split; [|done]]].
  - unfold _linkg_transport_forward_pair_entry_clear. mstep (pair_at_eq s e x Hx). rewrite Hi, bool_decide_false by done. cbn [negb when].
    mstep (store_op_eq (ps_release (Some i)) s tt st E). by mstep (pair_write_eq (fset_store st s) e x pair_zero Hx).
  - eapply pairs_next_same; [done|done|done|apply pair_zero_ok|]. intros j. rewrite R, Hi. cbn. lia.
  - apply list_lookup_insert_eq. by eapply lookup_lt_Some.
Qed.

Lemma drop_entries_safe keep test (es : list nat) : forall s d,
  pairs_ok keep s -> (forall e, e ∈ es -> (e < pair_count)%nat) ->
  exists d' s', drop_entries test es d s = Some (d', s') /\ pairs_ok keep s'.
Proof.
  induction es as [|e es IH]; intros s d W He; cbn [drop_entries]; [by exists d, s|].
  destruct (pairs_entry _ _ e W) as [x Hx]; [apply He; left|]. mstep (pair_at_eq s e x Hx).
  destruct (test x).
  - destruct (pair_drop_safe _ _ _ _ d W Hx) as (d1&s1&_&E&W1&_). mstep E. apply IH; [done|]. intros; apply He; by right.
  - mrun. apply IH; [done|]. intros; apply He; by right.
Qed.

Lemma pair_gc_safe keep now s d :
  pairs_ok keep s -> exists d' s', _linkg_transport_forward_pair_gc_locked now d s = Some (d', s') /\ pairs_ok keep s'.
Proof.
  intros W. unfold _linkg_transport_forward_pair_gc_locked. mrun. destruct (_ && _); [by exists d, s|].
  destruct (drop_entries_safe keep (fun x => _linkg_transport_forward_pair_expired x now) all_pairs s d W) as (d'&s1&E&W1).
  { intros e. apply all_pairs_spec. }
  mstep E. eexists _, _. split; [done|]. by apply (pairs_same keep s1).
Qed.

Lemma pair_create_safe keep s e x i c nd ep h fh len now :
  pairs_ok keep s -> fr_entries s !! e = Some x -> fe_valid x = false -> 0 < keep i ->
  exists s', _linkg_transport_forward_pair_create_locked (Some e) c nd ep (Some h) (Some fh) (Some i) len now s =
    Some (0, s') /\ pairs_ok keep s'.
Proof.
  intros W Hx Hv Hi. unfold _linkg_transport_forward_pair_create_locked.
  destruct (ps_retain_ok (fr_store s) i (pa_inv _ _ W)) as (st&E&I&R&_).
  { pose proof (pairs_room _ _ i W). rewrite (pa_refs _ _ W) in *. pose proof (pair_held_nonneg s i). lia. }
  mstep (store_op_eq (ps_retain (Some i)) s tt st E). set (y := pair_new _ _ _ _ _ _ _ _).
  mstep (pair_write_eq (fset_store st s) e x y Hx). eexists. split; [done|].
  change (fset_entries _ _) with (fnext s st e y). eapply pairs_next_same; [done|done|done|by eexists|].
  pose proof (pa_ok _ _ W e x Hx) as Ho. unfold pair_ok in Ho. rewrite Hv in Ho. intros j. rewrite R, Ho. cbn. lia.
Qed.

Lemma update_flags_safe keep s i f :
  pairs_ok keep s -> 0 < ps_refs (fr_store s) i ->
  exists st, update_flags (Some i) f s = Some (tt, fset_store st s) /\ ps_inv st /\
    (forall j, ps_refs st j = ps_refs (fr_store s) j) /\ pairs_ok keep (fset_store st s).
Proof.
  intros W Hr. destruct (ps_update_flags_ok (fr_store s) i f (pa_inv _ _ W) Hr) as (st&E&I&R&_).
  exists st. split; [by apply store_op_eq|]. split; [done|]. split; [done|]. destruct W as [A B F C D].
  split; try done. intros j. cbn. rewrite R. apply C.
Qed.

Lemma pair_complete_safe keep s e x i nd h fh len :
  pairs_ok keep s -> fr_entries s !! e = Some x -> fe_valid x = true -> 0 < keep i -> (forall j, keep j + 2 < keep_room) ->
  exists outputs s', _linkg_transport_forward_pair_complete_locked (Some e) nd (Some h) (Some fh) (Some i) len false s =
    Some ((0, Some outputs), s') /\ outputs_ok outputs /\ pairs_ok (fun j => keep j + outputs_refs outputs j) s'.
Proof.
  intros W Hx Hv Hi Hk. pose proof (pa_ok _ _ W e x Hx) as Ho. unfold pair_ok in Ho. rewrite Hv in Ho. destruct Ho as [f Hf].
  destruct (ps_retain_ok (fr_store s) i (pa_inv _ _ W)) as (st&E&I&R&_).
  { pose proof (pairs_room _ _ i W). rewrite (pa_refs _ _ W) in *. pose proof (pair_held_nonneg s i). lia. }
  assert (pairs_ok (fun j => keep j + one_ref i j) (fset_store st s)) as W1.
  { destruct W as [A B F C D]. split; try done; intros j.
    - cbn. rewrite R. unfold pair_held in *. cbn. specialize (C j). lia.
    - specialize (D j). specialize (Hk j). pose proof (one_ref_range i j). lia. }
  assert (0 < ps_refs st f) as Hrf.
  { rewrite R, (pa_refs _ _ W). pose proof (pair_held_le s e x f Hx) as Hh. rewrite Hf in Hh. cbn in Hh. rewrite one_ref_same in Hh.
    pose proof (pa_keep _ _ W f). pose proof (one_ref_range i f). lia. }
  assert (0 < ps_refs st i) as Hri.
  { rewrite R, one_ref_same, (pa_refs _ _ W). pose proof (pair_held_nonneg s i). lia. }
  unfold _linkg_transport_forward_pair_complete_locked. mstep (store_op_eq (ps_retain (Some i)) s tt st E).
  mstep (pair_at_eq (fset_store st s) e x Hx). rewrite Hf.
  assert (forall a b la lb, 0 < ps_refs st a -> 0 < ps_refs st b -> (forall j, one_ref a j + one_ref b j = one_ref i j + one_ref f j) ->
    exists outputs s', (update_flags (Some a) group_first ;; update_flags (Some b) group_last ;; pair_write e pair_zero ;;
      mret (0, Some [ForwardItem (Some a) la (th_destination_node_id h) nd; ForwardItem (Some b) lb (th_destination_node_id h) nd]))
      (fset_store st s) = Some ((0, Some outputs), s') /\ outputs_ok outputs /\ pairs_ok (fun j => keep j + outputs_refs outputs j) s') as Hab.
  { intros a b la lb Ha Hb Hs. destruct (update_flags_safe _ _ a group_first W1 Ha) as (st1&E1&_&R1&W2).
    destruct (update_flags_safe _ _ b group_last W2) as (st2&E2&_&R2&W3); [cbn; rewrite R1; exact Hb|].
    mstep E1. mstep E2.
    mstep (pair_write_eq (fset_store st2 (fset_store st1 (fset_store st s))) e x pair_zero Hx). eexists _, _. split; [done|]. split; [by split; [cbn; lia|repeat constructor]|].
    eapply pairs_ext; [|apply (pairs_next _ (fun j => one_ref f j) _ st2 e x pair_zero W3 Hx (pa_inv _ _ W3) pair_zero_ok)].
    - intros j. unfold outputs_refs. cbn. specialize (Hs j). lia.
    - intros j. cbn. rewrite Hf. cbn. lia.
    - intros j. specialize (Hk j). pose proof (pa_keep _ _ W j). pose proof (one_ref_range i j). pose proof (one_ref_range f j). lia. }
  destruct (_ =? 0); apply Hab; try done; intros j; lia.
Qed.

Definition pair_opt (o : option nat) : Prop := forall e, o = Some e -> (e < pair_count)%nat.

Lemma scan_pairs_safe keep set c nd ep h fh now (ways : list Z) : forall s free oldest d,
  pairs_ok keep s -> (forall w, w ∈ ways -> (pair_of set w < pair_count)%nat) -> pair_opt free -> pair_opt oldest ->
  exists entry free' oldest' d' s', scan_pairs set ways c nd ep h fh now free oldest d s = Some ((entry, free', oldest', d'), s') /\
    pairs_ok keep s' /\ (forall e, entry = Some e -> exists x, fr_entries s' !! e = Some x /\ fe_valid x = true) /\
    pair_opt free' /\ pair_opt oldest'.
Proof.
  induction ways as [|w ways IH]; intros s free oldest d W Hw Hf Ho; cbn [scan_pairs].
  { by exists None, free, oldest, d, s. }
  pose proof (Hw w ltac:(left)) as He. destruct (pairs_entry _ _ _ W He) as [x Hx]. mstep (pair_at_eq s _ x Hx).
  assert (exists d1 s1 y, (if _linkg_transport_forward_pair_expired x now
      then _linkg_transport_forward_pair_entry_drop (Some (pair_of set w)) d else mret d) s = Some (d1, s1) /\ pairs_ok keep s1 /\
      fr_entries s1 !! pair_of set w = Some y) as (d1&s1&y&E1&W1&Hy).
  { destruct (_linkg_transport_forward_pair_expired x now); [|by exists d, s, x].
    destruct (pair_drop_safe _ _ _ _ d W Hx) as (d1&s1&y&E&W'&Hy&_). by exists d1, s1, y. }
  mstep E1. mstep (pair_at_eq s1 _ y Hy).
  destruct (_linkg_transport_forward_pair_match _ _ _ _ _ _) eqn:Em.
  { exists (Some (pair_of set w)), free, oldest, d1, s1. split; [done|]. split; [done|]. split; [|done].
    intros ? [= <-]. exists y. split; [done|]. unfold _linkg_transport_forward_pair_match in Em. by destruct (fe_valid y). }
  destruct (fe_valid y); cbn [negb].
  - assert (exists b, (match oldest with None => mret true | Some o => y0 ← pair_at o; mret (fe_expires_at_us y <? fe_expires_at_us y0) end) s1
      = Some (b, s1)) as [b Eb].
    { destruct oldest as [o|]; [|by eexists]. destruct (pairs_entry _ _ _ W1 (Ho o eq_refl)) as [z Hz].
      mstep (pair_at_eq s1 _ z Hz). by eexists. }
    mstep Eb. apply IH; [done|intros; apply Hw; by right|done|]. destruct b; [by intros ? [= <-]|done].
  - apply IH; [done|intros; apply Hw; by right| |done]. destruct free; [done|by intros ? [= <-]].
Qed.

(** A step that hands out frames or not. *)
Definition pair_submitted {A} (keep : nat -> Z) (r : option (Z * option (list linkg_transport_forward_item) * A * runtime)) : Prop :=
  exists ret o a s', r = Some ((ret, o, a), s') /\ outputs_ok (default [] o) /\ pairs_ok (fun j => keep j + outputs_refs (default [] o) j) s'.

Lemma pairs_no_outputs keep (o : option (list linkg_transport_forward_item)) s :
  default [] o = [] -> pairs_ok keep s -> pairs_ok (fun j => keep j + outputs_refs (default [] o) j) s.
Proof. intros -> W. eapply pairs_ext; [|exact W]. intros j. unfold outputs_refs. cbn. lia. Qed.

Lemma pair_submit_locked_safe keep s i c nd ep h fh len now null d :
  pairs_ok keep s -> (forall j, i = Some j -> 0 < keep j) -> (forall j, keep j + 2 < keep_room) ->
  pair_submitted keep (_linkg_transport_forward_pair_submit_locked c nd ep h fh i len now null d s).
Proof.
  intros W Hi Hk.
  assert (forall ret o (d : drops) s1, default [] o = [] -> pairs_ok keep s1 -> pair_submitted keep (Some ((ret, o, d), s1))) as Hnone.
  { intros ret o d1 s1 Ho W1. exists ret, o, d1, s1. split; [done|]. split; [rewrite Ho; apply outputs_ok_nil|by apply pairs_no_outputs]. }
  unfold _linkg_transport_forward_pair_submit_locked.
  destruct h as [h|]; [|by apply Hnone]. destruct fh as [fh|]; [|by apply Hnone]. destruct i as [i|]; [|by apply Hnone].
  destruct null; [by apply Hnone|]. specialize (Hi i eq_refl).
  set (set := _linkg_transport_forward_pair_set _ _ _ _ _).
  assert (forall w, w ∈ [0; 1] -> (pair_of set w < pair_count)%nat) as Hset.
  { pose proof (pair_ways_in_range set (pair_set_range c nd ep h (fh_packet_id fh))) as (_&H0&H1). intros w Hw.
    apply elem_of_cons in Hw as [->|Hw]; [done|]. by apply list_elem_of_singleton in Hw as ->. }
  destruct (scan_pairs_safe keep set c nd ep h fh now [0; 1] s None None d W Hset) as (en&fr&old&d1&s1&E1&W1&Hen&Hfr&Hold); [done|done|].
  mstep E1. destruct en as [e|].
  - destruct (Hen e eq_refl) as (x&Hx&Hv). mstep (pair_at_eq s1 e x Hx).
    destruct (fe_packet_length x =? fh_packet_length fh); cbn [negb].
    2:{ destruct (pair_drop_safe _ _ _ _ d1 W1 Hx) as (d2&s2&_&E2&W2&_). mstep E2. by apply Hnone. }
    destruct (_ =? _); [by apply Hnone|].
    destruct (pair_complete_safe keep s1 e x i nd h fh len W1 Hx Hv Hi Hk) as (os&s2&E2&L2&W2). mstep E2.
    by exists 0, (Some os), d1, s2.
  - assert (forall n, (n < pair_count)%nat -> pair_submitted keep ((x ← pair_at n;
      dropped ← (if fe_valid x then _linkg_transport_forward_pair_entry_drop (Some n) d1 else mret d1);
      ret ← _linkg_transport_forward_pair_create_locked (Some n) c nd ep (Some h) (Some fh) (Some i) len now;
      mret (ret, Some [], dropped)) s1)) as Hn; [|destruct fr as [f|]; [by apply Hn, Hfr|]; destruct old as [o|]; [by apply Hn, Hold|by apply Hnone]].
    intros n Hn. destruct (pairs_entry _ _ _ W1 Hn) as [x Hx]. mstep (pair_at_eq s1 n x Hx).
    assert (exists d2 s2 y, (if fe_valid x then _linkg_transport_forward_pair_entry_drop (Some n) d1 else mret d1) s1 = Some (d2, s2) /\
      pairs_ok keep s2 /\ fr_entries s2 !! n = Some y /\ fe_valid y = false) as (d2&s2&y&E2&W2&Hy&Hv).
    { destruct (fe_valid x) eqn:Hv; [by apply (pair_drop_safe keep s1 n x d1)|by exists d1, s1, x]. }
    mstep E2. destruct (pair_create_safe keep s2 n y i c nd ep h fh len now W2 Hy Hv Hi) as (s3&E3&W3). mstep E3. by apply Hnone.
Qed.

(** A fragment of any packet the caller holds. *)
Lemma pair_submit_safe (mx : mutex_api) tinit ap epochs now peer ep c nd h fh i len null keep s :
  pairs_ok keep s -> (forall j, i = Some j -> 0 < keep j) -> (forall j, keep j + 2 < keep_room) ->
  exists ret o s', linkg_transport_forward_pair_submit mx tinit ap epochs now peer ep c nd h fh i len null s = Some ((ret, o), s') /\
    outputs_ok (default [] o) /\ pairs_ok (fun j => keep j + outputs_refs (default [] o) j) s'.
Proof.
  intros W Hi Hk.
  assert (forall (ret : Z) (o : option (list linkg_transport_forward_item)), default [] o = [] -> exists ret' o' s', Some ((ret, o), s) = Some ((ret', o'), s') /\
    outputs_ok (default [] o') /\ pairs_ok (fun j => keep j + outputs_refs (default [] o') j) s') as Hnone.
  { intros ret o Ho. exists ret, o, s. split; [done|]. split; [rewrite Ho; apply outputs_ok_nil|by apply pairs_no_outputs]. }
  unfold linkg_transport_forward_pair_submit. mrun. destruct (_ || _); [by apply Hnone|]. destruct (negb ap); [by apply Hnone|].
  destruct peer as [pr|]; [|by apply Hnone]. destruct h as [h|]; [|by apply Hnone]. destruct fh as [fh|]; [|by apply Hnone].
  destruct i as [i|]; [|by apply Hnone]. destruct (_ || _); [by apply Hnone|]. destruct (_ =? 0); [by apply Hnone|].
  destruct (mtx_lock mx =? 0); cbn [negb]; [|by apply Hnone]. destruct (linkg_transport_peer_epoch_matches _ _ _); cbn [negb]; [|by apply Hnone].
  destruct (pair_gc_safe keep now s (0, 0) W) as (d1&s1&E1&W1). mstep E1.
  destruct (pair_submit_locked_safe keep s1 (Some i) c nd ep (Some h) (Some fh) len now null d1 W1) as (ret&o&d2&s2&E2&L2&W2); [done|done|].
  mstep E2.
  assert (exists s3, _linkg_transport_forward_record_incomplete (fst d2) (snd d2) s2 = Some (tt, s3) /\
    fr_store s3 = fr_store s2 /\ fr_entries s3 = fr_entries s2) as (s3&E3&Es&Ee).
  { unfold _linkg_transport_forward_record_incomplete. destruct (_ && _); by eexists. }
  mstep E3. pose proof (pairs_same _ _ _ Es Ee W2) as W3. destruct (ret =? 0) eqn:Er; cbn [negb]; by eexists _, _, _.
Qed.

End Pairing.
