(* ===== verification/TransportReorder.v ===== *)
(** * In-order delivery: the decisions on one peer and class
      (core/transport/transport_reorder.c)

    Frames of user data that arrive out of order wait in a window of 64 slots
    per peer and traffic class, indexed by the low six bits of their sequence
    number. This file models the data and the functions that only look at the
    batch of input frames and at one class: grouping and sorting of a batch,
    rebasing, filtering, the ready prefix, and the three ways frames leave the
    window (contiguous run, pressure of a frame beyond the window, expiry).
    [TransportReorderRuntime] adds the packet references, the lock, the worker
    and the life cycle. *)

From stdpp Require Import sorting.
From S2P Require Import Prelude.
From S2P Require Import PacketPool.
From S2P Require Import TransportTypes.

(** ** Data *)

Definition LINKG_TRANSPORT_REORDER_SUBMIT_BATCH_MAX := 32.
Definition LINKG_TRANSPORT_REORDER_EMIT_BATCH_MAX := 32.
Definition LINKG_TRANSPORT_REORDER_WINDOW_SIZE := 64.
Definition LINKG_TRANSPORT_REORDER_WINDOW_MASK := 63.
Definition LINKG_TRANSPORT_REORDER_REALTIME_WAIT_US := 15000.
Definition LINKG_TRANSPORT_REORDER_VIDEO_WAIT_US := 60000.
Definition LINKG_TRANSPORT_REORDER_DATA_WAIT_US := 80000.

Record linkg_transport_reorder_frame := ReorderFrame {
  rf_packet : option pkt_ptr;
  rf_peer : option peer_ptr;
  rf_header : linkg_transport_header;
  rf_fragment_header : linkg_transport_fragment_header;
  rf_ingress_link_id : Z;
  rf_peer_epoch : Z;
  rf_traffic_class : Z;
  rf_peer_node_id : Z }.

Definition frame_zero : linkg_transport_reorder_frame :=
  ReorderFrame None None (Header 0 0 0 0 0 0 0 0) (FragmentHeader 0 0 0) 0 0 0 0.

Inductive linkg_transport_reorder_result :=
  | LINKG_TRANSPORT_REORDER_RESULT_UNPROCESSED
  | LINKG_TRANSPORT_REORDER_RESULT_READY
  | LINKG_TRANSPORT_REORDER_RESULT_CACHED
  | LINKG_TRANSPORT_REORDER_RESULT_EMITTED
  | LINKG_TRANSPORT_REORDER_RESULT_TOO_OLD
  | LINKG_TRANSPORT_REORDER_RESULT_STALE
  | LINKG_TRANSPORT_REORDER_RESULT_OUT_OF_WINDOW.

#[export] Instance reorder_result_eq_dec : EqDecision linkg_transport_reorder_result.
Proof. solve_decision. Defined.

Abbreviation UNPROCESSED := LINKG_TRANSPORT_REORDER_RESULT_UNPROCESSED.
Abbreviation READY := LINKG_TRANSPORT_REORDER_RESULT_READY.
Abbreviation CACHED := LINKG_TRANSPORT_REORDER_RESULT_CACHED.
Abbreviation EMITTED := LINKG_TRANSPORT_REORDER_RESULT_EMITTED.
Abbreviation TOO_OLD := LINKG_TRANSPORT_REORDER_RESULT_TOO_OLD.
Abbreviation STALE := LINKG_TRANSPORT_REORDER_RESULT_STALE.
Abbreviation OUT_OF_WINDOW := LINKG_TRANSPORT_REORDER_RESULT_OUT_OF_WINDOW.

Record linkg_transport_reorder_slot := ReorderSlot {
  rs_frame : linkg_transport_reorder_frame;
  rs_expires_at_us : Z }.

Definition slot_zero : linkg_transport_reorder_slot := ReorderSlot frame_zero 0.

Record linkg_transport_reorder_class := ReorderClass {
  rc_slots : list linkg_transport_reorder_slot;
  rc_delivery_thread : Z;
  rc_expected_sequence : Z;
  rc_slot_count : Z;
  rc_peer_epoch : Z;
  rc_peer_node_id : Z;
  rc_expected_initialized : bool;
  rc_delivery_in_progress : bool }.

Definition class_zero : linkg_transport_reorder_class :=
  ReorderClass (replicate (Z.to_nat LINKG_TRANSPORT_REORDER_WINDOW_SIZE) slot_zero) 0 0 0 0 0 false false.

(** The input frames of one peer and class, by their index in the batch. *)
Record linkg_transport_reorder_group := ReorderGroup {
  gr_indices : list nat;
  gr_peer_index : nat;
  gr_traffic_class : Z }.

(** ** Field updates and array accesses *)

Definition set_slots (sl : list linkg_transport_reorder_slot) (n : Z) (c : linkg_transport_reorder_class) :=
  ReorderClass sl (rc_delivery_thread c) (rc_expected_sequence c) n (rc_peer_epoch c) (rc_peer_node_id c)
    (rc_expected_initialized c) (rc_delivery_in_progress c).
Definition set_expected (q : Z) (c : linkg_transport_reorder_class) :=
  ReorderClass (rc_slots c) (rc_delivery_thread c) q (rc_slot_count c) (rc_peer_epoch c) (rc_peer_node_id c)
    (rc_expected_initialized c) (rc_delivery_in_progress c).
Definition set_baseline (q epoch node : Z) (c : linkg_transport_reorder_class) :=
  ReorderClass (rc_slots c) (rc_delivery_thread c) q (rc_slot_count c) epoch node true
    (rc_delivery_in_progress c).
Definition set_delivery (self : Z) (c : linkg_transport_reorder_class) :=
  ReorderClass (rc_slots c) self (rc_expected_sequence c) (rc_slot_count c) (rc_peer_epoch c)
    (rc_peer_node_id c) (rc_expected_initialized c) true.
Definition end_delivery (c : linkg_transport_reorder_class) :=
  ReorderClass (rc_slots c) (rc_delivery_thread c) (rc_expected_sequence c) (rc_slot_count c)
    (rc_peer_epoch c) (rc_peer_node_id c) (rc_expected_initialized c) false.

Definition slot_index (sequence : Z) : nat :=
  Z.to_nat (Z.land sequence LINKG_TRANSPORT_REORDER_WINDOW_MASK).

Definition class_slot (c : linkg_transport_reorder_class) (i : nat) : linkg_transport_reorder_slot :=
  default slot_zero (rc_slots c !! i).

Definition frame_at (frames : list linkg_transport_reorder_frame) (i : nat) : linkg_transport_reorder_frame :=
  default frame_zero (frames !! i).

Definition frame_sequence (f : linkg_transport_reorder_frame) : Z := th_sequence (rf_header f).

Definition sequence_at (frames : list linkg_transport_reorder_frame) (i : nat) : Z :=
  frame_sequence (frame_at frames i).

Definition result_at (results : list linkg_transport_reorder_result) (i : nat) : linkg_transport_reorder_result :=
  default UNPROCESSED (results !! i).

Definition occupied (sl : linkg_transport_reorder_slot) : bool :=
  negb (bool_decide (rf_packet (rs_frame sl) = None)).

(** ** Sequence numbers *)

Fixpoint find_peer (p : peer_ptr) (peers : list nat) : Z :=
  match peers with
  | [] => - EINVAL
  | i :: peers' => if bool_decide (p = i) then Z.of_nat i else find_peer p peers'
  end.

Definition _linkg_transport_reorder_peer_index (peer : option peer_ptr) : Z :=
  match peer with
  | None => - EINVAL
  | Some p => find_peer p (nat_upto LINKG_TRANSPORT_PEER_MAX)
  end.

Definition _linkg_transport_reorder_sequence_before (left right : Z) : bool :=
  i32_of_u32 (u32 (left - right)) <? 0.

Definition _linkg_transport_reorder_wait_us (traffic_class : Z) : Z :=
  if traffic_class =? LINKG_TRANSPORT_CLASS_REALTIME then LINKG_TRANSPORT_REORDER_REALTIME_WAIT_US
  else if traffic_class =? LINKG_TRANSPORT_CLASS_VIDEO then LINKG_TRANSPORT_REORDER_VIDEO_WAIT_US
  else LINKG_TRANSPORT_REORDER_DATA_WAIT_US.

(** ** Groups of a batch *)

Fixpoint group_insert (groups : list linkg_transport_reorder_group) (peer_index : nat)
    (traffic_class : Z) (index : nat) : list linkg_transport_reorder_group :=
  match groups with
  | [] => [ReorderGroup [index] peer_index traffic_class]
  | g :: groups' =>
      if bool_decide (gr_peer_index g = peer_index) && (gr_traffic_class g =? traffic_class)
      then ReorderGroup (gr_indices g ++ [index]) (gr_peer_index g) (gr_traffic_class g) :: groups'
      else g :: group_insert groups' peer_index traffic_class index
  end.

Definition _linkg_transport_reorder_build_groups (frames : list linkg_transport_reorder_frame)
    (count : nat) (peer_indices : list nat) : list linkg_transport_reorder_group :=
  foldl (fun groups index =>
           group_insert groups (default 0%nat (peer_indices !! index))
             (rf_traffic_class (frame_at frames index)) index)
    [] (seq 0 count).

(** [order[compare] <- frame_index] after shifting the larger elements right. *)
Fixpoint sort_shift (frames : list linkg_transport_reorder_frame) (frame_index compare : nat)
    (order : list nat) : list nat :=
  match compare with
  | O => <[0%nat := frame_index]> order
  | S compare' =>
      if _linkg_transport_reorder_sequence_before (sequence_at frames frame_index)
           (sequence_at frames (default 0%nat (order !! compare')))
      then sort_shift frames frame_index compare' (<[compare := default 0%nat (order !! compare')]> order)
      else <[compare := frame_index]> order
  end.

Definition sort_step (frames : list linkg_transport_reorder_frame) (order : list nat) (position : nat)
    : list nat :=
  sort_shift frames (default 0%nat (order !! position)) position order.

(** The first loop of the sort: is any element before its predecessor? *)
Definition sort_needed (frames : list linkg_transport_reorder_frame) (order : list nat) : bool :=
  existsb (fun position =>
             _linkg_transport_reorder_sequence_before
               (sequence_at frames (default 0%nat (order !! position)))
               (sequence_at frames (default 0%nat (order !! (position - 1)%nat))))
    (seq 1 (length order - 1)).

Definition _linkg_transport_reorder_sort_group (group : linkg_transport_reorder_group)
    (frames : list linkg_transport_reorder_frame) : list nat :=
  let order := gr_indices group in
  if negb (sort_needed frames order) then order
  else foldl (sort_step frames) order (seq 1 (length order - 1)).

(** ** Input decisions on one class *)

Definition unprocessed (results : list linkg_transport_reorder_result) (i : nat) : bool :=
  bool_decide (result_at results i = UNPROCESSED).

Definition in_window (c : linkg_transport_reorder_class) (sequence : Z) : bool :=
  negb (_linkg_transport_reorder_sequence_before sequence (rc_expected_sequence c)) &&
  (u32 (sequence - rc_expected_sequence c) <? LINKG_TRANSPORT_REORDER_WINDOW_SIZE).

Definition _linkg_transport_reorder_rebase_empty_locked (current : linkg_transport_reorder_class)
    (order : list nat) (frames : list linkg_transport_reorder_frame)
    (results : list linkg_transport_reorder_result) : linkg_transport_reorder_class :=
  if rc_delivery_in_progress current || negb (rc_slot_count current =? 0) then current
  else if existsb (fun index => unprocessed results index && in_window current (sequence_at frames index)) order
  then current
  else
    match List.find (fun index => unprocessed results index &&
            _linkg_transport_reorder_sequence_before (rc_expected_sequence current) (sequence_at frames index))
            order with
    | Some index => set_expected (sequence_at frames index) current
    | None => current
    end.

(** The verdict on the frame [index], [previous] being the part of [order]
    before it. *)
Definition filter_verdict (current : linkg_transport_reorder_class) (previous : list nat)
    (frames : list linkg_transport_reorder_frame) (results : list linkg_transport_reorder_result)
    (index : nat) : linkg_transport_reorder_result :=
  let sequence := sequence_at frames index in
  let slot := class_slot current (slot_index sequence) in
  if _linkg_transport_reorder_sequence_before sequence (rc_expected_sequence current) then TOO_OLD
  else if LINKG_TRANSPORT_REORDER_WINDOW_SIZE <=? u32 (sequence - rc_expected_sequence current)
  then OUT_OF_WINDOW
  else if occupied slot then
    if frame_sequence (rs_frame slot) =? sequence then TOO_OLD else OUT_OF_WINDOW
  else if existsb (fun p => negb (bool_decide (result_at results p = STALE)) &&
                            (sequence_at frames p =? sequence)) previous
  then TOO_OLD
  else UNPROCESSED.

Fixpoint filter_loop (current : linkg_transport_reorder_class) (previous order : list nat)
    (frames : list linkg_transport_reorder_frame) (results : list linkg_transport_reorder_result)
    : list linkg_transport_reorder_result :=
  match order with
  | [] => results
  | index :: order' =>
      let results' :=
        if unprocessed results index
        then <[index := filter_verdict current previous frames results index]> results
        else results in
      filter_loop current (previous ++ [index]) order' frames results'
  end.

Definition _linkg_transport_reorder_filter_group_locked (current : linkg_transport_reorder_class)
    (order : list nat) (frames : list linkg_transport_reorder_frame)
    (results : list linkg_transport_reorder_result) : list linkg_transport_reorder_result :=
  filter_loop current [] order frames results.

(** Returns [prefix_count] and [*input_in_order]. *)
Fixpoint prefix_loop (order : list nat) (frames : list linkg_transport_reorder_frame)
    (results : list linkg_transport_reorder_result) (expected_sequence : Z)
    (previous_index prefix_count : nat) (input_in_order : bool) : nat * bool :=
  match order with
  | [] => (prefix_count, input_in_order)
  | index :: order' =>
      if negb (unprocessed results index) then
        prefix_loop order' frames results expected_sequence previous_index prefix_count input_in_order
      else if negb (sequence_at frames index =? expected_sequence) then (prefix_count, input_in_order)
      else
        prefix_loop order' frames results (u32 (expected_sequence + 1)) index (S prefix_count)
          (input_in_order && negb ((0 <? prefix_count)%nat && (index <? previous_index)%nat))
  end.

Definition _linkg_transport_reorder_ready_prefix_locked (current : linkg_transport_reorder_class)
    (order : list nat) (frames : list linkg_transport_reorder_frame)
    (results : list linkg_transport_reorder_result) : nat * bool :=
  prefix_loop order frames results (rc_expected_sequence current) 0 0 true.

(** ** Frames leaving the window *)

(** [memset(slot)], [slot_count--], [expected_sequence++]. *)
Definition pop_slot (c : linkg_transport_reorder_class) (i : nat) : linkg_transport_reorder_class :=
  set_expected (u32 (rc_expected_sequence c + 1))
    (set_slots (<[i := slot_zero]> (rc_slots c)) (u32 (rc_slot_count c - 1)) c).

Definition head_cached (c : linkg_transport_reorder_class) : bool :=
  let slot := class_slot c (slot_index (rc_expected_sequence c)) in
  occupied slot && (frame_sequence (rs_frame slot) =? rc_expected_sequence c).

(** The first frame of the group that was cached with this sequence. *)
Fixpoint mark_emitted (indices : list nat) (frames : list linkg_transport_reorder_frame) (sequence : Z)
    (results : list linkg_transport_reorder_result) : list linkg_transport_reorder_result :=
  match indices with
  | [] => results
  | index :: indices' =>
      if bool_decide (result_at results index = CACHED) && (sequence_at frames index =? sequence)
      then <[index := EMITTED]> results
      else mark_emitted indices' frames sequence results
  end.

(** [emit_frames] with [emit_owned], of length [*emit_count]. *)
Abbreviation emission := (list (linkg_transport_reorder_frame * bool)).

Fixpoint take_loop (room : nat) (self : Z) (indices : list nat)
    (frames : list linkg_transport_reorder_frame) (current : linkg_transport_reorder_class)
    (results : list linkg_transport_reorder_result) (emit : emission)
    : linkg_transport_reorder_class * list linkg_transport_reorder_result * emission :=
  match room with
  | O => (current, results, emit)
  | S room' =>
      if negb (head_cached current) then (current, results, emit)
      else
        let sequence := rc_expected_sequence current in
        let i := slot_index sequence in
        take_loop room' self indices frames
          (set_delivery self (pop_slot current i))
          (mark_emitted indices frames sequence results)
          (emit ++ [(rs_frame (class_slot current i), true)])
  end.

Definition _linkg_transport_reorder_take_contiguous_locked (self : Z)
    (current : linkg_transport_reorder_class) (group : linkg_transport_reorder_group)
    (frames : list linkg_transport_reorder_frame) (results : list linkg_transport_reorder_result)
    (emit : emission) :=
  take_loop (Z.to_nat LINKG_TRANSPORT_REORDER_EMIT_BATCH_MAX - length emit) self (gr_indices group)
    frames current results emit.

(** The scan for the cached frame nearest to [expected_sequence]. *)
Definition nearest_step (current : linkg_transport_reorder_class) (acc : Z * option nat) (i : nat)
    : Z * option nat :=
  let slot := class_slot current i in
  if negb (occupied slot) then acc
  else
    let distance := u32 (frame_sequence (rs_frame slot) - rc_expected_sequence current) in
    if distance <? fst acc then (distance, Some i) else acc.

Definition nearest (current : linkg_transport_reorder_class) (target_sequence : Z) : option nat :=
  snd (foldl (nearest_step current) (u32 (target_sequence - rc_expected_sequence current), None)
         (nat_upto LINKG_TRANSPORT_REORDER_WINDOW_SIZE)).

Fixpoint pressure_take (room : nat) (current : linkg_transport_reorder_class) (target_sequence : Z)
    (output : list linkg_transport_reorder_frame)
    : linkg_transport_reorder_class * list linkg_transport_reorder_frame :=
  if negb (_linkg_transport_reorder_sequence_before (rc_expected_sequence current) target_sequence)
  then (current, output)
  else match room with
  | O => (current, output)
  | S room' =>
      match nearest current target_sequence with
      | None => (set_expected target_sequence current, output)
      | Some i =>
          let frame := rs_frame (class_slot current i) in
          pressure_take room' (pop_slot (set_expected (frame_sequence frame) current) i) target_sequence
            (output ++ [frame])
      end
  end.

(** The window has to slide so that [incoming_sequence] is its last slot. *)
Definition pressure_target (incoming_sequence : Z) : Z :=
  u32 (incoming_sequence - (LINKG_TRANSPORT_REORDER_WINDOW_SIZE - 1)).

Definition _linkg_transport_reorder_take_pressure_locked (self : Z)
    (current : linkg_transport_reorder_class) (incoming_sequence : Z) (capacity : nat)
    : linkg_transport_reorder_class * list linkg_transport_reorder_frame :=
  if rc_delivery_in_progress current || (capacity =? 0)%nat then (current, [])
  else
    let '(current', output) := pressure_take capacity current (pressure_target incoming_sequence) [] in
    (if (0 <? length output)%nat then set_delivery self current' else current', output).

(** ** Expiry *)

(** [earliest_deadline] and, once a slot has expired, the farthest expired
    distance. *)
Definition expiry_step (current : linkg_transport_reorder_class) (now_us : Z) (acc : Z * option Z) (i : nat)
    : Z * option Z :=
  let slot := class_slot current i in
  if negb (occupied slot) then acc
  else
    let distance := u32 (frame_sequence (rs_frame slot) - rc_expected_sequence current) in
    if LINKG_TRANSPORT_REORDER_WINDOW_SIZE <=? distance then acc
    else
      let '(earliest, farthest) := acc in
      (if (earliest =? 0) || (rs_expires_at_us slot <? earliest) then rs_expires_at_us slot else earliest,
       if (rs_expires_at_us slot <=? now_us) &&
          (match farthest with None => true | Some d => d <? distance end)
       then Some distance else farthest).

Definition expiry_scan (current : linkg_transport_reorder_class) (now_us : Z) : Z * option Z :=
  foldl (expiry_step current now_us) (0, None) (nat_upto LINKG_TRANSPORT_REORDER_WINDOW_SIZE).

(** The loop over [distance]; [farthest] is [None] when nothing has expired. *)
Fixpoint worker_take (distances : list nat) (farthest : option Z) (capacity : nat)
    (current : linkg_transport_reorder_class) (output : list linkg_transport_reorder_frame)
    : linkg_transport_reorder_class * list linkg_transport_reorder_frame :=
  match distances with
  | [] => (current, output)
  | distance :: distances' =>
      if negb (length output <? capacity)%nat then (current, output)
      else if negb (head_cached current) then
        if match farthest with None => true | Some d => d <? Z.of_nat distance end
        then (current, output)
        else worker_take distances' farthest capacity
               (set_expected (u32 (rc_expected_sequence current + 1)) current) output
      else
        let i := slot_index (rc_expected_sequence current) in
        worker_take distances' farthest capacity (pop_slot current i)
          (output ++ [rs_frame (class_slot current i)])
  end.

(** Returns the class, the output and the updated [*deadline_us]. *)
Definition _linkg_transport_reorder_take_worker_class_locked (self : Z)
    (current : linkg_transport_reorder_class) (capacity : nat) (now_us deadline_us : Z)
    : linkg_transport_reorder_class * list linkg_transport_reorder_frame * Z :=
  if negb (rc_expected_initialized current) || rc_delivery_in_progress current ||
     (rc_slot_count current =? 0) || (capacity =? 0)%nat
  then (current, [], deadline_us)
  else
    let '(earliest, farthest) := expiry_scan current now_us in
    let deadline := if negb (earliest =? 0) && ((deadline_us =? 0) || (earliest <? deadline_us))
                    then earliest else deadline_us in
    let '(current', output) :=
      worker_take (nat_upto LINKG_TRANSPORT_REORDER_WINDOW_SIZE) farthest capacity current [] in
    (if (0 <? length output)%nat then set_delivery self current' else current', output, deadline).

(** ** Sequence numbers as unbounded integers

    A class whose next expected frame is number [N] stores [u32 N]. *)

Lemma before_spec a b :
  - 2 ^ 31 <= a - b < 2 ^ 31 ->
  _linkg_transport_reorder_sequence_before (u32 a) (u32 b) = (a <? b).
Proof.
  intros H. unfold _linkg_transport_reorder_sequence_before. rewrite i32_distance by done.
  apply Bool.eq_iff_eq_true. rewrite !Z.ltb_lt. lia.
Qed.

Lemma distance_spec a b : 0 <= a - b < 2 ^ 32 -> u32 (u32 a - u32 b) = a - b.
Proof. intros H. rewrite wrap_sub_idemp. by apply wrap_small. Qed.

Lemma u32_idem x : u32 (u32 x) = u32 x.
Proof. apply wrap_small, wrap_range. lia. Qed.

Lemma u32_succ N : u32 (u32 N + 1) = u32 (N + 1).
Proof. apply wrap_add_l. Qed.

Lemma slot_index_spec k : slot_index (u32 k) = Z.to_nat (k mod 64).
Proof.
  unfold slot_index. f_equal. change LINKG_TRANSPORT_REORDER_WINDOW_MASK with (Z.ones 6).
  rewrite Z.land_ones by lia. unfold wrap. change (2 ^ 32) with (2 ^ 6 * 2 ^ 26).
  rewrite Z.rem_mul_r by lia. rewrite Z.mul_comm, Z.mod_add by lia. by rewrite Z.mod_mod.
Qed.

Lemma slot_index_lt k : (slot_index (u32 k) < 64)%nat.
Proof. rewrite slot_index_spec. pose proof (Z.mod_pos_bound k 64). lia. Qed.

(** Slots of the same window have different indices. *)
Lemma slot_index_inj N j k :
  N <= j < N + 64 -> N <= k < N + 64 -> slot_index (u32 j) = slot_index (u32 k) -> j = k.
Proof. rewrite !slot_index_spec. intros. Z.div_mod_to_equations. lia. Qed.

(** Every index is the one of a number of the window. *)
Lemma slot_index_surj N i : (i < 64)%nat -> exists k, N <= k < N + 64 /\ slot_index (u32 k) = i.
Proof.
  intros Hi. exists (N + (Z.of_nat i - N) mod 64). pose proof (Z.mod_pos_bound (Z.of_nat i - N) 64).
  split; [lia|]. rewrite slot_index_spec, Zplus_mod_idemp_r.
  replace (N + (Z.of_nat i - N)) with (Z.of_nat i) by lia. rewrite Z.mod_small by lia. lia.
Qed.

(** ** The invariant of a window and its abstract view *)

Definition slot_weight (sl : linkg_transport_reorder_slot) : Z := if occupied sl then 1 else 0.

(** The window of [c] starts at number [N]. *)
Record class_at (c : linkg_transport_reorder_class) (N : Z) : Prop := {
  ca_len : length (rc_slots c) = 64%nat;
  ca_expected : rc_expected_sequence c = u32 N;
  ca_count : rc_slot_count c = sumZ slot_weight (rc_slots c);
  ca_slot : forall i, occupied (class_slot c i) = true ->
    exists k, N <= k < N + 64 /\ i = slot_index (u32 k) /\ frame_sequence (rs_frame (class_slot c i)) = u32 k }.

(** The buffered frames by number: the contents of the window. *)
Definition buffered (c : linkg_transport_reorder_class) (N k : Z) : option linkg_transport_reorder_slot :=
  let sl := class_slot c (slot_index (u32 k)) in
  if (N <=? k) && (k <? N + 64) && occupied sl then Some sl else None.

(** The frames with a number in [a, a + n), in increasing order. *)
Definition buffered_run (c : linkg_transport_reorder_class) (N a n : Z) : list linkg_transport_reorder_frame :=
  omap (fun k => rs_frame <$> buffered c N k) (seqZ a n).

Lemma class_empty_at c N :
  rc_slots c = rc_slots class_zero -> rc_slot_count c = 0 -> rc_expected_sequence c = u32 N -> class_at c N.
Proof.
  intros Es Ec Eq. split; [by rewrite Es|done|by rewrite Es, Ec|]. intros i. unfold class_slot. rewrite Es.
  destruct (rc_slots class_zero !! i) as [sl|] eqn:H; [|done].
  apply lookup_replicate in H as [-> _]. done.
Qed.

Lemma class_slot_out c N i : class_at c N -> (64 <= i)%nat -> class_slot c i = slot_zero.
Proof. intros W Hi. unfold class_slot. rewrite lookup_ge_None_2; [done|]. by rewrite (ca_len _ _ W). Qed.

Lemma weight_range l : 0 <= sumZ slot_weight l <= Z.of_nat (length l).
Proof.
  induction l as [|x l IH]; cbn [sumZ length]; [lia|]. unfold slot_weight at 1 3. destruct (occupied x); lia.
Qed.

Lemma count_range c N : class_at c N -> 0 <= rc_slot_count c <= 64.
Proof. intros W. rewrite (ca_count _ _ W). pose proof (weight_range (rc_slots c)). rewrite (ca_len _ _ W) in *. lia. Qed.

Lemma buffered_Some c N k sl :
  class_at c N ->
  buffered c N k = Some sl <->
  N <= k < N + 64 /\ class_slot c (slot_index (u32 k)) = sl /\ occupied sl = true.
Proof.
  intros W. unfold buffered. case_match eqn:E.
  - zb. split; [intros [= <-]; auto|]. by intros (_&<-&_).
  - split; [done|]. intros (Hk&<-&Ho). rewrite Ho in E. revert E. bsimp. done.
Qed.

Lemma buffered_sequence c N k sl :
  class_at c N -> buffered c N k = Some sl -> frame_sequence (rs_frame sl) = u32 k.
Proof.
  intros W (Hk&<-&Ho)%buffered_Some; [|done]. destruct (ca_slot _ _ W _ Ho) as (k'&Hk'&E&->).
  f_equal. symmetry. by apply (slot_index_inj N).
Qed.

Lemma occupied_buffered c N i :
  class_at c N -> occupied (class_slot c i) = true ->
  exists k, slot_index (u32 k) = i /\ N <= k < N + 64 /\ buffered c N k = Some (class_slot c i) /\
    u32 (frame_sequence (rs_frame (class_slot c i)) - rc_expected_sequence c) = k - N.
Proof.
  intros W Ho. destruct (ca_slot _ _ W _ Ho) as (k&Hk&->&E). exists k. splits; [done|lia|lia| |].
  - by apply buffered_Some.
  - rewrite E, (ca_expected _ _ W). apply distance_spec. lia.
Qed.

Lemma buffered_out c N k : ~ N <= k < N + 64 -> buffered c N k = None.
Proof. intros H. unfold buffered. case_match eqn:E; [|done]. zb. lia. Qed.

Lemma buffered_occupied c N k :
  N <= k < N + 64 -> occupied (class_slot c (slot_index (u32 k))) = bool_decide (is_Some (buffered c N k)).
Proof.
  intros Hk. unfold buffered. bsimp. destruct (occupied _); [by rewrite bool_decide_true by eauto|].
  rewrite bool_decide_false; [done|]. by intros [? ?].
Qed.

(** The slot at the window's left edge. *)
Lemma head_cached_spec c N :
  class_at c N -> head_cached c = bool_decide (is_Some (buffered c N N)).
Proof.
  intros W. unfold head_cached. rewrite (ca_expected _ _ W).
  rewrite (buffered_occupied c N N) by lia. destruct (buffered c N N) as [sl|] eqn:E.
  - rewrite bool_decide_true by eauto. apply buffered_Some in E as E'; [|done]. destruct E' as (_&->&_).
    rewrite (buffered_sequence c N N) by done. by rewrite Z.eqb_refl.
  - rewrite bool_decide_false; [done|]. by intros [? ?].
Qed.

Lemma count_zero c N : class_at c N -> rc_slot_count c = 0 -> forall k, buffered c N k = None.
Proof.
  intros W H k. destruct (buffered c N k) as [sl|] eqn:E; [|done].
  apply buffered_Some in E as (Hk&<-&Ho); [|done]. rewrite (ca_count _ _ W) in H.
  assert (rc_slots c !! slot_index (u32 k) = Some (class_slot c (slot_index (u32 k)))) as Hl.
  { unfold class_slot in *. destruct (rc_slots c !! _); [done|]. cbn in Ho. done. }
  pose proof (sumZ_lookup_le slot_weight (rc_slots c) _ _ ltac:(intros; unfold slot_weight; by case_match) Hl) as Hw.
  unfold slot_weight at 1 in Hw. rewrite Ho in Hw. lia.
Qed.

(** ** Changes of the window *)

Lemma class_slot_insert c N i x n j :
  class_at c N -> (i < 64)%nat ->
  class_slot (set_slots (<[i := x]> (rc_slots c)) n c) j = if decide (i = j) then x else class_slot c j.
Proof.
  intros W Hi. unfold class_slot. cbn. rewrite lookup_insert_case by by rewrite (ca_len _ _ W).
  by case_decide.
Qed.

(** Moving the left edge over numbers that are not buffered. *)
Lemma skip_spec c N M :
  class_at c N -> N <= M -> (forall k, N <= k < M -> buffered c N k = None) ->
  class_at (set_expected (u32 M) c) M /\ forall k, buffered (set_expected (u32 M) c) M k = buffered c N k.
Proof.
  intros W HM Hn.
  assert (forall i, occupied (class_slot c i) = true ->
    exists k, (N <= k < N + 64) /\ (M <= k < M + 64) /\ i = slot_index (u32 k) /\
      frame_sequence (rs_frame (class_slot c i)) = u32 k) as Hs.
  { intros i Ho. destruct (ca_slot _ _ W i Ho) as (k&Hk&->&E). exists k.
    destruct (decide (M <= k)); [by splits; try lia|]. pose proof (Hn k ltac:(lia)) as Hb.
    rewrite (proj2 (buffered_Some c N k (class_slot c (slot_index (u32 k))) W)) in Hb by eauto. done. }
  split.
  - split; [apply W|done|apply W|]. intros i Ho. destruct (Hs i Ho) as (k&_&H). by exists k.
  - intros k. unfold buffered. change (class_slot (set_expected _ c)) with (class_slot c).
    destruct (occupied (class_slot c (slot_index (u32 k)))) eqn:Ho; [|by rewrite !andb_false_r].
    destruct (Hs _ Ho) as (k1&H1&H2&E1&_). rewrite !andb_true_r.
    destruct (decide (k = k1)) as [->|Hne]; [by bsimp|].
    assert (~ (N <= k < N + 64)) by (intros H; apply Hne; by apply (slot_index_inj N)).
    assert (~ (M <= k < M + 64)) by (intros H'; apply Hne; by apply (slot_index_inj M)).
    destruct ((N <=? k) && (k <? N + 64)) eqn:A, ((M <=? k) && (k <? M + 64)) eqn:B; zb; done || lia.
Qed.

(** Taking the frame at the left edge. *)
Lemma pop_head_spec c N sl :
  class_at c N -> buffered c N N = Some sl ->
  class_at (pop_slot c (slot_index (u32 N))) (N + 1) /\
  forall k, buffered (pop_slot c (slot_index (u32 N))) (N + 1) k = if k =? N then None else buffered c N k.
Proof.
  intros W Hb. pose proof (slot_index_lt N) as Hlt.
  pose proof (proj1 (buffered_Some c N N sl W) Hb) as (_&Hs&Ho).
  set (i := slot_index (u32 N)) in *.
  set (c1 := set_slots (<[i := slot_zero]> (rc_slots c)) (u32 (rc_slot_count c - 1)) c).
  assert (rc_slots c !! i = Some sl) as Hl.
  { unfold class_slot in Hs. destruct (rc_slots c !! i) as [x|]; cbn in Hs; [by subst|]. by subst sl. }
  pose proof (count_range c N W) as Hc.
  assert (0 < rc_slot_count c) as Hp.
  { pose proof (sumZ_lookup_le slot_weight (rc_slots c) i sl ltac:(intros; unfold slot_weight; by case_match) Hl) as Hw.
    unfold slot_weight at 1 in Hw. rewrite Ho in Hw. rewrite (ca_count _ _ W). lia. }
  assert (class_at c1 N) as W1.
  { split.
    - cbn. rewrite length_insert. apply W.
    - apply W.
    - cbn. rewrite (sumZ_insert _ _ _ _ sl) by done. rewrite <- (ca_count _ _ W).
      unfold slot_weight. rewrite Ho. cbn. rewrite (wrap_small 32 (rc_slot_count c - 1)) by mlia. lia.
    - intros j. unfold c1. rewrite (class_slot_insert c N) by done. case_decide; [done|]. apply W. }
  assert (forall k, buffered c1 N k = if k =? N then None else buffered c N k) as B1.
  { intros k. unfold buffered, c1. rewrite (class_slot_insert c N) by done.
    destruct (Z.eqb_spec k N) as [->|Hne].
    - rewrite decide_True by done. cbn. by rewrite andb_false_r.
    - destruct ((N <=? k) && (k <? N + 64)) eqn:E; [|done]. zb.
      rewrite decide_False; [done|]. intros H'. apply Hne. symmetry. apply (slot_index_inj N); [lia..|done]. }
  destruct (skip_spec c1 N (N + 1) W1 ltac:(lia)) as [W2 B2].
  { intros k Hk. rewrite B1. by replace k with N by lia; rewrite Z.eqb_refl. }
  assert (pop_slot c i = set_expected (u32 (N + 1)) c1) as ->.
  { unfold pop_slot. by rewrite (ca_expected _ _ W), u32_succ. }
  split; [done|]. intros k. by rewrite B2, B1.
Qed.

(** Caching a new frame. *)
Lemma put_spec c N k sl :
  class_at c N -> N <= k < N + 64 -> buffered c N k = None -> occupied sl = true ->
  frame_sequence (rs_frame sl) = u32 k ->
  let c' := set_slots (<[slot_index (u32 k) := sl]> (rc_slots c)) (u32 (rc_slot_count c + 1)) c in
  class_at c' N /\ forall j, buffered c' N j = if j =? k then Some sl else buffered c N j.
Proof.
  intros W Hk Hb Ho Hf. cbn zeta. pose proof (slot_index_lt k) as Hlt.
  pose proof (buffered_occupied c N k Hk) as Hs. rewrite Hb, bool_decide_false in Hs by by intros [? ?].
  set (i := slot_index (u32 k)) in *.
  destruct (lookup_lt_is_Some_2 (rc_slots c) i) as [x Hx]; [by rewrite (ca_len _ _ W)|].
  assert (occupied x = false) as Hxo. { unfold class_slot in Hs. by rewrite Hx in Hs. }
  pose proof (count_range c N W) as Hc. split.
  - split.
    + cbn. rewrite length_insert. apply W.
    + apply W.
    + cbn. rewrite (sumZ_insert _ _ _ _ x) by done. rewrite <- (ca_count _ _ W).
      unfold slot_weight. rewrite Ho, Hxo. rewrite (wrap_small 32 (rc_slot_count c + 1)) by mlia. lia.
    + intros j. rewrite (class_slot_insert c N) by done. case_decide as E; [|apply W].
      intros _. by exists k.
  - intros j. unfold buffered. rewrite (class_slot_insert c N) by done.
    destruct (Z.eqb_spec j k) as [->|Hne].
    + rewrite decide_True by done. bsimp. by rewrite Ho.
    + destruct ((N <=? j) && (j <? N + 64)) eqn:E; [|done]. zb.
      rewrite decide_False; [done|]. intros H'. apply Hne. symmetry. apply (slot_index_inj N); [lia..|done].
Qed.

(** ** Runs *)

Lemma run_split c N a m n :
  0 <= m -> 0 <= n -> buffered_run c N a (m + n) = buffered_run c N a m ++ buffered_run c N (a + m) n.
Proof. intros. unfold buffered_run. by rewrite seqZ_app, omap_app. Qed.

Lemma run_one c N a sl : buffered c N a = Some sl -> buffered_run c N a 1 = [rs_frame sl].
Proof. intros H. unfold buffered_run. change (seqZ a 1) with [a]. cbn [omap list_omap]. by rewrite H. Qed.

Lemma run_empty c N a n : (forall k, a <= k < a + n -> buffered c N k = None) -> buffered_run c N a n = [].
Proof.
  intros H. unfold buffered_run.
  assert (forall k, k ∈ seqZ a n -> buffered c N k = None) as H'.
  { intros k Hk%elem_of_seqZ. by apply H. }
  clear H. induction (seqZ a n) as [|k l IH]; [done|]. cbn [omap list_omap]. rewrite H' by left. apply IH. intros; apply H'. by right.
Qed.

Lemma run_ext c N c' N' a n :
  (forall k, a <= k < a + n -> buffered c N k = buffered c' N' k) -> buffered_run c N a n = buffered_run c' N' a n.
Proof.
  intros H. unfold buffered_run.
  assert (forall k, k ∈ seqZ a n -> buffered c N k = buffered c' N' k) as H'.
  { intros k Hk%elem_of_seqZ. by apply H. }
  clear H. induction (seqZ a n) as [|k l IH]; [done|]. cbn [omap list_omap]. rewrite H' by left.
  case_match; [f_equal|]; apply IH; intros; apply H'; by right.
Qed.

(** [advanced c N c' N']: the left edge moved from [N] to [N'] and the frames
    below [N'] left the window; nothing else changed but the delivery mark. *)
Record advanced (c : linkg_transport_reorder_class) (N : Z) (c' : linkg_transport_reorder_class) (N' : Z)
    : Prop := {
  ad_at : class_at c' N';
  ad_le : N <= N';
  ad_buffered : forall k, buffered c' N' k = if k <? N' then None else buffered c N k;
  ad_epoch : rc_peer_epoch c' = rc_peer_epoch c;
  ad_node : rc_peer_node_id c' = rc_peer_node_id c;
  ad_init : rc_expected_initialized c' = rc_expected_initialized c }.

Lemma advanced_refl c N : class_at c N -> advanced c N c N.
Proof.
  intros W. split; try done. intros k. destruct (Z.ltb_spec k N); [|done]. apply buffered_out. lia.
Qed.

Lemma advanced_trans c1 N1 c2 N2 c3 N3 :
  advanced c1 N1 c2 N2 -> advanced c2 N2 c3 N3 -> advanced c1 N1 c3 N3.
Proof.
  intros [A1 A2 A3 A4 A5 A6] [B1 B2 B3 B4 B5 B6]. split; try congruence; [lia|].
  intros k. rewrite B3. destruct (Z.ltb_spec k N3); [done|]. rewrite A3. by bsimp.
Qed.

Lemma skip_advanced c N M :
  class_at c N -> N <= M -> (forall k, N <= k < M -> buffered c N k = None) ->
  advanced c N (set_expected (u32 M) c) M.
Proof.
  intros W HM Hn. destruct (skip_spec c N M W HM Hn) as [W' B]. split; try done.
  intros k. rewrite B. destruct (Z.ltb_spec k M); [|done].
  destruct (decide (N <= k)); [apply Hn; lia|apply buffered_out; lia].
Qed.

Lemma pop_advanced c N sl :
  class_at c N -> buffered c N N = Some sl -> advanced c N (pop_slot c (slot_index (u32 N))) (N + 1).
Proof.
  intros W Hb. destruct (pop_head_spec c N sl W Hb) as [W' B]. split; try done; [lia|].
  intros k. rewrite B. destruct (Z.eqb_spec k N) as [->|Hne].
  - destruct (Z.ltb_spec N (N + 1)); [done|lia].
  - destruct (Z.ltb_spec k (N + 1)); [|done]. apply buffered_out. lia.
Qed.

Lemma set_delivery_advanced self c N c' N' : advanced c N c' N' -> advanced c N (set_delivery self c') N'.
Proof. intros [[] ? ? ? ? ?]. by split. Qed.

(** The frames output while the window advances are the buffered run. *)
Lemma run_advanced c N c' M n :
  advanced c N c' M -> 0 <= n -> buffered_run c' M M n = buffered_run c N M n.
Proof.
  intros A Hn. apply run_ext. intros k Hk. rewrite (ad_buffered _ _ _ _ A). by bsimp.
Qed.

Lemma run_join c N c' M N' :
  advanced c N c' M -> M <= N' ->
  buffered_run c N N (M - N) ++ buffered_run c' M M (N' - M) = buffered_run c N N (N' - N).
Proof.
  intros A H. pose proof (ad_le _ _ _ _ A). rewrite (run_advanced c N c' M (N' - M) A) by lia.
  replace (N' - N) with ((M - N) + (N' - M)) by lia. rewrite run_split by lia. do 2 f_equal. lia.
Qed.

Lemma run_pop c N sl N' :
  class_at c N -> buffered c N N = Some sl -> N < N' ->
  rs_frame sl :: buffered_run (pop_slot c (slot_index (u32 N))) (N + 1) (N + 1) (N' - (N + 1)) =
  buffered_run c N N (N' - N).
Proof.
  intros W Hb H. rewrite <- (run_join c N _ (N + 1) N' (pop_advanced c N sl W Hb)) by lia.
  replace (N + 1 - N) with 1 by lia. by rewrite (run_one c N N sl).
Qed.

Lemma run_length c N a n : 0 <= n -> Z.of_nat (length (buffered_run c N a n)) <= n.
Proof.
  intros Hn. unfold buffered_run. assert (length (seqZ a n) = Z.to_nat n) as E by apply length_seqZ.
  enough (length (omap (fun k => rs_frame <$> buffered c N k) (seqZ a n)) <= length (seqZ a n))%nat by lia.
  clear E. induction (seqZ a n) as [|k l IH]; [done|]. cbn [omap list_omap]. case_match; cbn [length]; lia.
Qed.

(** ** The contiguous run *)

Definition mark_run (indices : list nat) (frames : list linkg_transport_reorder_frame) (N : Z) (n : nat)
    (results : list linkg_transport_reorder_result) : list linkg_transport_reorder_result :=
  foldl (fun rs k => mark_emitted indices frames (u32 k) rs) results (seqZ N (Z.of_nat n)).

(** [take_loop] takes the frames [N], [N+1], ... as long as they are buffered
    and there is room. *)
Lemma take_loop_spec room self indices frames c N results emit :
  class_at c N ->
  exists c' N',
    take_loop room self indices frames c results emit =
      (c', mark_run indices frames N (Z.to_nat (N' - N)) results,
       emit ++ ((fun f => (f, true)) <$> buffered_run c N N (N' - N))) /\
    advanced c N c' N' /\ N' - N <= Z.of_nat room /\
    (forall k, N <= k < N' -> is_Some (buffered c N k)) /\
    (N' - N < Z.of_nat room -> buffered c N N' = None) /\
    rc_delivery_in_progress c' = (rc_delivery_in_progress c || (N <? N')) /\
    (N < N' -> rc_delivery_thread c' = self) /\ (N' = N -> c' = c).
Proof.
  revert c N results emit. induction room as [|room IH]; intros c N results emit W.
  - exists c, N. rewrite Z.sub_diag. cbn. rewrite app_nil_r, Z.ltb_irrefl, orb_false_r.
    splits; try done; try lia. by apply advanced_refl.
  - cbn [take_loop]. rewrite (head_cached_spec c N W). destruct (buffered c N N) as [sl|] eqn:Hb.
    + rewrite bool_decide_true by eauto. cbn [negb]. rewrite (ca_expected _ _ W).
      pose proof (set_delivery_advanced self _ _ _ _ (pop_advanced c N sl W Hb)) as A1.
      set (c1 := set_delivery self _) in *.
      destruct (IH c1 (N + 1) (mark_emitted indices frames (u32 N) results)
        (emit ++ [(rs_frame (class_slot c (slot_index (u32 N))), true)]) (ad_at _ _ _ _ A1))
        as (c'&N'&E&A&L&Hs&Hf&Hd&Ht&Hz).
      pose proof (ad_le _ _ _ _ A) as Hle.
      assert (class_slot c (slot_index (u32 N)) = sl) as Esl by by apply (buffered_Some c N N sl W) in Hb as (_&?&_).
      exists c', N'. rewrite E. splits.
      * f_equal; [f_equal|].
        -- unfold mark_run. replace (Z.of_nat (Z.to_nat (N' - N))) with (Z.succ (N' - (N + 1))) by lia.
           rewrite (seqZ_cons N), Z.pred_succ by lia. cbn [foldl]. by rewrite Z2Nat.id, Z.add_1_r by lia.
        -- rewrite <- (run_pop c N sl) by (done || lia). rewrite Esl, <- app_assoc. done.
      * by eapply advanced_trans.
      * lia.
      * intros k Hk. destruct (Z.eq_dec k N) as [->|Hne]; [eauto|].
        specialize (Hs k ltac:(lia)). rewrite (ad_buffered _ _ _ _ A1) in Hs. revert Hs. by bsimp.
      * intros Hr. specialize (Hf ltac:(lia)). rewrite (ad_buffered _ _ _ _ A1) in Hf. revert Hf. by bsimp.
      * rewrite Hd. cbn. by bsimp; rewrite orb_true_r.
      * intros _. destruct (decide (N' = N + 1)) as [->|]; [by rewrite Hz|apply Ht; lia].
      * lia.
    + rewrite bool_decide_false by by intros [? ?]. cbn [negb]. exists c, N. rewrite Z.sub_diag. cbn.
      rewrite app_nil_r, Z.ltb_irrefl, orb_false_r. splits; try done; try lia. by apply advanced_refl.
Qed.

(** ** Pressure *)

(** What the scan knows after looking at the slots of [l], for a scan started
    with the distance [D]. *)
Definition nearest_inv (c : linkg_transport_reorder_class) (D : Z) (l : list nat) (acc : Z * option nat) : Prop :=
  let distance i := u32 (frame_sequence (rs_frame (class_slot c i)) - rc_expected_sequence c) in
  fst acc <= D /\
  (forall j, j ∈ l -> occupied (class_slot c j) = true -> fst acc <= distance j) /\
  match snd acc with
  | None => fst acc = D
  | Some i => occupied (class_slot c i) = true /\ fst acc = distance i /\ distance i < D
  end.

Lemma nearest_fold c D l acc :
  nearest_inv c D [] acc -> nearest_inv c D l (foldl (nearest_step c) acc l).
Proof.
  intros H0. induction l as [|i l IH] using rev_ind; [done|]. rewrite foldl_snoc.
  set (a := foldl (nearest_step c) acc l) in *. destruct IH as (A1&A2&A3).
  unfold nearest_inv, nearest_step.
  destruct (occupied (class_slot c i)) eqn:Ho; cbn [negb].
  - destruct (_ <? _) eqn:Hd; zb; cbn [fst snd].
    + splits; [lia| |done|done|lia]. intros j [Hj| ->%list_elem_of_singleton]%elem_of_app Hjo; [|done].
      specialize (A2 j Hj Hjo). lia.
    + splits; [done| |done]. intros j [Hj| ->%list_elem_of_singleton]%elem_of_app Hjo; auto.
  - splits; [done| |done]. intros j [Hj| ->%list_elem_of_singleton]%elem_of_app Hjo; auto. congruence.
Qed.

(** The nearest buffered frame below [T]. *)
Lemma nearest_spec c N T :
  class_at c N -> 0 < T - N < 2 ^ 32 ->
  match nearest c (u32 T) with
  | None => forall k, N <= k < T -> buffered c N k = None
  | Some i => exists k, N <= k < T /\ i = slot_index (u32 k) /\
      buffered c N k = Some (class_slot c i) /\ forall j, N <= j < k -> buffered c N j = None
  end.
Proof.
  intros W HT. unfold nearest. rewrite (ca_expected _ _ W), distance_spec by lia.
  pose proof (nearest_fold c (T - N) (nat_upto LINKG_TRANSPORT_REORDER_WINDOW_SIZE) (T - N, None)) as H.
  destruct (foldl _ _ _) as [d o]. destruct H as (H1&H2&H3); [unfold nearest_inv; splits; cbn; [lia|set_solver|done]|].
  cbn [fst snd] in *.
  assert (forall k sl, N <= k -> buffered c N k = Some sl -> d <= k - N) as Hmin.
  { intros k sl Hk Hb. apply (buffered_Some c N k sl W) in Hb as (Hk'&<-&Ho).
    destruct (occupied_buffered c N _ W Ho) as (k'&E&Hw&_&Ed).
    assert (k' = k) as -> by by apply (slot_index_inj N).
    rewrite <- Ed. apply H2; [|done]. pose proof (slot_index_lt k).
    change (nat_upto LINKG_TRANSPORT_REORDER_WINDOW_SIZE) with (seq 0 64). apply elem_of_seq. lia. }
  destruct o as [i|].
  - destruct H3 as (Ho&->&Hlt). destruct (occupied_buffered c N i W Ho) as (k&E&Hk&Hb&Ed).
    rewrite Ed in *. exists k. splits; [lia|lia|done|done|].
    intros j Hj. destruct (buffered c N j) as [sl|] eqn:Hj'; [|done].
    specialize (Hmin j sl ltac:(lia) Hj'). lia.
  - intros k Hk. destruct (buffered c N k) as [sl|] eqn:Hk'; [|done].
    specialize (Hmin k sl ltac:(lia) Hk'). lia.
Qed.

Lemma run_skip c N M N' :
  class_at c N -> N <= M <= N' -> (forall k, N <= k < M -> buffered c N k = None) ->
  buffered_run (set_expected (u32 M) c) M M (N' - M) = buffered_run c N N (N' - N).
Proof.
  intros W HM Hn. rewrite <- (run_join c N _ M N' (skip_advanced c N M W ltac:(lia) Hn)) by lia.
  rewrite (run_empty c N N (M - N)); [done|]. intros k Hk. apply Hn. lia.
Qed.

Lemma pressure_take_spec room c N T out :
  class_at c N -> T - N < 2 ^ 31 -> - 2 ^ 31 < T - N ->
  exists c' N',
    pressure_take room c (u32 T) out = (c', out ++ buffered_run c N N (N' - N)) /\
    advanced c N c' N' /\ rc_delivery_in_progress c' = rc_delivery_in_progress c /\
    N' <= Z.max N T /\ Z.of_nat (length (buffered_run c N N (N' - N))) <= Z.of_nat room /\
    (N' < T -> length (buffered_run c N N (N' - N)) = room).
Proof.
  revert c N out. induction room as [|room IH]; intros c N out W HT1 HT2; cbn [pressure_take];
    rewrite (ca_expected _ _ W), before_spec by lia; destruct (Z.ltb_spec N T); cbn [negb].
  1, 2, 4: exists c, N; rewrite Z.sub_diag; cbn; rewrite app_nil_r;
    splits; try done; try lia; by apply advanced_refl.
  pose proof (nearest_spec c N T W ltac:(lia)) as Hn. destruct (nearest c (u32 T)) as [i|].
  - destruct Hn as (k&Hk&->&Hb&Hg). set (sl := class_slot c (slot_index (u32 k))) in *.
    rewrite (buffered_sequence c N k sl) by done.
    pose proof (skip_advanced c N k W ltac:(lia) Hg) as A1. set (c1 := set_expected (u32 k) c) in *.
    assert (buffered c1 k k = Some sl) as Hb1 by (rewrite (ad_buffered _ _ _ _ A1); by bsimp).
    pose proof (pop_advanced c1 k sl (ad_at _ _ _ _ A1) Hb1) as A2.
    set (c2 := pop_slot c1 (slot_index (u32 k))) in *.
    destruct (IH c2 (k + 1) (out ++ [rs_frame sl]) (ad_at _ _ _ _ A2)) as (c'&N'&E&A&D&HN&HL&HF); [lia..|].
    pose proof (ad_le _ _ _ _ A) as Hle.
    assert (buffered_run c N N (N' - N) = rs_frame sl :: buffered_run c2 (k + 1) (k + 1) (N' - (k + 1))) as R.
    { unfold c2. rewrite (run_pop c1 k sl N') by first [done|apply A1|lia].
      symmetry. apply run_skip; [done|lia|done]. }
    exists c', N'. rewrite R, E, <- app_assoc. cbn [length app]. splits.
    + done.
    + exact (advanced_trans _ _ _ _ _ _ A1 (advanced_trans _ _ _ _ _ _ A2 A)).
    + exact D.
    + lia.
    + lia.
    + intros. by rewrite HF.
  - exists (set_expected (u32 T) c), T. rewrite run_empty by (intros; apply Hn; lia).
    rewrite app_nil_r. splits; try done; try lia. apply skip_advanced; [done|lia|done].
Qed.

(** The pressure step against a frame beyond the window. *)
Lemma take_pressure_fact (self : Z) (c : linkg_transport_reorder_class) (N n : Z) (capacity : nat) :
  class_at c N -> rc_delivery_in_progress c = false -> (0 < capacity)%nat -> N + 64 <= n < N + 2 ^ 31 ->
  exists c' N' out,
    _linkg_transport_reorder_take_pressure_locked self c (u32 n) capacity = (c', out) /\
    advanced c N c' N' /\ out = buffered_run c N N (N' - N) /\ (length out <= capacity)%nat /\
    N' <= n - 63 /\ rc_delivery_in_progress c' = (0 <? length out)%nat /\
    ((length out < capacity)%nat -> N' <= n < N' + 64).
Proof.
  intros W Hd Hc Hn. unfold _linkg_transport_reorder_take_pressure_locked. rewrite Hd.
  replace (capacity =? 0)%nat with false by (symmetry; apply Nat.eqb_neq; lia). cbn [orb].
  replace (pressure_target (u32 n)) with (u32 (n - 63)) by (symmetry; apply (wrap_add_l 32 n (-63))).
  destruct (pressure_take_spec capacity c N (n - 63) [] W) as (c'&N'&E&A&D&HN&HL&HF); [lia..|].
  rewrite E. cbn [app]. set (out := buffered_run c N N (N' - N)) in *.
  eexists _, N', out. split; [done|]. splits; [|done|lia|lia| |lia].
  - destruct (0 <? length out)%nat; [by apply set_delivery_advanced|done].
  - destruct (0 <? length out)%nat; [done|]. cbn. congruence.
Qed.

(** ** Expiry *)

(** The scan's two results, for the buffered frames of the slots of [l]. *)
Definition expiry_inv (c : linkg_transport_reorder_class) (N now : Z) (l : list nat) (acc : Z * option Z) : Prop :=
  (forall k sl, slot_index (u32 k) ∈ l -> buffered c N k = Some sl ->
     fst acc <= rs_expires_at_us sl /\ fst acc <> 0 /\
     (rs_expires_at_us sl <= now -> exists d, snd acc = Some d /\ k - N <= d)) /\
  (fst acc = 0 \/ exists k sl, buffered c N k = Some sl /\ fst acc = rs_expires_at_us sl) /\
  match snd acc with
  | None => True
  | Some d => exists sl, buffered c N (N + d) = Some sl /\ rs_expires_at_us sl <= now
  end.

Definition deadlines_positive (c : linkg_transport_reorder_class) (N : Z) : Prop :=
  forall k sl, buffered c N k = Some sl -> 0 < rs_expires_at_us sl.

Lemma expiry_fold c N now l :
  class_at c N -> deadlines_positive c N -> expiry_inv c N now l (foldl (expiry_step c now) (0, None) l).
Proof.
  intros W Hp. induction l as [|i l IH] using rev_ind.
  - unfold expiry_inv. splits; cbn; [set_solver|by left|done].
  - rewrite foldl_snoc. set (a := foldl (expiry_step c now) (0, None) l) in *. destruct IH as (A1&A2&A3).
    unfold expiry_inv, expiry_step. destruct (occupied (class_slot c i)) eqn:Ho; cbn [negb].
    + destruct (occupied_buffered c N i W Ho) as (k&<-&Hk&Hb&Ed). rewrite Ed.
      set (sl := class_slot c (slot_index (u32 k))) in *. pose proof (Hp k sl Hb) as Hpos.
      unfold LINKG_TRANSPORT_REORDER_WINDOW_SIZE. bsimp. destruct a as [e f]. cbn [fst snd] in *.
      splits; cbn [fst snd].
      * intros j sl' [Hj|E%list_elem_of_singleton]%elem_of_app Hj'.
        -- destruct (A1 j sl' Hj Hj') as (B1&B2&B3). pose proof (Hp _ _ Hj').
           split; [destruct ((_ =? _) || _) eqn:Ec; [|done]; apply orb_true_iff in Ec as [Ec|Ec]; zb; lia|].
           split; [destruct ((_ =? _) || _) eqn:Ec; lia|].
           intros He. destruct (B3 He) as (d&->&Hd). destruct (_ && _) eqn:Ec; [|eauto].
           zb. eexists; split; [done|lia].
        -- pose proof (buffered_Some c N j sl' W) as Hs. apply Hs in Hj' as Hj2. destruct Hj2 as (Hj2&_&_).
           assert (j = k) as -> by by apply (slot_index_inj N). rewrite Hb in Hj'. injection Hj' as <-.
           split; [destruct ((_ =? _) || _) eqn:Ec; [lia|]; zb; lia|].
           split; [destruct ((_ =? _) || _) eqn:Ec; [lia|]; zb; lia|].
           intros He. bsimp. destruct f as [d|]; [|eexists; split; [done|lia]].
           destruct (Z.ltb_spec d (k - N)); eexists; (split; [done|lia]).
      * destruct ((_ =? _) || _); [right; by exists k, sl|done].
      * destruct (_ && _) eqn:Ec; [|done]. zb. exists sl. by replace (N + (k - N)) with k by lia.
    + splits; [|done|done]. intros k sl [Hk|E%list_elem_of_singleton]%elem_of_app Hb; [by eapply A1|].
      apply (buffered_Some c N k sl W) in Hb as (_&Hs&Ho'). rewrite E in Hs. subst sl. congruence.
Qed.

Lemma expiry_scan_spec c N now :
  class_at c N -> deadlines_positive c N ->
  let '(earliest, farthest) := expiry_scan c now in
  (forall k sl, buffered c N k = Some sl ->
     earliest <= rs_expires_at_us sl /\ earliest <> 0 /\
     (rs_expires_at_us sl <= now -> exists d, farthest = Some d /\ k - N <= d)) /\
  (earliest = 0 \/ exists k sl, buffered c N k = Some sl /\ earliest = rs_expires_at_us sl) /\
  match farthest with
  | None => True
  | Some d => exists sl, buffered c N (N + d) = Some sl /\ rs_expires_at_us sl <= now
  end.
Proof.
  intros W Hp. unfold expiry_scan. change (nat_upto LINKG_TRANSPORT_REORDER_WINDOW_SIZE) with (seq 0 64).
  pose proof (expiry_fold c N now (seq 0 64) W Hp) as (H1&H2&H3).
  destruct (foldl _ _ _) as [e f]. splits; [|done|done].
  intros k sl Hb. apply (H1 k); [|done]. pose proof (slot_index_lt k). apply elem_of_seq. lia.
Qed.

(** The delivery loop, started [N + d0], with [n] distances left. *)
Lemma worker_take_spec n d0 N farthest capacity c M output :
  class_at c M -> M = N + Z.of_nat d0 ->
  exists c' M',
    worker_take (seq d0 n) farthest capacity c output = (c', output ++ buffered_run c M M (M' - M)) /\
    advanced c M c' M' /\ rc_delivery_in_progress c' = rc_delivery_in_progress c /\
    M' <= M + Z.of_nat n /\
    (length (output ++ buffered_run c M M (M' - M)) <= Nat.max capacity (length output))%nat /\
    (forall k, M <= k < M' -> is_Some (buffered c M k) \/ exists f, farthest = Some f /\ k - N <= f) /\
    (M' = M + Z.of_nat n \/ (capacity <= length (output ++ buffered_run c M M (M' - M)))%nat \/
     (buffered c M M' = None /\ forall f, farthest = Some f -> f < M' - N)).
Proof.
  revert d0 c M output. induction n as [|n IH]; intros d0 c M output W HM.
  { exists c, M. rewrite Z.sub_diag. cbn. rewrite app_nil_r. splits; try done; try lia.
    by apply advanced_refl. }
  cbn [seq worker_take]. destruct (Nat.ltb_spec (length output) capacity) as [Hc|Hc]; cbn [negb].
  2:{ exists c, M. rewrite Z.sub_diag. cbn [buffered_run]. rewrite app_nil_r.
      splits; try done; try lia. by apply advanced_refl. }
  rewrite (head_cached_spec c M W). destruct (buffered c M M) as [sl|] eqn:Hb.
  - rewrite bool_decide_true by eauto. cbn [negb]. rewrite (ca_expected _ _ W).
    pose proof (pop_advanced c M sl W Hb) as A1. set (c1 := pop_slot c (slot_index (u32 M))) in *.
    assert (class_slot c (slot_index (u32 M)) = sl) as -> by by apply (buffered_Some c M M sl W) in Hb as (_&?&_).
    destruct (IH (S d0) c1 (M + 1) (output ++ [rs_frame sl]) (ad_at _ _ _ _ A1)) as (c'&M'&E&A&D&HL&HC&HG&HE);
      [lia|]. pose proof (ad_le _ _ _ _ A) as Hle.
    exists c', M'. rewrite <- (run_pop c M sl M') by (done || lia). fold c1.
    rewrite <- app_assoc in E, HC, HE. cbn [app] in E, HC, HE. rewrite !length_app in HC. cbn [length] in HC.
    splits; [exact E|exact (advanced_trans _ _ _ _ _ _ A1 A)|exact D|lia|rewrite length_app; cbn [length]; lia| |].
    + intros k Hk. destruct (Z.eq_dec k M) as [->|Hne]; [left; eauto|].
      specialize (HG k ltac:(lia)). rewrite (ad_buffered _ _ _ _ A1) in HG. revert HG. by bsimp.
    + destruct HE as [HE|[HE|[HE Hf]]]; [left; lia|by right; left|right; right]. split; [|done].
      rewrite (ad_buffered _ _ _ _ A1) in HE. revert HE. by bsimp.
  - rewrite bool_decide_false by by intros [? ?]. cbn [negb].
    destruct (match farthest with None => true | Some d => d <? Z.of_nat d0 end) eqn:Hf.
    + exists c, M. rewrite Z.sub_diag. cbn [buffered_run]. rewrite app_nil_r.
      splits; try done; try lia; [by apply advanced_refl|]. right. right. split; [done|].
      intros f ->. zb. lia.
    + destruct farthest as [f|]; [|done]. zb. rewrite (ca_expected _ _ W), u32_succ.
      assert (forall k, M <= k < M + 1 -> buffered c M k = None) as Hn by (intros k Hk; by replace k with M by lia).
      pose proof (skip_advanced c M (M + 1) W ltac:(lia) Hn) as A1.
      set (c1 := set_expected (u32 (M + 1)) c) in *.
      destruct (IH (S d0) c1 (M + 1) output (ad_at _ _ _ _ A1)) as (c'&M'&E&A&D&HL&HC&HG&HE); [lia|].
      pose proof (ad_le _ _ _ _ A) as Hle. exists c', M'.
      rewrite <- (run_skip c M (M + 1) M') by (done || lia). fold c1.
      splits; [exact E|exact (advanced_trans _ _ _ _ _ _ A1 A)|exact D|lia|lia| |].
      * intros k Hk. destruct (Z.eq_dec k M) as [->|Hne]; [right; exists f; split; [done|lia]|].
        specialize (HG k ltac:(lia)). rewrite (ad_buffered _ _ _ _ A1) in HG. revert HG. by bsimp.
      * destruct HE as [HE|[HE|[HE Hf']]]; [left; lia|by right; left|right; right]. split; [|done].
        rewrite (ad_buffered _ _ _ _ A1) in HE. revert HE. by bsimp.
Qed.

(** What the worker may take from one class. *)
Record worker_outcome (c : linkg_transport_reorder_class) (N : Z) (capacity : nat) (now deadline : Z)
    (c' : linkg_transport_reorder_class) (N' : Z) (out : list linkg_transport_reorder_frame) (deadline' : Z)
    : Prop := {
  wo_advanced : advanced c N c' N';
  wo_output : out = buffered_run c N N (N' - N);
  wo_room : (length out <= capacity)%nat;
  wo_mark : rc_delivery_in_progress c' = (0 <? length out)%nat;
  wo_idle : out = [] -> N' = N;
  (** a missing number is skipped only in front of an expired frame *)
  wo_gap : forall k, N <= k < N' -> is_Some (buffered c N k) \/
    exists j sl, k <= j /\ buffered c N j = Some sl /\ rs_expires_at_us sl <= now;
  (** no deliverable frame stays behind, except for lack of room *)
  wo_done : (length out < capacity)%nat -> forall k sl, buffered c' N' k = Some sl ->
    k <> N' /\ now < rs_expires_at_us sl;
  wo_deadline : forall k sl, buffered c N k = Some sl -> 0 < deadline' <= rs_expires_at_us sl;
  wo_earlier : deadline <> 0 -> 0 < deadline' <= deadline;
  wo_from : deadline' = deadline \/ exists k sl, buffered c N k = Some sl /\ deadline' = rs_expires_at_us sl }.

Lemma take_worker_class_spec self c N capacity now deadline :
  class_at c N -> deadlines_positive c N -> 0 <= deadline -> (0 < capacity)%nat ->
  rc_expected_initialized c = true -> rc_delivery_in_progress c = false ->
  exists c' N' out deadline',
    _linkg_transport_reorder_take_worker_class_locked self c capacity now deadline = (c', out, deadline') /\
    worker_outcome c N capacity now deadline c' N' out deadline'.
Proof.
  intros W Hp Hd0 Hcap Hi Hd. unfold _linkg_transport_reorder_take_worker_class_locked. rewrite Hi, Hd.
  replace (capacity =? 0)%nat with false by (symmetry; apply Nat.eqb_neq; lia). cbn [negb orb].
  rewrite orb_false_r. destruct (Z.eqb_spec (rc_slot_count c) 0) as [Hz|Hz].
  { pose proof (count_zero c N W Hz) as Hn. exists c, N, [], deadline. split; [done|].
    split; try done; try lia; try (intros k sl; by rewrite Hn); [by apply advanced_refl| |].
    - rewrite Z.sub_diag. done.
    - cbn. lia. }
  pose proof (expiry_scan_spec c N now W Hp) as Hs. destruct (expiry_scan c now) as [e f].
  destruct Hs as (Hs1&Hs2&Hs3).
  change (nat_upto LINKG_TRANSPORT_REORDER_WINDOW_SIZE) with (seq 0 64).
  destruct (worker_take_spec 64 0 N f capacity c N [] W ltac:(lia)) as (c1&N'&E&A&D&HL&HC&HG&HE).
  rewrite E. clear E. cbn [app] in *. set (out := buffered_run c N N (N' - N)) in *. cbn [length] in HC.
  pose proof (ad_le _ _ _ _ A) as Hle.
  set (c' := if (0 <? length out)%nat then set_delivery self c1 else c1).
  assert (advanced c N c' N') as A' by (unfold c'; destruct (0 <? length out)%nat; [by apply set_delivery_advanced|done]).
  eexists c', N', out, _. split; [done|].
  assert ((length out < capacity)%nat -> forall k sl, buffered c' N' k = Some sl ->
    k <> N' /\ now < rs_expires_at_us sl) as Hdone.
  { intros Hlt k sl. rewrite (ad_buffered _ _ _ _ A'). destruct (k <? N') eqn:Ek; [done|]. zb. intros Hb.
    destruct (Hs1 k sl Hb) as (_&_&He).
    assert (k < N + 64) by (by apply (buffered_Some c N k sl W) in Hb as (?&_); lia).
    destruct HE as [HE|[HE|[HE Hf]]]; [lia|lia|]. split; [congruence|].
    destruct (decide (rs_expires_at_us sl <= now)) as [Hx|]; [|lia].
    destruct (He Hx) as (d&->&Hkd). specialize (Hf d eq_refl). lia. }
  split; try done.
  - cbn in HC. lia.
  - unfold c'. destruct (0 <? length out)%nat; cbn; [done|congruence].
  - intros Ho. destruct (decide (N' = N)); [done|exfalso].
    assert (forall k, N <= k < N' -> buffered c N k = None) as Hnone.
    { intros k Hk. destruct (buffered c N k) as [sl|] eqn:Hb; [|done]. exfalso.
      revert Ho. subst out. replace (N' - N) with ((k - N) + (1 + (N' - (k + 1)))) by lia.
      rewrite !run_split by lia. replace (N + (k - N)) with k by lia. rewrite (run_one c N k sl) by done.
      destruct (buffered_run c N N (k - N)); done. }
    destruct (HG N ltac:(lia)) as [[? Hb]|(d&->&Hd1)]; [by rewrite Hnone in Hb by lia|].
    destruct Hs3 as (sl&Hb&Hx).
    destruct (decide (N + d < N')) as [Hlt|Hge]; [by rewrite Hnone in Hb by lia|].
    destruct (Hdone ltac:(rewrite Ho; cbn; lia) (N + d) sl); [|lia].
    rewrite (ad_buffered _ _ _ _ A'). by bsimp.
  - intros k Hk. destruct (HG k Hk) as [|(d&->&Hkd)]; [by left|right].
    destruct Hs3 as (sl&Hb&Hx). exists (N + d), sl. splits; [lia|done|done].
  - intros k sl Hb. destruct (Hs1 k sl Hb) as (B1&B2&_). pose proof (Hp _ _ Hb).
    destruct Hs2 as [?|(k'&sl'&Hb'&->)]; [done|]. pose proof (Hp _ _ Hb').
    destruct (negb _ && _) eqn:Ec; [lia|]. revert Ec. bsimp. intros Ec. zb. lia.
  - intros Hdl. destruct (negb _ && _) eqn:Ec; [|lia]. zb. destruct Hs2 as [?|(k'&sl'&Hb'&->)]; [done|].
    pose proof (Hp _ _ Hb'). revert H0. bsimp. intros. zb. lia.
  - destruct (negb _ && _) eqn:Ec; [|by left]. zb. destruct Hs2 as [?|?]; [done|by right].
Qed.

(** ** Grouping *)

Definition group_key (g : linkg_transport_reorder_group) : nat * Z := (gr_peer_index g, gr_traffic_class g).

Definition frame_key (frames : list linkg_transport_reorder_frame) (peer_indices : list nat) (i : nat)
    : nat * Z :=
  (default 0%nat (peer_indices !! i), rf_traffic_class (frame_at frames i)).

Lemma group_insert_new gs p c i :
  (p, c) ∉ group_key <$> gs -> group_insert gs p c i = gs ++ [ReorderGroup [i] p c].
Proof.
  induction gs as [|g gs IH]; [done|]. cbn. intros H. rewrite not_elem_of_cons in H. destruct H as [Hg Hgs].
  destruct (bool_decide_reflect (gr_peer_index g = p)) as [E|]; cbn [andb]; [|by rewrite IH].
  destruct (Z.eqb_spec (gr_traffic_class g) c) as [E'|]; [|by rewrite IH].
  destruct Hg. unfold group_key. by subst.
Qed.

(** Adding to an existing group appends to that group only. *)
Lemma group_insert_old gs p c i :
  NoDup (group_key <$> gs) -> (p, c) ∈ group_key <$> gs ->
  group_insert gs p c i =
    (fun g => if decide (group_key g = (p, c))
              then ReorderGroup (gr_indices g ++ [i]) (gr_peer_index g) (gr_traffic_class g) else g) <$> gs.
Proof.
  induction gs as [|g gs IH]; cbn; [set_solver|]. rewrite NoDup_cons, elem_of_cons. intros [Hg Hn] Hin.
  destruct (decide (group_key g = (p, c))) as [E|E].
  - injection E as <- <-. rewrite bool_decide_true, Z.eqb_refl by done. cbn [andb]. f_equal.
    symmetry. rewrite list_fmap_ext with (g := id); [apply list_fmap_id|].
    intros j h Hh. rewrite decide_False; [done|]. intros E. apply Hg. change (gr_peer_index g, gr_traffic_class g) with (group_key g) in *.
    rewrite <- E. apply list_elem_of_fmap. exists h. split; [done|]. by eapply list_elem_of_lookup_2.
  - replace (bool_decide (gr_peer_index g = p) && (gr_traffic_class g =? c)) with false.
    + f_equal. apply IH; [done|]. destruct Hin; [congruence|done].
    + symmetry. apply andb_false_iff. destruct (decide (gr_peer_index g = p)) as [<-|].
      * right. apply Z.eqb_neq. intros <-. by destruct E.
      * left. by apply bool_decide_eq_false.
Qed.

(** The groups are the classes of the input indices by peer and traffic class,
    each in input order. *)
Record grouped (frames : list linkg_transport_reorder_frame) (count : nat) (peer_indices : list nat)
    (gs : list linkg_transport_reorder_group) : Prop := {
  gp_keys : NoDup (group_key <$> gs);
  gp_some : forall g, g ∈ gs -> gr_indices g <> [];
  gp_indices : forall g, g ∈ gs ->
    gr_indices g = filter (fun i => frame_key frames peer_indices i = group_key g) (seq 0 count);
  gp_cover : forall i, (i < count)%nat -> frame_key frames peer_indices i ∈ group_key <$> gs;
  gp_once : concat (gr_indices <$> gs) ≡ₚ seq 0 count }.

Lemma group_add_perm gs p c i :
  concat (gr_indices <$> group_insert gs p c i) ≡ₚ concat (gr_indices <$> gs) ++ [i].
Proof.
  induction gs as [|g gs IH]; [done|]. cbn. case_match; cbn; [solve_Permutation|]. by rewrite IH, app_assoc.
Qed.

Lemma build_groups_fact frames count peer_indices :
  grouped frames count peer_indices (_linkg_transport_reorder_build_groups frames count peer_indices).
Proof.
  unfold _linkg_transport_reorder_build_groups. induction count as [|n IH].
  { split; cbn; [constructor|set_solver..|intros; lia|done]. }
  rewrite seq_S, foldl_snoc. set (gs := foldl _ [] _) in *. destruct IH as [I1 I2 I3 I4 I5].
  cbn [Nat.add]. fold (frame_key frames peer_indices n).
  set (p := default 0%nat (peer_indices !! n)). set (c := rf_traffic_class (frame_at frames n)).
  assert (frame_key frames peer_indices n = (p, c)) as K by done.
  assert (forall g, filter (fun i => frame_key frames peer_indices i = group_key g) (seq 0 (S n)) =
    filter (fun i => frame_key frames peer_indices i = group_key g) (seq 0 n) ++
    (if decide (group_key g = (p, c)) then [n] else [])) as Hf.
  { intros g. rewrite seq_S, filter_app. f_equal. cbn [Nat.add]. rewrite filter_cons, filter_nil, K.
    repeat case_decide; congruence. }
  assert (concat (gr_indices <$> group_insert gs p c n) ≡ₚ seq 0 n ++ [n]) as Hp.
  { by rewrite group_add_perm, I5. }
  destruct (decide ((p, c) ∈ group_key <$> gs)) as [Hin|Hin].
  - rewrite (group_insert_old gs p c n I1 Hin) in *.
    assert (forall l : list linkg_transport_reorder_group, group_key <$> ((fun g => if decide (group_key g = (p, c))
              then ReorderGroup (gr_indices g ++ [n]) (gr_peer_index g) (gr_traffic_class g) else g) <$> l) =
            group_key <$> l) as Ek.
    { intros l. rewrite <- list_fmap_compose. apply list_fmap_ext. intros j g _. cbn. by case_decide. }
    split.
    + by rewrite Ek.
    + intros g (h&->&Hh)%list_elem_of_fmap. case_decide; [by destruct (gr_indices h)|by apply I2].
    + intros g (h&->&Hh)%list_elem_of_fmap. rewrite Hf. case_decide as E; cbn.
      * change (group_key (ReorderGroup _ _ _)) with (group_key h). rewrite decide_True by done.
        by rewrite <- (I3 h Hh).
      * rewrite decide_False by done. rewrite app_nil_r. by apply I3.
    + intros i Hi. rewrite Ek. destruct (decide (i = n)) as [->|]; [by rewrite K|apply I4; lia].
    + by rewrite seq_S.
  - rewrite (group_insert_new gs p c n Hin) in *.
    assert (filter (fun i => frame_key frames peer_indices i = (p, c)) (seq 0 n) = []) as Hnone.
    { destruct (filter _ _) as [|i l] eqn:E; [done|exfalso]. assert (i ∈ i :: l) as Hi by left.
      rewrite <- E, list_elem_of_filter, elem_of_seq in Hi. destruct Hi as [Ei Hi].
      apply Hin. rewrite <- Ei. apply I4. lia. }
    split.
    + rewrite fmap_app, NoDup_app. split; [done|]. split; [|apply NoDup_singleton].
      intros k Hk ->%list_elem_of_singleton. done.
    + intros g [Hg| ->%list_elem_of_singleton]%elem_of_app; [by apply I2|done].
    + intros g [Hg| ->%list_elem_of_singleton]%elem_of_app; rewrite Hf.
      * rewrite decide_False; [rewrite app_nil_r; by apply I3|]. intros E. apply Hin. rewrite <- E.
        apply list_elem_of_fmap. by exists g.
      * change (group_key (ReorderGroup [n] p c)) with (p, c). by rewrite decide_True, Hnone.
    + intros i Hi. rewrite fmap_app. destruct (decide (i = n)) as [->|]; [rewrite K; set_solver|].
      apply elem_of_app. left. apply I4. lia.
    + by rewrite seq_S.
Qed.

(** ** Sorting *)

(** [num] gives the unbounded number of each input frame. *)
Definition numbered (frames : list linkg_transport_reorder_frame) (num : nat -> Z) (l : list nat) : Prop :=
  (forall i, i ∈ l -> sequence_at frames i = u32 (num i)) /\
  (forall i j, i ∈ l -> j ∈ l -> num i - num j < 2 ^ 31).

(** Increasing numbers, duplicates in input order. *)
Definition delivery_order (num : nat -> Z) (i j : nat) : Prop :=
  num i < num j \/ (num i = num j /\ (i <= j)%nat).

Lemma before_numbered frames num l i j :
  numbered frames num l -> i ∈ l -> j ∈ l ->
  _linkg_transport_reorder_sequence_before (sequence_at frames i) (sequence_at frames j) = (num i <? num j).
Proof.
  intros [Hs Hd] Hi Hj. rewrite !Hs by done. apply before_spec.
  pose proof (Hd i j Hi Hj). pose proof (Hd j i Hj Hi). lia.
Qed.

(** The shifting loop inserts [x] behind the last element that is not greater. *)
Lemma sort_shift_spec frames num all x p y rest :
  numbered frames num all -> x ∈ all -> (forall i, i ∈ p -> i ∈ all) ->
  exists l r, p = l ++ r /\
    sort_shift frames x (length p) (p ++ y :: rest) = l ++ x :: r ++ rest /\
    (forall i, i ∈ r -> num x < num i) /\ (forall i, last l = Some i -> num i <= num x).
Proof.
  intros Hn Hx. revert y rest. induction p as [|z p IH] using rev_ind; intros y rest Hp.
  - exists [], []. splits; [done|done|set_solver|done].
  - rewrite length_app. cbn [length]. rewrite Nat.add_1_r. cbn [sort_shift].
    rewrite <- app_assoc. cbn [app]. rewrite list_lookup_middle by done. cbn [from_option id].
    rewrite (before_numbered frames num all) by (done || (apply Hp; set_solver)).
    destruct (Z.ltb_spec (num x) (num z)) as [Hlt|Hge].
    + replace (<[Datatypes.S (length p) := z]> (p ++ z :: y :: rest)) with (p ++ z :: z :: rest).
      2:{ change (p ++ z :: y :: rest) with (p ++ [z] ++ y :: rest). rewrite app_assoc.
          rewrite (insert_seq_next (p ++ [z])) by (rewrite length_app; cbn; lia). by rewrite <- app_assoc. }
      destruct (IH z (z :: rest)) as (l&r&->&E&Hr&Hl); [set_solver|].
      exists l, (r ++ [z]). rewrite E. splits; [by rewrite app_assoc|by rewrite <- app_assoc| |done].
      intros i [Hi| ->%list_elem_of_singleton]%elem_of_app; auto.
    + exists (p ++ [z]), []. rewrite app_nil_r. splits; [done| |set_solver|].
      * change (p ++ z :: y :: rest) with (p ++ [z] ++ y :: rest). rewrite app_assoc.
        rewrite (insert_seq_next (p ++ [z])) by (rewrite length_app; cbn; lia). done.
      * intros i. rewrite last_snoc. by intros [= <-].
Qed.

Lemma sort_step_spec frames num all p x rest :
  numbered frames num all -> (forall i, i ∈ p ++ x :: rest -> i ∈ all) ->
  StronglySorted (delivery_order num) p -> (forall i, i ∈ p -> (i < x)%nat) ->
  exists q, sort_step frames (p ++ x :: rest) (length p) = q ++ rest /\ q ≡ₚ p ++ [x] /\
    StronglySorted (delivery_order num) q.
Proof.
  intros Hn Hall Hs Hlt. unfold sort_step. rewrite list_lookup_middle by done. cbn [from_option id].
  destruct (sort_shift_spec frames num all x p x rest Hn) as (l&r&->&E&Hr&Hl); [set_solver..|].
  exists (l ++ x :: r). rewrite E, <- app_assoc. splits; [done|solve_Permutation|].
  apply StronglySorted_app in Hs as (Hlr&Sl&Sr). apply StronglySorted_app. splits; [|done|].
  - intros i j Hi [->|Hj]%elem_of_cons; [|by apply Hlr].
    assert (num i <= num x) as Hle; [|assert (i < x)%nat by (apply Hlt; set_solver); unfold delivery_order; lia].
    destruct l as [|l0 l'] using rev_ind; [set_solver|]. specialize (Hl l0 (last_snoc _ _)).
    apply elem_of_app in Hi as [Hi| ->%list_elem_of_singleton]; [|done].
    apply StronglySorted_app in Sl as (Hll&_&_). specialize (Hll i l0 Hi ltac:(set_solver)).
    unfold delivery_order in Hll. lia.
  - constructor; [done|]. apply Forall_forall. intros i Hi. left. by apply Hr.
Qed.

Lemma sort_fold_spec frames num all l p :
  numbered frames num all -> (forall i, i ∈ p ++ l -> i ∈ all) ->
  StronglySorted (delivery_order num) p -> (forall i j, i ∈ p -> j ∈ l -> (i < j)%nat) ->
  StronglySorted lt l ->
  exists q, foldl (sort_step frames) (p ++ l) (seq (length p) (length l)) = q /\ q ≡ₚ p ++ l /\
    StronglySorted (delivery_order num) q.
Proof.
  intros Hn. revert p. induction l as [|x l IH]; intros p Hall Hs Hlt Sl.
  - exists p. rewrite app_nil_r. by splits.
  - apply StronglySorted_cons in Sl as [Fx Sl]. rewrite Forall_forall in Fx. cbn [length seq foldl].
    destruct (sort_step_spec frames num all p x l) as (q&E&P&Sq); [done|done|done|set_solver|].
    rewrite E. assert (length q = Datatypes.S (length p)) as Lq by (rewrite P, length_app; cbn; lia).
    destruct (IH q) as (q'&E'&P'&S').
    + intros i. rewrite P. intros Hi. apply Hall. set_solver.
    + done.
    + intros i j. rewrite P. intros [Hi| ->%list_elem_of_singleton]%elem_of_app Hj; [|by apply Fx].
      specialize (Hlt i x Hi ltac:(set_solver)). specialize (Fx j Hj). lia.
    + done.
    + exists q'. rewrite Lq in E'. splits; [done| |done]. rewrite P', P. solve_Permutation.
Qed.

Lemma sort_not_needed frames num l :
  numbered frames num l -> StronglySorted lt l -> sort_needed frames l = false ->
  StronglySorted (delivery_order num) l.
Proof.
  intros Hn Sl H. apply Sorted_StronglySorted.
  { intros i j k. unfold delivery_order. lia. }
  unfold sort_needed in H.
  assert (forall n i j, l !! n = Some i -> l !! Datatypes.S n = Some j -> num i <= num j) as Hstep.
  { intros n i j Hi Hj. destruct (Z.leb_spec (num i) (num j)) as [|Hgt]; [done|exfalso].
    apply Bool.not_true_iff_false in H. apply H. apply existsb_exists. exists (Datatypes.S n).
    pose proof (lookup_lt_Some _ _ _ Hj). split; [apply in_seq; lia|].
    replace (Datatypes.S n - 1)%nat with n by lia. rewrite Hi, Hj. cbn [from_option id].
    rewrite (before_numbered frames num l) by (done || by eapply list_elem_of_lookup_2).
    by apply Z.ltb_lt. }
  clear H Hn. induction l as [|i l IH]; [constructor|]. apply StronglySorted_cons in Sl as [Fi Sl].
  constructor; [apply IH; [done|intros n; apply (Hstep (Datatypes.S n))]|].
  destruct l as [|j l]; constructor. specialize (Hstep 0%nat i j eq_refl eq_refl).
  rewrite Forall_forall in Fi. specialize (Fi j ltac:(left)). unfold delivery_order. lia.
Qed.

Lemma sort_group_fact frames num g :
  numbered frames num (gr_indices g) -> StronglySorted lt (gr_indices g) ->
  _linkg_transport_reorder_sort_group g frames ≡ₚ gr_indices g /\
  StronglySorted (delivery_order num) (_linkg_transport_reorder_sort_group g frames).
Proof.
  intros Hn Sl. unfold _linkg_transport_reorder_sort_group.
  destruct (sort_needed frames (gr_indices g)) eqn:E; cbn [negb]; [|split; [done|by apply (sort_not_needed frames)]].
  destruct (gr_indices g) as [|x l] eqn:Eg; [by split; [|constructor]|].
  pose proof Sl as Sl'. apply StronglySorted_cons in Sl' as [Fx Sl']. rewrite Forall_forall in Fx.
  destruct (sort_fold_spec frames num (x :: l) l [x]) as (q&Eq&P&S'); [done|set_solver|repeat constructor|
    set_solver|done|].
  cbn [length app] in *. rewrite Nat.sub_1_r. cbn [Nat.pred]. rewrite Eq. by split.
Qed.

(** ** Filtering *)

(** Every frame of [l] is within half the sequence space of number [N]. *)
Definition near (frames : list linkg_transport_reorder_frame) (num : nat -> Z) (N : Z) (l : list nat) : Prop :=
  forall i, i ∈ l -> sequence_at frames i = u32 (num i) /\ - 2 ^ 31 <= num i - N < 2 ^ 31.

(** The verdict in terms of numbers: late, too far, already buffered, or a
    duplicate of an earlier frame of the batch. *)
Definition verdict (c : linkg_transport_reorder_class) (N : Z) (num : nat -> Z)
    (results : list linkg_transport_reorder_result) (previous : list nat) (i : nat)
    : linkg_transport_reorder_result :=
  if num i <? N then TOO_OLD
  else if N + 64 <=? num i then OUT_OF_WINDOW
  else if bool_decide (is_Some (buffered c N (num i))) then TOO_OLD
  else if existsb (fun p => negb (bool_decide (result_at results p = STALE)) && (num p =? num i)) previous
  then TOO_OLD else UNPROCESSED.

Record filtered (c : linkg_transport_reorder_class) (N : Z) (num : nat -> Z) (previous order : list nat)
    (results results' : list linkg_transport_reorder_result) : Prop := {
  fi_len : length results' = length results;
  fi_other : forall j, j ∉ order \/ result_at results j <> UNPROCESSED ->
    result_at results' j = result_at results j;
  fi_verdict : forall l i r, order = l ++ i :: r -> result_at results i = UNPROCESSED ->
    result_at results' i = verdict c N num results (previous ++ l) i }.

Lemma result_at_insert results i r j :
  (i < length results)%nat ->
  result_at (<[i := r]> results) j = if decide (i = j) then r else result_at results j.
Proof. intros H. unfold result_at. rewrite lookup_insert_case by done. by case_decide. Qed.

Lemma existsb_ext {A} (f g : A -> bool) l : (forall x, x ∈ l -> f x = g x) -> existsb f l = existsb g l.
Proof.
  induction l as [|x l IH]; intros H; [done|]. cbn. rewrite H by left. f_equal. apply IH. intros; apply H. by right.
Qed.

Lemma filter_verdict_spec c N num frames results results0 previous i :
  class_at c N -> near frames num N (previous ++ [i]) ->
  (forall p, p ∈ previous -> result_at results p = STALE <-> result_at results0 p = STALE) ->
  filter_verdict c previous frames results i = verdict c N num results0 previous i.
Proof.
  intros W Hn Hst. destruct (Hn i ltac:(set_solver)) as [Ei Hi].
  unfold filter_verdict, verdict. rewrite Ei, (ca_expected _ _ W), before_spec by lia.
  destruct (Z.ltb_spec (num i) N); [done|]. rewrite distance_spec by lia.
  unfold LINKG_TRANSPORT_REORDER_WINDOW_SIZE.
  destruct (Z.leb_spec (N + 64) (num i)); [by bsimp|].
  replace (64 <=? num i - N) with false by (symmetry; apply Z.leb_gt; lia).
  rewrite (buffered_occupied c N) by lia.
  destruct (buffered c N (num i)) as [sl|] eqn:Hb.
  - rewrite bool_decide_true by eauto. apply (buffered_Some c N) in Hb as Hb'; [|done].
    destruct Hb' as (_&->&_). by rewrite (buffered_sequence c N (num i)), Z.eqb_refl.
  - rewrite bool_decide_false by by intros [? ?].
    rewrite (existsb_ext _ (fun p => negb (bool_decide (result_at results0 p = STALE)) && (num p =? num i)));
      [done|]. intros p Hp. destruct (Hn p ltac:(set_solver)) as [Ep Hnp]. f_equal.
    + f_equal. by apply bool_decide_ext, Hst.
    + rewrite Ep. apply Bool.eq_iff_eq_true. rewrite !Z.eqb_eq. split; [|congruence].
      unfold wrap. rewrite pow32. intros. Z.div_mod_to_equations. lia.
Qed.

Lemma verdict_not_stale c N num results previous i : verdict c N num results previous i <> STALE.
Proof. unfold verdict. by repeat case_match. Qed.

Lemma filter_loop_spec c N num frames order previous results results0 :
  class_at c N -> near frames num N (previous ++ order) -> NoDup (previous ++ order) ->
  (forall j, j ∈ order -> (j < length results)%nat) ->
  (forall p, p ∈ previous -> result_at results p = STALE <-> result_at results0 p = STALE) ->
  (forall j, j ∉ previous -> result_at results j = result_at results0 j) ->
  let results' := filter_loop c previous order frames results in
  length results' = length results /\
  (forall j, j ∉ order -> result_at results' j = result_at results j) /\
  (forall j, j ∈ order -> result_at results0 j <> UNPROCESSED -> result_at results' j = result_at results0 j) /\
  (forall l i r, order = l ++ i :: r -> result_at results0 i = UNPROCESSED ->
     result_at results' i = verdict c N num results0 (previous ++ l) i).
Proof.
  intros W. revert previous results. induction order as [|i order IH]; intros previous results Hn Hd Hlen Hst Heq.
  { cbn. splits; [done|done|set_solver|]. intros [] ? ? ?; done. }
  cbn [filter_loop]. apply NoDup_app in Hd as Hd'. destruct Hd' as (_&Hpo&[Hio Hdo]%NoDup_cons).
  assert (i ∉ previous) as Hip by (intros Hp; apply (Hpo i Hp); left).
  pose proof (Heq i Hip) as Ei. specialize (Hlen i ltac:(left)) as Hli.
  set (r1 := if unprocessed results i then _ else results).
  assert (length r1 = length results) as L1 by (unfold r1; case_match; [by rewrite length_insert|done]).
  assert (forall j, j <> i -> result_at r1 j = result_at results j) as O1.
  { intros j Hj. unfold r1. case_match; [|done]. rewrite result_at_insert by done. by rewrite decide_False. }
  assert (result_at r1 i = if decide (result_at results0 i = UNPROCESSED)
                           then verdict c N num results0 previous i else result_at results0 i) as V1.
  { unfold r1, unprocessed. rewrite Ei. case_decide as E.
    - rewrite bool_decide_true by done. rewrite result_at_insert, decide_True by done.
      apply filter_verdict_spec; [done| |done]. intros j Hj. apply Hn. set_solver.
    - by rewrite bool_decide_false. }
  destruct (IH (previous ++ [i]) r1) as (B1&B2&B3&B4).
  - by rewrite <- app_assoc.
  - by rewrite <- app_assoc.
  - intros j Hj. rewrite L1. apply Hlen. by right.
  - intros p [Hp| ->%list_elem_of_singleton]%elem_of_app.
    + rewrite O1 by (intros ->; done). by apply Hst.
    + rewrite V1. case_decide as E; [|done]. rewrite E. split; [|done]. intros H. by apply verdict_not_stale in H.
  - intros j [Hj1 Hj2]%not_elem_of_app. rewrite O1 by set_solver. by apply Heq.
  - splits.
    + by rewrite B1.
    + intros j [Hji Hj]%not_elem_of_cons. rewrite B2 by done. by apply O1.
    + intros j [->|Hj]%elem_of_cons Hu; [|by apply B3]. rewrite B2 by done. rewrite V1. by rewrite decide_False.
    + intros [|i' l] j r E Hu; cbn in E; injection E as <- ->.
      * rewrite B2 by done. rewrite V1, decide_True by done. by rewrite app_nil_r.
      * rewrite (B4 l j r) by done. by rewrite <- app_assoc.
Qed.

Lemma filter_group_spec c N num frames order results :
  class_at c N -> near frames num N order -> NoDup order ->
  (forall j, j ∈ order -> (j < length results)%nat) ->
  filtered c N num [] order results (_linkg_transport_reorder_filter_group_locked c order frames results).
Proof.
  intros W Hn Hd Hlen.
  destruct (filter_loop_spec c N num frames order [] results results W Hn Hd Hlen) as (A&B&D&E); [set_solver|done|].
  split; [done| |done]. intros j Hj. destruct (decide (j ∈ order)) as [Hin|]; [|by apply B].
  apply D; [done|]. by destruct Hj.
Qed.

(** ** The accepted frames of a group *)

Definition pending (results : list linkg_transport_reorder_result) (order : list nat) : list nat :=
  filter (fun i => result_at results i = UNPROCESSED) order.

Lemma pending_cons results i order :
  pending results (i :: order) =
    if unprocessed results i then i :: pending results order else pending results order.
Proof.
  unfold pending, unprocessed. rewrite filter_cons. case_decide as E; [by rewrite bool_decide_true|].
  by rewrite bool_decide_false.
Qed.

Lemma elem_of_pending results order i : i ∈ pending results order <-> i ∈ order /\ result_at results i = UNPROCESSED.
Proof. unfold pending. rewrite list_elem_of_filter. tauto. Qed.

Lemma pending_split results order l i r :
  pending results order = l ++ i :: r ->
  exists l' r', order = l' ++ i :: r' /\ pending results l' = l /\ pending results r' = r.
Proof.
  revert l. induction order as [|x order IH]; intros l; [by destruct l|].
  rewrite pending_cons. destruct (unprocessed results x) eqn:Ex; cbn.
  - destruct l as [|y l]; cbn; intros [= <- E].
    + by exists [], order.
    + destruct (IH l E) as (l'&r'&->&<-&<-). exists (x :: l'), r'. rewrite pending_cons, Ex. done.
  - intros E. destruct (IH l E) as (l'&r'&->&<-&<-). exists (x :: l'), r'. rewrite pending_cons, Ex. done.
Qed.

Section Filtered.
Context {c : linkg_transport_reorder_class} {N : Z} {num : nat -> Z} {order : list nat}
  {results results' : list linkg_transport_reorder_result}.
Hypothesis F : filtered c N num [] order results results'.

Lemma filtered_was i : i ∈ pending results' order -> result_at results i = UNPROCESSED.
Proof.
  intros [Hi Hu]%elem_of_pending. destruct (decide (result_at results i = UNPROCESSED)) as [|Hne]; [done|].
  rewrite <- Hu. symmetry. apply (fi_other _ _ _ _ _ _ _ F). by right.
Qed.

Lemma filtered_window i :
  i ∈ pending results' order -> N <= num i < N + 64 /\ buffered c N (num i) = None.
Proof.
  intros Hi. pose proof (filtered_was i Hi) as H0. apply elem_of_pending in Hi as [Hi Hu].
  apply list_elem_of_split in Hi as (l&r&->). rewrite (fi_verdict _ _ _ _ _ _ _ F l i r eq_refl H0) in Hu.
  unfold verdict in Hu. repeat case_match; try done. zb. split; [lia|].
  destruct (buffered c N (num i)); [|done]. case_bool_decide as E; [done|]. destruct E. eauto.
Qed.

Lemma filtered_distinct l i r : pending results' order = l ++ i :: r -> num i ∉ num <$> l.
Proof.
  intros E (p&Ep&Hp)%list_elem_of_fmap.
  assert (i ∈ pending results' order) as Hi by (rewrite E; set_solver).
  assert (p ∈ pending results' order) as Hp' by (rewrite E; set_solver).
  pose proof (filtered_was i Hi) as H0. pose proof (filtered_was p Hp') as H0p.
  destruct (pending_split _ _ _ _ _ E) as (l'&r'&Eo&<-&_).
  apply elem_of_pending in Hi as [_ Hu], Hp as [Hp _].
  rewrite (fi_verdict _ _ _ _ _ _ _ F l' i r' Eo H0) in Hu. unfold verdict in Hu. cbn [app] in Hu.
  repeat case_match; try done. zb.
  match goal with H : existsb _ _ = false |- _ => apply Bool.not_true_iff_false in H; apply H end.
  apply existsb_exists. exists p. split; [by apply list_elem_of_In|].
  rewrite H0p, bool_decide_false by done. cbn. by apply Z.eqb_eq.
Qed.

Lemma filtered_nodup : NoDup (num <$> pending results' order).
Proof.
  enough (forall l r, pending results' order = l ++ r -> NoDup (num <$> l)) as H.
  { apply (H _ []). by rewrite app_nil_r. }
  induction l as [|i l IH] using rev_ind; [constructor|]. intros r E. rewrite <- app_assoc in E.
  rewrite fmap_app, NoDup_app. split; [by eapply IH|]. split; [|apply NoDup_singleton].
  intros x Hx ->%list_elem_of_singleton. by eapply filtered_distinct.
Qed.

Lemma filtered_sorted :
  StronglySorted (delivery_order num) order ->
  StronglySorted (fun i j => num i < num j) (pending results' order).
Proof.
  intros Hs. enough (forall l r, pending results' order = l ++ r -> StronglySorted (fun i j => num i < num j) l) as H.
  { apply (H _ []). by rewrite app_nil_r. }
  induction l as [|i l IH] using rev_ind; [constructor|]. intros r E. rewrite <- app_assoc in E. cbn [app] in E.
  apply StronglySorted_app. splits; [|by eapply IH|repeat constructor].
  intros j k Hj ->%list_elem_of_singleton. pose proof (filtered_distinct _ _ _ E) as Hd.
  destruct (pending_split _ _ _ _ _ E) as (l'&r'&Eo&<-&_). rewrite Eo in Hs.
  apply StronglySorted_app in Hs as (Hlr&_&_). specialize (Hlr j i).
  assert (num i <> num j) by (intros Ej; apply Hd; rewrite Ej; by apply list_elem_of_fmap_2).
  apply elem_of_pending in Hj as [Hj _]. specialize (Hlr Hj ltac:(left)). unfold delivery_order in Hlr. lia.
Qed.
End Filtered.

(** ** The ready prefix *)

(** The leading indices of [l] that carry the numbers [N], [N+1], ... *)
Fixpoint run_of (num : nat -> Z) (N : Z) (l : list nat) : nat :=
  match l with
  | i :: l' => if num i =? N then Datatypes.S (run_of num (N + 1) l') else O
  | [] => O
  end.

Fixpoint increasing (l : list nat) : bool :=
  match l with
  | i :: (j :: _) as l' => negb (j <? i)%nat && increasing l'
  | _ => true
  end.

Lemma prefix_loop_spec frames num results N0 order N previous count in_order :
  (forall i, i ∈ pending results order -> sequence_at frames i = u32 (num i) /\ N0 <= num i < N0 + 64) ->
  N0 <= N <= N0 + 64 ->
  let k := run_of num N (pending results order) in
  prefix_loop order frames results (u32 N) previous count in_order =
    ((count + k)%nat,
     in_order && increasing ((if (0 <? count)%nat then [previous] else []) ++ take k (pending results order))).
Proof.
  revert N previous count in_order. induction order as [|i order IH]; intros N previous count in_order Hp HN; cbn zeta.
  { cbn [prefix_loop]. change (run_of num N (pending results [])) with 0%nat. rewrite Nat.add_0_r.
    destruct (0 <? count)%nat; cbn [app take increasing pending]; by rewrite andb_true_r. }
  cbn [prefix_loop]. rewrite pending_cons in *. destruct (unprocessed results i); cbn [negb]; [|by apply IH].
  destruct (Hp i ltac:(left)) as [Es Hw]. rewrite Es. cbn [run_of].
  replace (u32 (num i) =? u32 N) with (num i =? N).
  2:{ apply Bool.eq_iff_eq_true. rewrite !Z.eqb_eq. split; [congruence|].
      unfold wrap. rewrite pow32. intros. Z.div_mod_to_equations. lia. }
  destruct (Z.eqb_spec (num i) N) as [Ei|Hne]; cbn [negb].
  - rewrite u32_succ, IH; [|intros j Hj; apply Hp; by right|lia]. cbn zeta.
    rewrite Nat.add_succ_r. cbn [Nat.add]. f_equal. cbn [take].
    change (0 <? Datatypes.S count)%nat with true. cbn iota.
    destruct (0 <? count)%nat; cbn [app andb negb]; [|by rewrite andb_true_r].
    cbn [increasing]. by rewrite andb_assoc.
  - rewrite Nat.add_0_r. destruct (0 <? count)%nat; cbn [app take increasing]; by rewrite andb_true_r.
Qed.

Lemma run_of_numbers num N l : num <$> take (run_of num N l) l = seqZ N (Z.of_nat (run_of num N l)).
Proof.
  revert N. induction l as [|i l IH]; intros N; [done|]. cbn [run_of].
  destruct (Z.eqb_spec (num i) N) as [Ei|]; [|done]. cbn [take].
  rewrite seqZ_cons by lia. rewrite fmap_cons, IH, Ei. do 2 f_equal; lia.
Qed.

Lemma run_of_stops num N l i : l !! run_of num N l = Some i -> num i <> N + Z.of_nat (run_of num N l).
Proof.
  revert N. induction l as [|j l IH]; intros N; [done|]. cbn [run_of].
  destruct (Z.eqb_spec (num j) N) as [Ej|Hne]; cbn [lookup].
  - intros H%IH. lia.
  - intros [= ->]. lia.
Qed.

Lemma run_of_le num N l : (run_of num N l <= length l)%nat.
Proof. revert N. induction l as [|i l IH]; intros N; cbn; [lia|]. case_match; [|lia]. specialize (IH (N + 1)). lia. Qed.

(** The frames after the prefix: their numbers are distinct from it. *)
Lemma run_of_rest num N l i :
  NoDup (num <$> l) -> i ∈ drop (run_of num N l) l ->
  num i < N \/ N + Z.of_nat (run_of num N l) <= num i.
Proof.
  intros Hd Hi. destruct (decide (N <= num i < N + Z.of_nat (run_of num N l))); [exfalso|lia].
  rewrite <- (take_drop (run_of num N l) l) in Hd. rewrite fmap_app, NoDup_app in Hd. destruct Hd as (_&Hd&_).
  apply (Hd (num i)); [|by apply list_elem_of_fmap_2].
  rewrite run_of_numbers. apply elem_of_seqZ. lia.
Qed.

(** ** Rebasing an empty window *)

Lemma in_window_spec c N q n :
  class_at c N -> q = u32 n -> - 2 ^ 31 <= n - N < 2 ^ 31 ->
  in_window c q = (N <=? n) && (n <? N + 64).
Proof.
  intros W -> Hn. unfold in_window. rewrite (ca_expected _ _ W), before_spec by lia.
  destruct (Z.ltb_spec n N); cbn [negb andb]; [by bsimp|]. rewrite distance_spec by lia.
  unfold LINKG_TRANSPORT_REORDER_WINDOW_SIZE. bsimp.
  apply Bool.eq_iff_eq_true. rewrite !Z.ltb_lt. lia.
Qed.

(** The new left edge: unchanged unless the window is empty and every usable
    frame of the batch is beyond it; then the first of these frames. *)
Definition rebase_number (empty : bool) (N : Z) (numbers : list Z) : Z :=
  if empty && negb (existsb (fun n => (N <=? n) && (n <? N + 64)) numbers)
  then default N (List.find (fun n => N <? n) numbers) else N.

Lemma rebase_number_ge e N l : N <= rebase_number e N l.
Proof.
  unfold rebase_number. case_match; [|lia]. destruct (List.find _ l) as [n|] eqn:E; cbn; [|lia].
  apply List.find_some in E as [_ E]. zb. lia.
Qed.

Lemma existsb_pending (g : nat -> bool) (h : Z -> bool) num results order :
  (forall i, i ∈ order -> g i = h (num i)) ->
  existsb (fun i => unprocessed results i && g i) order = existsb h (num <$> pending results order).
Proof.
  intros H. induction order as [|i order IH]; [done|]. cbn [existsb]. rewrite IH by (intros; apply H; by right).
  rewrite pending_cons. destruct (unprocessed results i); [|done]. cbn. by rewrite H by left.
Qed.

Lemma find_pending (g : nat -> bool) (h : Z -> bool) num results order :
  (forall i, i ∈ order -> g i = h (num i)) ->
  num <$> List.find (fun i => unprocessed results i && g i) order =
  List.find h (num <$> pending results order).
Proof.
  intros H. induction order as [|i order IH]; [done|]. cbn [List.find].
  rewrite pending_cons. specialize (IH ltac:(intros; apply H; by right)).
  destruct (unprocessed results i); [|done]. cbn. rewrite H by left. by destruct (h (num i)).
Qed.

Lemma rebase_spec c N num frames order results :
  class_at c N -> rc_delivery_in_progress c = false ->
  (forall i, i ∈ order -> sequence_at frames i = u32 (num i) /\ - 2 ^ 31 < num i - N < 2 ^ 31) ->
  let N' := rebase_number (rc_slot_count c =? 0) N (num <$> pending results order) in
  let c' := _linkg_transport_reorder_rebase_empty_locked c order frames results in
  c' = set_expected (u32 N') c /\ (forall k, N <= k < N' -> buffered c N k = None).
Proof.
  intros W Hd Hn. cbn zeta. unfold _linkg_transport_reorder_rebase_empty_locked, rebase_number.
  assert (set_expected (u32 N) c = c) as Eid by (destruct c; unfold set_expected; cbn; by rewrite <- (ca_expected _ _ W)).
  rewrite Hd. cbn [orb]. destruct (Z.eqb_spec (rc_slot_count c) 0) as [Hz|]; cbn [negb andb].
  2:{ rewrite Eid. split; [done|intros; lia]. }
  rewrite (existsb_pending _ (fun n => (N <=? n) && (n <? N + 64)) num).
  2:{ intros i Hi. destruct (Hn i Hi). apply in_window_spec; [done|done|lia]. }
  destruct (existsb _ _); cbn [negb]; [rewrite Eid; split; [done|intros; lia]|].
  rewrite <- (find_pending (fun i => _linkg_transport_reorder_sequence_before (rc_expected_sequence c) (sequence_at frames i))).
  2:{ intros i Hi. destruct (Hn i Hi) as [-> ?]. rewrite (ca_expected _ _ W). apply before_spec. lia. }
  split; [|intros; by apply count_zero].
  destruct (List.find _ order) as [i|] eqn:E; cbn; [|by rewrite Eid].
  apply List.find_some in E as [Hi _]. apply list_elem_of_In in Hi. by destruct (Hn i Hi) as [-> _].
Qed.

(** An empty window can be moved to any sequence number. *)
Lemma jump_empty c N q :
  class_at c N -> rc_slot_count c = 0 -> in_range 32 q ->
  exists N', q = u32 N' /\ advanced c N (set_expected q c) N'.
Proof.
  intros W Hz Hq. exists (N + u32 (q - N)).
  assert (q = u32 (N + u32 (q - N))) as E.
  { unfold wrap. rewrite Zplus_mod_idemp_r. replace (N + (q - N)) with q by lia. symmetry. by apply Z.mod_small. }
  split; [exact E|]. rewrite E at 1. pose proof (wrap_range 32 (q - N) ltac:(lia)) as Hw.
  apply skip_advanced; [done|unfold in_range in Hw; lia|]. intros k _. by apply count_zero.
Qed.

(** Without any assumption on the distances, rebasing still only moves an empty
    window. *)
Lemma rebase_any c N frames order results :
  class_at c N -> (forall i, i ∈ order -> in_range 32 (sequence_at frames i)) ->
  exists N', advanced c N (_linkg_transport_reorder_rebase_empty_locked c order frames results) N' /\
    rc_delivery_in_progress (_linkg_transport_reorder_rebase_empty_locked c order frames results) =
      rc_delivery_in_progress c.
Proof.
  intros W Hr. unfold _linkg_transport_reorder_rebase_empty_locked.
  destruct (_ || _) eqn:E; [exists N; split; [by apply advanced_refl|done]|]. zb.
  destruct (existsb _ order); [exists N; split; [by apply advanced_refl|done]|].
  destruct (List.find _ order) as [i|] eqn:Ef; [|exists N; split; [by apply advanced_refl|done]].
  apply List.find_some in Ef as [Hi _]. apply list_elem_of_In in Hi.
  destruct (jump_empty c N (sequence_at frames i) W ltac:(done) (Hr i Hi)) as (N'&_&A). by exists N'.
Qed.

(** ** Marking the emitted frames *)

Lemma mark_emitted_weak indices frames q results :
  length (mark_emitted indices frames q results) = length results /\
  forall j, result_at (mark_emitted indices frames q results) j = result_at results j \/
    (j ∈ indices /\ result_at results j = CACHED /\ result_at (mark_emitted indices frames q results) j = EMITTED).
Proof.
  induction indices as [|i l IH]; cbn [mark_emitted]; [split; auto|].
  destruct (bool_decide_reflect (result_at results i = CACHED)) as [Ec|]; cbn [andb].
  2:{ destruct IH as [L H]. split; [done|]. intros j. destruct (H j) as [|(?&?&?)]; [auto|set_solver]. }
  destruct (sequence_at frames i =? q).
  - rewrite length_insert. split; [done|]. intros j.
    destruct (decide (i < length results)%nat) as [Hi|Hi].
    + rewrite result_at_insert by done. case_decide as E; [subst; right; set_solver|auto].
    + rewrite list_insert_ge by lia. auto.
  - destruct IH as [L H]. split; [done|]. intros j. destruct (H j) as [|(?&?&?)]; [auto|set_solver].
Qed.

Lemma mark_run_weak indices frames N n results :
  length (mark_run indices frames N n results) = length results /\
  forall j, result_at (mark_run indices frames N n results) j = result_at results j \/
    (j ∈ indices /\ result_at results j = CACHED /\ result_at (mark_run indices frames N n results) j = EMITTED).
Proof.
  unfold mark_run. generalize (seqZ N (Z.of_nat n)) as l. intros l. revert results.
  induction l as [|k l IH]; intros results; [split; auto|]. cbn [foldl].
  destruct (mark_emitted_weak indices frames (u32 k) results) as [L1 H1].
  destruct (IH (mark_emitted indices frames (u32 k) results)) as [L2 H2]. split; [by rewrite L2|].
  intros j. destruct (H1 j) as [E1|(Hj&E1&E1')], (H2 j) as [E2|(Hj'&E2&E2')].
  - left. by rewrite E2, E1.
  - right. rewrite E1 in E2. auto.
  - right. by rewrite E2.
  - congruence.
Qed.

(** When the cached frames of the group carry distinct numbers of one window,
    exactly those of the run are marked. *)
Section Marking.
Context (frames : list linkg_transport_reorder_frame) (num : nat -> Z) (N0 : Z).

Definition cached_distinct (results : list linkg_transport_reorder_result) (indices : list nat) : Prop :=
  (forall i, i ∈ indices -> result_at results i = CACHED ->
     (i < length results)%nat /\ sequence_at frames i = u32 (num i) /\ N0 <= num i < N0 + 64) /\
  (forall i j, i ∈ indices -> j ∈ indices -> result_at results i = CACHED -> result_at results j = CACHED ->
     num i = num j -> i = j).

Lemma window_u32_inj x y : N0 <= x < N0 + 64 -> N0 <= y < N0 + 64 -> u32 x = u32 y -> x = y.
Proof. unfold wrap. rewrite pow32. intros. Z.div_mod_to_equations. lia. Qed.

Lemma mark_emitted_spec indices k results j :
  cached_distinct results indices -> N0 <= k < N0 + 64 -> j ∈ indices ->
  result_at (mark_emitted indices frames (u32 k) results) j =
    if decide (result_at results j = CACHED /\ num j = k) then EMITTED else result_at results j.
Proof.
  intros [Hc Hd] Hk Hj.
  assert (forall l, (forall i, i ∈ l -> i ∈ indices) -> j ∈ l ->
    result_at (mark_emitted l frames (u32 k) results) j =
      if decide (result_at results j = CACHED /\ num j = k) then EMITTED else result_at results j) as H.
  2:{ by apply H. }
  induction l as [|i l IH]; intros Hl Hjl; [set_solver|]. cbn [mark_emitted].
  destruct (bool_decide_reflect (result_at results i = CACHED)) as [Ec|Ec]; cbn [andb].
  - destruct (Hc i (Hl i ltac:(left)) Ec) as (Hi&Es&Hw). rewrite Es.
    destruct (Z.eqb_spec (u32 (num i)) (u32 k)) as [E|E].
    + apply window_u32_inj in E; [|done..]. rewrite result_at_insert by done.
      destruct (decide (i = j)) as [Eij|Eij].
      * rewrite <- Eij. by rewrite decide_True by (split; [exact Ec|exact E]).
      * rewrite decide_False; [done|]. intros [Ej Nj]. apply Eij. apply Hd; auto; [apply Hl; left|congruence].
    + apply elem_of_cons in Hjl as [->|Hjl]; [|apply IH; [intros; apply Hl; by right|done]].
      destruct (decide (i ∈ l)); [apply IH; [intros; apply Hl; by right|done]|].
      rewrite decide_False by (intros [_ <-]; done).
      destruct (mark_emitted_weak l frames (u32 k) results) as [_ H]. by destruct (H i) as [|(?&_)].
  - apply elem_of_cons in Hjl as [->|Hjl]; [|apply IH; [intros; apply Hl; by right|done]].
    destruct (decide (i ∈ l)); [apply IH; [intros; apply Hl; by right|done]|].
    rewrite decide_False by (intros [? _]; done).
    destruct (mark_emitted_weak l frames (u32 k) results) as [_ H]. by destruct (H i) as [|(?&_)].
Qed.

Lemma cached_distinct_mark indices q results :
  cached_distinct results indices -> cached_distinct (mark_emitted indices frames q results) indices.
Proof.
  intros [Hc Hd]. destruct (mark_emitted_weak indices frames q results) as [L H].
  assert (forall i, i ∈ indices -> result_at (mark_emitted indices frames q results) i = CACHED ->
    result_at results i = CACHED) as Hb.
  { intros i _ Ei. destruct (H i) as [E|(_&_&E)]; congruence. }
  split.
  - intros i Hi Ei. rewrite L. by apply Hc, Hb.
  - intros i j Hi Hj Ei Ej. apply Hd; auto.
Qed.

Lemma mark_run_spec indices N n results j :
  cached_distinct results indices -> N0 <= N -> N + Z.of_nat n <= N0 + 64 -> j ∈ indices ->
  result_at (mark_run indices frames N n results) j =
    if decide (result_at results j = CACHED /\ N <= num j < N + Z.of_nat n) then EMITTED
    else result_at results j.
Proof.
  revert N results. induction n as [|n IH]; intros N results Hc HN Hn Hj.
  - cbn. rewrite decide_False; [done|lia].
  - unfold mark_run. rewrite seqZ_cons by lia. cbn [foldl].
    replace (Z.pred (Z.of_nat (Datatypes.S n))) with (Z.of_nat n) by lia. rewrite <- Z.add_1_r.
    fold (mark_run indices frames (N + 1) n (mark_emitted indices frames (u32 N) results)).
    rewrite IH by (try done; try lia; by apply cached_distinct_mark).
    rewrite (mark_emitted_spec indices N results j) by (done || lia).
    destruct (decide (result_at results j = CACHED /\ num j = N)) as [[E1 E2]|Hne].
    + rewrite decide_False by (intros [? _]; congruence). by rewrite decide_True by (split; [done|lia]).
    + repeat case_decide; try done; exfalso; destruct (decide (num j = N)); intuition lia.
Qed.
End Marking.

(** ** Properties *)

(** For frames within half the sequence space of each other,
    the batch sort returns the indices of the group ordered by sequence number
    across the 32-bit wrap-around, duplicates staying in input order. *)
Theorem reorder_sort_spec (frames : list linkg_transport_reorder_frame) (num : nat -> Z)
    (group : linkg_transport_reorder_group) :
  numbered frames num (gr_indices group) -> StronglySorted lt (gr_indices group) ->
  _linkg_transport_reorder_sort_group group frames ≡ₚ gr_indices group /\
  StronglySorted (delivery_order num) (_linkg_transport_reorder_sort_group group frames).
Proof. apply sort_group_fact. Qed.

(** The groups of a batch partition its indices: one group per
    peer and class that occurs, holding exactly the indices of its frames in
    input order. *)
Theorem reorder_groups_spec (frames : list linkg_transport_reorder_frame) (count : nat)
    (peer_indices : list nat) :
  let gs := _linkg_transport_reorder_build_groups frames count peer_indices in
  NoDup (group_key <$> gs) /\
  (forall g, g ∈ gs -> gr_indices g <> [] /\
     gr_indices g = filter (fun i => frame_key frames peer_indices i = group_key g) (seq 0 count)) /\
  concat (gr_indices <$> gs) ≡ₚ seq 0 count.
Proof.
  destruct (build_groups_fact frames count peer_indices) as [K S I V O]. cbn zeta.
  split; [exact K|]. split; [|exact O]. intros g Hg. split; [by apply S|by apply I].
Qed.

(** When the frame number [n] lies beyond the window, the
    pressure path outputs in increasing order the buffered frames that have to
    leave, drops none of them, touches no frame that can stay, and unless the
    output is full moves the window so that [n] fits. *)
Theorem reorder_pressure_spec (self : Z) (c : linkg_transport_reorder_class) (N n : Z) (capacity : nat) :
  class_at c N -> rc_delivery_in_progress c = false -> (0 < capacity)%nat -> N + 64 <= n < N + 2 ^ 31 ->
  exists c' N' out,
    _linkg_transport_reorder_take_pressure_locked self c (u32 n) capacity = (c', out) /\
    advanced c N c' N' /\ out = buffered_run c N N (N' - N) /\ (length out <= capacity)%nat /\
    N' <= n - 63 /\ rc_delivery_in_progress c' = (0 <? length out)%nat /\
    ((length out < capacity)%nat -> N' <= n < N' + 64).
Proof. apply take_pressure_fact. Qed.

(** The worker's step on an idle class outputs buffered
    frames in increasing order, skips a missing number only in front of an
    expired frame, leaves no expired and no deliverable frame behind unless the
    output is full, and lowers the wake-up deadline to the earliest one of the
    buffered frames. *)
Theorem reorder_worker_class_spec (self : Z) (c : linkg_transport_reorder_class) (N : Z) (capacity : nat)
    (now deadline : Z) :
  class_at c N -> deadlines_positive c N -> 0 <= deadline -> (0 < capacity)%nat ->
  rc_expected_initialized c = true -> rc_delivery_in_progress c = false ->
  exists c' N' out deadline',
    _linkg_transport_reorder_take_worker_class_locked self c capacity now deadline = (c', out, deadline') /\
    worker_outcome c N capacity now deadline c' N' out deadline'.
Proof. apply take_worker_class_spec. Qed.

(** ** Witnesses *)

(** Frames 4294967295 and 4294967297 (sequence numbers 2^32 - 1 and 1) wait in
    the window that starts at 4294967294; the second one is missing. *)
Definition demo_frame (packet : pkt_ptr) (sequence : Z) : linkg_transport_reorder_frame :=
  ReorderFrame (Some packet) (Some 3%nat) (Header 0 0 1 0 sequence 7 1 0) (FragmentHeader 0 0 0) 5 2 1 7.

Definition demo_slot (packet : pkt_ptr) (sequence expires : Z) : linkg_transport_reorder_slot :=
  ReorderSlot (demo_frame packet sequence) expires.

Definition demo_class0 : linkg_transport_reorder_class := set_baseline 4294967294 2 7 class_zero.
Definition demo_class1 : linkg_transport_reorder_class :=
  set_slots (<[63%nat := demo_slot 0 4294967295 70000]> (rc_slots demo_class0)) 1 demo_class0.
Definition demo_class : linkg_transport_reorder_class :=
  set_slots (<[1%nat := demo_slot 1 1 90000]> (rc_slots demo_class1)) 2 demo_class1.

Lemma demo_class_spec :
  class_at demo_class 4294967294 /\
  forall k, buffered demo_class 4294967294 k =
    if k =? 4294967297 then Some (demo_slot 1 1 90000)
    else if k =? 4294967295 then Some (demo_slot 0 4294967295 70000) else None.
Proof.
  assert (class_at demo_class0 4294967294) as W0.
  { by apply class_empty_at. }
  assert (forall k, buffered demo_class0 4294967294 k = None) as B0 by by apply count_zero.
  destruct (put_spec demo_class0 4294967294 4294967295 (demo_slot 0 4294967295 70000) W0) as [W1 B1];
    [lia|apply B0|done|done|].
  change (class_at demo_class1 4294967294) in W1.
  change (forall j, buffered demo_class1 4294967294 j =
    if j =? 4294967295 then Some (demo_slot 0 4294967295 70000) else buffered demo_class0 4294967294 j) in B1.
  destruct (put_spec demo_class1 4294967294 4294967297 (demo_slot 1 1 90000) W1) as [W2 B2];
    [lia|by rewrite (B1 4294967297), B0|done|done|].
  split; [exact W2|]. intros k. etransitivity; [exact (B2 k)|]. destruct (k =? 4294967297); [done|].
  rewrite (B1 k). destruct (k =? 4294967295); [done|apply B0].
Qed.

Lemma demo_class_deadlines : deadlines_positive demo_class 4294967294.
Proof.
  intros k sl. rewrite (proj2 demo_class_spec k). repeat case_match; [intros [= <-]; cbn; lia..|done].
Qed.

Lemma reorder_sort_spec_witness :
  let frames := [demo_frame 0 2; demo_frame 1 4294967295; demo_frame 2 0; demo_frame 3 4294967295] in
  let group := ReorderGroup [0%nat; 1%nat; 2%nat; 3%nat] 3 1 in
  let num i := default 0 ([4294967298; 4294967295; 4294967296; 4294967295] !! i) in
  _linkg_transport_reorder_sort_group group frames = [1%nat; 3%nat; 2%nat; 0%nat] /\
  StronglySorted (delivery_order num) (_linkg_transport_reorder_sort_group group frames).
Proof.
  cbn zeta. split; [reflexivity|].
  refine (proj2 (reorder_sort_spec _ (fun i => default 0 ([4294967298; 4294967295; 4294967296; 4294967295] !! i))
    (ReorderGroup [0%nat; 1%nat; 2%nat; 3%nat] 3 1) _ _)).
  - split.
    + cbn [gr_indices]. intros i Hi. repeat (apply elem_of_cons in Hi as [->|Hi]; [reflexivity|]). set_solver.
    + cbn [gr_indices]. intros i j Hi Hj.
      repeat (apply elem_of_cons in Hi as [->|Hi];
        [repeat (apply elem_of_cons in Hj as [->|Hj]; [reflexivity|]); set_solver|]). set_solver.
  - cbn [gr_indices]. repeat constructor; lia.
Defined.

Lemma reorder_pressure_spec_witness :
  exists c' N' out,
    _linkg_transport_reorder_take_pressure_locked 9 demo_class (u32 4294967359) 32 = (c', out) /\
    advanced demo_class 4294967294 c' N' /\ out = buffered_run demo_class 4294967294 4294967294 (N' - 4294967294) /\
    (length out <= 32)%nat /\ N' <= 4294967359 - 63 /\
    rc_delivery_in_progress c' = (0 <? length out)%nat /\
    ((length out < 32)%nat -> N' <= 4294967359 < N' + 64).
Proof.
  apply reorder_pressure_spec; [apply demo_class_spec|reflexivity|lia|lia].
Defined.

Lemma reorder_worker_class_spec_witness :
  exists c' N' out deadline',
    _linkg_transport_reorder_take_worker_class_locked 9 demo_class 32 75000 0 = (c', out, deadline') /\
    worker_outcome demo_class 4294967294 32 75000 0 c' N' out deadline'.
Proof.
  apply reorder_worker_class_spec;
    [apply demo_class_spec|exact demo_class_deadlines|lia|lia|reflexivity|reflexivity].
Defined.
