(* ===== verification/TransportReorderRuntime.v ===== *)
(** * In-order delivery: references, locking, worker and life cycle
      (core/transport/transport_reorder.c)

    The runtime of the reorder buffer over any [PacketStore]: the windows of all
    peers and classes, the batch entry points, the emission of frames outside
    the lock, the expiry worker and the life cycle. What other threads do
    between an unlock and the next lock, the peers' epochs and the clock are
    arguments ([reorder_env]) indexed by a counter of such observations, so that
    a theorem holds for every interleaving at the granularity of the lock. *)

From stdpp Require Import sorting.
From S2P Require Import Prelude.
From S2P Require Import PacketStore.
From S2P Require Import PacketPool.
From S2P Require Import TransportTypes.
From S2P Require Import TransportReorder.

(** ** State *)

(** [g_reorder]. [rt_store] is the packets the frames refer to, the worker's
    [linkg_thread_t] is reduced to its started flag and thread identifier, and
    the last two fields are ghosts: the number of broadcasts of the condition
    variable and the number of observations made so far. *)
Record linkg_transport_reorder_runtime (S : Type) := ReorderRuntime {
  rt_store : S;
  rt_classes : list linkg_transport_reorder_class;
  rt_emit : option (list linkg_transport_reorder_frame -> M S unit);
  rt_worker_cursor : Z;
  rt_initialized : bool;
  rt_running : bool;
  rt_thread_started : bool;
  rt_thread_tid : Z;
  rt_broadcasts : Z;
  rt_tick : nat }.
Arguments ReorderRuntime {S}.
Arguments rt_store {S}.
Arguments rt_classes {S}.
Arguments rt_emit {S}.
Arguments rt_worker_cursor {S}.
Arguments rt_initialized {S}.
Arguments rt_running {S}.
Arguments rt_thread_started {S}.
Arguments rt_thread_tid {S}.
Arguments rt_broadcasts {S}.
Arguments rt_tick {S}.

(** The type [linkg_transport_reorder_emit_func_t]: the callback borrows the
    frames and acts on the packets. *)
Abbreviation linkg_transport_reorder_emit_func_t S := (list linkg_transport_reorder_frame -> M S unit).

(** The surroundings of one thread's call, at its [n]-th observation: the peers'
    epochs, the clock, the return codes of the pthread calls, the worker's run
    permission, and what the other threads did while the lock was free. *)
Record reorder_env (S : Type) := ReorderEnv {
  en_self : Z;
  en_epochs : nat -> list Z;
  en_clock : nat -> Z;
  en_lock : nat -> Z;
  en_unlock : nat -> Z;
  en_wait : nat -> Z;
  en_thread_running : nat -> bool;
  en_others : nat -> linkg_transport_reorder_runtime S -> linkg_transport_reorder_runtime S }.
Arguments en_self {S}.
Arguments en_epochs {S}.
Arguments en_clock {S}.
Arguments en_lock {S}.
Arguments en_unlock {S}.
Arguments en_wait {S}.
Arguments en_thread_running {S}.
Arguments en_others {S}.

(** Return codes of the calls of the life cycle. *)
Record reorder_os := ReorderOs {
  os_mutex_init : Z;
  os_condattr_init : Z;
  os_condattr_setclock : Z;
  os_cond_init : Z;
  os_thread_init : Z;
  os_thread_start : Z;
  os_thread_stop : Z;
  os_thread_tid : Z }.

Definition class_total : nat := Z.to_nat (LINKG_TRANSPORT_PEER_MAX * LINKG_TRANSPORT_CLASS_COUNT).

(** [classes[peer_index][traffic_class]]. *)
Definition class_index (peer_index : nat) (traffic_class : Z) : nat :=
  Z.to_nat (Z.of_nat peer_index * LINKG_TRANSPORT_CLASS_COUNT + traffic_class).

Section Reorder.
Context {S : Type} `{PS : PacketStore S} (env : reorder_env S).

Abbreviation runtime := (linkg_transport_reorder_runtime S).
Abbreviation RM := (M runtime).
Abbreviation results_t := (list linkg_transport_reorder_result).
Abbreviation frames_t := (list linkg_transport_reorder_frame).
Abbreviation class_t := linkg_transport_reorder_class.
Abbreviation emit_func := (linkg_transport_reorder_emit_func_t S).

Definition rset_store (st : S) (s : runtime) : runtime :=
  ReorderRuntime st (rt_classes s) (rt_emit s) (rt_worker_cursor s) (rt_initialized s) (rt_running s)
    (rt_thread_started s) (rt_thread_tid s) (rt_broadcasts s) (rt_tick s).
Definition rset_classes (cs : list class_t) (s : runtime) : runtime :=
  ReorderRuntime (rt_store s) cs (rt_emit s) (rt_worker_cursor s) (rt_initialized s) (rt_running s)
    (rt_thread_started s) (rt_thread_tid s) (rt_broadcasts s) (rt_tick s).
Definition rset_flags (emit : option emit_func) (initialized running : bool) (s : runtime) : runtime :=
  ReorderRuntime (rt_store s) (rt_classes s) emit (rt_worker_cursor s) initialized running
    (rt_thread_started s) (rt_thread_tid s) (rt_broadcasts s) (rt_tick s).
Definition rset_cursor (n : Z) (s : runtime) : runtime :=
  ReorderRuntime (rt_store s) (rt_classes s) (rt_emit s) n (rt_initialized s) (rt_running s)
    (rt_thread_started s) (rt_thread_tid s) (rt_broadcasts s) (rt_tick s).
Definition rset_thread (started : bool) (tid : Z) (s : runtime) : runtime :=
  ReorderRuntime (rt_store s) (rt_classes s) (rt_emit s) (rt_worker_cursor s) (rt_initialized s)
    (rt_running s) started tid (rt_broadcasts s) (rt_tick s).
Definition rset_ghost (broadcasts : Z) (t : nat) (s : runtime) : runtime :=
  ReorderRuntime (rt_store s) (rt_classes s) (rt_emit s) (rt_worker_cursor s) (rt_initialized s)
    (rt_running s) (rt_thread_started s) (rt_thread_tid s) broadcasts t.

(** [memset(&g_reorder, 0, sizeof(g_reorder))]. *)
Definition reorder_zero (s : runtime) : runtime :=
  ReorderRuntime (rt_store s) (replicate class_total class_zero) None 0 false false false 0
    (rt_broadcasts s) (rt_tick s).

(** ** Observations and synchronisation *)

Definition observe : RM nat :=
  s ← get;
  modify (rset_ghost (rt_broadcasts s) (Datatypes.S (rt_tick s))) ;;
  mret (rt_tick s).

Definition mutex_lock : RM Z :=
  n ← observe;
  when (en_lock env n =? 0) (modify (en_others env n)) ;;
  mret (en_lock env n).

Definition mutex_unlock : RM Z := n ← observe; mret (en_unlock env n).

(** Releases the lock, waits, and holds it again when it returns. *)
Definition cond_wait : RM Z :=
  n ← observe;
  modify (en_others env n) ;;
  mret (en_wait env n).

Definition cond_broadcast : RM unit :=
  modify (fun s => rset_ghost (rt_broadcasts s + 1) (rt_tick s) s).

Definition peer_epoch_matches (peer : option peer_ptr) (peer_epoch : Z) : RM bool :=
  n ← observe;
  mret (linkg_transport_peer_epoch_matches (en_epochs env n) peer peer_epoch).

Definition time_monotonic_us : RM Z := n ← observe; mret (en_clock env n).

Definition reorder_store {A} (m : M S A) : RM A := zoom rt_store rset_store m.

Definition class_read (ci : nat) : RM class_t := s ← get; of_option (rt_classes s !! ci).

Definition class_write (ci : nat) (c : class_t) : RM unit :=
  s ← get;
  assert_ (bool_decide (ci < length (rt_classes s))%nat) ;;
  modify (rset_classes (<[ci := c]> (rt_classes s))).

(** ** Slots and classes *)

Definition _linkg_transport_reorder_clear_slot (ci i : nat) : RM unit :=
  c ← class_read ci;
  let slot := class_slot c i in
  when (occupied slot) (reorder_store (ps_release (rf_packet (rs_frame slot)))) ;;
  class_write ci (set_slots (<[i := slot_zero]> (rc_slots c)) (rc_slot_count c) c).

Definition _linkg_transport_reorder_clear_class (ci : nat) : RM unit :=
  mfor (nat_upto LINKG_TRANSPORT_REORDER_WINDOW_SIZE) (_linkg_transport_reorder_clear_slot ci) ;;
  class_write ci class_zero.

(** ** Accepting a group *)

(** Does the frame belong to another life of the peer than the class? *)
Definition other_identity (current : class_t) (frame : linkg_transport_reorder_frame) : bool :=
  negb (rc_peer_epoch current =? rf_peer_epoch frame) ||
  negb (rc_peer_node_id current =? rf_peer_node_id frame).

(** Marks the stale frames; the flag is [valid]. *)
Fixpoint stale_loop (current : class_t) (order : list nat) (frames : frames_t) (results : results_t)
    (valid : bool) : RM (bool * results_t) :=
  match order with
  | [] => mret (valid, results)
  | index :: order' =>
      let frame := frame_at frames index in
      matches ← peer_epoch_matches (rf_peer frame) (rf_peer_epoch frame);
      if negb matches || (rc_expected_initialized current && other_identity current frame)
      then stale_loop current order' frames (<[index := STALE]> results) valid
      else stale_loop current order' frames results true
  end.

(** The baseline of the first usable frame. *)
Definition establish (current : class_t) (order : list nat) (frames : frames_t) (results : results_t) : class_t :=
  match List.find (unprocessed results) order with
  | Some index =>
      let frame := frame_at frames index in
      set_baseline (frame_sequence frame) (rf_peer_epoch frame) (rf_peer_node_id frame) current
  | None => current
  end.

Definition mark_all (order : list nat) (results : results_t) : results_t :=
  foldl (fun r index => <[index := STALE]> r) results order.

Definition mark_others (current : class_t) (order : list nat) (frames : frames_t) (results : results_t) : results_t :=
  foldl (fun r index =>
           if unprocessed r index && other_identity current (frame_at frames index)
           then <[index := STALE]> r else r) results order.

Definition _linkg_transport_reorder_prepare_group_locked (current : class_t) (order : list nat)
    (frames : frames_t) (results : results_t) : RM (bool * class_t * results_t) :=
  vr ← stale_loop current order frames results false;
  let '(valid, results) := vr in
  if negb valid then mret (false, current, results)
  else if rc_expected_initialized current then mret (true, current, results)
  else if negb (rc_slot_count current =? 0) || rc_delivery_in_progress current
  then mret (false, current, mark_all order results)
  else
    let current := establish current order frames results in
    mret (true, current, mark_others current order frames results).

(** The results, the class and [*worker_wakeup]. *)
Fixpoint cache_loop (current : class_t) (order : list nat) (frames : frames_t) (results : results_t)
    (now_us wait_us : Z) (worker_wakeup : bool) : RM (class_t * results_t * bool) :=
  match order with
  | [] => mret (current, results, worker_wakeup)
  | index :: order' =>
      if negb (unprocessed results index)
      then cache_loop current order' frames results now_us wait_us worker_wakeup
      else
        let frame := frame_at frames index in
        reorder_store (ps_retain (rf_packet frame)) ;;
        cache_loop
          (set_slots (<[slot_index (frame_sequence frame) := ReorderSlot frame (u64 (now_us + wait_us))]>
                       (rc_slots current)) (u32 (rc_slot_count current + 1)) current)
          order' frames (<[index := CACHED]> results) now_us wait_us true
  end.

Definition _linkg_transport_reorder_cache_group_locked (current : class_t)
    (group : linkg_transport_reorder_group) (order : list nat) (frames : frames_t) (results : results_t)
    (now_us : Z) (worker_wakeup : bool) : RM (class_t * results_t * bool) :=
  cache_loop current order frames results now_us
    (_linkg_transport_reorder_wait_us (gr_traffic_class group)) worker_wakeup.

(** The first [n] usable frames become READY. *)
Fixpoint mark_ready (order : list nat) (n : nat) (results : results_t) : results_t :=
  match n, order with
  | O, _ | _, [] => results
  | Datatypes.S n', index :: order' =>
      if negb (unprocessed results index) then mark_ready order' n results
      else mark_ready order' n' (<[index := READY]> results)
  end.

(** Returns the results, the emission so far and [*worker_wakeup]. *)
Definition _linkg_transport_reorder_process_group_locked (group : linkg_transport_reorder_group)
    (frames : frames_t) (results : results_t) (emit : emission) (now_us : Z) (worker_wakeup : bool)
    : RM (results_t * emission * bool) :=
  let ci := class_index (gr_peer_index group) (gr_traffic_class group) in
  current ← class_read ci;
  let order := _linkg_transport_reorder_sort_group group frames in
  prepared ← _linkg_transport_reorder_prepare_group_locked current order frames results;
  let '(valid, current, results) := prepared in
  if negb valid then mret (results, emit, worker_wakeup)
  else if rc_delivery_in_progress current then
    let results := _linkg_transport_reorder_filter_group_locked current order frames results in
    r ← _linkg_transport_reorder_cache_group_locked current group order frames results now_us worker_wakeup;
    let '(current, results, worker_wakeup) := r in
    class_write ci current ;;
    mret (results, emit, worker_wakeup)
  else
    let current := _linkg_transport_reorder_rebase_empty_locked current order frames results in
    let results := _linkg_transport_reorder_filter_group_locked current order frames results in
    let '(prefix_count, input_in_order) :=
      _linkg_transport_reorder_ready_prefix_locked current order frames results in
    let next_sequence := u32 (rc_expected_sequence current + Z.of_nat prefix_count) in
    let cached_next := head_cached (set_expected next_sequence current) in
    if (0 <? prefix_count)%nat && input_in_order && negb cached_next then
      let results := mark_ready order prefix_count results in
      let current := set_delivery (en_self env) (set_expected next_sequence current) in
      r ← _linkg_transport_reorder_cache_group_locked current group order frames results now_us worker_wakeup;
      let '(current, results, worker_wakeup) := r in
      class_write ci current ;;
      mret (results, emit, worker_wakeup)
    else
      r ← _linkg_transport_reorder_cache_group_locked current group order frames results now_us worker_wakeup;
      let '(current, results, worker_wakeup) := r in
      let '(current, results, emit) :=
        _linkg_transport_reorder_take_contiguous_locked (en_self env) current group frames results emit in
      class_write ci current ;;
      mret (results, emit, worker_wakeup).

Fixpoint process_groups (groups : list linkg_transport_reorder_group) (frames : frames_t)
    (results : results_t) (emit : emission) (now_us : Z) (worker_wakeup : bool)
    : RM (results_t * emission * bool) :=
  match groups with
  | [] => mret (results, emit, worker_wakeup)
  | group :: groups' =>
      r ← _linkg_transport_reorder_process_group_locked group frames results emit now_us worker_wakeup;
      let '(results, emit, worker_wakeup) := r in
      process_groups groups' frames results emit now_us worker_wakeup
  end.

Definition _linkg_transport_reorder_process_batch_locked (frames : frames_t) (count : nat)
    (peer_indices : list nat) (results : results_t) (emit : emission) (worker_wakeup : bool)
    : RM (results_t * emission * bool) :=
  let groups := _linkg_transport_reorder_build_groups frames count peer_indices in
  now_us ← time_monotonic_us;
  process_groups groups frames results emit now_us worker_wakeup.

(** ** Emission *)

Fixpoint complete_loop (frames : frames_t) (changed : bool) : RM bool :=
  match frames with
  | [] => mret changed
  | frame :: frames' =>
      let slot_index := _linkg_transport_reorder_peer_index (rf_peer frame) in
      if slot_index <? 0 then complete_loop frames' changed
      else
        let ci := class_index (Z.to_nat slot_index) (rf_traffic_class frame) in
        current ← class_read ci;
        if rc_expected_initialized current && negb (other_identity current frame) &&
           rc_delivery_in_progress current
        then class_write ci (end_delivery current) ;; complete_loop frames' true
        else complete_loop frames' changed
  end.

Definition _linkg_transport_reorder_complete_emit_locked (frames : frames_t) : RM unit :=
  changed ← complete_loop frames false;
  when changed cond_broadcast.

(** The release of the references that the emission owns. *)
Definition release_owned (emit : emission) : RM unit :=
  mfor emit (fun e => when (snd e) (reorder_store (ps_release (rf_packet (fst e))))).

Definition _linkg_transport_reorder_emit_batch (emit : emit_func) (frames : emission) : RM unit :=
  match frames with
  | [] => mret tt
  | _ =>
      reorder_store (emit (fst <$> frames)) ;;
      release_owned frames ;;
      ret ← mutex_lock;
      if negb (ret =? 0) then mret tt
      else
        _linkg_transport_reorder_complete_emit_locked (fst <$> frames) ;;
        _ ← mutex_unlock;
        mret tt
  end.

Definition _linkg_transport_reorder_group_needs_pressure_locked (group : linkg_transport_reorder_group)
    (frames : frames_t) : RM bool :=
  current ← class_read (class_index (gr_peer_index group) (gr_traffic_class group));
  let order := _linkg_transport_reorder_sort_group group frames in
  let base_sequence := if rc_expected_initialized current then rc_expected_sequence current
                       else sequence_at frames (default 0%nat (order !! 0%nat)) in
  mret (existsb (fun index =>
          negb (_linkg_transport_reorder_sequence_before (sequence_at frames index) base_sequence) &&
          (LINKG_TRANSPORT_REORDER_WINDOW_SIZE <=? u32 (sequence_at frames index - base_sequence))) order).

Definition delivering_here (c : class_t) : bool :=
  rc_delivery_in_progress c && (rc_delivery_thread c =? en_self env).

Definition _linkg_transport_reorder_self_delivering_locked : RM bool :=
  s ← get; mret (existsb delivering_here (rt_classes s)).

(** Returns the code and [*lock_held]. *)
Definition _linkg_transport_reorder_emit_and_relock (emit : emit_func) (frames : emission) : RM (Z * bool) :=
  ret ← mutex_unlock;
  if negb (ret =? 0) then mret (- ret, true)
  else
    _linkg_transport_reorder_emit_batch emit frames ;;
    ret ← mutex_lock;
    if ret =? 0 then mret (0, true) else mret (- ret, false).

(** ** Pressure *)

(** The frames from [position] on that fit the window at [partial_base]; returns
    [partial.indices] and the new position. *)
Fixpoint select_partial (rest : list nat) (frames : frames_t) (results : results_t) (partial_base : Z)
    (indices : list nat) (position : nat) : list nat * nat :=
  match rest with
  | [] => (indices, position)
  | next :: rest' =>
      if unprocessed results next &&
         negb (_linkg_transport_reorder_sequence_before (sequence_at frames next) partial_base) &&
         (LINKG_TRANSPORT_REORDER_WINDOW_SIZE <=? u32 (sequence_at frames next - partial_base))
      then (indices, position)
      else select_partial rest' frames results partial_base (indices ++ [next]) (Datatypes.S position)
  end.

(** READY frames of the partial group are emitted at once, not owned. *)
Fixpoint emit_ready (indices : list nat) (frames : frames_t) (results : results_t) (emit : emission)
    : results_t * emission :=
  match indices with
  | [] => (results, emit)
  | index :: indices' =>
      if bool_decide (result_at results index = READY)
      then emit_ready indices' frames (<[index := EMITTED]> results) (emit ++ [(frame_at frames index, false)])
      else emit_ready indices' frames results emit
  end.

(** Is the frame beyond the window of an established class? *)
Definition beyond_window (current : class_t) (sequence : Z) : bool :=
  rc_expected_initialized current &&
  negb (_linkg_transport_reorder_sequence_before sequence (rc_expected_sequence current)) &&
  (LINKG_TRANSPORT_REORDER_WINDOW_SIZE <=? u32 (sequence - rc_expected_sequence current)).

(** The loop over [position]; [None] when [fuel] ran out, otherwise the return
    code, the results, [*worker_wakeup] and [*lock_held]. *)
Fixpoint pressure_loop (fuel : nat) (group : linkg_transport_reorder_group) (order : list nat)
    (frames : frames_t) (emit : emit_func) (position : nat) (results : results_t) (worker_wakeup : bool)
    : RM (option (Z * results_t * bool * bool)) :=
  match fuel with
  | O => mret None
  | Datatypes.S fuel' =>
      match order !! position with
      | None => mret (Some (0, results, worker_wakeup, true))
      | Some index =>
          let again position results :=
            pressure_loop fuel' group order frames emit position results in
          let ci := class_index (gr_peer_index group) (gr_traffic_class group) in
          let frame := frame_at frames index in
          let sequence := frame_sequence frame in
          if negb (unprocessed results index) then again (Datatypes.S position) results worker_wakeup
          else
            s ← get;
            stale ← (if negb (rt_running s) then mret true
                     else
                       matches ← peer_epoch_matches (rf_peer frame) (rf_peer_epoch frame);
                       current ← class_read ci;
                       mret (negb matches || (rc_expected_initialized current && other_identity current frame)));
            if (stale : bool) then again (Datatypes.S position) (<[index := STALE]> results) worker_wakeup
            else
              current ← class_read ci;
              when (rc_expected_initialized current && negb (rc_delivery_in_progress current) &&
                    (rc_slot_count current =? 0) &&
                    _linkg_transport_reorder_sequence_before (rc_expected_sequence current) sequence &&
                    (LINKG_TRANSPORT_REORDER_WINDOW_SIZE <=? u32 (sequence - rc_expected_sequence current)))
                (class_write ci (set_expected sequence current)) ;;
              current ← class_read ci;
              if beyond_window current sequence then
                if rc_delivery_in_progress current then
                  self ← _linkg_transport_reorder_self_delivering_locked;
                  if (self : bool)
                  then again (Datatypes.S position) (<[index := OUT_OF_WINDOW]> results) worker_wakeup
                  else
                    ret ← cond_wait;
                    if negb (ret =? 0) then mret (Some (- ret, results, worker_wakeup, true))
                    else again position results worker_wakeup
                else
                  let '(current, output) :=
                    _linkg_transport_reorder_take_pressure_locked (en_self env) current sequence
                      (Z.to_nat LINKG_TRANSPORT_REORDER_EMIT_BATCH_MAX) in
                  class_write ci current ;;
                  if (0 <? length output)%nat then
                    rl ← _linkg_transport_reorder_emit_and_relock emit ((fun f => (f, true)) <$> output);
                    if negb (fst rl =? 0) then mret (Some (fst rl, results, worker_wakeup, snd rl))
                    else again position results worker_wakeup
                  else again position results worker_wakeup
              else
                let partial_base := if rc_expected_initialized current then rc_expected_sequence current
                                    else sequence in
                let '(indices, position') :=
                  select_partial (drop position order) frames results partial_base [] position in
                if (length indices =? 0)%nat then again position results worker_wakeup
                else
                  now_us ← time_monotonic_us;
                  r ← _linkg_transport_reorder_process_group_locked
                        (ReorderGroup indices (gr_peer_index group) (gr_traffic_class group))
                        frames results [] now_us worker_wakeup;
                  let '(results, emitted, worker_wakeup) := r in
                  when worker_wakeup cond_broadcast ;;
                  let '(results, emitted) :=
                    if (length emitted =? 0)%nat then emit_ready indices frames results [] else (results, emitted) in
                  if (0 <? length emitted)%nat then
                    rl ← _linkg_transport_reorder_emit_and_relock emit emitted;
                    if negb (fst rl =? 0) then mret (Some (fst rl, results, worker_wakeup, snd rl))
                    else again position' results worker_wakeup
                  else again position' results worker_wakeup
      end
  end.

Definition _linkg_transport_reorder_process_pressure_group_locked (fuel : nat)
    (group : linkg_transport_reorder_group) (frames : frames_t) (results : results_t) (emit : emit_func)
    (worker_wakeup : bool) : RM (option (Z * results_t * bool * bool)) :=
  pressure_loop fuel group (_linkg_transport_reorder_sort_group group frames) frames emit 0 results worker_wakeup.

(** ** Worker *)

Definition peer_of_class (flat_index : nat) : nat := (flat_index / Z.to_nat LINKG_TRANSPORT_CLASS_COUNT)%nat.

(** The scan from the cursor; returns the output and [*deadline_us]. *)
Fixpoint worker_scan (offsets : list nat) (capacity : nat) (now_us deadline_us : Z) : RM (frames_t * Z) :=
  match offsets with
  | [] => mret ([], deadline_us)
  | offset :: offsets' =>
      s ← get;
      let total := Z.of_nat class_total in
      let flat_index := Z.to_nat (u32 (rt_worker_cursor s + Z.of_nat offset) mod total) in
      current ← class_read flat_index;
      stale ← (if rc_expected_initialized current
               then
                 matches ← peer_epoch_matches (Some (peer_of_class flat_index)) (rc_peer_epoch current);
                 mret (negb matches && negb (rc_delivery_in_progress current))
               else mret false);
      if (stale : bool) then
        _linkg_transport_reorder_clear_class flat_index ;;
        worker_scan offsets' capacity now_us deadline_us
      else
        let '(current, output, deadline_us) :=
          _linkg_transport_reorder_take_worker_class_locked (en_self env) current capacity now_us deadline_us in
        class_write flat_index current ;;
        if (0 <? length output)%nat then
          modify (rset_cursor ((Z.of_nat flat_index + 1) mod total)) ;;
          mret (output, deadline_us)
        else worker_scan offsets' capacity now_us deadline_us
  end.

Definition _linkg_transport_reorder_take_worker_locked (capacity : nat) (now_us deadline_us : Z)
    : RM (frames_t * Z) :=
  worker_scan (seq 0 class_total) capacity now_us deadline_us.

(** The body of the worker's loop: [true] to go on, [false] to leave with the
    lock held, [None] when the lock could not be taken again. *)
Definition worker_round : RM (option bool) :=
  n ← observe;
  s ← get;
  if negb (rt_running s && en_thread_running env n) then mret (Some false)
  else
    now_us ← time_monotonic_us;
    r ← _linkg_transport_reorder_take_worker_locked (Z.to_nat LINKG_TRANSPORT_REORDER_EMIT_BATCH_MAX) now_us 0;
    let '(output, deadline_us) := r in
    if (0 <? length output)%nat then
      _ ← mutex_unlock;
      s ← get;
      emit ← of_option (rt_emit s);
      _linkg_transport_reorder_emit_batch emit ((fun f => (f, true)) <$> output) ;;
      ret ← mutex_lock;
      mret (if ret =? 0 then Some true else None)
    else
      ret ← cond_wait;
      mret (Some (if deadline_us =? 0 then ret =? 0 else (ret =? 0) || (ret =? ETIMEDOUT))).

(** [false] when [fuel] ran out. *)
Fixpoint worker_loop (fuel : nat) : RM bool :=
  match fuel with
  | O => mret false
  | Datatypes.S fuel' =>
      r ← worker_round;
      match r with
      | Some true => worker_loop fuel'
      | Some false => _ ← mutex_unlock; mret true
      | None => mret true
      end
  end.

Definition _linkg_transport_reorder_worker (fuel : nat) : RM bool :=
  ret ← mutex_lock;
  if negb (ret =? 0) then mret true else worker_loop fuel.

(** ** Life cycle *)

Definition linkg_transport_reorder_is_worker_thread : RM bool :=
  s ← get;
  mret (if negb (rt_initialized s) || negb (rt_thread_started s) then false
        else en_self env =? rt_thread_tid s).

Definition linkg_transport_reorder_runtime_init (os : reorder_os) (emit : option emit_func) : RM Z :=
  match emit with
  | None => mret (- EINVAL)
  | Some _ =>
      s ← get;
      if rt_initialized s then mret (- EALREADY)
      else
        modify reorder_zero ;;
        if negb (os_mutex_init os =? 0) then mret (- os_mutex_init os)
        else if negb (os_condattr_init os =? 0) then mret (- os_condattr_init os)
        else
          let ret := if os_condattr_setclock os =? 0 then os_cond_init os else os_condattr_setclock os in
          if negb (ret =? 0) then mret (- ret)
          else if negb (os_thread_init os =? 0) then mret (os_thread_init os)
          else
            modify (rset_flags emit true true) ;;
            if negb (os_thread_start os =? 0)
            then modify (rset_flags None false false) ;; mret (os_thread_start os)
            else modify (rset_thread true (os_thread_tid os)) ;; mret 0
  end.

(** Wait until no class of [select] is being delivered. [None]: out of fuel;
    [Some r]: [r] is 0, or the error with which the caller gives up. *)
Fixpoint wait_idle (fuel : nat) (own_is_deadlock : bool) (select : class_t -> bool) : RM (option Z) :=
  match fuel with
  | O => mret None
  | Datatypes.S fuel' =>
      s ← get;
      match List.find (fun c => select c && rc_delivery_in_progress c) (rt_classes s) with
      | None => mret (Some 0)
      | Some c =>
          if own_is_deadlock && (rc_delivery_thread c =? en_self env) then mret (Some (- EDEADLK))
          else
            ret ← cond_wait;
            if negb (ret =? 0) then mret (Some (- ret)) else wait_idle fuel' own_is_deadlock select
      end
  end.

Fixpoint clear_classes (select : class_t -> bool) (cis : list nat) : RM unit :=
  match cis with
  | [] => mret tt
  | ci :: cis' =>
      c ← class_read ci;
      when (select c) (_linkg_transport_reorder_clear_class ci) ;;
      clear_classes select cis'
  end.

Definition linkg_transport_reorder_runtime_deinit (os : reorder_os) (fuel : nat) : RM (option Z) :=
  s ← get;
  if negb (rt_initialized s) then mret (Some 0)
  else
    worker ← linkg_transport_reorder_is_worker_thread;
    if (worker : bool) then mret (Some (- EDEADLK))
    else
      ret ← mutex_lock;
      if negb (ret =? 0) then mret (Some (- ret))
      else
        modify (fun s => rset_flags (rt_emit s) (rt_initialized s) false s) ;;
        cond_broadcast ;;
        _ ← mutex_unlock;
        if negb (os_thread_stop os =? 0) then mret (Some (os_thread_stop os))
        else
          modify (fun s => rset_thread false (rt_thread_tid s) s) ;;
          ret ← mutex_lock;
          if negb (ret =? 0) then mret (Some (- ret))
          else
            waited ← wait_idle fuel false (fun _ => true);
            match waited with
            | None => mret None
            | Some ret =>
                if negb (ret =? 0) then _ ← mutex_unlock; mret (Some ret)
                else
                  clear_classes (fun _ => true) (seq 0 class_total) ;;
                  _ ← mutex_unlock;
                  modify reorder_zero ;;
                  mret (Some 0)
            end.

Definition linkg_transport_reorder_check_lifecycle_context : RM Z :=
  s ← get;
  if negb (rt_initialized s) then mret (- ENODEV)
  else
    ret ← mutex_lock;
    if negb (ret =? 0) then mret (- ret)
    else
      self ← _linkg_transport_reorder_self_delivering_locked;
      ret ← mutex_unlock;
      mret (if (self : bool) then - EDEADLK else - ret).

Definition class_of_peer (peer_node_id : Z) (c : class_t) : bool :=
  rc_expected_initialized c && (rc_peer_node_id c =? peer_node_id).

Definition linkg_transport_reorder_reset_peer (fuel : nat) (peer_node_id : Z) : RM (option Z) :=
  s ← get;
  if negb (rt_initialized s) then mret (Some (- ENODEV))
  else
    worker ← linkg_transport_reorder_is_worker_thread;
    if (worker : bool) then mret (Some (- EDEADLK))
    else
      ret ← linkg_transport_reorder_check_lifecycle_context;
      if negb (ret =? 0) then mret (Some ret)
      else
        ret ← mutex_lock;
        if negb (ret =? 0) then mret (Some (- ret))
        else
          waited ← wait_idle fuel true (class_of_peer peer_node_id);
          match waited with
          | None => mret None
          | Some ret =>
              if negb (ret =? 0) then _ ← mutex_unlock; mret (Some ret)
              else
                clear_classes (class_of_peer peer_node_id) (seq 0 class_total) ;;
                cond_broadcast ;;
                _ ← mutex_unlock;
                mret (Some 0)
          end.

(** ** Batch reception *)

(** The validation loop: the peer indices, or [None] on an invalid frame. *)
Fixpoint batch_peers (frames : frames_t) : option (list nat) :=
  match frames with
  | [] => Some []
  | frame :: frames' =>
      if bool_decide (rf_packet frame = None) || bool_decide (rf_peer frame = None) ||
         (LINKG_TRANSPORT_CLASS_COUNT <=? u32 (rf_traffic_class frame))
      then None
      else
        let peer_index := _linkg_transport_reorder_peer_index (rf_peer frame) in
        if peer_index <? 0 then None
        else match batch_peers frames' with
             | Some l => Some (Z.to_nat peer_index :: l)
             | None => None
             end
  end.

Fixpoint any_pressure (groups : list linkg_transport_reorder_group) (frames : frames_t) : RM bool :=
  match groups with
  | [] => mret false
  | group :: groups' =>
      p ← _linkg_transport_reorder_group_needs_pressure_locked group frames;
      if (p : bool) then mret true else any_pressure groups' frames
  end.

(** The groups of a batch under pressure, one after the other. [None]: out of
    fuel; the flag is false when the call returns at once with the code. *)
Fixpoint pressure_groups (fuel : nat) (groups : list linkg_transport_reorder_group) (frames : frames_t)
    (emit : emit_func) (results : results_t) (worker_wakeup : bool)
    : RM (option (bool * Z * results_t * bool)) :=
  match groups with
  | [] => mret (Some (true, 0, results, worker_wakeup))
  | group :: groups' =>
      let stop (ret : Z) (results : results_t) (worker_wakeup lock_held : bool) :=
        when lock_held (_ ← mutex_unlock; mret tt) ;;
        mret (Some (false, ret, results, worker_wakeup)) in
      p ← _linkg_transport_reorder_group_needs_pressure_locked group frames;
      if (p : bool) then
        r ← _linkg_transport_reorder_process_pressure_group_locked fuel group frames results emit worker_wakeup;
        match r with
        | None => mret None
        | Some (ret, results, worker_wakeup, lock_held) =>
            if negb (ret =? 0) then stop ret results worker_wakeup lock_held
            else pressure_groups fuel groups' frames emit results worker_wakeup
        end
      else
        now_us ← time_monotonic_us;
        r ← _linkg_transport_reorder_process_group_locked group frames results [] now_us worker_wakeup;
        let '(results, emitted, worker_wakeup) := r in
        if (0 <? length emitted)%nat then
          rl ← _linkg_transport_reorder_emit_and_relock emit emitted;
          if negb (fst rl =? 0) then stop (fst rl) results worker_wakeup (snd rl)
          else pressure_groups fuel groups' frames emit results worker_wakeup
        else pressure_groups fuel groups' frames emit results worker_wakeup
  end.

(** [frames] and [results] are the arrays ([None] for NULL), [results] of at
    least [count] elements. Returns the code and the results, or [None] when the
    pressure loop ran out of fuel. *)
Definition linkg_transport_reorder_submit_batch (fuel : nat) (frames : option frames_t) (count : Z)
    (results : option results_t) : RM (option (Z * option results_t)) :=
  if count =? 0 then mret (Some (0, results))
  else match frames, results with
  | Some frames, Some old =>
      if LINKG_TRANSPORT_REORDER_SUBMIT_BATCH_MAX <? count then mret (Some (- EINVAL, results))
      else
        let n := Z.to_nat count in
        let results := replicate n UNPROCESSED ++ drop n old in
        match batch_peers (take n frames) with
        | None => mret (Some (- EINVAL, Some results))
        | Some peer_indices =>
            ret ← mutex_lock;
            if negb (ret =? 0) then mret (Some (- ret, Some results))
            else
              s ← get;
              if negb (rt_initialized s) || negb (rt_running s)
              then _ ← mutex_unlock; mret (Some (- ENODEV, Some results))
              else
                emit ← of_option (rt_emit s);
                let groups := _linkg_transport_reorder_build_groups frames n peer_indices in
                pressure ← any_pressure groups frames;
                if negb (pressure : bool) then
                  r ← _linkg_transport_reorder_process_batch_locked frames n peer_indices results [] false;
                  let '(results, emitted, worker_wakeup) := r in
                  when worker_wakeup cond_broadcast ;;
                  _ ← mutex_unlock;
                  _linkg_transport_reorder_emit_batch emit emitted ;;
                  mret (Some (0, Some results))
                else
                  r ← pressure_groups fuel groups frames emit results false;
                  match r with
                  | None => mret None
                  | Some (false, ret, results, _) => mret (Some (ret, Some results))
                  | Some (true, _, results, worker_wakeup) =>
                      when worker_wakeup cond_broadcast ;;
                      _ ← mutex_unlock;
                      mret (Some (0, Some results))
                  end
        end
  | _, _ => mret (Some (- EINVAL, results))
  end.

(** ** Completion of a delivery *)

Fixpoint complete_batch_loop (items : list (linkg_transport_reorder_frame * linkg_transport_reorder_result))
    (changed : bool) : RM bool :=
  match items with
  | [] => mret changed
  | (frame, result) :: items' =>
      if negb (bool_decide (result = READY)) then complete_batch_loop items' changed
      else
        let slot_index := _linkg_transport_reorder_peer_index (rf_peer frame) in
        if (slot_index <? 0) || (LINKG_TRANSPORT_CLASS_COUNT <=? u32 (rf_traffic_class frame))
        then complete_batch_loop items' changed
        else
          let ci := class_index (Z.to_nat slot_index) (rf_traffic_class frame) in
          current ← class_read ci;
          if rc_expected_initialized current && negb (other_identity current frame) &&
             rc_delivery_in_progress current
          then class_write ci (end_delivery current) ;; complete_batch_loop items' true
          else complete_batch_loop items' changed
  end.

Definition linkg_transport_reorder_complete_batch (frames : option frames_t) (results : option results_t)
    (count : Z) : RM Z :=
  if count =? 0 then mret 0
  else match frames, results with
  | Some frames, Some results =>
      if LINKG_TRANSPORT_REORDER_SUBMIT_BATCH_MAX <? count then mret (- EINVAL)
      else
        ret ← mutex_lock;
        if negb (ret =? 0) then mret (- ret)
        else
          changed ← complete_batch_loop (take (Z.to_nat count) (zip frames results)) false;
          when changed cond_broadcast ;;
          _ ← mutex_unlock;
          mret 0
  | _, _ => mret (- EINVAL)
  end.

End Reorder.
