(* ===== verification/TransportReorderSafety.v ===== *)
(** * In-order delivery: invariant and safety under interference

    The invariant of the reorder runtime (every window well formed and holding
    only frames of its peer, class and epoch; every buffered packet referenced),
    its preservation by every entry point whatever the other threads do while
    the lock is free, and the accounting of packet references. *)

From stdpp Require Import sorting.
From S2P Require Import Prelude.
From S2P Require Import PacketStore.
From S2P Require Import PacketPool.
From S2P Require Import TransportTypes.
From S2P Require Import TransportReorder.
From S2P Require Import TransportReorderRuntime.

(** ** References held by frames and windows *)

Definition frame_held (f : linkg_transport_reorder_frame) (j : nat) : Z := held_opt (rf_packet f) j.

Definition frames_held (fs : list linkg_transport_reorder_frame) (j : nat) : Z := sumZ (fun f => frame_held f j) fs.

Definition class_held (c : linkg_transport_reorder_class) (j : nat) : Z :=
  sumZ (fun sl => frame_held (rs_frame sl) j) (rc_slots c).

(** References of an emission that still have to be released. *)
Definition owned_held (e : emission) (j : nat) : Z :=
  sumZ (fun x => if snd x : bool then frame_held (fst x) j else 0) e.

Lemma frame_held_range f j : 0 <= frame_held f j <= 1.
Proof. apply held_opt_range. Qed.

Lemma frames_held_app l1 l2 j : frames_held (l1 ++ l2) j = frames_held l1 j + frames_held l2 j.
Proof. apply sumZ_app. Qed.

Lemma frames_held_nonneg l j : 0 <= frames_held l j.
Proof. apply sumZ_nonneg. intros. apply frame_held_range. Qed.

Lemma class_held_nonneg c j : 0 <= class_held c j.
Proof. apply sumZ_nonneg. intros. apply frame_held_range. Qed.

Lemma owned_held_app e1 e2 j : owned_held (e1 ++ e2) j = owned_held e1 j + owned_held e2 j.
Proof. apply sumZ_app. Qed.

Lemma owned_held_all fs j : owned_held ((fun f => (f, true)) <$> fs) j = frames_held fs j.
Proof. unfold owned_held, frames_held. by rewrite sumZ_fmap. Qed.

Lemma owned_held_nonneg e j : 0 <= owned_held e j.
Proof. apply sumZ_nonneg. intros [f b] _. destruct b; [apply frame_held_range|done]. Qed.

Lemma sumZ_perm {A} (f : A -> Z) l1 l2 : l1 ≡ₚ l2 -> sumZ f l1 = sumZ f l2.
Proof. induction 1; cbn; lia. Qed.

Lemma sumZ_indices {A} (f : A -> Z) (d : A) (l : list A) :
  sumZ f l = sumZ (fun i => f (default d (l !! i))) (seq 0 (length l)).
Proof.
  induction l as [|x l IH]; [done|]. cbn [length seq sumZ]. rewrite IH, sumZ_seq_shift. cbn [Nat.add].
  f_equal. by rewrite (sumZ_seq_shift _ 1).
Qed.

(** The numbers of a window, as slot indices, are all the indices. *)
Lemma window_indices N : (fun k => slot_index (u32 k)) <$> seqZ N 64 ≡ₚ seq 0 64.
Proof.
  apply NoDup_Permutation.
  - apply NoDup_fmap_2_strong; [|apply NoDup_seqZ]. intros j k Hj%elem_of_seqZ Hk%elem_of_seqZ.
    by apply (slot_index_inj N).
  - apply NoDup_seq.
  - intros i. rewrite list_elem_of_fmap, elem_of_seq. split.
    + intros (k&->&_). pose proof (slot_index_lt k). lia.
    + intros Hi. destruct (slot_index_surj N i) as (k&Hk&E); [lia|]. exists k. split; [done|].
      by apply elem_of_seqZ.
Qed.

Lemma slot_held_unoccupied sl j : occupied sl = false -> frame_held (rs_frame sl) j = 0.
Proof.
  unfold occupied, frame_held. destruct (rf_packet (rs_frame sl)) as [p|]; [|done].
  by rewrite bool_decide_false.
Qed.

Lemma frames_held_omap (f : Z -> option linkg_transport_reorder_frame) l j :
  frames_held (omap f l) j = sumZ (fun k => match f k with Some x => frame_held x j | None => 0 end) l.
Proof.
  induction l as [|k l IH]; [done|]. cbn [omap list_omap sumZ]. destruct (f k); cbn; by rewrite <- IH.
Qed.

(** The window holds the references of its buffered frames. *)
Lemma class_held_run c N j : class_at c N -> class_held c j = frames_held (buffered_run c N N 64) j.
Proof.
  intros W. unfold class_held. rewrite (sumZ_indices _ slot_zero), (ca_len _ _ W).
  rewrite <- (sumZ_perm _ _ _ (window_indices N)), sumZ_fmap.
  unfold buffered_run. rewrite frames_held_omap. apply sumZ_ext. intros k Hk%elem_of_seqZ.
  change (default slot_zero (rc_slots c !! slot_index (u32 k))) with (class_slot c (slot_index (u32 k))).
  unfold buffered. bsimp. destruct (occupied (class_slot c (slot_index (u32 k)))) eqn:Ho; [done|].
  by rewrite (slot_held_unoccupied _ j Ho).
Qed.

(** Advancing splits the window's contents into the output run and the rest. *)
Lemma run_advanced_all c N c' N' :
  advanced c N c' N' ->
  buffered_run c N N 64 = buffered_run c N N (N' - N) ++ buffered_run c' N' N' 64.
Proof.
  intros A. pose proof (ad_le _ _ _ _ A) as Hle. rewrite (run_advanced c N c' N' 64 A) by lia.
  destruct (decide (N' - N <= 64)).
  - replace 64 with ((N' - N) + (64 - (N' - N))) at 1 by lia. rewrite run_split by lia.
    f_equal. replace (N + (N' - N)) with N' by lia.
    replace 64 with ((64 - (N' - N)) + (N' - N)) at 2 by lia. rewrite run_split by lia.
    rewrite (run_empty _ _ _ (N' - N)); [by rewrite app_nil_r|].
    intros k Hk. apply buffered_out. lia.
  - replace (N' - N) with (64 + (N' - N - 64)) by lia. rewrite run_split by lia.
    rewrite (run_empty c N (N + 64)), (run_empty c N N' 64); [by rewrite !app_nil_r|intros k Hk; apply buffered_out; lia..].
Qed.

(** Advancing takes out exactly the references of the output run. *)
Lemma class_held_advanced c N c' N' j :
  class_at c N -> advanced c N c' N' ->
  class_held c j = frames_held (buffered_run c N N (N' - N)) j + class_held c' j.
Proof.
  intros W A. rewrite (class_held_run c N j W), (class_held_run c' N' j (ad_at _ _ _ _ A)).
  by rewrite (run_advanced_all c N c' N' A), frames_held_app.
Qed.

(** The slot count is the number of buffered frames. *)
Lemma count_run c N : class_at c N -> rc_slot_count c = Z.of_nat (length (buffered_run c N N 64)).
Proof.
  intros W. rewrite (ca_count _ _ W), (sumZ_indices _ slot_zero), (ca_len _ _ W).
  rewrite <- (sumZ_perm _ _ _ (window_indices N)), sumZ_fmap.
  assert (forall l, (forall k, k ∈ l -> N <= k < N + 64) ->
    sumZ (fun k => slot_weight (default slot_zero (rc_slots c !! slot_index (u32 k)))) l =
    Z.of_nat (length (omap (fun k => rs_frame <$> buffered c N k) l))) as H.
  { induction l as [|k l IH]; intros Hl; [done|]. cbn [sumZ omap list_omap].
    change (default slot_zero (rc_slots c !! slot_index (u32 k))) with (class_slot c (slot_index (u32 k))).
    rewrite IH by (intros; apply Hl; by right). specialize (Hl k ltac:(left)).
    unfold buffered at 2, slot_weight. bsimp. destruct (occupied _); cbn [fmap option_fmap option_map length andb]; lia. }
  apply H. intros k Hk%elem_of_seqZ. done.
Qed.

Lemma count_advanced c N c' N' :
  class_at c N -> advanced c N c' N' ->
  rc_slot_count c = Z.of_nat (length (buffered_run c N N (N' - N))) + rc_slot_count c'.
Proof.
  intros W A. rewrite (count_run c N W), (count_run c' N' (ad_at _ _ _ _ A)), (run_advanced_all c N c' N' A), length_app. lia.
Qed.

(** ** The invariant of one class *)

(** The type in the header of a received frame indexes the tables of handlers. *)
Definition type_ok (f : linkg_transport_reorder_frame) : Prop :=
  LINKG_TRANSPORT_TYPE_NONE < th_type (rf_header f) < LINKG_TRANSPORT_TYPE_COUNT.

(** The frame belongs to class [ci] and to the life of the peer that [c] serves. *)
Record frame_of (ci : nat) (c : linkg_transport_reorder_class) (f : linkg_transport_reorder_frame) : Prop := {
  fo_class : 0 <= rf_traffic_class f < LINKG_TRANSPORT_CLASS_COUNT;
  fo_type : type_ok f;
  fo_peer : exists p, rf_peer f = Some p /\ Z.of_nat p < LINKG_TRANSPORT_PEER_MAX /\
    class_index p (rf_traffic_class f) = ci;
  fo_epoch : rf_peer_epoch f = rc_peer_epoch c;
  fo_node : rf_peer_node_id f = rc_peer_node_id c }.

Record class_ok (ci : nat) (c : linkg_transport_reorder_class) : Prop := {
  co_at : exists N, class_at c N;
  co_frames : forall i, occupied (class_slot c i) = true ->
    frame_of ci c (rs_frame (class_slot c i)) /\ 0 < rs_expires_at_us (class_slot c i);
  co_idle : rc_expected_initialized c = false ->
    rc_slot_count c = 0 /\ rc_delivery_in_progress c = false }.

Lemma count_of_empty c N : class_at c N -> (forall k, buffered c N k = None) -> rc_slot_count c = 0.
Proof.
  intros W H. rewrite (ca_count _ _ W), (sumZ_indices _ slot_zero), (ca_len _ _ W).
  rewrite (sumZ_ext _ (fun _ => 0)); [done|].
  intros i Hi. change (default slot_zero (rc_slots c !! i)) with (class_slot c i). unfold slot_weight.
  destruct (occupied (class_slot c i)) eqn:Ho; [|done].
  destruct (occupied_buffered c N i W Ho) as (k&_&_&Hb&_). by rewrite H in Hb.
Qed.

Lemma ok_buffered ci c N k sl :
  class_ok ci c -> class_at c N -> buffered c N k = Some sl ->
  frame_of ci c (rs_frame sl) /\ 0 < rs_expires_at_us sl.
Proof. intros O W (_&<-&Ho)%buffered_Some; [|done]. by apply (co_frames _ _ O). Qed.

Lemma ok_from_buffered ci c N :
  class_at c N ->
  (forall k sl, buffered c N k = Some sl -> frame_of ci c (rs_frame sl) /\ 0 < rs_expires_at_us sl) ->
  (rc_expected_initialized c = false -> rc_slot_count c = 0 /\ rc_delivery_in_progress c = false) ->
  class_ok ci c.
Proof.
  intros W H Hi. split; [by exists N| |done]. intros i Ho.
  destruct (occupied_buffered c N i W Ho) as (k&_&_&Hb&_). by eapply H.
Qed.

Lemma frame_of_same ci c c' f :
  rc_peer_epoch c' = rc_peer_epoch c -> rc_peer_node_id c' = rc_peer_node_id c ->
  frame_of ci c f -> frame_of ci c' f.
Proof. intros E1 E2 []. split; done || congruence. Qed.

Lemma class_ok_advanced ci c N c' N' :
  class_ok ci c -> class_at c N -> advanced c N c' N' ->
  (rc_delivery_in_progress c' = true -> rc_expected_initialized c = true) -> class_ok ci c'.
Proof.
  intros O W [A1 A2 A3 A4 A5 A6] Hd. apply (ok_from_buffered ci c' N' A1).
  - intros k sl. rewrite A3. destruct (k <? N'); [done|]. intros Hb.
    destruct (ok_buffered ci c N k sl O W Hb). split; [by eapply frame_of_same|done].
  - rewrite A6. intros Hi. destruct (co_idle _ _ O Hi) as [Hz _]. split.
    + apply (count_of_empty c' N' A1). intros k. rewrite A3. destruct (k <? N'); [done|]. by apply count_zero.
    + destruct (rc_delivery_in_progress c'); [|done]. rewrite Hd in Hi; done.
Qed.

Lemma class_ok_zero ci : class_ok ci class_zero.
Proof.
  apply (ok_from_buffered ci _ 0); [by apply class_empty_at| |done].
  intros k sl. rewrite (count_zero class_zero 0); [done|by apply class_empty_at|done].
Qed.

Lemma class_ok_end_delivery ci c : class_ok ci c -> class_ok ci (end_delivery c).
Proof.
  intros [[N []] F I]. split.
  - exists N. by split.
  - intros i Ho. destruct (F i Ho) as [[] ?]. by split.
  - intros Hi. split; [by apply I|done].
Qed.

Lemma held_of_empty c N : class_at c N -> rc_slot_count c = 0 -> forall j, class_held c j = 0.
Proof.
  intros W Hz j. rewrite (class_held_run c N) by done. rewrite run_empty; [done|]. intros. by apply count_zero.
Qed.

Lemma class_held_le c N j : class_at c N -> class_held c j <= 64.
Proof.
  intros W. unfold class_held. pose proof (ca_len _ _ W) as L. revert L.
  generalize (rc_slots c). intros l Hl. assert (Z.of_nat (length l) = 64) as <- by lia. clear Hl.
  induction l as [|x l IH]; cbn [sumZ length]; [lia|]. pose proof (frame_held_range (rs_frame x) j). lia.
Qed.

(** ** The invariant of the runtime *)

Lemma class_index_range p tc :
  Z.of_nat p < LINKG_TRANSPORT_PEER_MAX -> 0 <= tc < LINKG_TRANSPORT_CLASS_COUNT ->
  (class_index p tc < class_total)%nat.
Proof. change LINKG_TRANSPORT_PEER_MAX with 16. unfold class_index, LINKG_TRANSPORT_CLASS_COUNT. intros. change class_total with 48%nat. lia. Qed.

Section Invariant.
Context {S : Type} `{PS : PacketStore S}.

Abbreviation runtime := (linkg_transport_reorder_runtime S).
Abbreviation refs_t := (nat -> Z).

(** How the references that belong to neither the caller nor the windows may
    change while the lock is free. Pointwise equality gives exact accounting,
    the full relation arbitrary interference. *)
Context (step : refs_t -> refs_t -> Prop).

Definition balanced (st : S) (keep theirs : refs_t) : Prop :=
  forall j, ps_refs st j = keep j + theirs j /\ 0 <= theirs j <= 2 ^ 31.

(** The references the windows and one call hold together. *)
Definition emit_room : Z := 2 ^ 30 + 4096.

(** The contract of the emission callback: called with frames whose packets are
    referenced by the caller, it returns and gives back no reference that is not
    its own. *)
Definition emit_ok (emit : linkg_transport_reorder_emit_func_t S) : Prop :=
  forall st fs keep theirs,
    ps_inv st -> balanced st keep theirs -> (forall j, 0 <= keep j <= emit_room) ->
    (forall f, f ∈ fs -> type_ok f /\ exists i, rf_packet f = Some i /\ 0 < keep i) ->
    exists st' theirs', emit fs st = Some (tt, st') /\ ps_inv st' /\
      step theirs theirs' /\ balanced st' keep theirs'.

Definition rheld (s : runtime) (j : nat) : Z := sumZ (fun c => class_held c j) (rt_classes s).

Record reorder_wf (s : runtime) : Prop := {
  rw_inv : ps_inv (rt_store s);
  rw_len : length (rt_classes s) = class_total;
  rw_class : forall ci c, rt_classes s !! ci = Some c -> class_ok ci c;
  rw_running : rt_running s = true -> is_Some (rt_emit s);
  rw_emit : forall e, rt_emit s = Some e -> emit_ok e;
  rw_cursor : 0 <= rt_worker_cursor s < Z.of_nat class_total }.

(** The references are those of the windows, [mine] of the running call and
    [theirs]. *)
Definition guarded (mine theirs : refs_t) (s : runtime) : Prop :=
  reorder_wf s /\ (forall j, 0 <= mine j <= 2 ^ 30) /\
  balanced (rt_store s) (fun j => rheld s j + mine j) theirs.

Lemma rheld_nonneg s j : 0 <= rheld s j.
Proof. apply sumZ_nonneg. intros. apply class_held_nonneg. Qed.

Lemma rheld_le s j : reorder_wf s -> rheld s j <= 64 * Z.of_nat class_total.
Proof.
  intros W. rewrite <- (rw_len _ W). pose proof (rw_class _ W) as Hc. unfold rheld. revert Hc.
  generalize (rt_classes s). intros l Hc.
  assert (forall c, c ∈ l -> class_held c j <= 64) as H.
  { intros c [ci Hci]%list_elem_of_lookup. destruct (co_at _ _ (Hc ci c Hci)) as [N W']. by eapply class_held_le. }
  clear Hc. induction l as [|c l IH]; cbn [sumZ length]; [lia|].
  pose proof (H c ltac:(left)). assert (sumZ (fun c => class_held c j) l <= 64 * Z.of_nat (length l)); [|lia].
  apply IH. intros; apply H. by right.
Qed.

Lemma guarded_room mine theirs s j : guarded mine theirs s -> ps_refs (rt_store s) j <= 3758096384.
Proof.
  intros (W&Hm&Hb). pose proof (rheld_le s j W). destruct (Hb j). specialize (Hm j).
  change (Z.of_nat class_total) with 48 in *. lia.
Qed.

Lemma guarded_mine mine theirs s j : guarded mine theirs s -> mine j <= ps_refs (rt_store s) j.
Proof. intros (W&Hm&Hb). pose proof (rheld_nonneg s j). destruct (Hb j). specialize (Hm j). lia. Qed.

Lemma guarded_same mine theirs s s' :
  rt_store s' = rt_store s -> rt_classes s' = rt_classes s -> rt_emit s' = rt_emit s ->
  rt_running s' = rt_running s -> 0 <= rt_worker_cursor s' < Z.of_nat class_total ->
  guarded mine theirs s -> guarded mine theirs s'.
Proof.
  intros E1 E2 E3 E4 E5 (W&Hm&Hb). split; [|split; [done|]].
  - destruct W as [W1 W2 W3 W4 W5 W6]. split; by rewrite ?E1, ?E2, ?E3, ?E4.
  - unfold rheld. by rewrite E1, E2.
Qed.

Lemma guarded_ghost mine theirs s b t : guarded mine theirs s -> guarded mine theirs (rset_ghost b t s).
Proof. intros G. apply (guarded_same _ _ s); try done. apply G. Qed.

(** One class and the packets change together. *)
Lemma guarded_update mine mine' theirs s ci c c' st' :
  guarded mine theirs s -> rt_classes s !! ci = Some c -> class_ok ci c' -> ps_inv st' ->
  (forall j, 0 <= mine' j <= 2 ^ 30) ->
  (forall j, ps_refs st' j - class_held c' j - mine' j = ps_refs (rt_store s) j - class_held c j - mine j) ->
  guarded mine' theirs (rset_store st' (rset_classes (<[ci := c']> (rt_classes s)) s)).
Proof.
  intros (W&Hm&Hb) Hci Hok Hinv Hm' Hd. pose proof (lookup_lt_Some _ _ _ Hci). split; [|split; [done|]].
  - destruct W as [W1 W2 W3 W4 W5 W6]. split; try done.
    + cbn. by rewrite length_insert.
    + cbn. intros ci' x. rewrite lookup_insert_case by done. case_decide; [|by apply W3].
      intros [= <-]. by subst.
  - intros j. destruct (Hb j) as [B1 B2]. specialize (Hd j). split; [|done].
    unfold rheld. cbn. rewrite (sumZ_insert _ _ _ _ c) by done. unfold rheld in B1. lia.
Qed.

Lemma guarded_write mine mine' theirs s ci c c' :
  guarded mine theirs s -> rt_classes s !! ci = Some c -> class_ok ci c' ->
  (forall j, 0 <= mine' j <= 2 ^ 30) ->
  (forall j, class_held c' j + mine' j = class_held c j + mine j) ->
  guarded mine' theirs (rset_classes (<[ci := c']> (rt_classes s)) s).
Proof.
  intros G Hci Hok Hm Hd.
  pose proof (guarded_update mine mine' theirs s ci c c' (rt_store s) G Hci Hok) as H. destruct s. apply H.
  - apply (rw_inv _ (proj1 G)).
  - done.
  - intros j. specialize (Hd j). cbn. lia.
Qed.

Lemma guarded_class mine theirs s ci :
  guarded mine theirs s -> (ci < class_total)%nat ->
  exists c N, rt_classes s !! ci = Some c /\ class_ok ci c /\ class_at c N.
Proof.
  intros (W&_) Hci. destruct (lookup_lt_is_Some_2 (rt_classes s) ci) as [c Hc]; [by rewrite (rw_len _ W)|].
  pose proof (rw_class _ W ci c Hc) as O. destruct (co_at _ _ O) as [N A]. by exists c, N.
Qed.
End Invariant.

(** ** Verdicts *)

(** Only the frames of [l] got a new result, and no verdict was withdrawn. *)
Record verdicts_kept (l : list nat) (r r' : list linkg_transport_reorder_result) : Prop := {
  vk_len : length r' = length r;
  vk_other : forall j, j ∉ l -> result_at r' j = result_at r j;
  vk_kept : forall j, result_at r j <> UNPROCESSED -> result_at r' j <> UNPROCESSED }.

Lemma verdicts_refl l r : verdicts_kept l r r.
Proof. by split. Qed.

Lemma verdicts_trans l r1 r2 r3 : verdicts_kept l r1 r2 -> verdicts_kept l r2 r3 -> verdicts_kept l r1 r3.
Proof. intros [A1 A2 A3] [B1 B2 B3]. split; [congruence| |auto]. intros j Hj. by rewrite B2, A2. Qed.

Lemma verdicts_weaken l l' r r' : (forall i, i ∈ l -> i ∈ l') -> verdicts_kept l r r' -> verdicts_kept l' r r'.
Proof. intros H []. split; auto. Qed.

Lemma verdicts_insert l r i v :
  i ∈ l -> (i < length r)%nat -> v <> UNPROCESSED -> verdicts_kept l r (<[i := v]> r).
Proof.
  intros Hi Hl Hv. split.
  - by rewrite length_insert.
  - intros j Hj. rewrite result_at_insert by done. by rewrite decide_False by (intros ->; done).
  - intros j Hj. rewrite result_at_insert by done. by case_decide.
Qed.

Lemma verdicts_fold (f : list linkg_transport_reorder_result -> nat -> list linkg_transport_reorder_result) all l r :
  (forall r0 i, i ∈ l -> length r0 = length r -> verdicts_kept all r0 (f r0 i)) ->
  verdicts_kept all r (foldl f r l).
Proof.
  revert r. induction l as [|i l IH]; intros r H; [apply verdicts_refl|]. cbn [foldl].
  pose proof (H r i ltac:(left) eq_refl) as V. eapply verdicts_trans; [exact V|]. apply IH.
  intros r0 j Hj Hl. apply H; [by right|]. by rewrite Hl, (vk_len _ _ _ V).
Qed.

Lemma filtered_verdicts c N num order r r' :
  filtered c N num [] order r r' -> verdicts_kept order r r'.
Proof.
  intros [F1 F2 F3]. split; [done| |].
  - intros j Hj. apply F2. by left.
  - intros j Hj. rewrite F2 by by right. done.
Qed.

Lemma mark_run_verdicts indices frames N n r : verdicts_kept indices r (mark_run indices frames N n r).
Proof.
  destruct (mark_run_weak indices frames N n r) as [L H]. split; [done| |].
  - intros j Hj. by destruct (H j) as [|(?&_)].
  - intros j Hj. destruct (H j) as [->|(_&_&->)]; done.
Qed.

Lemma elem_of_take_in {A} (x : A) n l : x ∈ take n l -> x ∈ l.
Proof. intros (i&Hi&_)%elem_of_take. by eapply list_elem_of_lookup_2. Qed.

Lemma elem_of_drop_in {A} (x : A) n l : x ∈ drop n l -> x ∈ l.
Proof. intros H. rewrite <- (take_drop n l). apply elem_of_app. by right. Qed.

Lemma pending_ext r r' l : (forall j, j ∈ l -> result_at r' j = result_at r j) -> pending r' l = pending r l.
Proof.
  induction l as [|i l IH]; intros H; [done|]. rewrite !pending_cons. unfold unprocessed.
  rewrite H by left. rewrite IH; [done|]. intros; apply H. by right.
Qed.

Lemma mark_ready_spec order n r :
  NoDup order -> (forall i, i ∈ order -> (i < length r)%nat) ->
  let r' := mark_ready order n r in
  verdicts_kept order r r' /\ pending r' order = drop n (pending r order) /\
  (forall i, i ∈ take n (pending r order) -> result_at r' i = READY) /\
  (forall i, i ∉ take n (pending r order) -> result_at r' i = result_at r i).
Proof.
  revert n r. induction order as [|i order IH]; intros n r Hd Hl; cbn zeta.
  { destruct n; cbn; (split; [apply verdicts_refl|]); splits; try done; set_solver. }
  apply NoDup_cons in Hd as [Hi Hd].
  assert (forall r0 : list linkg_transport_reorder_result, length r0 = length r -> forall j, j ∈ order -> (j < length r0)%nat) as Hl'.
  { intros r0 -> j Hj. apply Hl. by right. }
  destruct n as [|n]; cbn [mark_ready].
  { split; [apply verdicts_refl|]. rewrite drop_0. splits; [done| |done]. set_solver. }
  rewrite (pending_cons r). destruct (unprocessed r i) eqn:Eu; cbn [negb].
  - specialize (Hl i ltac:(left)) as Hli.
    destruct (IH n (<[i := READY]> r) Hd) as (V&P&R&O); [apply Hl'; by rewrite length_insert|].
    assert (pending (<[i := READY]> r) order = pending r order) as Ep.
    { apply pending_ext. intros j Hj. rewrite result_at_insert by done.
      by rewrite decide_False by (intros ->; done). }
    rewrite Ep in *.
    assert (i ∉ pending r order) as Hip by (intros [? _]%elem_of_pending; done).
    assert (i ∉ take n (pending r order)) as Hit by (intros H; apply Hip; by eapply elem_of_take_in).
    splits.
    + eapply verdicts_trans; [apply (verdicts_insert (i :: order) r i READY); [left|done|done]|].
      eapply verdicts_weaken; [|exact V]. intros; by right.
    + rewrite pending_cons. replace (unprocessed _ i) with false; [done|]. symmetry. unfold unprocessed.
      apply bool_decide_eq_false. rewrite O by done. rewrite result_at_insert by done. by rewrite decide_True.
    + cbn [take]. intros j [->|Hj]%elem_of_cons; [|by apply R]. rewrite O by done.
      rewrite result_at_insert by done. by rewrite decide_True.
    + cbn [take]. intros j [Hji Hj]%not_elem_of_cons. rewrite O by done. rewrite result_at_insert by done.
      by rewrite decide_False.
  - destruct (IH (Datatypes.S n) r Hd) as (V&P&R&O); [by apply Hl'|]. splits.
    + eapply verdicts_weaken; [|exact V]. intros; by right.
    + rewrite pending_cons. replace (unprocessed _ i) with false; [done|]. symmetry. unfold unprocessed in *.
      rewrite O; [done|]. intros H. apply elem_of_take_in in H. apply elem_of_pending in H as [? _]. done.
    + done.
    + done.
Qed.

Section Safety.
Context {S : Type} `{PS : PacketStore S} {PL : PacketStoreLaws S} (env : reorder_env S).

Abbreviation runtime := (linkg_transport_reorder_runtime S).

(** ** The primitive steps *)

(** The state up to the ghosts. *)
Definition ghost_eq (s s' : runtime) : Prop := exists b t, s' = rset_ghost b t s.

Lemma ghost_refl s : ghost_eq s s.
Proof. exists (rt_broadcasts s), (rt_tick s). by destruct s. Qed.

Lemma ghost_trans s1 s2 s3 : ghost_eq s1 s2 -> ghost_eq s2 s3 -> ghost_eq s1 s3.
Proof. intros (b&t&->) (b'&t'&->). by exists b', t'. Qed.

Lemma wp_observe (Q : nat -> runtime -> Prop) s : (forall n s', ghost_eq s s' -> Q n s') -> wp observe Q s.
Proof. intros H. unfold observe. wstep. apply H. by eexists _, _. Qed.

Lemma wp_epoch (Q : bool -> runtime -> Prop) p e s :
  (forall b s', ghost_eq s s' -> Q b s') -> wp (peer_epoch_matches env p e) Q s.
Proof. intros H. unfold peer_epoch_matches. wstep. apply wp_observe. intros n s' E. wstep. by apply H. Qed.

Lemma wp_unlock (Q : Z -> runtime -> Prop) s :
  (forall r s', ghost_eq s s' -> Q r s') -> wp (mutex_unlock env) Q s.
Proof. intros H. unfold mutex_unlock. wstep. apply wp_observe. intros n s' E. wstep. by apply H. Qed.

Lemma wp_unlock_code (Q : Z -> runtime -> Prop) s :
  (forall n s', ghost_eq s s' -> Q (en_unlock env n) s') -> wp (mutex_unlock env) Q s.
Proof. intros H. unfold mutex_unlock. wstep. apply wp_observe. intros n s' E. wstep. by apply H. Qed.

Lemma wp_broadcast (Q : unit -> runtime -> Prop) s :
  (forall s', ghost_eq s s' -> Q tt s') -> wp cond_broadcast Q s.
Proof. intros H. unfold cond_broadcast. wstep. apply H. by eexists _, _. Qed.

Lemma wp_when_broadcast (b : bool) (Q : unit -> runtime -> Prop) s :
  (forall s', ghost_eq s s' -> Q tt s') -> wp (when b cond_broadcast) Q s.
Proof. intros H. apply wp_when; intros _; [by apply wp_broadcast|apply H, ghost_refl]. Qed.

Lemma wp_class_read (Q : linkg_transport_reorder_class -> runtime -> Prop) ci c s :
  rt_classes s !! ci = Some c -> Q c s -> wp (class_read ci) Q s.
Proof. intros Hc H. unfold class_read. wstep. by eapply wp_of_option. Qed.

Lemma wp_class_write (Q : unit -> runtime -> Prop) ci c c' s :
  rt_classes s !! ci = Some c -> Q tt (rset_classes (<[ci := c']> (rt_classes s)) s) ->
  wp (class_write ci c') Q s.
Proof.
  intros Hc H. unfold class_write. wstep. apply wp_assert; [|done].
  apply bool_decide_eq_true. by eapply lookup_lt_Some.
Qed.

Lemma wp_store {A} (m : M S A) (Q : A -> runtime -> Prop) s a st :
  m (rt_store s) = Some (a, st) -> Q a (rset_store st s) -> wp (reorder_store m) Q s.
Proof. intros E H. unfold reorder_store, wp. by rewrite (zoom_run _ _ _ _ _ _ E). Qed.

(** ** Preparing a group *)

Lemma stale_loop_spec current order frames results valid s :
  (forall i, i ∈ order -> (i < length results)%nat) ->
  wp (stale_loop env current order frames results valid) (fun vr s' =>
    ghost_eq s s' /\ verdicts_kept order results (snd vr) /\
    (forall j, result_at (snd vr) j = result_at results j \/ result_at (snd vr) j = STALE) /\
    (valid = true -> fst vr = true) /\
    (fst vr = false -> forall j, j ∈ order -> result_at (snd vr) j = STALE) /\
    (forall j, j ∈ order -> result_at (snd vr) j = UNPROCESSED -> rc_expected_initialized current = true ->
       other_identity current (frame_at frames j) = false)) s.
Proof.
  revert results valid s. induction order as [|i order IH]; intros results valid s Hl; cbn [stale_loop].
  - apply wp_ret. cbn. splits; [apply ghost_refl|apply verdicts_refl|auto|done|set_solver|set_solver].
  - wstep. apply wp_epoch. intros b s1 G1. specialize (Hl i ltac:(left)) as Hi.
    destruct (negb b || _) eqn:Et.
    + eapply wp_mono; [apply IH; intros j Hj; rewrite length_insert; apply Hl; by right|].
      intros [v r] s2 (G2&V&R&Dt&D&I). cbn [fst snd] in *.
      assert (forall j, result_at r j = result_at results j \/ result_at r j = STALE) as R'.
      { intros j. destruct (R j) as [->|]; [|by right]. rewrite result_at_insert by done. case_decide; auto. }
      assert (result_at r i = STALE) as Ei.
      { destruct (R i) as [->|]; [|done]. rewrite result_at_insert by done. by rewrite decide_True. }
      splits; [by eapply ghost_trans| |done|auto| |].
      * eapply verdicts_trans; [apply (verdicts_insert (i :: order) _ i STALE); [left|done|done]|].
        eapply verdicts_weaken; [|exact V]. intros; by right.
      * intros Hf j [->|Hj]%elem_of_cons; auto.
      * intros j [->|Hj]%elem_of_cons; [congruence|auto].
    + eapply wp_mono; [apply IH; intros j Hj; apply Hl; by right|].
      intros [v r] s2 (G2&V&R&Dt&D&I). cbn [fst snd] in *. splits; [by eapply ghost_trans| |done|auto| |].
      * eapply verdicts_weaken; [|exact V]. intros; by right.
      * intros Hf. by rewrite Dt in Hf.
      * intros j [->|Hj]%elem_of_cons Hu Hini; [|auto]. rewrite Hini in Et. zb. done.
Qed.

(** The frame's place: its peer and class are those of class [ci]. *)
Record placed (ci : nat) (f : linkg_transport_reorder_frame) : Prop := {
  pl_class : 0 <= rf_traffic_class f < LINKG_TRANSPORT_CLASS_COUNT;
  pl_type : type_ok f;
  pl_peer : exists p, rf_peer f = Some p /\ Z.of_nat p < LINKG_TRANSPORT_PEER_MAX /\
    class_index p (rf_traffic_class f) = ci;
  pl_sequence : in_range 32 (frame_sequence f) }.

Lemma placed_frame_of ci c f : placed ci f -> other_identity c f = false -> frame_of ci c f.
Proof. intros [A T B _] E. unfold other_identity in E. zb. by split. Qed.

Definition prepared (ci : nat) (c : linkg_transport_reorder_class) (order : list nat)
    (frames : list linkg_transport_reorder_frame) (c' : linkg_transport_reorder_class)
    (r : list linkg_transport_reorder_result) : Prop :=
  class_ok ci c' /\ rc_slots c' = rc_slots c /\ rc_delivery_in_progress c' = rc_delivery_in_progress c /\
  (rc_expected_initialized c = true -> c' = c) /\
  forall j, j ∈ order -> result_at r j = UNPROCESSED ->
    frame_of ci c' (frame_at frames j) /\ rc_expected_initialized c' = true.

Lemma mark_all_spec order r :
  (forall i, i ∈ order -> (i < length r)%nat) ->
  verdicts_kept order r (mark_all order r) /\ (forall j, j ∈ order -> result_at (mark_all order r) j = STALE).
Proof.
  intros Hl. unfold mark_all. split.
  { apply verdicts_fold. intros r0 i Hi E. apply verdicts_insert; [done|rewrite E; by apply Hl|done]. }
  assert (forall l r, (forall i, i ∈ l -> (i < length r)%nat) ->
    forall j, j ∈ l \/ result_at r j = STALE -> result_at (foldl (fun r i => <[i := STALE]> r) r l) j = STALE) as H.
  { clear. intros l. induction l as [|i l IH]; intros r Hl j Hj; [destruct Hj; [set_solver|done]|]. cbn [foldl].
    apply IH; [intros; rewrite length_insert; apply Hl; by right|].
    rewrite result_at_insert by (apply Hl; left). case_decide; [by right|].
    destruct Hj as [[->|]%elem_of_cons|]; [done|by left|by right]. }
  intros j Hj. apply H; [done|by left].
Qed.

Lemma mark_others_spec c order frames r :
  (forall i, i ∈ order -> (i < length r)%nat) ->
  verdicts_kept order r (mark_others c order frames r) /\
  (forall j, result_at (mark_others c order frames r) j = result_at r j \/
             result_at (mark_others c order frames r) j = STALE) /\
  (forall j, j ∈ order -> result_at (mark_others c order frames r) j = UNPROCESSED ->
     other_identity c (frame_at frames j) = false).
Proof.
  unfold mark_others. revert r. induction order as [|i order IH]; intros r Hl; cbn [foldl].
  { splits; [apply verdicts_refl|auto|set_solver]. }
  specialize (Hl i ltac:(left)) as Hi.
  set (r1 := if unprocessed r i && other_identity c (frame_at frames i) then <[i := STALE]> r else r).
  assert (length r1 = length r) as L1 by (unfold r1; case_match; [by rewrite length_insert|done]).
  assert (verdicts_kept (i :: order) r r1) as V1.
  { unfold r1. case_match; [|apply verdicts_refl]. apply verdicts_insert; [left|done|done]. }
  assert (forall j, result_at r1 j = result_at r j \/ result_at r1 j = STALE) as E1.
  { intros j. unfold r1. case_match; [|by left]. rewrite result_at_insert by done. case_decide; auto. }
  destruct (IH r1) as (V2&E2&O2); [intros j Hj; rewrite L1; apply Hl; by right|].
  set (r2 := foldl _ r1 order) in *. splits.
  - eapply verdicts_trans; [exact V1|]. eapply verdicts_weaken; [|exact V2]. intros; by right.
  - intros j. destruct (E2 j) as [->|]; auto.
  - intros j [->|Hj]%elem_of_cons Hu; [|auto]. destruct (E2 i) as [E|E]; [|congruence]. rewrite Hu in E.
    unfold r1 in E. destruct (unprocessed r i) eqn:Eu; cbn [andb] in E.
    + destruct (other_identity c (frame_at frames i)); [|done]. rewrite result_at_insert in E by done.
      by rewrite decide_True in E.
    + unfold unprocessed in Eu. by rewrite bool_decide_true in Eu.
Qed.

Lemma establish_spec ci c N order frames r :
  class_ok ci c -> class_at c N -> rc_expected_initialized c = false ->
  (forall i, i ∈ order -> placed ci (frame_at frames i)) ->
  let c' := establish c order frames r in
  class_ok ci c' /\ rc_slots c' = rc_slots c /\ rc_delivery_in_progress c' = rc_delivery_in_progress c /\
  ((exists j, j ∈ order /\ result_at r j = UNPROCESSED) -> rc_expected_initialized c' = true).
Proof.
  intros O W Hi Hp. cbn zeta. unfold establish. destruct (co_idle _ _ O Hi) as [Hz Hd].
  destruct (List.find (unprocessed r) order) as [i|] eqn:Ef.
  - apply List.find_some in Ef as [Hin _]. apply list_elem_of_In in Hin.
    destruct (jump_empty c N (frame_sequence (frame_at frames i)) W Hz (pl_sequence _ _ (Hp i Hin))) as (N'&E&A).
    assert (class_at (set_baseline (frame_sequence (frame_at frames i)) (rf_peer_epoch (frame_at frames i))
      (rf_peer_node_id (frame_at frames i)) c) N') as W'.
    { destruct (ad_at _ _ _ _ A). by split. }
    splits; [|done|done|done]. apply (ok_from_buffered ci _ N' W'); [|done].
    intros k sl. rewrite (count_zero _ N' W' Hz k). done.
  - splits; [done..|]. intros (j&Hj&Hu). exfalso. apply list_elem_of_In in Hj. pose proof (List.find_none _ _ Ef j Hj) as Hn.
    unfold unprocessed in Hn. by rewrite bool_decide_true in Hn.
Qed.

Lemma prepare_spec ci c order frames results s :
  class_ok ci c -> (forall i, i ∈ order -> (i < length results)%nat /\ placed ci (frame_at frames i)) ->
  wp (_linkg_transport_reorder_prepare_group_locked env c order frames results) (fun x s' =>
    let '(v, c', r) := x in
    ghost_eq s s' /\ verdicts_kept order results r /\
    (forall j, result_at r j = result_at results j \/ result_at r j = STALE) /\
    if (v : bool) then prepared ci c order frames c' r else forall j, j ∈ order -> result_at r j = STALE) s.
Proof.
  intros O Hf. unfold _linkg_transport_reorder_prepare_group_locked. wstep.
  eapply wp_mono; [apply stale_loop_spec; intros i Hi; by apply Hf|].
  intros [v r] s1 (G&V&R&_&D&I). cbn [fst snd] in *.
  assert (forall i, i ∈ order -> (i < length r)%nat) as Hl.
  { intros i Hi. rewrite (vk_len _ _ _ V). by apply Hf. }
  destruct v; cbn [negb]; [|by apply wp_ret; splits; auto].
  destruct (rc_expected_initialized c) eqn:Hi.
  { apply wp_ret. splits; [done..|]. split; [done|]. splits; [done..|]. intros j Hj Hu. split; [|done].
    apply placed_frame_of; [by apply Hf|auto]. }
  destruct (co_idle _ _ O Hi) as [-> ->]. cbn [Z.eqb negb orb]. apply wp_ret.
  destruct (co_at _ _ O) as [N W].
  destruct (establish_spec ci c N order frames r O W Hi) as (O'&Sl&Dl&Ini); [intros i Hi'; by apply Hf|].
  destruct (mark_others_spec (establish c order frames r) order frames r Hl) as (V2&E2&I2).
  splits; [done|by eapply verdicts_trans|intros j; destruct (E2 j) as [->|]; auto|]. split; [done|]. splits; [done|done|congruence|].
  intros j Hj Hu. split; [apply placed_frame_of; [by apply Hf|auto]|].
  apply Ini. exists j. split; [done|]. destruct (E2 j); congruence.
Qed.

(** ** Caching *)

(** The fields of a class that caching and taking leave alone. *)
Record same_life (c c' : linkg_transport_reorder_class) : Prop := {
  sl_epoch : rc_peer_epoch c' = rc_peer_epoch c;
  sl_node : rc_peer_node_id c' = rc_peer_node_id c;
  sl_init : rc_expected_initialized c' = rc_expected_initialized c }.

Lemma put_held c N k sl j :
  class_at c N -> N <= k < N + 64 -> buffered c N k = None ->
  class_held (set_slots (<[slot_index (u32 k) := sl]> (rc_slots c)) (u32 (rc_slot_count c + 1)) c) j =
    class_held c j + frame_held (rs_frame sl) j.
Proof.
  intros W Hk Hb. pose proof (slot_index_lt k) as Hlt. pose proof (buffered_occupied c N k Hk) as Ho.
  rewrite Hb, bool_decide_false in Ho by by intros [? ?].
  destruct (lookup_lt_is_Some_2 (rc_slots c) (slot_index (u32 k))) as [x Hx]; [by rewrite (ca_len _ _ W)|].
  unfold class_held. cbn. rewrite (sumZ_insert _ _ _ _ x) by done.
  unfold class_slot in Ho. rewrite Hx in Ho. cbn in Ho. rewrite (slot_held_unoccupied x) by done. lia.
Qed.

(** What it takes to cache the frames [l] in the window at [N]. *)
Record cacheable (ci : nat) (c : linkg_transport_reorder_class) (N : Z) (num : nat -> Z)
    (frames : list linkg_transport_reorder_frame) (l : list nat) : Prop := {
  ch_ok : class_ok ci c;
  ch_at : class_at c N;
  ch_frame : forall i, i ∈ l -> frame_of ci c (frame_at frames i) /\ rc_expected_initialized c = true;
  ch_sequence : forall i, i ∈ l -> frame_sequence (frame_at frames i) = u32 (num i) /\ N <= num i < N + 64;
  ch_free : forall i, i ∈ l -> buffered c N (num i) = None;
  ch_distinct : NoDup (num <$> l) }.

(** The window after caching [l]. *)
Record cached_in (ci : nat) (c : linkg_transport_reorder_class) (N : Z) (num : nat -> Z)
    (frames : list linkg_transport_reorder_frame) (l : list nat) (expires : Z)
    (c' : linkg_transport_reorder_class) : Prop := {
  cd_ok : class_ok ci c';
  cd_at : class_at c' N;
  cd_new : forall i, i ∈ l -> buffered c' N (num i) = Some (ReorderSlot (frame_at frames i) expires);
  cd_old : forall k, k ∉ num <$> l -> buffered c' N k = buffered c N k;
  cd_life : same_life c c';
  cd_delivery : rc_delivery_in_progress c' = rc_delivery_in_progress c;
  cd_thread : rc_delivery_thread c' = rc_delivery_thread c;
  cd_held : forall j, class_held c' j = class_held c j + frames_held (frame_at frames <$> l) j }.

Lemma cached_nil ci c N num frames expires :
  class_ok ci c -> class_at c N -> cached_in ci c N num frames [] expires c.
Proof. intros O W. split; try done; [set_solver|intros j; unfold frames_held; cbn [fmap list_fmap sumZ]; lia]. Qed.

Lemma cache_one ci c N num frames i l expires :
  cacheable ci c N num frames (i :: l) -> is_Some (rf_packet (frame_at frames i)) -> 0 < expires ->
  let c' := set_slots (<[slot_index (frame_sequence (frame_at frames i)) := ReorderSlot (frame_at frames i) expires]>
                         (rc_slots c)) (u32 (rc_slot_count c + 1)) c in
  cacheable ci c' N num frames l /\
  forall c'', cached_in ci c' N num frames l expires c'' -> cached_in ci c N num frames (i :: l) expires c''.
Proof.
  intros [O W Hf Hs Hfree Hd] Hp He. cbn zeta.
  destruct (Hs i ltac:(left)) as [Es Hk], (Hf i ltac:(left)) as [Fi Hi]. rewrite Es.
  apply NoDup_cons in Hd as [Hnew Hd].
  set (sl := ReorderSlot (frame_at frames i) expires).
  destruct (put_spec c N (num i) sl W Hk (Hfree i ltac:(left))) as [W' B']; [|done|].
  { unfold occupied. cbn. destruct Hp as [p ->]. by rewrite bool_decide_false. }
  cbn zeta in W', B'. set (c' := set_slots _ _ c) in *.
  assert (class_ok ci c') as O'.
  { apply (ok_from_buffered ci c' N W').
    - intros k x. rewrite B'. destruct (k =? num i); [intros [= <-]|].
      + split; [|done]. by apply (frame_of_same ci c).
      + intros Hb. destruct (ok_buffered ci c N k x O W Hb). split; [by apply (frame_of_same ci c)|done].
    - change (rc_expected_initialized c' = false) with (rc_expected_initialized c = false). congruence. }
  split.
  - split; [done|done| | | |done].
    + intros j Hj. destruct (Hf j ltac:(by right)) as [Fj _]. split; [by apply (frame_of_same ci c)|done].
    + intros j Hj. apply Hs. by right.
    + intros j Hj. rewrite B'. destruct (Z.eqb_spec (num j) (num i)) as [E|]; [|apply Hfree; by right].
      destruct Hnew. rewrite <- E. by apply list_elem_of_fmap_2.
  - intros c'' [O2 W2 N2 P2 L2 D2 T2 H2]. split; [done|done| | | |done|done|].
    + intros j [->|Hj]%elem_of_cons; [|by apply N2]. rewrite P2 by done. rewrite B'. by rewrite Z.eqb_refl.
    + intros k Hk'. rewrite fmap_cons in Hk'. apply not_elem_of_cons in Hk' as [Hne Hk']. rewrite P2 by done.
      rewrite B'. destruct (Z.eqb_spec k (num i)); [done|done].
    + destruct L2. by split.
    + intros j. rewrite H2. unfold c'. rewrite (put_held c N) by (done || apply Hfree; left).
      change (frames_held (frame_at frames <$> i :: l) j) with
        (frame_held (frame_at frames i) j + frames_held (frame_at frames <$> l) j).
      change (rs_frame sl) with (frame_at frames i). lia.
Qed.

Lemma cache_loop_spec ci N num frames order c results now wait wakeup s :
  let l := pending results order in
  cacheable ci c N num frames l -> NoDup order -> 0 < u64 (now + wait) ->
  (forall i, i ∈ order -> (i < length results)%nat) -> ps_inv (rt_store s) ->
  (forall i, i ∈ l -> exists p, rf_packet (frame_at frames i) = Some p /\ 0 < ps_refs (rt_store s) p) ->
  (forall p, ps_refs (rt_store s) p + Z.of_nat (length l) < ps_room) ->
  wp (cache_loop c order frames results now wait wakeup) (fun x s' =>
    let '(c', r', w') := x in
    exists st', s' = rset_store st' s /\ ps_inv st' /\
      (forall j, ps_refs st' j = ps_refs (rt_store s) j + frames_held (frame_at frames <$> l) j) /\
      cached_in ci c N num frames l (u64 (now + wait)) c' /\ verdicts_kept order results r' /\
      (forall i, i ∈ l -> result_at r' i = CACHED) /\ (forall i, i ∉ l -> result_at r' i = result_at results i) /\
      w' = (wakeup || (0 <? length l)%nat)) s.
Proof.
  cbn zeta. revert c results wakeup s.
  induction order as [|i order IH]; intros c results wakeup s Hc Hd He Hl Hinv Hp Hr; cbn [cache_loop].
  { change (pending results []) with (@nil nat) in *. apply wp_ret. exists (rt_store s). splits; [by destruct s|done|intros j; cbn [fmap list_fmap]; unfold frames_held; cbn [sumZ]; lia| |apply verdicts_refl|set_solver|done|].
    - apply cached_nil; apply Hc.
    - by rewrite orb_false_r. }
  apply NoDup_cons in Hd as [Hio Hd]. rewrite pending_cons in *.
  destruct (unprocessed results i) eqn:Eu; cbn [negb].
  2:{ eapply wp_mono; [apply IH; try done; intros; apply Hl; by right|]. intros [[c' r'] w'] s' (st'&?&?&?&?&V&?).
      exists st'. splits; try done; try tauto. eapply verdicts_weaken; [|exact V]. intros; by right. }
  destruct (Hp i ltac:(left)) as (p&Ep&Hpr). specialize (Hl i ltac:(left)) as Hli.
  destruct (cache_one ci c N num frames i (pending results order) (u64 (now + wait)) Hc) as [Hc' Hup]; [by rewrite Ep|done|].
  destruct (ps_retain_ok (rt_store s) p Hinv) as (st1&E1&I1&R1&_).
  { specialize (Hr p). cbn [length] in Hr. unfold ps_room in *. lia. }
  wstep. rewrite Ep. eapply wp_store; [exact E1|].
  assert (pending (<[i := CACHED]> results) order = pending results order) as Epd.
  { apply pending_ext. intros j Hj. rewrite result_at_insert by done. by rewrite decide_False by (intros ->; done). }
  eapply wp_mono.
  - apply IH; rewrite ?Epd; try done.
    + intros j Hj. rewrite length_insert. apply Hl. by right.
    + intros j Hj. destruct (Hp j ltac:(by right)) as (q&Eq&Hq). exists q. split; [done|].
      cbn. rewrite R1. pose proof (one_ref_range p q). lia.
    + intros q. cbn. rewrite R1. pose proof (one_ref_range p q). specialize (Hr q). cbn [length] in Hr. lia.
  - rewrite Epd. intros [[c' r'] w'] s' (st'&->&I'&R'&C'&V'&Ca'&O'&W'). exists st'. splits; try done.
    + intros j. rewrite R'. cbn [rt_store rset_store]. rewrite R1.
      change (frames_held (frame_at frames <$> i :: pending results order) j) with
        (frame_held (frame_at frames i) j + frames_held (frame_at frames <$> pending results order) j).
      unfold frame_held at 1. rewrite Ep. cbn [held_opt]. lia.
    + by apply Hup.
    + eapply verdicts_trans; [apply (verdicts_insert (i :: order) _ i CACHED); [left|done|done]|].
      eapply verdicts_weaken; [|exact V']. intros; by right.
    + intros j [->|Hj]%elem_of_cons; [|by apply Ca']. rewrite O' by (intros [? _]%elem_of_pending; done).
      rewrite result_at_insert by done. by rewrite decide_True.
    + intros j [Hne Hj]%not_elem_of_cons. rewrite O' by done. rewrite result_at_insert by done.
      by rewrite decide_False.
    + subst w'. cbn. by rewrite orb_true_r.
Qed.

(** ** Sorting keeps the indices, whatever the sequence numbers *)

Lemma sort_shift_perm frames x p y rest :
  exists q, sort_shift frames x (length p) (p ++ y :: rest) = q ++ rest /\ q ≡ₚ p ++ [x].
Proof.
  revert y rest. induction p as [|z p IH] using rev_ind; intros y rest; [by exists [x]|].
  rewrite length_app. cbn [length]. rewrite Nat.add_1_r. cbn [sort_shift].
  rewrite <- app_assoc. cbn [app]. rewrite list_lookup_middle by done. cbn [from_option id].
  assert (forall v, <[Datatypes.S (length p) := v]> (p ++ z :: y :: rest) = p ++ z :: v :: rest) as E.
  { intros v. change (p ++ z :: y :: rest) with (p ++ [z] ++ y :: rest). rewrite app_assoc.
    rewrite (insert_seq_next (p ++ [z])) by (rewrite length_app; cbn; lia). by rewrite <- app_assoc. }
  rewrite !E. destruct (_linkg_transport_reorder_sequence_before _ _).
  - destruct (IH z (z :: rest)) as (q&->&P). exists (q ++ [z]). rewrite <- app_assoc. split; [done|].
    rewrite P. solve_Permutation.
  - exists (p ++ [z; x]). rewrite <- !app_assoc. split; [done|solve_Permutation].
Qed.

Lemma sort_fold_perm frames l p :
  foldl (sort_step frames) (p ++ l) (seq (length p) (length l)) ≡ₚ p ++ l.
Proof.
  revert p. induction l as [|x l IH]; intros p; [done|]. cbn [length seq foldl].
  unfold sort_step at 2. rewrite list_lookup_middle by done. cbn [from_option id].
  destruct (sort_shift_perm frames x p x l) as (q&->&P).
  assert (length q = Datatypes.S (length p)) as Lq by (rewrite P, length_app; cbn; lia).
  rewrite <- Lq, IH, P. solve_Permutation.
Qed.

Lemma sort_group_perm frames g : _linkg_transport_reorder_sort_group g frames ≡ₚ gr_indices g.
Proof.
  unfold _linkg_transport_reorder_sort_group. destruct (negb _); [done|].
  destruct (gr_indices g) as [|x l]; [done|]. cbn [length]. rewrite Nat.sub_1_r. cbn [Nat.pred].
  apply (sort_fold_perm frames l [x]).
Qed.

(** ** The decision on an idle class *)

(** The number of a frame relative to the window's left edge. *)
Definition num_at (frames : list linkg_transport_reorder_frame) (N : Z) (i : nat) : Z :=
  N + i32_of_u32 (u32 (sequence_at frames i - u32 N)).

Lemma near_num_at frames N l :
  (forall i, i ∈ l -> in_range 32 (sequence_at frames i)) -> near frames (num_at frames N) N l.
Proof.
  intros Hr i Hi. specialize (Hr i Hi). unfold num_at. set (q := sequence_at frames i) in *.
  pose proof (wrap_range 32 (q - u32 N) ltac:(lia)) as Hw. unfold in_range in Hw.
  split.
  - assert (u32 (N + i32_of_u32 (u32 (q - u32 N))) = u32 q) as ->.
    { unfold i32_of_u32. unfold wrap in *. rewrite pow32 in *.
      case_match; Z.div_mod_to_equations; lia. }
    symmetry. by apply wrap_small.
  - unfold i32_of_u32. case_match; zb; lia.
Qed.

(** The part of a decision that does not touch the packets: what the filter
    leaves, the ready prefix, and the windows the two branches start from. *)
Record decision (ci : nat) (c : linkg_transport_reorder_class) (N : Z) (num : nat -> Z)
    (frames : list linkg_transport_reorder_frame) (order : list nat)
    (r : list linkg_transport_reorder_result) : Prop := {
  de_filtered : filtered c N num [] order r
    (_linkg_transport_reorder_filter_group_locked c order frames r);
  de_cacheable : cacheable ci c N num frames
    (pending (_linkg_transport_reorder_filter_group_locked c order frames r) order);
  de_prefix : let r' := _linkg_transport_reorder_filter_group_locked c order frames r in
    let k := run_of num N (pending r' order) in
    _linkg_transport_reorder_ready_prefix_locked c order frames r' =
      (k, increasing (take k (pending r' order))) /\
    head_cached (set_expected (u32 (rc_expected_sequence c + Z.of_nat k)) c) =
      bool_decide (is_Some (buffered c N (N + Z.of_nat k))) }.

Lemma run_of_window num N l k :
  (forall i, i ∈ l -> N <= num i < N + 64) -> (k <= run_of num N l)%nat -> Z.of_nat k <= 64.
Proof.
  intros Hw Hk. destruct (decide (run_of num N l = 0%nat)); [lia|].
  assert (N + Z.of_nat (run_of num N l) - 1 ∈ num <$> take (run_of num N l) l) as Hin.
  { rewrite run_of_numbers. apply elem_of_seqZ. lia. }
  apply list_elem_of_fmap in Hin as (i&E&Hi). specialize (Hw i ltac:(by eapply elem_of_take_in)). lia.
Qed.

Lemma head_at c N k :
  class_at c N -> N <= k <= N + 64 ->
  head_cached (set_expected (u32 k) c) = bool_decide (is_Some (buffered c N k)).
Proof.
  intros W Hk. unfold head_cached. cbn [rc_expected_sequence set_expected].
  change (class_slot (set_expected (u32 k) c)) with (class_slot c).
  destruct (decide (k < N + 64)) as [Hlt|Hge].
  - rewrite (buffered_occupied c N k) by lia. destruct (buffered c N k) as [sl|] eqn:Hb.
    + rewrite bool_decide_true by eauto. apply (buffered_Some c N k sl W) in Hb as Hb'. destruct Hb' as (_&->&_).
      by rewrite (buffered_sequence c N k sl W Hb), Z.eqb_refl.
    + rewrite bool_decide_false; [done|]. by intros [? ?].
  - replace k with (N + 64) by lia. rewrite buffered_out by lia. rewrite bool_decide_false by by intros [? ?].
    destruct (occupied _) eqn:Ho; [|done]. cbn [andb].
    destruct (ca_slot _ _ W _ Ho) as (m&Hm&_&->). apply Z.eqb_neq.
    unfold wrap. rewrite pow32. intros E. Z.div_mod_to_equations. lia.
Qed.

Lemma decide_spec ci c N num frames order r :
  class_ok ci c -> class_at c N -> near frames num N order -> NoDup order ->
  (forall i, i ∈ order -> (i < length r)%nat) ->
  (forall i, i ∈ order -> result_at r i = UNPROCESSED ->
     frame_of ci c (frame_at frames i) /\ rc_expected_initialized c = true) ->
  decision ci c N num frames order r.
Proof.
  intros O W Hn Hd Hl Hf. pose proof (filter_group_spec c N num frames order r W Hn Hd Hl) as F.
  set (r' := _linkg_transport_reorder_filter_group_locked c order frames r) in *.
  assert (forall i, i ∈ pending r' order ->
    sequence_at frames i = u32 (num i) /\ N <= num i < N + 64) as Hs.
  { intros i Hi. split; [|by apply (filtered_window F)].
    apply Hn. by apply elem_of_pending in Hi as [? _]. }
  split; [done| |].
  - split; [done|done| | | |].
    + intros i Hi. apply Hf; [by apply elem_of_pending in Hi as [? _]|by apply (filtered_was F)].
    + exact Hs.
    + intros i Hi. by apply (filtered_window F).
    + apply (filtered_nodup F).
  - cbn zeta. fold r'. set (k := run_of num N (pending r' order)).
    unfold _linkg_transport_reorder_ready_prefix_locked. rewrite (ca_expected _ _ W).
    rewrite (prefix_loop_spec frames num r' N order N) by (done || lia). cbn. split; [done|].
    rewrite wrap_add_l. apply head_at; [done|].
    pose proof (run_of_window num N (pending r' order) k ltac:(intros; by apply Hs) ltac:(done)). lia.
Qed.

(** The READY branch: the window moves over the prefix and the rest is cached. *)
Lemma ready_branch ci c N num frames l self :
  cacheable ci c N num frames l -> (0 < run_of num N l)%nat ->
  let k := run_of num N l in
  let c' := set_delivery self (set_expected (u32 (rc_expected_sequence c + Z.of_nat k)) c) in
  advanced c N c' (N + Z.of_nat k) /\ cacheable ci c' (N + Z.of_nat k) num frames (drop k l) /\
  (forall j, class_held c' j = class_held c j).
Proof.
  intros [O W Hf Hs Hfree Hd] Hk. cbn zeta. set (k := run_of num N l) in *.
  assert (forall m, N <= m < N + Z.of_nat k -> buffered c N m = None) as Hnone.
  { intros m Hm. assert (m ∈ num <$> take k l) as Hin by (unfold k; rewrite run_of_numbers; by apply elem_of_seqZ).
    apply list_elem_of_fmap in Hin as (i&->&Hi). apply Hfree. by eapply elem_of_take_in. }
  pose proof (run_of_window num N l k ltac:(intros; by apply Hs) ltac:(done)) as Hk64.
  assert (exists i, i ∈ l) as [i0 Hi0]. { destruct l as [|i0 l']; [cbn in Hk; lia|]. exists i0. left. }
  rewrite (ca_expected _ _ W), wrap_add_l.
  assert (advanced c N (set_delivery self (set_expected (u32 (N + Z.of_nat k)) c)) (N + Z.of_nat k)) as A.
  { apply set_delivery_advanced, skip_advanced; [done|lia|done]. }
  splits; [done| |done]. split.
  - eapply class_ok_advanced; [done|done|exact A|]. intros _. by destruct (Hf i0 Hi0).
  - apply A.
  - intros i Hi. destruct (Hf i ltac:(by eapply elem_of_drop_in)) as [Fi Ei]. split; [by apply (frame_of_same ci c)|done].
  - intros i Hi. destruct (Hs i ltac:(by eapply elem_of_drop_in)) as [Ei Hw]. split; [done|].
    pose proof (run_of_rest num N l i Hd Hi) as Hrest. fold k in Hrest. lia.
  - intros i Hi. rewrite (ad_buffered _ _ _ _ A). destruct (_ <? _); [done|].
    apply Hfree. by eapply elem_of_drop_in.
  - rewrite fmap_drop. rewrite <- (take_drop k (num <$> l)) in Hd. apply NoDup_app in Hd. tauto.
Qed.

(** ** One group *)

Context (step : (nat -> Z) -> (nat -> Z) -> Prop).

(** The input of one group: its frames are the caller's, of the group's class. *)
Record group_ok (mine : nat -> Z) (g : linkg_transport_reorder_group)
    (frames : list linkg_transport_reorder_frame) (n : nat) : Prop := {
  go_index : (class_index (gr_peer_index g) (gr_traffic_class g) < class_total)%nat;
  go_nodup : NoDup (gr_indices g);
  go_frame : forall i, i ∈ gr_indices g -> (i < n)%nat /\
    placed (class_index (gr_peer_index g) (gr_traffic_class g)) (frame_at frames i) /\
    exists p, rf_packet (frame_at frames i) = Some p /\ 0 < mine p }.

(** The fields that only the life cycle changes. *)
Record same_service (s s' : runtime) : Prop := {
  ss_emit : rt_emit s' = rt_emit s;
  ss_running : rt_running s' = rt_running s;
  ss_init : rt_initialized s' = rt_initialized s;
  ss_started : rt_thread_started s' = rt_thread_started s;
  ss_tid : rt_thread_tid s' = rt_thread_tid s;
  ss_cursor : rt_worker_cursor s' = rt_worker_cursor s }.

Lemma ghost_service s s' : ghost_eq s s' -> same_service s s'.
Proof. by intros (b&t&->). Qed.

Lemma service_trans s1 s2 s3 : same_service s1 s2 -> same_service s2 s3 -> same_service s1 s3.
Proof. intros [] []. split; congruence. Qed.

Lemma ghost_guarded M th s s' : ghost_eq s s' -> guarded step M th s -> guarded step M th s'.
Proof. intros (b&t&->). apply guarded_ghost. Qed.

Lemma ghost_classes s s' : ghost_eq s s' -> rt_classes s' = rt_classes s.
Proof. by intros (b&t&->). Qed.

Lemma ghost_store s s' : ghost_eq s s' -> rt_store s' = rt_store s.
Proof. by intros (b&t&->). Qed.

Definition in_flight (M : nat -> Z) (out : list linkg_transport_reorder_frame) (j : nat) : Z :=
  M j + frames_held out j.

(** The frames are being delivered by this thread for the class [ci]. *)
Definition delivered_by (s : runtime) (ci : nat) (f : linkg_transport_reorder_frame) : Prop :=
  exists c, rt_classes s !! ci = Some c /\ frame_of ci c f /\ rc_expected_initialized c = true /\
    rc_delivery_in_progress c = true /\ rc_delivery_thread c = en_self env.

(** A delivery goes on with its thread or is that of this thread. *)
Definition kept_thread (c c' : linkg_transport_reorder_class) : Prop :=
  rc_delivery_in_progress c' = true ->
  rc_delivery_thread c' = en_self env \/
  (rc_delivery_in_progress c = true /\ rc_delivery_thread c' = rc_delivery_thread c).

Record group_post (M theirs : nat -> Z) (g : linkg_transport_reorder_group)
    (frames : list linkg_transport_reorder_frame) (s : runtime) (r : list linkg_transport_reorder_result)
    (e : emission) (s' : runtime) (r' : list linkg_transport_reorder_result)
    (out : list linkg_transport_reorder_frame) : Prop := {
  gq_guarded : guarded step (in_flight M out) theirs s';
  gq_packets : forall f, f ∈ out -> is_Some (rf_packet f) /\
    delivered_by s' (class_index (gr_peer_index g) (gr_traffic_class g)) f;
  gq_room : (length out <= Z.to_nat LINKG_TRANSPORT_REORDER_EMIT_BATCH_MAX - length e)%nat;
  gq_verdicts : verdicts_kept (gr_indices g) r r';
  gq_all : forall i, i ∈ gr_indices g -> result_at r' i <> UNPROCESSED;
  gq_ready : forall i, i ∈ gr_indices g -> result_at r i = UNPROCESSED -> result_at r' i = READY ->
    out = [] /\ delivered_by s' (class_index (gr_peer_index g) (gr_traffic_class g)) (frame_at frames i);
  gq_thread : forall c c', rt_classes s !! class_index (gr_peer_index g) (gr_traffic_class g) = Some c ->
    rt_classes s' !! class_index (gr_peer_index g) (gr_traffic_class g) = Some c' -> kept_thread c c';
  gq_other : forall ci, ci <> class_index (gr_peer_index g) (gr_traffic_class g) ->
    rt_classes s' !! ci = rt_classes s !! ci;
  gq_service : same_service s s' }.

Lemma wait_range c : 0 < _linkg_transport_reorder_wait_us c <= 80000.
Proof. unfold _linkg_transport_reorder_wait_us. repeat case_match; unfold LINKG_TRANSPORT_REORDER_REALTIME_WAIT_US,
  LINKG_TRANSPORT_REORDER_VIDEO_WAIT_US, LINKG_TRANSPORT_REORDER_DATA_WAIT_US; lia. Qed.

Lemma expiry_positive c now : 0 <= now < 2 ^ 63 -> 0 < u64 (now + _linkg_transport_reorder_wait_us c).
Proof. intros H. pose proof (wait_range c). rewrite wrap_small by mlia. lia. Qed.

Lemma frames_held_length l j : frames_held l j <= Z.of_nat (length l).
Proof.
  unfold frames_held. induction l as [|f l IH]; cbn [sumZ length]; [lia|]. pose proof (frame_held_range f j). lia.
Qed.

Lemma in_flight_nil M : forall j, in_flight M [] j = M j.
Proof. intros j. unfold in_flight, frames_held. cbn. lia. Qed.

Lemma guarded_ext M M' theirs s : (forall j, M j = M' j) -> guarded step M theirs s -> guarded step M' theirs s.
Proof.
  intros E (W&Hm&Hb). split; [done|]. split; [intros j; rewrite <- E; apply Hm|].
  intros j. rewrite <- E. apply Hb.
Qed.

(** Caching, after which the class may be written back with [out] taken from
    it. *)
Lemma cache_finish M theirs ci s c0 c1 N num frames order r now tc w :
  guarded step M theirs s -> rt_classes s !! ci = Some c0 ->
  cacheable ci c1 N num frames (pending r order) -> (forall j, class_held c1 j = class_held c0 j) ->
  NoDup order -> 0 <= now < 2 ^ 63 ->
  (forall i, i ∈ order -> (i < length r)%nat /\ exists p, rf_packet (frame_at frames i) = Some p /\ 0 < M p) ->
  (forall j, M j + 64 <= 2 ^ 30) ->
  wp (cache_loop c1 order frames r now (_linkg_transport_reorder_wait_us tc) w) (fun x s' =>
    let '(c2, r', w') := x in
    cached_in ci c1 N num frames (pending r order) (u64 (now + _linkg_transport_reorder_wait_us tc)) c2 /\
    rt_classes s' = rt_classes s /\ same_service s s' /\
    (forall c3 out, class_ok ci c3 -> (length out <= 64)%nat ->
       (forall j, class_held c2 j = frames_held out j + class_held c3 j) ->
       guarded step (in_flight M out) theirs (rset_classes (<[ci := c3]> (rt_classes s')) s')) /\
    verdicts_kept order r r' /\
    (forall i, i ∈ pending r order -> result_at r' i = CACHED) /\
    (forall i, i ∉ pending r order -> result_at r' i = result_at r i)) s.
Proof.
  intros G Hc0 Hc Hh Hd Hnow Hin HM.
  assert (length (pending r order) <= 64)%nat as Hlen.
  { assert (length (num <$> pending r order) <= length (seqZ N 64))%nat as Hle.
    { apply submseteq_length, NoDup_submseteq; [apply Hc|]. intros x (i&->&Hi)%list_elem_of_fmap.
      apply elem_of_seqZ. by apply (ch_sequence _ _ _ _ _ _ Hc). }
    by rewrite length_fmap in Hle. }
  eapply wp_mono.
  - apply (cache_loop_spec ci N num frames order c1 r now (_linkg_transport_reorder_wait_us tc) w s); try done.
    + by apply expiry_positive.
    + intros i Hi. by apply Hin.
    + apply (rw_inv _ _ (proj1 G)).
    + intros i [Hi _]%elem_of_pending. destruct (Hin i Hi) as (_&p&Ep&Hp). exists p. split; [done|].
      pose proof (guarded_mine _ _ _ _ p G). lia.
    + intros p. pose proof (guarded_room _ _ _ _ p G). unfold ps_room. lia.
  - intros [[c2 r'] w'] s' (st'&->&I'&R'&C'&V'&Ca'&O'&_). splits; try done. intros c3 out Ok Hl Hh2.
    change (rset_classes (<[ci := c3]> (rt_classes (rset_store st' s))) (rset_store st' s))
      with (rset_store st' (rset_classes (<[ci := c3]> (rt_classes s)) s)).
    apply (guarded_update step M _ theirs s ci c0); try done.
    + intros j. pose proof (frames_held_length out j). pose proof (frames_held_nonneg out j).
      destruct G as (_&Hm&_). specialize (Hm j). specialize (HM j). unfold in_flight. lia.
    + intros j. rewrite R'. specialize (Hh2 j). rewrite (cd_held _ _ _ _ _ _ _ _ C') in Hh2. rewrite Hh in Hh2.
      unfold in_flight. lia.
Qed.

End Safety.
