(* ===== verification/TransportReorderSubmit.v ===== *)
(** * In-order delivery: the batch entry point under interference

    One group, the emission outside the lock, the pressure loop and
    [linkg_transport_reorder_submit_batch], each with its effect on the
    invariant of TransportReorderSafety, on the packet references and on the
    verdicts, whatever the other threads do while the lock is free. *)

From stdpp Require Import sorting.
From S2P Require Import Prelude.
From S2P Require Import PacketStore.
From S2P Require Import PacketPool.
From S2P Require Import TransportTypes.
From S2P Require Import TransportReorder.
From S2P Require Import TransportReorderRuntime.
From S2P Require Import TransportReorderSafety.

Lemma verdict_range c N num r previous i :
  verdict c N num r previous i <> READY /\ verdict c N num r previous i <> EMITTED.
Proof. unfold verdict. split; repeat case_match; done. Qed.

Lemma filtered_fresh c N num order r r' i v :
  filtered c N num [] order r r' -> v = READY \/ v = EMITTED -> result_at r i <> v -> result_at r' i <> v.
Proof.
  intros F Hv Hr. destruct (decide (i ∈ order)) as [Hi|Hi]; [|by rewrite (fi_other _ _ _ _ _ _ _ F) by auto].
  destruct (decide (result_at r i = UNPROCESSED)) as [Hu|Hu]; [|by rewrite (fi_other _ _ _ _ _ _ _ F) by auto].
  apply list_elem_of_split in Hi as (l&rest&E). rewrite (fi_verdict _ _ _ _ _ _ _ F l i rest E Hu).
  destruct (verdict_range c N num r ([] ++ l) i). by destruct Hv as [->| ->].
Qed.

(** After the filter, a frame of the group is pending or has its verdict. *)
Lemma filtered_pending r order i : i ∈ order -> i ∈ pending r order \/ result_at r i <> UNPROCESSED.
Proof.
  intros Hi. destruct (decide (result_at r i = UNPROCESSED)); [left; by apply elem_of_pending|by right].
Qed.

Section Submit.
Context {S : Type} `{PS : PacketStore S} {PL : PacketStoreLaws S} (env : reorder_env S).
Context (step : (nat -> Z) -> (nat -> Z) -> Prop).

Abbreviation runtime := (linkg_transport_reorder_runtime S).

(** ** One group *)

Lemma run_packets ci c N a n f :
  class_ok ci c -> class_at c N -> f ∈ buffered_run c N a n -> is_Some (rf_packet f) /\ frame_of ci c f.
Proof.
  intros O W Hf. unfold buffered_run in Hf. apply list_elem_of_omap in Hf as (k&_&Hb).
  destruct (buffered c N k) as [sl|] eqn:E; [|done]. injection Hb as <-.
  destruct (ok_buffered ci c N k sl O W E) as [Fr _]. split; [|done].
  apply (buffered_Some c N k sl W) in E as (_&_&Ho). unfold occupied in Ho. zb. by destruct (rf_packet _); eauto.
Qed.

Lemma kept_refl c : kept_thread env c c.
Proof. intros H. right. done. Qed.

Lemma kept_trans c1 c2 c3 : kept_thread env c1 c2 -> kept_thread env c2 c3 -> kept_thread env c1 c3.
Proof.
  intros H1 H2 Hd. destruct (H2 Hd) as [|[Hd2 E2]]; [by left|]. destruct (H1 Hd2) as [E1|[Hd1 E1]]; [left; congruence|].
  right. split; [done|congruence].
Qed.

Lemma kept_idle c c' : rc_delivery_in_progress c' = false -> kept_thread env c c'.
Proof. intros H Hd. congruence. Qed.

Lemma kept_same c c' :
  rc_delivery_in_progress c' = rc_delivery_in_progress c -> rc_delivery_thread c' = rc_delivery_thread c ->
  kept_thread env c c'.
Proof. intros E1 E2 Hd. right. split; congruence. Qed.

(** Taking the contiguous run from a class that delivers nothing. *)
Lemma take_safe ci c N room indices frames r emit :
  class_ok ci c -> class_at c N -> rc_delivery_in_progress c = false ->
  (is_Some (buffered c N N) -> rc_expected_initialized c = true) ->
  exists c' N' n,
    take_loop room (en_self env) indices frames c r emit =
      (c', mark_run indices frames N n r, emit ++ ((fun f => (f, true)) <$> buffered_run c N N (N' - N))) /\
    class_ok ci c' /\ advanced c N c' N' /\ kept_thread env c c' /\
    (length (buffered_run c N N (N' - N)) <= Nat.min room 64)%nat /\
    (forall j, class_held c j = frames_held (buffered_run c N N (N' - N)) j + class_held c' j) /\
    (forall f, f ∈ buffered_run c N N (N' - N) ->
       is_Some (rf_packet f) /\ frame_of ci c' f /\ rc_expected_initialized c' = true /\
       rc_delivery_in_progress c' = true /\ rc_delivery_thread c' = en_self env).
Proof.
  intros O W Hd Hi.
  destruct (take_loop_spec room (en_self env) indices frames c N r emit W) as (c'&N'&E&A&Hroom&Hin&_&Hp&Ht&_).
  pose proof (ad_le _ _ _ _ A) as Hle. exists c', N', (Z.to_nat (N' - N)). rewrite Hd in Hp. cbn [orb] in Hp.
  assert (N < N' -> rc_expected_initialized c = true) as Hini by (intros; apply Hi, Hin; lia).
  assert (N' - N <= 64) as H64.
  { destruct (decide (N' - N <= 64)); [done|]. destruct (Hin (N + 64) ltac:(lia)) as [x Hx].
    rewrite buffered_out in Hx by lia. done. }
  splits; try done.
  - eapply class_ok_advanced; [done|done|exact A|]. rewrite Hp. intros ?%Z.ltb_lt. by apply Hini.
  - intros Hd'. left. apply Ht. rewrite Hp in Hd'. by apply Z.ltb_lt.
  - pose proof (run_length c N N (N' - N) ltac:(lia)). lia.
  - intros j. by apply class_held_advanced.
  - intros f Hf. destruct (decide (N < N')) as [Hlt|].
    2:{ replace (N' - N) with 0 in Hf by lia. by apply elem_of_nil in Hf. }
    destruct (run_packets ci c N _ _ f O W Hf) as [Hpk Fr]. splits; [done| | | |by apply Ht].
    + apply (frame_of_same ci c); [apply A|apply A|done].
    + rewrite (ad_init _ _ _ _ A). by apply Hini.
    + rewrite Hp. by apply Z.ltb_lt.
Qed.

Definition group_class (g : linkg_transport_reorder_group) : nat :=
  class_index (gr_peer_index g) (gr_traffic_class g).

(** The window and the verdicts a group is cached with, from the state in which
    the call found the class [c0]. *)
Record staged (ci : nat) (c0 c : linkg_transport_reorder_class) (N : Z) (num : nat -> Z)
    (frames : list linkg_transport_reorder_frame) (order : list nat)
    (r0 r : list linkg_transport_reorder_result) : Prop := {
  sg_cacheable : cacheable ci c N num frames (pending r order);
  sg_held : forall j, class_held c j = class_held c0 j;
  sg_verdicts : verdicts_kept order r0 r;
  sg_thread : kept_thread env c0 c;
  sg_fresh : forall i, i ∈ order -> result_at r0 i = UNPROCESSED -> result_at r i = READY ->
    rc_delivery_in_progress c = true /\ rc_delivery_thread c = en_self env /\
    frame_of ci c (frame_at frames i) /\ rc_expected_initialized c = true }.

(** What follows the caching: [out] is taken from the window, cached frames of
    the group may become EMITTED; nothing happens during a delivery. *)
Record finishes (ci : nat) (indices : list nat) (c2 : linkg_transport_reorder_class)
    (r2 : list linkg_transport_reorder_result) (e : emission)
    (c3 : linkg_transport_reorder_class) (r3 : list linkg_transport_reorder_result)
    (out : list linkg_transport_reorder_frame) : Prop := {
  fs_busy : rc_delivery_in_progress c2 = true -> c3 = c2 /\ out = [];
  fs_thread : kept_thread env c2 c3;
  fs_ok : class_ok ci c3;
  fs_room : (length out <= Nat.min (Z.to_nat LINKG_TRANSPORT_REORDER_EMIT_BATCH_MAX - length e) 64)%nat;
  fs_held : forall j, class_held c2 j = frames_held out j + class_held c3 j;
  fs_out : forall f, f ∈ out -> is_Some (rf_packet f) /\ frame_of ci c3 f /\
    rc_expected_initialized c3 = true /\ rc_delivery_in_progress c3 = true /\ rc_delivery_thread c3 = en_self env;
  fs_len : length r3 = length r2;
  fs_verdicts : forall i, result_at r3 i = result_at r2 i \/
    (i ∈ indices /\ result_at r2 i = CACHED /\ result_at r3 i = EMITTED) }.

Lemma finish_nothing ci indices c2 r2 e : class_ok ci c2 -> finishes ci indices c2 r2 e c2 r2 [].
Proof.
  intros O. split; try done; auto using kept_refl.
  - cbn. lia.
  - intros f Hf. by apply elem_of_nil in Hf.
Qed.

Lemma finish_take g frames c2 N r2 e :
  class_ok (group_class g) c2 -> class_at c2 N -> rc_delivery_in_progress c2 = false ->
  exists c3 r3 out,
    _linkg_transport_reorder_take_contiguous_locked (en_self env) c2 g frames r2 e =
      (c3, r3, e ++ ((fun f => (f, true)) <$> out)) /\
    finishes (group_class g) (gr_indices g) c2 r2 e c3 r3 out.
Proof.
  intros O W Hd. unfold _linkg_transport_reorder_take_contiguous_locked.
  destruct (take_safe (group_class g) c2 N (Z.to_nat LINKG_TRANSPORT_REORDER_EMIT_BATCH_MAX - length e)
    (gr_indices g) frames r2 e O W Hd) as (c3&N'&n&E&O3&A&Kt&Hl&Hh&Hf).
  { intros [sl Hb]. destruct (rc_expected_initialized c2) eqn:Hi; [done|].
    destruct (co_idle _ _ O Hi) as [Hz _]. by rewrite (count_zero c2 N W Hz) in Hb. }
  exists c3, (mark_run (gr_indices g) frames N n r2), (buffered_run c2 N N (N' - N)). split; [done|].
  destruct (mark_run_weak (gr_indices g) frames N n r2) as [L V]. split; try done. congruence.
Qed.

(** The end of a group: cache what is pending, take the output, write the
    class. *)
Lemma staged_finish M theirs g frames s c0 c N num order r0 r now w e
    (finish : linkg_transport_reorder_class -> list linkg_transport_reorder_result -> emission ->
              linkg_transport_reorder_class * list linkg_transport_reorder_result * emission) :
  guarded step M theirs s -> rt_classes s !! group_class g = Some c0 ->
  staged (group_class g) c0 c N num frames order r0 r -> order ≡ₚ gr_indices g ->
  group_ok M g frames (length r0) -> 0 <= now < 2 ^ 63 -> (forall j, M j + 64 <= 2 ^ 30) ->
  (forall c2 r2, class_ok (group_class g) c2 -> class_at c2 N ->
     rc_delivery_in_progress c2 = rc_delivery_in_progress c ->
     exists c3 r3 out, finish c2 r2 e = (c3, r3, e ++ ((fun f => (f, true)) <$> out)) /\
       finishes (group_class g) (gr_indices g) c2 r2 e c3 r3 out) ->
  wp (x ← _linkg_transport_reorder_cache_group_locked c g order frames r now w;
      let '(c2, r2, w2) := x in
      let '(c3, r3, e3) := finish c2 r2 e in
      class_write (group_class g) c3 ;; mret (r3, e3, w2))
    (fun x s' => let '(r', e', w') := x in
       exists out, e' = e ++ ((fun f => (f, true)) <$> out) /\
         group_post env step M theirs g frames s r0 e s' r' out) s.
Proof.
  intros G Hc0 [Hc Hh Hv Hkt Hfr] Hperm Hg Hnow HM Hfin.
  assert (forall i, i ∈ order <-> i ∈ gr_indices g) as Hin by (intros; by rewrite Hperm).
  unfold _linkg_transport_reorder_cache_group_locked. wstep. eapply wp_mono.
  - apply (cache_finish step M theirs (group_class g) s c0 c N num frames order r now); try done.
    + rewrite Hperm. apply (go_nodup _ _ _ _ Hg).
    + intros i Hi%Hin. rewrite (vk_len _ _ _ Hv). destruct (go_frame _ _ _ _ Hg i Hi) as (?&?&?). done.
  - intros [[c2 r2] w2] s2 (C2&E2&Sv&Hw&V2&Ca&Ot).
    destruct (Hfin c2 r2 (cd_ok _ _ _ _ _ _ _ _ C2) (cd_at _ _ _ _ _ _ _ _ C2) (cd_delivery _ _ _ _ _ _ _ _ C2))
      as (c3&r3&out&->&F).
    assert (forall i, i ∈ gr_indices g -> result_at r2 i <> UNPROCESSED) as Hall.
    { intros i Hi%Hin. destruct (decide (i ∈ pending r order)) as [Hp|Hp]; [by rewrite Ca|]. rewrite Ot by done.
      by destruct (filtered_pending r order i Hi). }
    apply wp_bind. eapply wp_class_write; [rewrite E2; exact Hc0|]. wstep. exists out. split; [done|].
    assert (rt_classes (rset_classes (<[group_class g := c3]> (rt_classes s2)) s2) !! group_class g = Some c3) as Hc3.
    { cbn. rewrite lookup_insert_case; [by rewrite decide_True|]. rewrite E2. by eapply lookup_lt_Some. }
    split.
    + apply Hw; [apply F| |apply F]. pose proof (fs_room _ _ _ _ _ _ _ _ F). lia.
    + intros f Hf. destruct (fs_out _ _ _ _ _ _ _ _ F f Hf) as (?&?&?&?&?). split; [done|]. by exists c3.
    + pose proof (fs_room _ _ _ _ _ _ _ _ F). lia.
    + eapply (verdicts_weaken order); [by intros i Hi%Hin|]. eapply verdicts_trans; [exact Hv|].
      eapply verdicts_trans; [exact V2|]. split; [apply F| |].
      * intros j Hj. destruct (fs_verdicts _ _ _ _ _ _ _ _ F j) as [|(Hj'&_)]; [done|]. by apply Hin in Hj'.
      * intros j Hj. by destruct (fs_verdicts _ _ _ _ _ _ _ _ F j) as [->|(_&_&->)].
    + intros i Hi. by destruct (fs_verdicts _ _ _ _ _ _ _ _ F i) as [->|(_&_&->)]; [apply Hall|].
    + intros i Hi Hu Hr. destruct (fs_verdicts _ _ _ _ _ _ _ _ F i) as [E|(_&_&E)]; [|congruence].
      rewrite E in Hr. apply Hin in Hi. destruct (decide (i ∈ pending r order)) as [Hp|Hp]; [rewrite Ca in Hr; done|].
      rewrite Ot in Hr by done. destruct (Hfr i Hi Hu Hr) as (Hd&Ht&Fr&Hini).
      rewrite <- (cd_delivery _ _ _ _ _ _ _ _ C2) in Hd. destruct (fs_busy _ _ _ _ _ _ _ _ F Hd) as [-> ->].
      split; [done|]. destruct (cd_life _ _ _ _ _ _ _ _ C2) as [L1 L2 L3]. exists c2. split; [done|].
      split; [by apply (frame_of_same _ c)|]. splits; [congruence|done|]. by rewrite (cd_thread _ _ _ _ _ _ _ _ C2).
    + intros x x' Hx Hx'. assert (x = c0) as -> by (unfold group_class in Hc0; congruence).
      assert (x' = c3) as -> by (unfold group_class in *; congruence).
      eapply kept_trans; [exact Hkt|]. eapply kept_trans; [|apply F].
      apply kept_same; [apply (cd_delivery _ _ _ _ _ _ _ _ C2)|apply (cd_thread _ _ _ _ _ _ _ _ C2)].
    + intros ci Hci. cbn. rewrite lookup_insert_case by (rewrite E2; by eapply lookup_lt_Some).
      rewrite decide_False by done. by rewrite E2.
    + eapply service_trans; [exact Sv|]. by split.
Qed.

(** The stage of a group once it is prepared and filtered. *)
Lemma filtered_staged ci c0 c1 N num frames order r0 rp :
  class_ok ci c1 -> (forall j, class_held c1 j = class_held c0 j) ->
  decision ci c1 N num frames order rp ->
  verdicts_kept order r0 rp -> kept_thread env c0 c1 ->
  (forall j, result_at rp j = result_at r0 j \/ result_at rp j = STALE) ->
  staged ci c0 c1 N num frames order r0 (_linkg_transport_reorder_filter_group_locked c1 order frames rp).
Proof.
  intros O Hh D V Hkt Hst. split; [apply D|done| |done|].
  - eapply verdicts_trans; [exact V|]. eapply filtered_verdicts. apply D.
  - intros i Hi Hu Hr. exfalso. revert Hr.
    apply (filtered_fresh c1 N num order rp); [apply D|by left|].
    destruct (Hst i) as [->| ->]; congruence.
Qed.

(** The stage of the fast path: the ready prefix has left the window. *)
Lemma ready_staged ci c0 c1 N num frames order r0 r k :
  staged ci c0 c1 N num frames order r0 r -> NoDup order ->
  (forall i, i ∈ order -> (i < length r0)%nat) -> k = run_of num N (pending r order) -> (0 < k)%nat ->
  (forall i, i ∈ order -> result_at r0 i = UNPROCESSED -> result_at r i <> READY) ->
  staged ci c0 (set_delivery (en_self env) (set_expected (u32 (rc_expected_sequence c1 + Z.of_nat k)) c1))
    (N + Z.of_nat k) num frames order r0 (mark_ready order k r).
Proof.
  intros [Hc Hh V _ _] Hd Hl -> Hk Hnr.
  destruct (ready_branch ci c1 N num frames (pending r order) (en_self env) Hc Hk) as (A&C&H).
  destruct (mark_ready_spec order (run_of num N (pending r order)) r Hd) as (V2&P&R&Ot).
  { intros i Hi. rewrite (vk_len _ _ _ V). by apply Hl. }
  set (k := run_of num N (pending r order)) in *.
  split.
  - by rewrite P.
  - intros j. by rewrite H.
  - by eapply verdicts_trans.
  - intros _. by left.
  - intros i Hi Hu Hr. destruct (decide (i ∈ take k (pending r order))) as [Ht|Ht].
    + apply elem_of_take_in in Ht. destruct (ch_frame _ _ _ _ _ _ Hc i Ht) as [Fr Hini].
      splits; try done. by apply (frame_of_same ci c1).
    + rewrite Ot in Hr by done. by destruct (Hnr i Hi Hu).
Qed.

Lemma rebase_slots c order frames r :
  rc_slots (_linkg_transport_reorder_rebase_empty_locked c order frames r) = rc_slots c.
Proof. unfold _linkg_transport_reorder_rebase_empty_locked. repeat case_match; done. Qed.

Lemma rebase_thread c order frames r :
  rc_delivery_thread (_linkg_transport_reorder_rebase_empty_locked c order frames r) = rc_delivery_thread c.
Proof. unfold _linkg_transport_reorder_rebase_empty_locked. repeat case_match; done. Qed.

(** From a prepared class, possibly rebased, to the stage. *)
Lemma prepared_staged ci c0 c1 c1' N1 N' frames order r0 rp :
  class_ok ci c0 -> prepared ci c0 order frames c1 rp -> class_at c1 N1 -> advanced c1 N1 c1' N' ->
  rc_delivery_in_progress c1' = rc_delivery_in_progress c1 -> rc_delivery_thread c1' = rc_delivery_thread c1 ->
  rc_slots c1' = rc_slots c1 ->
  NoDup order -> (forall i, i ∈ order -> (i < length r0)%nat /\ placed ci (frame_at frames i)) ->
  verdicts_kept order r0 rp ->
  (forall j, result_at rp j = result_at r0 j \/ result_at rp j = STALE) ->
  decision ci c1' N' (num_at frames N') frames order rp /\
  staged ci c0 c1' N' (num_at frames N') frames order r0
    (_linkg_transport_reorder_filter_group_locked c1' order frames rp).
Proof.
  intros O0 (O1&Sl1&D1&Eq1&F1) W1 A Hd Hth Sl Hnd Hord Vp Hst.
  assert (kept_thread env c0 c1') as Hkt.
  { destruct (rc_expected_initialized c0) eqn:Hi0.
    - rewrite Eq1 in Hd, Hth by done. by apply kept_same.
    - apply kept_idle. destruct (co_idle _ _ O0 Hi0). congruence. }
  assert (class_ok ci c1') as O1'.
  { eapply class_ok_advanced; [done|done|exact A|]. rewrite Hd. intros Hp.
    destruct (rc_expected_initialized c1) eqn:Hi; [done|]. destruct (co_idle _ _ O1 Hi). congruence. }
  assert (decision ci c1' N' (num_at frames N') frames order rp) as D.
  { apply decide_spec; [done|apply A| |done| |].
    - apply near_num_at. intros i Hi. apply (pl_sequence ci). by apply Hord.
    - intros i Hi. rewrite (vk_len _ _ _ Vp). by apply Hord.
    - intros i Hi Hu. destruct (F1 i Hi Hu) as [Fr Hi1]. rewrite (ad_init _ _ _ _ A). split; [|done].
      apply (frame_of_same ci c1); [apply A|apply A|done]. }
  split; [done|]. apply filtered_staged; try done. intros j. unfold class_held. by rewrite Sl, Sl1.
Qed.

(** A group whose frames are all stale. *)
Lemma group_refused M theirs g frames s r0 e s' r' :
  guarded step M theirs s -> ghost_eq s s' -> verdicts_kept (gr_indices g) r0 r' ->
  (forall i, i ∈ gr_indices g -> result_at r' i = STALE) ->
  group_post env step M theirs g frames s r0 e s' r' [].
Proof.
  intros G G1 V H. split; try done.
  - eapply guarded_ext; [intros j; symmetry; apply in_flight_nil|by eapply ghost_guarded].
  - intros f Hf. by apply elem_of_nil in Hf.
  - cbn. lia.
  - intros i Hi. by rewrite H.
  - intros i Hi _ Hr. by rewrite H in Hr.
  - intros c c' Hc Hc'. rewrite (ghost_classes _ _ G1) in Hc'. assert (c' = c) as -> by congruence. apply kept_refl.
  - intros ci _. by rewrite (ghost_classes _ _ G1).
  - by apply ghost_service.
Qed.

Lemma group_post_ghost M theirs g frames s s1 r0 e s' r' out :
  ghost_eq s s1 -> group_post env step M theirs g frames s1 r0 e s' r' out ->
  group_post env step M theirs g frames s r0 e s' r' out.
Proof.
  intros G1 []. split; try done.
  - by rewrite <- (ghost_classes _ _ G1).
  - by rewrite <- (ghost_classes _ _ G1).
  - eapply service_trans; [by apply ghost_service|done].
Qed.

Definition group_result M theirs g frames s r0 e
    (x : list linkg_transport_reorder_result * emission * bool) (s' : runtime) : Prop :=
  let '(r', e', w') := x in
  exists out, e' = e ++ ((fun f => (f, true)) <$> out) /\
    group_post env step M theirs g frames s r0 e s' r' out.

Lemma process_group_spec M theirs g frames r0 e now w s :
  guarded step M theirs s -> group_ok M g frames (length r0) -> 0 <= now < 2 ^ 63 ->
  (forall j, M j + 64 <= 2 ^ 30) ->
  wp (_linkg_transport_reorder_process_group_locked env g frames r0 e now w)
    (group_result M theirs g frames s r0 e) s.
Proof.
  intros G Hg Hnow HM. unfold _linkg_transport_reorder_process_group_locked. fold (group_class g).
  destruct (guarded_class step M theirs s (group_class g) G (go_index _ _ _ _ Hg)) as (c0&N0&Hc0&O0&W0).
  set (order := _linkg_transport_reorder_sort_group g frames).
  pose proof (sort_group_perm frames g : order ≡ₚ gr_indices g) as Hperm.
  assert (NoDup order) as Hnd by (rewrite Hperm; apply Hg).
  assert (forall i, i ∈ order -> (i < length r0)%nat /\ placed (group_class g) (frame_at frames i)) as Hord.
  { intros i Hi. rewrite Hperm in Hi. by destruct (go_frame _ _ _ _ Hg i Hi) as (?&?&_). }
  apply wp_bind. eapply wp_class_read; [exact Hc0|]. apply wp_bind.
  eapply wp_mono; [by apply (prepare_spec env (group_class g))|].
  intros [[v c1] rp] s1 (G1&Vp&Hst&Hv).
  eapply (wp_mono _ (group_result M theirs g frames s1 r0 e));
    [|intros [[r' e'] w'] s' (out&->&P); exists out; split; [done|by eapply group_post_ghost]].
  pose proof (ghost_guarded step _ _ _ _ G1 G) as G'.
  assert (rt_classes s1 !! group_class g = Some c0) as Hc0' by by rewrite (ghost_classes _ _ G1).
  destruct v; cbn [negb].
  2:{ apply wp_ret. exists []. rewrite app_nil_r. split; [done|]. apply group_refused; [done|apply ghost_refl| |].
      - eapply verdicts_weaken; [|exact Vp]. intros i Hi. by rewrite <- Hperm.
      - intros i Hi. rewrite <- Hperm in Hi. auto. }
  destruct (co_at _ _ (proj1 Hv)) as [N1 W1].
  destruct (rc_delivery_in_progress c1) eqn:Ed.
  { destruct (prepared_staged _ c0 c1 c1 N1 N1 frames order r0 rp O0 Hv W1 (advanced_refl _ _ W1)) as [D St]; try done.
    apply (staged_finish M theirs g frames s1 c0 c1 N1 (num_at frames N1) order r0
      (_linkg_transport_reorder_filter_group_locked c1 order frames rp) now w e (fun c r e => (c, r, e))); try done.
    intros c2 r2 O2 _ _. exists c2, r2, []. rewrite app_nil_r. split; [done|by apply finish_nothing]. }
  destruct (rebase_any c1 N1 frames order rp W1) as (N2&A&Hd2); [intros i Hi; apply (pl_sequence (group_class g)); by apply Hord|].
  set (c2 := _linkg_transport_reorder_rebase_empty_locked c1 order frames rp) in *.
  destruct (prepared_staged _ c0 c1 c2 N1 N2 frames order r0 rp O0 Hv W1 A Hd2) as [D St]; try done; [apply rebase_thread|apply rebase_slots|].
  destruct (de_prefix _ _ _ _ _ _ _ D) as [-> Hh].
  set (rf := _linkg_transport_reorder_filter_group_locked c2 order frames rp) in *.
  set (k := run_of (num_at frames N2) N2 (pending rf order)) in *.
  destruct ((0 <? k)%nat && _ && _) eqn:Ef.
  - zb.
    apply (staged_finish M theirs g frames s1 c0 _ (N2 + Z.of_nat k) (num_at frames N2) order r0
      (mark_ready order k rf) now w e (fun c r e => (c, r, e))); try done.
    + apply (ready_staged _ c0 c2); [done|done|intros i Hi; by apply Hord|done|by apply Nat.ltb_lt|].
      intros i Hi Hu. eapply (filtered_fresh c2); [apply D|by left|]. destruct (Hst i) as [->| ->]; congruence.
    + intros c3 r3 O3 _ _. exists c3, r3, []. rewrite app_nil_r. split; [done|by apply finish_nothing].
  - apply (staged_finish M theirs g frames s1 c0 c2 N2 (num_at frames N2) order r0 rf now w e
      (fun c r e => _linkg_transport_reorder_take_contiguous_locked (en_self env) c g frames r e)); try done.
    intros c3 r3 O3 W3 E3. apply (finish_take g frames c3 N2); [done|done|congruence].
Qed.

(** ** Emission outside the lock *)

Context `{Hpre : !PreOrder step}.

(** What the other threads may do between an unlock and the next lock. *)
Hypothesis others_ok : forall n mine theirs s, guarded step mine theirs s ->
  exists theirs', step theirs theirs' /\ guarded step mine theirs' (en_others env n s).

(** The state is that of a call with [mine], after some time. *)
Definition held_later (mine theirs : nat -> Z) (s : runtime) : Prop :=
  exists theirs', step theirs theirs' /\ guarded step mine theirs' s.

Lemma later_now (mine theirs : nat -> Z) s : guarded step mine theirs s -> held_later mine theirs s.
Proof. intros G. exists theirs. split; [reflexivity|done]. Qed.

Lemma later_trans (mine theirs theirs' mine' : nat -> Z) s :
  step theirs theirs' -> held_later mine' theirs' s -> held_later mine' theirs s.
Proof. intros H (t&Ht&G). exists t. split; [by etrans|done]. Qed.

Lemma guarded_store mine mine' theirs s st' :
  guarded step mine theirs s -> ps_inv st' -> (forall j, 0 <= mine' j <= 2 ^ 30) ->
  (forall j, ps_refs st' j - mine' j = ps_refs (rt_store s) j - mine j) ->
  guarded step mine' theirs (rset_store st' s).
Proof.
  intros (W&Hm&Hb) Hinv Hm' Hd. split; [|split; [done|]].
  - destruct W. by split.
  - intros j. destruct (Hb j). specialize (Hd j). split; [|done].
    change (rheld (rset_store st' s) j) with (rheld s j). cbn. lia.
Qed.

Lemma wp_lock mine theirs (Q : Z -> runtime -> Prop) s :
  guarded step mine theirs s ->
  (forall r s' theirs', step theirs theirs' -> guarded step mine theirs' s' -> Q r s') ->
  wp (mutex_lock env) Q s.
Proof.
  intros G H. unfold mutex_lock. apply wp_bind, wp_observe. intros n s1 E1.
  pose proof (ghost_guarded step _ _ _ _ E1 G) as G1. apply wp_bind, wp_when; intros _.
  - apply wp_modify, wp_ret. destruct (others_ok n _ _ _ G1) as (t&Ht&G2). by eapply H.
  - apply wp_ret. eapply H; [reflexivity|done].
Qed.

Lemma wp_wait mine theirs (Q : Z -> runtime -> Prop) s :
  guarded step mine theirs s ->
  (forall r s' theirs', step theirs theirs' -> guarded step mine theirs' s' -> Q r s') ->
  wp (cond_wait env) Q s.
Proof.
  intros G H. unfold cond_wait. apply wp_bind, wp_observe. intros n s1 E1.
  apply wp_bind, wp_modify, wp_ret. destruct (others_ok n _ _ _ (ghost_guarded step _ _ _ _ E1 G)) as (t&Ht&G2).
  by eapply H.
Qed.

(** The references held for an emission that still runs. *)
Definition owing (M : nat -> Z) (E : emission) (j : nat) : Z := M j + owned_held E j.

Lemma release_owned_spec M theirs E s :
  (forall j, 0 <= M j) -> guarded step (owing M E) theirs s ->
  wp (release_owned E) (fun _ s' => guarded step M theirs s' /\ rt_classes s' = rt_classes s /\ same_service s s') s.
Proof.
  unfold release_owned. intros HM. revert s. induction E as [|[f b] E IH]; intros s G; cbn [mfor].
  { apply wp_ret. split; [|by split]. eapply guarded_ext; [|done]. intros j. unfold owing, owned_held. cbn. lia. }
  assert (forall j, owing M ((f, b) :: E) j = (if b then frame_held f j else 0) + owing M E j) as Eo.
  { intros j. unfold owing, owned_held. cbn. lia. }
  assert (forall j, 0 <= owing M E j) as Hn.
  { intros j. unfold owing. pose proof (owned_held_nonneg E j). specialize (HM j). lia. }
  apply wp_bind, wp_when; cbn [fst snd]; intros ->.
  2:{ apply IH. eapply guarded_ext; [|exact G]. intros j. rewrite Eo. lia. }
  destruct (release_opt (rt_store s) (rf_packet f)) as (st'&Er&Ir&Rr).
  { apply (rw_inv _ _ (proj1 G)). }
  { intros j. pose proof (guarded_mine _ _ _ _ j G) as H. rewrite Eo in H. specialize (Hn j).
    unfold frame_held in H. lia. }
  eapply wp_store; [exact Er|]. eapply wp_mono; [apply IH|].
  - eapply guarded_store; [exact G|done| |].
    + intros j. destruct G as (_&Hm&_). specialize (Hm j). rewrite Eo in Hm. pose proof (frame_held_range f j).
      specialize (Hn j). lia.
    + intros j. rewrite Eo, Rr. unfold frame_held. lia.
  - intros _ s' (?&?&?). split; [done|]. split; [done|]. eapply service_trans; [|done]. by split.
Qed.

(** ** Completion *)

Lemma find_peer_range p l : find_peer p l = - EINVAL \/ exists i, i ∈ l /\ find_peer p l = Z.of_nat i.
Proof.
  induction l as [|i l IH]; [by left|]. cbn [find_peer]. case_match.
  - right. exists i. split; [left|done].
  - destruct IH as [|(k&?&?)]; [by left|right; exists k; split; [by right|done]].
Qed.

Lemma peer_index_range peer :
  _linkg_transport_reorder_peer_index peer < 0 \/
  0 <= _linkg_transport_reorder_peer_index peer < LINKG_TRANSPORT_PEER_MAX.
Proof.
  destruct peer as [p|]; [|by left]. unfold _linkg_transport_reorder_peer_index.
  destruct (find_peer_range p (nat_upto LINKG_TRANSPORT_PEER_MAX)) as [->|(i&Hi&->)]; [by left|right].
  unfold nat_upto in Hi. apply elem_of_seq in Hi. unfold LINKG_TRANSPORT_PEER_MAX in *. lia.
Qed.

Lemma end_delivery_write M theirs ci c s :
  guarded step M theirs s -> rt_classes s !! ci = Some c ->
  guarded step M theirs (rset_classes (<[ci := end_delivery c]> (rt_classes s)) s).
Proof.
  intros G Hc. apply (guarded_write step M M theirs s ci c); [done|done| |apply G|done].
  apply class_ok_end_delivery. by apply (rw_class _ _ (proj1 G)).
Qed.

Lemma complete_loop_spec M theirs fs changed s :
  guarded step M theirs s -> (forall f, f ∈ fs -> 0 <= rf_traffic_class f < LINKG_TRANSPORT_CLASS_COUNT) ->
  wp (complete_loop fs changed) (fun _ s' => guarded step M theirs s' /\ same_service s s') s.
Proof.
  revert changed s. induction fs as [|f fs IH]; intros changed s G Hf; cbn [complete_loop].
  { apply wp_ret. split; [done|by split]. }
  assert (forall f, f ∈ fs -> 0 <= rf_traffic_class f < LINKG_TRANSPORT_CLASS_COUNT) as Hf' by (intros; apply Hf; by right).
  destruct (peer_index_range (rf_peer f)) as [Hp|Hp].
  { replace (_ <? 0) with true by (symmetry; by apply Z.ltb_lt). by apply IH. }
  replace (_ <? 0) with false by (symmetry; apply Z.ltb_ge; lia).
  destruct (guarded_class step M theirs s (class_index (Z.to_nat (_linkg_transport_reorder_peer_index (rf_peer f))) (rf_traffic_class f)) G)
    as (c&N&Hc&_&_); [apply class_index_range; [lia|apply Hf; left]|].
  apply wp_bind. eapply wp_class_read; [exact Hc|]. case_match; [|by apply IH].
  apply wp_bind. eapply wp_class_write; [exact Hc|]. eapply wp_mono; [apply IH; [by apply end_delivery_write|done]|].
  intros _ s' [? Sv]. split; [done|]. eapply service_trans; [|exact Sv]. by split.
Qed.

(** The frames of an emission can be handed to the callback. *)
Definition emittable (M : nat -> Z) (E : emission) : Prop :=
  forall x, x ∈ E -> 0 <= rf_traffic_class (fst x) < LINKG_TRANSPORT_CLASS_COUNT /\ type_ok (fst x) /\
    exists p, rf_packet (fst x) = Some p /\ 0 < owing M E p.

(** The call of the callback. *)
Lemma call_emit M theirs emit E s :
  (forall j, 0 <= M j) -> emit_ok step emit -> guarded step (owing M E) theirs s -> emittable M E ->
  exists st' theirs', emit (fst <$> E) (rt_store s) = Some (tt, st') /\ step theirs theirs' /\
    guarded step (owing M E) theirs' (rset_store st' s).
Proof.
  intros HM He (W&Hm&Hb) Hf.
  destruct (He (rt_store s) (fst <$> E) (fun j => rheld s j + owing M E j) theirs (rw_inv _ _ W) Hb)
    as (st'&theirs'&Es&Is&Ht&Hb').
  - intros j. pose proof (rheld_nonneg s j). pose proof (rheld_le _ s j W). specialize (Hm j). unfold emit_room.
    change (Z.of_nat class_total) with 48 in *. lia.
  - intros f (y&->&Hy)%list_elem_of_fmap. destruct (Hf y Hy) as (_&Ty&p&Ep&Hp). split; [done|]. exists p. split; [done|].
    pose proof (rheld_nonneg s p). lia.
  - exists st', theirs'. split; [done|]. split; [done|]. split; [|split; [done|exact Hb']]. destruct W. by split.
Qed.

Lemma emit_batch_spec M theirs emit E s :
  (forall j, 0 <= M j) -> emit_ok step emit -> guarded step (owing M E) theirs s -> emittable M E ->
  wp (_linkg_transport_reorder_emit_batch env emit E) (fun _ s' => held_later M theirs s') s.
Proof.
  intros HM He G Hf. unfold _linkg_transport_reorder_emit_batch. destruct E as [|x E].
  { apply wp_ret, later_now. eapply guarded_ext; [|done]. intros j. unfold owing, owned_held. cbn. lia. }
  set (fr := x :: E) in *. destruct (call_emit M theirs emit fr s HM He G Hf) as (st'&theirs'&Es&Ht&G1).
  apply wp_bind. eapply wp_store; [exact Es|].
  apply wp_bind. eapply wp_mono; [by apply release_owned_spec|]. intros [] s2 (G2&_&_).
  apply wp_bind. apply (wp_lock _ _ _ _ G2). intros r s3 t3 Ht3 G3.
  case_match; [apply wp_ret; exists t3; split; [by etrans|done]|].
  apply wp_bind. unfold _linkg_transport_reorder_complete_emit_locked. apply wp_bind.
  eapply wp_mono; [apply complete_loop_spec; [exact G3|]|].
  { intros f (y&->&Hy)%list_elem_of_fmap. by apply Hf. }
  intros ch s4 [G4 _]. apply wp_when_broadcast. intros s5 E5. apply wp_bind, wp_unlock. intros r' s6 E6.
  apply wp_ret. exists t3. split; [by etrans|].
  by apply (ghost_guarded step _ _ _ _ E6), (ghost_guarded step _ _ _ _ E5).
Qed.

(** A call that failed because the lock could not be released may leave
    references behind, never too few. *)
Definition settled (M theirs : nat -> Z) (code : Z) (s : runtime) : Prop :=
  (code = 0 \/ (forall n, en_unlock env n = 0) -> held_later M theirs s) /\
  exists leak, (forall j : nat, 0 <= leak j) /\ held_later (fun j => M j + leak j) theirs s.

Lemma settled_later M theirs code s : held_later M theirs s -> settled M theirs code s.
Proof.
  intros (t&Ht&G). split; [by exists t|]. exists (fun _ => 0). split; [done|]. exists t. split; [done|].
  eapply guarded_ext; [|exact G]. intros j. cbn. lia.
Qed.

Lemma settled_trans M theirs theirs' code s :
  step theirs theirs' -> settled M theirs' code s -> settled M theirs code s.
Proof.
  intros H [H1 (leak&Hl&H2)]. split; [intros Hc; eapply later_trans; eauto|].
  exists leak. split; [done|by eapply later_trans].
Qed.

Lemma emit_and_relock_spec M theirs emit E s :
  (forall j, 0 <= M j) -> emit_ok step emit -> guarded step (owing M E) theirs s -> emittable M E ->
  wp (_linkg_transport_reorder_emit_and_relock env emit E) (fun rl s' => settled M theirs (fst rl) s') s.
Proof.
  intros HM He G Hf. unfold _linkg_transport_reorder_emit_and_relock.
  apply wp_bind, wp_unlock_code. intros n s1 E1. pose proof (ghost_guarded step _ _ _ _ E1 G) as G1.
  destruct (Z.eqb_spec (en_unlock env n) 0) as [->|Hr]; cbn [negb].
  - apply wp_bind. eapply wp_mono; [by apply emit_batch_spec|]. intros [] s2 (t2&Ht2&G2).
    apply wp_bind. apply (wp_lock _ _ _ _ G2). intros r s3 t3 Ht3 G3.
    assert (held_later M theirs s3) as Hl by (exists t3; split; [by etrans|done]).
    case_match; apply wp_ret; by apply settled_later.
  - apply wp_ret. split; [intros [Hz|Hz]; [cbn in Hz; lia|by rewrite Hz in Hr]|]. exists (owned_held E). split; [apply owned_held_nonneg|]. by apply later_now.
Qed.

(** ** What the emission of a group or of a window looks like *)

Lemma in_flight_owing M out j : in_flight M out j = owing M ((fun f => (f, true)) <$> out) j.
Proof. unfold in_flight, owing. by rewrite owned_held_all. Qed.

Lemma frames_held_in f fs p : f ∈ fs -> rf_packet f = Some p -> 0 < frames_held fs p.
Proof.
  intros Hf Ep. induction fs as [|y fs IH]; [by apply elem_of_nil in Hf|].
  change (frames_held (y :: fs) p) with (frame_held y p + frames_held fs p).
  apply elem_of_cons in Hf as [->|Hf].
  - pose proof (frames_held_nonneg fs p). unfold frame_held. rewrite Ep. cbn.
    rewrite one_ref_same. lia.
  - specialize (IH Hf). pose proof (frame_held_range y p). lia.
Qed.

Lemma emittable_owned M out :
  (forall j, 0 <= M j) ->
  (forall f, f ∈ out -> is_Some (rf_packet f) /\ 0 <= rf_traffic_class f < LINKG_TRANSPORT_CLASS_COUNT /\ type_ok f) ->
  emittable M ((fun f => (f, true)) <$> out).
Proof.
  intros HM H x (f&->&Hf)%list_elem_of_fmap. destruct (H f Hf) as ([p Ep]&Hc&Ht). split; [done|]. split; [done|].
  exists p. split; [done|]. unfold owing. rewrite owned_held_all.
  pose proof (frames_held_in f out p Hf Ep). specialize (HM p). lia.
Qed.

Lemma delivered_class s ci f : delivered_by env s ci f -> 0 <= rf_traffic_class f < LINKG_TRANSPORT_CLASS_COUNT /\ type_ok f.
Proof. intros (c&_&F&_). split; apply F. Qed.

(** The emission after one group. *)
Lemma group_emits M theirs g frames s r0 e s' r' out :
  (forall j, 0 <= M j) -> group_post env step M theirs g frames s r0 e s' r' out ->
  guarded step (owing M ((fun f => (f, true)) <$> out)) theirs s' /\
  emittable M ((fun f => (f, true)) <$> out).
Proof.
  intros HM P. split.
  - eapply guarded_ext; [intros j; apply in_flight_owing|apply P].
  - apply emittable_owned; [done|]. intros f Hf. destruct (gq_packets _ _ _ _ _ _ _ _ _ _ _ _ P f Hf) as [Hp Hd].
    split; [done|]. by eapply delivered_class.
Qed.

(** Emit if there is something to emit, then go on. *)
Lemma emit_then {A} M theirs emit E (fail : Z * bool -> Prelude.M runtime A) (k : Prelude.M runtime A) (Q : A -> runtime -> Prop) s :
  (forall j, 0 <= M j) -> emit_ok step emit -> guarded step (owing M E) theirs s -> emittable M E ->
  (forall s', held_later M theirs s' -> wp k Q s') ->
  (forall rl s', fst rl <> 0 -> settled M theirs (fst rl) s' -> wp (fail rl) Q s') ->
  wp (if (0 <? length E)%nat
      then rl ← _linkg_transport_reorder_emit_and_relock env emit E;
           if negb (fst rl =? 0) then fail rl else k
      else k) Q s.
Proof.
  intros HM He G Hf Hk Hfail. destruct (Nat.ltb_spec 0 (length E)) as [_|Hl].
  - apply wp_bind. eapply wp_mono; [by apply emit_and_relock_spec|]. intros rl s' Hs.
    destruct (Z.eqb_spec (fst rl) 0) as [Hz|Hz]; cbn [negb]; [by apply Hk, (proj1 Hs); left|auto].
  - destruct E; [|cbn in Hl; lia]. apply Hk, later_now. eapply guarded_ext; [|exact G].
    intros j. unfold owing, owned_held. cbn. lia.
Qed.

(** ** Pressure *)

Lemma select_partial_spec rest frames r base indices position :
  exists n, (n <= length rest)%nat /\
    select_partial rest frames r base indices position = (indices ++ take n rest, (position + n)%nat).
Proof.
  revert indices position. induction rest as [|i rest IH]; intros indices position; cbn [select_partial].
  { exists 0%nat. rewrite app_nil_r. split; [cbn; lia|f_equal; lia]. }
  case_match; [exists 0%nat; rewrite app_nil_r; split; [cbn; lia|f_equal; lia]|].
  destruct (IH (indices ++ [i]) (Datatypes.S position)) as (n&Hn&->). exists (Datatypes.S n).
  split; [cbn; lia|]. rewrite <- app_assoc. cbn. f_equal. lia.
Qed.

Lemma emit_ready_spec indices frames r E :
  (forall i, i ∈ indices -> (i < length r)%nat) ->
  exists r' E', emit_ready indices frames r E = (r', E ++ E') /\ verdicts_kept indices r r' /\
    (forall x, x ∈ E' -> exists i, i ∈ indices /\ x = (frame_at frames i, false)).
Proof.
  revert r E. induction indices as [|i indices IH]; intros r E Hl; cbn [emit_ready].
  { exists r, []. rewrite app_nil_r. splits; [done|apply verdicts_refl|]. intros x Hx. by apply elem_of_nil in Hx. }
  case_match.
  - destruct (IH (<[i := EMITTED]> r) (E ++ [(frame_at frames i, false)])) as (r'&E'&->&V&H').
    { intros j Hj. rewrite length_insert. apply Hl. by right. }
    exists r', ((frame_at frames i, false) :: E'). rewrite <- app_assoc. splits; [done| |].
    + eapply verdicts_trans; [apply (verdicts_insert (i :: indices) r i EMITTED); [left|apply Hl; left|done]|].
      eapply verdicts_weaken; [|exact V]. intros; by right.
    + intros x [->|Hx]%elem_of_cons; [exists i; split; [left|done]|].
      destruct (H' x Hx) as (j&Hj&->). exists j. split; [by right|done].
  - destruct (IH r E) as (r'&E'&->&V&H'); [intros; apply Hl; by right|]. exists r', E'. splits; [done| |].
    + eapply verdicts_weaken; [|exact V]. intros; by right.
    + intros x Hx. destruct (H' x Hx) as (j&Hj&->). exists j. split; [by right|done].
Qed.

(** A sequence number ahead of the window by less than half the number space. *)
Lemma ahead_number N q :
  in_range 32 q -> _linkg_transport_reorder_sequence_before q (u32 N) = false ->
  exists n, q = u32 n /\ N <= n < N + 2 ^ 31 /\ u32 (q - u32 N) = n - N.
Proof.
  intros Hq Hb. unfold _linkg_transport_reorder_sequence_before in Hb. apply Z.ltb_ge in Hb.
  pose proof (wrap_range 32 (q - u32 N) ltac:(lia)) as Hr. exists (N + u32 (q - u32 N)).
  unfold i32_of_u32, in_range in *. splits.
  - unfold wrap. rewrite Zplus_mod_idemp_r, Z.add_sub_assoc, Zminus_mod_idemp_r.
    replace (N + q - N) with q by lia. symmetry. by apply wrap_small.
  - lia.
  - case_match; zb; lia.
  - lia.
Qed.

Section Pressure.
Context (M : nat -> Z) (emit : linkg_transport_reorder_emit_func_t S).
Context (g : linkg_transport_reorder_group) (frames : list linkg_transport_reorder_frame) (n : nat).
Hypothesis HM : forall j, 0 <= M j /\ M j + 64 <= 2 ^ 30.
Hypothesis Hemit : emit_ok step emit.
Hypothesis Hclock : forall k, 0 <= en_clock env k < 2 ^ 63.
Hypothesis Hg : group_ok M g frames n.

Let order := _linkg_transport_reorder_sort_group g frames.
Let ci := group_class g.

Lemma order_in i : i ∈ order <-> i ∈ gr_indices g.
Proof. unfold order. by rewrite sort_group_perm. Qed.

Lemma order_nodup : NoDup order.
Proof. unfold order. rewrite sort_group_perm. apply Hg. Qed.

Lemma order_frame i : i ∈ order -> (i < n)%nat /\ placed ci (frame_at frames i) /\
  exists p, rf_packet (frame_at frames i) = Some p /\ 0 < M p.
Proof. intros Hi%order_in. by apply (go_frame _ _ _ _ Hg). Qed.

Lemma M_nonneg : forall j, 0 <= M j.
Proof. intros j. apply HM. Qed.

(** The loop at [position]: what comes before has its verdict. *)
Record at_position (position : nat) (r0 r : list linkg_transport_reorder_result) : Prop := {
  ap_len : length r = n;
  ap_verdicts : verdicts_kept order r0 r;
  ap_done : forall i, i ∈ take position order -> result_at r i <> UNPROCESSED }.

Definition loop_result (theirs : nat -> Z) (r0 : list linkg_transport_reorder_result)
    (o : option (Z * list linkg_transport_reorder_result * bool * bool)) (s : runtime) : Prop :=
  match o with
  | None => True
  | Some (code, r, _, _) => settled M theirs code s /\ length r = n /\ verdicts_kept order r0 r /\
      (code = 0 -> forall i, i ∈ order -> result_at r i <> UNPROCESSED)
  end.

(** The rest of the loop, as an argument of the lemmas on one round. *)
Definition goes_on (theirs : nat -> Z) (r0 : list linkg_transport_reorder_result)
    (k : nat -> list linkg_transport_reorder_result -> bool ->
         Prelude.M runtime (option (Z * list linkg_transport_reorder_result * bool * bool))) : Prop :=
  forall position r w s theirs', step theirs theirs' -> guarded step M theirs' s -> at_position position r0 r ->
    wp (k position r w) (loop_result theirs r0) s.

Lemma goes_on_later theirs r0 k position r w s :
  goes_on theirs r0 k -> held_later M theirs s -> at_position position r0 r ->
  wp (k position r w) (loop_result theirs r0) s.
Proof. intros Hk (t&Ht&G) Ha. by eapply Hk. Qed.

Lemma at_position_next position r0 r i v :
  at_position position r0 r -> order !! position = Some i -> v <> UNPROCESSED ->
  at_position (Datatypes.S position) r0 (<[i := v]> r).
Proof.
  intros [L V D] Hi Hv. assert (i ∈ order) as Hin by by eapply list_elem_of_lookup_2.
  destruct (order_frame i Hin) as [Hlt _]. split.
  - by rewrite length_insert.
  - eapply verdicts_trans; [done|]. apply verdicts_insert; [done|lia|done].
  - intros j Hj. rewrite (take_S_r _ _ i Hi) in Hj. rewrite result_at_insert by lia. case_decide; [done|].
    apply elem_of_app in Hj as [Hj|Hj]; [auto|]. apply list_elem_of_singleton in Hj. done.
Qed.

Lemma at_position_skip position r0 r i :
  at_position position r0 r -> order !! position = Some i -> result_at r i <> UNPROCESSED ->
  at_position (Datatypes.S position) r0 r.
Proof.
  intros [L V D] Hi Hv. split; [done..|]. intros j Hj. rewrite (take_S_r _ _ i Hi) in Hj.
  apply elem_of_app in Hj as [Hj|Hj]; [auto|]. by apply list_elem_of_singleton in Hj as ->.
Qed.

(** Moving an empty window to the incoming frame. *)
Lemma wp_jump_empty theirs (b : bool) c f s (Q : unit -> runtime -> Prop) :
  guarded step M theirs s -> rt_classes s !! ci = Some c -> placed ci f ->
  (b = true -> rc_slot_count c = 0 /\ rc_delivery_in_progress c = false) ->
  (forall s' c', guarded step M theirs s' -> rt_classes s' !! ci = Some c' -> same_service s s' -> Q tt s') ->
  wp (when b (class_write ci (set_expected (frame_sequence f) c))) Q s.
Proof.
  intros G Hc Hp Hb H. apply wp_when; intros Eb; [|by apply (H s c); [..|split]].
  destruct (Hb Eb) as [Hz Hd]. pose proof (rw_class _ _ (proj1 G) ci c Hc) as O. destruct (co_at _ _ O) as [N W].
  destruct (jump_empty c N (frame_sequence f) W Hz (pl_sequence _ _ Hp)) as (N'&_&A).
  eapply wp_class_write; [exact Hc|].
  apply (H _ (set_expected (frame_sequence f) c)); [| |by split].
  - apply (guarded_write step M M theirs s ci c); [done|done| |apply G|done].
    eapply class_ok_advanced; [done|done|exact A|]. cbn. congruence.
  - cbn. rewrite lookup_insert_case by by eapply lookup_lt_Some. by rewrite decide_True.
Qed.

(** Making room: the window's frames that have to leave are emitted. *)
Lemma take_pressure_safe theirs c f s :
  guarded step M theirs s -> rt_classes s !! ci = Some c -> placed ci f ->
  beyond_window c (frame_sequence f) = true -> rc_delivery_in_progress c = false ->
  exists c' out,
    _linkg_transport_reorder_take_pressure_locked (en_self env) c (frame_sequence f)
      (Z.to_nat LINKG_TRANSPORT_REORDER_EMIT_BATCH_MAX) = (c', out) /\
    guarded step (owing M ((fun f => (f, true)) <$> out)) theirs (rset_classes (<[ci := c']> (rt_classes s)) s) /\
    emittable M ((fun f => (f, true)) <$> out).
Proof.
  intros G Hc Hp Hb Hd. pose proof (rw_class _ _ (proj1 G) ci c Hc) as O. destruct (co_at _ _ O) as [N W].
  unfold beyond_window in Hb. rewrite (ca_expected _ _ W) in Hb. zb.
  destruct (ahead_number N (frame_sequence f) (pl_sequence _ _ Hp)) as (q&Eq&Hq&Ed); [done|].
  unfold LINKG_TRANSPORT_REORDER_WINDOW_SIZE in *.
  destruct (take_pressure_fact (en_self env) c N q (Z.to_nat LINKG_TRANSPORT_REORDER_EMIT_BATCH_MAX) W Hd)
    as (c'&N'&out&E&A&Eout&Hl&_&Hp'&_); [by compute; lia|lia|].
  exists c', out. rewrite Eq. split; [done|].
  assert (class_ok ci c') as O' by (eapply class_ok_advanced; [done|done|exact A|done]).
  assert (length out <= 32)%nat as Hl' by (unfold LINKG_TRANSPORT_REORDER_EMIT_BATCH_MAX in Hl; lia).
  split.
  - apply (guarded_write step M _ theirs s ci c); [done|done|done| |].
    + intros j. unfold owing. rewrite owned_held_all. pose proof (frames_held_nonneg out j).
      pose proof (frames_held_length out j). specialize (HM j). lia.
    + intros j. unfold owing. rewrite owned_held_all, (class_held_advanced c N c' N' j W A), Eout. lia.
  - apply emittable_owned; [apply M_nonneg|]. intros x Hx. rewrite Eout in Hx.
    destruct (run_packets ci c N _ _ x O W Hx) as [? Fr]. split; [done|split; apply Fr].
Qed.

Abbreviation loop_t := (option (Z * list linkg_transport_reorder_result * bool * bool)).

Lemma emit_on theirs0 theirs r0 k position r w E s :
  step theirs0 theirs -> goes_on theirs0 r0 k -> guarded step (owing M E) theirs s -> emittable M E ->
  at_position position r0 r ->
  wp (if (0 <? length E)%nat
      then rl ← _linkg_transport_reorder_emit_and_relock env emit E;
           if negb (fst rl =? 0) then mret (Some (fst rl, r, w, snd rl)) else k position r w
      else k position r w) (loop_result theirs0 r0) s.
Proof.
  intros Ht Hk G He Ha. refine (emit_then M theirs emit E (fun rl => mret (Some (fst rl, r, w, snd rl))) (k position r w)
    (loop_result theirs0 r0) s M_nonneg Hemit G He _ _).
  - intros s' Hl. apply (goes_on_later theirs0); [done|by eapply later_trans|done].
  - intros rl s' Hne Hs. destruct Ha as [L V D]. apply wp_ret. cbn [loop_result]. splits; [by eapply settled_trans|done|done|done].
Qed.

Lemma pressure_branch theirs0 theirs r0 k position r w c f s :
  step theirs0 theirs -> goes_on theirs0 r0 k -> guarded step M theirs s -> at_position position r0 r ->
  rt_classes s !! ci = Some c -> placed ci f ->
  beyond_window c (frame_sequence f) = true -> rc_delivery_in_progress c = false ->
  wp (let '(current, output) :=
        _linkg_transport_reorder_take_pressure_locked (en_self env) c (frame_sequence f)
          (Z.to_nat LINKG_TRANSPORT_REORDER_EMIT_BATCH_MAX) in
      class_write ci current ;;
      if (0 <? length output)%nat then
        rl ← _linkg_transport_reorder_emit_and_relock env emit ((fun f => (f, true)) <$> output);
        if negb (fst rl =? 0) then mret (Some (fst rl, r, w, snd rl)) else k position r w
      else k position r w) (loop_result theirs0 r0) s.
Proof.
  intros Ht Hk G Ha Hc Hp Hb Hd.
  destruct (take_pressure_safe theirs c f s G Hc Hp Hb Hd) as (c'&out&->&G'&He).
  apply wp_bind. eapply wp_class_write; [exact Hc|].
  pose proof (emit_on theirs0 theirs r0 k position r w _ _ Ht Hk G' He Ha) as H. by rewrite length_fmap in H.
Qed.

(** A part of the group is a group. *)
Lemma part_ok indices position m :
  indices = take m (drop position order) ->
  group_ok M (ReorderGroup indices (gr_peer_index g) (gr_traffic_class g)) frames n.
Proof.
  intros ->. split.
  - apply Hg.
  - cbn. apply (sublist_NoDup _ order); [apply order_nodup|].
    etrans; [apply sublist_take|apply sublist_drop].
  - cbn. intros i Hi%elem_of_take_in%elem_of_drop_in. by apply order_frame.
Qed.

Lemma part_in i m position : i ∈ take m (drop position order) -> i ∈ order.
Proof. by intros Hi%elem_of_take_in%elem_of_drop_in. Qed.

(** What is READY after a part of the group is emitted at once. *)
Definition emitted_part (indices : list nat) (r1 : list linkg_transport_reorder_result) (E : emission) :=
  if (length E =? 0)%nat then emit_ready indices frames r1 [] else (r1, E).

Lemma emitted_part_spec indices theirs s s' r out r1 r2 E :
  (forall i, i ∈ indices -> i ∈ order) -> length r = n ->
  group_post env step M theirs (ReorderGroup indices (gr_peer_index g) (gr_traffic_class g)) frames s r [] s' r1 out ->
  emitted_part indices r1 ((fun f => (f, true)) <$> out) = (r2, E) ->
  guarded step (owing M E) theirs s' /\ emittable M E /\ verdicts_kept indices r r2 /\
  (forall i, i ∈ indices -> result_at r2 i <> UNPROCESSED).
Proof.
  intros Hin Hlen P HE. unfold emitted_part in HE.
  destruct (group_emits _ _ _ _ _ _ _ _ _ _ M_nonneg P) as [G Em].
  pose proof (gq_verdicts _ _ _ _ _ _ _ _ _ _ _ _ P) as V1. cbn [gr_indices] in V1.
  pose proof (gq_all _ _ _ _ _ _ _ _ _ _ _ _ P) as A1. cbn [gr_indices] in A1.
  destruct (Nat.eqb_spec (length ((fun f => (f, true)) <$> out)) 0) as [Hz|Hz].
  2:{ by injection HE as <- <-. }
  rewrite length_fmap in Hz. destruct out; [|cbn in Hz; lia].
  destruct (emit_ready_spec indices frames r1 []) as (r'&E'&E2&V2&H2).
  { intros i Hi. rewrite (vk_len _ _ _ V1), Hlen. by apply order_frame, Hin. }
  rewrite E2 in HE. injection HE as <- <-. cbn [app].
  assert (forall j, owned_held E' j = 0) as Ho.
  { intros j. unfold owned_held. rewrite (sumZ_ext _ (fun _ => 0)).
    - clear. induction E'; cbn; lia.
    - intros x Hx. by destruct (H2 x Hx) as (i&_&->). }
  splits.
  - eapply guarded_ext; [|exact G]. intros j. unfold owing. rewrite Ho. unfold owned_held. cbn. lia.
  - intros x Hx. destruct (H2 x Hx) as (i&Hi&->). cbn [fst].
    destruct (order_frame i (Hin i Hi)) as (_&Hp&p&Ep&Hm). split; [apply Hp|]. split; [apply Hp|]. exists p. split; [done|].
    unfold owing. by rewrite Ho, Z.add_0_r.
  - by eapply verdicts_trans.
  - intros i Hi. apply (vk_kept _ _ _ V2). by apply A1.
Qed.

Lemma partial_branch theirs0 theirs r0 k position r w base s :
  step theirs0 theirs -> goes_on theirs0 r0 k -> guarded step M theirs s -> at_position position r0 r ->
  wp (let '(indices, position') := select_partial (drop position order) frames r base [] position in
      if (length indices =? 0)%nat then k position r w
      else
        now_us ← time_monotonic_us env;
        x ← _linkg_transport_reorder_process_group_locked env
              (ReorderGroup indices (gr_peer_index g) (gr_traffic_class g)) frames r [] now_us w;
        let '(r1, emitted, w1) := x in
        when w1 cond_broadcast ;;
        let '(r2, E) :=
          if (length emitted =? 0)%nat then emit_ready indices frames r1 [] else (r1, emitted) in
        if (0 <? length E)%nat then
          rl ← _linkg_transport_reorder_emit_and_relock env emit E;
          if negb (fst rl =? 0) then mret (Some (fst rl, r2, w1, snd rl)) else k position' r2 w1
        else k position' r2 w1) (loop_result theirs0 r0) s.
Proof.
  intros Ht Hk G Ha. destruct (select_partial_spec (drop position order) frames r base [] position) as (m&Hm&->).
  cbn [app]. set (indices := take m (drop position order)).
  case_match; [by eapply Hk|].
  apply wp_bind. unfold time_monotonic_us. apply wp_bind, wp_observe. intros tk s1 E1. apply wp_ret.
  pose proof (ghost_guarded step _ _ _ _ E1 G) as G1. destruct Ha as [L V D].
  apply wp_bind. eapply wp_mono.
  { apply (process_group_spec M theirs); [exact G1| |apply Hclock|intros; apply HM].
    rewrite L. by apply (part_ok indices position m). }
  intros [[r1 e1] w1] s2 (out&->&P). cbn [app]. apply wp_bind, wp_when_broadcast. intros s3 E3.
  fold (emitted_part indices r1 ((fun f => (f, true)) <$> out)).
  destruct (emitted_part indices r1 _) as [r2 E] eqn:HE.
  destruct (emitted_part_spec indices theirs s1 s2 r out r1 r2 E) as (G2&Em&V2&A2); try done.
  { intros i Hi. by eapply part_in. }
  apply (emit_on theirs0 theirs); [done|done|by eapply ghost_guarded|done|]. split.
  - by rewrite (vk_len _ _ _ V2).
  - eapply verdicts_trans; [done|]. eapply verdicts_weaken; [|exact V2]. intros i Hi. by eapply part_in.
  - intros i Hi. rewrite <- take_take_drop in Hi.
    apply elem_of_app in Hi as [Hi|Hi]; [by apply (vk_kept _ _ _ V2), D|by apply A2].
Qed.

Lemma pressure_loop_spec theirs0 r0 w fuel position r s theirs :
  step theirs0 theirs -> guarded step M theirs s -> at_position position r0 r ->
  wp (pressure_loop env fuel g order frames emit position r w) (loop_result theirs0 r0) s.
Proof.
  revert position r w s theirs. induction fuel as [|fuel IH]; intros position r w s theirs Ht G Ha; [done|].
  assert (goes_on theirs0 r0 (fun p r w => pressure_loop env fuel g order frames emit p r w)) as Hk.
  { intros p r' w' s' t Ht' G' Ha'. by eapply IH. }
  cbn [pressure_loop]. destruct (order !! position) as [i|] eqn:Ei.
  2:{ apply wp_ret. cbn. destruct Ha as [L V D]. splits; [|done|done|].
      - apply settled_later. by exists theirs.
      - intros _ j Hj. apply D. apply lookup_ge_None in Ei. by rewrite take_ge. }
  destruct (unprocessed r i) eqn:Eu; cbn [negb].
  2:{ apply (Hk _ _ _ _ theirs); [done|done|]. eapply at_position_skip; [done|done|].
      unfold unprocessed in Eu. by apply bool_decide_eq_false in Eu. }
  assert (i ∈ order) as Hin by by eapply list_elem_of_lookup_2.
  destruct (order_frame i Hin) as (Hlt&Hp&_).
  assert (ci < class_total)%nat as Hci by apply Hg.
  fold (group_class g). fold ci. apply wp_bind, wp_get. apply wp_bind.
  eapply (wp_mono _ (fun _ s' => ghost_eq s s')).
  { destruct (rt_running s); cbn [negb]; [|apply wp_ret, ghost_refl].
    apply wp_bind, wp_epoch. intros b s1 E1.
    destruct (guarded_class step M theirs s1 ci) as (c&_&Hc&_&_); [by eapply ghost_guarded|done|].
    apply wp_bind. eapply wp_class_read; [exact Hc|]. by apply wp_ret. }
  intros stale s1 E1. pose proof (ghost_guarded step _ _ _ _ E1 G) as G1. destruct stale.
  { apply (Hk _ _ _ _ theirs); [done|done|]. by apply (at_position_next position). }
  destruct (guarded_class step M theirs s1 ci G1 Hci) as (c&_&Hc&_&_).
  apply wp_bind. eapply wp_class_read; [exact Hc|]. apply wp_bind.
  apply (wp_jump_empty theirs _ c (frame_at frames i) s1); [done|done|done|by intros E; zb|].
  intros s2 c2 G2 Hc2 _. apply wp_bind. eapply wp_class_read; [exact Hc2|].
  destruct (beyond_window c2 (frame_sequence (frame_at frames i))) eqn:Eb.
  2:{ by apply (partial_branch theirs0 theirs r0 (fun p r w => pressure_loop env fuel g order frames emit p r w)). }
  destruct (rc_delivery_in_progress c2) eqn:Ed.
  2:{ by apply (pressure_branch theirs0 theirs r0 (fun p r w => pressure_loop env fuel g order frames emit p r w)
        position r w c2 (frame_at frames i)). }
  apply wp_bind. unfold _linkg_transport_reorder_self_delivering_locked. apply wp_bind, wp_get, wp_ret.
  case_match.
  { apply (Hk _ _ _ _ theirs); [done|done|]. by apply (at_position_next position). }
  apply wp_bind. apply (wp_wait _ _ _ _ G2). intros ret s3 t3 Ht3 G3.
  destruct (Z.eqb_spec ret 0) as [->|Hr]; cbn [negb].
  { apply (Hk _ _ _ _ t3); [by etrans|done|done]. }
  apply wp_ret. destruct Ha as [L V D]. cbn. splits; [|done|done|lia].
  apply settled_later. exists t3. split; [by etrans|done].
Qed.

End Pressure.

(** ** Validation of a batch *)

(** What the types of the C fields and the caller's references give. *)
Record caller_frame (M : nat -> Z) (f : linkg_transport_reorder_frame) : Prop := {
  cf_sequence : in_range 32 (frame_sequence f);
  cf_class : in_range 32 (rf_traffic_class f);
  cf_type : type_ok f;
  cf_packet : forall p, rf_packet f = Some p -> 0 < M p }.

Lemma find_peer_same p l i : find_peer p l = i -> 0 <= i -> i = Z.of_nat p /\ p ∈ l.
Proof.
  induction l as [|x l IH]; cbn [find_peer]; [intros <-; by intros []|].
  destruct (bool_decide_reflect (p = x)) as [->|]; [intros <- _; split; [done|left]|].
  intros E Hi. destruct (IH E Hi). split; [done|by right].
Qed.

Lemma batch_peers_spec frames pis i f :
  batch_peers frames = Some pis -> frames !! i = Some f ->
  exists p, rf_peer f = Some p /\ pis !! i = Some p /\ Z.of_nat p < LINKG_TRANSPORT_PEER_MAX /\
    is_Some (rf_packet f) /\ u32 (rf_traffic_class f) < LINKG_TRANSPORT_CLASS_COUNT.
Proof.
  revert pis i. induction frames as [|x frames IH]; intros pis i E Hi; [done|]. cbn [batch_peers] in E.
  destruct (_ || _) eqn:Ev in E; [done|]. zb.
  destruct (peer_index_range (rf_peer x)) as [Hp|Hp].
  { by replace (_ <? 0) with true in E by (symmetry; by apply Z.ltb_lt). }
  replace (_ <? 0) with false in E by (symmetry; apply Z.ltb_ge; lia).
  destruct (batch_peers frames) as [l|]; [|done]. injection E as <-. destruct i as [|i]; [|cbn in Hi |- *; by apply (IH l i)].
  injection Hi as <-. destruct (rf_peer x) as [p|] eqn:Ep; [|done].
  destruct (find_peer_same p (nat_upto LINKG_TRANSPORT_PEER_MAX) _ eq_refl (proj1 Hp)) as [Eq _].
  cbn [_linkg_transport_reorder_peer_index] in *. rewrite Eq in *.
  exists p. cbn. rewrite Nat2Z.id. splits; [done|done|lia| |lia].
  destruct (rf_packet x) as [q|]; [by eexists|]. by rewrite bool_decide_true in * by done.
Qed.

Lemma groups_ok M frames n pis len g :
  batch_peers (take n frames) = Some pis -> (n <= length frames)%nat -> (n <= len)%nat ->
  (forall f, f ∈ take n frames -> caller_frame M f) ->
  g ∈ _linkg_transport_reorder_build_groups frames n pis -> group_ok M g frames len.
Proof.
  intros Hb Hn Hlen Hc Hg. destruct (build_groups_fact frames n pis) as [_ Hs Hi _ _].
  assert (forall i, i ∈ gr_indices g -> (i < n)%nat /\ (i < len)%nat /\ frame_key frames pis i = group_key g /\
    placed (class_index (gr_peer_index g) (gr_traffic_class g)) (frame_at frames i) /\
    0 <= gr_traffic_class g < LINKG_TRANSPORT_CLASS_COUNT /\ Z.of_nat (gr_peer_index g) < LINKG_TRANSPORT_PEER_MAX /\
    exists p, rf_packet (frame_at frames i) = Some p /\ 0 < M p) as H.
  { intros i Hin. rewrite (Hi g Hg) in Hin. apply list_elem_of_filter in Hin as [Ek Hin%elem_of_seq].
    destruct (lookup_lt_is_Some_2 frames i) as [f Ef]; [lia|].
    assert (take n frames !! i = Some f) as Et by (rewrite lookup_take_lt by lia; done).
    destruct (batch_peers_spec _ _ i f Hb Et) as (p&Ep&Epi&Hp&[q Eq]&Htc).
    destruct (Hc f ltac:(by eapply list_elem_of_lookup_2)) as [Sq Cl Ty Pk].
    assert (frame_at frames i = f) as Efr by (unfold frame_at; by rewrite Ef).
    assert (group_key g = (p, rf_traffic_class f)) as Eg.
    { rewrite <- Ek. unfold frame_key. by rewrite Efr, Epi. }
    unfold group_key in Eg. injection Eg as -> ->. rewrite Efr.
    rewrite wrap_small in Htc by done. unfold in_range in Cl.
    splits; try done; try lia; [|exists q; auto]. split; [lia|done| |done]. exists p. done. }
  split.
  - destruct (gr_indices g) as [|i l] eqn:E; [by destruct (Hs g Hg)|].
    destruct (H i ltac:(left)) as (_&_&_&_&?&?&_). by apply class_index_range.
  - rewrite (Hi g Hg). apply NoDup_filter, NoDup_seq.
  - intros i Hin. by destruct (H i Hin) as (_&?&_&?&_&_&?).
Qed.

Lemma groups_cover frames n pis i :
  (i < n)%nat -> exists g, g ∈ _linkg_transport_reorder_build_groups frames n pis /\ i ∈ gr_indices g.
Proof.
  intros Hi. destruct (build_groups_fact frames n pis) as [_ _ _ _ Hp].
  assert (i ∈ concat (gr_indices <$> _linkg_transport_reorder_build_groups frames n pis)) as H.
  { rewrite Hp. apply elem_of_seq. lia. }
  apply list_elem_of_In, List.in_concat in H as (l&Hg%list_elem_of_In&Hil%list_elem_of_In).
  apply list_elem_of_fmap in Hg as (g&->&Hg). by exists g.
Qed.

(** ** The groups of a batch *)

Section Batch.
Context (M : nat -> Z) (emit : linkg_transport_reorder_emit_func_t S).
Context (frames : list linkg_transport_reorder_frame) (n : nat).
Hypothesis HM : forall j, 0 <= M j <= 2 ^ 29.
Hypothesis Hemit : emit_ok step emit.
Hypothesis Hclock : forall k, 0 <= en_clock env k < 2 ^ 63.

Abbreviation results_t := (list linkg_transport_reorder_result).

(** Verdicts stay and the indices of [gs] have one. *)
Record decided (gs : list linkg_transport_reorder_group) (r r' : results_t) : Prop := {
  dc_len : length r' = length r;
  dc_kept : forall j, result_at r j <> UNPROCESSED -> result_at r' j <> UNPROCESSED;
  dc_all : forall g i, g ∈ gs -> i ∈ gr_indices g -> result_at r' i <> UNPROCESSED }.

Lemma decided_nil r : decided [] r r.
Proof. split; try done. intros g i Hg. by apply elem_of_nil in Hg. Qed.

Lemma decided_cons g gs l r r1 r2 :
  verdicts_kept l r r1 -> (forall i, i ∈ gr_indices g -> result_at r1 i <> UNPROCESSED) ->
  decided gs r1 r2 -> decided (g :: gs) r r2.
Proof.
  intros [V1 V2 V3] H [D1 D2 D3]. split; [congruence|auto|]. intros h i [->|Hh]%elem_of_cons Hi; eauto.
Qed.

(** The frames taken from the windows so far. *)
Definition collected (acc : list linkg_transport_reorder_frame) : Prop :=
  (length acc <= 32)%nat /\
  forall f, f ∈ acc -> is_Some (rf_packet f) /\ 0 <= rf_traffic_class f < LINKG_TRANSPORT_CLASS_COUNT /\ type_ok f.

Lemma group_ok_more M' g len : (forall j, M j <= M' j) -> group_ok M g frames len -> group_ok M' g frames len.
Proof.
  intros H [G1 G2 G3]. split; [done|done|]. intros i Hi. destruct (G3 i Hi) as (?&?&p&?&Hp).
  splits; [done|done|]. exists p. split; [done|]. specialize (H p). lia.
Qed.

Lemma in_flight_app acc out j : in_flight (in_flight M acc) out j = in_flight M (acc ++ out) j.
Proof. unfold in_flight. rewrite frames_held_app. lia. Qed.

Lemma process_groups_spec theirs gs acc now r w s :
  guarded step (in_flight M acc) theirs s -> collected acc -> 0 <= now < 2 ^ 63 -> length r = n ->
  (forall g, g ∈ gs -> group_ok M g frames n) ->
  wp (process_groups env gs frames r ((fun f => (f, true)) <$> acc) now w) (fun x s' =>
    let '(r', e', w') := x in
    exists acc', e' = (fun f => (f, true)) <$> acc' /\ guarded step (in_flight M acc') theirs s' /\
      collected acc' /\ decided gs r r') s.
Proof.
  revert acc r w s. induction gs as [|g gs IH]; intros acc r w s G [Ha Hf] Hnow Hlen Hg; cbn [process_groups].
  { apply wp_ret. exists acc. splits; [done|done|by split|apply decided_nil]. }
  assert (forall j, M j <= in_flight M acc j) as Hle.
  { intros j. unfold in_flight. pose proof (frames_held_nonneg acc j). lia. }
  apply wp_bind. eapply wp_mono.
  { apply (process_group_spec (in_flight M acc) theirs); [done| |done|].
    - rewrite Hlen. apply (group_ok_more _ g); [done|apply Hg; left].
    - intros j. unfold in_flight. pose proof (frames_held_length acc j). specialize (HM j). lia. }
  intros [[r1 e1] w1] s1 (out&->&P). rewrite <- fmap_app.
  assert (collected (acc ++ out)) as Hc.
  { split.
    - pose proof (gq_room _ _ _ _ _ _ _ _ _ _ _ _ P) as Hr. rewrite length_fmap in Hr. rewrite length_app.
      unfold LINKG_TRANSPORT_REORDER_EMIT_BATCH_MAX in Hr. lia.
    - intros f [Hin|Hin]%elem_of_app; [by apply Hf|].
      destruct (gq_packets _ _ _ _ _ _ _ _ _ _ _ _ P f Hin) as [? Hd]. split; [done|by eapply delivered_class]. }
  eapply wp_mono; [apply IH; [|exact Hc|done| |intros; apply Hg; by right]|].
  - eapply guarded_ext; [intros j; apply in_flight_app|apply P].
  - by rewrite (vk_len _ _ _ (gq_verdicts _ _ _ _ _ _ _ _ _ _ _ _ P)).
  - intros [[r' e'] w'] s' (acc'&->&G'&C'&D'). exists acc'. splits; try done.
    eapply decided_cons; [apply P|apply P|done].
Qed.

Lemma wp_needs_pressure theirs g s (Q : bool -> runtime -> Prop) :
  guarded step M theirs s -> group_ok M g frames n -> (forall b, Q b s) ->
  wp (_linkg_transport_reorder_group_needs_pressure_locked g frames) Q s.
Proof.
  intros G Hg H. unfold _linkg_transport_reorder_group_needs_pressure_locked.
  destruct (guarded_class step M theirs s _ G (go_index _ _ _ _ Hg)) as (c&_&Hc&_&_).
  apply wp_bind. eapply wp_class_read; [exact Hc|]. apply wp_ret, H.
Qed.

Lemma wp_any_pressure theirs gs s (Q : bool -> runtime -> Prop) :
  guarded step M theirs s -> (forall g, g ∈ gs -> group_ok M g frames n) -> (forall b, Q b s) ->
  wp (any_pressure gs frames) Q s.
Proof.
  intros G Hg H. induction gs as [|g gs IH]; cbn [any_pressure]; [apply wp_ret, H|].
  apply wp_bind. apply (wp_needs_pressure theirs); [done|apply Hg; left|]. intros [].
  - apply wp_ret, H.
  - apply IH. intros; apply Hg. by right.
Qed.

(** Leaving a batch: the lock is released if it is held. *)
Lemma wp_stop theirs code (b : bool) r w s (Q : option (bool * Z * results_t * bool) -> runtime -> Prop) :
  settled M theirs code s ->
  (forall s', settled M theirs code s' -> Q (Some (false, code, r, w)) s') ->
  wp (when b (_ ← mutex_unlock env; mret tt) ;; mret (Some (false, code, r, w))) Q s.
Proof.
  intros Hs H. apply wp_bind, wp_when; intros _; [|by apply wp_ret, H].
  apply wp_bind, wp_unlock. intros _ s' E. apply wp_ret, wp_ret, H.
  destruct Hs as [H1 (leak&Hl&t&Ht&G)]. split.
  - intros Hc. destruct (H1 Hc) as (t'&Ht'&G'). exists t'. split; [done|by eapply ghost_guarded].
  - exists leak. split; [done|]. exists t. split; [done|by eapply ghost_guarded].
Qed.

Definition groups_result (theirs : nat -> Z) (gs : list linkg_transport_reorder_group) (r : results_t)
    (o : option (bool * Z * results_t * bool)) (s : runtime) : Prop :=
  match o with
  | None => True
  | Some (ok, code, r', _) => settled M theirs code s /\ length r' = length r /\
      (ok = true -> code = 0 /\ decided gs r r') /\ (ok = false -> code <> 0)
  end.

Lemma groups_result_cons theirs0 theirs g gs l r r1 o s :
  step theirs0 theirs -> verdicts_kept l r r1 -> (forall i, i ∈ gr_indices g -> result_at r1 i <> UNPROCESSED) ->
  groups_result theirs gs r1 o s -> groups_result theirs0 (g :: gs) r o s.
Proof.
  intros Ht V H. destruct o as [[[[ok code] r'] w]|]; [|done]. intros (Hs&L&Hok&Hno). cbn [groups_result]. splits.
  - by eapply settled_trans.
  - by rewrite L, (vk_len _ _ _ V).
  - intros E. destruct (Hok E) as [-> D]. split; [done|by eapply decided_cons].
  - done.
Qed.

Lemma pressure_groups_spec fuel theirs gs r w s :
  guarded step M theirs s -> length r = n -> (forall g, g ∈ gs -> group_ok M g frames n) ->
  wp (pressure_groups env fuel gs frames emit r w) (groups_result theirs gs r) s.
Proof.
  assert (forall j, 0 <= M j) as Hnn by (intros j; apply HM).
  assert (forall j, 0 <= M j /\ M j + 64 <= 2 ^ 30) as HM' by (intros j; specialize (HM j); lia).
  revert theirs r w s. induction gs as [|g gs IH]; intros theirs r w s G Hlen Hg; cbn [pressure_groups].
  { apply wp_ret. cbn. splits; [by apply settled_later, later_now|done| |done]. split; [done|apply decided_nil]. }
  assert (group_ok M g frames n) as Hg0 by (apply Hg; left).
  assert (forall h, h ∈ gs -> group_ok M h frames n) as Hgs by (intros; apply Hg; by right).
  apply wp_bind. apply (wp_needs_pressure theirs); [done|done|]. intros [].
  - apply wp_bind. eapply wp_mono.
    { apply (pressure_loop_spec M emit g frames n HM' Hemit Hclock Hg0 theirs r w fuel 0 r s theirs); [done|done|].
      split; [done|apply verdicts_refl|]. intros i Hi. by apply elem_of_nil in Hi. }
    intros [[[[code r1] w1] held]|] s1; [|by intros; apply wp_ret]. intros (Hs&L&V&Hall).
    destruct (Z.eqb_spec code 0) as [->|Hne]; cbn [negb].
    + destruct (proj1 Hs (or_introl eq_refl)) as (t&Ht&G1). eapply wp_mono; [by apply (IH t); [done|congruence|]|].
      intros o s2. eapply groups_result_cons; [exact Ht|exact V|].
      intros i Hi. apply Hall; [done|]. by apply order_in.
    + apply (wp_stop theirs); [done|]. intros s2 Hs2. cbn. splits; try done. by rewrite L, Hlen.
  - apply wp_bind. unfold time_monotonic_us. apply wp_bind, wp_observe. intros tk s1 E1. apply wp_ret.
    pose proof (ghost_guarded step _ _ _ _ E1 G) as G1. apply wp_bind. eapply wp_mono.
    { apply (process_group_spec M theirs); [exact G1|by rewrite Hlen|apply Hclock|apply HM']. }
    intros [[r1 e1] w1] s2 (out&->&P). cbn [app].
    destruct (group_emits _ _ _ _ _ _ _ _ _ _ Hnn P) as [G2 Em].
    pose proof (gq_verdicts _ _ _ _ _ _ _ _ _ _ _ _ P) as V. pose proof (gq_all _ _ _ _ _ _ _ _ _ _ _ _ P) as A.
    refine (emit_then M theirs emit _ (fun rl => when (snd rl) (_ ← mutex_unlock env; mret tt) ;;
        mret (Some (false, fst rl, r1, w1))) _ _ s2 Hnn Hemit G2 Em _ _).
    + intros s3 (t&Ht&G3). eapply wp_mono; [apply (IH t); [done| |done]|].
      * by rewrite (vk_len _ _ _ V).
      * intros o s4. by eapply groups_result_cons.
    + intros rl s3 Hne Hs. apply (wp_stop theirs); [done|]. intros s4 Hs4. cbn. splits; try done.
      apply (vk_len _ _ _ V).
Qed.
End Batch.

(** ** The entry point *)

(** What a batch leaves: without fuel nothing is claimed; otherwise the
    references are settled, and a successful call decided every frame. *)
Definition submit_result (M theirs : nat -> Z) (n : nat) (old : list linkg_transport_reorder_result)
    (o : option (Z * option (list linkg_transport_reorder_result))) (s : runtime) : Prop :=
  match o with
  | None => True
  | Some (code, results) => settled M theirs code s /\ exists r, results = Some r /\ length r = length old /\
      (code = 0 -> forall i, (i < n)%nat -> result_at r i <> UNPROCESSED)
  end.

Lemma submit_refused M theirs n old code r s :
  held_later M theirs s -> code <> 0 -> length r = length old -> submit_result M theirs n old (Some (code, Some r)) s.
Proof. intros Hl Hc L. split; [by apply settled_later|]. exists r. splits; [done|done|done]. Qed.

(** The batch that needs no pressure: one pass under the lock. *)
Lemma plain_batch_spec M theirs theirs0 emit frames n pis r old s :
  (forall j, 0 <= M j <= 2 ^ 29) -> emit_ok step emit -> (forall k, 0 <= en_clock env k < 2 ^ 63) ->
  guarded step M theirs s -> step theirs0 theirs -> length r = length old ->
  (forall g, g ∈ _linkg_transport_reorder_build_groups frames n pis -> group_ok M g frames (length old)) ->
  wp (x ← _linkg_transport_reorder_process_batch_locked env frames n pis r [] false;
      let '(r', emitted, wakeup) := x in
      when wakeup cond_broadcast ;;
      _ ← mutex_unlock env;
      _linkg_transport_reorder_emit_batch env emit emitted ;;
      mret (Some (0, Some r'))) (fun o s' => o <> None /\ submit_result M theirs0 n old o s') s.
Proof.
  intros HM He Hclock G Ht L Hg. apply wp_bind. unfold _linkg_transport_reorder_process_batch_locked.
  apply wp_bind. unfold time_monotonic_us. apply wp_bind, wp_observe. intros tk s1 E1. apply wp_ret.
  eapply wp_mono.
  { apply (process_groups_spec M frames (length old) HM theirs _ [] (en_clock env tk) r false s1); [| |done|done|done].
    - eapply guarded_ext; [intros j; symmetry; apply in_flight_nil|by eapply ghost_guarded].
    - split; [cbn; lia|]. intros f Hf. by apply elem_of_nil in Hf. }
  intros [[r' e'] w'] s2 (acc&->&G2&[_ Hacc]&D). apply wp_bind, wp_when_broadcast. intros s3 E3.
  apply wp_bind, wp_unlock. intros ret s4 E4. apply wp_bind.
  assert (forall j, 0 <= M j) as Hnn by (intros j; apply HM).
  eapply wp_mono; [apply (emit_batch_spec M theirs); [done|done| |by apply emittable_owned]|].
  - eapply guarded_ext; [intros j; apply in_flight_owing|].
    by apply (ghost_guarded step _ _ _ _ E4), (ghost_guarded step _ _ _ _ E3).
  - intros [] s5 Hl. apply wp_ret. split; [done|]. split; [apply settled_later; by eapply later_trans|].
    exists r'. splits; [done|by rewrite (dc_len _ _ _ D)|]. intros _ i Hi.
    destruct (groups_cover frames n pis i Hi) as (g&Hgg&Hig). by apply (dc_all _ _ _ D g).
Qed.

Lemma pressed_batch_spec M theirs theirs0 fuel emit frames n pis r old s :
  (forall j, 0 <= M j <= 2 ^ 29) -> emit_ok step emit -> (forall k, 0 <= en_clock env k < 2 ^ 63) ->
  guarded step M theirs s -> step theirs0 theirs -> length r = length old ->
  (forall g, g ∈ _linkg_transport_reorder_build_groups frames n pis -> group_ok M g frames (length old)) ->
  wp (x ← pressure_groups env fuel (_linkg_transport_reorder_build_groups frames n pis) frames emit r false;
      match x with
      | None => mret None
      | Some (false, ret, r', _) => mret (Some (ret, Some r'))
      | Some (true, _, r', wakeup) =>
          when wakeup cond_broadcast ;;
          _ ← mutex_unlock env;
          mret (Some (0, Some r'))
      end) (submit_result M theirs0 n old) s.
Proof.
  intros HM He Hclock G Ht L Hg. apply wp_bind.
  eapply wp_mono; [by apply (pressure_groups_spec M emit frames (length old) HM He Hclock)|].
  intros [[[[ok code] r'] w']|] s1; [|by intros; apply wp_ret]. intros (Hs&L'&Hok&Hno). destruct ok.
  - destruct (Hok eq_refl) as [-> D]. apply wp_bind, wp_when_broadcast. intros s2 E2.
    apply wp_bind, wp_unlock. intros ret s3 E3. apply wp_ret. destruct (proj1 Hs (or_introl eq_refl)) as (t&Ht'&G1).
    split.
    + apply settled_later. exists t. split; [by etrans|].
      by apply (ghost_guarded step _ _ _ _ E3), (ghost_guarded step _ _ _ _ E2).
    + exists r'. splits; [done|congruence|]. intros _ i Hi.
      destruct (groups_cover frames n pis i Hi) as (g&Hgg&Hig). by apply (dc_all _ _ _ D g).
  - apply wp_ret. specialize (Hno eq_refl). split; [by eapply settled_trans|]. exists r'. splits; [done|congruence|done].
Qed.

Lemma submit_batch_spec M theirs fuel frames count old s :
  (forall k, 0 <= en_clock env k < 2 ^ 63) -> guarded step M theirs s -> (forall j, 0 <= M j <= 2 ^ 29) ->
  let n := Z.to_nat count in
  (n <= length frames)%nat -> (n <= length old)%nat -> (forall f, f ∈ take n frames -> caller_frame M f) ->
  0 <= count ->
  wp (linkg_transport_reorder_submit_batch env fuel (Some frames) count (Some old))
    (submit_result M theirs n old) s.
Proof.
  intros Hclock G HM n Hfr Hold Hcf Hcount. unfold linkg_transport_reorder_submit_batch.
  destruct (Z.eqb_spec count 0) as [Hz|Hnz].
  { apply wp_ret. split; [by apply settled_later, later_now|]. exists old. splits; [done|done|]. lia. }
  case_match; [apply wp_ret, submit_refused; [by apply later_now|done|done]|]. fold n.
  set (r := replicate n UNPROCESSED ++ drop n old).
  assert (length r = length old) as L by (unfold r; rewrite length_app, length_replicate, length_drop; lia).
  destruct (batch_peers (take n frames)) as [pis|] eqn:Eb.
  2:{ apply wp_ret, submit_refused; [by apply later_now|done|done]. }
  assert (forall g, g ∈ _linkg_transport_reorder_build_groups frames n pis -> group_ok M g frames (length old)) as Hg.
  { intros g. by apply (groups_ok M frames n pis). }
  apply wp_bind. apply (wp_lock _ _ _ _ G). intros ret s1 t1 Ht1 G1.
  destruct (Z.eqb_spec ret 0) as [->|Hret]; cbn [negb].
  2:{ apply wp_ret, submit_refused; [by exists t1|lia|done]. }
  apply wp_bind, wp_get. destruct (_ || _) eqn:Ei.
  { apply wp_bind, wp_unlock. intros r2 s2 E2. apply wp_ret, submit_refused; [|done|done].
    exists t1. split; [done|by eapply ghost_guarded]. }
  apply orb_false_iff in Ei as [_ Erun%negb_false_iff].
  destruct (rw_running _ _ (proj1 G1) Erun) as [emit Ee].
  pose proof (rw_emit _ _ (proj1 G1) emit Ee) as He.
  apply wp_bind. eapply wp_of_option; [exact Ee|]. apply wp_bind.
  apply (wp_any_pressure M frames (length old) t1); [done|done|]. intros [].
  - by apply (pressed_batch_spec M t1).
  - eapply wp_mono; [by apply (plain_batch_spec M t1 theirs)|]. by intros o s2 [_ ?].
Qed.

End Submit.

(** ** The property *)

(** C28: whatever the other threads do while the lock is free, as long as they
    keep the invariant and the caller's references, submitting a batch never
    gets stuck, keeps the invariant, gives back every reference it took (only a
    lock that cannot be released may leave some behind, never too few), and a
    successful call gives a verdict to every frame. *)
Theorem reorder_submit_sound {S} `{PL : PacketStoreLaws S} (env : reorder_env S)
    (step : (nat -> Z) -> (nat -> Z) -> Prop) (Hstep : PreOrder step)
    (M theirs : nat -> Z) (fuel : nat) (frames : list linkg_transport_reorder_frame) (count : Z)
    (results : list linkg_transport_reorder_result) (s : linkg_transport_reorder_runtime S) :
  (forall n mine theirs s, guarded step mine theirs s ->
     exists theirs', step theirs theirs' /\ guarded step mine theirs' (en_others env n s)) ->
  (forall k, 0 <= en_clock env k < 2 ^ 63) ->
  guarded step M theirs s -> (forall j, 0 <= M j <= 2 ^ 29) ->
  0 <= count -> (Z.to_nat count <= length frames)%nat -> (Z.to_nat count <= length results)%nat ->
  (forall f, f ∈ take (Z.to_nat count) frames -> caller_frame M f) ->
  exists o s', linkg_transport_reorder_submit_batch env fuel (Some frames) count (Some results) s = Some (o, s') /\
    submit_result env step M theirs (Z.to_nat count) results o s'.
Proof.
  intros Hothers Hclock G HM Hc Hf Hr Hcf. apply wp_elim.
  by apply (submit_batch_spec env step Hothers M theirs fuel frames count results s).
Qed.

(** ** Witnesses

    The packet pool as store, packets 1 and 2 held by the caller, exact
    accounting and idle windows. *)

#[local] Instance demo_reorder_store : PacketStore linkg_packet_pool := pool_store mutex_default.
#[local] Instance demo_reorder_laws : PacketStoreLaws linkg_packet_pool :=
  pool_store_laws mutex_default mutex_default_ok.

Definition same_refs (a b : nat -> Z) : Prop := forall j, a j = b j.

Lemma same_refs_preorder : PreOrder same_refs.
Proof. split; [done|]. intros a b c H1 H2 j. by rewrite H1, H2. Qed.

Definition demo_reorder_env : reorder_env linkg_packet_pool :=
  ReorderEnv _ 41 (fun _ => replicate 16 2) (fun _ => 1000) (fun _ => 0) (fun _ => 0) (fun _ => 0)
    (fun _ => true) (fun _ s => s).

Definition demo_runtime : linkg_transport_reorder_runtime linkg_packet_pool :=
  ReorderRuntime demo_pool2 (replicate class_total class_zero) (Some (fun _ => mret tt)) 0 true true true 42 0 0.

Definition demo_mine (j : nat) : Z := one_ref 1 j + one_ref 2 j.

Lemma demo_mine_refs j : refs demo_pool2 j = demo_mine j.
Proof. do 3 (destruct j as [|j]; [reflexivity|]). reflexivity. Qed.

Lemma demo_mine_range j : 0 <= demo_mine j <= 2 ^ 29.
Proof. unfold demo_mine. pose proof (one_ref_range 1 j). pose proof (one_ref_range 2 j). lia. Qed.

Lemma demo_emit_ok : emit_ok same_refs (fun _ => mret tt : M linkg_packet_pool unit).
Proof. intros st fs keep theirs I B _ _. by exists st, theirs. Qed.

Lemma demo_runtime_guarded : guarded same_refs demo_mine (fun _ => 0) demo_runtime.
Proof.
  split; [|split].
  - split; cbn.
    + apply demo_wf2.
    + done.
    + intros ci c [-> _]%lookup_replicate. apply class_ok_zero.
    + eauto.
    + intros e [= <-]. apply demo_emit_ok.
    + done.
  - intros j. pose proof (demo_mine_range j). lia.
  - intros j. split; [|lia]. change (ps_refs (rt_store demo_runtime) j) with (refs demo_pool2 j).
    rewrite demo_mine_refs. unfold rheld. cbn [rt_classes demo_runtime]. rewrite sumZ_replicate.
    change (class_held class_zero j) with (sumZ (fun sl => frame_held (rs_frame sl) j) (replicate 64 slot_zero)).
    rewrite sumZ_replicate. cbn. lia.
Qed.

Lemma reorder_submit_sound_witness :
  fst <$> linkg_transport_reorder_submit_batch demo_reorder_env 10 (Some [demo_frame 1 5; demo_frame 2 105]) 2
    (Some [STALE; STALE]) demo_runtime = Some (Some (0, Some [EMITTED; EMITTED])) /\
  exists o s', linkg_transport_reorder_submit_batch demo_reorder_env 10 (Some [demo_frame 1 5; demo_frame 2 105]) 2
      (Some [STALE; STALE]) demo_runtime = Some (o, s') /\
    submit_result demo_reorder_env same_refs demo_mine (fun _ => 0) 2 [STALE; STALE] o s'.
Proof.
  split; [vm_compute; reflexivity|].
  apply (reorder_submit_sound demo_reorder_env same_refs same_refs_preorder demo_mine (fun _ => 0) 10
    [demo_frame 1 5; demo_frame 2 105] 2 [STALE; STALE] demo_runtime).
  - intros n mine theirs s G. by exists theirs.
  - intros k. cbn [en_clock demo_reorder_env]. lia.
  - apply demo_runtime_guarded.
  - apply demo_mine_range.
  - lia.
  - cbn. lia.
  - cbn. lia.
  - intros f Hf. repeat (apply elem_of_cons in Hf as [->|Hf];
      [split; [by compute|by compute|by compute|intros p [= <-]; reflexivity]|]). by apply elem_of_nil in Hf.
Defined.
