(* ===== verification/TransportReorderWorker.v ===== *)
(** * In-order delivery: the expiry worker, completion and the life of a peer

    The worker's scan over all windows, its loop, the completion of a delivery
    and the reset of a peer, under the same interference as the batch entry
    point. *)

From stdpp Require Import sorting.
From S2P Require Import Prelude.
From S2P Require Import PacketStore.
From S2P Require Import PacketPool.
From S2P Require Import TransportTypes.
From S2P Require Import TransportReorder.
From S2P Require Import TransportReorderRuntime.
From S2P Require Import TransportReorderSafety.
From S2P Require Import TransportReorderSubmit.

Section Worker.
Context {S : Type} `{PS : PacketStore S} {PL : PacketStoreLaws S} (env : reorder_env S).
Context (step : (nat -> Z) -> (nat -> Z) -> Prop).

Abbreviation runtime := (linkg_transport_reorder_runtime S).

(** ** Clearing a class *)

Lemma class_slot_set c i sl n j :
  (i < length (rc_slots c))%nat ->
  class_slot (set_slots (<[i := sl]> (rc_slots c)) n c) j = if decide (i = j) then sl else class_slot c j.
Proof. intros Hi. unfold class_slot. cbn. rewrite lookup_insert_case by done. by case_decide. Qed.

Lemma clear_slots_spec ci l c s :
  rt_classes s !! ci = Some c -> NoDup l -> (forall i, i ∈ l -> (i < length (rc_slots c))%nat) ->
  ps_inv (rt_store s) ->
  (forall j, sumZ (fun i => frame_held (rs_frame (class_slot c i)) j) l <= ps_refs (rt_store s) j) ->
  wp (mfor l (_linkg_transport_reorder_clear_slot ci)) (fun _ s' =>
    exists st' c', s' = rset_store st' (rset_classes (<[ci := c']> (rt_classes s)) s) /\ ps_inv st' /\
      forall j, ps_refs st' j = ps_refs (rt_store s) j - sumZ (fun i => frame_held (rs_frame (class_slot c i)) j) l) s.
Proof.
  revert c s. induction l as [|i l IH]; intros c s Hc Hd Hl Hinv Hr; cbn [mfor].
  { apply wp_ret. exists (rt_store s), c. splits; [|done|intros j; cbn; lia].
    rewrite list_insert_id by done. by destruct s. }
  apply NoDup_cons in Hd as [Hi Hd]. cbn [sumZ] in Hr.
  assert (forall j, 0 <= sumZ (fun i => frame_held (rs_frame (class_slot c i)) j) l) as Hn.
  { intros j. apply sumZ_nonneg. intros. apply frame_held_range. }
  apply wp_bind. unfold _linkg_transport_reorder_clear_slot at 1. apply wp_bind. eapply wp_class_read; [exact Hc|].
  apply wp_bind.
  eapply (wp_mono _ (fun _ s1 => exists st1, s1 = rset_store st1 s /\ ps_inv st1 /\
    forall j, ps_refs st1 j = ps_refs (rt_store s) j - frame_held (rs_frame (class_slot c i)) j)).
  { apply wp_when; intros Ho.
    - destruct (release_opt (rt_store s) (rf_packet (rs_frame (class_slot c i)))) as (st1&E&I&R); [done| |].
      + intros j. specialize (Hr j). specialize (Hn j). unfold frame_held in Hr at 1. lia.
      + eapply wp_store; [exact E|]. by exists st1.
    - exists (rt_store s). splits; [by destruct s|done|]. intros j. rewrite slot_held_unoccupied by done. lia. }
  intros [] s1 (st1&->&I1&R1). eapply wp_class_write; [exact Hc|].
  set (c1 := set_slots (<[i := slot_zero]> (rc_slots c)) (rc_slot_count c) c).
  assert (forall k, k ∈ l -> class_slot c1 k = class_slot c k) as Hsame.
  { intros k Hk. unfold c1. rewrite class_slot_set by (apply Hl; left). rewrite decide_False; [done|]. by intros ->. }
  assert (forall j, sumZ (fun i => frame_held (rs_frame (class_slot c1 i)) j) l =
                    sumZ (fun i => frame_held (rs_frame (class_slot c i)) j) l) as Hsum.
  { intros j. apply sumZ_ext. intros k Hk. by rewrite Hsame. }
  eapply wp_mono; [apply (IH c1)|].
  - cbn. rewrite lookup_insert_case by (by eapply lookup_lt_Some). by rewrite decide_True.
  - done.
  - intros k Hk. cbn. rewrite length_insert. apply Hl. by right.
  - done.
  - intros j. rewrite Hsum. cbn [rt_store rset_store rset_classes]. rewrite R1. specialize (Hr j). lia.
  - intros [] s2 (st2&c2&->&I2&R2). exists st2, c2. splits; [|done|].
    + cbn. by rewrite list_insert_insert_eq.
    + intros j. rewrite R2, Hsum. cbn [rt_store rset_store rset_classes sumZ]. rewrite R1. lia.
Qed.

(** Clearing a class releases what it holds and nothing else. *)
Lemma clear_class_spec M theirs ci c s :
  guarded step M theirs s -> rt_classes s !! ci = Some c ->
  wp (_linkg_transport_reorder_clear_class ci) (fun _ s' =>
    guarded step M theirs s' /\ exists st', s' = rset_store st' (rset_classes (<[ci := class_zero]> (rt_classes s)) s)) s.
Proof.
  intros G Hc. pose proof (rw_class _ _ (proj1 G) ci c Hc) as O. destruct (co_at _ _ O) as [N W].
  assert (forall j, sumZ (fun i => frame_held (rs_frame (class_slot c i)) j)
            (nat_upto LINKG_TRANSPORT_REORDER_WINDOW_SIZE) = class_held c j) as Hsum.
  { intros j. unfold class_held. by rewrite (sumZ_indices _ slot_zero), (ca_len _ _ W). }
  unfold _linkg_transport_reorder_clear_class. apply wp_bind. eapply wp_mono.
  - apply (clear_slots_spec ci _ c s Hc); [apply NoDup_seq| |apply (rw_inv _ _ (proj1 G))|].
    + intros i Hi%elem_of_seq. rewrite (ca_len _ _ W). unfold LINKG_TRANSPORT_REORDER_WINDOW_SIZE in Hi. lia.
    + intros j. rewrite Hsum. destruct G as (Wf&Hm&Hb). destruct (Hb j) as [-> ?]. specialize (Hm j).
      assert (class_held c j <= rheld s j); [|lia].
      apply (sumZ_lookup_le (fun c => class_held c j) _ ci); [intros; apply class_held_nonneg|done].
  - intros [] s1 (st1&c1&->&I1&R1). eapply wp_class_write.
    { cbn. rewrite lookup_insert_case by (by eapply lookup_lt_Some). by rewrite decide_True. }
    cbn [rt_classes rset_store rset_classes]. rewrite list_insert_insert_eq.
    split; [|by exists st1].
    apply (guarded_update step M M theirs s ci c class_zero st1); [done|done|apply class_ok_zero|done|apply G|].
    intros j. rewrite R1, Hsum, (held_of_empty class_zero 0) by (done || by apply class_empty_at). lia.
Qed.

(** ** The scan *)

(** Nothing to do for an idle class before the deadline: its head is missing, no
    frame has expired, and the deadline is not after any expiry. *)
Definition quiet (now deadline : Z) (c : linkg_transport_reorder_class) : Prop :=
  rc_expected_initialized c = true -> rc_delivery_in_progress c = false ->
  exists N, class_at c N /\ forall k sl, buffered c N k = Some sl ->
    k <> N /\ now < rs_expires_at_us sl /\ 0 < deadline <= rs_expires_at_us sl.

(** The deadline is not before every expiry: some frame of the class expires
    then. *)
Definition expires_at (deadline : Z) (c : linkg_transport_reorder_class) : Prop :=
  exists N k sl, class_at c N /\ buffered c N k = Some sl /\ rs_expires_at_us sl = deadline.

Lemma quiet_earlier now d d' c : quiet now d c -> (d <> 0 -> 0 < d' <= d) -> quiet now d' c.
Proof.
  intros Q H Hi Hd. destruct (Q Hi Hd) as (N&W&B). exists N. split; [done|]. intros k sl Hb.
  destruct (B k sl Hb) as (?&?&?). splits; lia.
Qed.

Record taken (ci : nat) (c : linkg_transport_reorder_class) (capacity : nat) (now deadline : Z)
    (c' : linkg_transport_reorder_class) (out : list linkg_transport_reorder_frame) (deadline' : Z) : Prop := {
  tk_ok : class_ok ci c';
  tk_room : (length out <= capacity)%nat;
  tk_held : forall j, class_held c j = frames_held out j + class_held c' j;
  tk_out : forall f, f ∈ out -> is_Some (rf_packet f) /\ frame_of ci c' f /\ rc_expected_initialized c' = true /\
    rc_delivery_in_progress c' = true /\ rc_delivery_thread c' = en_self env;
  tk_quiet : out = [] -> quiet now deadline' c';
  tk_from : out = [] -> deadline' = deadline \/ expires_at deadline' c';
  tk_earlier : deadline <> 0 -> 0 < deadline' <= deadline;
  tk_nonneg : 0 <= deadline' }.

Lemma taken_nothing ci c capacity now deadline :
  class_ok ci c -> 0 <= deadline -> quiet now deadline c -> taken ci c capacity now deadline c [] deadline.
Proof.
  intros O Hd Q. split; [done|cbn; lia|done| |done|by left|lia|done]. intros f Hf. by apply elem_of_nil in Hf.
Qed.

Lemma worker_thread self c capacity now deadline :
  rc_delivery_in_progress c = false ->
  let '(c', out, _) := _linkg_transport_reorder_take_worker_class_locked self c capacity now deadline in
  out <> [] -> rc_delivery_thread c' = self.
Proof.
  intros Hd. unfold _linkg_transport_reorder_take_worker_class_locked.
  match goal with |- context [if ?b then (c, [], deadline) else _] => destruct b; [done|] end.
  destruct (expiry_scan _ _) as [a b]. destruct (worker_take _ _ _ _ _) as [c' out].
  destruct out; [done|]. by intros _.
Qed.

Lemma take_worker_safe ci c capacity now deadline :
  class_ok ci c -> 0 <= deadline -> (0 < capacity)%nat ->
  exists c' out deadline',
    _linkg_transport_reorder_take_worker_class_locked (en_self env) c capacity now deadline = (c', out, deadline') /\
    taken ci c capacity now deadline c' out deadline'.
Proof.
  intros O Hd Hcap. destruct (co_at _ _ O) as [N W].
  destruct (rc_expected_initialized c) eqn:Hi.
  2:{ exists c, [], deadline. unfold _linkg_transport_reorder_take_worker_class_locked. rewrite Hi. split; [done|].
      apply taken_nothing; [done|done|]. intros Hi'. congruence. }
  destruct (rc_delivery_in_progress c) eqn:Hp.
  { exists c, [], deadline. unfold _linkg_transport_reorder_take_worker_class_locked. rewrite Hi, Hp. split; [done|].
    apply taken_nothing; [done|done|]. intros _ Hp'. congruence. }
  destruct (take_worker_class_spec (en_self env) c N capacity now deadline W) as (c'&N'&out&d'&E&Wo); try done.
  { intros k sl Hb. by destruct (ok_buffered ci c N k sl O W Hb). }
  pose proof (worker_thread (en_self env) c capacity now deadline Hp) as Ht. rewrite E in Ht.
  destruct Wo as [A Eo Hroom Hm Hidle _ Hdone Hdl Hearly Hfrom]. exists c', out, d'. split; [done|].
  assert (out <> [] -> rc_delivery_in_progress c' = true) as Hm' by (intros; rewrite Hm; by destruct out).
  split.
  - eapply class_ok_advanced; [done|done|exact A|done].
  - done.
  - intros j. rewrite Eo. by apply class_held_advanced.
  - intros f Hf. assert (out <> []) as Hne by by intros ->; apply elem_of_nil in Hf.
    rewrite Eo in Hf. destruct (run_packets ci c N _ _ f O W Hf) as [Hpk Fr].
    splits; [done|apply (frame_of_same ci c); [apply A|apply A|done]|by rewrite (ad_init _ _ _ _ A)|auto|auto].
  - intros -> _ _. rewrite (Hidle eq_refl) in *. exists N. split; [apply A|]. intros k sl Hb.
    destruct (Hdone Hcap k sl Hb) as [? ?]. split; [done|]. split; [done|]. rewrite (ad_buffered _ _ _ _ A) in Hb.
    destruct (k <? N); [done|]. by apply (Hdl k).
  - intros ->. rewrite (Hidle eq_refl) in *. destruct Hfrom as [|(k&sl&Hb&->)]; [by left|right].
    exists N, k, sl. splits; [apply A| |done]. rewrite (ad_buffered _ _ _ _ A).
    destruct (Z.ltb_spec k N); [|done]. by rewrite buffered_out in Hb by lia.
  - done.
  - destruct (decide (deadline = 0)); [|specialize (Hearly ltac:(done)); lia].
    destruct Hfrom as [->|(k&sl&Hb&->)]; [done|].
    destruct (ok_buffered ci c N k sl O W Hb). lia.
Qed.

(** The class the scan visits at [offset]. *)
Definition scanned (cursor : Z) (offset : nat) : nat :=
  Z.to_nat (u32 (cursor + Z.of_nat offset) mod Z.of_nat class_total).

Lemma scanned_lt cursor o : (scanned cursor o < class_total)%nat.
Proof. unfold scanned. change (Z.of_nat class_total) with 48. change class_total with 48%nat. Z.div_mod_to_equations. lia. Qed.

Lemma scanned_all cursor ci :
  0 <= cursor < Z.of_nat class_total -> (ci < class_total)%nat ->
  ci ∈ (scanned cursor <$> seq 0 class_total).
Proof.
  intros Hc Hci. apply list_elem_of_fmap. unfold scanned. change (Z.of_nat class_total) with 48 in *.
  change class_total with 48%nat in *.
  exists (Z.to_nat ((Z.of_nat ci - cursor) mod 48)). split; [|apply elem_of_seq; Z.div_mod_to_equations; lia].
  rewrite wrap_small by (unfold in_range; rewrite pow32; Z.div_mod_to_equations; lia). Z.div_mod_to_equations. lia.
Qed.

Definition quiet_at (now deadline : Z) (s : runtime) (ci : nat) : Prop :=
  exists c, rt_classes s !! ci = Some c /\ quiet now deadline c.

(** What the scan leaves behind, when it visited [cis]. *)
Definition scan_result (M theirs : nat -> Z) (capacity : nat) (now : Z) (cis : list nat) (s0 : runtime)
    (x : list linkg_transport_reorder_frame * Z) (s : runtime) : Prop :=
  guarded step (in_flight M (fst x)) theirs s /\
  rt_emit s = rt_emit s0 /\ rt_running s = rt_running s0 /\
  (length (fst x) <= capacity)%nat /\
  (forall f, f ∈ fst x -> is_Some (rf_packet f) /\ exists ci, delivered_by env s ci f) /\
  (fst x = [] -> (forall ci, ci ∈ cis -> quiet_at now (snd x) s ci) /\
     (snd x = 0 \/ exists ci c, rt_classes s !! ci = Some c /\ expires_at (snd x) c) /\ 0 <= snd x).

Lemma quiet_at_same now d s s' ci : rt_classes s' !! ci = rt_classes s !! ci -> quiet_at now d s ci -> quiet_at now d s' ci.
Proof. intros E (c&Hc&Q). exists c. by rewrite E. Qed.

Lemma quiet_at_write now d st s ci c c' cj :
  rt_classes s !! ci = Some c -> quiet now d c' -> (cj = ci \/ quiet_at now d s cj) ->
  quiet_at now d (rset_store st (rset_classes (<[ci := c']> (rt_classes s)) s)) cj.
Proof.
  intros Hc Q H. unfold quiet_at. cbn. rewrite lookup_insert_case by by eapply lookup_lt_Some.
  case_decide as E; [by exists c'|]. destruct H as [->|H]; [done|exact H].
Qed.

(** What the scan knows of the classes it has visited. *)
Record visited (now deadline : Z) (cis : list nat) (s : runtime) : Prop := {
  vi_quiet : forall ci, ci ∈ cis -> quiet_at now deadline s ci;
  vi_from : deadline = 0 \/ exists ci c, ci ∈ cis /\ rt_classes s !! ci = Some c /\ expires_at deadline c;
  vi_nonneg : 0 <= deadline }.

(** One more class, visited and written back. *)
Lemma visited_next now d d' cis s st ci c c' :
  visited now d cis s -> rt_classes s !! ci = Some c -> ci ∉ cis -> quiet now d' c' ->
  (d <> 0 -> 0 < d' <= d) -> d' = d \/ expires_at d' c' -> 0 <= d' ->
  visited now d' (cis ++ [ci]) (rset_store st (rset_classes (<[ci := c']> (rt_classes s)) s)).
Proof.
  intros [Vq Vf Vn] Hc Hci Q Hd Hf Hn.
  assert (forall cj x, cj ∈ cis -> rt_classes s !! cj = Some x -> <[ci := c']> (rt_classes s) !! cj = Some x) as Hkeep.
  { intros cj x Hcj Hx. rewrite list_lookup_insert_ne; [done|]. by intros ->. }
  split; [|cbn|done].
  - intros cj Hcj. eapply quiet_at_write; [done|done|]. apply elem_of_app in Hcj as [Hcj|Hcj]; [right|left; set_solver].
    destruct (Vq cj Hcj) as (x&Hx&Qx). exists x. split; [done|]. by eapply quiet_earlier.
  - destruct Hf as [->|He].
    + destruct Vf as [|(cj&x&Hcj&Hx&E)]; [by left|right]. exists cj, x. splits; [set_solver|by apply Hkeep|done].
    + right. exists ci, c'. splits; [set_solver| |done]. apply list_lookup_insert_eq. by eapply lookup_lt_Some.
Qed.

Lemma scan_result_from M theirs capacity now cis s0 s1 x s :
  rt_emit s1 = rt_emit s0 -> rt_running s1 = rt_running s0 ->
  scan_result M theirs capacity now cis s1 x s -> scan_result M theirs capacity now cis s0 x s.
Proof. intros E1 E2 (G&A&B&H). unfold scan_result. splits; [done|congruence|congruence|apply H..]. Qed.

Lemma quiet_zero now d : quiet now d class_zero.
Proof. intros Hi. done. Qed.

Lemma worker_scan_spec M theirs capacity now offsets deadline s cis :
  guarded step M theirs s -> (forall j, M j + 64 <= 2 ^ 30) -> (0 < capacity <= 64)%nat ->
  visited now deadline cis s -> NoDup (cis ++ (scanned (rt_worker_cursor s) <$> offsets)) ->
  wp (worker_scan env offsets capacity now deadline)
    (scan_result M theirs capacity now (cis ++ (scanned (rt_worker_cursor s) <$> offsets)) s) s.
Proof.
  intros G HM Hcap. revert deadline s cis G. induction offsets as [|o offsets IH]; intros deadline s cis G V Hnd;
    cbn [worker_scan].
  { apply wp_ret. rewrite app_nil_r. destruct V as [Vq Vf Vn]. unfold scan_result. cbn [fst snd].
    splits; [|done|done|cbn; lia| |].
    - eapply guarded_ext; [intros j; symmetry; apply in_flight_nil|done].
    - intros f Hf'. by apply elem_of_nil in Hf'.
    - intros _. split; [done|]. split; [|done]. destruct Vf as [|(ci&c&_&?&?)]; [by left|right; by exists ci, c]. }
  rewrite fmap_cons in *. set (ci := scanned (rt_worker_cursor s) o) in *.
  assert (ci ∉ cis) as Hci. { apply NoDup_app in Hnd as (_&Hout&_). intros Hin. apply (Hout ci Hin). left. }
  rewrite (cons_middle ci), app_assoc in *.
  apply wp_bind, wp_get. change (Z.to_nat (u32 (rt_worker_cursor s + Z.of_nat o) mod Z.of_nat class_total)) with ci.
  destruct (guarded_class step M theirs s ci G (scanned_lt _ _)) as (c&N&Hc&O&W).
  apply wp_bind. eapply wp_class_read; [exact Hc|]. apply wp_bind.
  eapply (wp_mono _ (fun _ s' => ghost_eq s s')).
  { destruct (rc_expected_initialized c); [|apply wp_ret, ghost_refl].
    apply wp_bind, wp_epoch. intros b s1 E1. by apply wp_ret. }
  intros stale s1 E1. pose proof (ghost_guarded step _ _ _ _ E1 G) as G1. destruct E1 as (b1&t1&E1).
  assert (visited now deadline cis s1) as V1 by (subst s1; by destruct V).
  assert (rt_classes s1 !! ci = Some c) as Hc1 by by subst s1.
  assert (rt_worker_cursor s1 = rt_worker_cursor s) as Ecur by by subst s1.
  assert (rt_emit s1 = rt_emit s /\ rt_running s1 = rt_running s) as [Eem Erun] by by subst s1.
  destruct stale.
  - apply wp_bind. eapply wp_mono; [by apply (clear_class_spec M theirs ci c)|]. intros [] s2 (G2&st&->).
    eapply wp_mono; [apply (IH deadline _ (cis ++ [ci])); [exact G2| |cbn; by rewrite Ecur]|].
    + apply (visited_next now deadline deadline cis s1 st ci c class_zero); [done|done|done|apply quiet_zero| |by left|apply V].
      intros ?. destruct V. lia.
    + cbn [rt_worker_cursor rset_store rset_classes]. rewrite Ecur. intros x s3. by apply scan_result_from.
  - destruct (take_worker_safe ci c capacity now deadline O) as (c'&out&d'&->&T); [apply V|lia|].
    apply wp_bind. eapply wp_class_write; [exact Hc1|].
    assert (guarded step (in_flight M out) theirs (rset_classes (<[ci := c']> (rt_classes s1)) s1)) as G2.
    { apply (guarded_write step M _ theirs s1 ci c); [done|done|apply T| |].
      - intros j. destruct G as (_&Hm&_). specialize (Hm j). unfold in_flight.
        pose proof (frames_held_nonneg out j). pose proof (frames_held_length out j).
        pose proof (tk_room _ _ _ _ _ _ _ _ T). specialize (HM j). lia.
      - intros j. rewrite (tk_held _ _ _ _ _ _ _ _ T j). unfold in_flight. lia. }
    destruct out as [|f out]; cbn [length Nat.ltb Nat.leb].
    + eapply wp_mono; [apply (IH d' _ (cis ++ [ci])); [|
        |cbn; by rewrite Ecur]|].
      * eapply guarded_ext; [|exact G2]. apply in_flight_nil.
      * apply (visited_next now deadline d' cis s1 (rt_store s1) ci c c'); [done|done|done|by apply T|apply T|by apply T|apply T].
      * cbn [rt_worker_cursor rset_classes]. rewrite Ecur. intros x s3. by apply scan_result_from.
    + apply wp_bind, wp_modify, wp_ret. unfold scan_result. cbn [fst snd]. splits; [|done|done|apply T| |done].
      * apply (guarded_same step _ _ (rset_classes (<[ci := c']> (rt_classes s1)) s1)); try done.
        cbn. apply Z.mod_pos_bound. by compute.
      * intros x Hx. destruct (tk_out _ _ _ _ _ _ _ _ T x Hx) as (?&?&?&?&?). split; [done|]. exists ci, c'.
        split; [|done]. cbn. apply list_lookup_insert_eq. by eapply lookup_lt_Some.
Qed.

(** ** The worker's loop *)

Context `{Hpre : !PreOrder step}.
Hypothesis others_ok : forall n mine theirs s, guarded step mine theirs s ->
  exists theirs', step theirs theirs' /\ guarded step mine theirs' (en_others env n s).

Abbreviation later := (held_later step).

Lemma ghost_later M theirs s s' : ghost_eq s s' -> later M theirs s -> later M theirs s'.
Proof. intros E (t&Ht&G). exists t. split; [done|by eapply ghost_guarded]. Qed.

Lemma scanned_nodup cursor :
  0 <= cursor < Z.of_nat class_total -> NoDup (scanned cursor <$> seq 0 class_total).
Proof.
  intros Hc. apply NoDup_fmap_2_strong; [|apply NoDup_seq]. intros x y Hx%elem_of_seq Hy%elem_of_seq.
  unfold scanned. change (Z.of_nat class_total) with 48 in *. change class_total with 48%nat in *.
  rewrite !wrap_small by (unfold in_range; rewrite pow32; lia). Z.div_mod_to_equations. lia.
Qed.

(** The whole scan of the worker. *)
Lemma take_worker_spec M theirs now s :
  guarded step M theirs s -> (forall j, M j + 64 <= 2 ^ 30) ->
  wp (_linkg_transport_reorder_take_worker_locked env (Z.to_nat LINKG_TRANSPORT_REORDER_EMIT_BATCH_MAX) now 0)
    (scan_result M theirs (Z.to_nat LINKG_TRANSPORT_REORDER_EMIT_BATCH_MAX) now
       (scanned (rt_worker_cursor s) <$> seq 0 class_total) s) s.
Proof.
  intros G HM. unfold _linkg_transport_reorder_take_worker_locked.
  apply (worker_scan_spec M theirs _ now (seq 0 class_total) 0 s []); [done|done| | |].
  - split; [by apply Nat.ltb_lt|by apply Nat.leb_le].
  - split; [|by left|done]. intros ci Hci. by apply elem_of_nil in Hci.
  - apply scanned_nodup, (rw_cursor _ _ (proj1 G)).
Qed.

Lemma worker_round_spec M theirs s :
  guarded step M theirs s -> (forall j, 0 <= M j /\ M j + 64 <= 2 ^ 30) ->
  wp (worker_round env) (fun _ s' => later M theirs s') s.
Proof.
  intros G HM. unfold worker_round. apply wp_bind, wp_observe. intros n s1 E1.
  pose proof (ghost_guarded step _ _ _ _ E1 G) as G1. apply wp_bind, wp_get.
  destruct (negb _) eqn:Er; [by apply wp_ret, later_now|]. apply negb_false_iff, andb_true_iff in Er as [Er _].
  destruct (rw_running _ _ (proj1 G1) Er) as [emit Ee].
  apply wp_bind. unfold time_monotonic_us. apply wp_bind, wp_observe. intros tk s2 E2. apply wp_ret.
  pose proof (ghost_guarded step _ _ _ _ E2 G1) as G2. apply wp_bind. eapply wp_mono.
  { apply (take_worker_spec M theirs); [done|intros; apply HM]. }
  intros [out d] s3 (G3&Ee3&_&_&Hout&_). cbn [fst] in *. destruct E2 as (b2&u2&->). destruct out as [|f out].
  - apply wp_bind. assert (guarded step M theirs s3) as G3' by (eapply guarded_ext; [|exact G3]; apply in_flight_nil).
    apply (wp_wait env step others_ok _ _ _ _ G3'). intros r s4 t4 Ht4 G4. apply wp_ret. by exists t4.
  - cbn [length Nat.ltb Nat.leb]. set (all := f :: out) in *.
    apply wp_bind, wp_unlock. intros r s4 E4. apply wp_bind, wp_get. apply wp_bind.
    assert (rt_emit s4 = Some emit) as Ee4 by (destruct E4 as (?&?&->); cbn; rewrite Ee3; cbn; done).
    eapply wp_of_option; [exact Ee4|]. apply wp_bind.
    pose proof (ghost_guarded step _ _ _ _ E4 G3) as G4.
    assert (forall j, 0 <= M j) as Hnn by (intros; apply HM).
    eapply wp_mono.
    { apply (emit_batch_spec env step others_ok M theirs emit); [done|by apply (rw_emit _ _ (proj1 G4))| |].
      - eapply guarded_ext; [|exact G4]. intros j. apply in_flight_owing.
      - apply emittable_owned; [done|]. intros x Hx. destruct (Hout x Hx) as (?&ci&Hd). split; [done|].
        by eapply delivered_class. }
    intros [] s5 (t5&Ht5&G5). apply wp_bind. apply (wp_lock env step others_ok _ _ _ _ G5).
    intros r6 s6 t6 Ht6 G6. apply wp_ret. exists t6. split; [by etrans|done].
Qed.

Lemma worker_loop_spec fuel M theirs s :
  guarded step M theirs s -> (forall j, 0 <= M j /\ M j + 64 <= 2 ^ 30) ->
  wp (worker_loop env fuel) (fun _ s' => later M theirs s') s.
Proof.
  intros G HM. revert G. revert theirs s. induction fuel as [|fuel IH]; intros theirs s G; cbn [worker_loop].
  { by apply wp_ret, later_now. }
  apply wp_bind. eapply wp_mono; [by apply worker_round_spec|]. intros [[]|] s1 (t1&Ht1&G1).
  - eapply wp_mono; [by apply (IH t1)|]. intros b s2 Hl. by eapply later_trans.
  - apply wp_bind, wp_unlock. intros r s2 E2. apply wp_ret. exists t1. split; [done|by eapply ghost_guarded].
  - apply wp_ret. by exists t1.
Qed.

Lemma worker_safe fuel M theirs s :
  guarded step M theirs s -> (forall j, 0 <= M j /\ M j + 64 <= 2 ^ 30) ->
  wp (_linkg_transport_reorder_worker env fuel) (fun _ s' => later M theirs s') s.
Proof.
  intros G HM. unfold _linkg_transport_reorder_worker. apply wp_bind.
  apply (wp_lock env step others_ok _ _ _ _ G). intros r s1 t1 Ht1 G1.
  case_match; [apply wp_ret; by exists t1|]. eapply wp_mono; [by apply worker_loop_spec|].
  intros b s2 Hl. by eapply later_trans.
Qed.

(** ** The reset of a peer *)

Lemma clear_classes_spec select cis M theirs s :
  guarded step M theirs s -> NoDup cis -> (forall ci, ci ∈ cis -> (ci < class_total)%nat) ->
  wp (clear_classes select cis) (fun _ s' => guarded step M theirs s' /\
    forall ci, rt_classes s' !! ci =
      if bool_decide (ci ∈ cis) then (fun c => if select c : bool then class_zero else c) <$> (rt_classes s !! ci)
      else rt_classes s !! ci) s.
Proof.
  intros G. revert s G. induction cis as [|ci cis IH]; intros s G Hd Hlt; cbn [clear_classes].
  { apply wp_ret. split; [done|]. intros ci. by rewrite bool_decide_false by apply not_elem_of_nil. }
  apply NoDup_cons in Hd as [Hci Hd].
  destruct (guarded_class step M theirs s ci G) as (c&N&Hc&_&_); [apply Hlt; left|].
  apply wp_bind. eapply wp_class_read; [exact Hc|]. apply wp_bind.
  eapply (wp_mono _ (fun _ s1 => guarded step M theirs s1 /\
    rt_classes s1 = <[ci := if select c then class_zero else c]> (rt_classes s))).
  { apply wp_when; intros ->.
    - eapply wp_mono; [by apply (clear_class_spec M theirs ci c)|]. by intros [] s1 (?&st&->).
    - split; [done|]. by rewrite list_insert_id. }
  intros [] s1 (G1&E1). eapply wp_mono; [apply IH; [done|done|intros; apply Hlt; by right]|].
  intros b s2 (G2&H2). split; [done|]. intros cj. rewrite H2, E1.
  rewrite lookup_insert_case by by eapply lookup_lt_Some.
  destruct (decide (ci = cj)) as [<-|Hne].
  - rewrite bool_decide_false by done. rewrite bool_decide_true by left. by rewrite Hc.
  - destruct (decide (cj ∈ cis)) as [Hin|Hin].
    + rewrite !bool_decide_true by (done || by right). done.
    + rewrite !bool_decide_false; [done| |done]. by intros [->|]%elem_of_cons.
Qed.

Lemma wait_idle_spec fuel own select M theirs s :
  guarded step M theirs s ->
  wp (wait_idle env fuel own select) (fun o s' => later M theirs s' /\
    (o = Some 0 -> forall c, c ∈ rt_classes s' -> select c && rc_delivery_in_progress c = false)) s.
Proof.
  revert theirs s. induction fuel as [|fuel IH]; intros theirs s G; cbn [wait_idle].
  { apply wp_ret. split; [by apply later_now|done]. }
  apply wp_bind, wp_get. destruct (List.find _ _) as [c|] eqn:Ef.
  - case_match; [apply wp_ret; split; [by apply later_now|done]|].
    apply wp_bind. apply (wp_wait env step others_ok _ _ _ _ G). intros r s1 t1 Ht1 G1.
    destruct (Z.eqb_spec r 0) as [->|Hr]; cbn [negb].
    + eapply wp_mono; [by apply (IH t1)|]. intros o s2 [Hl Hi]. split; [by eapply later_trans|done].
    + apply wp_ret. split; [by exists t1|]. intros [= Hz]. lia.
  - apply wp_ret. split; [by apply later_now|]. intros _ c Hc. apply list_elem_of_In in Hc.
    by apply (List.find_none _ _ Ef).
Qed.

(** What a successful reset did, when the lock was last taken with [s1]. *)
Definition peer_cleared (node : Z) (M theirs : nat -> Z) (s' : runtime) : Prop :=
  exists s1 theirs1, step theirs theirs1 /\ guarded step M theirs1 s1 /\ guarded step M theirs1 s' /\
    (forall c, c ∈ rt_classes s1 -> class_of_peer node c && rc_delivery_in_progress c = false) /\
    rt_classes s' = (fun c => if class_of_peer node c then class_zero else c) <$> rt_classes s1.

Definition reset_result (node : Z) (M theirs : nat -> Z) (o : option Z) (s' : runtime) : Prop :=
  later M theirs s' /\ (o = Some 0 -> peer_cleared node M theirs s').

Lemma clear_peer_spec node M theirs0 theirs s :
  step theirs0 theirs -> guarded step M theirs s ->
  (forall c, c ∈ rt_classes s -> class_of_peer node c && rc_delivery_in_progress c = false) ->
  wp (clear_classes (class_of_peer node) (seq 0 class_total) ;;
      cond_broadcast ;; _ ← mutex_unlock env; mret (Some 0)) (reset_result node M theirs0) s.
Proof.
  intros Ht G Hidle. apply wp_bind. eapply wp_mono.
  { apply (clear_classes_spec (class_of_peer node) (seq 0 class_total) M theirs s G); [apply NoDup_seq|].
    intros ci Hci%elem_of_seq. lia. }
  intros [] s1 (G1&H1). apply wp_bind, wp_broadcast. intros s2 E2. apply wp_bind, wp_unlock. intros r s3 E3.
  pose proof (ghost_trans _ _ _ E2 E3) as E. pose proof (ghost_guarded step _ _ _ _ E G1) as G3.
  apply wp_ret. split; [by exists theirs|]. intros _. exists s, theirs. splits; try done.
  rewrite (ghost_classes _ _ E). apply list_eq. intros ci. rewrite H1, list_lookup_fmap.
  destruct (decide (ci ∈ seq 0 class_total)) as [Hin|Hin]; [by rewrite bool_decide_true|].
  rewrite bool_decide_false by done. rewrite elem_of_seq in Hin.
  rewrite lookup_ge_None_2; [done|]. rewrite (rw_len _ _ (proj1 G)). lia.
Qed.

Lemma wp_worker_thread s (Q : bool -> runtime -> Prop) :
  (forall b, Q b s) -> wp (linkg_transport_reorder_is_worker_thread env) Q s.
Proof. intros H. unfold linkg_transport_reorder_is_worker_thread. apply wp_bind, wp_get, wp_ret, H. Qed.

Lemma check_context_spec M theirs s :
  guarded step M theirs s ->
  wp (linkg_transport_reorder_check_lifecycle_context env) (fun _ s' => later M theirs s') s.
Proof.
  intros G. unfold linkg_transport_reorder_check_lifecycle_context. apply wp_bind, wp_get.
  case_match; [by apply wp_ret, later_now|].
  apply wp_bind. apply (wp_lock env step others_ok _ _ _ _ G). intros r s1 t1 Ht1 G1.
  case_match; [apply wp_ret; by exists t1|].
  apply wp_bind. unfold _linkg_transport_reorder_self_delivering_locked. apply wp_bind, wp_get, wp_ret.
  apply wp_bind, wp_unlock. intros r2 s2 E2. apply wp_ret. exists t1. split; [done|by eapply ghost_guarded].
Qed.

Lemma reset_peer_spec fuel node M theirs s :
  guarded step M theirs s ->
  wp (linkg_transport_reorder_reset_peer env fuel node) (reset_result node M theirs) s.
Proof.
  intros G. unfold linkg_transport_reorder_reset_peer. apply wp_bind, wp_get.
  case_match; [apply wp_ret; split; [by apply later_now|done]|].
  apply wp_bind, wp_worker_thread. intros [].
  { apply wp_ret. split; [by apply later_now|done]. }
  apply wp_bind. eapply wp_mono; [by apply check_context_spec|]. intros code s1 (t1&Ht1&G1).
  destruct (Z.eqb_spec code 0) as [->|Hc]; cbn [negb].
  2:{ apply wp_ret. split; [by exists t1|]. intros [= Hz]. lia. }
  apply wp_bind. apply (wp_lock env step others_ok _ _ _ _ G1). intros r s2 t2 Ht2 G2.
  assert (step theirs t2) as Ht02 by by etrans.
  destruct (Z.eqb_spec r 0) as [->|Hr]; cbn [negb].
  2:{ apply wp_ret. split; [by exists t2|]. intros [= Hz]. lia. }
  apply wp_bind. eapply wp_mono; [by apply (wait_idle_spec fuel true (class_of_peer node) M t2)|].
  intros [code|] s3 ((t3&Ht3&G3)&Hidle).
  2:{ apply wp_ret. split; [|done]. exists t3. split; [by etrans|done]. }
  assert (step theirs t3) as Ht03 by by etrans.
  destruct (Z.eqb_spec code 0) as [->|Hc]; cbn [negb].
  - by apply (clear_peer_spec node M theirs t3); [| |apply Hidle].
  - apply wp_bind, wp_unlock. intros r s4 E4. apply wp_ret. split; [|intros [= Hz]; lia].
    exists t3. split; [done|by eapply ghost_guarded].
Qed.

(** ** Completion of a delivery *)

(** Does completing the item end the delivery of class [ci]? *)
Definition completes (ci : nat) (c : linkg_transport_reorder_class)
    (x : linkg_transport_reorder_frame * linkg_transport_reorder_result) : bool :=
  let p := _linkg_transport_reorder_peer_index (rf_peer (fst x)) in
  bool_decide (snd x = READY) && (0 <=? p) && (u32 (rf_traffic_class (fst x)) <? LINKG_TRANSPORT_CLASS_COUNT) &&
  bool_decide (class_index (Z.to_nat p) (rf_traffic_class (fst x)) = ci) &&
  rc_expected_initialized c && negb (other_identity c (fst x)) && rc_delivery_in_progress c.

Definition complete_class (items : list (linkg_transport_reorder_frame * linkg_transport_reorder_result))
    (ci : nat) (c : linkg_transport_reorder_class) : linkg_transport_reorder_class :=
  if existsb (completes ci c) items then end_delivery c else c.

(** What the completion of [items] leaves, from the classes of [s]; the flag
    says whether any delivery ended. *)
Definition completed (items : list (linkg_transport_reorder_frame * linkg_transport_reorder_result))
    (s : runtime) (changed ch : bool) (s' : runtime) : Prop :=
  (forall ci, rt_classes s' !! ci = complete_class items ci <$> (rt_classes s !! ci)) /\
  rt_broadcasts s' = rt_broadcasts s /\
  (ch = true <-> changed = true \/
     exists ci c, rt_classes s !! ci = Some c /\ existsb (completes ci c) items = true).

Lemma completed_inert x items s changed ch s' :
  (forall ci c, rt_classes s !! ci = Some c -> completes ci c x = false) ->
  completed items s changed ch s' -> completed (x :: items) s changed ch s'.
Proof.
  intros Hx (Hc&Hb&Hch). split; [|split; [done|]].
  - intros ci. rewrite Hc. destruct (rt_classes s !! ci) as [c|] eqn:E; [|done]. cbn. f_equal.
    unfold complete_class. cbn [existsb]. by rewrite (Hx ci c E).
  - rewrite Hch. split; (intros [|(ci&c&E&H)]; [by left|right; exists ci, c; split; [done|]]); cbn [existsb] in *.
    + by rewrite H, orb_true_r.
    + by rewrite (Hx ci c E) in H.
Qed.

Lemma completes_end ci c x : completes ci (end_delivery c) x = false.
Proof. unfold completes. cbn. by rewrite andb_false_r. Qed.

Lemma complete_class_end items ci c : complete_class items ci (end_delivery c) = end_delivery c.
Proof.
  unfold complete_class. replace (existsb _ items) with false; [done|]. symmetry.
  induction items as [|x items IH]; [done|]. cbn. by rewrite completes_end.
Qed.

(** The item ends the delivery of class [ci]. *)
Lemma completed_end x items s ci c changed ch s' :
  rt_classes s !! ci = Some c -> completes ci c x = true -> (forall cj d, cj <> ci -> completes cj d x = false) ->
  completed items (rset_classes (<[ci := end_delivery c]> (rt_classes s)) s) true ch s' ->
  completed (x :: items) s changed ch s'.
Proof.
  intros Hci Hx Hne (Hc&Hb&Hch). split; [|split; [done|]].
  - intros cj. rewrite Hc. cbn [rt_classes rset_classes]. rewrite lookup_insert_case by by eapply lookup_lt_Some.
    destruct (decide (ci = cj)) as [<-|Hn].
    + rewrite Hci. cbn. rewrite complete_class_end. unfold complete_class. cbn. by rewrite Hx.
    + destruct (rt_classes s !! cj) as [d|]; [|done]. cbn. unfold complete_class. cbn. by rewrite Hne.
  - rewrite Hch. split; [intros _; right|by left]. exists ci, c. split; [done|]. cbn. by rewrite Hx.
Qed.

Lemma complete_batch_loop_spec items changed M theirs s :
  guarded step M theirs s ->
  (forall x, x ∈ items -> in_range 32 (rf_traffic_class (fst x))) ->
  wp (complete_batch_loop items changed) (fun ch s' => guarded step M theirs s' /\ completed items s changed ch s') s.
Proof.
  revert changed s. induction items as [|[f r] items IH]; intros changed s G Hr; cbn [complete_batch_loop].
  { apply wp_ret. split; [done|]. split; [intros ci; by destruct (_ !! ci)|]. split; [done|].
    split; [by left|]. by intros [|(ci&c&_&?)]. }
  assert (forall x, x ∈ items -> in_range 32 (rf_traffic_class (fst x))) as Hr' by (intros; apply Hr; by right).
  assert ((forall ci c, rt_classes s !! ci = Some c -> completes ci c (f, r) = false) ->
    wp (complete_batch_loop items changed)
      (fun ch s' => guarded step M theirs s' /\ completed ((f, r) :: items) s changed ch s') s) as Hinert.
  { intros Hx. eapply wp_mono; [by apply IH|]. intros ch s' [? Hc]. split; [done|by apply completed_inert]. }
  destruct (bool_decide_reflect (r = READY)) as [->|Hrd]; cbn [negb].
  2:{ apply Hinert. intros ci c _. unfold completes. cbn [snd]. by rewrite bool_decide_false. }
  destruct (_ || _) eqn:Ev.
  { apply Hinert. intros ci c _. unfold completes. cbn [fst snd]. apply orb_true_iff in Ev as [Ev|Ev]; zb.
    - by replace (0 <=? _) with false by (symmetry; apply Z.leb_gt; lia).
    - replace (u32 _ <? _) with false by (symmetry; apply Z.ltb_ge; lia). by rewrite !andb_false_r. }
  apply orb_false_iff in Ev as [Ep%Z.ltb_ge Et%Z.leb_gt].
  set (p := _linkg_transport_reorder_peer_index (rf_peer f)) in *.
  pose proof (Hr (f, READY) ltac:(left)) as Hrange. cbn [fst] in Hrange.
  rewrite (wrap_small 32) in Et by done. unfold in_range in Hrange.
  destruct (peer_index_range (rf_peer f)) as [Hp|Hp]; [fold p in Hp; lia|]. fold p in Hp.
  destruct (guarded_class step M theirs s (class_index (Z.to_nat p) (rf_traffic_class f)) G) as (c&N&Hc&_&_).
  { apply class_index_range; lia. }
  assert (forall cj d, cj <> class_index (Z.to_nat p) (rf_traffic_class f) -> completes cj d (f, READY) = false) as Hother.
  { intros cj d Hne. unfold completes. cbn [fst snd]. fold p.
    rewrite (bool_decide_eq_false_2 (class_index _ _ = cj)) by congruence. by rewrite andb_false_r. }
  assert (completes (class_index (Z.to_nat p) (rf_traffic_class f)) c (f, READY) =
    rc_expected_initialized c && negb (other_identity c f) && rc_delivery_in_progress c) as Ec.
  { unfold completes. cbn [fst snd]. fold p. rewrite !bool_decide_true by done.
    rewrite (wrap_small 32) by (unfold in_range; lia).
    replace (0 <=? p) with true by (symmetry; apply Z.leb_le; lia).
    by replace (_ <? _) with true by (symmetry; apply Z.ltb_lt; lia). }
  apply wp_bind. eapply wp_class_read; [exact Hc|]. destruct (_ && _ && _) eqn:Eb in Ec |- *.
  - apply wp_bind. eapply wp_class_write; [exact Hc|].
    eapply wp_mono; [apply (IH true); [by apply end_delivery_write|done]|]. intros ch s' [? Hs]. split; [done|].
    eapply completed_end; [exact Hc|exact Ec|exact Hother|exact Hs].
  - apply Hinert. intros ci d Hd. destruct (decide (ci = class_index (Z.to_nat p) (rf_traffic_class f))) as [->|]; [|auto].
    congruence.
Qed.

(** What a completion leaves, relative to the state in which it took the lock. *)
Definition batch_completed (items : list (linkg_transport_reorder_frame * linkg_transport_reorder_result))
    (M theirs : nat -> Z) (s' : runtime) : Prop :=
  exists s1 theirs1 (changed : bool), step theirs theirs1 /\ guarded step M theirs1 s1 /\ guarded step M theirs1 s' /\
    (forall ci, rt_classes s' !! ci = complete_class items ci <$> (rt_classes s1 !! ci)) /\
    rt_broadcasts s' = rt_broadcasts s1 + (if changed then 1 else 0) /\
    (changed = true <-> exists ci c, rt_classes s1 !! ci = Some c /\ existsb (completes ci c) items = true).

Definition complete_result items (M theirs : nat -> Z) (code : Z) (s' : runtime) : Prop :=
  later M theirs s' /\ (code = 0 -> batch_completed items M theirs s').

Lemma observed_runs (s : runtime) : observe s = Some (rt_tick s, rset_ghost (rt_broadcasts s) (Datatypes.S (rt_tick s)) s).
Proof. done. Qed.

Lemma complete_batch_spec frames results count M theirs s :
  guarded step M theirs s -> 0 <= count ->
  (forall f, f ∈ take (Z.to_nat count) frames -> in_range 32 (rf_traffic_class f)) ->
  wp (linkg_transport_reorder_complete_batch env (Some frames) (Some results) count)
    (complete_result (take (Z.to_nat count) (zip frames results)) M theirs) s.
Proof.
  intros G Hcount Hr. unfold linkg_transport_reorder_complete_batch. set (items := take _ _).
  destruct (Z.eqb_spec count 0) as [->|Hz].
  { apply wp_ret. split; [by apply later_now|]. intros _. exists s, theirs, false. splits; [done|done|done| |lia|].
    - intros ci. by destruct (_ !! ci).
    - split; [done|]. by intros (ci&c&_&?). }
  case_match; [apply wp_ret; split; [by apply later_now|done]|].
  apply wp_bind. apply (wp_lock env step others_ok _ _ _ _ G). intros r s1 t1 Ht1 G1.
  destruct (Z.eqb_spec r 0) as [->|Hr0]; cbn [negb].
  2:{ apply wp_ret. split; [by exists t1|]. intros; lia. }
  apply wp_bind. eapply wp_mono; [apply (complete_batch_loop_spec items false M t1 s1 G1)|].
  { intros [f x] Hx. apply (Hr f). unfold items in Hx. cbn. apply elem_of_take in Hx as (i&Hi&Hlt).
    apply lookup_zip_with_Some in Hi as (f'&x'&[= <- <-]&Hf&_). apply elem_of_take. by exists i. }
  intros ch s2 [G2 (Hc&Hb&Hch)]. apply wp_bind.
  eapply (wp_mono _ (fun _ s3 => ghost_eq s2 s3 /\ rt_broadcasts s3 = rt_broadcasts s2 + if ch then 1 else 0)).
  { apply wp_when; intros ->; [|split; [apply ghost_refl|lia]]. apply wp_modify. split; [|done]. by eexists _, _. }
  intros [] s3 [E3 B3]. apply wp_bind, wp_bind. apply (wp_run _ _ _ _ _ (observed_runs s3)).
  apply wp_ret, wp_ret. set (s4 := rset_ghost _ _ s3).
  assert (ghost_eq s2 s4) as E4 by (destruct E3 as (?&?&->); by eexists _, _).
  pose proof (ghost_guarded step _ _ _ _ E4 G2) as G4.
  split; [by exists t1|]. intros _. exists s1, t1, ch. splits; [done|done|done| | |].
  - intros ci. by rewrite (ghost_classes _ _ E4), Hc.
  - cbn. by rewrite B3, Hb.
  - rewrite Hch. split; [by intros [|]|by right].
Qed.

End Worker.

(** ** Properties *)


(** For any number of rounds and any interference the
    worker neither gets stuck nor breaks the invariant, and every reference it
    took has been released. *)
Theorem reorder_worker_safe {S} `{PL : PacketStoreLaws S} (env : reorder_env S)
    (step : (nat -> Z) -> (nat -> Z) -> Prop) (Hstep : PreOrder step) (M theirs : nat -> Z) (fuel : nat)
    (s : linkg_transport_reorder_runtime S) :
  (forall n mine theirs s, guarded step mine theirs s ->
     exists theirs', step theirs theirs' /\ guarded step mine theirs' (en_others env n s)) ->
  guarded step M theirs s -> (forall j, 0 <= M j /\ M j + 64 <= 2 ^ 30) ->
  exists b s', _linkg_transport_reorder_worker env fuel s = Some (b, s') /\ held_later step M theirs s'.
Proof. intros Ho G HM. apply wp_elim. by apply (worker_safe env step Ho fuel M theirs s). Qed.

(** A successful reset clears exactly the windows of the
    peer, none of which was being delivered, releases exactly their packets and
    keeps the invariant; a failing one changes no window of its own accord. *)
Theorem reorder_reset_peer_spec {S} `{PL : PacketStoreLaws S} (env : reorder_env S)
    (step : (nat -> Z) -> (nat -> Z) -> Prop) (Hstep : PreOrder step) (M theirs : nat -> Z) (fuel : nat)
    (node : Z) (s : linkg_transport_reorder_runtime S) :
  (forall n mine theirs s, guarded step mine theirs s ->
     exists theirs', step theirs theirs' /\ guarded step mine theirs' (en_others env n s)) ->
  guarded step M theirs s ->
  exists o s', linkg_transport_reorder_reset_peer env fuel node s = Some (o, s') /\
    held_later step M theirs s' /\ (o = Some 0 -> peer_cleared step node M theirs s').
Proof. intros Ho G. apply wp_elim. by apply (reset_peer_spec env step Ho fuel node M theirs s). Qed.

(** Completing a batch ends exactly the deliveries of the
    windows that have a READY frame of their current life in it, wakes the
    waiting threads exactly when a delivery ended, and keeps the invariant. *)
Theorem reorder_complete_spec {S} `{PL : PacketStoreLaws S} (env : reorder_env S)
    (step : (nat -> Z) -> (nat -> Z) -> Prop) (Hstep : PreOrder step) (M theirs : nat -> Z)
    (frames : list linkg_transport_reorder_frame) (results : list linkg_transport_reorder_result) (count : Z)
    (s : linkg_transport_reorder_runtime S) :
  (forall n mine theirs s, guarded step mine theirs s ->
     exists theirs', step theirs theirs' /\ guarded step mine theirs' (en_others env n s)) ->
  guarded step M theirs s -> 0 <= count ->
  (forall f, f ∈ take (Z.to_nat count) frames -> in_range 32 (rf_traffic_class f)) ->
  exists code s', linkg_transport_reorder_complete_batch env (Some frames) (Some results) count s = Some (code, s') /\
    held_later step M theirs s' /\
    (code = 0 -> batch_completed step (take (Z.to_nat count) (zip frames results)) M theirs s').
Proof. intros Ho G Hc Hr. apply wp_elim. by apply (complete_batch_spec env step Ho frames results count M theirs s). Qed.

(** ** Witnesses

    The window of peer 3 and class 1 starts at 5 and holds packets 1 and 2 as
    frames 6 and 8. *)

#[local] Instance demo_worker_store : PacketStore linkg_packet_pool := pool_store mutex_default.
#[local] Instance demo_worker_laws : PacketStoreLaws linkg_packet_pool :=
  pool_store_laws mutex_default mutex_default_ok.

Definition demo_window0 : linkg_transport_reorder_class := set_baseline 5 2 7 class_zero.
Definition demo_window1 : linkg_transport_reorder_class :=
  set_slots (<[6%nat := demo_slot 1 6 70000]> (rc_slots demo_window0)) 1 demo_window0.
Definition demo_window : linkg_transport_reorder_class :=
  set_slots (<[8%nat := demo_slot 2 8 90000]> (rc_slots demo_window1)) 2 demo_window1.

Definition demo_holding (c : linkg_transport_reorder_class) : linkg_transport_reorder_runtime linkg_packet_pool :=
  ReorderRuntime demo_pool2 (<[10%nat := c]> (replicate class_total class_zero)) (Some (fun _ => mret tt)) 0
    true true true 42 0 0.

Lemma demo_window_at : class_at demo_window 5.
Proof.
  assert (class_at demo_window0 5) as W0 by by apply class_empty_at.
  assert (forall k, buffered demo_window0 5 k = None) as B0 by by apply count_zero.
  destruct (put_spec demo_window0 5 6 (demo_slot 1 6 70000) W0) as [W1 B1]; [lia|apply B0|done|done|].
  change (class_at demo_window1 5) in W1.
  change (forall j, buffered demo_window1 5 j = if j =? 6 then Some (demo_slot 1 6 70000) else buffered demo_window0 5 j) in B1.
  destruct (put_spec demo_window1 5 8 (demo_slot 2 8 90000) W1) as [W2 _]; [lia|by rewrite (B1 8), B0|done|done|].
  exact W2.
Qed.

Lemma demo_window_ok : class_ok 10 demo_window.
Proof.
  split; [exists 5; apply demo_window_at| |done]. intros i Ho.
  assert (forall n q e, frame_of 10 demo_window (demo_frame n q) /\ 0 < rs_expires_at_us (demo_slot n q (Z.pos e))) as Hf.
  { intros n q e. split; [|done]. split; [by compute|by compute|exists 3%nat; by compute|done|done]. }
  destruct (decide (i = 6%nat)) as [->|H6]; [apply Hf|]. destruct (decide (i = 8%nat)) as [->|H8]; [apply Hf|].
  exfalso. revert Ho. unfold class_slot. cbn [demo_window demo_window1 demo_window0 rc_slots set_slots set_baseline class_zero].
  rewrite !list_lookup_insert_ne by done. destruct (replicate _ slot_zero !! i) as [sl|] eqn:E; [|done].
  by apply lookup_replicate in E as [-> _].
Qed.

Lemma demo_window_delivering : class_ok 10 (set_delivery 41 demo_window).
Proof.
  destruct demo_window_ok as [[N W] F I]. split; [|intros i Ho; destruct (F i Ho) as [[] ?]; by split|done].
  exists N. by destruct W.
Qed.

Lemma demo_window_held j : class_held demo_window j = demo_mine j.
Proof.
  unfold class_held. cbn [demo_window demo_window1 demo_window0 rc_slots set_slots set_baseline].
  rewrite (sumZ_insert _ _ _ _ slot_zero) by done. rewrite (sumZ_insert _ _ _ _ slot_zero) by done.
  cbn [rc_slots class_zero]. rewrite sumZ_replicate. cbn [frame_held rs_frame demo_slot slot_zero demo_frame rf_packet].
  unfold frame_held, demo_mine. cbn. lia.
Qed.

Lemma demo_holding_guarded c :
  class_ok 10 c -> (forall j, class_held c j = demo_mine j) ->
  guarded same_refs (fun _ => 0) (fun _ => 0) (demo_holding c).
Proof.
  intros O H. destruct demo_runtime_guarded as (W&_&Hb).
  pose proof (guarded_write same_refs demo_mine (fun _ => 0) (fun _ => 0) demo_runtime 10 class_zero c
    demo_runtime_guarded eq_refl O) as G.
  assert (demo_holding c = rset_classes (<[10%nat := c]> (rt_classes demo_runtime)) demo_runtime) as -> by done.
  apply G; [lia|]. intros j. rewrite H. change (class_held class_zero j) with (sumZ (fun sl => frame_held (rs_frame sl) j) (replicate 64 slot_zero)).
  rewrite sumZ_replicate. cbn. lia.
Qed.

Lemma demo_others n mine theirs s :
  guarded same_refs mine theirs s ->
  exists theirs', same_refs theirs theirs' /\ guarded same_refs mine theirs' (en_others demo_reorder_env n s).
Proof. intros G. by exists theirs. Qed.


Lemma reorder_worker_safe_witness :
  exists b s', _linkg_transport_reorder_worker demo_reorder_env 5 (demo_holding demo_window) = Some (b, s') /\
    held_later same_refs (fun _ => 0) (fun _ => 0) s'.
Proof.
  apply (reorder_worker_safe demo_reorder_env same_refs same_refs_preorder (fun _ => 0) (fun _ => 0) 5
    (demo_holding demo_window)).
  - apply demo_others.
  - apply demo_holding_guarded; [apply demo_window_ok|apply demo_window_held].
  - lia.
Defined.

Lemma reorder_reset_peer_spec_witness :
  fst <$> linkg_transport_reorder_reset_peer demo_reorder_env 3 7 (demo_holding demo_window) = Some (Some 0) /\
  exists o s', linkg_transport_reorder_reset_peer demo_reorder_env 3 7 (demo_holding demo_window) = Some (o, s') /\
    held_later same_refs (fun _ => 0) (fun _ => 0) s' /\
    (o = Some 0 -> peer_cleared same_refs 7 (fun _ => 0) (fun _ => 0) s').
Proof.
  split; [vm_compute; reflexivity|].
  apply (reorder_reset_peer_spec demo_reorder_env same_refs same_refs_preorder (fun _ => 0) (fun _ => 0) 3 7
    (demo_holding demo_window)).
  - apply demo_others.
  - apply demo_holding_guarded; [apply demo_window_ok|apply demo_window_held].
Defined.

Lemma reorder_complete_spec_witness :
  completes 10 (set_delivery 41 demo_window) (demo_frame 0 4, READY) = true /\
  exists code s',
    linkg_transport_reorder_complete_batch demo_reorder_env (Some [demo_frame 0 4]) (Some [READY]) 1
      (demo_holding (set_delivery 41 demo_window)) = Some (code, s') /\
    held_later same_refs (fun _ => 0) (fun _ => 0) s' /\
    (code = 0 -> batch_completed same_refs (take (Z.to_nat 1) (zip [demo_frame 0 4] [READY]))
       (fun _ => 0) (fun _ => 0) s').
Proof.
  split; [reflexivity|].
  apply (reorder_complete_spec demo_reorder_env same_refs same_refs_preorder (fun _ => 0) (fun _ => 0)
    [demo_frame 0 4] [READY] 1 (demo_holding (set_delivery 41 demo_window))).
  - apply demo_others.
  - apply demo_holding_guarded; [apply demo_window_delivering|apply demo_window_held].
  - lia.
  - cbn. intros f ->%list_elem_of_singleton. by compute.
Defined.
