(* ===== verification/TransportReorderProgress.v ===== *)
(** * In-order delivery: the pressure loop ends

    Without interference and without deliveries of other threads the loop that
    makes room for a frame beyond its window ends: the position advances, or the
    window loses a frame, or it moves far enough for the frame to fit. With the
    fuel given here [linkg_transport_reorder_submit_batch] always returns. *)

From stdpp Require Import sorting.
From S2P Require Import Prelude.
From S2P Require Import PacketStore.
From S2P Require Import PacketPool.
From S2P Require Import TransportTypes.
From S2P Require Import TransportReorder.
From S2P Require Import TransportReorderRuntime.
From S2P Require Import TransportReorderSafety.
From S2P Require Import TransportReorderSubmit.

Section Progress.
Context {S : Type} `{PS : PacketStore S} {PL : PacketStoreLaws S} (env : reorder_env S).
Context (step : (nat -> Z) -> (nat -> Z) -> Prop) `{Hpre : !PreOrder step}.
Hypothesis alone : forall n s, en_others env n s = s.
Hypothesis Hclock : forall k, 0 <= en_clock env k < 2 ^ 63.

Abbreviation runtime := (linkg_transport_reorder_runtime S).

Lemma alone_ok n mine theirs s : guarded step mine theirs s ->
  exists theirs', step theirs theirs' /\ guarded step mine theirs' (en_others env n s).
Proof. intros G. exists theirs. rewrite alone. split; [reflexivity|done]. Qed.

(** ** What an emission changes: deliveries end *)

Definition ended (s s' : runtime) : Prop :=
  forall ci, rt_classes s' !! ci = rt_classes s !! ci \/ rt_classes s' !! ci = end_delivery <$> (rt_classes s !! ci).

Lemma ended_refl s : ended s s.
Proof. intros ci. by left. Qed.

Lemma ended_same s s' : rt_classes s' = rt_classes s -> ended s s'.
Proof. intros E ci. left. by rewrite E. Qed.

Lemma ended_trans s1 s2 s3 : ended s1 s2 -> ended s2 s3 -> ended s1 s3.
Proof.
  intros H1 H2 ci. destruct (H2 ci) as [->| ->], (H1 ci) as [->| ->]; auto. right. by destruct (_ !! ci).
Qed.

Lemma ghost_ended s s' : ghost_eq s s' -> ended s s'.
Proof. intros E. apply ended_same. by rewrite (ghost_classes _ _ E). Qed.

Lemma wp_lock_alone (Q : Z -> runtime -> Prop) s :
  (forall r s', ghost_eq s s' -> Q r s') -> wp (mutex_lock env) Q s.
Proof.
  intros H. unfold mutex_lock. apply wp_bind, wp_observe. intros n s1 E1. apply wp_bind, wp_when; intros _.
  - apply wp_modify, wp_ret, H. by rewrite alone.
  - by apply wp_ret, H.
Qed.

Lemma complete_loop_ended M theirs fs changed s :
  guarded step M theirs s -> (forall f, f ∈ fs -> 0 <= rf_traffic_class f < LINKG_TRANSPORT_CLASS_COUNT) ->
  wp (complete_loop fs changed) (fun _ s' => ended s s') s.
Proof.
  revert changed s. induction fs as [|f fs IH]; intros changed s G Hf; cbn [complete_loop].
  { apply wp_ret, ended_refl. }
  assert (forall f, f ∈ fs -> 0 <= rf_traffic_class f < LINKG_TRANSPORT_CLASS_COUNT) as Hf' by (intros; apply Hf; by right).
  destruct (peer_index_range (rf_peer f)) as [Hp|Hp].
  { replace (_ <? 0) with true by (symmetry; by apply Z.ltb_lt). by apply IH. }
  replace (_ <? 0) with false by (symmetry; apply Z.ltb_ge; lia).
  destruct (guarded_class step M theirs s (class_index (Z.to_nat (_linkg_transport_reorder_peer_index (rf_peer f))) (rf_traffic_class f)) G)
    as (c&N&Hc&_&_); [apply class_index_range; [lia|apply Hf; left]|].
  apply wp_bind. eapply wp_class_read; [exact Hc|]. case_match; [|by apply IH].
  apply wp_bind. eapply wp_class_write; [exact Hc|].
  eapply wp_mono; [apply IH; [by apply end_delivery_write|done]|]. intros b s' He.
  eapply ended_trans; [|exact He]. intros cj. cbn. rewrite lookup_insert_case by by eapply lookup_lt_Some.
  case_decide as E; [right|by left]. by rewrite <- E, Hc.
Qed.

Lemma emit_batch_ended M theirs emit E s :
  (forall j, 0 <= M j) -> emit_ok step emit -> guarded step (owing M E) theirs s -> emittable M E ->
  wp (_linkg_transport_reorder_emit_batch env emit E) (fun _ s' => ended s s') s.
Proof.
  intros HM He G Hf. unfold _linkg_transport_reorder_emit_batch. destruct E as [|x E]; [apply wp_ret, ended_refl|].
  set (fr := x :: E) in *. destruct (call_emit step M theirs emit fr s HM He G Hf) as (st'&theirs'&Es&Ht&G1).
  apply wp_bind. eapply wp_store; [exact Es|].
  apply wp_bind. eapply wp_mono; [by apply release_owned_spec|]. intros [] s2 (G2&E2&_).
  apply wp_bind, wp_lock_alone. intros r s3 E3. pose proof (ghost_guarded step _ _ _ _ E3 G2) as G3.
  assert (ended s s3) as H3.
  { apply ended_same. by rewrite (ghost_classes _ _ E3), E2. }
  case_match; [by apply wp_ret|].
  apply wp_bind. unfold _linkg_transport_reorder_complete_emit_locked. apply wp_bind.
  eapply wp_mono; [eapply complete_loop_ended; [exact G3|]|].
  { intros f (y&->&Hy)%list_elem_of_fmap. by apply Hf. }
  intros ch s4 H4. apply wp_when_broadcast. intros s5 E5. apply wp_bind, wp_unlock. intros r' s6 E6.
  apply wp_ret. eapply ended_trans; [exact H3|]. eapply ended_trans; [exact H4|].
  eapply ended_trans; by apply ghost_ended.
Qed.

Lemma emit_and_relock_ended M theirs emit E s :
  (forall j, 0 <= M j) -> emit_ok step emit -> guarded step (owing M E) theirs s -> emittable M E ->
  wp (_linkg_transport_reorder_emit_and_relock env emit E) (fun rl s' => ended s s') s.
Proof.
  intros HM He G Hf. unfold _linkg_transport_reorder_emit_and_relock.
  apply wp_bind, wp_unlock. intros r s1 E1. pose proof (ghost_guarded step _ _ _ _ E1 G) as G1.
  pose proof (ghost_ended _ _ E1) as D1. case_match; [by apply wp_ret|].
  apply wp_bind. eapply wp_mono; [apply (emit_batch_ended M theirs emit E s1 HM He G1 Hf)|]. intros b s2 D2.
  apply wp_bind, wp_lock_alone. intros r' s3 E3. pose proof (ghost_ended _ _ E3) as D3.
  assert (ended s s3) by (eapply ended_trans; [exact D1|eapply ended_trans; [exact D2|exact D3]]).
  case_match; by apply wp_ret.
Qed.

(** ** Deliveries of this thread only *)

Definition calm (s : runtime) : Prop :=
  forall ci c, rt_classes s !! ci = Some c -> rc_delivery_in_progress c = true ->
    rc_delivery_thread c = en_self env.

Lemma calm_same s s' : rt_classes s' = rt_classes s -> calm s -> calm s'.
Proof. intros E H ci c. rewrite E. apply H. Qed.

Lemma calm_ended s s' : ended s s' -> calm s -> calm s'.
Proof.
  intros H C ci c Hc Hd. destruct (H ci) as [E|E]; rewrite E in Hc; [by eapply C|].
  destruct (rt_classes s !! ci); [|done]. injection Hc as <-. done.
Qed.

Lemma calm_write s ci c c' :
  calm s -> rt_classes s !! ci = Some c -> kept_thread env c c' ->
  calm (rset_classes (<[ci := c']> (rt_classes s)) s).
Proof.
  intros C Hc K cj d. cbn. rewrite lookup_insert_case by by eapply lookup_lt_Some.
  case_decide as E; [|apply C]. intros [= <-] Hd. destruct (K Hd) as [|[Hd' ->]]; [done|]. by eapply C.
Qed.

Lemma group_calm M theirs g frames s r0 e s' r' out :
  (group_class g < length (rt_classes s))%nat ->
  group_post env step M theirs g frames s r0 e s' r' out -> calm s -> calm s'.
Proof.
  intros Hl P C ci c Hc Hd. destruct (decide (ci = group_class g)) as [->|Hne].
  - destruct (lookup_lt_is_Some_2 _ _ Hl) as [c0 Hc0].
    destruct (gq_thread _ _ _ _ _ _ _ _ _ _ _ _ P c0 c Hc0 Hc Hd) as [|[Hd0 ->]]; [done|]. by eapply C.
  - rewrite (gq_other _ _ _ _ _ _ _ _ _ _ _ _ P) in Hc by done. by eapply C.
Qed.

Lemma calm_self_delivering s ci c :
  calm s -> rt_classes s !! ci = Some c -> rc_delivery_in_progress c = true ->
  existsb (delivering_here env) (rt_classes s) = true.
Proof.
  intros C Hc Hd. apply existsb_exists. exists c. split; [by eapply list_elem_of_In, list_elem_of_lookup_2|].
  unfold delivering_here. rewrite Hd, (C ci c Hc Hd). by rewrite Z.eqb_refl.
Qed.

(** ** The loop *)

Section Loop.
Context (M : nat -> Z) (emit : linkg_transport_reorder_emit_func_t S).
Context (g : linkg_transport_reorder_group) (frames : list linkg_transport_reorder_frame) (n : nat).
Hypothesis HM : forall j, 0 <= M j /\ M j + 64 <= 2 ^ 30.
Hypothesis Hemit : emit_ok step emit.
Hypothesis Hg : group_ok M g frames n.

Let order := _linkg_transport_reorder_sort_group g frames.
Let ci := group_class g.

Definition slots_of (s : runtime) : Z :=
  match rt_classes s !! ci with Some c => rc_slot_count c | None => 0 end.

(** The frame at [position] does not fit the window. *)
Definition blocked (position : nat) (s : runtime) : bool :=
  match rt_classes s !! ci, order !! position with
  | Some c, Some i => beyond_window c (frame_sequence (frame_at frames i))
  | _, _ => false
  end.

(** Bound on the remaining rounds. *)
Definition need (position : nat) (s : runtime) : Z :=
  130 * Z.of_nat (length order - position) + 2 * slots_of s + if blocked position s then 1 else 0.

Lemma slots_range theirs s : guarded step M theirs s -> 0 <= slots_of s <= 64.
Proof.
  intros G. unfold slots_of. destruct (rt_classes s !! ci) as [c|] eqn:E; [|lia].
  destruct (co_at _ _ (rw_class _ _ (proj1 G) ci c E)) as [N W]. by apply (count_range c N).
Qed.

Lemma need_next theirs position position' s s' theirs' :
  guarded step M theirs s -> guarded step M theirs' s' -> (position < position')%nat ->
  (position < length order)%nat -> need position' s' < need position s.
Proof.
  intros G G' Hp Hl. pose proof (slots_range _ _ G). pose proof (slots_range _ _ G'). unfold need.
  destruct (blocked position s), (blocked position' s'); lia.
Qed.

Lemma slots_ended s s' : ended s s' -> slots_of s' = slots_of s.
Proof. intros H. unfold slots_of. destruct (H ci) as [->| ->]; [done|]. by destruct (rt_classes s !! ci). Qed.

Definition returns (o : option (Z * list linkg_transport_reorder_result * bool * bool)) (s : runtime) : Prop :=
  o <> None /\ calm s.

(** Emit and go on. *)
Lemma emit_on_alone theirs E (k : Prelude.M runtime _) (fail : Z * bool -> Z * list linkg_transport_reorder_result * bool * bool) s :
  guarded step (owing M E) theirs s -> emittable M E -> calm s ->
  (forall s' theirs', guarded step M theirs' s' -> ended s s' -> calm s' -> wp k returns s') ->
  wp (if (0 <? length E)%nat
      then rl ← _linkg_transport_reorder_emit_and_relock env emit E;
           if negb (fst rl =? 0) then mret (Some (fail rl)) else k
      else k) returns s.
Proof.
  intros G He C Hk. assert (forall j, 0 <= M j) as Hnn by (intros; apply HM).
  destruct (Nat.ltb_spec 0 (length E)) as [_|Hl].
  - apply wp_bind. eapply wp_mono; [apply wp_and|].
    + by apply (emit_and_relock_spec env step alone_ok M theirs).
    + by apply (emit_and_relock_ended M theirs).
    + intros rl s' [Hs Hend]. pose proof (calm_ended _ _ Hend C) as C'.
      destruct (Z.eqb_spec (fst rl) 0) as [Hz|Hz]; cbn [negb]; [|by apply wp_ret].
      destruct (proj1 Hs (or_introl Hz)) as (t&_&G'). by eapply Hk.
  - destruct E; [|cbn in Hl; lia]. apply (Hk s theirs); [|apply ended_refl|done].
    eapply guarded_ext; [|exact G]. intros j. unfold owing, owned_held. cbn. lia.
Qed.

Lemma pressure_thread self c q cap :
  rc_delivery_in_progress c = false ->
  let '(c', out) := _linkg_transport_reorder_take_pressure_locked self c q cap in
  out <> [] -> rc_delivery_thread c' = self.
Proof.
  intros Hd. unfold _linkg_transport_reorder_take_pressure_locked.
  match goal with |- context [if ?b then (c, []) else _] => destruct b; [done|] end.
  destruct (pressure_take _ _ _ _) as [c' out]. destruct out; [done|]. by intros _.
Qed.

(** Making room: fewer buffered frames, or the incoming frame fits. *)
Lemma take_pressure_progress theirs c f s cap :
  guarded step M theirs s -> rt_classes s !! ci = Some c -> placed ci f -> (0 < cap)%nat ->
  beyond_window c (frame_sequence f) = true -> rc_delivery_in_progress c = false ->
  exists c' out,
    _linkg_transport_reorder_take_pressure_locked (en_self env) c (frame_sequence f) cap = (c', out) /\
    kept_thread env c c' /\ rc_slot_count c = Z.of_nat (length out) + rc_slot_count c' /\
    (out = [] -> beyond_window c' (frame_sequence f) = false).
Proof.
  intros G Hc Hp Hcap Hb Hd. pose proof (rw_class _ _ (proj1 G) ci c Hc) as O. destruct (co_at _ _ O) as [N W].
  unfold beyond_window in Hb. rewrite (ca_expected _ _ W) in Hb. zb.
  destruct (ahead_number N (frame_sequence f) (pl_sequence _ _ Hp)) as (q&Eq&Hq&Ed); [done|].
  unfold LINKG_TRANSPORT_REORDER_WINDOW_SIZE in *.
  pose proof (pressure_thread (en_self env) c (u32 q) cap Hd) as Ht.
  destruct (take_pressure_fact (en_self env) c N q cap W Hd Hcap)
    as (c'&N'&out&E&A&Eout&Hl&_&Hm&Hfit); [lia|]. rewrite E in Ht.
  exists c', out. rewrite Eq. splits; [done| | |].
  - intros Hd'. left. apply Ht. intros ->. by rewrite Hm in Hd'.
  - rewrite Eout. by apply (count_advanced c N).
  - intros ->. specialize (Hfit Hcap). unfold beyond_window.
    rewrite (ca_expected _ _ (ad_at _ _ _ _ A)), before_spec by lia. rewrite distance_spec by lia.
    unfold LINKG_TRANSPORT_REORDER_WINDOW_SIZE. bsimp. by rewrite !andb_false_r.
Qed.

(** The first frame that fits is part of the selection. *)
Lemma select_partial_first i rest r base position :
  (unprocessed r i && negb (_linkg_transport_reorder_sequence_before (sequence_at frames i) base) &&
   (LINKG_TRANSPORT_REORDER_WINDOW_SIZE <=? u32 (sequence_at frames i - base))) = false ->
  exists m, (m <= length rest)%nat /\
    select_partial (i :: rest) frames r base [] position = (i :: take m rest, Datatypes.S (position + m)).
Proof.
  intros H. cbn [select_partial app]. rewrite H.
  destruct (select_partial_spec rest frames r base [i] (Datatypes.S position)) as (m&Hm&->).
  exists m. split; [done|]. f_equal.
Qed.

Abbreviation loop_at fuel := (fun p r w => pressure_loop env fuel g order frames emit p r w).

(** What the induction gives for the rest of the loop. *)
Definition continues (fuel : nat) : Prop :=
  forall position r w s theirs, guarded step M theirs s -> calm s -> length r = n ->
    need position s < Z.of_nat fuel ->
    wp (pressure_loop env fuel g order frames emit position r w) returns s.

Lemma partial_alone fuel position position' indices r w s s0 theirs theirs0 :
  continues fuel -> guarded step M theirs0 s0 -> need position s0 < Z.of_nat (Datatypes.S fuel) ->
  guarded step M theirs s -> calm s -> length r = n ->
  (position < position')%nat ->
  indices = take (position' - position) (drop position order) -> indices <> [] ->
  wp (if (length indices =? 0)%nat then pressure_loop env fuel g order frames emit position r w
      else
        now_us ← time_monotonic_us env;
        x ← _linkg_transport_reorder_process_group_locked env
              (ReorderGroup indices (gr_peer_index g) (gr_traffic_class g)) frames r [] now_us w;
        let '(r1, emitted, w1) := x in
        when w1 cond_broadcast ;;
        let '(r2, E) :=
          if (length emitted =? 0)%nat then emit_ready indices frames r1 [] else (r1, emitted) in
        if (0 <? length E)%nat then
          rl ← _linkg_transport_reorder_emit_and_relock env emit E;
          if negb (fst rl =? 0) then mret (Some (fst rl, r2, w1, snd rl))
          else pressure_loop env fuel g order frames emit position' r2 w1
        else pressure_loop env fuel g order frames emit position' r2 w1) returns s.
Proof.
  intros IH G0 Hneed G C L Hp Ei Hne.
  replace (length indices =? 0)%nat with false by (symmetry; apply Nat.eqb_neq; by destruct indices).
  assert (forall i, i ∈ indices -> i ∈ order) as Hin by (intros i; subst indices; apply part_in).
  apply wp_bind. unfold time_monotonic_us. apply wp_bind, wp_observe. intros tk s1 E1. apply wp_ret.
  pose proof (ghost_guarded step _ _ _ _ E1 G) as G1.
  pose proof (calm_same _ _ (ghost_classes _ _ E1) C) as C1.
  apply wp_bind. eapply wp_mono.
  { apply (process_group_spec env step M theirs); [exact G1| |apply Hclock|intros; apply HM].
    rewrite L. by apply (part_ok M g frames n Hg indices position (position' - position)). }
  intros [[r1 e1] w1] s2 (out&->&P). cbn [app]. apply wp_bind, wp_when_broadcast. intros s3 E3.
  fold (emitted_part frames indices r1 ((fun f => (f, true)) <$> out)).
  destruct (emitted_part frames indices r1 _) as [r2 E] eqn:HE.
  destruct (emitted_part_spec env step M g frames n HM Hg indices theirs s1 s2 r out r1 r2 E) as (G2&Em&V2&_); try done.
  assert (calm s3) as C3.
  { apply (calm_same s2); [by apply ghost_classes|]. eapply group_calm; [|exact P|exact C1].
    rewrite (rw_len _ _ (proj1 G1)). apply Hg. }
  refine (emit_on_alone theirs E _ (fun rl => (fst rl, r2, w1, snd rl)) s3 _ Em C3 _).
  - by eapply ghost_guarded.
  - intros s4 t4 G4 _ C4. apply (IH _ _ _ _ t4); [done|done|by rewrite (vk_len _ _ _ V2)|].
    assert (position < length order)%nat as Hlt.
    { destruct (decide (position < length order)%nat); [done|]. subst indices. rewrite drop_ge in Hne by lia.
      by rewrite take_nil in Hne. }
    pose proof (need_next _ position position' s0 s4 _ G0 G4 Hp Hlt). lia.
Qed.

Lemma wp_jump_alone theirs (b : bool) c f s (Q : unit -> runtime -> Prop) :
  guarded step M theirs s -> calm s -> rt_classes s !! ci = Some c -> placed ci f ->
  (b = true -> rc_slot_count c = 0 /\ rc_delivery_in_progress c = false) ->
  (forall s' c', guarded step M theirs s' -> calm s' -> rt_classes s' !! ci = Some c' ->
     rc_slot_count c' = rc_slot_count c -> c' = c \/ beyond_window c' (frame_sequence f) = false -> Q tt s') ->
  wp (when b (class_write ci (set_expected (frame_sequence f) c))) Q s.
Proof.
  intros G C Hc Hp Hb H.
  assert (forall s', guarded step M theirs s' /\ calm s' /\ (exists c', rt_classes s' !! ci = Some c' /\
    rc_slot_count c' = rc_slot_count c /\ (c' = c \/ beyond_window c' (frame_sequence f) = false)) -> Q tt s') as H'.
  { intros s' (G'&C'&c'&Hc'&?&?). by apply (H s' c'). }
  apply wp_when; intros Eb; [|apply H'; splits; [done|done|exists c; auto]].
  eapply wp_class_write; [exact Hc|]. destruct (Hb Eb) as [Hz Hd].
  pose proof (rw_class _ _ (proj1 G) ci c Hc) as O. destruct (co_at _ _ O) as [N W].
  destruct (jump_empty c N (frame_sequence f) W Hz (pl_sequence _ _ Hp)) as (N'&_&A).
  apply H'. splits.
  - apply (guarded_write step M M theirs s ci c); [done|done| |apply G|done].
    eapply class_ok_advanced; [done|done|exact A|]. cbn. congruence.
  - eapply calm_write; [done|exact Hc|]. by apply kept_idle.
  - exists (set_expected (frame_sequence f) c). cbn. rewrite lookup_insert_case by by eapply lookup_lt_Some.
    rewrite decide_True by done. splits; [done|done|right]. unfold beyond_window. cbn. rewrite Z.sub_diag.
    by rewrite !andb_false_r.
Qed.

(** The pressure step, when nothing fits yet. *)
Lemma pressure_alone fuel position r w c i s s0 theirs theirs0 :
  continues fuel -> guarded step M theirs0 s0 -> need position s0 < Z.of_nat (Datatypes.S fuel) ->
  guarded step M theirs s -> calm s -> length r = n -> order !! position = Some i ->
  rt_classes s !! ci = Some c -> beyond_window c (frame_sequence (frame_at frames i)) = true ->
  rc_delivery_in_progress c = false -> slots_of s0 = rc_slot_count c -> blocked position s0 = true ->
  wp (let '(current, output) :=
        _linkg_transport_reorder_take_pressure_locked (en_self env) c (frame_sequence (frame_at frames i))
          (Z.to_nat LINKG_TRANSPORT_REORDER_EMIT_BATCH_MAX) in
      class_write ci current ;;
      if (0 <? length output)%nat then
        rl ← _linkg_transport_reorder_emit_and_relock env emit ((fun f => (f, true)) <$> output);
        if negb (fst rl =? 0) then mret (Some (fst rl, r, w, snd rl))
        else pressure_loop env fuel g order frames emit position r w
      else pressure_loop env fuel g order frames emit position r w) returns s.
Proof.
  intros IH G0 Hneed G C L Ei Hc Hb Hd Hs0 Hb0.
  assert (placed ci (frame_at frames i)) as Hp.
  { apply (order_frame M g frames n Hg). by eapply list_elem_of_lookup_2. }
  destruct (take_pressure_progress theirs c (frame_at frames i) s (Z.to_nat LINKG_TRANSPORT_REORDER_EMIT_BATCH_MAX))
    as (c'&out&E&Hk&Hcount&Hfit); [done|done|done|apply Nat.ltb_lt; reflexivity|done|done|].
  destruct (take_pressure_safe env step M g HM theirs c (frame_at frames i) s G Hc Hp Hb Hd) as (c1&out1&E1&G'&He).
  rewrite E in E1. injection E1 as <- <-. rewrite E.
  apply wp_bind. eapply wp_class_write; [exact Hc|]. set (s1 := rset_classes _ s) in *.
  assert (rt_classes s1 !! ci = Some c') as Hc1.
  { cbn. rewrite lookup_insert_case by by eapply lookup_lt_Some. by rewrite decide_True. }
  rewrite <- (length_fmap (fun f => (f, true)) out).
  refine (emit_on_alone theirs _ _ (fun rl => (fst rl, r, w, snd rl)) s1 G' He (calm_write _ _ _ _ C Hc Hk) _).
  intros s2 t2 G2 Hend C2. apply (IH _ _ _ _ t2); [done|done|done|].
  pose proof (slots_ended _ _ Hend) as E2. unfold slots_of at 2 in E2. rewrite Hc1 in E2.
  unfold need in *. rewrite Hb0, Hs0 in Hneed. rewrite E2. destruct out as [|f out].
  - assert (blocked position s2 = false) as ->; [|cbn [length] in Hcount; lia].
    unfold blocked. rewrite Ei. destruct (Hend ci) as [-> | ->]; rewrite Hc1; [by apply Hfit|].
    specialize (Hfit eq_refl). done.
  - cbn [length] in Hcount. destruct (blocked position s2); lia.
Qed.

Lemma pressure_loop_continues fuel : continues fuel.
Proof.
  induction fuel as [|fuel IH]; intros position r w s theirs G C L Hneed.
  { pose proof (slots_range _ _ G). unfold need in Hneed. destruct (blocked _ _); lia. }
  cbn [pressure_loop]. destruct (order !! position) as [i|] eqn:Ei; [|by apply wp_ret].
  assert (position < length order)%nat as Hlt by by eapply lookup_lt_Some.
  assert (i ∈ order) as Hin by by eapply list_elem_of_lookup_2.
  destruct (order_frame M g frames n Hg i Hin) as (Hi&Hp&_).
  assert (forall s' t' r', guarded step M t' s' -> calm s' -> length r' = n ->
    wp (pressure_loop env fuel g order frames emit (Datatypes.S position) r' w) returns s') as Hnext.
  { intros s' t' r' G' C' L'. apply (IH _ _ _ _ t'); [done|done|done|].
    pose proof (need_next _ position (Datatypes.S position) s s' _ G G' ltac:(lia) Hlt). lia. }
  destruct (unprocessed r i) eqn:Eu; cbn [negb]; [|by eapply Hnext].
  assert (ci < class_total)%nat as Hci by apply Hg.
  fold (group_class g). fold ci. apply wp_bind, wp_get. apply wp_bind.
  eapply (wp_mono _ (fun _ s' => ghost_eq s s')).
  { destruct (rt_running s); cbn [negb]; [|apply wp_ret, ghost_refl].
    apply wp_bind, wp_epoch. intros b s1 E1.
    destruct (guarded_class step M theirs s1 ci) as (c&_&Hc&_&_); [by eapply ghost_guarded|done|].
    apply wp_bind. eapply wp_class_read; [exact Hc|]. by apply wp_ret. }
  intros stale s1 E1. pose proof (ghost_guarded step _ _ _ _ E1 G) as G1.
  pose proof (ghost_classes _ _ E1) as Ecl. pose proof (calm_same _ _ Ecl C) as C1.
  destruct stale; [apply (Hnext _ theirs); [done|done|by rewrite length_insert]|].
  destruct (guarded_class step M theirs s1 ci G1 Hci) as (c&_&Hc&_&_).
  apply wp_bind. eapply wp_class_read; [exact Hc|]. apply wp_bind.
  apply (wp_jump_alone theirs _ c (frame_at frames i) s1); [done|done|done|done|by intros E; zb|].
  intros s2 c2 G2 C2 Hc2 Hcount Hjump. apply wp_bind. eapply wp_class_read; [exact Hc2|].
  destruct (beyond_window c2 (frame_sequence (frame_at frames i))) eqn:Eb.
  - destruct (rc_delivery_in_progress c2) eqn:Ed.
    + apply wp_bind. unfold _linkg_transport_reorder_self_delivering_locked. apply wp_bind, wp_get, wp_ret.
      rewrite (calm_self_delivering s2 ci c2 C2 Hc2 Ed). apply (Hnext _ theirs); [done|done|by rewrite length_insert].
    + apply (pressure_alone fuel position r w c2 i s2 s theirs theirs); try done.
      * unfold slots_of. rewrite <- Ecl, Hc. done.
      * unfold blocked. rewrite <- Ecl, Hc, Ei. by destruct Hjump as [<-|].
  - rewrite (drop_S _ i) by done.
    destruct (select_partial_first i (drop (Datatypes.S position) order) r
      (if rc_expected_initialized c2 then rc_expected_sequence c2 else frame_sequence (frame_at frames i)) position)
      as (m&Hm&->).
    { unfold beyond_window in Eb. change (sequence_at frames i) with (frame_sequence (frame_at frames i)).
      destruct (rc_expected_initialized c2); [|rewrite Z.sub_diag; by rewrite andb_false_r].
      cbn [andb] in Eb. by rewrite <- andb_assoc, Eb, andb_false_r. }
    apply (partial_alone fuel position (Datatypes.S (position + m)) (i :: take m (drop (Datatypes.S position) order))
      r w s2 s theirs theirs); try done; [lia|].
    rewrite (drop_S order i position) by done. by replace (Datatypes.S (position + m) - position)%nat with (Datatypes.S m) by lia.
Qed.

End Loop.

(** ** The batch *)

Definition batch_fuel : nat := 4291.

Lemma need_bound M theirs g frames s position :
  guarded step M theirs s -> (length (gr_indices g) <= 32)%nat ->
  need g frames position s < Z.of_nat batch_fuel.
Proof.
  intros G Hl. pose proof (slots_range M g theirs s G) as Hs. unfold need.
  rewrite <- (sort_group_perm frames g) in Hl. unfold batch_fuel. destruct (blocked g frames position s); lia.
Qed.

Section Alone.
Context (M : nat -> Z) (emit : linkg_transport_reorder_emit_func_t S).
Context (frames : list linkg_transport_reorder_frame) (n fuel : nat).
Hypothesis HM : forall j, 0 <= M j <= 2 ^ 29.
Hypothesis Hemit : emit_ok step emit.
Hypothesis Hfuel : (batch_fuel <= fuel)%nat.

Lemma pressure_groups_alone theirs gs r w s :
  guarded step M theirs s -> calm s -> length r = n ->
  (forall g, g ∈ gs -> group_ok M g frames n /\ (length (gr_indices g) <= 32)%nat) ->
  wp (pressure_groups env fuel gs frames emit r w) (fun o _ => o <> None) s.
Proof.
  assert (forall j, 0 <= M j) as Hnn by (intros j; apply HM).
  assert (forall j, 0 <= M j /\ M j + 64 <= 2 ^ 30) as HM' by (intros j; specialize (HM j); lia).
  revert theirs r w s. induction gs as [|g gs IH]; intros theirs r w s G C Hlen Hg; cbn [pressure_groups].
  { by apply wp_ret. }
  destruct (Hg g ltac:(left)) as [Hg0 Hl0].
  assert (forall h, h ∈ gs -> group_ok M h frames n /\ (length (gr_indices h) <= 32)%nat) as Hgs by (intros; apply Hg; by right).
  assert (forall code r' w' (b : bool) s', wp (when b (_ ← mutex_unlock env; mret tt) ;;
    mret (Some (false, code : Z, r' : list linkg_transport_reorder_result, w' : bool)))
    (fun o _ => o <> None) s') as Hstop.
  { intros. apply wp_bind, wp_when; intros _; [|by apply wp_ret]. apply wp_bind, wp_unlock. intros. by apply wp_ret, wp_ret. }
  apply wp_bind. apply (wp_needs_pressure step M frames n theirs); [done|done|]. intros [].
  - apply wp_bind. eapply wp_mono; [apply wp_and|].
    + apply (pressure_loop_spec env step alone_ok M emit g frames n HM' Hemit Hclock Hg0 theirs r w fuel 0 r s theirs);
        [done|done|]. split; [done|apply verdicts_refl|]. intros i Hi. by apply elem_of_nil in Hi.
    + apply (pressure_loop_continues M emit g frames n HM' Hemit Hg0 fuel 0%nat r w s theirs); [done|done|done|].
      pose proof (need_bound M theirs g frames s 0 G Hl0). lia.
    + intros [[[[code r1] w1] held]|] s1 [Hr [Hne C1]]; [|done]. destruct Hr as (Hs&L&_&_).
      destruct (Z.eqb_spec code 0) as [->|Hc]; cbn [negb]; [|by apply Hstop].
      destruct (proj1 Hs (or_introl eq_refl)) as (t&_&G1). by apply (IH t).
  - apply wp_bind. unfold time_monotonic_us. apply wp_bind, wp_observe. intros tk s1 E1. apply wp_ret.
    pose proof (ghost_guarded step _ _ _ _ E1 G) as G1. apply wp_bind. eapply wp_mono.
    { apply (process_group_spec env step M theirs); [exact G1|by rewrite Hlen|apply Hclock|apply HM']. }
    intros [[r1 e1] w1] s2 (out&->&P). cbn [app].
    destruct (group_emits _ _ _ _ _ _ _ _ _ _ _ _ Hnn P) as [G2 Em].
    assert (calm s2) as C2.
    { eapply group_calm; [|exact P|]; [rewrite (rw_len _ _ (proj1 G1)); apply Hg0|].
      eapply calm_same; [by apply ghost_classes|done]. }
    assert (length r1 = n) as L1 by by rewrite (vk_len _ _ _ (gq_verdicts _ _ _ _ _ _ _ _ _ _ _ _ P)).
    destruct (Nat.ltb_spec 0 (length ((fun f => (f, true)) <$> out))) as [_|Hl].
    + apply wp_bind. eapply wp_mono; [apply wp_and|].
      * by apply (emit_and_relock_spec env step alone_ok M theirs).
      * by apply (emit_and_relock_ended M theirs).
      * intros rl s3 [Hs Hend]. destruct (Z.eqb_spec (fst rl) 0) as [Hz|Hz]; cbn [negb]; [|by apply Hstop].
        destruct (proj1 Hs (or_introl Hz)) as (t&_&G3). apply (IH t); [done|by eapply calm_ended|done|done].
    + rewrite length_fmap in Hl. destruct out; [|cbn in Hl; lia]. apply (IH theirs); [|done|done|done].
      eapply guarded_ext; [|exact G2]. intros j. unfold owing, owned_held. cbn. lia.
Qed.
End Alone.

Lemma groups_small frames k pis g :
  (k <= 32)%nat -> g ∈ _linkg_transport_reorder_build_groups frames k pis -> (length (gr_indices g) <= 32)%nat.
Proof.
  intros Hk Hg. destruct (build_groups_fact frames k pis) as [_ _ Hi _ _]. rewrite (Hi g Hg).
  etrans; [apply length_filter|]. by rewrite length_seq.
Qed.

Lemma submit_returns M theirs fuel frames count old s :
  guarded step M theirs s -> calm s -> (forall j, 0 <= M j <= 2 ^ 29) -> (batch_fuel <= fuel)%nat ->
  let n := Z.to_nat count in
  (n <= length frames)%nat -> (n <= length old)%nat -> (forall f, f ∈ take n frames -> caller_frame M f) ->
  0 <= count ->
  wp (linkg_transport_reorder_submit_batch env fuel (Some frames) count (Some old)) (fun o _ => o <> None) s.
Proof.
  intros G C HM Hfuel n Hfr Hold Hcf Hcount. unfold linkg_transport_reorder_submit_batch.
  case_match; [by apply wp_ret|]. destruct (Z.ltb_spec LINKG_TRANSPORT_REORDER_SUBMIT_BATCH_MAX count) as [Hmax|Hmax]; [by apply wp_ret|].
  fold n. set (r := replicate n UNPROCESSED ++ drop n old).
  assert (length r = length old) as L by (unfold r; rewrite length_app, length_replicate, length_drop; lia).
  destruct (batch_peers (take n frames)) as [pis|] eqn:Eb; [|by apply wp_ret].
  assert (forall g, g ∈ _linkg_transport_reorder_build_groups frames n pis ->
    group_ok M g frames (length old) /\ (length (gr_indices g) <= 32)%nat) as Hg.
  { intros g Hg. split; [by apply (groups_ok M frames n pis)|]. eapply groups_small; [|exact Hg].
    unfold n. unfold LINKG_TRANSPORT_REORDER_SUBMIT_BATCH_MAX in Hmax. lia. }
  apply wp_bind, wp_lock_alone. intros ret s1 E1. pose proof (ghost_guarded step _ _ _ _ E1 G) as G1.
  pose proof (calm_same _ _ (ghost_classes _ _ E1) C) as C1.
  case_match; [by apply wp_ret|]. apply wp_bind, wp_get. destruct (_ || _) eqn:Ei.
  { apply wp_bind, wp_unlock. intros r2 s2 E2. by apply wp_ret. }
  apply orb_false_iff in Ei as [_ Erun%negb_false_iff].
  destruct (rw_running _ _ (proj1 G1) Erun) as [emit Ee]. pose proof (rw_emit _ _ (proj1 G1) emit Ee) as He.
  apply wp_bind. eapply wp_of_option; [exact Ee|]. apply wp_bind.
  apply (wp_any_pressure step M frames (length old) theirs); [done|intros; by apply Hg|]. intros [].
  - apply wp_bind. eapply wp_mono; [by apply (pressure_groups_alone M emit frames (length old) fuel HM He Hfuel theirs)|].
    intros [[[[[] code] r'] w']|] s2 Hne; [| |done].
    + apply wp_bind, wp_when_broadcast. intros s3 E3. apply wp_bind, wp_unlock. intros. by apply wp_ret.
    + by apply wp_ret.
  - eapply wp_mono; [apply (plain_batch_spec env step alone_ok M theirs theirs emit frames n pis r old); try done; intros; by apply Hg|].
    by intros o s2 [? _].
Qed.
End Progress.

(** C29: without interference and without deliveries of other
    threads, submitting a batch always returns: 4291 rounds of the pressure loop
    suffice, since each one decides a frame, takes a frame out of the window or
    makes the incoming frame fit. The call then reports an error or has decided
    every frame. *)
Theorem reorder_submit_returns {S} `{PL : PacketStoreLaws S} (env : reorder_env S)
    (step : (nat -> Z) -> (nat -> Z) -> Prop) (Hstep : PreOrder step)
    (M theirs : nat -> Z) (fuel : nat) (frames : list linkg_transport_reorder_frame) (count : Z)
    (results : list linkg_transport_reorder_result) (s : linkg_transport_reorder_runtime S) :
  (forall n s, en_others env n s = s) -> (forall k, 0 <= en_clock env k < 2 ^ 63) -> calm env s ->
  guarded step M theirs s -> (forall j, 0 <= M j <= 2 ^ 29) -> (batch_fuel <= fuel)%nat ->
  0 <= count -> (Z.to_nat count <= length frames)%nat -> (Z.to_nat count <= length results)%nat ->
  (forall f, f ∈ take (Z.to_nat count) frames -> caller_frame M f) ->
  exists code r s', linkg_transport_reorder_submit_batch env fuel (Some frames) count (Some results) s =
      Some (Some (code, Some r), s') /\ length r = length results /\
    (code = 0 -> forall i, (i < Z.to_nat count)%nat -> result_at r i <> UNPROCESSED).
Proof.
  intros Ho Hclock C G HM Hfuel Hc Hf Hr Hcf.
  destruct (wp_elim _ _ _ (wp_and _ _ _ _
    (submit_batch_spec env step (alone_ok env step Ho) M theirs fuel frames count results s Hclock G HM Hf Hr Hcf Hc)
    (submit_returns env step Ho Hclock M theirs fuel frames count results s G C HM Hfuel Hf Hr Hcf Hc)))
    as ([[code res]|]&s'&E&P&Hne); [|done].
  destruct P as (_&r&->&L&Hv). by exists code, r, s'.
Qed.

#[local] Instance demo_progress_store : PacketStore linkg_packet_pool := pool_store mutex_default.
#[local] Instance demo_progress_laws : PacketStoreLaws linkg_packet_pool :=
  pool_store_laws mutex_default mutex_default_ok.

Lemma reorder_submit_returns_witness :
  exists code r s',
    linkg_transport_reorder_submit_batch demo_reorder_env batch_fuel (Some [demo_frame 1 5; demo_frame 2 105]) 2
      (Some [STALE; STALE]) demo_runtime = Some (Some (code, Some r), s') /\ length r = length [STALE; STALE] /\
    (code = 0 -> forall i, (i < Z.to_nat 2)%nat -> result_at r i <> UNPROCESSED).
Proof.
  apply (reorder_submit_returns demo_reorder_env same_refs same_refs_preorder demo_mine (fun _ => 0) batch_fuel
    [demo_frame 1 5; demo_frame 2 105] 2 [STALE; STALE] demo_runtime).
  - done.
  - intros k. cbn [en_clock demo_reorder_env]. lia.
  - intros ci c [-> _]%lookup_replicate. done.
  - apply demo_runtime_guarded.
  - apply demo_mine_range.
  - lia.
  - lia.
  - cbn. lia.
  - cbn. lia.
  - intros f Hf. repeat (apply elem_of_cons in Hf as [->|Hf];
      [split; [by compute|by compute|by compute|intros p [= <-]; reflexivity]|]). by apply elem_of_nil in Hf.
Defined.
