(* ===== verification/TransportPeer.v ===== *)
(** * Peers, handlers and life cycle of the transport  (core/transport/linkg_transport.c)

    The table of direct peers with their life-cycle epochs, the transmit
    sequence numbers that outlive a peer's slot, registration, reset and
    unregistration of a peer, the delivery and relay handlers, the statistics
    queries, and the creation and teardown of the module. The other parts of the
    transport are behind the interface [TransportParts]; the return codes of the
    pthread calls and what other threads do are arguments ([transport_env])
    indexed by a counter of such observations. *)

From S2P Require Import Prelude.
From S2P Require Import TransportTypes.
From S2P Require Import TransportWindow.

(** ** Data *)

Record linkg_transport_class_stats := ClassStats {
  st_tx_bytes : Z;
  st_tx_packets : Z;
  st_tx_failed_bytes : Z;
  st_tx_failed_packets : Z;
  st_rx_bytes : Z;
  st_rx_packets : Z;
  st_rx_lost_packets : Z;
  st_rx_duplicate_packets : Z;
  st_rx_out_of_order_packets : Z;
  st_last_tx_ms : Z;
  st_last_rx_ms : Z;
  st_last_user_tx_ms : Z;
  st_last_user_rx_ms : Z }.

Definition class_stats_zero : linkg_transport_class_stats := ClassStats 0 0 0 0 0 0 0 0 0 0 0 0 0.

Record linkg_transport_peer_stats := PeerStats {
  ps_classes : list linkg_transport_class_stats;
  ps_peer_node_id : Z }.

Record linkg_transport_global_stats := GlobalStats {
  gs_rx_invalid_frames : Z;
  gs_rx_unattributed_frames : Z;
  gs_rx_stale_epoch_frames : Z;
  gs_reassembly_reset_frames : Z;
  gs_forward_incomplete_bytes : Z;
  gs_forward_incomplete_frames : Z;
  gs_forward_reset_frames : Z }.

Definition global_stats_zero : linkg_transport_global_stats := GlobalStats 0 0 0 0 0 0 0.

(** [pc_tx_order_lock] says whether the calling thread holds the lock. *)
Record linkg_transport_peer_class := PeerClass {
  pc_tx_order_lock : bool;
  pc_rx_user_window : linkg_transport_rx_window;
  pc_rx_control_window : linkg_transport_rx_window;
  pc_stats : linkg_transport_class_stats;
  pc_tx_user_sequence : Z;
  pc_tx_control_sequence : Z }.

Record linkg_transport_peer := Peer {
  pr_classes : list linkg_transport_peer_class;
  pr_lifecycle_epoch : Z;
  pr_peer_node_id : Z;
  pr_valid : bool }.

(** A handler is a function pointer. *)
Record linkg_transport_handler := Handler {
  ha_handler : option Z;
  ha_user_data : Z }.

Definition handler_zero : linkg_transport_handler := Handler None 0.

Record linkg_transport_tx_sequence_state := TxSequence {
  tq_tx_user_sequence : Z;
  tq_tx_control_sequence : Z }.

Definition LINKG_DEVICE_ROLE_UNKNOWN := 0.
Definition LINKG_DEVICE_ROLE_AP := 1.
Definition LINKG_DEVICE_ROLE_STA := 2.

(** [g_transport] without the reassembly and pairing caches, which are behind
    [TransportParts]; [cx_lock] says whether the calling thread holds the lock. *)
Record linkg_transport_context := TransportContext {
  cx_lock : bool;
  cx_peers : list linkg_transport_peer;
  cx_handlers : list linkg_transport_handler;
  cx_forward_handler : linkg_transport_handler;
  cx_stats : linkg_transport_global_stats;
  cx_next_packet_id : Z;
  cx_peer_count : Z;
  cx_local_node_id : Z;
  cx_local_role : Z;
  cx_initialized : bool }.

Definition peer_class_zero : linkg_transport_peer_class := PeerClass false window_zero window_zero class_stats_zero 0 0.
Definition peer_zero : linkg_transport_peer :=
  Peer (replicate (Z.to_nat LINKG_TRANSPORT_CLASS_COUNT) peer_class_zero) 0 0 false.

(** [memset(&g_transport, 0, sizeof(g_transport))]. *)
Definition context_zero : linkg_transport_context :=
  TransportContext false (replicate (Z.to_nat LINKG_TRANSPORT_PEER_MAX) peer_zero)
    (replicate (Z.to_nat LINKG_TRANSPORT_TYPE_COUNT) handler_zero) handler_zero global_stats_zero 0 0 0 0 false.

(** The context, [g_transport_tx_sequences], the other parts, and two ghosts: the
    number of mutexes that are initialised and the number of observations. *)
Record transport_state (C : Type) := TransportState {
  tr_context : linkg_transport_context;
  tr_tx_sequences : list (list linkg_transport_tx_sequence_state);
  tr_parts : C;
  tr_mutexes : Z;
  tr_tick : nat }.
Arguments TransportState {C}.
Arguments tr_context {C}.
Arguments tr_tx_sequences {C}.
Arguments tr_parts {C}.
Arguments tr_mutexes {C}.
Arguments tr_tick {C}.

(** What the transport's life cycle calls of its other parts. *)
Class TransportParts (C : Type) := {
  tp_inv : C -> Prop;
  tp_reassembly_init : M C Z;
  tp_reassembly_deinit : M C Z;
  tp_forward_pair_init : M C Z;
  tp_forward_pair_deinit : M C Z;
  tp_reorder_init : M C Z;
  tp_reorder_deinit : M C Z;
  tp_register_receive_handler : M C Z;
  tp_unregister_receive_handler : M C Z;
  tp_reorder_reset_peer : Z -> M C Z;
  tp_reassembly_reset_peer : Z -> M C Z;
  tp_forward_pair_reset_peer : Z -> M C Z;
  tp_is_worker_thread : M C bool;
  tp_check_lifecycle_context : M C Z }.

(** The [n]-th observation: return codes, what other threads did before the
    transport lock was taken, and the sequence numbers and statistics a sender
    left in a class before its order lock was taken. *)
Record transport_env (C : Type) := TransportEnv {
  te_mutex_init : nat -> Z;
  te_mutex_destroy : nat -> Z;
  te_lock : nat -> Z;
  te_unlock : nat -> Z;
  te_order_lock : nat -> Z;
  te_sent : nat -> linkg_transport_peer_class -> Z * Z * linkg_transport_class_stats;
  te_others : nat -> transport_state C -> transport_state C }.
Arguments te_mutex_init {C}.
Arguments te_mutex_destroy {C}.
Arguments te_lock {C}.
Arguments te_unlock {C}.
Arguments te_order_lock {C}.
Arguments te_sent {C}.
Arguments te_others {C}.

(** ** Updates *)

Definition class_at_index (classes : list linkg_transport_peer_class) (k : nat) : linkg_transport_peer_class :=
  default peer_class_zero (classes !! k).

Definition set_order_lock (held : bool) (c : linkg_transport_peer_class) : linkg_transport_peer_class :=
  PeerClass held (pc_rx_user_window c) (pc_rx_control_window c) (pc_stats c)
    (pc_tx_user_sequence c) (pc_tx_control_sequence c).

Definition set_sequences (q : linkg_transport_tx_sequence_state) (c : linkg_transport_peer_class) : linkg_transport_peer_class :=
  PeerClass (pc_tx_order_lock c) (pc_rx_user_window c) (pc_rx_control_window c) (pc_stats c)
    (tq_tx_user_sequence q) (tq_tx_control_sequence q).

Definition set_classes (l : list linkg_transport_peer_class) (p : linkg_transport_peer) : linkg_transport_peer :=
  Peer l (pr_lifecycle_epoch p) (pr_peer_node_id p) (pr_valid p).
Definition set_epoch (e : Z) (p : linkg_transport_peer) : linkg_transport_peer :=
  Peer (pr_classes p) e (pr_peer_node_id p) (pr_valid p).
Definition set_owner (node : Z) (valid : bool) (p : linkg_transport_peer) : linkg_transport_peer :=
  Peer (pr_classes p) (pr_lifecycle_epoch p) node valid.

Definition ctx_set_lock (held : bool) (x : linkg_transport_context) : linkg_transport_context :=
  TransportContext held (cx_peers x) (cx_handlers x) (cx_forward_handler x) (cx_stats x) (cx_next_packet_id x)
    (cx_peer_count x) (cx_local_node_id x) (cx_local_role x) (cx_initialized x).
Definition ctx_set_peers (l : list linkg_transport_peer) (count : Z) (x : linkg_transport_context) : linkg_transport_context :=
  TransportContext (cx_lock x) l (cx_handlers x) (cx_forward_handler x) (cx_stats x) (cx_next_packet_id x)
    count (cx_local_node_id x) (cx_local_role x) (cx_initialized x).
Definition ctx_set_handlers (l : list linkg_transport_handler) (f : linkg_transport_handler)
    (x : linkg_transport_context) : linkg_transport_context :=
  TransportContext (cx_lock x) (cx_peers x) l f (cx_stats x) (cx_next_packet_id x)
    (cx_peer_count x) (cx_local_node_id x) (cx_local_role x) (cx_initialized x).
Definition ctx_set_local (node role packet_id : Z) (initialized : bool) (x : linkg_transport_context) : linkg_transport_context :=
  TransportContext (cx_lock x) (cx_peers x) (cx_handlers x) (cx_forward_handler x) (cx_stats x) packet_id
    (cx_peer_count x) node role initialized.

(** ** Pure helpers *)

Definition _linkg_transport_node_id_valid (node_id : Z) : bool :=
  (LINKG_RESOURCE_NODE_ID_MIN <=? node_id) && (node_id <=? LINKG_RESOURCE_NODE_ID_MAX).

(** The loop over the peers' epochs. *)
Definition _linkg_transport_peer_epochs_init (x : linkg_transport_context) : linkg_transport_context :=
  ctx_set_peers (set_epoch 0 <$> cx_peers x) (cx_peer_count x) x.

Definition sequence_state (table : list (list linkg_transport_tx_sequence_state)) (node : Z) (k : nat)
    : linkg_transport_tx_sequence_state :=
  default (TxSequence 0 0) (default [] (table !! Z.to_nat node) !! k).

Definition sequences_of (c : linkg_transport_peer_class) : linkg_transport_tx_sequence_state :=
  TxSequence (pc_tx_user_sequence c) (pc_tx_control_sequence c).

(** Returns the table. *)
Definition _linkg_transport_save_peer_tx_sequences (peer : linkg_transport_peer)
    (table : list (list linkg_transport_tx_sequence_state)) : list (list linkg_transport_tx_sequence_state) :=
  if negb (_linkg_transport_node_id_valid (pr_peer_node_id peer)) then table
  else <[Z.to_nat (pr_peer_node_id peer) := sequences_of <$> pr_classes peer]> table.

Definition _linkg_transport_restore_peer_tx_sequences (table : list (list linkg_transport_tx_sequence_state))
    (peer_node_id : Z) (peer : linkg_transport_peer) : linkg_transport_peer :=
  if negb (_linkg_transport_node_id_valid peer_node_id) then peer
  else set_classes (imap (fun k c => set_sequences (sequence_state table peer_node_id k) c) (pr_classes peer)) peer.

Definition reset_class (clear_stats : bool) (c : linkg_transport_peer_class) : linkg_transport_peer_class :=
  PeerClass (pc_tx_order_lock c)
    (linkg_transport_window_reset (pc_rx_user_window c)) (linkg_transport_window_reset (pc_rx_control_window c))
    (if clear_stats then class_stats_zero else pc_stats c) 0 0.

Definition _linkg_transport_reset_peer_classes (clear_stats : bool) (peer : linkg_transport_peer) : linkg_transport_peer :=
  set_classes (reset_class clear_stats <$> pr_classes peer) peer.

Definition _linkg_transport_peer_next_active_epoch (current_epoch : Z) : Z :=
  let next_epoch := u32 (current_epoch + 1) in
  if negb (Z.land next_epoch 1 =? 0) then u32 (next_epoch + 1) else next_epoch.

Fixpoint first_index {A} (test : A -> bool) (l : list A) (i : nat) : option nat :=
  match l with
  | [] => None
  | x :: l' => if test x then Some i else first_index test l' (S i)
  end.

Definition _linkg_transport_find_unused_locked (x : linkg_transport_context) : option nat :=
  first_index (fun p => negb (pr_valid p)) (cx_peers x) 0.

Definition linkg_transport_find_peer_locked (x : linkg_transport_context) (peer_node_id : Z) : option nat :=
  if negb (_linkg_transport_node_id_valid peer_node_id) then None
  else first_index (fun p => pr_valid p && (pr_peer_node_id p =? peer_node_id)) (cx_peers x) 0.

Definition epochs_of (x : linkg_transport_context) : list Z := pr_lifecycle_epoch <$> cx_peers x.

Section Transport.
Context {C : Type} `{TP : TransportParts C} (env : transport_env C).

Abbreviation state := (transport_state C).
Abbreviation TM := (M state).

(** ** State access and synchronisation *)

Definition tset_context (x : linkg_transport_context) (s : state) : state :=
  TransportState x (tr_tx_sequences s) (tr_parts s) (tr_mutexes s) (tr_tick s).
Definition tset_tables (x : linkg_transport_context) (table : list (list linkg_transport_tx_sequence_state)) (s : state) : state :=
  TransportState x table (tr_parts s) (tr_mutexes s) (tr_tick s).
Definition tset_parts (c : C) (s : state) : state :=
  TransportState (tr_context s) (tr_tx_sequences s) c (tr_mutexes s) (tr_tick s).
Definition tset_ghost (mutexes : Z) (t : nat) (s : state) : state :=
  TransportState (tr_context s) (tr_tx_sequences s) (tr_parts s) mutexes t.

Definition context : TM linkg_transport_context := gets tr_context.
Definition update (f : linkg_transport_context -> linkg_transport_context) : TM unit :=
  modify (fun s => tset_context (f (tr_context s)) s).
Definition part {A} (m : M C A) : TM A := zoom tr_parts tset_parts m.

Definition observe : TM nat :=
  s ← get; modify (tset_ghost (tr_mutexes s) (S (tr_tick s))) ;; mret (tr_tick s).

Definition mutex_init : TM Z :=
  n ← observe;
  when (te_mutex_init env n =? 0) (modify (fun s => tset_ghost (tr_mutexes s + 1) (tr_tick s) s)) ;;
  mret (te_mutex_init env n).

Definition mutex_destroy : TM Z :=
  n ← observe;
  when (te_mutex_destroy env n =? 0) (modify (fun s => tset_ghost (tr_mutexes s - 1) (tr_tick s) s)) ;;
  mret (te_mutex_destroy env n).

(** [pthread_mutex_lock(&g_transport.lock)]. *)
Definition transport_lock : TM Z :=
  n ← observe;
  when (te_lock env n =? 0) (modify (te_others env n) ;; update (ctx_set_lock true)) ;;
  mret (te_lock env n).

Definition transport_unlock : TM Z :=
  n ← observe;
  when (te_unlock env n =? 0) (update (ctx_set_lock false)) ;;
  mret (te_unlock env n).

Definition peer_read (i : nat) : TM linkg_transport_peer := x ← context; of_option (cx_peers x !! i).

Definition peer_update (i : nat) (f : linkg_transport_peer -> linkg_transport_peer) : TM unit :=
  p ← peer_read i;
  update (fun x => ctx_set_peers (<[i := f p]> (cx_peers x)) (cx_peer_count x) x).

Definition class_update (i k : nat) (f : linkg_transport_peer_class -> linkg_transport_peer_class) : TM unit :=
  p ← peer_read i;
  assert_ (bool_decide (k < length (pr_classes p))%nat) ;;
  peer_update i (set_classes (<[k := f (class_at_index (pr_classes p) k)]> (pr_classes p))).

(** ** Order locks *)

Definition taken_class (sent : Z * Z * linkg_transport_class_stats) (c : linkg_transport_peer_class) : linkg_transport_peer_class :=
  let '(user, control, stats) := sent in
  PeerClass true (pc_rx_user_window c) (pc_rx_control_window c) stats user control.

(** [pthread_mutex_lock(&peer->classes[k].tx_order_lock)]. *)
Definition order_lock (i k : nat) : TM Z :=
  n ← observe;
  when (te_order_lock env n =? 0) (class_update i k (fun c => taken_class (te_sent env n c) c)) ;;
  mret (te_order_lock env n).

Definition order_unlock (i k : nat) : TM unit := class_update i k (set_order_lock false).

(** The classes before the failing one are unlocked from the last to the first. *)
Fixpoint order_lock_loop (i : nat) (ks held : list nat) : TM Z :=
  match ks with
  | [] => mret 0
  | k :: ks' =>
      ret ← order_lock i k;
      if negb (ret =? 0) then mfor held (order_unlock i) ;; mret (- ret)
      else order_lock_loop i ks' (k :: held)
  end.

Definition _linkg_transport_peer_tx_order_lock_all (peer : option nat) : TM Z :=
  match peer with
  | None => mret (- EINVAL)
  | Some i => order_lock_loop i (nat_upto LINKG_TRANSPORT_CLASS_COUNT) []
  end.

Definition _linkg_transport_peer_tx_order_unlock_all (peer : option nat) : TM unit :=
  match peer with
  | None => mret tt
  | Some i => mfor (rev (nat_upto LINKG_TRANSPORT_CLASS_COUNT)) (order_unlock i)
  end.

(** ** Creation and teardown of the order locks *)

Definition lock_total : nat := Z.to_nat (LINKG_TRANSPORT_PEER_MAX * LINKG_TRANSPORT_CLASS_COUNT).

(** The two nested loops; [initialized_count] of them are initialised. *)
Fixpoint locks_init_loop (n : nat) (initialized_count : nat) : TM Z :=
  match n with
  | O => mret 0
  | S n' =>
      ret ← mutex_init;
      if negb (ret =? 0) then mfor (seq 0 initialized_count) (fun _ => _ ← mutex_destroy; mret tt) ;; mret (- ret)
      else locks_init_loop n' (S initialized_count)
  end.

Definition _linkg_transport_peer_tx_locks_init : TM Z := locks_init_loop lock_total 0.

Definition _linkg_transport_peer_tx_locks_deinit : TM unit :=
  mfor (seq 0 lock_total) (fun _ => _ ← mutex_destroy; mret tt).

(** ** Quiescing a peer *)

Definition epoch_store (i : nat) (e : Z) : TM unit := peer_update i (set_epoch e).

(** Returns the code and [*quiescing_epoch]. *)
Definition _linkg_transport_peer_quiesce_locked (peer : option nat) (clear_stats : bool) : TM (Z * Z) :=
  match peer with
  | None => mret (- EINVAL, 0)
  | Some i =>
      x ← context;
      match linkg_transport_peer_epoch_read_active (epochs_of x) (Some i) with
      | (true, Some active_epoch) =>
          let quiescing_epoch := u32 (active_epoch + 1) in
          epoch_store i quiescing_epoch ;;
          ret ← _linkg_transport_peer_tx_order_lock_all (Some i);
          if negb (ret =? 0) then epoch_store i active_epoch ;; mret (ret, quiescing_epoch)
          else
            p ← peer_read i;
            modify (fun s => tset_tables (tr_context s) (_linkg_transport_save_peer_tx_sequences p (tr_tx_sequences s)) s) ;;
            peer_update i (_linkg_transport_reset_peer_classes clear_stats) ;;
            _linkg_transport_peer_tx_order_unlock_all (Some i) ;;
            mret (0, quiescing_epoch)
      | _ => mret (- EBUSY, 0)
      end
  end.

(** [first_error] after one more return code. *)
Definition first_error (first ret : Z) : Z := if negb (ret =? 0) && (first =? 0) then ret else first.

Definition _linkg_transport_reset_peer_caches (peer_node_id : Z) : TM Z :=
  ret1 ← part (tp_reorder_reset_peer peer_node_id);
  ret2 ← part (tp_reassembly_reset_peer peer_node_id);
  ret3 ← part (tp_forward_pair_reset_peer peer_node_id);
  mret (first_error (first_error (first_error 0 ret1) ret2) ret3).

(** ** Life cycle *)

Definition zero_context : TM unit := update (fun _ => context_zero).

(** The error exits, from the innermost label on. *)
Definition fail_lock (ret : Z) : TM Z := _ ← mutex_destroy; zero_context ;; mret ret.
Definition fail_peer_locks (ret : Z) : TM Z :=
  update (fun x => ctx_set_local (cx_local_node_id x) (cx_local_role x) (cx_next_packet_id x) false x) ;;
  _linkg_transport_peer_tx_locks_deinit ;;
  fail_lock ret.
Definition fail_reassembly (ret : Z) : TM Z := _ ← part tp_reassembly_deinit; fail_peer_locks ret.
Definition fail_forward_pair (ret : Z) : TM Z :=
  x ← context;
  when (cx_local_role x =? LINKG_DEVICE_ROLE_AP) (_ ← part tp_forward_pair_deinit; mret tt) ;;
  fail_reassembly ret.
Definition fail_reorder (ret : Z) : TM Z := _ ← part tp_reorder_deinit; fail_forward_pair ret.

(** [local] is what [linkg_node_get_local] returned: node and role. *)
Definition linkg_transport_init (local : option (Z * Z)) : TM Z :=
  x ← context;
  if cx_initialized x then mret (- EALREADY)
  else match local with
  | None => mret (- ENODEV)
  | Some (node_id, role) =>
      if negb (_linkg_transport_node_id_valid node_id) then mret (- EINVAL)
      else if negb (role =? LINKG_DEVICE_ROLE_AP) && negb (role =? LINKG_DEVICE_ROLE_STA) then mret (- EINVAL)
      else
        zero_context ;;
        update _linkg_transport_peer_epochs_init ;;
        ret ← mutex_init;
        if negb (ret =? 0) then mret (- ret)
        else
          ret ← _linkg_transport_peer_tx_locks_init;
          if negb (ret =? 0) then fail_lock ret
          else
            update (ctx_set_local node_id role 1 true) ;;
            ret ← part tp_reassembly_init;
            if negb (ret =? 0) then fail_peer_locks ret
            else
              ret ← (if role =? LINKG_DEVICE_ROLE_AP then part tp_forward_pair_init else mret 0);
              if negb (ret =? 0) then fail_reassembly ret
              else
                ret ← part tp_reorder_init;
                if negb (ret =? 0) then fail_forward_pair ret
                else
                  ret ← part tp_register_receive_handler;
                  if negb (ret =? 0) then fail_reorder ret else mret 0
  end.

Definition linkg_transport_deinit : TM Z :=
  x ← context;
  if negb (cx_initialized x) then mret 0
  else
    worker ← part tp_is_worker_thread;
    if (worker : bool) then mret (- EDEADLK)
    else
      ret ← transport_lock;
      if negb (ret =? 0) then mret (- ret)
      else
        x ← context;
        if negb (cx_peer_count x =? 0) then _ ← transport_unlock; mret (- EBUSY)
        else
          _ ← transport_unlock;
          ret ← part tp_unregister_receive_handler;
          if negb (ret =? 0) then mret ret
          else
            ret ← part tp_reorder_deinit;
            if negb (ret =? 0) then mret ret
            else
              x ← context;
              ret ← (if cx_local_role x =? LINKG_DEVICE_ROLE_AP then part tp_forward_pair_deinit else mret 0);
              if negb (ret =? 0) then mret ret
              else
                ret ← part tp_reassembly_deinit;
                if negb (ret =? 0) then mret ret
                else
                  update (fun x => ctx_set_local (cx_local_node_id x) (cx_local_role x) (cx_next_packet_id x) false x) ;;
                  _linkg_transport_peer_tx_locks_deinit ;;
                  ret ← mutex_destroy;
                  if negb (ret =? 0) then mret (- ret) else zero_context ;; mret 0.

(** ** Peers *)

(** [ret == 0 ? 0 : -ret] of the final unlock. *)
Definition unlock_result (ret : Z) : Z := if ret =? 0 then 0 else - ret.

Definition unlock_with (ret : Z) : TM Z := _ ← transport_unlock; mret ret.

Definition linkg_transport_register_peer (peer_node_id : Z) : TM Z :=
  x ← context;
  if negb (cx_initialized x) then mret (- ENODEV)
  else if negb (_linkg_transport_node_id_valid peer_node_id) || (peer_node_id =? cx_local_node_id x)
  then mret (- EINVAL)
  else
    ret ← transport_lock;
    if negb (ret =? 0) then mret (- ret)
    else
      x ← context;
      match linkg_transport_find_peer_locked x peer_node_id with
      | Some i =>
          if negb (fst (linkg_transport_peer_epoch_read_active (epochs_of x) (Some i)))
          then unlock_with (- EBUSY) else unlock_with 0
      | None =>
          if (cx_local_role x =? LINKG_DEVICE_ROLE_STA) && negb (cx_peer_count x =? 0)
          then unlock_with (- ENOSPC)
          else match _linkg_transport_find_unused_locked x with
          | None => unlock_with (- ENOSPC)
          | Some i =>
              peer_update i (_linkg_transport_reset_peer_classes true) ;;
              s ← get;
              peer_update i (_linkg_transport_restore_peer_tx_sequences (tr_tx_sequences s) peer_node_id) ;;
              p ← peer_read i;
              let current_epoch := pr_lifecycle_epoch p in
              peer_update i (set_owner peer_node_id true) ;;
              epoch_store i (_linkg_transport_peer_next_active_epoch current_epoch) ;;
              update (fun x => ctx_set_peers (cx_peers x) (u32 (cx_peer_count x + 1)) x) ;;
              ret ← transport_unlock;
              mret (unlock_result ret)
          end
      end.

(** The checks that reset and unregistration share; [None] to go on. *)
Definition lifecycle_guard (peer_node_id : Z) : TM (option Z) :=
  x ← context;
  if negb (cx_initialized x) then mret (Some (- ENODEV))
  else
    worker ← part tp_is_worker_thread;
    if (worker : bool) then mret (Some (- EDEADLK))
    else if negb (_linkg_transport_node_id_valid peer_node_id) then mret (Some (- EINVAL))
    else
      ret ← part tp_check_lifecycle_context;
      mret (if negb (ret =? 0) then Some ret else None).

(** The second half: lock again and finish if the slot still is the quiesced one. *)
Definition finish_quiesced (i : nat) (peer_node_id quiescing_epoch cache_ret : Z) (finish : nat -> Z -> TM unit) : TM Z :=
  ret ← transport_lock;
  if negb (ret =? 0) then mret (- ret)
  else
    p ← peer_read i;
    if negb (pr_valid p) || negb (pr_peer_node_id p =? peer_node_id) ||
       negb (pr_lifecycle_epoch p =? quiescing_epoch)
    then unlock_with (- ESTALE)
    else
      finish i quiescing_epoch ;;
      ret ← transport_unlock;
      mret (if negb (cache_ret =? 0) then cache_ret else unlock_result ret).

(** Quiesce under the lock, clear the caches without it, and finish. *)
Definition quiesce_then (peer_node_id : Z) (clear_stats : bool) (finish : nat -> Z -> TM unit) : TM Z :=
  guard ← lifecycle_guard peer_node_id;
  match guard with
  | Some ret => mret ret
  | None =>
      ret ← transport_lock;
      if negb (ret =? 0) then mret (- ret)
      else
        x ← context;
        match linkg_transport_find_peer_locked x peer_node_id with
        | None => unlock_with (- ENOENT)
        | Some i =>
            q ← _linkg_transport_peer_quiesce_locked (Some i) clear_stats;
            let '(ret, quiescing_epoch) := q in
            if negb (ret =? 0) then unlock_with ret
            else
              ret ← transport_unlock;
              if negb (ret =? 0) then mret (- ret)
              else
                cache_ret ← _linkg_transport_reset_peer_caches peer_node_id;
                finish_quiesced i peer_node_id quiescing_epoch cache_ret finish
        end
  end.

Definition linkg_transport_reset_peer (peer_node_id : Z) (clear_stats : bool) : TM Z :=
  quiesce_then peer_node_id clear_stats (fun i quiescing_epoch =>
    s ← get;
    peer_update i (_linkg_transport_restore_peer_tx_sequences (tr_tx_sequences s) peer_node_id) ;;
    epoch_store i (u32 (quiescing_epoch + 1))).

Definition linkg_transport_unregister_peer (peer_node_id : Z) : TM Z :=
  quiesce_then peer_node_id true (fun i _ =>
    peer_update i (set_owner 0 false) ;;
    x ← context;
    when (0 <? cx_peer_count x) (update (ctx_set_peers (cx_peers x) (cx_peer_count x - 1)))).

(** ** Handlers *)

Definition handler_at (x : linkg_transport_context) (type : Z) : linkg_transport_handler :=
  default handler_zero (cx_handlers x !! Z.to_nat type).

(** Replace the handler of [type], or the relay handler for [None], when
    [allowed] holds of the old one; otherwise fail with [refusal]. *)
Definition handler_update (slot : option Z) (allowed : linkg_transport_handler -> bool) (refusal : Z)
    (new : linkg_transport_handler) : TM Z :=
  ret ← transport_lock;
  if negb (ret =? 0) then mret (- ret)
  else
    x ← context;
    let old := match slot with Some type => handler_at x type | None => cx_forward_handler x end in
    if negb (allowed old) then unlock_with (- refusal)
    else
      update (match slot with
              | Some type => ctx_set_handlers (<[Z.to_nat type := new]> (cx_handlers x)) (cx_forward_handler x)
              | None => ctx_set_handlers (cx_handlers x) new
              end) ;;
      ret ← transport_unlock;
      mret (unlock_result ret).

Definition has_handler (h : linkg_transport_handler) : bool := negb (bool_decide (ha_handler h = None)).

Definition linkg_transport_register_handler (type : Z) (handler : option Z) (user_data : Z) : TM Z :=
  x ← context;
  if negb (cx_initialized x) then mret (- ENODEV)
  else if negb (linkg_transport_type_valid type) || bool_decide (handler = None) then mret (- EINVAL)
  else handler_update (Some type) (fun h => negb (has_handler h)) EALREADY (Handler handler user_data).

Definition linkg_transport_unregister_handler (type : Z) : TM Z :=
  x ← context;
  if negb (cx_initialized x) then mret (- ENODEV)
  else if negb (linkg_transport_type_valid type) then mret (- EINVAL)
  else handler_update (Some type) has_handler ENOENT handler_zero.

Definition linkg_transport_register_forward_handler (handler : option Z) (user_data : Z) : TM Z :=
  x ← context;
  if negb (cx_initialized x) then mret (- ENODEV)
  else if bool_decide (handler = None) then mret (- EINVAL)
  else handler_update None (fun h => negb (has_handler h)) EALREADY (Handler handler user_data).

Definition linkg_transport_unregister_forward_handler : TM Z :=
  x ← context;
  if negb (cx_initialized x) then mret (- ENODEV)
  else handler_update None has_handler ENOENT handler_zero.

(** ** Statistics; the second component is what was written through [stats]. *)

Definition linkg_transport_get_peer_stats (peer_node_id : Z) (stats : bool) : TM (Z * option linkg_transport_peer_stats) :=
  x ← context;
  if negb (cx_initialized x) then mret (- ENODEV, None)
  else if negb (_linkg_transport_node_id_valid peer_node_id) || negb stats then mret (- EINVAL, None)
  else
    ret ← transport_lock;
    if negb (ret =? 0) then mret (- ret, None)
    else
      x ← context;
      match linkg_transport_find_peer_locked x peer_node_id with
      | None => _ ← transport_unlock; mret (- ENOENT, None)
      | Some i =>
          ret ← _linkg_transport_peer_tx_order_lock_all (Some i);
          if negb (ret =? 0) then _ ← transport_unlock; mret (ret, None)
          else
            p ← peer_read i;
            let out := PeerStats (pc_stats <$> pr_classes p) (pr_peer_node_id p) in
            _linkg_transport_peer_tx_order_unlock_all (Some i) ;;
            ret ← transport_unlock;
            mret (unlock_result ret, Some out)
      end.

Definition linkg_transport_get_global_stats (stats : bool) : TM (Z * option linkg_transport_global_stats) :=
  x ← context;
  if negb (cx_initialized x) then mret (- ENODEV, None)
  else if negb stats then mret (- EINVAL, None)
  else
    ret ← transport_lock;
    if negb (ret =? 0) then mret (- ret, None)
    else
      x ← context;
      ret ← transport_unlock;
      mret (unlock_result ret, Some (cx_stats x)).

End Transport.
