(* ===== verification/TransportPeerSafety.v ===== *)
(** * Peers and life cycle of the transport: invariant, sequence numbers, epochs

    The invariant of the peer table and its preservation by every call under
    interference; the continuity of a node's transmit sequence numbers across
    registration, reset and unregistration; the freshness of life-cycle epochs;
    and the balance of creation and teardown. *)

From S2P Require Import Prelude.
From S2P Require Import TransportTypes.
From S2P Require Import TransportWindow.
From S2P Require Import TransportPeer.

(** ** The interface's promise *)

Definition keeps {C A} (inv : C -> Prop) (m : M C A) : Prop :=
  forall c, inv c -> exists a c', m c = Some (a, c') /\ inv c'.

(** Every operation of the parts returns and keeps their invariant. *)
Class TransportPartsLaws (C : Type) `{TransportParts C} := {
  tpl_reassembly_init : keeps tp_inv tp_reassembly_init;
  tpl_reassembly_deinit : keeps tp_inv tp_reassembly_deinit;
  tpl_forward_pair_init : keeps tp_inv tp_forward_pair_init;
  tpl_forward_pair_deinit : keeps tp_inv tp_forward_pair_deinit;
  tpl_reorder_init : keeps tp_inv tp_reorder_init;
  tpl_reorder_deinit : keeps tp_inv tp_reorder_deinit;
  tpl_register_receive_handler : keeps tp_inv tp_register_receive_handler;
  tpl_unregister_receive_handler : keeps tp_inv tp_unregister_receive_handler;
  tpl_reorder_reset_peer v : keeps tp_inv (tp_reorder_reset_peer v);
  tpl_reassembly_reset_peer v : keeps tp_inv (tp_reassembly_reset_peer v);
  tpl_forward_pair_reset_peer v : keeps tp_inv (tp_forward_pair_reset_peer v);
  tpl_is_worker_thread : keeps tp_inv tp_is_worker_thread;
  tpl_check_lifecycle_context : keeps tp_inv tp_check_lifecycle_context }.

#[export] Hint Resolve tpl_reassembly_init tpl_reassembly_deinit tpl_forward_pair_init tpl_forward_pair_deinit
  tpl_reorder_init tpl_reorder_deinit tpl_register_receive_handler tpl_unregister_receive_handler
  tpl_reorder_reset_peer tpl_reassembly_reset_peer tpl_forward_pair_reset_peer tpl_is_worker_thread
  tpl_check_lifecycle_context : parts.

(** ** Searching an array *)

Lemma first_index_Some {A} (test : A -> bool) l i j :
  first_index test l i = Some j ->
  exists x, (i <= j)%nat /\ l !! (j - i)%nat = Some x /\ test x = true.
Proof.
  revert i. induction l as [|y l IH]; intros i H; [done|]. cbn in H. destruct (test y) eqn:E.
  - injection H as <-. exists y. rewrite Nat.sub_diag. done.
  - destruct (IH (S i) H) as (x&Hi&Hx&Ht). exists x. split; [lia|]. split; [|done].
    by replace (j - i)%nat with (S (j - S i)) by lia.
Qed.

Lemma first_index_0 {A} (test : A -> bool) l j :
  first_index test l 0 = Some j -> exists x, l !! j = Some x /\ test x = true.
Proof. intros (x&_&Hx&Ht)%first_index_Some. rewrite Nat.sub_0_r in Hx. by exists x. Qed.

Lemma first_index_None {A} (test : A -> bool) l i :
  first_index test l i = None -> forall x, x ∈ l -> test x = false.
Proof.
  revert i. induction l as [|y l IH]; intros i H x; [by intros ?%elem_of_nil|]. cbn in H.
  destruct (test y) eqn:E; [done|]. intros [->|Hx]%elem_of_cons; [done|by eapply IH].
Qed.

Section Peers.
Context {C : Type} `{TP : TransportParts C} {TPL : TransportPartsLaws C} (env : transport_env C).

Abbreviation state := (transport_state C).
Abbreviation peers s := (cx_peers (tr_context s)).

(** ** Primitive steps *)

(** The same state up to the observation counter. *)
Definition ticked (s s' : state) : Prop := exists t, s' = tset_ghost (tr_mutexes s) t s.

Lemma ticked_refl s : ticked s s.
Proof. exists (tr_tick s). by destruct s. Qed.

Definition put (i : nat) (p : linkg_transport_peer) (s : state) : state :=
  tset_context (ctx_set_peers (<[i := p]> (peers s)) (cx_peer_count (tr_context s)) (tr_context s)) s.

Lemma put_lookup i p s : (i < length (peers s))%nat -> peers (put i p s) !! i = Some p.
Proof. intros H. cbn. by apply list_lookup_insert_eq. Qed.

Lemma put_put i p p' s : put i p' (put i p s) = put i p' s.
Proof. unfold put, tset_context, ctx_set_peers. cbn. by rewrite list_insert_insert_eq. Qed.

Lemma put_same i p s : peers s !! i = Some p -> put i p s = s.
Proof.
  intros H. unfold put, tset_context, ctx_set_peers. rewrite list_insert_id by done. by destruct s as [[]].
Qed.

Lemma wp_observation (Q : nat -> state -> Prop) s :
  (forall n s', ticked s s' -> Q n s') -> wp observe Q s.
Proof. intros H. unfold observe. wstep. apply H. by eexists. Qed.

Lemma wp_peer_read (Q : linkg_transport_peer -> state -> Prop) i p s :
  peers s !! i = Some p -> Q p s -> wp (peer_read i) Q s.
Proof. intros Hp H. unfold peer_read, context. wstep. by eapply wp_of_option. Qed.

Lemma wp_peer_update (Q : unit -> state -> Prop) i f p s :
  peers s !! i = Some p -> Q tt (put i (f p) s) -> wp (peer_update i f) Q s.
Proof. intros Hp H. unfold peer_update, update. apply wp_bind. eapply wp_peer_read; [exact Hp|]. by apply wp_modify. Qed.

Lemma wp_class_update (Q : unit -> state -> Prop) i k f p c s :
  peers s !! i = Some p -> pr_classes p !! k = Some c ->
  Q tt (put i (set_classes (<[k := f c]> (pr_classes p)) p) s) -> wp (class_update i k f) Q s.
Proof.
  intros Hp Hc H. unfold class_update. apply wp_bind. eapply wp_peer_read; [exact Hp|].
  apply wp_bind, wp_assert; [apply bool_decide_eq_true; by eapply lookup_lt_Some|].
  eapply wp_peer_update; [exact Hp|]. unfold class_at_index. by rewrite Hc.
Qed.

Lemma wp_part {A} (m : M C A) (Q : A -> state -> Prop) s :
  keeps tp_inv m -> tp_inv (tr_parts s) ->
  (forall a c', tp_inv c' -> Q a (tset_parts c' s)) -> wp (part m) Q s.
Proof.
  intros Hm Hi H. destruct (Hm _ Hi) as (a&c'&E&Hi'). unfold part, wp. rewrite (zoom_run _ _ _ _ _ _ E). by apply H.
Qed.

(** ** Order locks *)

(** What senders may do to a class before its lock is taken. *)
Definition sent_to (c c' : linkg_transport_peer_class) : Prop :=
  pc_rx_user_window c' = pc_rx_user_window c /\ pc_rx_control_window c' = pc_rx_control_window c /\
  (sequences_of c' = sequences_of c \/
   exists n, sequences_of c' = TxSequence (fst (fst (te_sent env n c))) (snd (fst (te_sent env n c)))).

Lemma sent_refl c : sent_to c c.
Proof. split; [done|]. split; [done|by left]. Qed.

Lemma sent_taken n c : sent_to c (taken_class (te_sent env n c) c).
Proof.
  unfold taken_class. destruct (te_sent env n c) as [[u q] st] eqn:E. split; [done|]. split; [done|right].
  exists n. by rewrite E.
Qed.

Lemma sent_lock b c c' : sent_to c c' -> sent_to c (set_order_lock b c').
Proof. done. Qed.

Lemma wp_order_lock (Q : Z -> state -> Prop) i k p c s :
  peers s !! i = Some p -> pr_classes p !! k = Some c ->
  (forall s', ticked s s' -> forall r, r <> 0 -> Q r s') ->
  (forall n s', ticked s s' ->
     Q 0 (put i (set_classes (<[k := taken_class (te_sent env n c) c]> (pr_classes p)) p) s')) ->
  wp (order_lock env i k) Q s.
Proof.
  intros Hp Hc Hfail Hok. unfold order_lock. apply wp_bind, wp_observation. intros n s' [t ->].
  apply wp_bind, wp_when; intros E.
  - eapply wp_class_update; [exact Hp|exact Hc|]. apply wp_ret. apply Z.eqb_eq in E. rewrite E.
    apply Hok. by eexists.
  - apply wp_ret. apply Hfail; [by eexists|by apply Z.eqb_neq].
Qed.

Lemma ticked_trans s1 s2 s3 : ticked s1 s2 -> ticked s2 s3 -> ticked s1 s3.
Proof. intros [t ->] [t' ->]. by exists t'. Qed.

Lemma ticked_put i p s s' : ticked s s' -> ticked (put i p s) (put i p s').
Proof. intros [t ->]. by exists t. Qed.

Lemma ticked_peers s s' : ticked s s' -> peers s' = peers s.
Proof. by intros [t ->]. Qed.

Lemma wp_order_unlock (Q : unit -> state -> Prop) i k p c s :
  peers s !! i = Some p -> pr_classes p !! k = Some c ->
  Q tt (put i (set_classes (<[k := set_order_lock false c]> (pr_classes p)) p) s) ->
  wp (order_unlock i k) Q s.
Proof. apply wp_class_update. Qed.

(** A peer with three classes, with other classes. *)
Definition with_classes (p : linkg_transport_peer) (a b c : linkg_transport_peer_class) : linkg_transport_peer :=
  set_classes [a; b; c] p.

Lemma unlock_all_spec (Q : unit -> state -> Prop) i p a b c s :
  peers s !! i = Some p -> pr_classes p = [a; b; c] ->
  Q tt (put i (with_classes p (set_order_lock false a) (set_order_lock false b) (set_order_lock false c)) s) ->
  wp (_linkg_transport_peer_tx_order_unlock_all (Some i)) Q s.
Proof.
  intros Hp Hc H. pose proof (lookup_lt_Some _ _ _ Hp) as Hi.
  unfold _linkg_transport_peer_tx_order_unlock_all.
  change (rev (nat_upto LINKG_TRANSPORT_CLASS_COUNT)) with [2; 1; 0]%nat. cbn [mfor].
  apply wp_bind. apply (wp_order_unlock _ i 2 p c); [done|by rewrite Hc|]. rewrite Hc. cbn [insert list_insert].
  apply wp_bind. eapply wp_order_unlock; [by apply put_lookup|done|]. rewrite put_put. cbn [insert list_insert pr_classes set_classes].
  apply wp_bind. eapply wp_order_unlock; [by apply put_lookup|done|]. rewrite put_put. cbn [insert list_insert pr_classes set_classes].
  by apply wp_ret.
Qed.

(** The same state up to slot [i] and the observation counter. *)
Definition around (i : nat) (s s' : state) : Prop :=
  length (peers s') = length (peers s) /\ forall p, ticked (put i p s) (put i p s').

Lemma around_refl i s : around i s s.
Proof. split; [done|]. intros p. apply ticked_refl. Qed.

Lemma around_tick i s s1 s2 : around i s s1 -> ticked s1 s2 -> around i s s2.
Proof.
  intros [L H] T. split; [by rewrite (ticked_peers _ _ T)|]. intros p.
  eapply ticked_trans; [apply H|by apply ticked_put].
Qed.

Lemma around_put i q s s1 : around i s s1 -> around i s (put i q s1).
Proof. intros [L H]. split; [cbn; by rewrite length_insert|]. intros p. by rewrite put_put. Qed.

(** The outcome of taking the three order locks. *)
Lemma lock_all_spec (Q : Z -> state -> Prop) i p a b c s :
  peers s !! i = Some p -> pr_classes p = [a; b; c] ->
  pc_tx_order_lock a = false -> pc_tx_order_lock b = false -> pc_tx_order_lock c = false ->
  (forall r s' a' b' c', ticked (put i (with_classes p a' b' c') s) s' ->
     sent_to a a' -> sent_to b b' -> sent_to c c' ->
     (r <> 0 -> pc_tx_order_lock a' = false /\ pc_tx_order_lock b' = false /\ pc_tx_order_lock c' = false) ->
     Q r s') ->
  wp (_linkg_transport_peer_tx_order_lock_all env (Some i)) Q s.
Proof.
  intros Hp Hc La Lb Lc H. pose proof (lookup_lt_Some _ _ _ Hp) as Hi.
  assert (put i (with_classes p a b c) s = s) as E0.
  { apply put_same. rewrite Hp. f_equal. unfold with_classes, set_classes. rewrite <- Hc. by destruct p. }
  assert (forall s', around i s s' -> (i < length (peers s'))%nat) as Hlt by (intros s' [-> _]; done).
  unfold _linkg_transport_peer_tx_order_lock_all.
  change (nat_upto LINKG_TRANSPORT_CLASS_COUNT) with [0; 1; 2]%nat. cbn [order_lock_loop].
  apply wp_bind. apply (wp_order_lock _ i 0 p a); [done|by rewrite Hc| |].
  { intros s1 T1 r Hr. rewrite (proj2 (Z.eqb_neq r 0) Hr). cbn [negb mfor]. apply wp_bind, wp_ret, wp_ret.
    apply (H _ _ a b c); try apply sent_refl; [by rewrite E0|done]. }
  intros n1 s1 T1. cbn [negb Z.eqb]. rewrite Hc. cbn [insert list_insert].
  pose proof (around_tick i _ _ _ (around_refl i s) T1) as A1.
  set (a1 := taken_class (te_sent env n1 a) a). pose proof (sent_taken n1 a : sent_to a a1) as Sa.
  apply wp_bind. eapply (wp_order_lock _ i 1); [apply put_lookup; auto|done| |].
  { intros s2 T2 r Hr. rewrite (proj2 (Z.eqb_neq r 0) Hr). cbn [negb mfor].
    pose proof (around_tick i _ _ _ (around_put i _ _ _ A1) T2) as A2.
    apply wp_bind, wp_bind. eapply wp_order_unlock; [rewrite (ticked_peers _ _ T2); apply put_lookup; auto|done|].
    apply wp_ret, wp_ret. apply (H _ _ (set_order_lock false a1) b c); try done; try apply sent_refl. apply A2. }
  intros n2 s2 T2. cbn [negb Z.eqb insert list_insert pr_classes set_classes].
  pose proof (around_tick i _ _ _ (around_put i _ _ _ A1) T2) as A2.
  set (b1 := taken_class (te_sent env n2 b) b). pose proof (sent_taken n2 b : sent_to b b1) as Sb.
  apply wp_bind. eapply (wp_order_lock _ i 2); [apply put_lookup; auto|done| |].
  { intros s3 T3 r Hr. rewrite (proj2 (Z.eqb_neq r 0) Hr). cbn [negb mfor].
    pose proof (around_tick i _ _ _ (around_put i _ _ _ A2) T3) as A3.
    apply wp_bind, wp_bind. eapply wp_order_unlock; [rewrite (ticked_peers _ _ T3); apply put_lookup; auto|done|].
    apply wp_bind. eapply wp_order_unlock; [apply put_lookup; auto|done|]. rewrite put_put. apply wp_ret, wp_ret.
    apply (H _ _ (set_order_lock false a1) (set_order_lock false b1) c); try done; try apply sent_refl. apply A3. }
  intros n3 s3 T3. cbn [negb Z.eqb insert list_insert pr_classes set_classes].
  pose proof (around_tick i _ _ _ (around_put i _ _ _ A2) T3) as A3.
  apply wp_ret. apply (H _ _ a1 b1 (taken_class (te_sent env n3 c) c)); try done; [apply A3|apply sent_taken].
Qed.

(** ** The invariant *)

Definition peer_weight (p : linkg_transport_peer) : Z := if pr_valid p then 1 else 0.

Record peer_ok (p : linkg_transport_peer) : Prop := {
  po_classes : length (pr_classes p) = 3%nat;
  po_locks : forall c, c ∈ pr_classes p -> pc_tx_order_lock c = false;
  po_epoch : in_range 32 (pr_lifecycle_epoch p) }.

(** At most one valid slot per node, never the local one; the count is exact and
    a station has at most one peer. *)
Record wf (s : state) : Prop := {
  w_len : length (peers s) = 16%nat;
  w_peer : forall i p, peers s !! i = Some p -> peer_ok p;
  w_owner : forall i p, peers s !! i = Some p -> pr_valid p = true ->
    _linkg_transport_node_id_valid (pr_peer_node_id p) = true /\
    pr_peer_node_id p <> cx_local_node_id (tr_context s);
  w_distinct : forall i j p q, peers s !! i = Some p -> peers s !! j = Some q ->
    pr_valid p = true -> pr_valid q = true -> pr_peer_node_id p = pr_peer_node_id q -> i = j;
  w_count : cx_peer_count (tr_context s) = sumZ peer_weight (peers s);
  w_sta : cx_local_role (tr_context s) = LINKG_DEVICE_ROLE_STA -> cx_peer_count (tr_context s) <= 1;
  w_table : length (tr_tx_sequences s) = 255%nat;
  w_handlers : length (cx_handlers (tr_context s)) = Z.to_nat LINKG_TRANSPORT_TYPE_COUNT;
  w_parts : tp_inv (tr_parts s) }.

Definition held (b : bool) (s : state) : Prop := cx_lock (tr_context s) = b.

Lemma peer_weight_range p : 0 <= peer_weight p <= 1.
Proof. unfold peer_weight. destruct (pr_valid p); lia. Qed.

Lemma three_classes p : peer_ok p -> exists a b c, pr_classes p = [a; b; c] /\
  pc_tx_order_lock a = false /\ pc_tx_order_lock b = false /\ pc_tx_order_lock c = false.
Proof.
  intros [L Lk _]. destruct (pr_classes p) as [|a [|b [|c [|d l]]]]; try done. exists a, b, c.
  splits; [done|apply Lk..]; set_solver.
Qed.

Lemma with_classes_ok p a b c :
  peer_ok p -> pc_tx_order_lock a = false -> pc_tx_order_lock b = false -> pc_tx_order_lock c = false ->
  peer_ok (with_classes p a b c).
Proof.
  intros [_ _ E] Ha Hb Hc. split; [done| |done]. intros d Hd. cbn in Hd.
  repeat (apply elem_of_cons in Hd as [->|Hd]; [done|]). by apply elem_of_nil in Hd.
Qed.

Lemma wf_tick s s' : ticked s s' -> wf s -> wf s'.
Proof. intros [t ->] []. by split. Qed.

Lemma wf_lock b s : wf s -> wf (tset_context (ctx_set_lock b (tr_context s)) s).
Proof. intros []. by split. Qed.

Lemma wf_parts c s : tp_inv c -> wf s -> wf (tset_parts c s).
Proof. intros H []. by split. Qed.

(** One slot changes, with the count and the table. *)
Lemma wf_update s i p p' count table :
  wf s -> peers s !! i = Some p -> peer_ok p' ->
  (pr_valid p' = true -> _linkg_transport_node_id_valid (pr_peer_node_id p') = true /\
     pr_peer_node_id p' <> cx_local_node_id (tr_context s) /\
     forall j q, j <> i -> peers s !! j = Some q -> pr_valid q = true -> pr_peer_node_id q <> pr_peer_node_id p') ->
  count = cx_peer_count (tr_context s) + peer_weight p' - peer_weight p ->
  (cx_local_role (tr_context s) = LINKG_DEVICE_ROLE_STA -> count <= 1) -> length table = 255%nat ->
  wf (tset_tables (ctx_set_peers (<[i := p']> (peers s)) count (tr_context s)) table s).
Proof.
  intros [W1 W2 W3 W4 W5 W6 W7 W8 W9] Hp Hok Hnew -> Hsta Ht.
  pose proof (lookup_lt_Some _ _ _ Hp) as Hi.
  assert (forall j q, <[i := p']> (peers s) !! j = Some q -> (j = i /\ q = p') \/ (j <> i /\ peers s !! j = Some q)) as Hcase.
  { intros j q. rewrite lookup_insert_case by done. case_decide; [intros [= <-]; by left|by right]. }
  split; cbn; try done.
  - by rewrite length_insert.
  - intros j q [[-> ->]|[_ Hq]]%Hcase; [done|by eapply W2].
  - intros j q [[-> ->]|[_ Hq]]%Hcase Hv; [by destruct (Hnew Hv) as (?&?&_)|by eapply W3].
  - intros j k q r [[-> ->]|[Hj Hq]]%Hcase [[-> ->]|[Hk Hr]]%Hcase Hv Hv' E; [done| | |by eapply W4].
    + destruct (Hnew Hv) as (_&_&Hn). by destruct (Hn k r Hk Hr Hv').
    + destruct (Hnew Hv') as (_&_&Hn). by destruct (Hn j q Hj Hq Hv).
  - rewrite (sumZ_insert _ _ _ _ p) by done. lia.
Qed.

(** The slot keeps its owner. *)
Lemma wf_put s i p p' table :
  wf s -> peers s !! i = Some p -> peer_ok p' -> pr_valid p' = pr_valid p -> pr_peer_node_id p' = pr_peer_node_id p ->
  length table = 255%nat ->
  wf (tset_tables (tr_context (put i p' s)) table s).
Proof.
  intros W Hp Hok Ev En Ht.
  apply (wf_update s i p p' (cx_peer_count (tr_context s)) table); try done.
  - rewrite Ev, En. intros Hv. destruct (w_owner _ W i p Hp Hv). splits; [done|done|].
    intros j q Hj Hq Hvq E. apply Hj. by apply (w_distinct _ W j i q p).
  - unfold peer_weight. rewrite Ev. lia.
  - apply (w_sta _ W).
Qed.

Lemma tables_same (s : state) x : tset_tables x (tr_tx_sequences s) s = tset_context x s.
Proof. by destruct s. Qed.

Lemma wf_put_only s i p p' :
  wf s -> peers s !! i = Some p -> peer_ok p' -> pr_valid p' = pr_valid p -> pr_peer_node_id p' = pr_peer_node_id p ->
  wf (put i p' s).
Proof.
  intros W Hp Hok Ev En. pose proof (wf_put s i p p' (tr_tx_sequences s) W Hp Hok Ev En (w_table _ W)) as H.
  by rewrite tables_same in H.
Qed.

Lemma find_peer_spec (s : state) v i :
  linkg_transport_find_peer_locked (tr_context s) v = Some i ->
  exists p, peers s !! i = Some p /\ pr_valid p = true /\ pr_peer_node_id p = v /\ _linkg_transport_node_id_valid v = true.
Proof.
  unfold linkg_transport_find_peer_locked. destruct (_linkg_transport_node_id_valid v); [cbn [negb]|done].
  intros (p&Hp&Ht)%first_index_0. zb. by exists p.
Qed.

Lemma find_peer_none (s : state) v j q :
  linkg_transport_find_peer_locked (tr_context s) v = None -> _linkg_transport_node_id_valid v = true ->
  peers s !! j = Some q -> pr_valid q = true -> pr_peer_node_id q <> v.
Proof.
  unfold linkg_transport_find_peer_locked. intros H Hv Hq Hvq E. rewrite Hv in H. cbn [negb] in H.
  pose proof (first_index_None _ _ _ H q ltac:(by eapply list_elem_of_lookup_2)) as Hn. cbn in Hn.
  rewrite Hvq, E, Z.eqb_refl in Hn. done.
Qed.

(** ** Steps of the life cycle *)

(** Slot [i] and the table of sequence numbers change. *)
Definition put_table (i : nat) (p : linkg_transport_peer) (table : list (list linkg_transport_tx_sequence_state)) (s : state) : state :=
  tset_tables (tr_context (put i p s)) table s.

Definition cleared (clear_stats : bool) (c : linkg_transport_peer_class) : linkg_transport_peer_class :=
  set_order_lock false (reset_class clear_stats c).

(** The slot is quiesced after its senders left the classes [a], [b], [c]. *)
Definition quiesced (i : nat) (p : linkg_transport_peer) (a b c : linkg_transport_peer_class) (clear_stats : bool)
    (s : state) : state :=
  put_table i
    (set_epoch (u32 (pr_lifecycle_epoch p + 1))
       (with_classes p (cleared clear_stats a) (cleared clear_stats b) (cleared clear_stats c)))
    (_linkg_transport_save_peer_tx_sequences (with_classes p a b c) (tr_tx_sequences s)) s.

(** A quiesced slot is active again. *)
Definition reactivated (i : nat) (p : linkg_transport_peer) (s : state) : state :=
  put i (set_epoch (u32 (pr_lifecycle_epoch p + 1))
           (_linkg_transport_restore_peer_tx_sequences (tr_tx_sequences s) (pr_peer_node_id p) p)) s.

(** A quiesced slot is given up. *)
Definition released (i : nat) (p : linkg_transport_peer) (s : state) : state :=
  tset_context (ctx_set_peers (<[i := set_owner 0 false p]> (peers s)) (cx_peer_count (tr_context s) - 1) (tr_context s)) s.

(** A free slot is taken for node [v]. *)
Definition occupied (i : nat) (p : linkg_transport_peer) (v : Z) (s : state) : state :=
  tset_context (ctx_set_peers
    (<[i := set_epoch (_linkg_transport_peer_next_active_epoch (pr_lifecycle_epoch p))
              (set_owner v true
                 (_linkg_transport_restore_peer_tx_sequences (tr_tx_sequences s) v
                    (_linkg_transport_reset_peer_classes true p)))]> (peers s))
    (u32 (cx_peer_count (tr_context s) + 1)) (tr_context s)) s.

Definition active_epoch (e : Z) : bool := Z.land e 1 =? 0.

(** The outcomes of quiescing slot [i]: refused at once, given up after some
    senders finished, or done. *)
Inductive quiesce_outcome (i : nat) (p : linkg_transport_peer) (a b c : linkg_transport_peer_class) (clear_stats : bool)
    (s : state) : Z * Z -> state -> Prop :=
  | quiesce_busy : active_epoch (pr_lifecycle_epoch p) = false ->
      quiesce_outcome i p a b c clear_stats s (- EBUSY, 0) s
  | quiesce_failed a' b' c' r q s' : active_epoch (pr_lifecycle_epoch p) = true -> r <> 0 ->
      sent_to a a' -> sent_to b b' -> sent_to c c' ->
      pc_tx_order_lock a' = false -> pc_tx_order_lock b' = false -> pc_tx_order_lock c' = false ->
      ticked (put i (with_classes p a' b' c') s) s' ->
      quiesce_outcome i p a b c clear_stats s (r, q) s'
  | quiesce_done a' b' c' s' : active_epoch (pr_lifecycle_epoch p) = true ->
      sent_to a a' -> sent_to b b' -> sent_to c c' ->
      ticked (quiesced i p a' b' c' clear_stats s) s' ->
      quiesce_outcome i p a b c clear_stats s (0, u32 (pr_lifecycle_epoch p + 1)) s'.

Lemma epochs_lookup (s : state) i p : peers s !! i = Some p -> epoch_load (epochs_of (tr_context s)) i = pr_lifecycle_epoch p.
Proof. intros H. unfold epoch_load, epochs_of. by rewrite list_lookup_fmap, H. Qed.

Lemma set_epoch_self p : set_epoch (pr_lifecycle_epoch p) p = p.
Proof. by destruct p. Qed.

Lemma quiesce_spec i p a b c clear_stats s :
  peers s !! i = Some p -> pr_classes p = [a; b; c] ->
  pc_tx_order_lock a = false -> pc_tx_order_lock b = false -> pc_tx_order_lock c = false ->
  wp (_linkg_transport_peer_quiesce_locked env (Some i) clear_stats) (quiesce_outcome i p a b c clear_stats s) s.
Proof.
  intros Hp Hc La Lb Lc. pose proof (lookup_lt_Some _ _ _ Hp) as Hi.
  unfold _linkg_transport_peer_quiesce_locked. apply wp_bind. unfold context. apply wp_gets.
  unfold linkg_transport_peer_epoch_read_active. rewrite (epochs_lookup s i p Hp).
  destruct (Z.land (pr_lifecycle_epoch p) 1 =? 0) eqn:Ea.
  2:{ apply wp_ret. by apply quiesce_busy. }
  unfold epoch_store. apply wp_bind. eapply wp_peer_update; [exact Hp|].
  set (q := u32 (pr_lifecycle_epoch p + 1)). set (s1 := put i (set_epoch q p) s).
  apply wp_bind. eapply (lock_all_spec _ i (set_epoch q p) a b c); [by apply put_lookup|done|done|done|done|].
  intros r s2 a' b' c' T Sa Sb Sc Hfree. unfold s1 in T. rewrite put_put in T. destruct T as [t ->].
  set (p' := with_classes (set_epoch q p) a' b' c').
  assert (forall t', peers (tset_ghost (tr_mutexes s) t' (put i p' s)) !! i = Some p') as Hp' by (intros; by apply (put_lookup i p' s)).
  destruct (Z.eqb_spec r 0) as [->|Hr]; cbn [negb].
  - apply wp_bind. eapply wp_peer_read; [apply Hp'|]. apply wp_bind, wp_modify.
    apply wp_bind. eapply wp_peer_update; [apply Hp'|]. apply wp_bind.
    eapply unlock_all_spec; [apply put_lookup; cbn; by rewrite length_insert|done|].
    apply wp_ret. apply (quiesce_done i p a b c clear_stats s a' b' c'); try done.
    exists t. unfold quiesced, put_table, put, tset_tables, tset_context, tset_ghost, ctx_set_peers. cbn.
    by rewrite !list_insert_insert_eq.
  - destruct (Hfree Hr) as (Fa&Fb&Fc). apply wp_bind. eapply wp_peer_update; [apply Hp'|]. apply wp_ret.
    apply (quiesce_failed i p a b c clear_stats s a' b' c'); try done.
    exists t. unfold put, tset_context, tset_ghost, ctx_set_peers, p'. cbn. rewrite list_insert_insert_eq.
    by destruct p.
Qed.

Lemma set_epoch_ok e p : in_range 32 e -> peer_ok p -> peer_ok (set_epoch e p).
Proof. intros He []. by split. Qed.

Lemma restore_ok table v p : peer_ok p -> peer_ok (_linkg_transport_restore_peer_tx_sequences table v p).
Proof.
  intros O. unfold _linkg_transport_restore_peer_tx_sequences. case_match; [done|]. destruct O as [L Lk E].
  split; [cbn; by rewrite length_imap| |done]. cbn. intros c (k&d&->&Hd)%elem_of_lookup_imap.
  apply (Lk d). by eapply list_elem_of_lookup_2.
Qed.

Lemma restore_fields table v p :
  pr_valid (_linkg_transport_restore_peer_tx_sequences table v p) = pr_valid p /\
  pr_peer_node_id (_linkg_transport_restore_peer_tx_sequences table v p) = pr_peer_node_id p /\
  pr_lifecycle_epoch (_linkg_transport_restore_peer_tx_sequences table v p) = pr_lifecycle_epoch p.
Proof. unfold _linkg_transport_restore_peer_tx_sequences. by case_match. Qed.

Lemma reset_classes_ok clear p : peer_ok p -> peer_ok (_linkg_transport_reset_peer_classes clear p).
Proof.
  intros [L Lk E]. split; [cbn; by rewrite length_fmap| |done]. cbn. intros c (d&->&Hd)%list_elem_of_fmap.
  exact (Lk d Hd).
Qed.

Lemma save_length p table : length (_linkg_transport_save_peer_tx_sequences p table) = length table.
Proof. unfold _linkg_transport_save_peer_tx_sequences. case_match; [done|]. by rewrite length_insert. Qed.

Lemma next_active_range e : in_range 32 (_linkg_transport_peer_next_active_epoch e).
Proof. unfold _linkg_transport_peer_next_active_epoch. case_match; apply wrap_range; lia. Qed.

Lemma wf_sent s i p a b c :
  wf s -> peers s !! i = Some p ->
  pc_tx_order_lock a = false -> pc_tx_order_lock b = false -> pc_tx_order_lock c = false ->
  wf (put i (with_classes p a b c) s).
Proof.
  intros W Hp Ha Hb Hc. apply (wf_put_only s i p); try done. apply with_classes_ok; try done. by apply (w_peer _ W i).
Qed.

Lemma wf_quiesced s i p a b c clear : wf s -> peers s !! i = Some p -> wf (quiesced i p a b c clear s).
Proof.
  intros W Hp. apply (wf_put s i p); try done.
  - apply set_epoch_ok; [apply wrap_range; lia|]. apply with_classes_ok; try done. by apply (w_peer _ W i).
  - rewrite save_length. apply W.
Qed.

Lemma wf_reactivated s i p : wf s -> peers s !! i = Some p -> wf (reactivated i p s).
Proof.
  intros W Hp. destruct (restore_fields (tr_tx_sequences s) (pr_peer_node_id p) p) as (Ev&En&_).
  apply (wf_put_only s i p); try done.
  apply set_epoch_ok; [apply wrap_range; lia|]. apply restore_ok. by apply (w_peer _ W i).
Qed.

Lemma count_positive s i p : wf s -> peers s !! i = Some p -> pr_valid p = true -> 1 <= cx_peer_count (tr_context s).
Proof.
  intros W Hp Hv. rewrite (w_count _ W). assert (peer_weight p = 1) as <- by (unfold peer_weight; by rewrite Hv).
  apply (sumZ_lookup_le _ _ i); [intros; apply peer_weight_range|done].
Qed.

Lemma count_bound s : wf s -> 0 <= cx_peer_count (tr_context s) <= 16.
Proof.
  intros W. rewrite (w_count _ W). pose proof (w_len _ W) as L. assert (Z.of_nat (length (peers s)) = 16) as <- by lia.
  clear. induction (peers s) as [|p l IH]; cbn [sumZ length]; [lia|]. pose proof (peer_weight_range p). lia.
Qed.

Lemma wf_released s i p : wf s -> peers s !! i = Some p -> pr_valid p = true -> wf (released i p s).
Proof.
  intros W Hp Hv. unfold released. rewrite <- tables_same. apply (wf_update s i p); try done.
  - destruct (w_peer _ W i p Hp). by split.
  - unfold peer_weight. cbn. rewrite Hv. lia.
  - intros H. pose proof (w_sta _ W H). lia.
  - apply W.
Qed.

Lemma wf_occupied s i p v :
  wf s -> peers s !! i = Some p -> pr_valid p = false -> _linkg_transport_node_id_valid v = true ->
  v <> cx_local_node_id (tr_context s) -> linkg_transport_find_peer_locked (tr_context s) v = None ->
  (cx_local_role (tr_context s) = LINKG_DEVICE_ROLE_STA -> cx_peer_count (tr_context s) = 0) ->
  wf (occupied i p v s).
Proof.
  intros W Hp Hv Hn Hl Hf Hsta. unfold occupied. rewrite <- tables_same. pose proof (count_bound s W) as Hcb.
  rewrite (wrap_small 32) by (unfold in_range; lia).
  apply (wf_update s i p); try done.
  - apply set_epoch_ok; [apply next_active_range|].
    destruct (restore_ok (tr_tx_sequences s) v (_linkg_transport_reset_peer_classes true p)) as [A B E];
      [apply reset_classes_ok; by apply (w_peer _ W i)|]. by split.
  - intros _. cbn. splits; [done|done|]. intros j q _ Hq Hvq. by apply (find_peer_none s v j).
  - unfold peer_weight. cbn. rewrite Hv. lia.
  - intros H. rewrite Hsta by done. lia.
  - apply W.
Qed.

(** ** Effects of a call

    A relation graded by the life-cycle steps it allows, closed under every
    elementary step of the calls and under what other threads do while the lock
    is free, at most [budget] steps each time. *)

Definition same_local (s s' : state) : Prop :=
  cx_local_node_id (tr_context s') = cx_local_node_id (tr_context s) /\
  cx_local_role (tr_context s') = cx_local_role (tr_context s) /\
  cx_initialized (tr_context s') = cx_initialized (tr_context s).

Definition with_lock (b : bool) (s : state) : state := tset_context (ctx_set_lock b (tr_context s)) s.
Definition with_handlers (l : list linkg_transport_handler) (f : linkg_transport_handler) (s : state) : state :=
  tset_context (ctx_set_handlers l f (tr_context s)) s.

Record effect (budget : nat) (R : nat -> state -> state -> Prop) : Prop := {
  ef_refl s : R 0%nat s s;
  ef_trans m n s1 s2 s3 : R m s1 s2 -> R n s2 s3 -> R (m + n)%nat s1 s3;
  ef_mono m n s1 s2 : (m <= n)%nat -> R m s1 s2 -> R n s1 s2;
  ef_tick s s' : ticked s s' -> R 0%nat s s';
  ef_lock b s : R 0%nat s (with_lock b s);
  ef_parts c s : R 0%nat s (tset_parts c s);
  ef_handlers l f s : R 0%nat s (with_handlers l f s);
  ef_sent i p a b c a' b' c' s : wf s -> peers s !! i = Some p -> pr_classes p = [a; b; c] ->
    sent_to a a' -> sent_to b b' -> sent_to c c' ->
    pc_tx_order_lock a' = false -> pc_tx_order_lock b' = false -> pc_tx_order_lock c' = false ->
    R 0%nat s (put i (with_classes p a' b' c') s);
  ef_quiesced i p a b c a' b' c' clear s : wf s -> peers s !! i = Some p -> pr_valid p = true ->
    active_epoch (pr_lifecycle_epoch p) = true -> pr_classes p = [a; b; c] ->
    sent_to a a' -> sent_to b b' -> sent_to c c' -> R 1%nat s (quiesced i p a' b' c' clear s);
  ef_reactivated i p s : wf s -> peers s !! i = Some p -> pr_valid p = true ->
    active_epoch (pr_lifecycle_epoch p) = false -> R 1%nat s (reactivated i p s);
  ef_released i p s : wf s -> peers s !! i = Some p -> pr_valid p = true ->
    active_epoch (pr_lifecycle_epoch p) = false -> R 1%nat s (released i p s);
  ef_occupied i p v s : wf s -> peers s !! i = Some p -> pr_valid p = false -> wf (occupied i p v s) ->
    linkg_transport_find_peer_locked (tr_context s) v = None -> R 2%nat s (occupied i p v s);
  ef_others n s : wf s -> held false s -> R budget s (te_others env n s) }.

(** What the other threads keep: the invariant, and they leave the lock free. *)
Definition rely : Prop := forall n s, wf s -> held false s ->
  wf (te_others env n s) /\ held false (te_others env n s) /\ same_local s (te_others env n s).

Section Effect.
Context (budget : nat) (R : nat -> state -> state -> Prop) (EF : effect budget R).
Context (Hrely : rely) (Hunlock : forall n, te_unlock env n = 0).

(** At most [n] life-cycle steps, to a state with the invariant and the lock flag [b]. *)
Record reached (n : nat) (b : bool) (s s' : state) : Prop := {
  rd_rel : R n s s';
  rd_wf : wf s';
  rd_held : held b s';
  rd_local : same_local s s' }.

Lemma same_local_trans s1 s2 s3 : same_local s1 s2 -> same_local s2 s3 -> same_local s1 s3.
Proof. unfold same_local. intros (->&->&->) (->&->&->). done. Qed.

Lemma reached_refl n b s : wf s -> held b s -> reached n b s s.
Proof. intros W H. split; try done. apply (ef_mono _ _ EF 0); [lia|apply (ef_refl _ _ EF)]. Qed.

Lemma reached_trans m n k b b' s1 s2 s3 :
  reached m b s1 s2 -> reached n b' s2 s3 -> (m + n <= k)%nat -> reached k b' s1 s3.
Proof.
  intros [R1 _ _ L1] [R2 W H L2] Hk. split; try done; [|by eapply same_local_trans].
  eapply (ef_mono _ _ EF); [exact Hk|]. by eapply (ef_trans _ _ EF).
Qed.

Lemma reached_ticked b s s' : wf s -> held b s -> ticked s s' -> reached 0 b s s'.
Proof.
  intros W H T. split; [by apply (ef_tick _ _ EF)|by eapply wf_tick| |]; destruct T as [t ->]; done.
Qed.

Lemma wp_transport_lock (Q : Z -> state -> Prop) s :
  wf s -> held false s ->
  (forall r s', r <> 0 -> reached 0 false s s' -> Q r s') ->
  (forall s', reached budget true s s' -> Q 0 s') ->
  wp (transport_lock env) Q s.
Proof.
  intros W H Hfail Hok. unfold transport_lock. apply wp_bind, wp_observation. intros n s1 T.
  pose proof (reached_ticked _ _ _ W H T) as R1. apply wp_bind, wp_when; intros E.
  - apply wp_bind, wp_modify, wp_modify, wp_ret. apply Z.eqb_eq in E. rewrite E. apply Hok.
    destruct (Hrely n s1 (rd_wf _ _ _ _ R1) (rd_held _ _ _ _ R1)) as (W2&H2&L2).
    eapply (reached_trans 0 budget _ false); [exact R1| |lia]. split; [|by apply wf_lock|done|done].
    apply (ef_mono _ _ EF (budget + 0)); [lia|]. eapply (ef_trans _ _ EF); [|apply (ef_lock _ _ EF)].
    apply (ef_others _ _ EF); apply R1.
  - apply wp_ret. apply Hfail; [by apply Z.eqb_neq|done].
Qed.

Lemma wp_transport_unlock (Q : Z -> state -> Prop) s :
  wf s -> held true s -> (forall s', reached 0 false s s' -> Q 0 s') -> wp (transport_unlock env) Q s.
Proof.
  intros W H HQ. unfold transport_unlock. apply wp_bind, wp_observation. intros n s1 T.
  pose proof (reached_ticked _ _ _ W H T) as R1. rewrite Hunlock. cbn [Z.eqb when].
  apply wp_bind, wp_modify, wp_ret, HQ. eapply (reached_trans 0 0 0); [exact R1| |lia].
  split; [apply (ef_lock _ _ EF)|apply wf_lock, R1|done|done].
Qed.

Lemma wp_unlock_with ret n s0 s :
  reached n true s0 s -> wp (unlock_with env ret) (fun r s' => r = ret /\ reached n false s0 s') s.
Proof.
  intros R0. unfold unlock_with. apply wp_bind, wp_transport_unlock; [apply R0..|]. intros s' R1.
  apply wp_ret. split; [done|]. by eapply reached_trans; [exact R0|exact R1|lia].
Qed.

Lemma wp_part_reached {A} (m : M C A) (Q : A -> state -> Prop) b s :
  keeps tp_inv m -> wf s -> held b s -> (forall a s', reached 0 b s s' -> Q a s') -> wp (part m) Q s.
Proof.
  intros Hm W H HQ. apply wp_part; [done|apply W|]. intros a c' Hi. apply HQ.
  split; [apply (ef_parts _ _ EF)|by apply wf_parts|done|done].
Qed.

Lemma reached_sent i p a b c a' b' c' h s s' :
  wf s -> held h s -> peers s !! i = Some p -> pr_classes p = [a; b; c] ->
  sent_to a a' -> sent_to b b' -> sent_to c c' ->
  pc_tx_order_lock a' = false -> pc_tx_order_lock b' = false -> pc_tx_order_lock c' = false ->
  ticked (put i (with_classes p a' b' c') s) s' -> reached 0 h s s'.
Proof.
  intros W H Hp Hc Sa Sb Sc Fa Fb Fc T.
  apply (reached_trans 0 0 0 h h _ (put i (with_classes p a' b' c') s)); [| |lia].
  - split; [by eapply (ef_sent _ _ EF)|by apply wf_sent|done|done].
  - apply reached_ticked; [by apply wf_sent|done|done].
Qed.

Lemma quiesce_reached i p h clear s :
  wf s -> held h s -> peers s !! i = Some p -> pr_valid p = true ->
  wp (_linkg_transport_peer_quiesce_locked env (Some i) clear)
    (fun rq s' => reached 1 h s s' /\
       (fst rq = 0 -> active_epoch (pr_lifecycle_epoch p) = true /\ snd rq = u32 (pr_lifecycle_epoch p + 1))) s.
Proof.
  intros W H Hp Hv. destruct (three_classes p (w_peer _ W i p Hp)) as (a&b&c&Hc&La&Lb&Lc).
  eapply wp_mono; [by apply (quiesce_spec i p a b c)|].
  intros rq s' O. destruct O as [|a' b' c' r q s' Ha Hr Sa Sb Sc Fa Fb Fc T|a' b' c' s' Ha Sa Sb Sc T]; cbn.
  - split; [by apply reached_refl|done].
  - split; [|done]. apply (reached_trans 0 0 1 h h _ s'); [|apply reached_refl|lia].
    + by apply (reached_sent i p a b c a' b' c').
    + destruct T as [t ->]. apply (wf_tick (put i (with_classes p a' b' c') s)); [by eexists|by apply wf_sent].
    + by destruct T as [t ->].
  - split; [|done]. apply (reached_trans 1 0 1 h h _ (quiesced i p a' b' c' clear s)); [| |lia].
    + split; [by eapply (ef_quiesced _ _ EF)|by apply wf_quiesced|done|done].
    + apply reached_ticked; [by apply wf_quiesced|done|done].
Qed.

Lemma caches_reached v h s :
  wf s -> held h s -> wp (_linkg_transport_reset_peer_caches v) (fun _ s' => reached 0 h s s') s.
Proof.
  intros W H. unfold _linkg_transport_reset_peer_caches.
  apply wp_bind, (wp_part_reached _ _ h); [auto with parts|done|done|]. intros r1 s1 R1.
  apply wp_bind, (wp_part_reached _ _ h); [auto with parts|apply R1|apply R1|]. intros r2 s2 R2.
  apply wp_bind, (wp_part_reached _ _ h); [auto with parts|apply R2|apply R2|]. intros r3 s3 R3.
  apply wp_ret. eapply (reached_trans 0 0); [exact R1| |lia]. by eapply (reached_trans 0 0); [exact R2|exact R3|lia].
Qed.

Lemma guard_reached v s :
  wf s -> held false s ->
  wp (lifecycle_guard v) (fun g s' => reached 0 false s s' /\ (g = None -> _linkg_transport_node_id_valid v = true)) s.
Proof.
  intros W H. unfold lifecycle_guard, context. apply wp_bind, wp_gets.
  destruct (cx_initialized (tr_context s)); cbn [negb]; [|apply wp_ret; split; [by apply reached_refl|done]].
  apply wp_bind, (wp_part_reached _ _ false); [auto with parts|done|done|]. intros w s1 R1.
  destruct w; [by apply wp_ret|]. destruct (_linkg_transport_node_id_valid v); cbn [negb]; [|by apply wp_ret].
  apply wp_bind, (wp_part_reached _ _ false); [auto with parts|apply R1..|]. intros r s2 R2.
  apply wp_ret. split; [|done]. by eapply (reached_trans 0 0); [exact R1|exact R2|lia].
Qed.

Lemma active_epoch_mod e : active_epoch e = (e mod 2 =? 0).
Proof. unfold active_epoch. by replace (Z.land e 1) with (e mod 2) by (symmetry; apply (Z.land_ones e 1); lia). Qed.

(** The epoch of a quiesced slot is odd. *)
Lemma quiescing_odd e : active_epoch e = true -> active_epoch (u32 (e + 1)) = false.
Proof. rewrite !active_epoch_mod. intros H%Z.eqb_eq. apply Z.eqb_neq. mlia. Qed.

Definition finishes (finish : nat -> Z -> M state unit) (v : Z) : Prop :=
  forall i p s, wf s -> held true s -> peers s !! i = Some p -> pr_valid p = true -> pr_peer_node_id p = v ->
    _linkg_transport_node_id_valid v = true -> active_epoch (pr_lifecycle_epoch p) = false ->
    wp (finish i (pr_lifecycle_epoch p)) (fun _ s' => reached 1 true s s') s.

Ltac rtrans R1 R2 := eapply reached_trans; [exact R1|exact R2|lia].

(** A failed lock call and an early exit under the lock. *)
Lemma reached_loose m n b s s' : reached m b s s' -> (m <= n)%nat -> reached n b s s'.
Proof. intros R1 H. eapply (reached_trans _ 0); [exact R1|apply reached_refl; apply R1|lia]. Qed.

Lemma unlock_with_reached m n ret s0 s :
  reached m true s0 s -> (m <= n)%nat -> wp (unlock_with env ret) (fun _ s' => reached n false s0 s') s.
Proof.
  intros R0 H. eapply wp_mono; [by apply (wp_unlock_with _ n s0), (reached_loose m)|]. by intros r s' [_ R1].
Qed.

Lemma wp_transport_lock_if {A} (Q : A -> state -> Prop) (err : Z -> M state A) (m : M state A) k s0 s :
  reached k false s0 s ->
  (forall r s', r <> 0 -> reached k false s0 s' -> wp (err r) Q s') ->
  (forall s', reached (k + budget) true s0 s' -> wp m Q s') ->
  wp (ret ← transport_lock env; if negb (ret =? 0) then err ret else m) Q s.
Proof.
  intros R0 Herr Hok. apply wp_bind, wp_transport_lock; [apply R0..| |].
  - intros r s1 Hr R1. rewrite (proj2 (Z.eqb_neq r 0) Hr). apply Herr; [done|rtrans R0 R1].
  - intros s1 R1. apply Hok. rtrans R0 R1.
Qed.

Lemma finish_quiesced_reached v i q cr finish k s0 s :
  finishes finish v -> _linkg_transport_node_id_valid v = true -> active_epoch q = false -> (i < 16)%nat ->
  reached k false s0 s ->
  wp (finish_quiesced env i v q cr finish) (fun _ s' => reached (k + budget + 1) false s0 s') s.
Proof.
  intros Hfin Hv Hq Hi R0. unfold finish_quiesced. eapply wp_transport_lock_if; [exact R0| |].
  { intros r s1 _ R1. apply wp_ret. by apply (reached_loose k); [|lia]. }
  intros s1 R1. pose proof (rd_wf _ _ _ _ R1) as W. rewrite <- (w_len _ W) in Hi.
  destruct (lookup_lt_is_Some_2 _ _ Hi) as [p Hp]. apply wp_bind. eapply wp_peer_read; [exact Hp|].
  destruct (negb (pr_valid p) || _ || _) eqn:Et; [apply (unlock_with_reached (k + budget)); [done|lia]|].
  zb. subst q.
  apply wp_bind. eapply wp_mono; [by apply (Hfin i p); [|apply R1|..]|].
  intros u s2 R2. apply wp_bind, wp_transport_unlock; [apply R2..|]. intros s3 R3. apply wp_ret.
  eapply (reached_trans _ 1); [exact R1| |lia]. rtrans R2 R3.
Qed.

Lemma quiesce_then_reached v clear finish s :
  finishes finish v -> wf s -> held false s ->
  wp (quiesce_then env v clear finish) (fun _ s' => reached (2 * budget + 2) false s s') s.
Proof.
  intros Hfin W H. unfold quiesce_then. apply wp_bind. eapply wp_mono; [by apply guard_reached|].
  intros g s1 [R1 Hg]. destruct g as [r|]; [apply wp_ret; by apply (reached_loose 0); [|lia]|].
  specialize (Hg eq_refl). eapply wp_transport_lock_if; [exact R1| |].
  { intros r s2 _ R2. apply wp_ret. by apply (reached_loose 0); [|lia]. }
  intros s2 R2. unfold context. apply wp_bind, wp_gets.
  destruct (linkg_transport_find_peer_locked (tr_context s2) v) as [i|] eqn:Ef;
    [|by apply (unlock_with_reached (0 + budget)); [|lia]].
  destruct (find_peer_spec s2 v i Ef) as (p&Hp&Hv&_).
  assert (i < 16)%nat as Hi by (rewrite <- (w_len _ (rd_wf _ _ _ _ R2)); by eapply lookup_lt_Some).
  apply wp_bind. eapply wp_mono; [by apply (quiesce_reached i p true); [apply R2..| |]|].
  intros [ret q] s3 [R3 Hq]. cbn [fst snd] in Hq.
  assert (reached (budget + 1) true s s3) as R03 by rtrans R2 R3.
  destruct (Z.eqb_spec ret 0) as [->|Hr]; cbn [negb]; [|by apply (unlock_with_reached (budget + 1)); [|lia]].
  destruct (Hq eq_refl) as [Ha ->]. apply wp_bind, wp_transport_unlock; [apply R3..|].
  intros s4 R4. cbn [negb Z.eqb]. apply wp_bind. eapply wp_mono; [by apply (caches_reached v false); apply R4|].
  intros cr s5 R5. eapply wp_mono.
  - apply (finish_quiesced_reached v i _ cr finish (budget + 1) s); try done; [by apply quiescing_odd|].
    eapply (reached_trans _ 0); [exact R03| |lia]. rtrans R4 R5.
  - intros r s6 R6. by apply (reached_loose (budget + 1 + budget + 1)); [|lia].
Qed.

Lemma reset_finishes v :
  finishes (fun i quiescing_epoch =>
    s ← get;
    peer_update i (_linkg_transport_restore_peer_tx_sequences (tr_tx_sequences s) v) ;;
    epoch_store i (u32 (quiescing_epoch + 1))) v.
Proof.
  intros i p s W H Hp Hv Hn _ Ha. apply wp_bind, wp_get, wp_bind. eapply wp_peer_update; [exact Hp|].
  unfold epoch_store. eapply wp_peer_update; [apply put_lookup; by eapply lookup_lt_Some|]. rewrite put_put.
  replace (put _ _ s) with (reactivated i p s) by (unfold reactivated; by rewrite Hn).
  split; [by apply (ef_reactivated _ _ EF)|by apply wf_reactivated|done|done].
Qed.

Lemma unregister_finishes v :
  finishes (fun i _ =>
    peer_update i (set_owner 0 false) ;;
    x ← context;
    when (0 <? cx_peer_count x) (update (ctx_set_peers (cx_peers x) (cx_peer_count x - 1)))) v.
Proof.
  intros i p s W H Hp Hv _ _ Ha. apply wp_bind. eapply wp_peer_update; [exact Hp|].
  unfold context. apply wp_bind, wp_gets. cbn [tr_context put tset_context cx_peer_count ctx_set_peers].
  pose proof (count_positive s i p W Hp Hv). rewrite (proj2 (Z.ltb_lt 0 _)) by lia.
  unfold update. apply wp_when; [intros _|done]. apply wp_modify.
  match goal with |- reached _ _ _ ?t => change t with (released i p s) end.
  split; [by apply (ef_released _ _ EF)|by apply wf_released|done|done].
Qed.

Lemma register_reached v s :
  wf s -> held false s ->
  wp (linkg_transport_register_peer env v) (fun _ s' => reached (2 * budget + 2) false s s') s.
Proof.
  intros W H. unfold linkg_transport_register_peer, context. apply wp_bind, wp_gets.
  destruct (cx_initialized (tr_context s)); cbn [negb]; [|by apply wp_ret, reached_refl].
  destruct (_ || _) eqn:Ev; [by apply wp_ret, reached_refl|]. zb.
  eapply (wp_transport_lock_if _ _ _ 0 s); [by apply reached_refl| |].
  { intros r s1 _ R1. apply wp_ret. by apply (reached_loose 0); [|lia]. }
  intros s1 R1. pose proof (rd_wf _ _ _ _ R1) as W1. apply wp_bind, wp_gets.
  assert (forall ret, wp (unlock_with env ret) (fun _ s' => reached (2 * budget + 2) false s s') s1) as Hexit
    by (intros; apply (unlock_with_reached (0 + budget)); [done|lia]).
  destruct (linkg_transport_find_peer_locked (tr_context s1) v) as [i|] eqn:Ef; [case_match; apply Hexit|].
  destruct (_ && _) eqn:Es; [apply Hexit|].
  destruct (_linkg_transport_find_unused_locked (tr_context s1)) as [i|] eqn:Eu; [|apply Hexit].
  apply first_index_0 in Eu as (p&Hp&Hf%negb_true_iff). pose proof (lookup_lt_Some _ _ _ Hp) as Hi.
  assert (wf (occupied i p v s1)) as W2.
  { apply wf_occupied; try done; [by rewrite (proj1 (rd_local _ _ _ _ R1))|].
    intros Hs. rewrite Hs in Es. cbn in Es. by zb. }
  apply wp_bind. eapply wp_peer_update; [exact Hp|]. apply wp_bind, wp_get, wp_bind.
  eapply wp_peer_update; [by apply put_lookup|]. rewrite put_put. apply wp_bind.
  eapply wp_peer_read; [by apply put_lookup|]. apply wp_bind. eapply wp_peer_update; [by apply put_lookup|].
  rewrite put_put. apply wp_bind. unfold epoch_store. eapply wp_peer_update; [by apply put_lookup|]. rewrite put_put.
  unfold update. apply wp_bind, wp_modify, wp_bind.
  cbn [put tset_context tr_tx_sequences]. destruct (restore_fields (tr_tx_sequences s1) v (_linkg_transport_reset_peer_classes true p)) as (_&_&->).
  match goal with |- wp _ _ ?t => change t with (occupied i p v s1) end.
  assert (reached 2 true s1 (occupied i p v s1)) as R2
    by (split; [by apply (ef_occupied _ _ EF)|done|apply R1|done]).
  apply wp_transport_unlock; [done|apply R2|]. intros s3 R3. apply wp_ret.
  eapply (reached_trans _ 2); [exact R1| |lia]. rtrans R2 R3.
Qed.

Lemma handlers_reached n l f s0 s :
  reached n true s0 s -> length l = Z.to_nat LINKG_TRANSPORT_TYPE_COUNT -> reached n true s0 (with_handlers l f s).
Proof.
  intros R0 Hl. eapply (reached_trans _ 0); [exact R0| |lia]. destruct R0 as [_ [] Hh _].
  split; [apply (ef_handlers _ _ EF)|by split|done|done].
Qed.

Lemma handler_update_reached slot allowed refusal new s :
  wf s -> held false s ->
  wp (handler_update env slot allowed refusal new) (fun _ s' => reached (2 * budget + 2) false s s') s.
Proof.
  intros W H. unfold handler_update. eapply (wp_transport_lock_if _ _ _ 0 s); [by apply reached_refl| |].
  { intros r s1 _ R1. apply wp_ret. by apply (reached_loose 0); [|lia]. }
  intros s1 R1. pose proof (rd_wf _ _ _ _ R1) as W1. unfold context. apply wp_bind, wp_gets.
  cbv zeta. case_match; [apply (unlock_with_reached (0 + budget)); [done|lia]|].
  unfold update. apply wp_bind, wp_modify. apply wp_bind.
  match goal with |- wp _ _ ?t => assert (reached budget true s t) as R2 end.
  { destruct slot; apply (handlers_reached _ _ _ s s1); try done; [|apply W1]. rewrite length_insert. apply W1. }
  apply wp_transport_unlock; [apply R2..|]. intros s3 R3. apply wp_ret.
  eapply (reached_trans budget 0); [exact R2|exact R3|lia].
Qed.

Lemma peer_stats_reached v stats s :
  wf s -> held false s ->
  wp (linkg_transport_get_peer_stats env v stats) (fun _ s' => reached (2 * budget + 2) false s s') s.
Proof.
  intros W H. unfold linkg_transport_get_peer_stats, context. apply wp_bind, wp_gets.
  destruct (cx_initialized (tr_context s)); cbn [negb]; [|by apply wp_ret, reached_refl].
  destruct (_ || _); [by apply wp_ret, reached_refl|].
  eapply (wp_transport_lock_if _ _ _ 0 s); [by apply reached_refl| |].
  { intros r s1 _ R1. apply wp_ret. by apply (reached_loose 0); [|lia]. }
  intros s1 R1. pose proof (rd_wf _ _ _ _ R1) as W1. apply wp_bind, wp_gets.
  assert (forall (a : Z * option linkg_transport_peer_stats) s2, reached 0 true s1 s2 ->
    wp (_ ← transport_unlock env; mret a) (fun _ s' => reached (2 * budget + 2) false s s') s2) as Hexit.
  { intros a s2 R2. apply wp_bind, wp_transport_unlock; [apply R2..|]. intros s3 R3. apply wp_ret.
    eapply (reached_trans _ 0); [exact R1| |lia]. rtrans R2 R3. }
  destruct (linkg_transport_find_peer_locked (tr_context s1) v) as [i|] eqn:Ef; [|apply Hexit, reached_refl; [done|apply R1]].
  destruct (find_peer_spec s1 v i Ef) as (p&Hp&_). pose proof (lookup_lt_Some _ _ _ Hp) as Hi.
  destruct (three_classes p (w_peer _ W1 i p Hp)) as (a&b&c&Hc&La&Lb&Lc).
  apply wp_bind. eapply (lock_all_spec _ i p a b c); [done..|]. intros r s2 a' b' c' T Sa Sb Sc Hfree.
  destruct (Z.eqb_spec r 0) as [->|Hr]; cbn [negb].
  2:{ apply Hexit. destruct (Hfree Hr) as (?&?&?). apply (reached_sent i p a b c a' b' c'); try done. apply R1. }
  destruct T as [t ->]. apply wp_bind. eapply wp_peer_read; [by apply (put_lookup i _ s1)|].
  apply wp_bind. eapply (unlock_all_spec _ i (with_classes p a' b' c') a' b' c'); [by apply (put_lookup i _ s1)|done|].
  match goal with |- wp _ _ ?t' => assert (reached 0 true s1 t') as R2 end.
  { apply (reached_sent i p a b c (set_order_lock false a') (set_order_lock false b') (set_order_lock false c')); try done; [apply R1|].
    exists t. unfold put, tset_context, tset_ghost, ctx_set_peers. cbn. by rewrite list_insert_insert_eq. }
  apply wp_bind, wp_transport_unlock; [apply R2..|]. intros s3 R3. apply wp_ret.
  eapply (reached_trans _ 0); [exact R1| |lia]. rtrans R2 R3.
Qed.

Lemma global_stats_reached stats s :
  wf s -> held false s ->
  wp (linkg_transport_get_global_stats env stats) (fun _ s' => reached (2 * budget + 2) false s s') s.
Proof.
  intros W H. unfold linkg_transport_get_global_stats, context. apply wp_bind, wp_gets.
  destruct (cx_initialized (tr_context s)); cbn [negb]; [|by apply wp_ret, reached_refl].
  destruct stats; cbn [negb]; [|by apply wp_ret, reached_refl].
  eapply (wp_transport_lock_if _ _ _ 0 s); [by apply reached_refl| |].
  { intros r s1 _ R1. apply wp_ret. by apply (reached_loose 0); [|lia]. }
  intros s1 R1. apply wp_bind, wp_gets, wp_bind, wp_transport_unlock; [apply R1..|]. intros s2 R2. apply wp_ret.
  eapply (reached_trans _ 0); [exact R1|exact R2|lia].
Qed.

End Effect.

(** ** Sequences of calls *)

Inductive peer_call :=
  | RegisterPeer (v : Z)
  | ResetPeer (v : Z) (clear_stats : bool)
  | UnregisterPeer (v : Z)
  | RegisterHandler (type : Z) (handler : option Z) (user_data : Z)
  | UnregisterHandler (type : Z)
  | RegisterForwardHandler (handler : option Z) (user_data : Z)
  | UnregisterForwardHandler
  | GetPeerStats (v : Z)
  | GetGlobalStats.

Definition run_call (c : peer_call) : M state Z :=
  match c with
  | RegisterPeer v => linkg_transport_register_peer env v
  | ResetPeer v clear_stats => linkg_transport_reset_peer env v clear_stats
  | UnregisterPeer v => linkg_transport_unregister_peer env v
  | RegisterHandler type handler user_data => linkg_transport_register_handler env type handler user_data
  | UnregisterHandler type => linkg_transport_unregister_handler env type
  | RegisterForwardHandler handler user_data => linkg_transport_register_forward_handler env handler user_data
  | UnregisterForwardHandler => linkg_transport_unregister_forward_handler env
  | GetPeerStats v => r ← linkg_transport_get_peer_stats env v true; mret (fst r)
  | GetGlobalStats => r ← linkg_transport_get_global_stats env true; mret (fst r)
  end.

Definition run_calls (cs : list peer_call) : M state unit := mfor cs (fun c => _ ← run_call c; mret tt).

Lemma call_reached budget R c s :
  effect budget R -> rely -> (forall n, te_unlock env n = 0) -> wf s -> held false s ->
  wp (run_call c) (fun _ s' => reached R (2 * budget + 2) false s s') s.
Proof.
  intros EF Hr Hu W H. assert (reached R (2 * budget + 2) false s s) as Hs by (by eapply reached_refl).
  destruct c as [v|v b|v|ty h u|ty|h u| |v| ]; cbn [run_call].
  - by eapply register_reached.
  - eapply quiesce_then_reached; try done. by eapply reset_finishes.
  - eapply quiesce_then_reached; try done. by eapply unregister_finishes.
  - unfold linkg_transport_register_handler, context. apply wp_bind, wp_gets.
    case_match; [by apply wp_ret|]. case_match; [by apply wp_ret|]. by eapply handler_update_reached.
  - unfold linkg_transport_unregister_handler, context. apply wp_bind, wp_gets.
    case_match; [by apply wp_ret|]. case_match; [by apply wp_ret|]. by eapply handler_update_reached.
  - unfold linkg_transport_register_forward_handler, context. apply wp_bind, wp_gets.
    case_match; [by apply wp_ret|]. case_match; [by apply wp_ret|]. by eapply handler_update_reached.
  - unfold linkg_transport_unregister_forward_handler, context. apply wp_bind, wp_gets.
    case_match; [by apply wp_ret|]. by eapply handler_update_reached.
  - apply wp_bind. eapply wp_mono; [by eapply peer_stats_reached|]. intros r s' R1. by apply wp_ret.
  - apply wp_bind. eapply wp_mono; [by eapply global_stats_reached|]. intros r s' R1. by apply wp_ret.
Qed.

Lemma calls_reached budget R cs s :
  effect budget R -> rely -> (forall n, te_unlock env n = 0) -> wf s -> held false s ->
  wp (run_calls cs) (fun _ s' => reached R (length cs * (2 * budget + 2)) false s s') s.
Proof.
  intros EF Hr Hu. revert s. induction cs as [|c cs IH]; intros s W H; unfold run_calls; cbn [mfor length].
  - by apply wp_ret, (reached_refl budget R EF).
  - apply wp_bind, wp_bind. eapply wp_mono; [by apply (call_reached budget R)|]. intros r s1 R1. apply wp_ret.
    eapply wp_mono; [apply IH; apply R1|]. intros u s2 R2.
    eapply (reached_trans budget R EF); [exact R1|exact R2|lia].
Qed.

(** ** Transmit sequence numbers *)

Definition owns (p : linkg_transport_peer) (v : Z) : bool := pr_valid p && (pr_peer_node_id p =? v).

(** The sequence numbers of class [k] that slot [p] holds for node [v]. *)
Definition slot_sequences (table : list (list linkg_transport_tx_sequence_state)) (p : linkg_transport_peer) (v : Z) (k : nat)
    : linkg_transport_tx_sequence_state :=
  if owns p v && active_epoch (pr_lifecycle_epoch p) then sequences_of (class_at_index (pr_classes p) k)
  else sequence_state table v k.

(** The current ones of node [v]: in the slot of its active peer, otherwise saved. *)
Definition node_sequences (s : state) (v : Z) (k : nat) : linkg_transport_tx_sequence_state :=
  match linkg_transport_find_peer_locked (tr_context s) v with
  | Some i => slot_sequences (tr_tx_sequences s) (default peer_zero (peers s !! i)) v k
  | None => sequence_state (tr_tx_sequences s) v k
  end.

Lemma owns_true p v : owns p v = true <-> pr_valid p = true /\ pr_peer_node_id p = v.
Proof. unfold owns. by rewrite andb_true_iff, Z.eqb_eq. Qed.

Lemma find_iff (s : state) v i :
  wf s -> _linkg_transport_node_id_valid v = true ->
  linkg_transport_find_peer_locked (tr_context s) v = Some i <-> exists p, peers s !! i = Some p /\ owns p v = true.
Proof.
  intros W Hv. split.
  - intros (p&Hp&H1&H2&_)%find_peer_spec. exists p. by rewrite owns_true.
  - intros (p&Hp&[H1 H2]%owns_true). destruct (linkg_transport_find_peer_locked (tr_context s) v) as [j|] eqn:E.
    + destruct (find_peer_spec s v j E) as (q&Hq&H3&H4&_). f_equal. apply (w_distinct _ W j i q p); congruence.
    + by destruct (find_peer_none s v i p E Hv Hp H1).
Qed.

Lemma node_sequences_owned (s : state) i p v k :
  wf s -> _linkg_transport_node_id_valid v = true -> peers s !! i = Some p -> owns p v = true ->
  node_sequences s v k = slot_sequences (tr_tx_sequences s) p v k.
Proof.
  intros W Hv Hp Ho. unfold node_sequences. rewrite (proj2 (find_iff s v i W Hv)) by eauto. by rewrite Hp.
Qed.

(** When slot [i] is the only one that differs. *)
Lemma node_sequences_slot (s s' : state) i p p' v k :
  wf s -> wf s' -> _linkg_transport_node_id_valid v = true -> peers s !! i = Some p -> peers s' !! i = Some p' ->
  (forall j, j <> i -> peers s' !! j = peers s !! j) -> owns p v = true \/ owns p' v = true ->
  node_sequences s v k = slot_sequences (tr_tx_sequences s) p v k.
Proof.
  intros W W' Hv Hp Hp' Hj Ho. destruct (owns p v) eqn:E; [by eapply node_sequences_owned|].
  destruct Ho as [?|Ho]; [done|]. unfold slot_sequences. rewrite E. unfold node_sequences.
  destruct (linkg_transport_find_peer_locked (tr_context s) v) as [j|] eqn:Ef; [|done].
  apply (find_iff s v j W Hv) in Ef as (q&Hq&Hoq). destruct (decide (j = i)) as [->|Hne]; [congruence|].
  rewrite <- Hj in Hq by done. apply owns_true in Hoq as [Q1 Q2], Ho as [P1 P2].
  destruct Hne. apply (w_distinct _ W' j i q p'); congruence.
Qed.

Lemma find_stable (s s' : state) i p p' v :
  wf s -> wf s' -> _linkg_transport_node_id_valid v = true -> peers s !! i = Some p -> peers s' !! i = Some p' ->
  (forall j, j <> i -> peers s' !! j = peers s !! j) -> owns p v = false -> owns p' v = false ->
  linkg_transport_find_peer_locked (tr_context s') v = linkg_transport_find_peer_locked (tr_context s) v /\
  linkg_transport_find_peer_locked (tr_context s) v <> Some i.
Proof.
  intros W W' Hv Hp Hp' Hj E E'. split.
  - apply option_eq. intros j. rewrite (find_iff s v j W Hv), (find_iff s' v j W' Hv).
    destruct (decide (j = i)) as [->|Hne]; [|by rewrite Hj].
    split; intros (q&Hq&Ho); congruence.
  - intros (q&Hq&Ho)%(find_iff s v i W Hv). congruence.
Qed.

Section Sequences.
Context (P : linkg_transport_tx_sequence_state -> linkg_transport_tx_sequence_state -> Prop) `{!PreOrder P}.

Definition sequences_related (s s' : state) : Prop :=
  forall v k, _linkg_transport_node_id_valid v = true -> (k < 3)%nat -> P (node_sequences s v k) (node_sequences s' v k).

Lemma sequences_step s s' i p p' :
  wf s -> wf s' -> peers s !! i = Some p -> peers s' !! i = Some p' ->
  (forall j, j <> i -> peers s' !! j = peers s !! j) ->
  (forall v k, _linkg_transport_node_id_valid v = true -> owns p v = false ->
     sequence_state (tr_tx_sequences s') v k = sequence_state (tr_tx_sequences s) v k) ->
  (forall v k, _linkg_transport_node_id_valid v = true -> (k < 3)%nat -> owns p v = true \/ owns p' v = true ->
     P (slot_sequences (tr_tx_sequences s) p v k) (slot_sequences (tr_tx_sequences s') p' v k)) ->
  sequences_related s s'.
Proof.
  intros W W' Hp Hp' Hj Ht Hs v k Hv Hk. destruct (decide (owns p v = true \/ owns p' v = true)) as [Ho|Ho].
  - rewrite (node_sequences_slot s s' i p p' v k), (node_sequences_slot s' s i p' p v k); try done; [by apply Hs| |tauto].
    intros j Hne. by rewrite Hj.
  - apply Decidable.not_or in Ho as [Ho%not_true_iff_false Ho'%not_true_iff_false].
    destruct (find_stable s s' i p p' v W W' Hv Hp Hp' Hj Ho Ho') as [E Hne]. unfold node_sequences. rewrite E.
    destruct (linkg_transport_find_peer_locked (tr_context s) v) as [j|]; [|by rewrite Ht].
    rewrite Hj by congruence. unfold slot_sequences. case_match; [done|by rewrite Ht].
Qed.

Context (Hsent : forall n c, P (sequences_of c) (TxSequence (fst (fst (te_sent env n c))) (snd (fst (te_sent env n c))))).

Lemma sent_related c c' : sent_to c c' -> P (sequences_of c) (sequences_of c').
Proof. intros (_&_&[->|[n ->]]); [done|apply Hsent]. Qed.

Lemma sent_class a b c a' b' c' k :
  sent_to a a' -> sent_to b b' -> sent_to c c' -> (k < 3)%nat ->
  P (sequences_of (class_at_index [a; b; c] k)) (sequences_of (class_at_index [a'; b'; c'] k)).
Proof. intros Sa Sb Sc Hk. destruct k as [|[|[|k]]]; [by apply sent_related..|lia]. Qed.

Lemma put_others i p (s : state) j : j <> i -> peers (put i p s) !! j = peers s !! j.
Proof. intros H. cbn. by rewrite list_lookup_insert_ne. Qed.

Lemma owns_same p p' v : pr_valid p' = pr_valid p -> pr_peer_node_id p' = pr_peer_node_id p -> owns p' v = owns p v.
Proof. unfold owns. by intros -> ->. Qed.

Lemma sequences_sent i p a b c a' b' c' s :
  wf s -> peers s !! i = Some p -> pr_classes p = [a; b; c] ->
  sent_to a a' -> sent_to b b' -> sent_to c c' -> 
  pc_tx_order_lock a' = false -> pc_tx_order_lock b' = false -> pc_tx_order_lock c' = false ->
  sequences_related s (put i (with_classes p a' b' c') s).
Proof.
  intros W Hp Hc Sa Sb Sc Fa Fb Fc. pose proof (lookup_lt_Some _ _ _ Hp) as Hi.
  apply (sequences_step s _ i p (with_classes p a' b' c')); [done|by apply wf_sent|done|by apply put_lookup|by apply put_others|done|].
  intros v k Hv Hk _. unfold slot_sequences. rewrite (owns_same p (with_classes _ _ _ _) v) by done. cbn [pr_lifecycle_epoch with_classes set_classes pr_classes].
  case_match; [|reflexivity]. rewrite Hc. by apply sent_class.
Qed.

Lemma node_valid_range v : _linkg_transport_node_id_valid v = true <-> 1 <= v <= 254.
Proof. unfold _linkg_transport_node_id_valid. rewrite andb_true_iff, !Z.leb_le. done. Qed.

Lemma save_lookup p (table : list (list linkg_transport_tx_sequence_state)) v k :
  _linkg_transport_node_id_valid (pr_peer_node_id p) = true -> _linkg_transport_node_id_valid v = true ->
  length table = 255%nat ->
  sequence_state (_linkg_transport_save_peer_tx_sequences p table) v k =
  if pr_peer_node_id p =? v then default (TxSequence 0 0) ((sequences_of <$> pr_classes p) !! k) else sequence_state table v k.
Proof.
  intros Hn Hv Hl. unfold _linkg_transport_save_peer_tx_sequences, sequence_state. rewrite Hn. cbn [negb].
  apply node_valid_range in Hn, Hv. destruct (Z.eqb_spec (pr_peer_node_id p) v) as [->|Hne].
  - rewrite list_lookup_insert_eq by lia. done.
  - rewrite list_lookup_insert_ne by lia. done.
Qed.

Lemma sequences_quiesced i p a b c a' b' c' clear s :
  wf s -> peers s !! i = Some p -> pr_valid p = true -> active_epoch (pr_lifecycle_epoch p) = true ->
  pr_classes p = [a; b; c] -> sent_to a a' -> sent_to b b' -> sent_to c c' ->
  sequences_related s (quiesced i p a' b' c' clear s).
Proof.
  intros W Hp Hval Ha Hc Sa Sb Sc. pose proof (lookup_lt_Some _ _ _ Hp) as Hi.
  destruct (w_owner _ W i p Hp Hval) as [Hn _].
  eapply (sequences_step s _ i p); [done|by apply wf_quiesced|done|by apply (put_lookup i _ s)|by apply put_others| |].
  - intros v k Hv Ho. cbn [quiesced put_table tset_tables tr_tx_sequences]. rewrite save_lookup; [|done|done|apply W].
    case_match; [|done]. zb. unfold owns in Ho. cbn in *. rewrite Hval in Ho. cbn in Ho. by zb.
  - intros v k Hv Hk Ho. assert (owns p v = true) as Ho' by (unfold owns in *; cbn in Ho; tauto).
    unfold slot_sequences. rewrite (owns_same p (set_epoch _ _) v) by done. rewrite Ho', Ha. apply owns_true in Ho' as [_ <-].
    cbn [andb pr_lifecycle_epoch set_epoch with_classes set_classes]. rewrite (quiescing_odd _ Ha).
    cbn [quiesced put_table tset_tables tr_tx_sequences]. rewrite save_lookup; [|done|done|apply W].
    cbn [pr_peer_node_id with_classes set_classes pr_classes]. rewrite Z.eqb_refl, Hc.
    destruct k as [|[|[|k]]]; [by apply sent_related..|lia].
Qed.

Lemma restored_class table v p k :
  peer_ok p -> _linkg_transport_node_id_valid v = true -> (k < 3)%nat ->
  sequences_of (class_at_index (pr_classes (_linkg_transport_restore_peer_tx_sequences table v p)) k) = sequence_state table v k.
Proof.
  intros [L _ _] Hv Hk. unfold _linkg_transport_restore_peer_tx_sequences. rewrite Hv. cbn [negb set_classes pr_classes].
  destruct (lookup_lt_is_Some_2 (pr_classes p) k ltac:(lia)) as [c Hc]. unfold class_at_index.
  rewrite list_lookup_imap, Hc. cbn. by destruct (sequence_state table v k).
Qed.

Lemma sequences_reactivated i p s :
  wf s -> peers s !! i = Some p -> pr_valid p = true -> active_epoch (pr_lifecycle_epoch p) = false ->
  sequences_related s (reactivated i p s).
Proof.
  intros W Hp Hval Ha. pose proof (lookup_lt_Some _ _ _ Hp) as Hi.
  destruct (w_owner _ W i p Hp Hval) as [Hn _].
  destruct (restore_fields (tr_tx_sequences s) (pr_peer_node_id p) p) as (Ev&En&_).
  eapply (sequences_step s _ i p); [done|by apply wf_reactivated|done|by apply put_lookup|by apply put_others|done|].
  intros v k Hv Hk Ho. unfold slot_sequences. rewrite (owns_same p (set_epoch _ _) v) in * by done.
  assert (owns p v = true) as [_ <-]%owns_true by tauto. rewrite Ha, andb_false_r.
  cbn [reactivated put tset_context tr_tx_sequences set_epoch pr_classes].
  case_match; [|reflexivity]. rewrite restored_class; [reflexivity|by apply (w_peer _ W i)|done|done].
Qed.

Lemma sequences_released i p s :
  wf s -> peers s !! i = Some p -> pr_valid p = true -> active_epoch (pr_lifecycle_epoch p) = false ->
  sequences_related s (released i p s).
Proof.
  intros W Hp Hval Ha. pose proof (lookup_lt_Some _ _ _ Hp) as Hi.
  eapply (sequences_step s _ i p); [done|by apply wf_released|done|by apply (put_lookup i _ s)|by apply (put_others i _ s)|done|].
  intros v k Hv Hk Ho. unfold slot_sequences. rewrite Ha, andb_false_r. reflexivity.
Qed.

Lemma sequences_occupied i p v s :
  wf s -> peers s !! i = Some p -> pr_valid p = false -> wf (occupied i p v s) ->
  sequences_related s (occupied i p v s).
Proof.
  intros W Hp Hval W'. pose proof (lookup_lt_Some _ _ _ Hp) as Hi.
  eapply (sequences_step s _ i p); [done|done|done|by apply (put_lookup i _ s)|by apply (put_others i _ s)|done|].
  intros u k Hu Hk Ho. unfold slot_sequences, owns at 1. rewrite Hval. cbn [andb].
  match goal with |- context [owns ?q u] => destruct (owns q u) eqn:Eo end; cbn [andb]; [|reflexivity].
  apply owns_true in Eo as [_ Eo]. cbn in Eo. subst u. case_match; [|reflexivity].
  cbn [occupied tset_context tr_tx_sequences set_epoch set_owner pr_classes].
  rewrite restored_class; [reflexivity|apply reset_classes_ok; by apply (w_peer _ W i)|done|done].
Qed.

Lemma sequences_effect budget :
  (forall n s, wf s -> held false s -> sequences_related s (te_others env n s)) ->
  effect budget (fun _ => sequences_related).
Proof.
  intros Ho. split.
  - intros s v k _ _. reflexivity.
  - intros m n s1 s2 s3 R1 R2 v k Hv Hk. etransitivity; [by apply R1|by apply R2].
  - done.
  - intros s s' [t ->] v k _ _. reflexivity.
  - intros b s v k _ _. reflexivity.
  - intros c s v k _ _. reflexivity.
  - intros l f s v k _ _. reflexivity.
  - intros. by eapply sequences_sent.
  - intros. by eapply sequences_quiesced.
  - intros. by apply sequences_reactivated.
  - intros. by apply sequences_released.
  - intros. by apply sequences_occupied.
  - done.
Qed.

End Sequences.

(** ** Life-cycle epochs *)

(** Every slot's epoch advanced by at most [n]; where an active one did not, the
    slot has the same owner. *)
Definition epochs_advance (n : nat) (s s' : state) : Prop :=
  forall i p, peers s !! i = Some p -> exists p' d, peers s' !! i = Some p' /\ 0 <= d <= Z.of_nat n /\
    u32 (pr_lifecycle_epoch p') = u32 (pr_lifecycle_epoch p + d) /\
    (d = 0 -> active_epoch (pr_lifecycle_epoch p) = true ->
       pr_valid p' = pr_valid p /\ pr_peer_node_id p' = pr_peer_node_id p).

Lemma epochs_same (n : nat) (s s' : state) : peers s' = peers s -> epochs_advance n s s'.
Proof.
  intros E i p Hp. exists p, 0. rewrite E, Z.add_0_r. split; [done|]. split; [lia|]. done.
Qed.

Lemma epochs_slot (n : nat) (s s' : state) i p p' d :
  peers s !! i = Some p -> peers s' = <[i := p']> (peers s) -> 0 <= d <= Z.of_nat n ->
  u32 (pr_lifecycle_epoch p') = u32 (pr_lifecycle_epoch p + d) ->
  (d = 0 -> active_epoch (pr_lifecycle_epoch p) = true ->
     pr_valid p' = pr_valid p /\ pr_peer_node_id p' = pr_peer_node_id p) ->
  epochs_advance n s s'.
Proof.
  intros Hp E Hd He Ho j q Hq. rewrite E. destruct (decide (i = j)) as [<-|Hne].
  - exists p', d. rewrite list_lookup_insert_eq by (by eapply lookup_lt_Some).
    assert (q = p) as -> by congruence. done.
  - rewrite list_lookup_insert_ne by done. exists q, 0. rewrite Z.add_0_r. split; [done|]. split; [lia|]. done.
Qed.

Lemma epochs_trans (m n : nat) s1 s2 s3 :
  epochs_advance m s1 s2 -> epochs_advance n s2 s3 -> epochs_advance (m + n) s1 s3.
Proof.
  intros R1 R2 i p1 H1. destruct (R1 i p1 H1) as (p2&d1&H2&D1&E1&O1). destruct (R2 i p2 H2) as (p3&d2&H3&D2&E2&O2).
  exists p3, (d1 + d2). split; [done|]. split; [lia|]. split.
  - rewrite E2. clear -E1. mlia.
  - intros Hd Ha. assert (d1 = 0) as -> by lia. assert (d2 = 0) as -> by lia.
    destruct (O1 eq_refl Ha) as [<- <-]. apply O2; [done|]. rewrite active_epoch_mod in *. zb. apply Z.eqb_eq.
    clear -E1 Ha. mlia.
Qed.

Lemma next_active_advance e : exists d, 1 <= d <= 2 /\ _linkg_transport_peer_next_active_epoch e = u32 (e + d).
Proof.
  unfold _linkg_transport_peer_next_active_epoch. case_match; [exists 2|exists 1]; (split; [lia|]); [|done].
  mlia.
Qed.

Lemma epochs_effect budget :
  (forall n s, wf s -> held false s -> epochs_advance budget s (te_others env n s)) ->
  effect budget epochs_advance.
Proof.
  intros Ho. split.
  - intros s. by apply epochs_same.
  - apply epochs_trans.
  - intros m n s1 s2 Hmn R i p Hp. destruct (R i p Hp) as (p'&d&H1&H2&H3). exists p', d. split; [done|]. split; [lia|done].
  - intros s s' [t ->]. by apply epochs_same.
  - intros b s. by apply epochs_same.
  - intros c s. by apply epochs_same.
  - intros l f s. by apply epochs_same.
  - intros. apply (epochs_slot 0 _ _ i p (with_classes p a' b' c') 0); try done. cbn. by rewrite Z.add_0_r.
  - intros. eapply (epochs_slot 1 _ _ i p _ 1); try done. cbn. clear. mlia.
  - intros. destruct (restore_fields (tr_tx_sequences s) (pr_peer_node_id p) p) as (_&_&E).
    eapply (epochs_slot 1 _ _ i p _ 1); try done. cbn. clear. mlia.
  - intros i p s W Hp Hv Ha. eapply (epochs_slot 1 _ _ i p _ 0); try done; [cbn; by rewrite Z.add_0_r|].
    intros _ Ha'. congruence.
  - intros i p v s W Hp Hv _ _. destruct (next_active_advance (pr_lifecycle_epoch p)) as (d&Hd&E).
    eapply (epochs_slot 2 _ _ i p _ d); [done|done|lia| |lia]. cbn. rewrite E. clear. mlia.
  - done.
Qed.

Lemma owner_effect budget : effect budget (fun _ _ _ => True).
Proof. by split. Qed.

End Peers.
