(* ===== verification/TransportPeerLife.v ===== *)
(** * Creation and teardown of the transport, and the properties of its peers

    The balance of [linkg_transport_init] and [linkg_transport_deinit] over every
    failing step, and what sequences of calls on peers guarantee: the invariant of
    the peer table, the continuity of a node's transmit sequence numbers, and that
    a captured life-cycle epoch identifies the peer it was read from. *)

From S2P Require Import Prelude.
From S2P Require Import TransportTypes.
From S2P Require Import TransportWindow.
From S2P Require Import TransportPeer.
From S2P Require Import TransportPeerSafety.

(** ** The life of the parts

    What [linkg_transport_init] sets up of the other parts: the two caches and the
    in-order delivery with their locks and thread, and the receive handler. *)

Inductive transport_part := PartReassembly | PartForwardPair | PartReorder | PartHandler.

#[export] Instance transport_part_eq_dec : EqDecision transport_part.
Proof. solve_decision. Defined.

Definition tp_set_up {C} `{TransportParts C} (x : transport_part) : M C Z :=
  match x with
  | PartReassembly => tp_reassembly_init
  | PartForwardPair => tp_forward_pair_init
  | PartReorder => tp_reorder_init
  | PartHandler => tp_register_receive_handler
  end.

Definition tp_tear_down {C} `{TransportParts C} (x : transport_part) : M C Z :=
  match x with
  | PartReassembly => tp_reassembly_deinit
  | PartForwardPair => tp_forward_pair_deinit
  | PartReorder => tp_reorder_deinit
  | PartHandler => tp_unregister_receive_handler
  end.

(** [tp_ready x]: part [x] is set up, so that it has its locks; the parts keep this in
    flags of their own ([rr_initialized], [fr_initialized] and [rt_initialized] of their
    runtimes). Setting a part up or
    tearing it down does so exactly when it returns 0, and touches no other part.
    [tp_fresh]: nothing was handed to the parts yet; tearing down succeeds then. *)
Class TransportPartsLife (C : Type) `{TransportParts C} := {
  tp_ready : transport_part -> C -> bool;
  tp_fresh : C -> Prop;
  tpl_set_up x c : tp_inv c -> wp (tp_set_up x) (fun r c' => tp_inv c' /\ (tp_fresh c -> tp_fresh c') /\
    forall y, tp_ready y c' = if decide (y = x /\ r = 0) then true else tp_ready y c) c;
  tpl_tear_down x c : tp_inv c -> wp (tp_tear_down x) (fun r c' => tp_inv c' /\ (tp_fresh c -> r = 0 /\ tp_fresh c') /\
    forall y, tp_ready y c' = if decide (y = x /\ r = 0) then false else tp_ready y c) c;
  tpl_worker c : tp_inv c -> wp tp_is_worker_thread (fun _ c' => tp_inv c' /\ forall y, tp_ready y c' = tp_ready y c) c }.

Section Life.
Context {C : Type} `{TP : TransportParts C} {TPL : TransportPartsLaws C} {TPF : TransportPartsLife C} (env : transport_env C).
Context (Hdestroy : forall n, te_mutex_destroy env n = 0).

Abbreviation state := (transport_state C).

(** ** Mutexes *)

(** [k] more initialised mutexes, and nothing else but observations. *)
Definition mutexes_changed (k : Z) (s s' : state) : Prop := exists t, s' = tset_ghost (tr_mutexes s + k) t s.

Lemma mutexes_trans j k l s1 s2 s3 :
  mutexes_changed j s1 s2 -> mutexes_changed k s2 s3 -> l = j + k -> mutexes_changed l s1 s3.
Proof. intros [t ->] [t' ->] ->. exists t'. unfold tset_ghost. cbn. f_equal. lia. Qed.

Lemma mutexes_refl s : mutexes_changed 0 s s.
Proof. exists (tr_tick s). rewrite Z.add_0_r. by destruct s. Qed.

Lemma wp_mutex_init (Q : Z -> state -> Prop) s :
  (forall s', mutexes_changed 1 s s' -> Q 0 s') -> (forall r s', r <> 0 -> mutexes_changed 0 s s' -> Q r s') ->
  wp (mutex_init env) Q s.
Proof.
  intros Hok Hfail. unfold mutex_init. apply wp_bind, wp_observation. intros n s1 [t ->].
  apply wp_bind, wp_when; intros E.
  - apply wp_modify, wp_ret. apply Z.eqb_eq in E. rewrite E. apply Hok. by exists t.
  - apply wp_ret. apply Hfail; [by apply Z.eqb_neq|]. exists t. by rewrite Z.add_0_r.
Qed.

Lemma wp_mutex_destroy (Q : Z -> state -> Prop) s :
  (forall s', mutexes_changed (-1) s s' -> Q 0 s') -> wp (mutex_destroy env) Q s.
Proof.
  intros H. unfold mutex_destroy. apply wp_bind, wp_observation. intros n s1 [t ->]. rewrite Hdestroy.
  cbn [Z.eqb when]. apply wp_bind, wp_modify, wp_ret. apply H. by exists t.
Qed.

Lemma destroy_many l (Q : unit -> state -> Prop) s :
  (forall s', mutexes_changed (- Z.of_nat (length l)) s s' -> Q tt s') ->
  wp (mfor l (fun _ : nat => _ ← mutex_destroy env; mret tt)) Q s.
Proof.
  revert s. induction l as [|x l IH]; intros s H; cbn [mfor].
  - apply wp_ret, H. apply mutexes_refl.
  - apply wp_bind, wp_bind, wp_mutex_destroy. intros s1 R1. apply wp_ret, IH. intros s2 R2.
    apply H. eapply mutexes_trans; [exact R1|exact R2|]. cbn [length]. lia.
Qed.

Lemma init_loop_spec n k (Q : Z -> state -> Prop) s :
  (forall s', mutexes_changed (Z.of_nat n) s s' -> Q 0 s') ->
  (forall r s', r <> 0 -> mutexes_changed (- Z.of_nat k) s s' -> Q r s') ->
  wp (locks_init_loop env n k) Q s.
Proof.
  revert k s. induction n as [|n IH]; intros k s Hok Hfail; cbn [locks_init_loop].
  - apply wp_ret, Hok. apply mutexes_refl.
  - apply wp_bind, wp_mutex_init.
    + intros s1 R1. cbn [negb Z.eqb]. apply IH.
      * intros s2 R2. apply Hok. eapply mutexes_trans; [exact R1|exact R2|lia].
      * intros r s2 Hr R2. apply Hfail; [done|]. eapply mutexes_trans; [exact R1|exact R2|lia].
    + intros r s1 Hr R1. rewrite (proj2 (Z.eqb_neq r 0) Hr). cbn [negb]. apply wp_bind, destroy_many.
      intros s2 R2. rewrite length_seq in R2. apply wp_ret, Hfail; [lia|]. eapply mutexes_trans; [exact R1|exact R2|lia].
Qed.

(** ** Creation *)

(** [k] more mutexes than in [s0], context [x], the parts [f] are set up (and were not
    used yet), and the same saved sequence numbers. *)
Record stage (k : Z) (x : linkg_transport_context) (fresh : bool) (f : transport_part -> bool) (s0 s : state) : Prop := {
  sg_mutexes : tr_mutexes s = tr_mutexes s0 + k;
  sg_context : tr_context s = x;
  sg_table : tr_tx_sequences s = tr_tx_sequences s0;
  sg_parts : tp_inv (tr_parts s);
  sg_fresh : fresh = true -> tp_fresh (tr_parts s);
  sg_ready y : tp_ready y (tr_parts s) = f y }.

Definition none_ready : transport_part -> bool := fun _ => false.
Definition with_part (x : transport_part) (b : bool) (f : transport_part -> bool) : transport_part -> bool :=
  fun y => if decide (y = x) then b else f y.

Lemma stage_mutexes j k l x b f s0 s s' : stage k x b f s0 s -> mutexes_changed j s s' -> l = k + j -> stage l x b f s0 s'.
Proof. intros [H1 H2 H3 H4 H5 H6] [t ->] ->. split; cbn; [lia|done..]. Qed.

Lemma stage_context g k x b f s0 s : stage k x b f s0 s -> stage k (g x) b f s0 (tset_context (g (tr_context s)) s).
Proof. intros [H1 <- H3 H4 H5 H6]. by split. Qed.

Lemma stage_ready k x b f g s0 s : stage k x b f s0 s -> (forall y, f y = g y) -> stage k x b g s0 s.
Proof. intros [H1 H2 H3 H4 H5 H6] E. split; try done. intros y. by rewrite H6. Qed.

Lemma wp_set_up y (Q : Z -> state -> Prop) k x b f s0 s : stage k x b f s0 s ->
  (forall s', stage k x b (with_part y true f) s0 s' -> Q 0 s') ->
  (forall r s', r <> 0 -> stage k x b f s0 s' -> Q r s') -> wp (part (tp_set_up y)) Q s.
Proof.
  intros [H1 H2 H3 H4 H5 H6] Hok Hfail. destruct (wp_elim _ _ _ (tpl_set_up y (tr_parts s) H4)) as (r&c'&E&Hi&Hf&Hr).
  eapply wp_run; [unfold part, zoom; by rewrite E|]. destruct (decide (r = 0)) as [->|Hne].
  - apply Hok. split; cbn; auto. intros z. rewrite Hr, H6. unfold with_part. destruct (decide (z = y)), (decide (z = y /\ 0 = 0)); tauto.
  - apply Hfail; [done|]. split; cbn; auto. intros z. rewrite Hr, H6. by destruct (decide (z = y /\ r = 0)) as [[]|].
Qed.

Lemma wp_tear_down y (Q : Z -> state -> Prop) k x b f s0 s : stage k x b f s0 s ->
  (forall s', stage k x b (with_part y false f) s0 s' -> Q 0 s') ->
  (forall r s', r <> 0 -> b = false -> stage k x b f s0 s' -> Q r s') -> wp (part (tp_tear_down y)) Q s.
Proof.
  intros [H1 H2 H3 H4 H5 H6] Hok Hfail. destruct (wp_elim _ _ _ (tpl_tear_down y (tr_parts s) H4)) as (r&c'&E&Hi&Hf&Hr).
  eapply wp_run; [unfold part, zoom; by rewrite E|]. destruct (decide (r = 0)) as [->|Hne].
  - apply Hok. split; cbn; auto; [intros Hb; by apply Hf, H5|].
    intros z. rewrite Hr, H6. unfold with_part. destruct (decide (z = y)), (decide (z = y /\ 0 = 0)); tauto.
  - apply Hfail; [done|destruct b; [by destruct (Hf (H5 eq_refl))|done]|]. split; cbn; auto; [intros Hb; by apply Hf, H5|].
    intros z. rewrite Hr, H6. by destruct (decide (z = y /\ r = 0)) as [[]|].
Qed.

(** The error exits give back every mutex, tear down every part that was set up and
    clear the context. *)
Definition undone (s0 : state) (ret r : Z) (s : state) : Prop := r = ret /\ stage 0 context_zero true none_ready s0 s.

Lemma fail_lock_undone x ret s0 s : stage 1 x true none_ready s0 s -> wp (fail_lock env ret) (undone s0 ret) s.
Proof.
  intros G. unfold fail_lock, zero_context, update. apply wp_bind, wp_mutex_destroy. intros s1 R1.
  apply wp_bind, wp_modify, wp_ret. split; [done|].
  apply (stage_context (fun _ => context_zero) 0 x). by eapply stage_mutexes; [exact G|exact R1|].
Qed.

Lemma locks_deinit_stage (Q : unit -> state -> Prop) k l x b f s0 s :
  stage k x b f s0 s -> k = 48 + l -> (forall s', stage l x b f s0 s' -> Q tt s') ->
  wp (_linkg_transport_peer_tx_locks_deinit env) Q s.
Proof.
  intros G -> HQ. unfold _linkg_transport_peer_tx_locks_deinit. apply destroy_many. intros s1 R1. apply HQ.
  eapply stage_mutexes; [exact G|exact R1|]. rewrite length_seq. change (Z.of_nat lock_total) with 48. lia.
Qed.

Lemma fail_peer_locks_undone x f ret s0 s : stage 49 x true f s0 s -> (forall y, f y = false) ->
  wp (fail_peer_locks env ret) (undone s0 ret) s.
Proof.
  intros G Hf. apply (stage_ready _ _ _ _ none_ready) in G; [|done]. unfold fail_peer_locks, update. apply wp_bind, wp_modify, wp_bind.
  eapply (locks_deinit_stage _ 49 1); [by apply (stage_context (fun x => ctx_set_local _ _ _ _ x)) with (s := s)|done|].
  intros s1 G1. by eapply fail_lock_undone.
Qed.

Lemma fail_reassembly_undone x f ret s0 s : stage 49 x true f s0 s -> (forall y, y <> PartReassembly -> f y = false) ->
  wp (fail_reassembly env ret) (undone s0 ret) s.
Proof.
  intros G Hf. unfold fail_reassembly. apply wp_bind. eapply (wp_tear_down PartReassembly); [exact G| |done].
  intros s1 G1. eapply fail_peer_locks_undone; [exact G1|]. intros y. unfold with_part. destruct (decide _); [done|by apply Hf].
Qed.

Lemma fail_forward_pair_undone x f ret s0 s : stage 49 x true f s0 s ->
  (forall y, y <> PartReassembly -> y <> PartForwardPair -> f y = false) ->
  (cx_local_role x <> LINKG_DEVICE_ROLE_AP -> f PartForwardPair = false) ->
  wp (fail_forward_pair env ret) (undone s0 ret) s.
Proof.
  intros G Hf Hap. unfold fail_forward_pair, context. apply wp_bind, wp_gets, wp_bind, wp_when; intros Hb.
  - apply wp_bind. eapply (wp_tear_down PartForwardPair); [exact G| |done]. intros s1 G1. apply wp_ret.
    eapply fail_reassembly_undone; [exact G1|]. intros y Hy. unfold with_part. destruct (decide _); [done|by apply Hf].
  - eapply fail_reassembly_undone; [exact G|]. intros y Hy. rewrite (sg_context _ _ _ _ _ _ G) in Hb. apply Z.eqb_neq in Hb.
    destruct (decide (y = PartForwardPair)) as [->|]; [by apply Hap|by apply Hf].
Qed.

Lemma fail_reorder_undone x f ret s0 s : stage 49 x true f s0 s -> f PartHandler = false ->
  (cx_local_role x <> LINKG_DEVICE_ROLE_AP -> f PartForwardPair = false) ->
  wp (fail_reorder env ret) (undone s0 ret) s.
Proof.
  intros G Hh Hap. unfold fail_reorder. apply wp_bind. eapply (wp_tear_down PartReorder); [exact G| |done].
  intros s1 G1. eapply fail_forward_pair_undone; [exact G1|intros [| | |] H1 H2|intros H]; unfold with_part; cbn; auto; done.
Qed.

(** The context of a transport that has just been created. *)
Definition context_created (node role : Z) : linkg_transport_context := ctx_set_local node role 1 true context_zero.

Lemma epochs_init_zero : _linkg_transport_peer_epochs_init context_zero = context_zero.
Proof. reflexivity. Qed.

(** What a created transport has set up: the pairing cache on an access point only. *)
Definition created_parts (role : Z) (y : transport_part) : bool :=
  match y with PartForwardPair => role =? LINKG_DEVICE_ROLE_AP | _ => true end.

(** The outcomes of creation: done, refused at once, or undone. *)
Inductive init_outcome (local : option (Z * Z)) (s : state) : Z -> state -> Prop :=
  | init_done node role s' : local = Some (node, role) -> cx_initialized (tr_context s) = false ->
      _linkg_transport_node_id_valid node = true -> role = LINKG_DEVICE_ROLE_AP \/ role = LINKG_DEVICE_ROLE_STA ->
      stage 49 (context_created node role) true (created_parts role) s s' -> init_outcome local s 0 s'
  | init_refused r : r <> 0 -> init_outcome local s r s
  | init_undone r s' : r <> 0 -> cx_initialized (tr_context s) = false -> stage 0 context_zero true none_ready s s' ->
      init_outcome local s r s'.

Lemma undone_outcome local ret s r s' :
  ret <> 0 -> cx_initialized (tr_context s) = false -> undone s ret r s' -> init_outcome local s r s'.
Proof. intros Hr Hi [-> G]. by apply init_undone. Qed.

(** A step that fails goes to an exit. *)
Lemma wp_step (Q : Z -> state -> Prop) (m : M state Z) (err : Z -> M state Z) (next : M state Z) (T : Z -> state -> Prop) s :
  wp m T s ->
  (forall r s', r <> 0 -> T r s' -> wp (err r) Q s') -> (forall s', T 0 s' -> wp next Q s') ->
  wp (ret ← m; if negb (ret =? 0) then err ret else next) Q s.
Proof.
  intros Hm Herr Hnext. apply wp_bind. eapply wp_mono; [exact Hm|]. intros r s' HT.
  destruct (Z.eqb_spec r 0) as [->|Hr]; cbn [negb]; [by apply Hnext|by apply Herr].
Qed.

Lemma init_parts_outcome node role s0 s :
  cx_initialized (tr_context s0) = false -> _linkg_transport_node_id_valid node = true ->
  role = LINKG_DEVICE_ROLE_AP \/ role = LINKG_DEVICE_ROLE_STA -> stage 49 (context_created node role) true none_ready s0 s ->
  wp (ret ← part tp_reassembly_init;
      if negb (ret =? 0) then fail_peer_locks env ret
      else
        ret ← (if role =? LINKG_DEVICE_ROLE_AP then part tp_forward_pair_init else mret 0);
        if negb (ret =? 0) then fail_reassembly env ret
        else
          ret ← part tp_reorder_init;
          if negb (ret =? 0) then fail_forward_pair env ret
          else
            ret ← part tp_register_receive_handler;
            if negb (ret =? 0) then fail_reorder env ret else mret 0)
     (init_outcome (Some (node, role)) s0) s.
Proof.
  intros Hi Hn Hr G. pose proof (fun ret r s' H => undone_outcome (Some (node, role)) ret s0 r s' H Hi) as Hu.
  set (f1 := with_part PartReassembly true none_ready).
  set (f2 := fun y => match y with PartForwardPair => role =? LINKG_DEVICE_ROLE_AP | _ => f1 y end).
  assert (cx_local_role (context_created node role) <> LINKG_DEVICE_ROLE_AP -> f2 PartForwardPair = false) as Hap
    by (intros H; cbn in *; by apply Z.eqb_neq).
  apply wp_bind. eapply (wp_set_up PartReassembly); [exact G| |].
  2: { intros r s1 Hr1 G1. rewrite (proj2 (Z.eqb_neq r 0) Hr1). cbn [negb].
       eapply wp_mono; [by eapply fail_peer_locks_undone|]. intros; by eapply Hu. }
  intros s1 G1. fold f1 in G1. cbn [negb Z.eqb]. eapply (wp_step _ _ _ _ (fun r s2 => stage 49 (context_created node role) true (if decide (r = 0) then f2 else f1) s0 s2)).
  { destruct (role =? LINKG_DEVICE_ROLE_AP) eqn:Erole.
    - eapply (wp_set_up PartForwardPair); [exact G1| |].
      + intros s2 G2. rewrite decide_True by done. eapply stage_ready; [exact G2|]. intros [| | |]; unfold f2; cbn; rewrite ?Erole; done.
      + intros r s2 Hr2 G2. by rewrite decide_False.
    - apply wp_ret. rewrite decide_True by done. eapply stage_ready; [exact G1|]. intros [| | |]; unfold f2; cbn; rewrite ?Erole; done. }
  { intros r s2 Hr2 G2. rewrite decide_False in G2 by done. eapply wp_mono; [eapply fail_reassembly_undone; [exact G2|]|intros; by eapply Hu].
    intros [| | |] Hy; done. }
  intros s2 G2. rewrite decide_True in G2 by done. apply wp_bind. eapply (wp_set_up PartReorder); [exact G2| |].
  2: { intros r s3 Hr3 G3. rewrite (proj2 (Z.eqb_neq r 0) Hr3). cbn [negb].
       eapply wp_mono; [eapply fail_forward_pair_undone; [exact G3| |exact Hap]|intros; by eapply Hu]. intros [| | |] H1 H2; done. }
  intros s3 G3. cbn [negb Z.eqb]. apply wp_bind. eapply (wp_set_up PartHandler); [exact G3| |].
  2: { intros r s4 Hr4 G4. rewrite (proj2 (Z.eqb_neq r 0) Hr4). cbn [negb].
       eapply wp_mono; [eapply fail_reorder_undone; [exact G4|done|exact Hap]|intros; by eapply Hu]. }
  intros s4 G4. apply wp_ret. eapply init_done; try done. eapply stage_ready; [exact G4|]. intros [| | |]; done.
Qed.

Lemma transport_init_spec local s : tp_inv (tr_parts s) -> tp_fresh (tr_parts s) -> (forall y, tp_ready y (tr_parts s) = false) -> wp (linkg_transport_init env local) (init_outcome local s) s.
Proof.
  intros Hinv Hfresh Hoff. unfold linkg_transport_init, context. apply wp_bind, wp_gets.
  destruct (cx_initialized (tr_context s)) eqn:Hi; [by apply wp_ret, init_refused|].
  destruct local as [[node role]|]; [|by apply wp_ret, init_refused].
  destruct (_linkg_transport_node_id_valid node) eqn:Hn; cbn [negb]; [|by apply wp_ret, init_refused].
  destruct (negb _ && negb _) eqn:Er; [by apply wp_ret, init_refused|].
  assert (role = LINKG_DEVICE_ROLE_AP \/ role = LINKG_DEVICE_ROLE_STA) as Hr
    by (apply andb_false_iff in Er as [Er|Er]; zb; tauto).
  unfold zero_context, update. apply wp_bind, wp_modify, wp_bind, wp_modify.
  assert (stage 0 context_zero true none_ready s (tset_context (_linkg_transport_peer_epochs_init context_zero) (tset_context context_zero s))) as G0.
  { rewrite epochs_init_zero. split; cbn; [lia|done..]. }
  apply wp_bind, wp_mutex_init.
  2:{ intros r s1 Hr1 R1. rewrite (proj2 (Z.eqb_neq r 0) Hr1). apply wp_ret, init_undone; [lia|done|].
      by eapply stage_mutexes; [exact G0|exact R1|]. }
  intros s1 R1. cbn [negb Z.eqb]. assert (stage 1 context_zero true none_ready s s1) as G1 by (by eapply stage_mutexes; [exact G0|exact R1|]).
  unfold _linkg_transport_peer_tx_locks_init. apply wp_bind, init_loop_spec.
  2:{ intros r s2 Hr2 R2. rewrite (proj2 (Z.eqb_neq r 0) Hr2). cbn [negb].
      eapply wp_mono; [eapply fail_lock_undone; by eapply stage_mutexes; [exact G1|exact R2|]|].
      intros; by eapply undone_outcome. }
  intros s2 R2. cbn [negb Z.eqb]. apply wp_bind, wp_modify, init_parts_outcome; try done.
  apply (stage_context (ctx_set_local node role 1 true)). eapply stage_mutexes; [exact G1|exact R2|].
  change (Z.of_nat lock_total) with 48. lia.
Qed.

Lemma wf_created x (s : state) :
  tr_context s = x -> length (tr_tx_sequences s) = 255%nat -> tp_inv (tr_parts s) ->
  (exists node role, x = context_created node role) -> wf s /\ held false s.
Proof.
  intros Hx Ht Hp (node&role&->). split; [|unfold held; by rewrite Hx].
  assert (forall i p, cx_peers (tr_context s) !! i = Some p -> p = peer_zero) as Hz.
  { rewrite Hx. intros i p Hi. by apply lookup_replicate in Hi as [-> _]. }
  split.
  - by rewrite Hx.
  - intros i p ->%Hz. split; [done| |unfold in_range; cbn; lia].
    intros c Hc. cbn in Hc. repeat (apply elem_of_cons in Hc as [->|Hc]; [done|]). by apply elem_of_nil in Hc.
  - by intros i p ->%Hz.
  - by intros i j p q ->%Hz.
  - by rewrite Hx.
  - rewrite Hx. cbn. lia.
  - by rewrite Ht.
  - by rewrite Hx.
  - done.
Qed.

(** ** Teardown *)

Context (Hrely : rely env) (Hunlock : forall n, te_unlock env n = 0).
(** Other threads neither create nor destroy mutexes and parts. *)
Definition same_resources (s s' : state) : Prop :=
  tr_mutexes s' = tr_mutexes s /\ forall y, tp_ready y (tr_parts s') = tp_ready y (tr_parts s).
Context (Hothers : forall n s, same_resources s (te_others env n s)).

Lemma wp_lock_resources (Q : Z -> state -> Prop) s :
  wf s -> held false s ->
  (forall r s', r <> 0 -> same_resources s s' -> Q r s') ->
  (forall s', wf s' -> same_resources s s' -> same_local s s' -> Q 0 s') ->
  wp (transport_lock env) Q s.
Proof.
  intros W H Hfail Hok. unfold transport_lock. apply wp_bind, wp_observation. intros n s1 [t ->].
  apply wp_bind, wp_when; intros E.
  - apply wp_bind, wp_modify, wp_modify, wp_ret. apply Z.eqb_eq in E. rewrite E.
    destruct (Hrely n (tset_ghost (tr_mutexes s) t s)) as (W2&H2&L2); [by eapply wf_tick; [by eexists|]|done|].
    destruct (Hothers n (tset_ghost (tr_mutexes s) t s)) as [M2 P2]. apply Hok; [by apply wf_lock|by split|done].
  - apply wp_ret. apply Hfail; [by apply Z.eqb_neq|done].
Qed.

Lemma wp_unlock_resources (Q : Z -> state -> Prop) s :
  wf s -> (forall s', wf s' -> same_resources s s' -> same_local s s' -> Q 0 s') -> wp (transport_unlock env) Q s.
Proof.
  intros W HQ. unfold transport_unlock. apply wp_bind, wp_observation. intros n s1 [t ->]. rewrite Hunlock.
  cbn [Z.eqb when]. apply wp_bind, wp_modify, wp_ret. apply HQ; [|done|done]. apply wf_lock. eapply wf_tick; [by eexists|done].
Qed.

(** Done, or given up with every mutex still there. *)
Definition deinit_outcome (s : state) (r : Z) (s' : state) : Prop :=
  if decide (r = 0) then
    if cx_initialized (tr_context s) then
      tr_mutexes s' = tr_mutexes s - 49 /\ tr_context s' = context_zero /\ forall y, tp_ready y (tr_parts s') = false
    else s' = s
  else tr_mutexes s' = tr_mutexes s.

Lemma deinit_failed s r s' : r <> 0 -> tr_mutexes s' = tr_mutexes s -> deinit_outcome s r s'.
Proof. intros Hr H. unfold deinit_outcome. by rewrite decide_False. Qed.

Lemma stage_self s f : tp_inv (tr_parts s) -> (forall y, tp_ready y (tr_parts s) = f y) -> stage 0 (tr_context s) false f s s.
Proof. intros H Hf. split; [lia|done..]. Qed.

(** Whatever of the parts is set up when the last steps of the teardown begin, all of
    it is torn down when they succeed; the pairing cache is there on an access point only. *)
Lemma deinit_parts_outcome s0 s f :
  cx_initialized (tr_context s0) = true -> wf s -> tr_mutexes s = tr_mutexes s0 ->
  (forall y, tp_ready y (tr_parts s) = f y) ->
  (cx_local_role (tr_context s) <> LINKG_DEVICE_ROLE_AP -> f PartForwardPair = false) ->
  wp (ret ← part tp_unregister_receive_handler;
      if negb (ret =? 0) then mret ret
      else
        ret ← part tp_reorder_deinit;
        if negb (ret =? 0) then mret ret
        else
          x ← context;
          ret ← (if cx_local_role x =? LINKG_DEVICE_ROLE_AP then part tp_forward_pair_deinit else mret 0);
          if negb (ret =? 0) then mret ret
          else
            ret ← part tp_reassembly_deinit;
            if negb (ret =? 0) then mret ret
            else
              update (fun x => ctx_set_local (cx_local_node_id x) (cx_local_role x) (cx_next_packet_id x) false x) ;;
              _linkg_transport_peer_tx_locks_deinit env ;;
              ret ← mutex_destroy env;
              if negb (ret =? 0) then mret (- ret) else zero_context ;; mret 0)
     (deinit_outcome s0) s.
Proof.
  intros Hi W Hm Hready Hap. pose proof (stage_self s f (w_parts _ W) Hready) as G.
  assert (forall r s' x g, r <> 0 -> stage 0 x false g s s' -> wp (mret r) (deinit_outcome s0) s') as Hf.
  { intros r s' x g Hr [E _ _ _ _ _]. apply wp_ret, deinit_failed; [done|lia]. }
  apply wp_bind. eapply (wp_tear_down PartHandler); [exact G| |].
  2: { intros r s' Hr _ G'. rewrite (proj2 (Z.eqb_neq r 0) Hr). by eapply Hf. }
  intros s1 G1. cbn [negb Z.eqb]. apply wp_bind. eapply (wp_tear_down PartReorder); [exact G1| |].
  2: { intros r s' Hr _ G'. rewrite (proj2 (Z.eqb_neq r 0) Hr). by eapply Hf. }
  intros s2 G2. cbn [negb Z.eqb]. unfold context. apply wp_bind, wp_gets. rewrite (sg_context _ _ _ _ _ _ G2).
  set (f3 := with_part PartForwardPair false (with_part PartReorder false (with_part PartHandler false f))).
  eapply (wp_step _ _ _ _ (fun r s3 => exists g, stage 0 (tr_context s) false g s s3 /\ (r = 0 -> forall y, g y = f3 y))).
  { destruct (cx_local_role (tr_context s) =? LINKG_DEVICE_ROLE_AP) eqn:Erole.
    - eapply (wp_tear_down PartForwardPair); [exact G2| |].
      + intros s3 G3. by eexists.
      + intros r s3 Hr _ G3. by eexists.
    - apply wp_ret. eexists. split; [exact G2|]. intros _ y. unfold f3, with_part. apply Z.eqb_neq, Hap in Erole.
      destruct y; cbn; try done. }
  { intros r s' Hr (g&G'&_). by eapply Hf. }
  intros s3 (g&G3&Hg). apply (stage_ready _ _ _ _ f3) in G3; [|by apply Hg]. clear g Hg.
  apply wp_bind. eapply (wp_tear_down PartReassembly); [exact G3| |].
  2: { intros r s' Hr _ G'. rewrite (proj2 (Z.eqb_neq r 0) Hr). by eapply Hf. }
  intros s4 G4. apply (stage_ready _ _ _ _ none_ready) in G4; [|by intros [| | |]].
  cbn [negb Z.eqb]. unfold update. apply wp_bind, wp_modify, wp_bind.
  eapply (locks_deinit_stage _ 0 (-48)); [by apply (stage_context (fun x => ctx_set_local _ _ _ _ x)) with (s := s4)|done|].
  intros s5 G5. apply wp_bind, wp_mutex_destroy. intros s6 R6. cbn [negb Z.eqb].
  assert (stage (-49) (tr_context s5) false none_ready s s6) as [E _ _ _ _ Hoff]
    by (eapply (stage_mutexes _ (-48)); [|exact R6|done]; by destruct G5).
  unfold zero_context, update. apply wp_bind, wp_modify, wp_ret. unfold deinit_outcome. rewrite decide_True, Hi by done.
  split; [cbn; lia|]. by split.
Qed.

Lemma transport_deinit_spec s : wf s -> held false s ->
  (cx_local_role (tr_context s) <> LINKG_DEVICE_ROLE_AP -> tp_ready PartForwardPair (tr_parts s) = false) ->
  wp (linkg_transport_deinit env) (deinit_outcome s) s.
Proof.
  intros W H Hap. unfold linkg_transport_deinit, context. apply wp_bind, wp_gets.
  destruct (cx_initialized (tr_context s)) eqn:Hi; cbn [negb].
  2:{ apply wp_ret. unfold deinit_outcome. by rewrite decide_True, Hi. }
  apply wp_bind. destruct (wp_elim _ _ _ (tpl_worker (tr_parts s) (w_parts _ W))) as (w&c'&E&Hc&Hready).
  eapply wp_run; [unfold part; by rewrite (zoom_run _ _ _ _ _ _ E)|].
  destruct w; [by apply wp_ret, deinit_failed|].
  apply wp_bind, wp_lock_resources; [by apply wf_parts|done| |].
  { intros r s1 Hr [E1 _]. rewrite (proj2 (Z.eqb_neq r 0) Hr). apply wp_ret, deinit_failed; [lia|done]. }
  intros s1 W1 [E1 P1] L1. cbn [negb Z.eqb]. apply wp_bind, wp_gets.
  destruct (cx_peer_count (tr_context s1) =? 0); cbn [negb]; apply wp_bind, wp_unlock_resources; try done;
    intros s2 W2 [E2 P2] L2; [|apply wp_ret, deinit_failed; [done|by rewrite E2]].
  apply (deinit_parts_outcome _ _ (fun y => tp_ready y (tr_parts s2))); [done|done|by rewrite E2|done|].
  intros Hrole. cbv beta. rewrite P2, P1. cbn. rewrite Hready. apply Hap.
  destruct L1 as (_&L1&_), L2 as (_&L2&_). cbn in L1. congruence.
Qed.

(** C40: creating the transport and tearing it down again is balanced: every failing
    step of creation (a mutex, a part, the receive handler) gives back all the mutexes
    it initialised, tears down every part it had set up (the reassembly cache, the
    pairing cache of an access point, the in-order delivery), whose locks go with it,
    and clears the context, and so does a teardown that succeeds; a teardown that is
    refused or fails leaves every mutex of the transport; and a created transport has
    all its parts and satisfies the invariant of its peer table. *)
Theorem transport_life_cycle_balanced local s :
  tp_inv (tr_parts s) -> tp_fresh (tr_parts s) -> (forall y, tp_ready y (tr_parts s) = false) ->
  length (tr_tx_sequences s) = 255%nat -> cx_initialized (tr_context s) = false ->
  wp (linkg_transport_init env local) (fun r s1 =>
    (r <> 0 -> tr_mutexes s1 = tr_mutexes s /\ (forall y, tp_ready y (tr_parts s1) = false) /\
       (tr_context s1 = tr_context s \/ tr_context s1 = context_zero)) /\
    (r = 0 -> wf s1 /\ cx_initialized (tr_context s1) = true /\ tr_mutexes s1 = tr_mutexes s + 49 /\
      (forall y, tp_ready y (tr_parts s1) = created_parts (cx_local_role (tr_context s1)) y) /\
      wp (linkg_transport_deinit env) (fun d s2 =>
        (d = 0 -> tr_mutexes s2 = tr_mutexes s /\ (forall y, tp_ready y (tr_parts s2) = false) /\ tr_context s2 = context_zero) /\
        (d <> 0 -> tr_mutexes s2 = tr_mutexes s + 49)) s1)) s.
Proof.
  intros Hp Hfresh Hoff Ht Hi. eapply wp_mono; [by apply transport_init_spec|].
  intros r s1 [node role s1' _ _ Hn Hr G|r' Hr|r' s1' Hr _ G]; (split; [intros Hne|intros E0]); try done.
  - destruct G as [Gm Gx Gt Gp _ Gr]. destruct (wf_created _ s1' Gx) as [W H]; [by rewrite Gt|done|by eauto|].
    split; [done|]. split; [by rewrite Gx|]. split; [done|]. split; [by rewrite Gx|].
    eapply wp_mono; [apply transport_deinit_spec; [done|done|]|].
    { rewrite Gx, Gr. cbn. by rewrite Z.eqb_neq. }
    intros d s2 D. unfold deinit_outcome in D. rewrite Gx in D. cbn in D.
    destruct (decide (d = 0)) as [->|Hd]; split; intros; try done; [|lia]. destruct D as (D1&D2&D3). split; [lia|done].
  - split; [done|]. split; [done|by left].
  - destruct G as [Gm Gx _ _ _ Gr]. split; [lia|]. split; [exact Gr|by right].
Qed.

End Life.

(** ** Sequences of calls *)

Section Calls.
Context {C : Type} `{TP : TransportParts C} {TPL : TransportPartsLaws C} (env : transport_env C).
Context (Hrely : rely env) (Hunlock : forall n, te_unlock env n = 0).

(** Any sequence of peer, handler and statistics calls, whatever other
    threads do within the invariant while the transport lock is free and whichever
    lock calls fail, returns, keeps the invariant (one valid slot per node, never
    the local one; an exact peer count, at most one peer on a station; every order
    lock released) and leaves the transport lock free. *)
Theorem peer_calls_keep_invariant cs (s : transport_state C) :
  wf s -> held false s -> wp (run_calls env cs) (fun _ s' => wf s' /\ held false s') s.
Proof.
  intros W H. eapply wp_mono.
  - apply (calls_reached env 0 (fun _ _ _ => True)); try done.
  - intros u s' R1. split; apply R1.
Qed.

(** C30: the transmit sequence numbers of a node are related across any sequence
    of calls by every preorder that senders and other threads respect: they survive
    reset, unregistration and registration in another slot, and change only by
    sending. *)
Theorem tx_sequences_survive_peer_life
    (P : linkg_transport_tx_sequence_state -> linkg_transport_tx_sequence_state -> Prop) `{!PreOrder P}
    cs (s : transport_state C) v k :
  (forall n c, P (sequences_of c) (TxSequence (fst (fst (te_sent env n c))) (snd (fst (te_sent env n c))))) ->
  (forall n s, wf s -> held false s -> sequences_related P s (te_others env n s)) ->
  wf s -> held false s -> _linkg_transport_node_id_valid v = true -> (k < 3)%nat ->
  wp (run_calls env cs) (fun _ s' => P (node_sequences s v k) (node_sequences s' v k)) s.
Proof.
  intros Hs Ho W H Hv Hk. eapply wp_mono.
  - apply (calls_reached env 0 (fun _ => sequences_related P)); try done; by apply sequences_effect.
  - intros u s' R1. by apply (rd_rel _ _ _ _ _ R1).
Qed.

(** C31: an active life-cycle epoch that was read from a slot identifies the peer:
    if it still matches after any sequence of calls that cannot wrap the 32-bit
    counter, the slot has the same owner as when it was read, so a packet or a
    timer that captured it never acts on another peer. *)
Theorem captured_epoch_identifies_peer budget cs (s : transport_state C) i p e :
  (forall n s, wf s -> held false s -> epochs_advance budget s (te_others env n s)) ->
  wf s -> held false s -> cx_peers (tr_context s) !! i = Some p ->
  linkg_transport_peer_epoch_read_active (epochs_of (tr_context s)) (Some i) = (true, Some e) ->
  Z.of_nat (length cs * (2 * budget + 2)) < 2 ^ 32 ->
  wp (run_calls env cs) (fun _ s' =>
    linkg_transport_peer_epoch_matches (epochs_of (tr_context s')) (Some i) e = true ->
    exists p', cx_peers (tr_context s') !! i = Some p' /\
      pr_valid p' = pr_valid p /\ pr_peer_node_id p' = pr_peer_node_id p) s.
Proof.
  intros Ho W H Hp Hr Hn. unfold linkg_transport_peer_epoch_read_active in Hr.
  rewrite (epochs_lookup s i p Hp) in Hr. injection Hr as Ha <-.
  eapply wp_mono; [by apply (calls_reached env budget (epochs_advance)); try done; apply epochs_effect|].
  intros u s' R1 Hm. destruct (rd_rel _ _ _ _ _ R1 i p Hp) as (p'&d&Hp'&Hd&He&Hown).
  unfold linkg_transport_peer_epoch_matches in Hm. rewrite Ha, (epochs_lookup s' i p' Hp') in Hm. cbn [negb] in Hm. zb.
  exists p'. split; [done|]. apply Hown; [|by apply Z.eqb_eq]. rewrite Hm in He.
  assert (0 <= d < 2 ^ 32) as Hd'
    by (split; [tauto|eapply Z.le_lt_trans; [apply Hd|exact Hn]]). clear -He Hd'. mlia.
Qed.

End Calls.

(** ** A concrete transport *)

#[export] Instance demo_parts : TransportParts unit := {|
  tp_inv _ := True;
  tp_reassembly_init := mret 0;
  tp_reassembly_deinit := mret 0;
  tp_forward_pair_init := mret 0;
  tp_forward_pair_deinit := mret 0;
  tp_reorder_init := mret 0;
  tp_reorder_deinit := mret 0;
  tp_register_receive_handler := mret 0;
  tp_unregister_receive_handler := mret 0;
  tp_reorder_reset_peer _ := mret 0;
  tp_reassembly_reset_peer _ := mret 0;
  tp_forward_pair_reset_peer _ := mret 0;
  tp_is_worker_thread := mret false;
  tp_check_lifecycle_context := mret 0 |}.

#[export] Instance demo_parts_laws : TransportPartsLaws unit.
Proof. split; intros; intros c _; (by exists 0, c) || (by exists false, c). Qed.

(** A sender adds one data packet whenever an order lock is about to be taken. *)
Definition demo_transport_env : transport_env unit :=
  TransportEnv unit (fun _ => 0) (fun _ => 0) (fun _ => 0) (fun _ => 0) (fun _ => 0)
    (fun _ c => (u32 (pc_tx_user_sequence c + 1), pc_tx_control_sequence c, pc_stats c)) (fun _ s => s).

Definition demo_transport : transport_state unit :=
  TransportState (context_created 1 LINKG_DEVICE_ROLE_AP) (replicate 255 (replicate 3 (TxSequence 7 9))) tt 49 0.

Definition demo_calls : list peer_call := [RegisterPeer 5; ResetPeer 5 true; UnregisterPeer 5; RegisterPeer 5].

Lemma demo_transport_wf : wf demo_transport /\ held false demo_transport.
Proof. apply (wf_created (context_created 1 LINKG_DEVICE_ROLE_AP)); [done|done|done|by exists 1, LINKG_DEVICE_ROLE_AP]. Qed.

Lemma demo_rely : rely demo_transport_env.
Proof. by intros n s W H. Qed.

(** The data sequence advances by the packets sent around reset and unregistration. *)
Example demo_calls_run :
  match run_calls demo_transport_env demo_calls demo_transport with
  | Some (_, s) => (node_sequences s 5 0, epochs_of (tr_context s) !! 0%nat, cx_peer_count (tr_context s))
  | None => (TxSequence 0 0, None, 0)
  end = (TxSequence 9 9, Some 6, 1).
Proof. vm_compute. reflexivity. Qed.

Definition same_control (a b : linkg_transport_tx_sequence_state) : Prop :=
  tq_tx_control_sequence a = tq_tx_control_sequence b.

#[export] Instance same_control_preorder : PreOrder same_control.
Proof. split; [done|]. unfold same_control. intros a b c -> ->. done. Qed.

(** *** Parts that say which of them are set up; one of them can fail to be *)

Record counted_parts := CountedParts {
  cp_ready : transport_part -> bool;
  cp_failing : option transport_part }.

Definition counted_set_up (x : transport_part) : M counted_parts Z :=
  c ← get;
  if bool_decide (cp_failing c = Some x) then mret (- ENOMEM)
  else modify (fun c => CountedParts (with_part x true (cp_ready c)) (cp_failing c)) ;; mret 0.
Definition counted_tear_down (x : transport_part) : M counted_parts Z :=
  modify (fun c => CountedParts (with_part x false (cp_ready c)) (cp_failing c)) ;; mret 0.

#[export] Instance counted_transport_parts : TransportParts counted_parts := {|
  tp_inv _ := True;
  tp_reassembly_init := counted_set_up PartReassembly;
  tp_reassembly_deinit := counted_tear_down PartReassembly;
  tp_forward_pair_init := counted_set_up PartForwardPair;
  tp_forward_pair_deinit := counted_tear_down PartForwardPair;
  tp_reorder_init := counted_set_up PartReorder;
  tp_reorder_deinit := counted_tear_down PartReorder;
  tp_register_receive_handler := counted_set_up PartHandler;
  tp_unregister_receive_handler := counted_tear_down PartHandler;
  tp_reorder_reset_peer _ := mret 0;
  tp_reassembly_reset_peer _ := mret 0;
  tp_forward_pair_reset_peer _ := mret 0;
  tp_is_worker_thread := mret false;
  tp_check_lifecycle_context := mret 0 |}.

Lemma counted_set_up_run x c : exists r c', counted_set_up x c = Some (r, c') /\
  forall y, cp_ready c' y = if decide (y = x /\ r = 0) then true else cp_ready c y.
Proof.
  unfold counted_set_up, mbind, M_bind. cbn. destruct (bool_decide _).
  - exists (- ENOMEM), c. split; [done|]. intros y. by destruct (decide (y = x /\ - ENOMEM = 0)) as [[]|].
  - eexists 0, _. split; [done|]. intros y. cbn. unfold with_part. destruct (decide (y = x)), (decide (y = x /\ 0 = 0)); tauto.
Qed.

Lemma counted_tear_down_run x c : exists c', counted_tear_down x c = Some (0, c') /\
  forall y, cp_ready c' y = if decide (y = x) then false else cp_ready c y.
Proof. by eexists. Qed.

#[export] Instance counted_parts_laws : TransportPartsLaws counted_parts.
Proof.
  split; intros; intros c _; try (by exists 0, c) || (by exists false, c);
    match goal with
    | |- exists a c', ?m c = _ /\ _ =>
        first [ destruct (counted_set_up_run PartReassembly c) as (r&c'&E&_); exists r, c'; by split; [exact E|]
              | destruct (counted_set_up_run PartForwardPair c) as (r&c'&E&_); exists r, c'; by split; [exact E|]
              | destruct (counted_set_up_run PartReorder c) as (r&c'&E&_); exists r, c'; by split; [exact E|]
              | destruct (counted_set_up_run PartHandler c) as (r&c'&E&_); exists r, c'; by split; [exact E|]
              | eexists 0, _; by split; [reflexivity|] ]
    end.
Qed.

#[export] Instance counted_parts_life : TransportPartsLife counted_parts.
Proof.
  refine {| tp_ready y c := cp_ready c y; tp_fresh _ := True |}.
  - intros x c _. destruct (counted_set_up_run x c) as (r&c'&E&H). apply wp_run with (a := r) (s' := c'); [by destruct x|by split].
  - intros x c _. destruct (counted_tear_down_run x c) as (c'&E&H). apply wp_run with (a := 0) (s' := c'); [by destruct x|].
    split; [done|]. split; [done|]. intros y. rewrite H. destruct (decide (y = x)), (decide (y = x /\ 0 = 0)); tauto.
  - intros c _. by apply wp_ret.
Defined.

Definition counted_env : transport_env counted_parts :=
  TransportEnv counted_parts (fun _ => 0) (fun _ => 0) (fun _ => 0) (fun _ => 0) (fun _ => 0)
    (fun _ c => (pc_tx_user_sequence c, pc_tx_control_sequence c, pc_stats c)) (fun _ s => s).

Definition counted_transport (failing : option transport_part) : transport_state counted_parts :=
  TransportState context_zero (replicate 255 (replicate 3 (TxSequence 7 9))) (CountedParts none_ready failing) 0 0.

(** The receive handler is refused: every part goes again. *)
Example counted_refused :
  match linkg_transport_init counted_env (Some (1, LINKG_DEVICE_ROLE_AP)) (counted_transport (Some PartHandler)) with
  | Some (r, s) => (r, tr_mutexes s, (cp_ready (tr_parts s)) <$> [PartReassembly; PartForwardPair; PartReorder; PartHandler])
  | None => (0, 1, [])
  end = (- ENOMEM, 0, [false; false; false; false]).
Proof. vm_compute. reflexivity. Qed.

Lemma transport_life_cycle_balanced_witness :
  exists r s1, linkg_transport_init counted_env (Some (1, LINKG_DEVICE_ROLE_AP)) (counted_transport None) = Some (r, s1) /\
    (r = 0 -> tr_mutexes s1 = 49).
Proof.
  destruct (wp_elim _ _ _ (transport_life_cycle_balanced (TP := counted_transport_parts) (TPF := counted_parts_life) counted_env (fun _ => eq_refl) (fun n s W H => conj W (conj H (conj eq_refl (conj eq_refl eq_refl))))
    (fun _ => eq_refl) (fun n s => conj eq_refl (fun y => eq_refl)) (Some (1, LINKG_DEVICE_ROLE_AP))
    (counted_transport None) I I (fun y => eq_refl) eq_refl eq_refl)) as (r&s1&E&_&H).
  exists r, s1. split; [exact E|]. intros Hr. exact (proj1 (proj2 (proj2 (H Hr)))).
Defined.

Lemma peer_calls_keep_invariant_witness :
  wp (run_calls demo_transport_env demo_calls) (fun _ s' => wf s' /\ held false s') demo_transport.
Proof.
  exact (peer_calls_keep_invariant demo_transport_env demo_rely (fun _ => eq_refl) demo_calls demo_transport
    (proj1 demo_transport_wf) (proj2 demo_transport_wf)).
Defined.

Lemma tx_sequences_survive_peer_life_witness :
  wp (run_calls demo_transport_env demo_calls)
    (fun _ s' => tq_tx_control_sequence (node_sequences demo_transport 5 0) = tq_tx_control_sequence (node_sequences s' 5 0))
    demo_transport.
Proof.
  refine (tx_sequences_survive_peer_life demo_transport_env demo_rely (fun _ => eq_refl) same_control demo_calls
    demo_transport 5 0 _ _ (proj1 demo_transport_wf) (proj2 demo_transport_wf) eq_refl _).
  - reflexivity.
  - intros n s W H v k _ _. reflexivity.
  - lia.
Defined.

Lemma captured_epoch_identifies_peer_witness :
  wp (run_calls demo_transport_env demo_calls) (fun _ s' =>
    linkg_transport_peer_epoch_matches (epochs_of (tr_context s')) (Some 3%nat) 0 = true ->
    exists p', cx_peers (tr_context s') !! 3%nat = Some p' /\ pr_valid p' = false /\ pr_peer_node_id p' = 0)
    demo_transport.
Proof.
  refine (captured_epoch_identifies_peer demo_transport_env demo_rely (fun _ => eq_refl) 0 demo_calls
    demo_transport 3 peer_zero 0 _ (proj1 demo_transport_wf) (proj2 demo_transport_wf) eq_refl eq_refl eq_refl).
  intros n s W H. by apply epochs_same.
Defined.
