(* ===== verification/LinkPath.v ===== *)
(** * Paths of a peer  (core/link/linkg_path.c, core/statistics/linkg_path_stats.c)

    A path to a peer over one link: its life cycle (empty, active, retired,
    released), the asynchronous references that delay its reuse, and its
    cumulative statistics. A path is the state of the monad; the mutex return
    codes, the effect of the owner's callback and the spurious failures of the
    weak compare-and-swap are arguments. [LinkPathRace] has the same operations
    cut into their atomic accesses. *)

From S2P Require Import Prelude.

(** ** Statistics *)

Definition LINKG_PATH_STATS_CLASS_COUNT := 3.

Record linkg_path_class_tx_stats := PathClassStats {
  cs_tx_packets : Z;
  cs_tx_bytes : Z;
  cs_tx_queue_overflow_packets : Z;
  cs_tx_queue_overflow_bytes : Z }.

Record linkg_path_stats := PathStats {
  pt_tx_bytes : Z;
  pt_tx_packets : Z;
  pt_tx_failed_bytes : Z;
  pt_tx_failed_packets : Z;
  pt_tx_dropped_bytes : Z;
  pt_tx_dropped_packets : Z;
  pt_tx_queue_overflow_bytes : Z;
  pt_tx_queue_overflow_packets : Z;
  pt_tx_expired_bytes : Z;
  pt_tx_expired_packets : Z;
  pt_rx_bytes : Z;
  pt_rx_packets : Z;
  pt_tx_classes : list linkg_path_class_tx_stats }.

(** [memset(stats, 0, sizeof( *stats))]. *)
Definition linkg_path_stats_reset : linkg_path_stats :=
  PathStats 0 0 0 0 0 0 0 0 0 0 0 0
    (replicate (Z.to_nat LINKG_PATH_STATS_CLASS_COUNT) (PathClassStats 0 0 0 0)).

(** ** Counting  (linkg_path_stats.c) *)

Definition linkg_path_stats_record_tx_success (bytes packets : Z) (s : linkg_path_stats) : linkg_path_stats :=
  PathStats (u64 (pt_tx_bytes s + bytes)) (u64 (pt_tx_packets s + packets)) (pt_tx_failed_bytes s) (pt_tx_failed_packets s)
    (pt_tx_dropped_bytes s) (pt_tx_dropped_packets s) (pt_tx_queue_overflow_bytes s) (pt_tx_queue_overflow_packets s)
    (pt_tx_expired_bytes s) (pt_tx_expired_packets s) (pt_rx_bytes s) (pt_rx_packets s) (pt_tx_classes s).

Definition class_stats_update (k : Z) (f : linkg_path_class_tx_stats -> linkg_path_class_tx_stats) (s : linkg_path_stats)
    : linkg_path_stats :=
  PathStats (pt_tx_bytes s) (pt_tx_packets s) (pt_tx_failed_bytes s) (pt_tx_failed_packets s)
    (pt_tx_dropped_bytes s) (pt_tx_dropped_packets s) (pt_tx_queue_overflow_bytes s) (pt_tx_queue_overflow_packets s)
    (pt_tx_expired_bytes s) (pt_tx_expired_packets s) (pt_rx_bytes s) (pt_rx_packets s)
    (alter f (Z.to_nat k) (pt_tx_classes s)).

Definition linkg_path_stats_record_tx_success_class (class_index bytes packets : Z) (s : linkg_path_stats) : linkg_path_stats :=
  if LINKG_PATH_STATS_CLASS_COUNT <=? class_index then s
  else class_stats_update class_index
         (fun c => PathClassStats (u64 (cs_tx_packets c + packets)) (u64 (cs_tx_bytes c + bytes))
                     (cs_tx_queue_overflow_packets c) (cs_tx_queue_overflow_bytes c))
         (linkg_path_stats_record_tx_success bytes packets s).

Definition linkg_path_stats_record_tx_failed (bytes packets : Z) (s : linkg_path_stats) : linkg_path_stats :=
  PathStats (pt_tx_bytes s) (pt_tx_packets s) (u64 (pt_tx_failed_bytes s + bytes)) (u64 (pt_tx_failed_packets s + packets))
    (pt_tx_dropped_bytes s) (pt_tx_dropped_packets s) (pt_tx_queue_overflow_bytes s) (pt_tx_queue_overflow_packets s)
    (pt_tx_expired_bytes s) (pt_tx_expired_packets s) (pt_rx_bytes s) (pt_rx_packets s) (pt_tx_classes s).

Definition linkg_path_stats_record_tx_dropped (bytes packets : Z) (s : linkg_path_stats) : linkg_path_stats :=
  PathStats (pt_tx_bytes s) (pt_tx_packets s) (pt_tx_failed_bytes s) (pt_tx_failed_packets s)
    (u64 (pt_tx_dropped_bytes s + bytes)) (u64 (pt_tx_dropped_packets s + packets))
    (pt_tx_queue_overflow_bytes s) (pt_tx_queue_overflow_packets s)
    (pt_tx_expired_bytes s) (pt_tx_expired_packets s) (pt_rx_bytes s) (pt_rx_packets s) (pt_tx_classes s).

Definition linkg_path_stats_record_tx_expired (bytes packets : Z) (s : linkg_path_stats) : linkg_path_stats :=
  PathStats (pt_tx_bytes s) (pt_tx_packets s) (pt_tx_failed_bytes s) (pt_tx_failed_packets s)
    (pt_tx_dropped_bytes s) (pt_tx_dropped_packets s) (pt_tx_queue_overflow_bytes s) (pt_tx_queue_overflow_packets s)
    (u64 (pt_tx_expired_bytes s + bytes)) (u64 (pt_tx_expired_packets s + packets)) (pt_rx_bytes s) (pt_rx_packets s)
    (pt_tx_classes s).

Definition linkg_path_stats_record_tx_queue_overflow (bytes packets : Z) (s : linkg_path_stats) : linkg_path_stats :=
  PathStats (pt_tx_bytes s) (pt_tx_packets s) (pt_tx_failed_bytes s) (pt_tx_failed_packets s)
    (u64 (pt_tx_dropped_bytes s + bytes)) (u64 (pt_tx_dropped_packets s + packets))
    (u64 (pt_tx_queue_overflow_bytes s + bytes)) (u64 (pt_tx_queue_overflow_packets s + packets))
    (pt_tx_expired_bytes s) (pt_tx_expired_packets s) (pt_rx_bytes s) (pt_rx_packets s) (pt_tx_classes s).

Definition linkg_path_stats_record_tx_queue_overflow_class (class_index bytes packets : Z) (s : linkg_path_stats) : linkg_path_stats :=
  if LINKG_PATH_STATS_CLASS_COUNT <=? class_index then s
  else class_stats_update class_index
         (fun c => PathClassStats (cs_tx_packets c) (cs_tx_bytes c)
                     (u64 (cs_tx_queue_overflow_packets c + packets)) (u64 (cs_tx_queue_overflow_bytes c + bytes)))
         (linkg_path_stats_record_tx_queue_overflow bytes packets s).

Definition linkg_path_stats_record_rx (bytes packets : Z) (s : linkg_path_stats) : linkg_path_stats :=
  PathStats (pt_tx_bytes s) (pt_tx_packets s) (pt_tx_failed_bytes s) (pt_tx_failed_packets s)
    (pt_tx_dropped_bytes s) (pt_tx_dropped_packets s) (pt_tx_queue_overflow_bytes s) (pt_tx_queue_overflow_packets s)
    (pt_tx_expired_bytes s) (pt_tx_expired_packets s) (u64 (pt_rx_bytes s + bytes)) (u64 (pt_rx_packets s + packets))
    (pt_tx_classes s).

(** ** Paths *)

Definition LINKG_PATH_LINK_ID_INVALID := 0.

Definition LINKG_PATH_STATE_EMPTY := 0.
Definition LINKG_PATH_STATE_ACTIVE := 1.
Definition LINKG_PATH_STATE_RETIRED := 2.
Definition LINKG_PATH_STATE_RELEASED := 3.

(** The socket address is opaque bytes. *)
Record linkg_path_endpoint := PathEndpoint {
  en_address : list Z;
  en_length : Z }.

Definition endpoint_zero : linkg_path_endpoint := PathEndpoint [] 0.

Record linkg_path := Path {
  pa_stats : linkg_path_stats;
  pa_link_id : Z;
  pa_next_hop : linkg_path_endpoint;
  pa_reference_count : Z;
  pa_state : Z;
  pa_released : option Z;
  pa_released_user_data : Z;
  pa_initialized : bool }.

Definition path_zero : linkg_path := Path linkg_path_stats_reset 0 endpoint_zero 0 0 None 0 false.

Definition path_set_stats (t : linkg_path_stats) (p : linkg_path) : linkg_path :=
  Path t (pa_link_id p) (pa_next_hop p) (pa_reference_count p) (pa_state p) (pa_released p) (pa_released_user_data p) (pa_initialized p).
Definition path_set_refs (n : Z) (p : linkg_path) : linkg_path :=
  Path (pa_stats p) (pa_link_id p) (pa_next_hop p) n (pa_state p) (pa_released p) (pa_released_user_data p) (pa_initialized p).
Definition path_set_state (x : Z) (p : linkg_path) : linkg_path :=
  Path (pa_stats p) (pa_link_id p) (pa_next_hop p) (pa_reference_count p) x (pa_released p) (pa_released_user_data p) (pa_initialized p).
Definition path_set_route (link_id : Z) (next_hop : linkg_path_endpoint) (released : option Z) (user_data : Z)
    (p : linkg_path) : linkg_path :=
  Path (pa_stats p) link_id next_hop (pa_reference_count p) (pa_state p) released user_data (pa_initialized p).

Section Path.
Context (mx : mutex_api) (call_released : Z -> Z -> M linkg_path unit).

(** ** References *)

(** [atomic_compare_exchange_strong(&path->state, &expected, new)]: the result
    and [expected] afterwards. *)
Definition state_exchange (expected new : Z) : M linkg_path (bool * Z) :=
  p ← get;
  if pa_state p =? expected then modify (path_set_state new) ;; mret (true, expected)
  else mret (false, pa_state p).

Definition _linkg_path_complete_release (notify : bool) : M linkg_path bool :=
  p ← get;
  if negb (pa_initialized p) then mret false
  else
    x ← state_exchange LINKG_PATH_STATE_RETIRED LINKG_PATH_STATE_RELEASED;
    if negb (fst x) then mret false
    else if negb notify then mret true
    else
      p ← get;
      match pa_released p with
      | Some f => call_released f (pa_released_user_data p)
      | None => mret tt
      end ;;
      mret true.

(** The loop, with the spurious failures of the weak exchange that precede its
    success. *)
Fixpoint release_loop (spurious : list unit) (references : Z) : M linkg_path unit :=
  if references <=? 0 then mret tt
  else match spurious with
  | _ :: spurious' => p ← get; release_loop spurious' (pa_reference_count p)
  | [] =>
      modify (path_set_refs (u32 (references - 1))) ;;
      when (references =? 1) (_ ← _linkg_path_complete_release true; mret tt)
  end.

Definition _linkg_path_release_reference (spurious : list unit) : M linkg_path unit :=
  p ← get;
  if negb (pa_initialized p) then mret tt
  else release_loop spurious (pa_reference_count p).

Definition linkg_path_release (spurious : list unit) : M linkg_path unit := _linkg_path_release_reference spurious.

Definition _linkg_path_reset_stats : M linkg_path Z :=
  p ← get;
  if negb (pa_initialized p) then mret (- EINVAL)
  else if negb (mtx_lock mx =? 0) then mret (- mtx_lock mx)
  else
    modify (path_set_stats linkg_path_stats_reset) ;;
    mret (if negb (mtx_unlock mx =? 0) then - mtx_unlock mx else 0).

(** ** Life cycle *)

Definition linkg_path_init : M linkg_path Z :=
  p ← get;
  if pa_initialized p then mret (- EALREADY)
  else
    modify (fun _ => path_zero) ;;
    if negb (mtx_init mx =? 0) then modify (fun _ => path_zero) ;; mret (- mtx_init mx)
    else modify (fun _ => Path linkg_path_stats_reset 0 endpoint_zero 0 LINKG_PATH_STATE_EMPTY None 0 true) ;; mret 0.

Definition linkg_path_deinit : M linkg_path Z :=
  p ← get;
  if negb (pa_initialized p) then mret 0
  else if negb (pa_state p =? LINKG_PATH_STATE_EMPTY) || negb (pa_reference_count p =? 0) then mret (- EBUSY)
  else if negb (mtx_destroy mx =? 0) then mret (- mtx_destroy mx)
  else modify (fun _ => path_zero) ;; mret 0.

Definition linkg_path_activate (link_id : Z) (next_hop : option linkg_path_endpoint) (released : option Z) (user_data : Z)
    : M linkg_path Z :=
  p ← get;
  match next_hop with
  | Some hop =>
      if negb (pa_initialized p) || (link_id =? LINKG_PATH_LINK_ID_INVALID) then mret (- EINVAL)
      else if negb (pa_state p =? LINKG_PATH_STATE_EMPTY) || negb (pa_reference_count p =? 0) then mret (- EBUSY)
      else
        ret ← _linkg_path_reset_stats;
        if negb (ret =? 0) then mret ret
        else
          modify (path_set_route link_id hop released user_data) ;;
          modify (path_set_state LINKG_PATH_STATE_ACTIVE) ;;
          mret 0
  | None => mret (- EINVAL)
  end.

Definition linkg_path_acquire_batch (count : Z) : M linkg_path Z :=
  p ← get;
  if negb (pa_initialized p) || (count =? 0) then mret (- EINVAL)
  else if negb (pa_state p =? LINKG_PATH_STATE_ACTIVE) then mret (- ENODEV)
  else modify (fun p => path_set_refs (u32 (pa_reference_count p + count)) p) ;; mret 0.

Definition linkg_path_acquire : M linkg_path Z := linkg_path_acquire_batch 1.

(** The result and [*released]. *)
Definition linkg_path_retire : M linkg_path (Z * bool) :=
  p ← get;
  if negb (pa_initialized p) then mret (- EINVAL, false)
  else
    x ← state_exchange LINKG_PATH_STATE_ACTIVE LINKG_PATH_STATE_RETIRED;
    if negb (fst x) then
      mret (if (snd x =? LINKG_PATH_STATE_RETIRED) || (snd x =? LINKG_PATH_STATE_RELEASED) then 0 else - ENODEV, false)
    else
      p ← get;
      if pa_reference_count p =? 0 then released ← _linkg_path_complete_release false; mret (0, released)
      else mret (0, false).

Definition linkg_path_reset : M linkg_path Z :=
  p ← get;
  if negb (pa_initialized p) then mret (- EINVAL)
  else if pa_state p =? LINKG_PATH_STATE_EMPTY then mret 0
  else if negb (pa_state p =? LINKG_PATH_STATE_RELEASED) || negb (pa_reference_count p =? 0) then mret (- EBUSY)
  else
    ret ← _linkg_path_reset_stats;
    if negb (ret =? 0) then mret ret
    else
      modify (path_set_route LINKG_PATH_LINK_ID_INVALID endpoint_zero None 0) ;;
      modify (path_set_state LINKG_PATH_STATE_EMPTY) ;;
      mret 0.

Definition linkg_path_update_endpoint (next_hop : option linkg_path_endpoint) : M linkg_path Z :=
  p ← get;
  match next_hop with
  | Some hop =>
      if negb (pa_initialized p) then mret (- EINVAL)
      else if negb (pa_state p =? LINKG_PATH_STATE_ACTIVE) then mret (- ENODEV)
      else modify (path_set_route (pa_link_id p) hop (pa_released p) (pa_released_user_data p)) ;; mret 0
  | None => mret (- EINVAL)
  end.

(** ** Statistics of a path; the lock calls' return codes are ignored by the recorders. *)

Definition record_stats (f : linkg_path_stats -> linkg_path_stats) : M linkg_path unit :=
  p ← get;
  when (pa_initialized p) (modify (fun p => path_set_stats (f (pa_stats p)) p)).

Definition linkg_path_record_tx_success (bytes packets : Z) : M linkg_path unit :=
  record_stats (linkg_path_stats_record_tx_success bytes packets).
Definition linkg_path_record_tx_failed (bytes packets : Z) : M linkg_path unit :=
  record_stats (linkg_path_stats_record_tx_failed bytes packets).
Definition linkg_path_record_tx_dropped (bytes packets : Z) : M linkg_path unit :=
  record_stats (linkg_path_stats_record_tx_dropped bytes packets).
Definition linkg_path_record_tx_expired (bytes packets : Z) : M linkg_path unit :=
  record_stats (linkg_path_stats_record_tx_expired bytes packets).
Definition linkg_path_record_tx_queue_overflow (bytes packets : Z) : M linkg_path unit :=
  record_stats (linkg_path_stats_record_tx_queue_overflow bytes packets).
Definition linkg_path_record_rx (bytes packets : Z) : M linkg_path unit :=
  record_stats (linkg_path_stats_record_rx bytes packets).

Definition linkg_path_record_tx_success_class (class_index bytes packets : Z) : M linkg_path unit :=
  if LINKG_PATH_STATS_CLASS_COUNT <=? class_index then mret tt
  else record_stats (linkg_path_stats_record_tx_success_class class_index bytes packets).
Definition linkg_path_record_tx_queue_overflow_class (class_index bytes packets : Z) : M linkg_path unit :=
  if LINKG_PATH_STATS_CLASS_COUNT <=? class_index then mret tt
  else record_stats (linkg_path_stats_record_tx_queue_overflow_class class_index bytes packets).

(** The result and what is written through [stats]. *)
Definition linkg_path_get_stats (stats : bool) : M linkg_path (Z * option linkg_path_stats) :=
  p ← get;
  if negb stats then mret (- EINVAL, None)
  else if negb (pa_initialized p) then mret (- ENODEV, None)
  else if negb (mtx_lock mx =? 0) then mret (- mtx_lock mx, None)
  else mret (if negb (mtx_unlock mx =? 0) then - mtx_unlock mx else 0, Some (pa_stats p)).

End Path.

(** ** Queries *)

Definition linkg_path_get_state (path : option linkg_path) : Z :=
  match path with
  | Some p => if pa_initialized p then pa_state p else LINKG_PATH_STATE_EMPTY
  | None => LINKG_PATH_STATE_EMPTY
  end.

Definition linkg_path_get_reference_count (path : option linkg_path) : Z :=
  match path with
  | Some p => if pa_initialized p then pa_reference_count p else 0
  | None => 0
  end.

Definition linkg_path_is_active (path : option linkg_path) : bool :=
  linkg_path_get_state path =? LINKG_PATH_STATE_ACTIVE.
