(* ===== verification/LinkPathRace.v ===== *)
(** * Concurrent life of a path  (core/link/linkg_path.c, core/node/linkg_node.c)

    The operations of [LinkPath] cut into their atomic accesses. The operations
    the node serialises under its lock (activation, acquisition, retirement,
    reset, endpoint update, and the reset its release callback makes) run one at
    a time; releases of references run concurrently with them and with each
    other. Executed without interleaving, the accesses are the operations of
    [LinkPath] ([path_accesses_are_operations]). *)

From S2P Require Import Prelude.
From S2P Require Import LinkPath.

(** ** Programs *)

(** A thread in [_linkg_path_release_reference]: before the first load, with
    [references] in hand before the exchange, before the exchange of the state,
    before it reads the owner's callback, and before it calls it. *)
Inductive release_pc :=
  | RelLoad
  | RelTry (references : Z)
  | RelComplete
  | RelReleased
  | RelNotify.

(** The operation that holds the node's lock, at its next access. *)
Inductive node_pc :=
  | NodeIdle
  | ActivateState (link_id : Z) (hop : linkg_path_endpoint) (released : option Z) (user_data : Z)
  | ActivateRefs (link_id : Z) (hop : linkg_path_endpoint) (released : option Z) (user_data : Z)
  | ActivateWrite (link_id : Z) (hop : linkg_path_endpoint) (released : option Z) (user_data : Z)
  | ActivateStore
  | AcquireState (count : Z)
  | AcquireAdd (count : Z)
  | RetireExchange
  | RetireRefs
  | RetireComplete
  | ReleasedState
  | ResetState1
  | ResetState2
  | ResetRefs
  | ResetWrite
  | ResetStore
  | UpdateState (hop : linkg_path_endpoint)
  | UpdateWrite (hop : linkg_path_endpoint).

(** [while (references > 0U)]. *)
Definition release_test (references : Z) : option release_pc :=
  if references <=? 0 then None else Some (RelTry references).

(** One access of a release; [spurious] makes a weak exchange fail. *)
Definition release_step (spurious : bool) (pc : release_pc) (p : linkg_path) : option release_pc * linkg_path :=
  match pc with
  | RelLoad => (release_test (pa_reference_count p), p)
  | RelTry r =>
      if negb spurious && (pa_reference_count p =? r)
      then (if r =? 1 then Some RelComplete else None, path_set_refs (u32 (r - 1)) p)
      else (release_test (pa_reference_count p), p)
  | RelComplete =>
      if pa_state p =? LINKG_PATH_STATE_RETIRED
      then (Some RelReleased, path_set_state LINKG_PATH_STATE_RELEASED p)
      else (None, p)
  | RelReleased => (match pa_released p with Some _ => Some RelNotify | None => None end, p)
  | RelNotify => (None, p)
  end.

(** One access of the operation under the node's lock. *)
Definition node_step (pc : node_pc) (p : linkg_path) : node_pc * linkg_path :=
  match pc with
  | NodeIdle => (NodeIdle, p)
  | ActivateState l h f d => (if pa_state p =? LINKG_PATH_STATE_EMPTY then ActivateRefs l h f d else NodeIdle, p)
  | ActivateRefs l h f d => (if pa_reference_count p =? 0 then ActivateWrite l h f d else NodeIdle, p)
  | ActivateWrite l h f d => (ActivateStore, path_set_route l h f d (path_set_stats linkg_path_stats_reset p))
  | ActivateStore => (NodeIdle, path_set_state LINKG_PATH_STATE_ACTIVE p)
  | AcquireState n => (if pa_state p =? LINKG_PATH_STATE_ACTIVE then AcquireAdd n else NodeIdle, p)
  | AcquireAdd n => (NodeIdle, path_set_refs (u32 (pa_reference_count p + n)) p)
  | RetireExchange =>
      if pa_state p =? LINKG_PATH_STATE_ACTIVE then (RetireRefs, path_set_state LINKG_PATH_STATE_RETIRED p)
      else (NodeIdle, p)
  | RetireRefs => (if pa_reference_count p =? 0 then RetireComplete else NodeIdle, p)
  | RetireComplete =>
      (NodeIdle, if pa_state p =? LINKG_PATH_STATE_RETIRED then path_set_state LINKG_PATH_STATE_RELEASED p else p)
  | ReleasedState => (if pa_state p =? LINKG_PATH_STATE_RELEASED then ResetState1 else NodeIdle, p)
  | ResetState1 => (if pa_state p =? LINKG_PATH_STATE_EMPTY then NodeIdle else ResetState2, p)
  | ResetState2 => (if pa_state p =? LINKG_PATH_STATE_RELEASED then ResetRefs else NodeIdle, p)
  | ResetRefs => (if pa_reference_count p =? 0 then ResetWrite else NodeIdle, p)
  | ResetWrite =>
      (ResetStore, path_set_route LINKG_PATH_LINK_ID_INVALID endpoint_zero None 0 (path_set_stats linkg_path_stats_reset p))
  | ResetStore => (NodeIdle, path_set_state LINKG_PATH_STATE_EMPTY p)
  | UpdateState h => (if pa_state p =? LINKG_PATH_STATE_ACTIVE then UpdateWrite h else NodeIdle, p)
  | UpdateWrite h => (NodeIdle, path_set_route (pa_link_id p) h (pa_released p) (pa_released_user_data p) p)
  end.

(** ** The system

    [sy_held] counts the references their holders have not begun to release;
    [sy_life] the activations and [sy_done] the completed releases of the current one. *)
Record sys := Sys {
  sy_path : linkg_path;
  sy_node : node_pc;
  sy_threads : list release_pc;
  sy_held : Z;
  sy_life : nat;
  sy_done : nat }.

(** Where an operation may start. An acquisition must not wrap the counter. *)
Definition node_entry (pc : node_pc) (p : linkg_path) : Prop :=
  match pc with
  | ActivateState _ _ _ _ | RetireExchange | ResetState1 | UpdateState _ => True
  | AcquireState n => 0 < n /\ pa_reference_count p + n < 2 ^ 32
  | _ => False
  end.

(** Whether an access exchanges the state from retired to released. *)
Definition completes (p p' : linkg_path) : bool :=
  (pa_state p =? LINKG_PATH_STATE_RETIRED) && (pa_state p' =? LINKG_PATH_STATE_RELEASED).

Definition done_after (p p' : linkg_path) (n : nat) : nat := if completes p p' then S n else n.

Inductive sys_step : sys -> sys -> Prop :=
  | step_node_start p pc ts h l d :
      node_entry pc p -> sys_step (Sys p NodeIdle ts h l d) (Sys p pc ts h l d)
  | step_node p pc pc' p' ts h l d :
      pc <> NodeIdle -> node_step pc p = (pc', p') ->
      sys_step (Sys p pc ts h l d)
        (Sys p' pc' ts (match pc with AcquireAdd n => h + n | _ => h end)
           (match pc with ActivateStore => S l | _ => l end)
           (match pc with ActivateStore => 0%nat | _ => done_after p p' d end))
  | step_release_start p pc ts1 ts2 h l d :
      0 < h -> sys_step (Sys p pc (ts1 ++ ts2) h l d) (Sys p pc (ts1 ++ RelLoad :: ts2) (h - 1) l d)
  | step_release p p' pc ts1 ts2 t o b h l d :
      t <> RelNotify -> release_step b t p = (o, p') ->
      sys_step (Sys p pc (ts1 ++ t :: ts2) h l d) (Sys p' pc (ts1 ++ option_list o ++ ts2) h l (done_after p p' d))
  | step_notify p ts1 ts2 h l d :
      sys_step (Sys p NodeIdle (ts1 ++ RelNotify :: ts2) h l d) (Sys p ReleasedState (ts1 ++ ts2) h l d).

Definition path_fresh : linkg_path := Path linkg_path_stats_reset 0 endpoint_zero 0 LINKG_PATH_STATE_EMPTY None 0 true.

Definition sys_init : sys := Sys path_fresh NodeIdle [] 0 0 0.

Definition reachable (s : sys) : Prop := rtc sys_step sys_init s.

(** ** The accesses of an operation, run without interleaving *)

Fixpoint run_node (fuel : nat) (pc : node_pc) (p : linkg_path) : linkg_path :=
  match fuel with
  | O => p
  | S n => let '(pc', p') := node_step pc p in match pc' with NodeIdle => p' | _ => run_node n pc' p' end
  end.

Fixpoint run_release (fuel : nat) (pc : release_pc) (p : linkg_path) : linkg_path :=
  match fuel with
  | O => p
  | S n => match release_step false pc p with
           | (Some pc', p') => run_release n pc' p'
           | (None, p') => p'
           end
  end.

(** ** Invariant *)

(** A release still owns its reference until its exchange succeeds. *)
Definition owns_ref (t : release_pc) : Z := match t with RelLoad | RelTry _ => 1 | _ => 0 end.

Definition owned (s : sys) : Z := sy_held s + sumZ owns_ref (sy_threads s).

Definition node_fact (pc : node_pc) (p : linkg_path) : Prop :=
  match pc with
  | ActivateRefs _ _ _ _ => pa_state p = LINKG_PATH_STATE_EMPTY
  | ActivateWrite _ _ _ _ | ActivateStore => pa_state p = LINKG_PATH_STATE_EMPTY /\ pa_reference_count p = 0
  | AcquireState n => 0 < n /\ pa_reference_count p + n < 2 ^ 32
  | AcquireAdd n => pa_state p = LINKG_PATH_STATE_ACTIVE /\ 0 < n /\ pa_reference_count p + n < 2 ^ 32
  | RetireRefs => pa_state p = LINKG_PATH_STATE_RETIRED \/ pa_state p = LINKG_PATH_STATE_RELEASED
  | RetireComplete =>
      (pa_state p = LINKG_PATH_STATE_RETIRED \/ pa_state p = LINKG_PATH_STATE_RELEASED) /\ pa_reference_count p = 0
  | ResetRefs => pa_state p = LINKG_PATH_STATE_RELEASED
  | ResetWrite | ResetStore => pa_state p = LINKG_PATH_STATE_RELEASED /\ pa_reference_count p = 0
  | UpdateWrite _ => pa_state p = LINKG_PATH_STATE_ACTIVE
  | _ => True
  end.

Definition retiring (pc : node_pc) : bool := match pc with RetireRefs | RetireComplete => true | _ => false end.

Record inv (s : sys) : Prop := {
  in_refs : pa_reference_count (sy_path s) = owned s;
  in_held : 0 <= sy_held s;
  in_range_refs : owned s < 2 ^ 32;
  in_state : pa_state (sy_path s) = LINKG_PATH_STATE_EMPTY \/ pa_state (sy_path s) = LINKG_PATH_STATE_ACTIVE \/
    pa_state (sy_path s) = LINKG_PATH_STATE_RETIRED \/ pa_state (sy_path s) = LINKG_PATH_STATE_RELEASED;
  in_empty : pa_state (sy_path s) = LINKG_PATH_STATE_EMPTY -> owned s = 0;
  in_node : node_fact (sy_node s) (sy_path s);
  in_try : forall r, RelTry r ∈ sy_threads s -> 0 < r;
  in_pending : pa_state (sy_path s) = LINKG_PATH_STATE_RETIRED -> owned s = 0 ->
    RelComplete ∈ sy_threads s \/ retiring (sy_node s) = true;
  in_done : (pa_state (sy_path s) = LINKG_PATH_STATE_ACTIVE \/ pa_state (sy_path s) = LINKG_PATH_STATE_RETIRED ->
       sy_done s = 0%nat) /\
    (pa_state (sy_path s) = LINKG_PATH_STATE_RELEASED -> sy_done s = 1%nat) /\ (sy_done s <= 1)%nat }.

Lemma owns_ref_range t : 0 <= owns_ref t <= 1.
Proof. destruct t; cbn; lia. Qed.

Lemma owned_threads ts : 0 <= sumZ owns_ref ts.
Proof. apply sumZ_nonneg. intros. apply owns_ref_range. Qed.

(** What an access of a release does to the path. *)
Inductive release_effect (p : linkg_path) : linkg_path -> Prop :=
  | effect_none : release_effect p p
  | effect_refs : 0 < pa_reference_count p -> release_effect p (path_set_refs (u32 (pa_reference_count p - 1)) p)
  | effect_state : pa_state p = LINKG_PATH_STATE_RETIRED ->
      release_effect p (path_set_state LINKG_PATH_STATE_RELEASED p).

Lemma release_effect_of b t p o p' :
  (forall r, t = RelTry r -> 0 < r) -> release_step b t p = (o, p') -> release_effect p p'.
Proof.
  intros Hr E. destruct t as [|r| | |]; cbn in E.
  - injection E as <- <-. constructor.
  - destruct (negb b && (pa_reference_count p =? r)) eqn:Ec; injection E as <- <-; [|constructor].
    zb. subst r. constructor. by apply Hr.
  - destruct (pa_state p =? _) eqn:Ec; injection E as <- <-; [|constructor]. zb. by constructor.
  - injection E as <- <-. constructor.
  - injection E as <- <-. constructor.
Qed.

Lemma node_fact_effect pc p p' :
  0 <= pa_reference_count p < 2 ^ 32 -> release_effect p p' -> node_fact pc p -> node_fact pc p'.
Proof.
  intros Hr E H. destruct E as [|H0|H0]; [done| |].
  - assert (u32 (pa_reference_count p - 1) = pa_reference_count p - 1) as E by (apply wrap_small; unfold in_range; lia).
    destruct pc; cbn in *; rewrite ?E; intuition lia.
  - destruct pc; cbn in *; try tauto; rewrite H0 in *; intuition discriminate.
Qed.

(** The thread's share of the references and what is left to do. *)
Lemma release_step_owned b t p o p' :
  0 <= pa_reference_count p < 2 ^ 32 -> (forall r, t = RelTry r -> 0 < r) ->
  (owns_ref t = 1 -> 0 < pa_reference_count p) -> release_step b t p = (o, p') ->
  pa_reference_count p' - sumZ owns_ref (option_list o) = pa_reference_count p - owns_ref t /\
  (forall r, RelTry r ∈ option_list o -> 0 < r).
Proof.
  intros Hp Hr Ho E. destruct t as [|r| | |]; cbn in E, Ho.
  - injection E as <- <-. unfold release_test. destruct (_ <=? 0) eqn:Ez; zb; [lia|]. cbn.
    split; [lia|]. intros r [= ->]%list_elem_of_singleton. lia.
  - specialize (Ho eq_refl). destruct (negb b && (pa_reference_count p =? r)) eqn:Ec; injection E as <- <-.
    + zb. subst r. cbn. rewrite wrap_small by (unfold in_range; lia).
      destruct (pa_reference_count p =? 1); cbn; (split; [lia|]); intros r Hin; [|by apply elem_of_nil in Hin].
      by apply list_elem_of_singleton in Hin.
    + unfold release_test. destruct (_ <=? 0) eqn:Ez; zb; [lia|]. cbn.
      split; [lia|]. intros r' [= ->]%list_elem_of_singleton. lia.
  - destruct (pa_state p =? _); injection E as <- <-; cbn; (split; [lia|]); intros r Hin;
      by (apply list_elem_of_singleton in Hin || apply elem_of_nil in Hin).
  - injection E as <- <-. destruct (pa_released p); cbn; (split; [lia|]); intros r Hin;
      by (apply list_elem_of_singleton in Hin || apply elem_of_nil in Hin).
  - injection E as <- <-. cbn. split; [lia|]. intros r Hin. by apply elem_of_nil in Hin.
Qed.

Lemma release_effect_state p p' :
  release_effect p p' ->
  pa_state p' = pa_state p \/ (pa_state p = LINKG_PATH_STATE_RETIRED /\ pa_state p' = LINKG_PATH_STATE_RELEASED).
Proof. intros [ | |H]; [by left|by left|by right]. Qed.

(** After a release took the last reference of a retired path its completion is pending. *)
Lemma release_pending b t p o p' :
  (forall r, t = RelTry r -> 0 < r) -> 0 <= pa_reference_count p < 2 ^ 32 -> release_step b t p = (o, p') ->
  pa_state p' = LINKG_PATH_STATE_RETIRED -> pa_reference_count p' = 0 ->
  (pa_reference_count p = 0 /\ t <> RelComplete) \/ RelComplete ∈ option_list o.
Proof.
  intros Hr Hp E Hs H0. destruct t as [|r| | |]; cbn in E.
  - injection E as <- <-. by left.
  - destruct (negb b && (pa_reference_count p =? r)) eqn:Ec; injection E as <- <-; [|by left].
    zb. subst r. cbn in H0. specialize (Hr _ eq_refl).
    rewrite wrap_small in H0 by (unfold in_range; lia). right.
    replace (pa_reference_count p) with 1 by lia. cbn. by apply list_elem_of_singleton.
  - destruct (pa_state p =? LINKG_PATH_STATE_RETIRED) eqn:Ec; injection E as <- <-; [done|]. zb. done.
  - injection E as <- <-. by left.
  - injection E as <- <-. by left.
Qed.

Lemma done_after_same p p' n : pa_state p' = pa_state p -> done_after p p' n = n.
Proof.
  intros E. unfold done_after, completes. rewrite E.
  destruct (Z.eqb_spec (pa_state p) LINKG_PATH_STATE_RETIRED) as [->|]; done.
Qed.

Lemma done_after_released p p' n :
  pa_state p = LINKG_PATH_STATE_RETIRED -> pa_state p' = LINKG_PATH_STATE_RELEASED -> done_after p p' n = S n.
Proof. intros E E'. unfold done_after, completes. by rewrite E, E'. Qed.

Lemma inv_release s b t ts1 ts2 o p' :
  inv s -> sy_threads s = ts1 ++ t :: ts2 -> release_step b t (sy_path s) = (o, p') ->
  inv (Sys p' (sy_node s) (ts1 ++ option_list o ++ ts2) (sy_held s) (sy_life s) (done_after (sy_path s) p' (sy_done s))).
Proof.
  intros I Et E. destruct I as [I1 I2 I3 I4 I5 I6 I7 I8 (I9a&I9b&I9c)].
  assert (forall r, t = RelTry r -> 0 < r) as Ht.
  { intros r ->. apply I7. rewrite Et. apply elem_of_app. right. left. }
  unfold owned in *. rewrite Et, sumZ_app in I1, I3, I5, I8. cbn [sumZ] in *.
  pose proof (owned_threads ts1). pose proof (owned_threads ts2). pose proof (owns_ref_range t).
  assert (0 <= pa_reference_count (sy_path s) < 2 ^ 32) as Hr by lia.
  destruct (release_step_owned b t (sy_path s) o p' Hr Ht ltac:(lia) E) as [Eo Ho].
  pose proof (release_effect_of b t _ o p' Ht E) as Ef. pose proof (release_effect_state _ _ Ef) as Es.
  assert (pa_reference_count p' <= pa_reference_count (sy_path s)) as Hle.
  { destruct Ef; cbn; [lia|rewrite wrap_small by (unfold in_range; lia); lia|lia]. }
  split; unfold owned; cbn [sy_path sy_node sy_threads sy_held sy_done]; rewrite ?sumZ_app.
  - lia.
  - done.
  - lia.
  - destruct Es as [->|[_ ->]]; tauto.
  - intros He. destruct Es as [Es|[_ Es]]; rewrite Es in He; [|done]. specialize (I5 He).
    pose proof (owned_threads (option_list o)). lia.
  - by eapply node_fact_effect.
  - intros r [Hin|[Hin|Hin]%elem_of_app]%elem_of_app; [|by apply Ho|]; apply I7; rewrite Et; apply elem_of_app;
      [by left|right; by right].
  - intros Hst Hzero. destruct (release_pending b t _ o p' Ht Hr E Hst) as [[Hz Hne]|Hin]; [lia| |].
    + assert (pa_state (sy_path s) = LINKG_PATH_STATE_RETIRED) as Hst' by (destruct Es as [<-|[? _]]; done).
      destruct (I8 Hst' ltac:(lia)) as [Hc|Hc]; [|by right]. left.
      apply elem_of_app in Hc as [Hc|[Hc|Hc]%elem_of_cons]; [|congruence|]; rewrite !elem_of_app; tauto.
    + left. rewrite !elem_of_app. tauto.
  - destruct Es as [Es|[Es Es']].
    + rewrite Es, done_after_same by done. done.
    + rewrite (done_after_released _ _ _ Es Es'), Es', (I9a (or_intror Es)). split; [intros [?|?]; done|]. split; [done|lia].
Qed.

Lemma inv_node p pc pc' p' ts h l d :
  inv (Sys p pc ts h l d) -> pc <> NodeIdle -> node_step pc p = (pc', p') ->
  inv (Sys p' pc' ts (match pc with AcquireAdd n => h + n | _ => h end)
         (match pc with ActivateStore => S l | _ => l end)
         (match pc with ActivateStore => 0%nat | _ => done_after p p' d end)).
Proof.
  intros [I1 I2 I3 I4 I5 I6 I7 I8 (I9a&I9b&I9c)] Hne E. pose proof (owned_threads ts) as Ht.
  unfold owned in *. cbn [sy_path sy_node sy_threads sy_held sy_done] in *.
  destruct pc; cbn in E, I6; try done;
    repeat match type of E with context [if ?b then _ else _] => destruct b eqn:?; zb end;
    injection E as <- <-;
    (split; unfold owned; cbn [sy_path sy_node sy_threads sy_held sy_done path_set_route path_set_state path_set_refs
       path_set_stats pa_state pa_reference_count node_fact retiring];
     try tauto; try lia;
     try (rewrite ?wrap_small by (unfold in_range; lia)); try lia;
     try (rewrite done_after_same by done); try tauto;
     try solve [unfold done_after, completes, LINKG_PATH_STATE_EMPTY, LINKG_PATH_STATE_ACTIVE, LINKG_PATH_STATE_RETIRED,
       LINKG_PATH_STATE_RELEASED in *; cbn [pa_state path_set_state]; intuition (repeat case_match; zb; congruence || lia)]).

Qed.

Lemma inv_step s s' : inv s -> sys_step s s' -> inv s'.
Proof.
  intros I St. destruct St as [p pc ts h l d He|p pc pc' p' ts h l d Hne E|p pc ts1 ts2 h l d Hh
    |p p' pc ts1 ts2 t o b h l d Hn E|p ts1 ts2 h l d].
  - destruct I as [I1 I2 I3 I4 I5 I6 I7 I8 I9]. split; try done; cbn in *.
    + destruct pc; try done.
    + intros Hs H0. destruct (I8 Hs H0) as [Hc|Hc]; [by left|done].
  - by apply (inv_node p pc).
  - destruct I as [I1 I2 I3 I4 I5 I6 I7 I8 I9]. unfold owned in *. cbn in *.
    rewrite sumZ_app in *. split; unfold owned; cbn; rewrite ?sumZ_app; cbn; try done; try lia.
    + intros r Hin. apply I7. rewrite elem_of_app, elem_of_cons in Hin. rewrite elem_of_app. destruct Hin as [?|[?|?]]; [tauto|done|tauto].
    + intros Hs H0. destruct (I8 Hs ltac:(lia)) as [Hc|Hc]; [|tauto]. left.
      rewrite elem_of_app in Hc. rewrite elem_of_app, elem_of_cons. tauto.
  - by apply (inv_release _ b t ts1 ts2 o p' I).
  - destruct I as [I1 I2 I3 I4 I5 I6 I7 I8 I9]. unfold owned in *. cbn in *. rewrite sumZ_app in *. cbn in *.
    split; unfold owned; cbn; rewrite ?sumZ_app; try done; try lia.
    + intros r Hin. apply I7. rewrite elem_of_app, elem_of_cons. rewrite elem_of_app in Hin. tauto.
    + intros Hs H0. destruct (I8 Hs ltac:(lia)) as [Hc|Hc]; [|done]. left.
      rewrite elem_of_app, elem_of_cons in Hc. rewrite elem_of_app. destruct Hc as [?|[?|?]]; [tauto|done|tauto].
Qed.

Lemma inv_init : inv sys_init.
Proof.
  split; cbn; try done; try lia; try tauto.
  - intros r Hin. by apply elem_of_nil in Hin.
  - unfold LINKG_PATH_STATE_EMPTY, LINKG_PATH_STATE_ACTIVE, LINKG_PATH_STATE_RETIRED, LINKG_PATH_STATE_RELEASED. lia.
Qed.

Lemma reachable_inv s : reachable s -> inv s.
Proof.
  intros H. unfold reachable in H. remember sys_init as s0 eqn:E. assert (inv s0) as I by (subst; apply inv_init).
  clear E. induction H as [|s1 s2 s3 St _ IH]; [done|]. apply IH. by eapply inv_step.
Qed.

(** ** Properties *)

(** No operation is under way and no reference is being released. *)
Definition quiescent (s : sys) : Prop := sy_node s = NodeIdle /\ sy_threads s = [].

(** The life cycle of a path: empty, active, retired, released, and empty again. *)
Inductive life_edge : Z -> Z -> Prop :=
  | edge_activated : life_edge LINKG_PATH_STATE_EMPTY LINKG_PATH_STATE_ACTIVE
  | edge_retired : life_edge LINKG_PATH_STATE_ACTIVE LINKG_PATH_STATE_RETIRED
  | edge_released : life_edge LINKG_PATH_STATE_RETIRED LINKG_PATH_STATE_RELEASED
  | edge_reset : life_edge LINKG_PATH_STATE_RELEASED LINKG_PATH_STATE_EMPTY.

Lemma node_step_edge pc p pc' p' : node_fact pc p -> node_step pc p = (pc', p') ->
  pa_state p' = pa_state p \/ life_edge (pa_state p) (pa_state p').
Proof.
  intros Hf E. destruct pc; cbn in E, Hf;
    repeat match type of E with context [if ?b then _ else _] => destruct b eqn:?; zb end;
    injection E as <- <-; cbn [path_set_route path_set_state path_set_refs path_set_stats pa_state]; try (by left); right.
  - destruct Hf as [-> _]. constructor.
  - rewrite Heqb. constructor.
  - rewrite Heqb. constructor.
  - destruct Hf as [-> _]. constructor.
Qed.

Lemma sys_step_edge s s' : inv s -> sys_step s s' ->
  pa_state (sy_path s') = pa_state (sy_path s) \/ life_edge (pa_state (sy_path s)) (pa_state (sy_path s')).
Proof.
  intros I St. destruct St as [|p pc pc' p' ts h l d _ E| |p p' pc ts1 ts2 t o b h l d _ E|]; try by left.
  - exact (node_step_edge _ _ _ _ (in_node _ I) E).
  - destruct (release_effect_state p p') as [H|[H H']]; [|by left|right; cbn; rewrite H, H'; constructor].
    eapply release_effect_of; [|exact E]. intros r ->. apply (in_try _ I). cbn. rewrite elem_of_app, elem_of_cons. tauto.
Qed.

(** C26: in every interleaving of the accesses of the path's operations the
    counter is exactly the number of references held or still being released, an
    empty path has none, the release of an activation completes at most once, and
    a retired path at rest still has a holder, so its last release completes it.
    Every access leaves the state as it is or moves it one step along its life cycle:
    empty, active, retired, released, empty; so only a released path without
    references is emptied. *)
Theorem path_references_exact s :
  reachable s ->
  pa_reference_count (sy_path s) = owned s /\
  (pa_state (sy_path s) = LINKG_PATH_STATE_EMPTY -> owned s = 0) /\
  (sy_done s <= 1)%nat /\
  (quiescent s -> pa_state (sy_path s) = LINKG_PATH_STATE_RETIRED -> 0 < sy_held s) /\
  (forall s', sys_step s s' ->
     pa_state (sy_path s') = pa_state (sy_path s) \/ life_edge (pa_state (sy_path s)) (pa_state (sy_path s'))).
Proof.
  intros I%reachable_inv. pose proof (fun s' => sys_step_edge s s' I) as He. destruct I as [I1 I2 I3 I4 I5 I6 I7 I8 (_&_&I9)].
  split; [done|]. split; [done|]. split; [done|]. split; [|done].
  intros [Hn Ht] Hs. unfold owned in *. rewrite Ht, Hn in *. cbn in *.
  destruct (decide (sy_held s = 0)) as [H0|H0]; [|lia].
  destruct (I8 Hs ltac:(lia)) as [Hc|Hc]; [by apply elem_of_nil in Hc|done].
Qed.

(** A step at both ends of which some reference is held or being released. *)
Definition held_step (s s' : sys) : Prop := sys_step s s' /\ 0 < owned s /\ 0 < owned s'.

Lemma held_step_same s s' :
  inv s -> held_step s s' -> sy_life s' = sy_life s /\ pa_link_id (sy_path s') = pa_link_id (sy_path s).
Proof.
  intros I (St&Ho&_). destruct St as [|p pc pc' p' ts h l d Hne E| |p p' pc ts1 ts2 t o b h l d Hn E|]; try done.
  - pose proof (in_node _ I) as Hf. pose proof (in_refs _ I) as Hr. cbn in Hf, Hr.
    destruct pc; cbn in E, Hf; try done;
      repeat match type of E with context [if ?b then _ else _] => destruct b eqn:?; zb end;
      injection E as <- <-; cbn; try done; lia.
  - cbn. split; [done|]. destruct (release_effect_of b t p o p') as [| |]; try done.
    intros r ->. apply (in_try _ I). cbn. rewrite elem_of_app, elem_of_cons. tauto.
Qed.

(** C27: while a reference is held or being released the path is not recycled:
    it is neither reset nor activated again and keeps the link it was activated
    on, whatever operations and releases are interleaved. *)
Theorem path_not_recycled s s' :
  reachable s -> rtc held_step s s' ->
  sy_life s' = sy_life s /\ pa_link_id (sy_path s') = pa_link_id (sy_path s) /\
  (0 < owned s -> pa_state (sy_path s') <> LINKG_PATH_STATE_EMPTY).
Proof.
  intros Hr Hs. pose proof (reachable_inv _ Hr) as I. clear Hr. induction Hs as [s|s1 s2 s3 St _ IH].
  - split; [done|]. split; [done|]. intros Ho He. rewrite (in_empty _ I He) in Ho. lia.
  - destruct (held_step_same _ _ I St) as [E1 E2]. destruct St as (St&_&Ho2).
    destruct (IH (inv_step _ _ I St)) as (E3&E4&E5). split; [congruence|]. split; [congruence|]. intros _. by apply E5.
Qed.

(** Run without interleaving, the accesses of each operation are the
    operation as [LinkPath] has it. *)
Theorem path_accesses_are_operations (p : linkg_path) :
  pa_initialized p = true ->
  (forall l h f d, l <> LINKG_PATH_LINK_ID_INVALID ->
     exists r, linkg_path_activate mutex_default l (Some h) f d p = Some (r, run_node 4 (ActivateState l h f d) p)) /\
  (forall n, n <> 0 -> exists r, linkg_path_acquire_batch n p = Some (r, run_node 2 (AcquireState n) p)) /\
  (exists r, linkg_path_retire (fun _ _ => mret tt) p = Some (r, run_node 3 RetireExchange p)) /\
  (exists r, linkg_path_reset mutex_default p = Some (r, run_node 5 ResetState1 p)) /\
  (forall h, exists r, linkg_path_update_endpoint (Some h) p = Some (r, run_node 2 (UpdateState h) p)) /\
  linkg_path_release (fun _ _ => mret tt) [] p = Some (tt, run_release 4 RelLoad p).
Proof.
  intros Hi. destruct p as [st li hop rc state rel data ini]. cbn in Hi. subst ini. splits.
  - intros l h f d Hl. apply Z.eqb_neq in Hl. unfold linkg_path_activate, mbind, M_bind. cbn. rewrite Hl. cbn.
    destruct (state =? LINKG_PATH_STATE_EMPTY); cbn; [|by eexists]. destruct (rc =? 0); by eexists.
  - intros n Hn. apply Z.eqb_neq in Hn. unfold linkg_path_acquire_batch, mbind, M_bind. cbn. rewrite Hn. cbn.
    destruct (state =? LINKG_PATH_STATE_ACTIVE); by eexists.
  - unfold linkg_path_retire, state_exchange, mbind, M_bind. cbn.
    destruct (state =? LINKG_PATH_STATE_ACTIVE); cbn; [|by eexists]. destruct (rc =? 0); cbn; by eexists.
  - unfold linkg_path_reset, mbind, M_bind. cbn. destruct (state =? LINKG_PATH_STATE_EMPTY); cbn; [by eexists|].
    destruct (state =? LINKG_PATH_STATE_RELEASED); cbn; [|by eexists]. destruct (rc =? 0); by eexists.
  - intros h. unfold linkg_path_update_endpoint, mbind, M_bind. cbn.
    destruct (state =? LINKG_PATH_STATE_ACTIVE); by eexists.
  - unfold linkg_path_release, _linkg_path_release_reference, release_test, mbind, M_bind. cbn.
    unfold release_test. destruct (rc <=? 0) eqn:E0; cbn; [done|]. rewrite Z.eqb_refl. cbn.
    destruct (rc =? 1) eqn:E1; cbn; [|done]. zb. subst rc. cbn.
    unfold _linkg_path_complete_release, state_exchange, mbind, M_bind. cbn.
    destruct (state =? LINKG_PATH_STATE_RETIRED); cbn; [|done]. by destruct rel.
Qed.

(** ** A lost release

    A release that took the last reference of an active path and has not yet
    looked at the state completes a later retirement, although the retiring
    operation holds a reference of its own: the owner's callback then finds the
    path referenced and gives up, and the last release finds it released already. *)

Ltac node_access := eapply rtc_l; [apply step_node; [done|reflexivity]|]; cbn.
Ltac node_begin c := eapply rtc_l; [apply (step_node_start _ c); split; vm_compute; reflexivity|]; cbn.
Ltac release_begin := eapply rtc_l; [apply (step_release_start _ _ [] []); lia|]; cbn.
Ltac release_access := eapply rtc_l; [eapply (step_release _ _ _ [] [] _ _ false); [done|reflexivity]|]; cbn.

Definition demo_hop : linkg_path_endpoint := PathEndpoint [10; 0; 0; 2] 4.

Definition demo_active : linkg_path :=
  Path linkg_path_stats_reset 1 demo_hop 0 LINKG_PATH_STATE_ACTIVE (Some 5) 9 true.

Lemma demo_activated : rtc sys_step sys_init (Sys demo_active NodeIdle [] 0 1 0).
Proof.
  unfold sys_init. eapply rtc_l; [apply (step_node_start _ (ActivateState 1 demo_hop (Some 5) 9)); done|].
  do 4 node_access. apply rtc_refl.
Qed.

Lemma demo_acquired : rtc sys_step sys_init (Sys (path_set_refs 1 demo_active) NodeIdle [] 1 1 0).
Proof.
  etrans; [exact demo_activated|]. node_begin (AcquireState 1). do 2 node_access. apply rtc_refl.
Qed.

(** The released path while the cleanup reference is held. *)
Lemma path_released_while_held :
  rtc sys_step sys_init
    (Sys (path_set_state LINKG_PATH_STATE_RELEASED (path_set_refs 1 demo_active)) NodeIdle [RelNotify] 1 1 1).
Proof.
  etrans; [exact demo_acquired|]. release_begin. do 2 release_access.
  node_begin (AcquireState 1). do 2 node_access.
  eapply rtc_l; [apply (step_node_start _ RetireExchange); done|]. do 2 node_access.
  do 2 release_access. apply rtc_refl.
Qed.


(** ** Instances *)

Lemma path_references_exact_witness :
  pa_reference_count (path_set_refs 1 demo_active) = 1 /\
  (pa_state (path_set_refs 1 demo_active) = LINKG_PATH_STATE_EMPTY -> 1 = 0).
Proof.
  destruct (path_references_exact _ demo_acquired) as (H1&H2&_). exact (conj H1 H2).
Defined.

Lemma path_not_recycled_witness :
  sy_life (Sys (path_set_refs 1 demo_active) NodeIdle [] 1 1 0) = 1%nat /\
  pa_link_id (path_set_state LINKG_PATH_STATE_RETIRED (path_set_refs 1 demo_active)) = 1.
Proof.
  assert (rtc held_step (Sys (path_set_refs 1 demo_active) NodeIdle [] 1 1 0)
    (Sys (path_set_state LINKG_PATH_STATE_RETIRED (path_set_refs 1 demo_active)) RetireRefs [] 1 1 0)) as R.
  { eapply rtc_l; [split; [apply (step_node_start _ RetireExchange); done|done]|].
    eapply rtc_l; [split; [apply step_node; [done|reflexivity]|done]|]. apply rtc_refl. }
  destruct (path_not_recycled _ _ demo_acquired R) as (H1&H2&_). exact (conj H1 H2).
Defined.

Lemma path_accesses_are_operations_witness :
  linkg_path_release (fun _ _ => mret tt) [] (path_set_refs 1 demo_active) = Some (tt, demo_active).
Proof.
  destruct (path_accesses_are_operations (path_set_refs 1 demo_active) eq_refl) as (_&_&_&_&_&H). exact H.
Defined.
