(* ===== verification/Thread.v ===== *)
(** * Threads  (infra/base/linkg_thread.c)

    The wrapper the modules start their workers with: a thread is created and
    joined by its owner, asked to leave by a flag, and woken by an eventfd. A
    function takes the object and returns its code and the object afterwards; the
    results of the system calls are an argument. [read] and [write] are repeated
    while a signal interrupts them: their result here is the last one. *)

From S2P Require Import Prelude.

(** ** Constants and data *)

Definition EBADF := 9.
Definition ENAMETOOLONG := 36.

Definition LINKG_THREAD_NAME_MAX := 16.
Definition CPU_SETSIZE := 1024.
Definition SCHED_OTHER := 0.
Definition SCHED_FIFO := 1.
Definition SCHED_RR := 2.

Record linkg_thread_config := ThreadConfig {
  tc_stack_size : Z;
  tc_cpu_core : Z;
  tc_sched_policy : Z;
  tc_sched_priority : Z;
  tc_affinity_enabled : bool;
  tc_scheduling_enabled : bool }.

(** Names are the bytes before the terminator; a function is a number. *)
Record linkg_thread := Thread {
  th_name : list Z;
  th_tid : Z;
  th_function : option Z;
  th_user_data : Z;
  th_wakeup_fd : Z;
  th_config : linkg_thread_config;
  th_started : bool;
  th_running : bool;
  th_initialized : bool }.

Definition thread_config_zero : linkg_thread_config := ThreadConfig 0 0 0 0 false false.
Definition thread_zero : linkg_thread := Thread [] 0 None 0 0 thread_config_zero false false false.

Definition set_thread_flags (started running : bool) (t : linkg_thread) : linkg_thread :=
  Thread (th_name t) (th_tid t) (th_function t) (th_user_data t) (th_wakeup_fd t) (th_config t) started running
    (th_initialized t).
Definition set_thread_tid (tid : Z) (t : linkg_thread) : linkg_thread :=
  Thread (th_name t) tid (th_function t) (th_user_data t) (th_wakeup_fd t) (th_config t) (th_started t) (th_running t)
    (th_initialized t).

(** The results of the calls of one operation; an io result is the length or -1,
    with [errno]. *)
Record thread_api := ThreadApi {
  ta_processors : Z;                 (* sysconf *)
  ta_priority_min : Z -> Z;
  ta_priority_max : Z -> Z;
  ta_eventfd : Z * Z;                (* the descriptor, [errno] *)
  ta_read : Z * Z;
  ta_write : Z * Z;
  ta_attr_init : Z;
  ta_setstacksize : Z;
  ta_setinheritsched : Z;
  ta_setschedpolicy : Z;
  ta_setschedparam : Z;
  ta_setaffinity : Z;
  ta_create : Z * Z;                 (* the code and the thread *)
  ta_self : Z;
  ta_join : Z }.

(** ** The eventfd *)

Definition _eventfd_write (api : thread_api) (wakeup_fd : Z) : Z :=
  if wakeup_fd <? 0 then - EBADF
  else
    let '(length, errno) := ta_write api in
    if length =? 8 then 0
    else if (length <? 0) && (errno =? EAGAIN) then 0
    else if negb (errno =? 0) then - errno else - EIO.

Definition _eventfd_clear (api : thread_api) (wakeup_fd : Z) : Z :=
  if wakeup_fd <? 0 then - EBADF
  else
    let '(length, errno) := ta_read api in
    if length =? 8 then 0
    else if length <? 0 then if errno =? EAGAIN then 0 else - errno
    else - EIO.

(** ** Creation *)

Definition check_config (api : thread_api) (config : linkg_thread_config) : Z :=
  if tc_affinity_enabled config &&
     ((tc_cpu_core config <? 0) || (CPU_SETSIZE <=? tc_cpu_core config)) then - EINVAL
  else if tc_affinity_enabled config && (0 <? ta_processors api) && (ta_processors api <=? tc_cpu_core config)
  then - EINVAL
  else if tc_scheduling_enabled config then
    let policy := tc_sched_policy config in
    if negb (policy =? SCHED_OTHER) && negb (policy =? SCHED_FIFO) && negb (policy =? SCHED_RR) then - EINVAL
    else if (ta_priority_min api policy <? 0) || (ta_priority_max api policy <? 0) then - EINVAL
    else if (tc_sched_priority config <? ta_priority_min api policy) ||
            (ta_priority_max api policy <? tc_sched_priority config) then - EINVAL
    else 0
  else 0.

Definition _thread_init (api : thread_api) (name : option (list Z)) (function : option Z) (user_data : Z)
    (config : option linkg_thread_config) (thread : option linkg_thread) : Z * option linkg_thread :=
  match thread, function with
  | Some t, Some _ =>
      if th_initialized t then (- EALREADY, thread)
      else if LINKG_THREAD_NAME_MAX <=? Z.of_nat (length (default [] name)) then (- ENAMETOOLONG, thread)
      else
        let settings := default (ThreadConfig 0 (-1) SCHED_OTHER 0 false false) config in
        let t := Thread (default [] name) 0 function user_data (-1) settings false false false in
        let ret := check_config api settings in
        if negb (ret =? 0) then (ret, Some t)
        else
          let '(wakeup_fd, errno) := ta_eventfd api in
          let t := Thread (th_name t) (th_tid t) (th_function t) (th_user_data t) wakeup_fd settings false false false in
          if wakeup_fd <? 0 then (if negb (errno =? 0) then - errno else - EIO, Some t)
          else (0, Some (Thread (th_name t) (th_tid t) (th_function t) (th_user_data t) wakeup_fd settings false false true))
  | _, _ => (- EINVAL, thread)
  end.

Definition linkg_thread_init (api : thread_api) (name : option (list Z)) (function : option Z) (user_data : Z)
    (thread : option linkg_thread) : Z * option linkg_thread :=
  _thread_init api name function user_data None thread.

Definition linkg_thread_init_with_config (api : thread_api) (name : option (list Z)) (function : option Z) (user_data : Z)
    (config : option linkg_thread_config) (thread : option linkg_thread) : Z * option linkg_thread :=
  match config with
  | None => (- EINVAL, thread)
  | Some _ => _thread_init api name function user_data config thread
  end.

(** ** Starting and stopping *)

Definition linkg_thread_start (api : thread_api) (thread : option linkg_thread) : Z * option linkg_thread :=
  match thread with
  | None => (- EINVAL, thread)
  | Some t =>
      let config := th_config t in
      if negb (th_initialized t) || bool_decide (th_function t = None) then (- EINVAL, thread)
      else if th_started t then (- EALREADY, thread)
      else
        let result := _eventfd_clear api (th_wakeup_fd t) in
        if negb (result =? 0) then (result, thread)
        else if negb (ta_attr_init api =? 0) then (- ta_attr_init api, thread)
        else if (0 <? tc_stack_size config) && negb (ta_setstacksize api =? 0) then (- ta_setstacksize api, thread)
        else if tc_scheduling_enabled config && negb (ta_setinheritsched api =? 0) then (- ta_setinheritsched api, thread)
        else if tc_scheduling_enabled config && negb (ta_setschedpolicy api =? 0) then (- ta_setschedpolicy api, thread)
        else if tc_scheduling_enabled config && negb (ta_setschedparam api =? 0) then (- ta_setschedparam api, thread)
        else if tc_affinity_enabled config && negb (ta_setaffinity api =? 0) then (- ta_setaffinity api, thread)
        else
          let '(result, tid) := ta_create api in
          if negb (result =? 0) then (- result, Some (set_thread_flags (th_started t) false (set_thread_tid 0 t)))
          else (0, Some (set_thread_flags true true (set_thread_tid tid t)))
  end.

Definition linkg_thread_wakeup (api : thread_api) (thread : option linkg_thread) : Z :=
  match thread with
  | None => - EINVAL
  | Some t =>
      if negb (th_initialized t) then - EINVAL
      else if negb (th_started t) then - EINVAL
      else _eventfd_write api (th_wakeup_fd t)
  end.

Definition linkg_thread_clear_wakeup (api : thread_api) (thread : option linkg_thread) : Z :=
  match thread with
  | None => - EINVAL
  | Some t => if negb (th_initialized t) then - EINVAL else _eventfd_clear api (th_wakeup_fd t)
  end.

(** The user function has returned. *)
Definition _thread_entry (thread : linkg_thread) : linkg_thread := set_thread_flags (th_started thread) false thread.

Definition linkg_thread_stop (api : thread_api) (thread : option linkg_thread) : Z * option linkg_thread :=
  match thread with
  | None => (- EINVAL, thread)
  | Some t =>
      if negb (th_initialized t) then (- EINVAL, thread)
      else if negb (th_started t) then (0, Some (set_thread_flags false false t))
      else if ta_self api =? th_tid t then (- EDEADLK, thread)
      else
        let t := set_thread_flags true false t in
        let result := linkg_thread_wakeup api (Some t) in
        if negb (result =? 0) then (result, Some t)
        else if negb (ta_join api =? 0) then (- ta_join api, Some t)
        else (0, Some (set_thread_flags false false (set_thread_tid 0 t)))
  end.

(** The second component counts the descriptors closed. *)
Definition linkg_thread_deinit (api : thread_api) (thread : option linkg_thread) : option linkg_thread * Z :=
  match thread with
  | None => (thread, 0)
  | Some t =>
      if negb (th_initialized t) then (thread, 0)
      else
        let '(result, stopped) := if th_started t then linkg_thread_stop api thread else (0, thread) in
        if negb (result =? 0) then (stopped, 0)
        else (Some (Thread [] 0 None 0 (-1) (ThreadConfig 0 (-1) 0 0 false false) false false false),
              if 0 <=? th_wakeup_fd t then 1 else 0)
  end.

(** ** Queries *)

Definition linkg_thread_is_started (thread : option linkg_thread) : bool :=
  match thread with Some t => th_initialized t && th_started t | None => false end.

Definition linkg_thread_is_running (thread : option linkg_thread) : bool :=
  match thread with Some t => th_initialized t && th_running t | None => false end.

Definition linkg_thread_get_wakeup_fd (thread : option linkg_thread) : Z :=
  match thread with Some t => if th_initialized t then th_wakeup_fd t else -1 | None => -1 end.

(** ** What the owner of a thread relies on *)

(** A start that succeeds leaves a started thread, one that fails leaves it as it was. *)
Lemma thread_start_started api t r t' :
  th_initialized t = true -> linkg_thread_start api (Some t) = (r, Some t') ->
  th_initialized t' = true /\ (r = 0 -> th_started t' = true /\ th_running t' = true /\ th_started t = false) /\
  (r <> 0 -> th_started t' = th_started t).
Proof.
  intros Hi. unfold linkg_thread_start. rewrite Hi. intros H.
  repeat case_match; simplify_eq; cbn in *; rewrite ?Bool.andb_true_iff, ?negb_true_iff, ?negb_false_iff in *; splits;
    try done; intros; try lia; try done; destruct (th_started t); done.
Qed.

(** A stop that succeeds leaves no thread, one that fails the thread it found. *)
Lemma thread_stop_stopped api t r t' :
  th_initialized t = true -> linkg_thread_stop api (Some t) = (r, Some t') ->
  th_initialized t' = true /\ (r = 0 -> th_started t' = false) /\ (r <> 0 -> th_started t' = th_started t /\ th_started t = true).
Proof.
  intros Hi. unfold linkg_thread_stop. rewrite Hi. cbn [negb]. intros H.
  repeat case_match; simplify_eq; cbn in *; rewrite ?negb_true_iff, ?negb_false_iff in *; splits;
    try done; intros; try lia; try done; destruct (th_started t); done.
Qed.
