(* ===== verification/Link.v ===== *)
(** * Links: synchronous submission  (core/link/link_tx.c, core/link/linkg_link.h)

    Submission of a batch of packets to a link: the checks, the split of the
    batch into the sizes the concrete link takes, never between the two packets
    of an atomic group, and the collection of the results. The concrete link's
    [send_batch] and [purge_tx_path] are arguments; the link and the path are
    read twice, before the io lock is taken and under it, and both readings are
    arguments. *)

From S2P Require Import Prelude.
From S2P Require Import PacketStore.
From S2P Require Import PacketPool.
From S2P Require Import PacketData.
From S2P Require Import LinkPath.
From S2P Require Import Thread.

(** ** Data *)

Definition LINKG_LINK_ID_INVALID := 0.
Definition LINKG_LINK_NAME_MAX := 12.

Definition LINKG_LINK_ACCESS_NONE := 0.
Definition LINKG_LINK_ACCESS_WIFI := 1.
Definition LINKG_LINK_ACCESS_CELLULAR := 2.

Definition LINKG_LINK_STATE_STOPPED := 0.
Definition LINKG_LINK_STATE_STARTING := 1.
Definition LINKG_LINK_STATE_RUNNING := 2.
Definition LINKG_LINK_STATE_STOPPING := 3.
Definition LINKG_LINK_STATE_FAILED := 4.

Definition LINKG_LINK_TX_CLASS_REALTIME := 0.
Definition LINKG_LINK_TX_CLASS_VIDEO := 1.
Definition LINKG_LINK_TX_CLASS_DATA := 2.
Definition LINKG_LINK_TX_CLASS_COUNT := 3.

(** Which of the operations are not [NULL]. *)
Record linkg_link_ops := LinkOps {
  lo_instance_size : Z;
  lo_init : bool;
  lo_deinit : bool;
  lo_open : bool;
  lo_close : bool;
  lo_get_rx_fd : bool;
  lo_send_batch : bool;
  lo_receive_batch : bool;
  lo_purge_tx_path : bool }.

(** Handlers are numbers, and so are their data, 0 for [NULL]; the receive buffer
    is in [LinkRx]. *)
Record linkg_link_runtime := LinkRuntime {
  lr_rx_thread : linkg_thread;
  lr_tx_batch_size : Z;
  lr_rx_batch_size : Z;
  lr_receive : option Z;
  lr_receive_user_data : Z;
  lr_opened : bool }.

Record linkg_link := Link {
  lk_id : Z;
  lk_name : list Z;
  lk_access : Z;
  lk_ops : option linkg_link_ops;
  lk_packet_pool : option pool_ptr;
  lk_runtime : option linkg_link_runtime;
  lk_state : Z }.

(** ** Checks *)

Definition _linkg_link_validate_tx_packet (packet : option pkt_ptr) : PM Z :=
  match packet with
  | None => mret (- EINVAL)
  | Some i =>
      k ← packet_at i;
      if bool_decide (pk_pool k = None) || bool_decide (pk_slot k = None) then mret (- EINVAL)
      else
        pool_deref (pk_pool k) ;;
        slot_size ← gets po_slot_size;
        if slot_size <? pk_data_offset k then mret (- EINVAL)
        else if pk_data_length k =? 0 then mret (- EINVAL)
        else if u32 (slot_size - pk_data_offset k) <? pk_data_length k then mret (- EMSGSIZE)
        else mret 0
  end.

Definition _linkg_link_tx_class_valid (tx_class : Z) : bool :=
  (LINKG_LINK_TX_CLASS_REALTIME <=? tx_class) && (tx_class <? LINKG_LINK_TX_CLASS_COUNT).

Definition _linkg_link_tx_split_group (first last : option linkg_packet) : bool :=
  match first, last with
  | Some f, Some l =>
      (Z.land (pk_flags f) LINKG_PACKET_FLAG_TX_GROUP_MASK =? LINKG_PACKET_FLAG_TX_GROUP_FIRST) &&
      (Z.land (pk_flags l) LINKG_PACKET_FLAG_TX_GROUP_MASK =? LINKG_PACKET_FLAG_TX_GROUP_LAST)
  | _, _ => false
  end.

(** [rest] is the batch from [offset] on. *)
Definition _linkg_link_tx_get_chunk_count (rest : list pkt_ptr) (batch_size : Z) : PM Z :=
  let remaining := Z.of_nat (length rest) in
  let chunk_count := if batch_size <? remaining then batch_size else remaining in
  if chunk_count =? remaining then mret chunk_count
  else
    i ← of_option (rest !! Z.to_nat (chunk_count - 1));
    j ← of_option (rest !! Z.to_nat chunk_count);
    f ← packet_at i;
    l ← packet_at j;
    mret (if _linkg_link_tx_split_group (Some f) (Some l) then chunk_count - 1 else chunk_count).

Definition decided (r : Z) : Z := if r =? - EINPROGRESS then - EIO else r.

(** The number of zeros. *)
Definition accepted (results : list Z) : Z := sumZ (fun r => if r =? 0 then 1 else 0) results.

(** Returns the accepted count and the results. *)
Definition _linkg_link_tx_finalize_chunk (results : list Z) : Z * list Z :=
  (accepted (decided <$> results), decided <$> results).

Section Submit.
(** The concrete link: the result and the chunk's results, [-EINPROGRESS] where
    it wrote none. *)
Context (send_batch : list pkt_ptr -> PM (Z * list Z)).

(** The sending loop from [rest] on: the accepted count, [first_error],
    [processed] and the results. *)
Fixpoint submit_loop (fuel : nat) (batch_size : Z) (rest : list pkt_ptr) : PM (Z * Z * bool * list Z) :=
  match rest, fuel with
  | [], _ => mret (0, 0, false, [])
  | _ :: _, O => of_option None
  | _ :: _, S fuel' =>
      chunk_count ← _linkg_link_tx_get_chunk_count rest batch_size;
      if chunk_count =? 0
      then mret (0, - EOVERFLOW, false, replicate (length rest) (- EOVERFLOW))
      else
        sent ← send_batch (take (Z.to_nat chunk_count) rest);
        let '(ret, chunk_results) := sent in
        if ret <? 0 then mret (0, ret, false, replicate (length rest) ret)
        else
          let '(chunk_accepted, chunk_results) := _linkg_link_tx_finalize_chunk chunk_results in
          tail ← submit_loop fuel' batch_size (drop (Z.to_nat chunk_count) rest);
          let '(accepted_count, first_error, _, results) := tail in
          mret (chunk_accepted + accepted_count, first_error, true, chunk_results ++ results)
  end.

(** The validation loop: its result and how many results it set to [-EINPROGRESS]. *)
Fixpoint validate_packets (packets : list (option pkt_ptr)) : PM (Z * nat) :=
  match packets with
  | [] => mret (0, 0%nat)
  | i :: packets' =>
      ret ← _linkg_link_validate_tx_packet i;
      if negb (ret =? 0) then mret (ret, 0%nat)
      else r ← validate_packets packets'; mret (fst r, S (snd r))
  end.

(** [link] and [path] as first read, [link'] and [path'] as read under the io
    lock; [results] is the caller's array. The result and that array afterwards. *)
Definition linkg_link_submit_batch (link link' : option linkg_link) (path path' : option linkg_path) (tx_class : Z)
    (destination : option linkg_path_endpoint) (packets : option (list (option pkt_ptr))) (results : option (list Z))
    : PM (Z * option (list Z)) :=
  match link, path, destination, packets, results with
  | Some lk, Some pa, Some _, Some ps, Some rs =>
      if bool_decide (ps = []) then mret (- EINVAL, results)
      else if negb (_linkg_link_tx_class_valid tx_class) then mret (- EINVAL, results)
      else match lk_runtime lk, lk_ops lk with
      | Some runtime, Some ops =>
          if negb (lo_send_batch ops) || (lk_id lk =? LINKG_LINK_ID_INVALID) then mret (- ENODEV, results)
          else if negb (pa_link_id pa =? lk_id lk) then mret (- EXDEV, results)
          else if lr_tx_batch_size runtime =? 0 then mret (- EINVAL, results)
          else
            checked ← validate_packets ps;
            let '(ret, count) := checked in
            let pending := Some (replicate count (- EINPROGRESS) ++ drop count rs) in
            if negb (ret =? 0) then mret (ret, pending)
            else
              if negb (lk_state lk =? LINKG_LINK_STATE_RUNNING) then mret (- ENETDOWN, pending)
              else
                let running := match link' with Some l => lk_state l =? LINKG_LINK_STATE_RUNNING | None => false end in
                let opened := match link' with
                              | Some l => match lk_runtime l with Some r => lr_opened r | None => false end
                              | None => false end in
                if negb running || negb opened then mret (- ENETDOWN, pending)
                else if negb (linkg_path_is_active path') then mret (- ENODEV, pending)
                else
                  r ← submit_loop (length ps) (lr_tx_batch_size runtime) (omap id ps);
                  let '(accepted_count, first_error, processed, out) := r in
                  mret (if negb processed && negb (first_error =? 0) then first_error else accepted_count, Some out)
      | _, _ => mret (- ENODEV, results)
      end
  | _, _, _, _, _ => mret (- EINVAL, results)
  end.

Definition linkg_link_submit (link link' : option linkg_link) (path path' : option linkg_path) (tx_class : Z)
    (destination : option linkg_path_endpoint) (packet : option pkt_ptr) : PM Z :=
  match packet with
  | None => mret (- EINVAL)
  | Some i =>
      r ← linkg_link_submit_batch link link' path path' tx_class destination (Some [Some i]) (Some [0]);
      let '(ret, results) := r in
      if ret <? 0 then mret ret
      else of_option (results ≫= fun l => l !! 0%nat)
  end.

(** [purge_tx_path]: its result and [*purged_count]. *)
Definition linkg_link_purge_tx_path (purge : PM (Z * Z)) (link link' : option linkg_link) (path : option linkg_path)
    (purged_count : bool) : PM (Z * option Z) :=
  match link, path, purged_count with
  | Some lk, Some pa, true =>
      match lk_runtime lk, lk_ops lk with
      | Some _, Some ops =>
          if negb (lo_purge_tx_path ops) || (lk_id lk =? LINKG_LINK_ID_INVALID) then mret (- ENODEV, Some 0)
          else if negb (pa_link_id pa =? lk_id lk) then mret (- EXDEV, Some 0)
          else if linkg_path_is_active path then mret (- EBUSY, Some 0)
          else if negb (match link' with
                        | Some l => match lk_runtime l with Some r => lr_opened r | None => false end
                        | None => false end)
          then mret (0, Some 0)
          else r ← purge; mret (fst r, Some (snd r))
      | _, _ => mret (- ENODEV, Some 0)
      end
  | _, _, _ => mret (- EINVAL, None)
  end.

End Submit.
