(* ===== verification/LinkSubmit.v ===== *)
(** * Submission to a link: grouping and results

    The batches a link hands to the concrete link are consecutive, within its
    batch size and never end between the two packets of an atomic group; and
    every packet of a processed batch gets a verdict. *)

From S2P Require Import Prelude.
From S2P Require Import PacketStore.
From S2P Require Import PacketPool.
From S2P Require Import PacketData.
From S2P Require Import PacketLease.
From S2P Require Import LinkPath.
From S2P Require Import Thread.
From S2P Require Import Link.

(** ** The reference split *)

Definition splits_group (f l : Z) : bool :=
  (Z.land f LINKG_PACKET_FLAG_TX_GROUP_MASK =? LINKG_PACKET_FLAG_TX_GROUP_FIRST) &&
  (Z.land l LINKG_PACKET_FLAG_TX_GROUP_MASK =? LINKG_PACKET_FLAG_TX_GROUP_LAST).

Definition chunk_size (flags : pkt_ptr -> Z) (batch : nat) (rest : list pkt_ptr) : nat :=
  if decide (length rest <= batch)%nat then length rest
  else match rest !! (batch - 1)%nat, rest !! batch with
  | Some i, Some j => if splits_group (flags i) (flags j) then (batch - 1)%nat else batch
  | _, _ => batch
  end.

Fixpoint group_chunks (fuel : nat) (flags : pkt_ptr -> Z) (batch : nat) (rest : list pkt_ptr) : list (list pkt_ptr) :=
  match fuel, rest with
  | O, _ | _, [] => []
  | S fuel', _ =>
      take (chunk_size flags batch rest) rest ::
      group_chunks fuel' flags batch (drop (chunk_size flags batch rest) rest)
  end.

Definition group_flags (p : linkg_packet_pool) (i : pkt_ptr) : Z :=
  match packet_of p i with Some k => pk_flags k | None => 0 end.

(** Hand over the chunks one after the other until one is refused. *)
Fixpoint send_chunks (send_batch : list pkt_ptr -> PM (Z * list Z)) (chunks : list (list pkt_ptr))
    : PM (Z * Z * bool * list Z) :=
  match chunks with
  | [] => mret (0, 0, false, [])
  | c :: chunks' =>
      sent ← send_batch c;
      let '(ret, results) := sent in
      if ret <? 0 then mret (0, ret, false, replicate (length (concat (c :: chunks'))) ret)
      else
        tail ← send_chunks send_batch chunks';
        let '(count, first_error, _, rs) := tail in
        mret (accepted (decided <$> results) + count, first_error, true, (decided <$> results) ++ rs)
  end.

(** What the concrete link may do with the packets it is handed. *)
Definition borrows (send_batch : list pkt_ptr -> PM (Z * list Z)) : Prop :=
  forall mine p l, l <> [] -> owned_by mine p -> (forall i, i ∈ l -> 0 < mine i) ->
    exists ret rs p', send_batch l p = Some ((ret, rs), p') /\ lease mine nothing p p' /\ length rs = length l.

(** ** Chunks *)

Lemma chunk_size_range flags batch rest :
  (2 <= batch)%nat -> rest <> [] -> (1 <= chunk_size flags batch rest <= length rest)%nat /\
  (chunk_size flags batch rest <= batch)%nat.
Proof.
  intros Hb Hr. unfold chunk_size. assert (length rest <> 0)%nat by (destruct rest; cbn; [done|lia]).
  case_decide; [lia|]. destruct (rest !! (batch - 1)%nat); [|lia]. destruct (rest !! batch); [|lia].
  case_match; lia.
Qed.

Lemma group_chunks_concat fuel flags batch rest :
  (2 <= batch)%nat -> (length rest <= fuel)%nat -> concat (group_chunks fuel flags batch rest) = rest.
Proof.
  intros Hb. revert rest. induction fuel as [|fuel IH]; intros rest Hl; cbn [group_chunks].
  - by destruct rest; cbn in Hl; [|lia].
  - destruct rest as [|x l]; [done|]. set (rest := x :: l) in *.
    destruct (chunk_size_range flags batch rest Hb ltac:(done)) as [Hn _].
    cbn [concat]. rewrite IH; [apply take_drop|]. rewrite length_drop. lia.
Qed.

Lemma group_chunks_sizes fuel flags batch rest :
  (2 <= batch)%nat -> Forall (fun c => (1 <= length c <= batch)%nat) (group_chunks fuel flags batch rest).
Proof.
  intros Hb. revert rest. induction fuel as [|fuel IH]; intros rest; cbn [group_chunks]; [constructor|].
  destruct rest as [|x l]; [constructor|]. set (rest := x :: l) in *.
  destruct (chunk_size_range flags batch rest Hb ltac:(done)) as [Hn Hm].
  constructor; [|apply IH]. rewrite length_take. lia.
Qed.

Lemma group_mask_bits f :
  Z.land f LINKG_PACKET_FLAG_TX_GROUP_MASK = LINKG_PACKET_FLAG_TX_GROUP_FIRST ->
  Z.land f LINKG_PACKET_FLAG_TX_GROUP_MASK <> LINKG_PACKET_FLAG_TX_GROUP_LAST.
Proof. intros ->. done. Qed.

(** The packets at both sides of the first boundary do not form a group. *)
Lemma chunk_boundary flags batch rest i j :
  (2 <= batch)%nat -> (chunk_size flags batch rest < length rest)%nat ->
  rest !! (chunk_size flags batch rest - 1)%nat = Some i -> rest !! chunk_size flags batch rest = Some j ->
  splits_group (flags i) (flags j) = false.
Proof.
  intros Hb Hl. unfold chunk_size in *. case_decide; [lia|].
  destruct (rest !! (batch - 1)%nat) as [i'|] eqn:Ei; [|apply lookup_ge_None in Ei; lia].
  destruct (rest !! batch) as [j'|] eqn:Ej; [|apply lookup_ge_None in Ej; lia].
  destruct (splits_group (flags i') (flags j')) eqn:Es.
  - intros _ Hj. assert (j = i') as -> by congruence. unfold splits_group in *. zb.
    apply andb_false_iff. right. apply Z.eqb_neq. by apply group_mask_bits.
  - intros Hi Hj. assert (i = i') as -> by congruence. assert (j = j') as -> by congruence. done.
Qed.

Lemma group_chunks_head fuel flags batch rest c cs j :
  group_chunks fuel flags batch rest = c :: cs -> head c = Some j -> head rest = Some j.
Proof.
  destruct fuel as [|fuel]; cbn [group_chunks]; [done|]. destruct rest as [|x l]; [done|].
  intros [= <- _]. destruct (chunk_size flags batch (x :: l)); [done|]. done.
Qed.

Lemma group_chunks_boundary fuel flags batch rest cs1 c d cs2 i j :
  (2 <= batch)%nat -> group_chunks fuel flags batch rest = cs1 ++ c :: d :: cs2 ->
  last c = Some i -> head d = Some j -> splits_group (flags i) (flags j) = false.
Proof.
  intros Hb. revert rest cs1. induction fuel as [|fuel IH]; intros rest cs1; cbn [group_chunks]; [by destruct cs1|].
  destruct rest as [|x l]; [by destruct cs1|]. set (rest := x :: l).
  destruct (chunk_size_range flags batch rest Hb ltac:(done)) as [Hn Hm].
  destruct cs1 as [|c1 cs1]; cbn [app]; intros E Hi Hj.
  - injection E as Ec Ed. pose proof (group_chunks_head _ _ _ _ _ _ _ Ed Hj) as Hh. subst c.
    rewrite head_lookup, lookup_drop, Nat.add_0_r in Hh.
    apply (chunk_boundary flags batch rest i j Hb); [by eapply lookup_lt_Some| |done].
    rewrite last_lookup, length_take, Nat.min_l, lookup_take_lt in Hi by lia.
    by rewrite <- Hi; f_equal; lia.
  - injection E as _ E. by eapply IH.
Qed.

(** ** Equivalence *)

Lemma lease_flags mine p p' i :
  lease mine nothing p p' -> 0 < mine i -> group_flags p' i = group_flags p i.
Proof.
  intros L Hi. pose proof (le_meta _ _ _ _ L i Hi ltac:(tauto)) as E. unfold group_flags, meta_of in *.
  destruct (packet_of p' i), (packet_of p i); try done. cbn in E.
  by injection E as _ _ _ _ ->.
Qed.

Lemma get_chunk_count_spec mine p b rest :
  (2 <= b)%nat -> rest <> [] -> owned_by mine p -> (forall i, i ∈ rest -> 0 < mine i) ->
  _linkg_link_tx_get_chunk_count rest (Z.of_nat b) p = Some (Z.of_nat (chunk_size (group_flags p) b rest), p).
Proof.
  intros Hb Hr O Hm. unfold _linkg_link_tx_get_chunk_count, chunk_size.
  destruct (decide (length rest <= b)%nat) as [Hl|Hl].
  - replace (Z.of_nat b <? Z.of_nat (length rest)) with false by (symmetry; apply Z.ltb_ge; lia).
    by rewrite Z.eqb_refl.
  - replace (Z.of_nat b <? Z.of_nat (length rest)) with true by (symmetry; apply Z.ltb_lt; lia).
    rewrite (proj2 (Z.eqb_neq _ _)) by lia.
    replace (Z.to_nat (Z.of_nat b - 1)) with (b - 1)%nat by lia. rewrite Nat2Z.id.
    destruct (lookup_lt_is_Some_2 rest (b - 1) ltac:(lia)) as [i Hi].
    destruct (lookup_lt_is_Some_2 rest b ltac:(lia)) as [j Hj]. rewrite Hi, Hj.
    destruct (owned_live mine p i O) as (ki&_&_&Ki); [apply Hm; by eapply list_elem_of_lookup_2|].
    destruct (owned_live mine p j O) as (kj&_&_&Kj); [apply Hm; by eapply list_elem_of_lookup_2|].
    unfold mbind, M_bind. cbn. rewrite (packet_at_eq p i ki Ki), (packet_at_eq p j kj Kj). cbn.
    unfold group_flags. rewrite Ki, Kj. unfold _linkg_link_tx_split_group, splits_group.
    destruct (_ && _); unfold mret, M_ret; do 2 f_equal; lia.
Qed.

Section Chunks.
Context (send_batch : list pkt_ptr -> PM (Z * list Z)) (Hsend : borrows send_batch).
Context (mine : nat -> Z) (b : nat) (Hb : (2 <= b)%nat).

Lemma group_chunks_ext fuel f g rest :
  (forall i, i ∈ rest -> f i = g i) -> group_chunks fuel f b rest = group_chunks fuel g b rest.
Proof.
  revert rest. induction fuel as [|fuel IH]; intros rest H; cbn [group_chunks]; [done|].
  destruct rest as [|x l]; [done|]. set (rest := x :: l) in *.
  assert (chunk_size f b rest = chunk_size g b rest) as ->.
  { unfold chunk_size. case_decide; [done|].
    destruct (rest !! (b - 1)%nat) as [i|] eqn:Ei; [|done]. destruct (rest !! b) as [j|] eqn:Ej; [|done].
    by rewrite !H by (by eapply list_elem_of_lookup_2). }
  f_equal. apply IH. intros i Hi. apply H. rewrite <- (take_drop (chunk_size g b rest) rest). apply elem_of_app. by right.
Qed.

Lemma submit_loop_chunks fuel rest p :
  owned_by mine p -> (forall i, i ∈ rest -> 0 < mine i) -> (length rest <= fuel)%nat ->
  submit_loop send_batch fuel (Z.of_nat b) rest p = send_chunks send_batch (group_chunks fuel (group_flags p) b rest) p.
Proof.
  revert rest p. induction fuel as [|fuel IH]; intros rest p O Hm Hl.
  { by destruct rest; cbn in Hl; [|lia]. }
  destruct rest as [|x l]; [done|]. set (rest := x :: l) in *.
  destruct (chunk_size_range (group_flags p) b rest Hb ltac:(done)) as [Hn _].
  change (submit_loop send_batch (S fuel) (Z.of_nat b) rest) with
    (chunk_count ← _linkg_link_tx_get_chunk_count rest (Z.of_nat b);
      if chunk_count =? 0 then mret (0, - EOVERFLOW, false, replicate (length rest) (- EOVERFLOW))
      else
        sent ← send_batch (take (Z.to_nat chunk_count) rest);
        let '(ret, chunk_results) := sent in
        if ret <? 0 then mret (0, ret, false, replicate (length rest) ret)
        else
          let '(chunk_accepted, chunk_results) := _linkg_link_tx_finalize_chunk chunk_results in
          tail ← submit_loop send_batch fuel (Z.of_nat b) (drop (Z.to_nat chunk_count) rest);
          let '(accepted_count, first_error, _, results) := tail in
          mret (chunk_accepted + accepted_count, first_error, true, chunk_results ++ results)).
  change (group_chunks (S fuel) (group_flags p) b rest) with
    (take (chunk_size (group_flags p) b rest) rest ::
     group_chunks fuel (group_flags p) b (drop (chunk_size (group_flags p) b rest) rest)).
  unfold mbind at 1, M_bind at 1. rewrite (get_chunk_count_spec mine) by done.
  set (n := chunk_size (group_flags p) b rest) in *.
  rewrite (proj2 (Z.eqb_neq _ _)) by lia. rewrite Nat2Z.id. cbn [send_chunks].
  assert (forall i, i ∈ take n rest -> 0 < mine i) as Hm1 by (intros i Hi; apply Hm; by eapply elem_of_take in Hi as (?&?&_); eapply list_elem_of_lookup_2).
  destruct (Hsend mine p (take n rest)) as (ret&rs&p'&E&L&_); [|done|done|].
  { intros E. apply (f_equal length) in E. rewrite length_take in E. cbn in E. lia. }
  unfold mbind, M_bind. rewrite E. destruct (ret <? 0).
  - unfold mret, M_ret. do 5 f_equal. cbn [concat].
    rewrite group_chunks_concat, take_drop by (done || rewrite length_drop; lia). done.
  - cbn [_linkg_link_tx_finalize_chunk].
    assert (forall i, i ∈ drop n rest -> 0 < mine i) as Hm2.
    { intros i Hi. apply Hm. rewrite <- (take_drop n rest). apply elem_of_app. by right. }
    rewrite (IH (drop n rest) p') by (done || apply L || rewrite length_drop; lia).
    rewrite (group_chunks_ext fuel (group_flags p') (group_flags p)); [done|].
    intros i Hi. apply (lease_flags mine); [done|by apply Hm2].
Qed.

Lemma accepted_app l1 l2 : accepted (l1 ++ l2) = accepted l1 + accepted l2.
Proof. apply sumZ_app. Qed.

Lemma accepted_replicate n r : r < 0 -> accepted (replicate n r) = 0.
Proof. intros Hr. induction n as [|n IH]; cbn; [done|]. rewrite (proj2 (Z.eqb_neq r 0)) by lia. exact IH. Qed.

Lemma accepted_range l : 0 <= accepted l <= Z.of_nat (length l).
Proof. induction l as [|x l IH]; cbn; [lia|]. fold (accepted l). destruct (x =? 0); lia. Qed.

Lemma send_chunks_spec cs p :
  owned_by mine p -> Forall (fun c => c <> []) cs -> (forall i, i ∈ concat cs -> 0 < mine i) ->
  exists first_error processed rs p', send_chunks send_batch cs p = Some ((accepted rs, first_error, processed, rs), p') /\
    lease mine nothing p p' /\ length rs = length (concat cs) /\ first_error <= 0 /\
    (cs <> [] -> processed = false -> first_error < 0 /\ accepted rs = 0).
Proof.
  revert p. induction cs as [|c cs IH]; intros p O Hc Hm; cbn [send_chunks].
  { exists 0, false, [], p. by split; [|split; [by apply lease_refl|]]. }
  apply Forall_cons in Hc as [Hc Hcs]. cbn [concat] in Hm.
  destruct (Hsend mine p c) as (ret&rs&p1&E&L&Hl); [done|done|intros; apply Hm, elem_of_app; by left|].
  unfold mbind, M_bind. rewrite E. destruct (ret <? 0) eqn:Er; zb.
  - exists ret, false, (replicate (length (c ++ concat cs)) ret), p1. rewrite accepted_replicate, length_replicate by done.
    split; [done|]. split; [done|]. split; [done|]. split; [lia|done].
  - destruct (IH p1) as (fe&pr&rs2&p2&E2&L2&Hl2&Hfe&_); [apply L|done|intros; apply Hm, elem_of_app; by right|].
    rewrite E2. exists fe, true, ((decided <$> rs) ++ rs2), p2. rewrite accepted_app.
    split; [done|]. split; [by eapply lease_trans|]. cbn [concat]. rewrite !length_app, length_fmap, Hl, Hl2. done.
Qed.

End Chunks.

(** ** Submission *)

Lemma validate_packet_spec mine p i :
  owned_by mine p -> 0 < mine i ->
  exists ret, _linkg_link_validate_tx_packet (Some i) p = Some (ret, p) /\ ret <= 0 /\
    (forall k, packet_of p i = Some k -> 0 < pk_data_length k -> ret = 0).
Proof.
  intros O Hi. destruct (owned_live mine p i O Hi) as (k&Hw&_&Hk).
  destruct (live_wf p i k Hw Hk) as (W&(Ho&Hl&Hs&Hz)&_).
  unfold _linkg_link_validate_tx_packet, mbind, M_bind. rewrite (packet_at_eq p i k Hk).
  rewrite (kwf_pool _ _ _ W), (kwf_slot _ _ _ W). cbn. rewrite pool_deref_eq by done. cbn.
  rewrite (proj2 (Z.ltb_ge _ _)) by lia.
  assert (forall ret, (exists r, Some (ret, p) = Some (r, p) /\ r <= 0 /\
    (forall k0, packet_of p i = Some k0 -> 0 < pk_data_length k0 -> r = 0)) <->
    ret <= 0 /\ (0 < pk_data_length k -> ret = 0)) as Hq.
  { intros ret. split; [intros (r&[= ->]&H1&H2); split; [done|by apply H2]|]. intros [H1 H2]. exists ret.
    split; [done|]. split; [done|]. intros k0 E. rewrite Hk in E. by injection E as <-. }
  destruct (pk_data_length k =? 0) eqn:E0; zb; [apply Hq; split; [done|lia]|].
  rewrite wrap_small by (unfold in_range; lia). rewrite (proj2 (Z.ltb_ge _ _)) by lia. apply Hq. lia.
Qed.

Lemma validate_packets_spec mine p l :
  owned_by mine p -> (forall i, i ∈ l -> 0 < mine i) ->
  exists ret n, validate_packets (Some <$> l) p = Some ((ret, n), p) /\ ret <= 0 /\ (n <= length l)%nat /\
    (ret = 0 -> n = length l) /\
    ((forall i k, i ∈ l -> packet_of p i = Some k -> 0 < pk_data_length k) -> ret = 0).
Proof.
  intros O. induction l as [|i l IH]; intros Hm; cbn [validate_packets fmap list_fmap]; [by exists 0, 0%nat|].
  destruct (validate_packet_spec mine p i O) as (ret&E&Hr&H0); [apply Hm; left|].
  destruct IH as (ret2&n&E2&Hr2&Hn&Hz&Ha); [intros; apply Hm; by right|].
  unfold mbind, M_bind. rewrite E. destruct (Z.eqb_spec ret 0) as [->|Hne]; cbn [negb].
  - change (list_fmap _ _ Some l) with (Some <$> l). rewrite E2. exists ret2, (S n). cbn [length].
    split; [done|]. split; [done|]. split; [lia|]. split; [intros Ez; by rewrite Hz|]. intros Hall. apply Ha.
    intros j k Hj. apply Hall. by right.
  - exists ret, 0%nat. split; [done|]. split; [done|]. split; [lia|]. split; [done|]. intros Hall.
    destruct (owned_live mine p i O) as (k&_&_&Hk); [apply Hm; left|]. apply (H0 k); [done|]. apply (Hall i); [left|done].
Qed.

Definition batch_size_ok (link : option linkg_link) : Prop :=
  forall lk runtime, link = Some lk -> lk_runtime lk = Some runtime ->
    lr_tx_batch_size runtime = 0 \/ 2 <= lr_tx_batch_size runtime.

Lemma omap_id_some {A} (l : list A) : omap id (Some <$> l) = l.
Proof. induction l as [|x l IH]; cbn; [done|]. f_equal. exact IH. Qed.

Lemma link_batch_spec send_batch mine p link link' path path' tx_class destination l rs :
  borrows send_batch -> owned_by mine p -> (forall i, i ∈ l -> 0 < mine i) -> batch_size_ok link ->
  length rs = length l ->
  exists ret out p',
    linkg_link_submit_batch send_batch link link' path path' tx_class destination (Some (Some <$> l)) (Some rs) p =
      Some ((ret, Some out), p') /\
    lease mine nothing p p' /\ length out = length l /\ (0 <= ret -> ret = accepted out /\ l <> []).
Proof.
  intros Hs O Hm Hb Hl. assert (forall e, e < 0 -> exists ret out p', Some ((e, Some rs), p) = Some ((ret, Some out), p') /\
    lease mine nothing p p' /\ length out = length l /\ (0 <= ret -> ret = accepted out /\ l <> [])) as Hrefuse.
  { intros e He. exists e, rs, p. split; [done|]. split; [by apply lease_refl|]. split; [done|lia]. }
  unfold linkg_link_submit_batch.
  destruct link as [lk|]; [|by apply Hrefuse]. destruct path as [pa|]; [|by apply Hrefuse].
  destruct destination as [en|]; [|by apply Hrefuse].
  destruct l as [|x l]; [by apply Hrefuse|]. set (ps := x :: l) in *. rewrite bool_decide_false by done.
  destruct (_linkg_link_tx_class_valid tx_class); cbn [negb]; [|by apply Hrefuse].
  destruct (lk_runtime lk) as [rt|] eqn:Ert; [|by apply Hrefuse]. destruct (lk_ops lk) as [ops|]; [|by apply Hrefuse].
  destruct (negb _ || _); [by apply Hrefuse|]. destruct (negb _); [by apply Hrefuse|].
  destruct (lr_tx_batch_size rt =? 0) eqn:Eb; [by apply Hrefuse|]. zb.
  destruct (Hb lk rt eq_refl Ert) as [?|Hb2]; [done|].
  destruct (validate_packets_spec mine p ps O Hm) as (ret&n&E&Hr&Hn&Hz&_). unfold mbind, M_bind. rewrite E. cbv zeta.
  assert (forall e, e < 0 -> exists ret out p',
    Some ((e, Some (replicate n (- EINPROGRESS) ++ drop n rs)), p) = Some ((ret, Some out), p') /\
    lease mine nothing p p' /\ length out = length ps /\ (0 <= ret -> ret = accepted out /\ ps <> [])) as Hpending.
  { intros e He. exists e, (replicate n (- EINPROGRESS) ++ drop n rs), p. split; [done|]. split; [by apply lease_refl|].
    rewrite length_app, length_replicate, length_drop. split; [lia|lia]. }
  destruct (Z.eqb_spec ret 0) as [->|Hne]; cbn [negb]; [|apply Hpending; lia].
  destruct (negb _); [by apply Hpending|]. destruct (negb _ || negb _); [by apply Hpending|].
  destruct (negb _); [by apply Hpending|].
  rewrite omap_id_some, length_fmap.
  replace (lr_tx_batch_size rt) with (Z.of_nat (Z.to_nat (lr_tx_batch_size rt))) by lia.
  set (bs := Z.to_nat (lr_tx_batch_size rt)). assert (2 <= bs)%nat as Hbs by lia.
  rewrite (submit_loop_chunks send_batch Hs mine bs Hbs) by done.
  set (cs := group_chunks _ _ _ _). assert (concat cs = ps) as Hc by (by apply group_chunks_concat).
  destruct (send_chunks_spec send_batch Hs mine bs Hbs cs p) as (fe&pr&out&p'&E2&L2&Hl2&Hfe&Hpr); [done| |by rewrite Hc|].
  { eapply Forall_impl; [apply (group_chunks_sizes _ _ bs ps Hbs)|]. intros c Hc' ->. cbn in Hc'. lia. }
  rewrite E2. rewrite Hc in Hl2. eexists _, out, p'. split; [reflexivity|]. split; [done|]. split; [done|].
  intros H0. split; [|done]. destruct pr; [done|]. destruct Hpr as [Hneg _]; [|done|].
  - intros Ec. by rewrite Ec in Hc.
  - rewrite (proj2 (Z.eqb_neq fe 0)) in H0 by lia. cbn in H0. lia.
Qed.

(** C33: handing a batch to a link hands consecutive chunks of it to the concrete
    link, each of at least one packet and at most the link's batch size, and never
    ends a chunk between the first and the last packet of an atomic group. *)
Theorem link_chunks_keep_groups send_batch mine (b : nat) p l :
  borrows send_batch -> (2 <= b)%nat -> owned_by mine p -> (forall i, i ∈ l -> 0 < mine i) ->
  let chunks := group_chunks (length l) (group_flags p) b l in
  submit_loop send_batch (length l) (Z.of_nat b) l p = send_chunks send_batch chunks p /\
  concat chunks = l /\ Forall (fun c => (1 <= length c <= b)%nat) chunks /\
  (forall cs1 c d cs2 i j, chunks = cs1 ++ c :: d :: cs2 -> last c = Some i -> head d = Some j ->
     splits_group (group_flags p i) (group_flags p j) = false).
Proof.
  intros Hs Hb O Hm chunks. split; [by apply (submit_loop_chunks send_batch Hs mine b Hb)|].
  split; [by apply group_chunks_concat|]. split; [by apply group_chunks_sizes|].
  intros cs1 c d cs2 i j. by apply group_chunks_boundary.
Qed.


(** ** Instances *)

Definition demo_send (l : list pkt_ptr) : PM (Z * list Z) := mret (Z.of_nat (length l), replicate (length l) 0).

Lemma demo_send_borrows : borrows demo_send.
Proof.
  intros mine p l _ O _. exists (Z.of_nat (length l)), (replicate (length l) 0), p.
  split; [done|]. split; [by apply lease_refl|]. by rewrite length_replicate.
Qed.

Definition demo_hold (j : nat) : Z := if decide (j = 1%nat) then 1 else 0.

Lemma demo_owned : owned_by demo_hold (frame_pool 100).
Proof.
  pose proof (frame_pool_live 100 ltac:(lia)) as (W&R&K). split; [done|]. intros j. unfold demo_hold.
  case_decide as Hj; [subst; lia|]. split; [lia|]. apply refs_nonneg; done.
Qed.

Definition demo_link : linkg_link :=
  Link 1 [119] 1 (Some (LinkOps 256 true true true true true true true true)) (Some 0%nat)
    (Some (LinkRuntime thread_zero 32 32 None 0 true)) LINKG_LINK_STATE_RUNNING.

Definition demo_path : linkg_path := Path linkg_path_stats_reset 1 endpoint_zero 1 LINKG_PATH_STATE_ACTIVE None 0 true.

Lemma link_chunks_keep_groups_witness :
  submit_loop demo_send 1 2 [1%nat] (frame_pool 100) =
    send_chunks demo_send (group_chunks 1 (group_flags (frame_pool 100)) 2 [1%nat]) (frame_pool 100).
Proof.
  refine (proj1 (link_chunks_keep_groups demo_send demo_hold 2 (frame_pool 100) [1%nat] demo_send_borrows _ demo_owned _)).
  - lia.
  - intros i ->%list_elem_of_singleton. done.
Defined.

