(* ===== verification/LinkLife.v ===== *)
(** * Life cycle of a link  (core/link/linkg_link.c, core/link/link_runtime.c)

    Creation and destruction, which no other thread takes part in, are computations
    over the resources that are alive. Starting and stopping run beside each other
    and beside the users of the link, so they are programs of accesses to the link,
    operations on its locks and thread, and calls of the concrete link; so are, for
    their part that concerns the life cycle, the submission and the purge of
    link_tx.c, whose sequential models are in [Link]. *)

From S2P Require Import Prelude.
From S2P Require Import PacketPool.
From S2P Require Import LinkPath.
From S2P Require Import Thread.
From S2P Require Import Link.

(** ** Constants and data *)

Definition LINKG_LINK_RX_THREAD_NAME_SIZE := 16.
Definition LINKG_LINK_RX_THREAD_CPU_CORE := 1.

(** The number of [linkg_link_rx_thread], and the addresses the thread is given. *)
Definition rx_thread_function := 1.
Definition rx_thread_link := 1.

Record linkg_link_config := LinkConfig {
  lc_name : option (list Z);
  lc_access : Z;
  lc_tx_batch_size : Z;
  lc_rx_batch_size : Z;
  lc_packet_pool : option pool_ptr;
  lc_receive : option Z;
  lc_receive_user_data : Z }.

(** *** Updates of one field *)

Definition set_link_state (state : Z) (l : linkg_link) : linkg_link :=
  Link (lk_id l) (lk_name l) (lk_access l) (lk_ops l) (lk_packet_pool l) (lk_runtime l) state.
Definition set_link_runtime (runtime : option linkg_link_runtime) (l : linkg_link) : linkg_link :=
  Link (lk_id l) (lk_name l) (lk_access l) (lk_ops l) (lk_packet_pool l) runtime (lk_state l).
Definition set_runtime_opened (opened : bool) (r : linkg_link_runtime) : linkg_link_runtime :=
  LinkRuntime (lr_rx_thread r) (lr_tx_batch_size r) (lr_rx_batch_size r) (lr_receive r) (lr_receive_user_data r) opened.
Definition set_runtime_thread (t : linkg_thread) (r : linkg_link_runtime) : linkg_link_runtime :=
  LinkRuntime t (lr_tx_batch_size r) (lr_rx_batch_size r) (lr_receive r) (lr_receive_user_data r) (lr_opened r).
Definition set_opened (opened : bool) (l : linkg_link) : linkg_link :=
  set_link_runtime (set_runtime_opened opened <$> lk_runtime l) l.
Definition set_thread (t : linkg_thread) (l : linkg_link) : linkg_link :=
  set_link_runtime (set_runtime_thread t <$> lk_runtime l) l.

(** What the manager writes to a link it registers or lets go. *)
Definition set_registration (id : Z) (receive : option Z) (data : Z) (l : linkg_link) : linkg_link :=
  Link id (lk_name l) (lk_access l) (lk_ops l) (lk_packet_pool l)
    ((fun r => LinkRuntime (lr_rx_thread r) (lr_tx_batch_size r) (lr_rx_batch_size r) receive data (lr_opened r)) <$> lk_runtime l)
    (lk_state l).

Definition link_opened (l : linkg_link) : bool := from_option lr_opened false (lk_runtime l).
Definition link_thread (l : linkg_link) : option linkg_thread := lr_rx_thread <$> lk_runtime l.

(** ** Creation and destruction *)

(** How many of each resource are alive; [lh_concrete] counts what [ops->init] set up. *)
Record link_heap := LinkHeap {
  lh_links : Z;
  lh_runtimes : Z;
  lh_items : Z;
  lh_control_locks : Z;
  lh_io_locks : Z;
  lh_eventfds : Z;
  lh_concrete : Z }.

Definition add_links (n : Z) (h : link_heap) :=
  LinkHeap (lh_links h + n) (lh_runtimes h) (lh_items h) (lh_control_locks h) (lh_io_locks h) (lh_eventfds h) (lh_concrete h).
Definition add_runtimes (n : Z) (h : link_heap) :=
  LinkHeap (lh_links h) (lh_runtimes h + n) (lh_items h) (lh_control_locks h) (lh_io_locks h) (lh_eventfds h) (lh_concrete h).
Definition add_items (n : Z) (h : link_heap) :=
  LinkHeap (lh_links h) (lh_runtimes h) (lh_items h + n) (lh_control_locks h) (lh_io_locks h) (lh_eventfds h) (lh_concrete h).
Definition add_control_locks (n : Z) (h : link_heap) :=
  LinkHeap (lh_links h) (lh_runtimes h) (lh_items h) (lh_control_locks h + n) (lh_io_locks h) (lh_eventfds h) (lh_concrete h).
Definition add_io_locks (n : Z) (h : link_heap) :=
  LinkHeap (lh_links h) (lh_runtimes h) (lh_items h) (lh_control_locks h) (lh_io_locks h + n) (lh_eventfds h) (lh_concrete h).
Definition add_eventfds (n : Z) (h : link_heap) :=
  LinkHeap (lh_links h) (lh_runtimes h) (lh_items h) (lh_control_locks h) (lh_io_locks h) (lh_eventfds h + n) (lh_concrete h).
Definition add_concrete (n : Z) (h : link_heap) :=
  LinkHeap (lh_links h) (lh_runtimes h) (lh_items h) (lh_control_locks h) (lh_io_locks h) (lh_eventfds h) (lh_concrete h + n).

(** The results of the calls; a lock that cannot be destroyed is only logged. *)
Record link_api := LinkApi {
  la_link_size : Z;                  (* sizeof(linkg_link_t) *)
  la_thread : thread_api;
  la_calloc_link : bool;
  la_calloc_runtime : bool;
  la_calloc_items : bool;
  la_control_init : Z;
  la_io_init : Z;
  la_init : Z;                       (* ops->init *)
  la_io_destroy : Z;
  la_control_destroy : Z }.

Abbreviation HM := (M link_heap).

(** The labels [fail_runtime] ... [fail_rx_items]. *)
Definition fail_runtime (ret : Z) : HM (Z * option linkg_link_runtime) :=
  modify (add_runtimes (-1)) ;; mret (ret, None).
Definition fail_control_lock (ret : Z) : HM (Z * option linkg_link_runtime) :=
  modify (add_control_locks (-1)) ;; fail_runtime ret.
Definition fail_io_lock (ret : Z) : HM (Z * option linkg_link_runtime) :=
  modify (add_io_locks (-1)) ;; fail_control_lock ret.
Definition fail_rx_items (ret : Z) : HM (Z * option linkg_link_runtime) :=
  modify (add_items (-1)) ;; fail_io_lock ret.

(** [snprintf(rx_thread_name, ..., "rx-%s", link->name)]. *)
Definition rx_thread_name (name : list Z) : list Z := [114; 120; 45] ++ name.

(** The code and the runtime set in [link->runtime]. *)
Definition linkg_link_runtime_create (api : link_api) (link : option linkg_link) (config : option linkg_link_config)
    : HM (Z * option linkg_link_runtime) :=
  match link, config with
  | Some lk, Some cfg =>
      if bool_decide (lk_runtime lk <> None) then mret (- EALREADY, lk_runtime lk)
      else if (lc_tx_batch_size cfg =? 0) || (lc_rx_batch_size cfg =? 0) then mret (- EINVAL, None)
      else if negb (la_calloc_runtime api) then mret (- ENOMEM, None)
      else
        modify (add_runtimes 1) ;;
        if negb (la_control_init api =? 0) then fail_runtime (- la_control_init api)
        else
          modify (add_control_locks 1) ;;
          if negb (la_io_init api =? 0) then fail_control_lock (- la_io_init api)
          else
            modify (add_io_locks 1) ;;
            if negb (la_calloc_items api) then fail_io_lock (- ENOMEM)
            else
              modify (add_items 1) ;;
              let name := rx_thread_name (lk_name lk) in
              if LINKG_LINK_RX_THREAD_NAME_SIZE <=? Z.of_nat (length name) then fail_rx_items (- EINVAL)
              else
                let thread_config := ThreadConfig 0 LINKG_LINK_RX_THREAD_CPU_CORE 0 0 true false in
                let '(ret, thread) := linkg_thread_init_with_config (la_thread api) (Some name) (Some rx_thread_function)
                                        rx_thread_link (Some thread_config) (Some thread_zero) in
                if negb (ret =? 0) then fail_rx_items ret
                else
                  modify (add_eventfds 1) ;;
                  mret (0, Some (LinkRuntime (default thread_zero thread) (lc_tx_batch_size cfg) (lc_rx_batch_size cfg)
                                   (lc_receive cfg) (lc_receive_user_data cfg) false))
  | _, _ => mret (- EINVAL, None)
  end.

Definition linkg_link_runtime_destroy (api : link_api) (link : option linkg_link) : HM (option linkg_link) :=
  match link with
  | Some lk =>
      match lk_runtime lk with
      | Some runtime =>
          let '(_, closed) := linkg_thread_deinit (la_thread api) (Some (lr_rx_thread runtime)) in
          modify (add_eventfds (- closed)) ;;
          when (la_io_destroy api =? 0) (modify (add_io_locks (-1))) ;;
          when (la_control_destroy api =? 0) (modify (add_control_locks (-1))) ;;
          modify (add_items (-1)) ;;
          modify (add_runtimes (-1)) ;;
          mret (Some (set_link_runtime None lk))
      | None => mret link
      end
  | None => mret link
  end.

(** The code and [*out]; [out] is whether the pointer is not [NULL]. *)
Definition linkg_link_create (api : link_api) (config : option linkg_link_config) (ops : option linkg_link_ops) (out : bool)
    : HM (Z * option linkg_link) :=
  match config, ops, out with
  | Some cfg, Some o, true =>
      match lc_name cfg, lc_packet_pool cfg with
      | Some name, Some pool =>
          if lo_instance_size o <? la_link_size api then mret (- EINVAL, None)
          else if negb (lo_init o) || negb (lo_deinit o) || negb (lo_open o) || negb (lo_close o) then mret (- EINVAL, None)
          else if negb (lo_get_rx_fd o) || negb (lo_send_batch o) || negb (lo_receive_batch o) || negb (lo_purge_tx_path o)
          then mret (- EINVAL, None)
          else if negb (la_calloc_link api) then mret (- ENOMEM, None)
          else
            modify (add_links 1) ;;
            let lk := Link LINKG_LINK_ID_INVALID (take (Z.to_nat (LINKG_LINK_NAME_MAX - 1)) name) (lc_access cfg) ops
                        (Some pool) None LINKG_LINK_STATE_STOPPED in
            created ← linkg_link_runtime_create api (Some lk) config;
            let '(ret, runtime) := created in
            if negb (ret =? 0) then modify (add_links (-1)) ;; mret (ret, None)
            else
              let lk := set_link_runtime runtime lk in
              if negb (la_init api =? 0) then
                linkg_link_runtime_destroy api (Some lk) ;; modify (add_links (-1)) ;; mret (la_init api, None)
              else modify (add_concrete 1) ;; mret (0, Some lk)
      | _, _ => mret (- EINVAL, None)
      end
  | _, _, _ => mret (- EINVAL, None)
  end.

Definition linkg_link_destroy (api : link_api) (link : option linkg_link) : HM unit :=
  match link with
  | None => mret tt
  | Some lk =>
      if negb (lk_state lk =? LINKG_LINK_STATE_STOPPED) then mret tt
      else
        when (from_option lo_deinit false (lk_ops lk)) (modify (add_concrete (-1))) ;;
        linkg_link_runtime_destroy api link ;;
        modify (add_links (-1))
  end.

(** ** Queries *)

Definition linkg_link_get_id (link : option linkg_link) : Z := from_option lk_id LINKG_LINK_ID_INVALID link.
Definition linkg_link_get_name (link : option linkg_link) : option (list Z) := lk_name <$> link.
Definition linkg_link_get_access (link : option linkg_link) : Z := from_option lk_access LINKG_LINK_ACCESS_NONE link.
Definition linkg_link_get_state (link : option linkg_link) : Z := from_option lk_state LINKG_LINK_STATE_STOPPED link.
Definition linkg_link_is_running (link : option linkg_link) : bool :=
  linkg_link_get_state link =? LINKG_LINK_STATE_RUNNING.

(** ** Programs over a link *)

(** The calls of the concrete link, with their result as answer. *)
Inductive concrete := Open | Close | Send | Purge.
#[export] Instance concrete_eq_dec : EqDecision concrete.
Proof. solve_decision. Defined.

(** An access is one atomic load or store, one access to a field, or a section
    under [control_lock]. *)
Inductive lprog :=
  | Done (ret : Z)
  | Access (f : linkg_link -> linkg_link * lprog)
  | Call (c : concrete) (k : Z -> lprog)
  | Thread_start (k : Z -> lprog)
  | Thread_stop (k : Z -> lprog)
  | Read_lock (p : lprog)
  | Write_lock (p : lprog)
  | Unlock (p : lprog).

Definition read_link (k : linkg_link -> lprog) : lprog := Access (fun l => (l, k l)).

(** *** linkg_link_start *)

Definition fail_stopped (ret : Z) : lprog := Access (fun l => (set_link_state LINKG_LINK_STATE_STOPPED l, Done ret)).
Definition fail_failed (ret : Z) : lprog := Access (fun l => (set_link_state LINKG_LINK_STATE_FAILED l, Done ret)).
Definition fail_close (ret : Z) : lprog :=
  Call Close (fun cleanup_ret =>
    if negb (cleanup_ret =? 0) then fail_failed ret
    else Access (fun l => (set_opened false l, fail_stopped ret))).

(** From [STARTING] on. *)
Definition start_opening : lprog :=
  Call Open (fun ret =>
    if negb (ret =? 0) then fail_stopped ret
    else Access (fun l => (set_opened true l,
      Thread_start (fun ret =>
        if negb (ret =? 0) then fail_close ret
        else Access (fun l => (set_link_state LINKG_LINK_STATE_RUNNING l, Done 0)))))).

Definition linkg_link_start (null : bool) : lprog :=
  if null then Done (- EINVAL)
  else read_link (fun l =>
    match lk_runtime l, lk_ops l with
    | Some _, Some ops =>
        if negb (lo_open ops) || negb (lo_close ops) then Done (- EINVAL)
        else Access (fun l =>
          if lk_state l =? LINKG_LINK_STATE_RUNNING then (l, Done (- EALREADY))
          else if negb (lk_state l =? LINKG_LINK_STATE_STOPPED) then (l, Done (- EBUSY))
          else (set_link_state LINKG_LINK_STATE_STARTING l, start_opening))
    | _, _ => Done (- EINVAL)
    end).

(** *** linkg_link_stop *)

Definition stop_finish (cleanup_complete : bool) (first_error : Z) : lprog :=
  Access (fun l => (set_link_state (if cleanup_complete then LINKG_LINK_STATE_STOPPED else LINKG_LINK_STATE_FAILED) l,
                    Done first_error)).

Definition stop_close (first_error : Z) : lprog :=
  Write_lock (read_link (fun l =>
    if link_opened l then
      Call Close (fun ret =>
        if negb (ret =? 0) then Unlock (stop_finish false (if first_error =? 0 then ret else first_error))
        else Access (fun l => (set_opened false l, Unlock (stop_finish true first_error))))
    else Unlock (stop_finish true first_error))).

(** From the second test of the thread on. *)
Definition stop_thread_gone (first_error : Z) : lprog :=
  read_link (fun l =>
    if negb (linkg_thread_is_started (link_thread l)) then stop_close first_error
    else stop_finish false (if first_error =? 0 then - EBUSY else first_error)).

(** From [STOPPING] on. *)
Definition stop_closing : lprog :=
  read_link (fun l =>
    if linkg_thread_is_started (link_thread l) then Thread_stop stop_thread_gone
    else stop_thread_gone 0).

Definition linkg_link_stop (null : bool) : lprog :=
  if null then Done (- EINVAL)
  else read_link (fun l =>
    match lk_runtime l, lk_ops l with
    | Some _, Some ops =>
        if negb (lo_close ops) then Done (- EINVAL)
        else Access (fun l =>
          let state := lk_state l in
          if state =? LINKG_LINK_STATE_STOPPED then (l, Done 0)
          else if (state =? LINKG_LINK_STATE_STARTING) || (state =? LINKG_LINK_STATE_STOPPING) then (l, Done (- EBUSY))
          else if negb (state =? LINKG_LINK_STATE_RUNNING) && negb (state =? LINKG_LINK_STATE_FAILED)
          then (l, Done (- EINVAL))
          else (set_link_state LINKG_LINK_STATE_STOPPING l, stop_closing))
    | _, _ => Done (- EINVAL)
    end).

(** *** The users of a link *)

(** At most [n] calls of the concrete link, until one fails. *)
Fixpoint send_calls (n : nat) : lprog :=
  match n with
  | O => Unlock (Done 0)
  | S n' => Call Send (fun ret => if ret <? 0 then Unlock (Done ret) else send_calls n')
  end.

(** [linkg_link_submit_batch] of a batch that passed the checks of its arguments:
    [active] is what it reads of the path, [n] the number of chunks. *)
Definition submit_protocol (path_link_id : Z) (active : bool) (n : nat) : lprog :=
  read_link (fun l =>
    match lk_runtime l, lk_ops l with
    | Some runtime, Some ops =>
        if negb (lo_send_batch ops) || (lk_id l =? LINKG_LINK_ID_INVALID) then Done (- ENODEV)
        else if negb (path_link_id =? lk_id l) then Done (- EXDEV)
        else if lr_tx_batch_size runtime =? 0 then Done (- EINVAL)
        else read_link (fun l =>
          if negb (lk_state l =? LINKG_LINK_STATE_RUNNING) then Done (- ENETDOWN)
          else Read_lock (read_link (fun l =>
            if negb (lk_state l =? LINKG_LINK_STATE_RUNNING) then Unlock (Done (- ENETDOWN))
            else read_link (fun l =>
              if negb (link_opened l) then Unlock (Done (- ENETDOWN))
              else if negb active then Unlock (Done (- ENODEV))
              else send_calls n))))
    | _, _ => Done (- ENODEV)
    end).

(** [linkg_link_purge_tx_path]. *)
Definition purge_protocol (path_link_id : Z) (active : bool) : lprog :=
  read_link (fun l =>
    match lk_runtime l, lk_ops l with
    | Some _, Some ops =>
        if negb (lo_purge_tx_path ops) || (lk_id l =? LINKG_LINK_ID_INVALID) then Done (- ENODEV)
        else if negb (path_link_id =? lk_id l) then Done (- EXDEV)
        else if active then Done (- EBUSY)
        else Read_lock (read_link (fun l =>
          if negb (link_opened l) then Unlock (Done 0)
          else Call Purge (fun ret => Unlock (Done ret))))
    | _, _ => Done (- ENODEV)
    end).
