(* ===== verification/LinkLifeSafety.v ===== *)
(** * Links: starting, stopping and using a link at the same time

    Any number of threads start, stop, use and purge one link; the receive thread
    may end and the manager may register the link at any time. What a thread holds
    and knows is followed along its program ([ok]), what the threads hold together
    is the invariant ([core]). *)

From S2P Require Import Prelude.
From S2P Require Import PacketPool.
From S2P Require Import Thread.
From S2P Require Import Link.
From S2P Require Import LinkLife.

(** ** The system *)

(** [sy_conc]: the concrete link is open. *)
Record link_sys := LinkSys {
  sy_link : linkg_link;
  sy_conc : bool;
  sy_readers : Z;
  sy_writer : bool;
  sy_threads : list lprog }.

Inductive link_call :=
  | Call_start (null : bool)
  | Call_stop (null : bool)
  | Call_submit (path_link_id : Z) (active : bool) (n : nat)
  | Call_purge (path_link_id : Z) (active : bool).

Definition thread_of (c : link_call) : lprog :=
  match c with
  | Call_start null => linkg_link_start null
  | Call_stop null => linkg_link_stop null
  | Call_submit id active n => submit_protocol id active n
  | Call_purge id active => purge_protocol id active
  end.

Definition conc_after (c : concrete) (z : Z) (conc : bool) : bool :=
  match c with
  | Open => (z =? 0) || conc
  | Close => negb (z =? 0) && conc
  | _ => conc
  end.

Inductive link_step : link_sys -> link_sys -> Prop :=
  | Step_new c l o r w T : link_step (LinkSys l o r w T) (LinkSys l o r w (T ++ [thread_of c]))
  | Step_access l l' p f o r w T i : T !! i = Some (Access f) -> f l = (l', p) ->
      link_step (LinkSys l o r w T) (LinkSys l' o r w (<[i := p]> T))
  | Step_concrete l c k z o r w T i : T !! i = Some (Call c k) ->
      link_step (LinkSys l o r w T) (LinkSys l (conc_after c z o) r w (<[i := k z]> T))
  | Step_thread_start l k api t z t' o r w T i : T !! i = Some (Thread_start k) -> link_thread l = Some t ->
      linkg_thread_start api (Some t) = (z, Some t') ->
      link_step (LinkSys l o r w T) (LinkSys (set_thread t' l) o r w (<[i := k z]> T))
  | Step_thread_stop l k api t z t' o r w T i : T !! i = Some (Thread_stop k) -> link_thread l = Some t ->
      linkg_thread_stop api (Some t) = (z, Some t') ->
      link_step (LinkSys l o r w T) (LinkSys (set_thread t' l) o r w (<[i := k z]> T))
  | Step_thread_exit l t o r w T : link_thread l = Some t ->
      link_step (LinkSys l o r w T) (LinkSys (set_thread (_thread_entry t) l) o r w T)
  | Step_read_lock l p o r T i : T !! i = Some (Read_lock p) ->
      link_step (LinkSys l o r false T) (LinkSys l o (r + 1) false (<[i := p]> T))
  | Step_write_lock l p o T i : T !! i = Some (Write_lock p) ->
      link_step (LinkSys l o 0 false T) (LinkSys l o 0 true (<[i := p]> T))
  | Step_unlock l p o r w T i : T !! i = Some (Unlock p) ->
      link_step (LinkSys l o r w T) (LinkSys l o (if w then r else r - 1) false (<[i := p]> T))
  | Step_manage id receive data l o r w T :
      link_step (LinkSys l o r w T) (LinkSys (set_registration id receive data l) o r w T).

(** From a link that was created, and that nobody uses yet. *)
Inductive link_reachable : link_sys -> Prop :=
  | Link_init api config ops h h' l : linkg_link_create api config ops true h = Some ((0, Some l), h') ->
      link_reachable (LinkSys l false 0 false [])
  | Link_next s s' : link_reachable s -> link_step s s' -> link_reachable s'.

(** ** What a thread holds and knows *)

(** What it holds of [io_lock]; a sender has seen the link running, a purger open. *)
Inductive io := IoNone | IoRead | IoSend | IoPurge | IoWrite.

Record facts := Facts {
  fa_state : Z;
  fa_opened : bool;
  fa_conc : bool;
  fa_started : bool }.

(** The thread that set [STARTING] or [STOPPING] knows the facts: only it changes them. *)
Record who := Who { wh_life : option facts; wh_io : io }.

Definition facts_of (l : linkg_link) (conc : bool) : facts :=
  Facts (lk_state l) (link_opened l) conc (linkg_thread_is_started (link_thread l)).

Definition link_ok (l : linkg_link) : Prop := exists r, lk_runtime l = Some r /\ th_initialized (lr_rx_thread r) = true.

Definition busy (f : facts) : bool :=
  (fa_state f =? LINKG_LINK_STATE_STARTING) || (fa_state f =? LINKG_LINK_STATE_STOPPING).

(** Stopped, running or failed. *)
Definition rest_ok (f : facts) : Prop :=
  f = Facts LINKG_LINK_STATE_STOPPED false false false \/
  f = Facts LINKG_LINK_STATE_RUNNING true true true \/
  (fa_state f = LINKG_LINK_STATE_FAILED /\ fa_opened f = true /\ fa_conc f = true).

Definition facts_ok (f : facts) : Prop :=
  (busy f = true \/ rest_ok f) /\ (fa_started f = true -> fa_conc f = true).

Definition sendable (f : facts) : Prop :=
  fa_opened f = true /\ fa_conc f = true /\ fa_state f <> LINKG_LINK_STATE_STARTING.

Inductive moves (conc : bool) : who -> linkg_link -> linkg_link -> who -> Prop :=
  | Mv_read w l : moves conc w l l w
  | Mv_enter l : lk_state l = LINKG_LINK_STATE_RUNNING -> moves conc (Who None IoRead) l l (Who None IoSend)
  | Mv_purge l : moves conc (Who None IoRead) l l (Who None IoPurge)
  | Mv_start l : lk_state l = LINKG_LINK_STATE_STOPPED ->
      moves conc (Who None IoNone) l (set_link_state LINKG_LINK_STATE_STARTING l)
        (Who (Some (Facts LINKG_LINK_STATE_STARTING false false false)) IoNone)
  | Mv_stop l started : lk_state l = LINKG_LINK_STATE_RUNNING \/ lk_state l = LINKG_LINK_STATE_FAILED ->
      linkg_thread_is_started (link_thread l) = started ->
      moves conc (Who None IoNone) l (set_link_state LINKG_LINK_STATE_STOPPING l)
        (Who (Some (Facts LINKG_LINK_STATE_STOPPING true true started)) IoNone)
  | Mv_opened l st op started io :
      moves conc (Who (Some (Facts st op true started)) io) l (set_opened true l) (Who (Some (Facts st true true started)) io)
  | Mv_closed l st op started io :
      moves conc (Who (Some (Facts st op false started)) io) l (set_opened false l) (Who (Some (Facts st false false started)) io)
  | Mv_release l f st : rest_ok (Facts st (fa_opened f) (fa_conc f) (fa_started f)) ->
      moves conc (Who (Some f) IoNone) l (set_link_state st l) (Who None IoNone).

Definition sees (w : who) (l : linkg_link) (conc : bool) : Prop :=
  link_ok l /\ facts_ok (facts_of l conc) /\
  (forall f, wh_life w = Some f -> facts_of l conc = f) /\
  (wh_io w = IoSend -> sendable (facts_of l conc)).

(** A program that respects what it holds and ends holding nothing. *)
Fixpoint ok (w : who) (p : lprog) : Prop :=
  match p with
  | Done _ => w = Who None IoNone
  | Access f => forall l conc, sees w l conc -> let '(l', p') := f l in exists w', moves conc w l l' w' /\ ok w' p'
  | Call Open k => w = Who (Some (Facts LINKG_LINK_STATE_STARTING false false false)) IoNone /\
      forall z, ok (Who (Some (Facts LINKG_LINK_STATE_STARTING false (z =? 0) false)) IoNone) (k z)
  | Call Close k => exists st io, w = Who (Some (Facts st true true false)) io /\
      (st = LINKG_LINK_STATE_STARTING /\ io = IoNone \/ st = LINKG_LINK_STATE_STOPPING /\ io = IoWrite) /\
      forall z, ok (Who (Some (Facts st true (negb (z =? 0)) false)) io) (k z)
  | Call Send k => w = Who None IoSend /\ forall z, ok w (k z)
  | Call Purge k => w = Who None IoPurge /\ forall z, ok w (k z)
  | Thread_start k => exists st op, w = Who (Some (Facts st op true false)) IoNone /\
      forall z, ok (Who (Some (Facts st op true (z =? 0))) IoNone) (k z)
  | Thread_stop k => exists st op conc, w = Who (Some (Facts st op conc true)) IoNone /\
      forall z, ok (Who (Some (Facts st op conc (negb (z =? 0)))) IoNone) (k z)
  | Read_lock p' => w = Who None IoNone /\ ok (Who None IoRead) p'
  | Write_lock p' => exists f, w = Who (Some f) IoNone /\ ok (Who (Some f) IoWrite) p'
  | Unlock p' => wh_io w <> IoNone /\ ok (Who (wh_life w) IoNone) p'
  end.

(** ** The functions respect it *)

Lemma ok_read w k : (forall l conc, sees w l conc -> ok w (k l)) -> ok w (read_link k).
Proof. intros H l conc Hs. exists w. split; [constructor|by eapply H]. Qed.

Definition starting (op conc started : bool) : who := Who (Some (Facts LINKG_LINK_STATE_STARTING op conc started)) IoNone.
Definition stopping (op conc started : bool) (io : io) : who :=
  Who (Some (Facts LINKG_LINK_STATE_STOPPING op conc started)) io.
Definition idle : who := Who None IoNone.

Ltac rest := unfold rest_ok; cbn; auto.

Lemma ok_fail_stopped ret : ok (starting false false false) (fail_stopped ret).
Proof. intros l conc _. exists idle. split; [|done]. apply Mv_release. rest. Qed.

Lemma ok_fail_close ret : ok (starting true true false) (fail_close ret).
Proof.
  exists LINKG_LINK_STATE_STARTING, IoNone. splits; [done|by left|]. intros z. destruct (z =? 0); cbn [negb].
  - intros l conc _. exists (starting false false false). split; [constructor|apply ok_fail_stopped].
  - intros l conc _. exists idle. split; [|done]. apply Mv_release. rest.
Qed.

Lemma ok_start_opening : ok (starting false false false) start_opening.
Proof.
  split; [done|]. intros z. destruct (z =? 0); cbn [negb]; [|apply ok_fail_stopped].
  intros l conc _. exists (starting true true false). split; [constructor|].
  exists LINKG_LINK_STATE_STARTING, true. split; [done|]. intros y. destruct (y =? 0); cbn [negb]; [|apply ok_fail_close].
  intros l' conc' _. exists idle. split; [|done]. apply Mv_release. rest.
Qed.

Lemma ok_start null : ok idle (linkg_link_start null).
Proof.
  destruct null; [done|]. apply ok_read. intros l conc _. destruct (lk_runtime l), (lk_ops l) as [o|]; try done.
  destruct (_ || _); [done|]. intros l' conc' Hs. destruct (Z.eqb_spec (lk_state l') LINKG_LINK_STATE_RUNNING).
  - exists idle. by split; [constructor|].
  - destruct (Z.eqb_spec (lk_state l') LINKG_LINK_STATE_STOPPED) as [E|]; cbn [negb].
    + exists (starting false false false). split; [by constructor|apply ok_start_opening].
    + exists idle. by split; [constructor|].
Qed.

Lemma ok_stop_finish op conc started (b : bool) ret :
  (if b then op = false /\ conc = false /\ started = false else op = true /\ conc = true) ->
  ok (stopping op conc started IoNone) (stop_finish b ret).
Proof.
  intros H l o _. exists idle. split; [|done]. apply Mv_release. destruct b; rest. destruct H as (->&->&->). auto.
Qed.

Lemma ok_stop_close ret : ok (stopping true true false IoNone) (stop_close ret).
Proof.
  eexists. split; [done|]. intros l conc (_&_&Hf&_). specialize (Hf _ eq_refl). exists (stopping true true false IoWrite).
  split; [constructor|]. cbn in *. injection Hf as _ -> _ _.
  exists LINKG_LINK_STATE_STOPPING, IoWrite. splits; [done|by right|]. intros z. destruct (z =? 0); cbn [negb].
  - intros l' conc' _. exists (stopping false false false IoWrite). split; [constructor|]. split; [done|]. by apply ok_stop_finish.
  - split; [done|]. by apply ok_stop_finish.
Qed.

Lemma ok_stop_thread_gone started ret : ok (stopping true true started IoNone) (stop_thread_gone ret).
Proof.
  apply ok_read. intros l conc (_&_&Hf&_). specialize (Hf _ eq_refl). cbn in Hf. injection Hf as _ _ _ ->.
  destruct started; cbn [negb]; [by apply ok_stop_finish|apply ok_stop_close].
Qed.

Lemma ok_stop null : ok idle (linkg_link_stop null).
Proof.
  destruct null; [done|]. apply ok_read. intros l conc _. destruct (lk_runtime l), (lk_ops l) as [o|]; try done.
  destruct (negb _); [done|]. intros l' conc' Hs. cbn zeta.
  destruct (Z.eqb_spec (lk_state l') LINKG_LINK_STATE_STOPPED); [exists idle; by split; [constructor|]|].
  destruct ((_ =? _) || _) eqn:E1; [exists idle; by split; [constructor|]|].
  destruct (negb _ && _) eqn:E2; [exists idle; by split; [constructor|]|].
  exists (stopping true true (linkg_thread_is_started (link_thread l')) IoNone).
  split; [constructor; [|done]|].
  - unfold LINKG_LINK_STATE_RUNNING, LINKG_LINK_STATE_FAILED in *. lia.
  - apply ok_read. intros l2 conc2 (_&_&Hf&_). specialize (Hf _ eq_refl). injection Hf as _ _ _ Et. rewrite Et.
    destruct (linkg_thread_is_started (link_thread l')).
    + exists LINKG_LINK_STATE_STOPPING, true, true. split; [done|]. intros z. apply ok_stop_thread_gone.
    + apply ok_stop_thread_gone.
Qed.

Lemma ok_send_calls n : ok (Who None IoSend) (send_calls n).
Proof. induction n as [|n IH]; [done|]. split; [done|]. intros z. by destruct (z <? 0). Qed.

Lemma ok_submit id active n : ok idle (submit_protocol id active n).
Proof.
  apply ok_read. intros l conc _. destruct (lk_runtime l), (lk_ops l) as [o|]; try done. repeat (case_match; [done|]).
  apply ok_read. intros l' conc' _. case_match; [done|]. split; [done|]. intros l2 conc2 _.
  destruct (Z.eqb_spec (lk_state l2) LINKG_LINK_STATE_RUNNING); cbn [negb].
  - exists (Who None IoSend). split; [by constructor|]. apply ok_read. intros l3 conc3 _. repeat (case_match; [done|]).
    apply ok_send_calls.
  - exists (Who None IoRead). by split; [constructor|].
Qed.

Lemma ok_purge id active : ok idle (purge_protocol id active).
Proof.
  apply ok_read. intros l conc _. destruct (lk_runtime l), (lk_ops l) as [o|]; try done. repeat (case_match; [done|]).
  split; [done|]. intros l2 conc2 _. destruct (link_opened l2); cbn [negb].
  - exists (Who None IoPurge). split; [constructor|]. split; [done|]. intros z. done.
  - exists (Who None IoRead). by split; [constructor|].
Qed.

Lemma ok_thread c : ok idle (thread_of c).
Proof. destruct c; [apply ok_start|apply ok_stop|apply ok_submit|apply ok_purge]. Qed.

(** ** What the threads hold together *)

Definition owns (w : who) : Z := match wh_life w with Some _ => 1 | None => 0 end.
Definition reads (w : who) : Z := match wh_io w with IoRead | IoSend | IoPurge => 1 | _ => 0 end.
Definition writes (w : who) : Z := match wh_io w with IoWrite => 1 | _ => 0 end.
Definition bit (b : bool) : Z := if b then 1 else 0.

Record core (l : linkg_link) (o : bool) (r : Z) (w : bool) (ws : list who) : Prop := {
  co_link : link_ok l;
  co_facts : facts_ok (facts_of l o);
  co_owner : sumZ owns ws = bit (busy (facts_of l o));
  co_known : forall i x f, ws !! i = Some x -> wh_life x = Some f -> facts_of l o = f;
  co_readers : sumZ reads ws = r;
  co_writers : sumZ writes ws = bit w;
  co_excl : w = true -> r = 0;
  co_send : forall i x, ws !! i = Some x -> wh_io x = IoSend -> sendable (facts_of l o) }.

Definition sys_inv (s : link_sys) : Prop :=
  exists ws, core (sy_link s) (sy_conc s) (sy_readers s) (sy_writer s) ws /\ Forall2 ok ws (sy_threads s).

Lemma owns_range w : 0 <= owns w <= 1. Proof. unfold owns. destruct (wh_life w); lia. Qed.
Lemma reads_range w : 0 <= reads w <= 1. Proof. unfold reads. destruct (wh_io w); lia. Qed.
Lemma writes_range w : 0 <= writes w <= 1. Proof. unfold writes. destruct (wh_io w); lia. Qed.
Lemma bit_range b : 0 <= bit b <= 1. Proof. destruct b; cbn; lia. Qed.

(** Two entries of a list whose measure sums to at most one. *)
Lemma sum_le_one {A} (f : A -> Z) ws i j x y :
  (forall z, 0 <= f z) -> sumZ f ws <= 1 -> ws !! i = Some x -> ws !! j = Some y -> i <> j -> 0 < f x -> f y <= 0.
Proof.
  intros Hf Hs Hi Hj Hn Hx. pose proof (sumZ_insert (fun z => f z) ws i x x Hi) as E.
  assert (f x + f y <= sumZ f ws); [|lia]. clear E Hs Hx. revert i j Hi Hj Hn.
  induction ws as [|a ws IH]; intros [|i] [|j] Hi Hj Hn; cbn in *; simplify_eq; try done.
  - pose proof (sumZ_lookup_le f ws j y ltac:(auto) Hj). lia.
  - pose proof (sumZ_lookup_le f ws i x ltac:(auto) Hi). lia.
  - assert (i <> j) by congruence. pose proof (IH i j Hi Hj H). specialize (Hf a). lia.
Qed.

(** One thread moves; what the others hold is not touched. *)
Lemma core_update l o r w ws i x l' o' r' w' x' :
  core l o r w ws -> ws !! i = Some x -> link_ok l' -> facts_ok (facts_of l' o') ->
  owns x' - owns x = bit (busy (facts_of l' o')) - bit (busy (facts_of l o)) ->
  reads x' - reads x = r' - r -> writes x' - writes x = bit w' - bit w -> (w' = true -> r' = 0) ->
  (forall f, wh_life x' = Some f -> facts_of l' o' = f) ->
  facts_of l' o' = facts_of l o \/ owns x = 1 \/ busy (facts_of l o) = false ->
  (wh_io x' = IoSend -> sendable (facts_of l' o')) ->
  facts_of l' o' = facts_of l o \/ sendable (facts_of l' o') \/ ~ sendable (facts_of l o) \/ w = true ->
  core l' o' r' w' (<[i := x']> ws).
Proof.
  intros [C1 C2 C3 C4 C5 C6 C7 C8] Hi Hl Hf Ho Hr Hw He Hk Hother Hs Hsend.
  assert (forall (f : who -> Z) n, sumZ f ws = n -> sumZ f (<[i := x']> ws) = n - f x + f x') as Hsum.
  { intros f n <-. by rewrite (sumZ_insert f ws i x' x Hi). }
  split; try done.
  - rewrite (Hsum _ _ C3). lia.
  - intros j y f Hj Hy. pose proof (lookup_lt_Some _ _ _ Hi) as Hlt. rewrite lookup_insert_case in Hj by done.
    case_decide as E; [simplify_eq; by apply Hk|]. destruct Hother as [->|Hother]; [by eapply C4|]. exfalso.
    assert (0 < owns y) by (unfold owns; rewrite Hy; lia). destruct Hother as [Hx|Hb].
    + pose proof (bit_range (busy (facts_of l o))).
      pose proof (sum_le_one owns ws i j x y (fun z => proj1 (owns_range z)) ltac:(lia) Hi Hj E ltac:(lia)). lia.
    + rewrite Hb in C3. pose proof (sumZ_lookup_le owns ws j y (fun z _ => proj1 (owns_range z)) Hj). cbn in *. lia.
  - rewrite (Hsum _ _ C5). lia.
  - rewrite (Hsum _ _ C6). lia.
  - intros j y Hj Hy. pose proof (lookup_lt_Some _ _ _ Hi) as Hlt. rewrite lookup_insert_case in Hj by done.
    case_decide as E; [simplify_eq; by apply Hs|]. pose proof (C8 j y Hj Hy) as H.
    destruct Hsend as [->|[?|[?|Hw']]]; [done..|]. exfalso.
    pose proof (sumZ_lookup_le reads ws j y (fun z _ => proj1 (reads_range z)) Hj) as H0.
    specialize (C7 Hw'). unfold reads in H0 at 1. rewrite Hy in H0. lia.
Qed.

(** What a thread sees of the link. *)
Lemma core_sees l o r w ws i x : core l o r w ws -> ws !! i = Some x -> sees x l o.
Proof. intros [C1 C2 C3 C4 C5 C6 C7 C8] Hi. split; [done|]. split; [done|]. split; [intros f Hf; by eapply C4|by eapply C8]. Qed.

Lemma link_ok_opened b l : link_ok l -> link_ok (set_opened b l).
Proof. intros (r&E&H). exists (set_runtime_opened b r). cbn. by rewrite E. Qed.

Lemma facts_state st l o :
  facts_of (set_link_state st l) o = Facts st (link_opened l) o (linkg_thread_is_started (link_thread l)).
Proof. done. Qed.

Lemma facts_opened b l o : link_ok l ->
  facts_of (set_opened b l) o = Facts (lk_state l) b o (linkg_thread_is_started (link_thread l)).
Proof. intros (r&E&H). unfold facts_of, link_opened, link_thread. cbn. by rewrite E. Qed.

(** The same cases, with the state apart. *)
Lemma rest_state f : rest_ok f ->
  (fa_state f = LINKG_LINK_STATE_STOPPED /\ f = Facts LINKG_LINK_STATE_STOPPED false false false) \/
  (fa_state f = LINKG_LINK_STATE_RUNNING /\ f = Facts LINKG_LINK_STATE_RUNNING true true true) \/
  (fa_state f = LINKG_LINK_STATE_FAILED /\ fa_opened f = true /\ fa_conc f = true).
Proof. intros [->|[->|H]]; auto. Qed.

Lemma rest_busy f : rest_ok f -> busy f = false.
Proof. unfold rest_ok, busy. intros [->|[->|(->&_)]]; done. Qed.

Lemma rest_facts f : rest_ok f -> facts_ok f.
Proof. intros H. split; [by right|]. destruct H as [->|[->|(_&_&->)]]; done. Qed.

(** The owner works while the link is busy. *)
Lemma core_busy l o r w ws i x : core l o r w ws -> ws !! i = Some x -> owns x = 1 -> busy (facts_of l o) = true.
Proof.
  intros C Hi Hx. pose proof (co_owner _ _ _ _ _ C) as H. pose proof (sumZ_lookup_le owns ws i x (fun z _ => proj1 (owns_range z)) Hi).
  destruct (busy (facts_of l o)); [done|]. cbn in H. lia.
Qed.

Lemma busy_state st a b c a' b' c' : busy (Facts st a b c) = busy (Facts st a' b' c').
Proof. done. Qed.

Lemma core_moves l o r w ws i x l' x' :
  core l o r w ws -> ws !! i = Some x -> moves o x l l' x' -> core l' o r w (<[i := x']> ws).
Proof.
  intros C Hi Hm. pose proof (core_sees _ _ _ _ _ _ _ C Hi) as (Hl&Hf&Hk&Hs).
  pose proof (core_busy _ _ _ _ _ _ _ C Hi) as Hb. pose proof (co_excl _ _ _ _ _ C) as He.
  destruct Hm as [w0 l|l Hst|l|l Hst|l started Hst Ht|l st op started h|l st op started h|l f st Hr].
  - eapply core_update; try done; lia || auto.
  - eapply core_update; try done; cbn; try lia; auto. intros _. destruct Hf as [[Hb'|Hr] _].
    + unfold busy in Hb'. cbn in Hb'. rewrite Hst in Hb'. done.
    + destruct (rest_state _ Hr) as [(E&_)|[(_&E)|(E&_)]]; [|rewrite E; by split|];
        cbn in E; by rewrite Hst in E.
  - eapply core_update; try done; cbn; try lia; auto.
  - assert (rest_ok (facts_of l o)) as Hr by (destruct Hf as [[H|H] _]; [unfold busy in H; cbn in H; by rewrite Hst in H|done]).
    pose proof (rest_busy _ Hr) as Hb'.
    destruct (rest_state _ Hr) as [(_&E)|[(E&_)|(E&_)]]; [|by cbn in E; rewrite Hst in E..].
    injection E as _ E1 E2 E3.
    eapply core_update; try exact C; try exact Hi; rewrite ?Hb', ?facts_state, ?E1, ?E2, ?E3; cbn; try done; try lia; try (unfold reads, writes; cbn; lia); auto.
    + split; [by left|done].
    + by intros f [= <-].
    + right. right. left. intros (H&_). cbn in H. by rewrite E1 in H.
  - assert (rest_ok (facts_of l o)) as Hr.
    { destruct Hf as [[H|H] _]; [|done]. unfold busy in H. cbn in H. destruct Hst as [Hst|Hst]; by rewrite Hst in H. }
    pose proof (rest_busy _ Hr) as Hb'.
    assert (link_opened l = true /\ o = true) as [E1 E2].
    { destruct (rest_state _ Hr) as [(E&_)|[(_&E)|(_&E1&E2)]]; [|by injection E as _ -> -> _|done].
      cbn in E. destruct Hst as [Hst|Hst]; by rewrite Hst in E. }
    eapply core_update; try exact C; try exact Hi; rewrite ?Hb', ?facts_state, ?E1, ?E2, ?Ht; cbn; try done; try lia; try (unfold reads, writes; cbn; lia); auto.
    + split; [by left|done].
    + by intros f [= <-].
    + right. left. by split.
  - specialize (Hk _ eq_refl). specialize (Hb eq_refl). cbn [fst] in Hk.
    assert (facts_of (set_opened true l) o = Facts st true true started) as E.
    { rewrite facts_opened by done. by injection Hk as -> _ -> ->. }
    rewrite Hk in Hf, Hb.
    eapply core_update; try exact C; try exact Hi; rewrite ?E, ?Hk; cbn; try done; try lia; try (unfold reads, writes; cbn; lia); auto.
    + by apply link_ok_opened.
    + split; [left; exact Hb|done].
    + rewrite (busy_state st true true started op true started). lia.
    + by intros f [= <-].
    + intros ->. destruct (Hs eq_refl) as (_&_&H). rewrite Hk in H. by split.
    + destruct (decide (st = LINKG_LINK_STATE_STARTING)) as [->|Hn]; [|right; left; by split].
      right. right. left. by intros (_&_&?).
  - specialize (Hk _ eq_refl). specialize (Hb eq_refl).
    assert (facts_of (set_opened false l) o = Facts st false false started) as E.
    { rewrite facts_opened by done. by injection Hk as -> _ -> ->. }
    rewrite Hk in Hf, Hb.
    eapply core_update; try exact C; try exact Hi; rewrite ?E, ?Hk; cbn; try done; try lia; try (unfold reads, writes; cbn; lia); auto.
    + by apply link_ok_opened.
    + split; [left; exact Hb|apply Hf].
    + rewrite (busy_state st false false started op false started). lia.
    + by intros f [= <-].
    + intros ->. destruct (Hs eq_refl) as (_&H&_). rewrite Hk in H. done.
    + right. right. left. by intros (_&?&_).
  - specialize (Hk _ eq_refl). specialize (Hb eq_refl). destruct f as [st0 op conc started]. cbn in Hr.
    assert (facts_of (set_link_state st l) o = Facts st op conc started) as E by (rewrite facts_state; by injection Hk as _ -> -> ->).
    eapply core_update; try exact C; try exact Hi; rewrite ?E, ?Hb; rewrite ?(rest_busy _ Hr); cbn; try done; try lia; try (unfold reads, writes; cbn; lia); auto.
    + by apply rest_facts.
    + right. destruct Hr as [E0|[E0|(E0&E1&E2)]]; simplify_eq/=.
      * right. left. intros (H&_). rewrite Hk in H. done.
      * left. by split.
      * left. by split.
Qed.

(** The concrete link opens and closes, the thread starts and stops: only the owner
    does this, and [io_lock] keeps the senders away. *)
Lemma core_owner l o r w ws i st op started io l' o' started' :
  core l o r w ws -> ws !! i = Some (Who (Some (Facts st op o started)) io) -> link_ok l' ->
  facts_of l' o' = Facts st op o' started' -> (started' = true -> o' = true) ->
  o' = o \/ st = LINKG_LINK_STATE_STARTING \/ io = IoWrite -> io <> IoSend ->
  core l' o' r w (<[i := Who (Some (Facts st op o' started')) io]> ws).
Proof.
  intros C Hi Hl E Hst Ho Hio. pose proof (core_sees _ _ _ _ _ _ _ C Hi) as (_&Hf&Hk&Hs).
  specialize (Hk _ eq_refl). pose proof (core_busy _ _ _ _ _ _ _ C Hi eq_refl) as Hb. rewrite Hk in Hb.
  pose proof (co_excl _ _ _ _ _ C) as He.
  eapply core_update; try exact C; try exact Hi; rewrite ?E, ?Hk; cbn; try done; try lia; try (unfold reads, writes; cbn; lia); auto.
  - by split; [left|].
  - rewrite (busy_state st op o' started' op o started). lia.
  - by intros f [= <-].
  - destruct Ho as [Ho | [Ho | Ho]]; subst.
    + destruct (decide (op = true /\ o = true /\ st <> LINKG_LINK_STATE_STARTING)) as [H|H]; [right; left; exact H|].
      right. right. left. exact H.
    + right. right. left. by intros (_&_&?).
    + right. right. right. pose proof (sumZ_lookup_le writes ws i _ (fun z _ => proj1 (writes_range z)) Hi) as H.
      cbn in H. rewrite (co_writers _ _ _ _ _ C) in H. destruct w; [done|]. cbn in H. lia.
Qed.

Lemma thread_ok_set t' l : link_ok l -> th_initialized t' = true -> link_ok (set_thread t' l).
Proof. intros (r&E&H) Hi. exists (set_runtime_thread t' r). cbn. by rewrite E. Qed.

Lemma facts_thread t' l o : link_ok l -> th_initialized t' = true ->
  facts_of (set_thread t' l) o = Facts (lk_state l) (link_opened l) o (th_started t').
Proof. intros (r&E&H) Hi. unfold facts_of, link_opened, link_thread. cbn. rewrite E. cbn. by rewrite Hi. Qed.

Lemma link_thread_ok t l : link_ok l -> link_thread l = Some t -> th_initialized t = true.
Proof. intros (r&E&H). unfold link_thread. rewrite E. by intros [= <-]. Qed.

Lemma link_thread_started t l : link_ok l -> link_thread l = Some t -> linkg_thread_is_started (link_thread l) = th_started t.
Proof. intros Hl E. rewrite E. cbn. by rewrite (link_thread_ok t l). Qed.

(** ** Every step keeps the invariant *)

(** A thread changes what it holds of [io_lock]. *)
Lemma core_lock l o r w ws i life io r' w' io' :
  core l o r w ws -> ws !! i = Some (Who life io) -> io' <> IoSend ->
  reads (Who life io') - reads (Who life io) = r' - r -> writes (Who life io') - writes (Who life io) = bit w' - bit w ->
  (w' = true -> r' = 0) -> core l o r' w' (<[i := Who life io']> ws).
Proof.
  intros C Hi Hn Hr Hw He. pose proof (core_sees _ _ _ _ _ _ _ C Hi) as (Hl&Hf&Hk&Hs).
  eapply core_update; try exact C; try exact Hi; auto; try done. unfold owns. cbn. lia.
Qed.

(** Something changed that the facts do not depend on. *)
Lemma core_same l o r w ws l' : core l o r w ws -> link_ok l' -> facts_of l' o = facts_of l o -> core l' o r w ws.
Proof. intros [C1 C2 C3 C4 C5 C6 C7 C8] Hl E. split; rewrite ?E; try done. Qed.

Lemma core_new l o r w ws : core l o r w ws -> core l o r w (ws ++ [idle]).
Proof.
  intros [C1 C2 C3 C4 C5 C6 C7 C8]. assert (forall i x, (ws ++ [idle]) !! i = Some x -> ws !! i = Some x \/ x = idle) as H.
  { intros i x [Hx|[_ Hx]]%lookup_app_Some; [by left|right]. apply list_lookup_singleton_Some in Hx. naive_solver. }
  split; rewrite ?sumZ_app; cbn; rewrite ?Z.add_0_r; try done.
  - intros i x f [Hx| ->]%H Hf; [by eapply C4|done].
  - intros i x [Hx| ->]%H Hf; [by eapply C8|done].
Qed.

Lemma set_registration_same id receive data l o : link_ok l ->
  link_ok (set_registration id receive data l) /\ facts_of (set_registration id receive data l) o = facts_of l o.
Proof.
  intros (r&E&H). split; [by eexists; cbn; rewrite E|]. unfold facts_of, link_opened, link_thread. cbn. by rewrite E.
Qed.

Lemma exit_same t l o : link_ok l -> link_thread l = Some t ->
  link_ok (set_thread (_thread_entry t) l) /\ facts_of (set_thread (_thread_entry t) l) o = facts_of l o.
Proof.
  intros Hl Ht. pose proof (link_thread_ok t l Hl Ht) as Hi. split; [by apply thread_ok_set|].
  rewrite facts_thread by done. unfold facts_of. by rewrite (link_thread_started t l Hl Ht).
Qed.

Lemma concrete_step l o r w ws i c k z x :
  core l o r w ws -> ws !! i = Some x -> ok x (Call c k) ->
  exists x', core l (conc_after c z o) r w (<[i := x']> ws) /\ ok x' (k z).
Proof.
  intros C Hi Hok. pose proof (core_sees _ _ _ _ _ _ _ C Hi) as (Hl&_&Hk&_). destruct c; cbn in Hok.
  - destruct Hok as [-> H]. eexists. split; [|apply (H z)]. specialize (Hk _ eq_refl).
    assert (o = false) as -> by (by injection Hk). cbn. rewrite orb_false_r. eapply core_owner; try done; [|by right; left].
    injection Hk as E1 E2 E3. unfold facts_of. by rewrite E1, E2, E3.
  - destruct Hok as (st&h&->&Hst&H). eexists. split; [|apply (H z)]. specialize (Hk _ eq_refl).
    assert (o = true) as -> by (by injection Hk). cbn. rewrite andb_true_r. eapply core_owner; try done; [|naive_solver|naive_solver].
    injection Hk as E1 E2 E3. unfold facts_of. by rewrite E1, E2, E3.
  - destruct Hok as [-> H]. eexists. split; [|apply (H z)]. by rewrite list_insert_id.
  - destruct Hok as [-> H]. eexists. split; [|apply (H z)]. by rewrite list_insert_id.
Qed.

Lemma thread_step_ok l o r w ws i st op cn sd t t' :
  core l o r w ws -> ws !! i = Some (Who (Some (Facts st op cn sd)) IoNone) -> link_thread l = Some t ->
  th_initialized t' = true -> (th_started t' = true -> cn = true) ->
  core (set_thread t' l) o r w (<[i := Who (Some (Facts st op cn (th_started t'))) IoNone]> ws).
Proof.
  intros C Hi Ht Hin Hst. pose proof (core_sees _ _ _ _ _ _ _ C Hi) as (Hl&_&Hk&_). specialize (Hk _ eq_refl).
  assert (o = cn) as -> by (by injection Hk). eapply core_owner; try done; [by apply thread_ok_set| |by left].
  rewrite facts_thread by done. by injection Hk as -> ->.
Qed.

Lemma sys_inv_step s s' : link_step s s' -> sys_inv s -> sys_inv s'.
Proof.
  intros Hs (ws&C&HF). unfold sys_inv.
  assert (forall i p, sy_threads s !! i = Some p -> exists x, ws !! i = Some x /\ ok x p) as Hthread.
  { intros i p Hi. by apply (Forall2_lookup_r _ _ _ _ _ HF). }
  assert (forall i x p, ok x p -> Forall2 ok (<[i := x]> ws) (<[i := p]> (sy_threads s))) as Hins.
  { intros i x p H. by apply Forall2_insert. }
  destruct Hs as [c l o r w T|l l' p f o r w T i Hi E|l c k z o r w T i Hi|l k api t z t' o r w T i Hi Ht E
    |l k api t z t' o r w T i Hi Ht E|l t o r w T Ht|l p o r T i Hi|l p o T i Hi|l p o r w T i Hi|id receive data l o r w T];
    cbn in *; try (destruct (Hthread _ _ Hi) as (x&Hx&Hok)).
  - exists (ws ++ [idle]). split; [by apply core_new|]. apply Forall2_app; [done|]. constructor; [apply ok_thread|done].
  - cbn in Hok. specialize (Hok l o (core_sees _ _ _ _ _ _ _ C Hx)). rewrite E in Hok. destruct Hok as (x'&Hm&Hok').
    exists (<[i := x']> ws). split; [by eapply core_moves|by apply Hins].
  - destruct (concrete_step _ _ _ _ _ _ _ _ z _ C Hx Hok) as (x'&C'&Hok'). exists (<[i := x']> ws). auto.
  - destruct Hok as (st&op&->&H). pose proof (core_sees _ _ _ _ _ _ _ C Hx) as (Hl&_&Hk&_). specialize (Hk _ eq_refl).
    assert (th_started t = false) as Hst by (rewrite <- (link_thread_started t l Hl Ht); by injection Hk).
    destruct (thread_start_started api t z t' (link_thread_ok t l Hl Ht) E) as (Hin&H0&H1).
    eexists. split; [by eapply thread_step_ok|]. apply Hins. destruct (Z.eq_dec z 0) as [->|Hn].
    + destruct (H0 eq_refl) as (->&_). apply (H 0).
    + rewrite (H1 Hn), Hst. specialize (H z). by destruct (Z.eqb_spec z 0).
  - destruct Hok as (st&op&cn&->&H). pose proof (core_sees _ _ _ _ _ _ _ C Hx) as (Hl&[_ Hc]&Hk&_). specialize (Hk _ eq_refl).
    rewrite Hk in Hc. specialize (Hc eq_refl). cbn in Hc. subst cn.
    destruct (thread_stop_stopped api t z t' (link_thread_ok t l Hl Ht) E) as (Hin&H0&H1).
    eexists. split; [by eapply thread_step_ok|]. apply Hins. destruct (Z.eq_dec z 0) as [->|Hn].
    + rewrite (H0 eq_refl). apply (H 0).
    + destruct (H1 Hn) as [-> ->]. specialize (H z). by destruct (Z.eqb_spec z 0).
  - exists ws. split; [|done]. destruct (exit_same t l o (co_link _ _ _ _ _ C) Ht). by eapply core_same.
  - destruct Hok as [-> Hok]. eexists. split; [|by apply Hins]. eapply core_lock; try done; cbn; lia.
  - destruct Hok as (f&->&Hok). eexists. split; [|by apply Hins]. eapply core_lock; try done; cbn; lia.
  - destruct Hok as (Hio&Hok), x as [life h]. cbn in Hio, Hok. eexists. split; [|by apply Hins].
    pose proof (co_writers _ _ _ _ _ C) as Hw. pose proof (co_readers _ _ _ _ _ C) as Hr. pose proof (co_excl _ _ _ _ _ C) as He.
    pose proof (sumZ_lookup_le writes ws i _ (fun z _ => proj1 (writes_range z)) Hx) as Hwi.
    pose proof (sumZ_lookup_le reads ws i _ (fun z _ => proj1 (reads_range z)) Hx) as Hri.
    rewrite Hw in Hwi. rewrite Hr in Hri. unfold reads, writes in Hwi, Hri. cbn [wh_io] in Hwi, Hri.
    eapply core_lock; try done; cbn; destruct w, h; cbn in *; try done; try lia; try (specialize (He eq_refl); lia).
  - exists ws. split; [|done]. destruct (set_registration_same id receive data l o (co_link _ _ _ _ _ C)). by eapply core_same.
Qed.

(** ** A link just created *)

Lemma thread_init_new api name function data config t :
  linkg_thread_init_with_config api name function data config (Some thread_zero) = (0, t) ->
  exists t', t = Some t' /\ th_initialized t' = true /\ th_started t' = false /\ 0 <= th_wakeup_fd t'.
Proof.
  unfold linkg_thread_init_with_config, _thread_init. destruct config as [config|], function; try done. cbn.
  destruct (LINKG_THREAD_NAME_MAX <=? _); [done|]. destruct (Z.eqb_spec (check_config api config) 0) as [E|E]; cbn; [|congruence].
  destruct (ta_eventfd api) as [fd errno]. destruct (Z.ltb_spec fd 0).
  - intros [= H1 _]. exfalso. destruct (Z.eqb_spec errno 0); cbn in H1; unfold EIO in *; lia.
  - intros [= <-]. by eexists.
Qed.

Lemma created_runtime api lk config h r h' :
  linkg_link_runtime_create api lk config h = Some ((0, r), h') -> lk_runtime <$> lk = Some None ->
  exists rt, r = Some rt /\ lr_opened rt = false /\ th_initialized (lr_rx_thread rt) = true /\ th_started (lr_rx_thread rt) = false.
Proof.
  unfold linkg_link_runtime_create, fail_rx_items, fail_io_lock, fail_control_lock, fail_runtime. munfold.
  unfold mbind, M_bind. destruct lk as [lk|], config as [config|]; try done. cbn [fmap option_fmap option_map]. intros H E.
  injection E as E. rewrite E in H. rewrite bool_decide_eq_false_2 in H by tauto.
  repeat match type of H with
  | (if ?b then _ else _) _ = _ => destruct b eqn:?; [simplify_eq/=; try (rewrite ?negb_true_iff, ?Z.eqb_neq in *; lia)|]
  end; try (unfold ENOMEM, EINVAL in *; lia).
  destruct (linkg_thread_init_with_config _ _ _ _ _ _) as [ret t] eqn:Et.
  destruct (Z.eqb_spec ret 0) as [->|Hn]; cbn in H; [|simplify_eq; done].
  apply thread_init_new in Et as (t'&->&?&?&_). simplify_eq/=. by eexists.
Qed.

Lemma created_link api config ops h l h' :
  linkg_link_create api config ops true h = Some ((0, Some l), h') ->
  link_ok l /\ facts_of l false = Facts LINKG_LINK_STATE_STOPPED false false false.
Proof.
  unfold linkg_link_create. munfold. unfold mbind, M_bind. destruct config as [cfg|], ops as [o|]; try done.
  destruct (lc_name cfg) as [name|], (lc_packet_pool cfg) as [pool|]; try done.
  repeat (case_match; [done|]). destruct (linkg_link_runtime_create _ _ _ _) as [[[ret r] h1]|] eqn:E; [|done].
  destruct (Z.eqb_spec ret 0) as [->|Hn]; cbn [negb]; [|by intros [= ->]].
  apply created_runtime in E as (rt&->&Ho&Hi&Hs); [|done].
  destruct (negb (la_init api =? 0)); [by destruct (linkg_link_runtime_destroy api _ _) as [[??]|]|].
  intros [= <- _]. split; [by exists rt|]. unfold facts_of, link_opened, link_thread. cbn. by rewrite Ho, Hi, Hs.
Qed.

Lemma link_reachable_inv s : link_reachable s -> sys_inv s.
Proof.
  induction 1 as [api config ops h h' l H|s s' _ IH Hs]; [|by eapply sys_inv_step].
  apply created_link in H as [Hl Hf]. exists []. split; [|constructor]. split; cbn; rewrite ?Hf; try done.
  split; [right; by left|done].
Qed.

(** ** What the life cycle guarantees *)

Definition in_call (s : link_sys) (i : nat) (c : concrete) : Prop := exists k, sy_threads s !! i = Some (Call c k).
Definition link_started (s : link_sys) : bool := linkg_thread_is_started (link_thread (sy_link s)).

(** What a thread in a call holds. *)
Lemma in_call_holds s ws i c :
  core (sy_link s) (sy_conc s) (sy_readers s) (sy_writer s) ws -> Forall2 ok ws (sy_threads s) -> in_call s i c ->
  exists x, ws !! i = Some x /\
  match c with
  | Open => owns x = 1 /\ facts_of (sy_link s) (sy_conc s) = Facts LINKG_LINK_STATE_STARTING false false false
  | Close => owns x = 1 /\ exists st, facts_of (sy_link s) (sy_conc s) = Facts st true true false /\
      (st = LINKG_LINK_STATE_STARTING \/ st = LINKG_LINK_STATE_STOPPING /\ writes x = 1)
  | Send => owns x = 0 /\ reads x = 1 /\ sendable (facts_of (sy_link s) (sy_conc s))
  | Purge => owns x = 0 /\ reads x = 1
  end.
Proof.
  intros C HF [k Hk]. destruct (Forall2_lookup_r _ _ _ _ _ HF Hk) as (x&Hx&Hok). exists x. split; [done|].
  pose proof (core_sees _ _ _ _ _ _ _ C Hx) as (_&_&Hf&Hs). destruct c; cbn in Hok.
  - destruct Hok as [-> _]. split; [done|]. by apply Hf.
  - destruct Hok as (st&io&->&Hst&_). split; [done|]. exists st. split; [by apply Hf|].
    destruct Hst as [[-> _]|[-> ->]]; auto.
  - destruct Hok as [-> _]. splits; try done. by apply Hs.
  - by destruct Hok as [-> _].
Qed.

(** C5: In every interleaving of threads that start, stop, use and purge a link, the
    concrete link is opened and closed by one thread at a time, opened only when it
    is closed and closed only when it is open and the receive thread is gone; no
    packet is submitted to it while it is not open or being closed, and a stop
    closes it only when no purge is in progress. A stopped link is closed without a
    receive thread, a running link is open with one. *)
Theorem link_calls_exclusive s : link_reachable s ->
  (forall i, in_call s i Open -> sy_conc s = false /\ link_started s = false /\
     forall j c, j <> i -> in_call s j c -> c = Purge) /\
  (forall i, in_call s i Close -> sy_conc s = true /\ link_started s = false /\
     forall j c, j <> i -> in_call s j c -> c = Purge /\ lk_state (sy_link s) = LINKG_LINK_STATE_STARTING) /\
  (forall i, in_call s i Send -> sy_conc s = true /\ link_opened (sy_link s) = true) /\
  (link_started s = true -> sy_conc s = true) /\
  (lk_state (sy_link s) = LINKG_LINK_STATE_STOPPED -> sy_conc s = false /\ link_started s = false) /\
  (lk_state (sy_link s) = LINKG_LINK_STATE_RUNNING -> sy_conc s = true /\ link_started s = true).
Proof.
  intros (ws&C&HF)%link_reachable_inv. pose proof (in_call_holds s ws) as H.
  assert (forall i j x y, ws !! i = Some x -> ws !! j = Some y -> i <> j -> owns x = 1 -> owns y <= 0) as Hown.
  { intros i j x y Hi Hj Hn Hx. pose proof (bit_range (busy (facts_of (sy_link s) (sy_conc s)))).
    eapply (sum_le_one owns ws i j x y); try done; [apply owns_range|rewrite (co_owner _ _ _ _ _ C); lia|lia]. }
  splits.
  - intros i Hi. destruct (H i Open C HF Hi) as (x&Hx&Ho&E). injection E as _ Eop Ec Est. splits; [done..|].
    intros j c Hn Hj. destruct (H j c C HF Hj) as (y&Hy&Hc). specialize (Hown i j x y Hx Hy (not_eq_sym Hn) Ho).
    destruct c; [lia|lia| |done]. destruct Hc as (_&_&Hop&_). cbn in Hop. congruence.
  - intros i Hi. destruct (H i Close C HF Hi) as (x&Hx&Ho&st&E&Hst). injection E as E Eop Ec Est. splits; [done..|].
    intros j c Hn Hj. destruct (H j c C HF Hj) as (y&Hy&Hc). specialize (Hown i j x y Hx Hy (not_eq_sym Hn) Ho).
    assert (reads y = 1 -> st = LINKG_LINK_STATE_STARTING) as Hr.
    { intros Hr. destruct Hst as [?|[_ Hw]]; [done|]. exfalso.
      pose proof (sumZ_lookup_le writes ws i x (fun z _ => proj1 (writes_range z)) Hx) as H1. rewrite (co_writers _ _ _ _ _ C) in H1.
      pose proof (sumZ_lookup_le reads ws j y (fun z _ => proj1 (reads_range z)) Hy) as H2. rewrite (co_readers _ _ _ _ _ C) in H2.
      pose proof (co_excl _ _ _ _ _ C) as H3. destruct (sy_writer s); cbn in *; [specialize (H3 eq_refl)|]; lia. }
    destruct c; [lia|lia| |]; [|destruct Hc as [_ Hc]; by rewrite E, (Hr Hc)].
    destruct Hc as (_&Hc&_&_&Hne). specialize (Hr Hc). exfalso. apply Hne. cbn. by rewrite E.
  - intros i Hi. destruct (H i Send C HF Hi) as (x&_&_&_&Hop&Hc&_). done.
  - intros Hst. destruct (co_facts _ _ _ _ _ C) as [_ Hf]. by apply Hf.
  - intros Hst. destruct (co_facts _ _ _ _ _ C) as [[Hb|Hr] _]; [unfold busy in Hb; cbn in Hb; by rewrite Hst in Hb|].
    destruct (rest_state _ Hr) as [(_&E)|[(E&_)|(E&_)]]; [by injection E|by cbn in E; rewrite Hst in E..].
  - intros Hst. destruct (co_facts _ _ _ _ _ C) as [[Hb|Hr] _]; [unfold busy in Hb; cbn in Hb; by rewrite Hst in Hb|].
    destruct (rest_state _ Hr) as [(E&_)|[(_&E)|(E&_)]]; [by cbn in E; rewrite Hst in E|by injection E|by cbn in E; rewrite Hst in E].
Qed.

(** ** Runs *)

(** System calls that answer [z]. *)
Definition demo_thread_api (z : Z) : thread_api :=
  ThreadApi 4 (fun _ => 0) (fun _ => 0) (7, 0) (8, 0) (8, 0) 0 0 0 0 0 0 (- z, 1) 0 (- z).

(** Thread [i] takes its next step, with answer [z]. *)
Definition play_step (i : nat) (z : Z) (s : link_sys) : option link_sys :=
  let '(LinkSys l o r w T) := s in
  match T !! i with
  | Some (Access f) => let '(l', p) := f l in Some (LinkSys l' o r w (<[i := p]> T))
  | Some (Call c k) => Some (LinkSys l (conc_after c z o) r w (<[i := k z]> T))
  | Some (Thread_start k) =>
      t ← link_thread l;
      let '(z, t') := linkg_thread_start (demo_thread_api z) (Some t) in
      t' ← t'; Some (LinkSys (set_thread t' l) o r w (<[i := k z]> T))
  | Some (Thread_stop k) =>
      t ← link_thread l;
      let '(z, t') := linkg_thread_stop (demo_thread_api z) (Some t) in
      t' ← t'; Some (LinkSys (set_thread t' l) o r w (<[i := k z]> T))
  | Some (Read_lock p) => if w then None else Some (LinkSys l o (r + 1) false (<[i := p]> T))
  | Some (Write_lock p) => if w || negb (r =? 0) then None else Some (LinkSys l o 0 true (<[i := p]> T))
  | Some (Unlock p) => Some (LinkSys l o (if w then r else r - 1) false (<[i := p]> T))
  | _ => None
  end.

Inductive play_item := Begin (c : link_call) | Step (i : nat) (z : Z) | Register (id : Z).

Fixpoint play (l : list play_item) (s : link_sys) : option link_sys :=
  match l with
  | [] => Some s
  | Begin c :: l' => play l' (LinkSys (sy_link s) (sy_conc s) (sy_readers s) (sy_writer s) (sy_threads s ++ [thread_of c]))
  | Step i z :: l' => s' ← play_step i z s; play l' s'
  | Register id :: l' =>
      play l' (LinkSys (set_registration id (Some 1) 0 (sy_link s)) (sy_conc s) (sy_readers s) (sy_writer s) (sy_threads s))
  end.

Lemma play_step_sound i z s s' : play_step i z s = Some s' -> link_step s s'.
Proof.
  destruct s as [l o r w T]. unfold play_step. destruct (T !! i) as [p|] eqn:Ei; [|done]. destruct p; intros H.
  - done.
  - destruct (f l) eqn:E. simplify_eq. by econstructor.
  - simplify_eq. by econstructor.
  - destruct (link_thread l) as [t|] eqn:Et; [|done]. cbn [mbind option_bind] in H.
    destruct (linkg_thread_start (demo_thread_api z) (Some t)) as [y [t'|]] eqn:E; [|done]. cbn in H. simplify_eq. by econstructor.
  - destruct (link_thread l) as [t|] eqn:Et; [|done]. cbn [mbind option_bind] in H.
    destruct (linkg_thread_stop (demo_thread_api z) (Some t)) as [y [t'|]] eqn:E; [|done]. cbn in H. simplify_eq. by econstructor.
  - destruct w; simplify_eq. by econstructor.
  - destruct w; [done|]. cbn in H. destruct (Z.eqb_spec r 0) as [->|]; cbn in H; [|done]. simplify_eq. by econstructor.
  - simplify_eq. by econstructor.
Qed.

Lemma play_reachable l : forall s s', play l s = Some s' -> link_reachable s -> link_reachable s'.
Proof.
  induction l as [|[c|i z|id] l IH]; intros s s' H Hs; [by simplify_eq/=| | |].
  - eapply IH; [exact H|]. eapply Link_next; [exact Hs|]. destruct s. constructor.
  - cbn in H. destruct (play_step i z s) as [s1|] eqn:E; [|done]. eapply IH; [exact H|].
    eapply Link_next; [exact Hs|]. by eapply play_step_sound.
  - eapply IH; [exact H|]. eapply Link_next; [exact Hs|]. destruct s. constructor.
Qed.

Definition demo_link_api : link_api := LinkApi 56 (demo_thread_api 0) true true true 0 0 0 0 0.
Definition demo_config : linkg_link_config := LinkConfig (Some [119; 105; 102; 105]) LINKG_LINK_ACCESS_WIFI 32 32 (Some 0%nat) None 0.
Definition demo_ops : linkg_link_ops := LinkOps 256 true true true true true true true true.
Definition heap_zero : link_heap := LinkHeap 0 0 0 0 0 0 0.

Definition demo_created : linkg_link :=
  match linkg_link_create demo_link_api (Some demo_config) (Some demo_ops) true heap_zero with
  | Some ((_, Some l), _) => l
  | _ => Link 0 [] 0 None None None 0
  end.

Lemma demo_reachable l s : play l (LinkSys demo_created false 0 false []) = Some s -> link_reachable s.
Proof.
  intros H. eapply play_reachable; [exact H|].
  apply (Link_init demo_link_api (Some demo_config) (Some demo_ops) heap_zero (LinkHeap 1 1 1 1 1 1 1)). reflexivity.
Qed.

(** The link runs, one thread is sending, another has begun to stop it. *)
Definition demo_schedule : list play_item :=
  [Register 5; Begin (Call_start false)] ++ replicate 6 (Step 0 0) ++ [Begin (Call_submit 5 true 2)] ++
  replicate 5 (Step 1 0) ++ [Begin (Call_stop false)] ++ replicate 5 (Step 2 0).

Definition demo_sys : link_sys := default (LinkSys demo_created false 0 false []) (play demo_schedule (LinkSys demo_created false 0 false [])).

Lemma demo_sys_reachable : link_reachable demo_sys.
Proof. apply (demo_reachable demo_schedule). reflexivity. Qed.

Lemma link_calls_exclusive_witness : in_call demo_sys 1 Send /\ sy_conc demo_sys = true /\ link_opened (sy_link demo_sys) = true.
Proof.
  assert (in_call demo_sys 1 Send) as H by (eexists; reflexivity).
  destruct (link_calls_exclusive demo_sys demo_sys_reachable) as (_&_&HS&_). exact (conj H (HS 1%nat H)).
Defined.

(** The stop waits for the sender. *)
Example demo_stop_waits : play_step 2 0 demo_sys = None /\ lk_state (sy_link demo_sys) = LINKG_LINK_STATE_STOPPING.
Proof. split; reflexivity. Qed.

(** The roll-back of a start that cannot start its thread closes the concrete link
    while a purge is working on it: it does not take [io_lock]. *)
Definition demo_rollback : list play_item :=
  [Register 5; Begin (Call_start false)] ++ replicate 4 (Step 0 0) ++ [Begin (Call_purge 5 false)] ++
  replicate 3 (Step 1 0) ++ [Step 0 (-11)].

Lemma rollback_close_meets_purge : exists s, link_reachable s /\ in_call s 0 Close /\ in_call s 1 Purge.
Proof.
  exists (default demo_sys (play demo_rollback (LinkSys demo_created false 0 false []))). splits.
  - apply (demo_reachable demo_rollback). reflexivity.
  - eexists. reflexivity.
  - eexists. reflexivity.
Qed.

(** ** Creation and destruction balance *)

Definition add_all (n : Z) (h : link_heap) : link_heap :=
  LinkHeap (lh_links h + n) (lh_runtimes h + n) (lh_items h + n) (lh_control_locks h + n) (lh_io_locks h + n)
    (lh_eventfds h + n) (lh_concrete h + n).

(** A created link that is stopped, whatever was done to it in between. *)
Definition at_rest (l l' : linkg_link) : Prop :=
  lk_state l' = LINKG_LINK_STATE_STOPPED /\ lk_ops l' = lk_ops l /\
  exists r r', lk_runtime l = Some r /\ lk_runtime l' = Some r' /\ th_initialized (lr_rx_thread r') = true /\
    th_started (lr_rx_thread r') = false /\ th_wakeup_fd (lr_rx_thread r') = th_wakeup_fd (lr_rx_thread r).

(** The locks can be destroyed. *)
Definition destroys (api : link_api) : Prop := la_io_destroy api = 0 /\ la_control_destroy api = 0.

Lemma runtime_destroy_run api l r h :
  destroys api -> lk_runtime l = Some r -> th_initialized (lr_rx_thread r) = true -> th_started (lr_rx_thread r) = false ->
  0 <= th_wakeup_fd (lr_rx_thread r) ->
  linkg_link_runtime_destroy api (Some l) h =
    Some (Some (set_link_runtime None l),
          LinkHeap (lh_links h) (lh_runtimes h - 1) (lh_items h - 1) (lh_control_locks h - 1) (lh_io_locks h - 1)
            (lh_eventfds h - 1) (lh_concrete h)).
Proof.
  intros [E1 E2] Er Hi Hs Hf. unfold linkg_link_runtime_destroy. rewrite Er. unfold linkg_thread_deinit. rewrite Hi, Hs. cbn.
  destruct (Z.leb_spec 0 (th_wakeup_fd (lr_rx_thread r))); [|lia]. munfold. unfold mbind, M_bind. cbn. rewrite E1, E2. cbn.
  by destruct h.
Qed.

Lemma heap_eq h h' :
  lh_links h = lh_links h' -> lh_runtimes h = lh_runtimes h' -> lh_items h = lh_items h' ->
  lh_control_locks h = lh_control_locks h' -> lh_io_locks h = lh_io_locks h' -> lh_eventfds h = lh_eventfds h' ->
  lh_concrete h = lh_concrete h' -> h = h'.
Proof. destruct h, h'. cbn. congruence. Qed.

(** A failure that undid what it did. *)
Lemma fails_run {A} (m : option (Z * option A * link_heap)) ret h h' :
  m = Some ((ret, None), h') -> h' = h -> ret <> 0 -> exists ret, ret <> 0 /\ m = Some ((ret, None), h).
Proof. intros -> -> H. by exists ret. Qed.

Lemma runtime_create_run api lk config h :
  lk_runtime lk = None ->
  (exists ret, ret <> 0 /\ linkg_link_runtime_create api (Some lk) config h = Some ((ret, None), h)) \/
  (exists r, linkg_link_runtime_create api (Some lk) config h =
     Some ((0, Some r), LinkHeap (lh_links h) (lh_runtimes h + 1) (lh_items h + 1) (lh_control_locks h + 1) (lh_io_locks h + 1)
                          (lh_eventfds h + 1) (lh_concrete h)) /\
     th_initialized (lr_rx_thread r) = true /\ th_started (lr_rx_thread r) = false /\ 0 <= th_wakeup_fd (lr_rx_thread r)).
Proof.
  intros E. unfold linkg_link_runtime_create, fail_rx_items, fail_io_lock, fail_control_lock, fail_runtime.
  destruct config as [cfg|]; [|left; by exists (- EINVAL)]. rewrite E, bool_decide_eq_false_2 by tauto. munfold. unfold mbind, M_bind.
  repeat match goal with
  | |- context [(if ?b then _ else _) _] =>
      destruct b eqn:?; [left; eapply fails_run; [reflexivity|by apply heap_eq; cbn; lia|];
        rewrite ?negb_true_iff, ?Z.eqb_neq in *; unfold EINVAL, ENOMEM; lia|]
  end.
  destruct (linkg_thread_init_with_config _ _ _ _ _ _) as [ret t] eqn:Et.
  destruct (Z.eqb_spec ret 0) as [->|Hn]; cbn [negb].
  - right. destruct (thread_init_new _ _ _ _ _ _ Et) as (t'&->&Hi&Hs&Hf). eexists. split; [reflexivity|done].
  - left. eapply fails_run; [reflexivity|by apply heap_eq; cbn; lia|done].
Qed.

(** C22: Creating a link either fails with nothing left over, or sets up one of each
    resource; destroying the link once it is stopped gives every one of them back,
    whatever happened to it in between. *)
Theorem link_life_balanced api config ops out h : destroys api ->
  (exists ret, ret <> 0 /\ linkg_link_create api config ops out h = Some ((ret, None), h)) \/
  (exists l, linkg_link_create api config ops out h = Some ((0, Some l), add_all 1 h) /\ at_rest l l /\
   forall l' h', at_rest l l' -> linkg_link_destroy api (Some l') h' = Some (tt, add_all (-1) h')).
Proof.
  intros Hd. unfold linkg_link_create.
  destruct config as [cfg|], ops as [o|], out; try (left; by exists (- EINVAL)).
  destruct (lc_name cfg) as [name|], (lc_packet_pool cfg) as [pool|]; try (left; by exists (- EINVAL)).
  repeat match goal with |- context [(if ?b then _ else _) h] => destruct b eqn:?; [left; by eapply fails_run|] end.
  set (lk := Link _ _ _ _ _ _ _). munfold. unfold mbind, M_bind. cbn beta iota.
  destruct (runtime_create_run api lk (Some cfg) (add_links 1 h) eq_refl) as [(ret&Hn&->)|(r&->&Hi&Hs&Hf)].
  - left. destruct (Z.eqb_spec ret 0); [done|]. eapply fails_run; [reflexivity|by apply heap_eq; cbn; lia|done].
  - cbn [negb]. destruct (Z.eqb_spec (la_init api) 0) as [E|E]; cbn [negb].
    + right. rewrite Z.eqb_refl. cbn [negb]. eexists. split; [f_equal; f_equal; destruct h; reflexivity|]. split.
      * split; [done|]. split; [done|]. exists r, r. by splits.
      * intros l' h' (Es&Eo&r0&r'&Er&Er'&Hi'&Hs'&Hw). simplify_eq/=. unfold linkg_link_destroy. rewrite Es, Eo. cbn.
        destruct (lo_deinit o) eqn:Edi; [|by rewrite ?orb_true_r in *]. munfold. unfold mbind, M_bind.
        rewrite (runtime_destroy_run api l' r' _ Hd Er' Hi' Hs') by lia. done.
    + left. rewrite Z.eqb_refl. cbn [negb]. rewrite (runtime_destroy_run api _ r _ Hd) by done.
      eapply fails_run; [reflexivity|by apply heap_eq; cbn; lia|done].
Qed.

Lemma link_life_balanced_witness :
  exists l, linkg_link_create demo_link_api (Some demo_config) (Some demo_ops) true heap_zero = Some ((0, Some l), add_all 1 heap_zero).
Proof.
  destruct (link_life_balanced demo_link_api (Some demo_config) (Some demo_ops) true heap_zero) as [(ret&Hn&E)|(l&E&_)].
  - split; reflexivity.
  - exfalso. vm_compute in E. discriminate.
  - exists l. exact E.
Defined.
