(* ===== verification/LinkManager.v ===== *)
(** * The links of a node  (core/link/linkg_link_manager.c)

    The registry of the node's links: at most two, of different access types, each
    under an id of its own. The manager borrows links; a pointer is an index into
    the link objects of the program. Abstractly it is a finite map from ids to
    links ([registry]). Registration is part of the life cycle of the modules and
    not concurrent with itself; between two calls links start, stop and appear. *)

From S2P Require Import Prelude.
From S2P Require Import PacketPool.
From S2P Require Import LinkPath.
From S2P Require Import Thread.
From S2P Require Import Link.
From S2P Require Import LinkLife.

(** ** Data *)

Definition LINKG_LINK_MANAGER_MAX_LINKS := 2.

(** The number of the handler [_linkg_link_manager_receive]. *)
Definition manager_receive_function := 1.

Abbreviation link_ptr := nat.

Record linkg_link_manager_context := ManagerContext {
  mg_links : list (option link_ptr);
  mg_receive : option Z;
  mg_receive_user_data : Z;
  mg_count : Z;
  mg_next_id : Z;
  mg_initialized : bool }.

(** [g_link_manager] and the link objects. *)
Record manager_world := ManagerWorld {
  mw_manager : linkg_link_manager_context;
  mw_links : list linkg_link }.

Abbreviation MM := (M manager_world).

Definition manager_zero : linkg_link_manager_context := ManagerContext [None; None] None 0 0 0 false.

Definition set_manager (g : linkg_link_manager_context) (w : manager_world) : manager_world := ManagerWorld g (mw_links w).
Definition set_link (i : link_ptr) (l : linkg_link) (w : manager_world) : manager_world :=
  ManagerWorld (mw_manager w) (<[i := l]> (mw_links w)).
Definition set_slot (slot : nat) (link : option link_ptr) (count : Z) (g : linkg_link_manager_context) :=
  ManagerContext (<[slot := link]> (mg_links g)) (mg_receive g) (mg_receive_user_data g) count (mg_next_id g) (mg_initialized g).
Definition set_next_id (id : Z) (g : linkg_link_manager_context) :=
  ManagerContext (mg_links g) (mg_receive g) (mg_receive_user_data g) (mg_count g) id (mg_initialized g).
Definition set_handler (receive : option Z) (data : Z) (g : linkg_link_manager_context) :=
  ManagerContext (mg_links g) receive data (mg_count g) (mg_next_id g) (mg_initialized g).

(** ** Lookups *)

Definition link_at (i : link_ptr) : MM linkg_link := w ← get; of_option (mw_links w !! i).

(** The first registered link that passes a test. *)
Fixpoint first_link (test : linkg_link -> bool) (slots : list (option link_ptr)) : MM (option link_ptr) :=
  match slots with
  | [] => mret None
  | None :: slots' => first_link test slots'
  | Some i :: slots' => l ← link_at i; if test l then mret (Some i) else first_link test slots'
  end.

Definition _linkg_link_manager_find (link_id : Z) : MM (option link_ptr) :=
  if link_id =? LINKG_LINK_ID_INVALID then mret None
  else
    g ← gets mw_manager;
    first_link (fun l => linkg_link_get_id (Some l) =? link_id) (mg_links g).

Definition _linkg_link_manager_find_access (access : Z) : MM (option link_ptr) :=
  if access =? LINKG_LINK_ACCESS_NONE then mret None
  else
    g ← gets mw_manager;
    first_link (fun l => linkg_link_get_access (Some l) =? access) (mg_links g).

(** The code and the slot. *)
Definition _linkg_link_manager_find_slot (link : option link_ptr) : MM (Z * nat) :=
  match link with
  | None => mret (- EINVAL, 0%nat)
  | Some i =>
      g ← gets mw_manager;
      match list_find (eq (Some i)) (mg_links g) with
      | Some (slot, _) => mret (0, slot)
      | None => mret (- ENOENT, 0%nat)
      end
  end.

Definition _linkg_link_manager_find_free_slot : MM (Z * nat) :=
  g ← gets mw_manager;
  match list_find (eq None) (mg_links g) with
  | Some (slot, _) => mret (0, slot)
  | None => mret (- ENOSPC, 0%nat)
  end.

Definition skip_invalid (id : Z) : Z := if id =? LINKG_LINK_ID_INVALID then 1 else id.

(** The code and the id. *)
Fixpoint allocate_attempts (attempts : nat) (candidate : Z) : MM (Z * Z) :=
  match attempts with
  | O => mret (- ENOSPC, 0)
  | S attempts' =>
      let candidate := skip_invalid candidate in
      found ← _linkg_link_manager_find candidate;
      match found with
      | None =>
          modify (fun w => set_manager (set_next_id (skip_invalid (u32 (candidate + 1))) (mw_manager w)) w) ;;
          mret (0, candidate)
      | Some _ => allocate_attempts attempts' (u32 (candidate + 1))
      end
  end.

Definition _linkg_link_manager_allocate_id : MM (Z * Z) :=
  g ← gets mw_manager;
  allocate_attempts (Z.to_nat (LINKG_LINK_MANAGER_MAX_LINKS + 1)) (mg_next_id g).

Fixpoint slots_stopped (slots : list (option link_ptr)) : MM bool :=
  match slots with
  | [] => mret true
  | None :: slots' => slots_stopped slots'
  | Some i :: slots' =>
      l ← link_at i;
      if negb (linkg_link_get_state (Some l) =? LINKG_LINK_STATE_STOPPED) then mret false else slots_stopped slots'
  end.

Definition _linkg_link_manager_all_stopped : MM bool := g ← gets mw_manager; slots_stopped (mg_links g).

(** The handler that is called, with its data. *)
Definition _linkg_link_manager_receive (link : option link_ptr) (items_null : bool) (count : Z) : MM (option (Z * Z)) :=
  g ← gets mw_manager;
  if bool_decide (link = None) || items_null || (count =? 0) then mret None
  else mret ((fun receive => (receive, mg_receive_user_data g)) <$> mg_receive g).

(** ** Life cycle *)

Definition linkg_link_manager_init : MM Z :=
  g ← gets mw_manager;
  if mg_initialized g then mret (- EALREADY)
  else modify (set_manager (ManagerContext [None; None] None 0 0 1 true)) ;; mret 0.

Definition linkg_link_manager_deinit : MM Z :=
  g ← gets mw_manager;
  if negb (mg_initialized g) then mret 0
  else if negb (mg_count g =? 0) || bool_decide (mg_receive g <> None) then mret (- EBUSY)
  else modify (set_manager manager_zero) ;; mret 0.

(** ** Registration *)

Definition linkg_link_manager_register (link : option link_ptr) : MM Z :=
  g ← gets mw_manager;
  if negb (mg_initialized g) then mret (- ENODEV)
  else match link with
  | None => mret (- EINVAL)
  | Some i =>
      l ← link_at i;
      match lk_runtime l, lk_ops l with
      | Some runtime, Some _ =>
          if linkg_link_get_access (Some l) =? LINKG_LINK_ACCESS_NONE then mret (- EINVAL)
          else if negb (linkg_link_get_state (Some l) =? LINKG_LINK_STATE_STOPPED) then mret (- EBUSY)
          else if negb (linkg_link_get_id (Some l) =? LINKG_LINK_ID_INVALID) then mret (- EALREADY)
          else
            found ← _linkg_link_manager_find_slot link;
            if fst found =? 0 then mret (- EALREADY)
            else if negb (fst found =? - ENOENT) then mret (fst found)
            else
              same ← _linkg_link_manager_find_access (linkg_link_get_access (Some l));
              if bool_decide (same <> None) then mret (- EEXIST)
              else if LINKG_LINK_MANAGER_MAX_LINKS <=? mg_count g then mret (- ENOSPC)
              else if bool_decide (lr_receive runtime <> None) || negb (lr_receive_user_data runtime =? 0)
              then mret (- EBUSY)
              else
                free ← _linkg_link_manager_find_free_slot;
                if negb (fst free =? 0) then mret (fst free)
                else
                  id ← _linkg_link_manager_allocate_id;
                  if negb (fst id =? 0) then mret (fst id)
                  else
                    modify (set_link i (set_registration (snd id) (Some manager_receive_function) 0 l)) ;;
                    modify (fun w => set_manager (set_slot (snd free) link (u32 (mg_count (mw_manager w) + 1)) (mw_manager w)) w) ;;
                    mret 0
      | _, _ => mret (- EINVAL)
      end
  end.

Definition linkg_link_manager_unregister (link : option link_ptr) : MM Z :=
  g ← gets mw_manager;
  if negb (mg_initialized g) then mret (- ENODEV)
  else match link with
  | None => mret (- EINVAL)
  | Some i =>
      l ← link_at i;
      if bool_decide (lk_runtime l = None) then mret (- EINVAL)
      else if negb (linkg_link_get_state (Some l) =? LINKG_LINK_STATE_STOPPED) then mret (- EBUSY)
      else
        found ← _linkg_link_manager_find_slot link;
        if negb (fst found =? 0) then mret (fst found)
        else
          modify (fun w => set_manager (set_slot (snd found) None (u32 (mg_count (mw_manager w) - 1)) (mw_manager w)) w) ;;
          modify (set_link i (set_registration LINKG_LINK_ID_INVALID None 0 l)) ;;
          mret 0
  end.

Definition linkg_link_manager_register_receive_handler (receive : option Z) (user_data : Z) : MM Z :=
  g ← gets mw_manager;
  if negb (mg_initialized g) then mret (- ENODEV)
  else if bool_decide (receive = None) then mret (- EINVAL)
  else
    stopped ← _linkg_link_manager_all_stopped;
    if negb stopped then mret (- EBUSY)
    else if bool_decide (mg_receive g <> None) then mret (- EALREADY)
    else modify (set_manager (set_handler receive user_data g)) ;; mret 0.

Definition linkg_link_manager_unregister_receive_handler : MM Z :=
  g ← gets mw_manager;
  if negb (mg_initialized g) then mret (- ENODEV)
  else
    stopped ← _linkg_link_manager_all_stopped;
    if negb stopped then mret (- EBUSY)
    else modify (set_manager (set_handler None 0 g)) ;; mret 0.

(** ** Queries *)

Definition linkg_link_manager_get (link_id : Z) : MM (option link_ptr) :=
  g ← gets mw_manager;
  if negb (mg_initialized g) then mret None else _linkg_link_manager_find link_id.

Definition linkg_link_manager_get_by_access (access : Z) : MM (option link_ptr) :=
  g ← gets mw_manager;
  if negb (mg_initialized g) || (access =? LINKG_LINK_ACCESS_NONE) then mret None
  else _linkg_link_manager_find_access access.

Definition linkg_link_manager_get_id (access : Z) : MM Z :=
  found ← linkg_link_manager_get_by_access access;
  match found with
  | None => mret LINKG_LINK_ID_INVALID
  | Some i => l ← link_at i; mret (linkg_link_get_id (Some l))
  end.

Definition linkg_link_manager_count : MM Z :=
  g ← gets mw_manager;
  mret (if mg_initialized g then mg_count g else 0).

(** ** Purging *)

(** The purge of the link that owns the path: [purge] is the concrete link's, [l']
    the link as read under its io lock. *)
Definition linkg_link_manager_purge_tx_path (purge : link_ptr -> PM (Z * Z)) (l' : option linkg_link) (path : option linkg_path)
    (purged_count : bool) : M (manager_world * linkg_packet_pool) (Z * option Z) :=
  match path, purged_count with
  | Some pa, true =>
      g ← gets (fun s => mw_manager s.1);
      if negb (mg_initialized g) then mret (- ENODEV, Some 0)
      else if linkg_path_is_active path then mret (- EBUSY, Some 0)
      else if pa_link_id pa =? LINKG_LINK_ID_INVALID then mret (- ENODEV, Some 0)
      else
        found ← zoom fst (fun w s => (w, s.2)) (_linkg_link_manager_find (pa_link_id pa));
        match found with
        | None => mret (- ENOENT, Some 0)
        | Some i =>
            l ← zoom fst (fun w s => (w, s.2)) (link_at i);
            zoom snd (fun p s => (s.1, p)) (linkg_link_purge_tx_path (purge i) (Some l) l' path purged_count)
        end
  | _, _ => mret (- EINVAL, None)
  end.
