(* ===== verification/LinkRegistry.v ===== *)
(** * The link manager refines a finite map

    Between the calls of the manager links start and stop and new links appear.
    Whatever the sequence, the manager's table is a map from ids to links in which
    no link, id or access type occurs twice, and every call acts on it as it says. *)

From S2P Require Import Prelude.
From S2P Require Import PacketPool.
From S2P Require Import Thread.
From S2P Require Import Link.
From S2P Require Import LinkLife.
From S2P Require Import LinkManager.

(** ** Sequences of calls *)

Inductive manager_call :=
  | Init
  | Deinit
  | Register (link : option link_ptr)
  | Unregister (link : option link_ptr)
  | Register_handler (receive : option Z) (user_data : Z)
  | Unregister_handler
  | Get (link_id : Z)
  | Get_by_access (access : Z)
  | Get_id (access : Z)
  | Count.

(** A code or a number, or a pointer. *)
Definition manager_run (c : manager_call) : MM (Z + option link_ptr) :=
  match c with
  | Init => r ← linkg_link_manager_init; mret (inl r)
  | Deinit => r ← linkg_link_manager_deinit; mret (inl r)
  | Register link => r ← linkg_link_manager_register link; mret (inl r)
  | Unregister link => r ← linkg_link_manager_unregister link; mret (inl r)
  | Register_handler receive user_data => r ← linkg_link_manager_register_receive_handler receive user_data; mret (inl r)
  | Unregister_handler => r ← linkg_link_manager_unregister_receive_handler; mret (inl r)
  | Get link_id => r ← linkg_link_manager_get link_id; mret (inr r)
  | Get_by_access access => r ← linkg_link_manager_get_by_access access; mret (inr r)
  | Get_id access => r ← linkg_link_manager_get_id access; mret (inl r)
  | Count => r ← linkg_link_manager_count; mret (inl r)
  end.

(** Pointers handed to the manager point to link objects. *)
Definition call_valid (c : manager_call) (w : manager_world) : Prop :=
  match c with
  | Register (Some i) | Unregister (Some i) => (i < length (mw_links w))%nat
  | _ => True
  end.

Definition same_registration (l l' : linkg_link) : Prop := lk_id l' = lk_id l /\ lk_access l' = lk_access l.

(** Links live their lives, and new ones are created. *)
Definition evolves (w w' : manager_world) : Prop :=
  mw_manager w' = mw_manager w /\
  exists old new, mw_links w' = old ++ new /\ Forall2 same_registration (mw_links w) old /\
    Forall (fun l => lk_id l = LINKG_LINK_ID_INVALID) new.

Inductive manager_reachable : manager_world -> Prop :=
  | Manager_start : manager_reachable (ManagerWorld manager_zero [])
  | Manager_call c w r w' : manager_reachable w -> call_valid c w -> manager_run c w = Some (r, w') -> manager_reachable w'
  | Manager_evolve w w' : manager_reachable w -> evolves w w' -> manager_reachable w'.

(** ** The abstract registry *)

Definition entry (w : manager_world) (o : option link_ptr) : list (Z * link_ptr) :=
  match o with
  | Some i => match mw_links w !! i with Some l => [(lk_id l, i)] | None => [] end
  | None => []
  end.

Definition registry (w : manager_world) : gmap Z link_ptr := list_to_map (mg_links (mw_manager w) ≫= entry w).

(** The link is registered. *)
Definition member (w : manager_world) (i : link_ptr) (l : linkg_link) : Prop :=
  Some i ∈ mg_links (mw_manager w) /\ mw_links w !! i = Some l.

(** What registration asks for. *)
Definition registrable (w : manager_world) (link : option link_ptr) : Prop :=
  exists i l r, link = Some i /\ mg_initialized (mw_manager w) = true /\ mw_links w !! i = Some l /\
    lk_runtime l = Some r /\ lk_ops l <> None /\ lk_access l <> LINKG_LINK_ACCESS_NONE /\
    lk_state l = LINKG_LINK_STATE_STOPPED /\ lk_id l = LINKG_LINK_ID_INVALID /\
    lr_receive r = None /\ lr_receive_user_data r = 0 /\
    (forall j m, member w j m -> lk_access m <> lk_access l) /\ (size (registry w) < 2)%nat.

Definition call_spec (c : manager_call) (w : manager_world) (r : Z + option link_ptr) (w' : manager_world) : Prop :=
  match c, r with
  | Register link, inl ret =>
      (ret = 0 /\ (exists i id, link = Some i /\ 0 < id < 2 ^ 32 /\ registry w !! id = None /\
        registry w' = <[id := i]> (registry w)) \/ ret < 0 /\ w' = w) /\
      (registrable w link <-> ret = 0)
  | Unregister link, inl ret =>
      (ret = 0 /\ (exists i id, link = Some i /\ registry w !! id = Some i /\ registry w' = delete id (registry w)) \/
       ret < 0 /\ w' = w) /\
      (forall i l, link = Some i -> member w i l -> lk_runtime l <> None -> lk_state l = LINKG_LINK_STATE_STOPPED -> ret = 0)
  | Get link_id, inr found => w' = w /\ found = registry w !! link_id
  | Get_by_access access, inr found =>
      w' = w /\ forall i, found = Some i <-> exists id l, registry w !! id = Some i /\ mw_links w !! i = Some l /\ lk_access l = access
  | Get_id access, inl id =>
      w' = w /\ (id = LINKG_LINK_ID_INVALID /\ (forall i l, member w i l -> lk_access l <> access) \/
                exists i l, registry w !! id = Some i /\ mw_links w !! i = Some l /\ lk_access l = access)
  | Count, inl n => w' = w /\ n = Z.of_nat (size (registry w))
  | Init, inl ret | Register_handler _ _, inl ret | Unregister_handler, inl ret => registry w' = registry w /\ (ret <> 0 -> w' = w)
  | Deinit, inl ret => (ret = 0 /\ registry w = ∅ /\ registry w' = ∅) \/ (ret < 0 /\ w' = w)
  | _, _ => False
  end.

(** ** The invariant *)

Definition slot_count (o : option link_ptr) : Z := match o with Some _ => 1 | None => 0 end.

Record registry_ok (w : manager_world) : Prop := {
  ro_length : length (mg_links (mw_manager w)) = 2%nat;
  ro_member : forall i, Some i ∈ mg_links (mw_manager w) -> exists l, mw_links w !! i = Some l;
  ro_id : forall i l, member w i l -> 0 < lk_id l < 2 ^ 32 /\ lk_access l <> LINKG_LINK_ACCESS_NONE;
  ro_ids : forall i j l m, member w i l -> member w j m -> lk_id l = lk_id m -> i = j;
  ro_accesses : forall i j l m, member w i l -> member w j m -> lk_access l = lk_access m -> i = j;
  ro_slots : forall s t i, mg_links (mw_manager w) !! s = Some (Some i) -> mg_links (mw_manager w) !! t = Some (Some i) -> s = t;
  ro_free : forall i l, mw_links w !! i = Some l -> Some i ∉ mg_links (mw_manager w) -> lk_id l = LINKG_LINK_ID_INVALID;
  ro_count : mg_count (mw_manager w) = sumZ slot_count (mg_links (mw_manager w));
  ro_next : mg_initialized (mw_manager w) = true -> 0 < mg_next_id (mw_manager w) < 2 ^ 32;
  ro_off : mg_initialized (mw_manager w) = false -> mw_manager w = manager_zero }.

Lemma elem_entries w id i :
  (id, i) ∈ mg_links (mw_manager w) ≫= entry w <-> exists l, member w i l /\ lk_id l = id.
Proof.
  rewrite list_elem_of_bind. unfold entry, member. split.
  - intros (o&H&Ho). destruct o as [j|]; [|by apply elem_of_nil in H]. destruct (mw_links w !! j) as [l|] eqn:E; [|by apply elem_of_nil in H].
    apply list_elem_of_singleton in H. simplify_eq. by exists l.
  - intros (l&[Hs Hl]&<-). exists (Some i). rewrite Hl. split; [by left|done].
Qed.

Lemma registry_lookup w id i : registry_ok w -> registry w !! id = Some i <-> exists l, member w i l /\ lk_id l = id.
Proof.
  intros O. rewrite <- elem_entries. split.
  - apply elem_of_list_to_map_2.
  - intros H. apply elem_of_list_to_map_1'; [|done]. intros j Hj. apply elem_entries in H as (l&Hl&E), Hj as (m&Hm&E').
    apply (ro_ids w O i j l m); congruence.
Qed.

(** Equal registries by their members. *)
Lemma registry_eq w (m : gmap Z link_ptr) :
  registry_ok w -> (forall id i, m !! id = Some i <-> exists l, member w i l /\ lk_id l = id) -> registry w = m.
Proof.
  intros O H. apply map_eq. intros id. apply option_eq. intros i. rewrite H. by apply registry_lookup.
Qed.

Lemma registry_size w : registry_ok w -> Z.of_nat (size (registry w)) = sumZ slot_count (mg_links (mw_manager w)).
Proof.
  intros O. pose proof (ro_length w O) as Hl. pose proof (ro_member w O) as Hm. pose proof (ro_ids w O) as Hi. pose proof (ro_slots w O) as Hs.
  unfold registry, member in *. destruct (mg_links (mw_manager w)) as [|a [|b [|? ?]]] eqn:E; try done. cbn.
  destruct a as [i|], b as [j|]; cbn.
  - destruct (Hm i ltac:(set_solver)) as [l El], (Hm j ltac:(set_solver)) as [m Em]. rewrite El, Em. cbn.
    rewrite map_size_insert_None; [by rewrite map_size_insert_None|]. rewrite lookup_insert_ne; [done|]. intros Eid.
    assert (i = j) as <- by (eapply Hi; [split; [set_solver|exact El]|split; [set_solver|exact Em]|done]).
    by pose proof (Hs 0%nat 1%nat i eq_refl eq_refl).
  - destruct (Hm i ltac:(set_solver)) as [l El]. rewrite El. cbn. by rewrite map_size_insert_None.
  - destruct (Hm j ltac:(set_solver)) as [l El]. rewrite El. cbn. by rewrite map_size_insert_None.
  - done.
Qed.

(** ** The scans *)

Lemma link_at_run w i l : mw_links w !! i = Some l -> link_at i w = Some (l, w).
Proof. unfold link_at. munfold. unfold mbind, M_bind. by intros ->. Qed.

(** The first link that passes, and none before it. *)
Lemma first_link_run test slots w :
  (forall i, Some i ∈ slots -> exists l, mw_links w !! i = Some l) ->
  exists o, first_link test slots w = Some (o, w) /\
  match o with
  | Some i => Some i ∈ slots /\ exists l, mw_links w !! i = Some l /\ test l = true
  | None => forall i l, Some i ∈ slots -> mw_links w !! i = Some l -> test l = false
  end.
Proof.
  induction slots as [|[i|] slots IH]; intros H; cbn [first_link].
  - exists None. split; [done|]. intros i l Hi. by apply elem_of_nil in Hi.
  - destruct (H i ltac:(by left)) as [l Hl]. rewrite (bind_step _ _ _ _ _ (link_at_run w i l Hl)). destruct (test l) eqn:Et.
    + exists (Some i). split; [done|]. split; [by left|]. by exists l.
    + destruct IH as (o&E&Ho); [intros j Hj; apply H; by right|]. exists o. split; [done|]. destruct o as [j|].
      * destruct Ho as [Hj Ho]. split; [by right|done].
      * intros j m Hj Hm. apply elem_of_cons in Hj as [[= ->]|Hj]; [congruence|eauto].
  - destruct IH as (o&E&Ho); [intros j Hj; apply H; by right|]. exists o. split; [done|]. destruct o as [j|].
    + destruct Ho as [Hj Ho]. split; [by right|done].
    + intros j m Hj Hm. apply elem_of_cons in Hj as [Hj|Hj]; [done|eauto].
Qed.

Lemma find_run w id : registry_ok w -> _linkg_link_manager_find id w = Some (registry w !! id, w).
Proof.
  intros O. unfold _linkg_link_manager_find. destruct (Z.eqb_spec id LINKG_LINK_ID_INVALID) as [->|Hn].
  - destruct (registry w !! LINKG_LINK_ID_INVALID) as [i|] eqn:E; [|done]. apply (registry_lookup w _ i O) in E as (l&Hl&E).
    pose proof (ro_id w O i l Hl) as [H _]. unfold LINKG_LINK_ID_INVALID in E. lia.
  - rewrite bind_gets. destruct (first_link_run (fun l => linkg_link_get_id (Some l) =? id) (mg_links (mw_manager w)) w (ro_member w O))
      as (o&->&Ho). f_equal. f_equal. destruct o as [i|]; symmetry.
    + destruct Ho as (Hi&l&Hl&E). apply (registry_lookup w _ i O). exists l. split; [done|]. cbn in E. lia.
    + destruct (registry w !! id) as [i|] eqn:E; [|done]. apply (registry_lookup w _ i O) in E as (l&[Hs Hl]&E).
      specialize (Ho i l Hs Hl). cbn in Ho. lia.
Qed.

Lemma find_access_run w access : registry_ok w ->
  exists o, _linkg_link_manager_find_access access w = Some (o, w) /\
  match o with
  | Some i => exists l, member w i l /\ lk_access l = access
  | None => forall i l, member w i l -> lk_access l <> access
  end.
Proof.
  intros O. unfold _linkg_link_manager_find_access. destruct (Z.eqb_spec access LINKG_LINK_ACCESS_NONE) as [->|Hn].
  - exists None. split; [done|]. intros i l H. apply (ro_id w O i l H).
  - rewrite bind_gets. destruct (first_link_run (fun l => linkg_link_get_access (Some l) =? access) (mg_links (mw_manager w)) w
      (ro_member w O)) as (o&->&Ho). exists o. split; [done|]. destruct o as [i|].
    + destruct Ho as (Hi&l&Hl&E). exists l. split; [done|]. cbn in E. lia.
    + intros i l [Hs Hl]. specialize (Ho i l Hs Hl). cbn in Ho. lia.
Qed.

Lemma find_slot_run w i :
  exists ret slot, _linkg_link_manager_find_slot (Some i) w = Some ((ret, slot), w) /\
  ((ret = 0 /\ mg_links (mw_manager w) !! slot = Some (Some i)) \/ (ret = - ENOENT /\ Some i ∉ mg_links (mw_manager w))).
Proof.
  unfold _linkg_link_manager_find_slot. rewrite bind_gets. destruct (list_find _ _) as [[slot o]|] eqn:E.
  - apply list_find_Some in E as (E&<-&_). exists 0, slot. auto.
  - exists (- ENOENT), 0%nat. split; [done|]. right. split; [done|]. intros H. apply list_find_None in E.
    rewrite Forall_forall in E. by apply (E _ H).
Qed.

Lemma find_free_run w :
  exists ret slot, _linkg_link_manager_find_free_slot w = Some ((ret, slot), w) /\
  ((ret = 0 /\ mg_links (mw_manager w) !! slot = Some None) \/ (ret = - ENOSPC /\ None ∉ mg_links (mw_manager w))).
Proof.
  unfold _linkg_link_manager_find_free_slot. rewrite bind_gets. destruct (list_find _ _) as [[slot o]|] eqn:E.
  - apply list_find_Some in E as (E&<-&_). exists 0, slot. auto.
  - exists (- ENOSPC), 0%nat. split; [done|]. right. split; [done|]. intros H. apply list_find_None in E.
    rewrite Forall_forall in E. by apply (E _ H).
Qed.

(** A full table has no free slot, a table with less than two links has one. *)
Lemma free_slot w : registry_ok w -> (None ∈ mg_links (mw_manager w) <-> mg_count (mw_manager w) < 2).
Proof.
  intros O. rewrite (ro_count w O). pose proof (ro_length w O) as Hl.
  destruct (mg_links (mw_manager w)) as [|a [|b [|? ?]]]; try done. destruct a, b; cbn; set_solver by lia.
Qed.

(** ** Allocation of an id *)

Lemma candidate_range id : 0 <= id < 2 ^ 32 -> 0 < skip_invalid id < 2 ^ 32.
Proof. unfold skip_invalid, LINKG_LINK_ID_INVALID. intros H. destruct (Z.eqb_spec id 0); lia. Qed.

Fixpoint candidates (n : nat) (id : Z) : list Z :=
  match n with
  | O => []
  | S n' => skip_invalid id :: candidates n' (u32 (skip_invalid id + 1))
  end.

Lemma candidates_distinct id : 0 <= id < 2 ^ 32 -> NoDup (candidates 3 id).
Proof.
  intros H. pose proof (candidate_range id H) as H0. cbn [candidates]. set (a := skip_invalid id) in *.
  assert (0 <= u32 (a + 1) < 2 ^ 32) as H1 by (apply Z.mod_pos_bound; lia).
  assert (forall x, 0 < x < 2 ^ 32 -> skip_invalid (u32 (x + 1)) = if x =? 2 ^ 32 - 1 then 1 else x + 1) as Hs.
  { intros x Hx. unfold skip_invalid, wrap, LINKG_LINK_ID_INVALID. destruct (Z.eqb_spec x (2 ^ 32 - 1)) as [->|]; [done|].
    rewrite Z.mod_small by lia. destruct (Z.eqb_spec (x + 1) 0); lia. }
  rewrite !Hs by (rewrite ?Hs; [destruct (a =? 2 ^ 32 - 1) eqn:?; lia|lia..] || lia).
  rewrite !NoDup_cons, !not_elem_of_cons. splits; try apply not_elem_of_nil; try apply NoDup_nil_2;
    destruct (Z.eqb_spec a (2 ^ 32 - 1)); repeat match goal with |- context [?x =? ?y] => destruct (Z.eqb_spec x y) end; lia.
Qed.

Lemma allocate_run w n id :
  registry_ok w -> 0 <= id < 2 ^ 32 ->
  (exists id' next, allocate_attempts n id w = Some ((0, id'), set_manager (set_next_id next (mw_manager w)) w) /\
     registry w !! id' = None /\ 0 < id' < 2 ^ 32 /\ 0 < next < 2 ^ 32) \/
  (allocate_attempts n id w = Some ((- ENOSPC, 0), w) /\
   forall c, c ∈ candidates n id -> is_Some (registry w !! c)).
Proof.
  intros O. revert id. induction n as [|n IH]; intros id Hid; cbn [allocate_attempts]; [right; split; [done|intros c Hcc; by apply elem_of_nil in Hcc]|].
  pose proof (candidate_range id Hid) as Hc. rewrite (bind_step _ _ _ _ _ (find_run w _ O)).
  assert (0 <= u32 (skip_invalid id + 1) < 2 ^ 32) as Hu by (apply Z.mod_pos_bound; lia).
  destruct (registry w !! skip_invalid id) as [i|] eqn:E.
  - destruct (IH _ Hu) as [H|(H&Hall)]; [by left|]. right. split; [done|].
    intros c Hcc. apply elem_of_cons in Hcc as [->|Hcc]; [by eexists|auto].
  - left. exists (skip_invalid id), (skip_invalid (u32 (skip_invalid id + 1))). splits; try done; by apply candidate_range.
Qed.

(** The ids that are tried are different: with less than three links one is free. *)
Lemma allocate_succeeds w :
  registry_ok w -> mg_initialized (mw_manager w) = true ->
  exists id next, _linkg_link_manager_allocate_id w = Some ((0, id), set_manager (set_next_id next (mw_manager w)) w) /\
    registry w !! id = None /\ 0 < id < 2 ^ 32 /\ 0 < next < 2 ^ 32.
Proof.
  intros O Hi. unfold _linkg_link_manager_allocate_id. rewrite bind_gets. pose proof (ro_next w O Hi) as Hn.
  destruct (allocate_run w (Z.to_nat (LINKG_LINK_MANAGER_MAX_LINKS + 1)) (mg_next_id (mw_manager w)) O) as [H|[_ Hall]]; [lia|done|].
  exfalso. pose proof (candidates_distinct (mg_next_id (mw_manager w)) ltac:(lia)) as Hd.
  assert (list_to_set (candidates 3 (mg_next_id (mw_manager w))) ⊆ dom (registry w)) as Hsub.
  { intros c Hc. apply elem_of_list_to_set in Hc. apply elem_of_dom. by apply Hall. }
  apply subseteq_size in Hsub. rewrite size_list_to_set in Hsub by done. rewrite size_dom in Hsub. cbn in Hsub.
  pose proof (registry_size w O) as Hs. pose proof (ro_length w O) as Hl.
  destruct (mg_links (mw_manager w)) as [|a [|b [|? ?]]]; try done. destruct a, b; cbn in Hs; lia.
Qed.

(** ** Registering and letting go *)

(** The manager after a registration of [i] in [slot]. *)
Definition after_register (w : manager_world) (i slot : nat) (l : linkg_link) (next : Z) : manager_world :=
  ManagerWorld (set_slot slot (Some i) (u32 (mg_count (mw_manager w) + 1)) (set_next_id next (mw_manager w)))
    (<[i := l]> (mw_links w)).

Definition after_unregister (w : manager_world) (i slot : nat) (l : linkg_link) : manager_world :=
  ManagerWorld (set_slot slot None (u32 (mg_count (mw_manager w) - 1)) (mw_manager w)) (<[i := l]> (mw_links w)).

Lemma elem_insert_slot (slots : list (option link_ptr)) slot o j :
  (slot < length slots)%nat -> (forall s, slots !! s = Some (Some j) -> s <> slot) ->
  Some j ∈ <[slot := o]> slots <-> o = Some j \/ Some j ∈ slots.
Proof.
  intros Hs Hj. rewrite !list_elem_of_lookup. split.
  - intros [s H]. rewrite lookup_insert_case in H by done. case_decide; [left; congruence|eauto].
  - intros [->|[s H]].
    + exists slot. rewrite lookup_insert_case by done. by rewrite decide_True.
    + exists s. rewrite lookup_insert_case by done. rewrite decide_False; [done|]. intros ->. by apply (Hj s H).
Qed.

Lemma count_small w : registry_ok w -> 0 <= mg_count (mw_manager w) <= 2.
Proof.
  intros O. rewrite (ro_count w O). pose proof (ro_length w O).
  destruct (mg_links (mw_manager w)) as [|a [|b [|? ?]]]; try done. destruct a, b; cbn; lia.
Qed.

Section register.
Context (w : manager_world) (i slot : nat) (l l' : linkg_link) (next : Z).
Context (O : registry_ok w) (Hslot : mg_links (mw_manager w) !! slot = Some None)
  (Hout : Some i ∉ mg_links (mw_manager w)) (Hl : mw_links w !! i = Some l)
  (Hid : 0 < lk_id l' < 2 ^ 32) (Hfree : registry w !! lk_id l' = None)
  (Hacc : lk_access l' <> LINKG_LINK_ACCESS_NONE) (Hother : forall j m, member w j m -> lk_access m <> lk_access l')
  (Hnext : 0 < next < 2 ^ 32) (Hinit : mg_initialized (mw_manager w) = true).

Lemma register_member j m :
  member (after_register w i slot l' next) j m <-> (j = i /\ m = l') \/ (j <> i /\ member w j m).
Proof using O Hslot Hout Hl.
  pose proof (lookup_lt_Some _ _ _ Hslot) as Hlt. pose proof (lookup_lt_Some _ _ _ Hl) as Hli.
  unfold member, after_register. cbn. rewrite elem_insert_slot by (done || (intros s Hs ->; congruence)).
  rewrite lookup_insert_case by done. case_decide as E; [subst|]; split.
  - intros [_ [= <-]]. by left.
  - intros [[_ ->]|[? _]]; [auto|done].
  - intros [[[= ->]|Hj] Hm]; [done|]. right. auto.
  - intros [[-> _]|[_ [Hj Hm]]]; [done|auto].
Qed.

Lemma register_ok : registry_ok (after_register w i slot l' next).
Proof using O Hslot Hout Hl Hid Hfree Hacc Hother Hnext Hinit.
  pose proof register_member as Hm. pose proof (lookup_lt_Some _ _ _ Hslot) as Hlt. pose proof (lookup_lt_Some _ _ _ Hl) as Hli.
  assert (forall j m, member w j m -> lk_id m <> lk_id l') as Hne.
  { intros j m Hj E. assert (registry w !! lk_id l' = Some j) as H by (apply registry_lookup; [done|by exists m]). congruence. }
  split.
  - cbn. rewrite length_insert. apply (ro_length w O).
  - cbn. intros j Hj. rewrite elem_insert_slot in Hj by (done || (intros s Hs ->; congruence)).
    rewrite lookup_insert_case by done. case_decide; [by eexists|]. destruct Hj as [[= ->]|Hj]; [done|by apply (ro_member w O)].
  - intros j m [[-> ->]|[_ Hj]]%Hm; [done|by apply (ro_id w O j m)].
  - intros j k m n [[-> ->]|[Hj1 Hj]]%Hm [[-> ->]|[Hk1 Hk]]%Hm E; [done| | |by apply (ro_ids w O j k m n)].
    + by destruct (Hne k n Hk).
    + by destruct (Hne j m Hj).
  - intros j k m n [[-> ->]|[Hj1 Hj]]%Hm [[-> ->]|[Hk1 Hk]]%Hm E; [done| | |by apply (ro_accesses w O j k m n)].
    + by destruct (Hother k n Hk).
    + by destruct (Hother j m Hj).
  - cbn. intros s t j. rewrite !lookup_insert_case by done. intros Hs Ht.
    assert (forall u, mg_links (mw_manager w) !! u <> Some (Some i)) as Hu.
    { intros u Hu. apply Hout. by eapply list_elem_of_lookup_2. }
    case_decide; case_decide; try congruence; simplify_eq; try (by destruct (Hu s)); try (by destruct (Hu t)).
    by apply (ro_slots w O s t j).
  - cbn. intros j m. rewrite lookup_insert_case by done. rewrite elem_insert_slot by (done || (intros s Hs ->; congruence)).
    case_decide as E; [subst|]; intros Hj Hn; [exfalso; apply Hn; by left|]. apply (ro_free w O j m Hj). intros H. apply Hn. by right.
  - cbn. rewrite (sumZ_insert slot_count _ slot _ _ Hslot), <- (ro_count w O). cbn [slot_count].
    pose proof (count_small w O). unfold wrap. rewrite Z.mod_small; lia.
  - done.
  - cbn. congruence.
Qed.

Lemma register_registry : registry (after_register w i slot l' next) = <[lk_id l' := i]> (registry w).
Proof using O Hslot Hout Hl Hid Hfree Hacc Hother Hnext Hinit.
  pose proof register_member as Hm. apply registry_eq; [apply register_ok|]. intros id j.
  destruct (decide (lk_id l' = id)) as [<-|Hn].
  - rewrite lookup_insert_eq. split.
    + intros [= <-]. exists l'. split; [apply Hm; by left|done].
    + intros (m&[[-> ->]|[Hj1 Hj]]%Hm&E); [done|]. assert (registry w !! lk_id l' = Some j) as H by (apply registry_lookup; [done|by exists m]).
      congruence.
  - rewrite lookup_insert_ne by done. rewrite (registry_lookup w id j O). split.
    + intros (m&Hj&E). exists m. split; [|done]. apply Hm. right. split; [|done]. intros ->. apply Hout. apply Hj.
    + intros (m&[[-> ->]|[Hj1 Hj]]%Hm&E); [done|by exists m].
Qed.

End register.

Section unregister.
Context (w : manager_world) (i slot : nat) (l l' : linkg_link).
Context (O : registry_ok w) (Hslot : mg_links (mw_manager w) !! slot = Some (Some i)) (Hl : mw_links w !! i = Some l)
  (Hid : lk_id l' = LINKG_LINK_ID_INVALID) (Hinit : mg_initialized (mw_manager w) = true).

Lemma unregister_elem j : Some j ∈ <[slot := None]> (mg_links (mw_manager w)) <-> j <> i /\ Some j ∈ mg_links (mw_manager w).
Proof using O Hslot.
  pose proof (lookup_lt_Some _ _ _ Hslot) as Hlt. rewrite !list_elem_of_lookup. split.
  - intros [s H]. rewrite lookup_insert_case in H by done. case_decide as E; [done|]. split; [|eauto].
    intros ->. apply E. by apply (ro_slots w O slot s i).
  - intros [Hn [s H]]. exists s. rewrite lookup_insert_case by done. rewrite decide_False; [done|]. intros ->. congruence.
Qed.

Lemma unregister_member j m : member (after_unregister w i slot l') j m <-> j <> i /\ member w j m.
Proof using O Hslot Hl.
  pose proof (lookup_lt_Some _ _ _ Hl) as Hli. unfold member, after_unregister. cbn. rewrite unregister_elem.
  rewrite lookup_insert_case by done. case_decide; naive_solver.
Qed.

Lemma unregister_ok : registry_ok (after_unregister w i slot l').
Proof using O Hslot Hl Hid Hinit.
  pose proof unregister_member as Hm. pose proof (lookup_lt_Some _ _ _ Hslot) as Hlt. pose proof (lookup_lt_Some _ _ _ Hl) as Hli.
  split.
  - cbn. rewrite length_insert. apply (ro_length w O).
  - cbn. intros j [Hn Hj]%unregister_elem. rewrite list_lookup_insert_ne by done. by apply (ro_member w O).
  - intros j m [_ Hj]%Hm. by apply (ro_id w O j m).
  - intros j k m n [_ Hj]%Hm [_ Hk]%Hm. by apply (ro_ids w O j k m n).
  - intros j k m n [_ Hj]%Hm [_ Hk]%Hm. by apply (ro_accesses w O j k m n).
  - cbn. intros s t j. rewrite !lookup_insert_case by done. case_decide; [done|]. case_decide; [done|]. by apply (ro_slots w O s t j).
  - cbn. intros j m. rewrite lookup_insert_case by done. rewrite unregister_elem. case_decide as E; [naive_solver|].
    intros Hj Hn. apply (ro_free w O j m Hj). intros H. apply Hn. auto.
  - cbn. rewrite (sumZ_insert slot_count _ slot _ _ Hslot), <- (ro_count w O). cbn [slot_count].
    pose proof (count_small w O). assert (1 <= mg_count (mw_manager w)).
    { rewrite (ro_count w O). apply (sumZ_lookup_le slot_count _ slot (Some i)); [|done]. intros [?|] _; cbn; lia. }
    unfold wrap. rewrite Z.mod_small; lia.
  - cbn. intros _. by apply (ro_next w O).
  - cbn. congruence.
Qed.

Lemma unregister_registry : registry (after_unregister w i slot l') = delete (lk_id l) (registry w).
Proof using O Hslot Hl Hid Hinit.
  pose proof unregister_member as Hm. apply registry_eq; [apply unregister_ok|]. intros id j.
  assert (member w i l) as Hi by (split; [by eapply list_elem_of_lookup_2|done]).
  rewrite lookup_delete_Some, (registry_lookup w id j O). split.
  - intros (Hn&m&Hj&E). exists m. split; [|done]. apply Hm. split; [|done]. intros ->.
    destruct Hi as [_ Hi], Hj as [_ Hj]. congruence.
  - intros (m&[Hn Hj]%Hm&E). split; [|by exists m]. intros E'. apply Hn. apply (ro_ids w O j i m l); congruence.
Qed.

End unregister.

(** ** Every call *)

Lemma evolves_ok w w' : evolves w w' -> registry_ok w -> registry_ok w'.
Proof.
  intros (Eg&old&new&El&HF&Hnew) O.
  assert (forall i l', mw_links w' !! i = Some l' ->
    (exists l, mw_links w !! i = Some l /\ same_registration l l') \/ ((length (mw_links w) <= i)%nat /\ lk_id l' = LINKG_LINK_ID_INVALID)) as Hback.
  { intros i l' Hi. rewrite El in Hi. apply lookup_app_Some in Hi as [Hi|[Hi Hn]].
    - left. by apply (Forall2_lookup_r _ _ _ _ _ HF Hi).
    - right. rewrite (Forall2_length _ _ _ HF). split; [done|]. by eapply Forall_lookup_1 in Hnew. }
  assert (forall i l', member w' i l' -> exists l, member w i l /\ lk_id l' = lk_id l /\ lk_access l' = lk_access l) as Hm.
  { intros i l' [Hs Hi]. rewrite Eg in Hs. destruct (ro_member w O i Hs) as [l Hl]. destruct (Hback i l' Hi) as [(m&Hm&E1&E2)|[Hlen _]].
    - exists m. by split.
    - apply lookup_lt_Some in Hl. lia. }
  split; rewrite ?Eg; try apply O.
  - intros i Hi. destruct (ro_member w O i Hi) as [l Hl]. rewrite El.
    destruct (Forall2_lookup_l _ _ _ _ _ HF Hl) as (l'&Hl'&_). exists l'. by apply lookup_app_l_Some.
  - intros i l' (l&Hl&->&->)%Hm. by apply (ro_id w O i l).
  - intros i j l m (l0&Hl&->&_)%Hm (m0&Hm0&->&_)%Hm. by apply (ro_ids w O i j l0 m0).
  - intros i j l m (l0&Hl&_&->)%Hm (m0&Hm0&_&->)%Hm. by apply (ro_accesses w O i j l0 m0).
  - intros i l Hi Hn. destruct (Hback i l Hi) as [(l0&Hl0&->&_)|[_ ?]]; [|done]. by apply (ro_free w O i l0).
Qed.

Lemma registry_none w : registry_ok w -> mg_count (mw_manager w) = 0 -> registry w = ∅.
Proof.
  intros O H. apply map_size_empty_inv. pose proof (registry_size w O) as E. rewrite <- (ro_count w O), H in E. lia.
Qed.

Lemma slots_stopped_run w slots :
  (forall i, Some i ∈ slots -> exists l, mw_links w !! i = Some l) -> exists b, slots_stopped slots w = Some (b, w).
Proof.
  induction slots as [|[i|] slots IH]; intros H; cbn [slots_stopped]; [by eexists| |].
  - destruct (H i ltac:(by left)) as [l Hl]. rewrite (bind_step _ _ _ _ _ (link_at_run w i l Hl)).
    destruct (negb _); [by eexists|]. apply IH. intros j Hj. apply H. by right.
  - apply IH. intros j Hj. apply H. by right.
Qed.

(** Only the handler changes. *)
Lemma handler_ok w receive data : registry_ok w -> mg_initialized (mw_manager w) = true ->
  registry_ok (set_manager (set_handler receive data (mw_manager w)) w) /\
  registry (set_manager (set_handler receive data (mw_manager w)) w) = registry w.
Proof. intros O Hi. split; [|done]. split; try apply O. cbn. congruence. Qed.

Lemma empty_ok w g : registry_ok w -> mg_count (mw_manager w) = 0 -> mg_links g = [None; None] -> mg_count g = 0 ->
  (mg_initialized g = true -> 0 < mg_next_id g < 2 ^ 32) -> (mg_initialized g = false -> g = manager_zero) ->
  registry_ok (set_manager g w) /\ registry (set_manager g w) = ∅.
Proof.
  intros O H Hl Hc Hn Hz. assert (forall i, Some i ∉ mg_links (mw_manager w)) as Hnone.
  { intros i Hi. pose proof (registry_none w O H) as E. destruct (ro_member w O i Hi) as [l Hli].
    assert (registry w !! lk_id l = Some i) as Hr by (apply registry_lookup; [done|by exists l]). by rewrite E in Hr. }
  assert (registry_ok (set_manager g w)) as O'.
  { split; unfold member; cbn; rewrite ?Hl, ?Hc; try done.
    - set_solver.
    - set_solver.
    - set_solver.
    - set_solver.
    - intros [|[|s]] [|[|t]] i; done.
    - intros i l Hi _. by apply (ro_free w O i l Hi). }
  split; [done|]. apply registry_none; [done|]. cbn. by rewrite Hc.
Qed.

Lemma register_run w link : registry_ok w -> call_valid (Register link) w ->
  exists ret w', linkg_link_manager_register link w = Some (ret, w') /\ registry_ok w' /\ call_spec (Register link) w (inl ret) w'.
Proof.
  intros O Hv. unfold linkg_link_manager_register. rewrite bind_gets.
  assert (forall ret, ret < 0 -> ~ registrable w link -> exists r w', (mret ret : MM Z) w = Some (r, w') /\ registry_ok w' /\
    call_spec (Register link) w (inl r) w') as Hfail.
  { intros ret Hr Hn. exists ret, w. splits; try done. split; [by right|]. split; [done|lia]. }
  destruct (mg_initialized (mw_manager w)) eqn:Hi; cbn [negb]; [|apply Hfail; [done|intros (i&l&r&_&H&_); congruence]].
  destruct link as [i|]; [|apply Hfail; [done|by intros (i&l&r&H&_)]].
  cbn in Hv. apply lookup_lt_is_Some_2 in Hv as [l Hl]. rewrite (bind_step _ _ _ _ _ (link_at_run w i l Hl)).
  assert (registrable w (Some i) -> exists r, lk_runtime l = Some r /\ lk_ops l <> None /\ lk_access l <> LINKG_LINK_ACCESS_NONE /\
    lk_state l = LINKG_LINK_STATE_STOPPED /\ lk_id l = LINKG_LINK_ID_INVALID /\ lr_receive r = None /\ lr_receive_user_data r = 0 /\
    (forall j m, member w j m -> lk_access m <> lk_access l) /\ (size (registry w) < 2)%nat) as Hreg.
  { intros (i'&l'&r&[= <-]&_&Hl'&Hrest). simplify_eq. by exists r. }
  destruct (lk_runtime l) as [r|] eqn:Er; [|destruct (lk_ops l); (apply Hfail; [done|]; intros H; destruct (Hreg H) as (?&?&_); done)].
  destruct (lk_ops l) as [ops|] eqn:Eo; [|apply Hfail; [done|]; intros H; destruct (Hreg H) as (?&_&?&_); done].
  cbn [linkg_link_get_access linkg_link_get_state linkg_link_get_id from_option].
  destruct (Z.eqb_spec (lk_access l) LINKG_LINK_ACCESS_NONE) as [E1|E1]; [apply Hfail; [done|]; intros H; destruct (Hreg H) as (?&_&_&?&_); done|].
  destruct (Z.eqb_spec (lk_state l) LINKG_LINK_STATE_STOPPED) as [E2|E2]; cbn [negb];
    [|apply Hfail; [done|]; intros H; destruct (Hreg H) as (?&_&_&_&?&_); done].
  destruct (Z.eqb_spec (lk_id l) LINKG_LINK_ID_INVALID) as [E3|E3]; cbn [negb];
    [|apply Hfail; [done|]; intros H; destruct (Hreg H) as (?&_&_&_&_&?&_); done].
  destruct (find_slot_run w i) as (ret&slot0&Ef&Hf). rewrite (bind_step _ _ _ _ _ Ef). cbn [fst].
  assert (Some i ∉ mg_links (mw_manager w)) as Hout.
  { intros H. pose proof (ro_id w O i l (conj H Hl)) as [Hid _]. unfold LINKG_LINK_ID_INVALID in E3. lia. }
  destruct Hf as [[-> Hf]|[-> _]]; [by destruct Hout; eapply list_elem_of_lookup_2|]. rewrite Z.eqb_refl. change (- ENOENT =? 0) with false. cbn [negb].
  destruct (find_access_run w (lk_access l) O) as (same&Es&Hs). rewrite (bind_step _ _ _ _ _ Es).
  destruct same as [j|]; [rewrite bool_decide_eq_true_2 by done|rewrite bool_decide_eq_false_2 by tauto].
  { apply Hfail; [done|]. destruct Hs as (m&Hm&E). intros H. destruct (Hreg H) as (?&_&_&_&_&_&_&_&Hno&_). by apply (Hno j m). }
  pose proof (registry_size w O) as Hsz. rewrite <- (ro_count w O) in Hsz.
  destruct (Z.leb_spec LINKG_LINK_MANAGER_MAX_LINKS (mg_count (mw_manager w))) as [E4|E4];
    [apply Hfail; [done|]; intros H; destruct (Hreg H) as (?&_&_&_&_&_&_&_&_&?); unfold LINKG_LINK_MANAGER_MAX_LINKS in E4; lia|].
  destruct (bool_decide (lr_receive r <> None) || negb (lr_receive_user_data r =? 0)) eqn:E5.
  { apply Hfail; [done|]. intros H. destruct (Hreg H) as (r'&E&_&_&_&_&H1&H2&_). simplify_eq. by rewrite H1, H2 in E5. }
  destruct (find_free_run w) as (ret&slot&Efr&Hfr). rewrite (bind_step _ _ _ _ _ Efr). cbn [fst snd].
  destruct Hfr as [[-> Hfr]|[_ Hfr]]; [|by destruct Hfr; apply (free_slot w O)]. cbn [Z.eqb negb].
  destruct (allocate_succeeds w O Hi) as (id&next&Ea&Hfree&Hid&Hnext). rewrite (bind_step _ _ _ _ _ Ea). cbn [fst snd Z.eqb negb].
  rewrite !bind_modify, ret_run. set (l' := set_registration id (Some manager_receive_function) 0 l).
  assert (registry_ok (after_register w i slot l' next)) as O' by (by apply (register_ok w i slot l l' next O Hfr Hout Hl)).
  exists 0, (after_register w i slot l' next). splits; try done. split.
  - left. split; [done|]. exists i, id. splits; try done; try lia. by apply (register_registry w i slot l l' next).
  - split; [done|]. intros _. apply orb_false_iff in E5 as [E5 E6]. exists i, l, r. rewrite bool_decide_eq_false in E5.
    splits; try done; [by rewrite Eo|destruct (lr_receive r); [by destruct E5|done]|lia|unfold LINKG_LINK_MANAGER_MAX_LINKS in E4; lia].
Qed.

Lemma unregister_run w link : registry_ok w -> call_valid (Unregister link) w ->
  exists ret w', linkg_link_manager_unregister link w = Some (ret, w') /\ registry_ok w' /\ call_spec (Unregister link) w (inl ret) w'.
Proof.
  intros O Hv. unfold linkg_link_manager_unregister. rewrite bind_gets.
  assert (forall ret, ret < 0 ->
    ~ (exists i l, link = Some i /\ member w i l /\ lk_runtime l <> None /\ lk_state l = LINKG_LINK_STATE_STOPPED) ->
    exists r w', (mret ret : MM Z) w = Some (r, w') /\ registry_ok w' /\ call_spec (Unregister link) w (inl r) w') as Hfail.
  { intros ret Hr Hn. exists ret, w. splits; try done. split; [by right|]. intros i l E Hm H1 H2. destruct Hn. by exists i, l. }
  destruct (mg_initialized (mw_manager w)) eqn:Hi; cbn [negb].
  2:{ apply Hfail; [done|]. intros (i&l&_&[Hs _]&_). rewrite (ro_off w O Hi) in Hs. cbn in Hs. set_solver. }
  destruct link as [i|]; [|apply Hfail; [done|by intros (i&l&H&_)]].
  cbn in Hv. apply lookup_lt_is_Some_2 in Hv as [l Hl]. rewrite (bind_step _ _ _ _ _ (link_at_run w i l Hl)).
  case_bool_decide as E1; [apply Hfail; [done|]; intros (i'&l'&[= <-]&[_ Hl']&H&_); simplify_eq; done|].
  cbn [linkg_link_get_state from_option]. destruct (Z.eqb_spec (lk_state l) LINKG_LINK_STATE_STOPPED) as [E2|E2]; cbn [negb];
    [|apply Hfail; [done|]; intros (i'&l'&[= <-]&[_ Hl']&_&H); simplify_eq; done].
  destruct (find_slot_run w i) as (ret&slot&Ef&Hf). rewrite (bind_step _ _ _ _ _ Ef). cbn [fst snd].
  destruct Hf as [[-> Hf]|[-> Hf]]; [change (negb (0 =? 0)) with false|change (negb (- ENOENT =? 0)) with true; apply Hfail; [done|]; intros (i'&l'&[= <-]&[Hs _]&_); done].
  cbn iota. rewrite !bind_modify, ret_run. set (l' := set_registration LINKG_LINK_ID_INVALID None 0 l).
  assert (registry_ok (after_unregister w i slot l')) as O' by (by apply (unregister_ok w i slot l)).
  exists 0, (after_unregister w i slot l'). splits; try done. split; [|done]. left. split; [done|]. exists i, (lk_id l). splits; try done.
  - apply registry_lookup; [done|]. exists l. split; [|done]. split; [by eapply list_elem_of_lookup_2|done].
  - by apply (unregister_registry w i slot l l').
Qed.

Lemma run_inl (m : MM Z) w ret w' : m w = Some (ret, w') ->
  (r ← m; mret (inl r) : MM (Z + option link_ptr)) w = Some (inl ret, w').
Proof. intros E. by rewrite (bind_step _ _ _ _ _ E). Qed.

Lemma run_inr (m : MM (option link_ptr)) w o w' : m w = Some (o, w') ->
  (r ← m; mret (inr r) : MM (Z + option link_ptr)) w = Some (inr o, w').
Proof. intros E. by rewrite (bind_step _ _ _ _ _ E). Qed.

Lemma get_by_access_run w access : registry_ok w ->
  exists o, linkg_link_manager_get_by_access access w = Some (o, w) /\
  match o with
  | Some i => exists l, member w i l /\ lk_access l = access
  | None => forall i l, member w i l -> lk_access l <> access
  end.
Proof.
  intros O. unfold linkg_link_manager_get_by_access. rewrite bind_gets. destruct (mg_initialized (mw_manager w)) eqn:Hi; cbn [negb orb].
  - destruct (Z.eqb_spec access LINKG_LINK_ACCESS_NONE) as [->|Hn]; [|by apply find_access_run].
    exists None. split; [done|]. intros i l H. apply (ro_id w O i l H).
  - exists None. split; [done|]. intros i l [Hs _]. rewrite (ro_off w O Hi) in Hs. cbn in Hs. set_solver.
Qed.

(** The call returns and acts as it says. *)
Definition acts (c : manager_call) (w : manager_world) : Prop :=
  exists r w', manager_run c w = Some (r, w') /\ registry_ok w' /\ call_spec c w r w'.

Lemma init_acts w : registry_ok w -> acts Init w.
Proof.
  intros O. unfold acts. cbn [manager_run]. unfold linkg_link_manager_init. destruct (mg_initialized (mw_manager w)) eqn:Hi.
  - exists (inl (- EALREADY)), w. splits; try done. apply run_inl. rewrite bind_gets. by rewrite Hi.
  - pose proof (ro_off w O Hi) as Ez. set (g := ManagerContext [None; None] None 0 0 1 true).
    destruct (empty_ok w g O) as [O' E']; try done; [by rewrite Ez|].
    exists (inl 0), (set_manager g w). splits; try done.
    + apply run_inl. rewrite bind_gets, Hi. cbn iota. by rewrite bind_modify.
    + split; [|done]. rewrite E'. symmetry. apply registry_none; [done|]. by rewrite Ez.
Qed.

Lemma deinit_acts w : registry_ok w -> acts Deinit w.
Proof.
  intros O. unfold acts. cbn [manager_run]. unfold linkg_link_manager_deinit. destruct (mg_initialized (mw_manager w)) eqn:Hi.
  - destruct (negb (mg_count (mw_manager w) =? 0) || bool_decide (mg_receive (mw_manager w) <> None)) eqn:E.
    + exists (inl (- EBUSY)), w. splits; try done; [|by right]. apply run_inl. rewrite bind_gets, Hi. cbn [negb]. by rewrite E.
    + assert (mg_count (mw_manager w) = 0) as Hz by (apply orb_false_iff in E as [E _]; lia).
      destruct (empty_ok w manager_zero O Hz) as [O' E']; try done.
      exists (inl 0), (set_manager manager_zero w). splits; try done.
      * apply run_inl. rewrite bind_gets, Hi. cbn [negb]. rewrite E. cbn iota. by rewrite bind_modify.
      * left. splits; try done. by apply registry_none.
  - exists (inl 0), w. pose proof (ro_off w O Hi) as Ez. assert (registry w = ∅) by (apply registry_none; [done|by rewrite Ez]).
    splits; try done; [|by left]. apply run_inl. by rewrite bind_gets, Hi.
Qed.

Lemma all_stopped_run w : registry_ok w -> exists b, _linkg_link_manager_all_stopped w = Some (b, w).
Proof.
  intros O. destruct (slots_stopped_run w _ (ro_member w O)) as [b Eb]. exists b.
  unfold _linkg_link_manager_all_stopped. by rewrite bind_gets.
Qed.

Lemma register_handler_acts w receive data : registry_ok w -> acts (Register_handler receive data) w.
Proof.
  intros O. unfold acts. cbn [manager_run]. unfold linkg_link_manager_register_receive_handler.
  destruct (mg_initialized (mw_manager w)) eqn:Hi.
  2:{ exists (inl (- ENODEV)), w. splits; try done. apply run_inl. by rewrite bind_gets, Hi. }
  destruct receive as [f|]; [|exists (inl (- EINVAL)), w; splits; try done; apply run_inl; by rewrite bind_gets, Hi].
  destruct (all_stopped_run w O) as [b Es], (handler_ok w (Some f) data O Hi) as [O' E'].
  destruct b.
  2:{ exists (inl (- EBUSY)), w. splits; try done. apply run_inl. rewrite bind_gets, Hi. cbn. by rewrite (bind_step _ _ _ _ _ Es). }
  destruct (mg_receive (mw_manager w)) eqn:Er;
    [exists (inl (- EALREADY)), w|exists (inl 0), (set_manager (set_handler (Some f) data (mw_manager w)) w)]; splits; try done;
    apply run_inl; rewrite bind_gets, Hi; cbn; rewrite (bind_step _ _ _ _ _ Es); cbn; by rewrite Er.
Qed.

Lemma unregister_handler_acts w : registry_ok w -> acts Unregister_handler w.
Proof.
  intros O. unfold acts. cbn [manager_run]. unfold linkg_link_manager_unregister_receive_handler.
  destruct (mg_initialized (mw_manager w)) eqn:Hi.
  2:{ exists (inl (- ENODEV)), w. splits; try done. apply run_inl. by rewrite bind_gets, Hi. }
  destruct (all_stopped_run w O) as [b Es], (handler_ok w None 0 O Hi) as [O' E'].
  destruct b; [exists (inl 0), (set_manager (set_handler None 0 (mw_manager w)) w)|exists (inl (- EBUSY)), w]; splits; try done;
    apply run_inl; rewrite bind_gets, Hi; cbn; by rewrite (bind_step _ _ _ _ _ Es).
Qed.

Lemma get_by_access_acts w access : registry_ok w -> acts (Get_by_access access) w.
Proof.
  intros O. destruct (get_by_access_run w access O) as (o&E&Ho). exists (inr o), w. splits; try done; [by apply run_inr|].
  split; [done|]. intros i. split.
  - intros ->. destruct Ho as (l&Hm&Ea). exists (lk_id l), l. splits; try done; [|apply Hm]. apply registry_lookup; [done|by exists l].
  - intros (id&l&Hr&Hl&Ea). apply registry_lookup in Hr as (m&Hm&_); [|done]. assert (m = l) as -> by (destruct Hm; congruence).
    destruct o as [j|]; [|by destruct (Ho i l Hm)]. destruct Ho as (m&Hj&Em). f_equal.
    apply (ro_accesses w O j i m l); congruence.
Qed.

Lemma get_id_acts w access : registry_ok w -> acts (Get_id access) w.
Proof.
  intros O. unfold acts. cbn [manager_run]. destruct (get_by_access_run w access O) as (o&E&Ho). unfold linkg_link_manager_get_id.
  destruct o as [i|].
  - destruct Ho as (l&[Hs Hl]&Ea). exists (inl (lk_id l)), w. splits; try done.
    + apply run_inl. rewrite (bind_step _ _ _ _ _ E), (bind_step _ _ _ _ _ (link_at_run w i l Hl)). done.
    + split; [done|]. right. exists i, l. splits; try done. apply registry_lookup; [done|]. by exists l.
  - exists (inl LINKG_LINK_ID_INVALID), w. splits; try done; [|split; [done|by left]].
    apply run_inl. by rewrite (bind_step _ _ _ _ _ E).
Qed.

Lemma get_acts w id : registry_ok w -> acts (Get id) w.
Proof.
  intros O. exists (inr (registry w !! id)), w. splits; try done. apply run_inr. unfold linkg_link_manager_get. rewrite bind_gets.
  destruct (mg_initialized (mw_manager w)) eqn:Hi; cbn [negb]; [by apply find_run|].
  by rewrite (registry_none w O) by (by rewrite (ro_off w O Hi)).
Qed.

Lemma count_acts w : registry_ok w -> acts Count w.
Proof.
  intros O. exists (inl (Z.of_nat (size (registry w)))), w. splits; try done. apply run_inl. unfold linkg_link_manager_count.
  rewrite bind_gets. rewrite (registry_size w O), <- (ro_count w O). destruct (mg_initialized (mw_manager w)) eqn:Hi; [done|].
  by rewrite (ro_off w O Hi).
Qed.

Lemma manager_call_run c w : registry_ok w -> call_valid c w -> acts c w.
Proof.
  intros O Hv. destruct c as [| |link|link|receive data| |id|access|access|].
  - by apply init_acts.
  - by apply deinit_acts.
  - destruct (register_run w link O Hv) as (ret&w'&E&O'&H). exists (inl ret), w'. splits; try done. by apply run_inl.
  - destruct (unregister_run w link O Hv) as (ret&w'&E&O'&H). exists (inl ret), w'. splits; try done. by apply run_inl.
  - by apply register_handler_acts.
  - by apply unregister_handler_acts.
  - by apply get_acts.
  - by apply get_by_access_acts.
  - by apply get_id_acts.
  - by apply count_acts.
Qed.

Lemma manager_reachable_ok w : manager_reachable w -> registry_ok w.
Proof.
  induction 1 as [|c w r w' _ IH Hv E|w w' _ IH He].
  - split; unfold member; cbn; try done; try set_solver. intros [|[|s]] [|[|t]] i; done.
  - destruct (manager_call_run c w IH Hv) as (r1&w1&E1&O&_). congruence.
  - by eapply evolves_ok.
Qed.

(** C20: Whatever calls were made and whatever the links did in between, every call of
    the manager returns and acts on a finite map from ids to links: registration
    succeeds exactly for a link that may be registered, under an id not in use, and
    never fails for lack of an id; letting go removes the link; a call that fails
    changes nothing; lookups by id and by access type and the count are those of
    the map. *)
Theorem manager_refines_registry c w : manager_reachable w -> call_valid c w ->
  exists r w', manager_run c w = Some (r, w') /\ call_spec c w r w'.
Proof.
  intros H%manager_reachable_ok Hv. destruct (manager_call_run c w H Hv) as (r&w'&E&_&Hs). by exists r, w'.
Qed.

(** *** A run *)

Definition demo_manager_link (access : Z) : linkg_link :=
  Link 0 [119] access (Some (LinkOps 256 true true true true true true true true)) (Some 0%nat)
    (Some (LinkRuntime thread_zero 32 32 None 0 false)) LINKG_LINK_STATE_STOPPED.

Definition demo_manager_zero : manager_world :=
  ManagerWorld manager_zero [demo_manager_link LINKG_LINK_ACCESS_WIFI; demo_manager_link LINKG_LINK_ACCESS_CELLULAR].

Definition demo_manager_init : manager_world :=
  set_manager (ManagerContext [None; None] None 0 0 1 true) demo_manager_zero.

Definition demo_manager : manager_world :=
  match manager_run (Register (Some 0%nat)) demo_manager_init with Some (_, w) => w | None => demo_manager_init end.

Lemma demo_manager_reachable : manager_reachable demo_manager.
Proof.
  apply (Manager_call (Register (Some 0%nat)) demo_manager_init (inl 0)); [|cbn; lia|reflexivity].
  apply (Manager_call Init demo_manager_zero (inl 0)); [|done|reflexivity].
  eapply Manager_evolve; [apply Manager_start|]. split; [done|].
  exists [], [demo_manager_link LINKG_LINK_ACCESS_WIFI; demo_manager_link LINKG_LINK_ACCESS_CELLULAR].
  splits; [done|constructor|by repeat constructor].
Qed.

Lemma manager_refines_registry_witness :
  exists r w', manager_run (Register (Some 1%nat)) demo_manager = Some (r, w') /\ call_spec (Register (Some 1%nat)) demo_manager r w'.
Proof.
  apply (manager_refines_registry (Register (Some 1%nat)) demo_manager).
  - exact demo_manager_reachable.
  - vm_compute. lia.
Defined.

Example demo_second_id :
  (manager_run (Register (Some 1%nat)) ;; manager_run (Get_id LINKG_LINK_ACCESS_CELLULAR)) demo_manager ≫= (fun r => Some r.1) = Some (inl 2).
Proof. reflexivity. Qed.
