(* ===== verification/TransportRx.v ===== *)
(** * The receive pipeline  (core/transport/transport_rx.c)

    A batch of packets from a link is cut into chunks of 32 frames; a chunk is
    attributed to peers by its physical sources, decoded, filtered by the receive
    windows, put in order, reassembled, and dispatched to the local handlers or,
    on an access point, to the relay handler. The pipeline composes the modelled
    parts: [TransportPeer], [TransportWindow], [TransportReorderRuntime],
    [TransportReassembly], [TransportForward] and the packet pool. What the node
    answers for a source, the handlers, the clocks, the return codes and what
    other threads do are arguments ([rx_env]). The rate-limited diagnostics of
    the source groups only feed the log and are not modelled. *)

From S2P Require Import Prelude.
From S2P Require Import PacketStore.
From S2P Require Import PacketPool.
From S2P Require Import PacketData.
From S2P Require Import TransportReassembly.
From S2P Require Import TransportForward.
From S2P Require Import TransportReorderRuntime.
From S2P Require Import LinkPath.
From S2P Require Import Link.
From S2P Require Import TransportTypes.
From S2P Require Import TransportWindow.
From S2P Require Import TransportWire.
From S2P Require Import TransportPeer.
From S2P Require Import TransportReorder.

(** ** Data *)

Definition LINKG_TRANSPORT_RX_BATCH_CHUNK_SIZE := 32.
Definition LINKG_TRANSPORT_RX_DELIVERY_BATCH_MAX := 32.
Definition LINKG_TRANSPORT_RX_SOURCE_GROUP_INVALID := 2 ^ 32 - 1.
Definition LINKG_TRANSPORT_RX_REORDER_READY_MAX := LINKG_TRANSPORT_PEER_MAX * LINKG_TRANSPORT_CLASS_COUNT.

Inductive linkg_transport_rx_stage :=
  | LINKG_TRANSPORT_RX_STAGE_INVALID
  | LINKG_TRANSPORT_RX_STAGE_DECODED
  | LINKG_TRANSPORT_RX_STAGE_WINDOW_ACCEPTED
  | LINKG_TRANSPORT_RX_STAGE_REORDER_PENDING
  | LINKG_TRANSPORT_RX_STAGE_EMITTED
  | LINKG_TRANSPORT_RX_STAGE_REORDER_READY
  | LINKG_TRANSPORT_RX_STAGE_REASSEMBLY_PENDING
  | LINKG_TRANSPORT_RX_STAGE_REASSEMBLY_READY
  | LINKG_TRANSPORT_RX_STAGE_DISPATCH_READY
  | LINKG_TRANSPORT_RX_STAGE_DROPPED.

#[export] Instance rx_stage_eq_dec : EqDecision linkg_transport_rx_stage.
Proof. solve_decision. Defined.
#[export] Instance window_result_eq_dec : EqDecision linkg_transport_window_result.
Proof. solve_decision. Defined.

Abbreviation INVALID := LINKG_TRANSPORT_RX_STAGE_INVALID.
Abbreviation DECODED := LINKG_TRANSPORT_RX_STAGE_DECODED.
Abbreviation ACCEPTED := LINKG_TRANSPORT_RX_STAGE_WINDOW_ACCEPTED.
Abbreviation REORDER_PENDING := LINKG_TRANSPORT_RX_STAGE_REORDER_PENDING.
Abbreviation REORDER_READY := LINKG_TRANSPORT_RX_STAGE_REORDER_READY.
Abbreviation REASSEMBLY_PENDING := LINKG_TRANSPORT_RX_STAGE_REASSEMBLY_PENDING.
Abbreviation REASSEMBLY_READY := LINKG_TRANSPORT_RX_STAGE_REASSEMBLY_READY.
Abbreviation DISPATCH_READY := LINKG_TRANSPORT_RX_STAGE_DISPATCH_READY.
Abbreviation DROPPED := LINKG_TRANSPORT_RX_STAGE_DROPPED.

Record linkg_link_rx_item := LinkRxItem {
  li_packet : option pkt_ptr;
  li_source : linkg_path_endpoint }.

Record linkg_node_path_rx_item := NodeRxItem {
  ni_source : linkg_path_endpoint;
  ni_bytes : Z;
  ni_packets : Z;
  ni_peer_node_id : Z;
  ni_result : Z }.

Record linkg_transport_delivery := Delivery {
  dl_packet : option pkt_ptr;
  dl_ingress_link_id : Z;
  dl_traffic_class : Z;
  dl_source_node_id : Z;
  dl_peer_node_id : Z }.

(** One row of [linkg_transport_delivery_batch_t] ([A] a delivery) or
    [linkg_transport_forward_batch_t] ([A] a relayed frame); a batch is the list
    of its rows. *)
Record batch_row (A : Type) := BatchRow {
  ro_item : A;
  ro_peer : option peer_ptr;
  ro_peer_epoch : Z;
  ro_owned : bool }.
Arguments BatchRow {A}.
Arguments ro_item {A}.
Arguments ro_peer {A}.
Arguments ro_peer_epoch {A}.
Arguments ro_owned {A}.

Abbreviation delivery_batch := (list (batch_row linkg_transport_delivery)).
Abbreviation forward_batch := (list (batch_row linkg_transport_forward_item)).

Record linkg_transport_rx_source_group := SourceGroup {
  sg_source : linkg_path_endpoint;
  sg_bytes : Z;
  sg_packets : Z;
  sg_peer_node_id : Z;
  sg_resolved : bool }.

Record linkg_transport_rx_state := RxState {
  rx_header : linkg_transport_header;
  rx_fragment_header : linkg_transport_fragment_header;
  rx_completed_packet : option pkt_ptr;
  rx_peer : option peer_ptr;
  rx_source_group_index : Z;
  rx_ingress_link_id : Z;
  rx_peer_epoch : Z;
  rx_payload_length : Z;
  rx_traffic_class : Z;
  rx_window_result : linkg_transport_window_result;
  rx_stage : linkg_transport_rx_stage;
  rx_peer_node_id : Z;
  rx_fragmented : bool }.

Definition rx_state_zero : linkg_transport_rx_state :=
  RxState (Header 0 0 0 0 0 0 0 0) (FragmentHeader 0 0 0) None None 0 0 0 0 0 WINDOW_INVALID INVALID 0 false.

Definition xset_stage (g : linkg_transport_rx_stage) (x : linkg_transport_rx_state) : linkg_transport_rx_state :=
  RxState (rx_header x) (rx_fragment_header x) (rx_completed_packet x) (rx_peer x) (rx_source_group_index x)
    (rx_ingress_link_id x) (rx_peer_epoch x) (rx_payload_length x) (rx_traffic_class x) (rx_window_result x) g
    (rx_peer_node_id x) (rx_fragmented x).
Definition xset_window (r : linkg_transport_window_result) (x : linkg_transport_rx_state) : linkg_transport_rx_state :=
  RxState (rx_header x) (rx_fragment_header x) (rx_completed_packet x) (rx_peer x) (rx_source_group_index x)
    (rx_ingress_link_id x) (rx_peer_epoch x) (rx_payload_length x) (rx_traffic_class x) r (rx_stage x)
    (rx_peer_node_id x) (rx_fragmented x).
Definition xset_group (n : Z) (x : linkg_transport_rx_state) : linkg_transport_rx_state :=
  RxState (rx_header x) (rx_fragment_header x) (rx_completed_packet x) (rx_peer x) n
    (rx_ingress_link_id x) (rx_peer_epoch x) (rx_payload_length x) (rx_traffic_class x) (rx_window_result x) (rx_stage x)
    (rx_peer_node_id x) (rx_fragmented x).
Definition xset_link (n : Z) (x : linkg_transport_rx_state) : linkg_transport_rx_state :=
  RxState (rx_header x) (rx_fragment_header x) (rx_completed_packet x) (rx_peer x) (rx_source_group_index x)
    n (rx_peer_epoch x) (rx_payload_length x) (rx_traffic_class x) (rx_window_result x) (rx_stage x)
    (rx_peer_node_id x) (rx_fragmented x).
Definition xset_peer (p : option peer_ptr) (epoch : Z) (x : linkg_transport_rx_state) : linkg_transport_rx_state :=
  RxState (rx_header x) (rx_fragment_header x) (rx_completed_packet x) p (rx_source_group_index x)
    (rx_ingress_link_id x) epoch (rx_payload_length x) (rx_traffic_class x) (rx_window_result x) (rx_stage x)
    (rx_peer_node_id x) (rx_fragmented x).
Definition xset_completed (o : option pkt_ptr) (x : linkg_transport_rx_state) : linkg_transport_rx_state :=
  RxState (rx_header x) (rx_fragment_header x) o (rx_peer x) (rx_source_group_index x)
    (rx_ingress_link_id x) (rx_peer_epoch x) (rx_payload_length x) (rx_traffic_class x) (rx_window_result x) (rx_stage x)
    (rx_peer_node_id x) (rx_fragmented x).
(** What decoding fills in: class and peer, then the header, then the fragment header and the length. *)
Definition xset_origin (c node : Z) (x : linkg_transport_rx_state) : linkg_transport_rx_state :=
  RxState (rx_header x) (rx_fragment_header x) (rx_completed_packet x) (rx_peer x) (rx_source_group_index x)
    (rx_ingress_link_id x) (rx_peer_epoch x) (rx_payload_length x) c (rx_window_result x) (rx_stage x) node (rx_fragmented x).
Definition xset_header (h : linkg_transport_header) (fragmented : bool) (x : linkg_transport_rx_state) : linkg_transport_rx_state :=
  RxState h (rx_fragment_header x) (rx_completed_packet x) (rx_peer x) (rx_source_group_index x)
    (rx_ingress_link_id x) (rx_peer_epoch x) (rx_payload_length x) (rx_traffic_class x) (rx_window_result x) (rx_stage x)
    (rx_peer_node_id x) fragmented.
Definition xset_body (fh : linkg_transport_fragment_header) (length : Z) (x : linkg_transport_rx_state) : linkg_transport_rx_state :=
  RxState (rx_header x) fh (rx_completed_packet x) (rx_peer x) (rx_source_group_index x)
    (rx_ingress_link_id x) (rx_peer_epoch x) length (rx_traffic_class x) (rx_window_result x) (rx_stage x)
    (rx_peer_node_id x) (rx_fragmented x).

Record linkg_transport_rx_batch_stats := RxBatchStats {
  bs_invalid_frames : Z;
  bs_unattributed_frames : Z;
  bs_stale_epoch_frames : Z }.

Definition batch_stats_zero : linkg_transport_rx_batch_stats := RxBatchStats 0 0 0.
Definition count_invalid (t : linkg_transport_rx_batch_stats) :=
  RxBatchStats (u64 (bs_invalid_frames t + 1)) (bs_unattributed_frames t) (bs_stale_epoch_frames t).
Definition count_unattributed (n : Z) (t : linkg_transport_rx_batch_stats) :=
  RxBatchStats (bs_invalid_frames t) (u64 (bs_unattributed_frames t + n)) (bs_stale_epoch_frames t).
Definition count_stale (t : linkg_transport_rx_batch_stats) :=
  RxBatchStats (bs_invalid_frames t) (bs_unattributed_frames t) (u64 (bs_stale_epoch_frames t + 1)).

(** What was handed to a handler, with the payload bytes at that moment. *)
Inductive rx_event :=
  | Delivered (type : Z) (rows : delivery_batch) (payloads : list (list Z))
  | Relayed (traffic_class : Z) (rows : forward_batch).

(** The state below the reorder windows: [g_transport], the reassembly cache with
    the packet pool, the pairing cache, and a ghost trace of the handler calls. *)
Record rx_core (C : Type) := RxCore {
  xc_transport : transport_state C;
  xc_reassembly : TransportReassembly.linkg_transport_reassembly_runtime;
  xc_pairs : TransportForward.linkg_transport_forward_pair_runtime unit;
  xc_trace : list rx_event }.
Arguments RxCore {C}.
Arguments xc_transport {C}.
Arguments xc_reassembly {C}.
Arguments xc_pairs {C}.
Arguments xc_trace {C}.

(** The surroundings at the [n]-th observation. [rv_handler f user] and
    [rv_forward f user] are the functions behind the handler pointers,
    [rv_account] is [linkg_node_account_path_rx_batch], [rv_local_node_id] the node
    id the transport was created with, [rv_epochs n k] the peer
    epochs while the [k]-th item of a reassembly batch is examined. *)
Record rx_env (C : Type) := RxEnv {
  rv_transport : transport_env C;
  rv_mutex : mutex_api;
  rv_local_node_id : Z;
  rv_elapsed_ms : nat -> Z;
  rv_elapsed_us : nat -> Z;
  rv_epochs : nat -> nat -> list Z;
  rv_others : nat -> rx_core C -> rx_core C;
  rv_account : nat -> Z -> list linkg_node_path_rx_item -> Z * list linkg_node_path_rx_item;
  rv_handler : Z -> Z -> list linkg_transport_delivery -> M (rx_core C) Z;
  rv_forward : Z -> Z -> Z -> list linkg_transport_forward_item -> M (rx_core C) Z }.
Arguments RxEnv {C}.
Arguments rv_transport {C}.
Arguments rv_mutex {C}.
Arguments rv_local_node_id {C}.
Arguments rv_elapsed_ms {C}.
Arguments rv_elapsed_us {C}.
Arguments rv_epochs {C}.
Arguments rv_others {C}.
Arguments rv_account {C}.
Arguments rv_handler {C}.
Arguments rv_forward {C}.

(** ** Pure helpers *)

(** Fields of the socket addresses, whose bytes [en_address] holds: the family in
    the first two bytes (little-endian), and the layouts of [sockaddr_in] and
    [sockaddr_in6]. *)
Definition AF_INET := 2.
Definition AF_INET6 := 10.
Definition sa_bytes (offset n : nat) (e : linkg_path_endpoint) : list Z := take n (drop offset (en_address e)).
Definition sa_family (e : linkg_path_endpoint) : Z :=
  default 0 (en_address e !! 0%nat) + 256 * default 0 (en_address e !! 1%nat).
Definition sin_port := sa_bytes 2 2.
Definition sin_addr := sa_bytes 4 4.
Definition sin6_addr := sa_bytes 8 16.
Definition sin6_scope_id := sa_bytes 24 4.

Definition _linkg_transport_rx_endpoint_equal (left right : option linkg_path_endpoint) : bool :=
  match left, right with
  | Some l, Some r =>
      if negb (en_length l =? en_length r) || negb (sa_family l =? sa_family r) then false
      else if sa_family l =? AF_INET
      then bool_decide (sin_addr l = sin_addr r) && bool_decide (sin_port l = sin_port r)
      else if sa_family l =? AF_INET6
      then bool_decide (sin6_addr l = sin6_addr r) && bool_decide (sin_port l = sin_port r) &&
           bool_decide (sin6_scope_id l = sin6_scope_id r)
      else false
  | _, _ => false
  end.

Definition _linkg_transport_rx_packet_class (packet : linkg_packet) : Z :=
  if linkg_packet_is_realtime (Some packet) then LINKG_TRANSPORT_CLASS_REALTIME
  else if linkg_packet_is_video (Some packet) then LINKG_TRANSPORT_CLASS_VIDEO
  else LINKG_TRANSPORT_CLASS_DATA.

Definition _linkg_transport_rx_sequence_before (sequence highest_sequence : Z) : bool :=
  i32_of_u32 (u32 (sequence - highest_sequence)) <? 0.

(** The pending list; on overflow the code only logs. *)
Definition same_ready (frame saved : linkg_transport_reorder_frame) : bool :=
  bool_decide (rf_peer saved = rf_peer frame) && (rf_traffic_class saved =? rf_traffic_class frame).

Definition _linkg_transport_rx_record_reorder_ready (pending : list linkg_transport_reorder_frame)
    (frame : linkg_transport_reorder_frame) : list linkg_transport_reorder_frame :=
  if existsb (same_ready frame) pending then pending
  else if LINKG_TRANSPORT_RX_REORDER_READY_MAX <=? Z.of_nat (length pending) then pending
  else pending ++ [frame].

Definition is_user_data (h : linkg_transport_header) : bool := th_type h =? LINKG_TRANSPORT_TYPE_USER_DATA.

(** One step of the scan for the earliest sequence number. *)
Definition earlier (group_peers : list (option peer_ptr)) (peer : peer_ptr) (first : linkg_transport_rx_state)
    (earliest : Z) (candidate : linkg_transport_rx_state) : Z :=
  if negb (bool_decide (rx_stage candidate = DECODED)) ||
     negb (rx_traffic_class candidate =? rx_traffic_class first) ||
     negb (eqb (is_user_data (rx_header candidate)) (is_user_data (rx_header first)))
  then earliest
  else if (Z.of_nat (length group_peers) <=? rx_source_group_index candidate) ||
          negb (bool_decide (group_peers !! Z.to_nat (rx_source_group_index candidate) = Some (Some peer)))
  then earliest
  else
    let original := th_sequence (rx_header first) in
    let candidate_sequence := th_sequence (rx_header candidate) in
    if _linkg_transport_rx_sequence_before candidate_sequence earliest &&
       (u32 (original - candidate_sequence) <? LINKG_TRANSPORT_REORDER_WINDOW_SIZE)
    then candidate_sequence else earliest.

(** Returns the window. *)
Definition _linkg_transport_rx_prepare_window_start_locked (window : linkg_transport_rx_window)
    (states : list linkg_transport_rx_state) (first : linkg_transport_rx_state) (peer : peer_ptr)
    (group_peers : list (option peer_ptr)) : linkg_transport_rx_window :=
  if initialized window then window
  else
    let original := th_sequence (rx_header first) in
    let earliest := foldl (earlier group_peers peer first) original states in
    if earliest =? original then window
    else RxWindow bitmap_zero (u32 (earliest - 1)) 0 true.

(** ** Sources *)

(** The index of the group with the same source. *)
Fixpoint group_find (source : linkg_path_endpoint) (groups : list linkg_transport_rx_source_group) (i : nat) : nat :=
  match groups with
  | [] => i
  | g :: groups' =>
      if _linkg_transport_rx_endpoint_equal (Some (sg_source g)) (Some source) then i
      else group_find source groups' (S i)
  end.

Definition group_count (length : Z) (g : linkg_transport_rx_source_group) : linkg_transport_rx_source_group :=
  SourceGroup (sg_source g) (u64 (sg_bytes g + length)) (u64 (sg_packets g + 1)) (sg_peer_node_id g) (sg_resolved g).

Section Rx.
Context {C : Type} (env : rx_env C).

Abbreviation core := (rx_core C).
Abbreviation CM := (M core).

(** ** State access *)

Definition core_transport (t : transport_state C) (s : core) : core :=
  RxCore t (xc_reassembly s) (xc_pairs s) (xc_trace s).
Definition core_reassembly (r : TransportReassembly.linkg_transport_reassembly_runtime) (s : core) : core :=
  RxCore (xc_transport s) r (xc_pairs s) (xc_trace s).
Definition core_pool (s : core) : linkg_packet_pool := TransportReassembly.rr_pool (xc_reassembly s).
Definition core_set_pool (p : linkg_packet_pool) (s : core) : core :=
  core_reassembly (TransportReassembly.set_pool p (xc_reassembly s)) s.
Definition core_event (e : rx_event) (s : core) : core :=
  RxCore (xc_transport s) (xc_reassembly s) (xc_pairs s) (xc_trace s ++ [e]).

(** The pairing cache with the pool put back as its store. *)
Definition pairs_with {S T} (store : S) (r : TransportForward.linkg_transport_forward_pair_runtime T)
    : TransportForward.linkg_transport_forward_pair_runtime S :=
  TransportForward.PairRuntime store (TransportForward.fr_entries r) (TransportForward.fr_last_gc_us r)
    (TransportForward.fr_initialized r) (TransportForward.fr_incomplete_bytes r)
    (TransportForward.fr_incomplete_frames r) (TransportForward.fr_reset_frames r).
Definition core_pairs (s : core) : TransportForward.linkg_transport_forward_pair_runtime linkg_packet_pool :=
  pairs_with (core_pool s) (xc_pairs s).
Definition core_set_pairs (r : TransportForward.linkg_transport_forward_pair_runtime linkg_packet_pool) (s : core) : core :=
  RxCore (xc_transport s) (TransportReassembly.set_pool (TransportForward.fr_store r) (xc_reassembly s))
    (pairs_with tt r) (xc_trace s).

Definition transport {A} (m : M (transport_state C) A) : CM A := zoom xc_transport core_transport m.
Definition reassembly {A} (m : M TransportReassembly.linkg_transport_reassembly_runtime A) : CM A :=
  zoom xc_reassembly core_reassembly m.
Definition pool {A} (m : PM A) : CM A := zoom core_pool core_set_pool m.
Definition pairing {A} (m : M (TransportForward.linkg_transport_forward_pair_runtime linkg_packet_pool) A) : CM A :=
  zoom core_pairs core_set_pairs m.

Definition context : CM linkg_transport_context := gets (fun s => tr_context (xc_transport s)).

(** Other threads run; the number of the observation. *)
Definition interfere : CM nat :=
  n ← transport observe; modify (rv_others env n) ;; mret n.

Definition lock : CM Z := _ ← interfere; transport (transport_lock (rv_transport env)).
Definition unlock : CM Z := transport (transport_unlock (rv_transport env)).

Definition peer_epoch_matches (peer : option peer_ptr) (peer_epoch : Z) : CM bool :=
  _ ← interfere; x ← context; mret (linkg_transport_peer_epoch_matches (epochs_of x) peer peer_epoch).

Definition release_packet (o : option pkt_ptr) : CM unit := pool (linkg_packet_release (rv_mutex env) o).

Definition ctx_add_stats (t : linkg_transport_rx_batch_stats) (x : linkg_transport_context) : linkg_transport_context :=
  let g := cx_stats x in
  TransportContext (cx_lock x) (cx_peers x) (cx_handlers x) (cx_forward_handler x)
    (GlobalStats (u64 (gs_rx_invalid_frames g + bs_invalid_frames t))
       (u64 (gs_rx_unattributed_frames g + bs_unattributed_frames t))
       (u64 (gs_rx_stale_epoch_frames g + bs_stale_epoch_frames t))
       (gs_reassembly_reset_frames g) (gs_forward_incomplete_bytes g) (gs_forward_incomplete_frames g)
       (gs_forward_reset_frames g))
    (cx_next_packet_id x) (cx_peer_count x) (cx_local_node_id x) (cx_local_role x) (cx_initialized x).

Definition _linkg_transport_rx_record_batch_stats (stats : option linkg_transport_rx_batch_stats) : CM unit :=
  match stats with
  | None => mret tt
  | Some t =>
      if (bs_invalid_frames t =? 0) && (bs_unattributed_frames t =? 0) && (bs_stale_epoch_frames t =? 0) then mret tt
      else
        _ ← lock;
        transport (update (ctx_add_stats t)) ;;
        _ ← unlock;
        mret tt
  end.

(** ** Delivery *)

(** The rows of a live peer; the packets of the others are released when the
    transport owns them. Returns the rows kept and the number dropped. *)
Fixpoint drop_stale {A} (packet : A -> option pkt_ptr) (batch : list (batch_row A)) (stats : linkg_transport_rx_batch_stats)
    : CM (list (batch_row A) * linkg_transport_rx_batch_stats) :=
  match batch with
  | [] => mret ([], stats)
  | row :: batch' =>
      ok ← peer_epoch_matches (ro_peer row) (ro_peer_epoch row);
      if negb ok then
        when (ro_owned row && negb (bool_decide (packet (ro_item row) = None))) (release_packet (packet (ro_item row))) ;;
        drop_stale packet batch' (count_stale stats)
      else
        r ← drop_stale packet batch' stats;
        mret (row :: fst r, snd r)
  end.

Definition release_owned {A} (packet : A -> option pkt_ptr) (batch : list (batch_row A)) : CM unit :=
  mfor batch (fun row =>
    when (ro_owned row && negb (bool_decide (packet (ro_item row) = None))) (release_packet (packet (ro_item row)))).

Definition packet_payload (p : linkg_packet_pool) (o : option pkt_ptr) : list Z :=
  match o with Some i => payload p i | None => [] end.

(** [memset(batch, 0, sizeof( *batch))] at every exit: the batch is empty. *)
Definition _linkg_transport_rx_flush_delivery (type : Z) (batch : delivery_batch) : CM unit :=
  if bool_decide (batch = []) then mret tt
  else
    r ← drop_stale dl_packet batch batch_stats_zero;
    let '(batch, stats) := r in
    _linkg_transport_rx_record_batch_stats (Some stats) ;;
    if bool_decide (batch = []) then mret tt
    else
      _ ← lock;
      x ← context;
      let h := if cx_initialized x && linkg_transport_type_valid type
               then default handler_zero (cx_handlers x !! Z.to_nat type) else handler_zero in
      _ ← unlock;
      match ha_handler h with
      | Some f =>
          s ← get;
          modify (core_event (Delivered type batch (packet_payload (core_pool s) <$> (dl_packet ∘ ro_item <$> batch)))) ;;
          _ ← rv_handler env f (ha_user_data h) (ro_item <$> batch);
          mret tt
      | None => mret tt
      end ;;
      release_owned dl_packet batch.

(** Returns the batch. *)
Definition _linkg_transport_rx_append_delivery (ingress_link_id type traffic_class source_node_id peer_node_id : Z)
    (peer : option peer_ptr) (peer_epoch : Z) (packet : option pkt_ptr) (owned : bool) (batch : delivery_batch)
    : CM delivery_batch :=
  match packet with
  | None => mret batch
  | Some _ =>
      batch ← (if LINKG_TRANSPORT_RX_DELIVERY_BATCH_MAX <=? Z.of_nat (length batch)
               then _linkg_transport_rx_flush_delivery type batch ;; mret [] else mret batch);
      mret (batch ++ [BatchRow (Delivery packet ingress_link_id traffic_class source_node_id peer_node_id)
                        peer peer_epoch owned])
  end.

(** Returns the code and the batch. *)
Definition _linkg_transport_rx_append_normal_delivery (state : linkg_transport_rx_state) (packet : option pkt_ptr)
    (batch : delivery_batch) : CM (Z * delivery_batch) :=
  if (rx_ingress_link_id state =? LINKG_LINK_ID_INVALID) || bool_decide (packet = None) then mret (- EINVAL, batch)
  else
    data ← pool (linkg_packet_pull packet LINKG_TRANSPORT_WIRE_HEADER_SIZE);
    if bool_decide (data = None) then mret (- EPROTO, batch)
    else
      batch ← _linkg_transport_rx_append_delivery (rx_ingress_link_id state) (th_type (rx_header state))
                (rx_traffic_class state) (th_source_node_id (rx_header state)) (rx_peer_node_id state)
                (rx_peer state) (rx_peer_epoch state) packet false batch;
      mret (0, batch).

Definition _linkg_transport_rx_append_reassembled_delivery (state : linkg_transport_rx_state) (packet : option pkt_ptr)
    (batch : delivery_batch) : CM delivery_batch :=
  match packet with
  | None => mret batch
  | Some _ =>
      _linkg_transport_rx_append_delivery LINKG_LINK_ID_INVALID (th_type (rx_header state)) (rx_traffic_class state)
        (th_source_node_id (rx_header state)) (rx_peer_node_id state) (rx_peer state) (rx_peer_epoch state) packet true batch
  end.

(** The batches of the types after NONE, in order; all are empty afterwards. *)
Definition _linkg_transport_rx_flush_deliveries (batches : list delivery_batch) : CM (list delivery_batch) :=
  mfor (seqZ (LINKG_TRANSPORT_TYPE_NONE + 1) (LINKG_TRANSPORT_TYPE_COUNT - 1)) (fun type =>
    batch ← of_option (batches !! Z.to_nat type);
    _linkg_transport_rx_flush_delivery type batch) ;;
  mret (match batches with [] => [] | b :: rest => b :: ((fun _ => []) <$> rest) end).

(** ** Relay *)

Definition _linkg_transport_rx_flush_forward (traffic_class : Z) (batch : forward_batch) : CM unit :=
  if bool_decide (batch = []) then mret tt
  else
    r ← drop_stale fi_packet batch batch_stats_zero;
    let '(batch, stats) := r in
    _linkg_transport_rx_record_batch_stats (Some stats) ;;
    if bool_decide (batch = []) then mret tt
    else
      _ ← lock;
      x ← context;
      let h := if cx_initialized x then cx_forward_handler x else handler_zero in
      _ ← unlock;
      match ha_handler h with
      | Some f =>
          modify (core_event (Relayed traffic_class batch)) ;;
          _ ← rv_forward env f (ha_user_data h) traffic_class (ro_item <$> batch);
          mret tt
      | None => mret tt
      end ;;
      release_owned fi_packet batch.

Definition _linkg_transport_rx_append_forward (state : linkg_transport_rx_state) (packet : option pkt_ptr)
    (batch : forward_batch) : CM forward_batch :=
  match packet with
  | None => mret batch
  | Some _ =>
      batch ← (if LINKG_TRANSPORT_FORWARD_BATCH_MAX <=? Z.of_nat (length batch)
               then _linkg_transport_rx_flush_forward (rx_traffic_class state) batch ;; mret [] else mret batch);
      mret (batch ++ [BatchRow (ForwardItem packet (rx_payload_length state) (th_destination_node_id (rx_header state))
                                  (rx_peer_node_id state)) (rx_peer state) (rx_peer_epoch state) false])
  end.

Definition _linkg_transport_rx_append_forward_pair (traffic_class : Z) (items : list linkg_transport_forward_item)
    (peer : option peer_ptr) (peer_epoch : Z) (batch : forward_batch) : CM forward_batch :=
  batch ← (if LINKG_TRANSPORT_FORWARD_BATCH_MAX <? Z.of_nat (length batch) + LINKG_TRANSPORT_FRAGMENT_COUNT_MAX
           then _linkg_transport_rx_flush_forward traffic_class batch ;; mret [] else mret batch);
  mret (batch ++ ((fun it => BatchRow it peer peer_epoch true) <$> take (Z.to_nat LINKG_TRANSPORT_FRAGMENT_COUNT_MAX) items)).

Definition _linkg_transport_rx_flush_forwards (batches : list forward_batch) : CM unit :=
  mfor (seqZ 0 LINKG_TRANSPORT_CLASS_COUNT) (fun class =>
    batch ← of_option (batches !! Z.to_nat class);
    _linkg_transport_rx_flush_forward class batch).

(** ** Attribution to sources *)

Definition rx_state_init : linkg_transport_rx_state :=
  xset_stage INVALID (xset_window WINDOW_INVALID (xset_group LINKG_TRANSPORT_RX_SOURCE_GROUP_INVALID rx_state_zero)).

Fixpoint _linkg_transport_rx_build_source_groups (items : list linkg_link_rx_item)
    (groups : list linkg_transport_rx_source_group) (stats : linkg_transport_rx_batch_stats)
    : CM (list linkg_transport_rx_state * list linkg_transport_rx_source_group * linkg_transport_rx_batch_stats) :=
  match items with
  | [] => mret ([], groups, stats)
  | item :: items' =>
      match li_packet item with
      | None =>
          r ← _linkg_transport_rx_build_source_groups items' groups stats;
          let '(states, groups, stats) := r in mret (rx_state_init :: states, groups, stats)
      | Some i =>
          let group_index := group_find (li_source item) groups 0 in
          if (group_index =? length groups)%nat && (LINKG_RESOURCE_NETWORK_STA_MAX <=? Z.of_nat (length groups)) then
            r ← _linkg_transport_rx_build_source_groups items' groups (count_unattributed 1 stats);
            let '(states, groups, stats) := r in mret (xset_stage DROPPED rx_state_init :: states, groups, stats)
          else
            let groups := if (group_index =? length groups)%nat
                          then groups ++ [SourceGroup (li_source item) 0 0 0 false] else groups in
            k ← pool (packet_at i);
            r ← _linkg_transport_rx_build_source_groups items' (alter (group_count (pk_data_length k)) group_index groups) stats;
            let '(states, groups, stats) := r in
            mret (xset_group (Z.of_nat group_index) rx_state_init :: states, groups, stats)
      end
  end.

Definition node_item (g : linkg_transport_rx_source_group) : linkg_node_path_rx_item :=
  NodeRxItem (sg_source g) (sg_bytes g) (sg_packets g) 0 0.

(** One group after the answer of the node. *)
Definition group_resolve (g : linkg_transport_rx_source_group) (it : linkg_node_path_rx_item) : linkg_transport_rx_source_group :=
  if negb (ni_result it =? 0) then g
  else SourceGroup (sg_source g) (sg_bytes g) (sg_packets g) (ni_peer_node_id it) true.

Definition group_unattributed (stats : linkg_transport_rx_batch_stats)
    (gi : linkg_transport_rx_source_group * linkg_node_path_rx_item) : linkg_transport_rx_batch_stats :=
  if negb (ni_result (snd gi) =? 0) then count_unattributed (sg_packets (fst gi)) stats else stats.

Definition _linkg_transport_rx_resolve_source_groups (link_id : Z) (groups : list linkg_transport_rx_source_group)
    (stats : linkg_transport_rx_batch_stats) : CM (list linkg_transport_rx_source_group * linkg_transport_rx_batch_stats) :=
  if bool_decide (groups = []) then mret (groups, stats)
  else
    n ← interfere;
    let '(ret, node_items) := rv_account env n link_id (node_item <$> groups) in
    if negb (ret =? 0)
    then mret (groups, foldl (fun t g => count_unattributed (sg_packets g) t) stats groups)
    else mret (zip_with group_resolve groups node_items, foldl group_unattributed stats (zip groups node_items)).

(** ** Decoding *)

Definition decode_one (item : linkg_link_rx_item) (groups : list linkg_transport_rx_source_group)
    (state : linkg_transport_rx_state) (stats : linkg_transport_rx_batch_stats)
    : CM (linkg_transport_rx_state * linkg_transport_rx_batch_stats) :=
  let dropped := (xset_stage DROPPED state, stats) in
  match li_packet item with
  | None => mret dropped
  | Some i =>
      if rx_source_group_index state =? LINKG_TRANSPORT_RX_SOURCE_GROUP_INVALID then mret dropped
      else
        g ← of_option (groups !! Z.to_nat (rx_source_group_index state));
        if negb (sg_resolved g) then mret dropped
        else
          k ← pool (packet_at i);
          let state := xset_origin (_linkg_transport_rx_packet_class k) (sg_peer_node_id g) state in
          r ← pool (linkg_transport_wire_decode (Some i) false);
          if negb (fst r =? 0) then mret (xset_stage DROPPED state, count_invalid stats)
          else
            h ← of_option (snd r);
            let fragmented := negb (Z.land (th_flags h) LINKG_TRANSPORT_FLAG_FRAGMENT =? 0) in
            let state := xset_header h fragmented state in
            if fragmented then
              r ← pool (linkg_transport_wire_fragment_decode (Some i) false);
              if negb (fst r =? 0) then mret (xset_stage DROPPED state, count_invalid stats)
              else
                fh ← of_option (snd r);
                mret (xset_stage DECODED
                        (xset_body fh (u32 (pk_data_length k - LINKG_TRANSPORT_WIRE_HEADER_MAX_SIZE)) state), stats)
            else
              mret (xset_stage DECODED
                      (xset_body (rx_fragment_header state) (u32 (pk_data_length k - LINKG_TRANSPORT_WIRE_HEADER_SIZE)) state),
                    stats)
  end.

Fixpoint _linkg_transport_rx_decode_batch (items : list linkg_link_rx_item) (states : list linkg_transport_rx_state)
    (groups : list linkg_transport_rx_source_group) (stats : linkg_transport_rx_batch_stats)
    : CM (list linkg_transport_rx_state * linkg_transport_rx_batch_stats) :=
  match items, states with
  | item :: items', state :: states' =>
      r ← decode_one item groups state stats;
      rest ← _linkg_transport_rx_decode_batch items' states' groups (snd r);
      mret (fst r :: fst rest, snd rest)
  | _, _ => mret ([], stats)
  end.

(** ** Receive windows *)

(** A group's peer, its epoch, and whether the peer is quiescing. *)
Definition group_peer (x : linkg_transport_context) (g : linkg_transport_rx_source_group) : option peer_ptr * Z * bool :=
  if negb (sg_resolved g) then (None, 0, false)
  else match linkg_transport_find_peer_locked x (sg_peer_node_id g) with
  | None => (None, 0, false)
  | Some i =>
      match linkg_transport_peer_epoch_read_active (epochs_of x) (Some i) with
      | (true, Some epoch) => (Some i, epoch, false)
      | (_, epoch) => (None, default 0 epoch, true)
      end
  end.

Definition accept_stats (result : linkg_transport_window_result) (confirmed_lost payload_length now_ms : Z)
    (user_data out_of_order : bool) (t : linkg_transport_class_stats) : linkg_transport_class_stats :=
  let lost := u64 (st_rx_lost_packets t + confirmed_lost) in
  match result with
  | WINDOW_ACCEPT =>
      ClassStats (st_tx_bytes t) (st_tx_packets t) (st_tx_failed_bytes t) (st_tx_failed_packets t)
        (u64 (st_rx_bytes t + payload_length)) (u64 (st_rx_packets t + 1)) lost (st_rx_duplicate_packets t)
        (if out_of_order then u64 (st_rx_out_of_order_packets t + 1) else st_rx_out_of_order_packets t)
        (st_last_tx_ms t) now_ms (st_last_user_tx_ms t) (if user_data then now_ms else st_last_user_rx_ms t)
  | _ =>
      ClassStats (st_tx_bytes t) (st_tx_packets t) (st_tx_failed_bytes t) (st_tx_failed_packets t)
        (st_rx_bytes t) (st_rx_packets t) lost
        (match result with WINDOW_DUPLICATE => u64 (st_rx_duplicate_packets t + 1) | _ => st_rx_duplicate_packets t end)
        (st_rx_out_of_order_packets t) (st_last_tx_ms t) (st_last_rx_ms t) (st_last_user_tx_ms t) (st_last_user_rx_ms t)
  end.

Definition rx_window (user_data : bool) (c : linkg_transport_peer_class) : linkg_transport_rx_window :=
  if user_data then pc_rx_user_window c else pc_rx_control_window c.

Definition set_rx (user_data : bool) (w : linkg_transport_rx_window) (t : linkg_transport_class_stats)
    (c : linkg_transport_peer_class) : linkg_transport_peer_class :=
  PeerClass (pc_tx_order_lock c) (if user_data then w else pc_rx_user_window c)
    (if user_data then pc_rx_control_window c else w) t (pc_tx_user_sequence c) (pc_tx_control_sequence c).

(** What one frame does to a class: the window's verdict and the class. *)
Definition class_accept (states : list linkg_transport_rx_state) (state : linkg_transport_rx_state) (peer : peer_ptr)
    (group_peers : list (option peer_ptr)) (now_ms : Z) (c : linkg_transport_peer_class)
    : linkg_transport_window_result * linkg_transport_peer_class :=
  let user_data := is_user_data (rx_header state) in
  let sequence := th_sequence (rx_header state) in
  let window := _linkg_transport_rx_prepare_window_start_locked (rx_window user_data c) states state peer group_peers in
  let out_of_order := initialized window && _linkg_transport_rx_sequence_before sequence (highest_sequence window) in
  let '(result, window', confirmed_lost) := linkg_transport_window_accept_ex (Some window) sequence in
  (result, set_rx user_data (default window window')
             (accept_stats result confirmed_lost (rx_payload_length state) now_ms user_data out_of_order (pc_stats c)) c).

Definition accept_one (group_peers : list (option peer_ptr * Z * bool)) (now_ms : Z)
    (states : list linkg_transport_rx_state) (index : nat) (stats : linkg_transport_rx_batch_stats)
    : CM (list linkg_transport_rx_state * linkg_transport_rx_batch_stats) :=
  state ← of_option (states !! index);
  if negb (bool_decide (rx_stage state = DECODED)) then mret (states, stats)
  else
    let state := xset_window WINDOW_INVALID state in
    let drop (stats : linkg_transport_rx_batch_stats) : CM (list linkg_transport_rx_state * linkg_transport_rx_batch_stats) :=
      mret (<[index := xset_stage DROPPED state]> states, stats) in
    let group_index := rx_source_group_index state in
    if (group_index =? LINKG_TRANSPORT_RX_SOURCE_GROUP_INVALID) || (Z.of_nat (length group_peers) <=? group_index)
    then drop (count_unattributed 1 stats)
    else
      gp ← of_option (group_peers !! Z.to_nat group_index);
      match (gp : option peer_ptr * Z * bool) with
      | (None, _, quiescing) => drop (if quiescing then count_stale stats else count_unattributed 1 stats)
      | (Some peer, epoch, _) =>
          if LINKG_TRANSPORT_CLASS_COUNT <=? rx_traffic_class state then drop (count_invalid stats)
          else
            let state := xset_peer (Some peer) epoch state in
            let class := Z.to_nat (rx_traffic_class state) in
            p ← transport (peer_read peer);
            c ← of_option (pr_classes p !! class);
            let '(result, c') := class_accept states state peer ((fun gp => fst (fst gp)) <$> group_peers) now_ms c in
            transport (class_update peer class (fun _ => c')) ;;
            mret (<[index := xset_stage (match result with WINDOW_ACCEPT => ACCEPTED | _ => DROPPED end)
                               (xset_window result state)]> states, stats)
      end.

Fixpoint accept_loop (indices : list nat) (group_peers : list (option peer_ptr * Z * bool)) (now_ms : Z)
    (states : list linkg_transport_rx_state) (stats : linkg_transport_rx_batch_stats)
    : CM (list linkg_transport_rx_state * linkg_transport_rx_batch_stats) :=
  match indices with
  | [] => mret (states, stats)
  | index :: indices' =>
      r ← accept_one group_peers now_ms states index stats;
      accept_loop indices' group_peers now_ms (fst r) (snd r)
  end.

(** Returns the code, the states and the statistics. *)
Definition _linkg_transport_rx_accept_batch (states : list linkg_transport_rx_state)
    (groups : list linkg_transport_rx_source_group) (stats : linkg_transport_rx_batch_stats)
    : CM (Z * list linkg_transport_rx_state * linkg_transport_rx_batch_stats) :=
  if LINKG_RESOURCE_NETWORK_STA_MAX <? Z.of_nat (length groups) then mret (- EINVAL, states, stats)
  else if negb (existsb (fun x => bool_decide (rx_stage x = DECODED)) states) then mret (0, states, stats)
  else
    ret ← lock;
    if negb (ret =? 0) then mret (- ret, states, stats)
    else
      x ← context;
      n ← transport observe;
      r ← accept_loop (seq 0 (length states)) (group_peer x <$> groups) (rv_elapsed_ms env n) states stats;
      ret ← unlock;
      mret (if ret =? 0 then 0 else - ret, fst r, snd r).

(** ** Reassembly *)

(** Past the order management, a fragment, and for this node. *)
Definition reassembles (local : Z) (state : linkg_transport_rx_state) : bool :=
  (bool_decide (rx_stage state = ACCEPTED) || bool_decide (rx_stage state = REORDER_READY)) &&
  rx_fragmented state && (th_destination_node_id (rx_header state) =? local).

Definition reassembly_item (state : linkg_transport_rx_state) (packet : option pkt_ptr)
    : linkg_transport_reassembly_submit_item :=
  ReassemblyItem (Some (rx_header state)) (Some (rx_fragment_header state)) packet None (rx_peer state)
    (rx_peer_epoch state) (rx_traffic_class state) (- EINPROGRESS) (rx_peer_node_id state).

(** The submitted items, each with the index of its state. *)
Definition collect {A} (test : linkg_transport_rx_state -> bool) (make : linkg_transport_rx_state -> option pkt_ptr -> A)
    (packets : list (option pkt_ptr)) (states : list linkg_transport_rx_state) : list (nat * A) :=
  omap (fun '(index, (state, packet)) => if test state then Some (index, make state packet) else None)
    (imap pair (zip states packets)).

Definition stale_or_invalid (ret : Z) (stats : linkg_transport_rx_batch_stats) : linkg_transport_rx_batch_stats :=
  if ret =? - ESTALE then count_stale stats else count_invalid stats.

(** The frame at [index] is dropped; a packet it completed is released. *)
Definition drop_item (ret : Z) (index : nat) (it : linkg_transport_reassembly_submit_item)
    (states : list linkg_transport_rx_state) (stats : linkg_transport_rx_batch_stats)
    : CM (list linkg_transport_rx_state * linkg_transport_rx_batch_stats) :=
  when (negb (bool_decide (ri_completed_packet it = None))) (release_packet (ri_completed_packet it)) ;;
  mret (alter (xset_stage DROPPED) index states, stale_or_invalid ret stats).

Definition finish_item (ret : Z) (index : nat) (it : linkg_transport_reassembly_submit_item)
    (states : list linkg_transport_rx_state) (stats : linkg_transport_rx_batch_stats)
    : CM (list linkg_transport_rx_state * linkg_transport_rx_batch_stats) :=
  if negb (ret =? 0) then drop_item ret index it states stats
  else if (ri_result it =? 0) && bool_decide (ri_completed_packet it = None)
  then mret (alter (xset_stage REASSEMBLY_PENDING) index states, stats)
  else if (ri_result it =? 1) && negb (bool_decide (ri_completed_packet it = None))
  then mret (alter (fun x => xset_stage REASSEMBLY_READY (xset_completed (ri_completed_packet it) x)) index states, stats)
  else drop_item (ri_result it) index it states stats.

(** [ret] is the code of the whole batch. *)
Fixpoint finish_items (ret : Z) (items : list (nat * linkg_transport_reassembly_submit_item))
    (states : list linkg_transport_rx_state) (stats : linkg_transport_rx_batch_stats)
    : CM (list linkg_transport_rx_state * linkg_transport_rx_batch_stats) :=
  match items with
  | [] => mret (states, stats)
  | (index, it) :: items' =>
      r ← finish_item ret index it states stats;
      finish_items ret items' (fst r) (snd r)
  end.

Definition _linkg_transport_rx_reassemble_batch (packets : list (option pkt_ptr)) (states : list linkg_transport_rx_state)
    (stats : linkg_transport_rx_batch_stats) : CM (list linkg_transport_rx_state * linkg_transport_rx_batch_stats) :=
  x ← context;
  let submitted := collect (reassembles (cx_local_node_id x)) reassembly_item packets states in
  if bool_decide (submitted = []) then mret (states, stats)
  else
    n ← interfere;
    r ← reassembly (linkg_transport_reassembly_submit_batch (rv_mutex env) (rv_epochs env n) (rv_elapsed_us env n)
          (Some (snd <$> submitted)) (Z.of_nat (length submitted)));
    finish_items (fst r) (zip (fst <$> submitted) (default [] (snd r))) states stats.

(** ** Dispatch *)

Abbreviation batches := (list delivery_batch * option (list forward_batch))%type.

(** One frame's verdict: its state, the batches and the statistics. *)
Abbreviation dispatched := (linkg_transport_rx_state * batches * linkg_transport_rx_batch_stats)%type.

Definition release_items (items : list linkg_transport_forward_item) : CM unit :=
  mfor items (fun it => when (negb (bool_decide (fi_packet it = None))) (release_packet (fi_packet it))).

(** For this node. *)
Definition dispatch_local (packet : option pkt_ptr) (state : linkg_transport_rx_state) (b : batches)
    (stats : linkg_transport_rx_batch_stats) : CM dispatched :=
  let invalid : CM dispatched := mret (xset_stage DROPPED state, b, count_invalid stats) in
  let type := th_type (rx_header state) in
  let '(deliveries, forwards) := b in
  let put batch := (<[Z.to_nat type := batch]> deliveries, forwards) in
  if rx_fragmented state then
    if negb (bool_decide (rx_stage state = REASSEMBLY_READY)) || bool_decide (rx_completed_packet state = None) then invalid
    else
      batch ← of_option (deliveries !! Z.to_nat type);
      batch ← _linkg_transport_rx_append_reassembled_delivery state (rx_completed_packet state) batch;
      mret (xset_stage DISPATCH_READY (xset_completed None state), put batch, stats)
  else
    let expected := if type =? LINKG_TRANSPORT_TYPE_USER_DATA then REORDER_READY else ACCEPTED in
    if negb (bool_decide (rx_stage state = expected)) then invalid
    else
      batch ← of_option (deliveries !! Z.to_nat type);
      r ← _linkg_transport_rx_append_normal_delivery state packet batch;
      if negb (fst r =? 0) then mret (xset_stage DROPPED state, put (snd r), count_invalid stats)
      else mret (xset_stage DISPATCH_READY state, put (snd r), stats).

(** A fragment to relay. *)
Definition dispatch_pair (packet : option pkt_ptr) (state : linkg_transport_rx_state) (deliveries : list delivery_batch)
    (forwards : list forward_batch) (stats : linkg_transport_rx_batch_stats) : CM dispatched :=
  let b : batches := (deliveries, Some forwards) in
  n ← interfere;
  x ← context;
  r ← pairing (linkg_transport_forward_pair_submit (PS := pool_store (rv_mutex env)) (rv_mutex env) (cx_initialized x)
        (cx_local_role x =? LINKG_DEVICE_ROLE_AP) (epochs_of x) (rv_elapsed_us env n) (rx_peer state) (rx_peer_epoch state)
        (rx_traffic_class state) (rx_peer_node_id state) (Some (rx_header state)) (Some (rx_fragment_header state)) packet
        (rx_payload_length state) false);
  let ret := fst r in
  let items := default [] (snd r) in
  if negb (ret =? 0) then
    release_items items ;;
    mret (xset_stage DROPPED state, b,
          if ret =? - ESTALE then count_stale stats
          else if (ret =? - EPROTO) || (ret =? - EINVAL) then count_invalid stats else stats)
  else if bool_decide (items = []) then mret (xset_stage REASSEMBLY_PENDING state, b, stats)
  else if negb (Z.of_nat (length items) =? LINKG_TRANSPORT_FRAGMENT_COUNT_MAX) then
    release_items items ;; mret (xset_stage DROPPED state, b, count_invalid stats)
  else
    batch ← of_option (forwards !! Z.to_nat (rx_traffic_class state));
    batch ← _linkg_transport_rx_append_forward_pair (rx_traffic_class state) items (rx_peer state) (rx_peer_epoch state) batch;
    mret (xset_stage DISPATCH_READY state, (deliveries, Some (<[Z.to_nat (rx_traffic_class state) := batch]> forwards)), stats).

Definition dispatch_one (packet : option pkt_ptr) (state : linkg_transport_rx_state) (b : batches)
    (stats : linkg_transport_rx_batch_stats) : CM dispatched :=
  if negb (bool_decide (rx_stage state = ACCEPTED)) && negb (bool_decide (rx_stage state = REORDER_READY)) &&
     negb (bool_decide (rx_stage state = REASSEMBLY_READY))
  then mret (state, b, stats)
  else
    ok ← peer_epoch_matches (rx_peer state) (rx_peer_epoch state);
    if negb ok then
      when (negb (bool_decide (rx_completed_packet state = None))) (release_packet (rx_completed_packet state)) ;;
      mret (xset_completed None (xset_stage DROPPED state), b, count_stale stats)
    else
      x ← context;
      if th_destination_node_id (rx_header state) =? cx_local_node_id x then dispatch_local packet state b stats
      else if negb (cx_local_role x =? LINKG_DEVICE_ROLE_AP) then mret (xset_stage DROPPED state, b, stats)
      else match b with
      | (_, None) => mret (xset_stage DROPPED state, b, stats)
      | (deliveries, Some forwards) =>
          if negb (bool_decide (rx_stage state = ACCEPTED)) then mret (xset_stage DROPPED state, b, count_invalid stats)
          else if negb (rx_fragmented state) then
            batch ← of_option (forwards !! Z.to_nat (rx_traffic_class state));
            batch ← _linkg_transport_rx_append_forward state packet batch;
            mret (xset_stage DISPATCH_READY state,
                  (deliveries, Some (<[Z.to_nat (rx_traffic_class state) := batch]> forwards)), stats)
          else dispatch_pair packet state deliveries forwards stats
      end.

Fixpoint _linkg_transport_rx_dispatch_batch (packets : list (option pkt_ptr)) (states : list linkg_transport_rx_state)
    (b : batches) (stats : linkg_transport_rx_batch_stats)
    : CM (list linkg_transport_rx_state * batches * linkg_transport_rx_batch_stats) :=
  match packets, states with
  | packet :: packets', state :: states' =>
      r ← dispatch_one packet state b stats;
      let '(state, b, stats) := r in
      rest ← _linkg_transport_rx_dispatch_batch packets' states' b stats;
      let '(states, b, stats) := rest in
      mret (state :: states, b, stats)
  | _, _ => mret ([], b, stats)
  end.

(** ** Frames emitted by the reorder windows *)

Definition emitted_state (frame : linkg_transport_reorder_frame) : linkg_transport_rx_state :=
  RxState (rf_header frame) (rf_fragment_header frame) None (rf_peer frame) 0 (rf_ingress_link_id frame)
    (rf_peer_epoch frame) 0 (rf_traffic_class frame) WINDOW_ACCEPT REORDER_READY (rf_peer_node_id frame)
    (negb (Z.land (th_flags (rf_header frame)) LINKG_TRANSPORT_FLAG_FRAGMENT =? 0)).

(** The packets, states and statistics of the frames. *)
Fixpoint emitted_states (frames : list linkg_transport_reorder_frame) (stats : linkg_transport_rx_batch_stats)
    : CM (list (option pkt_ptr) * list linkg_transport_rx_state * linkg_transport_rx_batch_stats) :=
  match frames with
  | [] => mret ([], [], stats)
  | frame :: frames' =>
      let dropped := xset_stage DROPPED rx_state_zero in
      if bool_decide (rf_packet frame = None) || bool_decide (rf_peer frame = None) then
        r ← emitted_states frames' (count_invalid stats);
        let '(packets, states, stats) := r in mret (None :: packets, dropped :: states, stats)
      else
        ok ← peer_epoch_matches (rf_peer frame) (rf_peer_epoch frame);
        if negb ok then
          r ← emitted_states frames' (count_stale stats);
          let '(packets, states, stats) := r in mret (None :: packets, dropped :: states, stats)
        else
          r ← emitted_states frames' stats;
          let '(packets, states, stats) := r in
          mret (rf_packet frame :: packets, emitted_state frame :: states, stats)
  end.

Definition no_deliveries : list delivery_batch := replicate (Z.to_nat LINKG_TRANSPORT_TYPE_COUNT) [].
Definition no_forwards : list forward_batch := replicate (Z.to_nat LINKG_TRANSPORT_CLASS_COUNT) [].

Definition linkg_transport_rx_emit_reordered (frames : list linkg_transport_reorder_frame) : CM unit :=
  if bool_decide (frames = []) || (LINKG_TRANSPORT_RX_BATCH_CHUNK_SIZE <? Z.of_nat (length frames)) then mret tt
  else
    r ← emitted_states frames batch_stats_zero;
    let '(packets, states, stats) := r in
    r ← _linkg_transport_rx_reassemble_batch packets states stats;
    r ← _linkg_transport_rx_dispatch_batch packets (fst r) (no_deliveries, None) (snd r);
    let '(_, b, stats) := r in
    _ ← _linkg_transport_rx_flush_deliveries (fst b);
    _linkg_transport_rx_record_batch_stats (Some stats).

(** ** Well-formedness, and the packets as a store *)

(** A handler call passes between one and 32 rows, each with a packet. *)
Definition event_ok (e : rx_event) : Prop :=
  match e with
  | Delivered _ rows payloads =>
      1 <= Z.of_nat (length rows) <= LINKG_TRANSPORT_RX_DELIVERY_BATCH_MAX /\ length payloads = length rows /\
      Forall (fun row => dl_packet (ro_item row) <> None) rows
  | Relayed _ rows =>
      1 <= Z.of_nat (length rows) <= LINKG_TRANSPORT_FORWARD_BATCH_MAX /\
      Forall (fun row => fi_packet (ro_item row) <> None) rows
  end.

(** References the two caches hold. *)
Definition core_held (s : core) (j : nat) : Z :=
  TransportReassembly.held (xc_reassembly s) j + TransportForward.pair_held (core_pairs s) j.

Record core_wf (s : core) : Prop := {
  cw_pool : pool_wf (core_pool s);
  cw_entries : length (TransportReassembly.rr_entries (xc_reassembly s)) = TransportReassembly.entry_count;
  cw_pairs : length (TransportForward.fr_entries (xc_pairs s)) = TransportForward.pair_count;
  cw_free : forall e x, TransportReassembly.rr_entries (xc_reassembly s) !! e = Some x ->
    TransportReassembly.re_valid x = false -> forall j, TransportReassembly.held_entry x j = 0;
  cw_waiting : forall e x, TransportForward.fr_entries (xc_pairs s) !! e = Some x -> TransportForward.pair_ok x;
  cw_refs : forall j, core_held s j <= refs (core_pool s) j;
  cw_local : cx_local_node_id (tr_context (xc_transport s)) = rv_local_node_id env;
  cw_trace : Forall event_ok (xc_trace s);
  cw_handlers : length (cx_handlers (tr_context (xc_transport s))) = Z.to_nat LINKG_TRANSPORT_TYPE_COUNT;
  cw_classes : forall p, p ∈ cx_peers (tr_context (xc_transport s)) ->
    length (pr_classes p) = Z.to_nat LINKG_TRANSPORT_CLASS_COUNT }.

(** To the reorder windows the references are those the caches do not hold. *)
#[export] Instance core_store : PacketStore core := {
  ps_inv := core_wf;
  ps_refs s j := refs (core_pool s) j - core_held s j;
  ps_flags s j := pool_flags (core_pool s) j;
  ps_retain o := pool (linkg_packet_retain o);
  ps_release o := release_packet o;
  ps_update_flags i f := pool (pool_update_flags i f) }.

(** ** The whole pipeline *)

Context (reorder : reorder_env core) (fuel : nat).

Abbreviation RM := (M (linkg_transport_reorder_runtime core)).

Definition below {A} (m : CM A) : RM A := zoom rt_store rset_store m.

(** Accepted user data for this node. *)
Definition reorders (local : Z) (state : linkg_transport_rx_state) : bool :=
  bool_decide (rx_stage state = ACCEPTED) && bool_decide (rx_window_result state = WINDOW_ACCEPT) &&
  is_user_data (rx_header state) && (th_destination_node_id (rx_header state) =? local).

Definition reorder_frame (link_id : Z) (state : linkg_transport_rx_state) (packet : option pkt_ptr) : linkg_transport_reorder_frame :=
  ReorderFrame packet (rx_peer state) (rx_header state) (rx_fragment_header state) link_id (rx_peer_epoch state)
    (rx_traffic_class state) (rx_peer_node_id state).

(** The stage and window result after a verdict of the reorder window. *)
Definition reordered (result : linkg_transport_reorder_result) (state : linkg_transport_rx_state) : linkg_transport_rx_state :=
  match result with
  | LINKG_TRANSPORT_REORDER_RESULT_READY => xset_window WINDOW_ACCEPT (xset_stage REORDER_READY state)
  | LINKG_TRANSPORT_REORDER_RESULT_CACHED => xset_window WINDOW_INVALID (xset_stage REORDER_PENDING state)
  | LINKG_TRANSPORT_REORDER_RESULT_EMITTED => xset_window WINDOW_INVALID (xset_stage LINKG_TRANSPORT_RX_STAGE_EMITTED state)
  | _ => xset_window WINDOW_INVALID (xset_stage DROPPED state)
  end.

Definition ready_frame (pending : list linkg_transport_reorder_frame)
    (fr : linkg_transport_reorder_frame * linkg_transport_reorder_result) : list linkg_transport_reorder_frame :=
  match snd fr with
  | LINKG_TRANSPORT_REORDER_RESULT_READY => _linkg_transport_rx_record_reorder_ready pending (fst fr)
  | _ => pending
  end.

(** The states and the pending list; [None] when the pressure loop of the
    reorder window ran out of fuel. The initial results are uninitialised. *)
Definition _linkg_transport_rx_stage_user_reorder (link_id : Z) (packets : list (option pkt_ptr))
    (states : list linkg_transport_rx_state) (pending : list linkg_transport_reorder_frame)
    : RM (option (list linkg_transport_rx_state * list linkg_transport_reorder_frame)) :=
  x ← below context;
  let staged := collect (reorders (cx_local_node_id x)) (reorder_frame link_id) packets states in
  if bool_decide (staged = []) then mret (Some (states, pending))
  else
    let frames := snd <$> staged in
    o ← linkg_transport_reorder_submit_batch reorder fuel (Some frames) (Z.of_nat (length frames))
          (Some (replicate (Z.to_nat LINKG_TRANSPORT_REORDER_SUBMIT_BATCH_MAX) LINKG_TRANSPORT_REORDER_RESULT_UNPROCESSED));
    match o with
    | None => mret None
    | Some (ret, results) =>
        if negb (ret =? 0)
        then mret (Some (foldl (fun l i => alter (fun x => xset_window WINDOW_INVALID (xset_stage DROPPED x)) i l)
                           states (fst <$> staged), pending))
        else
          let results := default [] results in
          mret (Some (foldl (fun l ir => alter (reordered (snd ir)) (fst ir) l) states (zip (fst <$> staged) results),
                      foldl ready_frame pending (zip frames results)))
    end.

(** Batches of at most 32 READY frames; errors are only logged. *)
Fixpoint ready_loop (n : nat) (pending : list linkg_transport_reorder_frame) : RM unit :=
  match n, pending with
  | O, _ | _, [] => mret tt
  | S n', _ =>
      let batch := take (Z.to_nat LINKG_TRANSPORT_REORDER_SUBMIT_BATCH_MAX) pending in
      _ ← linkg_transport_reorder_complete_batch reorder (Some batch)
            (Some (replicate (Z.to_nat LINKG_TRANSPORT_REORDER_SUBMIT_BATCH_MAX) LINKG_TRANSPORT_REORDER_RESULT_READY))
            (Z.of_nat (length batch));
      ready_loop n' (drop (Z.to_nat LINKG_TRANSPORT_REORDER_SUBMIT_BATCH_MAX) pending)
  end.

Definition _linkg_transport_rx_complete_reorder_ready (pending : list linkg_transport_reorder_frame) : RM unit :=
  ready_loop (length pending) pending.

(** The batches and the pending list. *)
Definition _linkg_transport_rx_process_chunk (link_id : Z) (items : list linkg_link_rx_item)
    (deliveries : list delivery_batch) (forwards : list forward_batch) (pending : list linkg_transport_reorder_frame)
    : RM (option (list delivery_batch * list forward_batch * list linkg_transport_reorder_frame)) :=
  let packets := li_packet <$> items in
  r ← below (_linkg_transport_rx_build_source_groups items [] batch_stats_zero);
  let '(states, groups, stats) := r in
  r ← below (_linkg_transport_rx_resolve_source_groups link_id groups stats);
  let '(groups, stats) := r in
  r ← below (_linkg_transport_rx_decode_batch items states groups stats);
  let states := xset_link link_id <$> fst r in
  r ← below (_linkg_transport_rx_accept_batch states groups (snd r));
  let '(ret, states, stats) := r in
  if negb (ret =? 0) then
    below (_linkg_transport_rx_record_batch_stats (Some stats)) ;;
    mret (Some (deliveries, forwards, pending))
  else
    o ← _linkg_transport_rx_stage_user_reorder link_id packets states pending;
    match o with
    | None => mret None
    | Some (states, pending) =>
        r ← below (_linkg_transport_rx_reassemble_batch packets states stats);
        r ← below (_linkg_transport_rx_dispatch_batch packets (fst r) (deliveries, Some forwards) (snd r));
        let '(_, b, stats) := r in
        below (_linkg_transport_rx_record_batch_stats (Some stats)) ;;
        mret (Some (fst b, default forwards (snd b), pending))
    end.

(** The chunks of a batch; returns the relay batches. *)
Fixpoint receive_loop (n : nat) (link_id : Z) (items : list linkg_link_rx_item) (deliveries : list delivery_batch)
    (forwards : list forward_batch) : RM (option (list forward_batch)) :=
  match n, items with
  | O, _ | _, [] => mret (Some forwards)
  | S n', _ =>
      let size := Z.to_nat LINKG_TRANSPORT_RX_BATCH_CHUNK_SIZE in
      o ← _linkg_transport_rx_process_chunk link_id (take size items) deliveries forwards [];
      match o with
      | None => mret None
      | Some (deliveries, forwards, pending) =>
          deliveries ← below (_linkg_transport_rx_flush_deliveries deliveries);
          _linkg_transport_rx_complete_reorder_ready pending ;;
          receive_loop n' link_id (drop size items) deliveries forwards
      end
  end.

(** [link] is NULL or a link with its identifier. [Some tt] when the call
    returned, [None] when the fuel of the reorder window ran out. *)
Definition linkg_transport_receive_batch (link : option Z) (items : option (list linkg_link_rx_item)) : RM (option unit) :=
  match link, items with
  | Some link_id, Some its =>
      x ← below context;
      if bool_decide (its = []) || negb (cx_initialized x) then mret (Some tt)
      else if link_id =? LINKG_LINK_ID_INVALID then mret (Some tt)
      else
        o ← receive_loop (length its) link_id its no_deliveries no_forwards;
        match o with
        | None => mret None
        | Some forwards => below (_linkg_transport_rx_flush_forwards forwards) ;; mret (Some tt)
        end
  | _, _ => mret (Some tt)
  end.

End Rx.
