(* ===== verification/LinkRx.v ===== *)
(** * Receiving from a link  (core/link/link_rx.c)

    The receive thread of a link: it waits for its wake-up or for the link, and hands
    what the link has received to the upper layer batch by batch. The link gives up
    a reference to every packet of a batch, the upper layer borrows the packets, and
    the thread releases them. Answers of the system, of the thread object and of the
    concrete link are functions of a counter of observations. *)

From S2P Require Import Prelude.
From S2P Require Import PacketStore.
From S2P Require Import PacketPool.
From S2P Require Import PacketData.
From S2P Require Import PacketLease.
From S2P Require Import LinkPath.
From S2P Require Import Thread.
From S2P Require Import Link.
From S2P Require Import LinkSubmit.
From S2P Require Import TransportRx.

(** ** Constants and data *)

Definition EINTR := 4.
Definition POLLIN := 1.
Definition POLLERR := 8.
Definition POLLHUP := 16.
Definition POLLNVAL := 32.

Definition rx_item_zero : linkg_link_rx_item := LinkRxItem None endpoint_zero.

(** The result of [poll], [errno], and the events of the two descriptors. *)
Record poll_result := PollResult {
  pl_ret : Z;
  pl_errno : Z;
  pl_wakeup : Z;
  pl_link : Z }.

(** [le_handler] is [runtime->receive] with its data. *)
Record link_rx_env := LinkRxEnv {
  le_running : nat -> bool;
  le_poll : nat -> poll_result;
  le_clear : nat -> Z;                                                   (* linkg_thread_clear_wakeup *)
  le_rx_fd : Z;                                                          (* get_rx_fd *)
  le_receive_batch : nat -> list linkg_link_rx_item -> PM (Z * list linkg_link_rx_item);
  le_handler : option (nat -> list linkg_link_rx_item -> PM unit) }.

(** The pool, [runtime->rx_items] and the observations made. *)
Record link_rx_state := LinkRxState {
  ls_pool : linkg_packet_pool;
  ls_items : list linkg_link_rx_item;
  ls_seen : nat }.

Abbreviation XM := (M link_rx_state).

Definition rx_pool {A} (m : PM A) : XM A := zoom ls_pool (fun p s => LinkRxState p (ls_items s) (ls_seen s)) m.
Definition rx_set_items (items : list linkg_link_rx_item) : XM unit :=
  modify (fun s => LinkRxState (ls_pool s) items (ls_seen s)).
Definition observe {A} (f : nat -> A) : XM A :=
  n ← gets ls_seen; modify (fun s => LinkRxState (ls_pool s) (ls_items s) (S n)) ;; mret (f n).

Section Rx.
Context (mx : mutex_api) (env : link_rx_env) (rx_batch_size : nat).

(** ** Releasing *)

(** The first [count] items; the items afterwards. *)
Fixpoint _linkg_link_release_rx_items (items : list linkg_link_rx_item) (count : nat) {struct count}
    : PM (list linkg_link_rx_item) :=
  match count, items with
  | O, _ => mret items
  | S _, [] => stuck
  | S count', item :: items' =>
      when (bool_decide (li_packet item <> None)) (linkg_packet_release mx (li_packet item)) ;;
      rest ← _linkg_link_release_rx_items items' count';
      mret (rx_item_zero :: rest)
  end.

Definition release_rx (count : nat) : XM unit :=
  items ← gets ls_items;
  items' ← rx_pool (_linkg_link_release_rx_items items count);
  rx_set_items items'.

(** ** The loops

    Each runs for at most the rounds it is given; [false] says that they ran out. *)

(** [do { ret = poll(...); } while (ret < 0 && errno == EINTR && running)]. *)
Fixpoint poll_retry (rounds : nat) : XM (option poll_result) :=
  match rounds with
  | O => mret None
  | S rounds' =>
      r ← observe (le_poll env);
      if (pl_ret r <? 0) && (pl_errno r =? EINTR) then
        running ← observe (le_running env);
        if running : bool then poll_retry rounds' else mret (Some r)
      else mret (Some r)
  end.

(** The inner loop. *)
Fixpoint drain (rounds : nat) : XM bool :=
  match rounds with
  | O => mret false
  | S rounds' =>
      running ← observe (le_running env);
      if negb running then mret true
      else
        n ← observe id;
        items ← gets ls_items;
        received ← rx_pool (le_receive_batch env n items);
        let '(ret, items) := received in
        rx_set_items items ;;
        if ret <? 0 then mret true
        else if Z.of_nat rx_batch_size <? ret then release_rx rx_batch_size ;; mret true
        else
          let received_count := Z.to_nat ret in
          if (received_count =? 0)%nat then mret true
          else
            match le_handler env with
            | Some receive => n ← observe id; rx_pool (receive n (take received_count items))
            | None => mret tt
            end ;;
            release_rx received_count ;;
            drain rounds'
  end.

Definition has (events mask : Z) : bool := negb (Z.land events mask =? 0).

(** The outer loop. *)
Fixpoint rx_loop (rounds : nat) : XM bool :=
  match rounds with
  | O => mret false
  | S rounds' =>
      running ← observe (le_running env);
      if negb running then mret true
      else
        polled ← poll_retry rounds;
        match polled with
        | None => mret false
        | Some r =>
            if pl_ret r <? 0 then mret true
            else
              cleared ← (if has (pl_wakeup r) POLLIN then observe (le_clear env) else mret 0);
              if negb (cleared =? 0) then mret true
              else
                running ← observe (le_running env);
                if negb running then mret true
                else if has (pl_wakeup r) (Z.lor POLLERR (Z.lor POLLHUP POLLNVAL)) then mret true
                else if has (pl_link r) (Z.lor POLLERR (Z.lor POLLHUP POLLNVAL)) then mret true
                else if negb (has (pl_link r) POLLIN) then rx_loop rounds'
                else
                  drained ← drain rounds;
                  if drained : bool then rx_loop rounds' else mret false
        end
  end.

Definition linkg_link_rx_thread (rounds : nat) (thread : option linkg_thread) (link : option linkg_link) : XM bool :=
  match thread, link with
  | Some _, Some lk =>
      match lk_runtime lk, lk_ops lk with
      | Some _, Some ops =>
          if negb (lo_get_rx_fd ops) || negb (lo_receive_batch ops) then mret true
          else if linkg_thread_get_wakeup_fd thread <? 0 then mret true
          else if le_rx_fd env <? 0 then mret true
          else rx_loop rounds
      | _, _ => mret true
      end
  | _, _ => mret true
  end.

End Rx.

(** ** Contracts of the link and of the upper layer *)

Definition packets_of (items : list linkg_link_rx_item) : list pkt_ptr := omap li_packet items.

(** The concrete link fills an empty buffer with new packets and hands over one
    reference to each; a failure or an empty batch leaves it empty. *)
Definition fills (cap : nat) (receive_batch : nat -> list linkg_link_rx_item -> PM (Z * list linkg_link_rx_item)) : Prop :=
  forall n mine p items, owned_by mine p -> length items = cap -> packets_of items = [] ->
    exists ret items' p', receive_batch n items p = Some ((ret, items'), p') /\ length items' = cap /\
      lease mine nothing p p' /\ owned_by (with_refs mine (packets_of items')) p' /\ NoDup (packets_of items') /\
      (forall j, j ∈ packets_of items' -> mine j = 0) /\
      (ret <= 0 -> packets_of items' = []) /\
      (0 <= ret <= Z.of_nat cap -> packets_of (drop (Z.to_nat ret) items') = []).

(** The upper layer borrows the packets and may change them. *)
Definition borrows_batch (receive : nat -> list linkg_link_rx_item -> PM unit) : Prop :=
  forall n mine p items, items <> [] -> owned_by mine p -> (forall j, j ∈ packets_of items -> 0 < mine j) ->
    exists p', receive n items p = Some (tt, p') /\ lease mine (.∈ packets_of items) p p'.

Lemma packets_app l l' : packets_of (l ++ l') = packets_of l ++ packets_of l'.
Proof. apply omap_app. Qed.

Lemma packets_split n items : packets_of items = packets_of (take n items) ++ packets_of (drop n items).
Proof. by rewrite <- packets_app, take_drop. Qed.

Lemma packets_zero n : packets_of (replicate n rx_item_zero) = [].
Proof. by induction n. Qed.

(** ** Releasing gives the references back *)

Lemma release_items_run mx mine count : forall items p, mutex_ok mx -> (forall j, 0 <= mine j) -> (count <= length items)%nat ->
  NoDup (packets_of (take count items)) -> (forall j, j ∈ packets_of (take count items) -> mine j = 0) ->
  owned_by (with_refs mine (packets_of (take count items))) p ->
  exists p', _linkg_link_release_rx_items mx items count p = Some (replicate count rx_item_zero ++ drop count items, p') /\
    lease mine nothing p p'.
Proof.
  induction count as [|count IH]; intros items p Hmx Hp Hl Hn H0 O.
  - exists p. split; [done|]. apply lease_refl. eapply owned_ext; [|exact O]. intros j. unfold with_refs. change (packets_of (take 0 items)) with (@nil pkt_ptr). cbn. lia.
  - destruct items as [|item items]; [cbn in Hl; lia|]. cbn [_linkg_link_release_rx_items].
    assert (packets_of (take (S count) (item :: items)) = option_list (li_packet item) ++ packets_of (take count items)) as Ep
      by (unfold packets_of; cbn; by destruct (li_packet item)).
    rewrite Ep in Hn, H0, O. destruct (li_packet item) as [i|] eqn:Ei; cbn [option_list app] in *.
    + rewrite bool_decide_eq_true_2 by done. apply NoDup_cons in Hn as [Hi Hn].
      destruct (release_lease mx (with_refs mine (packets_of (take count items))) i p Hmx) as (p1&E1&L1).
      { eapply owned_ext; [|exact O]. intros j. apply with_refs_cons_out. }
      { rewrite with_refs_other by done. apply H0. by left. }
      destruct (IH items p1 Hmx Hp ltac:(cbn in Hl; lia) Hn) as (p2&E2&L2); [intros j Hj; apply H0; by right|apply (le_owned _ _ _ _ L1)|].
      exists p2. cbn [when]. rewrite (bind_step _ _ _ _ _ E1), (bind_step _ _ _ _ _ E2). split; [done|].
      eapply lease_trans; [|exact L2]. eapply lease_sub; [|..|exact L1]; [|done]. intros j. split; [apply Hp|apply with_refs_range].
    + rewrite bool_decide_eq_false_2 by tauto. cbn [when].
      destruct (IH items p Hmx Hp ltac:(cbn in Hl; lia) Hn H0 O) as (p2&E2&L2). exists p2.
      rewrite bind_ret, (bind_step _ _ _ _ _ E2). done.
Qed.

(** ** The loops keep no reference *)

Section Sound.
Context (mx : mutex_api) (env : link_rx_env) (cap : nat) (mine : nat -> Z).
Context (Hmx : mutex_ok mx) (Hmine : forall j, 0 <= mine j) (Hfill : fills cap (le_receive_batch env))
  (Hhandler : forall receive, le_handler env = Some receive -> borrows_batch receive).

(** Since [p] the pool was only borrowed, and the buffer is empty. *)
Definition idle_rx (p : linkg_packet_pool) (s : link_rx_state) : Prop :=
  lease mine nothing p (ls_pool s) /\ length (ls_items s) = cap /\ packets_of (ls_items s) = [].

(** The flag is clear from the observation [k] on. *)
Definition told (k : nat) : Prop := forall n, (k <= n)%nat -> le_running env n = false.

Lemma told_running k n : told k -> le_running env n = true -> (n < k)%nat.
Proof. intros Hk H. destruct (Nat.lt_ge_cases n k) as [|Hn]; [done|]. by rewrite Hk in H. Qed.

(** A loop from the observation [seen] to the state [s'], with [extra] observations
    after the flag is clear, and [done] if its rounds did not run out before. *)
Definition prompt (extra rounds seen : nat) (finished : bool) (s' : link_rx_state) : Prop :=
  (seen <= ls_seen s')%nat /\
  forall k, told k -> (ls_seen s' <= S seen `max` (k + extra))%nat /\ (rounds <> 0%nat -> (k < seen + rounds)%nat -> finished = true).

(** Observing the flag: a thread that has been told sees it. *)
Lemma wp_rx_running (Q : bool -> link_rx_state -> Prop) s :
  (forall b, (forall k, told k -> b = true -> (ls_seen s < k)%nat) -> Q b (LinkRxState (ls_pool s) (ls_items s) (S (ls_seen s)))) ->
  wp (observe (le_running env)) Q s.
Proof. intros H. unfold observe. wstep. apply H. intros k Hk. by apply told_running. Qed.

Lemma wp_rx_observe {A} (f : nat -> A) (Q : A -> link_rx_state -> Prop) s :
  (forall a, Q a (LinkRxState (ls_pool s) (ls_items s) (S (ls_seen s)))) -> wp (observe f) Q s.
Proof. intros H. unfold observe. wstep. apply H. Qed.

Lemma prompt_now extra rounds seen s' : ls_seen s' = S seen -> prompt extra rounds seen true s'.
Proof. intros E. split; [lia|]. intros k Hk. split; [lia|done]. Qed.

Lemma wp_rx_pool {A} (m : PM A) (Q : A -> link_rx_state -> Prop) s a p :
  m (ls_pool s) = Some (a, p) -> Q a (LinkRxState p (ls_items s) (ls_seen s)) -> wp (rx_pool m) Q s.
Proof. intros E H. unfold wp, rx_pool, zoom. by rewrite E. Qed.

(** Releasing a batch leaves the buffer empty. *)
Lemma wp_release_rx p s count : lease mine nothing p (ls_pool s) -> length (ls_items s) = cap -> (count <= cap)%nat ->
  owned_by (with_refs mine (packets_of (ls_items s))) (ls_pool s) -> NoDup (packets_of (ls_items s)) ->
  (forall j, j ∈ packets_of (ls_items s) -> mine j = 0) -> packets_of (drop count (ls_items s)) = [] ->
  wp (release_rx mx count) (fun _ s' => idle_rx p s' /\ ls_seen s' = ls_seen s) s.
Proof using Hmx Hmine.
  intros L Hl Hc O Hn H0 Hd. unfold release_rx. wstep. pose proof (packets_split count (ls_items s)) as Ep. rewrite Hd, app_nil_r in Ep.
  destruct (release_items_run mx mine count (ls_items s) (ls_pool s) Hmx Hmine) as (p'&E&L'); [lia|by rewrite <- Ep..|].
  eapply wp_rx_pool; [exact E|]. unfold rx_set_items. wstep. split; [|done]. split; [by eapply lease_trans|]. cbn. split.
  - rewrite length_app, length_replicate, length_drop. lia.
  - by rewrite packets_app, packets_zero, Hd.
Qed.

(** The flag was seen set at the observation [seen]: a loop that returns, or goes on,
    within [extra] observations is still prompt. *)
Lemma prompt_end extra rounds seen s' : (forall k, told k -> (seen < k)%nat) ->
  (seen <= ls_seen s' <= seen + S extra)%nat -> prompt extra rounds seen true s'.
Proof. intros Hr Hs. split; [lia|]. intros k Hk. specialize (Hr k Hk). split; [lia|done]. Qed.

Lemma prompt_step extra rounds seen seen' b s' : (forall k, told k -> (seen < k)%nat) ->
  (seen < seen' <= seen + extra)%nat -> prompt extra rounds seen' b s' -> prompt extra (S rounds) seen b s'.
Proof. intros Hr Hs [Hm H]. split; [lia|]. intros k Hk. specialize (Hr k Hk). destruct (H k Hk) as [Hb Hf]. split; [lia|]. intros _ Hlt. apply Hf; lia. Qed.

Definition leaves (p : linkg_packet_pool) (extra rounds seen : nat) (b : bool) (s' : link_rx_state) : Prop :=
  idle_rx p s' /\ prompt extra rounds seen b s'.

Lemma wp_drain p rounds : forall s, idle_rx p s -> wp (drain mx env cap rounds) (leaves p 3 rounds (ls_seen s)) s.
Proof using Hmx Hmine Hfill Hhandler.
  induction rounds as [|rounds IH]; intros s Hs; cbn [drain]; [wstep; split; [done|split; [lia|intros k _; split; [lia|done]]]|].
  apply wp_bind, wp_rx_running. intros running Hrun. destruct Hs as (L&Hl&He).
  destruct running; cbn [negb]; [|wstep; split; [done|by apply prompt_now]].
  assert (forall k, told k -> (ls_seen s < k)%nat) as Hr by auto. clear Hrun.
  apply wp_bind, wp_rx_observe. intros n. wstep. cbn [ls_items ls_pool ls_seen].
  destruct (Hfill n mine (ls_pool s) (ls_items s) (le_owned _ _ _ _ L) Hl He) as (ret&items&p1&E&Hl1&L1&O1&Hn&H0&Hneg&Hpos).
  eapply wp_rx_pool; [exact E|]. cbn beta iota. unfold rx_set_items. wstep.
  assert (lease mine nothing p p1) as L2 by (by eapply lease_trans).
  destruct (Z.ltb_spec ret 0) as [Hr0|Hr0]; [wstep; split; [split; [done|split; [done|apply Hneg; lia]]|apply prompt_end; [done|cbn; lia]]|].
  destruct (Z.ltb_spec (Z.of_nat cap) ret) as [Hc|Hc].
  { apply wp_bind. eapply wp_mono; [apply (wp_release_rx p); try done; cbn|intros [] s' [Hs' Es]; wstep; split; [done|apply prompt_end; [done|rewrite Es; cbn; lia]]].
    rewrite drop_ge by (cbn; lia). done. }
  destruct (Nat.eqb_spec (Z.to_nat ret) 0) as [Hz|Hz]; [wstep; split; [split; [done|split; [done|apply Hneg; lia]]|apply prompt_end; [done|cbn; lia]]|].
  specialize (Hpos (conj Hr0 Hc)). pose proof (packets_split (Z.to_nat ret) items) as Ep. rewrite Hpos, app_nil_r in Ep.
  assert (forall s1 s', idle_rx p s' /\ ls_seen s' = ls_seen s1 -> (ls_seen s < ls_seen s1 <= ls_seen s + 3)%nat ->
    wp (drain mx env cap rounds) (leaves p 3 (S rounds) (ls_seen s)) s') as Hagain.
  { intros s1 s' [Hs' Es] Hlt. eapply wp_mono; [by apply IH|]. intros b s2 [H1 H2]. split; [done|]. eapply prompt_step; [done| |exact H2]. lia. }
  destruct (le_handler env) as [receive|] eqn:Eh.
  2: { apply wp_bind, wp_ret, wp_bind. eapply wp_mono; [apply (wp_release_rx p); try done; cbn; lia|]. intros [] s' Hs'. apply (Hagain _ s' Hs'). cbn. lia. }
  apply wp_bind. apply wp_bind, wp_rx_observe. intros m.
  destruct (Hhandler receive eq_refl m (with_refs mine (packets_of items)) p1 (take (Z.to_nat ret) items)) as (p2&E2&L3).
  { intros Hnil. apply (f_equal length) in Hnil. rewrite length_take in Hnil. cbn in Hnil. lia. }
  { done. }
  { intros j Hj. pose proof (with_refs_in mine (packets_of items) j). rewrite Ep in H. specialize (H Hj). specialize (Hmine j).
    rewrite Ep. lia. }
  eapply wp_rx_pool; [exact E2|]. apply wp_bind.
  eapply wp_mono; [apply (wp_release_rx p); try done; cbn; try lia|intros [] s' Hs'; apply (Hagain _ s' Hs'); cbn; lia].
  - eapply lease_trans; [exact L2|]. eapply lease_sub; [| |exact L3].
    + intros j. split; [apply Hmine|apply with_refs_range].
    + intros j Hj Hp. rewrite <- Ep in Hj. specialize (H0 j Hj). lia.
  - apply (le_owned _ _ _ _ L3).
Qed.

(** [poll] until it was not interrupted: the observation before the first was of a set flag. *)
Lemma wp_poll_retry p rounds : forall s, idle_rx p s ->
  wp (poll_retry env rounds) (fun r s' => idle_rx p s' /\ (ls_seen s < ls_seen s' \/ rounds = 0 /\ ls_seen s' = ls_seen s)%nat /\
    forall k, told k -> (ls_seen s <= k)%nat -> (ls_seen s' <= k + 2)%nat /\ (rounds <> 0%nat -> (k < ls_seen s + rounds)%nat -> r <> None)) s.
Proof.
  induction rounds as [|rounds IH]; intros s Hs; cbn [poll_retry]; [wstep; splits; [done|by right|intros k _ Hle; split; [lia|done]]|].
  apply wp_bind, wp_rx_observe. intros r.
  destruct (_ && _); [|wstep; splits; [done|left; cbn; lia|intros k Hk Hle; cbn; split; [lia|done]]]. apply wp_bind, wp_rx_running. intros running Hrun. cbn in Hrun.
  destruct running; [|wstep; splits; [done|left; cbn; lia|intros k Hk Hle; cbn; split; [lia|done]]].
  eapply wp_mono; [by apply IH|]. intros r' s' (Hs'&Hm&H). cbn in Hm, H. split; [done|]. split; [left; lia|]. intros k Hk Hle.
  specialize (Hrun k Hk eq_refl). destruct (H k Hk) as [H1 H2]; [lia|]. split; [lia|]. intros _ Hlt. apply H2; lia.
Qed.

Lemma wp_rx_loop p rounds : forall s, idle_rx p s -> wp (rx_loop mx env cap rounds) (leaves p 4 rounds (ls_seen s)) s.
Proof using Hmx Hmine Hfill Hhandler.
  induction rounds as [|rounds IH]; intros s Hs; cbn [rx_loop]; [wstep; split; [done|split; [lia|intros k _; split; [lia|done]]]|].
  apply wp_bind, wp_rx_running. intros running Hrun.
  destruct running; cbn [negb]; [|wstep; split; [done|by apply prompt_now]].
  assert (forall k, told k -> (ls_seen s < k)%nat) as Hr by auto. clear Hrun.
  apply wp_bind. eapply wp_mono; [by apply wp_poll_retry|]. intros r s1 (H1&Hm1&Hp1). cbn [ls_seen] in Hm1, Hp1.
  destruct Hm1 as [Hm1|[? _]]; [|done].
  assert (forall s', idle_rx p s' -> (ls_seen s1 <= ls_seen s')%nat -> (forall k, told k -> (ls_seen s' <= k + 4)%nat) -> leaves p 4 (S rounds) (ls_seen s) true s') as Hend.
  { intros s' Hs' Hm Hk. split; [done|]. split; [lia|]. intros k Hk'. split; [specialize (Hk k Hk'); lia|done]. }
  destruct r as [r|].
  2: { wstep. split; [done|]. split; [lia|]. intros k Hk. destruct (Hp1 k Hk (Hr k Hk)) as [H2 Hq3]. split; [lia|]. intros _ Hlt. by destruct Hq3; [|lia|]. }
  assert (forall k, told k -> (ls_seen s1 <= k + 2)%nat) as Hp by (intros k Hk; apply Hp1; [done|by apply Hr]). clear Hp1.
  case_match; [wstep; apply Hend; [done..|]; intros k Hk; specialize (Hp k Hk); lia|]. apply wp_bind.
  assert (forall s2, idle_rx p s2 -> (ls_seen s1 <= ls_seen s2 <= S (ls_seen s1))%nat -> forall cleared, wp (if negb (cleared =? 0) then mret true
    else running ← observe (le_running env);
      if negb running then mret true
      else if has (pl_wakeup r) (Z.lor POLLERR (Z.lor POLLHUP POLLNVAL)) then mret true
      else if has (pl_link r) (Z.lor POLLERR (Z.lor POLLHUP POLLNVAL)) then mret true
      else if negb (has (pl_link r) POLLIN) then rx_loop mx env cap rounds
      else drained ← drain mx env cap (S rounds); if drained : bool then rx_loop mx env cap rounds else mret false)
    (leaves p 4 (S rounds) (ls_seen s)) s2) as Hrest; cycle 1.
  { destruct (has (pl_wakeup r) POLLIN); [apply wp_rx_observe; intros cleared; apply Hrest; [done|cbn; lia]|apply wp_ret; apply (Hrest s1 H1); lia]. }
  intros s2 H2 Hs2 cleared. case_match; [wstep; apply Hend; [done|lia|]; intros k Hk; specialize (Hp k Hk); lia|].
  apply wp_bind, wp_rx_running. intros running Hrun.
  assert (forall k, told k -> (S (ls_seen s2) <= k + 4)%nat) as Hp2 by (intros k Hk; specialize (Hp k Hk); lia).
  destruct running; cbn [negb]; [|wstep; apply Hend; [done|cbn; lia|done]].
  case_match; [wstep; apply Hend; [done|cbn; lia|done]|]. case_match; [wstep; apply Hend; [done|cbn; lia|done]|].
  assert (forall b s', (ls_seen s < ls_seen s')%nat -> forall s3, prompt 4 rounds (ls_seen s') b s3 ->
    (forall k, told k -> (ls_seen s' <= k + 3)%nat) -> prompt 4 (S rounds) (ls_seen s) b s3) as Hagain.
  { intros b s' Hlt s3 [Hm3 Hq3] Hk'. split; [lia|]. intros k Hk. destruct (Hq3 k Hk) as [Hq4 Hq5]. specialize (Hk' k Hk). specialize (Hr k Hk).
    split; [lia|]. intros _ Hlt'. apply Hq5; lia. }
  case_match.
  { eapply wp_mono; [by apply IH|]. intros b s3 [Hi3 Hq3]. split; [done|]. eapply Hagain; [|exact Hq3|]; [cbn; lia|].
    intros k Hk. specialize (Hrun k Hk eq_refl). cbn. lia. }
  apply wp_bind. eapply wp_mono; [by apply wp_drain|]. intros b s3 [Hi3 [Hm3 Hq3]]. cbn [ls_seen] in *.
  assert (forall k, told k -> (ls_seen s3 <= k + 3)%nat) as Hp3 by (intros k Hk; specialize (Hrun k Hk eq_refl); destruct (Hq3 k Hk); lia).
  destruct b.
  - eapply wp_mono; [by apply IH|]. intros b s4 [Hi4 Hq4]. split; [done|]. eapply Hagain; [|exact Hq4|done]. lia.
  - wstep. split; [done|]. split; [lia|]. intros k Hk. specialize (Hp3 k Hk). split; [lia|]. intros _ Hlt. apply (Hq3 k Hk); [done|]. lia.
Qed.

End Sound.

(** C21: Receiving on a link never gets stuck: whatever the concrete link delivers and
    the upper layer does with the packets it borrows, after any number of rounds the
    thread holds no packet, its buffer is empty and the references of everybody
    else are as before; and it obeys its flag, wherever it is when the flag is cleared:
    if that is from the observation [k] on, the thread makes at most four more
    observations, whatever the link still delivers, and it returns if it had rounds
    left at [k]. *)
Theorem link_rx_sound mx env cap mine rounds thread link p items seen :
  mutex_ok mx -> (forall j, 0 <= mine j) -> fills cap (le_receive_batch env) ->
  (forall receive, le_handler env = Some receive -> borrows_batch receive) ->
  owned_by mine p -> length items = cap -> packets_of items = [] ->
  exists finished s', linkg_link_rx_thread mx env cap (S rounds) thread link (LinkRxState p items seen) = Some (finished, s') /\
    lease mine nothing p (ls_pool s') /\ length (ls_items s') = cap /\ packets_of (ls_items s') = [] /\
    (forall k, (forall n, (k <= n)%nat -> le_running env n = false) ->
       (ls_seen s' <= S seen `max` (k + 4))%nat /\ ((k < seen + S rounds)%nat -> finished = true)).
Proof.
  intros Hmx Hmine Hf Hh O Hl He. assert (idle_rx cap mine p (LinkRxState p items seen)) as Hi by (split; [by apply lease_refl|done]).
  assert (exists finished s', (mret true : XM bool) (LinkRxState p items seen) = Some (finished, s') /\
    lease mine nothing p (ls_pool s') /\ length (ls_items s') = cap /\ packets_of (ls_items s') = [] /\
    (forall k, (forall n, (k <= n)%nat -> le_running env n = false) ->
       (ls_seen s' <= S seen `max` (k + 4))%nat /\ ((k < seen + S rounds)%nat -> finished = true))) as Hret.
  { exists true, (LinkRxState p items seen). destruct Hi as (?&?&?). splits; try done. intros k _. cbn. split; [lia|done]. }
  unfold linkg_link_rx_thread. destruct thread as [t|], link as [lk|]; try done.
  destruct (lk_runtime lk), (lk_ops lk) as [ops|]; try done. repeat (case_match; [done|]).
  destruct (wp_elim _ _ _ (wp_rx_loop mx env cap mine Hmx Hmine Hf Hh p (S rounds) _ Hi)) as (b&s'&E&(L&Hl'&He')&_&Hk).
  exists b, s'. splits; try done. intros k Htold. destruct (Hk k Htold) as [Hb Hfin]. split; [exact Hb|]. intros Hlt. by apply Hfin.
Qed.

(** ** A link that receives one packet at a time *)

Definition demo_receive_batch (n : nat) (items : list linkg_link_rx_item) : PM (Z * list linkg_link_rx_item) :=
  addr ← gets po_addr;
  packet ← linkg_packet_pool_alloc mutex_default (Some addr);
  match packet with
  | Some i => mret (1, LinkRxItem (Some i) endpoint_zero :: replicate 31 rx_item_zero)
  | None => mret (0, items)
  end.

Lemma demo_fills : fills 32 demo_receive_batch.
Proof.
  intros n mine p items O Hl He. unfold demo_receive_batch. rewrite bind_gets.
  destruct (alloc_lease mutex_default mine p mutex_default_ok O) as [E|(p'&i&k&E&Hi&L&O'&_)]; rewrite (bind_step _ _ _ _ _ E).
  - exists 0, items, p. rewrite He. split; [done|]. split; [done|]. split; [by apply lease_refl|].
    split; [eapply owned_ext; [|exact O]; intros j; unfold with_refs; cbn; lia|]. split; [constructor|].
    split; [intros j Hj; by apply elem_of_nil in Hj|]. by split.
  - exists 1, (LinkRxItem (Some i) endpoint_zero :: replicate 31 rx_item_zero), p'.
    assert (packets_of (LinkRxItem (Some i) endpoint_zero :: replicate 31 rx_item_zero) = [i]) as -> by done.
    splits; try done; try lia.
    + eapply owned_ext; [|exact O']. intros j. unfold with_refs, with_ref. cbn. lia.
    + apply NoDup_singleton.
    + by intros j ->%list_elem_of_singleton.
Qed.

Definition demo_rx_env : link_rx_env :=
  LinkRxEnv (fun n => (n <? 12)%nat) (fun _ => PollResult 1 0 0 POLLIN) (fun _ => 0) 5 demo_receive_batch (Some (fun _ _ => mret tt)).

Definition demo_rx_thread : linkg_thread := Thread [114; 120] 3 (Some 1) 1 7 thread_config_zero true true true.

(** The flag is cleared at the observation 12, while a batch is drained. *)
Lemma link_rx_sound_witness :
  exists s', linkg_link_rx_thread mutex_default demo_rx_env 32 13 (Some demo_rx_thread) (Some demo_link)
      (LinkRxState (frame_pool 100) (replicate 32 rx_item_zero) 0) = Some (true, s') /\
    packets_of (ls_items s') = [] /\ (ls_seen s' <= 16)%nat.
Proof.
  destruct (link_rx_sound mutex_default demo_rx_env 32 demo_hold 12 (Some demo_rx_thread) (Some demo_link) (frame_pool 100)
    (replicate 32 rx_item_zero) 0) as (b&s'&E&_&_&He&Hk).
  - exact mutex_default_ok.
  - intros j. unfold demo_hold. destruct (decide (j = 1%nat)); lia.
  - exact demo_fills.
  - intros receive [= <-] n mine p items _ O _. exists p. split; [reflexivity|]. exact (lease_refl mine _ p O).
  - exact demo_owned.
  - reflexivity.
  - reflexivity.
  - destruct (Hk 12%nat) as [H1 H2]; [intros n Hn; exact (proj2 (Nat.ltb_ge n 12) Hn)|]. rewrite (H2 ltac:(lia)) in E.
    exists s'. exact (conj E (conj He H1)).
Defined.
