(* ===== verification/TransportRxAccept.v ===== *)
(** * Acceptance of received frames  (core/transport/transport_rx.c)

    What [_linkg_transport_rx_accept_batch] does to the receive windows: each
    window judges the frames attributed to it in arrival order, whatever the mix
    of peers, classes and domains in the chunk; the first chunk of a window sets
    its base line at the earliest frame, so that an out-of-order start loses
    nothing; and no sequence number is accepted twice across chunks. *)

From S2P Require Import Prelude.
From S2P Require Import PacketStore.
From S2P Require Import PacketPool.
From S2P Require Import TransportReassembly.
From S2P Require Import TransportForward.
From S2P Require Import TransportReorderRuntime.
From S2P Require Import LinkPath.
From S2P Require Import TransportTypes.
From S2P Require Import TransportWindow.
From S2P Require Import TransportWire.
From S2P Require Import TransportPeer.
From S2P Require Import TransportReorder.
From S2P Require TransportPeerLife.
From S2P Require Import TransportRx.

(** ** Windows and the frames they judge *)

(** A receive window: peer slot, class, and whether it is the user-data one. *)
Definition window_key : Type := peer_ptr * nat * bool.

Definition window_of (x : linkg_transport_context) (key : window_key) : option linkg_transport_rx_window :=
  p ← cx_peers x !! key.1.1;
  c ← pr_classes p !! key.1.2;
  Some (rx_window key.2 c).

(** The window a frame is judged by: it is decoded, its group has an active peer and its class exists. *)
Definition frame_key (peers : list (option peer_ptr)) (x : linkg_transport_rx_state) : option window_key :=
  if bool_decide (rx_stage x = DECODED) && (rx_traffic_class x <? LINKG_TRANSPORT_CLASS_COUNT) then
    (fun p => (p, Z.to_nat (rx_traffic_class x), is_user_data (rx_header x)))
      <$> mjoin (peers !! Z.to_nat (rx_source_group_index x))
  else None.

Definition frame_sequence (x : linkg_transport_rx_state) : Z := th_sequence (rx_header x).

(** The sequence numbers a window is asked about, in arrival order. *)
Definition key_sequences (peers : list (option peer_ptr)) (key : window_key) (states : list linkg_transport_rx_state) : list Z :=
  omap (fun x => if decide (frame_key peers x = Some key) then Some (frame_sequence x) else None) states.

(** The verdicts the frames of a window ended with. *)
Definition key_verdicts (peers : list (option peer_ptr)) (key : window_key)
    (states states' : list linkg_transport_rx_state) : list linkg_transport_window_result :=
  omap (fun '(x, x') => if decide (frame_key peers x = Some key) then Some (rx_window_result x') else None) (zip states states').

(** The base line of a window that has seen nothing: just before the earliest of
    the frames at hand that is less than a reorder window before the first. *)
Definition pick_earlier (original earliest n : Z) : Z :=
  if _linkg_transport_rx_sequence_before n earliest && (u32 (original - n) <? LINKG_TRANSPORT_REORDER_WINDOW_SIZE)
  then n else earliest.

Definition baseline (w : linkg_transport_rx_window) (n : Z) (ns : list Z) : linkg_transport_rx_window :=
  if initialized w then w
  else
    let earliest := foldl (pick_earlier n) n ns in
    if earliest =? n then w else RxWindow bitmap_zero (u32 (earliest - 1)) 0 true.

(** One window judging a list of sequence numbers. *)
Fixpoint judge (w : linkg_transport_rx_window) (ns : list Z) : list linkg_transport_window_result * linkg_transport_rx_window :=
  match ns with
  | [] => ([], w)
  | n :: ns' =>
      let w := baseline w n ns in
      let '(r, w', _) := linkg_transport_window_accept_ex (Some w) n in
      let '(rs, w'') := judge (default w w') ns' in
      (r :: rs, w'')
  end.

Lemma judge_cons w n ns r w1 lost :
  linkg_transport_window_accept_ex (Some (baseline w n (n :: ns))) n = (r, Some w1, lost) ->
  judge w (n :: ns) = (r :: (judge w1 ns).1, (judge w1 ns).2).
Proof. intros E. cbn [judge]. rewrite E. cbn [default]. unfold id. by destruct (judge w1 ns). Qed.

(** The ranges of the fields of the C types. *)
Definition rx_ranges (x : linkg_transport_rx_state) : Prop :=
  0 <= rx_source_group_index x /\ 0 <= rx_traffic_class x /\ in_range 32 (frame_sequence x).

(** Every peer has its classes. *)
Definition classes_ok (x : linkg_transport_context) : Prop :=
  forall i p, cx_peers x !! i = Some p -> length (pr_classes p) = Z.to_nat LINKG_TRANSPORT_CLASS_COUNT.

Lemma window_of_Some x p k u :
  classes_ok x -> (p < length (cx_peers x))%nat -> (k < Z.to_nat LINKG_TRANSPORT_CLASS_COUNT)%nat ->
  is_Some (window_of x (p, k, u)).
Proof.
  intros Hx Hp Hk. unfold window_of. cbn. destruct (lookup_lt_is_Some_2 _ _ Hp) as [q Eq]. rewrite Eq. cbn.
  destruct (lookup_lt_is_Some_2 (pr_classes q) k) as [c Ec]; [by rewrite (Hx _ _ Eq)|]. rewrite Ec. by eexists.
Qed.

(** ** One frame *)

Lemma prepare_baseline peers w states x key :
  frame_key peers x = Some key -> Forall rx_ranges states -> 0 <= rx_source_group_index x ->
  0 <= rx_traffic_class x ->
  _linkg_transport_rx_prepare_window_start_locked w states x key.1.1 peers =
  baseline w (frame_sequence x) (key_sequences peers key states).
Proof.
  intros Hk Hr Hg Hc. unfold _linkg_transport_rx_prepare_window_start_locked, baseline. destruct (initialized w); [done|].
  change (th_sequence (rx_header x)) with (frame_sequence x).
  assert (forall e, foldl (earlier peers key.1.1 x) e states =
    foldl (pick_earlier (frame_sequence x)) e (key_sequences peers key states)) as ->; [|done].
  unfold frame_key in Hk. destruct (_ && _)%bool eqn:E in Hk; [|done].
  apply andb_true_iff in E as [Es Ec]. apply bool_decide_eq_true in Es. apply Z.ltb_lt in Ec.
  apply fmap_Some in Hk as (p&Hp&->). cbn [fst].
  induction Hr as [|y states (G&Cy&S) Hr IH]; intros e; [done|].
  cbn [foldl key_sequences omap list_omap]. fold (key_sequences peers (p, Z.to_nat (rx_traffic_class x), is_user_data (rx_header x)) states).
  rewrite IH. unfold earlier, frame_key. case_decide as D.
  - destruct (_ && _)%bool eqn:E in D; [|done]. apply andb_true_iff in E as [Eys Eyc]. rewrite Eys. cbn [negb orb].
    apply fmap_Some in D as (q&Hq&[= <- Ecl Eu]). assert (rx_traffic_class y = rx_traffic_class x) as -> by lia.
    rewrite Z.eqb_refl, Eu, eqb_reflx. cbn [negb orb]. destruct (peers !! Z.to_nat (rx_source_group_index y)) as [o|] eqn:Eo; [|done].
    cbn in Hq. subst o. pose proof (lookup_lt_Some _ _ _ Eo). rewrite bool_decide_true by done.
    replace (_ <=? _) with false by (symmetry; apply Z.leb_gt; lia). cbn [negb orb foldl]. reflexivity.
  - cbn [foldl]. f_equal. destruct (bool_decide (rx_stage y = DECODED)) eqn:Eys; cbn [negb orb]; [|done].
    destruct (rx_traffic_class y =? rx_traffic_class x) eqn:Ecl; cbn [negb orb]; [|done].
    destruct (eqb _ _) eqn:Eu; cbn [negb orb]; [|done]. apply eqb_prop in Eu. apply Z.eqb_eq in Ecl.
    destruct (_ <=? _) eqn:El; cbn [negb orb]; [done|]. clear Eys.
    case_bool_decide as Eq; cbn [negb]; [|done]. exfalso. apply D. cbn [andb]. rewrite Ecl. replace (_ <? _) with true by (symmetry; apply Z.ltb_lt; lia).
    by rewrite Eq, Eu.
Qed.

(** ** Windows over unbounded sequence numbers *)

(** The numbers that were accepted. *)
Definition accepted_of (ns : list Z) (rs : list linkg_transport_window_result) : list Z :=
  omap (fun '(n, r) => if decide (r = WINDOW_ACCEPT) then Some n else None) (zip ns rs).

Lemma accepted_of_cons n r ns rs :
  accepted_of (n :: ns) (r :: rs) = if decide (r = WINDOW_ACCEPT) then n :: accepted_of ns rs else accepted_of ns rs.
Proof. unfold accepted_of. cbn. by case_decide. Qed.

(** Accepting adds a new number to the received ones, and nothing else does. *)
Lemma aw_accept_recv n s :
  (aw_accept n s).1.1 = WINDOW_ACCEPT /\ aw_recv (aw_accept n s).1.2 = {[ n ]} ∪ aw_recv s /\
    (n ∈ aw_recv s -> aw_high s < n) \/
  (aw_accept n s).1.1 <> WINDOW_ACCEPT /\ aw_recv (aw_accept n s).1.2 = aw_recv s.
Proof.
  unfold aw_accept. destruct (Z.ltb_spec (aw_high s) n); [left; done|].
  destruct (_ <=? _); [by right|]. case_decide; [by right|]. left. splits; try done.
Qed.

Lemma judge_run ns : forall s w, window_repr s w -> in_half_range (aw_high s) ns ->
  exists rs w' s', judge w (u32 <$> ns) = (rs, w') /\ window_repr s' w' /\ aw_high s' = run_high (aw_high s) ns /\
    NoDup (accepted_of ns rs) /\ (forall k, k ∈ accepted_of ns rs -> k ∉ aw_recv s) /\
    (forall k, k ∈ aw_recv s' <-> k ∈ aw_recv s \/ k ∈ accepted_of ns rs).
Proof.
  induction ns as [|n ns IH]; intros s w R Hr.
  { exists [], w, s. splits; try done; [constructor|set_solver|set_solver]. }
  destruct Hr as [Hn Hr]. destruct (window_accept_refines_fact s w n R Hn) as (w1&E&R1).
  rewrite <- (aw_accept_high n s) in Hr. destruct (IH _ _ R1 Hr) as (rs&w'&s'&Ej&R'&Hh&Nd&Nr&Hs').
  assert (baseline w (u32 n) (u32 n :: (u32 <$> ns)) = w) as B by (unfold baseline; by rewrite (wr_init _ _ R)).
  rewrite <- B in E. rewrite fmap_cons, (judge_cons _ _ _ _ _ _ E), Ej.
  exists ((aw_accept n s).1.1 :: rs), w', s'. rewrite accepted_of_cons. splits; [done|done|..].
  { rewrite Hh, aw_accept_high. done. }
  all: destruct (aw_accept_recv n s) as [(Ha&Hrecv&Hnew)|[Ha Hrecv]]; rewrite Hrecv in *.
  all: rewrite ?(decide_True _ _ Ha), ?(decide_False _ _ Ha); try done.
  - constructor; [set_solver|done].
  - intros k [->|Hk]%elem_of_cons; [|set_solver]. intros Hin. pose proof (wr_recv _ _ R _ Hin). specialize (Hnew Hin). lia.
  - set_solver.
Qed.

Lemma in_half_range_app ns1 ns2 : forall h,
  in_half_range h (ns1 ++ ns2) -> in_half_range h ns1 /\ in_half_range (run_high h ns1) ns2.
Proof. induction ns1 as [|n ns1 IH]; intros h; cbn; [done|]. intros [H (H1&H2)%IH]. done. Qed.

(** The base line of a fresh window: [d] numbers before the first, or none. *)
Lemma pick_earlier_spec n ns : forall e,
  (e = u32 n \/ in_range 32 e /\ u32 (u32 n - e) < 64) -> Forall (in_range 32) ns ->
  let e' := foldl (pick_earlier (u32 n)) e ns in e' = u32 n \/ in_range 32 e' /\ u32 (u32 n - e') < 64.
Proof.
  induction ns as [|m ns IH]; intros e He Hr; [done|]. inversion Hr; subst. cbn [foldl]. apply IH; [|done].
  unfold pick_earlier. destruct (_ && _)%bool eqn:E; [|done]. zb. right. split; [done|].
  unfold LINKG_TRANSPORT_REORDER_WINDOW_SIZE in *. lia.
Qed.

(** The first frame after the base line is accepted; the window tracks [d] numbers. *)
Lemma accept_baseline n d :
  1 <= d <= 512 -> exists w', linkg_transport_window_accept_ex (Some (RxWindow bitmap_zero (u32 (n - d)) 0 true)) (u32 n) =
    (WINDOW_ACCEPT, Some w', 0) /\ window_repr (AWindow n (n - d) {[ n ]}) w'.
Proof.
  intros Hd. unfold linkg_transport_window_accept_ex. cbn [initialized negb highest_sequence tracked_count].
  rewrite i32_distance by lia. replace (n - (n - d)) with d by lia.
  replace (0 <? d) with true by (symmetry; apply Z.ltb_lt; lia).
  unfold _linkg_transport_window_confirm_lost. cbn [tracked_count]. rewrite orb_true_r.
  rewrite (wrap_small 32 (0 + d)) by mlia. unfold LINKG_TRANSPORT_RX_WINDOW_BITS.
  replace (0 + d <? 0) with false by (symmetry; apply Z.ltb_ge; lia).
  replace (512 <? 0 + d) with false by (symmetry; apply Z.ltb_ge; lia). cbn [orb].
  set (b := RxWindow _ _ _ _). eexists. split; [reflexivity|]. destruct (bit_set_fields b 0) as (F1&F2&F3).
  assert (bitmap_wf (received_bitmap (RxWindow bitmap_zero (u32 (n - d)) 0 true))) as Wz by apply bitmap_zero_wf.
  split; rewrite ?F1, ?F2, ?F3; cbn [b highest_sequence tracked_count initialized aw_high aw_low aw_recv].
  - unfold _linkg_transport_window_shift. by repeat case_match.
  - apply bit_set_wf; [|lia]. apply shift_wf; [done|lia].
  - done.
  - lia.
  - lia.
  - set_solver by lia.
  - intros off Hoff. unfold b. rewrite (advanced_bits _ _ d) by (done || lia). cbn [received_bitmap]. rewrite bit_zero, andb_false_r, orb_false_r.
    destruct (Z.eqb_spec off 0) as [->|Hne]; symmetry; [apply bool_decide_eq_true|apply bool_decide_eq_false]; set_solver by lia.
Qed.

(** Numbers close to the first one. *)
Definition near (n m : Z) : Prop := n - 64 < m < n + 448.

(** Each number accepted at its first occurrence and a duplicate afterwards. *)
Fixpoint first_seen (seen : gset Z) (ns : list Z) : list linkg_transport_window_result :=
  match ns with
  | [] => []
  | n :: ns' => (if decide (n ∈ seen) then WINDOW_DUPLICATE else WINDOW_ACCEPT) :: first_seen ({[ n ]} ∪ seen) ns'
  end.

Lemma foldl_min_le ns : forall e, foldl Z.min e ns <= e /\ forall m, m ∈ ns -> foldl Z.min e ns <= m.
Proof.
  induction ns as [|n ns IH]; intros e; cbn; [split; [lia|set_solver]|].
  destruct (IH (Z.min e n)) as [H1 H2]. split; [lia|]. intros m [->|Hm]%elem_of_cons; [lia|by apply H2].
Qed.

Lemma foldl_min_near n ns : forall e, Forall (near n) ns -> n - 64 < e -> n - 64 < foldl Z.min e ns.
Proof.
  induction ns as [|m ns IH]; intros e Hn He; [done|]. inversion Hn as [|? ? [? ?] ?]; subst. cbn. apply IH; [done|lia].
Qed.

Lemma pick_earlier_min n ns : forall e, Forall (near n) ns -> n - 64 < e <= n ->
  foldl (pick_earlier (u32 n)) (u32 e) (u32 <$> ns) = u32 (foldl Z.min e ns).
Proof.
  induction ns as [|m ns IH]; intros e Hn He; [done|]. inversion Hn as [|? ? [Hm1 Hm2] Hrest]; subst. cbn [fmap list_fmap foldl].
  assert (pick_earlier (u32 n) (u32 e) (u32 m) = u32 (Z.min e m)) as ->.
  2: { apply IH; [done|lia]. }
  unfold pick_earlier, _linkg_transport_rx_sequence_before. rewrite i32_distance, wrap_sub_idemp by lia.
  destruct (Z.ltb_spec (m - e) 0) as [Hlt|Hge]; cbn [andb]; [|by rewrite Z.min_l by lia].
  rewrite (wrap_small 32 (n - m)) by mlia.
  replace (_ <? _) with true; [by rewrite Z.min_r by lia|].
  symmetry. apply Z.ltb_lt. unfold LINKG_TRANSPORT_REORDER_WINDOW_SIZE. lia.
Qed.

(** A window judging numbers it cannot have left behind. *)
Lemma judge_near n ns : forall a w, window_repr a w -> in_half_range (aw_high a) ns -> Forall (near n) ns ->
  Forall (fun m => aw_low a < m) ns -> (judge w (u32 <$> ns)).1 = first_seen (aw_recv a) ns.
Proof.
  induction ns as [|m ns IH]; intros a w R Hr Hn Hl; [done|]. inversion Hn as [|? ? [Hm1 Hm2] Hrest]; subst.
  inversion Hl as [|? ? Hlm Hlrest]; subst. destruct Hr as [Hm Hr]. destruct (window_accept_refines_fact a w m R Hm) as (w1&E&R1).
  rewrite <- (aw_accept_high m a) in Hr.
  assert (baseline w (u32 m) (u32 m :: (u32 <$> ns)) = w) as B by (unfold baseline; by rewrite (wr_init _ _ R)).
  rewrite <- B in E. rewrite fmap_cons, (judge_cons _ _ _ _ _ _ E). cbn [fst first_seen].
  rewrite (IH (aw_accept m a).1.2 w1 R1 Hr Hrest).
  - unfold aw_accept. destruct (Z.ltb_spec (aw_high a) m) as [Hf|Hb]; cbn [fst snd aw_recv].
    + rewrite decide_False; [done|]. intros Hin. pose proof (wr_recv _ _ R _ Hin). lia.
    + replace (m <=? aw_low a) with false by (symmetry; apply Z.leb_gt; lia). case_decide as D; cbn [fst snd aw_recv]; [|done].
      f_equal. f_equal. set_solver.
  - apply Forall_forall. intros k Hk. pose proof (proj1 (Forall_forall _ _) Hlrest k Hk) as Hlk. pose proof (proj1 (Forall_forall _ _) Hrest k Hk) as [? ?].
    cbn in Hlk. unfold aw_accept. repeat case_match; cbn; lia.
Qed.

(** The first frame of a fresh window is accepted, [d] after the base line. *)
Lemma fresh_first w n ns :
  initialized w = false -> exists d w1 lost, 1 <= d <= 64 /\ (Forall (near n) ns -> Forall (fun m => n - d < m) ns) /\
  linkg_transport_window_accept_ex (Some (baseline w (u32 n) (u32 n :: (u32 <$> ns)))) (u32 n) = (WINDOW_ACCEPT, Some w1, lost) /\
  window_repr (AWindow n (n - d) {[ n ]}) w1.
Proof.
  intros Hi. unfold baseline. rewrite Hi. set (e := foldl _ _ _).
  assert (Forall (near n) ns -> e = u32 (foldl Z.min n ns)) as Hmin.
  { intros Hn. unfold e. change (u32 n :: (u32 <$> ns)) with (u32 <$> n :: ns). rewrite pick_earlier_min; [|by constructor; [unfold near; lia|]|lia].
    cbn. by rewrite Z.min_id. }
  destruct (foldl_min_le ns n) as [M1 M2].
  destruct (Z.eqb_spec e (u32 n)) as [Ee|Hne].
  - destruct (accept_first w n Hi) as (w1&E&R1). exists 1, w1, 0. splits; try lia; try done. intros Hn.
    pose proof (foldl_min_near n ns n Hn ltac:(lia)) as M3. rewrite Hmin in Ee by done.
    assert (foldl Z.min n ns = n) as M by mlia. apply Forall_forall. intros m Hm. specialize (M2 m Hm). lia.
  - destruct (pick_earlier_spec n (u32 <$> n :: ns) (u32 n)) as [He|[He Hlt]]; [by left| |done|].
    { apply Forall_fmap, Forall_true. intros k. by apply wrap_range. }
    change (foldl _ _ _) with e in He, Hlt. set (d := u32 (u32 n - e) + 1).
    assert (1 <= d <= 64) as Hd by (unfold d; pose proof (wrap_range 32 (u32 n - e) ltac:(lia)) as [? _]; lia).
    destruct (accept_baseline n d ltac:(lia)) as (w1&E&R1). exists d, w1, 0. splits; try lia; try done.
    + intros Hn. pose proof (foldl_min_near n ns n Hn ltac:(lia)) as M3. specialize (Hmin Hn).
      assert (n - d + 1 = foldl Z.min n ns) as M by (unfold d; rewrite Hmin, wrap_sub_idemp, wrap_small by mlia; lia).
      apply Forall_forall. intros m Hm. specialize (M2 m Hm). lia.
    + assert (u32 (e - 1) = u32 (n - d)) as -> by (unfold d; mlia). done.
Qed.

(** A fresh window judges its first chunk from its base line. *)
Lemma judge_fresh w n ns :
  initialized w = false -> in_half_range n ns -> exists rs w' s',
  judge w (u32 <$> n :: ns) = (WINDOW_ACCEPT :: rs, w') /\ (Forall (near n) ns -> rs = first_seen {[ n ]} ns) /\
  window_repr s' w' /\ aw_high s' = run_high n ns /\ NoDup (accepted_of (n :: ns) (WINDOW_ACCEPT :: rs)) /\
  (forall k, k ∈ aw_recv s' <-> k ∈ accepted_of (n :: ns) (WINDOW_ACCEPT :: rs)).
Proof.
  intros Hi Hr. destruct (fresh_first w n ns Hi) as (d&w1&lost&Hd&Hlow&E&R1).
  destruct (judge_run ns _ _ R1 Hr) as (rs&w'&s'&Ej&R'&Hh&Nd&Nr&Hs').
  exists rs, w', s'. cbn [aw_high aw_recv] in *. splits; try done.
  - rewrite fmap_cons, (judge_cons _ _ _ _ _ _ E). by rewrite Ej.
  - intros Hn. pose proof (judge_near n ns _ w1 R1 Hr Hn (Hlow Hn)) as J. by rewrite Ej in J.
  - rewrite accepted_of_cons, decide_True by done. constructor; [|done]. intros Hin%Nr. set_solver.
  - intros k. rewrite accepted_of_cons, decide_True, Hs' by done. set_solver.
Qed.

(** ** The state a batch works on *)

Section Accept.
Context {C : Type} (env : rx_env C).
Local Abbreviation core := (rx_core C).

(** The window of a state. *)
Definition core_window (s : core) (key : window_key) : option linkg_transport_rx_window :=
  window_of (tr_context (xc_transport s)) key.

Definition core_context (s : core) : linkg_transport_context := tr_context (xc_transport s).

(** A state with other peers. *)
Definition core_set_peers (l : list linkg_transport_peer) (s : core) : core :=
  core_transport (tset_context (ctx_set_peers l (cx_peer_count (core_context s)) (core_context s)) (xc_transport s)) s.

Lemma peer_read_run (s : core) i p :
  cx_peers (core_context s) !! i = Some p -> transport (peer_read i) s = Some (p, s).
Proof.
  intros Ep. destruct s as [t r q tr]. unfold core_context in Ep. cbn in Ep. unfold transport, zoom, peer_read.
  cbn [xc_transport]. unfold TransportPeer.context. mrun. by rewrite Ep.
Qed.

Lemma core_class_update_run (s : core) i k f p c :
  cx_peers (core_context s) !! i = Some p -> pr_classes p !! k = Some c ->
  transport (class_update i k f) s =
    Some (tt, core_set_peers (<[i := set_classes (<[k := f c]> (pr_classes p)) p]> (cx_peers (core_context s))) s).
Proof.
  intros Ep Ec. destruct s as [t r q tr]. unfold core_context in *. cbn [xc_transport] in *.
  assert (peer_read i t = Some (p, t)) as R.
  { unfold peer_read, TransportPeer.context. mrun. by rewrite Ep. }
  assert (class_update i k f t = Some (tt, tset_context (ctx_set_peers
    (<[i := set_classes (<[k := f c]> (pr_classes p)) p]> (cx_peers (tr_context t))) (cx_peer_count (tr_context t)) (tr_context t)) t)) as U.
  { unfold class_update, peer_update. mstep R. rewrite bool_decide_true by (by eapply lookup_lt_Some). mrun.
    mstep R. unfold class_at_index. by rewrite Ec. }
  unfold transport, zoom. cbn [xc_transport]. by rewrite U.
Qed.

(** ** One frame *)

(** What judging a frame leaves: the windows, and the frame's state. *)
Definition judged (peers : list (option peer_ptr)) (states : list linkg_transport_rx_state) (s s' : core)
    (x x' : linkg_transport_rx_state) : Prop :=
  length (cx_peers (core_context s')) = length (cx_peers (core_context s)) /\
  rx_header x' = rx_header x /\ (rx_ranges x -> rx_ranges x') /\
  (rx_stage x <> DECODED -> x' = x) /\ rx_stage x' <> DECODED /\
  match frame_key peers x with
  | None => (forall key, core_window s' key = core_window s key) /\ rx_stage x' = (if decide (rx_stage x = DECODED) then DROPPED else rx_stage x)
  | Some key => exists w w' lost, core_window s key = Some w /\
  linkg_transport_window_accept_ex (Some (baseline w (frame_sequence x) (key_sequences peers key states)))
        (frame_sequence x) = (rx_window_result x', Some w', lost) /\
  core_window s' key = Some w' /\
  (forall key', key' <> key -> core_window s' key' = core_window s key') /\
  rx_stage x' = (if decide (rx_window_result x' = WINDOW_ACCEPT) then ACCEPTED else DROPPED) /\
  rx_peer x' = Some key.1.1
  end.

Lemma window_of_set_peers (s : core) i k p c c' key :
  cx_peers (core_context s) !! i = Some p -> pr_classes p !! k = Some c ->
  core_window (core_set_peers (<[i := set_classes (<[k := c']> (pr_classes p)) p]> (cx_peers (core_context s))) s) key =
  if decide (key.1 = (i, k)) then Some (rx_window key.2 c') else core_window s key.
Proof.
  intros Ep Ec. destruct key as [[i' k'] u]. unfold core_window, window_of, core_set_peers. cbn.
  fold (core_context s). rewrite lookup_insert_case by (by eapply lookup_lt_Some).
  destruct (decide (i = i')) as [<-|Hi].
  - cbn. rewrite lookup_insert_case by (by eapply lookup_lt_Some). destruct (decide (k = k')) as [<-|Hk]; cbn.
    + by rewrite decide_True.
    + rewrite decide_False by congruence. by rewrite Ep.
  - rewrite decide_False by congruence. done.
Qed.

Lemma accept_ex_Some w n : exists r w' lost, linkg_transport_window_accept_ex (Some w) n = (r, Some w', lost).
Proof. unfold linkg_transport_window_accept_ex. repeat case_match; eauto. Qed.

Lemma classes_ok_set_peers (s : core) i k p c' :
  classes_ok (core_context s) -> cx_peers (core_context s) !! i = Some p ->
  classes_ok (core_context (core_set_peers (<[i := set_classes (<[k := c']> (pr_classes p)) p]> (cx_peers (core_context s))) s)).
Proof.
  intros Hc Ep j q. unfold core_set_peers, core_context. cbn. fold (core_context s). rewrite lookup_insert_case by (by eapply lookup_lt_Some).
  case_decide as E; [|by apply Hc]. intros [= <-]. cbn. rewrite length_insert. by apply (Hc i).
Qed.

Definition peers_of (gps : list (option peer_ptr * Z * bool)) : list (option peer_ptr) := (fun gp => fst (fst gp)) <$> gps.

Definition peers_in (gps : list (option peer_ptr * Z * bool)) (s : core) : Prop :=
  forall g p e q, gps !! g = Some (Some p, e, q) -> (p < length (cx_peers (core_context s)))%nat.

Lemma accept_one_judged gps now states index stats (s : core) x :
  states !! index = Some x -> Forall rx_ranges states -> classes_ok (core_context s) -> peers_in gps s ->
  Z.of_nat (length gps) <= LINKG_RESOURCE_NETWORK_STA_MAX ->
  exists x' stats' s', accept_one gps now states index stats s = Some ((<[index := x']> states, stats'), s') /\
    judged (peers_of gps) states s s' x x' /\ classes_ok (core_context s').
Proof.
  intros Ex Hr Hc Hp Hn. unfold accept_one. rewrite Ex. mrun. case_bool_decide as Es; cbn [negb].
  2: { exists x, stats, s. rewrite list_insert_id by done. splits; try done. unfold judged, frame_key.
       rewrite bool_decide_false by done. cbn [andb]. rewrite decide_False by done. splits; done. }
  destruct (proj1 (Forall_lookup _ _) Hr _ _ Ex) as (Hg&Hcl&Hseq).
  assert (forall st y, frame_key (peers_of gps) x = None -> rx_stage y = DROPPED -> rx_header y = rx_header x -> rx_ranges y ->
    exists x' stats' s', Some (<[index := y]> states, st : linkg_transport_rx_batch_stats, s) =
      Some ((<[index := x']> states, stats'), s') /\ judged (peers_of gps) states s s' x x' /\ classes_ok (core_context s')) as Drop.
  { intros st y Hk Hy Hh Hry. exists y, st, s. split; [done|]. split; [|done]. unfold judged. rewrite Hk, Es, Hy. splits; try done. }
  assert (frame_key (peers_of gps) x = if rx_traffic_class x <? LINKG_TRANSPORT_CLASS_COUNT then
     (fun p => (p, Z.to_nat (rx_traffic_class x), is_user_data (rx_header x))) <$>
       mjoin (peers_of gps !! Z.to_nat (rx_source_group_index x)) else None) as Key.
  { unfold frame_key. by rewrite Es, bool_decide_true. }
  cbn [rx_source_group_index xset_window rx_traffic_class].
  unfold peers_of in Key. rewrite list_lookup_fmap in Key. fold (peers_of gps) in Key.
  destruct (_ || _)%bool eqn:Eg.
  { apply Drop; [|done..]. rewrite Key. case_match; [|done]. rewrite (lookup_ge_None_2 gps); [done|].
    apply orb_true_iff in Eg. destruct Eg as [Eg|Eg]; zb; [|lia]. rewrite Eg.
    assert (LINKG_RESOURCE_NETWORK_STA_MAX <= 2 ^ 32 - 1) by done. unfold LINKG_TRANSPORT_RX_SOURCE_GROUP_INVALID. lia. }
  apply orb_false_iff in Eg as [_ Eg]. zb.
  destruct (lookup_lt_is_Some_2 gps (Z.to_nat (rx_source_group_index x))) as [[[o epoch] quiescing] Egp]; [lia|].
  rewrite Egp in Key |- *. mrun. destruct o as [peer|].
  2: { apply Drop; [|done..]. rewrite Key. by case_match. }
  destruct (Z.leb_spec LINKG_TRANSPORT_CLASS_COUNT (rx_traffic_class x)) as [Hbig|Hsmall].
  { apply Drop; [|done..]. rewrite Key. by replace (_ <? _) with false by (symmetry; apply Z.ltb_ge; lia). }
  replace (_ <? _) with true in Key by (symmetry; apply Z.ltb_lt; lia). cbn in Key.
  destruct (lookup_lt_is_Some_2 _ _ (Hp _ _ _ _ Egp)) as [p Ep]. mstep (peer_read_run s _ _ Ep).
  destruct (lookup_lt_is_Some_2 (pr_classes p) (Z.to_nat (rx_traffic_class x))) as [c Ec].
  { rewrite (Hc _ _ Ep). lia. }
  cbn [rx_traffic_class xset_peer xset_window]. rewrite Ec. mrun.
  unfold class_accept. cbn [rx_header xset_peer xset_window].
  rewrite (prepare_baseline (peers_of gps) _ states (xset_peer (Some peer) epoch (xset_window WINDOW_INVALID x))
    (peer, Z.to_nat (rx_traffic_class x), is_user_data (rx_header x)) Key Hr Hg Hcl).
  change (frame_sequence (xset_peer _ _ _)) with (frame_sequence x). set (w0 := rx_window _ c).
  set (key := (peer, _, _)) in *. set (w := baseline _ _ _).
  destruct (accept_ex_Some w (frame_sequence x)) as (r&w'&lost&Ea).
  change (th_sequence (rx_header x)) with (frame_sequence x). rewrite Ea. cbn [default].
  mstep (core_class_update_run s peer (Z.to_nat (rx_traffic_class x)) (fun _ => set_rx (is_user_data (rx_header x)) w'
    (accept_stats r lost (rx_payload_length x) now (is_user_data (rx_header x))
       (initialized w && _linkg_transport_rx_sequence_before (frame_sequence x) (highest_sequence w)) (pc_stats c)) c) p c Ep Ec).
  eexists _, _, _. split; [reflexivity|]. split; [|by apply classes_ok_set_peers].
  pose proof (fun c' => window_of_set_peers s peer (Z.to_nat (rx_traffic_class x)) p c c') as W'.
  assert (W := fun c' key => W' c' key Ep Ec). clear W'.
  unfold judged. rewrite Key. splits; try done.
  - unfold core_set_peers, core_context. cbn. by rewrite length_insert.
  - cbn. by destruct r.
  - exists w0, w', lost. splits; try done.
    + unfold core_window, window_of. cbn. unfold core_context in Ep. rewrite Ep. cbn. by rewrite Ec.
    + rewrite (W _ key), decide_True by done. cbn. by destruct (is_user_data _).
    + intros [[i' k'] u] Hne. rewrite W. case_decide as D; [|done]. injection D as -> ->.
      unfold core_window, window_of. cbn. unfold core_context in Ep. rewrite Ep. cbn. rewrite Ec. cbn.
      destruct u, (is_user_data (rx_header x)) eqn:Eu; cbn; try done; exfalso; apply Hne; unfold key; by rewrite Eu.
    + cbn. by destruct r.
Qed.

(** ** A chunk *)

Lemma frame_key_decoded peers x key : frame_key peers x = Some key -> rx_stage x = DECODED.
Proof. unfold frame_key. destruct (_ && _)%bool eqn:E; [|done]. apply andb_true_iff in E as [E _]. by apply bool_decide_eq_true in E. Qed.

Lemma key_sequences_app peers key l1 l2 :
  key_sequences peers key (l1 ++ l2) = key_sequences peers key l1 ++ key_sequences peers key l2.
Proof. apply omap_app. Qed.

Lemma key_sequences_cons peers key x l :
  key_sequences peers key (x :: l) =
  if decide (frame_key peers x = Some key) then frame_sequence x :: key_sequences peers key l else key_sequences peers key l.
Proof. unfold key_sequences. cbn. by case_decide. Qed.

Lemma key_sequences_settled peers key l :
  Forall (fun x => rx_stage x <> DECODED) l -> key_sequences peers key l = [].
Proof.
  induction 1 as [|x l Hx _ IH]; [done|]. rewrite key_sequences_cons, decide_False; [done|].
  intros E%frame_key_decoded. done.
Qed.

Lemma key_verdicts_settled peers key l l' :
  Forall (fun x => rx_stage x <> DECODED) l -> key_verdicts peers key l l' = [].
Proof.
  intros H. revert l'. induction H as [|x l Hx _ IH]; intros [|y l']; try done. unfold key_verdicts. cbn.
  rewrite decide_False; [apply IH|]. by intros E%frame_key_decoded.
Qed.

(** What a chunk leaves of one frame. *)
Definition settled_frame (peers : list (option peer_ptr)) (x x' : linkg_transport_rx_state) : Prop :=
  rx_header x' = rx_header x /\ rx_stage x' <> DECODED /\ (rx_stage x <> DECODED -> x' = x) /\
  (rx_stage x = DECODED -> frame_key peers x = None -> rx_stage x' = DROPPED) /\
  (forall key, frame_key peers x = Some key ->
     rx_stage x' = (if decide (rx_window_result x' = WINDOW_ACCEPT) then ACCEPTED else DROPPED) /\ rx_peer x' = Some key.1.1).

Lemma judged_settled peers states (s s' : core) x x' : judged peers states s s' x x' -> settled_frame peers x x'.
Proof.
  intros (_&Hh&_&Hsame&Hnd&Hk). unfold settled_frame. splits; try done.
  - intros Hd E. rewrite E in Hk. destruct Hk as [_ Hk]. by rewrite decide_True in Hk.
  - intros key E. rewrite E in Hk. by destruct Hk as (w&w'&lost&_&_&_&_&Hs&Hp).
Qed.

Lemma peers_in_same gps (s s' : core) :
  length (cx_peers (core_context s')) = length (cx_peers (core_context s)) -> peers_in gps s -> peers_in gps s'.
Proof. intros E H g p e q Eg. rewrite E. by eapply H. Qed.

Lemma accept_loop_run gps now rest : forall settled stats (s : core),
  Forall (fun x => rx_stage x <> DECODED) settled -> Forall rx_ranges (settled ++ rest) ->
  classes_ok (core_context s) -> peers_in gps s -> Z.of_nat (length gps) <= LINKG_RESOURCE_NETWORK_STA_MAX ->
  exists rest' stats' s',
    accept_loop (seq (length settled) (length rest)) gps now (settled ++ rest) stats s =
      Some ((settled ++ rest', stats'), s') /\ classes_ok (core_context s') /\
    Forall2 (settled_frame (peers_of gps)) rest rest' /\
    (forall key w, core_window s key = Some w -> exists w', core_window s' key = Some w' /\
       judge w (key_sequences (peers_of gps) key rest) = (key_verdicts (peers_of gps) key rest rest', w')).
Proof.
  induction rest as [|x rest IH]; intros settled stats s Hset Hr Hc Hp Hn.
  { exists [], stats, s. splits; [done|done|constructor|]. intros key w E. by exists w. }
  cbn [length seq accept_loop].
  destruct (accept_one_judged gps now (settled ++ x :: rest) (length settled) stats s x) as (x'&st&s1&E&J&Hc1); try done.
  { by apply list_lookup_middle. }
  mstep E. rewrite insert_middle. cbn [fst snd]. pose proof (judged_settled _ _ _ _ _ _ J) as Sx.
  destruct J as (Hlen&Hh&Hx'&Hsame&Hnd&Jk).
  destruct (IH (settled ++ [x']) st s1) as (rest'&st'&s2&E2&C2&F2&W2); [..|].
  { apply Forall_app; split; [done|]. by constructor. }
  { rewrite <- app_assoc. apply Forall_app in Hr as [Hr1 Hr2]. inversion Hr2 as [|? ? Hx Hrest]; subst.
    apply Forall_app; split; [done|]. constructor; [by apply Hx'|done]. }
  { done. } { by eapply peers_in_same. } { done. }
  rewrite length_app, <- app_assoc, Nat.add_1_r in E2. cbn [app] in E2.
  exists (x' :: rest'), st', s2. splits; [by rewrite <- app_assoc in E2|done|by constructor|].
  intros key w Ew. rewrite key_sequences_cons. unfold key_verdicts. cbn [zip_with omap list_omap].
  fold (key_verdicts (peers_of gps) key rest rest').
  assert (frame_key (peers_of gps) x <> Some key -> core_window s1 key = Some w) as Other.
  { intros Hne. destruct (frame_key (peers_of gps) x) as [key'|]; [|by rewrite (proj1 Jk)].
    destruct Jk as (?&?&?&_&_&_&Ho&_). rewrite Ho; [done|]. congruence. }
  destruct (decide (frame_key (peers_of gps) x = Some key)) as [Ek|Ek]; [|by apply W2, Other]. rewrite Ek in Jk. destruct Jk as (w0&w'&lost&E0&Ea&E1&_).
  rewrite Ew in E0. injection E0 as <-. destruct (W2 key w' E1) as (w2&Ew2&Ej).
  exists w2. split; [done|]. rewrite key_sequences_app, key_sequences_settled, key_sequences_cons, decide_True in Ea by done.
  cbn [app] in Ea. rewrite (judge_cons _ _ _ _ _ _ Ea). by rewrite Ej.
Qed.

(** ** The batch *)

Lemma first_index_bound {A} (f : A -> bool) l : forall i j, first_index f l i = Some j -> (i <= j < i + length l)%nat.
Proof.
  induction l as [|x l IH]; intros i j; cbn; [done|]. destruct (f x); [intros [= <-]; lia|]. intros H%IH. lia.
Qed.

Lemma group_peers_in groups (s : core) : peers_in (group_peer (core_context s) <$> groups) s.
Proof.
  intros g p e q. rewrite list_lookup_fmap. destruct (groups !! g) as [gr|]; cbn; [|done]. intros [= E].
  unfold group_peer in E. destruct (negb _); [done|]. destruct (linkg_transport_find_peer_locked _ _) as [i|] eqn:Ei; [|done].
  destruct (linkg_transport_peer_epoch_read_active _ _) as [[] [?|]]; simplify_eq.
  unfold linkg_transport_find_peer_locked in Ei. destruct (negb _); [done|]. apply first_index_bound in Ei. lia.
Qed.

(** The peers the groups of a chunk are attributed to, under the lock. *)
Definition chunk_peers (s : core) (groups : list linkg_transport_rx_source_group) : list (option peer_ptr) :=
  peers_of (group_peer (core_context s) <$> groups).

(** The observable outcome of a chunk. *)
Definition accepted_chunk (s1 s' : core) (groups : list linkg_transport_rx_source_group)
    (states states' : list linkg_transport_rx_state) : Prop :=
  Forall2 (settled_frame (chunk_peers s1 groups)) states states' /\
  forall key w, core_window s1 key = Some w -> exists w', core_window s' key = Some w' /\
    judge w (key_sequences (chunk_peers s1 groups) key states) =
    (key_verdicts (chunk_peers s1 groups) key states states', w').

Lemma observe_run (s : core) : exists n s', transport observe s = Some (n, s') /\ core_context s' = core_context s /\
  xc_reassembly s' = xc_reassembly s /\ xc_pairs s' = xc_pairs s /\ xc_trace s' = xc_trace s.
Proof. destruct s as [t r q tr]. eexists _, _. split; [reflexivity|]. by splits. Qed.

Lemma unlock_run (s : core) : exists ret s', unlock env s = Some (ret, s') /\
  cx_peers (core_context s') = cx_peers (core_context s) /\ cx_initialized (core_context s') = cx_initialized (core_context s).
Proof.
  destruct s as [t r q tr]. unfold unlock, transport, zoom, transport_unlock, observe. cbn. mrun.
  unfold when. destruct (_ =? 0); eexists _, _; (split; [reflexivity|]); done.
Qed.

Lemma accept_batch_run states groups stats (s s1 : core) :
  lock env s = Some (0, s1) -> existsb (fun x => bool_decide (rx_stage x = DECODED)) states = true ->
  Z.of_nat (length groups) <= LINKG_RESOURCE_NETWORK_STA_MAX -> Forall rx_ranges states -> classes_ok (core_context s1) ->
  exists ret states' stats' s', _linkg_transport_rx_accept_batch env states groups stats s = Some ((ret, states', stats'), s') /\
    accepted_chunk s1 s' groups states states' /\ classes_ok (core_context s').
Proof.
  intros El Ed Hg Hr Hc. unfold _linkg_transport_rx_accept_batch.
  replace (_ <? _) with false by (symmetry; apply Z.ltb_ge; lia). rewrite Ed. cbn [negb]. mstep El. cbn [negb Z.eqb].
  unfold context at 1. mrun. fold (core_context s1). destruct (observe_run s1) as (n&s2&E2&C2&_). mstep E2.
  destruct (accept_loop_run (group_peer (core_context s1) <$> groups) (rv_elapsed_ms env n) states [] stats s2)
    as (states'&stats'&s3&E3&C3&F3&W3); [constructor|done|by rewrite C2| |by rewrite length_fmap|].
  { eapply peers_in_same; [|apply group_peers_in]. by rewrite C2. }
  cbn [length app] in E3. mstep E3. destruct (unlock_run s3) as (ret&s4&E4&P4&_). mstep E4.
  eexists _, _, _, _. split; [reflexivity|]. split; [split; [done|]|].
  - intros key w Ew. assert (core_window s2 key = Some w) as Ew2 by (unfold core_window in *; fold (core_context s2); by rewrite C2).
    destruct (W3 key w Ew2) as (w'&Ew'&Ej). exists w'. split; [|done]. unfold core_window, window_of in *.
    fold (core_context s4). by rewrite P4.
  - intros i p. rewrite P4. apply C3.
Qed.

Lemma accept_batch_idle states groups stats (s : core) :
  existsb (fun x => bool_decide (rx_stage x = DECODED)) states = false ->
  Z.of_nat (length groups) <= LINKG_RESOURCE_NETWORK_STA_MAX ->
  _linkg_transport_rx_accept_batch env states groups stats s = Some ((0, states, stats), s).
Proof.
  intros Ed Hg. unfold _linkg_transport_rx_accept_batch.
  replace (_ <? _) with false by (symmetry; apply Z.ltb_ge; lia). by rewrite Ed.
Qed.

Lemma lock_total (s : core) : exists code s1, lock env s = Some (code, s1).
Proof.
  destruct s as [t r q tr]. unfold lock, interfere. destruct (observe_run (RxCore t r q tr)) as (n&s&E&_). mstep E.
  set (s2 := rv_others env n s). destruct s2 as [t2 r2 q2 tr2]. unfold transport, zoom, transport_lock, TransportPeer.observe.
  cbn. mrun. unfold when. destruct (_ =? 0); eexists _, _; reflexivity.
Qed.

(** C9: accepting a chunk always returns. Without a decoded frame, with too many
    groups or when the lock fails, no frame and no window changes. Otherwise every
    decoded frame is accepted or dropped, and every receive window judges exactly
    the frames attributed to it, in arrival order, starting from its base line. *)
Theorem accept_batch_spec states groups stats (s : core) :
  Forall rx_ranges states -> (forall code s1, lock env s = Some (code, s1) -> classes_ok (core_context s1)) ->
  exists ret states' stats' s', _linkg_transport_rx_accept_batch env states groups stats s = Some ((ret, states', stats'), s') /\
    if LINKG_RESOURCE_NETWORK_STA_MAX <? Z.of_nat (length groups) then ret = - EINVAL /\ states' = states /\ s' = s
    else if existsb (fun x => bool_decide (rx_stage x = DECODED)) states then
      exists code s1, lock env s = Some (code, s1) /\
        if code =? 0 then accepted_chunk s1 s' groups states states' else ret = - code /\ states' = states /\ s' = s1
    else ret = 0 /\ states' = states /\ s' = s.
Proof.
  intros Hr Hc. destruct (Z.ltb_spec LINKG_RESOURCE_NETWORK_STA_MAX (Z.of_nat (length groups))) as [Hb|Hg].
  { unfold _linkg_transport_rx_accept_batch. replace (_ <? _) with true by (symmetry; by apply Z.ltb_lt). by eexists _, _, _, _. }
  destruct (existsb _ states) eqn:Ed; [|by rewrite accept_batch_idle; [eexists _, _, _, _|..]].
  destruct (lock_total s) as (code&s1&El). destruct (Z.eqb_spec code 0) as [->|Hne].
  - destruct (accept_batch_run states groups stats s s1 El Ed Hg Hr (Hc _ _ El)) as (ret&st&t&s'&E&A&_).
    exists ret, st, t, s'. split; [done|]. by exists 0, s1.
  - unfold _linkg_transport_rx_accept_batch. replace (_ <? _) with false by (symmetry; apply Z.ltb_ge; lia).
    rewrite Ed. cbn [negb]. mstep El. replace (code =? 0) with false by (symmetry; by apply Z.eqb_neq). cbn [negb].
    eexists _, _, _, _. split; [reflexivity|]. exists code, s1. split; [done|].
    by replace (code =? 0) with false by (symmetry; by apply Z.eqb_neq).
Qed.

(** ** Across chunks *)

(** What happens to one window: chunks are accepted, and other steps leave the
    window alone (they do not reset its peer). Each chunk lists the unbounded
    sequence numbers behind those on the wire; the second list has the accepted ones. *)
Inductive accepting (key : window_key) : core -> list (list Z) -> list Z -> core -> Prop :=
  | accepting_nil s : accepting key s [] [] s
  | accepting_other s s' s'' chunks acc :
      core_window s' key = core_window s key -> accepting key s' chunks acc s'' -> accepting key s chunks acc s''
  | accepting_chunk s s1 s' s'' states groups stats ret states' stats' ns chunks acc :
      lock env s = Some (0, s1) -> core_window s1 key = core_window s key -> classes_ok (core_context s1) ->
      Forall rx_ranges states -> Z.of_nat (length groups) <= LINKG_RESOURCE_NETWORK_STA_MAX ->
      _linkg_transport_rx_accept_batch env states groups stats s = Some ((ret, states', stats'), s') ->
      key_sequences (chunk_peers s1 groups) key states = u32 <$> ns ->
      accepting key s' chunks acc s'' ->
      accepting key s (ns :: chunks)
        (accepted_of ns (key_verdicts (chunk_peers s1 groups) key states states') ++ acc) s''.

(** A chunk, seen from one window. *)
Lemma chunk_judged key w states groups stats (s s1 s' : core) ret states' stats' :
  lock env s = Some (0, s1) -> core_window s1 key = core_window s key -> classes_ok (core_context s1) ->
  Forall rx_ranges states -> Z.of_nat (length groups) <= LINKG_RESOURCE_NETWORK_STA_MAX ->
  _linkg_transport_rx_accept_batch env states groups stats s = Some ((ret, states', stats'), s') ->
  core_window s key = Some w ->
  exists w', core_window s' key = Some w' /\
    judge w (key_sequences (chunk_peers s1 groups) key states) = (key_verdicts (chunk_peers s1 groups) key states states', w').
Proof.
  intros El Ew1 Hc Hr Hg E Ew. destruct (existsb (fun x => bool_decide (rx_stage x = DECODED)) states) eqn:Ed.
  - destruct (accept_batch_run states groups stats s s1 El Ed Hg Hr Hc) as (?&?&?&?&E'&[_ A]&_).
    rewrite E in E'. injection E' as <- <- <- <-. rewrite Ew in Ew1. specialize (A key w Ew1).
    done.
  - rewrite accept_batch_idle in E by done. injection E as <- <- <- <-.
    assert (Forall (fun x => rx_stage x <> DECODED) states) as Hs.
    { apply Forall_forall. intros x Hx D. apply not_true_iff_false in Ed. apply Ed, existsb_exists.
      exists x. split; [by apply list_elem_of_In|]. by apply bool_decide_eq_true. }
    exists w. split; [done|]. rewrite key_sequences_settled, key_verdicts_settled by done. done.
Qed.

(** The chunks of a window that represents [a]. *)
Lemma accepting_run key s chunks acc s' : accepting key s chunks acc s' ->
  forall a w, core_window s key = Some w -> window_repr a w -> in_half_range (aw_high a) (concat chunks) ->
  NoDup acc /\ (forall k, k ∈ acc -> k ∉ aw_recv a).
Proof.
  induction 1 as [s|s s' s'' chunks acc Hw _ IH|s s1 s' s'' states groups stats ret states' stats' ns chunks acc El Ew1 Hc Hr Hg E Ek _ IH];
    intros a w Ew R Hin.
  { split; [constructor|set_solver]. }
  { apply (IH a w); [by rewrite Hw|done..]. }
  destruct (chunk_judged key w states groups stats s s1 s' _ _ _ El Ew1 Hc Hr Hg E Ew) as (w1&Ew1'&Ej).
  cbn [concat] in Hin. apply in_half_range_app in Hin as [Hin1 Hin2]. rewrite Ek in Ej.
  destruct (judge_run ns a w R Hin1) as (rs&w'&a'&Ej'&R'&Hh&Nd&Nr&Hrecv). rewrite Ej in Ej'. injection Ej' as Ers Ew'.
  rewrite Ers. subst w1. rewrite <- Hh in Hin2. destruct (IH a' w' Ew1' R' Hin2) as [Nd2 Nr2]. split.
  - apply NoDup_app. splits; [done| |done]. intros k Hk Hk2. apply (Nr2 k Hk2), Hrecv. by right.
  - intros k [Hk|Hk]%elem_of_app; [by apply Nr|]. intros Hin. apply (Nr2 k Hk), Hrecv. by left.
Qed.

(** C3: across any number of chunks, starting from a window that has seen
    nothing, no sequence number of a peer, class and domain is accepted twice,
    whatever arrives in between for other windows, provided each number is within
    half the 32-bit space of the highest before it. *)
Theorem rx_accepts_once key (s s' : core) w chunks acc :
  accepting key s chunks acc s' -> core_window s key = Some w -> initialized w = false ->
  match concat chunks with [] => True | n :: ns => in_half_range n ns end -> NoDup acc.
Proof.
  induction 1 as [s|s s' s'' chunks acc Hw _ IH|s s1 s' s'' states groups stats ret states' stats' ns chunks acc El Ew1 Hc Hr Hg E Ek Hrun IH];
    intros Ew Hi Hin.
  { constructor. }
  { apply IH; [by rewrite Hw|done..]. }
  destruct (chunk_judged key w states groups stats s s1 s' _ _ _ El Ew1 Hc Hr Hg E Ew) as (w1&Ew1'&Ej). rewrite Ek in Ej.
  destruct ns as [|n ns].
  { injection Ej as <- <-. cbn. by apply IH. }
  cbn [concat app] in Hin. apply in_half_range_app in Hin as [Hin1 Hin2].
  destruct (judge_fresh w n ns Hi Hin1) as (rs&w'&a&Ej'&_&R'&Hh&Nd&Hrecv). rewrite Ej in Ej'. injection Ej' as Ers ->.
  rewrite Ers. rewrite <- Hh in Hin2. destruct (accepting_run _ _ _ _ _ Hrun a w' Ew1' R' Hin2) as [Nd2 Nr2].
  apply NoDup_app. splits; [done| |done]. intros k Hk Hk2. by apply (Nr2 k Hk2), Hrecv.
Qed.

Lemma near_half_range n ns : forall h, n <= h < n + 448 -> Forall (near n) ns -> in_half_range h ns.
Proof.
  induction ns as [|m ns IH]; intros h Hh Hn; [done|]. inversion Hn as [|? ? [? ?] ?]; subst. cbn. split; [lia|]. apply IH; [lia|done].
Qed.

(** The first chunk of a window may start out of order: when the frames for it
    lie less than a reorder window before the first and within the receive window
    after it, each sequence number is accepted at its first occurrence and only
    repetitions are dropped. *)
Theorem rx_first_chunk_complete key w n ns states groups stats (s s1 s' : core) ret states' stats' :
  lock env s = Some (0, s1) -> core_window s1 key = core_window s key -> classes_ok (core_context s1) ->
  Forall rx_ranges states -> Z.of_nat (length groups) <= LINKG_RESOURCE_NETWORK_STA_MAX ->
  _linkg_transport_rx_accept_batch env states groups stats s = Some ((ret, states', stats'), s') ->
  core_window s key = Some w -> initialized w = false ->
  key_sequences (chunk_peers s1 groups) key states = u32 <$> n :: ns -> Forall (near n) ns ->
  key_verdicts (chunk_peers s1 groups) key states states' = first_seen ∅ (n :: ns).
Proof.
  intros El Ew1 Hc Hr Hg E Ew Hi Ek Hn.
  destruct (chunk_judged key w states groups stats s s1 s' _ _ _ El Ew1 Hc Hr Hg E Ew) as (w1&_&Ej). rewrite Ek in Ej.
  destruct (judge_fresh w n ns Hi) as (rs&w'&a&Ej'&Hrs&_); [by apply (near_half_range n); [lia|]|].
  rewrite Ej' in Ej. injection Ej as <- <-. cbn [first_seen]. rewrite decide_False by set_solver.
  by rewrite Hrs, (right_id_L ∅ (∪)) by done.
Qed.

End Accept.

(** ** A concrete chunk: peer 5 is registered; frames 12, 10, 12 and 11 arrive *)

Definition demo_rx_env : rx_env unit :=
  RxEnv TransportPeerLife.demo_transport_env mutex_default 1 (fun _ => 3) (fun _ => 3000) (fun _ _ => [0]) (fun _ s => s)
    (fun _ _ items => (0, items)) (fun _ _ _ => mret 0) (fun _ _ _ _ => mret 0).

Definition demo_core : rx_core unit :=
  RxCore (final TransportPeerLife.demo_transport
            (linkg_transport_register_peer TransportPeerLife.demo_transport_env 5 TransportPeerLife.demo_transport))
    (TransportReassembly.ReassemblyRuntime demo_pool2 (replicate TransportReassembly.entry_count TransportReassembly.entry_zero) 0 true 0)
    (TransportForward.PairRuntime tt (replicate TransportForward.pair_count TransportForward.pair_zero) 0 true 0 0 0) [].

Definition demo_group : linkg_transport_rx_source_group := SourceGroup endpoint_zero 0 0 5 true.

Definition demo_decoded (sequence : Z) : linkg_transport_rx_state :=
  RxState (Header 0 0 LINKG_TRANSPORT_TYPE_USER_DATA 0 sequence 1 2 0) (FragmentHeader 0 0 0) None None 0 1 0 100
    LINKG_TRANSPORT_CLASS_DATA WINDOW_INVALID DECODED 5 false.

Definition demo_states : list linkg_transport_rx_state := demo_decoded <$> [12; 10; 12; 11].

Definition demo_key : window_key := (0%nat, Z.to_nat LINKG_TRANSPORT_CLASS_DATA, true).

Definition demo_locked : rx_core unit := final demo_core (lock demo_rx_env demo_core).

Definition demo_accepted : option (Z * list linkg_transport_rx_state * linkg_transport_rx_batch_stats * rx_core unit) :=
  Eval vm_compute in _linkg_transport_rx_accept_batch demo_rx_env demo_states [demo_group] batch_stats_zero demo_core.

Lemma classes_ok_check x :
  forallb (fun p => length (pr_classes p) =? Z.to_nat LINKG_TRANSPORT_CLASS_COUNT)%nat (cx_peers x) = true -> classes_ok x.
Proof.
  intros A i p H%list_elem_of_lookup_2. apply Nat.eqb_eq. apply (proj1 (forallb_forall _ _) A p). by apply list_elem_of_In.
Qed.

Lemma demo_locked_classes : classes_ok (core_context demo_locked).
Proof. apply classes_ok_check. by vm_compute. Qed.

Lemma demo_ranges : Forall rx_ranges demo_states.
Proof. unfold demo_states. repeat constructor; cbn; try done; mlia. Qed.

Lemma accept_batch_spec_witness : exists ret states' stats' s',
  _linkg_transport_rx_accept_batch demo_rx_env demo_states [demo_group] batch_stats_zero demo_core = Some ((ret, states', stats'), s') /\
  rx_stage <$> states' = [ACCEPTED; ACCEPTED; DROPPED; ACCEPTED].
Proof.
  destruct (accept_batch_spec demo_rx_env demo_states [demo_group] batch_stats_zero demo_core demo_ranges) as (ret&st&t&s'&E&_).
  - intros code s1 El. replace s1 with demo_locked; [apply demo_locked_classes|]. unfold demo_locked. by rewrite El.
  - exists ret, st, t, s'. split; [done|].
    assert (demo_accepted = Some (ret, st, t, s')) as A by (rewrite <- E; by vm_compute).
    vm_compute in A. by injection A as <- <- <- <-.
Defined.

(** The chunk arrives a second time: only duplicates. *)
Definition demo_after : rx_core unit :=
  final demo_core (_linkg_transport_rx_accept_batch demo_rx_env demo_states [demo_group] batch_stats_zero demo_core).
Definition demo_locked2 : rx_core unit := final demo_core (lock demo_rx_env demo_after).

Definition demo_end : rx_core unit :=
  final demo_core (_linkg_transport_rx_accept_batch demo_rx_env demo_states [demo_group] batch_stats_zero demo_after).

(** The states a run ended with. *)
Definition states_of {A B} (r : option (Z * list linkg_transport_rx_state * A * B)) : list linkg_transport_rx_state :=
  match r with Some (_, states, _, _) => states | None => [] end.
Definition demo_out (s : rx_core unit) : list linkg_transport_rx_state :=
  states_of (_linkg_transport_rx_accept_batch demo_rx_env demo_states [demo_group] batch_stats_zero s).

Lemma demo_chunk s locked s' s'' acc chunks acc' ret stats' :
  lock demo_rx_env s = Some (0, locked) -> core_window locked demo_key = core_window s demo_key -> classes_ok (core_context locked) ->
  _linkg_transport_rx_accept_batch demo_rx_env demo_states [demo_group] batch_stats_zero s = Some ((ret, demo_out s, stats'), s') ->
  key_sequences (chunk_peers locked [demo_group]) demo_key demo_states = u32 <$> [12; 10; 12; 11] ->
  accepting demo_rx_env demo_key s' chunks acc s'' ->
  acc' = accepted_of [12; 10; 12; 11] (key_verdicts (chunk_peers locked [demo_group]) demo_key demo_states (demo_out s)) ++ acc ->
  accepting demo_rx_env demo_key s ([12; 10; 12; 11] :: chunks) acc' s''.
Proof. intros El Ew Hc E Ek Hr ->. eapply accepting_chunk; [exact El|exact Ew|exact Hc|apply demo_ranges|done|exact E|exact Ek|exact Hr]. Qed.

Lemma demo_accepting : accepting demo_rx_env demo_key demo_core [[12; 10; 12; 11]; [12; 10; 12; 11]] [12; 10; 11] demo_end.
Proof.
  eapply (demo_chunk demo_core demo_locked demo_after); [by vm_compute|by vm_compute|apply demo_locked_classes|by vm_compute|by vm_compute| |by vm_compute].
  eapply (demo_chunk demo_after demo_locked2 demo_end _ []); [by vm_compute|by vm_compute| |by vm_compute|by vm_compute|constructor|by vm_compute].
  apply classes_ok_check. by vm_compute.
Qed.

Lemma rx_accepts_once_witness : NoDup [12; 10; 11].
Proof.
  apply (rx_accepts_once demo_rx_env demo_key demo_core demo_end window_zero _ _ demo_accepting); [by vm_compute|done|].
  cbn. lia.
Defined.

Lemma rx_first_chunk_complete_witness : exists ret states' stats' s',
  _linkg_transport_rx_accept_batch demo_rx_env demo_states [demo_group] batch_stats_zero demo_core = Some ((ret, states', stats'), s') /\
  key_verdicts (chunk_peers demo_locked [demo_group]) demo_key demo_states states' =
    [WINDOW_ACCEPT; WINDOW_ACCEPT; WINDOW_DUPLICATE; WINDOW_ACCEPT].
Proof.
  destruct demo_accepted as [[[[ret st] t] s']|] eqn:E; [|by vm_compute in E].
  exists ret, st, t, s'. assert (_linkg_transport_rx_accept_batch demo_rx_env demo_states [demo_group] batch_stats_zero demo_core = Some ((ret, st, t), s')) as E'
    by (rewrite <- E; by vm_compute).
  split; [done|].
  rewrite (rx_first_chunk_complete demo_rx_env demo_key window_zero 12 [10; 12; 11] demo_states [demo_group] batch_stats_zero demo_core demo_locked s' ret st t);
    [by vm_compute|by vm_compute|by vm_compute|apply demo_locked_classes|apply demo_ranges|done|done|by vm_compute|done|by vm_compute|].
  repeat constructor; unfold near; lia.
Defined.
