(* ===== verification/TransportRxSafety.v ===== *)
(** * The receive pipeline: ownership of packets under interference

    The packets seen by the pipeline are the pool less what the two caches hold
    ([core_store]); they satisfy the laws of a packet store. [runs] is the triple
    of a step of the pipeline: it starts with the references the call holds,
    never gets stuck, keeps the invariant whatever the other threads do, and says
    which references the call holds afterwards. Its main results are that the
    emission callback fulfils the contract the reorder windows rely on, and that
    dispatching releases or hands over exactly what it owns. *)

From S2P Require Import Prelude.
From S2P Require Import PacketStore.
From S2P Require Import PacketPool.
From S2P Require Import PacketData.
From S2P Require TransportReassembly.
From S2P Require TransportForward.
From S2P Require Import TransportCacheSafety.
From S2P Require Import TransportReorderRuntime.
From S2P Require Import TransportReorderSafety.
From S2P Require Import LinkPath.
From S2P Require Import Link.
From S2P Require Import TransportTypes.
From S2P Require Import TransportWindow.
From S2P Require Import TransportWire.
From S2P Require Import TransportPeer.
From S2P Require Import TransportReorder.
From S2P Require Import TransportRx.
From S2P Require Import TransportRxAccept.

(** ** The packets the caches do not hold, as a store *)

Section Store.
Context {C : Type} (env : rx_env C).
Local Abbreviation core := (rx_core C).

Lemma reassembly_held_bound (s : TransportReassembly.linkg_transport_reassembly_runtime) j :
  length (TransportReassembly.rr_entries s) = TransportReassembly.entry_count -> 0 <= TransportReassembly.held s j <= 256.
Proof.
  intros L. split; [apply TransportReassembly.held_nonneg|]. unfold TransportReassembly.held.
  change 256 with (2 * Z.of_nat TransportReassembly.entry_count). rewrite <- L. clear L.
  induction (TransportReassembly.rr_entries s) as [|x l IH]; cbn [sumZ length]; [lia|]. pose proof (held_entry_two x j). lia.
Qed.

Lemma pairs_held_bound {S} (s : TransportForward.linkg_transport_forward_pair_runtime S) j :
  length (TransportForward.fr_entries s) = TransportForward.pair_count -> 0 <= TransportForward.pair_held s j <= 64.
Proof.
  intros L. unfold TransportForward.pair_held. change 64 with (Z.of_nat TransportForward.pair_count). rewrite <- L. clear L.
  induction (TransportForward.fr_entries s) as [|x l IH]; cbn [sumZ length]; [lia|].
  pose proof (held_opt_range (TransportForward.fe_packet x) j). lia.
Qed.

Lemma core_held_bound (s : core) j : core_wf env s -> 0 <= core_held s j <= 320.
Proof.
  intros W. unfold core_held. pose proof (reassembly_held_bound (xc_reassembly s) j (cw_entries _ _ W)).
  pose proof (pairs_held_bound (core_pairs s) j (cw_pairs _ _ W)). lia.
Qed.

(** The core with another pool that covers what the caches hold. *)
Lemma core_wf_pool (s : core) p :
  core_wf env s -> pool_wf p -> (forall j, core_held s j <= refs p j) -> core_wf env (core_set_pool p s).
Proof. intros [A B F D G H I J K L] Hp Hr. split; try done. Qed.

Lemma core_pool_set (s : core) p : core_pool (core_set_pool p s) = p.
Proof. done. Qed.

Lemma core_held_set (s : core) p j : core_held (core_set_pool p s) j = core_held s j.
Proof. done. Qed.

Lemma core_pool_run {A} (m : PM A) (s : core) a p : m (core_pool s) = Some (a, p) -> pool m s = Some (a, core_set_pool p s).
Proof. intros E. unfold pool, zoom. by rewrite E. Qed.

#[export] Instance core_store_laws : mutex_ok (rv_mutex env) -> @PacketStoreLaws core (core_store env).
Proof.
  intros Hmx. split.
  - intros s i W. cbn. pose proof (cw_refs _ _ W i). lia.
  - intros [t r q tr]. cbn. by destruct r.
  - intros [t r q tr]. cbn. by destruct r.
  - intros s i W Hr. cbn in *. pose proof (core_held_bound s i W). unfold ps_room in *.
    destruct (retain_spec (core_pool s) i (cw_pool _ _ W) ltac:(lia)) as (p'&k&E&Wp&Sm&Er&K&K').
    exists (core_set_pool p' s). rewrite (core_pool_run _ _ _ _ E). split; [done|].
    assert (forall j, refs p' j = refs (core_pool s) j + one_ref i j) as R.
    { intros j. rewrite (refs_one _ _ _ 1 j Sm Er). lia. }
    splits.
    + apply core_wf_pool; [done|done|]. intros j. rewrite R. pose proof (cw_refs _ _ W j). pose proof (one_ref_range i j). lia.
    + intros j. change (refs p' j - core_held s j = refs (core_pool s) j - core_held s j + one_ref i j). rewrite R. lia.
    + intros j. change (pool_flags p' j = pool_flags (core_pool s) j). destruct (decide (j = i)) as [->|]; [|by eapply same_except_flags].
      unfold pool_flags. by rewrite K, K'.
  - intros s i W Hr. cbn in *. pose proof (core_held_bound s i W).
    destruct (release_spec (rv_mutex env) (core_pool s) i Hmx (cw_pool _ _ W) ltac:(lia)) as (p'&k&E&Wp&Sm&Er&K&_&K').
    exists (core_set_pool p' s). unfold release_packet. rewrite (core_pool_run _ _ _ _ E). split; [done|].
    assert (forall j, refs p' j = refs (core_pool s) j - one_ref i j) as R.
    { intros j. rewrite (refs_one _ _ _ (-1) j Sm ltac:(lia)). lia. }
    splits.
    + apply core_wf_pool; [done|done|]. intros j. rewrite R. pose proof (cw_refs _ _ W j).
      destruct (decide (i = j)) as [->|Hj]; [rewrite one_ref_same; lia|rewrite one_ref_other by done; lia].
    + intros j. change (refs p' j - core_held s j = refs (core_pool s) j - core_held s j - one_ref i j). rewrite R. lia.
    + intros j Hj. by eapply same_except_flags.
    + intros H1. change (pool_flags p' i = pool_flags (core_pool s) i). unfold pool_flags. rewrite K, K'; [done|lia].
  - intros s i f W Hr. cbn in *. pose proof (core_held_bound s i W).
    destruct (ps_update_flags_ok (PacketStoreLaws := pool_store_laws (rv_mutex env) Hmx) (core_pool s) i f (cw_pool _ _ W) ltac:(cbn; lia))
      as (p'&E&Wp&R&F). cbn in *.
    exists (core_set_pool p' s). rewrite (core_pool_run _ _ _ _ E). split; [done|]. splits.
    + apply core_wf_pool; [done|done|]. intros j. rewrite R. apply (cw_refs _ _ W).
    + intros j. change (refs p' j - core_held s j = refs (core_pool s) j - core_held s j). by rewrite R.
    + intros j. apply F.
Qed.
End Store.

(** ** Triples *)

(** References a running call may hold: those of the windows and the callers
    ([emit_room]), and what the pipeline takes on its way. *)
Definition keep_max : Z := 2 ^ 30 + 2 ^ 16.

Abbreviation refs_t := (nat -> Z).

Section Runs.
Context {C : Type} (env : rx_env C) (step : refs_t -> refs_t -> Prop).
Local Abbreviation core := (rx_core C).
Local Abbreviation CM := (M core).

Definition context_ok (x : linkg_transport_context) : Prop :=
  cx_local_node_id x = rv_local_node_id env /\ length (cx_handlers x) = Z.to_nat LINKG_TRANSPORT_TYPE_COUNT /\
  (forall p, p ∈ cx_peers x -> length (pr_classes p) = Z.to_nat LINKG_TRANSPORT_CLASS_COUNT).

(** The invariant, with the references the running call holds and those of others. *)
Definition core_ok (keep theirs : refs_t) (s : core) : Prop :=
  core_wf env s /\ balanced (PS := core_store env) s keep theirs /\ forall j, 0 <= keep j <= keep_max.

Definition runs {A} (keep : refs_t) (m : CM A) (Q : A -> refs_t -> Prop) : Prop :=
  forall theirs s, core_ok keep theirs s ->
    wp m (fun a s' => exists keep' theirs', Q a keep' /\ step theirs theirs' /\ core_ok keep' theirs' s') s.

(** The call holds the same references, and the result satisfies [P]. *)
Definition same {A} (keep : refs_t) (P : A -> Prop) : A -> refs_t -> Prop := fun a k => (forall j, k j = keep j) /\ P a.

(** What the other threads, the node and the handlers do: they keep the invariant
    and the references of the call; a handler is given packets it may read. *)
Record rx_rely : Prop := {
  rl_others : forall n keep theirs s, core_ok keep theirs s ->
    exists theirs', step theirs theirs' /\ core_ok keep theirs' (rv_others env n s);
  rl_transport : forall n t, context_ok (tr_context t) -> context_ok (tr_context (te_others (rv_transport env) n t));
  rl_account : forall n link_id items, length (snd (rv_account env n link_id items)) = length items;
  rl_handler : forall f user items keep, (forall d i, d ∈ items -> dl_packet d = Some i -> 0 < keep i) ->
    runs keep (rv_handler env f user items) (same keep (fun _ => True));
  rl_forward : forall f user class items keep, (forall d i, d ∈ items -> fi_packet d = Some i -> 0 < keep i) ->
    runs keep (rv_forward env f user class items) (same keep (fun _ => True)) }.

Context {Hstep : PreOrder step}.

Lemma core_ok_ext keep keep' theirs s : (forall j, keep j = keep' j) -> core_ok keep theirs s -> core_ok keep' theirs s.
Proof. intros E (W&B&K). split; [done|]. split; [intros j; rewrite <- E; apply B|intros j; rewrite <- E; apply K]. Qed.

Lemma core_ok_context keep theirs s : core_ok keep theirs s -> context_ok (core_context s).
Proof. intros (W&_). by destruct W. Qed.

(** Changes of the transport's own state. *)
Lemma core_ok_transport keep theirs s t :
  core_ok keep theirs s -> context_ok (tr_context t) -> core_ok keep theirs (core_transport t s).
Proof. intros ([]&B&K) (?&?&?). split; [|done]. split; done. Qed.

Lemma runs_ret {A} keep (a : A) (Q : A -> refs_t -> Prop) : Q a keep -> runs keep (mret a) Q.
Proof. intros H theirs s Hs. apply wp_ret. by exists keep, theirs. Qed.

Lemma runs_mono {A} keep (m : CM A) (P Q : A -> refs_t -> Prop) :
  runs keep m P -> (forall a k, P a k -> Q a k) -> runs keep m Q.
Proof. intros H HPQ theirs s Hs. eapply wp_mono; [by apply H|]. intros a s' (k&t&?&?&?). exists k, t. auto. Qed.

Lemma runs_ext {A} keep keep' (m : CM A) (Q : A -> refs_t -> Prop) :
  (forall j, keep j = keep' j) -> runs keep' m Q -> runs keep m Q.
Proof. intros E H theirs s Hs. apply H. by eapply core_ok_ext. Qed.

Lemma runs_bind {A B} keep (m : CM A) (f : A -> CM B) (P : A -> refs_t -> Prop) (Q : B -> refs_t -> Prop) :
  runs keep m P -> (forall a k, P a k -> runs k (f a) Q) -> runs keep (mbind f m) Q.
Proof.
  intros Hm Hf theirs s Hs. apply wp_bind. eapply wp_mono; [by apply Hm|]. intros a s1 (k&t&Ha&Ht&H1).
  eapply wp_mono; [by apply (Hf a k Ha t)|]. intros b s2 (k2&t2&?&?&?). exists k2, t2. split; [done|]. split; [by etrans|done].
Qed.

(** A step that keeps the references, followed by the rest from there. *)
Lemma runs_then {A B} keep (m : CM A) (f : A -> CM B) (P : A -> Prop) (Q : B -> refs_t -> Prop) :
  runs keep m (same keep P) -> (forall a, P a -> runs keep (f a) Q) -> runs keep (mbind f m) Q.
Proof. intros Hm Hf. eapply runs_bind; [exact Hm|]. intros a k [E Ha]. eapply runs_ext; [exact E|by apply Hf]. Qed.

Lemma runs_when keep (b : bool) (m : CM unit) (Q : unit -> refs_t -> Prop) :
  (b = true -> runs keep m Q) -> (b = false -> Q tt keep) -> runs keep (when b m) Q.
Proof. intros H1 H2. destruct b; [by apply H1|]. apply runs_ret. by apply H2. Qed.

Lemma runs_of_option {A} keep (o : option A) a (Q : A -> refs_t -> Prop) : o = Some a -> Q a keep -> runs keep (of_option o) Q.
Proof. intros -> H. by apply runs_ret. Qed.

Lemma same_intro {A} keep (P : A -> Prop) a : P a -> same keep P a keep.
Proof. by split. Qed.

(** A deterministic step that leaves the state alone. *)
Lemma runs_read {A} keep (m : CM A) (P : A -> Prop) :
  (forall theirs s, core_ok keep theirs s -> exists a, m s = Some (a, s) /\ P a) -> runs keep m (same keep P).
Proof.
  intros H theirs s Hs. destruct (H theirs s Hs) as (a&E&Ha). apply (wp_run _ _ _ _ _ E). exists keep, theirs. by split.
Qed.

Lemma runs_context keep : runs keep context (same keep context_ok).
Proof. apply runs_read. intros theirs s Hs. eexists. split; [done|]. by eapply core_ok_context. Qed.

Context (Hmx : mutex_ok (rv_mutex env)) (Hrely : rx_rely).

Lemma runs_observe keep : runs keep (transport observe) (same keep (fun _ : nat => True)).
Proof.
  intros theirs s Hs. pose proof (core_ok_context _ _ _ Hs) as Hc. destruct s as [t r q tr]. eapply wp_run; [reflexivity|].
  exists keep, theirs. split; [done|]. split; [done|]. by apply (core_ok_transport keep theirs (RxCore t r q tr)).
Qed.

Lemma runs_interfere keep : runs keep (interfere env) (same keep (fun _ => True)).
Proof.
  unfold interfere. eapply runs_then; [apply runs_observe|]. intros n _ theirs s Hs.
  destruct (rl_others Hrely n keep theirs s Hs) as (t'&Ht&Hs'). apply wp_bind, wp_modify, wp_ret. by exists keep, t'.
Qed.

Lemma runs_lock keep : runs keep (lock env) (same keep (fun _ => True)).
Proof.
  unfold lock. eapply runs_then; [apply runs_interfere|]. intros _ _ theirs s Hs.
  pose proof (core_ok_context _ _ _ Hs) as Hc. destruct s as [t r q tr]. unfold core_context in Hc. cbn in Hc.
  assert (exists code t', transport_lock (rv_transport env) t = Some (code, t') /\ context_ok (tr_context t')) as (code&t'&E&Hc').
  { unfold transport_lock, observe. mrun. unfold when. destruct (_ =? 0); eexists _, _; (split; [reflexivity|]); [|done].
    cbn. set (t1 := tset_ghost _ _ t). by apply (rl_transport Hrely (tr_tick t) t1). }
  eapply wp_run; [unfold transport, zoom; cbn [xc_transport]; by rewrite E|].
  exists keep, theirs. split; [done|]. split; [done|]. by apply (core_ok_transport keep theirs (RxCore t r q tr)).
Qed.

Lemma runs_unlock keep : runs keep (unlock env) (same keep (fun _ => True)).
Proof.
  unfold unlock. intros theirs s Hs. pose proof (core_ok_context _ _ _ Hs) as Hc. destruct s as [t r q tr]. unfold core_context in Hc. cbn in Hc.
  assert (exists code t', transport_unlock (rv_transport env) t = Some (code, t') /\ context_ok (tr_context t')) as (code&t'&E&Hc').
  { unfold transport_unlock, observe. mrun. unfold when. destruct (_ =? 0); eexists _, _; (split; [reflexivity|]); done. }
  eapply wp_run; [unfold transport, zoom; cbn [xc_transport]; by rewrite E|].
  exists keep, theirs. split; [done|]. split; [done|]. by apply (core_ok_transport keep theirs (RxCore t r q tr)).
Qed.

Lemma runs_epoch_matches keep peer epoch : runs keep (peer_epoch_matches env peer epoch) (same keep (fun _ => True)).
Proof.
  unfold peer_epoch_matches. eapply runs_then; [apply runs_interfere|]. intros _ _.
  eapply runs_then; [apply runs_context|]. intros x _. by apply runs_ret.
Qed.

(** Releasing a reference the call holds. *)
Lemma runs_release keep keep' o :
  (forall j, keep j = keep' j + held_opt o j) -> (forall j, 0 <= keep' j) ->
  runs keep (release_packet env o) (same keep' (fun _ => True)).
Proof.
  intros Hk Hk' theirs s (W&B&K). pose proof (core_store_laws env Hmx) as L.
  destruct (release_opt (H := core_store env) s o W) as (s'&E&W'&R).
  { intros j. destruct (B j) as [-> ?]. specialize (Hk j). specialize (Hk' j). lia. }
  eapply wp_run; [exact E|]. exists keep', theirs. split; [done|]. split; [done|]. split; [done|]. split.
  - intros j. destruct (B j) as [Br ?]. split; [|done]. rewrite R, Br, Hk. lia.
  - intros j. specialize (K j). specialize (Hk j). specialize (Hk' j). pose proof (held_opt_range o j). lia.
Qed.
(** ** Reading and shortening a packet *)

Lemma core_live keep theirs (s : core) i : core_ok keep theirs s -> 0 < keep i -> exists k, live (core_pool s) i k.
Proof.
  intros (W&B&_) Hi. destruct (B i) as [Br ?]. cbn in Br. pose proof (core_held_bound env s i W).
  destruct (refs_packet (core_pool s) i) as (k&Hk&_); [lia|]. exists k. split; [apply W|]. split; [lia|done].
Qed.

Lemma pool_set_same (s : core) : core_set_pool (core_pool s) s = s.
Proof. by destruct s as [t [] q tr]. Qed.

Lemma runs_pool_read {A} keep i (m : PM A) (P : A -> Prop) :
  0 < keep i -> (forall p k, live p i k -> exists a, m p = Some (a, p) /\ P a) -> runs keep (pool m) (same keep P).
Proof.
  intros Hi Hm. apply runs_read. intros theirs s Hs. destruct (core_live _ _ _ _ Hs Hi) as [k L].
  destruct (Hm _ _ L) as (a&E&Ha). exists a. split; [|done]. rewrite (core_pool_run _ _ _ _ E). by rewrite pool_set_same.
Qed.

Lemma runs_packet_at keep i : 0 < keep i -> runs keep (pool (packet_at i)) (same keep (fun _ => True)).
Proof. intros Hi. apply (runs_pool_read keep i); [done|]. intros p k L. exists k. split; [|done]. by apply packet_at_eq, L. Qed.

(** A header the decoder accepts. *)
Definition type_good (h : linkg_transport_header) : Prop := LINKG_TRANSPORT_TYPE_NONE < th_type h < LINKG_TRANSPORT_TYPE_COUNT.
Definition header_good (h : linkg_transport_header) : Prop := type_good h /\ in_range 32 (th_sequence h).

Lemma decode_bytes_good l : fst (decode_bytes l) = 0 -> exists h, snd (decode_bytes l) = Some h /\ header_good h.
Proof.
  unfold decode_bytes. destruct (_ || _)%bool; [done|]. destruct (header_accepted _) eqn:E; cbn [negb]; [|done].
  destruct (_ && _)%bool; [done|]. intros _. eexists. split; [done|]. unfold header_accepted, linkg_transport_type_valid in E. zb.
  split; [|by apply wrap_range]. unfold type_good, LINKG_TRANSPORT_TYPE_NONE in *. lia.
Qed.

Lemma runs_decode keep i : 0 < keep i ->
  runs keep (pool (linkg_transport_wire_decode (Some i) false))
    (same keep (fun r => fst r = 0 -> exists h, snd r = Some h /\ header_good h)).
Proof.
  intros Hi. apply (runs_pool_read keep i); [done|]. intros p k L. eexists. split; [by eapply decode_run|]. apply decode_bytes_good.
Qed.

Lemma runs_fragment_decode keep i : 0 < keep i ->
  runs keep (pool (linkg_transport_wire_fragment_decode (Some i) false))
    (same keep (fun r => fst r = 0 -> is_Some (snd r))).
Proof.
  intros Hi. apply (runs_pool_read keep i); [done|]. intros p k L. eexists. split; [by eapply fragment_decode_run|].
  unfold fragment_decode_bytes. by repeat case_match.
Qed.

Lemma runs_pull keep i n : 0 < keep i -> 0 <= n -> runs keep (pool (linkg_packet_pull (Some i) n)) (same keep (fun _ => True)).
Proof.
  intros Hi Hn theirs s Hs. destruct (core_live _ _ _ _ Hs Hi) as [k L]. pose proof L as (Wp&_&Hk).
  destruct (live_wf _ _ _ Wp Hk) as (Wk&_). destruct (Z.ltb_spec (pk_data_length k) n) as [Hlt|Hge].
  - assert (linkg_packet_pull (Some i) n (core_pool s) = Some (None, core_pool s)) as E.
    { unfold linkg_packet_pull. mstep (packet_at_eq _ _ _ Hk).
      replace (pk_data_length k <? n) with true by (symmetry; by apply Z.ltb_lt). by rewrite orb_true_r. }
    eapply wp_run; [by rewrite (core_pool_run _ _ _ _ E)|]. rewrite pool_set_same. exists keep, theirs. by split.
  - destruct (pull_spec (core_pool s) i k n L ltac:(lia)) as (p'&E&L'&Sm&Er&_).
    eapply wp_run; [by rewrite (core_pool_run _ _ _ _ E)|]. exists keep, theirs. split; [done|]. split; [done|].
    destruct Hs as (W&B&K). assert (forall j, refs p' j = refs (core_pool s) j) as R.
    { intros j. rewrite (refs_one _ _ _ 0 j Sm ltac:(lia)). lia. }
    split; [|split; [|done]].
    + apply core_wf_pool; [done|apply L'|]. intros j. rewrite R. apply (cw_refs _ _ W).
    + intros j. destruct (B j) as [Br ?]. split; [|done]. rewrite <- Br. cbn. change (refs p' j - core_held s j = refs (core_pool s) j - core_held s j). by rewrite R.
Qed.
(** ** The caches *)

Lemma core_refs keep theirs (s : core) j : core_ok keep theirs s ->
  refs (TransportReassembly.rr_pool (xc_reassembly s)) j =
    TransportReassembly.held (xc_reassembly s) j + TransportForward.pair_held (core_pairs s) j + keep j + theirs j /\
  0 <= theirs j <= 2 ^ 31.
Proof. intros (_&B&_). destruct (B j) as [Br ?]. split; [|done]. change (refs (core_pool s) j - core_held s j = keep j + theirs j) in Br. unfold core_held, core_pool in Br. lia. Qed.

Lemma core_cache_ok keep theirs (s : core) :
  core_ok keep theirs s ->
  cache_ok (fun j => keep j + theirs j + TransportForward.pair_held (core_pairs s) j) (xc_reassembly s).
Proof.
  intros Hs. pose proof Hs as (W&B&K). split; [apply W|apply W|apply W| |]; intros j; destruct (core_refs _ _ _ j Hs) as [Br Bt].
  - lia.
  - specialize (K j). pose proof (pairs_held_bound (core_pairs s) j (cw_pairs _ _ W)). unfold keep_max, keep_room in *. lia.
Qed.

(** What [cache_ok] gives back. *)
Lemma core_ok_cache keep keep' theirs (s : core) r :
  core_ok keep theirs s -> (forall j, 0 <= keep' j <= keep_max) ->
  cache_ok (fun j => keep' j + theirs j + TransportForward.pair_held (core_pairs s) j) r ->
  core_ok keep' theirs (core_reassembly r s).
Proof.
  intros (W&B&K) K' [A L F R M].
  assert (forall j, core_held (core_reassembly r s) j =
    TransportReassembly.held r j + TransportForward.pair_held (core_pairs s) j) as Eh by done.
  assert (forall j, refs (core_pool (core_reassembly r s)) j = refs (TransportReassembly.rr_pool r) j) as Er by done.
  split; [|split; [|done]].
  - destruct W as [A0 B0 F0 D0 G0 H0 I0 J0 K0 L0]. split; try done. intros j. rewrite Eh, Er, R.
    specialize (K' j). destruct (B j) as [_ ?]. lia.
  - intros j. split; [|apply B].
    change (ps_refs (core_reassembly r s) j) with (refs (core_pool (core_reassembly r s)) j - core_held (core_reassembly r s) j).
    rewrite Eh, Er, R. lia.
Qed.

Lemma runs_reassembly keep epochs now items :
  items <> [] -> (length items <= 32)%nat -> (forall j, keep j + 32 <= keep_max) ->
  (forall it i, it ∈ items -> TransportReassembly.ri_packet it = Some i -> 0 < keep i) ->
  (forall it, it ∈ items -> TransportReassembly.ri_completed_packet it = None) ->
  runs keep (reassembly (TransportReassembly.linkg_transport_reassembly_submit_batch (rv_mutex env) epochs now (Some items) (Z.of_nat (length items))))
    (fun r k => exists items', snd r = Some items' /\ length items' = length items /\
       forall j, k j = keep j + completed_refs items' j).
Proof.
  intros Hne Hlen Hroom Hp Hc theirs s Hs. pose proof (core_cache_ok _ _ _ Hs) as Ca. pose proof Hs as (W&B&K).
  destruct (submit_batch_safe (rv_mutex env) Hmx epochs now items _ _ Ca Hne) as (ret&items'&r&E&L&Ca').
  { intros it i Hit Hi. destruct (B i) as [_ ?]. pose proof (pairs_held_bound (core_pairs s) i (cw_pairs _ _ W)).
    specialize (Hp it i Hit Hi). lia. }
  { intros j. specialize (Hroom j). destruct (B j) as [_ ?]. pose proof (pairs_held_bound (core_pairs s) j (cw_pairs _ _ W)).
    unfold keep_room, keep_max in *. lia. }
  { done. }
  unfold reassembly. eapply wp_run; [unfold zoom; by rewrite E|].
  exists (fun j => keep j + completed_refs items' j), theirs. split; [by exists items'|]. split; [done|].
  apply (core_ok_cache keep); [done| |].
  - intros j. specialize (Hroom j). specialize (K j). pose proof (completed_refs_range items' j). lia.
  - eapply cache_ext; [|exact Ca']. intros j. cbn. lia.
Qed.

Lemma core_pairs_ok keep theirs (s : core) :
  core_ok keep theirs s -> pairs_ok (PS := pool_store (rv_mutex env)) (fun j => keep j + theirs j + TransportReassembly.held (xc_reassembly s) j) (core_pairs s).
Proof.
  intros Hs. pose proof Hs as (W&B&K). split; [apply W|apply W|apply W| |]; intros j; destruct (core_refs _ _ _ j Hs) as [Br Bt].
  - change (ps_refs (PacketStore := pool_store (rv_mutex env)) (TransportForward.fr_store (core_pairs s)) j) with (refs (TransportReassembly.rr_pool (xc_reassembly s)) j). lia.
  - specialize (K j). pose proof (reassembly_held_bound (xc_reassembly s) j (cw_entries _ _ W)). unfold keep_max, keep_room in *. lia.
Qed.

Lemma core_ok_pairs keep keep' theirs (s : core) r :
  core_ok keep theirs s -> (forall j, 0 <= keep' j <= keep_max) ->
  pairs_ok (PS := pool_store (rv_mutex env)) (fun j => keep' j + theirs j + TransportReassembly.held (xc_reassembly s) j) r ->
  core_ok keep' theirs (core_set_pairs r s).
Proof.
  intros (W&B&K) K' [A L F R M]. cbn in A.
  assert (forall j, core_held (core_set_pairs r s) j = TransportReassembly.held (xc_reassembly s) j + TransportForward.pair_held r j) as Eh by done.
  assert (forall j, refs (core_pool (core_set_pairs r s)) j = ps_refs (PacketStore := pool_store (rv_mutex env)) (TransportForward.fr_store r) j) as Er by done.
  split; [|split; [|done]].
  - destruct W as [A0 B0 F0 D0 G0 H0 I0 J0 K0 L0]. split; try done. intros j. rewrite Eh, Er, R.
    specialize (K' j). destruct (B j) as [_ ?]. lia.
  - intros j. split; [|apply B]. change (ps_refs (core_set_pairs r s) j) with (refs (core_pool (core_set_pairs r s)) j - core_held (core_set_pairs r s) j).
    rewrite Eh, Er, R. lia.
Qed.

Lemma outputs_refs_range os j : 0 <= TransportForward.outputs_refs os j <= Z.of_nat (length os).
Proof.
  unfold TransportForward.outputs_refs. induction os as [|x os IH]; cbn [sumZ length]; [lia|]. pose proof (held_opt_range (fi_packet x) j). lia.
Qed.

Lemma runs_pairing keep tinit ap epochs now peer ep c nd h fh i len :
  (forall j, i = Some j -> 0 < keep j) -> (forall j, keep j + 2 <= keep_max) ->
  runs keep (pairing (TransportForward.linkg_transport_forward_pair_submit (PS := pool_store (rv_mutex env)) (rv_mutex env)
      tinit ap epochs now peer ep c nd h fh i len false))
    (fun r k => outputs_ok (default [] (snd r)) /\ forall j, k j = keep j + TransportForward.outputs_refs (default [] (snd r)) j).
Proof.
  intros Hi Hroom theirs s Hs. pose proof (core_pairs_ok _ _ _ Hs) as Pa. pose proof Hs as (W&B&K).
  destruct (pair_submit_safe (PS := pool_store (rv_mutex env)) (PL := pool_store_laws (rv_mutex env) Hmx) (rv_mutex env) tinit ap epochs now peer ep c nd h fh i len false _ _ Pa) as (ret&o&r&E&Lo&Pa').
  { intros j Hj. specialize (Hi j Hj). destruct (B j) as [_ ?]. pose proof (reassembly_held_bound (xc_reassembly s) j (cw_entries _ _ W)). lia. }
  { intros j. specialize (Hroom j). destruct (B j) as [_ ?]. pose proof (reassembly_held_bound (xc_reassembly s) j (cw_entries _ _ W)).
    unfold keep_room, keep_max in *. lia. }
  pose proof (proj1 Lo) as Lo2. unfold pairing. eapply wp_run; [unfold zoom; by rewrite E|].
  exists (fun j => keep j + TransportForward.outputs_refs (default [] o) j), theirs. split; [done|]. split; [done|].
  apply (core_ok_pairs keep); [done| |].
  - intros j. specialize (Hroom j). specialize (K j). pose proof (outputs_refs_range (default [] o) j). lia.
  - eapply pairs_ext; [|exact Pa']. intros j. cbn. lia.
Qed.
(** ** Delivery *)

Lemma runs_update keep f : (forall x, context_ok x -> context_ok (f x)) -> runs keep (transport (update f)) (same keep (fun _ => True)).
Proof.
  intros Hf theirs s Hs. pose proof (core_ok_context _ _ _ Hs) as Hc. destruct s as [t r q tr]. eapply wp_run; [reflexivity|].
  exists keep, theirs. split; [done|]. split; [done|]. apply (core_ok_transport keep theirs (RxCore t r q tr)); [done|]. by apply Hf.
Qed.

Lemma runs_record_stats keep o : runs keep (_linkg_transport_rx_record_batch_stats env o) (same keep (fun _ => True)).
Proof.
  unfold _linkg_transport_rx_record_batch_stats. destruct o as [t|]; [|by apply runs_ret]. destruct (_ && _); [by apply runs_ret|].
  eapply runs_then; [apply runs_lock|]. intros _ _. eapply runs_then; [by apply runs_update|]. intros _ _.
  eapply runs_then; [apply runs_unlock|]. intros _ _. by apply runs_ret.
Qed.

Section Rows.
Context {A : Type} (packet : A -> option pkt_ptr).

(** The references a row owns. *)
Definition row_held (row : batch_row A) (j : nat) : Z := if ro_owned row then held_opt (packet (ro_item row)) j else 0.
Definition rows_held (rows : list (batch_row A)) (j : nat) : Z := sumZ (fun row => row_held row j) rows.

(** A row has a packet; the packets it does not own are among the references [B]. *)
Definition row_ok (B : refs_t) (row : batch_row A) : Prop :=
  forall i, packet (ro_item row) = Some i -> ro_owned row = false -> 0 < B i.

Lemma row_held_range row j : 0 <= row_held row j <= 1.
Proof. unfold row_held. destruct (ro_owned row); [apply held_opt_range|lia]. Qed.

Lemma rows_held_range rows j : 0 <= rows_held rows j <= Z.of_nat (length rows).
Proof. unfold rows_held. induction rows as [|x rows IH]; cbn [sumZ length]; [lia|]. pose proof (row_held_range x j). lia. Qed.

Lemma rows_held_app l1 l2 j : rows_held (l1 ++ l2) j = rows_held l1 j + rows_held l2 j.
Proof. apply sumZ_app. Qed.

(** A packet of a batch is referenced. *)
Lemma rows_readable B rows row i :
  (forall j, 0 <= B j) -> (forall r, r ∈ rows -> row_ok B r) -> row ∈ rows -> packet (ro_item row) = Some i ->
  0 < B i + rows_held rows i.
Proof.
  intros HB Hr Hin Hp. pose proof (rows_held_range rows i). destruct (ro_owned row) eqn:Eo.
  - specialize (HB i). assert (1 <= rows_held rows i); [|lia]. apply list_elem_of_lookup in Hin as [n Hn].
    pose proof (sumZ_lookup_le (fun row => row_held row i) rows n row) as Hle. unfold rows_held. cbn in Hle.
    assert (row_held row i = 1) as E by (unfold row_held; rewrite Eo, Hp; apply one_ref_same).
    rewrite <- E. apply Hle; [|done]. intros y _. apply row_held_range.
  - specialize (Hr row Hin i Hp Eo). lia.
Qed.

Lemma runs_release_row keep B row :
  (forall j, 0 <= B j) -> (forall j, keep j = B j + row_held row j) ->
  runs keep (when (ro_owned row && negb (bool_decide (packet (ro_item row) = None))) (release_packet env (packet (ro_item row))))
    (same B (fun _ => True)).
Proof.
  intros HB Hk. unfold row_held in Hk. apply runs_when; intros E.
  - apply andb_true_iff in E as [Eo _]. rewrite Eo in Hk. by apply runs_release.
  - split; [|done]. intros j. rewrite Hk. destruct (ro_owned row); [|lia]. cbn in E. apply negb_false_iff, bool_decide_eq_true in E. rewrite E. cbn. lia.
Qed.

Lemma runs_drop_stale batch : forall stats B keep,
  (forall j, 0 <= B j) -> (forall j, keep j = B j + rows_held batch j) ->
  runs keep (drop_stale env packet batch stats)
    (fun r k => (forall j, k j = B j + rows_held (fst r) j) /\ (forall row, row ∈ fst r -> row ∈ batch) /\ (length (fst r) <= length batch)%nat).
Proof.
  induction batch as [|row batch IH]; intros stats B keep HB Hk; cbn [drop_stale].
  { apply runs_ret. by splits. }
  assert (forall j, keep j = B j + rows_held batch j + row_held row j) as Hk'.
  { intros j. rewrite Hk. unfold rows_held. cbn. lia. }
  eapply runs_then; [apply runs_epoch_matches|]. intros ok _. destruct ok; cbn [negb].
  - eapply runs_bind; [apply (IH stats (fun j => B j + row_held row j) keep)|].
    + intros j. specialize (HB j). pose proof (row_held_range row j). lia.
    + intros j. rewrite Hk'. lia.
    + intros r k (Ek&Hin&Hl). apply runs_ret. cbn [fst]. splits.
      * intros j. rewrite Ek. unfold rows_held. cbn. lia.
      * intros x Hx. apply elem_of_cons in Hx as [->|Hx]; apply elem_of_cons; [by left|right; by apply Hin].
      * cbn. lia.
  - eapply runs_bind; [apply (runs_release_row keep (fun j => B j + rows_held batch j) row)|].
    + intros j. specialize (HB j). pose proof (rows_held_range batch j). lia.
    + done.
    + intros _ k [Ek _]. eapply runs_mono; [apply (IH (count_stale stats) B k HB Ek)|].
      intros r k2 (E2&Hin&Hl). split; [done|]. split; [|cbn; lia]. intros x Hx. apply elem_of_cons. right. by apply Hin.
Qed.

Lemma runs_release_owned batch : forall B keep,
  (forall j, 0 <= B j) -> (forall j, keep j = B j + rows_held batch j) ->
  runs keep (release_owned env packet batch) (same B (fun _ => True)).
Proof.
  unfold release_owned. induction batch as [|row batch IH]; intros B keep HB Hk; cbn [mfor].
  { apply runs_ret. split; [|done]. intros j. rewrite Hk. unfold rows_held. cbn. lia. }
  eapply runs_bind; [apply (runs_release_row keep (fun j => B j + rows_held batch j) row)|].
  - intros j. specialize (HB j). pose proof (rows_held_range batch j). lia.
  - intros j. rewrite Hk. unfold rows_held. cbn. lia.
  - intros _ k [Ek _]. by apply IH.
Qed.

(** A batch: at most 32 rows, each with a packet that may be read. *)
Definition rows_ok (B : refs_t) (rows : list (batch_row A)) : Prop :=
  (length rows <= 32)%nat /\ forall row, row ∈ rows -> row_ok B row /\ packet (ro_item row) <> None.

Lemma rows_ok_nil B : rows_ok B [].
Proof. split; [cbn; lia|]. intros row H. by apply elem_of_nil in H. Qed.

Lemma rows_ok_sub B rows rows' :
  rows_ok B rows -> (forall row, row ∈ rows' -> row ∈ rows) -> (length rows' <= length rows)%nat -> rows_ok B rows'.
Proof. intros [H1 H2] Hin Hl. split; [lia|]. intros row Hr. by apply H2, Hin. Qed.

Lemma rows_ok_snoc B rows row :
  rows_ok B rows -> (length rows < 32)%nat -> row_ok B row -> packet (ro_item row) <> None -> rows_ok B (rows ++ [row]).
Proof.
  intros [H1 H2] Hl Hr Hp. split; [rewrite length_app; cbn; lia|].
  intros x Hx. apply elem_of_app in Hx as [Hx| ->%list_elem_of_singleton]; [by apply H2|done].
Qed.

Lemma rows_ok_payload B rows : rows_ok B rows -> Forall (fun row => packet (ro_item row) <> None) rows.
Proof. intros [_ H]. apply Forall_forall. intros row Hr. by apply H. Qed.

(** The items of a batch may be read by a handler. *)
Lemma rows_items B rows d i :
  (forall j, 0 <= B j) -> rows_ok B rows -> d ∈ (ro_item <$> rows) -> packet d = Some i -> 0 < B i + rows_held rows i.
Proof.
  intros HB [_ H] Hd Hi. apply list_elem_of_fmap in Hd as (row&->&Hr).
  apply (rows_readable B rows row i HB); [|done|done]. intros r Hr'. by apply H.
Qed.

(** The common part of both flushes: stale rows are dropped, the rest is passed on. *)
Lemma runs_flush rows (tail : list (batch_row A) -> CM unit) B keep :
  (forall j, 0 <= B j) -> rows_ok B rows -> (forall j, keep j = B j + rows_held rows j) ->
  (forall rows k, rows <> [] -> rows_ok B rows -> (forall j, k j = B j + rows_held rows j) -> runs k (tail rows) (same B (fun _ => True))) ->
  runs keep (if bool_decide (rows = []) then mret tt
             else r ← drop_stale env packet rows batch_stats_zero;
                  let '(rows, stats) := r in
                  _linkg_transport_rx_record_batch_stats env (Some stats) ;;
                  if bool_decide (rows = []) then mret tt else tail rows)
    (same B (fun _ => True)).
Proof.
  intros HB Hok Hk Htail.
  assert (forall keep, (forall j, keep j = B j + rows_held [] j) -> runs keep (mret tt) (same B (fun _ => True))) as Nil.
  { intros k0 E. apply runs_ret. split; [|done]. intros j. rewrite E. unfold rows_held. cbn. lia. }
  case_bool_decide as Hne; [subst; by apply Nil|].
  eapply runs_bind; [by apply (runs_drop_stale rows _ B)|]. intros [rows1 stats] k (Ek&Hin&Hl). cbn [fst] in *.
  eapply runs_then; [apply runs_record_stats|]. intros _ _. case_bool_decide as Hne1; [subst; by apply Nil|].
  apply Htail; [done|by eapply rows_ok_sub|done].
Qed.
End Rows.

Lemma runs_event keep e : event_ok e -> runs keep (modify (core_event e)) (same keep (fun _ => True)).
Proof.
  intros He theirs s ([]&B&K). apply wp_modify. exists keep, theirs. split; [done|]. split; [done|]. split; [|done].
  split; try done. cbn. apply Forall_app. split; [done|by repeat constructor].
Qed.

Lemma runs_flush_delivery type rows B keep :
  (forall j, 0 <= B j) -> rows_ok dl_packet B rows -> (forall j, keep j = B j + rows_held dl_packet rows j) ->
  runs keep (_linkg_transport_rx_flush_delivery env type rows) (same B (fun _ => True)).
Proof.
  intros HB Hok Hk. apply runs_flush; [done..|]. clear rows keep Hok Hk. intros rows k Hne Hok Hk.
  eapply runs_then; [apply runs_lock|]. intros _ _. eapply runs_then; [apply runs_context|]. intros x _.
  eapply runs_then; [apply runs_unlock|]. intros _ _.
  eapply (runs_then k _ _ (fun _ => True)); [|intros _ _; by apply runs_release_owned].
  destruct (ha_handler _) as [f|]; [|by apply runs_ret].
  eapply (runs_then k get _ (fun _ => True)); [apply runs_read; intros ? s _; by exists s|]. intros s _.
  eapply runs_then; [apply runs_event|].
  { destruct rows as [|r0 rows]; [done|]. destruct Hok as [Hl Hr] eqn:E. clear E. split; [|split].
    - unfold LINKG_TRANSPORT_RX_DELIVERY_BATCH_MAX. cbn in Hl |- *. lia.
    - by rewrite !length_fmap.
    - by eapply rows_ok_payload. }
  intros _ _. eapply runs_then; [apply (rl_handler Hrely)|by intros; apply runs_ret].
  intros d i Hd Hi. rewrite Hk. by eapply rows_items.
Qed.

Lemma runs_flush_forward class rows B keep :
  (forall j, 0 <= B j) -> rows_ok fi_packet B rows -> (forall j, keep j = B j + rows_held fi_packet rows j) ->
  runs keep (_linkg_transport_rx_flush_forward env class rows) (same B (fun _ => True)).
Proof.
  intros HB Hok Hk. apply runs_flush; [done..|]. clear rows keep Hok Hk. intros rows k Hne Hok Hk.
  eapply runs_then; [apply runs_lock|]. intros _ _. eapply runs_then; [apply runs_context|]. intros x _.
  eapply runs_then; [apply runs_unlock|]. intros _ _.
  eapply (runs_then k _ _ (fun _ => True)); [|intros _ _; by apply runs_release_owned].
  destruct (ha_handler _) as [f|]; [|by apply runs_ret].
  eapply runs_then; [apply runs_event|].
  { destruct rows as [|r0 rows]; [done|]. split; [|by eapply rows_ok_payload].
    destruct Hok as [Hl _]. unfold LINKG_TRANSPORT_FORWARD_BATCH_MAX. cbn in Hl |- *. lia. }
  intros _ _. eapply runs_then; [apply (rl_forward Hrely)|by intros; apply runs_ret].
  intros d i Hd Hi. rewrite Hk. by eapply rows_items.
Qed.

(** ** Appending to a batch *)

Lemma rows_ok_mono {A} (packet : A -> option pkt_ptr) (B B' : refs_t) rows :
  (forall j, B j <= B' j) -> rows_ok packet B rows -> rows_ok packet B' rows.
Proof.
  intros HB [H1 H2]. split; [done|]. intros row Hr. destruct (H2 row Hr) as [H Hp]. split; [|done].
  intros i Hi Ho. specialize (H i Hi Ho). specialize (HB i). lia.
Qed.

Lemma rows_held_snoc {A} (packet : A -> option pkt_ptr) rows row j :
  rows_held packet (rows ++ [row]) j = rows_held packet rows j + row_held packet row j.
Proof. rewrite rows_held_app. unfold rows_held. cbn. lia. Qed.

(** What appending gives: a batch over the same base, and all other references. *)
Definition appended {A} (packet : A -> option pkt_ptr) (B K : refs_t) : list (batch_row A) -> refs_t -> Prop :=
  fun rows k => rows_ok packet B rows /\ forall j, k j = K j + rows_held packet rows j.

(** A full batch is flushed first. *)
Lemma runs_make_room {A} (packet : A -> option pkt_ptr) (full : bool) (flush : CM unit) rows B K own keep :
  (forall k, (forall j, k j = K j + own j + rows_held packet rows j) -> runs k flush (same (fun j => K j + own j) (fun _ => True))) ->
  rows_ok packet B rows -> (forall j, keep j = K j + own j + rows_held packet rows j) ->
  runs keep (if full then flush ;; mret [] else mret rows)
    (fun rows' k => (rows' = [] \/ full = false /\ rows' = rows) /\ rows_ok packet B rows' /\ forall j, k j = K j + own j + rows_held packet rows' j).
Proof.
  intros Hf Hok Hk. destruct full.
  - eapply runs_bind; [by apply Hf|]. intros _ k [Ek _]. apply runs_ret. split; [by left|]. split; [apply rows_ok_nil|].
    intros j. rewrite Ek. unfold rows_held. cbn. lia.
  - apply runs_ret. split; [by right|]. by split.
Qed.

Lemma runs_append_delivery lid type tc src node peer epoch packet owned rows B K keep :
  (forall j, 0 <= B j <= K j) -> rows_ok dl_packet B rows ->
  (forall i, packet = Some i -> owned = false -> 0 < B i) ->
  (forall j, keep j = K j + (if owned then held_opt packet j else 0) + rows_held dl_packet rows j) ->
  runs keep (_linkg_transport_rx_append_delivery env lid type tc src node peer epoch packet owned rows) (appended dl_packet B K).
Proof.
  intros HB Hok Hp Hk. unfold _linkg_transport_rx_append_delivery. destruct packet as [i|].
  2:{ apply runs_ret. split; [done|]. intros j. rewrite Hk. destruct owned; cbn; lia. }
  assert (forall j, 0 <= (if owned then held_opt (Some i) j else 0)) as Ho by (intros j; destruct owned; [apply held_opt_range|lia]).
  eapply runs_bind; [apply (runs_make_room dl_packet _ _ rows B K (fun j => if owned then held_opt (Some i) j else 0)); [|done|done]|].
  { intros k Ek. apply runs_flush_delivery; [|eapply rows_ok_mono; [|exact Hok]|done]; intros j; specialize (HB j); specialize (Ho j); lia. }
  intros rows' k (Hfull&Hok'&Ek). apply runs_ret. split.
  - apply rows_ok_snoc; [done| |by intros x [= <-]; apply Hp|done]. destruct Hfull as [->|[Hl ->]]; [cbn; lia|].
    unfold LINKG_TRANSPORT_RX_DELIVERY_BATCH_MAX in Hl. lia.
  - intros j. rewrite Ek, rows_held_snoc. unfold row_held. cbn. destruct owned; lia.
Qed.

Lemma runs_append_forward state packet rows B K keep :
  (forall j, 0 <= B j <= K j) -> rows_ok fi_packet B rows -> (forall i, packet = Some i -> 0 < B i) ->
  (forall j, keep j = K j + rows_held fi_packet rows j) ->
  runs keep (_linkg_transport_rx_append_forward env state packet rows) (appended fi_packet B K).
Proof.
  intros HB Hok Hp Hk. unfold _linkg_transport_rx_append_forward. destruct packet as [i|]; [|by apply runs_ret].
  eapply runs_bind; [apply (runs_make_room fi_packet _ _ rows B K (fun _ => 0)); [|done|intros j; rewrite Hk; lia]|].
  { intros k Ek. apply runs_flush_forward; [|eapply rows_ok_mono; [|exact Hok]|done]; intros j; specialize (HB j); lia. }
  intros rows' k (Hfull&Hok'&Ek). apply runs_ret. split.
  - apply rows_ok_snoc; [done| |by intros x [= <-]; intros; apply Hp|done]. destruct Hfull as [->|[Hl ->]]; [cbn; lia|].
    unfold LINKG_TRANSPORT_FORWARD_BATCH_MAX in Hl. lia.
  - intros j. rewrite Ek, rows_held_snoc. unfold row_held. cbn. lia.
Qed.

Lemma runs_append_forward_pair class items peer epoch rows B K keep :
  (forall j, 0 <= B j <= K j) -> rows_ok fi_packet B rows -> length items = 2%nat -> Forall (fun it => fi_packet it <> None) items ->
  (forall j, keep j = K j + TransportForward.outputs_refs items j + rows_held fi_packet rows j) ->
  runs keep (_linkg_transport_rx_append_forward_pair env class items peer epoch rows) (appended fi_packet B K).
Proof.
  intros HB Hok Hl Hp Hk. unfold _linkg_transport_rx_append_forward_pair.
  destruct items as [|i1 [|i2 [|]]]; try done. apply Forall_cons in Hp as [P1 Hp]. apply Forall_cons in Hp as [P2 _].
  eapply runs_bind; [apply (runs_make_room fi_packet _ _ rows B K (TransportForward.outputs_refs [i1; i2])); [|done|done]|].
  { intros k Ek. apply runs_flush_forward; [|eapply rows_ok_mono; [|exact Hok]|done]; intros j; specialize (HB j);
      pose proof (outputs_refs_range [i1; i2] j); lia. }
  intros rows' k (Hfull&Hok'&Ek). apply runs_ret.
  change ((fun it => BatchRow it peer epoch true) <$> take (Z.to_nat LINKG_TRANSPORT_FRAGMENT_COUNT_MAX) [i1; i2])
    with ([BatchRow i1 peer epoch true] ++ [BatchRow i2 peer epoch true]). rewrite app_assoc.
  assert (length rows' < 31)%nat as Hl'.
  { destruct Hfull as [->|[Hf ->]]; [cbn; lia|]. unfold LINKG_TRANSPORT_FORWARD_BATCH_MAX, LINKG_TRANSPORT_FRAGMENT_COUNT_MAX in Hf. lia. }
  split.
  - apply rows_ok_snoc; [apply rows_ok_snoc; [done|lia|done|done]|rewrite length_app; cbn; lia|done|done].
  - intros j. rewrite Ek, !rows_held_snoc. unfold row_held, TransportForward.outputs_refs. cbn. lia.
Qed.

Lemma runs_append_normal state packet rows B K keep :
  (forall j, 0 <= B j <= K j) -> rows_ok dl_packet B rows -> (forall i, packet = Some i -> 0 < B i) ->
  (forall j, keep j = K j + rows_held dl_packet rows j) ->
  runs keep (_linkg_transport_rx_append_normal_delivery env state packet rows) (fun r k => appended dl_packet B K (snd r) k).
Proof.
  intros HB Hok Hi Hk. unfold _linkg_transport_rx_append_normal_delivery.
  destruct (_ =? _); [by apply runs_ret|]. destruct packet as [i|]; cbn [orb]; [rewrite bool_decide_false by done|by apply runs_ret].
  assert (0 < keep i) as Hik. { rewrite Hk. pose proof (rows_held_range dl_packet rows i). specialize (HB i). specialize (Hi i eq_refl). lia. }
  eapply runs_then; [by apply (runs_pull keep i)|]. intros data _. case_bool_decide; [by apply runs_ret|].
  eapply runs_bind; [apply (runs_append_delivery _ _ _ _ _ _ _ (Some i) false rows B K keep); [done|done|by intros x Hx _; apply Hi|intros j; rewrite Hk; lia]|].
  intros rows' k H'. by apply runs_ret.
Qed.

Lemma runs_append_reassembled state packet rows B K keep :
  (forall j, 0 <= B j <= K j) -> rows_ok dl_packet B rows ->
  (forall j, keep j = K j + held_opt packet j + rows_held dl_packet rows j) ->
  runs keep (_linkg_transport_rx_append_reassembled_delivery env state packet rows) (appended dl_packet B K).
Proof.
  intros HB Hok Hk. unfold _linkg_transport_rx_append_reassembled_delivery. destruct packet as [i|].
  - by apply runs_append_delivery.
  - apply runs_ret. split; [done|]. intros j. rewrite Hk. cbn. lia.
Qed.

(** ** The batches of a call *)

Definition batches_t : Type := list delivery_batch * option (list forward_batch).

(** One batch per type, that of type NONE unused, and one relay batch per class. *)
Record batches_ok (B : refs_t) (b : batches_t) : Prop := {
  bo_types : length (fst b) = Z.to_nat LINKG_TRANSPORT_TYPE_COUNT;
  bo_none : fst b !! 0%nat = Some [];
  bo_rows : forall t rows, fst b !! t = Some rows -> rows_ok dl_packet B rows;
  bo_classes : forall l, snd b = Some l -> length l = Z.to_nat LINKG_TRANSPORT_CLASS_COUNT;
  bo_relay : forall l c rows, snd b = Some l -> l !! c = Some rows -> rows_ok fi_packet B rows }.

(** The call relays. *)
Definition relays (b : batches_t) : bool := match snd b with Some _ => true | None => false end.

Definition batches_held (b : batches_t) (j : nat) : Z :=
  sumZ (fun rows => rows_held dl_packet rows j) (fst b) + sumZ (fun rows => rows_held fi_packet rows j) (default [] (snd b)).

Lemma sum_rows_bound {A} (packet : A -> option pkt_ptr) (l : list (list (batch_row A))) j :
  (forall rows, rows ∈ l -> (length rows <= 32)%nat) -> 0 <= sumZ (fun rows => rows_held packet rows j) l <= 32 * Z.of_nat (length l).
Proof.
  induction l as [|rows l IH]; intros H; cbn [sumZ length]; [lia|].
  pose proof (rows_held_range packet rows j). pose proof (H rows ltac:(left)).
  specialize (IH (fun r Hr => H r ltac:(by right))). lia.
Qed.

Lemma batches_held_bound B b j : batches_ok B b -> 0 <= batches_held b j <= 256.
Proof.
  intros [H1 _ H3 H4 H5]. unfold batches_held.
  pose proof (sum_rows_bound dl_packet (fst b) j) as Hd. rewrite H1 in Hd.
  assert (0 <= sumZ (fun rows => rows_held fi_packet rows j) (default [] (snd b)) <= 96) as Hf.
  { destruct (snd b) as [l|] eqn:E; cbn; [|lia]. pose proof (sum_rows_bound fi_packet l j) as Hf. rewrite (H4 l eq_refl) in Hf.
    unfold LINKG_TRANSPORT_CLASS_COUNT in Hf. apply Hf. intros rows Hr. apply list_elem_of_lookup in Hr as [c Hc]. by eapply H5. }
  unfold LINKG_TRANSPORT_TYPE_COUNT in Hd. specialize (Hd ltac:(intros rows Hr; apply list_elem_of_lookup in Hr as [t Ht]; by eapply H3)). lia.
Qed.

(** Replacing the batch of a type. *)
Lemma batches_put_delivery B b t rows rows' :
  batches_ok B b -> fst b !! t = Some rows -> t <> 0%nat -> rows_ok dl_packet B rows' ->
  batches_ok B (<[t := rows']> (fst b), snd b) /\
  forall j, batches_held (<[t := rows']> (fst b), snd b) j = batches_held b j - rows_held dl_packet rows j + rows_held dl_packet rows' j.
Proof.
  intros [H1 H2 H3 H4 H5] Ht Hne Hr. split.
  - split; cbn; [by rewrite length_insert|by rewrite list_lookup_insert_ne| |done|done].
    intros t' r' Hl. destruct (decide (t = t')) as [<-|].
    + rewrite list_lookup_insert_eq in Hl by (by eapply lookup_lt_Some). by injection Hl as <-.
    + rewrite list_lookup_insert_ne in Hl by done. by eapply H3.
  - intros j. unfold batches_held. cbn [fst snd]. rewrite (sumZ_insert _ _ _ _ _ Ht). lia.
Qed.

(** Replacing the batch of a class. *)
Lemma batches_put_forward B ds l c rows rows' :
  batches_ok B (ds, Some l) -> l !! c = Some rows -> rows_ok fi_packet B rows' ->
  batches_ok B (ds, Some (<[c := rows']> l)) /\
  forall j, batches_held (ds, Some (<[c := rows']> l)) j = batches_held (ds, Some l) j - rows_held fi_packet rows j + rows_held fi_packet rows' j.
Proof.
  intros [H1 H2 H3 H4 H5] Hc Hr. split.
  - split; cbn in *; [done..| |].
    + intros ? [= <-]. rewrite length_insert. by apply H4.
    + intros ? c' r' [= <-] Hl. destruct (decide (c = c')) as [<-|].
      * rewrite list_lookup_insert_eq in Hl by (by eapply lookup_lt_Some). by injection Hl as <-.
      * rewrite list_lookup_insert_ne in Hl by done. by eapply H5.
  - intros j. unfold batches_held. cbn [fst snd default from_option]. unfold id. rewrite (sumZ_insert _ _ _ _ _ Hc). lia.
Qed.

(** ** Dispatch *)

(** Past the order management. *)
Definition dispatchable (x : linkg_transport_rx_state) : bool :=
  bool_decide (rx_stage x = ACCEPTED) || bool_decide (rx_stage x = REORDER_READY) || bool_decide (rx_stage x = REASSEMBLY_READY).

(** The state of a frame before dispatching; only the completed fragments of this
    node carry a packet. *)
Record state_ok (relay : bool) (x : linkg_transport_rx_state) : Prop := {
  so_type : dispatchable x = true -> type_good (rx_header x);
  so_class : dispatchable x = true -> relay = true -> 0 <= rx_traffic_class x < LINKG_TRANSPORT_CLASS_COUNT;
  so_completed : rx_completed_packet x <> None ->
    rx_stage x = REASSEMBLY_READY /\ rx_fragmented x = true /\ th_destination_node_id (rx_header x) = rv_local_node_id env }.

Definition completed_held (states : list linkg_transport_rx_state) (j : nat) : Z :=
  sumZ (fun x => held_opt (rx_completed_packet x) j) states.

Lemma completed_held_range states j : 0 <= completed_held states j <= Z.of_nat (length states).
Proof.
  unfold completed_held. induction states as [|x l IH]; cbn [sumZ length]; [lia|]. pose proof (held_opt_range (rx_completed_packet x) j). lia.
Qed.

(** The base [B] of the caller, and the room above it. *)
Definition base_ok (B K : refs_t) : Prop := forall j, 0 <= B j <= K j /\ K j <= 2 ^ 30 + 2 ^ 15.

(** A verdict: the completed packet has gone into a batch or was released. *)
Definition dispatched_ok (relay : bool) (B K : refs_t) (r : linkg_transport_rx_state * batches_t * linkg_transport_rx_batch_stats)
    (k : refs_t) : Prop :=
  rx_completed_packet (fst (fst r)) = None /\ batches_ok B (snd (fst r)) /\ relays (snd (fst r)) = relay /\
  forall j, k j = K j + batches_held (snd (fst r)) j.

Lemma runs_release_items items : forall B keep,
  (forall j, 0 <= B j) -> (forall j, keep j = B j + TransportForward.outputs_refs items j) ->
  runs keep (release_items env items) (same B (fun _ => True)).
Proof.
  unfold release_items, TransportForward.outputs_refs. induction items as [|it items IH]; intros B keep HB Hk; cbn [mfor].
  { apply runs_ret. split; [|done]. intros j. rewrite Hk. cbn. lia. }
  cbn [sumZ] in Hk. eapply (runs_bind _ _ _ (same (fun j => B j + sumZ (fun it => held_opt (fi_packet it) j) items) (fun _ => True))).
  - apply runs_when; intros E.
    + apply runs_release; [intros j; rewrite Hk; lia|]. intros j. specialize (HB j).
      pose proof (outputs_refs_range items j) as H. unfold TransportForward.outputs_refs in H. lia.
    + apply negb_false_iff, bool_decide_eq_true in E. split; [|done]. intros j. rewrite Hk, E. cbn. lia.
  - intros _ k [Ek _]. by apply IH.
Qed.

Lemma base_sum B K (X : refs_t) j : base_ok B K -> 0 <= X j -> 0 <= B j <= K j + X j.
Proof. intros H HX. specialize (H j). lia. Qed.

Lemma type_index h : type_good h -> (Z.to_nat (th_type h) < Z.to_nat LINKG_TRANSPORT_TYPE_COUNT)%nat /\ Z.to_nat (th_type h) <> 0%nat.
Proof. unfold type_good, LINKG_TRANSPORT_TYPE_NONE, LINKG_TRANSPORT_TYPE_COUNT. lia. Qed.

(** Putting a batch back after an append. *)
Lemma put_delivery_ok relay B K b t rows rows' x st (k : refs_t) :
  batches_ok B b -> relays b = relay -> fst b !! t = Some rows -> t <> 0%nat -> rx_completed_packet x = None ->
  appended dl_packet B (fun j => K j + batches_held b j - rows_held dl_packet rows j) rows' k ->
  dispatched_ok relay B K (x, (<[t := rows']> (fst b), snd b), st) k.
Proof.
  intros Hb Hr Ht Hne Hx [Hok Ek]. destruct (batches_put_delivery B b t rows rows' Hb Ht Hne Hok) as [Hb' Hh].
  split; [done|]. split; [done|]. split; [done|]. intros j. cbn [fst snd]. rewrite Ek, Hh. lia.
Qed.

(** A batch's own references are among those of all. *)
Lemma delivery_row_held b t rows j : fst b !! t = Some rows -> 0 <= rows_held dl_packet rows j <= batches_held b j.
Proof.
  intros Ht. unfold batches_held. split; [apply rows_held_range|].
  pose proof (sumZ_lookup_le (fun rows => rows_held dl_packet rows j) (fst b) t rows) as H.
  assert (0 <= sumZ (fun rows => rows_held fi_packet rows j) (default [] (snd b))) by (apply sumZ_nonneg; intros; apply rows_held_range).
  cbn in H. specialize (H ltac:(intros; apply rows_held_range) Ht). lia.
Qed.

Lemma forward_row_held ds l c rows j : l !! c = Some rows -> 0 <= rows_held fi_packet rows j <= batches_held (ds, Some l) j.
Proof.
  intros Hc. unfold batches_held. split; [apply rows_held_range|]. cbn [fst snd default from_option]. unfold id.
  pose proof (sumZ_lookup_le (fun rows => rows_held fi_packet rows j) l c rows) as H.
  assert (0 <= sumZ (fun rows => rows_held dl_packet rows j) ds) by (apply sumZ_nonneg; intros; apply rows_held_range).
  cbn in H. specialize (H ltac:(intros; apply rows_held_range) Hc). lia.
Qed.

Lemma runs_dispatch_local relay packet x b stats B K keep :
  base_ok B K -> batches_ok B b -> relays b = relay -> state_ok relay x -> dispatchable x = true ->
  (forall i, packet = Some i -> 0 < B i) -> (forall j, keep j = K j + held_opt (rx_completed_packet x) j + batches_held b j) ->
  runs keep (dispatch_local env packet x b stats) (dispatched_ok relay B K).
Proof.
  intros HB Hb Hr Hx Hd Hp Hk. destruct (type_index _ (so_type _ _ Hx Hd)) as [Ht Hne]. rewrite <- (bo_types _ _ Hb) in Ht.
  apply lookup_lt_is_Some in Ht as [rows Hrows]. pose proof (bo_rows _ _ Hb _ _ Hrows) as Hok.
  assert (forall st, rx_completed_packet x = None -> runs keep (mret (xset_stage DROPPED x, b, st)) (dispatched_ok relay B K)) as Drop.
  { intros st Hc. apply runs_ret. split; [done|]. split; [done|]. split; [done|]. intros j. rewrite Hk, Hc. cbn. lia. }
  unfold dispatch_local. destruct b as [ds fw]. cbn [fst snd] in *. destruct (rx_fragmented x) eqn:Ef.
  - case_bool_decide as Hs; cbn [negb orb].
    2:{ apply Drop. destruct (rx_completed_packet x) eqn:Ec; [|done]. by destruct (so_completed _ _ Hx) as [? _]; [rewrite Ec|]. }
    case_bool_decide as Hc; [by apply Drop|]. cbn.
    eapply runs_bind; [by eapply (runs_of_option keep _ _ (fun a k => a = rows /\ k = keep)); [exact Hrows|]|]. intros ? ? [-> ->].
    eapply runs_bind; [apply (runs_append_reassembled _ _ rows B (fun j => K j + batches_held (ds, fw) j - rows_held dl_packet rows j) keep)|].
    + intros j. pose proof (delivery_row_held (ds, fw) _ _ j Hrows). pose proof (HB j). lia.
    + done.
    + intros j. rewrite Hk. lia.
    + intros rows' k Hap. apply runs_ret. by apply (put_delivery_ok relay B K (ds, fw) _ rows rows').
  - assert (rx_completed_packet x = None) as Hc.
    { destruct (rx_completed_packet x) eqn:Ec; [|done]. destruct (so_completed _ _ Hx) as (_&?&_); [by rewrite Ec|congruence]. }
    case_bool_decide; cbn [negb]; [|by apply Drop].
    eapply runs_bind; [by eapply (runs_of_option keep _ _ (fun a k => a = rows /\ k = keep)); [exact Hrows|]|]. intros ? ? [-> ->].
    eapply runs_bind; [apply (runs_append_normal _ _ rows B (fun j => K j + batches_held (ds, fw) j - rows_held dl_packet rows j) keep)|].
    + intros j. pose proof (delivery_row_held (ds, fw) _ _ j Hrows). pose proof (HB j). lia.
    + done.
    + done.
    + intros j. rewrite Hk, Hc. cbn. lia.
    + intros [ret rows'] k Hap. cbn [fst snd] in *. destruct (ret =? 0); cbn [negb]; apply runs_ret;
        by apply (put_delivery_ok relay B K (ds, fw) _ rows rows').
Qed.

Lemma put_forward_ok B K ds l c rows rows' x st (k : refs_t) :
  batches_ok B (ds, Some l) -> l !! c = Some rows -> rx_completed_packet x = None ->
  appended fi_packet B (fun j => K j + batches_held (ds, Some l) j - rows_held fi_packet rows j) rows' k ->
  dispatched_ok true B K (x, (ds, Some (<[c := rows']> l)), st) k.
Proof.
  intros Hb Hc Hx [Hok Ek]. destruct (batches_put_forward B ds l c rows rows' Hb Hc Hok) as [Hb' Hh].
  split; [done|]. split; [done|]. split; [done|]. intros j. cbn [fst snd]. rewrite Ek, Hh. lia.
Qed.

Lemma class_row B ds l x :
  batches_ok B (ds, Some l) -> 0 <= rx_traffic_class x < LINKG_TRANSPORT_CLASS_COUNT ->
  exists rows, l !! Z.to_nat (rx_traffic_class x) = Some rows /\ rows_ok fi_packet B rows.
Proof.
  intros Hb Hc. assert (is_Some (l !! Z.to_nat (rx_traffic_class x))) as [rows Hr].
  { apply lookup_lt_is_Some. rewrite (bo_classes _ _ Hb l eq_refl). unfold LINKG_TRANSPORT_CLASS_COUNT in *. lia. }
  exists rows. split; [done|]. by eapply (bo_relay _ _ Hb).
Qed.

Lemma runs_dispatch_pair packet x ds l stats B K keep :
  base_ok B K -> batches_ok B (ds, Some l) -> rx_completed_packet x = None ->
  0 <= rx_traffic_class x < LINKG_TRANSPORT_CLASS_COUNT -> (forall i, packet = Some i -> 0 < B i) ->
  (forall j, keep j = K j + batches_held (ds, Some l) j) ->
  runs keep (dispatch_pair env packet x ds l stats) (dispatched_ok true B K).
Proof.
  intros HB Hb Hx Hc Hp Hk. unfold dispatch_pair.
  assert (forall j, 0 <= batches_held (ds, Some l) j <= 256) as Hbh by (intros j; by eapply batches_held_bound).
  assert (forall g st k, (forall j, k j = K j + batches_held (ds, Some l) j) ->
    runs k (mret (xset_stage g x, (ds, Some l), st)) (dispatched_ok true B K)) as Ret.
  { intros g st k Ek. apply runs_ret. by split. }
  eapply runs_then; [apply runs_interfere|]. intros n _. eapply runs_then; [apply runs_context|]. intros c _.
  eapply runs_bind; [apply (runs_pairing keep)|].
  { intros i Hi. rewrite Hk. specialize (Hp i Hi). specialize (HB i). specialize (Hbh i). lia. }
  { intros j. rewrite Hk. specialize (HB j). specialize (Hbh j). unfold keep_max. lia. }
  intros [ret o] k [[Ho2 Hop] Ek]. cbn [fst snd] in *. set (items := default [] o) in *.
  assert (forall st, runs k (release_items env items ;; mret (xset_stage DROPPED x, (ds, Some l), st)) (dispatched_ok true B K)) as Rel.
  { intros st. eapply runs_bind; [apply (runs_release_items items keep k); [|done]|].
    - intros j. rewrite Hk. specialize (HB j). specialize (Hbh j). lia.
    - intros _ k2 [E2 _]. apply Ret. intros j. by rewrite E2. }
  destruct (ret =? 0); cbn [negb]; [|by apply Rel]. case_bool_decide as Hn.
  { apply Ret. intros j. rewrite Ek, Hn, Hk. unfold TransportForward.outputs_refs. cbn. lia. }
  destruct (Z.eqb_spec (Z.of_nat (length items)) LINKG_TRANSPORT_FRAGMENT_COUNT_MAX) as [Hl|]; cbn [negb]; [|by apply Rel].
  destruct (class_row _ _ _ _ Hb Hc) as (rows&Hrows&Hok).
  eapply runs_bind; [by eapply (runs_of_option k _ _ (fun a k' => a = rows /\ k' = k)); [exact Hrows|]|]. intros ? ? [-> ->].
  eapply runs_bind; [apply (runs_append_forward_pair _ items _ _ rows B (fun j => K j + batches_held (ds, Some l) j - rows_held fi_packet rows j) k)|].
  - intros j. pose proof (forward_row_held ds l _ _ j Hrows). pose proof (HB j). lia.
  - done.
  - unfold LINKG_TRANSPORT_FRAGMENT_COUNT_MAX in Hl. lia.
  - done.
  - intros j. rewrite Ek, Hk. lia.
  - intros rows' k' Hap. apply runs_ret. by apply (put_forward_ok B K ds l _ rows rows').
Qed.

Lemma runs_dispatch_one relay packet x b stats B K keep :
  base_ok B K -> batches_ok B b -> relays b = relay -> state_ok relay x ->
  (forall i, packet = Some i -> 0 < B i) -> (forall j, keep j = K j + held_opt (rx_completed_packet x) j + batches_held b j) ->
  runs keep (dispatch_one env packet x b stats) (dispatched_ok relay B K).
Proof.
  intros HB Hb Hr Hx Hp Hk.
  assert (forall y st k, rx_completed_packet y = None -> (forall j, k j = K j + batches_held b j) ->
    runs k (mret (y, b, st)) (dispatched_ok relay B K)) as Ret.
  { intros y st k Hy Ek. apply runs_ret. by split. }
  assert (forall j, rx_completed_packet x = None -> keep j = K j + batches_held b j) as Hk'.
  { intros j E. rewrite Hk, E. cbn. lia. }
  unfold dispatch_one. destruct (_ && _) eqn:Ed.
  { assert (rx_completed_packet x = None) as Hc; [|apply Ret; auto].
    destruct (rx_completed_packet x) eqn:Ec; [|done]. destruct (so_completed _ _ Hx) as (E&_); [by rewrite Ec|].
    rewrite E in Ed. by rewrite andb_comm in Ed. }
  assert (dispatchable x = true) as Hd.
  { unfold dispatchable. apply andb_false_iff in Ed as [Ed%andb_false_iff|Ed]; [destruct Ed as [Ed|Ed]|];
      apply negb_false_iff in Ed; rewrite Ed; by rewrite ?orb_true_r. }
  eapply runs_then; [apply runs_epoch_matches|]. intros ok _. destruct ok; cbn [negb].
  2:{ eapply (runs_bind _ _ _ (same (fun j => K j + batches_held b j) (fun _ => True))).
      - apply runs_when; intros E.
        + apply runs_release; [intros j; rewrite Hk; lia|]. intros j. specialize (HB j). pose proof (batches_held_bound B b j Hb). lia.
        + apply negb_false_iff, bool_decide_eq_true in E. split; [|done]. by intros j; apply Hk'.
      - intros _ k [Ek _]. by apply Ret. }
  eapply runs_then; [apply runs_context|]. intros c (Hlocal&_).
  destruct (Z.eqb_spec (th_destination_node_id (rx_header x)) (cx_local_node_id c)) as [Hdst|Hdst].
  { by apply runs_dispatch_local. }
  assert (rx_completed_packet x = None) as Hc.
  { destruct (rx_completed_packet x) eqn:Ec; [|done]. destruct (so_completed _ _ Hx) as (_&_&E); [by rewrite Ec|congruence]. }
  destruct (_ =? _); cbn [negb]; [|apply Ret; auto].
  destruct b as [ds [l|]]; [|apply Ret; auto]. case_bool_decide as Hs; cbn [negb]; [|apply Ret; auto].
  cbn in Hr. subst relay. pose proof (so_class _ _ Hx Hd eq_refl) as Hcl.
  destruct (rx_fragmented x); cbn [negb]; [apply runs_dispatch_pair; auto|].
  destruct (class_row _ _ _ _ Hb Hcl) as (rows&Hrows&Hok).
  eapply runs_bind; [by eapply (runs_of_option keep _ _ (fun a k' => a = rows /\ k' = keep)); [exact Hrows|]|]. intros ? ? [-> ->].
  eapply runs_bind; [apply (runs_append_forward _ _ rows B (fun j => K j + batches_held (ds, Some l) j - rows_held fi_packet rows j) keep)|].
  - intros j. pose proof (forward_row_held ds l _ _ j Hrows). pose proof (HB j). lia.
  - done.
  - done.
  - intros j. rewrite Hk' by done. lia.
  - intros rows' k' Hap. apply runs_ret. by apply (put_forward_ok B K ds l _ rows rows').
Qed.

(** The frames of a chunk and their states. *)
Definition frames_ok (relay : bool) (B : refs_t) (packets : list (option pkt_ptr)) (states : list linkg_transport_rx_state) : Prop :=
  length packets = length states /\ Forall (state_ok relay) states /\ forall i, Some i ∈ packets -> 0 < B i.

Lemma runs_dispatch_batch relay packets : forall states b stats B K keep,
  (length states <= 64)%nat ->
  (forall j, 0 <= B j <= K j /\ K j + Z.of_nat (length states) <= 2 ^ 30 + 2 ^ 15) ->
  batches_ok B b -> relays b = relay -> frames_ok relay B packets states ->
  (forall j, keep j = K j + completed_held states j + batches_held b j) ->
  runs keep (_linkg_transport_rx_dispatch_batch env packets states b stats)
    (fun r k => batches_ok B (snd (fst r)) /\ relays (snd (fst r)) = relay /\ forall j, k j = K j + batches_held (snd (fst r)) j).
Proof.
  induction packets as [|packet packets IH]; intros [|x states] b stats B K keep Hlen HB Hb Hr (Hl&Hs&Hp) Hk; try done; cbn [_linkg_transport_rx_dispatch_batch].
  { apply runs_ret. splits; [done|done|]. intros j. rewrite Hk. unfold completed_held. cbn. lia. }
  apply Forall_cons in Hs as [Hx Hs]. cbn [length] in *.
  assert (forall j, completed_held (x :: states) j = held_opt (rx_completed_packet x) j + completed_held states j) as Ec by done.
  eapply runs_bind; [apply (runs_dispatch_one relay packet x b stats B (fun j => K j + completed_held states j) keep); [|done|done|done| |]|].
  - intros j. pose proof (completed_held_range states j). specialize (HB j). lia.
  - intros i ->. apply Hp. by left.
  - intros j. rewrite Hk, Ec. lia.
  - intros [[x' b'] stats'] k (_&Hb'&Hr'&Ek). cbn [fst snd] in *.
    eapply runs_bind; [apply (IH states b' stats' B K k); [lia| |done|done| |intros j; rewrite Ek; lia]|].
    + intros j. specialize (HB j). lia.
    + split; [lia|]. split; [done|]. intros i Hi. apply Hp. by right.
    + intros [[states' b2] st2] k2 Hk2. by apply runs_ret.
Qed.

(** The batches of the types, flushed in turn: only the unused one is left. *)
Lemma runs_flush_deliveries ds fw B K keep :
  (forall j, 0 <= B j <= K j) -> batches_ok B (ds, fw) -> (forall j, keep j = K j + sumZ (fun rows => rows_held dl_packet rows j) ds) ->
  runs keep (_linkg_transport_rx_flush_deliveries env ds) (same K (fun ds' => ds' = no_deliveries)).
Proof.
  intros HB Hb Hk. pose proof (bo_types _ _ Hb) as Hl. pose proof (bo_none _ _ Hb) as Hn. cbn in Hl, Hn.
  destruct ds as [|d0 [|d1 [|d2 [|d3 [|]]]]]; try done. injection Hn as ->.
  assert (forall t rows B' keep', [[]; d1; d2; d3] !! t = Some rows -> (forall j, B j <= B' j) ->
    (forall j, keep' j = B' j + rows_held dl_packet rows j) ->
    runs keep' (batch ← of_option ([[]; d1; d2; d3] !! t); _linkg_transport_rx_flush_delivery env (Z.of_nat t) batch) (same B' (fun _ => True))) as Flush.
  { intros t rows B' keep' Ht HB' Hk'. eapply runs_bind; [by eapply (runs_of_option keep' _ _ (fun a k' => a = rows /\ k' = keep')); [exact Ht|]|].
    intros ? ? [-> ->]. apply runs_flush_delivery; [|eapply rows_ok_mono; [exact HB'|by eapply (bo_rows _ _ Hb)]|done].
    intros j. specialize (HB j). specialize (HB' j). lia. }
  unfold _linkg_transport_rx_flush_deliveries. change (seqZ _ _) with [1; 2; 3]. cbn [mfor].
  set (h := fun d j => rows_held dl_packet d j).
  assert (forall d j, 0 <= h d j) as Hh by (intros d j; apply rows_held_range).
  eapply (runs_bind _ _ _ (same K (fun _ => True))).
  - eapply runs_bind; [apply (Flush 1%nat d1 (fun j => K j + h d2 j + h d3 j)); [done| |]|].
    { intros j. pose proof (Hh d2 j). pose proof (Hh d3 j). specialize (HB j). lia. }
    { intros j. rewrite Hk. cbn. unfold h. lia. }
    intros _ k1 [E1 _]. eapply runs_bind; [apply (Flush 2%nat d2 (fun j => K j + h d3 j)); [done| |]|].
    { intros j. pose proof (Hh d3 j). specialize (HB j). lia. }
    { intros j. rewrite E1. unfold h. lia. }
    intros _ k2 [E2 _]. eapply runs_bind; [apply (Flush 3%nat d3 K); [done| |]|].
    { intros j. specialize (HB j). lia. }
    { intros j. by rewrite E2. }
    intros _ k3 [E3 _]. by apply runs_ret.
  - intros _ k [Ek _]. by apply runs_ret.
Qed.

(** ** Reassembly *)

(** The submitted items carry the indices of their states, each once. *)
Lemma collect_indices {A} (test : linkg_transport_rx_state -> bool) (make : linkg_transport_rx_state -> option pkt_ptr -> A)
    (l : list (linkg_transport_rx_state * option pkt_ptr)) : forall ix : nat -> nat, (forall a b, ix a = ix b -> a = b) ->
  let c := omap (fun '(index, (state, packet)) => if test state then Some (index, make state packet) else None)
             (imap (fun i x => (ix i, x)) l) in
  NoDup (fst <$> c) /\ (length c <= length l)%nat /\
  (forall i a, (i, a) ∈ c -> exists n x p, i = ix n /\ l !! n = Some (x, p) /\ test x = true /\ a = make x p).
Proof.
  induction l as [|[x p] l IH]; intros ix Hix; cbn.
  { splits; [constructor|lia|]. intros i a H. by apply elem_of_nil in H. }
  destruct (IH (fun n => ix (S n)) ltac:(intros a b E; apply Hix in E; lia)) as (Hn&Hl&Hin).
  unfold compose in *. cbn in *. set (c := omap _ _) in *. fold c.
  assert (forall i a, (i, a) ∈ c -> exists n x0 p0, i = ix n /\ ((x, p) :: l) !! n = Some (x0, p0) /\ test x0 = true /\ a = make x0 p0) as Hin'.
  { intros i a H. destruct (Hin i a H) as (n&x0&p0&->&?&?&?). by exists (S n), x0, p0. }
  destruct (test x) eqn:Et; [|splits; [done|lia|done]]. splits; [|cbn; lia|].
  - cbn. constructor; [|done]. intros H. apply list_elem_of_fmap in H as ([i a]&E&H). cbn in E. destruct (Hin i a H) as (n&x0&p0&->&_).
    apply Hix in E. lia.
  - intros i a [[= -> ->]|H]%elem_of_cons; [by exists 0%nat, x, p|by apply Hin'].
Qed.

Lemma collect_spec {A} test (make : linkg_transport_rx_state -> option pkt_ptr -> A) packets states :
  length packets = length states ->
  NoDup (fst <$> collect test make packets states) /\ (length (collect test make packets states) <= length states)%nat /\
  (forall i a, (i, a) ∈ collect test make packets states ->
     exists x p, states !! i = Some x /\ packets !! i = Some p /\ test x = true /\ a = make x p).
Proof.
  intros Hl. destruct (collect_indices test make (zip states packets) (fun i => i) ltac:(done)) as (H1&H2&H3).
  split; [done|]. split.
  - etrans; [exact H2|]. rewrite length_zip_with. lia.
  - intros i a H. destruct (H3 i a H) as (n&x&p&->&Hz&?&?). apply lookup_zip_with_Some in Hz as (x'&p'&[= -> ->]&?&?). by exists x', p'.
Qed.

Lemma completed_held_insert states i x y j :
  states !! i = Some x ->
  completed_held (<[i := y]> states) j = completed_held states j - held_opt (rx_completed_packet x) j + held_opt (rx_completed_packet y) j.
Proof. intros H. unfold completed_held. by rewrite (sumZ_insert _ _ _ _ _ H). Qed.

(** The states of the items still to finish. *)
Definition waiting (items : list (nat * TransportReassembly.linkg_transport_reassembly_submit_item))
    (states : list linkg_transport_rx_state) : Prop :=
  NoDup (fst <$> items) /\ forall i it, (i, it) ∈ items ->
    exists x, states !! i = Some x /\ reassembles (rv_local_node_id env) x = true /\ rx_completed_packet x = None.

Definition item_held (item : nat * TransportReassembly.linkg_transport_reassembly_submit_item) (j : nat) : Z :=
  held_opt (TransportReassembly.ri_completed_packet (snd item)) j.

Lemma waiting_cons i it items states y :
  waiting ((i, it) :: items) states -> waiting items (<[i := y]> states).
Proof.
  intros [Hn Hw]. cbn in Hn. apply NoDup_cons in Hn as [Hi Hn]. split; [done|]. intros k kt Hk.
  destruct (Hw k kt ltac:(by right)) as (x&?&?&?). exists x. split; [|done]. rewrite list_lookup_insert_ne; [done|].
  intros ->. apply Hi, list_elem_of_fmap. by exists (k, kt).
Qed.

Lemma Forall_insert_state relay states i y :
  Forall (state_ok relay) states -> state_ok relay y -> Forall (state_ok relay) (<[i := y]> states).
Proof. intros H Hy. by apply Forall_insert. Qed.

Lemma state_ok_idle relay x g : rx_completed_packet x = None ->
  g <> ACCEPTED -> g <> REORDER_READY -> g <> REASSEMBLY_READY -> state_ok relay (xset_stage g x).
Proof.
  intros Hc H1 H2 H3. assert (dispatchable (xset_stage g x) = false) as E.
  { unfold dispatchable. cbn. by rewrite !bool_decide_false. }
  split; [by rewrite E|by rewrite E|done].
Qed.

(** The verdict on one reassembled item, as the new state of its frame. *)
Definition finished (relay : bool) (B : refs_t) (i : nat) (states : list linkg_transport_rx_state)
    (r : list linkg_transport_rx_state * linkg_transport_rx_batch_stats) (k : refs_t) : Prop :=
  exists y, fst r = <[i := y]> states /\ state_ok relay y /\ forall j, k j = B j + held_opt (rx_completed_packet y) j.

Lemma runs_finish_item relay ret i it states stats x B keep :
  states !! i = Some x -> state_ok relay x -> reassembles (rv_local_node_id env) x = true -> rx_completed_packet x = None ->
  (forall j, 0 <= B j) -> (forall j, keep j = B j + held_opt (TransportReassembly.ri_completed_packet it) j) ->
  runs keep (finish_item env ret i it states stats) (finished relay B i states).
Proof.
  intros Hi Hx Hr Hc HB Hk.
  assert (forall g k st, g <> ACCEPTED -> g <> REORDER_READY -> g <> REASSEMBLY_READY -> (forall j, k j = B j) ->
    runs k (mret (alter (xset_stage g) i states, st)) (finished relay B i states)) as Idle.
  { intros g k st H1 H2 H3 Ek. apply runs_ret. exists (xset_stage g x). cbn [fst]. rewrite (alter_lookup _ _ _ _ Hi).
    split; [done|]. split; [by apply state_ok_idle|]. intros j. rewrite Ek. cbn. rewrite Hc. cbn. lia. }
  assert (forall code, runs keep (drop_item env code i it states stats) (finished relay B i states)) as Drop.
  { intros code. unfold drop_item. eapply (runs_bind _ _ _ (same B (fun _ => True))).
    - apply runs_when; intros E; [by apply runs_release|].
      apply negb_false_iff, bool_decide_eq_true in E. split; [|done]. intros j. rewrite Hk, E. cbn. lia.
    - intros _ k [Ek _]. by apply Idle. }
  unfold finish_item. destruct (ret =? 0); cbn [negb]; [|exact (Drop _)].
  destruct (_ && _) eqn:E0.
  { apply andb_true_iff in E0 as [_ E]. apply bool_decide_eq_true in E. apply Idle; try done. intros j. rewrite Hk, E. cbn. lia. }
  destruct ((TransportReassembly.ri_result it =? 1) && _); [|exact (Drop _)].
  apply runs_ret. eexists. cbn [fst]. rewrite (alter_lookup _ _ _ _ Hi). split; [done|].
  unfold reassembles in Hr. zb. assert (dispatchable x = true) as Hd by (unfold dispatchable; by rewrite orb_true_iff; left).
  split; [|by intros j; rewrite Hk]. split; cbn.
  - intros _. by apply (so_type _ _ Hx).
  - intros _. by apply (so_class _ _ Hx).
  - done.
Qed.

Lemma runs_finish_items relay ret items : forall states stats B keep,
  Forall (state_ok relay) states -> waiting items states -> (forall j, 0 <= B j) ->
  (forall j, keep j = B j + completed_held states j + sumZ (fun it => item_held it j) items) ->
  runs keep (finish_items env ret items states stats)
    (fun r k => length (fst r) = length states /\ Forall (state_ok relay) (fst r) /\ forall j, k j = B j + completed_held (fst r) j).
Proof.
  induction items as [|[i it] items IH]; intros states stats B keep Hs Hw HB Hk; cbn [finish_items].
  { apply runs_ret. splits; [done|done|]. intros j. rewrite Hk. cbn [sumZ fst]. lia. }
  destruct (proj2 Hw i it ltac:(by left)) as (x&Hi&Hr&Hc).
  assert (forall j, 0 <= sumZ (fun it => item_held it j) items) as Hrest by (intros j; apply sumZ_nonneg; intros; apply held_opt_range).
  eapply runs_bind; [apply (runs_finish_item relay ret i it states stats x (fun j => B j + completed_held states j + sumZ (fun it => item_held it j) items) keep Hi)|].
  - by eapply (Forall_lookup_1 _ _ _ _ Hs).
  - done.
  - done.
  - intros j. pose proof (completed_held_range states j). specialize (HB j). specialize (Hrest j). lia.
  - intros j. rewrite Hk. cbn [sumZ]. unfold item_held at 1. cbn [snd]. lia.
  - intros [states' st'] k (y&->&Hy&Ek). cbn [fst snd].
    eapply runs_mono; [apply (IH (<[i := y]> states) st' B k); [by apply Forall_insert_state|by eapply waiting_cons|done|]|].
    + intros j. rewrite Ek, (completed_held_insert _ _ _ _ _ Hi), Hc. cbn. lia.
    + intros r k' (Hl&H'). rewrite length_insert in Hl. by split.
Qed.

Lemma completed_none states j : Forall (fun x => rx_completed_packet x = None) states -> completed_held states j = 0.
Proof.
  intros H. unfold completed_held. induction H as [|x l Hx _ IH]; [done|]. cbn [sumZ]. rewrite Hx, IH. done.
Qed.

(** Reassembling a chunk: the completed packets come with their references. *)
Lemma runs_reassemble relay packets states stats keep :
  (length states <= 32)%nat -> (forall j, 0 <= keep j /\ keep j + 32 <= keep_max) -> frames_ok relay keep packets states ->
  Forall (fun x => rx_completed_packet x = None) states ->
  runs keep (_linkg_transport_rx_reassemble_batch env packets states stats)
    (fun r k => length (fst r) = length states /\ Forall (state_ok relay) (fst r) /\ forall j, k j = keep j + completed_held (fst r) j).
Proof.
  intros Hlen HB (Hl&Hs&Hp) Hc. unfold _linkg_transport_rx_reassemble_batch.
  eapply runs_then; [apply runs_context|]. intros c (Hlocal&_). rewrite Hlocal.
  destruct (collect_spec (reassembles (rv_local_node_id env)) reassembly_item packets states Hl) as (Hn&Hcl&Hcol).
  set (submitted := collect _ _ _ _) in *. case_bool_decide as Hne.
  { apply runs_ret. splits; [done|done|]. intros j. cbn [fst]. rewrite completed_none by done. lia. }
  eapply runs_then; [apply runs_interfere|]. intros n _.
  rewrite <- (length_fmap snd submitted). eapply runs_bind; [apply (runs_reassembly keep)|].
  - intros E. by apply fmap_nil_inv in E.
  - rewrite length_fmap. lia.
  - intros j. apply HB.
  - intros it i Hit Hi. apply list_elem_of_fmap in Hit as ([k a]&->&Ha). destruct (Hcol k a Ha) as (x&p&_&Hpk&_&->).
    cbn in Hi. subst p. apply Hp. by eapply list_elem_of_lookup_2.
  - intros it Hit. apply list_elem_of_fmap in Hit as ([k a]&->&Ha). by destruct (Hcol k a Ha) as (x&p&_&_&_&->).
  - intros [code o] k (items'&Eo&Hl'&Ek). cbn [fst snd] in *. rewrite Eo. cbn [default from_option]. unfold id. rewrite length_fmap in Hl'.
    eapply runs_mono; [apply (runs_finish_items relay code _ states stats keep k); [done| |apply HB|]|].
    + split; [rewrite fst_zip; [done|rewrite length_fmap; lia]|]. intros i it Hit.
      assert (i ∈ fst <$> submitted) as Hi. { rewrite <- (fst_zip (fst <$> submitted) items') by (rewrite length_fmap; lia). apply list_elem_of_fmap. by exists (i, it). }
      apply list_elem_of_fmap in Hi as ([i' a]&->&Ha). destruct (Hcol i' a Ha) as (x&p&Hx&_&Ht&_). exists x.
      split; [done|]. split; [done|]. by eapply (Forall_lookup_1 _ _ _ _ Hc).
    + intros j. rewrite Ek, completed_none by done. unfold completed_refs.
      rewrite <- (snd_zip (fst <$> submitted) items') at 1 by (rewrite length_fmap; lia). rewrite sumZ_fmap. unfold item_held. lia.
    + done.
Qed.

(** ** Frames emitted by the reorder windows *)

Lemma state_ok_dropped relay : state_ok relay (xset_stage DROPPED rx_state_zero).
Proof. by apply state_ok_idle. Qed.

Lemma state_ok_emitted frame : type_ok frame -> state_ok false (emitted_state frame).
Proof. intros Ht. by split. Qed.

Lemma runs_emitted_states frames : forall stats keep,
  (forall f, f ∈ frames -> type_ok f /\ exists i, rf_packet f = Some i /\ 0 < keep i) ->
  runs keep (emitted_states env frames stats)
    (same keep (fun r => length (snd (fst r)) = length frames /\ frames_ok false keep (fst (fst r)) (snd (fst r)) /\
       Forall (fun x => rx_completed_packet x = None) (snd (fst r)))).
Proof.
  induction frames as [|frame frames IH]; intros stats keep Hf; cbn [emitted_states].
  { apply runs_ret. split; [done|]. cbn. splits; [done| |constructor]. split; [done|]. split; [constructor|]. intros i Hi. by apply elem_of_nil in Hi. }
  pose proof (fun st => IH st keep (fun f Hin => Hf f ltac:(by right))) as IH'. destruct (Hf frame ltac:(left)) as (Ht&i&Hi&Hk).
  assert (forall p x (r : list (option pkt_ptr) * list linkg_transport_rx_state * linkg_transport_rx_batch_stats), (p = None \/ p = Some i) -> state_ok false x -> rx_completed_packet x = None ->
    length (snd (fst r)) = length frames /\ frames_ok false keep (fst (fst r)) (snd (fst r)) /\
      Forall (fun x => rx_completed_packet x = None) (snd (fst r)) ->
    forall st : linkg_transport_rx_batch_stats,
    runs keep (mret (p :: fst (fst r), x :: snd (fst r), st)) (same keep (fun r => length (snd (fst r)) = length (frame :: frames) /\
      frames_ok false keep (fst (fst r)) (snd (fst r)) /\ Forall (fun x => rx_completed_packet x = None) (snd (fst r))))) as Cons.
  { intros p x [[ps xs] st0] Hp Hx Hc (Hl&(Hl2&Hs&Hb)&Hn) st. apply runs_ret. split; [done|]. cbn in *. splits; [lia| |by constructor].
    split; [cbn; lia|]. split; [by constructor|]. intros k [E|Hin]%elem_of_cons; [|by apply Hb].
    destruct Hp as [->| ->]; [done|]. injection E as ->. done. }
  rewrite Hi. cbn [orb]. rewrite bool_decide_false by done. cbn [orb].
  destruct (bool_decide (rf_peer frame = None)).
  - eapply runs_then; [apply IH'|]. intros [[ps xs] st] Hr. apply (Cons None _ (ps, xs, st)); [by left|apply state_ok_dropped|done|done].
  - eapply runs_then; [apply runs_epoch_matches|]. intros ok _. destruct ok; cbn [negb]; (eapply runs_then; [apply IH'|]); intros [[ps xs] st] Hr.
    + apply (Cons (Some i) _ (ps, xs, st)); [by right|by apply state_ok_emitted|done|done].
    + apply (Cons None _ (ps, xs, st)); [by left|apply state_ok_dropped|done|done].
Qed.

Lemma no_deliveries_ok B : batches_ok B (no_deliveries, None).
Proof.
  split; try done. intros t rows H. cbn in H. apply lookup_replicate_1 in H as [-> _]. apply rows_ok_nil.
Qed.

(** Emission returns, and gives back no reference it did not take. *)
Lemma runs_emit frames keep :
  (forall j, 0 <= keep j <= emit_room) ->
  (forall f, f ∈ frames -> type_ok f /\ exists i, rf_packet f = Some i /\ 0 < keep i) ->
  runs keep (linkg_transport_rx_emit_reordered env frames) (same keep (fun _ => True)).
Proof.
  intros Hk Hf. unfold linkg_transport_rx_emit_reordered. destruct (_ || _) eqn:Elen; [by apply runs_ret|].
  apply orb_false_iff in Elen as [_ Elen]. unfold LINKG_TRANSPORT_RX_BATCH_CHUNK_SIZE in Elen. zb.
  eapply runs_then; [by apply runs_emitted_states|]. intros [[packets states] stats] (Hl&Hok&Hc). cbn [fst snd] in *.
  pose proof Hk as Hroom. unfold emit_room in Hroom.
  eapply runs_bind; [apply (runs_reassemble false packets states stats keep); [lia| |done|done]|].
  { intros j. specialize (Hroom j). unfold keep_max. lia. }
  intros [states' stats'] k (Hl'&Hs'&Ek). cbn [fst snd] in *.
  eapply runs_bind; [apply (runs_dispatch_batch false packets states' (no_deliveries, None) stats' keep keep k)|].
  - lia.
  - intros j. specialize (Hroom j). lia.
  - apply no_deliveries_ok.
  - done.
  - destruct Hok as (Hl0&_&Hp). split; [lia|]. by split.
  - intros j. rewrite Ek. change (batches_held (no_deliveries, None) j) with 0. lia.
  - intros [[states2 [ds [l|]]] stats2] k2 (Hb&Hrel&E2); cbn [fst snd] in *; [done|].
    eapply runs_bind; [apply (runs_flush_deliveries ds None keep keep k2); [|done|]|].
    + intros j. specialize (Hk j). lia.
    + intros j. rewrite E2. unfold batches_held. cbn. lia.
    + intros ds' k3 [E3 _]. eapply runs_ext; [exact E3|]. apply runs_record_stats.
Qed.
End Runs.

(** ** The contract of the reorder windows *)

Lemma emit_contract {C} (env : rx_env C) (step : refs_t -> refs_t -> Prop) :
  PreOrder step -> mutex_ok (rv_mutex env) -> rx_rely env step ->
  emit_ok (PS := core_store env) step (linkg_transport_rx_emit_reordered env).
Proof.
  intros Hstep Hmx Hrely st fs keep theirs I B Hk Hf.
  assert (core_ok env keep theirs st) as Hs.
  { split; [done|]. split; [done|]. intros j. specialize (Hk j). unfold emit_room, keep_max in *. lia. }
  pose proof (runs_emit env step Hmx Hrely fs keep Hk Hf theirs st Hs) as H.
  apply wp_elim in H as (u&s'&E&k&theirs'&[Ek _]&Ht&I'&B'&_).
  destruct u. exists s', theirs'. splits; try done. intros j. rewrite <- Ek. apply B'.
Qed.

(** C8: the callback that delivers the frames a reorder window gives out keeps
    the windows' contract: whatever the other threads, the node and the handlers
    do within their own contracts, it returns, keeps the invariant of the pool,
    of both caches and of the record of handler calls, and holds exactly the
    references it held before: every reference that reassembling and delivering
    took was released. *)
Theorem emit_reordered_ok {C} (env : rx_env C) (step : refs_t -> refs_t -> Prop) :
  PreOrder step -> mutex_ok (rv_mutex env) -> rx_rely env step ->
  emit_ok (PS := core_store env) step (linkg_transport_rx_emit_reordered env).
Proof. apply emit_contract. Qed.
