(* ===== verification/TransportRxBatch.v ===== *)
(** * The receive pipeline: a received batch

    The remaining stages (attribution, decoding, windows, relay flush) under the
    triples of [TransportRxSafety], the pipeline over the reorder runtime, and
    the soundness of [linkg_transport_receive_batch] under interference. *)

From S2P Require Import Prelude.
From S2P Require Import PacketStore.
From S2P Require Import PacketPool.
From S2P Require Import PacketData.
From S2P Require Import TransportReorderRuntime.
From S2P Require Import TransportReorderSafety.
From S2P Require Import TransportReorderSubmit.
From S2P Require Import TransportReorderWorker.
From S2P Require Import LinkPath.
From S2P Require Import Link.
From S2P Require Import TransportTypes.
From S2P Require Import TransportWindow.
From S2P Require Import TransportWire.
From S2P Require Import TransportPeer.
From S2P Require Import TransportReorder.
From S2P Require Import TransportRx.
From S2P Require Import TransportRxAccept.
From S2P Require Import TransportRxSafety.
From S2P Require TransportReassembly.
From S2P Require TransportForward.
From S2P Require TransportPeerLife.

Section Stages.
Context {C : Type} (env : rx_env C) (step : refs_t -> refs_t -> Prop) {Hstep : PreOrder step}.
Context (Hmx : mutex_ok (rv_mutex env)) (Hrely : rx_rely env step).

Local Abbreviation runs := (TransportRxSafety.runs env step).
Local Abbreviation runs_ret := (@TransportRxSafety.runs_ret C env step Hstep).
Local Abbreviation runs_bind := (@TransportRxSafety.runs_bind C env step Hstep).
Local Abbreviation runs_then := (@TransportRxSafety.runs_then C env step Hstep).
Local Abbreviation runs_of_option := (@TransportRxSafety.runs_of_option C env step Hstep).
Local Abbreviation runs_context := (@TransportRxSafety.runs_context C env step Hstep).
Local Abbreviation runs_observe := (@TransportRxSafety.runs_observe C env step Hstep).
Local Abbreviation runs_interfere := (@TransportRxSafety.runs_interfere C env step Hstep).
Local Abbreviation runs_lock := (@TransportRxSafety.runs_lock C env step Hstep).
Local Abbreviation runs_unlock := (@TransportRxSafety.runs_unlock C env step Hstep).
Local Abbreviation runs_packet_at := (@TransportRxSafety.runs_packet_at C env step Hstep).
Local Abbreviation runs_decode := (@TransportRxSafety.runs_decode C env step Hstep).
Local Abbreviation runs_fragment_decode := (@TransportRxSafety.runs_fragment_decode C env step Hstep).
Local Abbreviation runs_record_stats := (@TransportRxSafety.runs_record_stats C env step Hstep).
Local Abbreviation runs_flush_forward := (@TransportRxSafety.runs_flush_forward C env step Hstep).
Local Abbreviation runs_flush_deliveries := (@TransportRxSafety.runs_flush_deliveries C env step Hstep).
Local Abbreviation runs_reassemble := (@TransportRxSafety.runs_reassemble C env step Hstep).
Local Abbreviation runs_dispatch_batch := (@TransportRxSafety.runs_dispatch_batch C env step Hstep).

(** ** Attribution and decoding *)

(** A frame that was not decoded yet: its group exists. *)
Definition fresh (n : nat) (x : linkg_transport_rx_state) : Prop :=
  rx_completed_packet x = None /\ (rx_stage x = INVALID \/ rx_stage x = DROPPED) /\
  (rx_source_group_index x = LINKG_TRANSPORT_RX_SOURCE_GROUP_INVALID \/ 0 <= rx_source_group_index x < Z.of_nat n).

(** A frame between two stages: no packet of its own, and known good once decoded. *)
Definition fit (x : linkg_transport_rx_state) : Prop :=
  rx_completed_packet x = None /\
  (dispatchable x = true \/ rx_stage x = DECODED ->
     header_good (rx_header x) /\ 0 <= rx_traffic_class x < LINKG_TRANSPORT_CLASS_COUNT /\ 0 <= rx_source_group_index x).

Lemma fit_state_ok x : fit x -> state_ok env true x.
Proof. intros [Hc Hg]. split; [| |done]; intros Hd; [|intros _]; by destruct (Hg (or_introl Hd)) as ([? _]&?&_). Qed.

Lemma fresh_mono n m x : (n <= m)%nat -> fresh n x -> fresh m x.
Proof. intros Hm (?&?&[?|?]); (split; [done|split; [done|]]); [by left|right; lia]. Qed.

Lemma group_find_le source groups : forall i, (i <= group_find source groups i <= i + length groups)%nat.
Proof.
  induction groups as [|g groups IH]; intros i; cbn [group_find length]; [lia|]. destruct (_linkg_transport_rx_endpoint_equal _ _); [lia|].
  specialize (IH (S i)). lia.
Qed.

(** The packets of the items are held. *)
Definition items_held (keep : refs_t) (items : list linkg_link_rx_item) : Prop :=
  forall it i, it ∈ items -> li_packet it = Some i -> 0 < keep i.

Lemma runs_build_source_groups items : forall groups stats keep,
  items_held keep items -> (length groups <= 16)%nat ->
  runs keep (_linkg_transport_rx_build_source_groups items groups stats)
    (same keep (fun r => length (fst (fst r)) = length items /\ (length groups <= length (snd (fst r)) <= 16)%nat /\
       Forall (fresh (length (snd (fst r)))) (fst (fst r)))).
Proof.
  induction items as [|item items IH]; intros groups stats keep Hi Hg; cbn [_linkg_transport_rx_build_source_groups].
  { apply runs_ret. split; [done|]. cbn. splits; [done|lia|lia|constructor]. }
  assert (forall x groups' stats', fresh (length groups') x -> (length groups <= length groups' <= 16)%nat ->
    runs keep (r ← _linkg_transport_rx_build_source_groups items groups' stats'; let '(states, groups, stats) := r in mret (x :: states, groups, stats))
      (same keep (fun r => length (fst (fst r)) = length (item :: items) /\ (length groups <= length (snd (fst r)) <= 16)%nat /\
       Forall (fresh (length (snd (fst r)))) (fst (fst r))))) as Next.
  { intros x groups' stats' Hx Hg'. eapply runs_then; [apply IH; [intros it i Hit; apply Hi; by right|lia]|].
    intros [[states g2] st2] (Hl&Hg2&Hf). cbn [fst snd] in *. apply runs_ret. split; [done|]. cbn. splits; [lia|lia|lia|].
    constructor; [|done]. eapply fresh_mono; [|exact Hx]. lia. }
  assert (forall n, fresh n rx_state_init) as Hinit by (intros n; split; [done|]; split; [by left|by left]).
  destruct (li_packet item) as [i|] eqn:Ei; [|by apply Next].
  pose proof (group_find_le (li_source item) groups 0) as Hfind. set (gi := group_find (li_source item) groups 0) in *.
  destruct (_ && _) eqn:Efull.
  { apply Next; [|lia]. split; [done|]. split; [by right|by left]. }
  eapply runs_then; [apply runs_packet_at; apply (Hi item i); [by left|done]|]. intros k _.
  set (groups' := if (gi =? length groups)%nat then _ else _).
  assert ((gi < length groups')%nat /\ (length groups <= length groups' <= 16)%nat) as [Hgi Hlen].
  { unfold groups'. destruct (Nat.eqb_spec gi (length groups)) as [E|E]; [|lia]. rewrite length_app. cbn [length].
    cbn [andb] in Efull. apply Z.leb_gt in Efull. unfold LINKG_RESOURCE_NETWORK_STA_MAX in Efull. lia. }
  apply Next; [|by rewrite length_alter]. rewrite length_alter. split; [done|]. split; [by left|]. right. cbn. lia.
Qed.

Lemma runs_resolve link_id groups stats keep :
  runs keep (_linkg_transport_rx_resolve_source_groups env link_id groups stats)
    (same keep (fun r => length (fst r) = length groups)).
Proof.
  unfold _linkg_transport_rx_resolve_source_groups. case_bool_decide; [by apply runs_ret|].
  eapply runs_then; [by apply runs_interfere|]. intros n _. destruct (rv_account env n link_id (node_item <$> groups)) as [ret node_items] eqn:Ea.
  destruct (ret =? 0); cbn [negb]; apply runs_ret; (split; [done|]); cbn [fst]; [|done].
  pose proof (rl_account _ _ Hrely n link_id (node_item <$> groups)) as Hl. rewrite Ea, length_fmap in Hl. cbn in Hl.
  rewrite length_zip_with. lia.
Qed.

Lemma packet_class_range k : 0 <= _linkg_transport_rx_packet_class k < LINKG_TRANSPORT_CLASS_COUNT.
Proof. unfold _linkg_transport_rx_packet_class. repeat case_match; done. Qed.

Lemma fit_dropped x : rx_completed_packet x = None -> fit (xset_stage DROPPED x).
Proof. intros Hc. split; [done|]. by intros [Hd|Hd]. Qed.

Lemma runs_decode_one item groups state stats keep :
  fresh (length groups) state -> (forall i, li_packet item = Some i -> 0 < keep i) ->
  runs keep (decode_one item groups state stats) (same keep (fun r => fit (fst r))).
Proof.
  intros (Hc&Hst&Hgi) Hp. unfold decode_one.
  assert (forall x (st : linkg_transport_rx_batch_stats), rx_completed_packet x = None -> runs keep (mret (xset_stage DROPPED x, st)) (same keep (fun r => fit (fst r)))) as Drop.
  { intros x st Hx. apply runs_ret. split; [done|]. by apply fit_dropped. }
  destruct (li_packet item) as [i|]; [|by apply Drop]. specialize (Hp i eq_refl).
  destruct (Z.eqb_spec (rx_source_group_index state) LINKG_TRANSPORT_RX_SOURCE_GROUP_INVALID) as [|Hg]; [by apply Drop|].
  destruct Hgi as [|Hgi]; [done|].
  destruct (lookup_lt_is_Some_2 groups (Z.to_nat (rx_source_group_index state))) as [g Eg]; [lia|].
  eapply runs_then; [by apply (runs_of_option keep _ g (same keep (fun a => a = g)))|]. intros ? ->.
  destruct (sg_resolved g); cbn [negb]; [|by apply Drop].
  eapply runs_then; [by apply runs_packet_at|]. intros k _.
  eapply runs_then; [by apply runs_decode|]. intros [ret oh] Hh. cbn [fst snd] in *.
  destruct (Z.eqb_spec ret 0) as [Hret|]; cbn [negb]; [|by apply Drop]. destruct (Hh Hret) as (h&->&Hgood).
  eapply runs_then; [by apply (runs_of_option keep _ h (same keep (fun a => a = h)))|]. intros ? ->.
  assert (forall fr fh len (st : linkg_transport_rx_batch_stats), runs keep (mret (xset_stage DECODED (xset_body fh len (xset_header h fr
      (xset_origin (_linkg_transport_rx_packet_class k) (sg_peer_node_id g) state))), st)) (same keep (fun r => fit (fst r)))) as Good.
  { intros fr fh len st. apply runs_ret. split; [done|]. split; [done|]. intros _. split; [done|]. split; [apply packet_class_range|cbn; lia]. }
  destruct (negb _); [|apply Good].
  eapply runs_then; [by apply runs_fragment_decode|]. intros [ret2 ofh] Hfh. cbn [fst snd] in *.
  destruct (Z.eqb_spec ret2 0) as [Hret2|]; cbn [negb]; [|by apply Drop]. destruct (Hfh Hret2) as (fh&->).
  eapply runs_then; [by apply (runs_of_option keep _ fh (same keep (fun a => a = fh)))|]. intros ? ->. apply Good.
Qed.

Lemma runs_decode_batch items : forall states groups stats keep,
  length states = length items -> Forall (fresh (length groups)) states -> items_held keep items ->
  runs keep (_linkg_transport_rx_decode_batch items states groups stats)
    (same keep (fun r => length (fst r) = length items /\ Forall fit (fst r))).
Proof.
  induction items as [|item items IH]; intros [|x states] groups stats keep Hl Hf Hi; try done; cbn [_linkg_transport_rx_decode_batch].
  { apply runs_ret. by split. }
  apply Forall_cons in Hf as [Hx Hf]. eapply runs_then; [apply runs_decode_one; [done|intros i; apply (Hi item i); by left]|].
  intros [y st] Hy. cbn [fst snd] in *. eapply runs_then; [apply (IH states groups st keep); [by injection Hl|done|intros it i Hit; apply Hi; by right]|].
  intros [ys st2] [Hl2 Hys]. cbn [fst snd] in *. apply runs_ret. split; [done|]. cbn. split; [lia|by constructor].
Qed.

(** ** The receive windows *)

(** The verdict on a decoded frame keeps it fit. *)
Lemma fit_judged x p ep r g :
  fit x -> rx_stage x = DECODED -> g <> DECODED ->
  fit (xset_stage g (xset_window r (xset_peer p ep (xset_window WINDOW_INVALID x)))).
Proof. intros [Hc Hg] Hd _. split; [done|]. intros _. by apply Hg; right. Qed.

(** A class of a peer of the context. *)
Lemma peer_class_lookup keep theirs (s : rx_core C) i x :
  core_ok env keep theirs s -> (i < length (cx_peers (core_context s)))%nat -> 0 <= rx_traffic_class x < LINKG_TRANSPORT_CLASS_COUNT ->
  exists p c, cx_peers (core_context s) !! i = Some p /\ pr_classes p !! Z.to_nat (rx_traffic_class x) = Some c.
Proof.
  intros Hs Hi Hx. destruct (lookup_lt_is_Some_2 _ _ Hi) as [p Ep]. exists p.
  destruct (core_ok_context _ _ _ _ Hs) as (_&_&Hc). specialize (Hc p (list_elem_of_lookup_2 _ _ _ Ep)).
  destruct (lookup_lt_is_Some_2 (pr_classes p) (Z.to_nat (rx_traffic_class x))) as [c Ec]; [|by exists c].
  rewrite Hc. unfold LINKG_TRANSPORT_CLASS_COUNT in *. lia.
Qed.

Lemma core_ok_set_class keep theirs (s : rx_core C) i k p c :
  core_ok env keep theirs s -> cx_peers (core_context s) !! i = Some p ->
  core_ok env keep theirs (core_set_peers (<[i := set_classes (<[k := c]> (pr_classes p)) p]> (cx_peers (core_context s))) s).
Proof.
  intros Hs Ep. destruct (core_ok_context _ _ _ _ Hs) as (Hl&Hh&Hc). apply (core_ok_transport env keep theirs s); [done|].
  split; [done|]. split; [done|]. cbn. intros q Hq. apply list_elem_of_lookup in Hq as [j Hj].
  rewrite lookup_insert_case in Hj by (by eapply lookup_lt_Some). case_decide; [|by apply Hc, (list_elem_of_lookup_2 _ j)].
  injection Hj as <-. cbn. rewrite length_insert. by apply Hc, (list_elem_of_lookup_2 _ i).
Qed.

(** What accepting keeps. *)
Definition accepting_ok (keep theirs : refs_t) (gps : list (option peer_ptr * Z * bool)) (n : nat)
    (r : list linkg_transport_rx_state * linkg_transport_rx_batch_stats) (s : rx_core C) : Prop :=
  core_ok env keep theirs s /\ peers_in gps s /\ length (fst r) = n /\ Forall fit (fst r).

Lemma accept_one_safe keep theirs gps now n states index stats (s : rx_core C) :
  accepting_ok keep theirs gps n (states, stats) s -> (index < n)%nat ->
  wp (accept_one gps now states index stats) (accepting_ok keep theirs gps n) s.
Proof.
  intros (Hs&Hp&Hn&Hf) Hi. cbn [fst] in *. unfold accept_one. rewrite <- Hn in Hi. apply lookup_lt_is_Some in Hi as [x Ex].
  apply wp_bind. eapply wp_of_option; [exact Ex|]. pose proof (Forall_lookup_1 _ _ _ _ Hf Ex) as Hx.
  assert (forall y st s', core_ok env keep theirs s' -> peers_in gps s' -> fit y ->
    wp (mret (<[index := y]> states, st)) (accepting_ok keep theirs gps n) s') as Put.
  { intros y st s' Hs' Hp' Hy. apply wp_ret. split; [done|]. split; [done|]. cbn. rewrite length_insert. split; [done|]. by apply Forall_insert. }
  case_bool_decide as Hd; cbn [negb]; [|by apply wp_ret].
  destruct (proj2 Hx (or_intror Hd)) as (Hgood&Hcl&Hgi).
  assert (forall st, wp (mret (<[index := xset_stage DROPPED (xset_window WINDOW_INVALID x)]> states, st)) (accepting_ok keep theirs gps n) s) as Drop.
  { intros st. apply Put; [done|done|]. by apply fit_dropped, Hx. }
  destruct (_ || _) eqn:Eg; [apply Drop|]. apply orb_false_iff in Eg as [_ Eg]. apply Z.leb_gt in Eg. cbn [rx_source_group_index xset_window] in *.
  destruct (lookup_lt_is_Some_2 gps (Z.to_nat (rx_source_group_index x))) as [[[[peer|] epoch] q] Egp]; [lia| |];
    (apply wp_bind; eapply wp_of_option; [exact Egp|]); [|apply Drop].
  cbn [rx_traffic_class xset_window]. destruct (Z.leb_spec LINKG_TRANSPORT_CLASS_COUNT (rx_traffic_class x)); [lia|].
  destruct (peer_class_lookup _ _ _ peer x Hs (Hp _ _ _ _ Egp) Hcl) as (p&c&Ep&Ec).
  apply wp_bind. eapply wp_run; [by apply peer_read_run|]. apply wp_bind. eapply wp_of_option; [exact Ec|].
  destruct (class_accept _ _ _ _ _ _) as [r c'].
  apply wp_bind. eapply wp_run; [by apply (core_class_update_run s peer _ _ p c)|]. apply Put.
  - by apply core_ok_set_class.
  - eapply peers_in_same; [|exact Hp]. cbn. by rewrite length_insert.
  - apply fit_judged; [done|done|by destruct r].
Qed.

Lemma accept_loop_safe keep theirs gps now n indices : forall states stats (s : rx_core C),
  accepting_ok keep theirs gps n (states, stats) s -> (forall i, i ∈ indices -> (i < n)%nat) ->
  wp (accept_loop indices gps now states stats) (accepting_ok keep theirs gps n) s.
Proof.
  induction indices as [|i indices IH]; intros states stats s H Hi; cbn [accept_loop]; [by apply wp_ret|].
  apply wp_bind. eapply wp_mono; [by apply accept_one_safe, Hi; [|left]|]. intros [states' stats'] s' H'.
  apply IH; [done|]. intros j Hj. apply Hi. by right.
Qed.

Lemma runs_accept_batch states groups stats keep :
  Forall fit states ->
  runs keep (_linkg_transport_rx_accept_batch env states groups stats)
    (same keep (fun r => length (snd (fst r)) = length states /\ Forall fit (snd (fst r)))).
Proof.
  intros Hf. unfold _linkg_transport_rx_accept_batch. destruct (_ <? _); [by apply runs_ret|].
  destruct (existsb _ _); cbn [negb]; [|by apply runs_ret].
  eapply runs_then; [by apply runs_lock|]. intros ret _. destruct (ret =? 0); cbn [negb]; [|by apply runs_ret].
  intros theirs s Hs. apply wp_bind. apply (wp_run _ _ _ _ _ (eq_refl : context s = Some (core_context s, s))).
  destruct (observe_run s) as (n&s2&E2&C2&_). apply wp_bind. eapply wp_run; [exact E2|].
  assert (core_ok env keep theirs s2) as Hs2.
  { destruct s as [t r q tr]. pose proof (core_ok_context _ _ _ _ Hs) as Hc. injection E2 as _ <-. by apply (core_ok_transport env keep theirs (RxCore t r q tr)). }
  apply wp_bind. eapply wp_mono; [apply (accept_loop_safe keep theirs (group_peer (core_context s) <$> groups) (rv_elapsed_ms env n) (length states))|].
  - split; [done|]. split; [|done]. eapply peers_in_same; [|apply group_peers_in]. by rewrite C2.
  - intros i Hi%elem_of_seq. lia.
  - intros [states' stats'] s3 (Hs3&_&Hl&Hf3). cbn [fst snd] in *.
    eapply wp_mono; [eapply (runs_then keep (unlock env) _ (fun _ => True) (same keep (fun r => length (snd (fst r)) = length states /\ Forall fit (snd (fst r)))));
      [by apply runs_unlock|intros r _; by apply runs_ret|exact Hs3]|].
    done.
Qed.

(** ** The relay batches *)

Lemma runs_flush_forwards fw ds B K keep :
  (forall j, 0 <= B j <= K j) -> batches_ok B (ds, Some fw) -> (forall j, keep j = K j + sumZ (fun rows => rows_held fi_packet rows j) fw) ->
  runs keep (_linkg_transport_rx_flush_forwards env fw) (same K (fun _ => True)).
Proof.
  intros HB Hb Hk. pose proof (bo_classes _ _ Hb fw eq_refl) as Hl. destruct fw as [|d0 [|d1 [|d2 [|]]]]; try done.
  assert (forall t rows B' keep', [d0; d1; d2] !! t = Some rows -> (forall j, B j <= B' j) ->
    (forall j, keep' j = B' j + rows_held fi_packet rows j) ->
    runs keep' (batch ← of_option ([d0; d1; d2] !! t); _linkg_transport_rx_flush_forward env (Z.of_nat t) batch) (same B' (fun _ => True))) as Flush.
  { intros t rows B' keep' Ht HB' Hk'. eapply runs_bind; [by eapply (runs_of_option keep' _ _ (fun a k' => a = rows /\ k' = keep')); [exact Ht|]|].
    intros ? ? [-> ->]. apply runs_flush_forward; [done|done| |eapply rows_ok_mono; [exact HB'|by eapply (bo_relay _ _ Hb)]|done].
    intros j. specialize (HB j). specialize (HB' j). lia. }
  unfold _linkg_transport_rx_flush_forwards. change (seqZ _ _) with [0; 1; 2]. cbn [mfor].
  set (h := fun d j => rows_held fi_packet d j).
  assert (forall d j, 0 <= h d j) as Hh by (intros d j; apply rows_held_range).
  eapply runs_bind; [apply (Flush 0%nat d0 (fun j => K j + h d1 j + h d2 j)); [done| |]|].
  { intros j. pose proof (Hh d1 j). pose proof (Hh d2 j). specialize (HB j). lia. }
  { intros j. rewrite Hk. cbn. unfold h. lia. }
  intros _ k1 [E1 _]. eapply runs_bind; [apply (Flush 1%nat d1 (fun j => K j + h d2 j)); [done| |]|].
  { intros j. pose proof (Hh d2 j). specialize (HB j). lia. }
  { intros j. rewrite E1. unfold h. lia. }
  intros _ k2 [E2 _]. eapply runs_bind; [apply (Flush 2%nat d2 K); [done| |]|].
  { intros j. specialize (HB j). lia. }
  { intros j. by rewrite E2. }
  intros _ k3 [E3 _]. by apply runs_ret.
Qed.

End Stages.

(** ** Over the reorder runtime *)

Section Pipeline.
Context {C : Type} (env : rx_env C) (step : refs_t -> refs_t -> Prop) {Hstep : PreOrder step}.
Context (Hmx : mutex_ok (rv_mutex env)) (Hrely : rx_rely env step).
Context (reorder : reorder_env (rx_core C)) (fuel : nat).

Local Abbreviation runs_context := (@TransportRxSafety.runs_context C env step Hstep).
Local Abbreviation runs_mono := (@TransportRxSafety.runs_mono C env step).
Local Abbreviation runs_record_stats := (@TransportRxSafety.runs_record_stats C env step Hstep).
Local Abbreviation runs_flush_deliveries := (@TransportRxSafety.runs_flush_deliveries C env step Hstep).
Local Abbreviation runs_reassemble := (@TransportRxSafety.runs_reassemble C env step Hstep).
Local Abbreviation runs_dispatch_batch := (@TransportRxSafety.runs_dispatch_batch C env step Hstep).

#[local] Instance pipeline_store : PacketStore (rx_core C) := core_store env.
#[local] Instance pipeline_laws : PacketStoreLaws (rx_core C) := core_store_laws env Hmx.

(** The windows' lock: others keep the invariant while it is free, its clock does
    not overflow, and it can be released. *)
Record reorder_rely : Prop := {
  rr_others : forall n mine theirs s, guarded step mine theirs s ->
    exists theirs', step theirs theirs' /\ guarded step mine theirs' (en_others reorder n s);
  rr_clock : forall k, 0 <= en_clock reorder k < 2 ^ 63;
  rr_unlock : forall n, en_unlock reorder n = 0 }.

Context (Hreorder : reorder_rely).

Local Abbreviation runtime := (linkg_transport_reorder_runtime (rx_core C)).
Local Abbreviation RM := (M runtime).
Local Abbreviation CM := (M (rx_core C)).

(** Triples over the runtime: the references are those of the running call. *)
Definition flows {A} (M : refs_t) (m : RM A) (Q : A -> refs_t -> Prop) : Prop :=
  forall theirs s, guarded step M theirs s ->
    wp m (fun a s' => exists M' theirs', Q a M' /\ step theirs theirs' /\ guarded step M' theirs' s') s.

(** The same for a step that claims nothing when the fuel ran out. *)
Definition settles {A} (M : refs_t) (m : RM (option A)) (Q : A -> refs_t -> Prop) : Prop :=
  forall theirs s, guarded step M theirs s ->
    wp m (fun o s' => match o with None => True | Some a => exists M' theirs', Q a M' /\ step theirs theirs' /\ guarded step M' theirs' s' end) s.

Lemma settles_ret {A} M (a : A) (Q : A -> refs_t -> Prop) : Q a M -> settles M (mret (Some a)) Q.
Proof. intros H theirs s G. apply wp_ret. by exists M, theirs. Qed.

Lemma flows_bind {A B} M (m : RM A) (f : A -> RM B) (P : A -> refs_t -> Prop) (Q : B -> refs_t -> Prop) :
  flows M m P -> (forall a M', P a M' -> flows M' (f a) Q) -> flows M (mbind f m) Q.
Proof.
  intros Hm Hf theirs s G. apply wp_bind. eapply wp_mono; [by apply Hm|]. intros a s1 (M1&t1&Ha&Ht&G1).
  eapply wp_mono; [by apply (Hf a M1 Ha)|]. intros b s2 (M2&t2&Hb&Ht2&G2). exists M2, t2. split; [done|]. split; [by etrans|done].
Qed.

Lemma settles_bind {A B} M (m : RM A) (f : A -> RM (option B)) (P : A -> refs_t -> Prop) (Q : B -> refs_t -> Prop) :
  flows M m P -> (forall a M', P a M' -> settles M' (f a) Q) -> settles M (mbind f m) Q.
Proof.
  intros Hm Hf theirs s G. apply wp_bind. eapply wp_mono; [by apply Hm|]. intros a s1 (M1&t1&Ha&Ht&G1).
  eapply wp_mono; [by apply (Hf a M1 Ha)|]. intros [b|] s2; [|done]. intros (M2&t2&Hb&Ht2&G2). exists M2, t2. split; [done|]. split; [by etrans|done].
Qed.

Lemma settles_option {A B} M (m : RM (option A)) (f : A -> RM (option B)) (P : A -> refs_t -> Prop) (Q : B -> refs_t -> Prop) :
  settles M m P -> (forall a M', P a M' -> settles M' (f a) Q) ->
  settles M (o ← m; match o with None => mret None | Some a => f a end) Q.
Proof.
  intros Hm Hf theirs s G. apply wp_bind. eapply wp_mono; [by apply Hm|]. intros [a|] s1; [|intros _; by apply wp_ret]. intros (M1&t1&Ha&Ht&G1).
  eapply wp_mono; [by apply (Hf a M1 Ha)|]. intros [b|] s2; [|done]. intros (M2&t2&Hb&Ht2&G2). exists M2, t2. split; [done|]. split; [by etrans|done].
Qed.

Lemma flows_ext {A} M M' (m : RM A) (Q : A -> refs_t -> Prop) : (forall j, M j = M' j) -> flows M' m Q -> flows M m Q.
Proof. intros E H theirs s G. apply H. by eapply guarded_ext. Qed.

Lemma settles_ext {A} M M' (m : RM (option A)) (Q : A -> refs_t -> Prop) : (forall j, M j = M' j) -> settles M' m Q -> settles M m Q.
Proof. intros E H theirs s G. apply H. by eapply guarded_ext. Qed.

(** A stage below the windows, whose references [H] stay. *)
Lemma flows_below {A} M (m : CM A) (Q : A -> refs_t -> Prop) :
  (forall H, (forall j, 0 <= H j <= 4096) ->
     TransportRxSafety.runs env step (fun j => H j + M j) m
       (fun a k => exists M', Q a M' /\ (forall j, k j = H j + M' j) /\ forall j, 0 <= M' j <= 2 ^ 30)) ->
  flows M (below m) Q.
Proof.
  intros Hm theirs s (W&HM&B). pose proof (fun j => conj (rheld_nonneg s j) (rheld_le step s j W)) as HH. change (Z.of_nat class_total) with 48 in HH.
  assert (core_ok env (fun j => rheld s j + M j) theirs (rt_store s)) as Hs.
  { split; [apply W|]. split; [done|]. intros j. specialize (HM j). specialize (HH j). unfold keep_max. lia. }
  destruct (wp_elim _ _ _ (Hm (rheld s) ltac:(intros j; specialize (HH j); lia) theirs _ Hs)) as (a&c&E&k&theirs'&(M'&HQ&Ek&HM')&Ht&I'&B'&_).
  unfold below. eapply wp_run; [unfold zoom; by rewrite E|]. exists M', theirs'. split; [done|]. split; [done|].
  split; [|split; [done|]].
  - destruct W as [W1 W2 W3 W4 W5 W6]. by split.
  - intros j. change (rheld (rset_store c s) j) with (rheld s j). rewrite <- Ek. apply B'.
Qed.

Lemma flows_same {A} M (m : CM A) (P : A -> Prop) :
  (forall j, 0 <= M j <= 2 ^ 30) ->
  (forall keep, (forall j, M j <= keep j) -> TransportRxSafety.runs env step keep m (same keep P)) -> flows M (below m) (same M P).
Proof.
  intros HM Hm. apply flows_below. intros H HH. eapply runs_mono; [apply Hm; intros j; specialize (HH j); lia|].
  intros a k [Ek Ha]. exists M. by split.
Qed.

(** ** Ordering *)

(** A decoded frame's header, class and group. *)
Definition good (x : linkg_transport_rx_state) : Prop :=
  header_good (rx_header x) /\ 0 <= rx_traffic_class x < LINKG_TRANSPORT_CLASS_COUNT /\ 0 <= rx_source_group_index x.

Definition class_known (f : linkg_transport_reorder_frame) : Prop := in_range 32 (rf_traffic_class f).

Lemma foldl_alter_fit {R} (idx : R -> nat) (g : R -> linkg_transport_rx_state -> linkg_transport_rx_state) (rs : list R) :
  (forall r x, good x -> rx_completed_packet x = None -> fit (g r x) /\ good (g r x)) ->
  forall states, Forall fit states -> (forall r x, r ∈ rs -> states !! idx r = Some x -> good x) ->
  Forall fit (foldl (fun l r => alter (g r) (idx r) l) states rs) /\
  length (foldl (fun l r => alter (g r) (idx r) l) states rs) = length states.
Proof.
  intros Hg. induction rs as [|r rs IH]; intros states Hf Hr; cbn [foldl]; [done|].
  destruct (states !! idx r) as [x|] eqn:Ex.
  - pose proof (Forall_lookup_1 _ _ _ _ Hf Ex) as [Hc _]. destruct (Hg r x (Hr r x ltac:(left) Ex) Hc) as [Hfit Hgood].
    rewrite (alter_lookup _ _ _ _ Ex). destruct (IH (<[idx r := g r x]> states)) as [H1 H2]; [by apply Forall_insert| |by rewrite H2, length_insert].
    intros r' y Hr' Hy. rewrite lookup_insert_case in Hy by (by eapply lookup_lt_Some). case_decide; [by injection Hy as <-|].
    apply (Hr r' y); [by right|done].
  - assert (alter (g r) (idx r) states = states) as ->.
    { apply list_eq. intros j. destruct (decide (idx r = j)) as [<-|]; [by rewrite list_lookup_alter_eq, Ex|by rewrite list_lookup_alter_ne]. }
    apply IH; [done|]. intros r' y Hr'. apply Hr. by right.
Qed.

Lemma fit_stage g x : good x -> rx_completed_packet x = None -> fit (xset_stage g x).
Proof. intros Hx Hc. by split. Qed.

Lemma reordered_fit r x : good x -> rx_completed_packet x = None -> fit (reordered r x) /\ good (reordered r x).
Proof. intros Hx Hc. split; [|by destruct r]. split; [by destruct r|]. intros _. by destruct r. Qed.

Lemma ready_frames_known fr : forall pending,
  Forall (fun x => class_known (fst x)) fr -> Forall class_known pending -> Forall class_known (foldl ready_frame pending fr).
Proof.
  induction fr as [|[f r] fr IH]; intros pending Hf Hp; cbn [foldl]; [done|]. apply Forall_cons in Hf as [Hf1 Hf].
  apply IH; [done|]. unfold ready_frame, _linkg_transport_rx_record_reorder_ready. cbn [fst snd] in *.
  repeat case_match; try done. apply Forall_app. by split; [|constructor].
Qed.

Lemma settles_stage_reorder link_id packets states pending M :
  length packets = length states -> (length states <= 32)%nat -> Forall fit states -> (forall i, Some i ∈ packets -> 0 < M i) ->
  Forall class_known pending -> (forall j, 0 <= M j <= 2 ^ 29) ->
  settles M (_linkg_transport_rx_stage_user_reorder env reorder fuel link_id packets states pending)
    (fun r M' => (forall j, M' j = M j) /\ (Forall fit (fst r) /\ length (fst r) = length states) /\ Forall class_known (snd r)).
Proof.
  intros Hl Hlen Hf Hp Hpe HM. unfold _linkg_transport_rx_stage_user_reorder.
  eapply settles_bind; [apply (flows_same M context (fun _ => True)); [intros j; specialize (HM j); lia|]|].
  { intros keep _. eapply runs_mono; [apply runs_context|]. by intros a k [? _]. }
  intros x M0 [E0 _]. eapply settles_ext; [exact E0|].
  destruct (collect_spec (reorders (cx_local_node_id x)) (reorder_frame link_id) packets states Hl) as (Hn&Hcl&Hcol).
  set (staged := collect _ _ _ _) in *. case_bool_decide as Hne; [by apply settles_ret|]. set (frames := snd <$> staged).
  assert (forall i f, (i, f) ∈ staged -> exists y p, states !! i = Some y /\ good y /\ packets !! i = Some p /\ f = reorder_frame link_id y p) as Hst.
  { intros i f Hif. destruct (Hcol i f Hif) as (y&p&Hy&Hpp&Ht&->). exists y, p. split; [done|]. split; [|done].
    unfold reorders in Ht. apply andb_true_iff in Ht as [Ht _]. apply andb_true_iff in Ht as [Ht _]. apply andb_true_iff in Ht as [Ht _].
    apply (proj2 (Forall_lookup_1 _ _ _ _ Hf Hy)). left. unfold dispatchable. by rewrite Ht. }
  assert (forall f, f ∈ frames -> caller_frame M f) as Hcf.
  { intros f Hff. apply list_elem_of_fmap in Hff as ([i a]&->&Ha). destruct (Hst i a Ha) as (y&p&Hy&([Ht Hseq]&Hc&_)&Hpp&->). cbn [snd].
    split; [done| |done|].
    - cbn. unfold in_range, LINKG_TRANSPORT_CLASS_COUNT in *. lia.
    - intros q Hq. apply Hp. cbn in Hq. rewrite <- Hq. by eapply list_elem_of_lookup_2. }
  assert (Forall (fun f => class_known f) frames) as Hknown by (apply Forall_forall; intros f Hff; by destruct (Hcf f Hff)).
  assert (length frames <= 32)%nat as Hfl by (unfold frames; rewrite length_fmap; lia).
  apply (settles_option M _ _ (fun r M' => (forall j, M' j = M j) /\ exists rs, snd r = Some rs)).
  - intros theirs s G. eapply wp_mono; [apply (submit_batch_spec reorder step (rr_others Hreorder) M theirs fuel frames (Z.of_nat (length frames)))|].
    + apply Hreorder.
    + done.
    + done.
    + lia.
    + rewrite length_replicate. change (Z.to_nat LINKG_TRANSPORT_REORDER_SUBMIT_BATCH_MAX) with 32%nat. lia.
    + intros f Hff. apply Hcf. rewrite Nat2Z.id, take_ge in Hff by lia. done.
    + lia.
    + intros [[code results]|] s' H; [|done]. destruct H as ([Hset _]&r&->&_).
      destruct (Hset (or_intror (rr_unlock Hreorder))) as (theirs'&Ht&G'). exists M, theirs'. split; [|done]. split; [done|by exists r].
  - intros [ret results] M1 [E1 [rs Ers]]. cbn [snd] in Ers. subst results. cbn [default from_option]. unfold id.
    destruct (ret =? 0); cbn [negb]; apply settles_ret; (split; [done|]); cbn [fst snd].
    + split; [|apply ready_frames_known; [|done]].
      * apply (foldl_alter_fit fst (fun ir => reordered (snd ir))); [intros; by apply reordered_fit|done|].
        intros [i r] y Hin Hy. cbn in *. apply list_elem_of_lookup in Hin as [n Hzip]. apply lookup_zip_with_Some in Hzip as (i'&r'&[= -> ->]&Hi&_).
        rewrite list_lookup_fmap in Hi. destruct (staged !! n) as [[i2 f]|] eqn:Es; [|done]. injection Hi as <-.
        destruct (Hst _ _ (list_elem_of_lookup_2 _ _ _ Es)) as (y'&p&Hy'&Hgood&_). congruence.
      * apply Forall_forall. intros [f r] Hin. apply list_elem_of_lookup in Hin as [n Hzip].
        apply lookup_zip_with_Some in Hzip as (f'&r'&[= -> ->]&Hi&_). by apply (Forall_lookup_1 _ _ _ _ Hknown Hi).
    + split; [|done]. apply (foldl_alter_fit (fun i => i) (fun _ x => xset_window WINDOW_INVALID (xset_stage DROPPED x))).
      * intros _ x0 Hx Hc. by repeat split; try apply Hx.
      * done.
      * intros i y Hin Hy. apply list_elem_of_fmap in Hin as ([i2 f]&->&Hif). destruct (Hst _ _ Hif) as (y'&p&Hy'&Hgood&_). cbn in Hy. congruence.
Qed.

(** ** READY frames *)

Lemma flows_ready_loop n : forall pending M, Forall class_known pending -> flows M (ready_loop reorder n pending) (same M (fun _ => True)).
Proof.
  induction n as [|n IH]; intros pending M Hp; cbn [ready_loop]; [intros theirs s G; apply wp_ret; by exists M, theirs|].
  destruct pending as [|f pending]; [intros theirs s G; apply wp_ret; by exists M, theirs|]. set (batch := take _ _).
  assert (Forall class_known batch) as Hb by (by apply Forall_take).
  eapply (flows_bind M _ _ (same M (fun _ => True))).
  - intros theirs s G. eapply wp_mono; [apply (complete_batch_spec reorder step (rr_others Hreorder) batch _ (Z.of_nat (length batch)) M theirs s G); [lia|]|].
    + intros g Hg. rewrite Nat2Z.id, take_ge in Hg by lia. by apply (proj1 (Forall_forall _ _) Hb).
    + intros code s' [(theirs'&Ht&G') _]. by exists M, theirs'.
  - intros _ M' [E _]. eapply flows_ext; [exact E|]. apply IH. by apply Forall_drop.
Qed.

(** ** A chunk *)

Lemma flows_record M stats : (forall j, 0 <= M j <= 2 ^ 30) -> flows M (below (_linkg_transport_rx_record_batch_stats env stats)) (same M (fun _ => True)).
Proof. intros HM. apply flows_same; [done|]. intros keep _. by apply runs_record_stats. Qed.

Lemma flows_reassemble M packets states stats :
  (length states <= 32)%nat -> (forall j, 0 <= M j <= 2 ^ 29) -> length packets = length states -> Forall fit states ->
  (forall i, Some i ∈ packets -> 0 < M i) ->
  flows M (below (_linkg_transport_rx_reassemble_batch env packets states stats))
    (fun r M' => length (fst r) = length states /\ Forall (state_ok env true) (fst r) /\ forall j, M' j = M j + completed_held (fst r) j).
Proof.
  intros Hlen HM Hl Hf Hp. apply flows_below. intros H HH.
  eapply runs_mono; [apply (runs_reassemble Hmx Hrely true packets states stats); [done| | |]|].
  - intros j. specialize (HH j). specialize (HM j). unfold keep_max. lia.
  - split; [done|]. split; [|intros i Hi; specialize (Hp i Hi); specialize (HH i); lia].
    eapply Forall_impl; [exact Hf|]. intros x Hx. by apply fit_state_ok.
  - eapply Forall_impl; [exact Hf|]. intros x Hx. apply Hx.
  - intros r k (Hl'&Hs&Ek). exists (fun j => M j + completed_held (fst r) j). split; [done|]. split; [intros j; rewrite Ek; lia|].
    intros j. specialize (HM j). pose proof (completed_held_range (fst r) j). lia.
Qed.

Lemma flows_dispatch B M packets states b stats :
  (length states <= 32)%nat -> (forall j, 0 <= B j <= 2 ^ 28) -> batches_ok B b -> relays b = true ->
  length packets = length states -> Forall (state_ok env true) states -> (forall i, Some i ∈ packets -> 0 < B i) ->
  (forall j, M j = B j + completed_held states j + batches_held b j) ->
  flows M (below (_linkg_transport_rx_dispatch_batch env packets states b stats))
    (fun r M' => batches_ok B (snd (fst r)) /\ relays (snd (fst r)) = true /\ forall j, M' j = B j + batches_held (snd (fst r)) j).
Proof.
  intros Hlen HB Hb Hr Hl Hs Hp HM. apply flows_below. intros H HH.
  eapply runs_mono; [apply (runs_dispatch_batch Hmx Hrely true packets states b stats B (fun j => H j + B j)); [lia| |done|done| |]|].
  - intros j. specialize (HH j). specialize (HB j). lia.
  - by split.
  - intros j. rewrite HM. lia.
  - intros r k (Hb'&Hr'&Ek). exists (fun j => B j + batches_held (snd (fst r)) j). split; [done|]. split; [intros j; rewrite Ek; lia|].
    intros j. specialize (HB j). pose proof (batches_held_bound _ _ j Hb'). lia.
Qed.

(** What the calls after a chunk find: the batches over the same base, and pending READY frames. *)
Definition chunk_done (B : refs_t) (r : list delivery_batch * list forward_batch * list linkg_transport_reorder_frame) (M' : refs_t) : Prop :=
  batches_ok B (fst (fst r), Some (snd (fst r))) /\ Forall class_known (snd r) /\
  forall j, M' j = B j + batches_held (fst (fst r), Some (snd (fst r))) j.

Lemma settles_process_chunk link_id items ds fw B M :
  (length items <= 32)%nat -> items_held B items -> (forall j, 0 <= B j <= 2 ^ 28) -> batches_ok B (ds, Some fw) ->
  (forall j, M j = B j + batches_held (ds, Some fw) j) ->
  settles M (_linkg_transport_rx_process_chunk env reorder fuel link_id items ds fw []) (chunk_done B).
Proof.
  intros Hlen Hi HB Hb HM. unfold _linkg_transport_rx_process_chunk.
  assert (forall j, B j <= M j <= 2 ^ 29) as HM29. { intros j. specialize (HB j). rewrite HM. pose proof (batches_held_bound _ _ j Hb). lia. }
  assert (forall j, 0 <= M j <= 2 ^ 30) as HM30 by (intros j; specialize (HB j); specialize (HM29 j); lia).
  assert (forall keep, (forall j, M j <= keep j) -> items_held keep items) as Hik.
  { intros keep Hk it i Hit Hp. specialize (Hi it i Hit Hp). specialize (Hk i). specialize (HM29 i). lia. }
  eapply settles_bind; [apply flows_same; [done|intros keep Hk; apply (runs_build_source_groups env step); [by apply Hik|cbn; lia]]|].
  intros [[states groups] st] M1 [E1 (Hl&_&Hfr)]. cbn [fst snd] in *. eapply settles_ext; [exact E1|]. clear M1 E1.
  eapply settles_bind; [apply flows_same; [done|intros keep _; by apply runs_resolve]|].
  intros [groups' st'] M1 [E1 Hg]. cbn [fst snd] in *. eapply settles_ext; [exact E1|]. clear M1 E1. rewrite <- Hg in Hfr.
  eapply settles_bind; [apply flows_same; [done|intros keep Hk; apply (runs_decode_batch env step items states groups'); [done|done|by apply Hik]]|].
  intros [states2 st2] M1 [E1 [Hl2 Hf2]]. cbn [fst snd] in *. eapply settles_ext; [exact E1|]. clear M1 E1.
  assert (Forall fit (xset_link link_id <$> states2)) as Hf3 by (apply Forall_fmap; eapply Forall_impl; [exact Hf2|by intros x [? ?]; split]).
  eapply settles_bind; [apply flows_same; [done|intros keep _; by apply runs_accept_batch]|].
  intros [[ret states3] st3] M1 [E1 [Hl3 Hf4]]. cbn [fst snd] in *. eapply settles_ext; [exact E1|]. clear M1 E1. rewrite length_fmap in Hl3.
  destruct (ret =? 0); cbn [negb].
  2:{ eapply settles_bind; [by apply flows_record|]. intros _ M1 [E1 _]. eapply settles_ext; [exact E1|]. apply settles_ret. by splits. }
  assert (forall i, Some i ∈ (li_packet <$> items) -> 0 < B i) as Hpk.
  { intros i Hin. apply list_elem_of_fmap in Hin as (it&E&Hit). by apply (Hi it i). }
  eapply settles_option; [apply settles_stage_reorder|].
  - rewrite length_fmap. lia.
  - lia.
  - done.
  - intros i Hin. specialize (Hpk i Hin). specialize (HM29 i). lia.
  - constructor.
  - intros j. specialize (HM29 j). specialize (HB j). lia.
  - intros [states4 pending] M1 (E1&[Hf5 Hl5]&Hpe). cbn [fst snd] in *. eapply settles_ext; [exact E1|]. clear M1 E1.
    eapply settles_bind; [apply flows_reassemble|].
    + lia.
    + intros j. specialize (HM29 j). specialize (HB j). lia.
    + rewrite length_fmap. lia.
    + done.
    + intros i Hin. specialize (Hpk i Hin). specialize (HM29 i). lia.
    + intros [states5 st5] M2 (Hl6&Hs6&E6). cbn [fst snd] in *.
      eapply settles_bind; [apply (flows_dispatch B M2 _ states5 (ds, Some fw)); [lia|done|done|done|rewrite length_fmap; lia|done|done|]|].
      { intros j. rewrite E6, HM. lia. }
      intros [[states6 [ds' fw']] st6] M3 (Hb7&Hr7&E7). cbn [fst snd] in *. destruct fw' as [fw'|]; [|done].
      eapply settles_bind; [apply flows_record|].
      { intros j. rewrite E7. specialize (HB j). pose proof (batches_held_bound _ _ j Hb7). lia. }
      intros _ M4 [E4 _]. eapply settles_ext; [exact E4|]. by apply settles_ret.
Qed.

(** ** The chunks of a batch *)

Lemma flows_flush_deliveries ds fw B M :
  (forall j, 0 <= B j <= 2 ^ 28) -> batches_ok B (ds, Some fw) -> (forall j, M j = B j + batches_held (ds, Some fw) j) ->
  flows M (below (_linkg_transport_rx_flush_deliveries env ds))
    (fun ds' M' => ds' = no_deliveries /\ batches_ok B (no_deliveries, Some fw) /\ forall j, M' j = B j + batches_held (no_deliveries, Some fw) j).
Proof.
  intros HB Hb HM. apply flows_below. intros H HH.
  assert (batches_ok B (no_deliveries, Some fw)) as Hb'.
  { destruct Hb as [B1 B2 B3 B4 B5]. split; try done. intros t rows Ht. cbn in Ht. apply lookup_replicate_1 in Ht as [-> _]. apply rows_ok_nil. }
  assert (forall j, batches_held (no_deliveries, Some fw) j = sumZ (fun rows => rows_held fi_packet rows j) fw) as E0 by done.
  assert (forall j, 0 <= batches_held (no_deliveries, Some fw) j) as Hnn by (intros j; eapply batches_held_bound, Hb').
  eapply runs_mono; [apply (runs_flush_deliveries Hmx Hrely ds (Some fw) B (fun j => H j + (B j + batches_held (no_deliveries, Some fw) j))); [|done|]|].
  - intros j. specialize (HH j). specialize (HB j). specialize (Hnn j). lia.
  - intros j. rewrite HM, E0. unfold batches_held. cbn [fst snd default from_option]. unfold id. lia.
  - intros ds' k [Ek ->]. eexists. split; [done|]. split; [exact Ek|]. intros j. specialize (HB j). pose proof (batches_held_bound _ _ j Hb'). lia.
Qed.

Lemma settles_receive_loop n link_id : forall items fw B M,
  items_held B items -> (forall j, 0 <= B j <= 2 ^ 28) -> batches_ok B (no_deliveries, Some fw) ->
  (forall j, M j = B j + batches_held (no_deliveries, Some fw) j) ->
  settles M (receive_loop env reorder fuel n link_id items no_deliveries fw)
    (fun fw' M' => batches_ok B (no_deliveries, Some fw') /\ forall j, M' j = B j + batches_held (no_deliveries, Some fw') j).
Proof.
  induction n as [|n IH]; intros items fw B M Hi HB Hb HM; cbn [receive_loop]; [by apply settles_ret|].
  destruct items as [|it items]; [by apply settles_ret|]. set (its := it :: items) in *. set (size := Z.to_nat _).
  eapply settles_option; [apply (settles_process_chunk link_id (take size its) no_deliveries fw B M)|].
  - rewrite length_take. change size with 32%nat. lia.
  - intros x i Hx. apply Hi. apply elem_of_take in Hx as (k&Hk&_). by eapply list_elem_of_lookup_2.
  - done.
  - done.
  - done.
  - intros [[ds1 fw1] pending] M1 (Hb1&Hpe&E1). cbn [fst snd] in *.
    eapply settles_bind; [by apply (flows_flush_deliveries ds1 fw1 B)|]. intros ds2 M2 (->&Hb2&E2).
    eapply settles_bind; [by apply flows_ready_loop|]. intros _ M3 [E3 _].
    apply (IH _ fw1 B M3); [|done|done|].
    + intros x i Hx. apply Hi. apply list_elem_of_lookup in Hx as [k Hk]. rewrite lookup_drop in Hk. by eapply list_elem_of_lookup_2.
    + intros j. by rewrite E3.
Qed.

Lemma settles_receive_batch link items M :
  (forall its, items = Some its -> items_held M its) -> (forall j, 0 <= M j <= 2 ^ 28) ->
  settles M (linkg_transport_receive_batch env reorder fuel link items) (same M (fun _ => True)).
Proof.
  intros Hi HM. unfold linkg_transport_receive_batch. destruct link as [link_id|]; [|by apply settles_ret].
  destruct items as [its|]; [|by apply settles_ret].
  assert (forall j, 0 <= M j <= 2 ^ 30) as HM30 by (intros j; specialize (HM j); lia).
  eapply settles_bind; [apply (flows_same M context (fun _ => True)); [done|]|].
  { intros keep _. eapply runs_mono; [apply runs_context|]. by intros a k [? _]. }
  intros x M0 [E0 _]. eapply settles_ext; [exact E0|]. clear M0 E0.
  destruct (_ || _); [by apply settles_ret|]. destruct (_ =? _); [by apply settles_ret|].
  assert (batches_ok M (no_deliveries, Some no_forwards)) as Hb.
  { split; try done; cbn.
    - intros t rows Ht. apply lookup_replicate_1 in Ht as [-> _]. apply rows_ok_nil.
    - by intros l [= <-].
    - intros l c rows [= <-] Hc. apply lookup_replicate_1 in Hc as [-> _]. apply rows_ok_nil. }
  eapply settles_option; [apply (settles_receive_loop (length its) link_id its no_forwards M M); [by apply Hi|done|done|]|].
  { intros j. change (batches_held (no_deliveries, Some no_forwards) j) with 0. lia. }
  intros fw M1 [Hb1 E1].
  eapply settles_bind; [apply (flows_below _ _ (same M (fun _ => True)))|].
  - intros H HH. eapply runs_mono; [apply (runs_flush_forwards env step Hmx Hrely fw no_deliveries M (fun j => H j + M j)); [|done|]|].
    + intros j. specialize (HH j). specialize (HM j). lia.
    + intros j. rewrite E1. unfold batches_held. cbn [fst snd default from_option]. unfold id.
      change (sumZ (fun rows => rows_held dl_packet rows j) no_deliveries) with 0. lia.
    + intros a k [Ek _]. exists M. by split.
  - intros _ M2 [E2 _]. eapply settles_ext; [exact E2|]. by apply settles_ret.
Qed.

End Pipeline.

(** ** The property *)

(** C2: receiving a batch never gets stuck and gives back what it took. Whatever
    the other threads do while a lock is free, as long as they keep the invariant
    and the caller's references, and whatever the node, the handlers and the
    emission callback do within their contracts, the call returns (or the fuel of
    the reorder window runs out), the invariants of the pool, both caches, every
    reorder window and the record of handler calls hold again, and the caller
    holds the same references as before: each packet that the pipeline retained,
    reassembled, paired or buffered was released or is accounted to a cache or a
    window. *)
Theorem receive_batch_sound {C} (env : rx_env C) (reorder : reorder_env (rx_core C)) (step : refs_t -> refs_t -> Prop)
    (fuel : nat) (M theirs : refs_t) (link : option Z) (items : option (list linkg_link_rx_item))
    (s : linkg_transport_reorder_runtime (rx_core C)) :
  PreOrder step -> mutex_ok (rv_mutex env) -> rx_rely env step -> reorder_rely env step reorder ->
  guarded (PS := core_store env) step M theirs s -> (forall j, 0 <= M j <= 2 ^ 28) ->
  (forall its it i, items = Some its -> it ∈ its -> li_packet it = Some i -> 0 < M i) ->
  exists o s', linkg_transport_receive_batch env reorder fuel link items s = Some (o, s') /\
    (o = Some tt -> exists theirs', step theirs theirs' /\ guarded (PS := core_store env) step M theirs' s').
Proof.
  intros Hstep Hmx Hrely Hre G HM Hi.
  assert (forall its, items = Some its -> items_held M its) as Hi' by (intros its E it i Hit Hp; by apply (Hi its it i)).
  destruct (wp_elim _ _ _ (settles_receive_batch env step Hmx Hrely reorder fuel Hre link items M Hi' HM theirs s G)) as (o&s'&E&H).
  exists o, s'. split; [done|]. intros ->. destruct H as (M'&theirs'&[EM _]&Ht&G'). exists theirs'. split; [done|].
  by eapply (guarded_ext (PS := core_store env)).
Qed.

(** ** A concrete batch

    Peer 5 is registered, a handler takes user data, and one frame of peer 5 with
    four bytes of payload arrives on link 3. *)

Definition demo_rx_header : linkg_transport_header := Header 0 0 LINKG_TRANSPORT_TYPE_USER_DATA 0 77 5 1 0.

Definition demo_batch_env : rx_env unit :=
  RxEnv TransportPeerLife.demo_transport_env mutex_default 1 (fun _ => 3) (fun _ => 3000) (fun _ _ => [0]) (fun _ s => s)
    (fun _ _ items => (0, (fun it => NodeRxItem (ni_source it) (ni_bytes it) (ni_packets it) 5 0) <$> items))
    (fun _ _ _ => mret 0) (fun _ _ _ _ => mret 0).

Definition demo_batch_transport : transport_state unit :=
  final TransportPeerLife.demo_transport
    ((_ ← linkg_transport_register_handler TransportPeerLife.demo_transport_env LINKG_TRANSPORT_TYPE_USER_DATA (Some 11) 12;
      linkg_transport_register_peer TransportPeerLife.demo_transport_env 5) TransportPeerLife.demo_transport).

Definition demo_batch_core : rx_core unit :=
  RxCore demo_batch_transport
    (TransportReassembly.ReassemblyRuntime (frame_encoded 4 demo_rx_header)
       (replicate TransportReassembly.entry_count TransportReassembly.entry_zero) 0 true 0)
    (TransportForward.PairRuntime tt (replicate TransportForward.pair_count TransportForward.pair_zero) 0 true 0 0 0) [].

Definition demo_batch_reorder : reorder_env (rx_core unit) :=
  ReorderEnv _ 41 (fun _ => epochs_of (tr_context demo_batch_transport)) (fun _ => 1000) (fun _ => 0) (fun _ => 0) (fun _ => 0)
    (fun _ => true) (fun _ s => s).

Definition demo_batch_runtime : linkg_transport_reorder_runtime (rx_core unit) :=
  ReorderRuntime demo_batch_core (replicate class_total class_zero) (Some (linkg_transport_rx_emit_reordered demo_batch_env))
    0 true true true 42 0 0.

Definition demo_items : list linkg_link_rx_item :=
  [LinkRxItem (Some 1%nat) (PathEndpoint [2; 0; 31; 144; 10; 0; 0; 5; 0; 0; 0; 0; 0; 0; 0; 0] 16)].

Lemma demo_rx_live : live (frame_encoded 4 demo_rx_header) 1 (encoded_packet 4).
Proof.
  destruct (push_header_spec (frame_pool 4) 1 (frame_packet 4) (header_bytes (wire_header demo_rx_header))
    (- ENOSPC) (frame_pool_live 4 ltac:(lia)) ltac:(cbn; lia)) as (p'&E&L&_).
  unfold frame_encoded. rewrite (encode_run _ _ _ _ (frame_pool_live 4 ltac:(lia))).
  change (encode_error demo_rx_header (frame_packet 4) =? 0) with true. cbn beta iota.
  change LINKG_TRANSPORT_WIRE_HEADER_SIZE with (Z.of_nat (length (header_bytes (wire_header demo_rx_header)))).
  rewrite E. exact L.
Qed.

#[local] Opaque frame_encoded.

Definition demo_batch_refs (j : nat) : Z := refs (frame_encoded 4 demo_rx_header) j.

Lemma demo_batch_refs_range j : 0 <= demo_batch_refs j <= 2 ^ 28.
Proof. do 8 (destruct j as [|j]; [by vm_compute|]). by vm_compute. Qed.

Lemma demo_batch_held (j : nat) : core_held demo_batch_core j = 0.
Proof. vm_compute. reflexivity. Qed.

Lemma demo_batch_pool : core_pool demo_batch_core = frame_encoded 4 demo_rx_header.
Proof. unfold core_pool, demo_batch_core. cbn [xc_reassembly TransportReassembly.rr_pool]. reflexivity. Qed.

Lemma demo_batch_context : context_ok demo_batch_env (tr_context demo_batch_transport).
Proof.
  split; [by vm_compute|]. split; [by vm_compute|].
  assert (forallb (fun p => length (pr_classes p) =? Z.to_nat LINKG_TRANSPORT_CLASS_COUNT)%nat (cx_peers (tr_context demo_batch_transport)) = true) as H
    by (by vm_compute).
  intros p Hp. apply Nat.eqb_eq. apply (proj1 (forallb_forall _ _) H p). by apply list_elem_of_In.
Qed.

Lemma demo_batch_wf : core_wf demo_batch_env demo_batch_core.
Proof.
  destruct demo_batch_context as (Hl&Hh&Hc). split.
  - change (pool_wf (frame_encoded 4 demo_rx_header)). apply demo_rx_live.
  - apply length_replicate.
  - apply length_replicate.
  - intros e x H. apply lookup_replicate_1 in H as [-> _]. intros _ j. reflexivity.
  - intros e x H. apply lookup_replicate_1 in H as [-> _]. reflexivity.
  - intros j. rewrite demo_batch_held, demo_batch_pool. exact (proj1 (demo_batch_refs_range j)).
  - exact Hl.
  - constructor.
  - exact Hh.
  - exact Hc.
Qed.

Lemma demo_batch_rely : rx_rely demo_batch_env same_refs.
Proof.
  assert (PreOrder same_refs) as Hpre by apply same_refs_preorder. split.
  - intros n keep theirs s H. by exists theirs.
  - by intros n t H.
  - intros n l items. cbn. by rewrite length_fmap.
  - intros f u items keep _ theirs s H. apply wp_ret. by exists keep, theirs.
  - intros f u class items keep _ theirs s H. apply wp_ret. by exists keep, theirs.
Qed.

Lemma demo_batch_reorder_rely : reorder_rely demo_batch_env same_refs demo_batch_reorder.
Proof. split; [|done|done]. intros n mine theirs s G. exists theirs. by split. Qed.

Lemma demo_batch_guarded :
  guarded (PS := core_store demo_batch_env) same_refs demo_batch_refs (fun _ => 0) demo_batch_runtime.
Proof.
  split; [|split].
  - split; cbn.
    + apply demo_batch_wf.
    + done.
    + intros ci c [-> _]%lookup_replicate. apply class_ok_zero.
    + eauto.
    + intros e [= <-]. apply emit_contract; [apply same_refs_preorder|apply mutex_default_ok|apply demo_batch_rely].
    + done.
  - intros j. pose proof (demo_batch_refs_range j). lia.
  - intros j. split; [|lia]. change (refs (core_pool demo_batch_core) j - core_held demo_batch_core j = rheld demo_batch_runtime j + demo_batch_refs j + 0).
    rewrite demo_batch_held, demo_batch_pool. fold (demo_batch_refs j). unfold rheld. cbn [rt_classes demo_batch_runtime]. rewrite sumZ_replicate.
    change (class_held class_zero j) with (sumZ (fun sl => frame_held (rs_frame sl) j) (replicate 64 slot_zero)).
    rewrite sumZ_replicate. cbn. lia.
Qed.

Lemma emit_reordered_ok_witness :
  emit_ok (PS := core_store demo_batch_env) same_refs (linkg_transport_rx_emit_reordered demo_batch_env).
Proof.
  apply (emit_reordered_ok demo_batch_env same_refs same_refs_preorder mutex_default_ok demo_batch_rely).
Defined.

(** The frame is delivered with its payload, and the caller still holds its packet. *)
Lemma receive_batch_sound_witness :
  (fun os => (fst os, xc_trace (rt_store (snd os)))) <$>
    linkg_transport_receive_batch demo_batch_env demo_batch_reorder 10 (Some 3) (Some demo_items) demo_batch_runtime =
  Some (Some tt, [Delivered LINKG_TRANSPORT_TYPE_USER_DATA
    [BatchRow (Delivery (Some 1%nat) 3 LINKG_TRANSPORT_CLASS_DATA 5 5) (Some 0%nat) 2 false] [[0; 0; 0; 0]]]) /\
  exists o s', linkg_transport_receive_batch demo_batch_env demo_batch_reorder 10 (Some 3) (Some demo_items) demo_batch_runtime = Some (o, s') /\
    (o = Some tt -> exists theirs', same_refs (fun _ => 0) theirs' /\
       guarded (PS := core_store demo_batch_env) same_refs demo_batch_refs theirs' s').
Proof.
  split; [vm_compute; reflexivity|].
  apply (receive_batch_sound demo_batch_env demo_batch_reorder same_refs 10 demo_batch_refs (fun _ => 0) (Some 3) (Some demo_items) demo_batch_runtime).
  - apply same_refs_preorder.
  - apply mutex_default_ok.
  - apply demo_batch_rely.
  - apply demo_batch_reorder_rely.
  - apply demo_batch_guarded.
  - apply demo_batch_refs_range.
  - intros its it i [= <-] Hit. apply list_elem_of_singleton in Hit as ->. intros [= <-]. vm_compute. reflexivity.
Defined.
