(* ===== verification/TransportTx.v ===== *)
(** * Sending through the transport  (core/transport/transport_tx.c)

    Validation, fragmentation into at most two wire frames, allocation of the
    per-hop sequence numbers under the class's order lock, encoding, submission
    of the frames to every target, and the verdicts; and the relay of frames that
    are already encoded. The state is the transport's ([TransportPeer]), the
    packet pool, and a ghost trace of what was handed to the links. Links are
    behind [TransportLink]; [elapsed_ms] gives the clock at an observation. *)

From S2P Require Import Prelude.
From S2P Require Import PacketStore.
From S2P Require Import PacketPool.
From S2P Require Import PacketData.
From S2P Require Import LinkPath.
From S2P Require Import Link.
From S2P Require Import TransportTypes.
From S2P Require Import TransportWire.
From S2P Require Import TransportWindow.
From S2P Require Import TransportPeer.

(** ** Data *)

Definition LINKG_TRANSPORT_TX_BATCH_MAX := 32.
Definition LINKG_TRANSPORT_TX_WIRE_BATCH_MAX := LINKG_TRANSPORT_TX_BATCH_MAX * LINKG_TRANSPORT_FRAGMENT_COUNT_MAX.
Definition LINKG_TRANSPORT_TX_TARGET_MAX := 2.
Definition LINKG_TRANSPORT_FLAG_NONE := 0.

(** Pointers to a link and a path, and the endpoint's bytes. *)
Record linkg_transport_tx_target := TxTarget {
  tg_link : option Z;
  tg_path : option Z;
  tg_destination : list Z }.

(** [xc_targets] is the array of [target_count] elements. *)
Record linkg_transport_tx_context := TxContext {
  xc_targets : option (list linkg_transport_tx_target);
  xc_traffic_class : Z;
  xc_peer_node_id : Z }.

Record linkg_transport_tx_item := TxItem {
  xi_packet : option pkt_ptr;
  xi_type : Z;
  xi_destination_node_id : Z }.

Record linkg_transport_tx_state := TxItemState {
  xs_tail_packet : option pkt_ptr;
  xs_original_data_offset : Z;
  xs_original_data_length : Z;
  xs_original_flags : Z;
  xs_packet_id : Z;
  xs_frame_offset : Z;
  xs_frame_count : Z }.

Definition tx_state_zero : linkg_transport_tx_state := TxItemState None 0 0 0 0 0 0.

Definition state_set_tail (t : option pkt_ptr) (x : linkg_transport_tx_state) : linkg_transport_tx_state :=
  TxItemState t (xs_original_data_offset x) (xs_original_data_length x) (xs_original_flags x) (xs_packet_id x)
    (xs_frame_offset x) (xs_frame_count x).
Definition state_set_id (id : Z) (x : linkg_transport_tx_state) : linkg_transport_tx_state :=
  TxItemState (xs_tail_packet x) (xs_original_data_offset x) (xs_original_data_length x) (xs_original_flags x) id
    (xs_frame_offset x) (xs_frame_count x).

(** One row of [linkg_transport_tx_frame_batch_t]; a batch is the list of its rows. *)
Record tx_frame := TxFrame {
  xf_packet : pkt_ptr;
  xf_payload_length : Z;
  xf_user_data : bool }.

Abbreviation linkg_transport_tx_frame_batch := (list tx_frame).

(** What a submission handed to a link: the target, the bytes of the frames, and
    the verdicts it got. *)
Record submission := Submission {
  sb_target : linkg_transport_tx_target;
  sb_frames : list (list Z);
  sb_results : list Z }.

Record tx_system (C : Type) := TxSystem {
  ts_transport : transport_state C;
  ts_pool : linkg_packet_pool;
  ts_trace : list submission }.
Arguments TxSystem {C}.
Arguments ts_transport {C}.
Arguments ts_pool {C}.
Arguments ts_trace {C}.

(** [linkg_link_submit_batch] at the [n]-th observation: its result and the
    results array, from its initial content. *)
Class TransportLink := {
  tl_submit : nat -> linkg_transport_tx_target -> Z -> list pkt_ptr -> list Z -> PM (Z * list Z) }.

(** ** Checks *)

Definition _linkg_transport_tx_node_id_valid (node_id : Z) : bool :=
  (LINKG_RESOURCE_NODE_ID_MIN <=? node_id) && (node_id <=? LINKG_RESOURCE_NODE_ID_MAX).

Definition target_missing (t : linkg_transport_tx_target) : bool :=
  bool_decide (tg_link t = None) || bool_decide (tg_path t = None).

Definition _linkg_transport_tx_validate_context (context : option linkg_transport_tx_context) : Z :=
  match context with
  | Some c =>
      match xc_targets c with
      | Some targets =>
          if bool_decide (targets = []) || (LINKG_TRANSPORT_TX_TARGET_MAX <? Z.of_nat (length targets)) then - EINVAL
          else if negb (linkg_transport_class_valid (xc_traffic_class c)) then - EINVAL
          else if negb (_linkg_transport_tx_node_id_valid (xc_peer_node_id c)) then - EINVAL
          else if existsb target_missing targets then - EINVAL
          else 0
      | None => - EINVAL
      end
  | None => - EINVAL
  end.

Definition _linkg_transport_tx_validate_packet (packet : option pkt_ptr) : PM Z :=
  match packet with
  | None => mret (- EINVAL)
  | Some i =>
      k ← packet_at i;
      if bool_decide (pk_pool k = None) || bool_decide (pk_slot k = None) then mret (- EINVAL)
      else if pk_data_length k =? 0 then mret (- EINVAL)
      else if LINKG_TRANSPORT_PACKET_MAX_SIZE <? pk_data_length k then mret (- EMSGSIZE)
      else
        let required_headroom := if LINKG_TRANSPORT_PAYLOAD_MAX_SIZE <? pk_data_length k
                                 then LINKG_TRANSPORT_WIRE_HEADER_MAX_SIZE else LINKG_TRANSPORT_WIRE_HEADER_SIZE in
        headroom ← linkg_packet_headroom i;
        mret (if headroom <? required_headroom then - ENOSPC else 0)
  end.

Fixpoint validate_items (items : list linkg_transport_tx_item) : PM Z :=
  match items with
  | [] => mret 0
  | it :: items' =>
      if negb (linkg_transport_type_valid (xi_type it)) then mret (- EINVAL)
      else if negb (_linkg_transport_tx_node_id_valid (xi_destination_node_id it)) then mret (- EINVAL)
      else
        ret ← _linkg_transport_tx_validate_packet (xi_packet it);
        if negb (ret =? 0) then mret ret else validate_items items'
  end.

Definition _linkg_transport_tx_validate_batch (context : option linkg_transport_tx_context)
    (items : option (list linkg_transport_tx_item)) : PM Z :=
  match items with
  | None => mret (- EINVAL)
  | Some l =>
      if bool_decide (l = []) then mret (- EINVAL)
      else
        let ret := _linkg_transport_tx_validate_context context in
        if negb (ret =? 0) then mret ret else validate_items l
  end.

Section Tx.
Context {C : Type} `{TP : TransportParts C} `{TL : TransportLink} (env : transport_env C) (mx : mutex_api) (elapsed_ms : nat -> Z).

Abbreviation system := (tx_system C).
Abbreviation SM := (M system).

Definition transport {A} (m : M (transport_state C) A) : SM A :=
  zoom ts_transport (fun t s => TxSystem t (ts_pool s) (ts_trace s)) m.
Definition pool {A} (m : PM A) : SM A :=
  zoom ts_pool (fun p s => TxSystem (ts_transport s) p (ts_trace s)) m.

(** ** Fragments *)

(** The tail packet of packet [i] with descriptor [k]. *)
Definition prepare_tail (i : pkt_ptr) (k : linkg_packet) : PM (Z * option pkt_ptr) :=
  tail ← linkg_packet_pool_alloc mx (pk_pool k);
  match tail with
  | None => mret (- ENOMEM, None)
  | Some j =>
      let tail_length := u32 (pk_data_length k - LINKG_TRANSPORT_FRAGMENT_PAYLOAD_MAX_SIZE) in
      headroom ← linkg_packet_headroom j;
      capacity ← linkg_packet_capacity j;
      if (headroom <? LINKG_TRANSPORT_WIRE_HEADER_MAX_SIZE) || (capacity <? tail_length)
      then linkg_packet_release mx (Some j) ;; mret (- ENOBUFS, None)
      else
        data ← linkg_packet_const_data i;
        destination ← linkg_packet_data j;
        memcpy destination (data + LINKG_TRANSPORT_FRAGMENT_PAYLOAD_MAX_SIZE) (Z.to_nat tail_length) ;;
        set_data_length j tail_length ;;
        packet_update j (set_flags (pk_flags k)) ;;
        mret (0, Some j)
  end.

(** The result and the states, zero from the failing one's successor on. *)
Fixpoint prepare_loop (items : list linkg_transport_tx_item) (frame_offset : Z) : PM (Z * list linkg_transport_tx_state) :=
  match items with
  | [] => mret (0, [])
  | it :: items' =>
      i ← of_option (xi_packet it);
      k ← packet_at i;
      let frame_count := if LINKG_TRANSPORT_PAYLOAD_MAX_SIZE <? pk_data_length k then LINKG_TRANSPORT_FRAGMENT_COUNT_MAX else 1 in
      let x := TxItemState None (pk_data_offset k) (pk_data_length k) (pk_flags k) 0 frame_offset frame_count in
      r ← (if frame_count =? 1 then mret (0, None) else prepare_tail i k);
      let '(ret, tail) := r in
      if negb (ret =? 0) then mret (ret, x :: replicate (length items') tx_state_zero)
      else
        rest ← prepare_loop items' (u32 (frame_offset + frame_count));
        mret (fst rest, state_set_tail tail x :: snd rest)
  end.

Definition _linkg_transport_tx_prepare_states (items : list linkg_transport_tx_item) : PM (Z * list linkg_transport_tx_state) :=
  prepare_loop items 0.

Definition _linkg_transport_tx_cleanup_states (states : list linkg_transport_tx_state) : PM unit :=
  mfor states (fun x => match xs_tail_packet x with Some j => linkg_packet_release mx (Some j) | None => mret tt end).

(** [packet->data_offset], [data_length] and [flags] of one item. *)
Definition restore_packet (it : linkg_transport_tx_item) (x : linkg_transport_tx_state) : PM unit :=
  i ← of_option (xi_packet it);
  packet_update i (fun k => set_flags (xs_original_flags x)
    (set_window (xs_original_data_offset x) (xs_original_data_length x) k)).

Definition _linkg_transport_tx_restore_packets (items : list linkg_transport_tx_item) (states : list linkg_transport_tx_state) : PM unit :=
  mfor (zip items states) (fun '(it, x) => restore_packet it x).

(** ** Protocol state *)

(** The class and the sequence number. *)
Definition next_sequence (c : linkg_transport_peer_class) (type : Z) : linkg_transport_peer_class * Z :=
  if type =? LINKG_TRANSPORT_TYPE_USER_DATA
  then let n := u32 (pc_tx_user_sequence c + 1) in (set_sequences (TxSequence n (pc_tx_control_sequence c)) c, n)
  else let n := u32 (pc_tx_control_sequence c + 1) in (set_sequences (TxSequence (pc_tx_user_sequence c) n) c, n).

(** A class is a pair of indices. *)
Abbreviation class_ptr := (nat * nat)%type.

Definition class_read (q : class_ptr) : M (transport_state C) linkg_transport_peer_class :=
  p ← peer_read (fst q); of_option (pr_classes p !! snd q).

Definition _linkg_transport_tx_next_sequence (q : class_ptr) (type : Z) : M (transport_state C) Z :=
  c ← class_read q;
  class_update (fst q) (snd q) (fun c => fst (next_sequence c type)) ;;
  mret (snd (next_sequence c type)).

Definition _linkg_transport_tx_next_packet_id_locked : M (transport_state C) Z :=
  x ← context;
  let packet_id := if cx_next_packet_id x =? LINKG_TRANSPORT_PACKET_ID_INVALID then 1 else cx_next_packet_id x in
  let next := u32 (packet_id + 1) in
  update (fun x => ctx_set_local (cx_local_node_id x) (cx_local_role x)
    (if next =? LINKG_TRANSPORT_PACKET_ID_INVALID then 1 else next) (cx_initialized x) x) ;;
  mret packet_id.

(** The loop over the states. *)
Fixpoint assign_ids (states : list linkg_transport_tx_state) : M (transport_state C) (list linkg_transport_tx_state) :=
  match states with
  | [] => mret []
  | x :: states' =>
      x' ← (if xs_frame_count x =? LINKG_TRANSPORT_FRAGMENT_COUNT_MAX
            then id ← _linkg_transport_tx_next_packet_id_locked; mret (state_set_id id x)
            else mret x);
      rest ← assign_ids states';
      mret (x' :: rest)
  end.

(** Find the peer, take the class's order lock, do [inside] and release the
    transport lock. *)
Definition acquire_class {A} (ctx : linkg_transport_tx_context) (inside : M (transport_state C) A)
    : M (transport_state C) (Z + class_ptr * A) :=
  ret ← transport_lock env;
  if negb (ret =? 0) then mret (inl (- ret))
  else
    x ← context;
    if negb (cx_initialized x) then _ ← transport_unlock env; mret (inl (- ENODEV))
    else match linkg_transport_find_peer_locked x (xc_peer_node_id ctx) with
    | None => _ ← transport_unlock env; mret (inl (- ENOENT))
    | Some i =>
        if negb (fst (linkg_transport_peer_epoch_read_active (epochs_of x) (Some i)))
        then _ ← transport_unlock env; mret (inl (- EAGAIN))
        else
          let k := Z.to_nat (xc_traffic_class ctx) in
          ret ← order_lock env i k;
          if negb (ret =? 0) then _ ← transport_unlock env; mret (inl (- ret))
          else
            a ← inside;
            _ ← transport_unlock env;
            mret (inr ((i, k), a))
    end.

Definition _linkg_transport_tx_acquire_state (ctx : linkg_transport_tx_context) (states : list linkg_transport_tx_state)
    : M (transport_state C) (Z + class_ptr * list linkg_transport_tx_state) :=
  acquire_class ctx (assign_ids states).

Definition _linkg_transport_tx_acquire_forward_state (ctx : linkg_transport_tx_context)
    : M (transport_state C) (Z + class_ptr * unit) :=
  acquire_class ctx (mret tt).

(** ** Encoding *)

Definition _linkg_transport_tx_build_header (local_node_id : Z) (item : linkg_transport_tx_item) (flags sequence : Z)
    : linkg_transport_header :=
  Header 0 0 (u8 (xi_type item)) flags sequence local_node_id (xi_destination_node_id item) 0.

Definition clear_group (f : Z) : Z := Z.land f (u32 (Z.lnot LINKG_PACKET_FLAG_TX_GROUP_MASK)).

Definition is_user_data (type : Z) : bool := type =? LINKG_TRANSPORT_TYPE_USER_DATA.

Definition _linkg_transport_tx_encode_normal (item : linkg_transport_tx_item) (x : linkg_transport_tx_state) (q : class_ptr)
    : SM (Z * list tx_frame) :=
  i ← of_option (xi_packet item);
  sequence ← transport (_linkg_transport_tx_next_sequence q (xi_type item));
  pool (packet_update i (fun k => set_flags (clear_group (pk_flags k)) k)) ;;
  local ← transport (gets (fun t => cx_local_node_id (tr_context t)));
  ret ← pool (linkg_transport_wire_encode (Some i)
                (Some (_linkg_transport_tx_build_header local item LINKG_TRANSPORT_FLAG_NONE sequence)));
  if negb (ret =? 0) then mret (ret, [])
  else mret (0, [TxFrame i (xs_original_data_length x) (is_user_data (xi_type item))]).

(** Encode one fragment of packet [j]. *)
Definition encode_fragment (j : pkt_ptr) (item : linkg_transport_tx_item) (fragment : linkg_transport_fragment_header)
    (sequence : Z) : SM Z :=
  ret ← pool (linkg_transport_wire_fragment_encode (Some j) (Some fragment));
  if negb (ret =? 0) then mret ret
  else
    local ← transport (gets (fun t => cx_local_node_id (tr_context t)));
    pool (linkg_transport_wire_encode (Some j)
            (Some (_linkg_transport_tx_build_header local item LINKG_TRANSPORT_FLAG_FRAGMENT sequence))).

Definition _linkg_transport_tx_encode_fragmented (item : linkg_transport_tx_item) (x : linkg_transport_tx_state) (q : class_ptr)
    : SM (Z * list tx_frame) :=
  i ← of_option (xi_packet item);
  j ← of_option (xs_tail_packet x);
  let tail_length := u32 (xs_original_data_length x - LINKG_TRANSPORT_FRAGMENT_PAYLOAD_MAX_SIZE) in
  first_sequence ← transport (_linkg_transport_tx_next_sequence q (xi_type item));
  tail_sequence ← transport (_linkg_transport_tx_next_sequence q (xi_type item));
  pool (set_data_length i LINKG_TRANSPORT_FRAGMENT_PAYLOAD_MAX_SIZE) ;;
  pool (packet_update i (set_flags (Z.lor (clear_group (xs_original_flags x)) LINKG_PACKET_FLAG_TX_GROUP_FIRST))) ;;
  ret ← encode_fragment i item (FragmentHeader (xs_packet_id x) 0 (u16 (xs_original_data_length x))) first_sequence;
  if negb (ret =? 0) then mret (ret, [])
  else
    pool (packet_update j (set_flags (Z.lor (clear_group (xs_original_flags x)) LINKG_PACKET_FLAG_TX_GROUP_LAST))) ;;
    ret ← encode_fragment j item
            (FragmentHeader (xs_packet_id x) (u16 LINKG_TRANSPORT_FRAGMENT_PAYLOAD_MAX_SIZE) (u16 (xs_original_data_length x)))
            tail_sequence;
    if negb (ret =? 0) then mret (ret, [])
    else mret (0, [TxFrame i LINKG_TRANSPORT_FRAGMENT_PAYLOAD_MAX_SIZE (is_user_data (xi_type item));
                   TxFrame j tail_length (is_user_data (xi_type item))]).

Fixpoint encode_loop (items : list (linkg_transport_tx_item * linkg_transport_tx_state)) (q : class_ptr)
    : SM (Z * list tx_frame) :=
  match items with
  | [] => mret (0, [])
  | (item, x) :: items' =>
      r ← (if xs_frame_count x =? LINKG_TRANSPORT_FRAGMENT_COUNT_MAX
           then _linkg_transport_tx_encode_fragmented item x q
           else _linkg_transport_tx_encode_normal item x q);
      let '(ret, frames) := r in
      if negb (ret =? 0) then mret (ret, [])
      else
        rest ← encode_loop items' q;
        mret (fst rest, frames ++ snd rest)
  end.

Definition _linkg_transport_tx_encode_batch (items : list linkg_transport_tx_item) (states : list linkg_transport_tx_state)
    (q : class_ptr) : SM (Z * linkg_transport_tx_frame_batch) :=
  encode_loop (zip items states) q.

(** ** Submission *)

Definition _linkg_transport_tx_link_class (traffic_class : Z) : Z :=
  if traffic_class =? LINKG_TRANSPORT_CLASS_REALTIME then LINKG_LINK_TX_CLASS_REALTIME
  else if traffic_class =? LINKG_TRANSPORT_CLASS_VIDEO then LINKG_LINK_TX_CLASS_VIDEO
  else LINKG_LINK_TX_CLASS_DATA.

(** One result after one more target. *)
Definition merge_result (r target : Z) : Z :=
  if target =? 0 then 0 else if r =? - EINPROGRESS then target else r.

Definition final_result (r : Z) : Z := if r =? - EINPROGRESS then - EIO else r.

Definition frame_bytes (packets : list pkt_ptr) (p : linkg_packet_pool) : list (list Z) := payload p <$> packets.

(** Hand the batch to one target; the ghost trace records it. *)
Definition submit_target (t : linkg_transport_tx_target) (tx_class : Z) (packets : list pkt_ptr) : SM (list Z) :=
  n ← transport observe;
  p ← gets ts_pool;
  r ← pool (tl_submit n t tx_class packets (replicate (length packets) (- EINPROGRESS)));
  let target_results := if fst r <? 0 then replicate (length packets) (fst r) else snd r in
  modify (fun s => TxSystem (ts_transport s) (ts_pool s) (ts_trace s ++ [Submission t (frame_bytes packets p) target_results])) ;;
  mret target_results.

Fixpoint submit_targets (targets : list linkg_transport_tx_target) (tx_class : Z) (packets : list pkt_ptr) (results : list Z)
    : SM (list Z) :=
  match targets with
  | [] => mret results
  | t :: targets' =>
      target_results ← submit_target t tx_class packets;
      submit_targets targets' tx_class packets (zip_with merge_result results target_results)
  end.

Definition count_zero (results : list Z) : Z := sumZ (fun r => if r =? 0 then 1 else 0) results.

(** The accepted count and the results. *)
Definition _linkg_transport_tx_submit_wire_batch (ctx : linkg_transport_tx_context) (packets : list pkt_ptr) : SM (Z * list Z) :=
  targets ← of_option (xc_targets ctx);
  results ← submit_targets targets (_linkg_transport_tx_link_class (xc_traffic_class ctx)) packets
              (replicate (length packets) (- EINPROGRESS));
  let results := final_result <$> results in
  mret (count_zero results, results).

(** ** Verdicts and statistics *)

(** The first result of a packet's frames that is not zero. *)
Definition first_failure (results : list Z) : Z := default 0 (head (filter (fun r => r <> 0) results)).

Definition frames_of (x : linkg_transport_tx_state) (frame_results : list Z) : list Z :=
  take (Z.to_nat (xs_frame_count x)) (drop (Z.to_nat (xs_frame_offset x)) frame_results).

(** The results; a packet whose first frame was refused gets its layout back. *)
Fixpoint finalize_loop (items : list (linkg_transport_tx_item * linkg_transport_tx_state)) (frame_results : list Z)
    : PM (list Z) :=
  match items with
  | [] => mret []
  | (item, x) :: items' =>
      let result := first_failure (frames_of x frame_results) in
      when (negb (result =? 0) && negb (default 0 (frame_results !! Z.to_nat (xs_frame_offset x)) =? 0))
        (restore_packet item x) ;;
      rest ← finalize_loop items' frame_results;
      mret (result :: rest)
  end.

Definition _linkg_transport_tx_finalize_results (items : list linkg_transport_tx_item) (states : list linkg_transport_tx_state)
    (frame_results : list Z) : PM (Z * list Z) :=
  results ← finalize_loop (zip items states) frame_results;
  mret (count_zero results, results).

Definition stats_sent (accepted : bool) (bytes : Z) (t : linkg_transport_class_stats) : linkg_transport_class_stats :=
  ClassStats
    (if accepted then u64 (st_tx_bytes t + bytes) else st_tx_bytes t)
    (if accepted then u64 (st_tx_packets t + 1) else st_tx_packets t)
    (if accepted then st_tx_failed_bytes t else u64 (st_tx_failed_bytes t + bytes))
    (if accepted then st_tx_failed_packets t else u64 (st_tx_failed_packets t + 1))
    (st_rx_bytes t) (st_rx_packets t) (st_rx_lost_packets t) (st_rx_duplicate_packets t) (st_rx_out_of_order_packets t)
    (st_last_tx_ms t) (st_last_rx_ms t) (st_last_user_tx_ms t) (st_last_user_rx_ms t).

Definition stats_times (accepted user : bool) (now_ms : Z) (t : linkg_transport_class_stats) : linkg_transport_class_stats :=
  ClassStats (st_tx_bytes t) (st_tx_packets t) (st_tx_failed_bytes t) (st_tx_failed_packets t)
    (st_rx_bytes t) (st_rx_packets t) (st_rx_lost_packets t) (st_rx_duplicate_packets t) (st_rx_out_of_order_packets t)
    (if accepted then now_ms else st_last_tx_ms t) (st_last_rx_ms t)
    (if user then now_ms else st_last_user_tx_ms t) (st_last_user_rx_ms t).

Definition set_class_stats (t : linkg_transport_class_stats) (c : linkg_transport_peer_class) : linkg_transport_peer_class :=
  PeerClass (pc_tx_order_lock c) (pc_rx_user_window c) (pc_rx_control_window c) t (pc_tx_user_sequence c) (pc_tx_control_sequence c).

(** Shared by the two recorders: the payload lengths, whether each frame is user
    data, and the results. *)
Definition record_frames (q : class_ptr) (rows : list (Z * bool)) (results : list Z) : M (transport_state C) unit :=
  let accepted := existsb (Z.eqb 0) results in
  let user_activity := existsb snd rows in
  class_update (fst q) (snd q) (fun c => set_class_stats
    (foldl (fun t '((bytes, _), r) => stats_sent (r =? 0) bytes t) (pc_stats c) (zip rows results)) c) ;;
  when (accepted || user_activity)
    (n ← observe;
     class_update (fst q) (snd q) (fun c => set_class_stats (stats_times accepted user_activity (elapsed_ms n) (pc_stats c)) c)).

Definition _linkg_transport_tx_record_stats (q : class_ptr) (batch : linkg_transport_tx_frame_batch) (frame_results : list Z)
    : M (transport_state C) unit :=
  record_frames q ((fun f => (xf_payload_length f, xf_user_data f)) <$> batch) frame_results.

Definition _linkg_transport_tx_record_forward_stats (q : class_ptr) (items : list linkg_transport_forward_item) (types : list Z)
    (results : list Z) : M (transport_state C) unit :=
  record_frames q (zip_with (fun it type => (fi_payload_length it, is_user_data type)) items types) results.

(** ** Sending *)

Definition rollback (q : class_ptr) (start : linkg_transport_tx_sequence_state) : M (transport_state C) unit :=
  class_update (fst q) (snd q) (set_sequences start).

Definition unlock_class (q : class_ptr) : M (transport_state C) unit := order_unlock (fst q) (snd q).

(** The result and the results array. *)
Definition _linkg_transport_tx_send_chunk (ctx : linkg_transport_tx_context) (items : list linkg_transport_tx_item)
    : SM (Z * list Z) :=
  let count := Z.of_nat (length items) in
  if count =? 0 then mret (- EINVAL, [])
  else if LINKG_TRANSPORT_TX_BATCH_MAX <? count then mret (- EOVERFLOW, [])
  else
    prepared ← pool (_linkg_transport_tx_prepare_states items);
    let '(ret, states) := prepared in
    if negb (ret =? 0) then pool (_linkg_transport_tx_cleanup_states states) ;; mret (ret, [])
    else
      acquired ← transport (_linkg_transport_tx_acquire_state ctx states);
      match acquired with
      | inl ret => pool (_linkg_transport_tx_cleanup_states states) ;; mret (ret, [])
      | inr (q, states) =>
          c ← transport (class_read q);
          let start := sequences_of c in
          encoded ← _linkg_transport_tx_encode_batch items states q;
          let '(ret, frame_batch) := encoded in
          if negb (ret =? 0) then
            transport (rollback q start) ;;
            pool (_linkg_transport_tx_restore_packets items states) ;;
            transport (unlock_class q) ;;
            pool (_linkg_transport_tx_cleanup_states states) ;;
            mret (ret, [])
          else
            submitted ← _linkg_transport_tx_submit_wire_batch ctx (xf_packet <$> frame_batch);
            let '(accepted_frames, frame_results) := submitted in
            when (accepted_frames =? 0) (transport (rollback q start)) ;;
            transport (_linkg_transport_tx_record_stats q frame_batch frame_results) ;;
            final ← pool (_linkg_transport_tx_finalize_results items states frame_results);
            transport (unlock_class q) ;;
            pool (_linkg_transport_tx_cleanup_states states) ;;
            mret final
      end.

(** The chunk loop: the success count, [first_error], [processed] and the results. *)
Fixpoint send_loop (fuel : nat) (ctx : linkg_transport_tx_context) (items : list linkg_transport_tx_item)
    : SM (Z * Z * bool * list Z) :=
  match items, fuel with
  | [], _ => mret (0, 0, false, [])
  | _ :: _, O => of_option None
  | _ :: _, S fuel' =>
      let chunk := take (Z.to_nat LINKG_TRANSPORT_TX_BATCH_MAX) items in
      sent ← _linkg_transport_tx_send_chunk ctx chunk;
      let '(ret, results) := sent in
      tail ← send_loop fuel' ctx (drop (Z.to_nat LINKG_TRANSPORT_TX_BATCH_MAX) items);
      let '(success_count, first_error, processed, rest) := tail in
      if ret <? 0 then mret (success_count, ret, processed, replicate (length chunk) ret ++ rest)
      else mret (ret + success_count, first_error, true, results ++ rest)
  end.

(** [results] says whether the array is there; the result and the array's content. *)
Definition linkg_transport_send_batch (ctx : option linkg_transport_tx_context) (items : option (list linkg_transport_tx_item))
    (results : bool) : SM (Z * list Z) :=
  x ← transport context;
  if negb (cx_initialized x) then mret (- ENODEV, [])
  else match ctx, items with
  | Some c, Some l =>
      if negb results || bool_decide (l = []) then mret (- EINVAL, [])
      else
        ret ← pool (_linkg_transport_tx_validate_batch ctx items);
        if negb (ret =? 0) then mret (ret, [])
        else
          r ← send_loop (length l) c l;
          let '(success_count, first_error, processed, out) := r in
          mret (if negb processed then first_error else success_count, out)
  | _, _ => mret (- EINVAL, [])
  end.

Definition linkg_transport_send (ctx : option linkg_transport_tx_context) (item : option linkg_transport_tx_item) : SM Z :=
  match item with
  | None => mret (- EINVAL)
  | Some it =>
      r ← linkg_transport_send_batch ctx (Some [it]) true;
      let '(ret, results) := r in
      if ret <? 0 then mret ret else of_option (results !! 0%nat)
  end.

(** ** Relaying *)

(** The checks and the types. *)
Fixpoint forward_types (items : list linkg_transport_forward_item) : PM (Z * list Z) :=
  match items with
  | [] => mret (0, [])
  | it :: items' =>
      if bool_decide (fi_packet it = None) || (fi_payload_length it =? 0) then mret (- EINVAL, [])
      else
        r ← linkg_transport_wire_decode (fi_packet it) false;
        if negb (fst r =? 0) then mret (fst r, [])
        else
          h ← of_option (snd r);
          rest ← forward_types items';
          mret (fst rest, th_type h :: snd rest)
  end.

Fixpoint forward_update (items : list (linkg_transport_forward_item * Z)) (q : class_ptr) : SM Z :=
  match items with
  | [] => mret 0
  | (it, type) :: items' =>
      sequence ← transport (_linkg_transport_tx_next_sequence q type);
      ret ← pool (linkg_transport_wire_update_sequence (fi_packet it) sequence);
      if negb (ret =? 0) then mret ret else forward_update items' q
  end.

Definition linkg_transport_forward_batch (ctx : option linkg_transport_tx_context)
    (items : option (list linkg_transport_forward_item)) (results : bool) : SM (Z * list Z) :=
  x ← transport context;
  if negb (cx_initialized x) then mret (- ENODEV, [])
  else match ctx, items with
  | Some c, Some l =>
      if negb results || bool_decide (l = []) then mret (- EINVAL, [])
      else if LINKG_TRANSPORT_FORWARD_BATCH_MAX <? Z.of_nat (length l) then mret (- EOVERFLOW, [])
      else
        let ret := _linkg_transport_tx_validate_context ctx in
        if negb (ret =? 0) then mret (ret, [])
        else
          typed ← pool (forward_types l);
          let '(ret, types) := typed in
          if negb (ret =? 0) then mret (ret, [])
          else
            acquired ← transport (_linkg_transport_tx_acquire_forward_state c);
            match acquired with
            | inl ret => mret (ret, [])
            | inr (q, _) =>
                k ← transport (class_read q);
                let start := sequences_of k in
                ret ← forward_update (zip l types) q;
                if negb (ret =? 0) then
                  transport (rollback q start) ;;
                  transport (unlock_class q) ;;
                  mret (ret, [])
                else
                  submitted ← _linkg_transport_tx_submit_wire_batch c (omap fi_packet l);
                  let '(accepted_count, out) := submitted in
                  when (accepted_count =? 0) (transport (rollback q start)) ;;
                  transport (_linkg_transport_tx_record_forward_stats q l types out) ;;
                  transport (unlock_class q) ;;
                  mret (accepted_count, out)
            end
  | _, _ => mret (- EINVAL, [])
  end.

End Tx.
