(* ===== verification/TransportTxEncode.v ===== *)
(** * Sending through the transport: what goes on the wire

    The frames of a chunk as a function of the packets' bytes and the class's
    sequence numbers; the encoding loop produces exactly these frames, changes
    no other packet, and what it overwrote can be given back. *)

From S2P Require Import Prelude.
From S2P Require Import PacketStore.
From S2P Require Import PacketPool.
From S2P Require Import PacketData.
From S2P Require Import PacketLease.
From S2P Require Import Bytes.
From S2P Require Import TransportTypes.
From S2P Require Import TransportWire.
From S2P Require Import TransportWindow.
From S2P Require Import TransportPeer.
From S2P Require Import TransportPeerSafety.
From S2P Require Import TransportTx.

(** ** The content of a packet *)

(** Packet [i] is live with data offset [off], flags [f] and payload [bs]. *)
Definition has (p : linkg_packet_pool) (i : nat) (off f : Z) (bs : list Z) : Prop :=
  exists k, live p i k /\ pk_data_offset k = off /\ pk_flags k = f /\ payload p i = bs.

(** The slot of packet [i] holds [bs] at [off], inside the data window or not. *)
Definition stored (p : linkg_packet_pool) (i : nat) (off : Z) (bs : list Z) : Prop :=
  0 <= off /\ off + Z.of_nat (length bs) <= po_slot_size p /\
  take (length bs) (drop (Z.to_nat off) (slot_view p i)) = bs.

Lemma has_length p i off f bs k :
  has p i off f bs -> packet_of p i = Some k -> pk_data_length k = Z.of_nat (length bs).
Proof.
  intros (k'&L&_&_&<-) Hk. pose proof L as (_&_&Hk'). assert (k' = k) as -> by congruence.
  by destruct (live_bounds p i k L) as (_&_&_&<-).
Qed.

Lemma has_stored p i off f bs : has p i off f bs -> stored p i off bs.
Proof.
  intros H. pose proof H as (k&L&<-&_&Hb). destruct L as (W&R&K). pose proof (has_length _ _ _ _ _ k H K) as El.
  destruct (live_wf p i k W K) as (_&(?&?&?&?)&_). split; [done|]. split; [lia|].
  rewrite <- Hb at 2. unfold payload. rewrite K. f_equal. lia.
Qed.

Lemma stored_take p i off bs n : stored p i off bs -> stored p i off (take n bs).
Proof.
  intros (H1&H2&H3). split; [done|]. rewrite length_take. split; [lia|].
  rewrite <- H3 at 2. by rewrite take_take.
Qed.

Lemma has_lease mine T p p' i off f bs :
  lease mine T p p' -> 0 < mine i -> ~ T i -> has p i off f bs -> has p' i off f bs.
Proof.
  intros L Hi HT (k&(_&_&K)&<-&<-&<-). destruct (lease_live mine T p p' i k L Hi HT K) as (n&Lv&Ep).
  by exists (set_refcount n k).
Qed.

Lemma stored_lease mine T p p' i off bs :
  lease mine T p p' -> 0 < mine i -> ~ T i -> stored p i off bs -> stored p' i off bs.
Proof.
  intros L Hi HT (H1&H2&H3). split; [done|].
  rewrite (le_size _ _ _ _ L), (le_slot _ _ _ _ L) by done. done.
Qed.

(** ** Steps on one packet *)

Section Steps.
Context (mine : nat -> Z) (i : nat).

(** A step on packet [i]: the rest is lent. *)
Definition touches (p p' : linkg_packet_pool) : Prop := lease mine (eq i) p p'.

Lemma touches_local p p' k :
  owned_by mine p -> live p' i k -> local_change i p p' -> touches p p'.
Proof. intros O (W&_&_) Hl. by apply local_lease. Qed.

Lemma flags_step p off f bs g :
  owned_by mine p -> has p i off f bs ->
  exists p', packet_update i (fun k => set_flags (g (pk_flags k)) k) p = Some (tt, p') /\
    touches p p' /\ has p' i off (g f) bs /\ slot_view p' i = slot_view p i.
Proof.
  intros O (k&(W&R&K)&<-&<-&<-).
  destruct (update_spec p i (fun k => set_flags (g (pk_flags k)) k) W R) as (p'&k'&E&W'&Sm&Rr&K1&K').
  { intros k0 []. by split. }
  assert (k' = k) as -> by congruence. exists p'.
  assert (live p' i (set_flags (g (pk_flags k)) k)) as L' by (split; [done|split; [lia|done]]).
  pose proof (same_except_slot_view i p p' i Sm) as Ev. split; [done|]. split.
  - eapply touches_local; [done|exact L'|by apply same_except_local].
  - split; [|done]. eexists. split; [exact L'|]. splits; try done. unfold payload. by rewrite K', K, Ev.
Qed.

Lemma set_flags_step p off f bs v :
  owned_by mine p -> has p i off f bs ->
  exists p', packet_update i (set_flags v) p = Some (tt, p') /\
    touches p p' /\ has p' i off v bs /\ slot_view p' i = slot_view p i.
Proof. intros O H. exact (flags_step p off f bs (fun _ => v) O H). Qed.

(** Moving the window over bytes that are stored. *)
Lemma window_step p off f bs off' bs' g :
  owned_by mine p -> has p i off f bs -> stored p i off' bs' ->
  exists p', packet_update i (fun k => set_flags (g (pk_flags k)) (set_window off' (Z.of_nat (length bs')) k)) p = Some (tt, p') /\
    touches p p' /\ has p' i off' (g f) bs' /\ slot_view p' i = slot_view p i.
Proof.
  intros O (k&(W&R&K)&<-&<-&<-) (H1&H2&H3).
  destruct (update_spec p i (fun k => set_flags (g (pk_flags k)) (set_window off' (Z.of_nat (length bs')) k)) W R)
    as (p'&k'&E&W'&Sm&Rr&K1&K').
  { intros k0 []. split; [split; cbn; try done; lia|done]. }
  assert (k' = k) as -> by congruence. exists p'.
  assert (live p' i (set_flags (g (pk_flags k)) (set_window off' (Z.of_nat (length bs')) k))) as L'
    by (split; [done|split; [lia|done]]).
  pose proof (same_except_slot_view i p p' i Sm) as Ev. split; [done|]. split.
  - eapply touches_local; [done|exact L'|by apply same_except_local].
  - split; [|done]. eexists. split; [exact L'|]. splits; try done. unfold payload. rewrite K', Ev. cbn.
    rewrite <- H3 at 2. f_equal. lia.
Qed.

Lemma length_step p off f bs n :
  owned_by mine p -> has p i off f bs -> 0 <= n <= Z.of_nat (length bs) ->
  exists p', set_data_length i n p = Some (tt, p') /\
    touches p p' /\ has p' i off f (take (Z.to_nat n) bs) /\ slot_view p' i = slot_view p i.
Proof.
  intros O H Hn. pose proof (has_stored _ _ _ _ _ H) as St. apply (stored_take _ _ _ _ (Z.to_nat n)) in St.
  destruct (window_step p off f bs off _ id O H St) as (p'&E&R). exists p'. split; [|done].
  destruct H as (k&(_&_&K)&<-&_&_). rewrite <- E. unfold set_data_length. apply (packet_update_ext p i k); [done|].
  rewrite length_take. replace (Z.of_nat (Z.to_nat n `min` length bs)) with n by lia. by destruct k.
Qed.

(** Prepending a header keeps what is stored from the old payload on. *)
Lemma push_step p off f bs hd (e : Z) off' bs' :
  owned_by mine p -> has p i off f bs -> 0 < Z.of_nat (length hd) <= off ->
  off <= off' -> stored p i off' bs' ->
  exists p', (data ← linkg_packet_push (Some i) (Z.of_nat (length hd));
     match data with None => mret e | Some addr => data_store addr hd ;; mret 0 end) p = Some (0, p') /\
    touches p p' /\ has p' i (off - Z.of_nat (length hd)) f (hd ++ bs) /\ stored p' i off' bs'.
Proof.
  intros O (k&L&<-&<-&<-) Hh Ho (H1&H2&H3).
  destruct (push_header_spec p i k hd e L Hh) as (p'&E&L'&C&P). exists p'. split; [done|]. split.
  - by eapply touches_local.
  - split; [by eexists|]. split; [done|]. rewrite (lc_size _ _ _ C). split; [done|].
    destruct (push_spec p i k _ L Hh) as (p1&E1&L1&S1&R1&_). unfold mbind, M_bind in E. rewrite E1 in E.
    destruct L1 as (W1&_&K1). pose proof L as (W&_&K). destruct (live_wf p i k W K) as (_&(?&?&?&?)&_).
    assert (po_slot_size p1 = po_slot_size p /\ slot_base p1 i = slot_base p i) as [Ez Eb]
      by (destruct S1 as (_&_&?&?&_); split; [done|unfold slot_base; congruence]).
    destruct (slot_write_isolated_fact p1 i (pk_data_offset k - Z.of_nat (length hd)) hd W1)
      as (p2&E2&_&_&V&_); [by eexists|lia|lia|].
    rewrite Eb in E2. rewrite E2 in E. injection E as <-. rewrite V, (same_except_slot_view i p p1 i S1).
    pose proof (length_slot_view p i k W K) as Ls. rewrite <- H3 at 2. apply list_eq. intros j.
    destruct (decide (j < length bs')%nat); [|by rewrite !lookup_take_ge by lia].
    rewrite !lookup_take_lt, !lookup_drop, list_lookup_inserts_ge by lia. done.
Qed.
End Steps.

(** ** The class of a sender *)

Section Class.
Context {C : Type} `{TP : TransportParts C}.
Abbreviation peers s := (cx_peers (tr_context s)).

Definition class_at (t : transport_state C) (q : nat * nat) : option linkg_transport_peer_class :=
  peers t !! fst q ≫= fun p => pr_classes p !! snd q.

Definition class_set (q : nat * nat) (f : linkg_transport_peer_class -> linkg_transport_peer_class) (t : transport_state C)
    : transport_state C :=
  tset_context (ctx_set_peers (alter (fun p => set_classes (alter f (snd q) (pr_classes p)) p) (fst q) (peers t))
    (cx_peer_count (tr_context t)) (tr_context t)) t.

Lemma class_at_split t q c : class_at t q = Some c ->
  exists p, peers t !! fst q = Some p /\ pr_classes p !! snd q = Some c.
Proof. unfold class_at. destruct (peers t !! fst q) as [p|] eqn:E; [|done]. intros H. by exists p. Qed.

Lemma class_update_run t q c f : class_at t q = Some c -> class_update (fst q) (snd q) f t = Some (tt, class_set q f t).
Proof.
  intros (p&Hp&Hc)%class_at_split. unfold class_update, peer_update, peer_read, context, update, class_set.
  unfold mbind, M_bind, gets, of_option. rewrite Hp. unfold mret, M_ret, class_at_index. rewrite Hc.
  unfold assert_. rewrite bool_decide_true by by eapply lookup_lt_Some. cbn. rewrite Hp. cbn.
  by rewrite (alter_lookup _ _ _ _ Hp), (alter_lookup _ _ _ _ Hc).
Qed.

Lemma class_read_run t q c : class_at t q = Some c -> class_read q t = Some (c, t).
Proof.
  intros (p&Hp&Hc)%class_at_split. unfold class_read, peer_read, context, mbind, M_bind, gets. rewrite Hp. cbn. by rewrite Hc.
Qed.

Lemma class_at_set t q f c : class_at t q = Some c -> class_at (class_set q f t) q = Some (f c).
Proof.
  intros (p&Hp&Hc)%class_at_split. unfold class_at, class_set. cbn. rewrite list_lookup_alter_eq, Hp. cbn.
  by rewrite list_lookup_alter_eq, Hc.
Qed.

Lemma class_set_compose q f g t : class_set q f (class_set q g t) = class_set q (fun c => f (g c)) t.
Proof.
  unfold class_set, tset_context, ctx_set_peers. cbn. f_equal. f_equal.
  rewrite list_alter_alter_eq. apply list_alter_ext; [|done]. intros p _. cbn. unfold set_classes. cbn. f_equal.
  by rewrite list_alter_alter_eq.
Qed.

Lemma class_set_ext q f g t c : class_at t q = Some c -> f c = g c -> class_set q f t = class_set q g t.
Proof.
  intros (p&Hp&Hc)%class_at_split H. unfold class_set. do 2 f_equal. apply list_alter_ext; [|done].
  intros p' Hp'. assert (p' = p) as -> by congruence. unfold set_classes. f_equal. apply list_alter_ext; [|done].
  intros c' Hc'. assert (c' = c) as -> by congruence. done.
Qed.

Lemma class_set_id q f t c : class_at t q = Some c -> f c = c -> class_set q f t = t.
Proof.
  intros (p&Hp&Hc)%class_at_split Hf. unfold class_set, tset_context, ctx_set_peers.
  assert (set_classes (alter f (snd q) (pr_classes p)) p = p) as E.
  { rewrite (alter_lookup _ _ _ _ Hc), Hf, list_insert_id by done. by destruct p. }
  rewrite (alter_lookup _ _ _ _ Hp). cbv beta. rewrite E, list_insert_id by done. by destruct t as [[]].
Qed.

(** ** Sequence numbers *)

Definition advance (type : Z) (s : linkg_transport_tx_sequence_state) : linkg_transport_tx_sequence_state :=
  if is_user_data type then TxSequence (u32 (tq_tx_user_sequence s + 1)) (tq_tx_control_sequence s)
  else TxSequence (tq_tx_user_sequence s) (u32 (tq_tx_control_sequence s + 1)).

Definition current (type : Z) (s : linkg_transport_tx_sequence_state) : Z :=
  if is_user_data type then tq_tx_user_sequence s else tq_tx_control_sequence s.

Definition at_sequence (q : nat * nat) (s : linkg_transport_tx_sequence_state) : transport_state C -> transport_state C :=
  class_set q (set_sequences s).

Lemma next_sequence_eq c type :
  next_sequence c type =
    (set_sequences (advance type (sequences_of c)) c, current type (advance type (sequences_of c))).
Proof. unfold next_sequence, advance, current, is_user_data. by destruct (type =? _). Qed.

Lemma at_sequence_self t q c : class_at t q = Some c -> at_sequence q (sequences_of c) t = t.
Proof. intros H. apply (class_set_id _ _ _ c H). by destruct c. Qed.

Lemma at_sequence_twice q s s' t : at_sequence q s (at_sequence q s' t) = at_sequence q s t.
Proof. unfold at_sequence. by rewrite class_set_compose. Qed.

Lemma next_sequence_run t0 q c s type :
  class_at t0 q = Some c ->
  _linkg_transport_tx_next_sequence q type (at_sequence q s t0) =
    Some (current type (advance type s), at_sequence q (advance type s) t0).
Proof.
  intros H. pose proof (class_at_set t0 q (set_sequences s) c H) as H1.
  unfold _linkg_transport_tx_next_sequence, mbind, M_bind. fold (at_sequence q s t0) in H1.
  rewrite (class_read_run _ _ _ H1). rewrite (class_update_run _ _ _ _ H1). rewrite next_sequence_eq. cbn [fst snd].
  unfold mret, M_ret. do 2 f_equal. rewrite <- (at_sequence_twice q (advance type s) s t0).
  apply (class_set_ext _ _ _ _ _ H1). by rewrite next_sequence_eq.
Qed.

End Class.

(** ** The frames of a chunk *)

(** A packet of a chunk: its item, its state and its bytes. *)
Record job := Job {
  jb_item : linkg_transport_tx_item;
  jb_state : linkg_transport_tx_state;
  jb_bytes : list Z }.

Definition job_length (g : job) : Z := Z.of_nat (length (jb_bytes g)).
Definition job_packets (g : job) : list pkt_ptr :=
  option_list (xi_packet (jb_item g)) ++ option_list (xs_tail_packet (jb_state g)).

Definition fragmented (g : job) : bool := LINKG_TRANSPORT_PAYLOAD_MAX_SIZE <? job_length g.

Section Frames.
Context (local : Z).

Definition normal_frame (g : job) (sequence : Z) : list Z :=
  header_bytes (wire_header (_linkg_transport_tx_build_header local (jb_item g) LINKG_TRANSPORT_FLAG_NONE sequence)) ++ jb_bytes g.

Definition fragment_frame (g : job) (sequence offset : Z) (bs : list Z) : list Z :=
  header_bytes (wire_header (_linkg_transport_tx_build_header local (jb_item g) LINKG_TRANSPORT_FLAG_FRAGMENT sequence)) ++
  fragment_bytes (FragmentHeader (xs_packet_id (jb_state g)) offset (job_length g)) ++ bs.

Definition fragment_size : nat := Z.to_nat LINKG_TRANSPORT_FRAGMENT_PAYLOAD_MAX_SIZE.

Definition packet_frames (s : linkg_transport_tx_sequence_state) (g : job) : list (list Z) :=
  let type := xi_type (jb_item g) in
  if fragmented g then
    [fragment_frame g (current type (advance type s)) 0 (take fragment_size (jb_bytes g));
     fragment_frame g (current type (advance type (advance type s))) LINKG_TRANSPORT_FRAGMENT_PAYLOAD_MAX_SIZE
       (drop fragment_size (jb_bytes g))]
  else [normal_frame g (current type (advance type s))].

Definition packet_advance (s : linkg_transport_tx_sequence_state) (g : job) : linkg_transport_tx_sequence_state :=
  let type := xi_type (jb_item g) in
  if fragmented g then advance type (advance type s) else advance type s.

Fixpoint chunk_frames (s : linkg_transport_tx_sequence_state) (jobs : list job) : list (list Z) :=
  match jobs with
  | [] => []
  | g :: jobs' => packet_frames s g ++ chunk_frames (packet_advance s g) jobs'
  end.

Definition chunk_advance (s : linkg_transport_tx_sequence_state) (jobs : list job) : linkg_transport_tx_sequence_state :=
  foldl packet_advance s jobs.

(** The rows of the frame batch. *)
Definition packet_rows (g : job) : list tx_frame :=
  let user := is_user_data (xi_type (jb_item g)) in
  match xi_packet (jb_item g), xs_tail_packet (jb_state g) with
  | Some i, None => [TxFrame i (job_length g) user]
  | Some i, Some j =>
      [TxFrame i LINKG_TRANSPORT_FRAGMENT_PAYLOAD_MAX_SIZE user;
       TxFrame j (job_length g - LINKG_TRANSPORT_FRAGMENT_PAYLOAD_MAX_SIZE) user]
  | None, _ => []
  end.

(** ** Prepared and encoded packets *)

Definition item_ok (it : linkg_transport_tx_item) : Prop :=
  linkg_transport_type_valid (xi_type it) = true /\
  _linkg_transport_wire_node_id_valid (xi_destination_node_id it) = true.

(** The packet of [g] holds its bytes as its state says, the tail the rest of them. *)
Definition ready (p : linkg_packet_pool) (g : job) : Prop :=
  let x := jb_state g in
  exists i, xi_packet (jb_item g) = Some i /\ item_ok (jb_item g) /\
    has p i (xs_original_data_offset x) (xs_original_flags x) (jb_bytes g) /\
    xs_original_data_length x = job_length g /\ 1 <= job_length g <= LINKG_TRANSPORT_PACKET_MAX_SIZE /\
    if fragmented g then
      xs_frame_count x = LINKG_TRANSPORT_FRAGMENT_COUNT_MAX /\
      LINKG_TRANSPORT_WIRE_HEADER_MAX_SIZE <= xs_original_data_offset x /\
      exists j off, xs_tail_packet x = Some j /\ j <> i /\ LINKG_TRANSPORT_WIRE_HEADER_MAX_SIZE <= off /\
        has p j off (xs_original_flags x) (drop fragment_size (jb_bytes g))
    else xs_frame_count x = 1 /\ LINKG_TRANSPORT_WIRE_HEADER_SIZE <= xs_original_data_offset x /\ xs_tail_packet x = None.

(** What encoding leaves: the frames, with the group flags of a fragmented packet,
    and the original bytes still in the slot. *)
Definition encoded (p : linkg_packet_pool) (s : linkg_transport_tx_sequence_state) (g : job) : Prop :=
  let x := jb_state g in
  let f := clear_group (xs_original_flags x) in
  exists i, xi_packet (jb_item g) = Some i /\ stored p i (xs_original_data_offset x) (jb_bytes g) /\
    match packet_frames s g, xs_tail_packet x with
    | [b], None => exists off, has p i off f b
    | [b; b'], Some j => exists off off', has p i off (Z.lor f LINKG_PACKET_FLAG_TX_GROUP_FIRST) b /\
        has p j off' (Z.lor f LINKG_PACKET_FLAG_TX_GROUP_LAST) b'
    | _, _ => False
    end.

Lemma ready_lease mine T p p' g :
  lease mine T p p' -> (forall i, i ∈ job_packets g -> 0 < mine i /\ ~ T i) -> ready p g -> ready p' g.
Proof.
  intros L Hm (i&Ei&Hok&Hi&Hl&Hr&H). exists i. split; [done|]. split; [done|]. split; [|split; [done|split; [done|]]].
  { eapply has_lease; [exact L|..|exact Hi]; apply Hm; unfold job_packets; rewrite Ei; by left. }
  destruct (fragmented g); [|done]. destruct H as (Hc&Ho&j&off&Ej&Hn&Hoff&Hj).
  split; [done|]. split; [done|]. exists j, off. splits; [done..|]. eapply has_lease; [exact L|..|exact Hj]; apply Hm; unfold job_packets;
    rewrite Ei, Ej; right; left.
Qed.

Lemma encoded_lease mine T p p' s g :
  lease mine T p p' -> (forall i, i ∈ job_packets g -> 0 < mine i /\ ~ T i) -> encoded p s g -> encoded p' s g.
Proof.
  intros L Hm (i&Ei&Hs&H). exists i. split; [done|].
  assert (0 < mine i /\ ~ T i) as [Mi Ti] by (apply Hm; unfold job_packets; rewrite Ei; by left).
  split; [by eapply stored_lease|]. destruct (packet_frames s g) as [|b [|b' [|]]]; try done; destruct (xs_tail_packet _) as [j|] eqn:Ej; try done.
  - destruct H as (off&H). exists off. by eapply has_lease.
  - assert (0 < mine j /\ ~ T j) as [Mj Tj] by (apply Hm; unfold job_packets; rewrite Ei, Ej; right; left).
    destruct H as (off&off'&H&H'). exists off, off'. split; by eapply has_lease.
Qed.

End Frames.

(** ** Encoding steps *)

Section Headers.
Context (mine : nat -> Z) (i : nat).

Lemma encode_step p off f bs h off0 bs0 :
  owned_by mine p -> has p i off f bs -> LINKG_TRANSPORT_WIRE_HEADER_SIZE <= off -> encode_valid h = true ->
  Z.of_nat (length bs) + LINKG_TRANSPORT_WIRE_HEADER_SIZE <= LINKG_TRANSPORT_WIRE_FRAME_MAX_SIZE ->
  off <= off0 -> stored p i off0 bs0 ->
  exists p', linkg_transport_wire_encode (Some i) (Some h) p = Some (0, p') /\ touches mine i p p' /\
    has p' i (off - LINKG_TRANSPORT_WIRE_HEADER_SIZE) f (header_bytes (wire_header h) ++ bs) /\ stored p' i off0 bs0.
Proof.
  intros O H Ho Hv Hl Hle Hs.
  destruct (push_step mine i p off f bs (header_bytes (wire_header h)) (- ENOSPC) off0 bs0) as (p'&E&R); try done.
  exists p'. split; [|exact R]. rewrite <- E. pose proof H as (k&L&<-&_&_). pose proof L as (_&_&K).
  pose proof (has_length _ _ _ _ _ k H K) as El. rewrite (encode_run p i k h L).
  replace (encode_error h k) with 0; [done|]. unfold encode_error. rewrite Hv, El. cbn [negb].
  unfold LINKG_TRANSPORT_WIRE_HEADER_SIZE, LINKG_TRANSPORT_WIRE_FRAME_MAX_SIZE in *.
  rewrite wrap_small by mlia. by bsimp.
Qed.

Lemma fragment_step p off f bs h off0 bs0 :
  owned_by mine p -> has p i off f bs -> LINKG_TRANSPORT_WIRE_FRAGMENT_HEADER_SIZE <= off ->
  fh_packet_id h <> 0 -> 1 <= Z.of_nat (length bs) <= LINKG_TRANSPORT_FRAGMENT_PAYLOAD_MAX_SIZE ->
  _linkg_transport_wire_fragment_layout_valid (fh_fragment_offset h) (fh_packet_length h) (Z.of_nat (length bs)) = true ->
  off <= off0 -> stored p i off0 bs0 ->
  exists p', linkg_transport_wire_fragment_encode (Some i) (Some h) p = Some (0, p') /\ touches mine i p p' /\
    has p' i (off - LINKG_TRANSPORT_WIRE_FRAGMENT_HEADER_SIZE) f (fragment_bytes h ++ bs) /\ stored p' i off0 bs0.
Proof.
  intros O H Ho Hid Hl Hv Hle Hs.
  destruct (push_step mine i p off f bs (fragment_bytes h) (- ENOSPC) off0 bs0) as (p'&E&R); try done.
  exists p'. split; [|exact R]. rewrite <- E. pose proof H as (k&L&<-&_&_). pose proof L as (_&_&K).
  pose proof (has_length _ _ _ _ _ k H K) as El. rewrite (fragment_encode_run p i k h L).
  change LINKG_TRANSPORT_FRAGMENT_PAYLOAD_MAX_SIZE with 1420 in Hl.
  replace (fragment_encode_error h k) with 0; [done|]. unfold fragment_encode_error. rewrite El, Hv. cbn [negb].
  unfold LINKG_TRANSPORT_WIRE_FRAGMENT_HEADER_SIZE, LINKG_TRANSPORT_WIRE_HEADER_SIZE, LINKG_TRANSPORT_WIRE_FRAME_MAX_SIZE in *.
  rewrite wrap_small by mlia. by bsimp.
Qed.
End Headers.

Definition chunk_packets (jobs : list job) : list pkt_ptr := concat (job_packets <$> jobs).
Definition chunk_rows (jobs : list job) : list tx_frame := concat (packet_rows <$> jobs).

Fixpoint all_encoded (local : Z) (p : linkg_packet_pool) (s : linkg_transport_tx_sequence_state) (jobs : list job) : Prop :=
  match jobs with
  | [] => True
  | g :: jobs' => encoded local p s g /\ all_encoded local p (packet_advance s g) jobs'
  end.

Lemma all_encoded_lease local mine T p p' s jobs :
  lease mine T p p' -> (forall i, i ∈ chunk_packets jobs -> 0 < mine i /\ ~ T i) -> all_encoded local p s jobs -> all_encoded local p' s jobs.
Proof.
  intros L. revert s. induction jobs as [|g jobs IH]; intros s Hm; cbn; [done|]. intros [H H']. split.
  - eapply encoded_lease; [exact L| |exact H]. intros i Hi. apply Hm. apply elem_of_app. by left.
  - apply IH; [|done]. intros i Hi. apply Hm. apply elem_of_app. by right.
Qed.

(** The bytes in the packets of the batch. *)
Lemma frame_bytes_spec local p s jobs :
  all_encoded local p s jobs -> frame_bytes (xf_packet <$> chunk_rows jobs) p = chunk_frames local s jobs.
Proof.
  revert s. induction jobs as [|g jobs IH]; intros s; [done|]. intros [(i&Ei&_&H) H'].
  unfold chunk_rows, frame_bytes. cbn [fmap list_fmap concat]. rewrite !fmap_app. cbn [chunk_frames]. f_equal; [|by apply IH].
  unfold packet_rows. rewrite Ei. destruct (packet_frames local s g) as [|b [|b' [|]]] eqn:E; try done;
    destruct (xs_tail_packet (jb_state g)); try done.
  - destruct H as (off&k&_&_&_&<-). done.
  - destruct H as (off&off'&(k&_&_&_&<-)&(k'&_&_&_&<-)). done.
Qed.
Lemma clear_group_idem f : clear_group (clear_group f) = clear_group f.
Proof. unfold clear_group. by rewrite <- Z.land_assoc, Z.land_diag. Qed.

Lemma build_valid local it flags sequence :
  _linkg_transport_wire_node_id_valid local = true -> item_ok it -> _linkg_transport_wire_flags_valid flags = true ->
  encode_valid (_linkg_transport_tx_build_header local it flags sequence) = true.
Proof.
  intros Hlocal [Ht Hd] Hf. unfold encode_valid, _linkg_transport_tx_build_header. cbn. rewrite Hd, Hf, Hlocal.
  rewrite wrap_small; [by rewrite Ht|]. unfold linkg_transport_type_valid in Ht. zb.
  unfold LINKG_TRANSPORT_TYPE_NONE, LINKG_TRANSPORT_TYPE_COUNT in *. mlia.
Qed.

Section Encode.
Context {C : Type} `{TP : TransportParts C}.
Context (t0 : transport_state C) (q : nat * nat) (c0 : linkg_transport_peer_class) (Hq : class_at t0 q = Some c0).
Context (mine : nat -> Z).

Abbreviation local := (cx_local_node_id (tr_context t0)).
Context (Hlocal : _linkg_transport_wire_node_id_valid local = true).

(** The state while the class has the sequence numbers [s]. *)
Definition at_ (s : linkg_transport_tx_sequence_state) (p : linkg_packet_pool) (tr : list submission) : tx_system C :=
  TxSystem (at_sequence q s t0) p tr.

Lemma transport_run {A} (m : M (transport_state C) A) s p tr a s' :
  m (at_sequence q s t0) = Some (a, at_sequence q s' t0) -> transport m (at_ s p tr) = Some (a, at_ s' p tr).
Proof. intros E. unfold transport, at_, zoom. cbn [ts_transport]. by rewrite E. Qed.

Lemma pool_run {A} (m : PM A) s p tr a p' : m p = Some (a, p') -> pool m (at_ s p tr) = Some (a, at_ s p' tr).
Proof. intros E. unfold pool, at_, zoom. cbn [ts_pool]. by rewrite E. Qed.

Lemma sequence_run type s p tr :
  transport (_linkg_transport_tx_next_sequence q type) (at_ s p tr) =
    Some (current type (advance type s), at_ (advance type s) p tr).
Proof. apply transport_run. by apply (next_sequence_run t0 q c0). Qed.

Lemma local_run s p tr :
  transport (gets (fun t : transport_state C => cx_local_node_id (tr_context t))) (at_ s p tr) = Some (local, at_ s p tr).
Proof. by apply transport_run. Qed.

Lemma lease_touch i T p p' p'' :
  lease mine T p p' -> T i -> touches mine i p' p'' -> lease mine T p p''.
Proof. intros L Hi L'. eapply lease_trans; [exact L|]. eapply lease_weaken; [|exact L']. by intros j <-. Qed.

Lemma encode_normal_spec p s tr g :
  owned_by mine p -> ready p g -> fragmented g = false -> (forall i, i ∈ job_packets g -> 0 < mine i) ->
  exists p', _linkg_transport_tx_encode_normal (jb_item g) (jb_state g) q (at_ s p tr) =
      Some ((0, packet_rows g), at_ (packet_advance s g) p' tr) /\
    lease mine (fun i => i ∈ job_packets g) p p' /\ encoded local p' s g.
Proof.
  intros O (i&Ei&Hok&Hi&Hl&Hr&H) Hf Hm. rewrite Hf in H. destruct H as (_&Ho&Et).
  assert (i ∈ job_packets g) as Hin by (unfold job_packets; rewrite Ei; by left).
  pose proof (Hm i Hin) as Mi. unfold _linkg_transport_tx_encode_normal, packet_rows. rewrite Ei, Et.
  cbn [of_option]. mrun. mstep (sequence_run (xi_type (jb_item g)) s p tr).
  destruct (flags_step mine i p _ _ _ clear_group O Hi) as (p1&E1&L1&H1&_).
  mstep (pool_run _ (advance (xi_type (jb_item g)) s) p tr tt p1 E1). mstep (local_run (advance (xi_type (jb_item g)) s) p1 tr).
  set (h := _linkg_transport_tx_build_header _ _ _ _).
  destruct (encode_step mine i p1 _ _ _ h (xs_original_data_offset (jb_state g)) (jb_bytes g) (le_owned _ _ _ _ L1) H1) as (p2&E2&L2&H2&S2).
  { done. } { by apply build_valid. }
  { unfold fragmented, job_length in Hf. zb. unfold LINKG_TRANSPORT_PAYLOAD_MAX_SIZE in Hf. lia. } { done. }
  { by eapply has_stored. }
  mstep (pool_run _ (advance (xi_type (jb_item g)) s) p1 tr 0 p2 E2). cbn [Z.eqb negb].
  unfold mret, M_ret. exists p2. split; [by rewrite Hl; unfold packet_advance; rewrite Hf|]. split.
  - eapply (lease_touch i); [|done|exact L2]. eapply (lease_touch i); [by apply lease_refl|done|exact L1].
  - exists i. split; [done|]. split; [done|]. unfold packet_frames. rewrite Hf, Et. by eexists.
Qed.

Lemma encode_fragment_spec p s tr j it fr sequence off f bs off0 bs0 :
  owned_by mine p -> has p j off f bs -> LINKG_TRANSPORT_WIRE_HEADER_MAX_SIZE <= off -> item_ok it ->
  fh_packet_id fr <> 0 -> 1 <= Z.of_nat (length bs) <= LINKG_TRANSPORT_FRAGMENT_PAYLOAD_MAX_SIZE ->
  _linkg_transport_wire_fragment_layout_valid (fh_fragment_offset fr) (fh_packet_length fr) (Z.of_nat (length bs)) = true ->
  off <= off0 -> stored p j off0 bs0 ->
  exists p', encode_fragment j it fr sequence (at_ s p tr) = Some (0, at_ s p' tr) /\ touches mine j p p' /\
    has p' j (off - LINKG_TRANSPORT_WIRE_HEADER_MAX_SIZE) f
      (header_bytes (wire_header (_linkg_transport_tx_build_header local it LINKG_TRANSPORT_FLAG_FRAGMENT sequence)) ++
       fragment_bytes fr ++ bs) /\
    stored p' j off0 bs0.
Proof.
  intros O H Ho Hok Hid Hl Hv Hle Hs. unfold LINKG_TRANSPORT_WIRE_HEADER_MAX_SIZE in *.
  unfold encode_fragment.
  destruct (fragment_step mine j p off f bs fr off0 bs0) as (p1&E1&L1&H1&S1); try done.
  { unfold LINKG_TRANSPORT_WIRE_FRAGMENT_HEADER_SIZE. lia. }
  mstep (pool_run _ s p tr 0 p1 E1). cbn [Z.eqb negb]. mstep (local_run s p1 tr).
  unfold LINKG_TRANSPORT_WIRE_FRAGMENT_HEADER_SIZE in *.
  destruct (encode_step mine j p1 _ _ _ (_linkg_transport_tx_build_header local it LINKG_TRANSPORT_FLAG_FRAGMENT sequence)
    off0 bs0 (le_owned _ _ _ _ L1) H1) as (p2&E2&L2&H2&S2).
  { unfold LINKG_TRANSPORT_WIRE_HEADER_SIZE. lia. } { by apply build_valid. }
  { rewrite length_app, length_fragment_bytes. change LINKG_TRANSPORT_FRAGMENT_PAYLOAD_MAX_SIZE with 1420 in Hl.
    unfold LINKG_TRANSPORT_WIRE_HEADER_SIZE, LINKG_TRANSPORT_WIRE_FRAME_MAX_SIZE in *. lia. }
  { lia. } { done. }
  exists p2. split; [by apply pool_run|]. split; [by eapply lease_trans|]. split; [|done].
  unfold LINKG_TRANSPORT_WIRE_HEADER_SIZE in H2. by replace (off - 24) with (off - 8 - 16) by lia.
Qed.

Lemma stored_slot p p' i off bs :
  slot_view p' i = slot_view p i -> po_slot_size p' = po_slot_size p -> stored p i off bs -> stored p' i off bs.
Proof. intros E Ez (H1&H2&H3). split; [done|]. by rewrite E, Ez. Qed.

Lemma fragment_layouts g :
  fragmented g = true -> job_length g <= LINKG_TRANSPORT_PACKET_MAX_SIZE ->
  length (take fragment_size (jb_bytes g)) = fragment_size /\
  Z.of_nat (length (drop fragment_size (jb_bytes g))) = job_length g - LINKG_TRANSPORT_FRAGMENT_PAYLOAD_MAX_SIZE /\
  _linkg_transport_wire_fragment_layout_valid 0 (job_length g) LINKG_TRANSPORT_FRAGMENT_PAYLOAD_MAX_SIZE = true /\
  _linkg_transport_wire_fragment_layout_valid LINKG_TRANSPORT_FRAGMENT_PAYLOAD_MAX_SIZE (job_length g)
    (job_length g - LINKG_TRANSPORT_FRAGMENT_PAYLOAD_MAX_SIZE) = true.
Proof.
  unfold fragmented, job_length, fragment_size. intros Hf Hm. zb.
  change LINKG_TRANSPORT_PACKET_MAX_SIZE with 1500 in *. change LINKG_TRANSPORT_PAYLOAD_MAX_SIZE with 1428 in *.
  change LINKG_TRANSPORT_FRAGMENT_PAYLOAD_MAX_SIZE with 1420. rewrite length_take, length_drop.
  splits; [lia|lia|..]; apply layout_valid_spec; lia || mlia.
Qed.

Definition id_ok (g : job) : Prop := fragmented g = true -> 0 < xs_packet_id (jb_state g) < 2 ^ 32.

Lemma encode_fragmented_spec p s tr g :
  owned_by mine p -> ready p g -> fragmented g = true -> id_ok g -> (forall i, i ∈ job_packets g -> 0 < mine i) ->
  exists p', _linkg_transport_tx_encode_fragmented (jb_item g) (jb_state g) q (at_ s p tr) =
      Some ((0, packet_rows g), at_ (packet_advance s g) p' tr) /\
    lease mine (fun i => i ∈ job_packets g) p p' /\ encoded local p' s g.
Proof.
  intros O (i&Ei&Hok&Hi&Hl&Hr&H) Hf Hid Hm. rewrite Hf in H. destruct H as (_&Ho&j&offj&Ej&Hn&Hoj&Hj).
  specialize (Hid Hf). destruct (fragment_layouts g Hf ltac:(lia)) as (Lt&Ld&V1&V2).
  assert (i ∈ job_packets g /\ j ∈ job_packets g) as [Ini Inj]
    by (unfold job_packets; rewrite Ei, Ej; split; [left|right; left]).
  pose proof (Hm i Ini) as Mi. pose proof (Hm j Inj) as Mj.
  unfold _linkg_transport_tx_encode_fragmented, packet_rows. rewrite Ei, Ej, Hl. cbn [of_option]. mrun.
  set (type := xi_type (jb_item g)).
  mstep (sequence_run type s p tr). mstep (sequence_run type (advance type s) p tr).
  set (s2 := advance type (advance type s)).
  change LINKG_TRANSPORT_FRAGMENT_PAYLOAD_MAX_SIZE with 1420 in *. change LINKG_TRANSPORT_PACKET_MAX_SIZE with 1500 in *.
  assert (1428 < job_length g) as H1428 by (unfold fragmented in Hf; by zb).
  destruct (length_step mine i p _ _ _ 1420 O Hi) as (p1&E1&L1&H1&V1'); [unfold job_length in *; lia|].
  mstep (pool_run _ s2 p tr tt p1 E1).
  destruct (set_flags_step mine i p1 _ _ _ (Z.lor (clear_group (xs_original_flags (jb_state g))) LINKG_PACKET_FLAG_TX_GROUP_FIRST)
    (le_owned _ _ _ _ L1) H1) as (p2&E2&L2&H2&V2').
  mstep (pool_run _ s2 p1 tr tt p2 E2). rewrite (wrap_small 16 (job_length g)) by mlia.
  destruct (encode_fragment_spec p2 s2 tr i (jb_item g) (FragmentHeader (xs_packet_id (jb_state g)) 0 (job_length g))
    (current type (advance type s)) _ _ _ (xs_original_data_offset (jb_state g)) (jb_bytes g) (le_owned _ _ _ _ L2) H2)
    as (p3&E3&L3&H3&S3); try done; cbn [fh_packet_id fh_fragment_offset fh_packet_length].
  { lia. } { change (Z.to_nat 1420) with fragment_size. rewrite Lt. done. }
  { change (Z.to_nat 1420) with fragment_size. by rewrite Lt. }
  { apply (stored_slot p1); [done|apply (le_size _ _ _ _ L2)|]. apply (stored_slot p); [done|apply (le_size _ _ _ _ L1)|].
    by eapply has_stored. }
  mstep E3. cbn [Z.eqb negb].
  assert (touches mine i p p3) as L03 by (eapply lease_trans; [exact L1|eapply lease_trans; [exact L2|exact L3]]).
  assert (has p3 j offj (xs_original_flags (jb_state g)) (drop fragment_size (jb_bytes g))) as Hj3
    by (eapply has_lease; [exact L03|done|congruence|done]).
  destruct (set_flags_step mine j p3 _ _ _ (Z.lor (clear_group (xs_original_flags (jb_state g))) LINKG_PACKET_FLAG_TX_GROUP_LAST)
    (le_owned _ _ _ _ L03) Hj3) as (p4&E4&L4&H4&_).
  mstep (pool_run _ s2 p3 tr tt p4 E4). rewrite (wrap_small 16 1420) by mlia.
  destruct (encode_fragment_spec p4 s2 tr j (jb_item g) (FragmentHeader (xs_packet_id (jb_state g)) 1420 (job_length g))
    (current type s2) _ _ _ offj (drop fragment_size (jb_bytes g)) (le_owned _ _ _ _ L4) H4)
    as (p5&E5&L5&H5&_); try done; cbn [fh_packet_id fh_fragment_offset fh_packet_length].
  { lia. } { change LINKG_TRANSPORT_FRAGMENT_PAYLOAD_MAX_SIZE with 1420. rewrite Ld. lia. } { by rewrite Ld. } { by eapply has_stored. }
  mstep E5. cbn [Z.eqb negb]. unfold mret, M_ret. exists p5. split.
  { rewrite wrap_small by mlia. unfold packet_advance. by rewrite Hf. }
  assert (touches mine j p3 p5) as L35 by (eapply lease_trans; [exact L4|exact L5]).
  split.
  - eapply (lease_touch j); [|done|exact L35]. eapply (lease_touch i); [by apply lease_refl|done|exact L03].
  - exists i. split; [done|]. split; [eapply stored_lease; [exact L35|done|congruence|done]|].
    unfold packet_frames. rewrite Hf, Ej. eexists _, _. split; [|exact H5].
    eapply has_lease; [exact L35|done|congruence|exact H3].
Qed.

Lemma chunk_packets_in jobs g i : g ∈ jobs -> i ∈ job_packets g -> i ∈ chunk_packets jobs.
Proof.
  intros Hg Hi. apply list_elem_of_In, in_concat. exists (job_packets g).
  split; apply list_elem_of_In; [by apply list_elem_of_fmap_2|done].
Qed.

Lemma ready_count p g : ready p g -> (xs_frame_count (jb_state g) =? LINKG_TRANSPORT_FRAGMENT_COUNT_MAX) = fragmented g.
Proof.
  intros (i&_&_&_&_&_&H). destruct (fragmented g).
  - destruct H as (->&_). done.
  - destruct H as (->&_). done.
Qed.

Lemma encode_loop_spec jobs p s tr :
  owned_by mine p -> Forall (ready p) jobs -> Forall id_ok jobs -> NoDup (chunk_packets jobs) ->
  (forall i, i ∈ chunk_packets jobs -> 0 < mine i) ->
  exists p', encode_loop ((fun g => (jb_item g, jb_state g)) <$> jobs) q (at_ s p tr) =
      Some ((0, chunk_rows jobs), at_ (chunk_advance s jobs) p' tr) /\
    lease mine (fun i => i ∈ chunk_packets jobs) p p' /\ all_encoded local p' s jobs.
Proof.
  revert p s. induction jobs as [|g jobs IH]; intros p s O Hr Hid Hn Hm.
  { exists p. split; [done|]. split; [by apply lease_refl|done]. }
  apply Forall_cons in Hr as [Hg Hr]. apply Forall_cons in Hid as [Ig Hid].
  unfold chunk_packets in Hn, Hm. cbn in Hn, Hm. apply NoDup_app in Hn as (Ng&Hd&Hn).
  assert (forall i, i ∈ job_packets g -> 0 < mine i) as Mg by (intros i Hi; apply Hm, elem_of_app; by left).
  assert (forall i, i ∈ chunk_packets jobs -> 0 < mine i /\ ~ i ∈ job_packets g) as Mj.
  { intros i Hi. split; [apply Hm, elem_of_app; by right|]. intros H. by apply (Hd i H). }
  assert (exists p1, (if xs_frame_count (jb_state g) =? LINKG_TRANSPORT_FRAGMENT_COUNT_MAX
      then _linkg_transport_tx_encode_fragmented (jb_item g) (jb_state g) q
      else _linkg_transport_tx_encode_normal (jb_item g) (jb_state g) q) (at_ s p tr) =
      Some ((0, packet_rows g), at_ (packet_advance s g) p1 tr) /\
    lease mine (fun i => i ∈ job_packets g) p p1 /\ encoded local p1 s g) as (p1&E1&L1&H1).
  { rewrite (ready_count p g Hg). destruct (fragmented g) eqn:Hf.
    - by apply encode_fragmented_spec.
    - by apply encode_normal_spec. }
  destruct (IH p1 (packet_advance s g)) as (p2&E2&L2&H2); [apply (le_owned _ _ _ _ L1)| |done|done|apply Mj|].
  { apply Forall_forall. intros g' Hin. rewrite Forall_forall in Hr. eapply ready_lease; [exact L1| |by apply Hr].
    intros i Hi. apply Mj. by eapply chunk_packets_in. }
  exists p2. cbn [fmap list_fmap encode_loop]. unfold mbind, M_bind. rewrite E1. cbn [Z.eqb negb].
  rewrite E2. cbn [fst snd]. split; [done|]. split.
  - eapply lease_trans; (eapply lease_weaken; [|done]); intros i Hi; unfold chunk_packets; cbn; apply elem_of_app; auto.
  - split; [|done]. eapply encoded_lease; [exact L2| |exact H1]. intros i Hi. split; [by apply Mg|]. intros H. by apply (Hd i).
Qed.

End Encode.

(** ** The receiver's view *)

Lemma decode_frame h body :
  encode_valid h = true -> 0 <= th_sequence h < 2 ^ 32 -> 0 <= th_flags h < 2 ^ 16 ->
  Z.of_nat (length body) + LINKG_TRANSPORT_WIRE_HEADER_SIZE <= LINKG_TRANSPORT_WIRE_FRAME_MAX_SIZE -> (9 <= length body)%nat \/ th_flags h = 0 ->
  decode_bytes (header_bytes (wire_header h) ++ body) = (0, Some (wire_header h)).
Proof.
  intros Hv Hs Hf Hl Hb. pose proof (wire_header_accepted h Hv) as Ha. unfold encode_valid in Hv. zb.
  unfold linkg_transport_type_valid, _linkg_transport_wire_node_id_valid, LINKG_TRANSPORT_TYPE_NONE, LINKG_TRANSPORT_TYPE_COUNT,
    LINKG_RESOURCE_NODE_ID_MIN, LINKG_RESOURCE_NODE_ID_MAX in *. zb.
  assert (header_ranges (wire_header h)) as Hr by (split; cbn; unfold byte_ok, LINKG_TRANSPORT_WIRE_MAGIC, LINKG_TRANSPORT_WIRE_VERSION; mlia).
  unfold decode_bytes, LINKG_TRANSPORT_WIRE_HEADER_SIZE, LINKG_TRANSPORT_WIRE_HEADER_MAX_SIZE, LINKG_TRANSPORT_WIRE_FRAME_MAX_SIZE in *.
  rewrite (header_take _ body Hr), Ha, length_app, length_header_bytes. bsimp. cbn [wire_header th_flags].
  destruct Hb as [Hb| ->]; [|done]. bsimp. by rewrite andb_false_r.
Qed.

Lemma decode_fragment h fr body :
  fragment_ranges fr -> fh_packet_id fr <> 0 -> (1 <= length body)%nat ->
  _linkg_transport_wire_fragment_layout_valid (fh_fragment_offset fr) (fh_packet_length fr) (Z.of_nat (length body)) = true ->
  Z.of_nat (length body) <= LINKG_TRANSPORT_FRAGMENT_PAYLOAD_MAX_SIZE ->
  fragment_decode_bytes (header_bytes h ++ fragment_bytes fr ++ body) = (0, Some fr).
Proof.
  intros Hr Hid Hb Hv Hl. change LINKG_TRANSPORT_FRAGMENT_PAYLOAD_MAX_SIZE with 1420 in Hl.
  unfold fragment_decode_bytes, LINKG_TRANSPORT_WIRE_HEADER_MAX_SIZE, LINKG_TRANSPORT_WIRE_FRAME_MAX_SIZE.
  rewrite (fragment_take h fr body Hr), !length_app, length_header_bytes, length_fragment_bytes.
  replace (Z.of_nat (16 + (8 + length body)) - 24) with (Z.of_nat (length body)) by lia. rewrite Hv. by bsimp.
Qed.

Lemma current_range type s : 0 <= current type (advance type s) < 2 ^ 32.
Proof. unfold current, advance. destruct (is_user_data type); cbn; apply wrap_range; lia. Qed.

Lemma drop_headers n h (fr : linkg_transport_fragment_header) body :
  n = 24%nat -> drop n (header_bytes h ++ fragment_bytes fr ++ body) = body.
Proof.
  intros ->. rewrite app_assoc. by change 24%nat with (length (header_bytes h ++ fragment_bytes fr)); rewrite drop_app_length.
Qed.

(** What the decoders make of the frames of one packet. *)
Definition received (local : Z) (g : job) (frames : list (list Z)) (n n' : Z) : Prop :=
  let header flags sequence := wire_header (_linkg_transport_tx_build_header local (jb_item g) flags sequence) in
  let id := xs_packet_id (jb_state g) in
  if fragmented g then
    exists b b', frames = [b; b'] /\
      decode_bytes b = (0, Some (header LINKG_TRANSPORT_FLAG_FRAGMENT n)) /\
      decode_bytes b' = (0, Some (header LINKG_TRANSPORT_FLAG_FRAGMENT n')) /\
      fragment_decode_bytes b = (0, Some (FragmentHeader id 0 (job_length g))) /\
      fragment_decode_bytes b' = (0, Some (FragmentHeader id LINKG_TRANSPORT_FRAGMENT_PAYLOAD_MAX_SIZE (job_length g))) /\
      drop 24 b ++ drop 24 b' = jb_bytes g
  else exists b, frames = [b] /\ decode_bytes b = (0, Some (header LINKG_TRANSPORT_FLAG_NONE n)) /\ drop 16 b = jb_bytes g.

Lemma frames_received local s g :
  _linkg_transport_wire_node_id_valid local = true -> item_ok (jb_item g) -> id_ok g ->
  1 <= job_length g <= LINKG_TRANSPORT_PACKET_MAX_SIZE ->
  let type := xi_type (jb_item g) in
  received local g (packet_frames local s g) (current type (advance type s)) (current type (advance type (advance type s))).
Proof.
  intros Hlocal Hok Hid Hl type. unfold received, packet_frames. fold type.
  pose proof (current_range type s) as R1. pose proof (current_range type (advance type s)) as R2.
  pose proof (fun fl sq => build_valid local (jb_item g) fl sq Hlocal Hok) as Bv.
  destruct (fragmented g) eqn:Hf.
  - specialize (Hid Hf). destruct (fragment_layouts g Hf ltac:(lia)) as (Lt&Ld&V1&V2).
    change LINKG_TRANSPORT_PACKET_MAX_SIZE with 1500 in *.
    change LINKG_TRANSPORT_FRAGMENT_PAYLOAD_MAX_SIZE with 1420 in *. change fragment_size with 1420%nat in *.
    assert (1428 < job_length g) as H1428 by (unfold fragmented in Hf; by zb).
    eexists _, _. split; [reflexivity|]. unfold fragment_frame. rewrite !drop_headers, take_drop by done. splits; [..|done].
    + apply decode_frame; [by apply Bv|done|done| |left]; rewrite length_app, length_fragment_bytes, Lt; [vm_compute; done|lia].
    + apply decode_frame; [by apply Bv|done|done| |left]; rewrite length_app, length_fragment_bytes; [|lia].
      unfold LINKG_TRANSPORT_WIRE_HEADER_SIZE, LINKG_TRANSPORT_WIRE_FRAME_MAX_SIZE. lia.
    + apply decode_fragment; cbn; [split; cbn; mlia|lia|lia|by rewrite Lt|by rewrite Lt].
    + apply decode_fragment; cbn; [split; cbn; mlia|lia|lia|by rewrite Ld|].
      change LINKG_TRANSPORT_FRAGMENT_PAYLOAD_MAX_SIZE with 1420. lia.
  - eexists. split; [reflexivity|]. unfold normal_frame. split; [|by rewrite <- (length_header_bytes (wire_header
      (_linkg_transport_tx_build_header local (jb_item g) LINKG_TRANSPORT_FLAG_NONE (current type (advance type s))))), drop_app_length].
    apply decode_frame; [by apply Bv|done|done| |by right]. unfold fragmented, job_length in Hf. zb.
    change LINKG_TRANSPORT_PAYLOAD_MAX_SIZE with 1428 in Hf. unfold LINKG_TRANSPORT_WIRE_HEADER_SIZE, LINKG_TRANSPORT_WIRE_FRAME_MAX_SIZE. lia.
Qed.

(** *** A chunk on its way, said without the code's headers and counters *)

(** The sequence number of the [k]-th next frame of a type, by the class's counters:
    user data has one of its own, both go round at 32 bits. *)
Definition frame_number (type : Z) (s : linkg_transport_tx_sequence_state) (k : Z) : Z :=
  ((if decide (type = LINKG_TRANSPORT_TYPE_USER_DATA) then tq_tx_user_sequence s else tq_tx_control_sequence s) + k) mod 2 ^ 32.

(** The counters after [k] frames of a type. *)
Definition counted (type : Z) (s : linkg_transport_tx_sequence_state) (k : Z) : linkg_transport_tx_sequence_state :=
  if decide (type = LINKG_TRANSPORT_TYPE_USER_DATA) then TxSequence (frame_number type s k) (tq_tx_control_sequence s)
  else TxSequence (tq_tx_user_sequence s) (frame_number type s k).

Definition frames_needed (g : job) : Z := if decide (1428 < job_length g) then 2 else 1.

Definition counted_all (s : linkg_transport_tx_sequence_state) (jobs : list job) : linkg_transport_tx_sequence_state :=
  foldl (fun s g => counted (xi_type (jb_item g)) s (frames_needed g)) s jobs.

(** What the receiver finds in the packets of one item: its decoders accept them, the
    headers are these, and the payloads behind them make up the bytes. *)
Definition arrives (local : Z) (p : linkg_packet_pool) (s : linkg_transport_tx_sequence_state) (g : job) : Prop :=
  let type := xi_type (jb_item g) in
  let header flags n := Header 0x4C4B4732 1 type flags n local (xi_destination_node_id (jb_item g)) 0 in
  let fragment offset := FragmentHeader (xs_packet_id (jb_state g)) offset (job_length g) in
  exists i, xi_packet (jb_item g) = Some i /\
    if decide (1428 < job_length g) then
      exists j, xs_tail_packet (jb_state g) = Some j /\
        linkg_transport_wire_decode (Some i) false p = Some ((0, Some (header LINKG_TRANSPORT_FLAG_FRAGMENT (frame_number type s 1))), p) /\
        linkg_transport_wire_decode (Some j) false p = Some ((0, Some (header LINKG_TRANSPORT_FLAG_FRAGMENT (frame_number type s 2))), p) /\
        linkg_transport_wire_fragment_decode (Some i) false p = Some ((0, Some (fragment 0)), p) /\
        linkg_transport_wire_fragment_decode (Some j) false p = Some ((0, Some (fragment 1420)), p) /\
        drop 24 (payload p i) ++ drop 24 (payload p j) = jb_bytes g
    else
      linkg_transport_wire_decode (Some i) false p = Some ((0, Some (header LINKG_TRANSPORT_FLAG_NONE (frame_number type s 1))), p) /\
      drop 16 (payload p i) = jb_bytes g.

Fixpoint all_arrive (local : Z) (p : linkg_packet_pool) (s : linkg_transport_tx_sequence_state) (jobs : list job) : Prop :=
  match jobs with
  | [] => True
  | g :: jobs' => arrives local p s g /\ all_arrive local p (counted (xi_type (jb_item g)) s (frames_needed g)) jobs'
  end.

Lemma fragmented_decide g : fragmented g = if decide (1428 < job_length g) then true else false.
Proof. unfold fragmented. change LINKG_TRANSPORT_PAYLOAD_MAX_SIZE with 1428. destruct (decide _); [by apply Z.ltb_lt|by apply Z.ltb_nlt]. Qed.

Lemma user_data_decide type : is_user_data type = if decide (type = LINKG_TRANSPORT_TYPE_USER_DATA) then true else false.
Proof. unfold is_user_data. destruct (decide _); [by apply Z.eqb_eq|by apply Z.eqb_neq]. Qed.

Lemma number_once type s : current type (advance type s) = frame_number type s 1.
Proof. unfold current, advance, frame_number. rewrite user_data_decide. by destruct (decide _). Qed.

Lemma number_twice type s : current type (advance type (advance type s)) = frame_number type s 2.
Proof.
  unfold current, advance, frame_number. rewrite user_data_decide. destruct (decide _); cbn [tq_tx_user_sequence tq_tx_control_sequence];
    unfold u32; rewrite Zplus_mod_idemp_l; f_equal; lia.
Qed.

Lemma advance_counted s g : packet_advance s g = counted (xi_type (jb_item g)) s (frames_needed g).
Proof.
  unfold packet_advance, counted, frames_needed, frame_number, advance. rewrite fragmented_decide, !user_data_decide.
  destruct (decide (1428 < _)), (decide (_ = _)); cbn [tq_tx_user_sequence tq_tx_control_sequence]; unfold u32;
    rewrite ?Zplus_mod_idemp_l; do 2 f_equal; lia.
Qed.

Lemma chunk_counted s jobs : chunk_advance s jobs = counted_all s jobs.
Proof. revert s. induction jobs as [|g jobs IH]; intros s; [done|]. cbn. by rewrite <- IH, advance_counted. Qed.

Lemma built_header local it flags n : item_ok it ->
  wire_header (_linkg_transport_tx_build_header local it flags n) = Header 0x4C4B4732 1 (xi_type it) flags n local (xi_destination_node_id it) 0.
Proof.
  intros [Ht _]. unfold wire_header, _linkg_transport_tx_build_header. cbn. rewrite wrap_small; [done|].
  unfold linkg_transport_type_valid, LINKG_TRANSPORT_TYPE_NONE, LINKG_TRANSPORT_TYPE_COUNT in Ht. zb. mlia.
Qed.

Lemma has_decode p i off f bs : has p i off f bs ->
  linkg_transport_wire_decode (Some i) false p = Some (decode_bytes bs, p) /\
  linkg_transport_wire_fragment_decode (Some i) false p = Some (fragment_decode_bytes bs, p) /\ payload p i = bs.
Proof. intros (k&L&_&_&E). rewrite (decode_run p i k L), (fragment_decode_run p i k L). by rewrite E. Qed.

Lemma encoded_arrives local p s g :
  _linkg_transport_wire_node_id_valid local = true -> item_ok (jb_item g) -> id_ok g ->
  1 <= job_length g <= LINKG_TRANSPORT_PACKET_MAX_SIZE -> encoded local p s g -> arrives local p s g.
Proof.
  intros Hl Hok Hid Hlen (i&Ei&_&H). pose proof (frames_received local s g Hl Hok Hid Hlen) as R. cbv zeta in R.
  rewrite number_once, number_twice in R. exists i. split; [done|]. unfold received in R. rewrite !built_header in R by done.
  rewrite fragmented_decide in R. destruct (decide (1428 < job_length g)).
  - destruct R as (b&b'&Eb&R1&R2&R3&R4&R5). rewrite Eb in H. destruct (xs_tail_packet (jb_state g)) as [j|]; [|done].
    destruct H as (off&off'&H1&H2). exists j. split; [done|].
    destruct (has_decode _ _ _ _ _ H1) as (->&->&->), (has_decode _ _ _ _ _ H2) as (->&->&->). rewrite R1, R2, R3, R4. by splits.
  - destruct R as (b&Eb&R1&R2). rewrite Eb in H. destruct (xs_tail_packet (jb_state g)) as [j|]; [done|].
    destruct H as (off&H1). destruct (has_decode _ _ _ _ _ H1) as (->&_&->). by rewrite R1.
Qed.

Lemma all_encoded_arrive local p s jobs :
  _linkg_transport_wire_node_id_valid local = true ->
  Forall (fun g => item_ok (jb_item g) /\ id_ok g /\ 1 <= job_length g <= LINKG_TRANSPORT_PACKET_MAX_SIZE) jobs ->
  all_encoded local p s jobs -> all_arrive local p s jobs.
Proof.
  intros Hl Hj. revert s. induction Hj as [|g jobs (Hok&Hid&Hlen) Hj IH]; intros s; [done|]. intros [H H']. split.
  - by apply encoded_arrives.
  - rewrite <- advance_counted. by apply IH.
Qed.

Lemma zip_jobs (jobs : list job) : zip (jb_item <$> jobs) (jb_state <$> jobs) = (fun g => (jb_item g, jb_state g)) <$> jobs.
Proof. induction jobs as [|g jobs IH]; [done|]. cbn. by rewrite IH. Qed.

(** C23: what the sender encodes, the receiver decodes. Encoding a chunk of prepared
    packets succeeds, changes only these packets, and then the receiver's decoders
    accept every packet of it: a short packet is one frame whose body is the payload;
    a long one is two fragments of one packet id and total length whose bodies in
    order are the payload; the headers carry the protocol's magic and version, the
    item's type and destination, the sender's identifier, the fragment flag when
    there are two, and consecutive sequence numbers of the type's counter, across
    the packets of the chunk and the 32-bit wrap-around; and the class's counters end
    at the last numbers used. *)
Theorem sent_packet_decodes {C : Type} `{TP : TransportParts C} (t : transport_state C) (q : nat * nat)
    (c : linkg_transport_peer_class) mine p tr (jobs : list job) :
  class_at t q = Some c -> _linkg_transport_wire_node_id_valid (cx_local_node_id (tr_context t)) = true ->
  owned_by mine p -> Forall (ready p) jobs -> Forall id_ok jobs -> NoDup (chunk_packets jobs) ->
  (forall i, i ∈ chunk_packets jobs -> 0 < mine i) ->
  exists p', _linkg_transport_tx_encode_batch (jb_item <$> jobs) (jb_state <$> jobs) q (TxSystem t p tr) =
      Some ((0, chunk_rows jobs), TxSystem (at_sequence q (counted_all (sequences_of c) jobs) t) p' tr) /\
    lease mine (fun i => i ∈ chunk_packets jobs) p p' /\
    all_arrive (cx_local_node_id (tr_context t)) p' (sequences_of c) jobs.
Proof.
  intros Hq Hl O Hr Hid Hn Hm. destruct (encode_loop_spec t q c Hq mine Hl jobs p (sequences_of c) tr O Hr Hid Hn Hm) as (p'&E&L&H).
  exists p'. unfold _linkg_transport_tx_encode_batch. rewrite zip_jobs, <- chunk_counted.
  unfold at_ in E. rewrite at_sequence_self in E by done. split; [done|]. split; [done|]. apply all_encoded_arrive; [done| |done].
  apply Forall_forall. intros g Hg. rewrite Forall_forall in Hr, Hid. destruct (Hr g Hg) as (i&_&Hok&_&_&Hlen&_). specialize (Hid g Hg). done.
Qed.
