(* ===== verification/TransportTxSafety.v ===== *)
(** * Sending through the transport: preparation, verdicts and life of the packets

    Preparation of a chunk with its tail packets, submission to the targets,
    verdicts, roll-back, and the whole of a send and of a relay: they return for
    every link that keeps its promise, give back every packet they took, and put
    exactly the prepared frames on the wire. *)

From S2P Require Import Prelude.
From S2P Require Import PacketStore.
From S2P Require Import PacketPool.
From S2P Require Import PacketData.
From S2P Require Import PacketLease.
From S2P Require Import Bytes.
From S2P Require Import TransportTypes.
From S2P Require Import TransportWire.
From S2P Require Import TransportWindow.
From S2P Require Import TransportPeer.
From S2P Require Import TransportPeerSafety.
From S2P Require Import LinkPath.
From S2P Require Import Link.
From S2P Require Import LinkSubmit.
From S2P Require Import TransportTx.
From S2P Require Import TransportTxEncode.

(** ** Preparation *)

(** An item whose packet passes the checks. *)
Definition sendable (p : linkg_packet_pool) (it : linkg_transport_tx_item) : Prop :=
  item_ok it /\
  exists i off f bs, xi_packet it = Some i /\ has p i off f bs /\
    1 <= Z.of_nat (length bs) <= LINKG_TRANSPORT_PACKET_MAX_SIZE /\
    (if LINKG_TRANSPORT_PAYLOAD_MAX_SIZE <? Z.of_nat (length bs)
     then LINKG_TRANSPORT_WIRE_HEADER_MAX_SIZE else LINKG_TRANSPORT_WIRE_HEADER_SIZE) <= off.

Definition item_packets (items : list linkg_transport_tx_item) : list pkt_ptr := omap xi_packet items.

Abbreviation tails states := (omap xs_tail_packet states).

Section Prepare.
Context (mx : mutex_api) (Hmx : mutex_ok mx).

Lemma lease_to_fresh mine i T p p' :
  (forall j, 0 <= mine j) -> mine i = 0 -> (forall j, T j -> j = i) ->
  lease (with_ref mine i) T p p' -> lease mine nothing p p'.
Proof.
  intros H0 Hi HT. apply lease_sub.
  - intros j. split; [apply H0|]. unfold with_ref. pose proof (one_ref_range i j). lia.
  - intros j ->%HT. lia.
Qed.

Lemma capacity_run p i k : live p i k -> linkg_packet_capacity i p = Some (po_slot_size p - pk_data_offset k, p).
Proof.
  intros (W&_&K). destruct (live_wf p i k W K) as (Wk&(?&?&?&?)&_). unfold linkg_packet_capacity.
  mstep (packet_at_eq p i k K). rewrite (kwf_pool _ _ _ Wk).
  mstep (pool_deref_eq p (po_addr p) eq_refl). unfold mret, M_ret. rewrite wrap_small by mlia. done.
Qed.

Lemma prepare_tail_spec mine p i k bs :
  (forall j, 0 <= mine j) -> owned_by mine p -> 0 < mine i -> live p i k -> payload p i = bs ->
  LINKG_TRANSPORT_PAYLOAD_MAX_SIZE < Z.of_nat (length bs) <= LINKG_TRANSPORT_PACKET_MAX_SIZE ->
  exists ret o p', prepare_tail mx i k p = Some ((ret, o), p') /\ lease mine nothing p p' /\
    ((ret < 0 /\ o = None) \/
     (ret = 0 /\ exists j off, o = Some j /\ mine j = 0 /\ owned_by (with_ref mine j) p' /\
        LINKG_TRANSPORT_WIRE_HEADER_MAX_SIZE <= off /\ has p' j off (pk_flags k) (drop fragment_size bs))).
Proof.
  intros H0 O Hi L Hb Hl. pose proof L as (W&_&K). destruct (live_bounds p i k L) as (B1&B2&B3&B4). rewrite Hb in B4.
  destruct (live_wf p i k W K) as (Wk&_). unfold prepare_tail. rewrite (kwf_pool _ _ _ Wk).
  destruct (alloc_lease mx mine p Hmx O) as [E|(p1&j&kj&E&Mj&L1&O1&Lj&Zj)].
  { mstep E. eexists _, _, p. split; [done|]. split; [by apply lease_refl|by left]. }
  mstep E. mstep (live_headroom p1 j kj Lj). mstep (capacity_run p1 j kj Lj).
  change LINKG_TRANSPORT_FRAGMENT_PAYLOAD_MAX_SIZE with 1420. change LINKG_TRANSPORT_PACKET_MAX_SIZE with 1500 in *.
  change LINKG_TRANSPORT_PAYLOAD_MAX_SIZE with 1428 in *. unfold LINKG_TRANSPORT_WIRE_HEADER_MAX_SIZE.
  rewrite wrap_small by mlia. destruct (_ || _)%bool eqn:Et.
  { destruct (release_lease mx mine j p1 Hmx O1 Mj) as (p2&E2&L2). mstep E2.
    eexists _, _, p2. split; [done|]. split; [by eapply lease_trans|by left]. }
  zb. assert (i <> j) as Hij by (intros <-; lia).
  destruct (lease_live mine nothing p p1 i k L1 Hi) as (n&Li&Pi); [by intros []|done|].
  pose proof Li as (W1&_&K1). pose proof Lj as (_&_&Kj).
  unfold linkg_packet_const_data. mstep (packet_data_eq p1 i _ W1 K1). mstep (packet_data_eq p1 j kj W1 Kj).
  cbn [pk_data_offset set_refcount].
  assert (drop 1420 bs = take (Z.to_nat (pk_data_length k - 1420)) (drop 1420 (payload p1 i))) as Ed.
  { rewrite Pi, Hb, take_ge; [done|]. rewrite length_drop. lia. }
  assert (Z.of_nat (length (drop 1420 bs)) = pk_data_length k - 1420) as Eld by (rewrite length_drop; lia).
  destruct (append_spec p1 j kj (drop 1420 bs) Lj) as (p2&p3&E2&E3&L3&C3&P3); [lia|].
  rewrite Zj, Z.add_0_r in E2. rewrite Zj, Z.add_0_l, Eld in E3.
  assert (memcpy (slot_base p1 j + pk_data_offset kj) (slot_base p1 i + pk_data_offset k + 1420)
            (Z.to_nat (pk_data_length k - 1420)) p1 = Some (tt, p2)) as Ec.
  { destruct (live_wf p1 i _ W1 K1) as (_&(?&?&?&?)&_). cbn [pk_data_offset pk_data_length set_refcount] in *.
    unfold memcpy. rewrite Z2Nat.id by lia.
    pose proof (slots_disjoint p1 j i kj _ (pk_data_offset kj) (pk_data_offset k + 1420) (pk_data_length k - 1420)
      (pk_data_length k - 1420) W1 Kj K1 ltac:(done) ltac:(lia) ltac:(lia) ltac:(lia) ltac:(lia) eq_refl) as Hdis.
    rewrite !Z.add_assoc in Hdis. rewrite Hdis. mrun.
    pose proof (load_payload p1 i _ 1420 (Z.to_nat (pk_data_length k - 1420)) W1 K1) as Eload.
    cbn [pk_data_offset pk_data_length set_refcount] in Eload. rewrite <- Ed in Eload.
    mstep (Eload ltac:(lia)). exact E2. }
  mstep Ec. mstep E3.
  assert (has p3 j (pk_data_offset kj) (pk_flags kj) (drop 1420 bs)) as H3.
  { eexists. split; [exact L3|]. splits; [done..|]. rewrite P3. unfold payload. rewrite Kj, Zj. done. }
  assert (lease (with_ref mine j) (eq j) p1 p3) as L13 by (apply local_lease; [done|apply L3|done]).
  destruct (set_flags_step (with_ref mine j) j p3 _ _ _ (pk_flags k) (le_owned _ _ _ _ L13) H3) as (p4&E4&L4&H4&_).
  mstep E4. eexists _, _, p4. split; [done|]. split.
  - eapply lease_trans; [exact L1|]. apply (lease_to_fresh mine j (eq j)); [done|done|by intros ? <-|]. by eapply lease_trans.
  - right. split; [done|]. exists j, (pk_data_offset kj). splits; try done. apply (le_owned _ _ _ _ L4).
Qed.

(** [xs_frame_offset] is where the packet's frames start in the batch. *)
Fixpoint offsets (n : Z) (jobs : list job) : Prop :=
  match jobs with
  | [] => True
  | g :: jobs' => xs_frame_offset (jb_state g) = n /\ offsets (n + xs_frame_count (jb_state g)) jobs'
  end.

(** The job holds the packet's bytes as they are in [p]. *)
Definition holds (p : linkg_packet_pool) (g : job) : Prop :=
  exists i, xi_packet (jb_item g) = Some i /\ jb_bytes g = payload p i.

Lemma sendable_lease mine p p' it :
  lease mine nothing p p' -> (forall i, xi_packet it = Some i -> 0 < mine i) -> sendable p it -> sendable p' it.
Proof.
  intros L Hm (Hok&i&off&f&bs&Ei&H&R). split; [done|]. exists i, off, f, bs. split; [done|]. split; [|done].
  eapply has_lease; [exact L|by apply Hm|by intros []|done].
Qed.

Lemma item_packets_in items it i : it ∈ items -> xi_packet it = Some i -> i ∈ item_packets items.
Proof. intros H E. apply list_elem_of_omap. by exists it. Qed.

(** One item, from [mine]'s references: an error, or a ready packet and at most
    one reference more. *)
Definition prepared_one (mine : nat -> Z) (p : linkg_packet_pool) (n : Z) (it : linkg_transport_tx_item)
    (ret : Z) (x : linkg_transport_tx_state) (p' : linkg_packet_pool) : Prop :=
  lease mine nothing p p' /\ NoDup (option_list (xs_tail_packet x)) /\
  (forall j, xs_tail_packet x = Some j -> mine j = 0) /\
  owned_by (with_refs mine (option_list (xs_tail_packet x))) p' /\
  ((ret < 0 /\ xs_tail_packet x = None) \/
   (ret = 0 /\ exists bs, ready p' (Job it x bs) /\ holds p (Job it x bs) /\ xs_frame_offset x = n)).

Lemma prepare_one_spec mine p it i k n :
  (forall j, 0 <= mine j) -> owned_by mine p -> sendable p it -> xi_packet it = Some i -> packet_of p i = Some k -> 0 < mine i ->
  let frame_count := if LINKG_TRANSPORT_PAYLOAD_MAX_SIZE <? pk_data_length k then LINKG_TRANSPORT_FRAGMENT_COUNT_MAX else 1 in
  let x := TxItemState None (pk_data_offset k) (pk_data_length k) (pk_flags k) 0 n frame_count in
  exists ret o p', (if frame_count =? 1 then mret (0, None) else prepare_tail mx i k) p = Some ((ret, o), p') /\
    prepared_one mine p n it ret (state_set_tail o x) p'.
Proof.
  intros H0 O (Hok&i'&off&f&bs&Ei&H&Hl&Ho) Ei' Hk Mi frame_count x. assert (i' = i) as -> by congruence.
  pose proof (has_length _ _ _ _ _ k H Hk) as El. pose proof H as (k'&L&Eo&Ef&Hb).
  assert (k' = k) as -> by (destruct L as (_&_&K); congruence). rewrite <- El in *.
  unfold frame_count in *. destruct (LINKG_TRANSPORT_PAYLOAD_MAX_SIZE <? pk_data_length k) eqn:Et.
  - cbn [Z.eqb LINKG_TRANSPORT_FRAGMENT_COUNT_MAX]. change (LINKG_TRANSPORT_FRAGMENT_COUNT_MAX =? 1) with false. cbn beta iota.
    destruct (prepare_tail_spec mine p i k bs H0 O Mi L Hb) as (ret&o&p'&E&L'&Hr); [zb; rewrite <- El; lia|].
    exists ret, o, p'. split; [exact E|]. split; [exact L'|]. destruct Hr as [[Hneg ->]|(->&j&offj&->&Mj&Oj&Hoj&Hj)].
    + split; [constructor|]. split; [done|]. split; [|by left]. eapply owned_ext; [|apply L'].
      intros j. unfold with_refs. cbn. lia.
    + split; [apply NoDup_singleton|]. split; [by intros j' [= <-]|]. split.
      { eapply owned_ext; [|exact Oj]. intros j'. unfold with_refs, with_ref. cbn. lia. }
      right. split; [done|]. exists bs. split; [|split; [exists i; by rewrite Hb|done]].
      exists i. cbn. unfold fragmented, job_length. cbn. rewrite <- El, Et. splits; try done; [|lia|lia| |].
      { rewrite Eo, Ef. eapply has_lease; [exact L'|done|by intros []|done]. }
      { by rewrite Eo. }
      { exists j, offj. splits; try done. intros ->. lia. }
  - exists 0, None, p. split; [done|]. split; [by apply lease_refl|]. split; [constructor|]. split; [done|].
    split; [eapply owned_ext; [|exact O]; intros j; unfold with_refs; cbn; lia|].
    right. split; [done|]. exists bs. split; [|split; [exists i; by rewrite Hb|done]].
    exists i. cbn. unfold fragmented, job_length. cbn. rewrite <- El, Et. rewrite Eo, Ef. splits; try done; lia.
Qed.

(** The states of a chunk: what was allocated is owned, and a result of 0 makes
    every packet ready. *)
Record prepared (mine : nat -> Z) (p p' : linkg_packet_pool) (n : Z) (items : list linkg_transport_tx_item)
    (ret : Z) (states : list linkg_transport_tx_state) : Prop := {
  pp_length : length states = length items;
  pp_lease : lease mine nothing p p';
  pp_nodup : NoDup (tails states);
  pp_fresh : forall j, j ∈ tails states -> mine j = 0;
  pp_owned : owned_by (with_refs mine (tails states)) p';
  pp_ret : ret < 0 \/ (ret = 0 /\ exists jobs, jb_item <$> jobs = items /\ jb_state <$> jobs = states /\
    Forall (ready p') jobs /\ Forall (holds p) jobs /\ offsets n jobs) }.

Lemma omap_replicate_zero n : tails (replicate n tx_state_zero) = [].
Proof. induction n; [done|by cbn]. Qed.

Lemma holds_lease mine p p' g :
  lease mine nothing p p' -> (forall i, xi_packet (jb_item g) = Some i -> 0 < mine i) -> holds p' g -> holds p g.
Proof.
  intros L Hm (i&Ei&E). exists i. split; [done|]. rewrite E. eapply le_payload; [exact L|by apply Hm|by intros []].
Qed.

Lemma prepared_cons mine p p1 p2 n it x items ret states :
  (forall j, 0 <= mine j) -> (forall i, i ∈ item_packets (it :: items) -> 0 < mine i) ->
  prepared_one mine p n it 0 x p1 ->
  prepared (with_refs mine (option_list (xs_tail_packet x))) p1 p2 (n + xs_frame_count x) items ret states ->
  prepared mine p p2 n (it :: items) ret (x :: states).
Proof.
  intros H0 Hm (L1&N1&F1&O1&[[? _]|(_&bs&R1&D1&Ho)]) P; [lia|].
  set (mine1 := with_refs mine (option_list (xs_tail_packet x))) in *. destruct P as [Pl PL Pn Pf Po Pr].
  assert (forall j, j ∈ tails states -> mine j = 0 /\ j ∉ option_list (xs_tail_packet x)) as Hfresh.
  { intros j Hj. specialize (Pf j Hj). pose proof (with_refs_range mine (option_list (xs_tail_packet x)) j). specialize (H0 j).
    split; [unfold mine1 in Pf; lia|]. intros Hin. pose proof (with_refs_in mine _ j Hin). unfold mine1 in Pf. lia. }
  assert (tails (x :: states) = option_list (xs_tail_packet x) ++ tails states) as Et
    by (cbn; by destruct (xs_tail_packet x)).
  assert (lease mine nothing p1 p2) as L2.
  { eapply lease_sub; [| |exact PL]; [|by intros j []]. intros j. split; [apply H0|apply with_refs_range]. }
  split; rewrite ?Et.
  - cbn. by rewrite Pl.
  - by eapply lease_trans.
  - apply NoDup_app. split; [done|]. split; [|done]. intros j Hj Hj'. by destruct (Hfresh j Hj').
  - intros j [Hj|Hj]%elem_of_app; [|by apply Hfresh]. apply F1. destruct (xs_tail_packet x); [|by apply elem_of_nil in Hj].
    by apply list_elem_of_singleton in Hj as ->.
  - eapply owned_ext; [|exact Po]. intros j. unfold mine1, with_refs. rewrite sumZ_app. lia.
  - destruct Pr as [|(->&jobs&E1&E2&Rj&Dj&Oj)]; [by left|]. right. split; [done|]. exists (Job it x bs :: jobs). cbn.
    rewrite E1, E2. splits; [done|done|apply Forall_cons; split|apply Forall_cons; split|done|done].
    + eapply ready_lease; [exact PL| |exact R1]. unfold job_packets. cbn. intros i Hi. split; [|by intros []].
      apply elem_of_app in Hi as [Hi|Hi].
      * pose proof (with_refs_range mine (option_list (xs_tail_packet x)) i). fold mine1 in H.
        assert (0 < mine i); [|lia]. apply Hm. destruct (xi_packet it) eqn:Ei; [|by apply elem_of_nil in Hi].
        apply list_elem_of_singleton in Hi as ->. eapply item_packets_in; [left|done].
      * pose proof (with_refs_in mine _ i Hi). fold mine1 in H. specialize (H0 i). lia.
    + done.
    + done.
    + rewrite Forall_forall in Dj |- *. intros g Hg. eapply holds_lease; [exact L1| |by apply Dj]. intros i Ei. apply Hm.
      eapply item_packets_in; [|exact Ei]. right. rewrite <- E1. by apply list_elem_of_fmap_2.
Qed.

Lemma prepare_loop_spec mine p items n :
  (forall j, 0 <= mine j) -> owned_by mine p -> Forall (sendable p) items -> (forall i, i ∈ item_packets items -> 0 < mine i) ->
  0 <= n -> n + 2 * Z.of_nat (length items) < 2 ^ 32 ->
  exists ret states p', prepare_loop mx items n p = Some ((ret, states), p') /\ prepared mine p p' n items ret states.
Proof.
  revert mine p n. induction items as [|it items IH]; intros mine p n H0 O Hs Hm Hn Hb.
  { eexists _, _, p. split; [done|]. split; [done|by apply lease_refl|constructor|by intros j ?%elem_of_nil| |].
    - eapply owned_ext; [|exact O]. intros j. unfold with_refs. cbn. lia.
    - right. split; [done|]. by exists []. }
  apply Forall_cons in Hs as [Hit Hs]. pose proof Hit as (_&i&off&f&bs&Ei&(k&(_&_&K)&_)&_).
  assert (0 < mine i) as Mi by (apply Hm; eapply item_packets_in; [left|done]).
  cbn [prepare_loop]. rewrite Ei. cbn [of_option]. mrun. mstep (packet_at_eq p i k K).
  destruct (prepare_one_spec mine p it i k n H0 O Hit Ei K Mi) as (ret&o&p1&E1&P1). cbv zeta in E1, P1.
  set (fc := if LINKG_TRANSPORT_PAYLOAD_MAX_SIZE <? pk_data_length k then LINKG_TRANSPORT_FRAGMENT_COUNT_MAX else 1) in *.
  mstep E1. set (x := TxItemState None _ _ _ _ _ _) in *.
  assert (0 < fc <= 2) as Hfc by (unfold fc, LINKG_TRANSPORT_FRAGMENT_COUNT_MAX; by destruct (_ <? _)).
  destruct P1 as (L1&N1&F1&O1&Hr). destruct Hr as [[Hneg Et]|(->&R1)].
  - rewrite (proj2 (Z.eqb_neq ret 0)) by lia. cbn [negb]. eexists _, _, p1. split; [done|]. cbn in Et. subst o.
    assert (tails (x :: replicate (length items) tx_state_zero) = []) as Etl by (cbn; apply omap_replicate_zero).
    split; rewrite ?Etl; [cbn; by rewrite length_replicate|done|constructor|by intros j ?%elem_of_nil|done|by left].
  - cbn [Z.eqb negb]. set (mine1 := with_refs mine (option_list o)) in *.
    assert (forall j, 0 <= mine1 j) as H1.
    { intros j. pose proof (with_refs_range mine (option_list o) j). fold mine1 in H. specialize (H0 j). lia. }
    destruct (IH mine1 p1 (n + fc) H1) as (ret2&states&p2&E2&P2).
    + apply O1.
    + rewrite Forall_forall in Hs |- *. intros it' Hin. eapply sendable_lease; [exact L1| |by apply Hs].
      intros i' Ei'. apply Hm. eapply item_packets_in; [by right|done].
    + intros i' Hi'. assert (0 < mine i'); [apply Hm; unfold item_packets; cbn; rewrite Ei; by right|].
      pose proof (with_refs_range mine (option_list o) i'). fold mine1 in H2. lia.
    + lia.
    + cbn [length] in Hb. lia.
    + rewrite wrap_small by (cbn [length] in Hb; mlia). mstep E2. unfold mret, M_ret. eexists _, _, p2. split; [done|].
      cbn [fst snd]. eapply (prepared_cons mine p p1 p2); [done|done| |exact P2].
      split; [done|]. split; [done|]. split; [done|]. split; [done|]. right. by split.
Qed.

(** Cleaning up gives back what was allocated. *)
Lemma cleanup_spec mine p states :
  (forall j, 0 <= mine j) -> NoDup (tails states) -> (forall j, j ∈ tails states -> mine j = 0) ->
  owned_by (with_refs mine (tails states)) p ->
  exists p', _linkg_transport_tx_cleanup_states mx states p = Some (tt, p') /\ lease mine nothing p p'.
Proof.
  intros H0 Hn Hf O. destruct (release_all_lease mx mine (tails states) p Hmx H0 Hn Hf O) as (p'&E&L).
  exists p'. split; [|done]. rewrite <- E. unfold _linkg_transport_tx_cleanup_states. clear.
  revert p. induction states as [|x states IH]; intros p; [done|]. cbn [mfor omap list_omap].
  destruct (xs_tail_packet x) as [j|]; [|by apply IH]. cbn [mfor]. unfold mbind, M_bind.
  destruct (linkg_packet_release mx (Some j) p) as [[[] p1]|]; [|done]. apply IH.
Qed.
End Prepare.

(** ** Submission *)

(** What a link promises: it returns, fills the results and leaves the packets and
    the references of the caller alone. *)
Class TransportLinkLaws `{TransportLink} := {
  tll_submit n t tx_class mine p packets : owned_by mine p -> (forall i, i ∈ packets -> 0 < mine i) ->
    exists ret rs p', tl_submit n t tx_class packets (replicate (length packets) (- EINPROGRESS)) p = Some ((ret, rs), p') /\
      lease mine nothing p p' /\ length rs = length packets }.

(** The verdict on a frame from the targets' results. *)
Definition frame_verdict (l : list Z) : Z :=
  if existsb (Z.eqb 0) l then 0 else default (- EIO) (head (filter (fun r => r <> - EINPROGRESS) l)).

(** The results of all targets for frame [k]. *)
Definition column (outs : list (list Z)) (k : nat) : list Z := omap (.!! k) outs.

Definition verdicts (n : nat) (outs : list (list Z)) : list Z := (fun k => frame_verdict (column outs k)) <$> seq 0 n.

Definition submissions (targets : list linkg_transport_tx_target) (frames : list (list Z)) (outs : list (list Z)) : list submission :=
  zip_with (fun t o => Submission t frames o) targets outs.

Lemma merge_zero l : foldl merge_result 0 l = 0.
Proof. induction l as [|x l IH]; [done|]. cbn. unfold merge_result at 2. by destruct (x =? 0). Qed.

Lemma merge_decided r l : r <> - EINPROGRESS -> foldl merge_result r l = if existsb (Z.eqb 0) l then 0 else r.
Proof.
  intros Hr. induction l as [|x l IH]; [done|]. cbn [foldl existsb]. unfold merge_result at 2.
  rewrite (Z.eqb_sym 0 x), (proj2 (Z.eqb_neq r _) Hr). destruct (x =? 0); [apply merge_zero|done].
Qed.

Lemma merge_verdict l : final_result (foldl merge_result (- EINPROGRESS) l) = frame_verdict l.
Proof.
  unfold frame_verdict. induction l as [|x l IH]; [done|]. cbn [foldl existsb]. unfold merge_result at 2.
  rewrite (Z.eqb_sym 0 x), Z.eqb_refl. destruct (Z.eqb_spec x 0) as [->|Hx]; [by rewrite merge_zero|]. cbn [orb].
  rewrite filter_cons. destruct (decide (x <> - EINPROGRESS)) as [Hn|Hn].
  - rewrite merge_decided by done. destruct (existsb _ l); [done|]. cbn. unfold final_result. by rewrite (proj2 (Z.eqb_neq x _) Hn).
  - assert (x = - EINPROGRESS) as -> by lia. exact IH.
Qed.

Lemma merge_columns n results outs :
  length results = n -> Forall (fun o => length o = n) outs ->
  foldl (zip_with merge_result) results outs =
    (fun k => foldl merge_result (default 0 (results !! k)) (column outs k)) <$> seq 0 n.
Proof.
  intros Hn Hf. revert results Hn. induction Hf as [|o outs Ho Hf IH]; intros results Hn; cbn [foldl].
  - apply list_eq. intros k. rewrite list_lookup_fmap. cbn. destruct (decide (k < n)%nat) as [Hk|Hk].
    + rewrite lookup_seq_lt by done. cbn. destruct (lookup_lt_is_Some_2 results k) as [r Hr]; [lia|]. by rewrite Hr.
    + rewrite (lookup_ge_None_2 results), (lookup_ge_None_2 (seq 0 n)) by (rewrite ?length_seq; lia). done.
  - rewrite IH by (rewrite length_zip_with; lia). apply list_eq. intros k. rewrite !list_lookup_fmap.
    destruct (decide (k < n)%nat) as [Hk|Hk]; [|by rewrite (lookup_ge_None_2 (seq 0 n)) by (rewrite ?length_seq; lia)].
    rewrite lookup_seq_lt by done. cbn. destruct (lookup_lt_is_Some_2 results k) as [r Hr]; [lia|].
    destruct (lookup_lt_is_Some_2 o k) as [x Hx]; [lia|]. rewrite lookup_zip_with, Hr, Hx. done.
Qed.

Lemma final_verdicts n outs :
  Forall (fun o => length o = n) outs ->
  final_result <$> foldl (zip_with merge_result) (replicate n (- EINPROGRESS)) outs = verdicts n outs.
Proof.
  intros Hf. rewrite (merge_columns n) by (done || by rewrite length_replicate). unfold verdicts. rewrite <- list_fmap_compose.
  apply list_fmap_ext. intros k x Hk. apply lookup_seq in Hk as [-> Hk]. cbn. rewrite lookup_replicate_2 by done. apply merge_verdict.
Qed.

Lemma frame_bytes_lease mine p p' packets :
  lease mine nothing p p' -> (forall i, i ∈ packets -> 0 < mine i) -> frame_bytes packets p' = frame_bytes packets p.
Proof.
  intros L Hm. unfold frame_bytes. apply list_fmap_ext. intros k i Hi. eapply le_payload; [exact L| |by intros []].
  apply Hm. by eapply list_elem_of_lookup_2.
Qed.

Section Submit.
Context {C : Type} `{TP : TransportParts C} `{TLL : TransportLinkLaws}.

Lemma ticked_observe (t : transport_state C) : exists t', observe t = Some (tr_tick t, t') /\ ticked t t'.
Proof. eexists. split; [reflexivity|]. by eexists. Qed.

Lemma submit_target_spec mine t p tr target tx_class packets :
  owned_by mine p -> (forall i, i ∈ packets -> 0 < mine i) ->
  exists out t' p', submit_target target tx_class packets (TxSystem t p tr) =
      Some (out, TxSystem (C := C) t' p' (tr ++ [Submission target (frame_bytes packets p) out])) /\
    ticked t t' /\ lease mine nothing p p' /\ length out = length packets.
Proof.
  intros O Hm. destruct (ticked_observe t) as (t'&Eo&T).
  destruct (tll_submit (tr_tick t) target tx_class mine p packets O Hm) as (ret&rs&p'&E&L&Hl).
  exists (if ret <? 0 then replicate (length packets) ret else rs), t', p'. split; [|split; [done|split; [done|]]].
  2: by destruct (ret <? 0); rewrite ?length_replicate.
  unfold submit_target, transport, pool, zoom, mbind, M_bind, gets, modify, mret, M_ret. cbn [ts_transport].
  rewrite Eo. cbn [ts_transport ts_pool ts_trace]. rewrite E. cbn. done.
Qed.

Lemma submit_targets_spec mine targets t p tr tx_class packets results :
  owned_by mine p -> (forall i, i ∈ packets -> 0 < mine i) ->
  exists outs t' p', submit_targets targets tx_class packets results (TxSystem t p tr) =
      Some (foldl (zip_with merge_result) results outs,
            TxSystem (C := C) t' p' (tr ++ submissions targets (frame_bytes packets p) outs)) /\
    ticked t t' /\ lease mine nothing p p' /\ length outs = length targets /\ Forall (fun o => length o = length packets) outs.
Proof.
  intros O Hm. revert t p tr results O. induction targets as [|target targets IH]; intros t p tr results O.
  { exists [], t, p. cbn. rewrite app_nil_r. split; [done|]. split; [apply ticked_refl|]. split; [by apply lease_refl|done]. }
  destruct (submit_target_spec mine t p tr target tx_class packets O Hm) as (out&t1&p1&E1&T1&L1&Hl).
  destruct (IH t1 p1 (tr ++ [Submission target (frame_bytes packets p) out]) (zip_with merge_result results out)
    (le_owned _ _ _ _ L1)) as (outs&t2&p2&E2&T2&L2&Hl2&Hf).
  exists (out :: outs), t2, p2. split; [|split; [by eapply ticked_trans|split; [by eapply lease_trans|split; [cbn; lia|by constructor]]]].
  cbn [submit_targets]. unfold mbind, M_bind. rewrite E1, E2. cbn [foldl submissions zip_with].
  rewrite (frame_bytes_lease mine p p1) by done. by rewrite <- app_assoc.
Qed.

Lemma submit_wire_batch_spec mine ctx targets t p tr packets :
  owned_by mine p -> (forall i, i ∈ packets -> 0 < mine i) -> xc_targets ctx = Some targets ->
  exists outs t' p', _linkg_transport_tx_submit_wire_batch ctx packets (TxSystem t p tr) =
      Some ((count_zero (verdicts (length packets) outs), verdicts (length packets) outs),
            TxSystem (C := C) t' p' (tr ++ submissions targets (frame_bytes packets p) outs)) /\
    ticked t t' /\ lease mine nothing p p' /\ length outs = length targets /\ Forall (fun o => length o = length packets) outs.
Proof.
  intros O Hm Et. destruct (submit_targets_spec mine targets t p tr (_linkg_transport_tx_link_class (xc_traffic_class ctx)) packets
    (replicate (length packets) (- EINPROGRESS)) O Hm) as (outs&t'&p'&E&T&L&Hl&Hf).
  exists outs, t', p'. split; [|done]. unfold _linkg_transport_tx_submit_wire_batch. rewrite Et. cbn [of_option]. mrun.
  mstep E. by rewrite final_verdicts.
Qed.
End Submit.

(** ** Verdicts on packets *)

Definition packet_verdict (frame_results : list Z) (g : job) : Z := first_failure (frames_of (jb_state g) frame_results).

(** The packet failed and its first frame was refused. *)
Definition refused (frame_results : list Z) (g : job) : bool :=
  negb (packet_verdict frame_results g =? 0) &&
  negb (default 0 (frame_results !! Z.to_nat (xs_frame_offset (jb_state g))) =? 0).

(** The packet is laid out as before the send. *)
Definition restored (p : linkg_packet_pool) (g : job) : Prop :=
  exists i, xi_packet (jb_item g) = Some i /\
    has p i (xs_original_data_offset (jb_state g)) (xs_original_flags (jb_state g)) (jb_bytes g).

(** The packet can be given its layout back. *)
Definition kept (p : linkg_packet_pool) (g : job) : Prop :=
  exists i off f b, xi_packet (jb_item g) = Some i /\ has p i off f b /\
    stored p i (xs_original_data_offset (jb_state g)) (jb_bytes g) /\
    xs_original_data_length (jb_state g) = job_length g.

Lemma encoded_kept local p s g :
  xs_original_data_length (jb_state g) = job_length g -> encoded local p s g -> kept p g.
Proof.
  intros Hl (i&Ei&Hs&H). destruct (packet_frames local s g) as [|b [|b' [|]]]; try done;
    destruct (xs_tail_packet (jb_state g)); try done.
  - destruct H as (off&H). by eexists _, _, _, _.
  - destruct H as (off&off'&H&_). by eexists _, _, _, _.
Qed.

Lemma kept_lease mine T p p' g i :
  lease mine T p p' -> xi_packet (jb_item g) = Some i -> 0 < mine i -> ~ T i -> kept p g -> kept p' g.
Proof.
  intros L Ei Mi Ti (i'&off&f&b&Ei'&H&Hs&Hl). assert (i' = i) as -> by congruence.
  exists i, off, f, b. splits; [done|by eapply has_lease|by eapply stored_lease|done].
Qed.

Lemma restore_spec mine p g i :
  owned_by mine p -> xi_packet (jb_item g) = Some i -> kept p g ->
  exists p', restore_packet (jb_item g) (jb_state g) p = Some (tt, p') /\ lease mine (eq i) p p' /\ restored p' g.
Proof.
  intros O Ei (i'&off&f&b&Ei'&H&Hs&Hl). assert (i' = i) as -> by congruence.
  destruct (window_step mine i p _ _ _ _ _ (fun _ => xs_original_flags (jb_state g)) O H Hs) as (p'&E&L&H'&_).
  exists p'. split; [|split; [done|by exists i]]. unfold restore_packet. rewrite Ei, Hl. cbn [of_option]. by mrun.
Qed.

Lemma finalize_loop_spec mine fr jobs p :
  owned_by mine p -> NoDup (item_packets (jb_item <$> jobs)) -> (forall i, i ∈ item_packets (jb_item <$> jobs) -> 0 < mine i) ->
  Forall (kept p) jobs ->
  exists p', finalize_loop ((fun g => (jb_item g, jb_state g)) <$> jobs) fr p = Some (packet_verdict fr <$> jobs, p') /\
    lease mine (fun i => exists g, g ∈ jobs /\ refused fr g = true /\ xi_packet (jb_item g) = Some i) p p' /\
    (forall g, g ∈ jobs -> refused fr g = true -> restored p' g).
Proof.
  revert p. induction jobs as [|g jobs IH]; intros p O Hn Hm Hk.
  { exists p. split; [done|]. split; [by apply lease_refl|by intros g ?%elem_of_nil]. }
  apply Forall_cons in Hk as [Kg Hk]. pose proof Kg as (i&_&_&_&Ei&_). unfold item_packets in Hn, Hm. cbn in Hn, Hm.
  rewrite Ei in Hn, Hm. apply NoDup_cons in Hn as [Hi Hn].
  assert (exists p1, (if refused fr g then restore_packet (jb_item g) (jb_state g) else mret tt) p = Some (tt, p1) /\
    lease mine (fun j => refused fr g = true /\ i = j) p p1 /\ (refused fr g = true -> restored p1 g)) as (p1&E1&L1&R1).
  { destruct (refused fr g).
    - destruct (restore_spec mine p g i O Ei Kg) as (p1&E1&L1&R1). exists p1. split; [done|]. split; [|done].
      eapply lease_weaken; [|exact L1]. by intros j <-.
    - exists p. split; [done|]. split; [by apply lease_refl|done]. }
  assert (forall g', g' ∈ jobs -> xi_packet (jb_item g') <> Some i) as Hne.
  { intros g' Hg' E. apply Hi. apply list_elem_of_omap. exists (jb_item g'). split; [by apply list_elem_of_fmap_2|done]. }
  assert (forall g', g' ∈ jobs -> forall j, xi_packet (jb_item g') = Some j -> 0 < mine j) as Mj.
  { intros g' Hg' j Ej. apply Hm. right. apply list_elem_of_omap. exists (jb_item g'). split; [by apply list_elem_of_fmap_2|done]. }
  destruct (IH p1 (le_owned _ _ _ _ L1) Hn) as (p2&E2&L2&R2).
  { intros j Hj. apply Hm. by right. }
  { rewrite Forall_forall in Hk |- *. intros g' Hg'. pose proof (Hk g' Hg') as (j&_&_&_&Ej&_).
    eapply kept_lease; [exact L1|exact Ej|by eapply Mj| |by apply Hk]. intros [_ ->]. by apply (Hne g'). }
  exists p2. split.
  { cbn [fmap list_fmap finalize_loop]. fold (packet_verdict fr g). unfold refused in E1. cbn [when].
    unfold mbind, M_bind, when. rewrite E1, E2. done. }
  split.
  - eapply lease_trans; (eapply lease_weaken; [|done]).
    + intros j [Hr <-]. exists g. split; [left|done].
    + intros j (g'&Hg'&H). exists g'. split; [by right|done].
  - intros g' [->|Hg']%elem_of_cons Hr; [|by apply R2]. destruct (R1 Hr) as (i'&Ei'&H'). exists i'. split; [done|].
    assert (i' = i) as -> by congruence. eapply has_lease; [exact L2|apply Hm; left| |done].
    intros (g'&Hg'&_&E). by apply (Hne g').
Qed.

(** ** The class while its order lock is held *)

Section Moves.
Context {C : Type} `{TP : TransportParts C}.

(** Only class [q] changes, by [f], and the observation counter. *)
Definition moved (q : nat * nat) (f : linkg_transport_peer_class -> linkg_transport_peer_class) (t t' : transport_state C) : Prop :=
  exists n, t' = class_set q f (tset_ghost (tr_mutexes t) n t).

Lemma moved_trans q f g t1 t2 t3 : moved q f t1 t2 -> moved q g t2 t3 -> moved q (fun c => g (f c)) t1 t3.
Proof. intros [n ->] [m ->]. exists m. by rewrite <- (class_set_compose q g f). Qed.

Lemma moved_tick q t t' : ticked t t' -> moved q id t t'.
Proof.
  intros [n ->]. exists n. unfold class_set, tset_context, tset_ghost, ctx_set_peers. cbn. f_equal.
  assert (forall l : list linkg_transport_peer, alter (fun p => set_classes (alter id (snd q) (pr_classes p)) p) (fst q) l = l) as ->.
  { intros l. apply list_alter_id. intros p. rewrite (list_alter_id id) by done. by destruct p. }
  by destruct (tr_context t).
Qed.

Lemma moved_set q f (t : transport_state C) : moved q f t (class_set q f t).
Proof. exists (tr_tick t). by destruct t. Qed.

Lemma moved_class q f t t' c : moved q f t t' -> class_at t q = Some c -> class_at t' q = Some (f c).
Proof. intros [n ->] H. by apply class_at_set. Qed.

Lemma moved_ext q f g t t' c : moved q f t t' -> class_at t q = Some c -> f c = g c -> moved q g t t'.
Proof. intros [n ->] H E. exists n. by apply (class_set_ext _ _ _ _ c). Qed.

Lemma moved_local q f t t' : moved q f t t' -> cx_local_node_id (tr_context t') = cx_local_node_id (tr_context t).
Proof. by intros [n ->]. Qed.

(** *** Statistics *)

(** Recording changes the statistics of the class only. *)
Lemma record_frames_moved elapsed q rows results (t : transport_state C) c :
  class_at t q = Some c ->
  exists t' st, record_frames elapsed q rows results t = Some (tt, t') /\ moved q (set_class_stats st) t t'.
Proof.
  intros Hc. unfold record_frames. mstep (class_update_run t q c (fun c => set_class_stats
    (foldl (fun t '((bytes, _), r) => stats_sent (r =? 0) bytes t) (pc_stats c) (zip rows results)) c) Hc).
  set (st1 := foldl (fun t '((bytes, _), r) => stats_sent (r =? 0) bytes t) (pc_stats c) (zip rows results)).
  set (t1 := class_set q _ t). assert (class_at t1 q = Some (set_class_stats st1 c)) as H1 by exact (class_at_set t q _ c Hc).
  assert (moved q (set_class_stats st1) t t1) as M1.
  { eapply moved_ext; [apply moved_set|exact Hc|done]. }
  destruct (_ || _); cbn [when]; [|by exists t1, st1]. destruct (ticked_observe t1) as (t2&Eo&T2). mstep Eo.
  pose proof (moved_class _ _ _ _ _ (moved_tick q _ _ T2) H1) as H2. cbn in H2.
  rewrite (class_update_run t2 q _ _ H2). eexists _, _. split; [reflexivity|].
  eapply moved_ext; [eapply moved_trans; [exact M1|eapply moved_trans; [exact (moved_tick q _ _ T2)|apply moved_set]]|exact Hc|].
  cbn. reflexivity.
Qed.
End Moves.

(** ** Taking a class *)

Section Acquire.
Context {C : Type} `{TP : TransportParts C} {TPL : TransportPartsLaws C} (env : transport_env C).

Abbreviation state := (transport_state C).
Abbreviation peers s := (cx_peers (tr_context s)).
Abbreviation next_id s := (cx_next_packet_id (tr_context s)).

(** What the sender relies on: other threads keep the invariant and the packet
    ids, unlocking succeeds, and the lock calls return 0 or an error number. *)
Record sender_env : Prop := {
  se_rely : rely env;
  se_unlock n : te_unlock env n = 0;
  se_lock n : 0 <= te_lock env n;
  se_order_lock n : 0 <= te_order_lock env n;
  se_ids n s : in_range 32 (next_id s) -> in_range 32 (next_id (te_others env n s)) }.

Context (SE : sender_env).

Lemma trivial_effect : effect env 0 (fun _ _ _ => True).
Proof. by split. Qed.

Definition with_id (n : Z) (s : state) : state :=
  tset_context (ctx_set_local (cx_local_node_id (tr_context s)) (cx_local_role (tr_context s)) n
    (cx_initialized (tr_context s)) (tr_context s)) s.

Lemma wf_id n s : wf s -> wf (with_id n s).
Proof. intros []. by split. Qed.

(** A sender between calls. *)
Record idle (s : state) : Prop := {
  id_wf : wf s;
  id_held : held false s;
  id_next : in_range 32 (next_id s) }.

(** The thread holds the order lock of class [q], which belongs to an active peer,
    and nothing else; unlocking the class makes it idle. *)
Record acquired (ctx : linkg_transport_tx_context) (s t : state) (q : nat * nat) : Prop := {
  aq_class : is_Some (class_at t q);
  aq_index : snd q = Z.to_nat (xc_traffic_class ctx);
  aq_peer : exists p, peers t !! fst q = Some p /\ pr_valid p = true /\ pr_peer_node_id p = xc_peer_node_id ctx /\
    active_epoch (pr_lifecycle_epoch p) = true;
  aq_local : same_local s t;
  aq_initialized : cx_initialized (tr_context t) = true;
  aq_idle : forall f t', moved q f t t' -> (forall c, pc_tx_order_lock (f c) = false) -> idle t' }.

(** What the protected part does to the context. *)
Definition inside_ok {A} (inside : M state A) (P : A -> Prop) : Prop :=
  forall s, in_range 32 (next_id s) -> exists a n, inside s = Some (a, with_id n s) /\ in_range 32 n /\ P a.

Lemma ticked_idle s s' : ticked s s' -> idle s -> idle s'.
Proof. intros T []. split; [by eapply wf_tick|..]; by destruct T as [t ->]. Qed.

Lemma lock_spec (Q : Z -> state -> Prop) s :
  idle s -> (forall s', idle s' -> same_local s s' -> forall r, 0 < r -> Q r s') ->
  (forall s', wf s' -> held true s' -> in_range 32 (next_id s') -> same_local s s' -> Q 0 s') ->
  wp (transport_lock env) Q s.
Proof.
  intros [W H N] Hfail Hok. unfold transport_lock. apply wp_bind, wp_observation. intros n s1 T.
  pose proof (ticked_idle _ _ T (Build_idle _ W H N)) as [W1 H1 N1]. assert (same_local s s1) as L1 by (by destruct T as [t ->]).
  pose proof (se_lock SE n). apply wp_bind, wp_when; intros E.
  - apply wp_bind, wp_modify, wp_modify, wp_ret. apply Z.eqb_eq in E. rewrite E.
    destruct (se_rely SE n s1 W1 H1) as (W2&H2&L2). apply Hok.
    + by apply wf_lock.
    + done.
    + by apply (se_ids SE).
    + eapply same_local_trans; [exact L1|]. exact L2.
  - apply wp_ret. apply Hfail; [by split|done|]. zb. lia.
Qed.

Lemma unlock_spec (Q : Z -> state -> Prop) s :
  (forall s', ticked (with_lock false s) s' -> Q 0 s') -> wp (transport_unlock env) Q s.
Proof.
  intros HQ. unfold transport_unlock. apply wp_bind, wp_observation. intros n s1 [t ->]. rewrite (se_unlock SE). cbn [Z.eqb when].
  apply wp_bind, wp_modify, wp_ret, HQ. by exists t.
Qed.

(** Unlocking the taken class. *)
Lemma acquired_unlocked i k p c s f :
  wf s -> in_range 32 (next_id s) -> peers s !! i = Some p -> pr_classes p !! k = Some c -> pc_tx_order_lock (f c) = false ->
  idle (with_lock false (put i (set_classes (<[k := f c]> (pr_classes p)) p) s)).
Proof.
  intros W N Hp Hc Hf. split; [|done|done]. apply wf_lock, (wf_put_only s i p); try done.
  destruct (w_peer _ W i p Hp) as [P1 P2 P3]. split; [cbn; by rewrite length_insert| |done].
  intros d Hd. cbn in Hd. apply list_elem_of_lookup in Hd as [n Hd].
  rewrite lookup_insert_case in Hd by by eapply lookup_lt_Some. case_decide; [congruence|].
  apply P2. by eapply list_elem_of_lookup_2.
Qed.

Lemma acquire_spec {A} ctx (inside : M state A) P s :
  idle s -> linkg_transport_class_valid (xc_traffic_class ctx) = true -> inside_ok inside P ->
  wp (acquire_class env ctx inside) (fun r t => match r with
    | inl e => e < 0 /\ idle t /\ same_local s t
    | inr (q, a) => acquired ctx s t q /\ P a end) s.
Proof.
  intros I Hv Hin. unfold acquire_class. apply wp_bind, lock_spec; [done|..].
  { intros s1 I1 L1 r Hr. rewrite (proj2 (Z.eqb_neq r 0)) by lia. apply wp_ret. split; [lia|done]. }
  intros s1 W1 H1 N1 L1. cbn [Z.eqb negb]. apply wp_bind, wp_gets.
  assert (forall e, e < 0 -> wp (_ ← transport_unlock env; mret (inl e)) (fun (r : Z + (nat * nat) * A) t => match r with
    | inl e => e < 0 /\ idle t /\ same_local s t
    | inr (q, a) => acquired ctx s t q /\ P a end) s1) as Hout.
  { intros e He. apply wp_bind, unlock_spec. intros s2 [t ->]. apply wp_ret. split; [done|]. split; [|done].
    split; [|done|done]. apply (wf_tick (with_lock false s1)); [by eexists|by apply wf_lock]. }
  destruct (cx_initialized (tr_context s1)) eqn:Ei; cbn [negb]; [|by apply Hout].
  destruct (linkg_transport_find_peer_locked (tr_context s1) (xc_peer_node_id ctx)) as [i|] eqn:Ef; [|by apply Hout].
  destruct (find_peer_spec s1 _ i Ef) as (p&Hp&Hpv&Hpn&_).
  unfold linkg_transport_peer_epoch_read_active. rewrite (epochs_lookup s1 i p Hp). cbn [fst].
  destruct (Z.land (pr_lifecycle_epoch p) 1 =? 0) eqn:Ee; cbn [negb]; [|by apply Hout].
  set (k := Z.to_nat (xc_traffic_class ctx)). destruct (lookup_lt_is_Some_2 (pr_classes p) k) as [c Hc].
  { rewrite (po_classes _ (w_peer _ W1 i p Hp)). unfold linkg_transport_class_valid, LINKG_TRANSPORT_CLASS_REALTIME, LINKG_TRANSPORT_CLASS_COUNT in Hv. zb. lia. }
  apply wp_bind. unfold order_lock. apply wp_bind, wp_observation. intros n s2 [tk ->]. pose proof (se_order_lock SE n) as Hol.
  apply wp_bind, wp_when; intros E; [|].
  2: { apply wp_ret. rewrite E. zb. apply wp_bind, unlock_spec. intros s3 [t ->]. apply wp_ret.
       split; [lia|]. split; [|done]. split; [|done|done]. apply (wf_tick (with_lock false s1)); [by eexists|by apply wf_lock]. }
  eapply wp_class_update; [exact Hp|exact Hc|]. apply wp_ret. rewrite E. cbn [negb]. apply wp_bind.
  set (c1 := taken_class (te_sent env n c) c).
  set (s3 := put i _ _). destruct (Hin s3 N1) as (a&m&Ea&Hm&HP). eapply wp_run; [exact Ea|].
  apply wp_bind, unlock_spec. intros s4 [t4 ->]. apply wp_ret. split; [|done].
  pose proof (lookup_lt_Some _ _ _ Hp) as Hi. pose proof (lookup_lt_Some _ _ _ Hc) as Hk. split.
  - exists c1. unfold class_at. cbn. rewrite list_lookup_insert_eq by done. cbn. by apply list_lookup_insert_eq.
  - done.
  - eexists. split; [cbn; by apply list_lookup_insert_eq|]. splits; [exact Hpv|exact Hpn|exact Ee].
  - done.
  - done.
  - intros f t' [n' ->] Hf.
    pose proof (acquired_unlocked i k p c s1 (fun c => f (taken_class (te_sent env n c) c)) W1 N1 Hp Hc (Hf _)) as [Wf Hf' _].
    match goal with |- idle ?g => replace g with (tset_ghost (tr_mutexes s1) n'
      (with_id m (with_lock false (put i (set_classes (<[k := f c1]> (pr_classes p)) p) s1)))) end.
    + split; [|done|exact Hm]. match goal with |- wf (tset_ghost _ _ ?x) => apply (wf_tick x) end; [by exists n'|by apply wf_id].
    + unfold class_set, with_id, with_lock, tset_ghost, tset_context, put. cbn.
      rewrite (alter_lookup _ _ _ _ (list_lookup_insert_eq _ _ _ Hi)). cbn.
      rewrite (alter_lookup _ _ _ _ (list_lookup_insert_eq _ _ _ Hk)), !list_insert_insert_eq. done.
Qed.
End Acquire.

(** ** Packet ids *)

Section Ids.
Context {C : Type} `{TP : TransportParts C}.
Abbreviation state := (transport_state C).
Abbreviation next_id s := (cx_next_packet_id (tr_context s)).

(** The same job with another packet id. *)
Definition renumbered (g g' : job) : Prop := exists id, g' = Job (jb_item g) (state_set_id id (jb_state g)) (jb_bytes g).

Lemma with_id_self (s : state) : with_id (next_id s) s = s.
Proof. by destruct s as [[]]. Qed.

Lemma with_id_twice m n (s : state) : with_id m (with_id n s) = with_id m s.
Proof. done. Qed.

Lemma next_packet_id_spec (s : state) :
  in_range 32 (next_id s) ->
  exists id n, _linkg_transport_tx_next_packet_id_locked s = Some (id, with_id n s) /\ 0 < id < 2 ^ 32 /\ in_range 32 n.
Proof.
  intros H. unfold _linkg_transport_tx_next_packet_id_locked, context, update. mrun. unfold LINKG_TRANSPORT_PACKET_ID_INVALID.
  eexists _, _. split; [reflexivity|]. set (id := if _ =? 0 then 1 else _). assert (0 < id < 2 ^ 32) as Hid.
  { unfold id. destruct (_ =? 0) eqn:E; zb; unfold in_range in H; lia. }
  split; [done|]. destruct (u32 (id + 1) =? 0) eqn:E; [by vm_compute|]. apply wrap_range. lia.
Qed.

Lemma assign_ids_ok p jobs :
  Forall (ready p) jobs ->
  inside_ok (C := C) (assign_ids (jb_state <$> jobs))
    (fun states => exists jobs', jb_state <$> jobs' = states /\ Forall2 renumbered jobs jobs' /\ Forall id_ok jobs').
Proof.
  induction jobs as [|g jobs IH]; intros Hr s Hn.
  { exists [], (next_id s). split; [by rewrite with_id_self|]. split; [done|]. by exists []. }
  apply Forall_cons in Hr as [Hg Hr]. cbn [fmap list_fmap assign_ids].
  assert (exists id n, (if xs_frame_count (jb_state g) =? LINKG_TRANSPORT_FRAGMENT_COUNT_MAX
      then id ← _linkg_transport_tx_next_packet_id_locked; mret (state_set_id id (jb_state g)) else mret (jb_state g)) s =
      Some (state_set_id id (jb_state g), with_id n s) /\ in_range 32 n /\ (fragmented g = true -> 0 < id < 2 ^ 32))
    as (id&n&E1&Hn1&Hid).
  { rewrite (ready_count p g Hg). destruct (fragmented g).
    - destruct (next_packet_id_spec s Hn) as (id&n&E&Hid&Hn1). exists id, n. split; [by mstep E|done].
    - exists (xs_packet_id (jb_state g)), (next_id s). rewrite with_id_self. split; [|done]. by destruct (jb_state g). }
  destruct (IH Hr (with_id n s) Hn1) as (states&m&E2&Hm&jobs'&Es&F2&Fi).
  exists (state_set_id id (jb_state g) :: states), m. split.
  { unfold mbind, M_bind. unfold mbind, M_bind in E1. rewrite E1, E2. unfold mret, M_ret. by rewrite with_id_twice. }
  split; [done|]. exists (Job (jb_item g) (state_set_id id (jb_state g)) (jb_bytes g) :: jobs'). cbn. rewrite Es.
  split; [done|]. split; constructor; try done. by exists id.
Qed.

Lemma ready_renumbered p g g' : renumbered g g' -> ready p g -> ready p g'.
Proof. by intros [id ->]. Qed.
Lemma holds_renumbered p g g' : renumbered g g' -> holds p g -> holds p g'.
Proof. by intros [id ->]. Qed.

Lemma renumbered_Forall (P : job -> Prop) jobs jobs' :
  (forall g g', renumbered g g' -> P g -> P g') -> Forall2 renumbered jobs jobs' -> Forall P jobs -> Forall P jobs'.
Proof.
  intros HP. induction 1 as [|g g' jobs jobs' Hg F2 IH]; [done|]. intros [H1 H2]%Forall_cons. constructor; [by eapply HP|by apply IH].
Qed.

Lemma renumbered_same jobs jobs' :
  Forall2 renumbered jobs jobs' ->
  jb_item <$> jobs' = jb_item <$> jobs /\ tails (jb_state <$> jobs') = tails (jb_state <$> jobs) /\
  (forall n, offsets n jobs -> offsets n jobs').
Proof.
  induction 1 as [|g g' jobs jobs' [id ->] F2 (I1&I2&I3)]; [done|]. cbn. rewrite I1. splits; [done| |].
  - by rewrite I2.
  - intros n [H1 H2]. split; [done|]. by apply I3.
Qed.

Lemma no_ids_ok : inside_ok (C := C) (mret tt) (fun _ => True).
Proof. intros s Hn. exists tt, (next_id s). split; [by rewrite with_id_self|done]. Qed.
End Ids.

(** ** Packets of a chunk *)

Lemma chunk_packets_perm jobs :
  chunk_packets jobs ≡ₚ item_packets (jb_item <$> jobs) ++ tails (jb_state <$> jobs).
Proof.
  induction jobs as [|g jobs IH]; [done|]. unfold chunk_packets in *. cbn [fmap list_fmap concat]. rewrite IH. unfold job_packets, item_packets.
  cbn [omap list_omap]. destruct (xi_packet (jb_item g)), (xs_tail_packet (jb_state g)); cbn; try done.
  - constructor. by rewrite Permutation_middle.
  - by rewrite Permutation_middle.
Qed.

(** The caller's packets and the tails are apart, and both are owned. *)
Lemma chunk_packets_owned mine jobs :
  (forall j, 0 <= mine j) -> NoDup (item_packets (jb_item <$> jobs)) -> (forall i, i ∈ item_packets (jb_item <$> jobs) -> 0 < mine i) ->
  NoDup (tails (jb_state <$> jobs)) -> (forall j, j ∈ tails (jb_state <$> jobs) -> mine j = 0) ->
  NoDup (chunk_packets jobs) /\ (forall i, i ∈ chunk_packets jobs -> 0 < with_refs mine (tails (jb_state <$> jobs)) i).
Proof.
  intros H0 Hn Hm Ht Hf. split.
  - rewrite chunk_packets_perm. apply NoDup_app. split; [done|]. split; [|done]. intros i Hi Hi'.
    specialize (Hm i Hi). specialize (Hf i Hi'). lia.
  - intros i. rewrite chunk_packets_perm. intros [Hi|Hi]%elem_of_app.
    + pose proof (with_refs_range mine (tails (jb_state <$> jobs)) i). specialize (Hm i Hi). lia.
    + pose proof (with_refs_in mine _ i Hi). specialize (H0 i). lia.
Qed.

(** Packet [i] of an item, its offset, flags and bytes. *)
Definition unchanged (p p' : linkg_packet_pool) (it : linkg_transport_tx_item) : Prop :=
  forall i off f bs, xi_packet it = Some i -> has p i off f bs -> has p' i off f bs.

(** ** Sending a chunk *)

Section Send.
Context {C : Type} `{TP : TransportParts C} {TPL : TransportPartsLaws C} `{TLL : TransportLinkLaws}.
Context (env : transport_env C) (SE : sender_env env) (mx : mutex_api) (Hmx : mutex_ok mx) (elapsed_ms : nat -> Z).

Abbreviation system := (tx_system C).
Abbreviation local_id s := (cx_local_node_id (tr_context (ts_transport s))).

(** The class of a context's peer in a state. *)
Definition peer_class (t : transport_state C) (ctx : linkg_transport_tx_context) (c : linkg_transport_peer_class) : Prop :=
  exists q p, class_at t q = Some c /\ snd q = Z.to_nat (xc_traffic_class ctx) /\
    cx_peers (tr_context t) !! fst q = Some p /\ pr_valid p = true /\ pr_peer_node_id p = xc_peer_node_id ctx.

(** What sending [items] to [targets] from [s] may end with: an error before
    anything was handed to a link, or one submission of the chunk's frames per
    target, the merged verdicts, the sequence numbers of the frames consumed
    unless every frame was refused, and the refused packets as they were. *)
Inductive chunk_outcome (mine : nat -> Z) (ctx : linkg_transport_tx_context) (targets : list linkg_transport_tx_target)
    (items : list linkg_transport_tx_item) (s : system) : Z -> list Z -> system -> Prop :=
  | chunk_failed ret s' : ret < 0 -> ts_trace s' = ts_trace s -> lease mine nothing (ts_pool s) (ts_pool s') ->
      chunk_outcome mine ctx targets items s ret [] s'
  | chunk_sent jobs start outs c fr s' :
      jb_item <$> jobs = items -> Forall (holds (ts_pool s)) jobs -> Forall id_ok jobs -> offsets 0 jobs ->
      length outs = length targets ->
      fr = verdicts (length (chunk_frames (local_id s) start jobs)) outs ->
      ts_trace s' = ts_trace s ++ submissions targets (chunk_frames (local_id s) start jobs) outs ->
      lease mine (fun i => i ∈ item_packets items) (ts_pool s) (ts_pool s') ->
      (forall g, g ∈ jobs -> refused fr g = true -> unchanged (ts_pool s) (ts_pool s') (jb_item g)) ->
      peer_class (ts_transport s') ctx c ->
      sequences_of c = (if count_zero fr =? 0 then start else chunk_advance start jobs) ->
      chunk_outcome mine ctx targets items s (count_zero (packet_verdict fr <$> jobs)) (packet_verdict fr <$> jobs) s'.

Lemma transport_step {A} (m : M (transport_state C) A) t p tr a t' :
  m t = Some (a, t') -> transport m (TxSystem t p tr) = Some (a, TxSystem t' p tr).
Proof. intros E. unfold transport, zoom. cbn [ts_transport]. by rewrite E. Qed.

Lemma pool_step {A} (m : PM A) (t : transport_state C) p tr a p' :
  m p = Some (a, p') -> pool m (TxSystem t p tr) = Some (a, TxSystem t p' tr).
Proof. intros E. unfold pool, zoom. cbn [ts_pool]. by rewrite E. Qed.

Lemma peer_class_moved q f s t t' ctx c :
  acquired ctx s t q -> class_at t q = Some c -> moved q f t t' -> peer_class t' ctx (f c).
Proof.
  intros [_ Hi (p&Hp&Hv&Hn&_) _ _ _] Hc M. pose proof (moved_class _ _ _ _ _ M Hc) as Hc'. destruct M as [n ->].
  exists q, (set_classes (alter f (snd q) (pr_classes p)) p). splits; try done.
  cbn. by rewrite list_lookup_alter_eq, Hp.
Qed.

(** The part of the send between the encoding and the release of the class. *)
Definition finish_chunk (ctx : linkg_transport_tx_context) (items : list linkg_transport_tx_item)
    (states : list linkg_transport_tx_state) (q : nat * nat) (start : linkg_transport_tx_sequence_state)
    (frame_batch : linkg_transport_tx_frame_batch) : M system (Z * list Z) :=
  submitted ← _linkg_transport_tx_submit_wire_batch ctx (xf_packet <$> frame_batch);
  let '(accepted_frames, frame_results) := submitted in
  when (accepted_frames =? 0) (transport (rollback q start)) ;;
  transport (_linkg_transport_tx_record_stats elapsed_ms q frame_batch frame_results) ;;
  final ← pool (_linkg_transport_tx_finalize_results items states frame_results);
  transport (unlock_class q) ;;
  pool (_linkg_transport_tx_cleanup_states mx states) ;;
  mret final.

(** The roll-back when nothing was accepted. *)
Lemma roll_back_step q start b t p tr c :
  class_at t q = Some c ->
  exists t', when b (transport (rollback q start)) (TxSystem t p tr) = Some (tt, TxSystem (C := C) t' p tr) /\
    moved q (fun c => if b then set_sequences start c else c) t t'.
Proof.
  intros Hc. destruct b; cbn [when].
  - eexists. split; [apply transport_step; unfold rollback; by apply (class_update_run t q _ _ Hc)|apply moved_set].
  - exists t. split; [done|]. apply moved_tick, ticked_refl.
Qed.

(** The class from its release back to its acquisition. *)
Lemma moved_chain q adv start st (b : bool) (t t1 t2 t3 : transport_state C) :
  ticked (at_sequence q adv t) t1 -> moved q (fun c => if b then set_sequences start c else c) t1 t2 ->
  moved q (set_class_stats st) t2 t3 ->
  moved q (fun c => set_order_lock false (set_class_stats st (if b then set_sequences start (set_sequences adv c) else set_sequences adv c)))
    t (class_set q (set_order_lock false) t3).
Proof.
  intros T M2 M3. pose proof (moved_trans q _ _ _ _ _ (moved_set q (set_sequences adv) t) (moved_tick q _ _ T)) as M1.
  exact (moved_trans q _ _ _ _ _ (moved_trans q _ _ _ _ _ (moved_trans q _ _ _ _ _ M1 M2) M3) (moved_set q (set_order_lock false) t3)).
Qed.

Lemma all_encoded_kept local p s jobs :
  Forall (fun g => xs_original_data_length (jb_state g) = job_length g) jobs -> all_encoded local p s jobs -> Forall (kept p) jobs.
Proof.
  revert s. induction jobs as [|g jobs IH]; intros s; [constructor|]. intros [H1 H2]%Forall_cons [E1 E2].
  constructor; [by eapply encoded_kept|by eapply IH].
Qed.

Lemma finish_chunk_spec mine ctx targets jobs q c t p tr start adv local :
  let mine' := with_refs mine (tails (jb_state <$> jobs)) in
  (forall j, 0 <= mine j) -> NoDup (item_packets (jb_item <$> jobs)) -> (forall i, i ∈ item_packets (jb_item <$> jobs) -> 0 < mine i) ->
  NoDup (tails (jb_state <$> jobs)) -> (forall j, j ∈ tails (jb_state <$> jobs) -> mine j = 0) ->
  xc_targets ctx = Some targets -> class_at t q = Some c -> owned_by mine' p ->
  all_encoded local p start jobs -> Forall (fun g => xs_original_data_length (jb_state g) = job_length g) jobs ->
  exists outs fr f t' p', finish_chunk ctx (jb_item <$> jobs) (jb_state <$> jobs) q start (chunk_rows jobs)
      (TxSystem (at_sequence q adv t) p tr) =
      Some ((count_zero (packet_verdict fr <$> jobs), packet_verdict fr <$> jobs),
            TxSystem t' p' (tr ++ submissions targets (chunk_frames local start jobs) outs)) /\
    length outs = length targets /\ fr = verdicts (length (chunk_frames local start jobs)) outs /\
    moved q f t t' /\ (forall c, pc_tx_order_lock (f c) = false) /\
    sequences_of (f c) = (if count_zero fr =? 0 then start else adv) /\
    lease mine (fun i => exists g, g ∈ jobs /\ refused fr g = true /\ xi_packet (jb_item g) = Some i) p p' /\
    (forall g, g ∈ jobs -> refused fr g = true -> restored p' g).
Proof.
  intros mine' H0 Hn Hm Ht Hf Etg Hc O He Hlen.
  destruct (chunk_packets_owned mine jobs H0 Hn Hm Ht Hf) as [Nc Mc]. fold mine' in Mc.
  assert (forall i, i ∈ xf_packet <$> chunk_rows jobs -> 0 < mine' i) as Mr.
  { intros i Hi. apply Mc. unfold chunk_rows in Hi. apply list_elem_of_fmap in Hi as (row&->&Hi).
    apply list_elem_of_In, in_concat in Hi as (rows&Hr&Hi). apply list_elem_of_In in Hr, Hi.
    apply list_elem_of_fmap in Hr as (g&->&Hg). apply (chunk_packets_in jobs g); [done|]. unfold packet_rows in Hi. unfold job_packets.
    destruct (xi_packet (jb_item g)), (xs_tail_packet (jb_state g)); cbn;
      repeat (apply elem_of_cons in Hi as [->|Hi]; [cbn; set_solver|]); by apply elem_of_nil in Hi. }
  unfold finish_chunk.
  destruct (submit_wire_batch_spec mine' ctx targets (at_sequence q adv t) p tr (xf_packet <$> chunk_rows jobs) O Mr Etg)
    as (outs&t1&p1&E1&T1&L1&Hl&_).
  pose proof (frame_bytes_spec local p start jobs He) as Eb.
  rewrite Eb in E1.
  assert (length (xf_packet <$> chunk_rows jobs) = length (chunk_frames local start jobs)) as El
    by (rewrite <- Eb; symmetry; apply length_fmap).
  rewrite El in E1. mstep E1. set (fr := verdicts (length (chunk_frames local start jobs)) outs).
  set (tr' := tr ++ submissions targets (chunk_frames local start jobs) outs).
  assert (class_at (at_sequence q adv t) q = Some (set_sequences adv c)) as C0 by (by apply class_at_set).
  pose proof (moved_class _ _ _ _ _ (moved_tick q _ _ T1) C0) as C1.
  destruct (roll_back_step q start (count_zero fr =? 0) t1 p1 tr' _ C1) as (t2&E2&M2).
  pose proof (moved_class _ _ _ _ _ M2 C1) as C2. rewrite (bind_step _ _ _ _ _ E2).
  destruct (record_frames_moved elapsed_ms q ((fun f => (xf_payload_length f, xf_user_data f)) <$> chunk_rows jobs) fr t2 _ C2)
    as (t3&st&E3&M3). pose proof (moved_class _ _ _ _ _ M3 C2) as C3.
  mstep (transport_step (_linkg_transport_tx_record_stats elapsed_ms q (chunk_rows jobs) fr) t2 p1
    (tr ++ submissions targets (chunk_frames local start jobs) outs) tt t3 E3).
  assert (forall g, g ∈ jobs -> forall i, xi_packet (jb_item g) = Some i -> i ∈ chunk_packets jobs) as Hin.
  { intros g Hg i Ei. apply (chunk_packets_in jobs g); [done|]. unfold job_packets. rewrite Ei. left. }
  assert (forall i, i ∈ item_packets (jb_item <$> jobs) -> 0 < mine' i) as Mi.
  { intros i Hi. pose proof (with_refs_range mine (tails (jb_state <$> jobs)) i) as H1. fold mine' in H1. specialize (Hm i Hi). lia. }
  destruct (finalize_loop_spec mine' fr jobs p1 (le_owned _ _ _ _ L1) Hn Mi) as (p2&E4&L2&R2).
  { apply (all_encoded_kept local p1 start); [done|]. eapply all_encoded_lease; [exact L1| |done].
    intros i Hi. split; [by apply Mc|by intros []]. }
  assert (_linkg_transport_tx_finalize_results (jb_item <$> jobs) (jb_state <$> jobs) fr p1 =
    Some ((count_zero (packet_verdict fr <$> jobs), packet_verdict fr <$> jobs), p2)) as E4'.
  { unfold _linkg_transport_tx_finalize_results. rewrite zip_jobs. by mstep E4. }
  mstep (pool_step _ t3 p1 tr' _ p2 E4').
  mstep (transport_step _ t3 p2 tr' _ _
    (class_update_run t3 q _ (set_order_lock false) C3)).
  destruct (cleanup_spec mx Hmx mine p2 (jb_state <$> jobs) H0 Ht Hf (le_owned _ _ _ _ L2)) as (p3&E5&L3).
  mstep (pool_step _ (class_set q (set_order_lock false) t3) p2 tr' _ p3 E5).
  exists outs, fr. eexists _.
  eexists _, p3. split; [reflexivity|]. split; [done|]. split; [done|].
  assert (lease mine (fun i => exists g, g ∈ jobs /\ refused fr g = true /\ xi_packet (jb_item g) = Some i) p p3) as L4.
  { eapply lease_trans; [|eapply lease_weaken; [|exact L3]; by intros j []].
    refine (lease_sub mine mine' _ _ p p2 _ (fun j Hj _ => Hj) _).
    - intros j. split; [apply H0|apply with_refs_range].
    - eapply lease_trans; [|exact L2]. eapply lease_weaken; [|exact L1]. by intros j []. }
  splits; [exact (moved_chain q adv start st (count_zero fr =? 0) t t1 t2 t3 T1 M2 M3)|done| |done|].
  - cbn. by destruct (count_zero fr =? 0), start, adv.
  - intros g Hg Hr. destruct (R2 g Hg Hr) as (i&Ei&Hi). exists i. split; [done|].
    eapply has_lease; [exact L3| |by intros []|done]. apply Hm. eapply item_packets_in; [|exact Ei]. by apply list_elem_of_fmap_2.
Qed.

(** What the call leaves: an idle transport with the same local side. *)
Definition back (s s' : system) : Prop := idle (ts_transport s') /\ same_local (ts_transport s) (ts_transport s').

Lemma acquired_back q f s t t' ctx :
  acquired ctx s t q -> moved q f t t' -> (forall c, pc_tx_order_lock (f c) = false) -> idle t' /\ same_local s t'.
Proof.
  intros A M Hf. split; [by apply (aq_idle _ _ _ _ A f)|]. pose proof (aq_local _ _ _ _ A) as L. destruct M as [n ->]. exact L.
Qed.

Lemma jobs_lengths p jobs :
  Forall (ready p) jobs -> Forall (fun g => xs_original_data_length (jb_state g) = job_length g) jobs.
Proof. intros Hr. eapply Forall_impl; [exact Hr|]. by intros g (i&_&_&_&Hl&_). Qed.

Lemma send_chunk_acquired mine ctx targets jobs q t p1 tr s :
  let items := jb_item <$> jobs in
  let mine' := with_refs mine (tails (jb_state <$> jobs)) in
  (forall j, 0 <= mine j) -> NoDup (item_packets items) -> (forall i, i ∈ item_packets items -> 0 < mine i) ->
  NoDup (tails (jb_state <$> jobs)) -> (forall j, j ∈ tails (jb_state <$> jobs) -> mine j = 0) ->
  xc_targets ctx = Some targets -> _linkg_transport_wire_node_id_valid (local_id s) = true ->
  acquired ctx (ts_transport s) t q -> lease mine nothing (ts_pool s) p1 -> owned_by mine' p1 -> tr = ts_trace s ->
  Forall (ready p1) jobs -> Forall id_ok jobs -> Forall (holds (ts_pool s)) jobs -> offsets 0 jobs ->
  exists ret out s', (c ← transport (class_read q);
      let start := sequences_of c in
      encoded ← _linkg_transport_tx_encode_batch items (jb_state <$> jobs) q;
      let '(ret, frame_batch) := encoded in
      if negb (ret =? 0) then
        transport (rollback q start) ;;
        pool (_linkg_transport_tx_restore_packets items (jb_state <$> jobs)) ;;
        transport (unlock_class q) ;;
        pool (_linkg_transport_tx_cleanup_states mx (jb_state <$> jobs)) ;;
        mret (ret, [])
      else finish_chunk ctx items (jb_state <$> jobs) q start frame_batch) (TxSystem t p1 tr) = Some ((ret, out), s') /\
    back s s' /\ chunk_outcome mine ctx targets items s ret out s'.
Proof.
  intros items mine' H0 Hn Hm Ht Hf Etg Hloc A L1 O1 -> Rj Ij Dj Oj.
  destruct (aq_class _ _ _ _ A) as [c Hc]. destruct (chunk_packets_owned mine jobs H0 Hn Hm Ht Hf) as [Nc Mc]. fold mine' in Mc.
  mstep (transport_step (class_read q) t p1 (ts_trace s) c t (class_read_run t q c Hc)).
  assert (cx_local_node_id (tr_context t) = local_id s) as El by (by destruct (aq_local _ _ _ _ A) as [-> _]).
  destruct (encode_loop_spec t q c Hc mine' ltac:(by rewrite El) jobs p1 (sequences_of c) (ts_trace s) O1 Rj Ij Nc Mc)
    as (p2&E2&L2&He). rewrite El in He. unfold at_ in E2. rewrite (at_sequence_self t q c Hc) in E2.
  unfold _linkg_transport_tx_encode_batch, items. rewrite zip_jobs. mstep E2. cbn [Z.eqb negb].
  destruct (finish_chunk_spec mine ctx targets jobs q c t p2 (ts_trace s) (sequences_of c) (chunk_advance (sequences_of c) jobs)
    (local_id s) H0 Hn Hm Ht Hf Etg Hc (le_owned _ _ _ _ L2) He (jobs_lengths p1 jobs Rj))
    as (outs&fr&f&t'&p'&E3&Hl&Efr&M&Hlk&Hsq&L3&R3).
  rewrite E3. eexists _, _, _. split; [reflexivity|]. split; [by apply (acquired_back q f (ts_transport s) t t' ctx)|].
  assert (lease mine (fun i => i ∈ item_packets items) (ts_pool s) p') as L4.
  { eapply lease_trans; [eapply lease_weaken; [|exact L1]; by intros j []|].
    eapply lease_trans.
    - refine (lease_sub mine mine' (fun i => i ∈ chunk_packets jobs) _ p1 p2 _ _ L2).
      + intros j. split; [apply H0|apply with_refs_range].
      + intros j. rewrite chunk_packets_perm. intros [Hj|Hj]%elem_of_app Mj; [done|]. specialize (Hf j Hj). lia.
    - eapply lease_weaken; [|exact L3]. intros j (g&Hg&_&Ei). eapply item_packets_in; [|exact Ei]. by apply list_elem_of_fmap_2. }
  eapply (chunk_sent _ _ _ _ _ jobs (sequences_of c) outs (f c) fr); try done.
  - intros g Hg Hr i off fl bs Ei Hi. destruct (R3 g Hg Hr) as (i'&Ei'&Hi'). assert (i' = i) as -> by congruence.
    rewrite Forall_forall in Rj. destruct (Rj g Hg) as (i'&Ei''&_&Hrd&_). assert (i' = i) as -> by congruence.
    assert (0 < mine i) as Mi by (apply Hm; eapply item_packets_in; [|exact Ei]; by apply list_elem_of_fmap_2).
    pose proof (has_lease mine nothing _ p1 i off fl bs L1 Mi ltac:(by intros []) Hi) as Hi1.
    destruct Hi1 as (k&(_&_&K)&<-&<-&<-). destruct Hrd as (k2&(_&_&K2)&E1'&E2'&E3'). assert (k2 = k) as -> by congruence.
    by rewrite E1', E2', E3'.
  - by apply (peer_class_moved q f (ts_transport s) t).
Qed.

(** Sending a chunk, in full. *)
Lemma send_chunk_full mine ctx targets items s :
  idle (ts_transport s) -> _linkg_transport_wire_node_id_valid (local_id s) = true ->
  linkg_transport_class_valid (xc_traffic_class ctx) = true -> xc_targets ctx = Some targets ->
  owned_by mine (ts_pool s) -> Forall (sendable (ts_pool s)) items -> (forall i, i ∈ item_packets items -> 0 < mine i) ->
  NoDup (item_packets items) -> items <> [] -> Z.of_nat (length items) <= LINKG_TRANSPORT_TX_BATCH_MAX ->
  (forall j, 0 <= mine j) ->
  exists ret out s', _linkg_transport_tx_send_chunk env mx elapsed_ms ctx items s = Some ((ret, out), s') /\ back s s' /\
    chunk_outcome mine ctx targets items s ret out s'.
Proof.
  intros I Hloc Hcl Etg O Hs Hm Hn Hne Hle H0. unfold LINKG_TRANSPORT_TX_BATCH_MAX in *.
  assert (0 < Z.of_nat (length items)) by (destruct items; cbn; [done|lia]).
  unfold _linkg_transport_tx_send_chunk. change LINKG_TRANSPORT_TX_BATCH_MAX with 32. cbv zeta. bsimp.
  destruct s as [t p tr]. cbn [ts_transport ts_pool ts_trace] in *.
  destruct (prepare_loop_spec mx Hmx mine p items 0 H0 O Hs Hm ltac:(lia) ltac:(lia)) as (ret&states&p1&E1&P).
  mstep (pool_step (_linkg_transport_tx_prepare_states mx items) t p tr (ret, states) p1 E1).
  destruct (cleanup_spec mx Hmx mine p1 states H0 (pp_nodup _ _ _ _ _ _ _ P) (pp_fresh _ _ _ _ _ _ _ P) (pp_owned _ _ _ _ _ _ _ P))
    as (p2&E2&L2).
  pose proof (pp_lease _ _ _ _ _ _ _ P) as L1. pose proof (lease_trans _ _ _ _ _ L1 L2) as L12.
  destruct (pp_ret _ _ _ _ _ _ _ P) as [Hneg|(->&jobs&<-&Est&Rj&Dj&Oj)].
  { rewrite (proj2 (Z.eqb_neq ret 0)) by lia. cbn [negb]. mstep (pool_step _ t p1 tr tt p2 E2).
    eexists _, _, _. split; [reflexivity|]. split; [by split|]. by apply chunk_failed. }
  cbn [Z.eqb negb]. subst states.
  destruct (wp_elim _ _ _ (acquire_spec env SE ctx _ _ t I Hcl (assign_ids_ok p1 jobs Rj))) as (r&t2&E3&Hr).
  mstep (transport_step (_linkg_transport_tx_acquire_state env ctx (jb_state <$> jobs)) t p1 tr r t2 E3).
  destruct r as [e|[q states]].
  { destruct Hr as (He&I2&Lc). mstep (pool_step _ t2 p1 tr tt p2 E2).
    eexists _, _, _. split; [reflexivity|]. split; [by split|]. by apply chunk_failed. }
  destruct Hr as (A&jobs'&<-&F2&Ij). destruct (renumbered_same jobs jobs' F2) as (Eit&Etl&Ho).
  rewrite <- Eit. rewrite <- Eit in Hn, Hm. pose proof (pp_nodup _ _ _ _ _ _ _ P) as Pn. pose proof (pp_fresh _ _ _ _ _ _ _ P) as Pf.
  pose proof (pp_owned _ _ _ _ _ _ _ P) as Po. rewrite <- Etl in Pn, Pf, Po.
  apply (send_chunk_acquired mine ctx targets jobs' q t2 p1 tr (TxSystem t p tr)); try done.
  - eapply renumbered_Forall; [|exact F2|exact Rj]. by intros g g'; apply ready_renumbered.
  - eapply renumbered_Forall; [|exact F2|exact Dj]. by intros g g'; apply holds_renumbered.
  - by apply Ho.
Qed.

(** ** Validation and the whole batch *)

Lemma node_id_valid_eq v : _linkg_transport_tx_node_id_valid v = _linkg_transport_wire_node_id_valid v.
Proof. done. Qed.

(** A single-packet check succeeds exactly when the packet can be sent. *)
Lemma tx_packet_spec p i k :
  live p i k ->
  exists ret, _linkg_transport_tx_validate_packet (Some i) p = Some (ret, p) /\ ret <= 0 /\
    (ret = 0 <-> 1 <= pk_data_length k <= LINKG_TRANSPORT_PACKET_MAX_SIZE /\
      (if LINKG_TRANSPORT_PAYLOAD_MAX_SIZE <? pk_data_length k
       then LINKG_TRANSPORT_WIRE_HEADER_MAX_SIZE else LINKG_TRANSPORT_WIRE_HEADER_SIZE) <= pk_data_offset k).
Proof.
  intros L. pose proof L as (W&_&K). destruct (live_wf p i k W K) as (Wk&(?&?&?&?)&_).
  unfold _linkg_transport_tx_validate_packet. mstep (packet_at_eq p i k K). rewrite (kwf_pool _ _ _ Wk), (kwf_slot _ _ _ Wk).
  cbn [bool_decide orb]. rewrite !bool_decide_false by done. cbn [orb].
  destruct (pk_data_length k =? 0) eqn:E0; [zb; eexists; split; [done|]; unfold EINVAL; split; [lia|split; [lia|intros [[] ?]; lia]]|].
  destruct (LINKG_TRANSPORT_PACKET_MAX_SIZE <? pk_data_length k) eqn:E1; [zb; eexists; split; [done|]; unfold EMSGSIZE; split; [lia|split; [lia|intros [[] ?]; lia]]|].
  mstep (live_headroom p i k L). zb.
  set (need := if LINKG_TRANSPORT_PAYLOAD_MAX_SIZE <? pk_data_length k then _ else _). eexists. split; [done|].
  destruct (pk_data_offset k <? need) eqn:E2; zb; unfold ENOSPC; (split; [lia|split; [lia|intros [[] ?]; lia]]).
Qed.

Lemma validate_items_spec mine p items :
  owned_by mine p -> (forall i, i ∈ item_packets items -> 0 < mine i) ->
  exists ret, validate_items items p = Some (ret, p) /\ ret <= 0 /\ (ret = 0 <-> Forall (sendable p) items).
Proof.
  intros O. induction items as [|it items IH]; intros Hm; [by exists 0|]. cbn [validate_items].
  assert (forall e, e < 0 -> ~ sendable p it -> exists ret, (mret e : PM Z) p = Some (ret, p) /\ ret <= 0 /\
    (ret = 0 <-> Forall (sendable p) (it :: items))) as Hout.
  { intros e He Hn. exists e. split; [done|]. split; [lia|]. rewrite Forall_cons. split; [lia|tauto]. }
  destruct (linkg_transport_type_valid (xi_type it)) eqn:Et; cbn [negb]; [|apply Hout; [done|by intros ((?&_)&_); congruence]].
  rewrite node_id_valid_eq. destruct (_linkg_transport_wire_node_id_valid _) eqn:Ed; cbn [negb];
    [|apply Hout; [done|by intros ((_&?)&_); congruence]].
  destruct (xi_packet it) as [i|] eqn:Ei.
  2: { cbn. apply Hout; [done|]. intros (_&i&_&_&_&E&_). congruence. }
  destruct (owned_live mine p i O) as [k L]; [apply Hm; by eapply item_packets_in; [left|]|].
  destruct (tx_packet_spec p i k L) as (ret&E&Hle&Hr). unfold mbind, M_bind. rewrite E.
  assert (ret = 0 <-> sendable p it) as Hs.
  { rewrite Hr. destruct L as (W&R&K). split.
    - intros [H1 H2]. split; [by split|]. exists i, (pk_data_offset k), (pk_flags k), (payload p i). split; [done|].
      assert (has p i (pk_data_offset k) (pk_flags k) (payload p i)) as Hh by (by exists k).
      rewrite <- (has_length _ _ _ _ _ k Hh K). done.
    - intros (_&i'&off&f&bs&Ei'&Hh&H1&H2). assert (i' = i) as -> by congruence.
      rewrite <- (has_length _ _ _ _ _ k Hh K) in H1, H2. destruct Hh as (k'&(_&_&K')&<-&_). assert (k' = k) as -> by congruence. done. }
  destruct (Z.eqb_spec ret 0) as [->|Hne]; cbn [negb]; [|apply Hout; [lia|tauto]].
  destruct IH as (ret'&E'&Hle'&Hr'); [intros j Hj; apply Hm; unfold item_packets; cbn; rewrite Ei; by right|].
  exists ret'. split; [done|]. split; [done|]. rewrite Hr', Forall_cons. tauto.
Qed.

(** The results array of a batch: its length, and the count that is returned. *)
Lemma count_zero_app a b : count_zero (a ++ b) = count_zero a + count_zero b.
Proof. apply sumZ_app. Qed.
Lemma count_zero_neg n e : e < 0 -> count_zero (replicate n e) = 0.
Proof. intros He. unfold count_zero. rewrite sumZ_replicate. bsimp. lia. Qed.
Lemma count_zero_nonneg l : 0 <= count_zero l.
Proof. apply sumZ_nonneg. intros x _. destruct (x =? 0); lia. Qed.

(** A submission of a chunk of the items: the frames of the packets' bytes. *)
Definition carries (local : Z) (p : linkg_packet_pool) (items : list linkg_transport_tx_item) (sb : submission) : Prop :=
  exists jobs start, jb_item <$> jobs ⊆ items /\ Forall (holds p) jobs /\ Forall id_ok jobs /\ jobs <> [] /\
    sb_frames sb = chunk_frames local start jobs.

(** What a batch may do to the world. *)
Record batch_effect (mine : nat -> Z) (items : list linkg_transport_tx_item) (s s' : system) : Prop := {
  be_back : back s s';
  be_lease : lease mine (fun i => i ∈ item_packets items) (ts_pool s) (ts_pool s');
  be_trace : exists new, ts_trace s' = ts_trace s ++ new /\ Forall (carries (local_id s) (ts_pool s) items) new }.

Lemma holds_back mine T p p' g :
  lease mine T p p' -> (forall i, xi_packet (jb_item g) = Some i -> 0 < mine i /\ ~ T i) -> holds p' g -> holds p g.
Proof. intros L Hm (i&Ei&E). exists i. split; [done|]. rewrite E. destruct (Hm i Ei). by eapply le_payload. Qed.

Lemma chunk_effect mine ctx targets items s ret out s' :
  back s s' -> items <> [] -> chunk_outcome mine ctx targets items s ret out s' ->
  batch_effect mine items s s' /\ ((ret < 0 /\ out = []) \/ (ret = count_zero out /\ length out = length items)).
Proof.
  intros B Hne O. destruct O as [ret s' Hneg Etr L|jobs start outs c fr s' Eit Dj Ij Oj Hl Efr Etr L Hres Hp Hsq].
  - split; [|by left]. split; [done| |exists []; by rewrite app_nil_r]. eapply lease_weaken; [|exact L]. by intros j [].
  - split; [|right; split; [done|by rewrite length_fmap, <- Eit, length_fmap]]. split; [done|done|]. eexists. split; [exact Etr|].
    apply Forall_forall. intros sb Hsb. unfold submissions in Hsb. apply list_elem_of_lookup in Hsb as [n Hsb].
    apply lookup_zip_with_Some in Hsb as (tg&o&->&_). exists jobs, start. splits; try done; [by rewrite Eit|].
    intros ->. by rewrite <- Eit in Hne.
Qed.

Lemma carries_weaken local mine T p p' items items' sb :
  lease mine T p p' -> (forall i, i ∈ item_packets items -> 0 < mine i /\ ~ T i) -> items ⊆ items' ->
  carries local p' items sb -> carries local p items' sb.
Proof.
  intros L Hm Hs (jobs&start&Hj&Dj&Ij&Hne&E). exists jobs, start. split; [set_solver|]. split; [|done].
  rewrite Forall_forall in Dj |- *. intros g Hg. eapply holds_back; [exact L| |by apply Dj]. intros i Ei. apply Hm.
  eapply item_packets_in; [|exact Ei]. apply Hj. by apply list_elem_of_fmap_2.
Qed.

Lemma batch_effect_trans mine a b s s1 s2 :
  NoDup (item_packets (a ++ b)) -> (forall i, i ∈ item_packets (a ++ b) -> 0 < mine i) ->
  batch_effect mine a s s1 -> batch_effect mine b s1 s2 -> batch_effect mine (a ++ b) s s2.
Proof.
  unfold item_packets. rewrite omap_app. intros (_&Hd&_)%NoDup_app Hm [[I1 Lc1] L1 (n1&E1&F1)] [[I2 Lc2] L2 (n2&E2&F2)].
  assert (local_id s1 = local_id s) as El by apply Lc1. split.
  - split; [done|by eapply same_local_trans].
  - eapply lease_trans; (eapply lease_weaken; [|done]); intros i Hi; unfold item_packets; rewrite omap_app; apply elem_of_app; auto.
  - exists (n1 ++ n2). rewrite E2, E1, app_assoc. split; [done|]. apply Forall_app. split; (eapply Forall_impl; [eassumption|]); cbn.
    + intros sb (jobs&start&Hj&R). exists jobs, start. split; [set_solver|done].
    + intros sb Hsb. rewrite El in Hsb. eapply (carries_weaken _ mine _ _ _ b); [exact L1| |set_solver|exact Hsb].
      intros i Hi. split; [apply Hm, elem_of_app; by right|]. intros Hi'. by apply (Hd i).
Qed.

(** What the loop over the chunks needs of the items. *)
Record sending (mine : nat -> Z) (items : list linkg_transport_tx_item) (s : system) : Prop := {
  sg_idle : idle (ts_transport s);
  sg_local : _linkg_transport_wire_node_id_valid (local_id s) = true;
  sg_owned : owned_by mine (ts_pool s);
  sg_items : Forall (sendable (ts_pool s)) items;
  sg_mine : forall i, i ∈ item_packets items -> 0 < mine i;
  sg_nodup : NoDup (item_packets items) }.

Lemma sending_take mine a b s : sending mine (a ++ b) s -> sending mine a s.
Proof.
  intros [I Hl O Hs Hm Hn]. unfold item_packets in *. rewrite omap_app in *. apply Forall_app in Hs as [? _].
  apply NoDup_app in Hn as (?&_&_). split; try done. intros i Hi. apply Hm, elem_of_app. by left.
Qed.

Lemma sending_drop mine a b s s' : sending mine (a ++ b) s -> batch_effect mine a s s' -> sending mine b s'.
Proof.
  intros [I Hl O Hs Hm Hn] [[I' Lc] L _]. unfold item_packets in *. rewrite omap_app in *. apply Forall_app in Hs as [_ Hs].
  apply NoDup_app in Hn as (_&Hd&Hn). split; try done.
  - by destruct Lc as [-> _].
  - apply (le_owned _ _ _ _ L).
  - rewrite Forall_forall in Hs |- *. intros it Hit. destruct (Hs it Hit) as (Hok&i&off&f&bs&Ei&Hi&R). split; [done|].
    assert (i ∈ omap xi_packet b) as Hin by (by eapply (item_packets_in b)).
    exists i, off, f, bs. split; [done|]. split; [|done]. eapply has_lease; [exact L|apply Hm, elem_of_app; by right| |done].
    intros H1. by apply (Hd i).
  - intros i Hi. apply Hm, elem_of_app. by right.
Qed.

Lemma send_loop_spec mine ctx targets fuel items s :
  (forall j, 0 <= mine j) -> linkg_transport_class_valid (xc_traffic_class ctx) = true -> xc_targets ctx = Some targets ->
  sending mine items s -> (length items <= fuel)%nat ->
  exists n fe pr out s', send_loop env mx elapsed_ms fuel ctx items s = Some ((n, fe, pr, out), s') /\
    batch_effect mine items s s' /\ length out = length items /\ n = count_zero out /\
    (pr = false -> n = 0 /\ (items <> [] -> fe < 0)).
Proof.
  intros H0 Hcl Etg. revert items s. induction fuel as [|fuel IH]; intros items s S Hf.
  all: destruct items as [|it items]; [|try (cbn in Hf; lia)].
  1,2: exists 0, 0, false, [], s; split; [done|]; split; [|done]; split;
    [by split; [apply S|]|apply lease_refl, S|exists []; by rewrite app_nil_r].
  cbn [send_loop]. change (Z.to_nat LINKG_TRANSPORT_TX_BATCH_MAX) with 32%nat. set (all := it :: items) in *.
  set (a := take 32 all). set (b := drop 32 all). assert (a ++ b = all) as Eab by apply take_drop.
  assert (a <> []) as Ha by done. assert (length a <= 32)%nat as La by (unfold a; rewrite length_take; lia).
  pose proof S as S0. rewrite <- Eab in S. pose proof (sending_take _ _ _ _ S) as Sa.
  destruct (send_chunk_full mine ctx targets a s (sg_idle _ _ _ Sa) (sg_local _ _ _ Sa) Hcl Etg (sg_owned _ _ _ Sa) (sg_items _ _ _ Sa)
    (sg_mine _ _ _ Sa) (sg_nodup _ _ _ Sa) Ha ltac:(unfold LINKG_TRANSPORT_TX_BATCH_MAX; lia) H0) as (ret&out&s1&E1&B1&O1).
  destruct (chunk_effect mine ctx targets a s ret out s1 B1 Ha O1) as [F1 Hro].
  destruct (IH b s1) as (n&fe&pr&rest&s2&E2&F2&Hl2&En&Hpr).
  { by eapply sending_drop. }
  { unfold b. rewrite length_drop. cbn in Hf |- *. lia. }
  mstep E1. mstep E2.
  assert (batch_effect mine all s s2) as F12.
  { rewrite <- Eab. eapply batch_effect_trans; [| |exact F1|exact F2]; rewrite Eab; apply S0. }
  assert (length a + length b = length all)%nat as Lab by (rewrite <- length_app; by rewrite Eab).
  destruct Hro as [[Hneg ->]|[-> Hlo]].
  - bsimp. eexists _, _, _, _, s2. split; [reflexivity|]. split; [done|].
    rewrite length_app, length_replicate, count_zero_app, (count_zero_neg _ ret Hneg). splits; [lia|lia|].
    intros Hp. destruct (Hpr Hp). split; [done|by intros _].
  - pose proof (count_zero_nonneg out). bsimp. eexists _, _, _, _, s2. split; [reflexivity|]. split; [done|].
    rewrite length_app, count_zero_app. splits; [lia|lia|done].
Qed.

Lemma validate_context_spec ctx :
  _linkg_transport_tx_validate_context (Some ctx) = 0 ->
  exists targets, xc_targets ctx = Some targets /\ targets <> [] /\ (length targets <= 2)%nat /\
    linkg_transport_class_valid (xc_traffic_class ctx) = true.
Proof.
  unfold _linkg_transport_tx_validate_context. destruct (xc_targets ctx) as [targets|]; [|done].
  destruct (_ || _)%bool eqn:E1; [done|]. destruct (linkg_transport_class_valid _) eqn:E2; [|done]. cbn [negb].
  destruct (negb _); [done|]. destruct (existsb _ _); [done|]. intros _. zb.
  match goal with H : bool_decide _ = false |- _ => apply bool_decide_eq_false in H end.
  unfold LINKG_TRANSPORT_TX_TARGET_MAX in *. exists targets. splits; [done|done|lia|done].
Qed.

Lemma validate_context_neg ctx :
  _linkg_transport_tx_validate_context ctx <> 0 -> _linkg_transport_tx_validate_context ctx < 0.
Proof. unfold _linkg_transport_tx_validate_context, EINVAL. repeat case_match; lia. Qed.

(** The state a caller of [linkg_transport_send_batch] may be in. *)
Record caller (mine : nat -> Z) (items : list linkg_transport_tx_item) (s : system) : Prop := {
  cl_idle : idle (ts_transport s);
  cl_local : _linkg_transport_wire_node_id_valid (local_id s) = true;
  cl_owned : owned_by mine (ts_pool s);
  cl_refs : forall j, 0 <= mine j;
  cl_mine : forall i, i ∈ item_packets items -> 0 < mine i;
  cl_nodup : NoDup (item_packets items) }.

(** C6: sending a chunk of packets that passed the checks always returns, whatever
    the links answer and whatever lock call or allocation fails. Either it fails
    before a byte reached a link, and then no packet changed; or every target was
    handed the same frames, namely the frames of the packets' bytes with the
    class's next sequence numbers, the verdict of each packet is that of its
    frames, the sequence numbers are consumed unless every frame was refused by
    every target, and a packet whose first frame was refused has its old layout.
    All references it took are given back and the order lock is released. *)
Theorem send_chunk_spec mine ctx targets items s :
  caller mine items s -> linkg_transport_class_valid (xc_traffic_class ctx) = true -> xc_targets ctx = Some targets ->
  Forall (sendable (ts_pool s)) items -> items <> [] -> Z.of_nat (length items) <= LINKG_TRANSPORT_TX_BATCH_MAX ->
  exists ret out s', _linkg_transport_tx_send_chunk env mx elapsed_ms ctx items s = Some ((ret, out), s') /\ back s s' /\
    chunk_outcome mine ctx targets items s ret out s'.
Proof. intros [] Hcl Etg Hs Hne Hle. by apply send_chunk_full. Qed.

End Send.
