(* ===== verification/TransportTxLife.v ===== *)
(** * Sending through the transport: the links of the repository and instances

    The links of [Link] discharge the interface the sender's properties are
    proved against; and concrete runs of the sender. *)

From S2P Require Import Prelude.
From S2P Require Import PacketStore.
From S2P Require Import PacketPool.
From S2P Require Import PacketData.
From S2P Require Import PacketLease.
From S2P Require Import TransportTypes.
From S2P Require Import TransportWire.
From S2P Require Import TransportWindow.
From S2P Require Import TransportPeer.
From S2P Require Import TransportPeerSafety.
From S2P Require Import TransportPeerLife.
From S2P Require Import LinkPath.
From S2P Require Import Link.
From S2P Require Import LinkSubmit.
From S2P Require Import TransportTx.
From S2P Require Import TransportTxEncode.
From S2P Require Import TransportTxSafety.

(** ** Links *)

(** The links and paths as a submission finds them when it first reads them and
    under the io lock, and what the concrete link does. *)
Record link_world := LinkWorld {
  lw_link : nat -> Z -> option linkg_link;
  lw_link' : nat -> Z -> option linkg_link;
  lw_path : nat -> Z -> option linkg_path;
  lw_path' : nat -> Z -> option linkg_path;
  lw_endpoint : list Z -> linkg_path_endpoint;
  lw_send : nat -> Z -> list pkt_ptr -> PM (Z * list Z) }.

(** [linkg_link_submit_batch] as the transport calls it. *)
Definition link_submit (w : link_world) (n : nat) (t : linkg_transport_tx_target) (tx_class : Z)
    (packets : list pkt_ptr) (results : list Z) : PM (Z * list Z) :=
  let link := default 0 (tg_link t) in
  let path := default 0 (tg_path t) in
  r ← linkg_link_submit_batch (lw_send w n link) (lw_link w n link) (lw_link' w n link) (lw_path w n path) (lw_path' w n path)
        tx_class (Some (lw_endpoint w (tg_destination t))) (Some (Some <$> packets)) (Some results);
  mret (fst r, default [] (snd r)).

Definition link_transport (w : link_world) : TransportLink := {| tl_submit := link_submit w |}.

Record link_world_ok (w : link_world) : Prop := {
  lwo_send n i : borrows (lw_send w n i);
  lwo_batch n i : batch_size_ok (lw_link w n i) }.

(** The links keep the promise the sender relies on. *)
Lemma link_transport_laws w : link_world_ok w -> @TransportLinkLaws (link_transport w).
Proof.
  intros [Hs Hb]. constructor. intros n t tx_class mine p packets O Hm. cbn [tl_submit link_transport]. unfold link_submit.
  destruct (link_batch_spec (lw_send w n (default 0 (tg_link t))) mine p (lw_link w n (default 0 (tg_link t)))
    (lw_link' w n (default 0 (tg_link t))) (lw_path w n (default 0 (tg_path t))) (lw_path' w n (default 0 (tg_path t))) tx_class
    (Some (lw_endpoint w (tg_destination t))) packets (replicate (length packets) (- EINPROGRESS)))
    as (ret&out&p'&E&L&Hl&_); try done.
  { by rewrite length_replicate. }
  exists ret, out, p'. split; [by mstep E|done].
Qed.

(** ** A concrete sender: a registered peer and one allocated packet *)

Definition demo_registered : transport_state unit :=
  final demo_transport (linkg_transport_register_peer demo_transport_env 5 demo_transport).

Lemma demo_registered_idle : idle demo_registered.
Proof.
  destruct (wp_elim _ _ _ (register_reached demo_transport_env 0 (fun _ _ _ => True) (trivial_effect demo_transport_env)
    demo_rely (fun _ => eq_refl) 5 demo_transport (proj1 demo_transport_wf) (proj2 demo_transport_wf))) as (r&s&E&R).
  assert (demo_registered = s) as -> by (unfold demo_registered; by rewrite E).
  split; [apply R|apply R|]. assert (s = demo_registered) as -> by (unfold demo_registered; by rewrite E). by vm_compute.
Qed.

Lemma demo_sender_env : sender_env demo_transport_env.
Proof. by split; try apply demo_rely. Qed.

Definition demo_world : link_world :=
  LinkWorld (fun _ _ => Some demo_link) (fun _ _ => Some demo_link) (fun _ _ => Some demo_path) (fun _ _ => Some demo_path)
    (fun _ => endpoint_zero) (fun _ _ => demo_send).

Lemma demo_world_ok : link_world_ok demo_world.
Proof. split; [intros n i; apply demo_send_borrows|]. intros n i lk rt [= <-] [= <-]. right. cbn. lia. Qed.

#[export] Instance demo_tx_link : TransportLink := link_transport demo_world.
#[export] Instance demo_tx_link_laws : TransportLinkLaws := link_transport_laws demo_world demo_world_ok.

Definition demo_targets : list linkg_transport_tx_target := [TxTarget (Some 1) (Some 1) []; TxTarget (Some 2) (Some 2) []].
Definition demo_context : linkg_transport_tx_context := TxContext (Some demo_targets) LINKG_TRANSPORT_CLASS_VIDEO 5.
Definition demo_item : linkg_transport_tx_item := TxItem (Some 1%nat) LINKG_TRANSPORT_TYPE_USER_DATA 9.

Definition demo_system (len : Z) : tx_system unit := TxSystem demo_registered (frame_pool len) [].

Lemma demo_hold_owned : owned_by demo_hold (frame_pool 1500).
Proof.
  pose proof (frame_pool_live 1500 ltac:(lia)) as (W&R&K). split; [exact W|]. intros j. unfold demo_hold. case_decide as Hj; [subst; lia|].
  split; [lia|]. apply refs_nonneg. exact W.
Qed.

Lemma demo_hold_nonneg j : 0 <= demo_hold j.
Proof. unfold demo_hold. case_decide; lia. Qed.

Lemma demo_holds_items i : i ∈ item_packets [demo_item] -> 0 < demo_hold i.
Proof. by intros ->%list_elem_of_singleton. Qed.

Lemma demo_caller : caller demo_hold [demo_item] (demo_system 1500).
Proof.
  split.
  - apply demo_registered_idle.
  - by vm_compute.
  - exact demo_hold_owned.
  - exact demo_hold_nonneg.
  - exact demo_holds_items.
  - apply NoDup_singleton.
Qed.

Lemma demo_sendable : Forall (sendable (frame_pool 1500)) [demo_item].
Proof.
  apply Forall_singleton. pose proof (frame_pool_live 1500 ltac:(lia)) as L. split; [by split|].
  exists 1%nat, 64, 0, (payload (frame_pool 1500) 1). split; [done|]. split; [by exists (frame_packet 1500)|].
  destruct (live_bounds _ _ _ L) as (_&_&_&->). by vm_compute.
Qed.

Lemma send_chunk_spec_witness :
  exists ret out s', _linkg_transport_tx_send_chunk demo_transport_env mutex_default (fun _ => 77) demo_context [demo_item]
      (demo_system 1500) = Some ((ret, out), s') /\ back (demo_system 1500) s' /\
    chunk_outcome demo_hold demo_context demo_targets [demo_item] (demo_system 1500) ret out s'.
Proof.
  apply (send_chunk_spec demo_transport_env demo_sender_env mutex_default mutex_default_ok (fun _ => 77) demo_hold demo_context
    demo_targets [demo_item] (demo_system 1500) demo_caller); [reflexivity|reflexivity|exact demo_sendable|done|vm_compute; congruence].
Defined.


(** The user counter of the class is about to go round: the two frames of a packet of
    1500 bytes get the numbers 0 and 1. *)
Definition demo_numbers : linkg_transport_tx_sequence_state := TxSequence 4294967295 9.
Definition demo_numbered : transport_state unit := at_sequence (0, 1)%nat demo_numbers demo_registered.

(** A prepared packet of 1500 bytes, with packet id 77. *)
Lemma demo_ready : exists mine g p, jb_item g = demo_item /\ job_length g = 1500 /\ ready p g /\ id_ok g /\
  NoDup (chunk_packets [g]) /\ (forall i, i ∈ chunk_packets [g] -> 0 < mine i) /\ owned_by mine p.
Proof.
  pose proof (frame_pool_live 1500 ltac:(lia)) as L. pose proof demo_hold_nonneg as H0.
  destruct (prepare_loop_spec mutex_default mutex_default_ok demo_hold (frame_pool 1500) [demo_item] 0 H0 demo_hold_owned demo_sendable
    demo_holds_items ltac:(lia) ltac:(cbn; lia))
    as (ret&states&p&E&P).
  assert (ret = 0) as ->.
  { assert (fst <$> (fst <$> prepare_loop mutex_default [demo_item] 0 (frame_pool 1500)) = Some 0) as E0 by (vm_compute; reflexivity).
    rewrite E in E0. by injection E0. }
  clear E. destruct (pp_ret _ _ _ _ _ _ _ P) as [?|(_&jobs&Ei&Es&Hr&Hh&_)]; [lia|].
  destruct jobs as [|g [|]]; [discriminate Ei| |discriminate Ei]. change ([jb_item g] = [demo_item]) in Ei. change ([jb_state g] = states) in Es.
  injection Ei as Ei. subst states. apply Forall_inv in Hr, Hh.
  set (g' := Job (jb_item g) (state_set_id 77 (jb_state g)) (jb_bytes g)).
  exists (with_refs demo_hold (option_list (xs_tail_packet (jb_state g)))), g', p. split; [exact Ei|]. split.
  { destruct Hh as (i&Ei'&Eb). rewrite Ei in Ei'. injection Ei' as <-. unfold job_length, g'. cbn [jb_bytes]. rewrite Eb.
    by destruct (live_bounds _ _ _ L) as (_&_&_&->). }
  split; [exact (ready_renumbered p g g' (ex_intro _ 77 eq_refl) Hr)|]. split; [intros _; cbn; lia|].
  pose proof (pp_owned _ _ _ _ _ _ _ P) as Ho. pose proof (pp_fresh _ _ _ _ _ _ _ P) as Hf. clear P.
  assert (chunk_packets [g'] = 1%nat :: option_list (xs_tail_packet (jb_state g))) as ->.
  { unfold chunk_packets. cbn [fmap list_fmap concat]. rewrite app_nil_r. unfold job_packets, g'. cbn [jb_item jb_state]. rewrite Ei. done. }
  assert (tails [jb_state g] = option_list (xs_tail_packet (jb_state g))) as Et by (cbn; by destruct (xs_tail_packet (jb_state g))).
  rewrite Et in Ho, Hf. assert (demo_hold 1%nat = 1) as H1 by done.
  assert (1%nat ∉ option_list (xs_tail_packet (jb_state g))) as Hn by (intros Hin; specialize (Hf _ Hin); lia).
  split; [|split; [|exact Ho]].
  - apply NoDup_cons. split; [exact Hn|]. destruct (xs_tail_packet (jb_state g)); [apply NoDup_singleton|constructor].
  - intros i [->|Hij]%elem_of_cons; [rewrite with_refs_other by exact Hn; lia|].
    eapply Z.lt_le_trans; [|apply (with_refs_in demo_hold _ i Hij)]. specialize (H0 i). lia.
Qed.

Lemma sent_packet_decodes_witness :
  exists g p p', jb_item g = demo_item /\ job_length g = 1500 /\
    _linkg_transport_tx_encode_batch [demo_item] [jb_state g] (0, 1)%nat (TxSystem demo_numbered p []) =
      Some ((0, chunk_rows [g]), TxSystem (at_sequence (0, 1)%nat (TxSequence 1 9) demo_numbered) p' []) /\
    arrives 1 p' demo_numbers g.
Proof.
  destruct demo_ready as (mine&g&p&Ei&Hlen&Hr&Hid&Hn&Hm&Ho).
  assert (exists c, class_at demo_registered (0, 1)%nat = Some c) as [c Hc] by (vm_compute; eexists; reflexivity).
  destruct (sent_packet_decodes demo_numbered (0, 1)%nat (set_sequences demo_numbers c) mine p [] [g]) as (p'&E'&_&Ha&_).
  - exact (class_at_set demo_registered (0, 1)%nat (set_sequences demo_numbers) c Hc).
  - vm_compute. reflexivity.
  - exact Ho.
  - by apply Forall_singleton.
  - by apply Forall_singleton.
  - exact Hn.
  - exact Hm.
  - exists g, p, p'. split; [exact Ei|]. split; [exact Hlen|]. split.
    + replace (TxSequence 1 9) with (counted_all (sequences_of (set_sequences demo_numbers c)) [g]); [rewrite <- Ei; exact E'|].
      unfold counted_all, frames_needed. cbn [foldl]. rewrite Hlen, Ei. reflexivity.
    + replace 1 with (cx_local_node_id (tr_context demo_numbered)) at 1; [exact Ha|vm_compute; reflexivity].
Defined.
