(* ===== verification/TransportTxForward.v ===== *)
(** * Relaying encoded frames

    [linkg_transport_forward_batch]: the frames leave with this hop's sequence
    numbers and are otherwise the frames that came in. *)

From S2P Require Import Prelude.
From S2P Require Import PacketStore.
From S2P Require Import PacketPool.
From S2P Require Import PacketData.
From S2P Require Import PacketLease.
From S2P Require Import Bytes.
From S2P Require Import TransportTypes.
From S2P Require Import TransportWire.
From S2P Require Import TransportWindow.
From S2P Require Import TransportPeer.
From S2P Require Import TransportPeerSafety.
From S2P Require Import TransportPeerLife.
From S2P Require Import TransportTx.
From S2P Require Import TransportTxEncode.
From S2P Require Import TransportTxSafety.
From S2P Require Import LinkSubmit.
From S2P Require Import TransportTxLife.

(** ** The frames of this hop *)

Definition with_sequence (n : Z) (frame : list Z) : list Z := wire_set_sequence n (take 16 frame) ++ drop 16 frame.

Fixpoint hop_frames (s : linkg_transport_tx_sequence_state) (rows : list (Z * list Z)) : list (list Z) :=
  match rows with
  | [] => []
  | (type, frame) :: rows' => with_sequence (current type (advance type s)) frame :: hop_frames (advance type s) rows'
  end.

Definition hop_advance (s : linkg_transport_tx_sequence_state) (types : list Z) : linkg_transport_tx_sequence_state :=
  foldl (fun s type => advance type s) s types.

(** The receiver reads the same header with the new sequence number, and the same body. *)
Lemma with_sequence_decodes n frame h :
  decode_bytes frame = (0, Some h) -> 0 <= n < 2 ^ 32 ->
  decode_bytes (with_sequence n frame) = (0, Some (set_sequence n h)) /\ drop 16 (with_sequence n frame) = drop 16 frame.
Proof.
  unfold decode_bytes, with_sequence, LINKG_TRANSPORT_WIRE_HEADER_SIZE. intros H Hn.
  destruct (_ || _)%bool eqn:E1; [done|]. pose proof E1 as [B1%Z.ltb_ge B2%Z.ltb_ge]%orb_false_iff.
  assert (length (take 16 frame) = 16%nat) as L16 by (rewrite length_take; lia).
  assert (length (wire_set_sequence n (take 16 frame)) = 16%nat) as Lw.
  { unfold wire_set_sequence. rewrite !length_app, length_be_bytes, length_take, length_drop, L16. lia. }
  assert (length (wire_set_sequence n (take 16 frame) ++ drop 16 frame) = length frame) as El
    by (rewrite length_app, Lw, length_drop; lia).
  destruct (header_accepted _) eqn:Ea; [cbn [negb] in H|done]. destruct (_ && _)%bool eqn:Ef; [done|]. injection H as <-.
  assert (forall a b : list Z, length a = 16%nat -> take 16 (a ++ b) = a /\ drop 16 (a ++ b) = b) as Htd.
  { intros a b <-. by rewrite take_app_length, drop_app_length. }
  rewrite El, E1. destruct (Htd _ (drop 16 frame) Lw) as [-> ->]. rewrite set_sequence_bytes by done.
  set (h := header_of_bytes (take 16 frame)) in *. change (header_accepted (set_sequence n h)) with (header_accepted h).
  change (th_flags (set_sequence n h)) with (th_flags h). by rewrite Ea, Ef.
Qed.

(** A relayed packet: live, with a payload the decoder accepts. *)
Definition frame_ready (p : linkg_packet_pool) (type : Z) (i : nat) : Prop :=
  exists k h, live p i k /\ decode_bytes (payload p i) = (0, Some h) /\ th_type h = type.

Definition forward_packets (items : list linkg_transport_forward_item) : list pkt_ptr := omap fi_packet items.

(** The checks give the types exactly when every frame is acceptable. *)
Lemma forward_types_spec mine p items :
  owned_by mine p -> (forall i, i ∈ forward_packets items -> 0 < mine i) ->
  exists ret types, forward_types items p = Some ((ret, types), p) /\ ret <= 0 /\
    (ret = 0 -> length types = length items /\ length (forward_packets items) = length items /\
       Forall2 (frame_ready p) types (forward_packets items)).
Proof.
  intros O. induction items as [|it items IH]; intros Hm; [by exists 0, []|]. cbn [forward_types].
  destruct (_ || _)%bool eqn:Eb; [by exists (- EINVAL), []|]. zb.
  destruct (fi_packet it) as [i|] eqn:Ei; [|by rewrite bool_decide_true in *].
  unfold forward_packets in *. cbn [omap list_omap] in *. rewrite Ei in *.
  destruct (owned_live mine p i O) as [k L]; [apply Hm; by left|].
  unfold mbind at 1, M_bind at 1. rewrite (decode_run p i k L).
  destruct (decode_bytes (payload p i)) as [r o] eqn:Ed. cbn [fst snd].
  destruct (Z.eqb_spec r 0) as [->|Hr]; cbn [negb].
  2: { exists r, []. split; [done|]. split; [|done]. revert Ed. unfold decode_bytes, EMSGSIZE, EPROTO. intros Ed. repeat case_match; simplify_eq; lia. }
  assert (exists h, o = Some h) as [h ->].
  { revert Ed. unfold decode_bytes. repeat case_match; intros [= <-]; try done. by eexists. }
  destruct IH as (ret&types&E&Hle&Ht); [intros j Hj; apply Hm; by right|]. cbn [of_option]. mrun. mstep E.
  exists ret, (th_type h :: types). split; [done|]. split; [done|]. intros ->. destruct (Ht eq_refl) as (L1&L2&F).
  cbn. split; [by rewrite L1|]. split; [by rewrite L2|]. constructor; [|done]. by exists k, h.
Qed.

Lemma Forall2_impl_r {A B} (P Q : A -> B -> Prop) l k :
  Forall2 P l k -> (forall x y, y ∈ k -> P x y -> Q x y) -> Forall2 Q l k.
Proof.
  induction 1 as [|x y l k Hxy F IH]; intros H; constructor; [apply H; [left|done]|].
  apply IH. intros x' y' Hy. apply H. by right.
Qed.

Lemma length_omap_le {A B} (f : A -> option B) l : (length (omap f l) <= length l)%nat.
Proof. induction l as [|x l IH]; [done|]. cbn. destruct (f x); cbn; lia. Qed.

Lemma frame_ready_lease mine T p p' type i :
  lease mine T p p' -> 0 < mine i -> ~ T i -> frame_ready p type i -> frame_ready p' type i.
Proof.
  intros L Hi HT (k&h&(_&_&K)&Hd&Ht). destruct (lease_live mine T p p' i k L Hi HT K) as (n&Lv&Ep).
  exists (set_refcount n k), h. by rewrite Ep.
Qed.

Section Update.
Context {C : Type} `{TP : TransportParts C}.
Context (t0 : transport_state C) (q : nat * nat) (c0 : linkg_transport_peer_class) (Hq : class_at t0 q = Some c0).
Context (mine : nat -> Z).

Lemma update_step p type i n :
  owned_by mine p -> frame_ready p type i ->
  exists p', linkg_transport_wire_update_sequence (Some i) n p = Some (0, p') /\ lease mine (eq i) p p' /\
    payload p' i = with_sequence n (payload p i).
Proof.
  intros O (k&h&L&Hd&_). destruct (live_bounds p i k L) as (_&_&_&El).
  assert (16 <= pk_data_length k <= LINKG_TRANSPORT_WIRE_FRAME_MAX_SIZE /\
    header_accepted (header_of_bytes (take 16 (payload p i))) = true) as [Hl Ha].
  { revert Hd. unfold decode_bytes, LINKG_TRANSPORT_WIRE_HEADER_SIZE. rewrite El. destruct (_ || _)%bool eqn:Eb; [done|]. zb.
    destruct (header_accepted _); [|done]. intros _. split; [lia|done]. }
  destruct (update_sequence_run p i k n L Hl Ha) as (p'&E&L'&Cg&P). exists p'. split; [done|]. split; [|done].
  apply local_lease; [done|apply L'|done].
Qed.

Lemma forward_update_spec items types p s tr :
  owned_by mine p -> Forall2 (frame_ready p) types (forward_packets items) -> length (forward_packets items) = length items ->
  NoDup (forward_packets items) -> (forall i, i ∈ forward_packets items -> 0 < mine i) ->
  exists p', forward_update (zip items types) q (at_ t0 q s p tr) = Some (0, at_ t0 q (hop_advance s types) p' tr) /\
    lease mine (fun i => i ∈ forward_packets items) p p' /\
    frame_bytes (forward_packets items) p' = hop_frames s (zip types (frame_bytes (forward_packets items) p)).
Proof.
  revert items p s. induction types as [|type types IH]; intros items p s O F Hl Hn Hm.
  { apply Forall2_nil_inv_l in F. rewrite F in *. destruct items; [|done]. exists p. split; [done|]. split; [by apply lease_refl|done]. }
  destruct items as [|it items]; [by inversion F|]. unfold forward_packets in *. cbn [omap list_omap] in *.
  destruct (fi_packet it) as [i|] eqn:Ei.
  2: { pose proof (Forall2_length _ _ _ F). cbn in *. exfalso. pose proof (length_omap_le fi_packet items). lia. }
  apply Forall2_cons in F as [Fi F]. apply NoDup_cons in Hn as [Hi Hn]. cbn [length] in Hl. injection Hl as Hl.
  cbn [zip zip_with forward_update]. mstep (sequence_run t0 q c0 Hq type s p tr).
  destruct (update_step p type i (current type (advance type s)) O Fi) as (p1&E1&L1&P1). rewrite <- Ei in E1.
  mstep (pool_run t0 q _ (advance type s) p tr 0 p1 E1). cbn [Z.eqb negb].
  assert (forall j, j ∈ omap fi_packet items -> 0 < mine j /\ ~ i = j) as Hj.
  { intros j Hj. split; [apply Hm; by right|]. by intros <-. }
  destruct (IH items p1 (advance type s)) as (p2&E2&L2&B2); [apply (le_owned _ _ _ _ L1)| |done|done|by apply Hj|].
  { eapply Forall2_impl_r; [exact F|]. intros ty j Hin Hr. eapply frame_ready_lease; [exact L1|by apply Hj|by apply Hj|done]. }
  exists p2. split; [exact E2|]. split.
  - eapply lease_trans; (eapply lease_weaken; [|done]); [intros j <-; left|intros j Hin; by right].
  - cbn [frame_bytes fmap list_fmap zip zip_with hop_frames]. f_equal.
    + rewrite <- P1. eapply le_payload; [exact L2|apply Hm; left|done].
    + etrans; [exact B2|]. do 2 f_equal. unfold frame_bytes. apply list_fmap_ext. intros k j Hk.
      pose proof (list_elem_of_lookup_2 _ _ _ Hk) as Hin. eapply le_payload; [exact L1|by apply Hj|by apply Hj].
Qed.
End Update.

Section Relay.
Context {C : Type} `{TP : TransportParts C} {TPL : TransportPartsLaws C} `{TLL : TransportLinkLaws}.
Context (env : transport_env C) (SE : sender_env env) (elapsed_ms : nat -> Z).
Abbreviation system := (tx_system C).

(** What relaying [items] to the targets of [ctx] from [s] may end with: an error
    with the pool as it was and nothing handed to a link, or one submission per
    target of the frames with this hop's sequence numbers. *)
Inductive hop_outcome (mine : nat -> Z) (ctx : linkg_transport_tx_context) (items : list linkg_transport_forward_item) (s : system)
    : Z -> list Z -> system -> Prop :=
  | hop_failed ret s' : ret < 0 -> ts_pool s' = ts_pool s -> ts_trace s' = ts_trace s -> hop_outcome mine ctx items s ret [] s'
  | hop_sent targets types start outs c fr s' :
      xc_targets ctx = Some targets -> Forall2 (frame_ready (ts_pool s)) types (forward_packets items) ->
      length types = length items -> length outs = length targets -> fr = verdicts (length items) outs ->
      ts_trace s' = ts_trace s ++
        submissions targets (hop_frames start (zip types (frame_bytes (forward_packets items) (ts_pool s)))) outs ->
      lease mine (fun i => i ∈ forward_packets items) (ts_pool s) (ts_pool s') ->
      peer_class (ts_transport s') ctx c ->
      sequences_of c = (if count_zero fr =? 0 then start else hop_advance start types) ->
      hop_outcome mine ctx items s (count_zero fr) fr s'.

(** After the class was taken. *)
Lemma forward_acquired mine ctx targets items types q t s :
  xc_targets ctx = Some targets -> owned_by mine (ts_pool s) -> (forall i, i ∈ forward_packets items -> 0 < mine i) ->
  NoDup (forward_packets items) -> length types = length items -> length (forward_packets items) = length items ->
  Forall2 (frame_ready (ts_pool s)) types (forward_packets items) -> acquired ctx (ts_transport s) t q ->
  exists ret out s', (k ← transport (class_read q);
      let start := sequences_of k in
      ret ← forward_update (zip items types) q;
      if negb (ret =? 0) then transport (rollback q start) ;; transport (unlock_class q) ;; mret (ret, [])
      else
        submitted ← _linkg_transport_tx_submit_wire_batch ctx (omap fi_packet items);
        let '(accepted_count, out) := submitted in
        when (accepted_count =? 0) (transport (rollback q start)) ;;
        transport (_linkg_transport_tx_record_forward_stats elapsed_ms q items types out) ;;
        transport (unlock_class q) ;;
        mret (accepted_count, out)) (TxSystem t (ts_pool s) (ts_trace s)) = Some ((ret, out), s') /\
    back s s' /\ hop_outcome mine ctx items s ret out s'.
Proof.
  intros Etg O Hm Hn Hlt Hlf F A. destruct (aq_class _ _ _ _ A) as [c Hc]. set (start := sequences_of c).
  mstep (transport_step (class_read q) t (ts_pool s) (ts_trace s) c t (class_read_run t q c Hc)).
  destruct (forward_update_spec t q c Hc mine items types (ts_pool s) start (ts_trace s) O F Hlf Hn Hm) as (p1&E1&L1&B1).
  unfold at_ in E1. unfold start in E1 at 1. rewrite (at_sequence_self t q c Hc) in E1. mstep E1. cbn [Z.eqb negb].
  set (adv := hop_advance start types) in *.
  destruct (submit_wire_batch_spec mine ctx targets (at_sequence q adv t) p1 (ts_trace s) (forward_packets items)
    (le_owned _ _ _ _ L1) Hm Etg) as (outs&t1&p2&E2&T1&L2&Hlo&_).
  unfold forward_packets at 1 in E2. rewrite B1, Hlf in E2. mstep E2. set (fr := verdicts (length items) outs).
  set (tr := ts_trace s ++ submissions _ _ _).
  assert (class_at (at_sequence q adv t) q = Some (set_sequences adv c)) as C0 by (by apply class_at_set).
  destruct (roll_back_step q start (count_zero fr =? 0) t1 p2 tr _ (moved_class _ _ _ _ _ (moved_tick q _ _ T1) C0)) as (t2&E3&M2).
  pose proof (moved_class _ _ _ _ _ M2 (moved_class _ _ _ _ _ (moved_tick q _ _ T1) C0)) as C2.
  rewrite (bind_step _ _ _ _ _ E3).
  destruct (record_frames_moved elapsed_ms q (zip_with (fun it type => (fi_payload_length it, is_user_data type)) items types) fr t2 _ C2)
    as (t3&st&E4&M3).
  mstep (transport_step (_linkg_transport_tx_record_forward_stats elapsed_ms q items types fr) t2 p2 tr tt t3 E4).
  pose proof (moved_class _ _ _ _ _ M3 C2) as C3.
  mstep (transport_step (unlock_class q) t3 p2 tr _ _ (class_update_run t3 q _ (set_order_lock false) C3)).
  eexists _, _, _. split; [reflexivity|].
  pose proof (moved_chain q adv start st (count_zero fr =? 0) t t1 t2 t3 T1 M2 M3) as M.
  split; [by apply (acquired_back q _ (ts_transport s) t _ ctx A M)|].
  eapply (hop_sent _ _ _ _ targets types start outs); try done.
  - eapply lease_trans; [exact L1|]. eapply lease_weaken; [|exact L2]. by intros j [].
  - by apply (peer_class_moved q _ (ts_transport s) t _ ctx c A Hc M).
  - fold adv. clearbody adv start. cbn. by destruct (count_zero fr =? 0), start, adv.
Qed.

(** C32: relaying a batch of encoded frames always returns. It fails with no
    packet changed and nothing sent, or every target was handed the same frames:
    the frames that came in with only the sequence number replaced, by the next
    numbers of this hop's class; the numbers are given back when every frame was
    refused by every target; the result is the number of accepted frames. *)
Theorem forward_batch_spec mine ctx items s :
  idle (ts_transport s) -> owned_by mine (ts_pool s) -> (forall i, i ∈ forward_packets items -> 0 < mine i) ->
  NoDup (forward_packets items) ->
  exists ret out s', linkg_transport_forward_batch env elapsed_ms (Some ctx) (Some items) true s = Some ((ret, out), s') /\
    back s s' /\ hop_outcome mine ctx items s ret out s'.
Proof.
  intros I O Hm Hn. unfold linkg_transport_forward_batch. destruct s as [t p tr]. cbn [ts_transport ts_pool ts_trace] in *.
  mstep (transport_step context t p tr (tr_context t) t eq_refl).
  assert (forall e, e < 0 -> exists ret out s', (mret (e, []) : M system (Z * list Z)) (TxSystem t p tr) = Some ((ret, out), s') /\
    back (TxSystem t p tr) s' /\ hop_outcome mine ctx items (TxSystem t p tr) ret out s') as Hout.
  { intros e He. exists e, [], (TxSystem t p tr). split; [done|]. split; [by split|by apply hop_failed]. }
  destruct (cx_initialized (tr_context t)); cbn [negb orb]; [|by apply Hout].
  destruct (bool_decide (items = [])); [by apply Hout|]. destruct (_ <? _); [by apply Hout|].
  set (v := _linkg_transport_tx_validate_context (Some ctx)). destruct (Z.eqb_spec v 0) as [Hv|Hv]; cbn [negb].
  2: { apply Hout. by apply validate_context_neg. }
  destruct (validate_context_spec ctx Hv) as (targets&Etg&_&_&Hcl).
  destruct (forward_types_spec mine p items O Hm) as (ret&types&E1&Hle&Ht). mstep (pool_step (forward_types items) t p tr _ p E1).
  destruct (Z.eqb_spec ret 0) as [->|Hr]; cbn [negb]; [|apply Hout; lia]. destruct (Ht eq_refl) as (L1&L2&F).
  destruct (wp_elim _ _ _ (acquire_spec env SE ctx _ _ t I Hcl no_ids_ok)) as (r&t2&E2&Hr).
  mstep (transport_step (_linkg_transport_tx_acquire_forward_state env ctx) t p tr r t2 E2).
  destruct r as [e|[q u]].
  - destruct Hr as (He&I2&Lc). eexists _, _, _. split; [reflexivity|]. split; [by split|by apply hop_failed].
  - destruct Hr as [A _]. by apply (forward_acquired mine ctx targets items types q t2 (TxSystem t p tr)).
Qed.
End Relay.

Definition demo_relay : tx_system unit := TxSystem demo_registered (frame_encoded 4 demo_header) [].
Definition demo_relay_item : linkg_transport_forward_item := ForwardItem (Some 1%nat) 4 2 5.

(** The frame leaves with the next data sequence number of the hop. *)
Example demo_relay_run :
  match linkg_transport_forward_batch demo_transport_env (fun _ => 0) (Some demo_context) (Some [demo_relay_item]) true demo_relay with
  | Some ((ret, out), s) => (ret, out, (fun sb => (fun f => take 4 (drop 8 f)) <$> sb_frames sb) <$> ts_trace s)
  | None => (0, [], [])
  end = (1, [0], [[[0; 0; 0; 9]]; [[0; 0; 0; 9]]]).
Proof. vm_compute. reflexivity. Qed.

Lemma forward_batch_spec_witness :
  exists ret out s', linkg_transport_forward_batch demo_transport_env (fun _ => 0) (Some demo_context) (Some [demo_relay_item]) true
      demo_relay = Some ((ret, out), s') /\ back demo_relay s' /\ hop_outcome demo_hold demo_context [demo_relay_item] demo_relay ret out s'.
Proof.
  apply (forward_batch_spec demo_transport_env demo_sender_env (fun _ => 0) demo_hold demo_context [demo_relay_item] demo_relay).
  - exact demo_registered_idle.
  - destruct frame_encoded_live as (W&R&K). split; [exact W|]. intros j. unfold demo_hold.
    case_decide as Hj; [subst; cbn [demo_relay ts_pool]; lia|]. split; [lia|]. by apply refs_nonneg.
  - intros i ->%list_elem_of_singleton. done.
  - apply NoDup_singleton.
Defined.
