(* ===== verification/SwitchWire.v ===== *)
(** * Link switching: control messages  (core/switch/switch_wire.c)

    The codec of the five control messages of the switching module. A buffer is
    the list of its bytes, of the length the capacity says; enumerations are the
    integers of their C types, since a decoded byte may be any of them. An encoder
    returns the code, [*length] and the buffer; the decoder returns the message
    only with code 0 (no caller reads it otherwise, and none passes a NULL message). The last argument [null] of
    an encoder says that [length] is NULL. *)

From S2P Require Import Prelude.
From S2P Require Import TransportTypes.

(** ** Constants *)

Definition LINKG_SWITCH_WIRE_VERSION := 1.
Definition LINKG_SWITCH_WIRE_MESSAGE_ID_INVALID := 0.

Definition LINKG_SWITCH_WIRE_HEADER_SIZE := 8.
Definition LINKG_SWITCH_WIRE_QUALITY_LOSS_SIZE := 8.
Definition LINKG_SWITCH_WIRE_QUALITY_HCC_SIZE := 20.
Definition LINKG_SWITCH_WIRE_QUALITY_LOAD_CLASSES_SIZE := 8 * 2 * LINKG_TRANSPORT_CLASS_COUNT.
Definition LINKG_SWITCH_WIRE_QUALITY_REPORT_PAYLOAD_SIZE :=
  80 + LINKG_SWITCH_WIRE_QUALITY_HCC_SIZE + LINKG_SWITCH_WIRE_QUALITY_LOAD_CLASSES_SIZE.
Definition LINKG_SWITCH_WIRE_CLASS_PLAN_SIZE := 4.
Definition LINKG_SWITCH_WIRE_PLAN_SYNC_PAYLOAD_SIZE := LINKG_SWITCH_WIRE_CLASS_PLAN_SIZE * LINKG_TRANSPORT_CLASS_COUNT.
Definition LINKG_SWITCH_WIRE_QUALITY_REPORT_SIZE := LINKG_SWITCH_WIRE_HEADER_SIZE + LINKG_SWITCH_WIRE_QUALITY_REPORT_PAYLOAD_SIZE.
Definition LINKG_SWITCH_WIRE_PLAN_SYNC_SIZE := LINKG_SWITCH_WIRE_HEADER_SIZE + LINKG_SWITCH_WIRE_PLAN_SYNC_PAYLOAD_SIZE.
Definition LINKG_SWITCH_WIRE_PLAN_ACK_SIZE := LINKG_SWITCH_WIRE_HEADER_SIZE + 4.
Definition LINKG_SWITCH_WIRE_MAINTENANCE_SIZE := LINKG_SWITCH_WIRE_HEADER_SIZE + 4.
Definition LINKG_SWITCH_WIRE_MAINTENANCE_ACK_SIZE := LINKG_SWITCH_WIRE_HEADER_SIZE + 4.

Definition LINKG_SWITCH_WIRE_HCC_FLAG_VALID := 1.
Definition LINKG_SWITCH_WIRE_HCC_FLAG_TX_ALLOWED := 2.
Definition LINKG_SWITCH_WIRE_HCC_FLAG_MASK := Z.lor LINKG_SWITCH_WIRE_HCC_FLAG_VALID LINKG_SWITCH_WIRE_HCC_FLAG_TX_ALLOWED.

Definition LINKG_SWITCH_WIRE_TYPE_NONE := 0.
Definition LINKG_SWITCH_WIRE_TYPE_QUALITY_REPORT := 1.
Definition LINKG_SWITCH_WIRE_TYPE_PLAN_SYNC := 2.
Definition LINKG_SWITCH_WIRE_TYPE_PLAN_ACK := 3.
Definition LINKG_SWITCH_WIRE_TYPE_MAINTENANCE := 4.
Definition LINKG_SWITCH_WIRE_TYPE_MAINTENANCE_ACK := 5.
Definition LINKG_SWITCH_WIRE_TYPE_COUNT := 6.

Definition LINKG_SWITCH_WIRE_ACCESS_NONE := 0.
Definition LINKG_SWITCH_WIRE_ACCESS_WIFI := 1.
Definition LINKG_SWITCH_WIRE_ACCESS_CELLULAR := 2.
Definition LINKG_SWITCH_WIRE_ACCESS_COUNT := 3.

Definition LINKG_SWITCH_WIRE_MODE_NONE := 0.
Definition LINKG_SWITCH_WIRE_MODE_SINGLE := 1.
Definition LINKG_SWITCH_WIRE_MODE_REDUNDANT := 2.
Definition LINKG_SWITCH_WIRE_MODE_COUNT := 3.

Definition LINKG_SWITCH_WIRE_MAINTENANCE_PHASE_NONE := 0.
Definition LINKG_SWITCH_WIRE_MAINTENANCE_PHASE_BEGIN := 1.
Definition LINKG_SWITCH_WIRE_MAINTENANCE_PHASE_END := 2.
Definition LINKG_SWITCH_WIRE_MAINTENANCE_PHASE_COUNT := 3.

(** Offsets of the fields. *)
Definition LINKG_SWITCH_WIRE_HEADER_VERSION_OFFSET := 0.
Definition LINKG_SWITCH_WIRE_HEADER_TYPE_OFFSET := 1.
Definition LINKG_SWITCH_WIRE_HEADER_LENGTH_OFFSET := 2.
Definition LINKG_SWITCH_WIRE_HEADER_MESSAGE_ID_OFFSET := 4.
Definition LINKG_SWITCH_WIRE_QUALITY_WIFI_UPLINK_OFFSET := LINKG_SWITCH_WIRE_HEADER_SIZE.
Definition LINKG_SWITCH_WIRE_QUALITY_WIFI_DOWNLINK_LOAD_OFFSET := LINKG_SWITCH_WIRE_HEADER_SIZE + 8.
Definition LINKG_SWITCH_WIRE_QUALITY_CELLULAR_UPLINK_OFFSET := LINKG_SWITCH_WIRE_HEADER_SIZE + 16.
Definition LINKG_SWITCH_WIRE_QUALITY_CELLULAR_DOWNLINK_LOAD_OFFSET := LINKG_SWITCH_WIRE_HEADER_SIZE + 24.
Definition LINKG_SWITCH_WIRE_QUALITY_WIFI_UPLINK_CLASSES_OFFSET := LINKG_SWITCH_WIRE_HEADER_SIZE + 32.
Definition LINKG_SWITCH_WIRE_QUALITY_CELLULAR_UPLINK_CLASSES_OFFSET := LINKG_SWITCH_WIRE_HEADER_SIZE + 56.
Definition LINKG_SWITCH_WIRE_QUALITY_WIFI_DOWNLINK_HCC_OFFSET :=
  LINKG_SWITCH_WIRE_QUALITY_CELLULAR_UPLINK_CLASSES_OFFSET + LINKG_SWITCH_WIRE_QUALITY_LOSS_SIZE * LINKG_TRANSPORT_CLASS_COUNT.
Definition LINKG_SWITCH_WIRE_QUALITY_HCC_VO_OFFSET := LINKG_SWITCH_WIRE_QUALITY_WIFI_DOWNLINK_HCC_OFFSET + 0.
Definition LINKG_SWITCH_WIRE_QUALITY_HCC_VI_OFFSET := LINKG_SWITCH_WIRE_QUALITY_WIFI_DOWNLINK_HCC_OFFSET + 4.
Definition LINKG_SWITCH_WIRE_QUALITY_HCC_BE_OFFSET := LINKG_SWITCH_WIRE_QUALITY_WIFI_DOWNLINK_HCC_OFFSET + 8.
Definition LINKG_SWITCH_WIRE_QUALITY_HCC_OFF_COUNT_OFFSET := LINKG_SWITCH_WIRE_QUALITY_WIFI_DOWNLINK_HCC_OFFSET + 12.
Definition LINKG_SWITCH_WIRE_QUALITY_HCC_FLAGS_OFFSET := LINKG_SWITCH_WIRE_QUALITY_WIFI_DOWNLINK_HCC_OFFSET + 16.
Definition LINKG_SWITCH_WIRE_QUALITY_WIFI_DOWNLINK_LOAD_CLASSES_OFFSET := LINKG_SWITCH_WIRE_QUALITY_WIFI_DOWNLINK_HCC_OFFSET + LINKG_SWITCH_WIRE_QUALITY_HCC_SIZE.
Definition LINKG_SWITCH_WIRE_QUALITY_CELLULAR_DOWNLINK_LOAD_CLASSES_OFFSET :=
  LINKG_SWITCH_WIRE_QUALITY_WIFI_DOWNLINK_LOAD_CLASSES_OFFSET + LINKG_SWITCH_WIRE_QUALITY_LOSS_SIZE * LINKG_TRANSPORT_CLASS_COUNT.
Definition LINKG_SWITCH_WIRE_PLAN_SYNC_MODE_OFFSET := LINKG_SWITCH_WIRE_HEADER_SIZE.
Definition LINKG_SWITCH_WIRE_PLAN_SYNC_PRIMARY_OFFSET := LINKG_SWITCH_WIRE_HEADER_SIZE + 1.
Definition LINKG_SWITCH_WIRE_PLAN_SYNC_SECONDARY_OFFSET := LINKG_SWITCH_WIRE_HEADER_SIZE + 2.
Definition LINKG_SWITCH_WIRE_PLAN_SYNC_RESERVED_OFFSET := LINKG_SWITCH_WIRE_HEADER_SIZE + 3.
Definition LINKG_SWITCH_WIRE_PLAN_ACK_STATUS_OFFSET := LINKG_SWITCH_WIRE_HEADER_SIZE.
Definition LINKG_SWITCH_WIRE_MAINTENANCE_ACCESS_OFFSET := LINKG_SWITCH_WIRE_HEADER_SIZE.
Definition LINKG_SWITCH_WIRE_MAINTENANCE_PHASE_OFFSET := LINKG_SWITCH_WIRE_HEADER_SIZE + 1.
Definition LINKG_SWITCH_WIRE_MAINTENANCE_RESERVED0_OFFSET := LINKG_SWITCH_WIRE_HEADER_SIZE + 2.
Definition LINKG_SWITCH_WIRE_MAINTENANCE_RESERVED1_OFFSET := LINKG_SWITCH_WIRE_HEADER_SIZE + 3.
Definition LINKG_SWITCH_WIRE_MAINTENANCE_ACK_ACCESS_OFFSET := LINKG_SWITCH_WIRE_HEADER_SIZE.
Definition LINKG_SWITCH_WIRE_MAINTENANCE_ACK_RESERVED0_OFFSET := LINKG_SWITCH_WIRE_HEADER_SIZE + 1.
Definition LINKG_SWITCH_WIRE_MAINTENANCE_ACK_RESERVED1_OFFSET := LINKG_SWITCH_WIRE_HEADER_SIZE + 2.
Definition LINKG_SWITCH_WIRE_MAINTENANCE_ACK_RESERVED2_OFFSET := LINKG_SWITCH_WIRE_HEADER_SIZE + 3.

(** ** Messages *)

Record linkg_switch_wire_header := WireHeader {
  wh_version : Z;
  wh_type : Z;
  wh_length : Z;
  wh_message_id : Z }.

Record linkg_switch_wire_loss := WireLoss {
  lo_lost_packets : Z;
  lo_sample_packets : Z }.

Record linkg_switch_wire_hcc := WireHcc {
  hc_vo_queue_length : Z;
  hc_vi_queue_length : Z;
  hc_be_queue_length : Z;
  hc_flowctrl_off_count : Z;
  hc_flags : Z }.

Record linkg_switch_wire_quality_report := WireQuality {
  qr_wifi_uplink : linkg_switch_wire_loss;
  qr_wifi_downlink_load : linkg_switch_wire_loss;
  qr_cellular_uplink : linkg_switch_wire_loss;
  qr_cellular_downlink_load : linkg_switch_wire_loss;
  qr_wifi_uplink_classes : list linkg_switch_wire_loss;
  qr_cellular_uplink_classes : list linkg_switch_wire_loss;
  qr_wifi_downlink_hcc : linkg_switch_wire_hcc;
  qr_wifi_downlink_load_classes : list linkg_switch_wire_loss;
  qr_cellular_downlink_load_classes : list linkg_switch_wire_loss }.

Record linkg_switch_wire_class_send_plan := WireClassPlan {
  wp_mode : Z;
  wp_primary_access : Z;
  wp_secondary_access : Z }.

(** [classes[LINKG_TRANSPORT_CLASS_COUNT]]. *)
Record linkg_switch_wire_plan_sync := WirePlan { wp_classes : list linkg_switch_wire_class_send_plan }.

Record linkg_switch_wire_plan_ack := WirePlanAck { wa_status : Z }.
Record linkg_switch_wire_maintenance := WireMaintenance { wm_access : Z; wm_phase : Z }.
Record linkg_switch_wire_maintenance_ack := WireMaintenanceAck { wk_access : Z }.

#[export] Instance class_send_plan_eq_dec : EqDecision linkg_switch_wire_class_send_plan.
Proof. solve_decision. Defined.
#[export] Instance wire_plan_eq_dec : EqDecision linkg_switch_wire_plan_sync.
Proof. solve_decision. Defined.

(** The union, with the tag of the header. *)
Inductive linkg_switch_wire_payload :=
  | QualityReport (report : linkg_switch_wire_quality_report)
  | PlanSync (plan : linkg_switch_wire_plan_sync)
  | PlanAck (ack : linkg_switch_wire_plan_ack)
  | Maintenance (maintenance : linkg_switch_wire_maintenance)
  | MaintenanceAck (ack : linkg_switch_wire_maintenance_ack).

Record linkg_switch_wire_message := WireMessage {
  ws_header : linkg_switch_wire_header;
  ws_payload : linkg_switch_wire_payload }.

Definition loss_zero : linkg_switch_wire_loss := WireLoss 0 0.
Definition class_plan_zero : linkg_switch_wire_class_send_plan := WireClassPlan 0 0 0.

(** ** Integers in a buffer *)

Definition byte_at (buffer : list Z) (offset : Z) : Z := default 0 (buffer !! Z.to_nat offset).
Definition byte_put (offset value : Z) (buffer : list Z) : list Z := <[Z.to_nat offset := u8 value]> buffer.

Definition _linkg_switch_wire_write_u16 (offset value : Z) (buffer : list Z) : list Z :=
  byte_put (offset + 1) value (byte_put offset (Z.shiftr value 8) buffer).

Definition _linkg_switch_wire_write_u32 (offset value : Z) (buffer : list Z) : list Z :=
  byte_put (offset + 3) value
    (byte_put (offset + 2) (Z.shiftr value 8)
      (byte_put (offset + 1) (Z.shiftr value 16) (byte_put offset (Z.shiftr value 24) buffer))).

Definition _linkg_switch_wire_read_u16 (buffer : list Z) (offset : Z) : Z :=
  u16 (Z.lor (Z.shiftl (byte_at buffer offset) 8) (byte_at buffer (offset + 1))).

Definition _linkg_switch_wire_read_u32 (buffer : list Z) (offset : Z) : Z :=
  Z.lor (Z.lor (Z.lor (Z.shiftl (byte_at buffer offset) 24) (Z.shiftl (byte_at buffer (offset + 1)) 16))
           (Z.shiftl (byte_at buffer (offset + 2)) 8))
    (byte_at buffer (offset + 3)).

Definition _linkg_switch_wire_decode_s32 (value : Z) : Z :=
  if value <=? 2 ^ 31 - 1 then value else - (2 ^ 32 - 1 - value) - 1.

(** ** Validation *)

Definition _linkg_switch_wire_type_valid (type : Z) : bool :=
  (LINKG_SWITCH_WIRE_TYPE_NONE <? type) && (type <? LINKG_SWITCH_WIRE_TYPE_COUNT).
Definition _linkg_switch_wire_access_valid (access : Z) : bool :=
  (LINKG_SWITCH_WIRE_ACCESS_NONE <? access) && (access <? LINKG_SWITCH_WIRE_ACCESS_COUNT).
Definition _linkg_switch_wire_mode_valid (mode : Z) : bool :=
  (LINKG_SWITCH_WIRE_MODE_NONE <? mode) && (mode <? LINKG_SWITCH_WIRE_MODE_COUNT).
Definition _linkg_switch_wire_maintenance_phase_valid (phase : Z) : bool :=
  (LINKG_SWITCH_WIRE_MAINTENANCE_PHASE_NONE <? phase) && (phase <? LINKG_SWITCH_WIRE_MAINTENANCE_PHASE_COUNT).

Definition _linkg_switch_wire_validate_class_plan (plan : linkg_switch_wire_class_send_plan) : Z :=
  if wp_mode plan =? LINKG_SWITCH_WIRE_MODE_NONE then
    if (wp_primary_access plan =? LINKG_SWITCH_WIRE_ACCESS_NONE) && (wp_secondary_access plan =? LINKG_SWITCH_WIRE_ACCESS_NONE)
    then 0 else - EINVAL
  else if negb (_linkg_switch_wire_mode_valid (wp_mode plan)) || negb (_linkg_switch_wire_access_valid (wp_primary_access plan))
  then - EINVAL
  else if negb (wp_secondary_access plan =? LINKG_SWITCH_WIRE_ACCESS_NONE) &&
          negb (_linkg_switch_wire_access_valid (wp_secondary_access plan)) then - EINVAL
  else if wp_secondary_access plan =? wp_primary_access plan then - EINVAL
  else if (wp_mode plan =? LINKG_SWITCH_WIRE_MODE_REDUNDANT) && (wp_secondary_access plan =? LINKG_SWITCH_WIRE_ACCESS_NONE)
  then - EINVAL
  else 0.

(** The first code that is not 0, over the classes. *)
Definition first_code {A} (f : A -> Z) (l : list A) : Z :=
  foldl (fun ret x => if ret =? 0 then f x else ret) 0 l.

Definition _linkg_switch_wire_validate_plan (plan : option linkg_switch_wire_plan_sync) : Z :=
  match plan with
  | None => - EINVAL
  | Some p => first_code _linkg_switch_wire_validate_class_plan (wp_classes p)
  end.

Definition _linkg_switch_wire_validate_maintenance (maintenance : option linkg_switch_wire_maintenance) : Z :=
  match maintenance with
  | None => - EINVAL
  | Some m =>
      if negb (_linkg_switch_wire_access_valid (wm_access m)) then - EINVAL
      else if negb (_linkg_switch_wire_maintenance_phase_valid (wm_phase m)) then - EINVAL
      else 0
  end.

Definition _linkg_switch_wire_validate_maintenance_ack (ack : option linkg_switch_wire_maintenance_ack) : Z :=
  match ack with
  | None => - EINVAL
  | Some a => if negb (_linkg_switch_wire_access_valid (wk_access a)) then - EINVAL else 0
  end.

(** ** Header *)

(** The code and the buffer. *)
Definition _linkg_switch_wire_encode_header (type wire_length message_id : Z) (buffer : option (list Z)) (capacity : Z)
    : Z * option (list Z) :=
  match buffer with
  | None => (- EINVAL, buffer)
  | Some b =>
      if negb (_linkg_switch_wire_type_valid type) || (message_id =? LINKG_SWITCH_WIRE_MESSAGE_ID_INVALID) then (- EINVAL, buffer)
      else if capacity <? wire_length then (- ENOSPC, buffer)
      else
        let b := byte_put LINKG_SWITCH_WIRE_HEADER_VERSION_OFFSET LINKG_SWITCH_WIRE_VERSION b in
        let b := byte_put LINKG_SWITCH_WIRE_HEADER_TYPE_OFFSET type b in
        let b := _linkg_switch_wire_write_u16 LINKG_SWITCH_WIRE_HEADER_LENGTH_OFFSET wire_length b in
        (0, Some (_linkg_switch_wire_write_u32 LINKG_SWITCH_WIRE_HEADER_MESSAGE_ID_OFFSET message_id b))
  end.

Definition _linkg_switch_wire_decode_header (buffer : option (list Z)) (length : Z) : Z * option linkg_switch_wire_header :=
  match buffer with
  | None => (- EINVAL, None)
  | Some b =>
      if (length <? LINKG_SWITCH_WIRE_HEADER_SIZE) || (2 ^ 16 - 1 <? length) then (- EMSGSIZE, None)
      else if negb (byte_at b LINKG_SWITCH_WIRE_HEADER_VERSION_OFFSET =? LINKG_SWITCH_WIRE_VERSION) then (- EPROTONOSUPPORT, None)
      else
        let wire_type := byte_at b LINKG_SWITCH_WIRE_HEADER_TYPE_OFFSET in
        if (wire_type <=? LINKG_SWITCH_WIRE_TYPE_NONE) || (LINKG_SWITCH_WIRE_TYPE_COUNT <=? wire_type) then (- EPROTONOSUPPORT, None)
        else
          let wire_length := _linkg_switch_wire_read_u16 b LINKG_SWITCH_WIRE_HEADER_LENGTH_OFFSET in
          if negb (wire_length =? length) then (- EMSGSIZE, None)
          else
            let message_id := _linkg_switch_wire_read_u32 b LINKG_SWITCH_WIRE_HEADER_MESSAGE_ID_OFFSET in
            if message_id =? LINKG_SWITCH_WIRE_MESSAGE_ID_INVALID then (- EINVAL, None)
            else (0, Some (WireHeader (byte_at b LINKG_SWITCH_WIRE_HEADER_VERSION_OFFSET) wire_type wire_length message_id))
  end.

(** ** Quality reports *)

Definition _linkg_switch_wire_loss_valid (loss : linkg_switch_wire_loss) : bool :=
  lo_lost_packets loss <=? lo_sample_packets loss.

Definition _linkg_switch_wire_encode_loss (offset : Z) (loss : linkg_switch_wire_loss) (buffer : list Z) : list Z :=
  _linkg_switch_wire_write_u32 (offset + 4) (lo_sample_packets loss)
    (_linkg_switch_wire_write_u32 offset (lo_lost_packets loss) buffer).

Definition _linkg_switch_wire_decode_loss (buffer : list Z) (offset : Z) : linkg_switch_wire_loss :=
  WireLoss (_linkg_switch_wire_read_u32 buffer offset) (_linkg_switch_wire_read_u32 buffer (offset + 4)).

Definition _linkg_switch_wire_hcc_valid (hcc : linkg_switch_wire_hcc) : bool :=
  if negb (Z.land (hc_flags hcc) (Z.lnot LINKG_SWITCH_WIRE_HCC_FLAG_MASK) =? 0) then false
  else if negb (Z.land (hc_flags hcc) LINKG_SWITCH_WIRE_HCC_FLAG_VALID =? 0) then true
  else (hc_flags hcc =? 0) && (hc_vo_queue_length hcc =? 0) && (hc_vi_queue_length hcc =? 0) &&
       (hc_be_queue_length hcc =? 0) && (hc_flowctrl_off_count hcc =? 0).

Definition _linkg_switch_wire_encode_hcc (hcc : linkg_switch_wire_hcc) (buffer : list Z) : list Z :=
  let b := _linkg_switch_wire_write_u32 LINKG_SWITCH_WIRE_QUALITY_HCC_VO_OFFSET (hc_vo_queue_length hcc) buffer in
  let b := _linkg_switch_wire_write_u32 LINKG_SWITCH_WIRE_QUALITY_HCC_VI_OFFSET (hc_vi_queue_length hcc) b in
  let b := _linkg_switch_wire_write_u32 LINKG_SWITCH_WIRE_QUALITY_HCC_BE_OFFSET (hc_be_queue_length hcc) b in
  let b := _linkg_switch_wire_write_u32 LINKG_SWITCH_WIRE_QUALITY_HCC_OFF_COUNT_OFFSET (hc_flowctrl_off_count hcc) b in
  _linkg_switch_wire_write_u32 LINKG_SWITCH_WIRE_QUALITY_HCC_FLAGS_OFFSET (hc_flags hcc) b.

Definition _linkg_switch_wire_decode_hcc (buffer : list Z) : linkg_switch_wire_hcc :=
  WireHcc (_linkg_switch_wire_read_u32 buffer LINKG_SWITCH_WIRE_QUALITY_HCC_VO_OFFSET) (_linkg_switch_wire_read_u32 buffer LINKG_SWITCH_WIRE_QUALITY_HCC_VI_OFFSET)
    (_linkg_switch_wire_read_u32 buffer LINKG_SWITCH_WIRE_QUALITY_HCC_BE_OFFSET) (_linkg_switch_wire_read_u32 buffer LINKG_SWITCH_WIRE_QUALITY_HCC_OFF_COUNT_OFFSET)
    (_linkg_switch_wire_read_u32 buffer LINKG_SWITCH_WIRE_QUALITY_HCC_FLAGS_OFFSET).

Definition _linkg_switch_wire_quality_valid (report : linkg_switch_wire_quality_report) : bool :=
  _linkg_switch_wire_hcc_valid (qr_wifi_downlink_hcc report) &&
  _linkg_switch_wire_loss_valid (qr_wifi_uplink report) && _linkg_switch_wire_loss_valid (qr_wifi_downlink_load report) &&
  _linkg_switch_wire_loss_valid (qr_cellular_uplink report) && _linkg_switch_wire_loss_valid (qr_cellular_downlink_load report) &&
  forallb _linkg_switch_wire_loss_valid (qr_wifi_uplink_classes report) &&
  forallb _linkg_switch_wire_loss_valid (qr_cellular_uplink_classes report) &&
  forallb _linkg_switch_wire_loss_valid (qr_wifi_downlink_load_classes report) &&
  forallb _linkg_switch_wire_loss_valid (qr_cellular_downlink_load_classes report).

Definition wire_classes : list Z := seqZ 0 LINKG_TRANSPORT_CLASS_COUNT.

(** One class of the two arrays of a loop, at its offset in each. *)
Definition encode_class_losses (first_offset second_offset : Z) (first second : list linkg_switch_wire_loss)
    (buffer : list Z) (class_index : Z) : list Z :=
  let offset := class_index * LINKG_SWITCH_WIRE_QUALITY_LOSS_SIZE in
  _linkg_switch_wire_encode_loss (second_offset + offset) (default loss_zero (second !! Z.to_nat class_index))
    (_linkg_switch_wire_encode_loss (first_offset + offset) (default loss_zero (first !! Z.to_nat class_index)) buffer).

Definition decode_class_losses (buffer : list Z) (offset : Z) : list linkg_switch_wire_loss :=
  (fun class_index => _linkg_switch_wire_decode_loss buffer (offset + class_index * LINKG_SWITCH_WIRE_QUALITY_LOSS_SIZE)) <$> wire_classes.

(** The code, [*length] and the buffer. *)
Definition encoded : Type := Z * Z * option (list Z).

Definition linkg_switch_wire_encode_quality_report (message_id : Z) (report : option linkg_switch_wire_quality_report)
    (buffer : option (list Z)) (capacity : Z) (null : bool) : encoded :=
  if null then (- EINVAL, 0, buffer)
  else match report, buffer with
  | Some r, Some _ =>
      if negb (_linkg_switch_wire_quality_valid r) then (- EINVAL, 0, buffer)
      else
        let '(ret, b) := _linkg_switch_wire_encode_header LINKG_SWITCH_WIRE_TYPE_QUALITY_REPORT
                           LINKG_SWITCH_WIRE_QUALITY_REPORT_SIZE message_id buffer capacity in
        if negb (ret =? 0) then (ret, 0, b)
        else
          let b := default [] b in
          let b := _linkg_switch_wire_encode_loss LINKG_SWITCH_WIRE_QUALITY_WIFI_UPLINK_OFFSET (qr_wifi_uplink r) b in
          let b := _linkg_switch_wire_encode_loss LINKG_SWITCH_WIRE_QUALITY_WIFI_DOWNLINK_LOAD_OFFSET (qr_wifi_downlink_load r) b in
          let b := _linkg_switch_wire_encode_loss LINKG_SWITCH_WIRE_QUALITY_CELLULAR_UPLINK_OFFSET (qr_cellular_uplink r) b in
          let b := _linkg_switch_wire_encode_loss LINKG_SWITCH_WIRE_QUALITY_CELLULAR_DOWNLINK_LOAD_OFFSET (qr_cellular_downlink_load r) b in
          let b := foldl (encode_class_losses LINKG_SWITCH_WIRE_QUALITY_WIFI_UPLINK_CLASSES_OFFSET LINKG_SWITCH_WIRE_QUALITY_CELLULAR_UPLINK_CLASSES_OFFSET
                            (qr_wifi_uplink_classes r) (qr_cellular_uplink_classes r)) b wire_classes in
          let b := _linkg_switch_wire_encode_hcc (qr_wifi_downlink_hcc r) b in
          let b := foldl (encode_class_losses LINKG_SWITCH_WIRE_QUALITY_WIFI_DOWNLINK_LOAD_CLASSES_OFFSET LINKG_SWITCH_WIRE_QUALITY_CELLULAR_DOWNLINK_LOAD_CLASSES_OFFSET
                            (qr_wifi_downlink_load_classes r) (qr_cellular_downlink_load_classes r)) b wire_classes in
          (0, LINKG_SWITCH_WIRE_QUALITY_REPORT_SIZE, Some b)
  | _, _ => (- EINVAL, 0, buffer)
  end.

(** ** Plans, acknowledgements, maintenance *)

Definition encode_class_plan (classes : list linkg_switch_wire_class_send_plan) (buffer : list Z) (class_index : Z) : list Z :=
  let offset := class_index * LINKG_SWITCH_WIRE_CLASS_PLAN_SIZE in
  let c := default class_plan_zero (classes !! Z.to_nat class_index) in
  let b := byte_put (LINKG_SWITCH_WIRE_PLAN_SYNC_MODE_OFFSET + offset) (wp_mode c) buffer in
  let b := byte_put (LINKG_SWITCH_WIRE_PLAN_SYNC_PRIMARY_OFFSET + offset) (wp_primary_access c) b in
  let b := byte_put (LINKG_SWITCH_WIRE_PLAN_SYNC_SECONDARY_OFFSET + offset) (wp_secondary_access c) b in
  byte_put (LINKG_SWITCH_WIRE_PLAN_SYNC_RESERVED_OFFSET + offset) 0 b.

Definition linkg_switch_wire_encode_plan_sync (message_id : Z) (plan : option linkg_switch_wire_plan_sync)
    (buffer : option (list Z)) (capacity : Z) (null : bool) : encoded :=
  if null then (- EINVAL, 0, buffer)
  else match plan, buffer with
  | Some p, Some _ =>
      let ret := _linkg_switch_wire_validate_plan plan in
      if negb (ret =? 0) then (ret, 0, buffer)
      else
        let '(ret, b) := _linkg_switch_wire_encode_header LINKG_SWITCH_WIRE_TYPE_PLAN_SYNC
                           LINKG_SWITCH_WIRE_PLAN_SYNC_SIZE message_id buffer capacity in
        if negb (ret =? 0) then (ret, 0, b)
        else (0, LINKG_SWITCH_WIRE_PLAN_SYNC_SIZE, Some (foldl (encode_class_plan (wp_classes p)) (default [] b) wire_classes))
  | _, _ => (- EINVAL, 0, buffer)
  end.

Definition linkg_switch_wire_encode_plan_ack (message_id : Z) (ack : option linkg_switch_wire_plan_ack)
    (buffer : option (list Z)) (capacity : Z) (null : bool) : encoded :=
  if null then (- EINVAL, 0, buffer)
  else match ack, buffer with
  | Some a, Some _ =>
      if 0 <? wa_status a then (- EINVAL, 0, buffer)
      else
        let '(ret, b) := _linkg_switch_wire_encode_header LINKG_SWITCH_WIRE_TYPE_PLAN_ACK
                           LINKG_SWITCH_WIRE_PLAN_ACK_SIZE message_id buffer capacity in
        if negb (ret =? 0) then (ret, 0, b)
        else (0, LINKG_SWITCH_WIRE_PLAN_ACK_SIZE,
              Some (_linkg_switch_wire_write_u32 LINKG_SWITCH_WIRE_PLAN_ACK_STATUS_OFFSET (u32 (wa_status a)) (default [] b)))
  | _, _ => (- EINVAL, 0, buffer)
  end.

Definition linkg_switch_wire_encode_maintenance (message_id : Z) (maintenance : option linkg_switch_wire_maintenance)
    (buffer : option (list Z)) (capacity : Z) (null : bool) : encoded :=
  if null then (- EINVAL, 0, buffer)
  else match maintenance, buffer with
  | Some m, Some _ =>
      let ret := _linkg_switch_wire_validate_maintenance maintenance in
      if negb (ret =? 0) then (ret, 0, buffer)
      else
        let '(ret, b) := _linkg_switch_wire_encode_header LINKG_SWITCH_WIRE_TYPE_MAINTENANCE
                           LINKG_SWITCH_WIRE_MAINTENANCE_SIZE message_id buffer capacity in
        if negb (ret =? 0) then (ret, 0, b)
        else
          let b := byte_put LINKG_SWITCH_WIRE_MAINTENANCE_ACCESS_OFFSET (wm_access m) (default [] b) in
          let b := byte_put LINKG_SWITCH_WIRE_MAINTENANCE_PHASE_OFFSET (wm_phase m) b in
          let b := byte_put LINKG_SWITCH_WIRE_MAINTENANCE_RESERVED0_OFFSET 0 b in
          (0, LINKG_SWITCH_WIRE_MAINTENANCE_SIZE, Some (byte_put LINKG_SWITCH_WIRE_MAINTENANCE_RESERVED1_OFFSET 0 b))
  | _, _ => (- EINVAL, 0, buffer)
  end.

Definition linkg_switch_wire_encode_maintenance_ack (message_id : Z) (ack : option linkg_switch_wire_maintenance_ack)
    (buffer : option (list Z)) (capacity : Z) (null : bool) : encoded :=
  if null then (- EINVAL, 0, buffer)
  else match ack, buffer with
  | Some a, Some _ =>
      let ret := _linkg_switch_wire_validate_maintenance_ack ack in
      if negb (ret =? 0) then (ret, 0, buffer)
      else
        let '(ret, b) := _linkg_switch_wire_encode_header LINKG_SWITCH_WIRE_TYPE_MAINTENANCE_ACK
                           LINKG_SWITCH_WIRE_MAINTENANCE_ACK_SIZE message_id buffer capacity in
        if negb (ret =? 0) then (ret, 0, b)
        else
          let b := byte_put LINKG_SWITCH_WIRE_MAINTENANCE_ACK_ACCESS_OFFSET (wk_access a) (default [] b) in
          let b := byte_put LINKG_SWITCH_WIRE_MAINTENANCE_ACK_RESERVED0_OFFSET 0 b in
          let b := byte_put LINKG_SWITCH_WIRE_MAINTENANCE_ACK_RESERVED1_OFFSET 0 b in
          (0, LINKG_SWITCH_WIRE_MAINTENANCE_ACK_SIZE, Some (byte_put LINKG_SWITCH_WIRE_MAINTENANCE_ACK_RESERVED2_OFFSET 0 b))
  | _, _ => (- EINVAL, 0, buffer)
  end.

(** ** Decoding *)

Definition decode_class_plan (buffer : list Z) (class_index : Z) : linkg_switch_wire_class_send_plan :=
  let offset := class_index * LINKG_SWITCH_WIRE_CLASS_PLAN_SIZE in
  WireClassPlan (byte_at buffer (LINKG_SWITCH_WIRE_PLAN_SYNC_MODE_OFFSET + offset)) (byte_at buffer (LINKG_SWITCH_WIRE_PLAN_SYNC_PRIMARY_OFFSET + offset))
    (byte_at buffer (LINKG_SWITCH_WIRE_PLAN_SYNC_SECONDARY_OFFSET + offset)).

(** One case of the switch: the code and the payload. *)
Definition decode_payload (b : list Z) (length type : Z) : Z * option linkg_switch_wire_payload :=
  if type =? LINKG_SWITCH_WIRE_TYPE_QUALITY_REPORT then
    if negb (length =? LINKG_SWITCH_WIRE_QUALITY_REPORT_SIZE) then (- EMSGSIZE, None)
    else
      let report :=
        WireQuality (_linkg_switch_wire_decode_loss b LINKG_SWITCH_WIRE_QUALITY_WIFI_UPLINK_OFFSET)
          (_linkg_switch_wire_decode_loss b LINKG_SWITCH_WIRE_QUALITY_WIFI_DOWNLINK_LOAD_OFFSET)
          (_linkg_switch_wire_decode_loss b LINKG_SWITCH_WIRE_QUALITY_CELLULAR_UPLINK_OFFSET)
          (_linkg_switch_wire_decode_loss b LINKG_SWITCH_WIRE_QUALITY_CELLULAR_DOWNLINK_LOAD_OFFSET)
          (decode_class_losses b LINKG_SWITCH_WIRE_QUALITY_WIFI_UPLINK_CLASSES_OFFSET) (decode_class_losses b LINKG_SWITCH_WIRE_QUALITY_CELLULAR_UPLINK_CLASSES_OFFSET)
          (_linkg_switch_wire_decode_hcc b)
          (decode_class_losses b LINKG_SWITCH_WIRE_QUALITY_WIFI_DOWNLINK_LOAD_CLASSES_OFFSET)
          (decode_class_losses b LINKG_SWITCH_WIRE_QUALITY_CELLULAR_DOWNLINK_LOAD_CLASSES_OFFSET) in
      if negb (_linkg_switch_wire_quality_valid report) then (- EINVAL, None) else (0, Some (QualityReport report))
  else if type =? LINKG_SWITCH_WIRE_TYPE_PLAN_SYNC then
    if negb (length =? LINKG_SWITCH_WIRE_PLAN_SYNC_SIZE) then (- EMSGSIZE, None)
    else if existsb (fun class_index =>
              negb (byte_at b (LINKG_SWITCH_WIRE_PLAN_SYNC_RESERVED_OFFSET + class_index * LINKG_SWITCH_WIRE_CLASS_PLAN_SIZE) =? 0)) wire_classes
    then (- EINVAL, None)
    else
      let plan := WirePlan (decode_class_plan b <$> wire_classes) in
      let ret := _linkg_switch_wire_validate_plan (Some plan) in
      if negb (ret =? 0) then (ret, None) else (0, Some (PlanSync plan))
  else if type =? LINKG_SWITCH_WIRE_TYPE_PLAN_ACK then
    if negb (length =? LINKG_SWITCH_WIRE_PLAN_ACK_SIZE) then (- EMSGSIZE, None)
    else
      let status := _linkg_switch_wire_decode_s32 (_linkg_switch_wire_read_u32 b LINKG_SWITCH_WIRE_PLAN_ACK_STATUS_OFFSET) in
      if 0 <? status then (- EINVAL, None) else (0, Some (PlanAck (WirePlanAck status)))
  else if type =? LINKG_SWITCH_WIRE_TYPE_MAINTENANCE then
    if negb (length =? LINKG_SWITCH_WIRE_MAINTENANCE_SIZE) then (- EMSGSIZE, None)
    else if negb (byte_at b LINKG_SWITCH_WIRE_MAINTENANCE_RESERVED0_OFFSET =? 0) || negb (byte_at b LINKG_SWITCH_WIRE_MAINTENANCE_RESERVED1_OFFSET =? 0)
    then (- EINVAL, None)
    else
      let m := WireMaintenance (byte_at b LINKG_SWITCH_WIRE_MAINTENANCE_ACCESS_OFFSET) (byte_at b LINKG_SWITCH_WIRE_MAINTENANCE_PHASE_OFFSET) in
      let ret := _linkg_switch_wire_validate_maintenance (Some m) in
      if negb (ret =? 0) then (ret, None) else (0, Some (Maintenance m))
  else if type =? LINKG_SWITCH_WIRE_TYPE_MAINTENANCE_ACK then
    if negb (length =? LINKG_SWITCH_WIRE_MAINTENANCE_ACK_SIZE) then (- EMSGSIZE, None)
    else if negb (byte_at b LINKG_SWITCH_WIRE_MAINTENANCE_ACK_RESERVED0_OFFSET =? 0) || negb (byte_at b LINKG_SWITCH_WIRE_MAINTENANCE_ACK_RESERVED1_OFFSET =? 0) ||
            negb (byte_at b LINKG_SWITCH_WIRE_MAINTENANCE_ACK_RESERVED2_OFFSET =? 0)
    then (- EINVAL, None)
    else
      let a := WireMaintenanceAck (byte_at b LINKG_SWITCH_WIRE_MAINTENANCE_ACK_ACCESS_OFFSET) in
      let ret := _linkg_switch_wire_validate_maintenance_ack (Some a) in
      if negb (ret =? 0) then (ret, None) else (0, Some (MaintenanceAck a))
  else (- EPROTONOSUPPORT, None).

Definition linkg_switch_wire_decode (buffer : option (list Z)) (length : Z) : Z * option linkg_switch_wire_message :=
  let '(ret, h) := _linkg_switch_wire_decode_header buffer length in
  match h with
  | None => (ret, None)
  | Some header =>
      let '(ret, payload) := decode_payload (default [] buffer) length (wh_type header) in
      match payload with
      | None => (ret, None)
      | Some p => (0, Some (WireMessage header p))
      end
  end.
