(* ===== verification/SwitchWireCodec.v ===== *)
(** * Link switching: the codec is a bijection

    Encoding writes exactly the bytes of the message, whatever the buffer held,
    and decoding gives the message back; conversely every message the decoder
    accepts is the encoding of what it returns. The buffers are seen as lists of
    four-byte blocks, since every field of a message is one or is inside one. *)

From S2P Require Import Prelude.
From S2P Require Import Bytes.
From S2P Require Import TransportTypes.
From S2P Require Import SwitchWire.

(** ** Words *)

Lemma lor_shiftl x y n : 0 <= n -> 0 <= y < 2 ^ n -> Z.lor (Z.shiftl x n) y = x * 2 ^ n + y.
Proof.
  intros Hn Hy. rewrite <- (Z.shiftl_mul_pow2 x n) by done. rewrite <- Z.add_nocarry_lor; [done|].
  apply Z.bits_inj'. intros i Hi. rewrite Z.land_spec, Z.bits_0.
  destruct (Z.ltb_spec i n) as [Hlt|Hge]; [by rewrite Z.shiftl_spec_low|].
  rewrite <- (Z.mod_small y (2 ^ n)) by done. by rewrite Z.mod_pow2_bits_high, andb_false_r by lia.
Qed.

(** The bytes of a word, and the word of four bytes, as the code computes them. *)
Definition word_bytes (v : Z) : list Z := [u8 (Z.shiftr v 24); u8 (Z.shiftr v 16); u8 (Z.shiftr v 8); u8 v].
Definition word_value (a b c d : Z) : Z := Z.lor (Z.lor (Z.lor (Z.shiftl a 24) (Z.shiftl b 16)) (Z.shiftl c 8)) d.

Lemma word_value_sum a b c d : byte_ok a -> byte_ok b -> byte_ok c -> byte_ok d ->
  word_value a b c d = a * 2 ^ 24 + b * 2 ^ 16 + c * 2 ^ 8 + d.
Proof.
  unfold byte_ok, word_value. intros Ha Hb Hc Hd.
  assert (Z.lor (Z.shiftl a 24) (Z.shiftl b 16) = Z.shiftl (a * 2 ^ 8 + b) 16) as ->.
  { rewrite lor_shiftl by (rewrite ?Z.shiftl_mul_pow2; lia). rewrite !Z.shiftl_mul_pow2 by lia. lia. }
  assert (Z.lor (Z.shiftl (a * 2 ^ 8 + b) 16) (Z.shiftl c 8) = Z.shiftl ((a * 2 ^ 8 + b) * 2 ^ 8 + c) 8) as ->.
  { rewrite lor_shiftl by (rewrite ?Z.shiftl_mul_pow2; lia). rewrite !Z.shiftl_mul_pow2 by lia. lia. }
  rewrite lor_shiftl by lia. lia.
Qed.

Lemma byte_ok_wrap v : byte_ok (u8 v).
Proof. unfold byte_ok. pose proof (wrap_range 8 v). unfold in_range in *. lia. Qed.

Lemma word_value_bytes v : in_range 32 v ->
  word_value (u8 (Z.shiftr v 24)) (u8 (Z.shiftr v 16)) (u8 (Z.shiftr v 8)) (u8 v) = v.
Proof.
  intros Hv. rewrite word_value_sum by apply byte_ok_wrap. rewrite !Z.shiftr_div_pow2 by lia.
  widths. change (2 ^ 24) with 16777216. Z.div_mod_to_equations. lia.
Qed.

Lemma word_bytes_value a b c d : byte_ok a -> byte_ok b -> byte_ok c -> byte_ok d -> word_bytes (word_value a b c d) = [a; b; c; d].
Proof.
  intros Ha Hb Hc Hd. unfold word_bytes. rewrite word_value_sum by done. unfold byte_ok in *.
  rewrite !Z.shiftr_div_pow2 by lia. widths. change (2 ^ 24) with 16777216.
  repeat f_equal; Z.div_mod_to_equations; lia.
Qed.

Lemma word_value_range a b c d : byte_ok a -> byte_ok b -> byte_ok c -> byte_ok d -> in_range 32 (word_value a b c d).
Proof. intros Ha Hb Hc Hd. rewrite word_value_sum by done. unfold byte_ok in *. widths. lia. Qed.

(** A word of a buffer, from the four bytes there. *)
Lemma read_word b off v : 0 <= off -> in_range 32 v -> take 4 (drop (Z.to_nat off) b) = word_bytes v ->
  _linkg_switch_wire_read_u32 b off = v.
Proof.
  intros Hoff Hv E. rewrite <- (word_value_bytes v Hv).
  assert (forall d, 0 <= d < 4 -> byte_at b (off + d) = default 0 (word_bytes v !! Z.to_nat d)) as H.
  { intros d Hd. unfold byte_at. rewrite Z2Nat.inj_add, <- lookup_drop, <- E, lookup_take_lt by lia. done. }
  unfold _linkg_switch_wire_read_u32. rewrite <- (Z.add_0_r off) at 1.
  rewrite (H 0 ltac:(lia)), (H 1 ltac:(lia)), (H 2 ltac:(lia)), (H 3 ltac:(lia)). done.
Qed.

(** The bytes of a word of a buffer, and its range. *)
Lemma word_read b off : 0 <= off -> (Z.to_nat off + 4 <= length b)%nat -> Forall byte_ok b ->
  word_bytes (_linkg_switch_wire_read_u32 b off) = take 4 (drop (Z.to_nat off) b) /\ in_range 32 (_linkg_switch_wire_read_u32 b off).
Proof.
  intros Hoff Hl Hb. unfold _linkg_switch_wire_read_u32, byte_at.
  rewrite !Z2Nat.inj_add by lia. change (Z.to_nat 1) with 1%nat. change (Z.to_nat 2) with 2%nat. change (Z.to_nat 3) with 3%nat.
  rewrite <- (Nat.add_0_r (Z.to_nat off)) at 1 6. rewrite <- !lookup_drop.
  pose proof (Forall_drop _ (Z.to_nat off) _ Hb) as Hd. assert (4 <= length (drop (Z.to_nat off) b))%nat as Hn by (rewrite length_drop; lia).
  destruct (drop (Z.to_nat off) b) as [|x [|y [|z [|w l]]]]; cbn in Hn; try lia. rewrite !Forall_cons in Hd. destruct Hd as (?&?&?&?&_).
  split; [by apply word_bytes_value|by apply word_value_range].
Qed.

(** ** The format

    The reference: the bytes of each message, in order. *)

Definition loss_bytes (l : linkg_switch_wire_loss) : list Z := word_bytes (lo_lost_packets l) ++ word_bytes (lo_sample_packets l).

Definition hcc_bytes (h : linkg_switch_wire_hcc) : list Z :=
  word_bytes (hc_vo_queue_length h) ++ word_bytes (hc_vi_queue_length h) ++ word_bytes (hc_be_queue_length h) ++
  word_bytes (hc_flowctrl_off_count h) ++ word_bytes (hc_flags h).

Definition class_plan_bytes (c : linkg_switch_wire_class_send_plan) : list Z :=
  [u8 (wp_mode c); u8 (wp_primary_access c); u8 (wp_secondary_access c); 0].

Definition payload_bytes (p : linkg_switch_wire_payload) : list Z :=
  match p with
  | QualityReport r =>
      loss_bytes (qr_wifi_uplink r) ++ loss_bytes (qr_wifi_downlink_load r) ++
      loss_bytes (qr_cellular_uplink r) ++ loss_bytes (qr_cellular_downlink_load r) ++
      (qr_wifi_uplink_classes r ≫= loss_bytes) ++ (qr_cellular_uplink_classes r ≫= loss_bytes) ++
      hcc_bytes (qr_wifi_downlink_hcc r) ++
      (qr_wifi_downlink_load_classes r ≫= loss_bytes) ++ (qr_cellular_downlink_load_classes r ≫= loss_bytes)
  | PlanSync p => wp_classes p ≫= class_plan_bytes
  | PlanAck a => word_bytes (u32 (wa_status a))
  | Maintenance m => [u8 (wm_access m); u8 (wm_phase m); 0; 0]
  | MaintenanceAck a => [u8 (wk_access a); 0; 0; 0]
  end.

Definition payload_type (p : linkg_switch_wire_payload) : Z :=
  match p with
  | QualityReport _ => LINKG_SWITCH_WIRE_TYPE_QUALITY_REPORT
  | PlanSync _ => LINKG_SWITCH_WIRE_TYPE_PLAN_SYNC
  | PlanAck _ => LINKG_SWITCH_WIRE_TYPE_PLAN_ACK
  | Maintenance _ => LINKG_SWITCH_WIRE_TYPE_MAINTENANCE
  | MaintenanceAck _ => LINKG_SWITCH_WIRE_TYPE_MAINTENANCE_ACK
  end.

Definition payload_size (p : linkg_switch_wire_payload) : Z :=
  match p with
  | QualityReport _ => LINKG_SWITCH_WIRE_QUALITY_REPORT_SIZE
  | PlanSync _ => LINKG_SWITCH_WIRE_PLAN_SYNC_SIZE
  | PlanAck _ => LINKG_SWITCH_WIRE_PLAN_ACK_SIZE
  | Maintenance _ => LINKG_SWITCH_WIRE_MAINTENANCE_SIZE
  | MaintenanceAck _ => LINKG_SWITCH_WIRE_MAINTENANCE_ACK_SIZE
  end.

Definition header_bytes (type size message_id : Z) : list Z := [1; u8 type; size / 256; size mod 256] ++ word_bytes message_id.

Definition message_bytes (message_id : Z) (p : linkg_switch_wire_payload) : list Z :=
  header_bytes (payload_type p) (payload_size p) message_id ++ payload_bytes p.

(** The arrays have their length and the fields the range of their C type. *)
Definition loss_typed (l : linkg_switch_wire_loss) : Prop := in_range 32 (lo_lost_packets l) /\ in_range 32 (lo_sample_packets l).
Definition losses_typed (l : list linkg_switch_wire_loss) : Prop := length l = 3%nat /\ Forall loss_typed l.
Definition hcc_typed (h : linkg_switch_wire_hcc) : Prop :=
  in_range 32 (hc_vo_queue_length h) /\ in_range 32 (hc_vi_queue_length h) /\ in_range 32 (hc_be_queue_length h) /\
  in_range 32 (hc_flowctrl_off_count h) /\ in_range 32 (hc_flags h).

Definition payload_typed (p : linkg_switch_wire_payload) : Prop :=
  match p with
  | QualityReport r =>
      loss_typed (qr_wifi_uplink r) /\ loss_typed (qr_wifi_downlink_load r) /\
      loss_typed (qr_cellular_uplink r) /\ loss_typed (qr_cellular_downlink_load r) /\
      losses_typed (qr_wifi_uplink_classes r) /\ losses_typed (qr_cellular_uplink_classes r) /\
      hcc_typed (qr_wifi_downlink_hcc r) /\
      losses_typed (qr_wifi_downlink_load_classes r) /\ losses_typed (qr_cellular_downlink_load_classes r)
  | PlanSync p => length (wp_classes p) = 3%nat
  | PlanAck a => - 2 ^ 31 <= wa_status a < 2 ^ 31
  | _ => True
  end.

(** What the encoders and the decoder accept. *)
Definition payload_valid (p : linkg_switch_wire_payload) : bool :=
  match p with
  | QualityReport r => _linkg_switch_wire_quality_valid r
  | PlanSync p => _linkg_switch_wire_validate_plan (Some p) =? 0
  | PlanAck a => wa_status a <=? 0
  | Maintenance m => _linkg_switch_wire_validate_maintenance (Some m) =? 0
  | MaintenanceAck a => _linkg_switch_wire_validate_maintenance_ack (Some a) =? 0
  end.

(** The encoder of the type of the payload. *)
Definition encode_payload (message_id : Z) (p : linkg_switch_wire_payload) (buffer : list Z) : encoded :=
  let capacity := Z.of_nat (length buffer) in
  match p with
  | QualityReport r => linkg_switch_wire_encode_quality_report message_id (Some r) (Some buffer) capacity false
  | PlanSync p => linkg_switch_wire_encode_plan_sync message_id (Some p) (Some buffer) capacity false
  | PlanAck a => linkg_switch_wire_encode_plan_ack message_id (Some a) (Some buffer) capacity false
  | Maintenance m => linkg_switch_wire_encode_maintenance message_id (Some m) (Some buffer) capacity false
  | MaintenanceAck a => linkg_switch_wire_encode_maintenance_ack message_id (Some a) (Some buffer) capacity false
  end.

(** ** Buffers, cell by cell *)

(** The first [n] cells of a buffer, as a function of the index. *)
Lemma cells n (l : list Z) : (n <= length l)%nat ->
  exists f, l = (f <$> seq 0 n) ++ drop n l /\ (Forall byte_ok l -> forall i, byte_ok (f i)).
Proof.
  intros Hn. exists (fun i => default 0 (l !! i)). split.
  - rewrite <- (take_drop n l) at 1. f_equal. apply list_eq. intros i. rewrite list_lookup_fmap.
    destruct (decide (i < n)%nat) as [Hi|Hi].
    + rewrite lookup_take_lt, lookup_seq_lt by lia. cbn. by destruct (lookup_lt_is_Some_2 l i ltac:(lia)) as [x ->].
    + rewrite lookup_take_ge, lookup_seq_ge by lia. done.
  - intros Hb i. destruct (l !! i) as [x|] eqn:E; cbn; [by eapply Forall_lookup_1|unfold byte_ok; lia].
Qed.

Lemma cells_all (l : list Z) : exists f, l = f <$> seq 0 (length l).
Proof. destruct (cells (length l) l) as (f&E&_); [done|]. exists f. by rewrite drop_ge, app_nil_r in E by done. Qed.

(** A class list, class by class. *)
Lemma three {A} (l : list A) : length l = 3%nat -> exists x y z, l = [x; y; z].
Proof. destruct l as [|x [|y [|z [|]]]]; cbn; intros; try lia. by exists x, y, z. Qed.

Lemma first_code_cases {A} (f : A -> Z) l : (forall x, f x = 0 \/ f x = - EINVAL) ->
  first_code f l = if first_code f l =? 0 then 0 else - EINVAL.
Proof.
  intros H. unfold first_code.
  enough (forall r, r = 0 \/ r = - EINVAL -> let r' := foldl (fun ret x => if ret =? 0 then f x else ret) r l in r' = 0 \/ r' = - EINVAL) as E.
  { destruct (E 0) as [->| ->]; auto. }
  induction l as [|x l IH]; intros r Hr; [exact Hr|]. cbn. apply IH. destruct Hr as [->| ->]; [apply H|by right].
Qed.

Lemma validate_class_plan_cases c : _linkg_switch_wire_validate_class_plan c = 0 \/ _linkg_switch_wire_validate_class_plan c = - EINVAL.
Proof. unfold _linkg_switch_wire_validate_class_plan. repeat case_match; auto. Qed.

Lemma validate_plan_cases p : _linkg_switch_wire_validate_plan (Some p) = if _linkg_switch_wire_validate_plan (Some p) =? 0 then 0 else - EINVAL.
Proof. apply first_code_cases, validate_class_plan_cases. Qed.

(** The header, on a buffer of any contents. *)
Lemma encode_header_spec b type size id cap : 0 < type < 6 -> 8 <= size < 65536 -> (8 <= length b)%nat ->
  _linkg_switch_wire_encode_header type size id (Some b) cap =
  if id =? 0 then (- EINVAL, Some b)
  else if cap <? size then (- ENOSPC, Some b)
  else (0, Some (header_bytes type size id ++ drop 8 b)).
Proof.
  intros Ht Hs Hl. destruct (cells _ _ Hl) as (f&E&_). unfold _linkg_switch_wire_encode_header.
  assert (_linkg_switch_wire_type_valid type = true) as ->.
  { unfold _linkg_switch_wire_type_valid, LINKG_SWITCH_WIRE_TYPE_NONE, LINKG_SWITCH_WIRE_TYPE_COUNT. lia. }
  cbn [negb orb]. unfold LINKG_SWITCH_WIRE_MESSAGE_ID_INVALID. destruct (id =? 0); [done|]. destruct (cap <? size); [done|].
  assert (u8 size = size mod 256) as Es by (by widths).
  assert (u8 (Z.shiftr size 8) = size / 256) as Es'.
  { rewrite Z.shiftr_div_pow2 by lia. widths. apply Z.mod_small. split; [apply Z.div_pos; lia|apply Z.div_lt_upper_bound; lia]. }
  rewrite E at 1. generalize (drop 8 b) as rest. intros rest. unfold header_bytes, word_bytes. rewrite <- Es, <- Es'. done.
Qed.


(** The bodies, after the header. *)
Lemma encode_payload_spec id p buffer : payload_typed p -> (Z.to_nat (payload_size p) <= length buffer)%nat ->
  payload_valid p = true -> (id =? 0) = false ->
  encode_payload id p buffer = (0, payload_size p, Some (message_bytes id p ++ drop (Z.to_nat (payload_size p)) buffer)).
Proof.
  intros Ht Hl Hv Hid. unfold encode_payload.
  assert (8 <= Z.to_nat (payload_size p))%nat as H8 by (destruct p; vm_compute; lia).
  assert ((Z.of_nat (length buffer) <? payload_size p) = false) as Hcap by lia.
  destruct (cells (Z.to_nat (payload_size p) - 8) (drop 8 buffer)) as (f&E&_); [rewrite length_drop; lia|].
  rewrite drop_drop in E. replace (8 + (Z.to_nat (payload_size p) - 8))%nat with (Z.to_nat (payload_size p)) in E by lia.
  revert Hcap. generalize (Z.of_nat (length buffer)) as cap. intros cap Hcap.
  generalize dependent (drop (Z.to_nat (payload_size p)) buffer). intros rest E. unfold message_bytes.
  destruct p as [r|p|a|m|a]; cbn [payload_size payload_typed payload_valid payload_type] in *.
  - unfold linkg_switch_wire_encode_quality_report. rewrite Hv. cbn [negb].
    rewrite encode_header_spec by (done || lia). rewrite Hid, Hcap, E. cbn [negb Z.eqb].
    destruct r as [r1 r2 r3 r4 r5 r6 r7 r8 r9]; cbn in Ht. destruct Ht as (_&_&_&_&[H5 _]&[H6 _]&_&[H8' _]&[H9 _]).
    apply three in H5 as (?&?&?&->), H6 as (?&?&?&->), H8' as (?&?&?&->), H9 as (?&?&?&->).
    reflexivity.
  - unfold linkg_switch_wire_encode_plan_sync. apply Z.eqb_eq in Hv. rewrite Hv. cbn [negb Z.eqb].
    rewrite encode_header_spec by (done || lia). rewrite Hid, Hcap, E. cbn [negb Z.eqb].
    destruct p as [cs]; cbn in Ht. apply three in Ht as (?&?&?&->). reflexivity.
  - unfold linkg_switch_wire_encode_plan_ack. assert ((0 <? wa_status a) = false) as -> by lia.
    rewrite encode_header_spec by (done || lia). rewrite Hid, Hcap, E. reflexivity.
  - unfold linkg_switch_wire_encode_maintenance. apply Z.eqb_eq in Hv. rewrite Hv. cbn [negb Z.eqb].
    rewrite encode_header_spec by (done || lia). rewrite Hid, Hcap, E. reflexivity.
  - unfold linkg_switch_wire_encode_maintenance_ack. apply Z.eqb_eq in Hv. rewrite Hv. cbn [negb Z.eqb].
    rewrite encode_header_spec by (done || lia). rewrite Hid, Hcap, E. reflexivity.
Qed.

(** The errors: the buffer is as it was. *)
Lemma encode_payload_error id p buffer :
  let size := payload_size p in
  payload_valid p && negb (id =? 0) && (size <=? Z.of_nat (length buffer)) = false ->
  encode_payload id p buffer =
  (if payload_valid p && negb (id =? 0) then - ENOSPC else - EINVAL, 0, Some buffer).
Proof.
  intros size H. unfold encode_payload. subst size.
  assert (forall type size, _linkg_switch_wire_type_valid type = true ->
    negb (id =? 0) && (size <=? Z.of_nat (length buffer)) = false ->
    _linkg_switch_wire_encode_header type size id (Some buffer) (Z.of_nat (length buffer)) =
    (if negb (id =? 0) then - ENOSPC else - EINVAL, Some buffer)) as Hh.
  { intros type size Ht Hn. unfold _linkg_switch_wire_encode_header. rewrite Ht. cbn [negb orb].
    unfold LINKG_SWITCH_WIRE_MESSAGE_ID_INVALID. destruct (id =? 0); [done|]. cbn in Hn |- *.
    by assert ((Z.of_nat (length buffer) <? size) = true) as -> by lia. }
  destruct p as [r|p|a|m|a]; cbn [payload_size payload_valid] in *.
  - unfold linkg_switch_wire_encode_quality_report. destruct (_linkg_switch_wire_quality_valid r); [|done].
    cbn [negb andb] in *. rewrite Hh by done. by destruct (id =? 0).
  - unfold linkg_switch_wire_encode_plan_sync. rewrite validate_plan_cases.
    destruct (_linkg_switch_wire_validate_plan (Some p) =? 0); [|done]. cbn [negb andb Z.eqb] in *. rewrite Hh by done. by destruct (id =? 0).
  - unfold linkg_switch_wire_encode_plan_ack. assert ((wa_status a <=? 0) = negb (0 <? wa_status a)) as Ha by lia. rewrite Ha in H |- *. destruct (0 <? wa_status a); [done|].
    cbn [negb andb] in *. rewrite Hh by done. by destruct (id =? 0).
  - unfold linkg_switch_wire_encode_maintenance. destruct (_linkg_switch_wire_validate_maintenance (Some m) =? 0) eqn:Hv.
    + cbn [negb andb] in *. rewrite Hh by done. by destruct (id =? 0).
    + revert Hv. cbn. by repeat case_match.
  - unfold linkg_switch_wire_encode_maintenance_ack. destruct (_linkg_switch_wire_validate_maintenance_ack (Some a) =? 0) eqn:Hv.
    + cbn [negb andb] in *. rewrite Hh by done. by destruct (id =? 0).
    + revert Hv. cbn. by repeat case_match.
Qed.

(** ** Decoding *)

Lemma length_message_bytes id p : payload_typed p -> Z.of_nat (length (message_bytes id p)) = payload_size p.
Proof.
  intros Ht. destruct p as [r|p|a|m|a]; [| |done..].
  - destruct r as [r1 r2 r3 r4 r5 r6 r7 r8 r9]; cbn in Ht. destruct Ht as (_&_&_&_&[H5 _]&[H6 _]&_&[H8 _]&[H9 _]).
    apply three in H5 as (?&?&?&->), H6 as (?&?&?&->), H8 as (?&?&?&->), H9 as (?&?&?&->). done.
  - destruct p as [cs]. cbn in Ht. by apply three in Ht as (?&?&?&->).
Qed.

Lemma read_loss b off l : 0 <= off -> loss_typed l -> take 8 (drop (Z.to_nat off) b) = loss_bytes l ->
  _linkg_switch_wire_decode_loss b off = l.
Proof.
  intros Hoff [H1 H2] E. destruct l as [lost sample]. unfold _linkg_switch_wire_decode_loss. cbn in H1, H2.
  rewrite (read_word b off lost), (read_word b (off + 4) sample); [done|lia|done| |done|done|].
  - rewrite Z2Nat.inj_add, <- drop_drop, take_drop_commute by lia. change (Z.to_nat 4 + 4)%nat with 8%nat. by rewrite E.
  - change 4%nat with (4 `min` 8)%nat. by rewrite <- take_take, E.
Qed.

Lemma decode_header_spec type size id p rest : 0 < type < 6 -> 8 <= size < 65536 -> in_range 32 id -> id <> 0 ->
  _linkg_switch_wire_decode_header (Some (header_bytes type size id ++ p ++ rest)) size = (0, Some (WireHeader 1 type size id)).
Proof.
  intros Ht Hs Hid Hnz. unfold _linkg_switch_wire_decode_header, LINKG_SWITCH_WIRE_HEADER_SIZE.
  assert ((size <? 8) || (2 ^ 16 - 1 <? size) = false) as -> by lia.
  assert (u8 type = type) as Ety by (widths; apply Z.mod_small; lia).
  change (byte_at _ LINKG_SWITCH_WIRE_HEADER_VERSION_OFFSET) with 1. change (byte_at _ LINKG_SWITCH_WIRE_HEADER_TYPE_OFFSET) with (u8 type). rewrite Ety.
  assert ((type <=? LINKG_SWITCH_WIRE_TYPE_NONE) || (LINKG_SWITCH_WIRE_TYPE_COUNT <=? type) = false) as ->
    by (unfold LINKG_SWITCH_WIRE_TYPE_NONE, LINKG_SWITCH_WIRE_TYPE_COUNT; lia).
  rewrite (read_word _ LINKG_SWITCH_WIRE_HEADER_MESSAGE_ID_OFFSET id) by done.
  assert (_linkg_switch_wire_read_u16 (header_bytes type size id ++ p ++ rest) LINKG_SWITCH_WIRE_HEADER_LENGTH_OFFSET = size) as ->.
  { unfold _linkg_switch_wire_read_u16. change (byte_at _ LINKG_SWITCH_WIRE_HEADER_LENGTH_OFFSET) with (size / 256).
    change (byte_at _ (LINKG_SWITCH_WIRE_HEADER_LENGTH_OFFSET + 1)) with (size mod 256).
    rewrite lor_shiftl by (try apply Z.mod_pos_bound; lia). widths. rewrite Z.mod_small; Z.div_mod_to_equations; lia. }
  unfold LINKG_SWITCH_WIRE_MESSAGE_ID_INVALID. assert ((id =? 0) = false) as -> by lia. cbn. by rewrite Z.eqb_refl.
Qed.

Lemma decode_quality_spec id r : payload_typed (QualityReport r) -> payload_valid (QualityReport r) = true ->
  decode_payload (message_bytes id (QualityReport r)) LINKG_SWITCH_WIRE_QUALITY_REPORT_SIZE LINKG_SWITCH_WIRE_TYPE_QUALITY_REPORT =
  (0, Some (QualityReport r)).
Proof.
  intros Ht Hv. destruct r as [r1 r2 r3 r4 r5 r6 [vo vi be off flags] r8 r9]; cbn in Ht.
  destruct Ht as (H1&H2&H3&H4&[H5 F5]&[H6 F6]&(G1&G2&G3&G4&G5)&[H8 F8]&[H9 F9]).
  apply three in H5 as (x1&x2&x3&->), H6 as (y1&y2&y3&->), H8 as (z1&z2&z3&->), H9 as (w1&w2&w3&->).
  rewrite !Forall_cons in F5, F6, F8, F9. destruct F5 as (?&?&?&_), F6 as (?&?&?&_), F8 as (?&?&?&_), F9 as (?&?&?&_).
  unfold decode_payload. cbn [Z.eqb negb]. unfold decode_class_losses, _linkg_switch_wire_decode_hcc.
  change wire_classes with [0; 1; 2]. cbn [fmap list_fmap].
  rewrite (read_loss _ _ r1), (read_loss _ _ r2), (read_loss _ _ r3), (read_loss _ _ r4),
    (read_loss _ _ x1), (read_loss _ _ x2), (read_loss _ _ x3), (read_loss _ _ y1), (read_loss _ _ y2), (read_loss _ _ y3),
    (read_loss _ _ z1), (read_loss _ _ z2), (read_loss _ _ z3), (read_loss _ _ w1), (read_loss _ _ w2), (read_loss _ _ w3),
    (read_word _ _ vo), (read_word _ _ vi), (read_word _ _ be), (read_word _ _ off), (read_word _ _ flags) by (done || reflexivity).
  cbn [payload_valid] in Hv. by rewrite Hv.
Qed.

Lemma decode_s32_u32 v : - 2 ^ 31 <= v < 2 ^ 31 -> _linkg_switch_wire_decode_s32 (u32 v) = v.
Proof.
  intros Hv. unfold _linkg_switch_wire_decode_s32. widths. destruct (decide (0 <= v)).
  - rewrite Z.mod_small by lia. case_match; lia.
  - assert (v mod 4294967296 = v + 4294967296) as -> by (rewrite <- (Z.mod_add v 1) by lia; apply Z.mod_small; lia).
    case_match; lia.
Qed.

Lemma class_plan_small c : _linkg_switch_wire_validate_class_plan c = 0 ->
  0 <= wp_mode c < 3 /\ 0 <= wp_primary_access c < 3 /\ 0 <= wp_secondary_access c < 3.
Proof.
  unfold _linkg_switch_wire_validate_class_plan, _linkg_switch_wire_mode_valid, _linkg_switch_wire_access_valid,
    LINKG_SWITCH_WIRE_MODE_NONE, LINKG_SWITCH_WIRE_MODE_COUNT, LINKG_SWITCH_WIRE_ACCESS_NONE, LINKG_SWITCH_WIRE_ACCESS_COUNT, EINVAL.
  repeat case_match; intros; lia.
Qed.

Lemma first_code_all {A} (f : A -> Z) l : first_code f l = 0 -> Forall (fun x => f x = 0) l.
Proof.
  unfold first_code. enough (forall r, foldl (fun ret x => if ret =? 0 then f x else ret) r l = 0 -> r = 0 /\ Forall (fun x => f x = 0) l) as H.
  { intros E. by apply (H 0). }
  induction l as [|x l IH]; intros r E; [done|]. cbn in E. apply IH in E as [E Hl].
  destruct (r =? 0) eqn:Hr; [|lia]. split; [lia|by constructor].
Qed.

Lemma class_plan_bytes_small c : _linkg_switch_wire_validate_class_plan c = 0 ->
  class_plan_bytes c = [wp_mode c; wp_primary_access c; wp_secondary_access c; 0].
Proof. intros H. apply class_plan_small in H. unfold class_plan_bytes. widths. by rewrite !Z.mod_small by lia. Qed.

Lemma maintenance_small a ph : payload_valid (Maintenance (WireMaintenance a ph)) = true -> (a = 1 \/ a = 2) /\ (ph = 1 \/ ph = 2).
Proof.
  cbn. unfold _linkg_switch_wire_access_valid, _linkg_switch_wire_maintenance_phase_valid, LINKG_SWITCH_WIRE_ACCESS_NONE,
    LINKG_SWITCH_WIRE_ACCESS_COUNT, LINKG_SWITCH_WIRE_MAINTENANCE_PHASE_NONE, LINKG_SWITCH_WIRE_MAINTENANCE_PHASE_COUNT, EINVAL.
  repeat case_match; lia.
Qed.

Lemma maintenance_ack_small a : payload_valid (MaintenanceAck (WireMaintenanceAck a)) = true -> a = 1 \/ a = 2.
Proof.
  cbn. unfold _linkg_switch_wire_access_valid, LINKG_SWITCH_WIRE_ACCESS_NONE, LINKG_SWITCH_WIRE_ACCESS_COUNT, EINVAL.
  repeat case_match; lia.
Qed.

Lemma decode_payload_spec id p : payload_typed p -> payload_valid p = true ->
  decode_payload (message_bytes id p) (payload_size p) (payload_type p) = (0, Some p).
Proof.
  intros Ht Hv. destruct p as [r|p|a|m|a]; cbn [payload_type payload_size].
  - by apply decode_quality_spec.
  - destruct p as [cs]. cbn [payload_typed payload_valid wp_classes] in Ht, Hv. apply three in Ht as (x&y&z&->). apply Z.eqb_eq in Hv.
    pose proof (first_code_all _ _ Hv) as F. cbn [wp_classes] in F. rewrite !Forall_cons in F. destruct F as (Hx&Hy&Hz&_).
    unfold decode_payload. cbn [Z.eqb negb].
    assert (message_bytes id (PlanSync (WirePlan [x; y; z])) = header_bytes 2 20 id ++
      [wp_mode x; wp_primary_access x; wp_secondary_access x; 0; wp_mode y; wp_primary_access y; wp_secondary_access y; 0;
       wp_mode z; wp_primary_access z; wp_secondary_access z; 0]) as ->.
    { unfold message_bytes. cbn [payload_bytes wp_classes mbind list_bind]. by rewrite !class_plan_bytes_small. }
    change wire_classes with [0; 1; 2]. cbn [fmap list_fmap].
    case_match eqn:E; [exfalso; revert E; cbn; done|].
    cbn [Z.eqb negb] in *. unfold decode_class_plan.
    replace (WirePlan _) with (WirePlan [x; y; z]) by (destruct x, y, z; reflexivity). by rewrite Hv.
  - destruct a as [status]. cbn in Ht, Hv. unfold decode_payload. cbn [Z.eqb negb].
    rewrite (read_word _ _ (u32 status)) by (done || apply wrap_range; lia). rewrite decode_s32_u32 by done.
    by assert ((0 <? status) = false) as -> by lia.
  - destruct m as [a ph]. apply maintenance_small in Hv as [[-> | ->] [-> | ->]]; reflexivity.
  - destruct a as [a]. apply maintenance_ack_small in Hv as [-> | ->]; reflexivity.
Qed.

Lemma payload_size_range p : 0 < payload_type p < 6 /\ 8 <= payload_size p < 65536.
Proof. destruct p; vm_compute; intuition discriminate. Qed.

Lemma decode_message_bytes id p : payload_typed p -> payload_valid p = true -> in_range 32 id -> id <> 0 ->
  linkg_switch_wire_decode (Some (message_bytes id p)) (payload_size p) =
  (0, Some (WireMessage (WireHeader 1 (payload_type p) (payload_size p) id) p)).
Proof.
  intros Ht Hv Hid Hnz. unfold linkg_switch_wire_decode. destruct (payload_size_range p).
  pose proof (decode_header_spec (payload_type p) (payload_size p) id (payload_bytes p) []) as E. rewrite app_nil_r in E.
  unfold message_bytes at 1. rewrite E by done. change (default [] (Some (message_bytes id p))) with (message_bytes id p).
  change (wh_type _) with (payload_type p). by rewrite decode_payload_spec.
Qed.

(** ** Canonical messages *)

(** Every word read is in range and gives its bytes back. *)
Lemma loss_read b off : 0 <= off -> (Z.to_nat off + 8 <= length b)%nat -> Forall byte_ok b ->
  loss_bytes (_linkg_switch_wire_decode_loss b off) = take 8 (drop (Z.to_nat off) b) /\ loss_typed (_linkg_switch_wire_decode_loss b off).
Proof.
  intros Hoff Hl Hb. destruct (word_read b off) as [E1 R1]; [lia..|done|]. destruct (word_read b (off + 4)) as [E2 R2]; [lia..|done|].
  split; [|by split]. unfold loss_bytes, _linkg_switch_wire_decode_loss. cbn [lo_lost_packets lo_sample_packets]. rewrite E1, E2.
  rewrite Z2Nat.inj_add, <- drop_drop by lia. change (Z.to_nat 4) with 4%nat. rewrite (take_drop_commute (drop (Z.to_nat off) b) 4 4).
  rewrite <- (take_drop 4 (take 8 (drop (Z.to_nat off) b))), take_take. done.
Qed.

(** What the decoder accepts as [p]. *)
Definition canonical (b : list Z) (type : Z) (p : linkg_switch_wire_payload) : Prop :=
  b = take 8 b ++ payload_bytes p /\ payload_typed p /\ payload_valid p = true /\ type = payload_type p /\
  Z.of_nat (length b) = payload_size p.

Lemma decode_quality_canonical b p : length b = 156%nat -> Forall byte_ok b ->
  decode_payload b 156 LINKG_SWITCH_WIRE_TYPE_QUALITY_REPORT = (0, Some p) -> canonical b LINKG_SWITCH_WIRE_TYPE_QUALITY_REPORT p.
Proof.
  intros Hl Hb H. unfold decode_payload in H. cbn [Z.eqb negb] in H.
  assert (forall off, (0 <=? off) && (off <? 149) = true ->
    loss_bytes (_linkg_switch_wire_decode_loss b off) = take 8 (drop (Z.to_nat off) b)) as Hloss by (intros; apply loss_read; [lia..|done]).
  assert (forall off, (0 <=? off) && (off <? 149) = true -> loss_typed (_linkg_switch_wire_decode_loss b off)) as Tloss
    by (intros; apply loss_read; [lia..|done]).
  assert (forall off, (0 <=? off) && (off <? 153) = true ->
    word_bytes (_linkg_switch_wire_read_u32 b off) = take 4 (drop (Z.to_nat off) b)) as Hword by (intros; apply word_read; [lia..|done]).
  assert (forall off, (0 <=? off) && (off <? 153) = true -> in_range 32 (_linkg_switch_wire_read_u32 b off)) as Tword
    by (intros; apply word_read; [lia..|done]).
  match type of H with context [negb (_linkg_switch_wire_quality_valid ?r)] => destruct (negb (_linkg_switch_wire_quality_valid r)) eqn:Hq end; [done|].
  injection H as <-. apply negb_false_iff in Hq. 
  split; [|split; [|split; [exact Hq|by rewrite Hl]]].
  - cbn [payload_bytes qr_wifi_uplink qr_wifi_downlink_load qr_cellular_uplink qr_cellular_downlink_load qr_wifi_uplink_classes
      qr_cellular_uplink_classes qr_wifi_downlink_hcc qr_wifi_downlink_load_classes qr_cellular_downlink_load_classes].
    unfold decode_class_losses, hcc_bytes. change wire_classes with [0; 1; 2]. cbn [fmap list_fmap mbind list_bind].
    rewrite !Hloss by reflexivity. unfold _linkg_switch_wire_decode_hcc.
    cbn [hc_vo_queue_length hc_vi_queue_length hc_be_queue_length hc_flowctrl_off_count hc_flags]. rewrite !Hword by reflexivity.
    destruct (cells_all b) as (f&E). rewrite Hl in E. rewrite E. reflexivity.
  - unfold payload_typed, losses_typed, hcc_typed. cbn [qr_wifi_uplink qr_wifi_downlink_load qr_cellular_uplink qr_cellular_downlink_load
      qr_wifi_uplink_classes qr_cellular_uplink_classes qr_wifi_downlink_hcc qr_wifi_downlink_load_classes qr_cellular_downlink_load_classes].
    unfold decode_class_losses, _linkg_switch_wire_decode_hcc. change wire_classes with [0; 1; 2]. cbn [fmap list_fmap length].
    rewrite !Forall_cons, !Forall_nil_iff.
    cbn [hc_vo_queue_length hc_vi_queue_length hc_be_queue_length hc_flowctrl_off_count hc_flags].
    splits; match goal with |- loss_typed _ => apply Tloss | |- in_range _ _ => apply Tword | _ => idtac end; reflexivity.
Qed.

Lemma decode_s32_canonical v : in_range 32 v ->
  u32 (_linkg_switch_wire_decode_s32 v) = v /\ - 2 ^ 31 <= _linkg_switch_wire_decode_s32 v < 2 ^ 31.
Proof.
  intros Hv. unfold _linkg_switch_wire_decode_s32. widths. destruct (Z.leb_spec v (2147483648 - 1)).
  - rewrite Z.mod_small by lia. split; [done|lia].
  - split; [|lia]. rewrite <- (Z.mod_add _ 1) by lia. rewrite Z.mod_small by lia. lia.
Qed.

Lemma decode_plan_canonical b p : length b = 20%nat -> Forall byte_ok b ->
  decode_payload b 20 LINKG_SWITCH_WIRE_TYPE_PLAN_SYNC = (0, Some p) -> canonical b LINKG_SWITCH_WIRE_TYPE_PLAN_SYNC p.
Proof.
  intros Hl Hb H. unfold decode_payload in H. cbn [Z.eqb negb] in H.
  match type of H with context [if existsb ?f ?l then _ else _] => destruct (existsb f l) eqn:Hres end; [done|].
  match type of H with context [_linkg_switch_wire_validate_plan ?q] => destruct (Z.eqb_spec (_linkg_switch_wire_validate_plan q) 0) as [Hv|]; [|done] end.
  injection H as <-. change wire_classes with [0; 1; 2] in *. cbn [fmap list_fmap existsb] in *. rewrite !orb_false_iff, !negb_false_iff in Hres.
  split; [|by rewrite Hl; split; [|split; [apply Z.eqb_eq|]]].
  pose proof (first_code_all _ _ Hv) as F. cbn [wp_classes] in F. rewrite !Forall_cons in F. destruct F as (F0&F1&F2&_).
  cbn [payload_bytes wp_classes mbind list_bind]. rewrite !class_plan_bytes_small by done. clear -Hl Hres.
  destruct (cells_all b) as (f&E). rewrite Hl in E. rewrite E in *. cbv in Hres |- *.
  destruct Hres as (R1&R2&R3&_). by destruct (f 11%nat), (f 15%nat), (f 19%nat).
Qed.

(** The three messages of four bytes after the header. *)
Lemma decode_ack_canonical b p : length b = 12%nat -> Forall byte_ok b ->
  decode_payload b 12 LINKG_SWITCH_WIRE_TYPE_PLAN_ACK = (0, Some p) -> canonical b LINKG_SWITCH_WIRE_TYPE_PLAN_ACK p.
Proof.
  intros Hl Hb H. unfold decode_payload in H. cbn [Z.eqb negb] in H.
  destruct (word_read b LINKG_SWITCH_WIRE_PLAN_ACK_STATUS_OFFSET) as [E R]; [done|by rewrite Hl|done|].
  destruct (decode_s32_canonical _ R) as [Eu Rs].
  match type of H with context [0 <? ?x] => destruct (Z.ltb_spec 0 x) as [|Hs]; [done|] end. injection H as <-.
  split; [|splits; [exact Rs|apply Z.leb_le; exact Hs|done|by rewrite Hl]].
  cbn [payload_bytes wa_status]. rewrite Eu, E. rewrite <- (take_drop 8 b) at 1. f_equal.
  symmetry. apply take_ge. by rewrite length_drop, Hl.
Qed.

Lemma decode_maintenance_canonical b p : length b = 12%nat -> Forall byte_ok b ->
  decode_payload b 12 LINKG_SWITCH_WIRE_TYPE_MAINTENANCE = (0, Some p) -> canonical b LINKG_SWITCH_WIRE_TYPE_MAINTENANCE p.
Proof.
  intros Hl Hb H. unfold decode_payload in H. cbn [Z.eqb negb] in H.
  match type of H with context [if ?c || ?d then _ else _] => destruct (c || d) eqn:Hres end; [done|].
  match type of H with context [_linkg_switch_wire_validate_maintenance ?q] =>
    destruct (Z.eqb_spec (_linkg_switch_wire_validate_maintenance q) 0) as [Hv|]; [|done] end.
  injection H as <-. apply Z.eqb_eq in Hv. split; [|splits; [done|exact Hv|done|by rewrite Hl]].
  pose proof (maintenance_small _ _ Hv) as [Ha Hp]. rewrite orb_false_iff, !negb_false_iff, !Z.eqb_eq in Hres. destruct Hres as [R0 R1].
  cbn [payload_bytes wm_access wm_phase].
  assert (u8 (byte_at b LINKG_SWITCH_WIRE_MAINTENANCE_ACCESS_OFFSET) = byte_at b LINKG_SWITCH_WIRE_MAINTENANCE_ACCESS_OFFSET) as -> by (by destruct Ha as [-> | ->]).
  assert (u8 (byte_at b LINKG_SWITCH_WIRE_MAINTENANCE_PHASE_OFFSET) = byte_at b LINKG_SWITCH_WIRE_MAINTENANCE_PHASE_OFFSET) as -> by (by destruct Hp as [-> | ->]).
  transitivity (take 8 b ++ [byte_at b LINKG_SWITCH_WIRE_MAINTENANCE_ACCESS_OFFSET; byte_at b LINKG_SWITCH_WIRE_MAINTENANCE_PHASE_OFFSET;
    byte_at b LINKG_SWITCH_WIRE_MAINTENANCE_RESERVED0_OFFSET; byte_at b LINKG_SWITCH_WIRE_MAINTENANCE_RESERVED1_OFFSET]); [|f_equal; congruence].
  clear -Hl. destruct (cells_all b) as (f&E). rewrite Hl in E. rewrite E. reflexivity.
Qed.

Lemma decode_maintenance_ack_canonical b p : length b = 12%nat -> Forall byte_ok b ->
  decode_payload b 12 LINKG_SWITCH_WIRE_TYPE_MAINTENANCE_ACK = (0, Some p) -> canonical b LINKG_SWITCH_WIRE_TYPE_MAINTENANCE_ACK p.
Proof.
  intros Hl Hb H. unfold decode_payload in H. cbn [Z.eqb negb] in H.
  match type of H with context [if ?c || ?d || ?e then _ else _] => destruct (c || d || e) eqn:Hres end; [done|].
  match type of H with context [_linkg_switch_wire_validate_maintenance_ack ?q] =>
    destruct (Z.eqb_spec (_linkg_switch_wire_validate_maintenance_ack q) 0) as [Hv|]; [|done] end.
  injection H as <-. apply Z.eqb_eq in Hv. split; [|splits; [done|exact Hv|done|by rewrite Hl]].
  pose proof (maintenance_ack_small _ Hv) as Ha. rewrite !orb_false_iff, !negb_false_iff, !Z.eqb_eq in Hres. destruct Hres as [[R0 R1] R2].
  cbn [payload_bytes wk_access].
  assert (u8 (byte_at b LINKG_SWITCH_WIRE_MAINTENANCE_ACK_ACCESS_OFFSET) = byte_at b LINKG_SWITCH_WIRE_MAINTENANCE_ACK_ACCESS_OFFSET) as -> by (by destruct Ha as [-> | ->]).
  transitivity (take 8 b ++ [byte_at b LINKG_SWITCH_WIRE_MAINTENANCE_ACK_ACCESS_OFFSET; byte_at b LINKG_SWITCH_WIRE_MAINTENANCE_ACK_RESERVED0_OFFSET;
    byte_at b LINKG_SWITCH_WIRE_MAINTENANCE_ACK_RESERVED1_OFFSET; byte_at b LINKG_SWITCH_WIRE_MAINTENANCE_ACK_RESERVED2_OFFSET]); [|f_equal; congruence].
  clear -Hl.
  destruct (cells_all b) as (f&E). rewrite Hl in E. rewrite E. reflexivity.
Qed.

Lemma decode_payload_canonical b type p : Forall byte_ok b -> decode_payload b (Z.of_nat (length b)) type = (0, Some p) -> canonical b type p.
Proof.
  intros Hb H.
  assert (forall n z, Z.of_nat (length b) = z -> z = Z.of_nat n -> length b = n) as Hn by lia.
  pose proof H as H'. unfold decode_payload in H'.
  destruct (Z.eqb_spec type LINKG_SWITCH_WIRE_TYPE_QUALITY_REPORT) as [->|_].
  { destruct (Z.eqb_spec (Z.of_nat (length b)) LINKG_SWITCH_WIRE_QUALITY_REPORT_SIZE) as [E|]; [|done].
    rewrite E in H. apply decode_quality_canonical; [by eapply Hn|done|exact H]. }
  destruct (Z.eqb_spec type LINKG_SWITCH_WIRE_TYPE_PLAN_SYNC) as [->|_].
  { destruct (Z.eqb_spec (Z.of_nat (length b)) LINKG_SWITCH_WIRE_PLAN_SYNC_SIZE) as [E|]; [|done].
    rewrite E in H. apply decode_plan_canonical; [by eapply Hn|done|exact H]. }
  destruct (Z.eqb_spec type LINKG_SWITCH_WIRE_TYPE_PLAN_ACK) as [->|_].
  { destruct (Z.eqb_spec (Z.of_nat (length b)) LINKG_SWITCH_WIRE_PLAN_ACK_SIZE) as [E|]; [|done].
    rewrite E in H. apply decode_ack_canonical; [by eapply Hn|done|exact H]. }
  destruct (Z.eqb_spec type LINKG_SWITCH_WIRE_TYPE_MAINTENANCE) as [->|_].
  { destruct (Z.eqb_spec (Z.of_nat (length b)) LINKG_SWITCH_WIRE_MAINTENANCE_SIZE) as [E|]; [|done].
    rewrite E in H. apply decode_maintenance_canonical; [by eapply Hn|done|exact H]. }
  destruct (Z.eqb_spec type LINKG_SWITCH_WIRE_TYPE_MAINTENANCE_ACK) as [->|_]; [|done].
  destruct (Z.eqb_spec (Z.of_nat (length b)) LINKG_SWITCH_WIRE_MAINTENANCE_ACK_SIZE) as [E|]; [|done].
  rewrite E in H. apply decode_maintenance_ack_canonical; [by eapply Hn|done|exact H].
Qed.

Lemma decode_header_canonical b h : Forall byte_ok b ->
  _linkg_switch_wire_decode_header (Some b) (Z.of_nat (length b)) = (0, Some h) ->
  take 8 b = header_bytes (wh_type h) (Z.of_nat (length b)) (wh_message_id h) /\ wh_version h = 1 /\ wh_length h = Z.of_nat (length b) /\
  in_range 32 (wh_message_id h) /\ wh_message_id h <> 0.
Proof.
  intros Hb H. unfold _linkg_switch_wire_decode_header, LINKG_SWITCH_WIRE_HEADER_SIZE in H.
  destruct ((Z.of_nat (length b) <? 8) || (2 ^ 16 - 1 <? Z.of_nat (length b))) eqn:Hl; [done|].
  destruct (Z.eqb_spec (byte_at b LINKG_SWITCH_WIRE_HEADER_VERSION_OFFSET) LINKG_SWITCH_WIRE_VERSION) as [Ev|]; [|done].
  destruct ((byte_at b LINKG_SWITCH_WIRE_HEADER_TYPE_OFFSET <=? LINKG_SWITCH_WIRE_TYPE_NONE) || (LINKG_SWITCH_WIRE_TYPE_COUNT <=? byte_at b LINKG_SWITCH_WIRE_HEADER_TYPE_OFFSET)); [done|].
  destruct (Z.eqb_spec (_linkg_switch_wire_read_u16 b LINKG_SWITCH_WIRE_HEADER_LENGTH_OFFSET) (Z.of_nat (length b))) as [Elen|]; [|done]. cbn [negb] in H.
  destruct (Z.eqb_spec (_linkg_switch_wire_read_u32 b LINKG_SWITCH_WIRE_HEADER_MESSAGE_ID_OFFSET) LINKG_SWITCH_WIRE_MESSAGE_ID_INVALID) as [|Hnz]; [done|].
  injection H as <-. cbn [wh_type wh_message_id wh_version wh_length].
  destruct (word_read b LINKG_SWITCH_WIRE_HEADER_MESSAGE_ID_OFFSET) as [E R]; [done|change (Z.to_nat _) with 4%nat; lia|done|].
  splits; [|done..]. unfold header_bytes. rewrite E, <- Elen. clear E R Hnz.
  destruct (cells 8 b) as (f&E&Hf); [lia|]. specialize (Hf Hb). clear -Ev E Hf. rewrite E in Ev |- *. revert Ev. clear E.
  generalize (drop 8 b) as rest. intros rest Ev. unfold _linkg_switch_wire_read_u16.
  change (f 0%nat = 1) in Ev. change (byte_at _ LINKG_SWITCH_WIRE_HEADER_TYPE_OFFSET) with (f 1%nat).
  change (byte_at _ LINKG_SWITCH_WIRE_HEADER_LENGTH_OFFSET) with (f 2%nat). change (byte_at _ (LINKG_SWITCH_WIRE_HEADER_LENGTH_OFFSET + 1)) with (f 3%nat).
  pose proof (Hf 1%nat) as H1. pose proof (Hf 2%nat) as H2. pose proof (Hf 3%nat) as H3. unfold byte_ok in *.
  rewrite lor_shiftl by lia.
  assert (u8 (f 1%nat) = f 1%nat) as -> by (widths; by rewrite Z.mod_small).
  assert (u16 (f 2%nat * 2 ^ 8 + f 3%nat) = f 2%nat * 256 + f 3%nat) as -> by (widths; rewrite Z.mod_small; lia).
  rewrite Z.div_add_l, (Z.div_small (f 3%nat)), Z.add_0_r by lia.
  rewrite (Z.add_comm _ (f 3%nat)), Z.mod_add, (Z.mod_small (f 3%nat)) by lia. rewrite <- Ev at 1. reflexivity.
Qed.

Lemma decode_canonical b m : Forall byte_ok b ->
  linkg_switch_wire_decode (Some b) (Z.of_nat (length b)) = (0, Some m) ->
  let id := wh_message_id (ws_header m) in
  b = message_bytes id (ws_payload m) /\ ws_header m = WireHeader 1 (payload_type (ws_payload m)) (Z.of_nat (length b)) id /\
  payload_typed (ws_payload m) /\ payload_valid (ws_payload m) = true /\ in_range 32 id /\ id <> 0.
Proof.
  intros Hb H. unfold linkg_switch_wire_decode in H.
  destruct (_linkg_switch_wire_decode_header (Some b) (Z.of_nat (length b))) as [ret [h|]] eqn:Eh; [|done].
  assert (ret = 0) as -> by (revert Eh; unfold _linkg_switch_wire_decode_header; repeat case_match; congruence).
  apply (decode_header_canonical b h Hb) in Eh as (E8&Ev&El&Hid&Hnz). change (default [] (Some b)) with b in H.
  destruct (decode_payload b (Z.of_nat (length b)) (wh_type h)) as [ret [p|]] eqn:Ep; [|done]. injection H as <-.
  assert (ret = 0) as -> by (revert Ep; unfold decode_payload; repeat case_match; congruence).
  apply (decode_payload_canonical b _ p Hb) in Ep as (E&Ht&Hv&Ety&Es). cbn [ws_header ws_payload]. splits; [| |done..].
  - rewrite E, E8, Ety, Es. done.
  - destruct h as [ver ty len id]. cbn in *. by subst.
Qed.

(** ** Properties *)

(** What the five encoders do with a buffer of any size and contents. A valid
    payload with a message id, in a buffer that has room, writes exactly the bytes
    of the message at its start and returns their number; otherwise the buffer is
    untouched and the code says why: an invalid payload or id first, then room. *)
Theorem switch_encode_total id p buffer : payload_typed p ->
  encode_payload id p buffer =
  if payload_valid p && negb (id =? 0) && (payload_size p <=? Z.of_nat (length buffer))
  then (0, payload_size p, Some (message_bytes id p ++ drop (Z.to_nat (payload_size p)) buffer))
  else (if payload_valid p && negb (id =? 0) then - ENOSPC else - EINVAL, 0, Some buffer).
Proof.
  intros Ht. destruct (_ && _ && _) eqn:E; [|by apply encode_payload_error].
  rewrite !andb_true_iff, negb_true_iff in E. apply encode_payload_spec; [done|lia|apply E..].
Qed.

(** C18: round trip of the switching messages: what an encoder wrote, cut at the
    length it returned, decodes to the payload and the message id it was given,
    whatever the buffer held before. *)
Theorem switch_wire_roundtrip id p buffer wire_length encoded_buffer :
  payload_typed p -> in_range 32 id ->
  encode_payload id p buffer = (0, wire_length, Some encoded_buffer) ->
  linkg_switch_wire_decode (Some (take (Z.to_nat wire_length) encoded_buffer)) wire_length =
  (0, Some (WireMessage (WireHeader 1 (payload_type p) wire_length id) p)).
Proof.
  intros Ht Hid H. destruct (payload_valid p && negb (id =? 0) && (payload_size p <=? Z.of_nat (length buffer))) eqn:E.
  - rewrite !andb_true_iff, negb_true_iff in E. rewrite encode_payload_spec in H by (done || lia || apply E).
    assert (wire_length = payload_size p) as -> by congruence.
    assert (encoded_buffer = message_bytes id p ++ drop (Z.to_nat (payload_size p)) buffer) as -> by congruence.
    rewrite take_app_length' by (pose proof (length_message_bytes id p Ht); lia). apply decode_message_bytes; [done|apply E|done|lia].
  - rewrite encode_payload_error in H by done. by destruct (_ && _) in H.
Qed.

(** C34: the decoder accepts nothing but what the encoders write: the bytes of an
    accepted message are the ones the encoder of its payload writes over them
    (reserved bytes, length and version included), so two different byte strings
    never decode to the same message. *)
Theorem switch_decode_canonical b m : Forall byte_ok b ->
  linkg_switch_wire_decode (Some b) (Z.of_nat (length b)) = (0, Some m) ->
  encode_payload (wh_message_id (ws_header m)) (ws_payload m) b = (0, wh_length (ws_header m), Some b).
Proof.
  intros Hb H. apply decode_canonical in H as (E&Eh&Ht&Hv&Hid&Hnz); [|done].
  rewrite Eh at 2. cbn [wh_length]. pose proof (length_message_bytes (wh_message_id (ws_header m)) (ws_payload m) Ht) as El.
  rewrite <- E in El. rewrite encode_payload_spec by (done || lia). rewrite drop_ge, app_nil_r, <- E, El by lia. done.
Qed.

(** A plan: the control traffic on both links, the rest on one. *)
Definition demo_plan : linkg_switch_wire_payload :=
  PlanSync (WirePlan [WireClassPlan 2 1 2; WireClassPlan 1 2 0; WireClassPlan 0 0 0]).
Definition demo_buffer : list Z := replicate 24 170.
Definition demo_plan_bytes : list Z := [1; 2; 0; 20; 0; 0; 2; 1; 2; 1; 2; 0; 1; 2; 0; 0; 0; 0; 0; 0].

Lemma switch_encode_total_witness :
  encode_payload 513 demo_plan demo_buffer = (0, 20, Some (demo_plan_bytes ++ [170; 170; 170; 170])).
Proof. exact (switch_encode_total 513 demo_plan demo_buffer eq_refl). Defined.

Lemma switch_wire_roundtrip_witness :
  linkg_switch_wire_decode (Some demo_plan_bytes) 20 = (0, Some (WireMessage (WireHeader 1 2 20 513) demo_plan)).
Proof.
  exact (switch_wire_roundtrip 513 demo_plan demo_buffer 20 (demo_plan_bytes ++ [170; 170; 170; 170])
    eq_refl ltac:(unfold in_range; lia) eq_refl).
Defined.

Lemma switch_decode_canonical_witness : encode_payload 513 demo_plan demo_plan_bytes = (0, 20, Some demo_plan_bytes).
Proof.
  refine (switch_decode_canonical demo_plan_bytes (WireMessage (WireHeader 1 2 20 513) demo_plan) _ eq_refl).
  repeat (constructor; [unfold byte_ok; lia|]). constructor.
Defined.
