(* ===== verification/SwitchCore.v ===== *)
(** * Link switching: the shared context and the programs over it

    core/switch/switch_internal.h with the data of switch_plan.h and switch_event.h.

    The threads of the switching module share [g_switch]. One of its functions is a
    program over it: critical sections under [g_switch.lock], questions to other
    modules between them, and packets submitted outside the lock. Threads interleave
    at these points, so that a program is a tree and not a function of the context;
    a section is a function, given the answers other modules would give during it.
    The [note]s of a section record what it did for the proofs: no code reads them.

    Of the context and of a peer only the fields are here that the modelled files
    use ([memset] clears the others too); [role] is a union whose used member is the
    one of [g_switch.role], here both are kept. A pointer to a peer is its index. *)

From S2P Require Import Prelude.
From S2P Require Import TransportTypes.
From S2P Require Import TransportPeer.
From S2P Require Import Link.
From S2P Require Import SwitchWire.

(** ** Constants *)

Definition LINKG_SWITCH_PEER_MAX := LINKG_RESOURCE_NETWORK_STA_MAX.
Definition LINKG_SWITCH_PEER_GENERATION_INVALID := 0.
Definition LINKG_SWITCH_PLAN_SYNC_ID_INVALID := 0.
Definition LINKG_SWITCH_PLAN_MESSAGE_ID_HALF_RANGE := 2 ^ 31.
Definition LINKG_SWITCH_PLAN_SYNC_RETRY_INTERVAL_US := 200000.
Definition LINKG_SWITCH_PLAN_SYNC_TIMEOUT_US := 2000000.
Definition LINKG_SWITCH_PLAN_SYNC_RECOVERY_MAX := 3.
Definition LINKG_SWITCH_PLAN_SYNC_RECOVERY_BASE_US := 1000000.
Definition LINKG_SWITCH_PLAN_SYNC_RETRY_MAX := 5.

Definition LINKG_SWITCH_PLAN_SYNC_IDLE := 0.
Definition LINKG_SWITCH_PLAN_SYNC_WAIT_ACK := 1.
Definition LINKG_SWITCH_PLAN_SYNC_RETRY_WAIT := 2.
Definition LINKG_SWITCH_PLAN_SYNC_CONFIRMED := 3.
Definition LINKG_SWITCH_PLAN_SYNC_REJECTED := 4.
Definition LINKG_SWITCH_PLAN_SYNC_UNCERTAIN := 5.
Definition LINKG_SWITCH_PLAN_SYNC_CANCELLED := 6.

Definition LINKG_SEND_MODE_NONE := 0.
Definition LINKG_SEND_MODE_SINGLE := 1.
Definition LINKG_SEND_MODE_REDUNDANT := 2.

Definition LINKG_SWITCH_EVENT_NONE := 0.
Definition LINKG_SWITCH_EVENT_PLAN_SYNC_RX := 1.
Definition LINKG_SWITCH_EVENT_PLAN_ACK_RX := 2.
Definition LINKG_SWITCH_EVENT_MAINTENANCE_RX := 3.
Definition LINKG_SWITCH_EVENT_MAINTENANCE_ACK_RX := 4.
Definition LINKG_SWITCH_EVENT_COUNT := 5.
Definition LINKG_SWITCH_EVENT_QUEUE_CAPACITY := 64.

Definition LINKG_SCHEDULER_POLICY_DEFAULT := 0.
Definition LINKG_SCHEDULER_POLICY_REDUNDANT := 1.
Definition LINKG_SCHEDULER_POLICY_SPECIFIED := 2.

(** ** Data *)

Record linkg_class_send_plan := ClassSendPlan {
  sc_mode : Z;
  sc_primary_link_id : Z;
  sc_secondary_link_id : Z }.

(** [classes[LINKG_TRANSPORT_CLASS_COUNT]]. *)
Record linkg_send_plan := SendPlan { sn_classes : list linkg_class_send_plan }.

Record linkg_switch_plan_sync_result := SyncResult {
  pr_peer_node_id : Z;
  pr_peer_generation : Z;
  pr_sync_id : Z;
  pr_message_id : Z;
  pr_state : Z;
  pr_status : Z;
  pr_updated_us : Z }.

Record linkg_switch_plan_sync_runtime := SyncRuntime {
  ps_sync_id : Z;
  ps_message_id : Z;
  ps_state : Z;
  ps_wire_plan : linkg_switch_wire_plan_sync;
  ps_last_status : Z;
  ps_retry_count : Z;
  ps_recovery_count : Z;
  ps_next_retry_us : Z;
  ps_deadline_us : Z;
  ps_last_result : linkg_switch_plan_sync_result;
  ps_result_pending : bool }.

(** [active] and [access] of a maintenance record. *)
Record linkg_switch_maintenance_runtime := MaintenanceRuntime {
  mr_active : bool;
  mr_access : Z }.

Record linkg_switch_ap_peer_runtime := ApPeer {
  ap_remote_plan_message_id : Z;
  ap_remote_plan_status : Z }.

Record linkg_switch_peer_runtime := SwitchPeer {
  sp_used : bool;
  sp_peer_node_id : Z;
  sp_generation : Z;
  sp_plan : linkg_send_plan;
  sp_remote_maintenance : linkg_switch_maintenance_runtime;
  sp_plan_sync : linkg_switch_plan_sync_runtime;
  sp_ap : linkg_switch_ap_peer_runtime }.

Record linkg_switch_event := SwitchEvent {
  ev_type : Z;
  ev_peer_node_id : Z;
  ev_peer_generation : Z;
  ev_message_id : Z;
  ev_payload : linkg_switch_wire_payload }.

(** [items[LINKG_SWITCH_EVENT_QUEUE_CAPACITY]]. *)
Record linkg_switch_event_queue := EventQueue {
  eq_items : list linkg_switch_event;
  eq_head : Z;
  eq_tail : Z;
  eq_count : Z }.

Record linkg_switch_context := SwitchContext {
  sx_packet_pool : bool;                  (* not NULL *)
  sx_role : Z;
  sx_local_node_id : Z;
  sx_peers : list linkg_switch_peer_runtime;
  sx_event_queue : linkg_switch_event_queue;
  sx_local_maintenance : linkg_switch_maintenance_runtime;
  sx_run_token : Z;
  sx_rx_users : Z;
  sx_next_peer_generation : Z;
  sx_next_plan_sync_id : Z;
  sx_next_plan_message_id : Z;
  sx_initialized : bool;
  sx_running : bool }.

#[export] Instance local_class_plan_eq_dec : EqDecision linkg_class_send_plan.
Proof. solve_decision. Defined.
#[export] Instance local_plan_eq_dec : EqDecision linkg_send_plan.
Proof. solve_decision. Defined.

(** *** Zeroed data *)

Definition local_class_zero : linkg_class_send_plan := ClassSendPlan LINKG_SEND_MODE_NONE LINKG_LINK_ID_INVALID LINKG_LINK_ID_INVALID.
Definition local_plan_zero : linkg_send_plan := SendPlan (replicate 3 local_class_zero).
Definition wire_plan_zero : linkg_switch_wire_plan_sync := WirePlan (replicate 3 class_plan_zero).
Definition sync_result_zero : linkg_switch_plan_sync_result := SyncResult 0 0 0 0 0 0 0.
Definition sync_zero : linkg_switch_plan_sync_runtime := SyncRuntime 0 0 0 wire_plan_zero 0 0 0 0 0 sync_result_zero false.
(** The union with all its bytes zero. *)
Definition event_zero : linkg_switch_event := SwitchEvent 0 0 0 0 (PlanAck (WirePlanAck 0)).
Definition switch_peer_zero : linkg_switch_peer_runtime :=
  SwitchPeer false 0 0 local_plan_zero (MaintenanceRuntime false 0) sync_zero (ApPeer 0 0).

(** *** Updates of one field *)

Definition set_peer_plan (plan : linkg_send_plan) (p : linkg_switch_peer_runtime) : linkg_switch_peer_runtime :=
  SwitchPeer (sp_used p) (sp_peer_node_id p) (sp_generation p) plan (sp_remote_maintenance p) (sp_plan_sync p) (sp_ap p).
Definition set_peer_sync (sync : linkg_switch_plan_sync_runtime) (p : linkg_switch_peer_runtime) : linkg_switch_peer_runtime :=
  SwitchPeer (sp_used p) (sp_peer_node_id p) (sp_generation p) (sp_plan p) (sp_remote_maintenance p) sync (sp_ap p).
Definition set_peer_ap (ap : linkg_switch_ap_peer_runtime) (p : linkg_switch_peer_runtime) : linkg_switch_peer_runtime :=
  SwitchPeer (sp_used p) (sp_peer_node_id p) (sp_generation p) (sp_plan p) (sp_remote_maintenance p) (sp_plan_sync p) ap.

Definition set_peers (peers : list linkg_switch_peer_runtime) (c : linkg_switch_context) : linkg_switch_context :=
  SwitchContext (sx_packet_pool c) (sx_role c) (sx_local_node_id c) peers (sx_event_queue c) (sx_local_maintenance c)
    (sx_run_token c) (sx_rx_users c) (sx_next_peer_generation c) (sx_next_plan_sync_id c) (sx_next_plan_message_id c)
    (sx_initialized c) (sx_running c).
Definition set_peer (index : nat) (p : linkg_switch_peer_runtime) (c : linkg_switch_context) : linkg_switch_context :=
  set_peers (<[index := p]> (sx_peers c)) c.
Definition set_queue (queue : linkg_switch_event_queue) (c : linkg_switch_context) : linkg_switch_context :=
  SwitchContext (sx_packet_pool c) (sx_role c) (sx_local_node_id c) (sx_peers c) queue (sx_local_maintenance c)
    (sx_run_token c) (sx_rx_users c) (sx_next_peer_generation c) (sx_next_plan_sync_id c) (sx_next_plan_message_id c)
    (sx_initialized c) (sx_running c).
Definition set_rx_users (users : Z) (c : linkg_switch_context) : linkg_switch_context :=
  SwitchContext (sx_packet_pool c) (sx_role c) (sx_local_node_id c) (sx_peers c) (sx_event_queue c) (sx_local_maintenance c)
    (sx_run_token c) users (sx_next_peer_generation c) (sx_next_plan_sync_id c) (sx_next_plan_message_id c)
    (sx_initialized c) (sx_running c).
Definition set_counters (generation sync_id message_id : Z) (c : linkg_switch_context) : linkg_switch_context :=
  SwitchContext (sx_packet_pool c) (sx_role c) (sx_local_node_id c) (sx_peers c) (sx_event_queue c) (sx_local_maintenance c)
    (sx_run_token c) (sx_rx_users c) generation sync_id message_id (sx_initialized c) (sx_running c).

Definition the_peer (c : linkg_switch_context) (index : nat) : linkg_switch_peer_runtime := default switch_peer_zero (sx_peers c !! index).

(** A packet given to the scheduler with its context: the bytes are those the packet holds. *)
Record linkg_scheduler_submission := Submission {
  sb_traffic_class : Z;
  sb_policy : Z;
  sb_type : Z;
  sb_destination_node_id : Z;
  sb_realtime : bool;
  sb_data : list Z }.

(** ** Programs *)

(** What other modules are asked: the link of an access type, the registered link
    of an id, whether it runs, a path of the node module (0 when it was acquired;
    it is released at once), the state of the packet pool, the clock, a wake-up of
    the worker, and what a quality report or a maintenance message given to its
    module returned. *)
Inductive query :=
  | Link_id (access : Z)
  | Link_found (link_id : Z)
  | Link_running (link_id : Z)
  | Acquire_path (peer_node_id link_id : Z)
  | Pool_initialized
  | Monotonic_us
  | Thread_wakeup
  | Receive_quality (peer_node_id message_id : Z) (report : linkg_switch_wire_quality_report)
  | Process_maintenance (event : linkg_switch_event) (now_us : Z).

Definition answers : Type := query -> Z.

Inductive note :=
  | Submitted (s : linkg_scheduler_submission)
  | Delivered (peer_node_id : Z) (data : list Z)
  | Started (sync_id message_id : Z) (plan : linkg_switch_wire_plan_sync)
  | Applied (peer_node_id message_id : Z) (wire : linkg_switch_wire_plan_sync) (plan : linkg_send_plan).

(** [Alloc]: a packet of the pool, the bytes from its data on, or NULL. Every
    packet is released before its function returns; its references are those of
    the packet pool's model. *)
Inductive prog (A : Type) :=
  | Ret (a : A)
  | Section (f : answers -> linkg_switch_context -> linkg_switch_context * list note * prog A)
  | Ask (q : query) (k : Z -> prog A)
  | Alloc (k : option (list Z) -> prog A)
  | Submit (s : linkg_scheduler_submission) (k : Z -> prog A).
Arguments Ret {A}. Arguments Section {A}. Arguments Ask {A}. Arguments Alloc {A}. Arguments Submit {A}.

Fixpoint bind {A B} (p : prog A) (k : A -> prog B) : prog B :=
  match p with
  | Ret a => k a
  | Section f => Section (fun a c => let '(c', notes, p') := f a c in (c', notes, bind p' k))
  | Ask q f => Ask q (fun z => bind (f z) k)
  | Alloc f => Alloc (fun b => bind (f b) k)
  | Submit s f => Submit s (fun z => bind (f z) k)
  end.

Declare Scope switch_scope.
Delimit Scope switch_scope with switch.
Notation "'let!' x ':=' p 'in' q" := (bind p (fun x => q)) (at level 200, x pattern, p at level 100, q at level 200, right associativity) : switch_scope.
#[local] Open Scope switch_scope.

Definition ask (q : query) : prog Z := Ask q Ret.

(** A section: lock, the body, unlock. *)
Definition locked {A} (body : answers -> linkg_switch_context -> linkg_switch_context * list note * A) : prog A :=
  Section (fun a c => let '(c', notes, x) := body a c in (c', notes, Ret x)).

(** The outcome of a section: the function goes on with a value, or returns. *)
Inductive outcome (A : Type) := Go (a : A) | Return (ret : Z).
Arguments Go {A}. Arguments Return {A}.

(** ** Peers *)

(** Call with the lock held. *)
Definition linkg_switch_find_peer_locked (c : linkg_switch_context) (peer_node_id : Z) : option nat :=
  fst <$> list_find (fun p => sp_used p = true /\ sp_peer_node_id p = peer_node_id) (sx_peers c).

Definition linkg_switch_find_peer_generation_locked (c : linkg_switch_context) (peer_node_id generation : Z) : option nat :=
  if generation =? LINKG_SWITCH_PEER_GENERATION_INVALID then None
  else match linkg_switch_find_peer_locked c peer_node_id with
  | Some index => if sp_generation (the_peer c index) =? generation then Some index else None
  | None => None
  end.

Definition linkg_switch_peer_generation_current (peer_node_id generation : Z) : prog bool :=
  locked (fun _ c =>
    (c, [], sx_initialized c && sx_running c && bool_decide (linkg_switch_find_peer_generation_locked c peer_node_id generation <> None))).

(** ** Running a program alone

    The other threads stand still, the other modules give constant answers. *)

Record world := World {
  wd_answers : answers;
  wd_alloc : option (list Z);
  wd_submit : linkg_scheduler_submission -> Z }.

Fixpoint exec {A} (w : world) (p : prog A) (c : linkg_switch_context) : linkg_switch_context * list note * A :=
  match p with
  | Ret a => (c, [], a)
  | Section f =>
      let '(c', notes, p') := f (wd_answers w) c in
      let '(c'', notes', x) := exec w p' c' in (c'', notes ++ notes', x)
  | Ask q k => exec w (k (wd_answers w q)) c
  | Alloc k => exec w (k (wd_alloc w)) c
  | Submit s k => let '(c', notes, x) := exec w (k (wd_submit w s)) c in (c', Submitted s :: notes, x)
  end.

(** The continuation of a section is in a tuple: the induction principle says so. *)
Lemma prog_induction {A} (P : prog A -> Prop) :
  (forall a, P (Ret a)) ->
  (forall f, (forall a c, P (f a c).2) -> P (Section f)) ->
  (forall q k, (forall z, P (k z)) -> P (Ask q k)) ->
  (forall k, (forall b, P (k b)) -> P (Alloc k)) ->
  (forall s k, (forall z, P (k z)) -> P (Submit s k)) ->
  forall p, P p.
Proof.
  intros HR HS HA HL HT. fix go 1. intros [a|f|q k|k|s k].
  - apply HR.
  - apply HS. intros a c. apply go.
  - apply HA. intros z. apply go.
  - apply HL. intros b. apply go.
  - apply HT. intros z. apply go.
Qed.

Lemma exec_bind {A B} w (p : prog A) (k : A -> prog B) : forall c,
  exec w (bind p k) c =
  let '(c', notes, x) := exec w p c in let '(c'', notes', y) := exec w (k x) c' in (c'', notes ++ notes', y).
Proof.
  induction p as [a|f IH|q f IH|f IH|s f IH] using prog_induction; intros c; cbn.
  - by destruct (exec w (k a) c) as [[??]?].
  - pose proof (IH (wd_answers w) c) as E. destruct (f (wd_answers w) c) as [[c' n] p']. cbn in E. rewrite (E c').
    destruct (exec w p' c') as [[c1 n1] x]. destruct (exec w (k x) c1) as [[c2 n2] y]. by rewrite app_assoc.
  - apply IH.
  - apply IH.
  - rewrite IH. destruct (exec w (f _) c) as [[c1 n1] x]. by destruct (exec w (k x) c1) as [[c2 n2] y].
Qed.

Lemma exec_locked {A} w (body : answers -> linkg_switch_context -> linkg_switch_context * list note * A) c :
  exec w (locked body) c = body (wd_answers w) c.
Proof. unfold locked. cbn. destruct (body (wd_answers w) c) as [[c1 n] x]. cbn. by rewrite app_nil_r. Qed.

Lemma exec_ask w q c : exec w (ask q) c = (c, [], wd_answers w q).
Proof. done. Qed.
