(* ===== verification/SwitchTx.v ===== *)
(** * Link switching: sending control messages  (core/switch/switch_tx.c)

    Every function: a packet of the pool is filled with the encoding of a message
    and submitted to the scheduler, redundantly and as control traffic. *)

From S2P Require Import Prelude.
From S2P Require Import TransportTypes.
From S2P Require Import SwitchWire.
From S2P Require Import SwitchCore.
#[local] Open Scope switch_scope.

Definition LINKG_SWITCH_WIRE_MAX_SIZE := LINKG_SWITCH_WIRE_QUALITY_REPORT_SIZE.

Definition _linkg_switch_tx_peer_valid (peer_node_id : Z) : bool :=
  (LINKG_RESOURCE_NODE_ID_MIN <=? peer_node_id) && (peer_node_id <=? LINKG_RESOURCE_NODE_ID_MAX).

(** The packet is its bytes. *)
Definition _linkg_switch_tx_create_packet (pool : bool) : prog (outcome (list Z)) :=
  if negb pool then Ret (Return (- ENODEV))
  else
    let! initialized := ask Pool_initialized in
    if initialized =? 0 then Ret (Return (- ENODEV))
    else Alloc (fun packet =>
      match packet with
      | None => Ret (Return (- ENOMEM))
      | Some data => if Z.of_nat (length data) <? LINKG_SWITCH_WIRE_MAX_SIZE then Ret (Return (- ENOSPC)) else Ret (Go data)
      end).

Definition _linkg_switch_tx_submit (peer_node_id : Z) (packet : list Z) (wire_length : Z) : prog Z :=
  if negb (_linkg_switch_tx_peer_valid peer_node_id) then Ret (- EINVAL)
  else if (wire_length =? 0) || (Z.of_nat (length packet) <? wire_length) || (2 ^ 32 - 1 <? wire_length) then Ret (- EMSGSIZE)
  else
    Submit (Submission LINKG_TRANSPORT_CLASS_REALTIME LINKG_SCHEDULER_POLICY_REDUNDANT LINKG_TRANSPORT_TYPE_SWITCH
              peer_node_id true (take (Z.to_nat wire_length) packet)) Ret.

(** The body the five functions share: [encode] is the encoder, given its buffer
    and capacity. *)
Definition send_message (pool : bool) (peer_node_id : Z) (encode : option (list Z) -> Z -> encoded) : prog Z :=
  let! created := _linkg_switch_tx_create_packet pool in
  match created with
  | Return ret => Ret ret
  | Go packet =>
      let '(ret, wire_length, buffer) := encode (Some packet) (Z.of_nat (length packet)) in
      if ret =? 0 then _linkg_switch_tx_submit peer_node_id (default [] buffer) wire_length else Ret ret
  end.

Definition linkg_switch_tx_send_quality_report (pool : bool) (peer_node_id message_id : Z)
    (report : option linkg_switch_wire_quality_report) : prog Z :=
  match report with
  | None => Ret (- EINVAL)
  | Some _ => send_message pool peer_node_id (fun b capacity => linkg_switch_wire_encode_quality_report message_id report b capacity false)
  end.

Definition linkg_switch_tx_send_plan_sync (pool : bool) (peer_node_id message_id : Z)
    (plan : option linkg_switch_wire_plan_sync) : prog Z :=
  match plan with
  | None => Ret (- EINVAL)
  | Some _ => send_message pool peer_node_id (fun b capacity => linkg_switch_wire_encode_plan_sync message_id plan b capacity false)
  end.

Definition linkg_switch_tx_send_plan_ack (pool : bool) (peer_node_id message_id : Z)
    (ack : option linkg_switch_wire_plan_ack) : prog Z :=
  match ack with
  | None => Ret (- EINVAL)
  | Some _ => send_message pool peer_node_id (fun b capacity => linkg_switch_wire_encode_plan_ack message_id ack b capacity false)
  end.

Definition linkg_switch_tx_send_maintenance (pool : bool) (peer_node_id message_id : Z)
    (maintenance : option linkg_switch_wire_maintenance) : prog Z :=
  match maintenance with
  | None => Ret (- EINVAL)
  | Some _ => send_message pool peer_node_id (fun b capacity => linkg_switch_wire_encode_maintenance message_id maintenance b capacity false)
  end.

Definition linkg_switch_tx_send_maintenance_ack (pool : bool) (peer_node_id message_id : Z)
    (ack : option linkg_switch_wire_maintenance_ack) : prog Z :=
  match ack with
  | None => Ret (- EINVAL)
  | Some _ => send_message pool peer_node_id (fun b capacity => linkg_switch_wire_encode_maintenance_ack message_id ack b capacity false)
  end.
