(* ===== verification/SwitchEvent.v ===== *)
(** * Link switching: the event queue  (core/switch/switch_event.c)

    The receive callback copies control messages into a ring of 64 events; the
    worker takes them out. Every function is here, with the view of the ring as a
    list that the properties use. *)

From S2P Require Import Prelude.
From S2P Require Import TransportTypes.
From S2P Require Import SwitchWire.
From S2P Require Import SwitchCore.
#[local] Open Scope switch_scope.

Definition _linkg_switch_event_type_valid (type : Z) : bool :=
  (LINKG_SWITCH_EVENT_NONE <? type) && (type <? LINKG_SWITCH_EVENT_COUNT).

Definition _linkg_switch_event_valid (event : option linkg_switch_event) : bool :=
  match event with
  | None => false
  | Some e =>
      if negb (_linkg_switch_event_type_valid (ev_type e)) then false
      else if (ev_peer_node_id e <? LINKG_RESOURCE_NODE_ID_MIN) || (LINKG_RESOURCE_NODE_ID_MAX <? ev_peer_node_id e) then false
      else negb (ev_message_id e =? LINKG_SWITCH_WIRE_MESSAGE_ID_INVALID)
  end.

Definition _linkg_switch_event_next_index (index : Z) : Z :=
  let index := u32 (index + 1) in if LINKG_SWITCH_EVENT_QUEUE_CAPACITY <=? index then 0 else index.

Definition set_generation (generation : Z) (e : linkg_switch_event) : linkg_switch_event :=
  SwitchEvent (ev_type e) (ev_peer_node_id e) generation (ev_message_id e) (ev_payload e).

(** The queue after the event was put in, and after it was taken back. *)
Definition queue_put (e : linkg_switch_event) (q : linkg_switch_event_queue) : linkg_switch_event_queue :=
  EventQueue (<[Z.to_nat (eq_tail q) := e]> (eq_items q)) (eq_head q)
    (_linkg_switch_event_next_index (eq_tail q)) (u32 (eq_count q + 1)).

Definition queue_undo (slot : Z) (q : linkg_switch_event_queue) : linkg_switch_event_queue :=
  EventQueue (<[Z.to_nat slot := event_zero]> (eq_items q)) (eq_head q) slot
    (if negb (eq_count q =? 0) then eq_count q - 1 else eq_count q).

Definition linkg_switch_event_post (event : option linkg_switch_event) : prog Z :=
  match event with
  | Some e =>
      if negb (_linkg_switch_event_valid event) then Ret (- EINVAL)
      else locked (fun a c =>
        if negb (sx_initialized c) then (c, [], - ENODEV)
        else if negb (sx_running c) then (c, [], - ESHUTDOWN)
        else match linkg_switch_find_peer_locked c (ev_peer_node_id e) with
        | None => (c, [], - ENOENT)
        | Some index =>
            let peer := the_peer c index in
            if sp_generation peer =? LINKG_SWITCH_PEER_GENERATION_INVALID then (c, [], - ENOENT)
            else
              let queue := sx_event_queue c in
              if LINKG_SWITCH_EVENT_QUEUE_CAPACITY <=? eq_count queue then (c, [], - ENOSPC)
              else
                let slot := eq_tail queue in
                let queue := queue_put (set_generation (sp_generation peer) e) queue in
                let ret := a Thread_wakeup in
                if negb (ret =? 0) then (set_queue (queue_undo slot queue) c, [], ret)
                else (set_queue queue c, [], 0)
        end)
  | None => Ret (- EINVAL)
  end.

(** The event, or none; call with the lock held. *)
Definition linkg_switch_event_pop_locked (c : linkg_switch_context) : linkg_switch_context * option linkg_switch_event :=
  let queue := sx_event_queue c in
  if eq_count queue =? 0 then (c, None)
  else
    let slot := Z.to_nat (eq_head queue) in
    let event := default event_zero (eq_items queue !! slot) in
    (set_queue (EventQueue (<[slot := event_zero]> (eq_items queue)) (_linkg_switch_event_next_index (eq_head queue))
                  (eq_tail queue) (eq_count queue - 1)) c, Some event).

Definition queue_zero : linkg_switch_event_queue := EventQueue (replicate 64 event_zero) 0 0 0.

Definition linkg_switch_event_reset_locked (c : linkg_switch_context) : linkg_switch_context := set_queue queue_zero c.

(** ** The ring as a list *)

Definition ring_slot (q : linkg_switch_event_queue) (i : nat) : nat := Z.to_nat ((eq_head q + Z.of_nat i) mod LINKG_SWITCH_EVENT_QUEUE_CAPACITY).

(** The events waiting, oldest first. *)
Definition queued (q : linkg_switch_event_queue) : list linkg_switch_event :=
  (fun i => default event_zero (eq_items q !! ring_slot q i)) <$> seq 0 (Z.to_nat (eq_count q)).

Definition queue_ok (q : linkg_switch_event_queue) : Prop :=
  length (eq_items q) = 64%nat /\ 0 <= eq_head q < 64 /\ 0 <= eq_count q <= 64 /\
  eq_tail q = (eq_head q + eq_count q) mod LINKG_SWITCH_EVENT_QUEUE_CAPACITY.

Lemma next_index i : 0 <= i < 64 -> _linkg_switch_event_next_index i = (i + 1) mod LINKG_SWITCH_EVENT_QUEUE_CAPACITY.
Proof.
  intros Hi. unfold _linkg_switch_event_next_index, LINKG_SWITCH_EVENT_QUEUE_CAPACITY. rewrite wrap_small by (widths; lia).
  destruct (Z.leb_spec 64 (i + 1)); Z.div_mod_to_equations; lia.
Qed.

Lemma queue_zero_ok : queue_ok queue_zero /\ queued queue_zero = [].
Proof. split; [|done]. unfold queue_ok, queue_zero. cbn. splits; try lia. done. Qed.

(** The slots of different positions are different. *)
Lemma ring_slot_inj q i j : queue_ok q -> (i < 64)%nat -> (j < 64)%nat -> ring_slot q i = ring_slot q j -> i = j.
Proof.
  intros (_&Hh&_&_) Hi Hj. unfold ring_slot, LINKG_SWITCH_EVENT_QUEUE_CAPACITY. intros E.
  Z.div_mod_to_equations. lia.
Qed.

Lemma queue_put_spec q e : queue_ok q -> eq_count q < 64 ->
  queue_ok (queue_put e q) /\ queued (queue_put e q) = queued q ++ [e].
Proof.
  intros Hq Hc. pose proof Hq as (Hl&Hh&Hn&Ht). unfold LINKG_SWITCH_EVENT_QUEUE_CAPACITY in *.
  assert (0 <= eq_tail q < 64) as Htr by (rewrite Ht; apply Z.mod_pos_bound; lia).
  assert (u32 (eq_count q + 1) = eq_count q + 1) as Ecount by (apply wrap_small; widths; lia).
  assert (Z.to_nat (eq_tail q) = ring_slot q (Z.to_nat (eq_count q))) as Eslot.
  { unfold ring_slot, LINKG_SWITCH_EVENT_QUEUE_CAPACITY. rewrite Z2Nat.id, Ht by lia. done. }
  split.
  - unfold queue_ok, queue_put. cbn. rewrite length_insert, next_index, Ecount by lia. unfold LINKG_SWITCH_EVENT_QUEUE_CAPACITY.
    splits; try lia. rewrite Ht, Zplus_mod_idemp_l. f_equal. lia.
  - unfold queued, queue_put. cbn [eq_count eq_items]. rewrite Ecount, Z2Nat.inj_add by lia. rewrite seq_app, fmap_app. f_equal.
    + apply list_fmap_ext. intros i j Hj. apply lookup_seq in Hj as [-> Hj]. unfold ring_slot. cbn [eq_head].
      rewrite list_lookup_insert_ne; [done|]. rewrite Eslot. intros E. apply ring_slot_inj in E; [lia|done|lia|lia].
    + rewrite Nat.add_0_l. change (Z.to_nat 1) with 1%nat. cbn [seq fmap list_fmap].
      match goal with |- context [ring_slot ?q' ?n] => assert (ring_slot q' n = Z.to_nat (eq_tail q)) as -> by (by rewrite Eslot) end.
      rewrite list_lookup_insert_eq by lia. done.
Qed.

(** Taking back the event just put in. *)
Lemma queue_undo_spec q e : queue_ok q -> eq_count q < 64 ->
  queue_ok (queue_undo (eq_tail q) (queue_put e q)) /\ queued (queue_undo (eq_tail q) (queue_put e q)) = queued q.
Proof.
  intros Hq Hc. pose proof Hq as (Hl&Hh&Hn&Ht).
  assert (u32 (eq_count q + 1) = eq_count q + 1) as Ecount by (apply wrap_small; widths; lia).
  assert (Z.to_nat (eq_tail q) = ring_slot q (Z.to_nat (eq_count q))) as Eslot.
  { unfold ring_slot. rewrite Z2Nat.id, Ht by lia. done. }
  unfold queue_undo, queue_put. cbn [eq_items eq_head eq_count]. rewrite Ecount.
  destruct (Z.eqb_spec (eq_count q + 1) 0); [lia|]. cbn [negb]. rewrite Z.add_simpl_r. split.
  - unfold queue_ok. cbn. rewrite !length_insert. done.
  - unfold queued. cbn [eq_count eq_items]. apply list_fmap_ext. intros i j Hj. apply lookup_seq in Hj as [-> Hj].
    unfold ring_slot. cbn [eq_head]. fold (ring_slot q (0 + i)). 
    assert (Z.to_nat (eq_tail q) <> ring_slot q (0 + i)) as Hne.
    { rewrite Eslot. intros E. apply ring_slot_inj in E; [lia|done|lia|lia]. }
    by rewrite !list_lookup_insert_ne.
Qed.

Lemma event_pop_spec c : queue_ok (sx_event_queue c) ->
  let '(c', event) := linkg_switch_event_pop_locked c in
  queue_ok (sx_event_queue c') /\ c' = set_queue (sx_event_queue c') c /\
  event = head (queued (sx_event_queue c)) /\ queued (sx_event_queue c') = tail (queued (sx_event_queue c)).
Proof.
  intros Hq. pose proof Hq as (Hl&Hh&Hn&Ht). unfold linkg_switch_event_pop_locked. set (q := sx_event_queue c) in *.
  destruct (Z.eqb_spec (eq_count q) 0) as [E|E].
  { fold q. unfold queued. rewrite E. splits; try done. by destruct c. }
  assert (Z.to_nat (eq_count q) = S (Z.to_nat (eq_count q - 1))) as Ec by lia.
  assert (ring_slot q 0 = Z.to_nat (eq_head q)) as E0.
  { unfold ring_slot, LINKG_SWITCH_EVENT_QUEUE_CAPACITY. rewrite Z.add_0_r, Z.mod_small by lia. done. }
  cbn [sx_event_queue set_queue]. splits.
  - unfold queue_ok. cbn. rewrite length_insert, next_index by lia. unfold LINKG_SWITCH_EVENT_QUEUE_CAPACITY in *. splits; try lia.
    + apply Z.mod_pos_bound. lia.
    + apply Z.mod_pos_bound. lia.
    + rewrite Ht, Zplus_mod_idemp_l. f_equal. lia.
  - done.
  - unfold queued. rewrite Ec. cbn. by rewrite E0.
  - unfold queued. cbn [eq_count eq_items eq_head]. rewrite Ec. cbn [seq fmap list_fmap tail]. rewrite <- (fmap_S_seq 0), <- list_fmap_compose.
    apply list_fmap_ext. intros i j Hj. apply lookup_seq in Hj as [-> Hj]. cbn [compose].
    assert (ring_slot (EventQueue (<[Z.to_nat (eq_head q) := event_zero]> (eq_items q)) (_linkg_switch_event_next_index (eq_head q))
      (eq_tail q) (eq_count q - 1)) (0 + i) = ring_slot q (S (0 + i))) as ->.
    { unfold ring_slot. cbn [eq_head]. rewrite next_index, Zplus_mod_idemp_l by lia. do 2 f_equal. lia. }
    rewrite list_lookup_insert_ne; [done|]. rewrite <- E0. intros E'. apply ring_slot_inj in E'; [lia|done|lia|lia].
Qed.
