(* ===== verification/SwitchPlan.v ===== *)
(** * Link switching: sending plans and their synchronisation  (core/switch/switch_plan.c)

    The station decides the sending plan of a peer (per traffic class: the mode and
    the links), applies it at once and synchronises it to the access point, which
    applies it too and acknowledges. Every function of switch_plan.c is here. *)

From S2P Require Import Prelude.
From S2P Require Import TransportTypes.
From S2P Require Import TransportPeer.
From S2P Require Import Link.
From S2P Require Import SwitchWire.
From S2P Require Import SwitchCore.
From S2P Require Import SwitchTx.
#[local] Open Scope switch_scope.

Definition _linkg_switch_plan_peer_id_valid (peer_node_id : Z) : bool :=
  (LINKG_RESOURCE_NODE_ID_MIN <=? peer_node_id) && (peer_node_id <=? LINKG_RESOURCE_NODE_ID_MAX).

Definition _linkg_switch_plan_find_unused_peer_locked (c : linkg_switch_context) : option nat :=
  fst <$> list_find (fun p => sp_used p = false) (sx_peers c).

(** [++counter], once more at the value that means none. *)
Definition next_number (counter : Z) : Z :=
  let n := u32 (counter + 1) in if n =? 0 then u32 (n + 1) else n.

Definition _linkg_switch_plan_allocate_peer_generation_locked (c : linkg_switch_context) : linkg_switch_context * Z :=
  let generation := next_number (sx_next_peer_generation c) in
  (set_counters generation (sx_next_plan_sync_id c) (sx_next_plan_message_id c) c, generation).

Definition _linkg_switch_plan_allocate_message_id_locked (c : linkg_switch_context) : linkg_switch_context * Z :=
  let message_id := next_number (sx_next_plan_message_id c) in
  (set_counters (sx_next_peer_generation c) (sx_next_plan_sync_id c) message_id c, message_id).

Definition _linkg_switch_plan_allocate_sync_id_locked (c : linkg_switch_context) : linkg_switch_context * Z :=
  let sync_id := next_number (sx_next_plan_sync_id c) in
  (set_counters (sx_next_peer_generation c) sync_id (sx_next_plan_message_id c) c, sync_id).

(** ** Plans *)

(** The loop variable [class_index]. *)
Definition plan_classes : list nat := seq 0 (Z.to_nat LINKG_TRANSPORT_CLASS_COUNT).
Definition class_of (plan : linkg_send_plan) (class_index : nat) : linkg_class_send_plan :=
  default local_class_zero (sn_classes plan !! class_index).
Definition wire_class_of (plan : linkg_switch_wire_plan_sync) (class_index : nat) : linkg_switch_wire_class_send_plan :=
  default class_plan_zero (wp_classes plan !! class_index).

Definition _linkg_switch_class_plan_valid (plan : linkg_class_send_plan) : bool :=
  if sc_mode plan =? LINKG_SEND_MODE_NONE then
    (sc_primary_link_id plan =? LINKG_LINK_ID_INVALID) && (sc_secondary_link_id plan =? LINKG_LINK_ID_INVALID)
  else if sc_mode plan =? LINKG_SEND_MODE_SINGLE then
    if sc_primary_link_id plan =? LINKG_LINK_ID_INVALID then false
    else (sc_secondary_link_id plan =? LINKG_LINK_ID_INVALID) || negb (sc_secondary_link_id plan =? sc_primary_link_id plan)
  else if sc_mode plan =? LINKG_SEND_MODE_REDUNDANT then
    negb (sc_primary_link_id plan =? LINKG_LINK_ID_INVALID) && negb (sc_secondary_link_id plan =? LINKG_LINK_ID_INVALID) &&
    negb (sc_primary_link_id plan =? sc_secondary_link_id plan)
  else false.

Definition _linkg_switch_plan_valid (plan : option linkg_send_plan) : bool :=
  match plan with
  | None => false
  | Some p => forallb (fun class_index => _linkg_switch_class_plan_valid (class_of p class_index)) plan_classes
  end.

Definition class_equal (left right : linkg_class_send_plan) : bool :=
  negb (negb (sc_mode left =? sc_mode right) || negb (sc_primary_link_id left =? sc_primary_link_id right) ||
        negb (sc_secondary_link_id left =? sc_secondary_link_id right)).

Definition _linkg_switch_plan_equal (left right : linkg_send_plan) : bool :=
  forallb (fun class_index => class_equal (class_of left class_index) (class_of right class_index)) plan_classes.

(** *** Between links and access types *)

Definition _linkg_switch_plan_link_to_access (link_id : Z) : prog (Z * Z) :=
  if link_id =? LINKG_LINK_ID_INVALID then Ret (0, LINKG_SWITCH_WIRE_ACCESS_NONE)
  else
    let! wifi_link_id := ask (Link_id LINKG_LINK_ACCESS_WIFI) in
    let! cellular_link_id := ask (Link_id LINKG_LINK_ACCESS_CELLULAR) in
    if link_id =? wifi_link_id then Ret (0, LINKG_SWITCH_WIRE_ACCESS_WIFI)
    else if link_id =? cellular_link_id then Ret (0, LINKG_SWITCH_WIRE_ACCESS_CELLULAR)
    else Ret (- ENOENT, LINKG_SWITCH_WIRE_ACCESS_NONE).

Definition _linkg_switch_plan_access_to_link (access : Z) : prog (Z * Z) :=
  if access =? LINKG_SWITCH_WIRE_ACCESS_NONE then Ret (0, LINKG_LINK_ID_INVALID)
  else if access =? LINKG_SWITCH_WIRE_ACCESS_WIFI then
    let! link_id := ask (Link_id LINKG_LINK_ACCESS_WIFI) in
    Ret (if link_id =? LINKG_LINK_ID_INVALID then - ENOENT else 0, link_id)
  else if access =? LINKG_SWITCH_WIRE_ACCESS_CELLULAR then
    let! link_id := ask (Link_id LINKG_LINK_ACCESS_CELLULAR) in
    Ret (if link_id =? LINKG_LINK_ID_INVALID then - ENOENT else 0, link_id)
  else Ret (- EINVAL, LINKG_LINK_ID_INVALID).

(** One turn of the loop: the code and the class. *)
Definition class_to_wire (current : linkg_class_send_plan) : prog (Z * linkg_switch_wire_class_send_plan) :=
  if sc_mode current =? LINKG_SEND_MODE_NONE then
    Ret (0, WireClassPlan LINKG_SWITCH_WIRE_MODE_NONE LINKG_SWITCH_WIRE_ACCESS_NONE LINKG_SWITCH_WIRE_ACCESS_NONE)
  else
    let mode := if sc_mode current =? LINKG_SEND_MODE_SINGLE then LINKG_SWITCH_WIRE_MODE_SINGLE else LINKG_SWITCH_WIRE_MODE_REDUNDANT in
    let! (ret, primary) := _linkg_switch_plan_link_to_access (sc_primary_link_id current) in
    if negb (ret =? 0) then Ret (ret, class_plan_zero)
    else
      let! (ret, secondary) := _linkg_switch_plan_link_to_access (sc_secondary_link_id current) in
      if negb (ret =? 0) then Ret (ret, class_plan_zero)
      else if (primary =? LINKG_SWITCH_WIRE_ACCESS_NONE) || (primary =? secondary) then Ret (- EINVAL, class_plan_zero)
      else Ret (0, WireClassPlan mode primary secondary).

Definition class_to_local (current : linkg_switch_wire_class_send_plan) : prog (Z * linkg_class_send_plan) :=
  if wp_mode current =? LINKG_SWITCH_WIRE_MODE_NONE then
    if negb (wp_primary_access current =? LINKG_SWITCH_WIRE_ACCESS_NONE) || negb (wp_secondary_access current =? LINKG_SWITCH_WIRE_ACCESS_NONE)
    then Ret (- EINVAL, local_class_zero) else Ret (0, local_class_zero)
  else if negb (wp_mode current =? LINKG_SWITCH_WIRE_MODE_SINGLE) && negb (wp_mode current =? LINKG_SWITCH_WIRE_MODE_REDUNDANT)
  then Ret (- EINVAL, local_class_zero)
  else
    let mode := if wp_mode current =? LINKG_SWITCH_WIRE_MODE_SINGLE then LINKG_SEND_MODE_SINGLE else LINKG_SEND_MODE_REDUNDANT in
    let! (ret, primary) := _linkg_switch_plan_access_to_link (wp_primary_access current) in
    if negb (ret =? 0) then Ret (ret, local_class_zero)
    else
      let! (ret, secondary) := _linkg_switch_plan_access_to_link (wp_secondary_access current) in
      if negb (ret =? 0) then Ret (ret, local_class_zero)
      else Ret (0, ClassSendPlan mode primary secondary).

(** The loop over the classes: it stops at the first error. *)
Fixpoint convert {A B} (turn : A -> prog (Z * B)) (l : list A) : prog (Z * list B) :=
  match l with
  | [] => Ret (0, [])
  | x :: l =>
      let! (ret, y) := turn x in
      if negb (ret =? 0) then Ret (ret, [])
      else let! (ret, ys) := convert turn l in Ret (ret, y :: ys)
  end.

Definition _linkg_switch_plan_local_to_wire (plan : option linkg_send_plan) : prog (Z * linkg_switch_wire_plan_sync) :=
  match plan with
  | Some p =>
      if negb (_linkg_switch_plan_valid plan) then Ret (- EINVAL, wire_plan_zero)
      else let! (ret, classes) := convert class_to_wire (class_of p <$> plan_classes) in Ret (ret, WirePlan classes)
  | None => Ret (- EINVAL, wire_plan_zero)
  end.

Definition _linkg_switch_plan_wire_to_local (wire_plan : linkg_switch_wire_plan_sync) : prog (Z * linkg_send_plan) :=
  let! (ret, classes) := convert class_to_local (wire_class_of wire_plan <$> plan_classes) in
  if negb (ret =? 0) then Ret (ret, SendPlan classes)
  else Ret (if _linkg_switch_plan_valid (Some (SendPlan classes)) then 0 else - EINVAL, SendPlan classes).

(** *** Maintenance (switch_maintenance.c) *)

Definition _linkg_switch_maintenance_access_valid (access : Z) : bool :=
  (access =? LINKG_LINK_ACCESS_WIFI) || (access =? LINKG_LINK_ACCESS_CELLULAR).

Definition linkg_switch_maintenance_access_blocked_locked (c : linkg_switch_context)
    (runtime : linkg_switch_maintenance_runtime) (access : Z) : bool :=
  if negb (_linkg_switch_maintenance_access_valid access) then false
  else if mr_active (sx_local_maintenance c) && (mr_access (sx_local_maintenance c) =? access) then true
  else mr_active runtime && (mr_access runtime =? access).

Definition _linkg_switch_plan_uses_link (plan : linkg_send_plan) (link_id : Z) : bool :=
  if link_id =? LINKG_LINK_ID_INVALID then false
  else existsb (fun class_index =>
    let current := class_of plan class_index in
    if sc_mode current =? LINKG_SEND_MODE_NONE then false
    else (sc_primary_link_id current =? link_id) ||
         ((sc_mode current =? LINKG_SEND_MODE_REDUNDANT) && (sc_secondary_link_id current =? link_id))) plan_classes.

Definition _linkg_switch_plan_access_blocked_locked (a : answers) (c : linkg_switch_context)
    (peer : linkg_switch_peer_runtime) (plan : linkg_send_plan) : bool :=
  let blocked access :=
    linkg_switch_maintenance_access_blocked_locked c (sp_remote_maintenance peer) access &&
    _linkg_switch_plan_uses_link plan (a (Link_id access)) in
  if blocked LINKG_LINK_ACCESS_WIFI then true else blocked LINKG_LINK_ACCESS_CELLULAR.

(** *** Paths *)

Definition _linkg_switch_plan_validate_path (peer_node_id link_id : Z) : prog Z :=
  if link_id =? LINKG_LINK_ID_INVALID then Ret (- ENOENT)
  else
    let! found := ask (Link_found link_id) in
    if found =? 0 then Ret (- ENOENT)
    else
      let! running := ask (Link_running link_id) in
      if running =? 0 then Ret (- ENETDOWN) else ask (Acquire_path peer_node_id link_id).

Fixpoint validate_classes (peer_node_id : Z) (classes : list linkg_class_send_plan) : prog Z :=
  match classes with
  | [] => Ret 0
  | current :: classes =>
      if sc_mode current =? LINKG_SEND_MODE_NONE then validate_classes peer_node_id classes
      else
        let! ret := _linkg_switch_plan_validate_path peer_node_id (sc_primary_link_id current) in
        if negb (ret =? 0) then Ret ret
        else if sc_mode current =? LINKG_SEND_MODE_REDUNDANT then
          let! ret := _linkg_switch_plan_validate_path peer_node_id (sc_secondary_link_id current) in
          if negb (ret =? 0) then Ret ret else validate_classes peer_node_id classes
        else validate_classes peer_node_id classes
  end.

Definition _linkg_switch_plan_validate_targets (peer_node_id : Z) (plan : linkg_send_plan) : prog Z :=
  validate_classes peer_node_id (class_of plan <$> plan_classes).

(** ** The synchronisation of a peer *)

Definition _linkg_switch_plan_message_id_newer (message_id current_message_id : Z) : bool :=
  if message_id =? LINKG_SWITCH_WIRE_MESSAGE_ID_INVALID then false
  else if current_message_id =? LINKG_SWITCH_WIRE_MESSAGE_ID_INVALID then true
  else
    let delta := u32 (message_id - current_message_id) in
    negb (delta =? 0) && (delta <? LINKG_SWITCH_PLAN_MESSAGE_ID_HALF_RANGE).

Definition _linkg_switch_plan_sync_busy (sync : linkg_switch_plan_sync_runtime) : bool :=
  (ps_state sync =? LINKG_SWITCH_PLAN_SYNC_WAIT_ACK) || (ps_state sync =? LINKG_SWITCH_PLAN_SYNC_RETRY_WAIT).

(** The functions below change the peer they are given. *)
Definition _linkg_switch_plan_finish_sync_locked (state status now_us : Z) (peer : linkg_switch_peer_runtime) : linkg_switch_peer_runtime :=
  let sync := sp_plan_sync peer in
  if negb (_linkg_switch_plan_sync_busy sync) then peer
  else
    set_peer_sync (SyncRuntime (ps_sync_id sync) (ps_message_id sync) state (ps_wire_plan sync) status
      (ps_retry_count sync) (ps_recovery_count sync) 0 0
      (SyncResult (sp_peer_node_id peer) (sp_generation peer) (ps_sync_id sync) (ps_message_id sync) state status now_us) true) peer.

Definition _linkg_switch_plan_cancel_sync_locked (role now_us : Z) (peer : linkg_switch_peer_runtime) : linkg_switch_peer_runtime :=
  if negb (role =? LINKG_DEVICE_ROLE_STA) then peer
  else _linkg_switch_plan_finish_sync_locked LINKG_SWITCH_PLAN_SYNC_CANCELLED (- ECANCELED) now_us peer.

(** The context with the new numbers, and the peer. *)
Definition _linkg_switch_plan_start_sync_locked (wire_plan : linkg_switch_wire_plan_sync) (now_us : Z)
    (c : linkg_switch_context) (peer : linkg_switch_peer_runtime) : linkg_switch_context * linkg_switch_peer_runtime :=
  let sync := sp_plan_sync peer in
  let '(c, sync_id) := _linkg_switch_plan_allocate_sync_id_locked c in
  let '(c, message_id) := _linkg_switch_plan_allocate_message_id_locked c in
  (c, set_peer_sync (SyncRuntime sync_id message_id LINKG_SWITCH_PLAN_SYNC_WAIT_ACK wire_plan (- EINPROGRESS) 1 0
        (u64 (now_us + LINKG_SWITCH_PLAN_SYNC_RETRY_INTERVAL_US)) (u64 (now_us + LINKG_SWITCH_PLAN_SYNC_TIMEOUT_US))
        (ps_last_result sync) (ps_result_pending sync)) peer).

Definition _linkg_switch_plan_restart_sync_locked (now_us : Z) (c : linkg_switch_context) (sync : linkg_switch_plan_sync_runtime)
    : linkg_switch_context * linkg_switch_plan_sync_runtime :=
  let '(c, message_id) := _linkg_switch_plan_allocate_message_id_locked c in
  (c, SyncRuntime (ps_sync_id sync) message_id LINKG_SWITCH_PLAN_SYNC_WAIT_ACK (ps_wire_plan sync) (- EINPROGRESS) 1
        (u32 (ps_recovery_count sync + 1))
        (u64 (now_us + LINKG_SWITCH_PLAN_SYNC_RETRY_INTERVAL_US)) (u64 (now_us + LINKG_SWITCH_PLAN_SYNC_TIMEOUT_US))
        (ps_last_result sync) (ps_result_pending sync)).

Definition _linkg_switch_plan_round_failed_locked (status : Z) (remote_rejected : bool) (now_us : Z)
    (peer : linkg_switch_peer_runtime) : linkg_switch_peer_runtime :=
  let sync := sp_plan_sync peer in
  if LINKG_SWITCH_PLAN_SYNC_RECOVERY_MAX <=? ps_recovery_count sync then
    _linkg_switch_plan_finish_sync_locked
      (if remote_rejected then LINKG_SWITCH_PLAN_SYNC_REJECTED else LINKG_SWITCH_PLAN_SYNC_UNCERTAIN) status now_us peer
  else
    set_peer_sync (SyncRuntime (ps_sync_id sync) (ps_message_id sync) LINKG_SWITCH_PLAN_SYNC_RETRY_WAIT (ps_wire_plan sync) status
      (ps_retry_count sync) (ps_recovery_count sync)
      (u64 (now_us + u64 (Z.shiftl LINKG_SWITCH_PLAN_SYNC_RECOVERY_BASE_US (ps_recovery_count sync)))) 0
      (ps_last_result sync) (ps_result_pending sync)) peer.

Definition _linkg_switch_plan_sync_message_current (peer_node_id peer_generation sync_id message_id : Z) : prog bool :=
  locked (fun _ c =>
    (c, [], if sx_initialized c && sx_running c && (sx_role c =? LINKG_DEVICE_ROLE_STA) then
              match linkg_switch_find_peer_generation_locked c peer_node_id peer_generation with
              | Some index =>
                  let sync := sp_plan_sync (the_peer c index) in
                  (ps_state sync =? LINKG_SWITCH_PLAN_SYNC_WAIT_ACK) && (ps_sync_id sync =? sync_id) && (ps_message_id sync =? message_id)
              | None => false
              end
            else false)).

(** The code of the transmission is logged only. *)
Definition _linkg_switch_plan_send_committed (peer_node_id peer_generation sync_id message_id : Z)
    (wire_plan : linkg_switch_wire_plan_sync) (packet_pool : bool) : prog unit :=
  let! current := _linkg_switch_plan_sync_message_current peer_node_id peer_generation sync_id message_id in
  if negb current then Ret tt
  else let! _ := linkg_switch_tx_send_plan_sync packet_pool peer_node_id message_id (Some wire_plan) in Ret tt.

(** ** The table of peers *)

Definition linkg_switch_plan_set (peer_node_id : Z) (plan : option linkg_send_plan) : prog Z :=
  match plan with
  | Some new =>
      if negb (_linkg_switch_plan_peer_id_valid peer_node_id) || negb (_linkg_switch_plan_valid plan) then Ret (- EINVAL)
      else locked (fun a c =>
        if negb (sx_initialized c) then (c, [], - ENODEV)
        else match linkg_switch_find_peer_locked c peer_node_id with
        | None =>
            match _linkg_switch_plan_find_unused_peer_locked c with
            | None => (c, [], - ENOSPC)
            | Some index =>
                let '(c, generation) := _linkg_switch_plan_allocate_peer_generation_locked c in
                (set_peer index (SwitchPeer true peer_node_id generation new (sp_remote_maintenance switch_peer_zero)
                                   sync_zero (sp_ap switch_peer_zero)) c, [], 0)
            end
        | Some index =>
            let peer := the_peer c index in
            let peer := if negb (_linkg_switch_plan_equal (sp_plan peer) new)
                        then _linkg_switch_plan_cancel_sync_locked (sx_role c) (a Monotonic_us) peer else peer in
            (set_peer index (set_peer_plan new peer) c, [], 0)
        end)
  | None => Ret (- EINVAL)
  end.

(** The code and [*plan]; [null] says that [plan] is NULL. *)
Definition linkg_switch_plan_get (peer_node_id : Z) (null : bool) : prog (Z * linkg_send_plan) :=
  if negb (_linkg_switch_plan_peer_id_valid peer_node_id) || null then Ret (- EINVAL, local_plan_zero)
  else locked (fun _ c =>
    if negb (sx_initialized c) then (c, [], (- ENODEV, local_plan_zero))
    else match linkg_switch_find_peer_locked c peer_node_id with
    | None => (c, [], (- ENOENT, local_plan_zero))
    | Some index => (c, [], (0, sp_plan (the_peer c index)))
    end).

Definition linkg_switch_plan_remove (peer_node_id : Z) : prog Z :=
  if negb (_linkg_switch_plan_peer_id_valid peer_node_id) then Ret (- EINVAL)
  else locked (fun _ c =>
    if negb (sx_initialized c) then (c, [], - ENODEV)
    else match linkg_switch_find_peer_locked c peer_node_id with
    | None => (c, [], - ENOENT)
    | Some index => (set_peer index switch_peer_zero c, [], 0)
    end).

(** ** Applying and committing a plan *)

(** [previous] is the plan the caller decided on; NULL: any. *)
Definition previous_changed (peer : linkg_switch_peer_runtime) (previous : option linkg_send_plan) : bool :=
  match previous with Some p => negb (_linkg_switch_plan_equal (sp_plan peer) p) | None => false end.

Definition _linkg_switch_plan_apply_local (peer_node_id peer_generation : Z) (previous plan : option linkg_send_plan)
    (defer_if_sync_busy : bool) : prog Z :=
  match plan with
  | Some new =>
      if negb (_linkg_switch_plan_peer_id_valid peer_node_id) || (peer_generation =? LINKG_SWITCH_PEER_GENERATION_INVALID) ||
         negb (_linkg_switch_plan_valid plan) then Ret (- EINVAL)
      else locked (fun a c =>
        if negb (sx_initialized c) then (c, [], - ENODEV)
        else if negb (sx_running c) then (c, [], - ESHUTDOWN)
        else match linkg_switch_find_peer_generation_locked c peer_node_id peer_generation with
        | None => (c, [], - ESTALE)
        | Some index =>
            let peer := the_peer c index in
            if previous_changed peer previous then (c, [], - EAGAIN)
            else if defer_if_sync_busy && (sx_role c =? LINKG_DEVICE_ROLE_STA) && _linkg_switch_plan_sync_busy (sp_plan_sync peer)
            then (c, [], - EAGAIN)
            else if _linkg_switch_plan_access_blocked_locked a c peer new then (c, [], - EBUSY)
            else
              let peer := if negb (_linkg_switch_plan_equal (sp_plan peer) new)
                          then _linkg_switch_plan_cancel_sync_locked (sx_role c) (a Monotonic_us) peer else peer in
              (set_peer index (set_peer_plan new peer) c, [], 0)
        end)
  | None => Ret (- EINVAL)
  end.

(** What the commit section hands on: the numbers of the new synchronisation and the pool. *)
Record committed := Committed { cm_sync_id : Z; cm_message_id : Z; cm_packet_pool : bool }.

Definition commit_section (peer_node_id peer_generation : Z) (previous : option linkg_send_plan) (new : linkg_send_plan)
    (wire_plan : linkg_switch_wire_plan_sync) (now_us : Z) : prog (outcome committed) :=
  locked (fun a c =>
    if negb (sx_initialized c) then (c, [], Return (- ENODEV))
    else if negb (sx_running c) then (c, [], Return (- ESHUTDOWN))
    else if negb (sx_role c =? LINKG_DEVICE_ROLE_STA) then (c, [], Return (- EPERM))
    else match linkg_switch_find_peer_generation_locked c peer_node_id peer_generation with
    | None => (c, [], Return (- ESTALE))
    | Some index =>
        let peer := the_peer c index in
        if previous_changed peer previous then (c, [], Return (- EAGAIN))
        else if _linkg_switch_plan_access_blocked_locked a c peer new then (c, [], Return (- EBUSY))
        else if negb (sx_packet_pool c) then (c, [], Return (- ENODEV))
        else
          let peer := set_peer_plan new (_linkg_switch_plan_cancel_sync_locked (sx_role c) now_us peer) in
          let '(c, peer) := _linkg_switch_plan_start_sync_locked wire_plan now_us c peer in
          let sync := sp_plan_sync peer in
          (set_peer index peer c, [Started (ps_sync_id sync) (ps_message_id sync) wire_plan],
           Go (Committed (ps_sync_id sync) (ps_message_id sync) (sx_packet_pool c)))
    end).

(** The code and what it writes to [*out_sync_id]: [None] when it leaves it as it was. *)
Definition _linkg_switch_plan_commit_local (peer_node_id peer_generation : Z) (previous plan : option linkg_send_plan)
    (now_us : Z) : prog (Z * option Z) :=
  match plan with
  | Some new =>
      if negb (_linkg_switch_plan_peer_id_valid peer_node_id) || (peer_generation =? LINKG_SWITCH_PEER_GENERATION_INVALID) ||
         negb (_linkg_switch_plan_valid plan) || (now_us =? 0) then Ret (- EINVAL, None)
      else
        let! (ret, wire_plan) := _linkg_switch_plan_local_to_wire plan in
        if negb (ret =? 0) then Ret (ret, Some LINKG_SWITCH_PLAN_SYNC_ID_INVALID)
        else
          let! ret := _linkg_switch_plan_validate_targets peer_node_id new in
          if negb (ret =? 0) then Ret (ret, Some LINKG_SWITCH_PLAN_SYNC_ID_INVALID)
          else
            let! section := commit_section peer_node_id peer_generation previous new wire_plan now_us in
            match section with
            | Return ret => Ret (ret, Some LINKG_SWITCH_PLAN_SYNC_ID_INVALID)
            | Go cm =>
                let! _ := _linkg_switch_plan_send_committed peer_node_id peer_generation (cm_sync_id cm) (cm_message_id cm)
                            wire_plan (cm_packet_pool cm) in
                Ret (0, Some (cm_sync_id cm))
            end
  | None => Ret (- EINVAL, None)
  end.

Definition linkg_switch_plan_apply_local (peer_node_id peer_generation : Z) (plan : option linkg_send_plan) : prog Z :=
  _linkg_switch_plan_apply_local peer_node_id peer_generation None plan false.

Definition linkg_switch_plan_commit_local (peer_node_id peer_generation : Z) (plan : option linkg_send_plan) (now_us : Z) : prog Z :=
  let! (ret, _) := _linkg_switch_plan_commit_local peer_node_id peer_generation None plan now_us in Ret ret.

Definition linkg_switch_plan_update_if_current (peer_node_id peer_generation : Z) (previous plan : option linkg_send_plan)
    (synchronize : bool) (now_us : Z) : prog Z :=
  match previous with
  | None => Ret (- EINVAL)
  | Some _ =>
      if synchronize then let! (ret, _) := _linkg_switch_plan_commit_local peer_node_id peer_generation previous plan now_us in Ret ret
      else _linkg_switch_plan_apply_local peer_node_id peer_generation previous plan false
  end.

Definition linkg_switch_plan_apply_reconcile_if_current (peer_node_id peer_generation : Z) (previous plan : option linkg_send_plan)
    (defer_if_sync_busy : bool) : prog Z :=
  match previous with
  | None => Ret (- EINVAL)
  | Some _ => _linkg_switch_plan_apply_local peer_node_id peer_generation previous plan defer_if_sync_busy
  end.

(** The code and what it writes to [*sync_id]; [null] says that [sync_id] is NULL. *)
Definition linkg_switch_plan_submit_if_current (peer_node_id peer_generation : Z) (previous plan : option linkg_send_plan)
    (now_us : Z) (null : bool) : prog (Z * option Z) :=
  match previous with
  | Some _ => if null then Ret (- EINVAL, None)
              else _linkg_switch_plan_commit_local peer_node_id peer_generation previous plan now_us
  | None => Ret (- EINVAL, None)
  end.

(** ** State and results *)

Definition linkg_switch_plan_sync_get (peer_node_id peer_generation : Z) (null : bool) : prog (Z * linkg_switch_plan_sync_runtime) :=
  if null || negb (_linkg_switch_plan_peer_id_valid peer_node_id) || (peer_generation =? LINKG_SWITCH_PEER_GENERATION_INVALID)
  then Ret (- EINVAL, sync_zero)
  else locked (fun _ c =>
    if negb (sx_initialized c) then (c, [], (- ENODEV, sync_zero))
    else if negb (sx_role c =? LINKG_DEVICE_ROLE_STA) then (c, [], (- EPERM, sync_zero))
    else match linkg_switch_find_peer_generation_locked c peer_node_id peer_generation with
    | None => (c, [], (- ESTALE, sync_zero))
    | Some index => (c, [], (0, sp_plan_sync (the_peer c index)))
    end).

Definition result_taken (sync : linkg_switch_plan_sync_runtime) : linkg_switch_plan_sync_runtime :=
  SyncRuntime (ps_sync_id sync) (ps_message_id sync) (ps_state sync) (ps_wire_plan sync) (ps_last_status sync)
    (ps_retry_count sync) (ps_recovery_count sync) (ps_next_retry_us sync) (ps_deadline_us sync) (ps_last_result sync) false.

(** The code (1: a result) and the result of the first peer that has one. *)
Definition linkg_switch_plan_take_result (null : bool) : prog (Z * linkg_switch_plan_sync_result) :=
  if null then Ret (- EINVAL, sync_result_zero)
  else locked (fun _ c =>
    if negb (sx_initialized c) then (c, [], (- ENODEV, sync_result_zero))
    else if negb (sx_role c =? LINKG_DEVICE_ROLE_STA) then (c, [], (0, sync_result_zero))
    else match list_find (fun p => sp_used p = true /\ ps_result_pending (sp_plan_sync p) = true) (sx_peers c) with
    | Some (index, peer) =>
        (set_peer index (set_peer_sync (result_taken (sp_plan_sync peer)) peer) c, [], (1, ps_last_result (sp_plan_sync peer)))
    | None => (c, [], (0, sync_result_zero))
    end).

(** ** The access point receives a plan *)

(** The first section: a known message is answered with its status again, an old
    one is dropped, a new one is examined. *)
Inductive sync_seen :=
  | Stale
  | Duplicate (status : Z) (packet_pool : bool)
  | New.

Definition sync_event_seen (event : linkg_switch_event) : prog (outcome sync_seen) :=
  locked (fun _ c =>
    if negb (sx_initialized c) then (c, [], Return (- ENODEV))
    else if negb (sx_running c) then (c, [], Return (- ESHUTDOWN))
    else if negb (sx_role c =? LINKG_DEVICE_ROLE_AP) then (c, [], Return (- EPERM))
    else match linkg_switch_find_peer_generation_locked c (ev_peer_node_id event) (ev_peer_generation event) with
    | None => (c, [], Return (- ESTALE))
    | Some index =>
        let runtime := sp_ap (the_peer c index) in
        if (ev_message_id event =? ap_remote_plan_message_id runtime) &&
           negb (ap_remote_plan_message_id runtime =? LINKG_SWITCH_WIRE_MESSAGE_ID_INVALID)
        then (c, [], Go (Duplicate (ap_remote_plan_status runtime) (sx_packet_pool c)))
        else if negb (_linkg_switch_plan_message_id_newer (ev_message_id event) (ap_remote_plan_message_id runtime))
        then (c, [], Go Stale)
        else (c, [], Go New)
    end).

(** The second section: the message is looked at again, and a plan that can be
    carried out is applied. The result is the status and the pool. *)
Definition sync_event_apply (event : linkg_switch_event) (wire : linkg_switch_wire_plan_sync) (plan : linkg_send_plan) (status : Z)
    : prog (outcome (Z * bool)) :=
  locked (fun a c =>
    if negb (sx_initialized c) then (c, [], Return (- ENODEV))
    else if negb (sx_running c) then (c, [], Return (- ESHUTDOWN))
    else if negb (sx_role c =? LINKG_DEVICE_ROLE_AP) then (c, [], Return (- EPERM))
    else match linkg_switch_find_peer_generation_locked c (ev_peer_node_id event) (ev_peer_generation event) with
    | None => (c, [], Return (- ESTALE))
    | Some index =>
        let peer := the_peer c index in
        let runtime := sp_ap peer in
        let status := if (status =? 0) && _linkg_switch_plan_access_blocked_locked a c peer plan then - EBUSY else status in
        if negb (ap_remote_plan_message_id runtime =? LINKG_SWITCH_WIRE_MESSAGE_ID_INVALID) &&
           negb (_linkg_switch_plan_message_id_newer (ev_message_id event) (ap_remote_plan_message_id runtime))
        then
          if ev_message_id event =? ap_remote_plan_message_id runtime
          then (c, [], Go (ap_remote_plan_status runtime, sx_packet_pool c))
          else (c, [], Return 0)
        else
          let peer := set_peer_ap (ApPeer (ev_message_id event) status) peer in
          if status =? 0 then
            (set_peer index (set_peer_plan plan peer) c,
             [Applied (ev_peer_node_id event) (ev_message_id event) wire plan], Go (status, sx_packet_pool c))
          else (set_peer index peer c, [], Go (status, sx_packet_pool c))
    end).

Definition answer_sync_event (event : linkg_switch_event) (status : Z) (packet_pool : bool) : prog Z :=
  if negb packet_pool then Ret (- ENODEV)
  else
    let! current := linkg_switch_peer_generation_current (ev_peer_node_id event) (ev_peer_generation event) in
    if negb current then Ret (- ESTALE)
    else linkg_switch_tx_send_plan_ack packet_pool (ev_peer_node_id event) (ev_message_id event) (Some (WirePlanAck status)).

Definition _linkg_switch_plan_process_sync_event (event : linkg_switch_event) (wire : linkg_switch_wire_plan_sync) : prog Z :=
  let! seen := sync_event_seen event in
  match seen with
  | Return ret => Ret ret
  | Go Stale => Ret 0
  | Go (Duplicate status packet_pool) => answer_sync_event event status packet_pool
  | Go New =>
      let! (ret, plan) := _linkg_switch_plan_wire_to_local wire in
      let! status := (if ret =? 0 then _linkg_switch_plan_validate_targets (ev_peer_node_id event) plan else Ret ret) in
      let! applied := sync_event_apply event wire plan status in
      match applied with
      | Return ret => Ret ret
      | Go (status, packet_pool) => answer_sync_event event status packet_pool
      end
  end.

(** ** The station receives an acknowledgement *)

Definition _linkg_switch_plan_process_ack_event (event : linkg_switch_event) (ack : linkg_switch_wire_plan_ack) (now_us : Z) : prog Z :=
  locked (fun _ c =>
    if negb (sx_initialized c) then (c, [], - ENODEV)
    else if negb (sx_running c) then (c, [], - ESHUTDOWN)
    else if negb (sx_role c =? LINKG_DEVICE_ROLE_STA) then (c, [], - EPERM)
    else match linkg_switch_find_peer_generation_locked c (ev_peer_node_id event) (ev_peer_generation event) with
    | None => (c, [], - ESTALE)
    | Some index =>
        let peer := the_peer c index in
        let sync := sp_plan_sync peer in
        if (ps_sync_id sync =? LINKG_SWITCH_PLAN_SYNC_ID_INVALID) || negb (ps_message_id sync =? ev_message_id event) then (c, [], 0)
        else
          let waiting_late_success := (ps_state sync =? LINKG_SWITCH_PLAN_SYNC_RETRY_WAIT) && (wa_status ack =? 0) in
          if negb (ps_state sync =? LINKG_SWITCH_PLAN_SYNC_WAIT_ACK) && negb waiting_late_success then (c, [], 0)
          else if wa_status ack =? 0 then
            (set_peer index (_linkg_switch_plan_finish_sync_locked LINKG_SWITCH_PLAN_SYNC_CONFIRMED 0 now_us peer) c, [], 0)
          else (set_peer index (_linkg_switch_plan_round_failed_locked (wa_status ack) true now_us peer) c, [], 0)
    end).

(** The type says which member of the union the payload is. *)
Definition linkg_switch_plan_process_event (event : option linkg_switch_event) (now_us : Z) : prog Z :=
  match event with
  | Some e =>
      if now_us =? 0 then Ret (- EINVAL)
      else match ev_payload e with
      | PlanSync wire => if ev_type e =? LINKG_SWITCH_EVENT_PLAN_SYNC_RX then _linkg_switch_plan_process_sync_event e wire else Ret (- EINVAL)
      | PlanAck ack => if ev_type e =? LINKG_SWITCH_EVENT_PLAN_ACK_RX then _linkg_switch_plan_process_ack_event e ack now_us else Ret (- EINVAL)
      | _ => Ret (- EINVAL)
      end
  | None => Ret (- EINVAL)
  end.

(** ** The worker's periodic work *)

(** What the section of one peer decides: nothing to do, or a message to send
    (a copy of the synchronisation, the peer and the pool). *)
Inductive process_step :=
  | Idle
  | Due (sync : linkg_switch_plan_sync_runtime) (peer_generation peer_node_id : Z) (packet_pool : bool).

Definition resend (now_us : Z) (sync : linkg_switch_plan_sync_runtime) : linkg_switch_plan_sync_runtime :=
  SyncRuntime (ps_sync_id sync) (ps_message_id sync) (ps_state sync) (ps_wire_plan sync) (ps_last_status sync)
    (u32 (ps_retry_count sync + 1)) (ps_recovery_count sync) (u64 (now_us + LINKG_SWITCH_PLAN_SYNC_RETRY_INTERVAL_US))
    (ps_deadline_us sync) (ps_last_result sync) (ps_result_pending sync).

Definition process_peer (now_us : Z) (index : nat) (c : linkg_switch_context)
    : linkg_switch_context * list note * outcome process_step :=
  if negb (sx_initialized c) || negb (sx_running c) || negb (sx_role c =? LINKG_DEVICE_ROLE_STA) then
    (c, [], Return (if negb (sx_initialized c) then - ENODEV else if negb (sx_running c) then - ESHUTDOWN else 0))
  else
    let peer := the_peer c index in
    if negb (sp_used peer) then (c, [], Go Idle)
    else
      let sync := sp_plan_sync peer in
      if negb (_linkg_switch_plan_sync_busy sync) then (c, [], Go Idle)
      else if (ps_state sync =? LINKG_SWITCH_PLAN_SYNC_WAIT_ACK) &&
              ((ps_deadline_us sync <=? now_us) ||
               ((LINKG_SWITCH_PLAN_SYNC_RETRY_MAX <=? ps_retry_count sync) && (ps_next_retry_us sync <=? now_us)))
      then (set_peer index (_linkg_switch_plan_round_failed_locked (- ETIMEDOUT) false now_us peer) c, [], Go Idle)
      else if now_us <? ps_next_retry_us sync then (c, [], Go Idle)
      else
        let '(c, sync, notes) :=
          if ps_state sync =? LINKG_SWITCH_PLAN_SYNC_RETRY_WAIT then
            let '(c, sync) := _linkg_switch_plan_restart_sync_locked now_us c sync in
            (c, sync, [Started (ps_sync_id sync) (ps_message_id sync) (ps_wire_plan sync)])
          else if ps_state sync =? LINKG_SWITCH_PLAN_SYNC_WAIT_ACK then (c, resend now_us sync, [])
          else (c, sync, []) in
        (set_peer index (set_peer_sync sync peer) c, notes,
         Go (Due sync (sp_generation peer) (sp_peer_node_id peer) (sx_packet_pool c))).

(** The loop over the peers from [index] on. *)
Fixpoint process_peers (now_us : Z) (indices : list nat) (first_error : Z) : prog Z :=
  match indices with
  | [] => Ret first_error
  | index :: indices =>
      let! step := locked (fun _ c => process_peer now_us index c) in
      match step with
      | Return ret => Ret ret
      | Go Idle => process_peers now_us indices first_error
      | Go (Due sync peer_generation peer_node_id packet_pool) =>
          if negb packet_pool then process_peers now_us indices (if first_error =? 0 then - ENODEV else first_error)
          else
            let! current := _linkg_switch_plan_sync_message_current peer_node_id peer_generation (ps_sync_id sync) (ps_message_id sync) in
            if negb current then process_peers now_us indices first_error
            else
              let! ret := linkg_switch_tx_send_plan_sync packet_pool peer_node_id (ps_message_id sync) (Some (ps_wire_plan sync)) in
              process_peers now_us indices (if negb (ret =? 0) && (first_error =? 0) then ret else first_error)
      end
  end.

Definition linkg_switch_plan_process (now_us : Z) : prog Z :=
  if now_us =? 0 then Ret (- EINVAL)
  else process_peers now_us (seq 0 (Z.to_nat LINKG_SWITCH_PEER_MAX)) 0.

(** [UINT64_MAX]: nothing to wait for. *)
Definition linkg_switch_plan_next_deadline_locked (c : linkg_switch_context) : Z :=
  if negb (sx_initialized c) || negb (sx_running c) || negb (sx_role c =? LINKG_DEVICE_ROLE_STA) then 2 ^ 64 - 1
  else foldl (fun deadline_us index =>
    let peer := the_peer c index in
    let sync := sp_plan_sync peer in
    if negb (sp_used peer) then deadline_us
    else if negb (_linkg_switch_plan_sync_busy sync) then deadline_us
    else
      let deadline_us := if ps_next_retry_us sync <? deadline_us then ps_next_retry_us sync else deadline_us in
      if (ps_state sync =? LINKG_SWITCH_PLAN_SYNC_WAIT_ACK) && (ps_deadline_us sync <? deadline_us)
      then ps_deadline_us sync else deadline_us) (2 ^ 64 - 1) (seq 0 (Z.to_nat LINKG_SWITCH_PEER_MAX)).
