(* ===== verification/SwitchRx.v ===== *)
(** * Link switching: receiving control messages  (core/switch/switch_rx.c, linkg_switch.c, switch_runtime.c)

    The transport's callback decodes a batch of control messages and queues them as
    events; the worker takes the events out and gives them to their modules. Every
    function of switch_rx.c, the entry and exit of a callback and the reset of the
    runtime of linkg_switch.c, and the event loop of switch_runtime.c. *)

From S2P Require Import Prelude.
From S2P Require Import TransportTypes.
From S2P Require Import TransportPeer.
From S2P Require Import Link.
From S2P Require Import SwitchWire.
From S2P Require Import SwitchCore.
From S2P Require Import SwitchEvent.
From S2P Require Import SwitchPlan.
#[local] Open Scope switch_scope.

(** ** switch_rx.c *)

(** An item of the transport's batch; the packet is the bytes it holds. *)
Record linkg_transport_delivery := SwitchDelivery {
  sd_packet : option (list Z);
  sd_ingress_link_id : Z;
  sd_traffic_class : Z;
  sd_source_node_id : Z;
  sd_peer_node_id : Z }.

Definition _linkg_switch_rx_expected_state_error (error : Z) : bool :=
  (error =? - ENOENT) || (error =? - ENODEV) || (error =? - ESHUTDOWN).

Definition _linkg_switch_rx_record_error (error first_error : Z) : Z :=
  if error =? 0 then first_error
  else if _linkg_switch_rx_expected_state_error error then first_error
  else if first_error =? 0 then error else first_error.

Definition _linkg_switch_rx_delivery_valid (item : linkg_transport_delivery) (local_node_id : Z) : bool :=
  match sd_packet item with
  | None => false
  | Some _ =>
      if sd_ingress_link_id item =? LINKG_LINK_ID_INVALID then false
      else if sd_peer_node_id item =? local_node_id then false
      else if negb (sd_source_node_id item =? sd_peer_node_id item) then false
      else if (sd_peer_node_id item <? LINKG_RESOURCE_NODE_ID_MIN) || (LINKG_RESOURCE_NODE_ID_MAX <? sd_peer_node_id item) then false
      else sd_traffic_class item =? LINKG_TRANSPORT_CLASS_REALTIME
  end.

(** The event of a message of the peer; [event_post] writes the generation. *)
Definition event_of (type peer_node_id : Z) (message : linkg_switch_wire_message) : option linkg_switch_event :=
  Some (SwitchEvent type peer_node_id 0 (wh_message_id (ws_header message)) (ws_payload message)).

Definition _linkg_switch_rx_dispatch_quality (role peer_node_id : Z) (message : linkg_switch_wire_message)
    (report : linkg_switch_wire_quality_report) : prog Z :=
  if negb (role =? LINKG_DEVICE_ROLE_STA) then Ret 0
  else ask (Receive_quality peer_node_id (wh_message_id (ws_header message)) report).

Definition _linkg_switch_rx_dispatch_plan_sync (role peer_node_id : Z) (message : linkg_switch_wire_message) : prog Z :=
  if negb (role =? LINKG_DEVICE_ROLE_AP) then Ret 0
  else linkg_switch_event_post (event_of LINKG_SWITCH_EVENT_PLAN_SYNC_RX peer_node_id message).

Definition _linkg_switch_rx_dispatch_plan_ack (role peer_node_id : Z) (message : linkg_switch_wire_message) : prog Z :=
  if negb (role =? LINKG_DEVICE_ROLE_STA) then Ret 0
  else linkg_switch_event_post (event_of LINKG_SWITCH_EVENT_PLAN_ACK_RX peer_node_id message).

Definition _linkg_switch_rx_dispatch_maintenance (peer_node_id : Z) (message : linkg_switch_wire_message) : prog Z :=
  linkg_switch_event_post (event_of LINKG_SWITCH_EVENT_MAINTENANCE_RX peer_node_id message).

Definition _linkg_switch_rx_dispatch_maintenance_ack (peer_node_id : Z) (message : linkg_switch_wire_message) : prog Z :=
  linkg_switch_event_post (event_of LINKG_SWITCH_EVENT_MAINTENANCE_ACK_RX peer_node_id message).

(** The type of the header is the tag of the payload: the decoder checked it. *)
Definition _linkg_switch_rx_dispatch (role peer_node_id : Z) (message : option linkg_switch_wire_message) : prog Z :=
  match message with
  | None => Ret (- EINVAL)
  | Some m =>
      match ws_payload m with
      | QualityReport report => _linkg_switch_rx_dispatch_quality role peer_node_id m report
      | PlanSync _ => _linkg_switch_rx_dispatch_plan_sync role peer_node_id m
      | PlanAck _ => _linkg_switch_rx_dispatch_plan_ack role peer_node_id m
      | Maintenance _ => _linkg_switch_rx_dispatch_maintenance peer_node_id m
      | MaintenanceAck _ => _linkg_switch_rx_dispatch_maintenance_ack peer_node_id m
      end
  end.

(** ** linkg_switch.c *)

(** The role and the local node, or refused. *)
Definition linkg_switch_enter_receive (user_data : Z) : prog (option (Z * Z)) :=
  locked (fun _ c =>
    if sx_initialized c && sx_running c && (user_data =? sx_run_token c)
    then (set_rx_users (u32 (sx_rx_users c + 1)) c, [], Some (sx_role c, sx_local_node_id c))
    else (c, [], None)).

Definition linkg_switch_leave_receive : prog unit :=
  locked (fun _ c => (if negb (sx_rx_users c =? 0) then set_rx_users (sx_rx_users c - 1) c else c, [], tt)).

(** Of the fields that are here; the numbering of peers and messages goes on. *)
Definition _linkg_switch_reset_runtime_locked (c : linkg_switch_context) : linkg_switch_context :=
  linkg_switch_event_reset_locked
    (SwitchContext (sx_packet_pool c) (sx_role c) (sx_local_node_id c) (replicate 16 switch_peer_zero) (sx_event_queue c)
       (MaintenanceRuntime false 0) (sx_run_token c) (sx_rx_users c) (sx_next_peer_generation c) (sx_next_plan_sync_id c)
       (sx_next_plan_message_id c) (sx_initialized c) (sx_running c)).

(** ** The callback *)

(** A NULL array with a count is [None]; without one it is the empty batch. *)

Fixpoint receive_items (role local_node_id : Z) (items : list linkg_transport_delivery) (first_error : Z) : prog Z :=
  match items with
  | [] => Ret first_error
  | item :: items =>
      if negb (_linkg_switch_rx_delivery_valid item local_node_id) then receive_items role local_node_id items first_error
      else
        let data := default [] (sd_packet item) in
        let '(ret, message) := linkg_switch_wire_decode (Some data) (Z.of_nat (length data)) in
        if negb (ret =? 0) then receive_items role local_node_id items first_error
        else
          let! ret := _linkg_switch_rx_dispatch role (sd_peer_node_id item) message in
          receive_items role local_node_id items (_linkg_switch_rx_record_error ret first_error)
  end.

Definition linkg_switch_transport_receive (items : option (list linkg_transport_delivery)) (user_data : Z) : prog Z :=
  match items with
  | None => Ret (- EINVAL)
  | Some [] => Ret 0
  | Some l =>
      let! entered := linkg_switch_enter_receive user_data in
      match entered with
      | None => Ret 0
      | Some (role, local_node_id) =>
          let! first_error := receive_items role local_node_id l 0 in
          let! _ := linkg_switch_leave_receive in
          Ret first_error
      end
  end.

(** ** The worker takes the events out

    What a maintenance event changes in the context is a change of another module. *)

Definition _linkg_switch_runtime_process_event (event : linkg_switch_event) (now_us : Z) : prog Z :=
  if (ev_type event =? LINKG_SWITCH_EVENT_PLAN_SYNC_RX) || (ev_type event =? LINKG_SWITCH_EVENT_PLAN_ACK_RX)
  then linkg_switch_plan_process_event (Some event) now_us
  else if (ev_type event =? LINKG_SWITCH_EVENT_MAINTENANCE_RX) || (ev_type event =? LINKG_SWITCH_EVENT_MAINTENANCE_ACK_RX)
  then ask (Process_maintenance event now_us)
  else Ret (- EPROTONOSUPPORT).

(** [budget] turns are left; the codes are logged. *)
Fixpoint process_events (budget : nat) (now_us : Z) : prog unit :=
  match budget with
  | O => Ret tt
  | S budget =>
      let! event := locked (fun _ c => let '(c, event) := linkg_switch_event_pop_locked c in (c, [], event)) in
      match event with
      | None => Ret tt
      | Some e => let! _ := _linkg_switch_runtime_process_event e now_us in process_events budget now_us
      end
  end.

Definition _linkg_switch_runtime_process_events (now_us : Z) : prog unit :=
  process_events (Z.to_nat LINKG_SWITCH_EVENT_QUEUE_CAPACITY) now_us.

(** ** What other modules ask  (linkg_switch.c)

    The scheduler reads the plan of a class and the links under maintenance. *)

Definition linkg_switch_set_plan (peer_node_id : Z) (plan : option linkg_send_plan) : prog Z := linkg_switch_plan_set peer_node_id plan.
Definition linkg_switch_get_plan (peer_node_id : Z) (null : bool) : prog (Z * linkg_send_plan) := linkg_switch_plan_get peer_node_id null.
Definition linkg_switch_remove_plan (peer_node_id : Z) : prog Z := linkg_switch_plan_remove peer_node_id.

(** The code and, with code 0, [*plan]. *)
Definition linkg_switch_get_class_plan (peer_node_id traffic_class : Z) (null : bool) : prog (Z * linkg_class_send_plan) :=
  if null || negb ((0 <=? traffic_class) && (traffic_class <? LINKG_TRANSPORT_CLASS_COUNT)) then Ret (- EINVAL, local_class_zero)
  else
    let! (ret, peer_plan) := linkg_switch_plan_get peer_node_id false in
    if negb (ret =? 0) then Ret (ret, local_class_zero) else Ret (0, class_of peer_plan (Z.to_nat traffic_class)).

Definition linkg_switch_access_blocked (peer_node_id access : Z) : prog bool :=
  locked (fun _ c =>
    let maintenance :=
      match linkg_switch_find_peer_locked c peer_node_id with
      | Some index => sp_remote_maintenance (the_peer c index)
      | None => MaintenanceRuntime false 0
      end in
    (c, [], sx_initialized c && linkg_switch_maintenance_access_blocked_locked c maintenance access)).
