(* ===== verification/SwitchSystem.v ===== *)
(** * Link switching: threads, nodes and what they keep

    A node runs any number of threads of the functions of switch_plan.c and
    switch_rx.c over one context, interleaved at their critical sections,
    questions and transmissions; the rest of the module may change what it owns
    between any two of these steps, and the module may be reset. The log of a node
    is what was delivered to it, what it submitted, and the notes of its sections. *)

From S2P Require Import Prelude.
From S2P Require Import Bytes.
From S2P Require Import TransportTypes.
From S2P Require Import Link.
From S2P Require Import SwitchWire.
From S2P Require Import SwitchWireCodec.
From S2P Require Import SwitchCore.
From S2P Require Import SwitchEvent.
From S2P Require Import SwitchPlan.
From S2P Require Import SwitchRx.
#[local] Open Scope switch_scope.

(** ** Steps *)

Section system.

(** The links of the access types. [linkg_link_manager_get_id] gives the id of the
    registered link of the type, or the invalid id before it is registered; the code
    of [linkg_node_acquire_path] is an int. *)
Context (ids : Z -> Z).

Definition answer_ok (q : query) (z : Z) : Prop :=
  match q with
  | Link_id access => z = 0 \/ z = ids access
  | Acquire_path _ _ => - 2 ^ 31 <= z < 2 ^ 31
  | _ => True
  end.

Inductive prog_step {A} : prog A -> linkg_switch_context -> list note -> linkg_switch_context -> prog A -> Prop :=
  | Do_section f a c c' notes p : (forall q, answer_ok q (a q)) -> f a c = (c', notes, p) -> prog_step (Section f) c notes c' p
  | Do_ask q k z c : answer_ok q z -> prog_step (Ask q k) c [] c (k z)
  | Do_alloc k buffer c : prog_step (Alloc k) c [] c (k buffer)
  | Do_submit s k z c : prog_step (Submit s k) c [Submitted s] c (k z).

(** The calls of the module's functions by other modules and by the worker. *)
Inductive call :=
  | Call_set (peer_node_id : Z) (plan : option linkg_send_plan)
  | Call_get (peer_node_id : Z) (null : bool)
  | Call_remove (peer_node_id : Z)
  | Call_apply_local (peer_node_id peer_generation : Z) (plan : option linkg_send_plan)
  | Call_commit_local (peer_node_id peer_generation : Z) (plan : option linkg_send_plan) (now_us : Z)
  | Call_update (peer_node_id peer_generation : Z) (previous plan : option linkg_send_plan) (synchronize : bool) (now_us : Z)
  | Call_reconcile (peer_node_id peer_generation : Z) (previous plan : option linkg_send_plan) (defer_if_sync_busy : bool)
  | Call_submit (peer_node_id peer_generation : Z) (previous plan : option linkg_send_plan) (now_us : Z) (null : bool)
  | Call_sync_get (peer_node_id peer_generation : Z) (null : bool)
  | Call_take_result (null : bool)
  | Call_process (now_us : Z)
  | Call_receive (items : list linkg_transport_delivery) (user_data : Z)
  | Call_events (now_us : Z).

Definition done_with {A} (p : prog A) : prog unit := let! _ := p in Ret tt.

Definition thread_of (c : call) : prog unit :=
  match c with
  | Call_set n p => done_with (linkg_switch_plan_set n p)
  | Call_get n null => done_with (linkg_switch_plan_get n null)
  | Call_remove n => done_with (linkg_switch_plan_remove n)
  | Call_apply_local n g p => done_with (linkg_switch_plan_apply_local n g p)
  | Call_commit_local n g p now => done_with (linkg_switch_plan_commit_local n g p now)
  | Call_update n g previous p sync now => done_with (linkg_switch_plan_update_if_current n g previous p sync now)
  | Call_reconcile n g previous p defer => done_with (linkg_switch_plan_apply_reconcile_if_current n g previous p defer)
  | Call_submit n g previous p now null => done_with (linkg_switch_plan_submit_if_current n g previous p now null)
  | Call_sync_get n g null => done_with (linkg_switch_plan_sync_get n g null)
  | Call_take_result null => done_with (linkg_switch_plan_take_result null)
  | Call_process now => done_with (linkg_switch_plan_process now)
  | Call_receive items user_data => done_with (linkg_switch_transport_receive (Some items) user_data)
  | Call_events now => _linkg_switch_runtime_process_events now
  end.

(** What the transport delivered with a call. *)
Definition deliveries (c : call) : list note :=
  match c with
  | Call_receive items _ => (fun item => Delivered (sd_peer_node_id item) (default [] (sd_packet item))) <$> items
  | _ => []
  end.

(** The packets hold bytes. *)
Definition call_ok (c : call) : Prop :=
  match c with Call_receive items _ => Forall (fun item => Forall byte_ok (default [] (sd_packet item))) items | _ => True end.

(** What the rest of the module leaves alone: the identity, plan and
    synchronisation of every peer, the queue and the numbering. *)
Definition same_peer (p q : linkg_switch_peer_runtime) : Prop :=
  sp_used q = sp_used p /\ sp_peer_node_id q = sp_peer_node_id p /\ sp_generation q = sp_generation p /\
  sp_plan q = sp_plan p /\ sp_plan_sync q = sp_plan_sync p /\ sp_ap q = sp_ap p.

Definition other_change (c c' : linkg_switch_context) : Prop :=
  Forall2 same_peer (sx_peers c) (sx_peers c') /\ sx_event_queue c' = sx_event_queue c /\
  sx_next_plan_message_id c' = sx_next_plan_message_id c.

Record node := Node { nd_context : linkg_switch_context; nd_log : list note; nd_threads : list (prog unit) }.

Inductive node_step : node -> node -> Prop :=
  | Step_call c L T k : call_ok k -> node_step (Node c L T) (Node c (L ++ deliveries k) (T ++ [thread_of k]))
  | Step_thread c L T i p c' notes p' : T !! i = Some p -> prog_step p c notes c' p' ->
      node_step (Node c L T) (Node c' (L ++ notes) (<[i := p']> T))
  | Step_other c L T c' : other_change c c' -> node_step (Node c L T) (Node c' L T)
  | Step_reset c L T c' : other_change (_linkg_switch_reset_runtime_locked c) c' -> node_step (Node c L T) (Node c' L T).

(** From the context of a program that has not used the module yet. *)
Definition context_zero : linkg_switch_context :=
  SwitchContext false 0 0 (replicate 16 switch_peer_zero) queue_zero (MaintenanceRuntime false 0) 0 0 0 0 0 false false.

Inductive reachable : node -> Prop :=
  | Reach_init : reachable (Node context_zero [] [])
  | Reach_step n n' : reachable n -> node_step n n' -> reachable n'.

(** ** What a log says *)

(** The peer's message [id] with payload [p] was delivered. *)
Definition received (L : list note) (peer_node_id id : Z) (p : linkg_switch_wire_payload) : Prop :=
  exists data m, Delivered peer_node_id data ∈ L /\ linkg_switch_wire_decode (Some data) (Z.of_nat (length data)) = (0, Some m) /\
    wh_message_id (ws_header m) = id /\ ws_payload m = p.

Definition started (L : list note) (id : Z) (plan : linkg_switch_wire_plan_sync) : Prop := exists sync_id, Started sync_id id plan ∈ L.

Definition applied (L : list note) (peer_node_id id : Z) : Prop := exists wire plan, Applied peer_node_id id wire plan ∈ L.

(** The links of a plan are those of the access types of the wire plan. *)
Definition link_of (access : Z) : Z := if access =? LINKG_SWITCH_WIRE_ACCESS_NONE then LINKG_LINK_ID_INVALID else ids access.
Definition class_carries (w : linkg_switch_wire_class_send_plan) (l : linkg_class_send_plan) : Prop :=
  sc_mode l = wp_mode w /\ sc_primary_link_id l = link_of (wp_primary_access w) /\ sc_secondary_link_id l = link_of (wp_secondary_access w).
Definition carries_out (wire : linkg_switch_wire_plan_sync) (plan : linkg_send_plan) : Prop :=
  Forall2 class_carries (wire_class_of wire <$> plan_classes) (sn_classes plan).

(** What may be submitted. *)
Definition submission_ok (L : list note) (s : linkg_scheduler_submission) : Prop :=
  exists id p, sb_data s = message_bytes id p /\ payload_typed p /\ payload_valid p = true /\ in_range 32 id /\ id <> 0 /\
    match p with
    | PlanSync plan => started L id plan
    | PlanAck ack => wa_status ack = 0 -> applied L (sb_destination_node_id s) id
    | _ => True
    end.

(** ** The invariant *)

(** The ids of the rounds started, in order. *)
Definition started_ids (L : list note) : list Z := L ≫= (fun n => match n with Started _ id _ => [id] | _ => [] end).

(** Until the numbering wraps, the rounds are numbered from 1 on. *)
Definition numbering_ok (c : linkg_switch_context) (L : list note) : Prop :=
  let k := Z.of_nat (length (started_ids L)) in
  k < 2 ^ 32 -> sx_next_plan_message_id c = k /\ started_ids L = seqZ 1 k.

Definition sync_ok (L : list note) (peer_node_id : Z) (sync : linkg_switch_plan_sync_runtime) : Prop :=
  (ps_state sync <> LINKG_SWITCH_PLAN_SYNC_IDLE -> started L (ps_message_id sync) (ps_wire_plan sync)) /\
  (ps_state sync = LINKG_SWITCH_PLAN_SYNC_CONFIRMED -> received L peer_node_id (ps_message_id sync) (PlanAck (WirePlanAck 0))).

Definition ap_ok (L : list note) (peer_node_id : Z) (ap : linkg_switch_ap_peer_runtime) : Prop :=
  - 2 ^ 31 <= ap_remote_plan_status ap < 2 ^ 31 /\
  (ap_remote_plan_message_id ap <> LINKG_SWITCH_WIRE_MESSAGE_ID_INVALID -> ap_remote_plan_status ap = 0 ->
   applied L peer_node_id (ap_remote_plan_message_id ap)).

Definition peer_ok (L : list note) (p : linkg_switch_peer_runtime) : Prop :=
  sync_ok L (sp_peer_node_id p) (sp_plan_sync p) /\ ap_ok L (sp_peer_node_id p) (sp_ap p).

(** An event queued was delivered. *)
Definition event_ok (L : list note) (e : linkg_switch_event) : Prop :=
  (ev_type e = LINKG_SWITCH_EVENT_PLAN_SYNC_RX \/ ev_type e = LINKG_SWITCH_EVENT_PLAN_ACK_RX) ->
  ev_message_id e <> LINKG_SWITCH_WIRE_MESSAGE_ID_INVALID /\ in_range 32 (ev_message_id e) /\
  received L (ev_peer_node_id e) (ev_message_id e) (ev_payload e).

Definition note_ok (L : list note) (n : note) : Prop :=
  match n with
  | Submitted s => submission_ok L s
  | Started _ id plan => length (wp_classes plan) = 3%nat /\ in_range 32 id
  | Applied peer_node_id id wire plan => received L peer_node_id id (PlanSync wire) /\ carries_out wire plan
  | Delivered _ data => Forall byte_ok data
  end.

Record invariant (c : linkg_switch_context) (L : list note) : Prop := Invariant {
  inv_numbering : numbering_ok c L;
  inv_peers : Forall (peer_ok L) (sx_peers c);
  inv_events : Forall (event_ok L) (eq_items (sx_event_queue c));
  inv_notes : Forall (note_ok L) L }.

(** What holds of a log holds of a longer one. *)
Lemma received_mono L L' n id p : L ⊆ L' -> received L n id p -> received L' n id p.
Proof. intros H (data&m&Hd&?). exists data, m. split; [by apply H|done]. Qed.
Lemma started_mono L L' id plan : L ⊆ L' -> started L id plan -> started L' id plan.
Proof. intros H (s&Hs). exists s. by apply H. Qed.
Lemma applied_mono L L' n id : L ⊆ L' -> applied L n id -> applied L' n id.
Proof. intros H (w&p&Hs). exists w, p. by apply H. Qed.
#[local] Hint Resolve received_mono started_mono applied_mono : core.

Lemma submission_ok_mono L L' s : L ⊆ L' -> submission_ok L s -> submission_ok L' s.
Proof.
  intros H (id&p&E&?&?&?&?&Hp). exists id, p. splits; try done. destruct p; eauto.
Qed.
Lemma peer_ok_mono L L' p : L ⊆ L' -> peer_ok L p -> peer_ok L' p.
Proof. intros H [[H1 H2] [H3 H4]]. split; split; eauto. Qed.
Lemma event_ok_mono L L' e : L ⊆ L' -> event_ok L e -> event_ok L' e.
Proof. intros H He Ht. destruct (He Ht) as (?&?&?). splits; eauto. Qed.
Lemma note_ok_mono L L' n : L ⊆ L' -> note_ok L n -> note_ok L' n.
Proof.
  intros H. destruct n; cbn; try done.
  - by apply submission_ok_mono.
  - intros [? ?]. split; eauto.
Qed.

(** The log grows by notes that start nothing; nothing else changes. *)
Lemma invariant_grow c L notes : invariant c L -> started_ids notes = [] -> Forall (note_ok (L ++ notes)) notes -> invariant c (L ++ notes).
Proof.
  intros [H1 H2 H3 H4] Hs Hn. assert (L ⊆ L ++ notes) as Hsub by set_solver. split.
  - unfold numbering_ok, started_ids in *. by rewrite bind_app, Hs, app_nil_r.
  - eapply Forall_impl; [exact H2|]. intros p. by apply peer_ok_mono.
  - eapply Forall_impl; [exact H3|]. intros e. by apply event_ok_mono.
  - apply Forall_app. split; [|done]. eapply Forall_impl; [exact H4|]. intros n. by apply note_ok_mono.
Qed.

(** ** Threads that keep the invariant

    [wp p Q L]: from any context and log that extend [L] and satisfy the invariant,
    whatever the others do between its steps, [p] keeps it; when it ends, the log
    and the result satisfy [Q]. *)

Fixpoint wp {A} (p : prog A) (Q : list note -> A -> Prop) (L : list note) : Prop :=
  match p with
  | Ret a => Q L a
  | Section f => forall a c L', (forall q, answer_ok q (a q)) -> L ⊆ L' -> invariant c L' ->
      let '(c', notes, p') := f a c in invariant c' (L' ++ notes) /\ wp p' Q (L' ++ notes)
  | Ask q k => forall z, answer_ok q z -> wp (k z) Q L
  | Alloc k => forall buffer, wp (k buffer) Q L
  | Submit s k => submission_ok L s /\ forall z, wp (k z) Q (L ++ [Submitted s])
  end.

Lemma prog_wp_mono {A} (p : prog A) : forall (Q Q' : list note -> A -> Prop) L L',
  L ⊆ L' -> (forall M a, L' ⊆ M -> Q M a -> Q' M a) -> (forall M M' a, M ⊆ M' -> Q M a -> Q M' a) -> wp p Q L -> wp p Q' L'.
Proof.
  induction p as [a|f IH|q k IH|k IH|s k IH] using prog_induction; intros Q Q' L L' Hsub HQ Hst; cbn.
  - intros H. apply HQ; [done|]. by eapply Hst.
  - intros H a c M Ha HM Hi. assert (L ⊆ M) as HLM by set_solver. specialize (H a c M Ha HLM Hi). specialize (IH a c).
    destruct (f a c) as [[c' notes] p']. cbn in IH. destruct H as [H1 H2]. split; [done|].
    eapply (IH _ _ (M ++ notes)); [done| |done|done]. intros N x HN. apply HQ. set_solver.
  - intros H z Hz. eapply IH; eauto.
  - intros H b. eapply IH; eauto.
  - intros [Hs H]. split; [by eapply submission_ok_mono|]. intros z. eapply (IH z _ _ (L ++ [Submitted s])); [set_solver| |done|apply H].
    intros N x HN. apply HQ. set_solver.
Qed.

Lemma prog_wp_bind {A B} (p : prog A) (k : A -> prog B) (Q : list note -> B -> Prop) : forall L,
  wp p (fun M a => wp (k a) Q M) L -> wp (bind p k) Q L.
Proof.
  induction p as [a|f IH|q g IH|g IH|s g IH] using prog_induction; intros L; cbn.
  - done.
  - intros H a c M Ha HM Hi. specialize (H a c M Ha HM Hi). specialize (IH a c).
    destruct (f a c) as [[c' notes] p']. destruct H as [H1 H2]. split; [done|]. by apply IH.
  - intros H z Hz. by apply IH, H.
  - intros H b. by apply IH, H.
  - intros [Hs H]. split; [done|]. intros z. apply IH, H.
Qed.

Lemma wp_locked {A} (body : answers -> linkg_switch_context -> linkg_switch_context * list note * A) (Q : list note -> A -> Prop) L :
  (forall a c M, (forall q, answer_ok q (a q)) -> L ⊆ M -> invariant c M ->
     let '(c', notes, x) := body a c in invariant c' (M ++ notes) /\ Q (M ++ notes) x) ->
  wp (locked body) Q L.
Proof.
  intros H. unfold locked. cbn. intros a c M Ha HM Hi. specialize (H a c M Ha HM Hi). by destruct (body a c) as [[c' notes] x].
Qed.

(** A section whose outcome is known on each of its paths: the invariant without notes. *)
Lemma same_log {A} c L (Q : list note -> A -> Prop) x : invariant c L -> Q L x -> invariant c (L ++ []) /\ Q (L ++ []) x.
Proof. by rewrite app_nil_r. Qed.

Lemma invariant_set_peer c L i p : invariant c L -> peer_ok L p -> invariant (set_peer i p c) L.
Proof. intros [H1 H2 H3 H4] Hp. split; cbn; try done. by apply Forall_insert. Qed.

Lemma invariant_the_peer c L i : invariant c L -> peer_ok L (the_peer c i).
Proof.
  intros [_ H _ _]. unfold the_peer. destruct (sx_peers c !! i) as [p|] eqn:E; [by eapply Forall_lookup_1|].
  split; split; cbn; try done; lia.
Qed.

Lemma invariant_queue c L queue : invariant c L -> Forall (event_ok L) (eq_items queue) -> invariant (set_queue queue c) L.
Proof. intros [H1 H2 H3 H4] Hq. by split. Qed.

Lemma event_zero_ok L : event_ok L event_zero.
Proof. intros [H|H]; discriminate H. Qed.

(** ** Steps of a node keep the invariant *)

Lemma invariant_other c c' L : invariant c L -> other_change c c' -> invariant c' L.
Proof.
  intros [H1 H2 H3 H4] (Hp&Hq&Hm). split; [unfold numbering_ok; by rewrite Hm| |by rewrite Hq|done].
  clear -Hp H2. induction Hp as [|p q l l' (_&Hn&_&_&Hs&Ha) _ IH]; [done|]. apply Forall_cons in H2 as [Hp Hl]. constructor; [|by apply IH].
  unfold peer_ok. by rewrite Hn, Hs, Ha.
Qed.

Lemma invariant_reset c L : invariant c L -> invariant (_linkg_switch_reset_runtime_locked c) L.
Proof.
  intros [H1 H2 H3 H4]. split; cbn [sx_peers sx_event_queue eq_items]; try done.
  - apply Forall_replicate. split; split; cbn; try done; lia.
  - apply Forall_replicate, event_zero_ok.
Qed.

Lemma invariant_zero : invariant context_zero [].
Proof.
  split; cbn [sx_peers sx_event_queue eq_items context_zero]; try done.
  - apply Forall_replicate. split; split; cbn; try done; lia.
  - apply Forall_replicate, event_zero_ok.
Qed.

Lemma step_keeps {A} (p p' : prog A) (Q : list note -> A -> Prop) c c' L notes :
  (forall M M' a, M ⊆ M' -> Q M a -> Q M' a) -> prog_step p c notes c' p' -> invariant c L -> wp p Q L ->
  invariant c' (L ++ notes) /\ wp p' Q (L ++ notes).
Proof.
  intros HQ Hs Hi Hw. destruct Hs as [f a c c' notes p Ha E|q k z c Hz|k buffer c|s k z c]; cbn in Hw.
  - specialize (Hw a c L Ha ltac:(done) Hi). by rewrite E in Hw.
  - rewrite app_nil_r. split; [done|]. by apply Hw.
  - rewrite app_nil_r. by split.
  - destruct Hw as [Hs Hw]. split; [|done]. apply invariant_grow; [done..|]. constructor; [|done]. eapply submission_ok_mono; [|done]. set_solver.
Qed.

End system.
