(* ===== verification/SwitchPlanSafety.v ===== *)
(** * Link switching: the functions keep the invariant of a node

    One lemma per function of switch_tx.c, switch_plan.c, switch_rx.c and the event
    loop, then the properties of the nodes and of two nodes that talk to each
    other. *)

From S2P Require Import Prelude.
From S2P Require Import Bytes.
From S2P Require Import TransportTypes.
From S2P Require Import TransportPeer.
From S2P Require Import Link.
From S2P Require Import SwitchWire.
From S2P Require Import SwitchWireCodec.
From S2P Require Import SwitchCore.
From S2P Require Import SwitchTx.
From S2P Require Import SwitchEvent.
From S2P Require Import SwitchPlan.
From S2P Require Import SwitchRx.
From S2P Require Import SwitchSystem.
#[local] Open Scope switch_scope.

Section node.
Context (ids : Z -> Z).

#[local] Abbreviation wp := (SwitchSystem.wp ids).
#[local] Abbreviation invariant := (SwitchSystem.invariant ids).

(** The code of a C function. *)
Definition int_code (z : Z) : Prop := - 2 ^ 31 <= z < 2 ^ 31.

Ltac codes := unfold int_code, EINVAL, ENOENT, ENETDOWN, EBUSY, ENODEV in *; lia.

(** ** Transmission *)

Lemma wp_send_message pool n encode id p (Q : list note -> Z -> Prop) L :
  (forall b, encode (Some b) (Z.of_nat (length b)) = encode_payload id p b) ->
  payload_typed p -> in_range 32 id ->
  match p with
  | PlanSync plan => started L id plan
  | PlanAck ack => wa_status ack = 0 -> applied L n id
  | _ => True
  end ->
  (forall M z, L ⊆ M -> Q M z) -> wp (send_message pool n encode) Q L.
Proof.
  intros He Ht Hid Hp HQ. unfold send_message. apply prog_wp_bind. unfold _linkg_switch_tx_create_packet.
  destruct pool; cbn; [|by apply HQ]. intros z _. destruct (z =? 0); cbn; [by apply HQ|]. intros [data|]; cbn; [|by apply HQ].
  destruct (_ <? _); cbn; [by apply HQ|]. rewrite He.
  destruct (payload_valid p && negb (id =? 0) && (payload_size p <=? Z.of_nat (length data))) eqn:E.
  2: { rewrite encode_payload_error by done. destruct (payload_valid p && negb (id =? 0)); by apply HQ. }
  rewrite !andb_true_iff, negb_true_iff in E. destruct E as [[Hv Hnz] Hsize].
  rewrite encode_payload_spec by (done || lia). cbn [Z.eqb]. unfold _linkg_switch_tx_submit.
  destruct (negb _); cbn [SwitchSystem.wp]; [by apply HQ|]. destruct (_ || _ || _); cbn [SwitchSystem.wp]; [by apply HQ|].
  split; [|intros z'; apply HQ; set_solver]. exists id, p. cbn [sb_data sb_destination_node_id].
  unfold default, from_option, Datatypes.id. rewrite take_app_length' by (pose proof (length_message_bytes id p Ht); lia). splits; try done. lia.
Qed.

Lemma wp_send_sync pool n id plan (Q : list note -> Z -> Prop) L :
  length (wp_classes plan) = 3%nat -> in_range 32 id -> started L id plan -> (forall M z, L ⊆ M -> Q M z) ->
  wp (linkg_switch_tx_send_plan_sync pool n id (Some plan)) Q L.
Proof. intros. by eapply (wp_send_message _ _ _ id (PlanSync plan)). Qed.

Lemma wp_send_ack pool n id status (Q : list note -> Z -> Prop) L :
  int_code status -> in_range 32 id -> (status = 0 -> applied L n id) -> (forall M z, L ⊆ M -> Q M z) ->
  wp (linkg_switch_tx_send_plan_ack pool n id (Some (WirePlanAck status))) Q L.
Proof. intros. by eapply (wp_send_message _ _ _ id (PlanAck (WirePlanAck status))). Qed.

(** ** Conversions and paths: the log stays *)

Lemma wp_access_to_link access (Q : list note -> Z * Z -> Prop) L :
  Q L (0, link_of ids access) -> (forall ret y, ret <> 0 -> int_code ret -> Q L (ret, y)) ->
  wp (_linkg_switch_plan_access_to_link access) Q L.
Proof.
  intros H0 He. unfold _linkg_switch_plan_access_to_link. unfold link_of in H0.
  destruct (Z.eqb_spec access LINKG_SWITCH_WIRE_ACCESS_NONE); [done|].
  destruct (Z.eqb_spec access LINKG_SWITCH_WIRE_ACCESS_WIFI) as [->|_]; [|destruct (Z.eqb_spec access LINKG_SWITCH_WIRE_ACCESS_CELLULAR) as [->|_]];
    cbn; [..|apply He; codes].
  all: intros z Hz; destruct (Z.eqb_spec z LINKG_LINK_ID_INVALID) as [|Hnz]; [apply He; codes|]; destruct Hz as [-> | ->]; [done|exact H0].
Qed.

Lemma wp_class_to_local w (Q : list note -> Z * linkg_class_send_plan -> Prop) L :
  (forall y, class_carries ids w y -> Q L (0, y)) -> (forall ret y, ret <> 0 -> int_code ret -> Q L (ret, y)) ->
  wp (class_to_local w) Q L.
Proof.
  intros H0 He. unfold class_to_local.
  destruct (Z.eqb_spec (wp_mode w) LINKG_SWITCH_WIRE_MODE_NONE) as [Em|Hm].
  { destruct (_ || _) eqn:Ea; [apply He; codes|]. rewrite orb_false_iff, !negb_false_iff, !Z.eqb_eq in Ea. destruct Ea as [E1 E2].
    apply H0. unfold class_carries, link_of. rewrite Em, E1, E2. done. }
  destruct (negb _ && negb _) eqn:E; [apply He; codes|].
  apply prog_wp_bind, wp_access_to_link; [|intros; by destruct (Z.eqb_spec ret 0); [|apply He]]. cbn [Z.eqb negb].
  apply prog_wp_bind, wp_access_to_link; [|intros; by destruct (Z.eqb_spec ret 0); [|apply He]]. cbn [Z.eqb negb].
  apply H0. unfold class_carries. cbn. splits; [|done..].
  unfold LINKG_SWITCH_WIRE_MODE_SINGLE, LINKG_SWITCH_WIRE_MODE_REDUNDANT, LINKG_SEND_MODE_SINGLE, LINKG_SEND_MODE_REDUNDANT in *.
  case_match; lia.
Qed.

Lemma wp_convert {A B} (turn : A -> prog (Z * B)) (R : A -> B -> Prop) (code : Z -> Prop) L :
  (forall x (Q : list note -> Z * B -> Prop), (forall y, R x y -> Q L (0, y)) ->
     (forall ret y, ret <> 0 -> code ret -> Q L (ret, y)) -> wp (turn x) Q L) ->
  forall l (Q : list note -> Z * list B -> Prop), (forall ys, Forall2 R l ys -> Q L (0, ys)) ->
    (forall ret ys, ret <> 0 -> code ret -> Q L (ret, ys)) -> wp (convert turn l) Q L.
Proof.
  intros Ht l. induction l as [|x l IH]; intros Q H0 He; cbn [convert]; [by apply H0|].
  apply prog_wp_bind, Ht; [|intros; destruct (Z.eqb_spec ret 0); [done|by apply He]]. intros y Hy. cbn [Z.eqb negb].
  apply prog_wp_bind, IH; [|by intros; apply He]. intros ys Hys. apply H0. by constructor.
Qed.

Lemma wp_wire_to_local wire (Q : list note -> Z * linkg_send_plan -> Prop) L :
  (forall plan, carries_out ids wire plan -> Q L (0, plan)) -> (forall ret plan, ret <> 0 -> int_code ret -> Q L (ret, plan)) ->
  wp (_linkg_switch_plan_wire_to_local wire) Q L.
Proof.
  intros H0 He. unfold _linkg_switch_plan_wire_to_local. apply prog_wp_bind.
  apply (wp_convert _ (class_carries ids) int_code); [intros; by apply wp_class_to_local| |].
  - intros ys Hys. cbn [Z.eqb negb]. cbn. case_match; [by apply H0|apply He; codes].
  - intros ret ys Hr Hc. destruct (Z.eqb_spec ret 0); [done|]. by apply He.
Qed.

Lemma wp_link_to_access link_id (Q : list note -> Z * Z -> Prop) L : (forall ret access, Q L (ret, access)) ->
  wp (_linkg_switch_plan_link_to_access link_id) Q L.
Proof. intros HQ. unfold _linkg_switch_plan_link_to_access. case_match; [apply HQ|]. cbn. intros. repeat case_match; apply HQ. Qed.

Lemma wp_local_to_wire plan (Q : list note -> Z * linkg_switch_wire_plan_sync -> Prop) L :
  (forall ret wire, (ret = 0 -> length (wp_classes wire) = 3%nat) -> Q L (ret, wire)) ->
  wp (_linkg_switch_plan_local_to_wire plan) Q L.
Proof.
  intros HQ. unfold _linkg_switch_plan_local_to_wire. destruct plan as [p|]; [|by apply HQ]. destruct (negb _); [by apply HQ|].
  apply prog_wp_bind, (wp_convert _ (fun _ _ => True) (fun _ => True)).
  - intros x Q' H0 He. unfold class_to_wire. destruct (_ =? _); [by apply H0|].
    apply prog_wp_bind, wp_link_to_access. intros ret primary. destruct (Z.eqb_spec ret 0); cbn [negb]; [|by apply He].
    apply prog_wp_bind, wp_link_to_access. intros ret' secondary. destruct (Z.eqb_spec ret' 0); cbn [negb]; [|by apply He].
    destruct (_ || _); [by apply He|by apply H0].
  - intros ys Hys. apply HQ. intros _. cbn [wp_classes]. by apply Forall2_length in Hys.
  - intros ret ys Hr _. by apply HQ.
Qed.

Lemma wp_validate_path n link_id (Q : list note -> Z -> Prop) L : (forall z, int_code z -> Q L z) ->
  wp (_linkg_switch_plan_validate_path n link_id) Q L.
Proof.
  intros HQ. unfold _linkg_switch_plan_validate_path. case_match; [apply HQ; codes|]. cbn. intros z _.
  case_match; cbn; [apply HQ; codes|]. intros z' _. case_match; cbn; [apply HQ; codes|]. intros z'' Hz. by apply HQ.
Qed.

Lemma wp_validate_classes n L : forall classes (Q : list note -> Z -> Prop), (forall z, int_code z -> Q L z) ->
  wp (validate_classes n classes) Q L.
Proof.
  intros classes. induction classes as [|x classes IH]; intros Q HQ; cbn [validate_classes]; [apply HQ; codes|].
  case_match; [by apply IH|]. apply prog_wp_bind, wp_validate_path. intros z Hz. case_match; [by apply HQ|].
  case_match; [|by apply IH]. apply prog_wp_bind, wp_validate_path. intros z' Hz'. case_match; [by apply HQ|by apply IH].
Qed.

(** ** Sections *)

(** The outcomes of the checks that change nothing. *)
Ltac unchanged := apply same_log; [assumption|].

Lemma finish_ok L state status now p : peer_ok L p ->
  (state = LINKG_SWITCH_PLAN_SYNC_CONFIRMED -> received L (sp_peer_node_id p) (ps_message_id (sp_plan_sync p)) (PlanAck (WirePlanAck 0))) ->
  peer_ok L (_linkg_switch_plan_finish_sync_locked state status now p).
Proof.
  intros [[Hs Hc] Ha] Hr. unfold _linkg_switch_plan_finish_sync_locked, _linkg_switch_plan_sync_busy.
  destruct (negb _) eqn:E; [by split|]. rewrite negb_false_iff, orb_true_iff, !Z.eqb_eq in E.
  split; [|done]. split; [|exact Hr]. cbn. intros _. apply Hs. destruct E as [-> | ->]; done.
Qed.

Lemma cancel_ok L role now p : peer_ok L p -> peer_ok L (_linkg_switch_plan_cancel_sync_locked role now p).
Proof. intros Hp. unfold _linkg_switch_plan_cancel_sync_locked. case_match; [done|]. by apply finish_ok. Qed.

Lemma round_failed_ok L status rejected now p : peer_ok L p -> ps_state (sp_plan_sync p) <> LINKG_SWITCH_PLAN_SYNC_IDLE ->
  peer_ok L (_linkg_switch_plan_round_failed_locked status rejected now p).
Proof.
  intros Hp Hs. unfold _linkg_switch_plan_round_failed_locked. case_match; [apply finish_ok; [done|by destruct rejected]|].
  destruct Hp as [[H1 H2] H3]. split; [|done]. split; cbn; [by intros _; apply H1|done].
Qed.

Lemma plan_ok L plan p : peer_ok L p -> peer_ok L (set_peer_plan plan p).
Proof. done. Qed.


Lemma zero_peer_ok L n g plan m : peer_ok L (SwitchPeer true n g plan m sync_zero (sp_ap switch_peer_zero)).
Proof. split; split; cbn; try done; lia. Qed.

Lemma invariant_counters c L g s : invariant c L -> invariant (set_counters g s (sx_next_plan_message_id c) c) L.
Proof. intros [H1 H2 H3 H4]. by split. Qed.

(** Results that hold of any longer log. *)
Definition stable {A} (Q : list note -> A -> Prop) (L : list note) : Prop := forall M x, L ⊆ M -> Q M x.

Lemma wp_set n plan (Q : list note -> Z -> Prop) L : stable Q L -> wp (linkg_switch_plan_set n plan) Q L.
Proof.
  intros HQ. unfold linkg_switch_plan_set. destruct plan as [new|]; [|by apply HQ]. destruct (_ || _); [by apply HQ|].
  apply wp_locked. intros a c M Ha HM Hi. destruct (negb _); [unchanged; by apply HQ|].
  destruct (linkg_switch_find_peer_locked c n) as [i|].
  - apply same_log; [|by apply HQ]. apply invariant_set_peer; [done|]. apply plan_ok. pose proof (invariant_the_peer ids c M i Hi).
    case_match; [by apply cancel_ok|done].
  - destruct (_linkg_switch_plan_find_unused_peer_locked c) as [i|]; [|unchanged; by apply HQ].
    apply same_log; [|by apply HQ]. apply invariant_set_peer; [by apply invariant_counters|apply zero_peer_ok].
Qed.

Lemma wp_get_plan n null (Q : list note -> Z * linkg_send_plan -> Prop) L : stable Q L -> wp (linkg_switch_plan_get n null) Q L.
Proof.
  intros HQ. unfold linkg_switch_plan_get. destruct (_ || _); [by apply HQ|]. apply wp_locked. intros a c M Ha HM Hi.
  destruct (negb _); [unchanged; by apply HQ|]. destruct (linkg_switch_find_peer_locked c n); unchanged; by apply HQ.
Qed.

Lemma wp_remove n (Q : list note -> Z -> Prop) L : stable Q L -> wp (linkg_switch_plan_remove n) Q L.
Proof.
  intros HQ. unfold linkg_switch_plan_remove. destruct (negb _); [by apply HQ|]. apply wp_locked. intros a c M Ha HM Hi.
  destruct (negb _); [unchanged; by apply HQ|]. destruct (linkg_switch_find_peer_locked c n); [|unchanged; by apply HQ]. apply same_log; [|by apply HQ].
  apply invariant_set_peer; [done|]. split; split; cbn; try done; lia.
Qed.

Lemma wp_apply_local n g previous plan defer (Q : list note -> Z -> Prop) L : stable Q L ->
  wp (_linkg_switch_plan_apply_local n g previous plan defer) Q L.
Proof.
  intros HQ. unfold _linkg_switch_plan_apply_local. destruct plan as [new|]; [|by apply HQ]. destruct (_ || _); [by apply HQ|].
  apply wp_locked. intros a c M Ha HM Hi. destruct (negb (sx_initialized c)); [unchanged; by apply HQ|].
  destruct (negb _); [unchanged; by apply HQ|]. destruct (linkg_switch_find_peer_generation_locked c n g) as [i|]; [|unchanged; by apply HQ].
  destruct (previous_changed _ _); [unchanged; by apply HQ|]. destruct (_ && _); [unchanged; by apply HQ|].
  destruct (_linkg_switch_plan_access_blocked_locked _ _ _ _); [unchanged; by apply HQ|].
  apply same_log; [|by apply HQ]. apply invariant_set_peer; [done|]. apply plan_ok. pose proof (invariant_the_peer ids c M i Hi).
  case_match; [by apply cancel_ok|done].
Qed.

Lemma next_number_range k : in_range 32 (next_number k).
Proof. unfold next_number. case_match; apply wrap_range; lia. Qed.

(** A new round: the next number, its note, and a synchronisation that waits for it. *)
Lemma next_number_small k : 0 <= k -> k + 1 < 2 ^ 32 -> next_number k = k + 1.
Proof. intros Hk Hl. unfold next_number. rewrite wrap_small by (widths; lia). destruct (Z.eqb_spec (k + 1) 0); [lia|done]. Qed.

Lemma seqZ_one k : seqZ (1 + k) 1 = [k + 1].
Proof. change (seqZ (1 + k) 1) with [Z.of_nat 0 + (1 + k)]. f_equal. lia. Qed.

Lemma invariant_start c L i p g s sid plan : invariant c L -> length (wp_classes plan) = 3%nat ->
  let id := next_number (sx_next_plan_message_id c) in
  peer_ok (L ++ [Started sid id plan]) p ->
  invariant (set_peer i p (set_counters g s id c)) (L ++ [Started sid id plan]).
Proof.
  intros [H1 H2 H3 H4] Hlen id Hp. assert (L ⊆ L ++ [Started sid id plan]) as Hsub by set_solver. split; cbn.
  - unfold numbering_ok in *. unfold started_ids in *. rewrite bind_app. cbn [mbind list_bind app]. rewrite length_app. cbn.
    intros Hk. destruct H1 as [E1 E2]; [lia|]. subst id. rewrite E1, next_number_small by lia. split; [lia|].
    rewrite E2 at 1. rewrite Nat2Z.inj_add, seqZ_app by lia. f_equal. change (Z.of_nat 1) with 1. by rewrite seqZ_one.
  - apply Forall_insert; [|done]. eapply Forall_impl; [exact H2|]. intros q. by apply peer_ok_mono.
  - eapply Forall_impl; [exact H3|]. intros e. by apply event_ok_mono.
  - apply Forall_app. split; [|constructor; [split; [done|apply next_number_range]|done]].
    eapply Forall_impl; [exact H4|]. intros n. by apply note_ok_mono.
Qed.

Lemma wp_commit_section n g previous new wire now (Q : list note -> outcome committed -> Prop) L :
  length (wp_classes wire) = 3%nat -> (forall M ret, L ⊆ M -> Q M (Return ret)) ->
  (forall M cm, L ⊆ M -> in_range 32 (cm_message_id cm) -> started M (cm_message_id cm) wire -> Q M (Go cm)) ->
  wp (commit_section n g previous new wire now) Q L.
Proof.
  intros Hlen HQ HG. unfold commit_section. apply wp_locked. intros a c M Ha HM Hi.
  destruct (negb (sx_initialized c)); [unchanged; by apply HQ|]. destruct (negb (sx_running c)); [unchanged; by apply HQ|].
  destruct (negb (sx_role c =? _)); [unchanged; by apply HQ|].
  destruct (linkg_switch_find_peer_generation_locked c n g) as [i|]; [|unchanged; by apply HQ].
  destruct (previous_changed _ _); [unchanged; by apply HQ|].
  destruct (_linkg_switch_plan_access_blocked_locked _ _ _ _); [unchanged; by apply HQ|].
  destruct (negb _); [unchanged; by apply HQ|].
  cbn [_linkg_switch_plan_start_sync_locked _linkg_switch_plan_allocate_sync_id_locked _linkg_switch_plan_allocate_message_id_locked
    sx_next_plan_message_id set_counters ps_sync_id ps_message_id sp_plan_sync set_peer_sync].
  pose proof (cancel_ok M (sx_role c) now (the_peer c i) (invariant_the_peer ids c M i Hi)) as Hp.
  split.
  - apply (invariant_start c M i _ _ _ (next_number (sx_next_plan_sync_id c)) wire); [done|done|].
    destruct Hp as [_ Hap]. split; [split; cbn; [|done]|].
    + intros _. eexists. apply elem_of_app. right. by apply list_elem_of_singleton.
    + split; [apply Hap|]. intros H1 H2. eapply applied_mono; [|by apply Hap]. set_solver.
  - apply HG; [set_solver|apply next_number_range|]. cbn. eexists. apply elem_of_app. right. by apply list_elem_of_singleton.
Qed.

Lemma wp_message_current n g sid id (Q : list note -> bool -> Prop) L : stable Q L ->
  wp (_linkg_switch_plan_sync_message_current n g sid id) Q L.
Proof. intros HQ. unfold _linkg_switch_plan_sync_message_current. apply wp_locked. intros a c M Ha HM Hi. unchanged. by apply HQ. Qed.

Lemma stable_mono {A} (Q : list note -> A -> Prop) L M : L ⊆ M -> stable Q L -> stable Q M.
Proof. intros H HQ N x HN. apply HQ. set_solver. Qed.

Lemma wp_send_committed n g sid id wire pool (Q : list note -> unit -> Prop) L :
  length (wp_classes wire) = 3%nat -> in_range 32 id -> started L id wire -> stable Q L ->
  wp (_linkg_switch_plan_send_committed n g sid id wire pool) Q L.
Proof.
  intros Hlen Hid Hs HQ. apply prog_wp_bind, wp_message_current. intros M current HM. destruct (negb current); [by apply HQ|].
  apply prog_wp_bind, wp_send_sync; [done|done|by eapply started_mono|]. intros N z HN. apply HQ. set_solver.
Qed.

Lemma wp_commit_local n g previous plan now (Q : list note -> Z * option Z -> Prop) L : stable Q L ->
  wp (_linkg_switch_plan_commit_local n g previous plan now) Q L.
Proof.
  intros HQ. unfold _linkg_switch_plan_commit_local. destruct plan as [new|]; [|by apply HQ]. destruct (_ || _); [by apply HQ|].
  apply prog_wp_bind, wp_local_to_wire. intros ret wire Hlen. destruct (Z.eqb_spec ret 0) as [->|]; [|by apply HQ]. cbn [negb].
  apply prog_wp_bind, wp_validate_classes. intros ret _. destruct (negb _); [by apply HQ|].
  apply prog_wp_bind, wp_commit_section; [by apply Hlen|intros; by apply HQ|]. intros M cm HM Hid Hs.
  apply prog_wp_bind, wp_send_committed; [by apply Hlen|done|done|]. intros N x HN. apply HQ. set_solver.
Qed.

Lemma wp_sync_get n g null (Q : list note -> Z * linkg_switch_plan_sync_runtime -> Prop) L : stable Q L ->
  wp (linkg_switch_plan_sync_get n g null) Q L.
Proof.
  intros HQ. unfold linkg_switch_plan_sync_get. destruct (_ || _); [by apply HQ|]. apply wp_locked. intros a c M Ha HM Hi.
  destruct (negb _); [unchanged; by apply HQ|]. destruct (negb _); [unchanged; by apply HQ|].
  destruct (linkg_switch_find_peer_generation_locked c n g); unchanged; by apply HQ.
Qed.

Lemma wp_take_result null (Q : list note -> Z * linkg_switch_plan_sync_result -> Prop) L : stable Q L ->
  wp (linkg_switch_plan_take_result null) Q L.
Proof.
  intros HQ. unfold linkg_switch_plan_take_result. destruct null; [by apply HQ|]. apply wp_locked. intros a c M Ha HM Hi.
  destruct (negb _); [unchanged; by apply HQ|]. destruct (negb _); [unchanged; by apply HQ|].
  destruct (list_find _ (sx_peers c)) as [[i p]|] eqn:E; [|unchanged; by apply HQ].
  apply same_log; [|by apply HQ]. apply invariant_set_peer; [done|]. apply list_find_Some in E as (E&_&_).
  pose proof (inv_peers _ _ _ Hi) as Hp. rewrite Forall_lookup in Hp. apply Hp in E. exact E.
Qed.

(** ** Events *)

Lemma find_peer_node c n i : linkg_switch_find_peer_locked c n = Some i -> sp_peer_node_id (the_peer c i) = n.
Proof.
  unfold linkg_switch_find_peer_locked. destruct (list_find _ (sx_peers c)) as [[j p]|] eqn:E; cbn; [|done]. intros [= ->].
  apply list_find_Some in E as (E&[_ En]&_). unfold the_peer. by rewrite E.
Qed.

Lemma find_peer_generation_node c n g i : linkg_switch_find_peer_generation_locked c n g = Some i ->
  sp_peer_node_id (the_peer c i) = n.
Proof.
  unfold linkg_switch_find_peer_generation_locked. destruct (g =? _); [done|].
  destruct (linkg_switch_find_peer_locked c n) as [j|] eqn:E; [|done]. destruct (_ =? _); [|done]. intros [= <-]. by apply find_peer_node.
Qed.

Lemma wp_answer e status pool (Q : list note -> Z -> Prop) L :
  int_code status -> in_range 32 (ev_message_id e) -> (status = 0 -> applied L (ev_peer_node_id e) (ev_message_id e)) ->
  stable Q L -> wp (answer_sync_event e status pool) Q L.
Proof.
  intros Hc Hid Hs HQ. unfold answer_sync_event. destruct (negb pool); [by apply HQ|].
  apply prog_wp_bind. unfold linkg_switch_peer_generation_current. apply wp_locked. intros a c M Ha HM Hi. rewrite app_nil_r. split; [done|].
  destruct (negb _); [by apply HQ|]. apply wp_send_ack; [done|done| |].
  - intros E. eapply applied_mono; [exact HM|by apply Hs].
  - intros N z HN. apply HQ. set_solver.
Qed.

Lemma wp_seen e (Q : list note -> outcome sync_seen -> Prop) L :
  ev_message_id e <> LINKG_SWITCH_WIRE_MESSAGE_ID_INVALID ->
  (forall M ret, L ⊆ M -> Q M (Return ret)) -> (forall M, L ⊆ M -> Q M (Go Stale)) -> (forall M, L ⊆ M -> Q M (Go New)) ->
  (forall M status pool, L ⊆ M -> int_code status -> (status = 0 -> applied M (ev_peer_node_id e) (ev_message_id e)) ->
     Q M (Go (Duplicate status pool))) ->
  wp (sync_event_seen e) Q L.
Proof.
  intros Hnz HR HS HN HD. unfold sync_event_seen. apply wp_locked. intros a c M Ha HM Hi.
  destruct (negb (sx_initialized c)); [unchanged; by apply HR|]. destruct (negb (sx_running c)); [unchanged; by apply HR|].
  destruct (negb (sx_role c =? _)); [unchanged; by apply HR|].
  destruct (linkg_switch_find_peer_generation_locked c _ _) as [i|] eqn:Ef; [|unchanged; by apply HR].
  destruct (invariant_the_peer ids c M i Hi) as [_ [Hc Hap]]. rewrite (find_peer_generation_node _ _ _ _ Ef) in Hap.
  destruct (_ && _) eqn:E.
  2: { destruct (negb (_linkg_switch_plan_message_id_newer _ _)); unchanged; [by apply HS|by apply HN]. }
  rewrite andb_true_iff, Z.eqb_eq, negb_true_iff, Z.eqb_neq in E. destruct E as [E1 E2]. unchanged. apply HD; [done|done|].
  rewrite E1. by apply Hap.
Qed.

Lemma wp_apply e wire plan status (Q : list note -> outcome (Z * bool) -> Prop) L :
  int_code status -> (status = 0 -> carries_out ids wire plan) -> ev_message_id e <> LINKG_SWITCH_WIRE_MESSAGE_ID_INVALID ->
  received L (ev_peer_node_id e) (ev_message_id e) (PlanSync wire) ->
  (forall M ret, L ⊆ M -> Q M (Return ret)) ->
  (forall M status pool, L ⊆ M -> int_code status -> (status = 0 -> applied M (ev_peer_node_id e) (ev_message_id e)) ->
     Q M (Go (status, pool))) ->
  wp (sync_event_apply e wire plan status) Q L.
Proof.
  intros Hc Hw Hnz Hr HR HG. unfold sync_event_apply. apply wp_locked. intros a c M Ha HM Hi.
  destruct (negb (sx_initialized c)); [unchanged; by apply HR|]. destruct (negb (sx_running c)); [unchanged; by apply HR|].
  destruct (negb (sx_role c =? _)); [unchanged; by apply HR|].
  destruct (linkg_switch_find_peer_generation_locked c _ _) as [i|] eqn:Ef; [|unchanged; by apply HR].
  pose proof (invariant_the_peer ids c M i Hi) as Hp. pose proof (find_peer_generation_node _ _ _ _ Ef) as En.
  set (st := if (status =? 0) && _ then _ else _).
  assert (int_code st /\ (st = 0 -> status = 0)) as [Hst H0] by (subst st; case_match; [split; [codes|done]|done]).
  pose proof Hp as [Hsync [Hcode Hap]]. rewrite En in Hap. destruct (_ && negb _).
  - destruct (Z.eqb_spec (ev_message_id e) (ap_remote_plan_message_id (sp_ap (the_peer c i)))) as [E|]; [|unchanged; by apply HR].
    unchanged. apply HG; [done|done|]. rewrite E. apply Hap. congruence.
  - destruct (Z.eqb_spec st 0) as [E|E].
    + set (n := Applied _ _ _ _). assert (n ∈ M ++ [n]) as Hn by set_solver.
      assert (M ⊆ M ++ [n]) as Hsub by set_solver. split; [|apply HG; [set_solver|done|intros _; by do 2 eexists]].
      apply invariant_set_peer.
      * apply invariant_grow; [done|done|]. constructor; [|done]. split; [eapply received_mono; [|exact Hr]; set_solver|by apply Hw, H0].
      * split; [exact (proj1 (peer_ok_mono M _ _ Hsub Hp))|]. split; cbn; [done|]. intros _ _. rewrite En. by do 2 eexists.
    + apply same_log; [|by apply HG]. apply invariant_set_peer; [done|]. split; [done|]. split; cbn; [done|]. by intros _ ?.
Qed.

Lemma wp_process_sync_event e wire (Q : list note -> Z -> Prop) L :
  event_ok L e -> ev_type e = LINKG_SWITCH_EVENT_PLAN_SYNC_RX -> ev_payload e = PlanSync wire -> stable Q L ->
  wp (_linkg_switch_plan_process_sync_event e wire) Q L.
Proof.
  intros He Hty Hpl HQ. destruct He as (Hnz&Hid&Hr); [by left|]. rewrite Hpl in Hr. unfold _linkg_switch_plan_process_sync_event.
  apply prog_wp_bind, wp_seen; [done|intros; by apply HQ..| |].
  - intros M HM. assert (received M (ev_peer_node_id e) (ev_message_id e) (PlanSync wire)) as HrM by (by eapply received_mono).
    assert (forall ret plan, int_code ret -> (ret = 0 -> carries_out ids wire plan) ->
      wp (let! applied := sync_event_apply e wire plan ret in
          match applied with Return ret => Ret ret | Go (status, pool) => answer_sync_event e status pool end) Q M) as Happly.
    { intros ret plan Hc Hw. apply prog_wp_bind, wp_apply; try done; [intros; apply HQ; set_solver|].
      intros N status pool HN Hst Ha. apply wp_answer; [done..|]. intros O z HO. apply HQ. set_solver. }
    apply prog_wp_bind, wp_wire_to_local.
    + intros plan Hw. cbn [Z.eqb]. apply prog_wp_bind, wp_validate_classes. intros z Hz. by apply Happly.
    + intros ret plan Hr0 Hc. destruct (Z.eqb_spec ret 0); [done|]. by apply Happly.
  - intros M status pool HM Hc Hs. apply wp_answer; [done..|]. intros N z HN. apply HQ. set_solver.
Qed.

Lemma wp_process_ack_event e ack now (Q : list note -> Z -> Prop) L :
  event_ok L e -> ev_type e = LINKG_SWITCH_EVENT_PLAN_ACK_RX -> ev_payload e = PlanAck ack -> stable Q L ->
  wp (_linkg_switch_plan_process_ack_event e ack now) Q L.
Proof.
  intros He Hty Hpl HQ. destruct He as (Hnz&Hid&Hr); [by right|]. rewrite Hpl in Hr. unfold _linkg_switch_plan_process_ack_event.
  apply wp_locked. intros a c M Ha HM Hi.
  destruct (negb (sx_initialized c)); [unchanged; by apply HQ|]. destruct (negb (sx_running c)); [unchanged; by apply HQ|].
  destruct (negb (sx_role c =? _)); [unchanged; by apply HQ|].
  destruct (linkg_switch_find_peer_generation_locked c _ _) as [i|] eqn:Ef; [|unchanged; by apply HQ].
  pose proof (invariant_the_peer ids c M i Hi) as Hp. pose proof (find_peer_generation_node _ _ _ _ Ef) as En.
  destruct (_ || negb _) eqn:Eid; [unchanged; by apply HQ|]. rewrite orb_false_iff, negb_false_iff, !Z.eqb_eq in Eid. destruct Eid as [_ Eid].
  destruct (negb (ps_state _ =? _) && _) eqn:Est; [unchanged; by apply HQ|].
  assert (ps_state (sp_plan_sync (the_peer c i)) <> LINKG_SWITCH_PLAN_SYNC_IDLE) as Hbusy.
  { intros E. rewrite E in Est. done. }
  destruct (Z.eqb_spec (wa_status ack) 0) as [E0|E0]; (apply same_log; [|by apply HQ]); (apply invariant_set_peer; [done|]).
  - apply finish_ok; [done|]. intros _. rewrite En, Eid. destruct ack as [st]. cbn in E0. subst st. by eapply received_mono.
  - by apply round_failed_ok.
Qed.

Lemma wp_process_event e now (Q : list note -> Z -> Prop) L : event_ok L e -> stable Q L ->
  wp (linkg_switch_plan_process_event (Some e) now) Q L.
Proof.
  intros He HQ. unfold linkg_switch_plan_process_event. destruct (now =? 0); [by apply HQ|].
  destruct (ev_payload e) eqn:Ep; try by apply HQ.
  - destruct (Z.eqb_spec (ev_type e) LINKG_SWITCH_EVENT_PLAN_SYNC_RX); [by apply wp_process_sync_event|by apply HQ].
  - destruct (Z.eqb_spec (ev_type e) LINKG_SWITCH_EVENT_PLAN_ACK_RX); [by apply wp_process_ack_event|by apply HQ].
Qed.

(** ** The worker *)

Lemma started_here L sid id plan : started (L ++ [Started sid id plan]) id plan.
Proof. exists sid. apply elem_of_app. right. by apply list_elem_of_singleton. Qed.

Lemma process_peer_keeps now i c L : invariant c L ->
  let '(c', notes, step) := process_peer now i c in
  invariant c' (L ++ notes) /\
  match step with
  | Go (Due sync _ _ _) =>
      started (L ++ notes) (ps_message_id sync) (ps_wire_plan sync) /\ length (wp_classes (ps_wire_plan sync)) = 3%nat /\
      in_range 32 (ps_message_id sync)
  | _ => True
  end.
Proof.
  intros Hi. unfold process_peer. destruct (_ || _ || _); [rewrite app_nil_r; by split|].
  destruct (negb (sp_used _)); [rewrite app_nil_r; by split|].
  destruct (negb (_linkg_switch_plan_sync_busy _)) eqn:Eb; [rewrite app_nil_r; by split|].
  pose proof (invariant_the_peer ids c L i Hi) as Hp. set (p := the_peer c i) in *.
  assert (ps_state (sp_plan_sync p) <> LINKG_SWITCH_PLAN_SYNC_IDLE) as Hs by (intros E; unfold _linkg_switch_plan_sync_busy in Eb; by rewrite E in Eb).
  assert (started L (ps_message_id (sp_plan_sync p)) (ps_wire_plan (sp_plan_sync p))) as Hst by (by apply Hp).
  destruct (_ && _) eqn:Ew; [rewrite app_nil_r; split; [|done]; apply invariant_set_peer; [done|by apply round_failed_ok]|].
  destruct (now <? _); [rewrite app_nil_r; by split|].
  assert (length (wp_classes (ps_wire_plan (sp_plan_sync p))) = 3%nat /\ in_range 32 (ps_message_id (sp_plan_sync p))) as [Hlen Hr].
  { destruct Hst as [sid Hst]. pose proof (inv_notes _ _ _ Hi) as Hn. rewrite Forall_forall in Hn. exact (Hn _ Hst). }
  destruct (ps_state _ =? LINKG_SWITCH_PLAN_SYNC_RETRY_WAIT).
  - cbn. split; [|splits; [apply started_here|done|apply next_number_range]]. apply (invariant_start c L i _ _ (sx_next_plan_sync_id c)); [done|done|].
    destruct Hp as [_ [Hc Hap]]. split; [split; cbn; [intros _; apply started_here|done]|]. split; [done|].
    intros H1 H2. eapply applied_mono; [|by apply Hap]. set_solver.
  - destruct (ps_state _ =? LINKG_SWITCH_PLAN_SYNC_WAIT_ACK).
    + rewrite app_nil_r. split; [|done]. apply invariant_set_peer; [done|]. destruct Hp as [[H1 H2] H3]. by split.
    + rewrite app_nil_r. split; [|done]. apply invariant_set_peer; [done|]. destruct Hp as [[H1 H2] H3]. by split.
Qed.

Lemma wp_process_peers now indices : forall first_error (Q : list note -> Z -> Prop) L, stable Q L ->
  wp (process_peers now indices first_error) Q L.
Proof.
  induction indices as [|i indices IH]; intros first_error Q L HQ; cbn [process_peers]; [by apply HQ|].
  apply prog_wp_bind, wp_locked. intros a c M Ha HM Hi. pose proof (process_peer_keeps now i c M Hi) as H.
  destruct (process_peer now i c) as [[c' notes] [[|sync g n pool]|ret]]; destruct H as [Hi' H]; (split; [done|]).
  - apply IH. eapply stable_mono; [|exact HQ]. set_solver.
  - destruct H as (Hs&Hlen&Hid). assert (L ⊆ M ++ notes) as HL by set_solver.
    destruct (negb pool); [apply IH; by eapply stable_mono|].
    apply prog_wp_bind, wp_message_current. intros N current HN. destruct (negb current); [apply IH; eapply stable_mono; [|exact HQ]; set_solver|].
    apply prog_wp_bind, wp_send_sync; [done|done|by eapply started_mono|]. intros O z HO. apply IH. eapply stable_mono; [|exact HQ]. set_solver.
  - apply HQ. set_solver.
Qed.

(** ** Reception *)

Lemma wp_post e (Q : list note -> Z -> Prop) L : event_ok L e -> stable Q L -> wp (linkg_switch_event_post (Some e)) Q L.
Proof.
  intros He HQ. unfold linkg_switch_event_post. destruct (negb _); [by apply HQ|]. apply wp_locked. intros a c M Ha HM Hi.
  destruct (negb (sx_initialized c)); [unchanged; by apply HQ|]. destruct (negb (sx_running c)); [unchanged; by apply HQ|].
  destruct (linkg_switch_find_peer_locked c _) as [i|]; [|unchanged; by apply HQ].
  destruct (_ =? _); [unchanged; by apply HQ|]. destruct (_ <=? _); [unchanged; by apply HQ|].
  pose proof (inv_events _ _ _ Hi) as Hq.
  assert (Forall (event_ok M) (eq_items (queue_put (set_generation (sp_generation (the_peer c i)) e) (sx_event_queue c)))) as Hput.
  { apply Forall_insert; [done|]. by apply event_ok_mono with L. }
  destruct (negb _); (apply same_log; [|by apply HQ]); apply invariant_queue; try done.
  apply Forall_insert; [done|apply event_zero_ok].
Qed.

Lemma wp_dispatch role n m (Q : list note -> Z -> Prop) L :
  (forall type, match ws_payload m with PlanSync _ => type = LINKG_SWITCH_EVENT_PLAN_SYNC_RX | PlanAck _ => type = LINKG_SWITCH_EVENT_PLAN_ACK_RX
     | _ => type = LINKG_SWITCH_EVENT_MAINTENANCE_RX \/ type = LINKG_SWITCH_EVENT_MAINTENANCE_ACK_RX end ->
     event_ok L (SwitchEvent type n 0 (wh_message_id (ws_header m)) (ws_payload m))) ->
  stable Q L -> wp (_linkg_switch_rx_dispatch role n (Some m)) Q L.
Proof.
  intros He HQ. unfold _linkg_switch_rx_dispatch. destruct m as [h [r|p|a|m|a]]; cbn [ws_payload] in *.
  - unfold _linkg_switch_rx_dispatch_quality. destruct (negb _); [by apply HQ|]. cbn. intros z _. by apply HQ.
  - unfold _linkg_switch_rx_dispatch_plan_sync. destruct (negb _); [by apply HQ|]. apply wp_post; [by apply He|done].
  - unfold _linkg_switch_rx_dispatch_plan_ack. destruct (negb _); [by apply HQ|]. apply wp_post; [by apply He|done].
  - apply wp_post; [apply He; by left|done].
  - apply wp_post; [apply He; by right|done].
Qed.

Lemma wp_receive_items role local items : forall first_error (Q : list note -> Z -> Prop) L,
  Forall (fun item => Delivered (sd_peer_node_id item) (default [] (sd_packet item)) ∈ L /\
                      Forall byte_ok (default [] (sd_packet item))) items ->
  stable Q L -> wp (receive_items role local items first_error) Q L.
Proof.
  induction items as [|item items IH]; intros first_error Q L Hd HQ; cbn [receive_items]; [by apply HQ|].
  apply Forall_cons in Hd as [[Hin Hb] Hd]. destruct (negb _); [by apply IH|].
  set (data := default [] (sd_packet item)) in *.
  destruct (linkg_switch_wire_decode (Some data) (Z.of_nat (length data))) as [ret m] eqn:Ed.
  destruct (Z.eqb_spec ret 0) as [->|]; [|by apply IH]. cbn [negb]. destruct m as [m|].
  2: { apply prog_wp_bind. cbn. by apply IH. }
  apply prog_wp_bind, wp_dispatch.
  - intros type _ _. pose proof (decode_canonical data m Hb Ed) as (_&_&_&_&Hr&Hnz). cbn. splits; [done|done|]. by exists data, m.
  - intros M z HM. apply IH; [|by eapply stable_mono]. eapply Forall_impl; [exact Hd|]. intros x [? ?]. split; [by apply HM|done].
Qed.

Lemma wp_receive items token (Q : list note -> Z -> Prop) L :
  Forall (fun item => Delivered (sd_peer_node_id item) (default [] (sd_packet item)) ∈ L /\
                      Forall byte_ok (default [] (sd_packet item))) items ->
  stable Q L -> wp (linkg_switch_transport_receive (Some items) token) Q L.
Proof.
  intros Hd HQ. unfold linkg_switch_transport_receive. destruct items as [|item items]; [by apply HQ|].
  apply prog_wp_bind. unfold linkg_switch_enter_receive. apply wp_locked. intros a c M Ha HM Hi.
  assert (forall k, invariant (set_rx_users k c) M) as Hrx by (destruct Hi as [H1 H2 H3 H4]; by split).
  destruct (_ && _); rewrite app_nil_r; (split; [done|]); [|by apply HQ].
  apply prog_wp_bind, wp_receive_items.
  - eapply Forall_impl; [exact Hd|]. intros x [? ?]. split; [by apply HM|done].
  - intros N first_error HN. apply prog_wp_bind. unfold linkg_switch_leave_receive. apply wp_locked. intros a' c' O Ha' HO Hi'.
    rewrite app_nil_r. split; [|apply HQ; set_solver]. destruct Hi' as [H1 H2 H3 H4]. destruct (negb _); by split.
Qed.

Lemma wp_events budget now : forall (Q : list note -> unit -> Prop) L, stable Q L -> wp (process_events budget now) Q L.
Proof.
  induction budget as [|budget IH]; intros Q L HQ; cbn [process_events]; [by apply HQ|].
  apply prog_wp_bind, wp_locked. intros a c M Ha HM Hi. unfold linkg_switch_event_pop_locked.
  destruct (_ =? 0); rewrite app_nil_r; [split; [done|by apply HQ]|].
  pose proof (inv_events _ _ _ Hi) as Hq. set (e := default event_zero _).
  assert (event_ok M e) as He.
  { subst e. destruct (eq_items (sx_event_queue c) !! _) as [e|] eqn:E; [by eapply Forall_lookup_1|apply event_zero_ok]. }
  split; [apply invariant_queue; [done|]; apply Forall_insert; [done|apply event_zero_ok]|].
  assert (forall N (z : Z), L ⊆ N -> wp (process_events budget now) Q N) as Hnext.
  { intros N z HN. apply IH. by eapply stable_mono. }
  apply prog_wp_bind. unfold _linkg_switch_runtime_process_event. destruct (_ || _).
  - apply wp_process_event; [done|]. intros N z HN. apply (Hnext N z). set_solver.
  - destruct (_ || _); [|by apply (Hnext M 0)]. cbn. intros z _. by apply (Hnext M z).
Qed.

(** ** Nodes *)

Lemma wp_done {A} (p : prog A) L : (forall Q : list note -> A -> Prop, stable Q L -> wp p Q L) -> wp (done_with p) (fun _ _ => True) L.
Proof. intros H. apply prog_wp_bind, H. by intros M x HM. Qed.

Lemma wp_thread k L : call_ok k -> deliveries k ⊆ L -> wp (thread_of k) (fun _ _ => True) L.
Proof.
  intros Hk Hd. destruct k; cbn [thread_of]; try (apply wp_done; intros Q HQ).
  - by apply wp_set.
  - by apply wp_get_plan.
  - by apply wp_remove.
  - by apply wp_apply_local.
  - apply prog_wp_bind, wp_commit_local. intros M [ret sid] HM. by apply HQ.
  - unfold linkg_switch_plan_update_if_current. destruct previous; [|by apply HQ]. destruct synchronize; [|by apply wp_apply_local].
    apply prog_wp_bind, wp_commit_local. intros M [ret sid] HM. by apply HQ.
  - unfold linkg_switch_plan_apply_reconcile_if_current. destruct previous; [by apply wp_apply_local|by apply HQ].
  - unfold linkg_switch_plan_submit_if_current. destruct previous; [|by apply HQ]. destruct null; [by apply HQ|by apply wp_commit_local].
  - by apply wp_sync_get.
  - by apply wp_take_result.
  - unfold linkg_switch_plan_process. destruct (_ =? 0); [by apply HQ|by apply wp_process_peers].
  - apply wp_receive; [|done]. cbn in Hk, Hd. apply Forall_forall. intros item Hin. split.
    + apply Hd. by apply (list_elem_of_fmap_2 (fun item => Delivered (sd_peer_node_id item) (default [] (sd_packet item)))).
    + rewrite Forall_forall in Hk. by apply Hk.
  - by apply wp_events.
Qed.

Lemma wp_true_mono (p : prog unit) L L' : L ⊆ L' -> wp p (fun _ _ => True) L -> wp p (fun _ _ => True) L'.
Proof. intros H. by apply prog_wp_mono. Qed.

(** Every reachable node satisfies the invariant, whatever its threads have done. *)
Lemma reachable_invariant n : reachable ids n ->
  invariant (nd_context n) (nd_log n) /\ Forall (fun p => wp p (fun _ _ => True) (nd_log n)) (nd_threads n).
Proof.
  induction 1 as [|n n' _ [Hi Ht] Hs]; [split; [apply invariant_zero|done]|].
  destruct Hs as [c L T k Hk|c L T i p c' notes p' Hi' Hp|c L T c' Ho|c L T c' Ho]; cbn in *.
  - assert (invariant c (L ++ deliveries k)) as Hinv.
    { apply invariant_grow; [done| |].
      - destruct k; cbn; try done. clear. induction items as [|x l IH]; [done|exact IH].
      - destruct k; cbn in *; try by constructor. apply Forall_fmap. eapply Forall_impl; [exact Hk|done]. }
    split; [done|]. apply Forall_app. split.
    + eapply Forall_impl; [exact Ht|]. intros q. apply wp_true_mono. set_solver.
    + constructor; [|done]. apply wp_thread; [done|set_solver].
  - rewrite Forall_forall in Ht. pose proof (Ht p (list_elem_of_lookup_2 _ _ _ Hi')) as Hw.
    destruct (step_keeps ids p p' (fun _ _ => True) c c' L notes) as [Hi2 Hw2]; [done..|]. split; [done|].
    apply Forall_insert; [|done]. apply Forall_forall. intros q Hq. apply wp_true_mono with L; [set_solver|by apply Ht].
  - split; [by eapply invariant_other|done].
  - split; [|done]. eapply invariant_other; [|exact Ho]. by apply invariant_reset.
Qed.

End node.
