(* ===== verification/SwitchAgreement.v ===== *)
(** * Link switching: a confirmed plan was applied

    Two nodes over a network that delivers, as from a node, only what that node
    submitted: when the station takes a synchronisation for confirmed, the access
    point has applied that very plan. *)

From S2P Require Import Prelude.
From S2P Require Import Bytes.
From S2P Require Import TransportTypes.
From S2P Require Import TransportPeer.
From S2P Require Import SwitchWire.
From S2P Require Import SwitchWireCodec.
From S2P Require Import SwitchCore.
From S2P Require Import SwitchEvent.
From S2P Require Import SwitchPlan.
From S2P Require Import SwitchRx.
From S2P Require Import SwitchSystem.
From S2P Require Import SwitchPlanSafety.
#[local] Open Scope switch_scope.

(** A round has one plan. *)
Lemma started_unique L id w w' : NoDup (started_ids L) -> started L id w -> started L id w' -> w = w'.
Proof.
  intros Hnd [s Hs] [s' Hs']. induction L as [|n L IH]; [by apply not_elem_of_nil in Hs|].
  assert (forall s w, Started s id w ∈ L -> id ∈ started_ids L) as Hin.
  { intros s0 w0 H0. apply list_elem_of_bind. exists (Started s0 id w0). split; [by apply list_elem_of_singleton|done]. }
  unfold started_ids in Hnd. cbn in Hnd. apply NoDup_app in Hnd as (_&Hd&Hnd).
  apply elem_of_cons in Hs as [<-|Hs], Hs' as [E|Hs'].
  - congruence.
  - destruct (Hd id); [by apply list_elem_of_singleton|]. by eapply Hin.
  - subst n. destruct (Hd id); [by apply list_elem_of_singleton|]. by eapply Hin.
  - by apply IH.
Qed.

(** The bytes of a message submitted decode to it. *)
Lemma submitted_decodes L s m : submission_ok L s ->
  linkg_switch_wire_decode (Some (sb_data s)) (Z.of_nat (length (sb_data s))) = (0, Some m) ->
  match ws_payload m with
  | PlanSync plan => started L (wh_message_id (ws_header m)) plan
  | PlanAck ack => wa_status ack = 0 -> applied L (sb_destination_node_id s) (wh_message_id (ws_header m))
  | _ => True
  end.
Proof.
  intros (id&p&E&Ht&Hv&Hr&Hnz&Hp) Hd. rewrite E, length_message_bytes, decode_message_bytes in Hd by done.
  injection Hd as <-. exact Hp.
Qed.

Lemma note_in_log ids n x : reachable ids n -> x ∈ nd_log n -> note_ok ids (nd_log n) x.
Proof. intros Hr Hx. apply reachable_invariant in Hr as [[_ _ _ Hn] _]. rewrite Forall_forall in Hn. by apply Hn. Qed.

(** What a node received over the network, the other one submitted. *)
Definition carried (receiver : node) (sender_id : Z) (sender : node) (receiver_id : Z) : Prop :=
  forall data, Delivered sender_id data ∈ nd_log receiver ->
    exists s, Submitted s ∈ nd_log sender /\ sb_destination_node_id s = receiver_id /\ sb_data s = data.


(** ** Runs of one thread at a time *)

Definition world_ok (ids : Z -> Z) (w : world) : Prop := forall q, answer_ok ids q (wd_answers w q).

Lemma exec_steps ids w (p : prog unit) : world_ok ids w -> forall c L T i c' notes x, T !! i = Some p -> exec w p c = (c', notes, x) ->
  reachable ids (Node c L T) -> reachable ids (Node c' (L ++ notes) (<[i := Ret x]> T)).
Proof.
  intros Hw. induction p as [a|f IH|q k IH|k IH|s k IH] using prog_induction; intros c L T i c' notes x Hi He Hr; cbn in He.
  - injection He as <- <- <-. rewrite app_nil_r, list_insert_id by done. done.
  - specialize (IH (wd_answers w) c). destruct (f (wd_answers w) c) as [[c1 n1] p1] eqn:Ef. cbn in IH.
    destruct (exec w p1 c1) as [[c2 n2] y] eqn:E2. injection He as <- <- <-. rewrite app_assoc, <- (list_insert_insert_eq T i _ p1).
    eapply IH; [|exact E2|].
    + apply list_lookup_insert_eq. by eapply lookup_lt_Some.
    + eapply Reach_step; [exact Hr|]. eapply Step_thread; [exact Hi|]. by eapply Do_section.
  - rewrite <- (list_insert_insert_eq T i _ (k (wd_answers w q))). eapply IH; [|exact He|].
    + apply list_lookup_insert_eq. by eapply lookup_lt_Some.
    + rewrite <- (app_nil_r L). eapply Reach_step; [exact Hr|]. eapply Step_thread; [exact Hi|]. by constructor.
  - rewrite <- (list_insert_insert_eq T i _ (k (wd_alloc w))). eapply IH; [|exact He|].
    + apply list_lookup_insert_eq. by eapply lookup_lt_Some.
    + rewrite <- (app_nil_r L). eapply Reach_step; [exact Hr|]. eapply Step_thread; [exact Hi|]. by constructor.
  - destruct (exec w (k (wd_submit w s)) c) as [[c1 n1] y] eqn:E1. injection He as <- <- <-.
    rewrite <- (list_insert_insert_eq T i _ (k (wd_submit w s))). replace (L ++ Submitted s :: n1) with ((L ++ [Submitted s]) ++ n1) by (by rewrite <- app_assoc).
    eapply IH; [|exact E1|].
    + apply list_lookup_insert_eq. by eapply lookup_lt_Some.
    + eapply Reach_step; [exact Hr|]. eapply Step_thread; [exact Hi|]. by constructor.
Qed.

(** The calls one after the other: the context and the log. *)
Definition run_call (w : world) (s : linkg_switch_context * list note) (k : call) : linkg_switch_context * list note :=
  let '(c', notes, _) := exec w (thread_of k) s.1 in (c', (s.2 ++ deliveries k) ++ notes).

Lemma run_calls_reachable ids w ks : world_ok ids w -> Forall call_ok ks -> forall s T, reachable ids (Node s.1 s.2 T) ->
  exists T', reachable ids (Node (foldl (run_call w) s ks).1 (foldl (run_call w) s ks).2 T').
Proof.
  intros Hw. induction ks as [|k ks IH]; intros Hks s T Hr; [by exists T|]. apply Forall_cons in Hks as [Hk Hks]. cbn [foldl].
  destruct (exec w (thread_of k) s.1) as [[c' notes] x] eqn:E.
  assert (run_call w s k = (c', (s.2 ++ deliveries k) ++ notes)) as -> by (unfold run_call; by rewrite E).
  eapply (IH Hks (c', _)). cbn. eapply exec_steps; [exact Hw| |exact E|].
  - apply list_lookup_middle. reflexivity.
  - eapply Reach_step; [exact Hr|]. by constructor.
Qed.

(** A module just initialised and started, with a role and a node id. *)
Definition started_module (role local_node_id : Z) : linkg_switch_context :=
  SwitchContext true role local_node_id (replicate 16 switch_peer_zero) queue_zero (MaintenanceRuntime false 0) 0 0 0 0 0 true true.

Lemma started_module_reachable ids role local_node_id : reachable ids (Node (started_module role local_node_id) [] []).
Proof.
  eapply Reach_step; [apply Reach_init|]. apply Step_other. split; [|done].
  cbn [sx_peers context_zero started_module]. apply Forall_Forall2_diag, Forall_true. done.
Qed.

(** The network hypothesis on two logs, decided. *)
Definition carriedb (receiver_log : list note) (sender_id : Z) (sender_log : list note) (receiver_id : Z) : bool :=
  forallb (fun n =>
    match n with
    | Delivered peer data =>
        negb (peer =? sender_id) ||
        existsb (fun n' => match n' with
                 | Submitted s => (sb_destination_node_id s =? receiver_id) && bool_decide (sb_data s = data)
                 | _ => false end) sender_log
    | _ => true
    end) receiver_log.

Lemma carriedb_carried receiver sender_id sender receiver_id :
  carriedb (nd_log receiver) sender_id (nd_log sender) receiver_id = true -> carried receiver sender_id sender receiver_id.
Proof.
  unfold carriedb, carried. rewrite forallb_forall. intros H data Hd. apply list_elem_of_In in Hd. specialize (H _ Hd). cbn in H.
  rewrite Z.eqb_refl in H. cbn in H. apply existsb_exists in H as (n&Hn&H). destruct n as [s| | |]; try done.
  rewrite andb_true_iff, Z.eqb_eq, bool_decide_eq_true in H. exists s. split; [by apply list_elem_of_In|done].
Qed.

(** ** A synchronisation that succeeds *)

Definition demo_ids (wifi cellular access : Z) : Z := if access =? 1 then wifi else cellular.
Definition demo_world (wifi cellular : Z) : world :=
  World (fun q => match q with
                  | Link_id access => demo_ids wifi cellular access
                  | Acquire_path _ _ | Thread_wakeup => 0
                  | _ => 1
                  end) (Some (replicate 200 0)) (fun _ => 0).

Definition demo_local_plan : linkg_send_plan := SendPlan [ClassSendPlan 2 7 9; ClassSendPlan 1 7 0; ClassSendPlan 0 0 0].
Definition demo_wire_plan : linkg_switch_wire_plan_sync := WirePlan [WireClassPlan 2 1 2; WireClassPlan 1 1 0; WireClassPlan 0 0 0].
Definition demo_ap_plan : linkg_send_plan := SendPlan [ClassSendPlan 2 3 4; ClassSendPlan 1 3 0; ClassSendPlan 0 0 0].

Definition demo_item (peer : Z) (data : list Z) : linkg_transport_delivery := SwitchDelivery (Some data) 1 LINKG_TRANSPORT_CLASS_REALTIME peer peer.

Definition demo_sync_bytes : list Z := message_bytes 1 (PlanSync demo_wire_plan).
Definition demo_ack_bytes : list Z := message_bytes 1 (PlanAck (WirePlanAck 0)).

(** The station is node 2, the access point node 1. *)
Definition demo_station_calls : list call :=
  [Call_set 1 (Some local_plan_zero); Call_commit_local 1 1 (Some demo_local_plan) 1000;
   Call_receive [demo_item 1 demo_ack_bytes] 0; Call_events 2000].
Definition demo_point_calls : list call :=
  [Call_set 2 (Some local_plan_zero); Call_receive [demo_item 2 demo_sync_bytes] 0; Call_events 1500].

Definition demo_station : linkg_switch_context * list note :=
  foldl (run_call (demo_world 7 9)) (started_module LINKG_DEVICE_ROLE_STA 2, []) demo_station_calls.
Definition demo_point : linkg_switch_context * list note :=
  foldl (run_call (demo_world 3 4)) (started_module LINKG_DEVICE_ROLE_AP 1, []) demo_point_calls.

Lemma demo_switch_world_ok wifi cellular : world_ok (demo_ids wifi cellular) (demo_world wifi cellular).
Proof. intros q. destruct q; cbn; try done; by right. Qed.

Lemma bytes_okb l : forallb (fun b => (0 <=? b) && (b <? 256)) l = true -> Forall byte_ok l.
Proof. rewrite forallb_forall. intros H. apply Forall_forall. intros x Hx. apply list_elem_of_In, H in Hx. unfold byte_ok. lia. Qed.

Lemma demo_station_reachable : exists T, reachable (demo_ids 7 9) (Node demo_station.1 demo_station.2 T).
Proof.
  eapply run_calls_reachable; [apply demo_switch_world_ok| |apply started_module_reachable].
  do 2 (apply Forall_cons; split; [exact I|]). apply Forall_cons; split; [|by repeat constructor].
  apply Forall_cons; split; [by apply bytes_okb|done].
Qed.

Lemma demo_point_reachable : exists T, reachable (demo_ids 3 4) (Node demo_point.1 demo_point.2 T).
Proof.
  eapply run_calls_reachable; [apply demo_switch_world_ok| |apply started_module_reachable].
  apply Forall_cons; split; [exact I|]. apply Forall_cons; split; [|by repeat constructor].
  apply Forall_cons; split; [by apply bytes_okb|done].
Qed.


(** The access point sends with that plan. *)
Example demo_point_plan : sp_plan (the_peer demo_point.1 0) = demo_ap_plan.
Proof. vm_compute. reflexivity. Qed.
