(* ===== verification/SwitchPlanSpec.v ===== *)
(** * Link switching: what the functions do

    The event queue as a bounded first-in first-out list; and committing a plan:
    exactly when it succeeds, and all it then does. The other threads stand still
    here: [exec] runs one function. *)

From S2P Require Import Prelude.
From S2P Require Import TransportTypes.
From S2P Require Import TransportPeer.
From S2P Require Import Link.
From S2P Require Import SwitchWire.
From S2P Require Import SwitchWireCodec.
From S2P Require Import SwitchCore.
From S2P Require Import SwitchTx.
From S2P Require Import SwitchEvent.
From S2P Require Import SwitchPlan.
#[local] Open Scope switch_scope.

(** ** The event queue *)

(** The code of [linkg_switch_event_post], from the caller's point of view. *)
Definition post_code (wakeup : Z) (c : linkg_switch_context) (e : linkg_switch_event) : Z :=
  if negb (_linkg_switch_event_valid (Some e)) then - EINVAL
  else if negb (sx_initialized c) then - ENODEV
  else if negb (sx_running c) then - ESHUTDOWN
  else match linkg_switch_find_peer_locked c (ev_peer_node_id e) with
  | None => - ENOENT
  | Some index =>
      if sp_generation (the_peer c index) =? 0 then - ENOENT
      else if bool_decide (length (queued (sx_event_queue c)) = 64%nat) then - ENOSPC
      else wakeup
  end.

Lemma length_queued q : queue_ok q -> Z.of_nat (length (queued q)) = eq_count q.
Proof. intros (_&_&Hn&_). unfold queued. rewrite length_fmap, length_seq. lia. Qed.

(** The generation the event is stamped with. *)
Definition stamp (c : linkg_switch_context) (e : linkg_switch_event) : linkg_switch_event :=
  set_generation (default 0 ((fun i => sp_generation (the_peer c i)) <$> linkg_switch_find_peer_locked c (ev_peer_node_id e))) e.

Lemma post_spec w c e : queue_ok (sx_event_queue c) ->
  let '(c', notes, ret) := exec w (linkg_switch_event_post (Some e)) c in
  ret = post_code (wd_answers w Thread_wakeup) c e /\ notes = [] /\ c' = set_queue (sx_event_queue c') c /\
  queue_ok (sx_event_queue c') /\
  queued (sx_event_queue c') = queued (sx_event_queue c) ++ (if ret =? 0 then [stamp c e] else []).
Proof.
  intros Hq. unfold linkg_switch_event_post, post_code, stamp.
  assert (c = set_queue (sx_event_queue c) c) as Hsame by (by destruct c).
  destruct (negb (_linkg_switch_event_valid (Some e))); [cbn; by rewrite app_nil_r|]. rewrite exec_locked.
  destruct (negb (sx_initialized c)); [cbn; by rewrite app_nil_r|]. destruct (negb (sx_running c)); [cbn; by rewrite app_nil_r|].
  destruct (linkg_switch_find_peer_locked c (ev_peer_node_id e)) as [i|] eqn:Ei; [|cbn; by rewrite app_nil_r].
  unfold LINKG_SWITCH_PEER_GENERATION_INVALID. destruct (sp_generation _ =? 0); [cbn; by rewrite app_nil_r|].
  unfold LINKG_SWITCH_EVENT_QUEUE_CAPACITY. pose proof (length_queued _ Hq) as El. pose proof Hq as (_&_&Hn&_).
  destruct (Z.leb_spec 64 (eq_count (sx_event_queue c))) as [Hfull|Hroom].
  { rewrite bool_decide_true by lia. cbn. by rewrite app_nil_r. }
  rewrite bool_decide_false by lia. cbn [fmap option_fmap option_map default from_option]. unfold Datatypes.id.
  set (e' := set_generation _ e). destruct (Z.eqb_spec (wd_answers w Thread_wakeup) 0) as [E|E]; cbn [negb sx_event_queue set_queue].
  - destruct (queue_put_spec (sx_event_queue c) e' Hq Hroom) as [H1 H2]. rewrite E. splits; try done.
  - destruct (queue_undo_spec (sx_event_queue c) e' Hq Hroom) as [H1 H2]. destruct (Z.eqb_spec (wd_answers w Thread_wakeup) 0); [done|].
    rewrite app_nil_r. splits; try done.
Qed.

(** C19: the ring of control events is a first-in first-out list of at most 64.
    Posting appends the event, stamped with the generation its peer has now, exactly
    when it returns 0, and every other code (a bad event, a module not running, an
    unknown peer, a full queue, a worker that could not be woken, where the insert
    is undone) leaves the list as it was; popping takes the oldest. The indices wrap
    around correctly throughout. *)
Theorem event_queue_fifo w c e : queue_ok (sx_event_queue c) ->
  (let '(c', notes, ret) := exec w (linkg_switch_event_post (Some e)) c in
   ret = post_code (wd_answers w Thread_wakeup) c e /\ notes = [] /\ c' = set_queue (sx_event_queue c') c /\
   queue_ok (sx_event_queue c') /\
   queued (sx_event_queue c') = queued (sx_event_queue c) ++ (if ret =? 0 then [stamp c e] else [])) /\
  (let '(c', event) := linkg_switch_event_pop_locked c in
   event = head (queued (sx_event_queue c)) /\ queued (sx_event_queue c') = tail (queued (sx_event_queue c)) /\
   queue_ok (sx_event_queue c') /\ c' = set_queue (sx_event_queue c') c).
Proof.
  intros Hq. split; [by apply post_spec|]. pose proof (event_pop_spec c Hq) as H.
  destruct (linkg_switch_event_pop_locked c) as [c' event]. naive_solver.
Qed.

(** ** Programs that only ask *)

Fixpoint asks_only {A} (p : prog A) : Prop :=
  match p with Ret _ => True | Ask _ k => forall z, asks_only (k z) | _ => False end.

Lemma asks_only_bind {A B} (p : prog A) (k : A -> prog B) : asks_only p -> (forall x, asks_only (k x)) -> asks_only (bind p k).
Proof. intros Hp Hk. induction p as [a|f IH|q f IH|f IH|s f IH] using prog_induction; cbn in *; auto; done. Qed.

Lemma exec_asks_only {A} w (p : prog A) c : asks_only p -> exec w p c = (c, [], (exec w p c).2).
Proof. intros Hp. induction p as [a|f IH|q f IH|f IH|s f IH] using prog_induction; cbn in *; done || by apply IH. Qed.

Lemma asks_only_convert {A B} (turn : A -> prog (Z * B)) l : (forall x, asks_only (turn x)) -> asks_only (convert turn l).
Proof.
  intros H. induction l as [|x l IH]; cbn [convert]; [done|]. apply asks_only_bind; [apply H|]. intros [ret y].
  destruct (negb _); [done|]. apply asks_only_bind; [done|]. by intros [].
Qed.

Lemma asks_only_link link_id : asks_only (_linkg_switch_plan_link_to_access link_id).
Proof. unfold _linkg_switch_plan_link_to_access. repeat case_match; cbn; try done. intros. repeat case_match; done. Qed.

Lemma asks_only_local_to_wire plan : asks_only (_linkg_switch_plan_local_to_wire plan).
Proof.
  unfold _linkg_switch_plan_local_to_wire. destruct plan as [p|]; [|done]. destruct (negb _); [done|].
  apply asks_only_bind; [|by intros []]. apply asks_only_convert. intros x. unfold class_to_wire. destruct (_ =? _); [done|].
  apply asks_only_bind; [apply asks_only_link|]. intros [ret y]. destruct (negb _); [done|].
  apply asks_only_bind; [apply asks_only_link|]. intros [ret' y']. destruct (negb _); [done|]. by destruct (_ || _).
Qed.

Lemma asks_only_path n link_id : asks_only (_linkg_switch_plan_validate_path n link_id).
Proof. unfold _linkg_switch_plan_validate_path. destruct (_ =? _); cbn; [done|]. intros z. destruct (z =? 0); cbn; [done|]. intros z'. by destruct (z' =? 0). Qed.

Lemma asks_only_targets n plan : asks_only (_linkg_switch_plan_validate_targets n plan).
Proof.
  unfold _linkg_switch_plan_validate_targets. induction (class_of plan <$> plan_classes) as [|x l IH]; cbn [validate_classes]; [done|].
  destruct (_ =? _); [done|]. apply asks_only_bind; [apply asks_only_path|]. intros z. destruct (negb _); [done|].
  destruct (_ =? _); [|done]. apply asks_only_bind; [apply asks_only_path|]. intros z'. by destruct (negb _).
Qed.

(** ** Committing a plan: what it needs and what it does

    Said without the functions of the code, on the classes of the plan and the
    answers of the other modules. *)

Definition classes (plan : linkg_send_plan) : list linkg_class_send_plan := [class_of plan 0; class_of plan 1; class_of plan 2].

(** The number given out after [old]: round again to 1, as 0 says that there is none. *)
Definition number_after (old : Z) : Z := if old mod 2 ^ 32 =? 2 ^ 32 - 1 then 1 else old mod 2 ^ 32 + 1.

Definition class_well_formed (cl : linkg_class_send_plan) : Prop :=
  let '(ClassSendPlan mode primary secondary) := cl in
  mode = LINKG_SEND_MODE_NONE /\ primary = LINKG_LINK_ID_INVALID /\ secondary = LINKG_LINK_ID_INVALID \/
  mode = LINKG_SEND_MODE_SINGLE /\ primary <> LINKG_LINK_ID_INVALID /\ secondary <> primary \/
  mode = LINKG_SEND_MODE_REDUNDANT /\ primary <> LINKG_LINK_ID_INVALID /\ secondary <> LINKG_LINK_ID_INVALID /\ secondary <> primary.

(** The access type that names the link in a message. *)
Definition link_named (a : answers) (link_id access : Z) : Prop :=
  link_id = LINKG_LINK_ID_INVALID /\ access = LINKG_SWITCH_WIRE_ACCESS_NONE \/
  link_id <> LINKG_LINK_ID_INVALID /\
  (link_id = a (Link_id LINKG_LINK_ACCESS_WIFI) /\ access = LINKG_SWITCH_WIRE_ACCESS_WIFI \/
   link_id <> a (Link_id LINKG_LINK_ACCESS_WIFI) /\ link_id = a (Link_id LINKG_LINK_ACCESS_CELLULAR) /\
   access = LINKG_SWITCH_WIRE_ACCESS_CELLULAR).

(** The class as the message has it. *)
Definition class_named (a : answers) (cl : linkg_class_send_plan) (wire : linkg_switch_wire_class_send_plan) : Prop :=
  sc_mode cl = LINKG_SEND_MODE_NONE /\
  wire = WireClassPlan LINKG_SWITCH_WIRE_MODE_NONE LINKG_SWITCH_WIRE_ACCESS_NONE LINKG_SWITCH_WIRE_ACCESS_NONE \/
  (sc_mode cl = LINKG_SEND_MODE_SINGLE /\ wp_mode wire = LINKG_SWITCH_WIRE_MODE_SINGLE \/
   sc_mode cl = LINKG_SEND_MODE_REDUNDANT /\ wp_mode wire = LINKG_SWITCH_WIRE_MODE_REDUNDANT) /\
  link_named a (sc_primary_link_id cl) (wp_primary_access wire) /\ link_named a (sc_secondary_link_id cl) (wp_secondary_access wire).

(** A link to send over: registered, running, with a path to the peer. *)
Definition link_usable (a : answers) (n link_id : Z) : Prop :=
  link_id <> LINKG_LINK_ID_INVALID /\ a (Link_found link_id) <> 0 /\ a (Link_running link_id) <> 0 /\ a (Acquire_path n link_id) = 0.

(** The links a class sends over. *)
Definition class_links (cl : linkg_class_send_plan) : list Z :=
  if decide (sc_mode cl = LINKG_SEND_MODE_NONE) then []
  else sc_primary_link_id cl :: (if decide (sc_mode cl = LINKG_SEND_MODE_REDUNDANT) then [sc_secondary_link_id cl] else []).

Definition under_maintenance (c : linkg_switch_context) (peer : linkg_switch_peer_runtime) (access : Z) : Prop :=
  sx_local_maintenance c = MaintenanceRuntime true access \/ sp_remote_maintenance peer = MaintenanceRuntime true access.

(** The plan sends over the link of an access type that the station or the peer is
    maintaining. *)
Definition blocked (a : answers) (c : linkg_switch_context) (peer : linkg_switch_peer_runtime) (plan : linkg_send_plan) : Prop :=
  exists access, (access = LINKG_LINK_ACCESS_WIFI \/ access = LINKG_LINK_ACCESS_CELLULAR) /\ under_maintenance c peer access /\
    a (Link_id access) <> LINKG_LINK_ID_INVALID /\ a (Link_id access) ∈ (classes plan ≫= class_links).

(** The first used entry of the node. *)
Definition peer_at (c : linkg_switch_context) (n : Z) (i : nat) (peer : linkg_switch_peer_runtime) : Prop :=
  sx_peers c !! i = Some peer /\ sp_used peer = true /\ sp_peer_node_id peer = n /\
  forall j other, (j < i)%nat -> sx_peers c !! j = Some other -> ~ (sp_used other = true /\ sp_peer_node_id other = n).

(** What a commit needs of its arguments, of the other modules and of the context. *)
Record committable (a : answers) (c : linkg_switch_context) (n g : Z) (previous : option linkg_send_plan) (new : linkg_send_plan)
    (now : Z) (wire : linkg_switch_wire_plan_sync) (i : nat) (peer : linkg_switch_peer_runtime) : Prop := Committable {
  cb_arguments : LINKG_RESOURCE_NODE_ID_MIN <= n <= LINKG_RESOURCE_NODE_ID_MAX /\ g <> 0 /\ now <> 0;
  cb_plan : Forall class_well_formed (classes new);
  cb_wire : Forall2 (class_named a) (classes new) (wp_classes wire);
  cb_links : Forall (link_usable a n) (classes new ≫= class_links);
  cb_module : sx_initialized c = true /\ sx_running c = true /\ sx_role c = LINKG_DEVICE_ROLE_STA /\ sx_packet_pool c = true;
  cb_peer : peer_at c n i peer /\ sp_generation peer = g;
  cb_previous : forall p, previous = Some p -> classes (sp_plan peer) = classes p;
  cb_free : ~ blocked a c peer new }.

(** A synchronisation in progress. *)
Definition in_progress (sync : linkg_switch_plan_sync_runtime) : bool :=
  bool_decide (ps_state sync = LINKG_SWITCH_PLAN_SYNC_WAIT_ACK \/ ps_state sync = LINKG_SWITCH_PLAN_SYNC_RETRY_WAIT).

(** The peer after the commit: it has the plan, and a new synchronisation waits for
    its acknowledgement; one in progress ends, its result pending, as cancelled. *)
Definition committed_peer (new : linkg_send_plan) (wire : linkg_switch_wire_plan_sync) (sync_id message_id now_us : Z)
    (peer : linkg_switch_peer_runtime) : linkg_switch_peer_runtime :=
  let old := sp_plan_sync peer in
  let result :=
    if in_progress old then
      SyncResult (sp_peer_node_id peer) (sp_generation peer) (ps_sync_id old) (ps_message_id old) LINKG_SWITCH_PLAN_SYNC_CANCELLED (- ECANCELED) now_us
    else ps_last_result old in
  SwitchPeer (sp_used peer) (sp_peer_node_id peer) (sp_generation peer) new (sp_remote_maintenance peer)
    (SyncRuntime sync_id message_id LINKG_SWITCH_PLAN_SYNC_WAIT_ACK wire (- EINPROGRESS) 1 0
       ((now_us + 200000) mod 2 ^ 64) ((now_us + 2000000) mod 2 ^ 64) result (in_progress old || ps_result_pending old))
    (sp_ap peer).

Definition committed_context (i : nat) (peer : linkg_switch_peer_runtime) (sync_id message_id : Z) (c : linkg_switch_context) : linkg_switch_context :=
  SwitchContext (sx_packet_pool c) (sx_role c) (sx_local_node_id c) (<[i := peer]> (sx_peers c)) (sx_event_queue c) (sx_local_maintenance c)
    (sx_run_token c) (sx_rx_users c) (sx_next_peer_generation c) sync_id message_id (sx_initialized c) (sx_running c).

(** The packet pool has a packet for a control message. *)
Definition packet_available (w : world) : bool :=
  negb (wd_answers w Pool_initialized =? 0) &&
  match wd_alloc w with Some data => LINKG_SWITCH_WIRE_MAX_SIZE <=? Z.of_nat (length data) | None => false end.

Definition plan_message (n message_id : Z) (wire : linkg_switch_wire_plan_sync) : linkg_scheduler_submission :=
  Submission LINKG_TRANSPORT_CLASS_REALTIME LINKG_SCHEDULER_POLICY_REDUNDANT LINKG_TRANSPORT_TYPE_SWITCH n true
    (message_bytes message_id (PlanSync wire)).

(** *** The checks of the code decide these conditions *)

Lemma number_after_next old : next_number old = number_after old.
Proof.
  unfold next_number, number_after, u32. rewrite <- (Zplus_mod_idemp_l old 1). pose proof (Z.mod_pos_bound old (2 ^ 32) ltac:(lia)).
  destruct (Z.eqb_spec (old mod 2 ^ 32) (2 ^ 32 - 1)) as [->|]; [done|]. rewrite (Z.mod_small (old mod 2 ^ 32 + 1)) by lia.
  destruct (Z.eqb_spec (old mod 2 ^ 32 + 1) 0); lia.
Qed.

Lemma number_after_range old : 0 < number_after old < 2 ^ 32.
Proof.
  unfold number_after. pose proof (Z.mod_pos_bound old (2 ^ 32) ltac:(lia)). destruct (Z.eqb_spec (old mod 2 ^ 32) (2 ^ 32 - 1)); lia.
Qed.

Lemma class_valid_iff cl : _linkg_switch_class_plan_valid cl = true <-> class_well_formed cl.
Proof.
  unfold _linkg_switch_class_plan_valid, class_well_formed. destruct cl as [m p s]. cbn [sc_mode sc_primary_link_id sc_secondary_link_id].
  unfold LINKG_SEND_MODE_NONE, LINKG_SEND_MODE_SINGLE, LINKG_SEND_MODE_REDUNDANT, LINKG_LINK_ID_INVALID.
  destruct (Z.eqb_spec m 0); [rewrite andb_true_iff, !Z.eqb_eq; lia|]. destruct (Z.eqb_spec m 1).
  { destruct (Z.eqb_spec p 0); [lia|]. rewrite orb_true_iff, negb_true_iff, Z.eqb_eq, Z.eqb_neq. lia. }
  destruct (Z.eqb_spec m 2); [|lia]. rewrite !andb_true_iff, !negb_true_iff, !Z.eqb_neq. lia.
Qed.

Lemma plan_valid_iff plan : _linkg_switch_plan_valid (Some plan) = true <-> Forall class_well_formed (classes plan).
Proof.
  unfold _linkg_switch_plan_valid, classes. change plan_classes with [0%nat; 1%nat; 2%nat]. cbn [forallb].
  rewrite !andb_true_iff, !class_valid_iff, !Forall_cons, Forall_nil. tauto.
Qed.

Lemma link_to_access_iff w l access c : (exec w (_linkg_switch_plan_link_to_access l) c).2 = (0, access) <-> link_named (wd_answers w) l access.
Proof.
  unfold _linkg_switch_plan_link_to_access, link_named. destruct (Z.eqb_spec l LINKG_LINK_ID_INVALID) as [->|Hl]; cbn; [naive_solver|].
  destruct (Z.eqb_spec l (wd_answers w (Link_id LINKG_LINK_ACCESS_WIFI))) as [E|E]; cbn; [naive_solver|].
  destruct (Z.eqb_spec l (wd_answers w (Link_id LINKG_LINK_ACCESS_CELLULAR))) as [E'|E']; cbn; [naive_solver|].
  split; [discriminate|naive_solver].
Qed.

Lemma class_to_wire_iff w cl wire c : class_well_formed cl ->
  (exec w (class_to_wire cl) c).2 = (0, wire) <-> class_named (wd_answers w) cl wire.
Proof.
  intros Hcl. unfold class_to_wire, class_named. destruct (Z.eqb_spec (sc_mode cl) LINKG_SEND_MODE_NONE) as [E|E].
  { cbn. split; [intros [= <-]; by left|]. intros [[_ ->]|[[[E' _]|[E' _]] _]]; [done|by rewrite E in E'..]. }
  rewrite exec_bind, (exec_asks_only w _ c (asks_only_link _)).
  pose proof (fun x => link_to_access_iff w (sc_primary_link_id cl) x c) as Hp.
  destruct ((exec w (_linkg_switch_plan_link_to_access (sc_primary_link_id cl)) c).2) as [rp p].
  destruct (Z.eqb_spec rp 0) as [->|Hrp]; cbn [negb]; [|cbn; split; [congruence|intros [[? _]|(_&H&_)]; [done|apply Hp in H; congruence]]].
  rewrite exec_bind, (exec_asks_only w _ c (asks_only_link _)).
  pose proof (fun x => link_to_access_iff w (sc_secondary_link_id cl) x c) as Hs.
  destruct ((exec w (_linkg_switch_plan_link_to_access (sc_secondary_link_id cl)) c).2) as [rs s].
  destruct (Z.eqb_spec rs 0) as [->|Hrs]; cbn [negb]; [|cbn; split; [congruence|intros [[? _]|(_&_&H)]; [done|apply Hs in H; congruence]]].
  assert (link_named (wd_answers w) (sc_primary_link_id cl) p) as Np by (by apply Hp).
  assert (link_named (wd_answers w) (sc_secondary_link_id cl) s) as Ns by (by apply Hs).
  assert ((p =? LINKG_SWITCH_WIRE_ACCESS_NONE) || (p =? s) = false) as ->.
  { destruct cl as [m l l']. unfold link_named, class_well_formed in *. cbn in *. 
    unfold LINKG_SWITCH_WIRE_ACCESS_NONE, LINKG_SWITCH_WIRE_ACCESS_WIFI, LINKG_SWITCH_WIRE_ACCESS_CELLULAR in *.
    apply orb_false_iff. rewrite !Z.eqb_neq. unfold LINKG_LINK_ID_INVALID in *. lia. }
  cbn. split.
  - intros [= <-]. right. cbn. split; [|done]. destruct cl as [m l l']. unfold class_well_formed in Hcl. cbn in *.
    destruct (Z.eqb_spec m LINKG_SEND_MODE_SINGLE); [by left|]. right. naive_solver.
  - intros [[? _]|(Hm&H1&H2)]; [done|]. apply Hp in H1 as [= ->]. apply Hs in H2 as [= ->]. destruct wire as [m' p' s']. cbn in *. do 2 f_equal.
    destruct Hm as [[-> ->]|[-> ->]]; done.
Qed.

Lemma convert_iff {A B} w (turn : A -> prog (Z * B)) (R : A -> B -> Prop) l c : (forall x, asks_only (turn x)) ->
  Forall (fun x => forall y, (exec w (turn x) c).2 = (0, y) <-> R x y) l ->
  forall ys, (exec w (convert turn l) c).2 = (0, ys) <-> Forall2 R l ys.
Proof.
  intros Ha. induction 1 as [|x l Hx Hl IH]; intros ys; cbn [convert].
  { cbn. split; [intros [= <-]; constructor|]. by inversion 1. }
  rewrite exec_bind, (exec_asks_only w _ c (Ha x)). destruct ((exec w (turn x) c).2) as [ret y].
  destruct (Z.eqb_spec ret 0) as [->|Hret]; cbn [negb].
  2: { cbn. split; [congruence|]. inversion 1 as [|?? y' ? H']; subst. apply Hx in H'. congruence. }
  rewrite exec_bind, (exec_asks_only w _ c (asks_only_convert turn l Ha)).
  destruct ((exec w (convert turn l) c).2) as [ret ys']. cbn. split.
  - intros [= -> <-]. constructor; [by apply Hx|by apply IH].
  - inversion 1 as [|?? y' ys'' H1 H2]; subst. apply Hx in H1 as [= ->]. by apply IH in H2 as [= -> ->].
Qed.

Lemma asks_only_class cl : asks_only (class_to_wire cl).
Proof.
  unfold class_to_wire. destruct (_ =? _); [done|].
  apply asks_only_bind; [apply asks_only_link|]. intros [ret y]. destruct (negb _); [done|].
  apply asks_only_bind; [apply asks_only_link|]. intros [ret' y']. destruct (negb _); [done|]. by destruct (_ || _).
Qed.

Lemma local_to_wire_iff w new wire c : Forall class_well_formed (classes new) ->
  (exec w (_linkg_switch_plan_local_to_wire (Some new)) c).2 = (0, wire) <-> Forall2 (class_named (wd_answers w)) (classes new) (wp_classes wire).
Proof.
  intros Hv. unfold _linkg_switch_plan_local_to_wire. rewrite (proj2 (plan_valid_iff new) Hv). cbn [negb].
  change (class_of new <$> plan_classes) with (classes new).
  rewrite exec_bind, (exec_asks_only w _ c (asks_only_convert _ _ asks_only_class)).
  rewrite <- (convert_iff w class_to_wire (class_named (wd_answers w)) (classes new) c asks_only_class).
  2: { eapply Forall_impl; [exact Hv|]. intros cl Hcl y. by apply class_to_wire_iff. }
  destruct ((exec w (convert class_to_wire (classes new)) c).2) as [ret ys]. cbn. destruct wire as [cs]. cbn. naive_solver.
Qed.

Lemma validate_path_iff w n l c : (exec w (_linkg_switch_plan_validate_path n l) c).2 = 0 <-> link_usable (wd_answers w) n l.
Proof.
  unfold _linkg_switch_plan_validate_path, link_usable. destruct (Z.eqb_spec l LINKG_LINK_ID_INVALID); cbn; [naive_solver|].
  destruct (Z.eqb_spec (wd_answers w (Link_found l)) 0); cbn; [naive_solver|].
  destruct (Z.eqb_spec (wd_answers w (Link_running l)) 0); cbn; naive_solver.
Qed.

Lemma validate_classes_iff w n l c :
  (exec w (validate_classes n l) c).2 = 0 <-> Forall (link_usable (wd_answers w) n) (l ≫= class_links).
Proof.
  induction l as [|cl l IH]; [cbn; by rewrite Forall_nil|]. change ((cl :: l) ≫= class_links) with (class_links cl ++ (l ≫= class_links)).
  rewrite Forall_app, <- IH. cbn [validate_classes]. unfold class_links.
  destruct (Z.eqb_spec (sc_mode cl) LINKG_SEND_MODE_NONE) as [E|E].
  { rewrite decide_True by done. rewrite Forall_nil. tauto. }
  rewrite decide_False by done. rewrite Forall_cons, <- (validate_path_iff w n _ c).
  rewrite exec_bind, (exec_asks_only w _ c (asks_only_path n (sc_primary_link_id cl))).
  destruct (Z.eqb_spec ((exec w (_linkg_switch_plan_validate_path n (sc_primary_link_id cl)) c).2) 0) as [E1|E1]; cbn [negb]; [|cbn; tauto].
  destruct (Z.eqb_spec (sc_mode cl) LINKG_SEND_MODE_REDUNDANT) as [E2|E2].
  2: { rewrite decide_False by done. rewrite Forall_nil. by destruct (exec w (validate_classes n l) c) as [[??]?]; cbn; tauto. }
  rewrite decide_True by done. rewrite Forall_cons, Forall_nil, <- (validate_path_iff w n _ c).
  rewrite exec_bind, (exec_asks_only w _ c (asks_only_path n (sc_secondary_link_id cl))).
  destruct (Z.eqb_spec ((exec w (_linkg_switch_plan_validate_path n (sc_secondary_link_id cl)) c).2) 0) as [E3|E3]; cbn [negb]; [|cbn; tauto].
  destruct (exec w (validate_classes n l) c) as [[??]?]; cbn; tauto.
Qed.

Lemma uses_link_iff plan link_id :
  _linkg_switch_plan_uses_link plan link_id = true <-> link_id <> LINKG_LINK_ID_INVALID /\ link_id ∈ (classes plan ≫= class_links).
Proof.
  unfold _linkg_switch_plan_uses_link. destruct (Z.eqb_spec link_id LINKG_LINK_ID_INVALID) as [E|E]; [split; [done|tauto]|].
  rewrite existsb_exists, list_elem_of_bind. change plan_classes with [0%nat; 1%nat; 2%nat].
  assert (forall k, (if sc_mode (class_of plan k) =? LINKG_SEND_MODE_NONE then false
     else (sc_primary_link_id (class_of plan k) =? link_id) ||
          ((sc_mode (class_of plan k) =? LINKG_SEND_MODE_REDUNDANT) && (sc_secondary_link_id (class_of plan k) =? link_id))) = true <->
     link_id ∈ class_links (class_of plan k)) as Hk.
  { intros k. unfold class_links. destruct (Z.eqb_spec (sc_mode (class_of plan k)) LINKG_SEND_MODE_NONE).
    { rewrite decide_True by done. rewrite elem_of_nil. done. }
    rewrite decide_False by done. rewrite elem_of_cons, orb_true_iff, andb_true_iff, !Z.eqb_eq.
    destruct (decide _); [rewrite list_elem_of_singleton|rewrite elem_of_nil]; naive_solver. }
  split.
  - intros (k&Hin&H). apply Hk in H. split; [done|]. exists (class_of plan k). split; [done|]. unfold classes.
    destruct Hin as [<-|[<-|[<-|[]]]]; set_solver.
  - intros [_ (cl&H&Hin)]. unfold classes in Hin. rewrite !elem_of_cons, elem_of_nil in Hin.
    destruct Hin as [->|[->|[->|[]]]]; [exists 0%nat|exists 1%nat|exists 2%nat]; (split; [cbn; tauto|by apply Hk]).
Qed.

Lemma maintenance_iff c peer access : access = LINKG_LINK_ACCESS_WIFI \/ access = LINKG_LINK_ACCESS_CELLULAR ->
  linkg_switch_maintenance_access_blocked_locked c (sp_remote_maintenance peer) access = true <-> under_maintenance c peer access.
Proof.
  intros Ha. unfold linkg_switch_maintenance_access_blocked_locked, _linkg_switch_maintenance_access_valid, under_maintenance.
  assert ((access =? LINKG_LINK_ACCESS_WIFI) || (access =? LINKG_LINK_ACCESS_CELLULAR) = true) as -> by (rewrite orb_true_iff, !Z.eqb_eq; tauto).
  cbn [negb]. destruct (sx_local_maintenance c) as [b x], (sp_remote_maintenance peer) as [b' x']. cbn.
  destruct b, b'; cbn; destruct (Z.eqb_spec x access), (Z.eqb_spec x' access); naive_solver.
Qed.

Lemma blocked_iff a c peer plan : _linkg_switch_plan_access_blocked_locked a c peer plan = true <-> blocked a c peer plan.
Proof.
  unfold _linkg_switch_plan_access_blocked_locked, blocked. cbv zeta beta.
  pose proof (maintenance_iff c peer LINKG_LINK_ACCESS_WIFI ltac:(by left)) as H1.
  pose proof (maintenance_iff c peer LINKG_LINK_ACCESS_CELLULAR ltac:(by right)) as H2.
  pose proof (uses_link_iff plan (a (Link_id LINKG_LINK_ACCESS_WIFI))) as U1.
  pose proof (uses_link_iff plan (a (Link_id LINKG_LINK_ACCESS_CELLULAR))) as U2.
  transitivity (linkg_switch_maintenance_access_blocked_locked c (sp_remote_maintenance peer) LINKG_LINK_ACCESS_WIFI = true /\
                _linkg_switch_plan_uses_link plan (a (Link_id LINKG_LINK_ACCESS_WIFI)) = true \/
                linkg_switch_maintenance_access_blocked_locked c (sp_remote_maintenance peer) LINKG_LINK_ACCESS_CELLULAR = true /\
                _linkg_switch_plan_uses_link plan (a (Link_id LINKG_LINK_ACCESS_CELLULAR)) = true).
  { rewrite <- !andb_true_iff. generalize (linkg_switch_maintenance_access_blocked_locked c (sp_remote_maintenance peer) LINKG_LINK_ACCESS_WIFI &&
      _linkg_switch_plan_uses_link plan (a (Link_id LINKG_LINK_ACCESS_WIFI))). intros [|]; [split; [by left|done]|]. split; [by right|by intros [|]]. }
  rewrite H1, H2, U1, U2. split.
  - intros [H|H]; [exists LINKG_LINK_ACCESS_WIFI|exists LINKG_LINK_ACCESS_CELLULAR]; tauto.
  - intros (x&[->| ->]&H); tauto.
Qed.

Lemma plan_equal_iff p q : _linkg_switch_plan_equal p q = true <-> classes p = classes q.
Proof.
  unfold _linkg_switch_plan_equal, classes. change plan_classes with [0%nat; 1%nat; 2%nat]. cbn [forallb].
  assert (forall x y, class_equal x y = true <-> x = y) as H.
  { intros [m p1 s] [m' p2 s']. unfold class_equal. cbn. rewrite negb_true_iff, !orb_false_iff, !negb_false_iff, !Z.eqb_eq. naive_solver. }
  rewrite !andb_true_iff, !H. split; [by intros (->&->&->&_)|]. by intros [= -> -> ->].
Qed.

Lemma previous_iff peer previous :
  previous_changed peer previous = false <-> forall p, previous = Some p -> classes (sp_plan peer) = classes p.
Proof. unfold previous_changed. destruct previous as [p|]; [|naive_solver]. rewrite negb_false_iff, plan_equal_iff. split; [by intros H ? [= <-]|]. intros H. by apply H. Qed.

Lemma find_peer_iff c n i : linkg_switch_find_peer_locked c n = Some i <-> peer_at c n i (the_peer c i).
Proof.
  unfold linkg_switch_find_peer_locked, peer_at, the_peer. destruct (list_find _ (sx_peers c)) as [[j p]|] eqn:E; cbn.
  - apply list_find_Some in E as (Hj&[Hu Hn]&Hmin). split.
    + intros [= <-]. rewrite Hj. splits; try done. intros k o Hk Ho. by apply (Hmin k o).
    + intros (Hi&Hu'&Hn'&Hmin'). destruct (Nat.lt_trichotomy i j) as [Hlt|[->|Hlt]]; [|done|].
      * destruct (sx_peers c !! i) as [q|] eqn:Ei; [|done]. by destruct (Hmin i q Ei Hlt).
      * by destruct (Hmin' j p Hlt Hj).
  - split; [done|]. intros (Hi&Hu&Hn&_). apply list_find_None in E. rewrite Forall_lookup in E. by destruct (E i _ Hi).
Qed.

Lemma find_generation_iff c n g i : g <> 0 ->
  linkg_switch_find_peer_generation_locked c n g = Some i <-> peer_at c n i (the_peer c i) /\ sp_generation (the_peer c i) = g.
Proof.
  intros Hg. unfold linkg_switch_find_peer_generation_locked, LINKG_SWITCH_PEER_GENERATION_INVALID. rewrite (proj2 (Z.eqb_neq g 0) Hg).
  destruct (linkg_switch_find_peer_locked c n) as [j|] eqn:E.
  - destruct (Z.eqb_spec (sp_generation (the_peer c j)) g) as [Eg|Eg].
    + rewrite <- find_peer_iff, E. naive_solver.
    + split; [done|]. intros [H H']. apply find_peer_iff in H. congruence.
  - split; [done|]. intros [H _]. apply find_peer_iff in H. congruence.
Qed.

(** *** Sending the message *)

(** A valid message is submitted exactly when the packet pool has a packet for it. *)
Lemma exec_send_message w c n encode id p :
  LINKG_RESOURCE_NODE_ID_MIN <= n <= LINKG_RESOURCE_NODE_ID_MAX -> (id =? 0) = false ->
  (forall b, encode (Some b) (Z.of_nat (length b)) = encode_payload id p b) ->
  payload_typed p -> payload_valid p = true -> 0 < payload_size p <= LINKG_SWITCH_WIRE_MAX_SIZE ->
  exists z, exec w (send_message true n encode) c =
    (c, if packet_available w then
          [Submitted (Submission LINKG_TRANSPORT_CLASS_REALTIME LINKG_SCHEDULER_POLICY_REDUNDANT LINKG_TRANSPORT_TYPE_SWITCH n true (message_bytes id p))]
        else [], z).
Proof.
  intros Hn Hid He Ht Hv Hs. unfold send_message, _linkg_switch_tx_create_packet, packet_available. cbn.
  destruct (wd_answers w Pool_initialized =? 0); cbn; [by eexists|]. destruct (wd_alloc w) as [data|]; cbn; [|by eexists].
  rewrite Z.ltb_antisym. destruct (Z.leb_spec LINKG_SWITCH_WIRE_MAX_SIZE (Z.of_nat (length data))); cbn; [|by eexists].
  rewrite He, encode_payload_spec by (done || lia). cbn [Z.eqb]. unfold _linkg_switch_tx_submit, _linkg_switch_tx_peer_valid.
  rewrite (proj2 (Z.leb_le _ _) (proj1 Hn)), (proj2 (Z.leb_le _ _) (proj2 Hn)). cbn [andb negb default].
  pose proof (length_message_bytes id p Ht) as Hl. unfold default, from_option, Datatypes.id.
  assert (payload_size p <= 2 ^ 32 - 1) as Hmax by (unfold LINKG_SWITCH_WIRE_MAX_SIZE in Hs; destruct p; vm_compute; congruence).
  rewrite length_app, length_drop.
  rewrite (proj2 (Z.eqb_neq _ _)), (proj2 (Z.ltb_ge _ _)), (proj2 (Z.ltb_ge (2 ^ 32 - 1) _)) by lia. cbn [orb exec].
  rewrite take_app_length' by lia. by eexists.
Qed.

(** A message of a well-formed plan is valid. *)
Lemma named_class_valid a cl wire : class_well_formed cl -> class_named a cl wire -> _linkg_switch_wire_validate_class_plan wire = 0.
Proof.
  intros Hcl. unfold class_named, link_named, class_well_formed in *. destruct cl as [m p s], wire as [m' p' s']. cbn [sc_mode sc_primary_link_id sc_secondary_link_id wp_mode wp_primary_access wp_secondary_access] in *.
  intros [[_ [= -> -> ->]]|(Hm&Hp&Hs)]; [done|].
  assert ((m' = 1 \/ m' = 2 /\ s' <> 0) /\ (p' = 1 \/ p' = 2) /\ (s' = 0 \/ s' = 1 \/ s' = 2) /\ s' <> p') as (H1&H2&H3&H4).
  { unfold LINKG_SEND_MODE_NONE, LINKG_SEND_MODE_SINGLE, LINKG_SEND_MODE_REDUNDANT, LINKG_LINK_ID_INVALID, LINKG_SWITCH_WIRE_ACCESS_NONE,
      LINKG_SWITCH_WIRE_ACCESS_WIFI, LINKG_SWITCH_WIRE_ACCESS_CELLULAR, LINKG_SWITCH_WIRE_MODE_SINGLE, LINKG_SWITCH_WIRE_MODE_REDUNDANT in *. lia. }
  destruct H1 as [->|[-> ?]], H2 as [->| ->], H3 as [->|[->| ->]]; done.
Qed.

Lemma named_plan_valid a new wire : Forall class_well_formed (classes new) -> Forall2 (class_named a) (classes new) (wp_classes wire) ->
  payload_typed (PlanSync wire) /\ payload_valid (PlanSync wire) = true.
Proof.
  intros Hv Hw. split; [exact (eq_sym (Forall2_length _ _ _ Hw))|]. cbn [payload_valid _linkg_switch_wire_validate_plan]. apply Z.eqb_eq.
  unfold first_code. induction Hw as [|cl x l xs Hx Hxs IH]; [done|]. inversion Hv; subst. cbn [foldl Z.eqb].
  rewrite (named_class_valid a cl x) by done. by apply IH.
Qed.

Lemma exec_send_committed w c n g sid id wire i a new :
  LINKG_RESOURCE_NODE_ID_MIN <= n <= LINKG_RESOURCE_NODE_ID_MAX -> (id =? 0) = false ->
  Forall class_well_formed (classes new) -> Forall2 (class_named a) (classes new) (wp_classes wire) ->
  sx_initialized c = true -> sx_running c = true -> sx_role c = LINKG_DEVICE_ROLE_STA ->
  linkg_switch_find_peer_generation_locked c n g = Some i ->
  ps_state (sp_plan_sync (the_peer c i)) = LINKG_SWITCH_PLAN_SYNC_WAIT_ACK ->
  ps_sync_id (sp_plan_sync (the_peer c i)) = sid -> ps_message_id (sp_plan_sync (the_peer c i)) = id ->
  exec w (_linkg_switch_plan_send_committed n g sid id wire true) c =
    (c, if packet_available w then [Submitted (plan_message n id wire)] else [], tt).
Proof.
  intros Hn Hid Hv Hw Hi Hr Hrole Hf Hs <- <-. destruct (named_plan_valid a new wire Hv Hw) as [Ht Hvalid].
  unfold _linkg_switch_plan_send_committed. rewrite exec_bind. unfold _linkg_switch_plan_sync_message_current. rewrite exec_locked.
  rewrite Hi, Hr, Hrole, Hf, Hs, !Z.eqb_refl. cbn [andb negb]. rewrite exec_bind. unfold linkg_switch_tx_send_plan_sync.
  destruct (exec_send_message w c n (fun b capacity => linkg_switch_wire_encode_plan_sync _ (Some wire) b capacity false) _ (PlanSync wire) Hn Hid ltac:(done) Ht Hvalid
    ltac:(done)) as [z ->]. cbn [exec app]. by rewrite app_nil_r.
Qed.

(** *** The critical section *)

(** What the section checks, of the entry [i]. *)
Definition section_ready (a : answers) (c : linkg_switch_context) (n g : Z) (previous : option linkg_send_plan) (new : linkg_send_plan)
    (i : nat) (peer : linkg_switch_peer_runtime) : Prop :=
  (sx_initialized c = true /\ sx_running c = true /\ sx_role c = LINKG_DEVICE_ROLE_STA /\ sx_packet_pool c = true) /\
  (peer_at c n i peer /\ sp_generation peer = g) /\
  (forall p, previous = Some p -> classes (sp_plan peer) = classes p) /\ ~ blocked a c peer new.

Lemma committed_peer_spec new wire c peer now :
  let '(c', peer') := _linkg_switch_plan_start_sync_locked wire now c
    (set_peer_plan new (_linkg_switch_plan_cancel_sync_locked LINKG_DEVICE_ROLE_STA now peer)) in
  peer' = committed_peer new wire (number_after (sx_next_plan_sync_id c)) (number_after (sx_next_plan_message_id c)) now peer /\
  c' = set_counters (sx_next_peer_generation c) (number_after (sx_next_plan_sync_id c)) (number_after (sx_next_plan_message_id c)) c.
Proof.
  unfold _linkg_switch_plan_start_sync_locked, _linkg_switch_plan_allocate_sync_id_locked, _linkg_switch_plan_allocate_message_id_locked.
  cbn. rewrite !number_after_next. split; [|done]. unfold committed_peer, _linkg_switch_plan_cancel_sync_locked, _linkg_switch_plan_finish_sync_locked, in_progress, _linkg_switch_plan_sync_busy.
  cbn [negb Z.eqb LINKG_DEVICE_ROLE_STA].
  destruct (Z.eqb_spec (ps_state (sp_plan_sync peer)) LINKG_SWITCH_PLAN_SYNC_WAIT_ACK) as [E|E]; cbn [orb negb].
  { by rewrite bool_decide_true by tauto. }
  destruct (Z.eqb_spec (ps_state (sp_plan_sync peer)) LINKG_SWITCH_PLAN_SYNC_RETRY_WAIT) as [E'|E']; cbn [orb negb].
  { by rewrite bool_decide_true by tauto. }
  by rewrite bool_decide_false by tauto.
Qed.

Lemma commit_section_spec w c n g previous new wire now : g <> 0 ->
  let '(c', notes, section) := exec w (commit_section n g previous new wire now) c in
  match section with
  | Return ret => ret <> 0 /\ c' = c /\ notes = [] /\ forall i peer, ~ section_ready (wd_answers w) c n g previous new i peer
  | Go cm =>
      let sync_id := number_after (sx_next_plan_sync_id c) in let message_id := number_after (sx_next_plan_message_id c) in
      cm = Committed sync_id message_id true /\
      exists i peer, section_ready (wd_answers w) c n g previous new i peer /\
        c' = committed_context i (committed_peer new wire sync_id message_id now peer) sync_id message_id c /\
        notes = [Started sync_id message_id wire]
  end.
Proof.
  intros Hg. unfold commit_section, section_ready. rewrite exec_locked.
  destruct (sx_initialized c) eqn:Hinit; cbn [negb]; [|by splits; [..|intros ?? [? _]; naive_solver]].
  destruct (sx_running c) eqn:Hrun; cbn [negb]; [|by splits; [..|intros ?? [? _]; naive_solver]].
  destruct (Z.eqb_spec (sx_role c) LINKG_DEVICE_ROLE_STA) as [Hrole|]; cbn [negb]; [|by splits; [..|intros ?? [? _]; naive_solver]].
  assert (forall i peer, peer_at c n i peer -> the_peer c i = peer) as Hthe by (by intros i peer [H _]; unfold the_peer; rewrite H).
  destruct (linkg_switch_find_peer_generation_locked c n g) as [i|] eqn:Ei.
  2: { splits; try done. intros i peer (_&[Hp Hgen]&_). pose proof (Hthe i peer Hp) as Et. rewrite <- Et in Hp, Hgen.
       assert (Some i = None) by (rewrite <- Ei; symmetry; by apply find_generation_iff). done. }
  pose proof Ei as Hi. apply find_generation_iff in Hi as [Hi Hgen]; [|done].
  assert (forall j peer, peer_at c n j peer -> sp_generation peer = g -> peer = the_peer c i) as Huniq.
  { intros j peer Hp Hgen'. pose proof (Hthe j peer Hp) as Et. rewrite <- Et in Hp, Hgen'. rewrite <- Et.
    assert (Some j = Some i) as [= ->]; [|done]. rewrite <- Ei. symmetry. by apply find_generation_iff. }
  destruct (previous_changed (the_peer c i) previous) eqn:Ep.
  { splits; try done. intros j peer (_&[Hp Hgen']&Hprev&_). rewrite (Huniq j peer Hp Hgen') in Hprev. apply previous_iff in Hprev. congruence. }
  destruct (_linkg_switch_plan_access_blocked_locked (wd_answers w) c (the_peer c i) new) eqn:Eb.
  { splits; try done. intros j peer (_&[Hp Hgen']&_&Hb). rewrite (Huniq j peer Hp Hgen') in Hb. by apply Hb, blocked_iff. }
  destruct (sx_packet_pool c) eqn:Epool; cbn [negb]; [|by splits; [..|intros ?? [? _]; naive_solver]].
  rewrite Hrole. pose proof (committed_peer_spec new wire c (the_peer c i) now) as H. destruct (_linkg_switch_plan_start_sync_locked _ _ _ _) as [c1 peer1].
  destruct H as [-> ->]. cbn. rewrite Epool. splits; [done|]. exists i, (the_peer c i). splits; try done.
  - by apply previous_iff.
  - intros Hb. apply blocked_iff in Hb. congruence.
Qed.
(** *** The commit *)

Lemma committed_find c n g i peer p id mid : peer_at c n i p -> sp_used peer = true -> sp_peer_node_id peer = n -> sp_generation peer = g -> g <> 0 ->
  the_peer (committed_context i peer id mid c) i = peer /\
  linkg_switch_find_peer_generation_locked (committed_context i peer id mid c) n g = Some i.
Proof.
  intros (Hi&_&_&Hmin) Hu Hn Hg Hnz. pose proof (lookup_lt_Some _ _ _ Hi) as Hlt.
  assert (the_peer (committed_context i peer id mid c) i = peer) as Et.
  { unfold the_peer. cbn. by rewrite list_lookup_insert_eq. }
  split; [done|]. apply find_generation_iff; [done|]. rewrite Et. split; [|done]. unfold peer_at. cbn. splits; try done.
  - by rewrite list_lookup_insert_eq.
  - intros j other Hj. rewrite list_lookup_insert_ne by lia. by apply Hmin.
Qed.

(** What a call that ended does, against what it needed. *)
Definition commit_result (w : world) (c : linkg_switch_context) (n g : Z) (previous plan : option linkg_send_plan) (now : Z)
    (result : linkg_switch_context * list note * (Z * option Z)) : Prop :=
  let '(c', notes, (ret, sync_id)) := result in
  (ret = 0 <-> exists new wire i peer, plan = Some new /\ committable (wd_answers w) c n g previous new now wire i peer) /\
  (ret <> 0 -> c' = c /\ notes = [] /\ (ret = - EINVAL /\ sync_id = None \/ sync_id = Some LINKG_SWITCH_PLAN_SYNC_ID_INVALID)) /\
  (forall new wire i peer, plan = Some new -> committable (wd_answers w) c n g previous new now wire i peer ->
     let id := number_after (sx_next_plan_sync_id c) in
     let message_id := number_after (sx_next_plan_message_id c) in
     0 < id < 2 ^ 32 /\ 0 < message_id < 2 ^ 32 /\ sync_id = Some id /\
     c' = committed_context i (committed_peer new wire id message_id now peer) id message_id c /\
     notes = Started id message_id wire :: (if packet_available w then [Submitted (plan_message n message_id wire)] else [])).

Lemma commit_fails w c n g previous plan now ret sync_id : ret <> 0 ->
  ret = - EINVAL /\ sync_id = None \/ sync_id = Some LINKG_SWITCH_PLAN_SYNC_ID_INVALID ->
  (forall new wire i peer, plan = Some new -> ~ committable (wd_answers w) c n g previous new now wire i peer) ->
  commit_result w c n g previous plan now (c, [], (ret, sync_id)).
Proof.
  intros Hret Hs Hno. split; [|split].
  - split; [done|]. intros (new&wire&i&peer&Hp&Hc). by destruct (Hno new wire i peer Hp).
  - by intros _.
  - intros new wire i peer Hp Hc. by destruct (Hno new wire i peer Hp).
Qed.

Lemma committable_ready a c n g previous new now wire i peer :
  committable a c n g previous new now wire i peer -> section_ready a c n g previous new i peer.
Proof. by intros []. Qed.

Lemma section_ready_unique a c n g previous new i peer j peer' :
  section_ready a c n g previous new i peer -> section_ready a c n g previous new j peer' -> i = j /\ peer = peer'.
Proof.
  intros (_&[[Hi [Hu [Hn Hmin]]] _]&_) (_&[[Hj [Hu' [Hn' Hmin']]] _]&_). destruct (Nat.lt_trichotomy i j) as [H|[->|H]].
  - by destruct (Hmin' i peer H Hi).
  - by simplify_eq.
  - by destruct (Hmin j peer' H Hj).
Qed.

(** C16: committing a plan. It returns 0 exactly when the arguments and the plan are
    well formed, every link of the plan is one of the two access types, runs and has a
    path to the peer, the module runs as a station, the peer is of the caller's
    generation and still has the plan the caller decided on, and no link the plan
    sends over is under maintenance. Then and there the peer gets the plan and a new
    synchronisation, under the next numbers (never 0), whose message names the links
    by their access types; one in progress ends as cancelled, with its result pending;
    nothing else of the context changes; and exactly that message is submitted when
    the packet pool has a packet for it. On any other code the context is untouched,
    nothing is started or sent and no synchronisation id is given out. *)
Theorem commit_local_spec w c n g previous plan now :
  commit_result w c n g previous plan now (exec w (_linkg_switch_plan_commit_local n g previous plan now) c).
Proof.
  unfold _linkg_switch_plan_commit_local. destruct plan as [new|]; [|apply commit_fails; [done|by left|done]].
  destruct (_ || _) eqn:Eargs.
  { apply commit_fails; [done|by left|]. intros ? wire i peer [= <-] [(Hn&Hg&Hnow) Hv _ _ _ _ _ _].
    rewrite (proj2 (plan_valid_iff new) Hv) in Eargs. unfold _linkg_switch_plan_peer_id_valid, LINKG_SWITCH_PEER_GENERATION_INVALID in Eargs.
    rewrite (proj2 (Z.leb_le _ _) (proj1 Hn)), (proj2 (Z.leb_le _ _) (proj2 Hn)), (proj2 (Z.eqb_neq g 0) Hg), (proj2 (Z.eqb_neq now 0) Hnow) in Eargs. done. }
  rewrite !orb_false_iff, !negb_false_iff in Eargs. destruct Eargs as [[[Hn Hg] Hv] Hnow].
  apply andb_true_iff in Hn as [Hn1 Hn2]. apply Z.leb_le in Hn1, Hn2. apply Z.eqb_neq in Hg, Hnow. apply plan_valid_iff in Hv.
  rewrite exec_bind, (exec_asks_only w _ c (asks_only_local_to_wire _)). pose proof (fun x => local_to_wire_iff w new x c Hv) as Hwire.
  destruct ((exec w (_linkg_switch_plan_local_to_wire (Some new)) c).2) as [ret wire].
  destruct (Z.eqb_spec ret 0) as [->|Hr]; cbn [negb].
  2: { apply commit_fails; [done|by right|]. intros ? wire' i peer [= <-] []. assert ((ret, wire) = (0, wire')) by by apply Hwire. congruence. }
  assert (forall wire', Forall2 (class_named (wd_answers w)) (classes new) (wp_classes wire') -> wire' = wire) as Hsame
    by (intros wire' H; apply Hwire in H; congruence). assert (Forall2 (class_named (wd_answers w)) (classes new) (wp_classes wire)) as Hw by by apply Hwire.
  rewrite exec_bind, (exec_asks_only w _ c (asks_only_targets _ _)). pose proof (validate_classes_iff w n (classes new) c) as Hlinks.
  change (validate_classes n (classes new)) with (_linkg_switch_plan_validate_targets n new) in Hlinks.
  destruct (Z.eqb_spec (exec w (_linkg_switch_plan_validate_targets n new) c).2 0) as [E0|Hr]; cbn [negb].
  2: { apply commit_fails; [done|by right|]. intros ? wire' i peer [= <-] []. tauto. }
  apply Hlinks in E0. rewrite exec_bind. pose proof (commit_section_spec w c n g previous new wire now Hg) as H.
  destruct (exec w (commit_section n g previous new wire now) c) as [[c1 n1] [cm|ret]].
  2: { destruct H as (Hr&->&->&Hno). apply commit_fails; [done|by right|]. intros ? wire' i peer [= <-] Hc. by apply (Hno i peer), (committable_ready _ _ _ _ _ _ _ _ _ _ Hc). }
  set (id := number_after (sx_next_plan_sync_id c)) in H. set (mid := number_after (sx_next_plan_message_id c)) in H.
  destruct H as (->&i&peer&Hready&->&->). cbn [cm_sync_id cm_message_id cm_packet_pool].
  pose proof Hready as ((Hinit&Hrun&Hrole&_)&[Hp Hgen]&Hprev&Hfree).
  destruct (committed_find c n g i (committed_peer new wire id mid now peer) peer id mid Hp) as [Et Ef]; [apply Hp..|done|done|].
  rewrite exec_bind, (exec_send_committed w _ n g id mid wire i (wd_answers w) new);
    [|done|apply Z.eqb_neq; pose proof (number_after_range (sx_next_plan_message_id c)); lia|done..|by rewrite Et|by rewrite Et|by rewrite Et].
  cbn [exec]. split; [|split].
  - split; [intros _|done]. exists new, wire, i, peer. split; [done|]. destruct Hready as (?&?&?&?). by constructor.
  - done.
  - intros ? wire' j peer' [= <-] Hc. destruct (section_ready_unique _ _ _ _ _ _ _ _ _ _ Hready (committable_ready _ _ _ _ _ _ _ _ _ _ Hc)) as [<- <-].
    rewrite (Hsame wire' (cb_wire _ _ _ _ _ _ _ _ _ _ Hc)). split; [apply number_after_range|]. split; [apply number_after_range|].
    splits; try done. by rewrite app_nil_r.
Qed.

(** *** Witnesses *)

Definition demo_module : linkg_switch_context :=
  SwitchContext true LINKG_DEVICE_ROLE_STA 2 (SwitchPeer true 5 3 local_plan_zero (MaintenanceRuntime false 0) sync_zero (ApPeer 0 0) :: replicate 15 switch_peer_zero)
    queue_zero (MaintenanceRuntime false 0) 1 0 3 0 0 true true.
Definition demo_ack : linkg_switch_event := SwitchEvent LINKG_SWITCH_EVENT_PLAN_ACK_RX 5 0 7 (PlanAck (WirePlanAck 0)).
Definition demo_wakeup_world : world := World (fun _ => 0) None (fun _ => 0).

(** The event is queued with the generation of its peer. *)
Lemma event_queue_fifo_witness :
  queue_ok (sx_event_queue demo_module) /\
  (exec demo_wakeup_world (linkg_switch_event_post (Some demo_ack)) demo_module).2 = 0 /\
  (let '(c', notes, ret) := exec demo_wakeup_world (linkg_switch_event_post (Some demo_ack)) demo_module in
   ret = post_code (wd_answers demo_wakeup_world Thread_wakeup) demo_module demo_ack /\ notes = [] /\ c' = set_queue (sx_event_queue c') demo_module /\
   queue_ok (sx_event_queue c') /\
   queued (sx_event_queue c') = queued (sx_event_queue demo_module) ++ (if ret =? 0 then [stamp demo_module demo_ack] else [])).
Proof.
  split; [exact (proj1 queue_zero_ok)|]. split; [vm_compute; reflexivity|].
  exact (proj1 (event_queue_fifo demo_wakeup_world demo_module demo_ack (proj1 queue_zero_ok))).
Defined.

(** A station with a synchronisation in progress, its numbers about to go round. *)
Definition demo_busy : linkg_switch_context :=
  SwitchContext true LINKG_DEVICE_ROLE_STA 2
    (SwitchPeer true 5 3 local_plan_zero (MaintenanceRuntime false 0)
       (SyncRuntime 7 9 LINKG_SWITCH_PLAN_SYNC_RETRY_WAIT wire_plan_zero (- ETIMEDOUT) 2 1 500 900 sync_result_zero false) (ApPeer 0 0) ::
     replicate 15 switch_peer_zero)
    queue_zero (MaintenanceRuntime false 0) 1 0 3 (2 ^ 32 - 1) 9 true true.
Definition demo_commit : linkg_send_plan := SendPlan [ClassSendPlan 2 7 9; ClassSendPlan 1 7 0; ClassSendPlan 0 0 0].
Definition demo_commit_wire : linkg_switch_wire_plan_sync := WirePlan [WireClassPlan 2 1 2; WireClassPlan 1 1 0; WireClassPlan 0 0 0].
(** Link 7 is the Wi-Fi, link 9 the cellular one; every path can be had. *)
Definition demo_commit_world : world :=
  World (fun q => match q with Link_id 1 => 7 | Link_id 2 => 9 | Link_found _ | Link_running _ | Pool_initialized => 1 | _ => 0 end)
    (Some (replicate 512 0)) (fun _ => 0).

(** The number goes round to 1, the old synchronisation is reported as cancelled. *)
Example demo_commits :
  let '(c', notes, result) := exec demo_commit_world (_linkg_switch_plan_commit_local 5 3 (Some local_plan_zero) (Some demo_commit) 1000) demo_busy in
  result = (0, Some 1) /\ the_peer c' 0 = committed_peer demo_commit demo_commit_wire 1 10 1000 (the_peer demo_busy 0) /\
  ps_last_result (sp_plan_sync (the_peer c' 0)) = SyncResult 5 3 7 9 LINKG_SWITCH_PLAN_SYNC_CANCELLED (- ECANCELED) 1000 /\
  notes = [Started 1 10 demo_commit_wire; Submitted (plan_message 5 10 demo_commit_wire)].
Proof. vm_compute. splits; reflexivity. Qed.
