(* ===== verification/SwitchPlanProgress.v ===== *)
(** * Link switching: a synchronisation nobody answers ends

    Each time the worker runs when [linkg_switch_plan_next_deadline_locked] asked
    for it, a synchronisation that is due makes a step: it is sent again, gives up
    its round, starts the next one, or ends. A measure on the synchronisation counts
    the steps that are left. *)

From S2P Require Import Prelude.
From S2P Require Import TransportTypes.
From S2P Require Import TransportPeer.
From S2P Require Import SwitchWire.
From S2P Require Import SwitchCore.
From S2P Require Import SwitchTx.
From S2P Require Import SwitchEvent.
From S2P Require Import SwitchPlan.
From S2P Require Import SwitchPlanSpec.
#[local] Open Scope switch_scope.

(** ** The measure *)

(** The steps left: at most four more transmissions and the time-out of the round, and
    for each of the three further rounds also its start. *)
Definition steps_left (sync : linkg_switch_plan_sync_runtime) : Z :=
  if ps_state sync =? LINKG_SWITCH_PLAN_SYNC_WAIT_ACK then 6 * (3 - ps_recovery_count sync) + (6 - ps_retry_count sync)
  else if ps_state sync =? LINKG_SWITCH_PLAN_SYNC_RETRY_WAIT then 6 * (3 - ps_recovery_count sync)
  else 0.

(** The counters of a synchronisation in progress are in their bounds. *)
Definition counters_ok (sync : linkg_switch_plan_sync_runtime) : Prop :=
  _linkg_switch_plan_sync_busy sync = true ->
  1 <= ps_retry_count sync <= 5 /\ 0 <= ps_recovery_count sync <= 3 /\
  (ps_state sync = LINKG_SWITCH_PLAN_SYNC_RETRY_WAIT -> ps_recovery_count sync < 3).

Definition due (now_us : Z) (p : linkg_switch_peer_runtime) : Prop :=
  sp_used p = true /\ _linkg_switch_plan_sync_busy (sp_plan_sync p) = true /\
  (ps_next_retry_us (sp_plan_sync p) <= now_us \/
   (ps_state (sp_plan_sync p) = LINKG_SWITCH_PLAN_SYNC_WAIT_ACK /\ ps_deadline_us (sp_plan_sync p) <= now_us)).

(** A synchronisation that has ended without an answer. *)
Definition given_up (now_us : Z) (p : linkg_switch_peer_runtime) : Prop :=
  let sync := sp_plan_sync p in
  ps_state sync = LINKG_SWITCH_PLAN_SYNC_UNCERTAIN /\ ps_last_status sync = - ETIMEDOUT /\ ps_result_pending sync = true /\
  ps_last_result sync = SyncResult (sp_peer_node_id p) (sp_generation p) (ps_sync_id sync) (ps_message_id sync)
    LINKG_SWITCH_PLAN_SYNC_UNCERTAIN (- ETIMEDOUT) now_us.

(** One peer, before and after the worker looked at it. *)
Definition peer_stepped (now_us : Z) (p q : linkg_switch_peer_runtime) : Prop :=
  (~ due now_us p -> q = p) /\
  (due now_us p ->
     sp_used q = true /\ sp_peer_node_id q = sp_peer_node_id p /\ sp_generation q = sp_generation p /\ sp_plan q = sp_plan p /\
     steps_left (sp_plan_sync q) < steps_left (sp_plan_sync p) /\ counters_ok (sp_plan_sync q) /\
     (_linkg_switch_plan_sync_busy (sp_plan_sync q) = true \/ given_up now_us q)).

Definition ready (c : linkg_switch_context) : Prop :=
  sx_initialized c = true /\ sx_running c = true /\ sx_role c = LINKG_DEVICE_ROLE_STA /\ length (sx_peers c) = 16%nat.

Lemma steps_left_nonneg sync : counters_ok sync -> 0 <= steps_left sync.
Proof.
  intros H. unfold steps_left, counters_ok, _linkg_switch_plan_sync_busy in *.
  destruct (ps_state sync =? LINKG_SWITCH_PLAN_SYNC_WAIT_ACK); [destruct (H eq_refl) as (?&?&_); lia|].
  destruct (ps_state sync =? LINKG_SWITCH_PLAN_SYNC_RETRY_WAIT); [destruct (H eq_refl) as (?&?&_); lia|lia].
Qed.

Lemma round_failed_steps now p : counters_ok (sp_plan_sync p) -> ps_state (sp_plan_sync p) = LINKG_SWITCH_PLAN_SYNC_WAIT_ACK ->
  let q := _linkg_switch_plan_round_failed_locked (- ETIMEDOUT) false now p in
  sp_used q = sp_used p /\ sp_peer_node_id q = sp_peer_node_id p /\ sp_generation q = sp_generation p /\ sp_plan q = sp_plan p /\
  steps_left (sp_plan_sync q) < steps_left (sp_plan_sync p) /\ counters_ok (sp_plan_sync q) /\
  (_linkg_switch_plan_sync_busy (sp_plan_sync q) = true \/ given_up now q).
Proof.
  intros Hc Hs. assert (_linkg_switch_plan_sync_busy (sp_plan_sync p) = true) as Hb by (unfold _linkg_switch_plan_sync_busy; by rewrite Hs).
  destruct (Hc Hb) as (H1&H2&_). unfold _linkg_switch_plan_round_failed_locked, LINKG_SWITCH_PLAN_SYNC_RECOVERY_MAX.
  assert (steps_left (sp_plan_sync p) = 6 * (3 - ps_recovery_count (sp_plan_sync p)) + (6 - ps_retry_count (sp_plan_sync p))) as ->
    by (unfold steps_left; by rewrite Hs).
  destruct (Z.leb_spec 3 (ps_recovery_count (sp_plan_sync p))).
  - unfold _linkg_switch_plan_finish_sync_locked. rewrite Hb. cbn. splits; try done; [unfold steps_left; cbn; lia|]. by right.
  - cbn. splits; try done; [lia|by left].
Qed.

(** The synchronisation the step of a due peer leaves, in the rounds and between them. *)
Lemma next_step now p sync' : counters_ok (sp_plan_sync p) -> due now p ->
  ps_state (sp_plan_sync p) = LINKG_SWITCH_PLAN_SYNC_RETRY_WAIT /\ ps_state sync' = LINKG_SWITCH_PLAN_SYNC_WAIT_ACK /\
    ps_retry_count sync' = 1 /\ ps_recovery_count sync' = u32 (ps_recovery_count (sp_plan_sync p) + 1) \/
  ps_state (sp_plan_sync p) = LINKG_SWITCH_PLAN_SYNC_WAIT_ACK /\ ps_retry_count (sp_plan_sync p) < 5 /\
    ps_state sync' = LINKG_SWITCH_PLAN_SYNC_WAIT_ACK /\
    ps_retry_count sync' = u32 (ps_retry_count (sp_plan_sync p) + 1) /\ ps_recovery_count sync' = ps_recovery_count (sp_plan_sync p) ->
  peer_stepped now p (set_peer_sync sync' p).
Proof.
  intros Hc Hd H. split; [done|]. intros _. destruct (Hc (proj1 (proj2 Hd))) as (Hr&Hk&Hw).
  cbn [set_peer_sync sp_used sp_peer_node_id sp_generation sp_plan sp_plan_sync]. destruct H as [(Es&Es'&Er&Ek)|(Es&Hlt&Es'&Er&Ek)].
  - specialize (Hw Es). rewrite wrap_small in Ek by (widths; lia).
    unfold steps_left, counters_ok, _linkg_switch_plan_sync_busy. rewrite Es, Es', Er, Ek. cbn. splits; try done; [apply Hd|lia| |by left].
    intros _. splits; [lia..|done].
  - rewrite wrap_small in Er by (widths; lia).
    unfold steps_left, counters_ok, _linkg_switch_plan_sync_busy. rewrite Es, Es', Er, Ek. cbn. splits; try done; [apply Hd|lia| |by left].
    intros _. splits; [lia..|done].
Qed.

Lemma the_peer_set i q c : (i < length (sx_peers c))%nat ->
  the_peer (set_peer i q c) i = q /\ (forall j, j <> i -> the_peer (set_peer i q c) j = the_peer c j).
Proof.
  intros Hi. unfold the_peer, set_peer, set_peers. cbn. split; [by rewrite list_lookup_insert_eq|].
  intros j Hj. by rewrite list_lookup_insert_ne.
Qed.

Lemma ready_set i q c : ready c -> ready (set_peer i q c).
Proof. intros (?&?&?&?). unfold ready, set_peer, set_peers. cbn. by rewrite length_insert. Qed.

Lemma not_due_stepped now p : ~ due now p -> peer_stepped now p p.
Proof. by split. Qed.

Lemma process_peer_steps now i c : ready c -> (i < 16)%nat -> counters_ok (sp_plan_sync (the_peer c i)) ->
  let '(c', notes, step) := process_peer now i c in
  (exists x, step = Go x) /\ ready c' /\ peer_stepped now (the_peer c i) (the_peer c' i) /\
  (forall j, j <> i -> the_peer c' j = the_peer c j).
Proof.
  intros Hready Hi Hc. pose proof Hready as (Hinit&Hrun&Hrole&Hlen). unfold process_peer. rewrite Hinit, Hrun, Hrole.
  cbn [negb orb Z.eqb Pos.eqb LINKG_DEVICE_ROLE_STA]. remember (the_peer c i) as p eqn:Hp.
  destruct (sp_used p) eqn:Hu; cbn [negb].
  2: { splits; [by eexists|done|rewrite <- Hp; apply not_due_stepped; intros (Hd&_); congruence|done]. }
  destruct (_linkg_switch_plan_sync_busy (sp_plan_sync p)) eqn:Hb; cbn [negb].
  2: { splits; [by eexists|done|rewrite <- Hp; apply not_due_stepped; intros (_&Hd&_); congruence|done]. }
  destruct (Z.eqb_spec (ps_state (sp_plan_sync p)) LINKG_SWITCH_PLAN_SYNC_WAIT_ACK) as [Ew|Ew]; cbn [andb].
  - destruct (_ || _) eqn:Efail.
    + assert (due now p) as Hd by (split; [done|]; split; [done|]; unfold LINKG_SWITCH_PLAN_SYNC_RETRY_MAX in *; lia).
      destruct (the_peer_set i (_linkg_switch_plan_round_failed_locked (- ETIMEDOUT) false now p) c) as [E1 E2]; [lia|].
      splits; [by eexists|by apply ready_set| |done]. rewrite E1. split; [done|]. intros _.
      destruct (round_failed_steps now p Hc Ew) as (->&H). by split.
    + apply orb_false_iff in Efail as [Edl Ert]. unfold LINKG_SWITCH_PLAN_SYNC_RETRY_MAX in Ert.
      destruct (Z.ltb_spec now (ps_next_retry_us (sp_plan_sync p))) as [Hn|Hn].
      { splits; [by eexists|done|rewrite <- Hp; apply not_due_stepped; intros (_&_&[Hd|[_ Hd]]); lia|done]. }
      assert (due now p) as Hd by (split; [done|]; split; [done|]; lia).
      rewrite Ew. cbn [Z.eqb Pos.eqb LINKG_SWITCH_PLAN_SYNC_WAIT_ACK LINKG_SWITCH_PLAN_SYNC_RETRY_WAIT].
      destruct (the_peer_set i (set_peer_sync (resend now (sp_plan_sync p)) p) c) as [E1 E2]; [lia|].
      splits; [by eexists|by apply ready_set| |done]. rewrite E1. apply next_step; [done..|]. right. splits; try done. lia.
  - destruct (Z.ltb_spec now (ps_next_retry_us (sp_plan_sync p))) as [Hn|Hn].
    { splits; [by eexists|done|rewrite <- Hp; apply not_due_stepped; intros (_&_&[Hd|[? Hd]]); [lia|done]|done]. }
    assert (due now p) as Hd by (split; [done|]; split; [done|]; by left).
    assert (ps_state (sp_plan_sync p) = LINKG_SWITCH_PLAN_SYNC_RETRY_WAIT) as Er.
    { unfold _linkg_switch_plan_sync_busy in Hb. rewrite orb_true_iff, !Z.eqb_eq in Hb. tauto. }
    rewrite Er. cbn [Z.eqb Pos.eqb LINKG_SWITCH_PLAN_SYNC_RETRY_WAIT _linkg_switch_plan_restart_sync_locked
      _linkg_switch_plan_allocate_message_id_locked].
    match goal with |- context [set_peer i ?q ?d] => destruct (the_peer_set i q d) as [E1 E2]; [cbn; lia|] end.
    splits; [by eexists|apply ready_set; by destruct c| |done]. rewrite E1. apply next_step; [done..|]. by left.
Qed.

(** ** One call of the worker *)

(** Running [p] alone ends in a context and a result of [Q]. *)
Definition leads {A} (w : world) (p : prog A) (c : linkg_switch_context) (Q : linkg_switch_context -> A -> Prop) : Prop :=
  let '(c', _, x) := exec w p c in Q c' x.

Lemma leads_bind {A B} w (p : prog A) (k : A -> prog B) c Q :
  leads w p c (fun c' x => leads w (k x) c' Q) -> leads w (bind p k) c Q.
Proof.
  unfold leads. rewrite exec_bind. destruct (exec w p c) as [[c1 n1] x]. destruct (exec w (k x) c1) as [[c2 n2] y]. done.
Qed.

Lemma leads_locked {A} w (body : answers -> linkg_switch_context -> linkg_switch_context * list note * A) c Q :
  (let '(c', _, x) := body (wd_answers w) c in Q c' x) -> leads w (locked body) c Q.
Proof. unfold leads. by rewrite exec_locked. Qed.

Lemma leads_mono {A} w (p : prog A) c (Q Q' : linkg_switch_context -> A -> Prop) :
  leads w p c Q -> (forall c' x, Q c' x -> Q' c' x) -> leads w p c Q'.
Proof. unfold leads. destruct (exec w p c) as [[c' n] x]. auto. Qed.

Lemma leads_send w c pool n encode (Q : linkg_switch_context -> Z -> Prop) : (forall z, Q c z) -> leads w (send_message pool n encode) c Q.
Proof.
  intros HQ. unfold leads, send_message, _linkg_switch_tx_create_packet. destruct pool; cbn; [|apply HQ].
  destruct (_ =? 0); cbn; [apply HQ|]. destruct (wd_alloc w) as [data|]; cbn; [|apply HQ]. destruct (_ <? _); cbn; [apply HQ|].
  destruct (encode _ _) as [[ret len] buffer]. destruct (ret =? 0); [|apply HQ]. unfold _linkg_switch_tx_submit.
  destruct (negb _); [apply HQ|]. destruct (_ || _ || _); apply HQ.
Qed.

#[local] Instance due_decision now p : Decision (due now p).
Proof. unfold due. apply _. Defined.

Lemma stepped_counters now p q : peer_stepped now p q -> counters_ok (sp_plan_sync p) -> counters_ok (sp_plan_sync q).
Proof. intros [Hn Hd] Hc. destruct (decide (due now p)) as [H|H]; [by apply Hd|by rewrite Hn]. Qed.

Lemma process_peers_steps w now indices : forall first_error c,
  NoDup indices -> Forall (fun i => (i < 16)%nat) indices -> ready c -> (forall i, counters_ok (sp_plan_sync (the_peer c i))) ->
  leads w (process_peers now indices first_error) c (fun c' _ =>
    ready c' /\ (forall i, i ∈ indices -> peer_stepped now (the_peer c i) (the_peer c' i)) /\
    (forall i, i ∉ indices -> the_peer c' i = the_peer c i)).
Proof.
  induction indices as [|i indices IH]; intros fe c Hnd Hlt Hr Hc; cbn [process_peers].
  { unfold leads. cbn. splits; try done. intros i Hi. by apply not_elem_of_nil in Hi. }
  apply NoDup_cons in Hnd as [Hni Hnd]. apply Forall_cons in Hlt as [Hi Hlt]. apply leads_bind, leads_locked.
  pose proof (process_peer_steps now i c Hr Hi (Hc i)) as H. destruct (process_peer now i c) as [[c1 n1] step].
  destruct H as ([x ->]&Hr1&Hs&Ho).
  assert (forall j, counters_ok (sp_plan_sync (the_peer c1 j))) as Hc1
    by (intros j; destruct (decide (j = i)) as [->|Hj]; [by eapply stepped_counters|by rewrite Ho]).
  assert (forall fe', leads w (process_peers now indices fe') c1 (fun c' _ =>
    ready c' /\ (forall j, j ∈ i :: indices -> peer_stepped now (the_peer c j) (the_peer c' j)) /\
    (forall j, j ∉ i :: indices -> the_peer c' j = the_peer c j))) as Hnext.
  { intros fe'. specialize (IH fe' c1 Hnd Hlt Hr1 Hc1). unfold leads in *. destruct (exec w (process_peers now indices fe') c1) as [[c2 n2] y].
    destruct IH as (Hr2&H2&H3). splits; [done| |].
    - intros j Hj. destruct (decide (j = i)) as [->|Hji]; [by rewrite H3|]. rewrite <- Ho by done. apply H2.
      apply elem_of_cons in Hj as [?|?]; done.
    - intros j Hj. apply not_elem_of_cons in Hj as [Hj1 Hj2]. by rewrite H3, Ho. }
  destruct x as [|sync g n pool]; [apply Hnext|]. destruct (negb pool); [apply Hnext|].
  apply leads_bind, leads_locked. cbn beta. destruct (negb _); [apply Hnext|].
  apply leads_bind, leads_send. intros z. apply Hnext.
Qed.

(** ** When the worker is asked for *)

Definition deadline_step (c : linkg_switch_context) (deadline_us : Z) (index : nat) : Z :=
  let peer := the_peer c index in
  let sync := sp_plan_sync peer in
  if negb (sp_used peer) then deadline_us
  else if negb (_linkg_switch_plan_sync_busy sync) then deadline_us
  else
    let deadline_us := if ps_next_retry_us sync <? deadline_us then ps_next_retry_us sync else deadline_us in
    if (ps_state sync =? LINKG_SWITCH_PLAN_SYNC_WAIT_ACK) && (ps_deadline_us sync <? deadline_us)
    then ps_deadline_us sync else deadline_us.

Lemma deadline_step_spec c d i now :
  deadline_step c d i <= d /\
  (sp_used (the_peer c i) = true -> _linkg_switch_plan_sync_busy (sp_plan_sync (the_peer c i)) = true ->
   deadline_step c d i <= ps_next_retry_us (sp_plan_sync (the_peer c i))) /\
  (deadline_step c d i <= now -> d <= now \/ due now (the_peer c i)).
Proof.
  unfold deadline_step. destruct (sp_used (the_peer c i)) eqn:Hu; cbn [negb]; [|splits; [lia|done|by left]].
  destruct (_linkg_switch_plan_sync_busy _) eqn:Hb; cbn [negb]; [|splits; [lia|done|by left]].
  assert (forall x y : Z, (if x <? y then x else y) = Z.min x y) as Hmin by (intros x y; destruct (Z.ltb_spec x y); lia).
  rewrite Hmin. remember (Z.min _ d) as m eqn:Hm.
  destruct (Z.eqb_spec (ps_state (sp_plan_sync (the_peer c i))) LINKG_SWITCH_PLAN_SYNC_WAIT_ACK) as [Hw|Hw]; cbn [andb].
  - rewrite Hmin. splits; [lia|intros _ _; lia|]. intros Hle. destruct (Z.le_gt_cases d now) as [?|?]; [by left|right].
    split; [done|]. split; [done|]. destruct (Z.le_gt_cases (ps_next_retry_us (sp_plan_sync (the_peer c i))) now); [by left|].
    right. split; [done|lia].
  - splits; [lia|intros _ _; lia|]. intros Hle. destruct (Z.le_gt_cases d now) as [?|?]; [by left|right].
    split; [done|]. split; [done|]. left. lia.
Qed.

Lemma deadline_fold c now indices : forall d,
  let r := foldl (deadline_step c) d indices in
  r <= d /\
  (forall i, i ∈ indices -> sp_used (the_peer c i) = true -> _linkg_switch_plan_sync_busy (sp_plan_sync (the_peer c i)) = true ->
     r <= ps_next_retry_us (sp_plan_sync (the_peer c i))) /\
  (r <= now -> d <= now \/ exists i, i ∈ indices /\ due now (the_peer c i)).
Proof.
  induction indices as [|i indices IH]; intros d; cbn [foldl]; cbn zeta.
  { splits; [lia| |by left]. intros i Hi. by apply not_elem_of_nil in Hi. }
  destruct (IH (deadline_step c d i)) as (H1&H2&H3). destruct (deadline_step_spec c d i now) as (G1&G2&G3). splits.
  - lia.
  - intros j Hj Hu Hb. apply elem_of_cons in Hj as [->|Hj]; [specialize (G2 Hu Hb); lia|by apply H2].
  - intros Hr. destruct (H3 Hr) as [Hd|(j&Hj&Hd)]; [|right; exists j; split; [by right|done]].
    destruct (G3 Hd) as [?|?]; [by left|right; exists i; split; [left|done]].
Qed.

Lemma peer_max : Z.to_nat LINKG_SWITCH_PEER_MAX = 16%nat.
Proof. done. Qed.

Lemma next_deadline_spec c now : ready c ->
  (forall i, (i < 16)%nat -> sp_used (the_peer c i) = true -> _linkg_switch_plan_sync_busy (sp_plan_sync (the_peer c i)) = true ->
     linkg_switch_plan_next_deadline_locked c <= ps_next_retry_us (sp_plan_sync (the_peer c i))) /\
  (linkg_switch_plan_next_deadline_locked c <= now < 2 ^ 64 - 1 -> exists i, (i < 16)%nat /\ due now (the_peer c i)).
Proof.
  intros (Hi&Hr&Ho&_). unfold linkg_switch_plan_next_deadline_locked. rewrite Hi, Hr, Ho, peer_max. cbn [negb orb Z.eqb Pos.eqb LINKG_DEVICE_ROLE_STA].
  destruct (deadline_fold c now (seq 0 16) (2 ^ 64 - 1)) as (_&H2&H3). split.
  - intros i Hlt. apply H2. rewrite elem_of_seq. lia.
  - intros [Hd Hn]. destruct (H3 Hd) as [?|(i&Hin&Hdue)]; [lia|]. exists i. rewrite elem_of_seq in Hin. split; [lia|done].
Qed.

(** ** Runs of the worker *)

(** The steps all the synchronisations have left. *)
Definition waiting (c : linkg_switch_context) : Z :=
  foldr Z.add 0 ((fun i => if sp_used (the_peer c i) then steps_left (sp_plan_sync (the_peer c i)) else 0) <$> seq 0 16).

Definition worker_call (call : world * Z) (c : linkg_switch_context) : linkg_switch_context :=
  (exec call.1 (linkg_switch_plan_process call.2) c).1.1.

(** The context after the calls, each in a world of its own. *)
Definition worker_run (calls : list (world * Z)) (c : linkg_switch_context) : linkg_switch_context :=
  foldl (fun c call => worker_call call c) c calls.

(** The worker runs no earlier than the deadline it asked for. *)
Fixpoint on_time (calls : list (world * Z)) (c : linkg_switch_context) : Prop :=
  match calls with
  | [] => True
  | call :: calls =>
      0 < call.2 < 2 ^ 64 - 1 /\ linkg_switch_plan_next_deadline_locked c <= call.2 /\ on_time calls (worker_call call c)
  end.

(** A peer before and after a run in which no message of the peer is processed. *)
Definition fate (p q : linkg_switch_peer_runtime) : Prop :=
  (sp_used p && _linkg_switch_plan_sync_busy (sp_plan_sync p) = false -> q = p) /\
  (sp_used p && _linkg_switch_plan_sync_busy (sp_plan_sync p) = true ->
     sp_used q = true /\ sp_peer_node_id q = sp_peer_node_id p /\ sp_generation q = sp_generation p /\ sp_plan q = sp_plan p /\
     (_linkg_switch_plan_sync_busy (sp_plan_sync q) = true \/ exists now_us, given_up now_us q)).

Lemma fate_refl p : fate p p.
Proof. split; [done|]. intros [Hu Hb]%andb_true_iff. splits; try done. by left. Qed.

Lemma fate_trans p q r : fate p q -> fate q r -> fate p r.
Proof.
  intros [H1 H2] [G1 G2]. split; intros Hp; [by rewrite (H1 Hp) in G1; apply G1|].
  destruct (H2 Hp) as (Hu&Hid&Hg&Hpl&[Hb|[now Hgu]]).
  - destruct G2 as (?&?&?&?&?); [by rewrite Hu, Hb|]. splits; try done; congruence.
  - rewrite G1; [splits; try done; right; by exists now|]. destruct Hgu as (Hs&_). rewrite Hu. cbn.
    unfold _linkg_switch_plan_sync_busy. by rewrite Hs.
Qed.

Lemma stepped_fate now p q : peer_stepped now p q -> fate p q.
Proof.
  intros [Hn Hd]. destruct (decide (due now p)) as [H|H]; [|rewrite (Hn H); apply fate_refl].
  specialize (Hd H). destruct H as (Hu&Hb&_). split; rewrite Hu, Hb; [done|]. intros _.
  destruct Hd as (?&?&?&?&_&_&[?|?]); splits; try done; [by left|right; by exists now].
Qed.

Lemma sum_le (f g : nat -> Z) l : (forall i, i ∈ l -> g i <= f i) ->
  foldr Z.add 0 (g <$> l) <= foldr Z.add 0 (f <$> l) /\
  ((exists i, i ∈ l /\ g i < f i) -> foldr Z.add 0 (g <$> l) < foldr Z.add 0 (f <$> l)).
Proof.
  induction l as [|a l IH]; intros H; cbn.
  { split; [lia|]. intros (i&Hi&_). by apply not_elem_of_nil in Hi. }
  destruct IH as [I1 I2]; [intros i Hi; apply H; by right|]. pose proof (H a ltac:(left)). split; [lia|].
  intros (i&Hi&Hlt). apply elem_of_cons in Hi as [->|Hi]; [lia|]. enough (foldr Z.add 0 (g <$> l) < foldr Z.add 0 (f <$> l)) by lia.
  apply I2. by exists i.
Qed.

Lemma waiting_nonneg c : (forall i, counters_ok (sp_plan_sync (the_peer c i))) -> 0 <= waiting c.
Proof.
  intros H. unfold waiting. generalize (seq 0 16). induction l as [|i l IH]; cbn; [lia|].
  pose proof (steps_left_nonneg _ (H i)). destruct (sp_used (the_peer c i)); lia.
Qed.

Lemma leads_context {A} w (p : prog A) c (Q : linkg_switch_context -> Prop) : leads w p c (fun c' _ => Q c') -> Q (exec w p c).1.1.
Proof. unfold leads. by destruct (exec w p c) as [[c' n] x]. Qed.

Lemma process_is now : 0 < now -> linkg_switch_plan_process now = process_peers now (seq 0 16) 0.
Proof. intros Hn. unfold linkg_switch_plan_process. rewrite (proj2 (Z.eqb_neq now 0)) by lia. by rewrite peer_max. Qed.

Lemma worker_call_is w now c : worker_call (w, now) c = (exec w (linkg_switch_plan_process now) c).1.1.
Proof. done. Qed.

Lemma all_peers_steps w now c : ready c -> (forall i, counters_ok (sp_plan_sync (the_peer c i))) ->
  leads w (process_peers now (seq 0 16) 0) c (fun c' _ =>
    ready c' /\ forall i, peer_stepped now (the_peer c i) (the_peer c' i)).
Proof.
  intros Hr Hc.
  assert (Forall (fun i => (i < 16)%nat) (seq 0 16)) as Hlt by (apply Forall_seq; lia).
  eapply leads_mono; [exact (process_peers_steps w now (seq 0 16) 0 c (NoDup_seq 0 16) Hlt Hr Hc)|]. clear Hlt. cbn beta.
  intros c1 _ (Hr1&Hs&Ho). split; [done|]. intros i. destruct (decide (i < 16)%nat) as [Hi|Hi]; [apply Hs, elem_of_seq; lia|].
  rewrite Ho by (rewrite elem_of_seq; lia). apply not_due_stepped. intros (Hu&_). destruct Hr as (_&_&_&Hlen). revert Hu. unfold the_peer.
  rewrite lookup_ge_None_2 by lia. done.
Qed.

Lemma worker_call_steps w now c : ready c -> (forall i, counters_ok (sp_plan_sync (the_peer c i))) -> 0 < now ->
  ready (worker_call (w, now) c) /\ (forall i, peer_stepped now (the_peer c i) (the_peer (worker_call (w, now) c) i)).
Proof.
  intros Hr Hc Hn. rewrite worker_call_is, (process_is now Hn).
  exact (leads_context w _ c (fun c' => ready c' /\ forall i, peer_stepped now (the_peer c i) (the_peer c' i)) (all_peers_steps w now c Hr Hc)).
Qed.

Lemma on_time_step w now c : ready c -> (forall i, counters_ok (sp_plan_sync (the_peer c i))) ->
  0 < now < 2 ^ 64 - 1 -> linkg_switch_plan_next_deadline_locked c <= now ->
  let c' := worker_call (w, now) c in
  ready c' /\ (forall i, counters_ok (sp_plan_sync (the_peer c' i))) /\ (forall i, fate (the_peer c i) (the_peer c' i)) /\
  waiting c' < waiting c.
Proof.
  intros Hr Hc Hn Hd. destruct (worker_call_steps w now c Hr Hc) as [Hr' Hs]; [lia|]. cbn zeta. splits; [done| | |].
  - intros i. by eapply stepped_counters.
  - intros i. by eapply stepped_fate.
  - destruct (proj2 (next_deadline_spec c now Hr)) as (i&Hi&Hdue); [lia|]. refine (proj2 (sum_le _ _ _ _) _).
    + intros j _. destruct (Hs j) as [Hsame Hstep]. destruct (decide (due now (the_peer c j))) as [Hj|Hj]; [|by rewrite Hsame].
      destruct Hj as (Hu&Hb&Ht). destruct Hstep as (->&_&_&_&Hlt&_); [done|]. rewrite Hu. lia.
    + exists i. split; [apply elem_of_seq; lia|]. destruct (Hs i) as [_ Hstep]. destruct (Hstep Hdue) as (->&_&_&_&Hlt&_).
      destruct Hdue as (->&_). done.
Qed.

(** C7: a synchronisation that nobody answers ends. Whatever else fails (no packet,
    no target, a scheduler that refuses), if the worker runs whenever it asked to,
    then every call makes a step, so there are at most as many calls as there are
    steps left (23 for a synchronisation just begun); and each synchronisation that
    was in progress still is, or has ended as uncertain with a time-out the policy is
    told of, with the plan in force unchanged. When the worker asks for no further
    call, no synchronisation with a deadline is left. *)
Theorem sync_settles calls c : ready c -> (forall i, counters_ok (sp_plan_sync (the_peer c i))) -> on_time calls c ->
  let c' := worker_run calls c in
  Z.of_nat (length calls) + waiting c' <= waiting c /\ 0 <= waiting c' /\
  (forall i, fate (the_peer c i) (the_peer c' i)) /\
  (linkg_switch_plan_next_deadline_locked c' = 2 ^ 64 - 1 -> forall i, (i < 16)%nat -> sp_used (the_peer c' i) = true ->
     ps_next_retry_us (sp_plan_sync (the_peer c' i)) < 2 ^ 64 - 1 ->
     _linkg_switch_plan_sync_busy (sp_plan_sync (the_peer c' i)) = false).
Proof.
  revert c. induction calls as [|[w now] calls IH]; intros c Hr Hc Ht; cbn [worker_run foldl].
  - cbn zeta. splits; [cbn; lia|by apply waiting_nonneg|intros; apply fate_refl|]. intros Hd i Hi Hu Hn.
    destruct (_linkg_switch_plan_sync_busy _) eqn:Hb; [|done]. pose proof (proj1 (next_deadline_spec c 0 Hr) i Hi Hu Hb). lia.
  - destruct Ht as (Hn&Hd&Ht). cbn [snd] in *. destruct (on_time_step w now c Hr Hc Hn Hd) as (Hr'&Hc'&Hf&Hw).
    destruct (IH _ Hr' Hc' Ht) as (H1&H2&H3&H4). cbn zeta. fold (worker_run calls (worker_call (w, now) c)).
    splits; [cbn [length]; lia|done| |done]. intros i. by eapply fate_trans.
Qed.

(** *** A peer that never answers *)

Fixpoint on_timeb (calls : list (world * Z)) (c : linkg_switch_context) : bool :=
  match calls with
  | [] => true
  | call :: calls =>
      (0 <? call.2) && (call.2 <? 2 ^ 64 - 1) && (linkg_switch_plan_next_deadline_locked c <=? call.2) && on_timeb calls (worker_call call c)
  end.

Lemma on_timeb_ok calls : forall c, on_timeb calls c = true -> on_time calls c.
Proof. induction calls as [|call calls IH]; intros c; cbn [on_timeb on_time]; [done|]. rewrite !andb_true_iff. intros [[[? ?] ?] ?]. splits; [lia..|by apply IH]. Qed.

(** The worker runs when it asked to, and no packet can be had. *)
Definition mute_world : world := World (fun _ => 0) None (fun _ => 0).

Fixpoint punctual (calls : nat) (c : linkg_switch_context) : list (world * Z) :=
  match calls with
  | O => []
  | S calls => let call := (mute_world, linkg_switch_plan_next_deadline_locked c) in call :: punctual calls (worker_call call c)
  end.

Definition demo_plan : linkg_send_plan := SendPlan [ClassSendPlan 2 7 9; ClassSendPlan 1 7 0; ClassSendPlan 0 0 0].
Definition demo_wire : linkg_switch_wire_plan_sync := WirePlan [WireClassPlan 2 1 2; WireClassPlan 1 1 0; WireClassPlan 0 0 0].

(** Just committed, at time 1000. *)
Definition demo_waiting : linkg_switch_context :=
  let peer := committed_peer demo_plan demo_wire 1 1 1000 (SwitchPeer true 5 1 local_plan_zero (MaintenanceRuntime false 0) sync_zero (ApPeer 0 0)) in
  SwitchContext true LINKG_DEVICE_ROLE_STA 2 (peer :: replicate 15 switch_peer_zero) queue_zero (MaintenanceRuntime false 0) 1 0 1 1 1 true true.

Lemma demo_counters i : counters_ok (sp_plan_sync (the_peer demo_waiting i)).
Proof. do 16 (destruct i as [|i]; [intros Hb; vm_compute in Hb; first [discriminate | vm_compute; splits; by intros]|]). intros Hb. done. Qed.

Lemma sync_settles_witness :
  Z.of_nat (length (punctual 23 demo_waiting)) + waiting (worker_run (punctual 23 demo_waiting) demo_waiting) <= waiting demo_waiting.
Proof.
  refine (proj1 (sync_settles (punctual 23 demo_waiting) demo_waiting _ demo_counters _)).
  - vm_compute. splits; reflexivity.
  - apply on_timeb_ok. vm_compute. reflexivity.
Defined.

(** All 23 steps are made, and the synchronisation ends as uncertain. *)
Example demo_gives_up :
  let c := worker_run (punctual 23 demo_waiting) demo_waiting in
  (waiting demo_waiting, ps_state (sp_plan_sync (the_peer c 0)), linkg_switch_plan_next_deadline_locked c,
   bool_decide (sp_plan (the_peer c 0) = demo_plan)) = (23, LINKG_SWITCH_PLAN_SYNC_UNCERTAIN, 2 ^ 64 - 1, true).
Proof. vm_compute. reflexivity. Qed.
