(* ===== verification/Scheduler.v ===== *)
(** * Scheduling  (core/scheduler/linkg_scheduler.c)

    A batch of packets is cut into chunks of 32, each packet is given its next hop
    (the destination on an access point, the access point on a station), the packets
    of one hop form a group, and each group is handed to the transport with the
    links its peer's plan names, while references to the paths are held. Relayed
    frames come back from the transport the same way. Every function of the file.

    A function is a tree of the operations it performs on other modules and on the
    atomic variables of the scheduler, and a property is stated for every answer
    they may give: whatever other threads do to these variables, to plans, links
    and paths between two operations is one of the answers. Items are the lists of
    the batch, and the results array is returned. *)

From S2P Require Import Prelude.
From S2P Require Import PacketPool.
From S2P Require Import LinkPath.
From S2P Require Import Link.
From S2P Require Import TransportTypes.
From S2P Require Import TransportPeer.
From S2P Require Import SwitchCore.
From S2P Require Import TransportTx.

(** ** Constants and data *)

Definition LINKG_NODE_PEER_MAX := LINKG_RESOURCE_NETWORK_STA_MAX.
Definition LINKG_SCHEDULER_TX_CHUNK_MAX := 32.
Definition LINKG_SCHEDULER_PEER_GROUP_MAX := LINKG_NODE_PEER_MAX.

Record linkg_node_info := NodeInfo {
  ni_node_id : Z;
  ni_role : Z }.

Record linkg_scheduler_tx_context := SchedulerContext {
  kc_traffic_class : Z;
  kc_policy : Z;
  kc_specified_link_id : Z }.

Record linkg_scheduler_tx_item := SchedulerItem {
  ki_packet : option pkt_ptr;
  ki_type : Z;
  ki_destination_node_id : Z;
  ki_result : Z }.

(** [count] is the length of the list. *)
Record linkg_scheduler_peer_group := PeerGroup {
  pg_item_indices : list nat;
  pg_peer_node_id : Z }.

(** [local] is borrowed: the node's identity does not change while it runs. *)
Record linkg_scheduler_route_context := RouteContext {
  rc_local : linkg_node_info;
  rc_sta_peer_node_id : Z;
  rc_sta_peer_result : Z }.

Definition scheduler_item_zero : linkg_scheduler_tx_item := SchedulerItem None 0 0 0.
Definition forward_item_zero : linkg_transport_forward_item := ForwardItem None 0 0 0.
Definition target_zero : linkg_transport_tx_target := TxTarget None None [].

(** ** Programs *)

(** The operations, with the type of their answers: the atomic variables, the node,
    link manager, link and switching modules, and the transport, whose answer is
    the code and the results array. *)
Inductive op : Type -> Type :=
  | Load_initialized : op bool
  | Store_initialized (value : bool) : op unit
  | Exchange_initialized : op bool                   (* false to true; whether it was false *)
  | Load_peer_cached : op bool
  | Store_peer_cached (value : bool) : op unit
  | Load_peer_node_id : op Z
  | Store_peer_node_id (value : Z) : op unit
  | Get_local : op (option linkg_node_info)
  | Peer_snapshot (node_id : Z) : op (Z * linkg_node_info)
  | Link_id_of (access : Z) : op Z
  | Get_link (link_id : Z) : op (option Z)
  | Is_running (link : Z) : op bool
  | Get_access (link : Z) : op Z
  | Is_blocked (peer_node_id access : Z) : op bool
  | Class_plan (peer_node_id traffic_class : Z) : op (Z * linkg_class_send_plan)
  | Path_acquire (peer_node_id link_id : Z) : op (Z * Z * list Z)   (* code, path, endpoint *)
  | Path_release (path : Z) : op unit
  | Send_batch (context : linkg_transport_tx_context) (items : list linkg_transport_tx_item) : op (Z * list Z)
  | Forward_batch (context : linkg_transport_tx_context) (items : list linkg_transport_forward_item) : op (Z * list Z)
  | Register_forward : op Z
  | Unregister_forward : op Z.

Inductive sched (A : Type) :=
  | Done (a : A)
  | Do {X : Type} (o : op X) (k : X -> sched A).
Arguments Done {A}. Arguments Do {A X}.

Fixpoint sbind {A B} (p : sched A) (k : A -> sched B) : sched B :=
  match p with
  | Done a => k a
  | Do o f => Do o (fun x => sbind (f x) k)
  end.

Definition perform {X} (o : op X) : sched X := Do o Done.

Declare Scope sched_scope.
Delimit Scope sched_scope with sched.
Notation "'do!' x ':=' p 'in' q" := (sbind p (fun x => q)) (at level 200, x pattern, p at level 100, q at level 200, right associativity) : sched_scope.
#[local] Open Scope sched_scope.

(** ** Checks *)

Definition _linkg_scheduler_node_id_valid (node_id : Z) : bool :=
  (LINKG_RESOURCE_NODE_ID_MIN <=? node_id) && (node_id <=? LINKG_RESOURCE_NODE_ID_MAX).

Definition _linkg_scheduler_link_id_valid (link_id : Z) : bool := negb (link_id =? LINKG_LINK_ID_INVALID).

Definition _linkg_scheduler_class_valid (traffic_class : Z) : bool :=
  (LINKG_TRANSPORT_CLASS_REALTIME <=? traffic_class) && (traffic_class <? LINKG_TRANSPORT_CLASS_COUNT).

Definition _linkg_scheduler_type_valid (type : Z) : bool :=
  (LINKG_TRANSPORT_TYPE_NONE <? type) && (type <? LINKG_TRANSPORT_TYPE_COUNT).

Definition _linkg_scheduler_policy_valid (policy : Z) : bool :=
  (policy =? LINKG_SCHEDULER_POLICY_DEFAULT) || (policy =? LINKG_SCHEDULER_POLICY_REDUNDANT) ||
  (policy =? LINKG_SCHEDULER_POLICY_SPECIFIED).

Definition _linkg_scheduler_validate_context (context : option linkg_scheduler_tx_context) : Z :=
  match context with
  | None => - EINVAL
  | Some c =>
      if negb (_linkg_scheduler_class_valid (kc_traffic_class c)) || negb (_linkg_scheduler_policy_valid (kc_policy c)) then - EINVAL
      else if (kc_policy c =? LINKG_SCHEDULER_POLICY_SPECIFIED) && negb (_linkg_scheduler_link_id_valid (kc_specified_link_id c))
      then - EINVAL else 0
  end.

(** ** Routes *)

Fixpoint scan_peers (node_ids : list Z) : sched (Z * Z) :=
  match node_ids with
  | [] => Done (- ENOENT, 0)
  | node_id :: node_ids =>
      do! (ret, info) := perform (Peer_snapshot node_id) in
      if ret =? - ENOENT then scan_peers node_ids
      else if negb (ret =? 0) then Done (ret, 0)
      else if negb (ni_role info =? LINKG_DEVICE_ROLE_AP) then Done (- EINVAL, 0)
      else
        do! _ := perform (Store_peer_node_id (ni_node_id info)) in
        do! _ := perform (Store_peer_cached true) in
        Done (0, ni_node_id info)
  end.

(** The code and [*peer_node_id], zero before the call. *)
Definition _linkg_scheduler_find_sta_peer : sched (Z * Z) :=
  let scan := scan_peers (seqZ LINKG_RESOURCE_NODE_ID_MIN (LINKG_RESOURCE_NODE_ID_MAX - LINKG_RESOURCE_NODE_ID_MIN + 1)) in
  do! cached := perform Load_peer_cached in
  if cached then
    do! cached_node_id := perform Load_peer_node_id in
    do! (ret, info) := perform (Peer_snapshot cached_node_id) in
    if ret =? 0 then
      if negb (ni_role info =? LINKG_DEVICE_ROLE_AP) then Done (- EINVAL, 0) else Done (0, ni_node_id info)
    else if negb (ret =? - ENOENT) then Done (ret, 0)
    else do! _ := perform (Store_peer_cached false) in scan
  else scan.

(** The code and the next hop. *)
Definition _linkg_scheduler_resolve_peer (local : linkg_node_info) (destination_node_id sta_peer_node_id : Z) : Z * Z :=
  if negb (_linkg_scheduler_node_id_valid destination_node_id) then (- EINVAL, 0)
  else if destination_node_id =? ni_node_id local then (- EHOSTUNREACH, 0)
  else if ni_role local =? LINKG_DEVICE_ROLE_AP then (0, destination_node_id)
  else if ni_role local =? LINKG_DEVICE_ROLE_STA then
    if negb (_linkg_scheduler_node_id_valid sta_peer_node_id) then (- ENOENT, 0) else (0, sta_peer_node_id)
  else (- EINVAL, 0).

Definition route_zero : linkg_scheduler_route_context := RouteContext (NodeInfo 0 0) 0 0.

(** The code and, with code 0, the context. *)
Definition _linkg_scheduler_prepare_route_context : sched (Z * linkg_scheduler_route_context) :=
  do! local := perform Get_local in
  match local with
  | None => Done (- ENODEV, route_zero)
  | Some local =>
      if negb (ni_role local =? LINKG_DEVICE_ROLE_AP) && negb (ni_role local =? LINKG_DEVICE_ROLE_STA) then Done (- EINVAL, route_zero)
      else if ni_role local =? LINKG_DEVICE_ROLE_STA then
        do! (ret, peer_node_id) := _linkg_scheduler_find_sta_peer in Done (0, RouteContext local peer_node_id ret)
      else Done (0, RouteContext local 0 0)
  end.

(** ** Results *)

(** [_linkg_scheduler_set_tx_group_result] and [_linkg_scheduler_set_forward_group_result]. *)
Definition set_group_result (group : linkg_scheduler_peer_group) (result : Z) (results : list Z) : list Z :=
  foldl (fun results index => <[index := result]> results) results (pg_item_indices group).

(** What the transport answered, written back to the batch. *)
Definition copy_results (group : linkg_scheduler_peer_group) (transport_results results : list Z) : list Z :=
  foldl (fun results '(index, result) => <[index := result]> results) results (zip (pg_item_indices group) transport_results).

(** ** Targets *)

Definition _linkg_scheduler_acquire_target (peer_node_id link_id : Z) : sched (Z * linkg_transport_tx_target) :=
  if negb (_linkg_scheduler_node_id_valid peer_node_id) || negb (_linkg_scheduler_link_id_valid link_id)
  then Done (- EINVAL, target_zero)
  else
    do! link := perform (Get_link link_id) in
    match link with
    | None => Done (- ENOENT, target_zero)
    | Some link =>
        do! running := perform (Is_running link) in
        if negb running then Done (- ENETDOWN, target_zero)
        else
          do! access := perform (Get_access link) in
          do! blocked := perform (Is_blocked peer_node_id access) in
          if (blocked : bool) then Done (- EBUSY, target_zero)
          else
            do! (ret, path, destination) := perform (Path_acquire peer_node_id link_id) in
            if negb (ret =? 0) then Done (ret, target_zero)
            else Done (0, TxTarget (Some link) (Some path) destination)
    end.

Fixpoint _linkg_scheduler_release_targets (targets : list linkg_transport_tx_target) : sched unit :=
  match targets with
  | [] => Done tt
  | target :: targets =>
      match tg_path target with
      | Some path => do! _ := perform (Path_release path) in _linkg_scheduler_release_targets targets
      | None => _linkg_scheduler_release_targets targets
      end
  end.

(** Of the link ids that are left, with [first] the one at index 0. *)
Fixpoint control_targets (peer_node_id first : Z) (index : nat) (link_ids : list Z) (targets : list linkg_transport_tx_target)
    : sched (list linkg_transport_tx_target) :=
  match link_ids with
  | [] => Done targets
  | link_id :: link_ids =>
      if (link_id =? LINKG_LINK_ID_INVALID) || (negb (index =? 0)%nat && (link_id =? first))
      then control_targets peer_node_id first (S index) link_ids targets
      else
        do! (ret, target) := _linkg_scheduler_acquire_target peer_node_id link_id in
        control_targets peer_node_id first (S index) link_ids (if ret =? 0 then targets ++ [target] else targets)
  end.

(** The code and the first [*target_count] targets. *)
Definition _linkg_scheduler_build_control_targets (peer_node_id : Z) : sched (Z * list linkg_transport_tx_target) :=
  do! wifi := perform (Link_id_of LINKG_LINK_ACCESS_WIFI) in
  do! cellular := perform (Link_id_of LINKG_LINK_ACCESS_CELLULAR) in
  do! targets := control_targets peer_node_id wifi 0 [wifi; cellular] [] in
  Done (if bool_decide (targets = []) then - ENETDOWN else 0, targets).

Definition _linkg_scheduler_build_targets (peer_node_id traffic_class policy specified_link_id : Z)
    : sched (Z * list linkg_transport_tx_target) :=
  if negb (_linkg_scheduler_node_id_valid peer_node_id) || negb (_linkg_scheduler_class_valid traffic_class) ||
     negb (_linkg_scheduler_policy_valid policy) then Done (- EINVAL, [])
  else if policy =? LINKG_SCHEDULER_POLICY_SPECIFIED then
    if negb (_linkg_scheduler_link_id_valid specified_link_id) then Done (- EINVAL, [])
    else
      do! (ret, target) := _linkg_scheduler_acquire_target peer_node_id specified_link_id in
      if negb (ret =? 0) then Done (ret, []) else Done (0, [target])
  else if policy =? LINKG_SCHEDULER_POLICY_REDUNDANT then _linkg_scheduler_build_control_targets peer_node_id
  else
    do! (ret, plan) := perform (Class_plan peer_node_id traffic_class) in
    if negb (ret =? 0) then Done (ret, [])
    else if sc_mode plan =? LINKG_SEND_MODE_NONE then Done (- ENETDOWN, [])
    else if negb (sc_mode plan =? LINKG_SEND_MODE_SINGLE) && negb (sc_mode plan =? LINKG_SEND_MODE_REDUNDANT) then Done (- EINVAL, [])
    else if negb (_linkg_scheduler_link_id_valid (sc_primary_link_id plan)) then Done (- ENODEV, [])
    else
      do! (primary_error, target) := _linkg_scheduler_acquire_target peer_node_id (sc_primary_link_id plan) in
      let targets := if primary_error =? 0 then [target] else [] in
      if sc_mode plan =? LINKG_SEND_MODE_SINGLE then
        if bool_decide (targets = []) then Done (primary_error, []) else Done (0, targets)
      else
        do! (secondary_error, targets) :=
          (if _linkg_scheduler_link_id_valid (sc_secondary_link_id plan) &&
              negb (sc_secondary_link_id plan =? sc_primary_link_id plan) &&
              (Z.of_nat (length targets) <? LINKG_TRANSPORT_TX_TARGET_MAX)
           then
             do! (secondary_error, target) := _linkg_scheduler_acquire_target peer_node_id (sc_secondary_link_id plan) in
             Done (secondary_error, if secondary_error =? 0 then targets ++ [target] else targets)
           else Done (0, targets)) in
        if bool_decide (targets = []) then
          Done (if negb (primary_error =? 0) then primary_error
                else if negb (secondary_error =? 0) then secondary_error else - ENETDOWN, [])
        else Done (0, targets).

(** ** Groups *)

(** The item joins the group of its next hop, a new one if there is room; or [None]. *)
Fixpoint place (peer_node_id : Z) (index : nat) (groups : list linkg_scheduler_peer_group) (room : nat)
    : option (list linkg_scheduler_peer_group) :=
  match groups with
  | [] => match room with O => None | S _ => Some [PeerGroup [index] peer_node_id] end
  | group :: groups =>
      if pg_peer_node_id group =? peer_node_id
      then Some (PeerGroup (pg_item_indices group ++ [index]) (pg_peer_node_id group) :: groups)
      else cons group <$> place peer_node_id index groups (pred room)
  end.

(** The items from [index] on, by their code and next hop: the results and the groups. *)
Fixpoint group_items (routes : list (Z * Z)) (index : nat) (groups : list linkg_scheduler_peer_group)
    : list Z * list linkg_scheduler_peer_group :=
  match routes with
  | [] => ([], groups)
  | (ret, peer_node_id) :: routes =>
      let '(result, groups) :=
        if negb (ret =? 0) then (ret, groups)
        else match place peer_node_id index groups (Z.to_nat LINKG_SCHEDULER_PEER_GROUP_MAX) with
             | Some groups => (- EINPROGRESS, groups)
             | None => (- ENOSPC, groups)
             end in
      let '(results, groups) := group_items routes (S index) groups in (result :: results, groups)
  end.

(** Every group in turn; a negative code is written to the whole group. *)
Fixpoint submit_groups (submit : linkg_scheduler_peer_group -> list Z -> sched (Z * list Z))
    (groups : list linkg_scheduler_peer_group) (results : list Z) (success_count : Z) : sched (Z * list Z) :=
  match groups with
  | [] => Done (i32_of_u32 success_count, results)
  | group :: groups =>
      do! (ret, results) := submit group results in
      if ret <? 0 then submit_groups submit groups (set_group_result group ret results) success_count
      else submit_groups submit groups results (u32 (success_count + ret))
  end.

(** The end of a group: what the transport returned is the result of the items. *)
Definition finish_group (group : linkg_scheduler_peer_group) (targets : list linkg_transport_tx_target)
    (ret : Z) (transport_results results : list Z) : sched (Z * list Z) :=
  do! _ := _linkg_scheduler_release_targets targets in
  if ret <? 0 then Done (ret, set_group_result group ret results)
  else Done (i32_of_u32 (u32 (count_zero transport_results)), copy_results group transport_results results).

(** ** Sending *)

Definition transport_item (items : list linkg_scheduler_tx_item) (index : nat) : linkg_transport_tx_item :=
  let item := default scheduler_item_zero (items !! index) in TxItem (ki_packet item) (ki_type item) (ki_destination_node_id item).

Definition _linkg_scheduler_submit_tx_group (context : linkg_scheduler_tx_context) (items : list linkg_scheduler_tx_item)
    (group : linkg_scheduler_peer_group) (results : list Z) : sched (Z * list Z) :=
  let count := Z.of_nat (length (pg_item_indices group)) in
  if (count =? 0) || (LINKG_SCHEDULER_TX_CHUNK_MAX <? count) then Done (- EINVAL, results)
  else
    do! (ret, targets) := _linkg_scheduler_build_targets (pg_peer_node_id group) (kc_traffic_class context) (kc_policy context)
                            (kc_specified_link_id context) in
    if negb (ret =? 0) then Done (0, set_group_result group ret results)
    else
      do! (ret, transport_results) :=
        perform (Send_batch (TxContext (Some targets) (kc_traffic_class context) (pg_peer_node_id group))
                   (transport_item items <$> pg_item_indices group)) in
      finish_group group targets ret transport_results results.

Definition tx_route (route_context : linkg_scheduler_route_context) (item : linkg_scheduler_tx_item) : Z * Z :=
  if bool_decide (ki_packet item = None) || negb (_linkg_scheduler_type_valid (ki_type item)) ||
     negb (_linkg_scheduler_node_id_valid (ki_destination_node_id item)) then (- EINVAL, 0)
  else if (ni_role (rc_local route_context) =? LINKG_DEVICE_ROLE_STA) && negb (rc_sta_peer_result route_context =? 0)
  then (rc_sta_peer_result route_context, 0)
  else _linkg_scheduler_resolve_peer (rc_local route_context) (ki_destination_node_id item) (rc_sta_peer_node_id route_context).

Definition _linkg_scheduler_submit_tx_chunk (context : linkg_scheduler_tx_context) (route_context : linkg_scheduler_route_context)
    (items : list linkg_scheduler_tx_item) : sched (Z * list Z) :=
  if bool_decide (items = []) || (LINKG_SCHEDULER_TX_CHUNK_MAX <? Z.of_nat (length items)) then Done (- EINVAL, ki_result <$> items)
  else
    let '(results, groups) := group_items (tx_route route_context <$> items) 0 [] in
    submit_groups (_linkg_scheduler_submit_tx_group context items) groups results 0.

(** ** Relaying *)

Definition _linkg_scheduler_submit_forward_group (traffic_class : Z) (items : list linkg_transport_forward_item)
    (group : linkg_scheduler_peer_group) (results : list Z) : sched (Z * list Z) :=
  let count := Z.of_nat (length (pg_item_indices group)) in
  if negb (_linkg_scheduler_class_valid traffic_class) || (count =? 0) || (LINKG_SCHEDULER_TX_CHUNK_MAX <? count)
  then Done (- EINVAL, results)
  else
    do! (ret, targets) := _linkg_scheduler_build_targets (pg_peer_node_id group) traffic_class LINKG_SCHEDULER_POLICY_DEFAULT
                            LINKG_LINK_ID_INVALID in
    if negb (ret =? 0) then Done (0, set_group_result group ret results)
    else
      do! (ret, transport_results) :=
        perform (Forward_batch (TxContext (Some targets) traffic_class (pg_peer_node_id group))
                   ((fun index => default forward_item_zero (items !! index)) <$> pg_item_indices group)) in
      finish_group group targets ret transport_results results.

Definition forward_route (local : linkg_node_info) (item : linkg_transport_forward_item) : Z * Z :=
  if bool_decide (fi_packet item = None) || (fi_payload_length item =? 0) ||
     negb (_linkg_scheduler_node_id_valid (fi_destination_node_id item)) ||
     negb (_linkg_scheduler_node_id_valid (fi_peer_node_id item)) then (- EINVAL, 0)
  else
    let '(ret, peer_node_id) := _linkg_scheduler_resolve_peer local (fi_destination_node_id item) 0 in
    if negb (ret =? 0) then (ret, 0)
    else if peer_node_id =? fi_peer_node_id item then (- ELOOP, 0)
    else (0, peer_node_id).

(** The handler of the transport; [results] is the array before the call. *)
Definition _linkg_scheduler_transport_forward (traffic_class : Z) (items : option (list linkg_transport_forward_item))
    (results : option (list Z)) : sched (Z * list Z) :=
  do! initialized := perform Load_initialized in
  if negb initialized then Done (- ESHUTDOWN, default [] results)
  else match items, results with
  | Some items, Some before =>
      if negb (_linkg_scheduler_class_valid traffic_class) || bool_decide (items = []) then Done (- EINVAL, before)
      else if LINKG_SCHEDULER_TX_CHUNK_MAX <? Z.of_nat (length items) then Done (- EOVERFLOW, (fun _ => - EOVERFLOW) <$> items)
      else
        do! local := perform Get_local in
        match local with
        | None => Done (- ENODEV, (fun _ => - ENODEV) <$> items)
        | Some local =>
            if negb (ni_role local =? LINKG_DEVICE_ROLE_AP) then Done (- EOPNOTSUPP, (fun _ => - EOPNOTSUPP) <$> items)
            else
              let '(results, groups) := group_items (forward_route local <$> items) 0 [] in
              submit_groups (_linkg_scheduler_submit_forward_group traffic_class items) groups results 0
        end
  | _, _ => Done (- EINVAL, default [] results)
  end.

(** ** Life cycle *)

Definition linkg_scheduler_init : sched Z :=
  do! exchanged := perform Exchange_initialized in
  if negb exchanged then Done (- EALREADY)
  else
    do! _ := perform (Store_peer_cached false) in
    do! _ := perform (Store_peer_node_id 0) in
    do! ret := perform Register_forward in
    if negb (ret =? 0) then do! _ := perform (Store_initialized false) in Done ret else Done 0.

Definition linkg_scheduler_deinit : sched Z :=
  do! initialized := perform Load_initialized in
  if negb initialized then Done 0
  else
    do! _ := perform (Store_initialized false) in
    do! ret := perform Unregister_forward in
    if negb (ret =? 0) && negb (ret =? - ENOENT) then do! _ := perform (Store_initialized true) in Done ret
    else
      do! _ := perform (Store_peer_cached false) in
      do! _ := perform (Store_peer_node_id 0) in
      Done 0.

(** ** The batch entry point *)

(** The chunks of the items that are left; [fuel] is their number. *)
Fixpoint submit_chunks (fuel : nat) (context : linkg_scheduler_tx_context) (route_context : linkg_scheduler_route_context)
    (items : list linkg_scheduler_tx_item) (success_count first_error : Z) (processed : bool) (done : list Z) : sched (Z * list Z) :=
  match fuel, items with
  | S fuel, _ :: _ =>
      let chunk := take (Z.to_nat LINKG_SCHEDULER_TX_CHUNK_MAX) items in
      let rest := drop (Z.to_nat LINKG_SCHEDULER_TX_CHUNK_MAX) items in
      do! (ret, results) := _linkg_scheduler_submit_tx_chunk context route_context chunk in
      if ret <? 0 then submit_chunks fuel context route_context rest success_count
                         (if first_error =? 0 then ret else first_error) processed (done ++ ((fun _ => ret) <$> chunk))
      else submit_chunks fuel context route_context rest (u32 (success_count + ret)) first_error true (done ++ results)
  | _, _ => Done (if negb processed then first_error else i32_of_u32 success_count, done)
  end.

Definition linkg_scheduler_submit_batch (context : option linkg_scheduler_tx_context) (items : option (list linkg_scheduler_tx_item))
    : sched (Z * list Z) :=
  let before := ki_result <$> default [] items in
  do! initialized := perform Load_initialized in
  if negb initialized then Done (- ENODEV, before)
  else
    let ret := _linkg_scheduler_validate_context context in
    if negb (ret =? 0) then Done (ret, before)
    else match context, items with
    | Some context, Some l =>
        if bool_decide (l = []) then Done (- EINVAL, before)
        else
          do! (ret, route_context) := _linkg_scheduler_prepare_route_context in
          if negb (ret =? 0) then Done (ret, (fun _ => ret) <$> l)
          else submit_chunks (length l) context route_context l 0 0 false []
    | _, _ => Done (- EINVAL, before)
    end.

(** The code; the result of the item is in it too. *)
Definition linkg_scheduler_submit (context : option linkg_scheduler_tx_context) (item : option linkg_scheduler_tx_item) : sched Z :=
  match item with
  | None => Done (- EINVAL)
  | Some i =>
      do! (ret, results) := linkg_scheduler_submit_batch context (Some [i]) in
      if ret <? 0 then Done ret else Done (default (ki_result i) (head results))
  end.
