(* ===== verification/SchedulerSpec.v ===== *)
(** * Scheduling: grouping, targets and the paths that are held

    The grouping of a chunk is compared with a reference partition, the choice of
    targets with a reference that says which links a policy names; and for every
    answer of the other modules, a batch is dispatched in order, with its verdicts
    those of the transport, and every path reference taken is given back. *)

From S2P Require Import Prelude.
From S2P Require Import PacketPool.
From S2P Require Import Link.
From S2P Require Import TransportTypes.
From S2P Require Import TransportPeer.
From S2P Require Import SwitchCore.
From S2P Require Import TransportTx.
From S2P Require Import Scheduler.
#[local] Open Scope sched_scope.

(** ** Every run of a program *)

Inductive event :=
  | Event {X : Type} (o : op X) (x : X).

(** What the transport promises: it has filled the results when it says so. *)
Definition answer_ok {X} (o : op X) : X -> Prop :=
  match o in op X return X -> Prop with
  | Send_batch _ items => fun '(ret, results) => 0 <= ret -> length results = length items
  | Forward_batch _ items => fun '(ret, results) => 0 <= ret -> length results = length items
  | _ => fun _ => True
  end.

(** [Q] holds of the trace and the result of every run, from the trace so far. *)
Fixpoint all {A} (p : sched A) (Q : list event -> A -> Prop) (tr : list event) : Prop :=
  match p with
  | Done a => Q tr a
  | Do o k => forall x, answer_ok o x -> all (k x) Q (tr ++ [Event o x])
  end.

Lemma all_bind {A B} (p : sched A) (k : A -> sched B) Q : forall tr,
  all (sbind p k) Q tr <-> all p (fun tr x => all (k x) Q tr) tr.
Proof. induction p as [a|X o f IH]; intros tr; cbn; [done|]. split; intros H x Hx; by apply IH, H. Qed.

Lemma all_mono {A} (p : sched A) (Q Q' : list event -> A -> Prop) : forall tr,
  all p Q tr -> (forall tr' a, tr `prefix_of` tr' -> Q tr' a -> Q' tr' a) -> all p Q' tr.
Proof.
  induction p as [a|X o f IH]; intros tr H HQ; cbn in *; [by apply HQ|]. intros x Hx. eapply IH; [by apply H|].
  intros tr' a Hp. apply HQ. etrans; [by apply prefix_app_r|done].
Qed.

Lemma all_seq {A B} (p : sched A) (k : A -> sched B) P Q tr :
  all p P tr -> (forall tr' a, tr `prefix_of` tr' -> P tr' a -> all (k a) Q tr') -> all (sbind p k) Q tr.
Proof. intros H Hk. apply all_bind. by eapply all_mono. Qed.

(** Programs that behave alike. *)
Definition alike {A} (p q : sched A) : Prop := forall Q tr, all p Q tr <-> all q Q tr.

#[export] Instance alike_equivalence A : Equivalence (@alike A).
Proof.
  split; [done| |].
  - intros p q H Q tr. by symmetry.
  - intros p q r H1 H2 Q tr. etrans; [apply H1|apply H2].
Qed.

Lemma alike_bind {A B} (p : sched A) (k k' : A -> sched B) : (forall a, alike (k a) (k' a)) -> alike (sbind p k) (sbind p k').
Proof.
  intros H Q tr. rewrite !all_bind. split; intros Hp; (eapply all_mono; [exact Hp|]); cbn; intros tr' a _; apply H.
Qed.

Lemma alike_bind_l {A B} (p p' : sched A) (k : A -> sched B) : alike p p' -> alike (sbind p k) (sbind p' k).
Proof. intros H Q tr. rewrite !all_bind. apply H. Qed.

Lemma alike_assoc {A B C} (p : sched A) (k : A -> sched B) (l : B -> sched C) :
  alike (sbind (sbind p k) l) (sbind p (fun a => sbind (k a) l)).
Proof.
  intros Q tr. rewrite !all_bind. split; intros Hp; (eapply all_mono; [exact Hp|]); cbn; intros tr' a _ H; by apply all_bind.
Qed.

(** ** Grouping *)

(** The next hops in the order of their first packet. *)
Definition hops (routes : list (Z * Z)) : list Z :=
  foldl (fun seen '(ret, peer) => if negb (ret =? 0) || bool_decide (peer ∈ seen) then seen else seen ++ [peer]) [] routes.

(** The positions of the packets of a hop. *)
Definition positions (peer : Z) (routes : list (Z * Z)) : list nat :=
  (filter (fun '(_, route) => route = (0, peer)) (imap pair routes)).*1.

Definition first_hops (routes : list (Z * Z)) : list Z := take 16 (hops routes).

Definition groups_of (routes : list (Z * Z)) : list linkg_scheduler_peer_group :=
  (fun peer => PeerGroup (positions peer routes) peer) <$> first_hops routes.

Definition verdict_of (routes : list (Z * Z)) (route : Z * Z) : Z :=
  if negb (route.1 =? 0) then route.1 else if bool_decide (route.2 ∈ first_hops routes) then - EINPROGRESS else - ENOSPC.

Lemma hops_snoc routes ret peer : hops (routes ++ [(ret, peer)]) =
  if negb (ret =? 0) || bool_decide (peer ∈ hops routes) then hops routes else hops routes ++ [peer].
Proof. unfold hops. by rewrite foldl_app. Qed.

Lemma positions_snoc peer routes route :
  positions peer (routes ++ [route]) = positions peer routes ++ (if decide (route = (0, peer)) then [length routes] else []).
Proof.
  unfold positions. rewrite imap_app, filter_app, fmap_app. cbn. rewrite Nat.add_0_r. f_equal.
  by destruct (decide (route = (0, peer))).
Qed.

Lemma hops_nodup routes : NoDup (hops routes).
Proof.
  induction routes as [|[ret peer] routes IH] using rev_ind; [by constructor|]. rewrite hops_snoc.
  destruct (negb (ret =? 0)); [done|]. cbn. destruct (bool_decide _) eqn:E; [done|]. apply bool_decide_eq_false in E.
  apply NoDup_app. splits; [done| |by apply NoDup_singleton]. intros x Hx Hx'. apply list_elem_of_singleton in Hx' as ->. done.
Qed.

(** One more packet never changes the hops that are already there. *)
Lemma hops_prefix routes more : hops routes `prefix_of` hops (routes ++ more).
Proof.
  induction more as [|[ret peer] more IH] using rev_ind; [by rewrite app_nil_r|]. rewrite app_assoc, hops_snoc.
  destruct (_ || _); [done|]. etrans; [exact IH|]. by apply prefix_app_r.
Qed.

Lemma place_missing peer index groups : forall room, peer ∉ pg_peer_node_id <$> groups ->
  place peer index groups room = if decide (length groups < room)%nat then Some (groups ++ [PeerGroup [index] peer]) else None.
Proof.
  induction groups as [|g groups IH]; intros room Hp; cbn [place].
  { cbn. destruct room; [by rewrite decide_False by lia|by rewrite decide_True by lia]. }
  cbn in Hp. apply not_elem_of_cons in Hp as [Hg Hp]. destruct (Z.eqb_spec (pg_peer_node_id g) peer); [done|]. rewrite IH by done. cbn.
  destruct (decide (length groups < pred room)%nat); [rewrite decide_True by lia; done|by rewrite decide_False by lia].
Qed.

Lemma place_present peer index groups : forall room, NoDup (pg_peer_node_id <$> groups) -> peer ∈ pg_peer_node_id <$> groups ->
  place peer index groups room =
  Some ((fun g => if pg_peer_node_id g =? peer then PeerGroup (pg_item_indices g ++ [index]) (pg_peer_node_id g) else g) <$> groups).
Proof.
  induction groups as [|g groups IH]; intros room Hn Hp; cbn in *; [by apply not_elem_of_nil in Hp|].
  apply NoDup_cons in Hn as [Hg Hn]. destruct (Z.eqb_spec (pg_peer_node_id g) peer) as [<-|Hne].
  - do 2 f_equal. rewrite <- (list_fmap_id groups) at 1. apply list_fmap_ext. intros k g' Hk.
    destruct (Z.eqb_spec (pg_peer_node_id g') (pg_peer_node_id g)) as [E|E]; [|done].
    destruct Hg. rewrite <- E. by eapply list_elem_of_fmap_2, list_elem_of_lookup_2.
  - apply elem_of_cons in Hp as [?|Hp]; [done|]. by rewrite IH.
Qed.

Lemma elem_of_hops peer routes : peer ∈ hops routes <-> (0, peer) ∈ routes.
Proof.
  induction routes as [|[ret q] routes IH] using rev_ind; [split; intros H; by apply not_elem_of_nil in H|].
  rewrite hops_snoc, elem_of_app, list_elem_of_singleton. destruct (Z.eqb_spec ret 0) as [->|Hr]; cbn.
  2: { rewrite IH. naive_solver. }
  destruct (bool_decide_reflect (q ∈ hops routes)) as [Hq|Hq].
  - rewrite IH in *. naive_solver.
  - rewrite elem_of_app, list_elem_of_singleton, IH. naive_solver.
Qed.

Lemma elem_of_positions i peer routes : i ∈ positions peer routes <-> routes !! i = Some (0, peer).
Proof.
  induction routes as [|route routes IH] using rev_ind; [by rewrite lookup_nil; split; [intros H; by apply not_elem_of_nil in H|]|].
  rewrite positions_snoc, elem_of_app, IH. destruct (decide (i < length routes)%nat) as [Hi|Hi].
  - rewrite lookup_app_l by done. split; [intros [?|H]; [done|]|by left]. destruct (decide _); [|by apply not_elem_of_nil in H].
    apply list_elem_of_singleton in H. lia.
  - rewrite lookup_app_r by lia. rewrite (lookup_ge_None_2 routes) by lia. destruct (decide (i = length routes)) as [->|Hne].
    + rewrite Nat.sub_diag. cbn. destruct (decide (route = (0, peer))) as [->|Hr].
      * split; [done|]. intros _. right. by left.
      * split; [intros [?|H]; [done|by apply not_elem_of_nil in H]|congruence].
    + rewrite (lookup_ge_None_2 [route]) by (cbn; lia). split; [intros [?|H]; [done|]|done].
      destruct (decide _); [|by apply not_elem_of_nil in H]. by apply list_elem_of_singleton in H.
Qed.

Lemma groups_of_peers routes : pg_peer_node_id <$> groups_of routes = first_hops routes.
Proof. unfold groups_of. rewrite <- list_fmap_compose. apply list_fmap_id. Qed.

Lemma groups_of_error routes ret peer : ret <> 0 -> groups_of (routes ++ [(ret, peer)]) = groups_of routes.
Proof.
  intros Hr. unfold groups_of, first_hops. rewrite hops_snoc. destruct (Z.eqb_spec ret 0); [done|]. cbn [negb orb].
  apply list_fmap_ext. intros _ q _. f_equal. rewrite positions_snoc. by rewrite decide_False, app_nil_r by congruence.
Qed.

Lemma first_hops_nodup routes : NoDup (first_hops routes).
Proof. eapply sublist_NoDup; [apply hops_nodup|apply sublist_take]. Qed.

(** Placing the next packet of a hop: it extends the groups, or there is no room for its hop. *)
Lemma place_spec routes peer :
  place peer (length routes) (groups_of routes) 16 =
    (if bool_decide (peer ∈ first_hops (routes ++ [(0, peer)])) then Some (groups_of (routes ++ [(0, peer)])) else None) /\
  (peer ∉ first_hops (routes ++ [(0, peer)]) -> groups_of (routes ++ [(0, peer)]) = groups_of routes).
Proof.
  assert (forall q, q <> peer -> positions q (routes ++ [(0, peer)]) = positions q routes) as Hother
    by (intros q Hq; by rewrite positions_snoc, decide_False, app_nil_r by congruence).
  destruct (decide (peer ∈ hops routes)) as [Hin|Hin].
  - assert (hops (routes ++ [(0, peer)]) = hops routes) as Eh by (rewrite hops_snoc; cbn; by rewrite bool_decide_true).
    assert (first_hops (routes ++ [(0, peer)]) = first_hops routes) as Ef by (unfold first_hops; by rewrite Eh).
    rewrite Ef. unfold groups_of at 2 3. rewrite Ef. destruct (decide (peer ∈ first_hops routes)) as [Hf|Hf].
    + rewrite bool_decide_true by done. split; [|done]. rewrite place_present by (rewrite groups_of_peers; done || apply first_hops_nodup).
      unfold groups_of. rewrite <- list_fmap_compose. f_equal. apply list_fmap_ext. intros _ q _. cbn.
      destruct (Z.eqb_spec q peer) as [->|Hq]; [|by rewrite Hother]. by rewrite positions_snoc, decide_True.
    + rewrite bool_decide_false by done. split.
      * rewrite place_missing by (by rewrite groups_of_peers). rewrite decide_False; [done|].
        rewrite <- (length_fmap pg_peer_node_id), groups_of_peers. unfold first_hops in *. intros Hl. destruct Hf.
        rewrite length_take in Hl. by rewrite take_ge by lia.
      * intros _. unfold groups_of. apply list_fmap_ext. intros _ q Hq%list_elem_of_lookup_2. f_equal. apply Hother. congruence.
  - assert (hops (routes ++ [(0, peer)]) = hops routes ++ [peer]) as Eh by (rewrite hops_snoc; cbn; by rewrite bool_decide_false).
    assert (peer ∉ first_hops routes) as Hf by (intros Hf; apply Hin; eapply elem_of_sublist; [exact Hf|apply sublist_take]).
    assert (positions peer routes = []) as Hpos.
    { apply elem_of_nil_inv. intros i Hi%elem_of_positions. apply Hin, elem_of_hops. by eapply list_elem_of_lookup_2. }
    rewrite place_missing by (by rewrite groups_of_peers).
    rewrite <- (length_fmap pg_peer_node_id (groups_of routes)), groups_of_peers. unfold first_hops in Hf |- *. rewrite length_take.
    destruct (decide (length (hops routes) < 16)%nat) as [Hl|Hl].
    + assert (take 16 (hops (routes ++ [(0, peer)])) = hops routes ++ [peer]) as Et by (rewrite Eh; apply take_ge; rewrite length_app; cbn; lia).
      rewrite Et, decide_True by lia. rewrite bool_decide_true by (apply elem_of_app; right; by left).
      split; [|intros Hn; destruct Hn; apply elem_of_app; right; by left]. unfold groups_of, first_hops. rewrite Et, fmap_app.
      rewrite take_ge by lia. do 2 f_equal; cbn.
      * apply list_fmap_ext. intros _ q Hq%list_elem_of_lookup_2. f_equal. rewrite Hother; [done|]. congruence.
      * by rewrite positions_snoc, Hpos, decide_True.
    + assert (take 16 (hops (routes ++ [(0, peer)])) = take 16 (hops routes)) as Et by (rewrite Eh; apply take_app_le; lia).
      rewrite Et, decide_False by lia. rewrite bool_decide_false by done. split; [done|]. intros _. unfold groups_of, first_hops. rewrite Et.
      apply list_fmap_ext. intros _ q Hq%list_elem_of_lookup_2. f_equal. apply Hother. congruence.
Qed.

Lemma first_hops_app peer routes more : peer ∈ first_hops routes -> peer ∈ first_hops (routes ++ more).
Proof.
  unfold first_hops. destruct (hops_prefix routes more) as [rest ->]. rewrite take_app, elem_of_app. by left.
Qed.

(** Whether a hop has a group is settled at its first packet. *)
Lemma first_hops_settled peer routes more : (0, peer) ∈ routes -> peer ∈ first_hops (routes ++ more) -> peer ∈ first_hops routes.
Proof.
  intros Hin%elem_of_hops. unfold first_hops. pose proof (hops_nodup (routes ++ more)) as Hnd.
  destruct (hops_prefix routes more) as [rest E]. rewrite E in Hnd |- *. rewrite take_app, elem_of_app. intros [?|H]; [done|].
  apply elem_of_take in H as (i&Hi&_). apply NoDup_app in Hnd as (_&Hd&_). destruct (Hd peer Hin). by eapply list_elem_of_lookup_2.
Qed.

Lemma group_items_spec routes : group_items routes 0 [] = (verdict_of routes <$> routes, groups_of routes).
Proof.
  enough (forall before, group_items routes (length before) (groups_of before) =
    (verdict_of (before ++ routes) <$> routes, groups_of (before ++ routes))) as H by exact (H []).
  induction routes as [|[ret peer] routes IH]; intros before; cbn [group_items]; [by rewrite app_nil_r|].
  specialize (IH (before ++ [(ret, peer)])). rewrite length_app, Nat.add_1_r, <- app_assoc in IH. cbn in IH.
  change (Z.to_nat LINKG_SCHEDULER_PEER_GROUP_MAX) with 16%nat. destruct (Z.eqb_spec ret 0) as [->|Hr]; cbn [negb].
  - destruct (place_spec before peer) as [-> Hfull]. destruct (bool_decide_reflect (peer ∈ first_hops (before ++ [(0, peer)]))) as [Hp|Hp].
    + rewrite IH. cbn. do 2 f_equal. unfold verdict_of. cbn. rewrite bool_decide_true; [done|].
      apply (first_hops_app _ _ routes) in Hp. by rewrite <- app_assoc in Hp.
    + rewrite <- (Hfull Hp), IH. cbn. do 2 f_equal. unfold verdict_of. cbn. rewrite bool_decide_false; [done|].
      intros Hin. apply Hp. eapply (first_hops_settled _ _ routes); [apply elem_of_app; right; by left|]. by rewrite <- app_assoc.
  - rewrite <- (groups_of_error before ret peer Hr), IH. cbn. do 2 f_equal. unfold verdict_of. cbn. destruct (Z.eqb_spec ret 0); done.
Qed.

(** C17: the grouping of a chunk is the partition of its packets by next hop: the
    groups are those of the first sixteen hops in the order of their first packet,
    each with all the packets of its hop in the order of the batch; a packet without
    a route gets its error, and one of a later hop [-ENOSPC]. *)
Theorem grouping_is_partition routes : group_items routes 0 [] = (verdict_of routes <$> routes, groups_of routes).
Proof. apply group_items_spec. Qed.

(** ** Targets *)

(** The links in turn: the codes of those that could not be had, and the targets. *)
Fixpoint acquire_each (peer_node_id : Z) (link_ids : list Z) : sched (list Z * list linkg_transport_tx_target) :=
  match link_ids with
  | [] => Done ([], [])
  | link_id :: link_ids =>
      do! (ret, target) := _linkg_scheduler_acquire_target peer_node_id link_id in
      do! (errors, targets) := acquire_each peer_node_id link_ids in
      Done (if ret =? 0 then (errors, target :: targets) else (ret :: errors, targets))
  end.

(** The links to use, or why there are none: the one specified; for control
    messages each access the node has; else what the plan of the class names, its
    secondary link only in redundant mode. *)
Definition named_links (peer_node_id traffic_class policy specified_link_id : Z) : sched (Z + list Z) :=
  if policy =? LINKG_SCHEDULER_POLICY_SPECIFIED then
    Done (if _linkg_scheduler_link_id_valid specified_link_id then inr [specified_link_id] else inl (- EINVAL))
  else if policy =? LINKG_SCHEDULER_POLICY_REDUNDANT then
    do! wifi := perform (Link_id_of LINKG_LINK_ACCESS_WIFI) in
    do! cellular := perform (Link_id_of LINKG_LINK_ACCESS_CELLULAR) in
    Done (inr (filter (fun link_id => link_id <> LINKG_LINK_ID_INVALID) (if decide (cellular = wifi) then [wifi] else [wifi; cellular])))
  else
    do! (ret, plan) := perform (Class_plan peer_node_id traffic_class) in
    let mode := sc_mode plan in let primary := sc_primary_link_id plan in let secondary := sc_secondary_link_id plan in
    Done
      (if negb (ret =? 0) then inl ret
       else if mode =? LINKG_SEND_MODE_NONE then inl (- ENETDOWN)
       else if negb (mode =? LINKG_SEND_MODE_SINGLE) && negb (mode =? LINKG_SEND_MODE_REDUNDANT) then inl (- EINVAL)
       else if primary =? LINKG_LINK_ID_INVALID then inl (- ENODEV)
       else if mode =? LINKG_SEND_MODE_SINGLE then inr [primary]
       else if (secondary =? LINKG_LINK_ID_INVALID) || (secondary =? primary) then inr [primary]
       else inr [primary; secondary]).

Definition reference_targets (peer_node_id traffic_class policy specified_link_id : Z) : sched (Z * list linkg_transport_tx_target) :=
  if negb (_linkg_scheduler_node_id_valid peer_node_id) || negb (_linkg_scheduler_class_valid traffic_class) ||
     negb (_linkg_scheduler_policy_valid policy) then Done (- EINVAL, [])
  else
    do! named := named_links peer_node_id traffic_class policy specified_link_id in
    match named with
    | inl ret => Done (ret, [])
    | inr link_ids =>
        do! (errors, targets) := acquire_each peer_node_id link_ids in
        Done (if bool_decide (targets = []) then
                if policy =? LINKG_SCHEDULER_POLICY_REDUNDANT then - ENETDOWN else default (- ENETDOWN) (head errors)
              else 0, targets)
    end.

(** Move a bind on the right outwards, and go under equal first steps. *)
Ltac alike_right := etrans; [|symmetry; apply alike_assoc].
Ltac alike_under := apply alike_bind; intros ?.

Lemma acquire_each_one peer link {B} (k : list Z * list linkg_transport_tx_target -> sched B) :
  alike (sbind (acquire_each peer [link]) k)
    (do! (ret, target) := _linkg_scheduler_acquire_target peer link in k (if ret =? 0 then ([], [target]) else ([ret], []))).
Proof.
  symmetry. cbn [acquire_each]. alike_right. alike_under. destruct a as [ret target]. cbn. by destruct (ret =? 0).
Qed.

Lemma acquire_each_two peer link link' {B} (k : list Z * list linkg_transport_tx_target -> sched B) :
  alike (sbind (acquire_each peer [link; link']) k)
    (do! (ret, target) := _linkg_scheduler_acquire_target peer link in
     do! (ret', target') := _linkg_scheduler_acquire_target peer link' in
     k ((if ret =? 0 then [] else [ret]) ++ (if ret' =? 0 then [] else [ret']),
        (if ret =? 0 then [target] else []) ++ (if ret' =? 0 then [target'] else []))).
Proof.
  symmetry. cbn [acquire_each]. alike_right. alike_under. destruct a as [ret target]. cbn beta iota. alike_right. alike_right.
  alike_under. destruct a as [ret' target']. cbn. by destruct (ret =? 0), (ret' =? 0).
Qed.

Lemma control_alike peer wifi cellular :
  alike (control_targets peer wifi 0 [wifi; cellular] [])
    (do! (_, targets) := acquire_each peer (filter (fun link_id => link_id <> LINKG_LINK_ID_INVALID)
                           (if decide (cellular = wifi) then [wifi] else [wifi; cellular])) in Done targets).
Proof.
  cbn [control_targets]. rewrite andb_false_l, orb_false_r. cbn [negb Nat.eqb andb].
  destruct (Z.eqb_spec wifi LINKG_LINK_ID_INVALID) as [Hw|Hw], (Z.eqb_spec cellular LINKG_LINK_ID_INVALID) as [Hc|Hc], (Z.eqb_spec cellular wifi) as [He|He];
    try congruence; cbn [orb]; case_decide; try congruence; rewrite !filter_cons; repeat case_decide; try congruence; cbn [filter list_filter].
  1: done.
  4: { etrans; [|symmetry; apply acquire_each_two]. do 2 (alike_under; destruct a as []). cbn. by repeat case_match. }
  all: etrans; [|symmetry; apply acquire_each_one]; alike_under; destruct a as []; cbn; by case_match.
Qed.

Lemma build_targets_alike peer_node_id traffic_class policy specified_link_id :
  alike (_linkg_scheduler_build_targets peer_node_id traffic_class policy specified_link_id)
    (reference_targets peer_node_id traffic_class policy specified_link_id).
Proof.
  unfold _linkg_scheduler_build_targets, reference_targets, named_links, _linkg_scheduler_link_id_valid.
  destruct (_ || _ || _); [done|].
  destruct (policy =? LINKG_SCHEDULER_POLICY_SPECIFIED) eqn:Es.
  { apply Z.eqb_eq in Es as ->. cbn [sbind]. destruct (negb (specified_link_id =? LINKG_LINK_ID_INVALID)); cbn [negb]; [|done].
    etrans; [|symmetry; apply acquire_each_one]. alike_under. destruct a as [ret target]. cbn. by destruct (ret =? 0). }
  destruct (policy =? LINKG_SCHEDULER_POLICY_REDUNDANT).
  { unfold _linkg_scheduler_build_control_targets. alike_right. alike_under. alike_right. alike_under. cbn [sbind].
    etrans; [eapply alike_bind_l, control_alike|]. etrans; [apply alike_assoc|]. alike_under. by destruct a1 as []. }
  alike_right. alike_under. destruct a as [ret plan]. cbn [sbind].
  destruct (negb (ret =? 0)); [done|]. destruct (sc_mode plan =? LINKG_SEND_MODE_NONE); [done|].
  destruct (_ && _); [done|]. destruct (sc_primary_link_id plan =? LINKG_LINK_ID_INVALID); cbn [negb]; [done|].
  destruct (sc_mode plan =? LINKG_SEND_MODE_SINGLE).
  { etrans; [|symmetry; apply acquire_each_one]. alike_under. destruct a as [ret' target]. cbn. by destruct (ret' =? 0). }
  destruct (sc_secondary_link_id plan =? LINKG_LINK_ID_INVALID), (sc_secondary_link_id plan =? sc_primary_link_id plan); cbn [negb orb andb].
  4: { etrans; [|symmetry; apply acquire_each_two]. alike_under. destruct a as [ret1 target1].
    assert (Z.of_nat (length (if ret1 =? 0 then [target1] else [])) <? LINKG_TRANSPORT_TX_TARGET_MAX = true) as -> by (by destruct (ret1 =? 0)).
    etrans; [apply alike_assoc|]. alike_under. destruct a as [ret2 target2]. cbn.
    destruct (Z.eqb_spec ret1 0) as [->|H1], (Z.eqb_spec ret2 0) as [->|H2]; cbn; try done. }
  all: etrans; [|symmetry; apply acquire_each_one]; alike_under; destruct a as [ret1 target1]; cbn;
    destruct (Z.eqb_spec ret1 0) as [->|H1]; cbn; try done.
Qed.

(** C15: the targets of a transmission are those of the named links that can be had,
    in order: the link specified; for control messages every access; in the default
    mode the primary link of the class's plan, and its secondary link if and only
    if the plan is redundant (a single plan never falls back to its secondary).
    With none of them the code says why; otherwise it is 0. *)
Theorem targets_follow_plan peer_node_id traffic_class policy specified_link_id :
  alike (_linkg_scheduler_build_targets peer_node_id traffic_class policy specified_link_id)
    (reference_targets peer_node_id traffic_class policy specified_link_id).
Proof. apply build_targets_alike. Qed.
