(* ===== verification/SchedulerDispatch.v ===== *)
(** * Scheduling: dispatch of a batch and the paths it holds

    For every answer the other modules may give: the path references of a call to
    the transport are held during the call and given back after it; the packets of
    a hop are handed over in their order and at most once; and the verdicts of the
    batch are those of the transport. *)

From S2P Require Import Prelude.
From S2P Require Import PacketPool.
From S2P Require Import Link.
From S2P Require Import TransportTypes.
From S2P Require Import TransportPeer.
From S2P Require Import SwitchCore.
From S2P Require Import TransportTx.
From S2P Require Import Scheduler.
From S2P Require Import SchedulerSpec.
#[local] Open Scope sched_scope.

(** ** The path references of a run *)

(** The first reference to a path among those held, each with the peer it was acquired for. *)
Fixpoint give_back (path : Z) (held : list (Z * Z)) : option (list (Z * Z)) :=
  match held with
  | [] => None
  | (peer, p) :: held => if p =? path then Some held else cons (peer, p) <$> give_back path held
  end.

(** A target is usable while a reference to its path, acquired for this very peer, is held. *)
Definition covered (held : list (Z * Z)) (context : linkg_transport_tx_context) : bool :=
  forallb (fun target =>
    match tg_path target with Some path => bool_decide ((xc_peer_node_id context, path) ∈ held) | None => false end)
    (default [] (xc_targets context)).

(** The references held after an event, or [None]: a reference was given back that
    was not held, or the transport was called without one of its targets. *)
Definition ledger_step (held : option (list (Z * Z))) (e : event) : option (list (Z * Z)) :=
  h ← held;
  match e with Event o x =>
    (match o in op X return X -> option (list (Z * Z)) with
     | Path_acquire peer _ => fun '(ret, path, _) => Some (if ret =? 0 then (peer, path) :: h else h)
     | Path_release path => fun _ => give_back path h
     | Send_batch context _ => fun _ => if covered h context then Some h else None
     | Forward_batch context _ => fun _ => if covered h context then Some h else None
     | _ => fun _ => Some h
     end) x
  end.

Definition ledger (tr : list event) : option (list (Z * Z)) := foldl ledger_step (Some []) tr.

Lemma ledger_snoc tr e : ledger (tr ++ [e]) = ledger_step (ledger tr) e.
Proof. unfold ledger. by rewrite foldl_app. Qed.

(** ** The calls of the transport *)

Record call (T : Type) := Call { ca_context : linkg_transport_tx_context; ca_items : list T; ca_ret : Z; ca_results : list Z }.
Arguments Call {T}. Arguments ca_context {T}. Arguments ca_items {T}. Arguments ca_ret {T}. Arguments ca_results {T}.

Definition is_call (e : event) : bool :=
  match e with Event o _ => match o with Send_batch _ _ | Forward_batch _ _ => true | _ => false end end.

(** The two ways into the transport: what is handed over, and the call in the trace. *)
Class Transmission (T : Type) := {
  tm_call : linkg_transport_tx_context -> list T -> op (Z * list Z);
  tm_log : event -> option (call T);
  tm_other : forall e, is_call e = false -> tm_log e = None;
  tm_this : forall c l ret results, tm_log (Event (tm_call c l) (ret, results)) = Some (Call c l ret results);
  tm_answer : forall c l ret results, answer_ok (tm_call c l) (ret, results) -> 0 <= ret -> length results = length l;
  tm_ledger : forall c l r h, ledger_step (Some h) (Event (tm_call c l) r) = if covered h c then Some h else None }.

#[export] Program Instance sending : Transmission linkg_transport_tx_item := {|
  tm_call := Send_batch;
  tm_log e := match e with Event o x =>
    (match o in op X return X -> option (call linkg_transport_tx_item) with
     | Send_batch c l => fun '(ret, results) => Some (Call c l ret results) | _ => fun _ => None end) x end |}.
Next Obligation. intros [X o x] H. by destruct o. Qed.
Next Obligation. done. Qed.
Next Obligation. intros c l ret results H. apply H. Qed.
Next Obligation. done. Qed.

#[export] Program Instance relaying : Transmission linkg_transport_forward_item := {|
  tm_call := Forward_batch;
  tm_log e := match e with Event o x =>
    (match o in op X return X -> option (call linkg_transport_forward_item) with
     | Forward_batch c l => fun '(ret, results) => Some (Call c l ret results) | _ => fun _ => None end) x end |}.
Next Obligation. intros [X o x] H. by destruct o. Qed.
Next Obligation. done. Qed.
Next Obligation. intros c l ret results H. apply H. Qed.
Next Obligation. done. Qed.

Definition calls {T} `{Transmission T} (tr : list event) : list (call T) := omap tm_log tr.

Lemma calls_snoc {T} `{Transmission T} tr e : calls (tr ++ [e]) = calls tr ++ match tm_log e with Some c => [c] | None => [] end.
Proof. unfold calls. rewrite omap_app. cbn. by destruct (tm_log e). Qed.

(** ** Acquiring and releasing *)

Section Transmit.
Context {T : Type} `{TM : Transmission T}.

(** Nothing was handed over and [held] are the references held. *)
Definition quiet_to (tr : list event) (held : list (Z * Z)) (tr' : list event) : Prop :=
  calls tr' = calls tr /\ ledger tr' = Some held.

(** The references to the paths of the targets. *)
Definition refs (peer : Z) (targets : list linkg_transport_tx_target) : list (Z * Z) :=
  (fun target => (peer, default 0 (tg_path target))) <$> targets.

Definition present (target : linkg_transport_tx_target) : Prop := is_Some (tg_link target) /\ is_Some (tg_path target).

Lemma calls_other tr e : is_call e = false -> calls (tr ++ [e]) = calls tr.
Proof. intros H. rewrite calls_snoc, tm_other by done. by rewrite app_nil_r. Qed.

(** An operation that is neither a call nor about paths changes neither. *)
Lemma quiet_step tr held tr' e : quiet_to tr held tr' -> is_call e = false -> ledger_step (Some held) e = Some held ->
  quiet_to tr held (tr' ++ [e]).
Proof. intros [H1 H2] Hc Hl. split; [by rewrite calls_other|by rewrite ledger_snoc, H2]. Qed.

Lemma quiet_to_trans tr1 h1 tr2 h2 tr3 : quiet_to tr1 h1 tr2 -> quiet_to tr2 h2 tr3 -> quiet_to tr1 h2 tr3.
Proof. intros [H1 _] [H2 H3]. split; [by etrans|done]. Qed.

Lemma acquire_ok peer link_id tr held : ledger tr = Some held ->
  all (_linkg_scheduler_acquire_target peer link_id) (fun tr' '(ret, target) =>
    (ret <> 0 /\ quiet_to tr held tr') \/
    (ret = 0 /\ present target /\ quiet_to tr ((peer, default 0 (tg_path target)) :: held) tr')) tr.
Proof.
  intros Hl. assert (quiet_to tr held tr) as H0 by done. unfold _linkg_scheduler_acquire_target.
  destruct (_ || _); [by left|]. cbn. intros link _. pose proof (quiet_step _ _ _ (Event (Get_link link_id) link) H0 eq_refl eq_refl) as H1.
  destruct link as [link|]; cbn; [|by left]. intros running _.
  pose proof (quiet_step _ _ _ (Event (Is_running link) running) H1 eq_refl eq_refl) as H2. destruct running; cbn; [|by left].
  intros access _. pose proof (quiet_step _ _ _ (Event (Get_access link) access) H2 eq_refl eq_refl) as H3.
  intros blocked _. pose proof (quiet_step _ _ _ (Event (Is_blocked peer access) blocked) H3 eq_refl eq_refl) as H4.
  destruct blocked; cbn; [by left|]. intros [[ret path] destination] _. destruct H4 as [Hc4 Hl4].
  destruct (Z.eqb_spec ret 0) as [->|Hr]; cbn.
  - right. splits; [done|split; by eexists|]. split; [by rewrite calls_other|by rewrite ledger_snoc, Hl4].
  - left. split; [done|]. split; [by rewrite calls_other|]. rewrite ledger_snoc, Hl4. cbn. by rewrite (proj2 (Z.eqb_neq ret 0)).
Qed.

Lemma acquire_each_ok peer link_ids : forall tr held, ledger tr = Some held ->
  all (acquire_each peer link_ids) (fun tr' '(errors, targets) => exists held',
    quiet_to tr held' tr' /\ held' ≡ₚ refs peer targets ++ held /\ Forall present targets /\
    Forall (fun e => e <> 0) errors /\ (length errors + length targets = length link_ids)%nat) tr.
Proof.
  induction link_ids as [|l ls IH]; intros tr held Hl; cbn [acquire_each].
  { cbn. exists held. splits; done || by constructor. }
  eapply all_seq; [by apply acquire_ok|]. intros tr1 [ret target] _ H1. destruct H1 as [[Hr H1]|(->&Hp&H1)].
  - eapply all_seq; [apply (IH tr1 held), H1|]. intros tr2 [errors targets] _ (h&H2&Hh&Ht&He&Hn). cbn.
    rewrite (proj2 (Z.eqb_neq ret 0)) by done. cbn. exists h. splits; [by eapply quiet_to_trans|done|done|by constructor|cbn; lia].
  - eapply all_seq; [apply (IH tr1), H1|]. intros tr2 [errors targets] _ (h&H2&Hh&Ht&He&Hn). cbn.
    exists h. splits; [by eapply quiet_to_trans| |by constructor|done|lia]. rewrite Hh. by rewrite Permutation_middle.
Qed.

(** The targets of a transmission are held, and fit for the transport. *)
Lemma build_targets_ok peer class policy specified tr : ledger tr = Some [] ->
  all (_linkg_scheduler_build_targets peer class policy specified) (fun tr' '(ret, targets) =>
    (ret <> 0 /\ quiet_to tr [] tr') \/
    (ret = 0 /\ _linkg_transport_tx_validate_context (Some (TxContext (Some targets) class peer)) = 0 /\
     Forall present targets /\ exists held, quiet_to tr held tr' /\ held ≡ₚ refs peer targets)) tr.
Proof.
  intros Hl. apply build_targets_alike. unfold reference_targets. destruct (_ || _ || _) eqn:Eargs; [by left|].
  rewrite !orb_false_iff, !negb_false_iff in Eargs. destruct Eargs as [[Epeer Eclass] _].
  eapply (all_seq _ _ (fun tr' named => quiet_to tr [] tr' /\
    match named with inl ret => ret <> 0 | inr links => (length links <= 2)%nat end)).
  { unfold named_links. destruct (policy =? LINKG_SCHEDULER_POLICY_SPECIFIED); [destruct (_linkg_scheduler_link_id_valid _); cbn; (split; [done|unfold EINVAL; lia])|].
    destruct (policy =? LINKG_SCHEDULER_POLICY_REDUNDANT); cbn.
    - intros wifi _ cellular _. split; [by do 2 (apply quiet_step; [|done..])|].
      etrans; [apply length_filter|]. destruct (decide _); cbn; lia.
    - intros [ret plan] _. split; [by apply quiet_step|]. destruct (Z.eqb_spec ret 0) as [->|Hr]; cbn; [|done].
      unfold ENETDOWN, EINVAL, ENODEV. repeat (destruct (_ =? _) || destruct (_ || _)); cbn; lia. }
  intros tr1 [ret|links] _ [H1 Hn]; [by left|]. eapply all_seq; [apply acquire_each_ok, H1|].
  intros tr2 [errors targets] _ (held&H2&Hh&Ht&He&Hlen). rewrite app_nil_r in Hh. cbn.
  assert (quiet_to tr held tr2) as H3 by by eapply quiet_to_trans. destruct (bool_decide_reflect (targets = [])) as [->|Hne].
  - left. apply Permutation_nil_r in Hh as ->. split; [|done]. destruct (policy =? _); [done|]. destruct errors as [|e errors]; [done|].
    by apply Forall_cons in He as [He _].
  - right. splits; [done| |done|by exists held]. unfold _linkg_transport_tx_validate_context. cbn [xc_targets xc_traffic_class xc_peer_node_id].
    unfold linkg_transport_class_valid. unfold _linkg_scheduler_class_valid in Eclass. 
    unfold _linkg_transport_tx_node_id_valid. unfold _linkg_scheduler_node_id_valid in Epeer. rewrite Eclass, Epeer. cbn [negb orb].
    destruct (Z.ltb_spec LINKG_TRANSPORT_TX_TARGET_MAX (Z.of_nat (length targets))) as [Hlt|_]; [unfold LINKG_TRANSPORT_TX_TARGET_MAX in Hlt; lia|].
    destruct (existsb target_missing targets) eqn:Em; [|done]. apply existsb_exists in Em as (t&Hin&Hm).
    rewrite Forall_forall in Ht. destruct (Ht t) as [[? E1] [? E2]]; [by apply list_elem_of_In|]. unfold target_missing in Hm.
    by rewrite E1, E2 in Hm.
Qed.

Lemma give_back_ok peer path held : (forall x, x ∈ held -> x.1 = peer) -> (peer, path) ∈ held ->
  exists rest, give_back path held = Some rest /\ held ≡ₚ (peer, path) :: rest.
Proof.
  induction held as [|[q p] held IH]; intros Hall Hin; [by apply not_elem_of_nil in Hin|]. cbn.
  assert (q = peer) as -> by (apply (Hall (q, p)); left). destruct (Z.eqb_spec p path) as [->|Hne]; [by eexists|].
  destruct IH as (rest&->&Hp); [intros x Hx; apply Hall; by right|by apply elem_of_cons in Hin as [[= ?]|?]|].
  exists ((peer, p) :: rest). split; [done|]. rewrite Hp. apply Permutation_swap.
Qed.

Lemma release_ok peer targets : forall tr held, ledger tr = Some held -> held ≡ₚ refs peer targets -> Forall present targets ->
  all (_linkg_scheduler_release_targets targets) (fun tr' _ => quiet_to tr [] tr') tr.
Proof.
  induction targets as [|t targets IH]; intros tr held Hl Hh Hp; cbn [_linkg_scheduler_release_targets].
  { cbn in *. apply Permutation_nil_r in Hh as ->. done. }
  apply Forall_cons in Hp as [[_ [path Epath]] Hp]. rewrite Epath. cbn. intros x _.
  destruct (give_back_ok peer path held) as (rest&Eg&Hr).
  - intros y Hy. rewrite Hh in Hy. unfold refs in Hy. apply list_elem_of_fmap in Hy as (t'&->&_). done.
  - rewrite Hh. cbn. rewrite Epath. left.
  - eapply all_mono; [eapply (IH _ rest); [|by rewrite Hr in Hh; cbn in Hh; rewrite Epath in Hh; apply (Permutation_cons_inv (a:=(peer, path)))|done]|].
    + rewrite ledger_snoc, Hl. cbn. done.
    + intros tr' _ _ [H1 H2]. split; [|done]. by rewrite H1, calls_other.
Qed.

Lemma covered_ok peer class targets held : held ≡ₚ refs peer targets -> Forall present targets ->
  covered held (TxContext (Some targets) class peer) = true.
Proof.
  intros Hh Hp. unfold covered. cbn. apply forallb_forall. intros t Hin%list_elem_of_In.
  rewrite Forall_forall in Hp. destruct (Hp t Hin) as [_ [path Ep]]. rewrite Ep. apply bool_decide_eq_true. rewrite Hh. unfold refs.
  apply list_elem_of_fmap. exists t. by rewrite Ep.
Qed.

(** ** One group *)

(** The items of a call the transport accepted. *)
Definition accepted {A} (items : list A) (results : list Z) : list A := (filter (fun p => p.2 = 0) (zip items results)).*1.
#[local] Arguments accepted : simpl never.
Definition call_accepted (c : call T) : list T := if 0 <=? ca_ret c then accepted (ca_items c) (ca_results c) else [].

Definition call_ok (class : Z) (c : call T) : Prop :=
  xc_traffic_class (ca_context c) = class /\ _linkg_transport_tx_validate_context (Some (ca_context c)) = 0 /\
  ca_items c <> [] /\ (length (ca_items c) <= 32)%nat /\ (0 <= ca_ret c -> length (ca_results c) = length (ca_items c)).

(** A group was not handed over, for a reason, or it was in one call. *)
Inductive group_outcome (class : Z) (group : linkg_scheduler_peer_group) (items : list T) (results : list Z) (tr tr' : list event)
    (ret : Z) (results' : list Z) : Prop :=
  | Not_handed e : e <> 0 -> calls tr' = calls tr -> ret = 0 -> results' = set_group_result group e results ->
      group_outcome class group items results tr tr' ret results'
  | Handed c : calls tr' = calls tr ++ [c] -> call_ok class c -> ca_items c = items -> xc_peer_node_id (ca_context c) = pg_peer_node_id group ->
      (if 0 <=? ca_ret c then ret = i32_of_u32 (u32 (count_zero (ca_results c))) /\ results' = copy_results group (ca_results c) results
       else ret = ca_ret c /\ results' = set_group_result group ret results) ->
      group_outcome class group items results tr tr' ret results'.

(** What [_linkg_scheduler_submit_tx_group] and [_linkg_scheduler_submit_forward_group] have in common. *)
Definition transmit (class policy specified : Z) (group : linkg_scheduler_peer_group) (items : list T) (results : list Z) : sched (Z * list Z) :=
  do! (ret, targets) := _linkg_scheduler_build_targets (pg_peer_node_id group) class policy specified in
  if negb (ret =? 0) then Done (0, set_group_result group ret results)
  else
    do! (ret, transport_results) := perform (tm_call (TxContext (Some targets) class (pg_peer_node_id group)) items) in
    finish_group group targets ret transport_results results.

Lemma transmit_ok class policy specified group items results tr : ledger tr = Some [] -> items <> [] -> (length items <= 32)%nat ->
  all (transmit class policy specified group items results) (fun tr' '(ret, results') =>
    ledger tr' = Some [] /\ group_outcome class group items results tr tr' ret results') tr.
Proof.
  intros Hl Hne Hlen. unfold transmit. eapply all_seq; [by apply build_targets_ok|]. intros tr1 [ret targets] _ [[Hr [H1 H2]]|(->&Hv&Hp&held&[H1 H2]&Hh)].
  { rewrite (proj2 (Z.eqb_neq ret 0)) by done. cbn. split; [done|]. by eapply Not_handed. }
  cbn. intros [ret transport_results] Hans. set (ctx := TxContext (Some targets) class (pg_peer_node_id group)) in *.
  unfold finish_group. eapply all_seq; [eapply release_ok; [|exact Hh|done]|].
  { rewrite ledger_snoc, H2, tm_ledger. unfold ctx. by rewrite (covered_ok (pg_peer_node_id group) class targets held). }
  intros tr2 [] _ [H3 H4]. rewrite calls_snoc, tm_this, H1 in H3.
  assert (call_ok class (Call ctx items ret transport_results)) as Hok by (split; [done|]; splits; try done; cbn; by apply (tm_answer ctx)).
  destruct (Z.ltb_spec ret 0) as [Hr|Hr]; cbn; (split; [done|]); (eapply Handed; [exact H3|exact Hok|done..|]); cbn.
  - by rewrite (proj2 (Z.leb_gt 0 ret)).
  - by rewrite (proj2 (Z.leb_le 0 ret)).
Qed.

(** ** The verdicts of a batch *)

Lemma accepted_cons {A} (x : A) xs r rs : accepted (x :: xs) (r :: rs) = (if decide (r = 0) then [x] else []) ++ accepted xs rs.
Proof. unfold accepted. cbn [zip zip_with]. rewrite filter_cons. cbn. by destruct (decide (r = 0)). Qed.

Lemma accepted_insert {A} (x : A) i r : forall (items : list A) results old,
  items !! i = Some x -> results !! i = Some old -> old <> 0 -> length items = length results ->
  accepted items (<[i := r]> results) ≡ₚ accepted items results ++ (if decide (r = 0) then [x] else []).
Proof.
  induction i as [|i IH]; intros [|y items] [|s results] old; cbn; try done; intros Hx Ho Hn [= Hl].
  - injection Hx as ->. injection Ho as ->. rewrite !accepted_cons, (decide_False (P := old = 0)) by done. cbn. apply Permutation_app_comm.
  - rewrite !accepted_cons, <- app_assoc. f_equiv. by eapply IH.
Qed.

Lemma count_accepted {A} (items : list A) : forall results, length items = length results ->
  Z.of_nat (length (accepted items results)) = count_zero results.
Proof.
  unfold count_zero. induction items as [|x items IH]; intros [|r results] Hl; try done. injection Hl as Hl. rewrite accepted_cons, length_app. cbn [sumZ].
  rewrite <- IH by done. destruct (decide (r = 0)) as [->|Hr]; cbn; [lia|]. rewrite (proj2 (Z.eqb_neq r 0)) by done. lia.
Qed.

Lemma elem_of_concat {A} (x : A) ls : x ∈ concat ls <-> exists l, l ∈ ls /\ x ∈ l.
Proof.
  rewrite list_elem_of_In, in_concat. split; intros (l&Hl&Hx); exists l; [by rewrite !list_elem_of_In|by rewrite <- !list_elem_of_In].
Qed.

(** Entries that still wait for their verdict. *)
Definition pending (results : list Z) (indices : list nat) : Prop :=
  forall i, i ∈ indices -> exists r, results !! i = Some r /\ r <> 0.

Lemma pending_insert results indices i r : i ∉ indices -> pending results indices -> pending (<[i := r]> results) indices.
Proof. intros Hi H j Hj. destruct (H j Hj) as (s&E&Hs). exists s. rewrite list_lookup_insert_ne by congruence. done. Qed.

Lemma set_other e i indices : forall l : list Z, i ∉ indices -> foldl (fun results i => <[i := e]> results) l indices !! i = l !! i.
Proof.
  induction indices as [|k indices IH]; intros l Hin; cbn; [done|]. apply not_elem_of_cons in Hin as [? ?].
  rewrite IH by done. by rewrite list_lookup_insert_ne.
Qed.

Lemma copy_other i indices : forall answers (l : list Z), i ∉ indices ->
  foldl (fun results '(i, r) => <[i := r]> results) l (zip indices answers) !! i = l !! i.
Proof.
  induction indices as [|k indices IH]; intros [|r answers] l Hin; cbn; try done. apply not_elem_of_cons in Hin as [? ?].
  rewrite IH by done. by rewrite list_lookup_insert_ne.
Qed.

Lemma set_result_spec {A} (items : list A) e indices : forall results, e <> 0 -> pending results indices -> length items = length results ->
  let results' := foldl (fun results i => <[i := e]> results) results indices in
  length results' = length results /\ accepted items results' ≡ₚ accepted items results /\ pending results' indices.
Proof.
  intros results He. cbn zeta. revert results. induction indices as [|i indices IH]; intros results Hp Hl; cbn; [by splits|].
  destruct (Hp i) as (r&Er&Hr); [left|].
  assert (pending (<[i := e]> results) (i :: indices)) as Hp'.
  { intros j Hj. destruct (decide (j = i)) as [->|Hne].
    - exists e. rewrite list_lookup_insert_eq; [done|]. by eapply lookup_lt_Some.
    - destruct (Hp j Hj) as (s&E&Hs). exists s. by rewrite list_lookup_insert_ne. }
  destruct (IH (<[i := e]> results)) as (H1&H2&H3); [intros j Hj; apply Hp'; by right|by rewrite length_insert|].
  rewrite length_insert in H1. assert (is_Some (items !! i)) as [x Ex] by (apply lookup_lt_is_Some; rewrite Hl; by eapply lookup_lt_Some).
  splits; [done| |].
  - rewrite H2, (accepted_insert x i e items results r) by done. rewrite decide_False by done. by rewrite app_nil_r.
  - intros j Hj. destruct (decide (j ∈ indices)) as [Hin|Hin]; [by apply H3|]. apply elem_of_cons in Hj as [->|?]; [|done].
    exists e. split; [|done].
    rewrite set_other by done. rewrite list_lookup_insert_eq; [done|]. by eapply lookup_lt_Some.
Qed.

Lemma copy_results_spec {A} (items : list A) (d : A) indices : forall answers results,
  length answers = length indices -> NoDup indices -> pending results indices -> length items = length results ->
  let results' := foldl (fun results '(i, r) => <[i := r]> results) results (zip indices answers) in
  length results' = length results /\
  accepted items results' ≡ₚ accepted items results ++ accepted ((fun i => default d (items !! i)) <$> indices) answers.
Proof.
  induction indices as [|i indices IH]; intros [|r answers] results; cbn zeta; cbn [length]; try done; intros Hla Hnd Hp Hl.
  { cbn. by rewrite app_nil_r. }
  apply NoDup_cons in Hnd as [Hi Hnd]. cbn. destruct (Hp i) as (old&Eo&Ho); [left|].
  assert (is_Some (items !! i)) as [x Ex] by (apply lookup_lt_is_Some; rewrite Hl; by eapply lookup_lt_Some).
  destruct (IH answers (<[i := r]> results)) as [H1 H2]; [lia|done|apply pending_insert; [done|intros j Hj; apply Hp; by right]|by rewrite length_insert|].
  rewrite length_insert in H1. split; [done|]. rewrite H2, (accepted_insert x i r items results old) by done.
  rewrite accepted_cons, Ex. cbn. by rewrite <- app_assoc.
Qed.

(** The effect of one group on the verdicts: what the transport accepted is added, at
    positions of the group. *)
Lemma outcome_spec class group items (d : T) results tr tr' ret results' :
  length items = length results -> NoDup (pg_item_indices group) -> pending results (pg_item_indices group) ->
  group_outcome class group ((fun i => default d (items !! i)) <$> pg_item_indices group) results tr tr' ret results' ->
  let final := if ret <? 0 then set_group_result group ret results' else results' in
  exists cs, calls tr' = calls tr ++ cs /\ Forall (call_ok class) cs /\ length final = length results /\
    accepted items final ≡ₚ accepted items results ++ concat (call_accepted <$> cs) /\
    (forall i, i ∉ pg_item_indices group -> final !! i = results !! i) /\
    (if ret <? 0 then concat (call_accepted <$> cs) = [] else ret = Z.of_nat (length (concat (call_accepted <$> cs)))) /\
    (cs = [] \/ exists c, cs = [c] /\ ca_items c = (fun i => default d (items !! i)) <$> pg_item_indices group /\
       xc_peer_node_id (ca_context c) = pg_peer_node_id group).
Proof.
  intros Hl Hnd Hp [e He Hc -> ->|c Hc Hok Hi Hpeer Hres]; cbn zeta.
  - exists []. destruct (set_result_spec items e (pg_item_indices group) results He Hp Hl) as (H1&H2&_). rewrite app_nil_r. cbn.
    splits; [done|done|done|by rewrite app_nil_r|intros; by apply set_other|done|by left].
  - exists [c]. pose proof Hok as (_&_&_&H32&Hlen).
    assert ([c] = [] \/ exists c', [c] = [c'] /\ ca_items c' = (fun i => default d (items !! i)) <$> pg_item_indices group /\
      xc_peer_node_id (ca_context c') = pg_peer_node_id group) as Hlast by (right; by exists c).
    cbn [fmap list_fmap concat]. rewrite app_nil_r. unfold call_accepted. destruct (Z.leb_spec 0 (ca_ret c)) as [Hr|Hr].
    + destruct Hres as [Eret ->]. specialize (Hlen Hr). rewrite <- (count_accepted (ca_items c)) in Eret by done.
      assert (length (accepted (ca_items c) (ca_results c)) <= 32)%nat as Hle.
      { unfold accepted. rewrite length_fmap. etrans; [apply length_filter|]. rewrite length_zip_with. lia. }
      assert (ret = Z.of_nat (length (accepted (ca_items c) (ca_results c)))) as ->.
      { rewrite Eret. unfold i32_of_u32. rewrite wrap_small by (widths; lia). destruct (Z.ltb_spec (Z.of_nat (length (accepted (ca_items c) (ca_results c)))) (2 ^ 31)); lia. }
      rewrite (proj2 (Z.ltb_ge _ 0)) by lia.
      destruct (copy_results_spec items d (pg_item_indices group) (ca_results c) results) as [H1 H2]; [by rewrite Hlen, Hi, length_fmap|done..|].
      splits; [done|by constructor|done| |intros; by apply copy_other|done|done]. unfold copy_results. by rewrite H2, Hi.
    + destruct Hres as [-> ->]. rewrite (proj2 (Z.ltb_lt _ 0)) by lia.
      assert (ca_ret c <> 0) as He by lia.
      destruct (set_result_spec items (ca_ret c) (pg_item_indices group) results He Hp Hl) as (H1&H2&H3).
      destruct (set_result_spec items (ca_ret c) (pg_item_indices group) (set_group_result group (ca_ret c) results) He H3) as (G1&G2&_); [etrans; [exact Hl|symmetry; exact H1]|].
      splits; [done|by constructor|by etrans|by rewrite app_nil_r, G2| |done|done].
      intros i Hin. unfold set_group_result at 1. rewrite set_other by done. by apply set_other.
Qed.

(** All groups of a chunk: each of those [used] was handed over in one call. *)
Definition groups_done (class : Z) (items : list T) (d : T) (groups : list linkg_scheduler_peer_group) (results : list Z) (success : Z)
    (tr tr' : list event) (ret : Z) (results' : list Z) : Prop :=
  ledger tr' = Some [] /\ exists cs used, calls tr' = calls tr ++ cs /\ Forall (call_ok class) cs /\ length results' = length results /\
    accepted items results' ≡ₚ accepted items results ++ concat (call_accepted <$> cs) /\
    ret = i32_of_u32 (u32 (success + Z.of_nat (length (concat (call_accepted <$> cs))))) /\
    used `sublist_of` groups /\
    Forall2 (fun c group => ca_items c = (fun i => default d (items !! i)) <$> pg_item_indices group /\
               xc_peer_node_id (ca_context c) = pg_peer_node_id group) cs used.

Lemma submit_groups_ok class (items : list T) (d : T) submit groups : forall results success tr,
  (forall group results tr, group ∈ groups -> ledger tr = Some [] ->
     all (submit group results) (fun tr' '(ret, results') => ledger tr' = Some [] /\
       group_outcome class group ((fun i => default d (items !! i)) <$> pg_item_indices group) results tr tr' ret results') tr) ->
  ledger tr = Some [] -> length items = length results -> NoDup (concat (pg_item_indices <$> groups)) ->
  (forall group, group ∈ groups -> pending results (pg_item_indices group)) -> u32 success = success ->
  all (submit_groups submit groups results success) (fun tr' '(ret, results') => groups_done class items d groups results success tr tr' ret results') tr.
Proof.
  induction groups as [|g groups IH]; intros results success tr Hsub Hl Hlen Hnd Hp Hs; cbn [submit_groups].
  { cbn. split; [done|]. exists [], []. cbn. rewrite !app_nil_r, Z.add_0_r, Hs. splits; try done; constructor. }
  cbn in Hnd. apply NoDup_app in Hnd as (Hnd1&Hd&Hnd2).
  eapply all_seq; [apply Hsub; [left|done]|]. intros tr1 [ret results1] _ [Hl1 Hout].
  destruct (outcome_spec _ _ _ _ _ _ _ _ _ Hlen Hnd1 (Hp g ltac:(left)) Hout) as (cs&Ec&Hok&El&Ea&Eo&Eret&Ecs).
  assert (forall success', success' = u32 (success + Z.of_nat (length (concat (call_accepted <$> cs)))) ->
    all (submit_groups submit groups (if ret <? 0 then set_group_result g ret results1 else results1) success')
      (fun tr' '(ret', results') => groups_done class items d (g :: groups) results success tr tr' ret' results') tr1) as Hnext.
  { intros success' Es. eapply all_mono; [apply IH; [intros; apply Hsub; [by right|done]|done|by rewrite El|done| |]|].
    - intros g' Hg' i Hi. destruct (Hp g' ltac:(by right) i Hi) as (r&Er&Hr). exists r. rewrite Eo; [done|].
      intros Hin. apply (Hd i Hin), elem_of_concat. exists (pg_item_indices g'). split; [by apply list_elem_of_fmap_2|done].
    - rewrite Es. unfold wrap. by rewrite Zmod_mod.
    - intros tr' [ret' results'] _ (G1&cs'&used&G2&G3&G4&G5&G6&G8&G9). split; [done|].
      exists (cs ++ cs'), (match cs with [] => used | _ => g :: used end). rewrite fmap_app, concat_app.
      splits; [by rewrite G2, Ec, app_assoc|by apply Forall_app|by rewrite G4|by rewrite G5, Ea, app_assoc| | |].
      + rewrite length_app, G6, Es. f_equal. unfold wrap. rewrite Zplus_mod_idemp_l. f_equal. lia.
      + destruct Ecs as [->|(c&->&_)]; [by apply sublist_cons|by apply sublist_skip].
      + destruct Ecs as [->|(c&->&Hc)]; [done|]. by constructor. }
  destruct (Z.ltb_spec ret 0) as [Hr|Hr]; apply Hnext.
  - by rewrite Eret, Z.add_0_r.
  - by rewrite Eret.
Qed.

(** ** One chunk *)

(** What was handed over for a hop, in order. *)
Definition handed (peer : Z) (cs : list (call T)) : list T :=
  concat (ca_items <$> filter (fun c => xc_peer_node_id (ca_context c) = peer) cs).

(** Calls and verdicts of a list of items, each with a [route]: the calls are fit for
    the transport; a hop gets its items in order and at most once; the items with
    result 0 are those the transport accepted, and the code counts them. *)
Definition dispatched (class : Z) (route : T -> Z * Z) (items : list T) (cs : list (call T)) (ret : Z) (results : list Z) : Prop :=
  Forall (call_ok class) cs /\ length results = length items /\
  accepted items results ≡ₚ concat (call_accepted <$> cs) /\ ret = i32_of_u32 (u32 (count_zero results)) /\
  forall peer, handed peer cs `sublist_of` filter (fun item => route item = (0, peer)) items.

Lemma positions_items (d : T) peer (route : T -> Z * Z) items :
  (fun i => default d (items !! i)) <$> positions peer (route <$> items) = filter (fun item => route item = (0, peer)) items.
Proof.
  induction items as [|x items IH] using rev_ind; [done|]. rewrite fmap_app. cbn [fmap list_fmap].
  rewrite positions_snoc, fmap_app, filter_app, <- IH. f_equal.
  - apply list_fmap_ext. intros _ i Hi%list_elem_of_lookup_2%elem_of_positions. rewrite lookup_app_l; [done|].
    apply lookup_lt_Some in Hi. by rewrite length_fmap in Hi.
  - rewrite length_fmap, filter_cons. destruct (decide (route x = (0, peer))); cbn; [|done].
    by rewrite lookup_app_r, Nat.sub_diag by lia.
Qed.

Lemma positions_nodup peer routes : NoDup (positions peer routes).
Proof.
  induction routes as [|route routes IH] using rev_ind; [constructor|]. rewrite positions_snoc. apply NoDup_app. splits; [done| |].
  - intros i Hi%elem_of_positions%lookup_lt_Some Hin. destruct (decide _); [|by apply not_elem_of_nil in Hin].
    apply list_elem_of_singleton in Hin. lia.
  - destruct (decide _); [apply NoDup_singleton|constructor].
Qed.

Lemma groups_positions_nodup routes : NoDup (concat (pg_item_indices <$> groups_of routes)).
Proof.
  unfold groups_of. rewrite <- list_fmap_compose. pose proof (first_hops_nodup routes) as Hnd.
  induction (first_hops routes) as [|peer peers IH]; [constructor|]. apply NoDup_cons in Hnd as [Hp Hnd]. cbn.
  apply NoDup_app. splits; [apply positions_nodup| |by apply IH]. intros i Hi%elem_of_positions (l&Hl&Hin)%elem_of_concat.
  apply list_elem_of_fmap in Hl as (q&->&Hq). cbn in Hin. apply elem_of_positions in Hin. congruence.
Qed.

Lemma verdict_nonzero routes route : verdict_of routes route <> 0.
Proof. unfold verdict_of. destruct (Z.eqb_spec route.1 0); cbn; [|done]. by destruct (bool_decide _). Qed.

Lemma group_of routes group : group ∈ groups_of routes ->
  pg_peer_node_id group ∈ first_hops routes /\ pg_item_indices group = positions (pg_peer_node_id group) routes.
Proof. unfold groups_of. intros (peer&->&Hp)%list_elem_of_fmap. done. Qed.

Lemma positions_size routes peer : peer ∈ first_hops routes ->
  positions peer routes <> [] /\ (length (positions peer routes) <= length routes)%nat.
Proof.
  intros Hp. split.
  - assert (peer ∈ hops routes) as Hin by (eapply elem_of_sublist; [exact Hp|apply sublist_take]).
    apply elem_of_hops, list_elem_of_lookup_1 in Hin as [i Hi]. apply elem_of_positions in Hi. intros E. rewrite E in Hi. by apply not_elem_of_nil in Hi.
  - unfold positions. rewrite length_fmap. etrans; [apply length_filter|]. by rewrite length_imap.
Qed.

Lemma accepted_none (items : list T) results : Forall (fun r => r <> 0) results -> accepted items results = [].
Proof.
  revert results. induction items as [|x items IH]; intros [|r results] H; try done. apply Forall_cons in H as [Hr H].
  rewrite accepted_cons, decide_False by done. by apply IH.
Qed.

(** The calls of some of the groups, hop by hop. *)
Lemma handed_groups (d : T) (route : T -> Z * Z) items cs used : used `sublist_of` groups_of (route <$> items) ->
  Forall2 (fun c group => ca_items c = (fun i => default d (items !! i)) <$> pg_item_indices group /\
             xc_peer_node_id (ca_context c) = pg_peer_node_id group) cs used ->
  forall peer, handed peer cs `sublist_of` filter (fun item => route item = (0, peer)) items.
Proof.
  intros Hsub Hcs peer.
  assert (NoDup (pg_peer_node_id <$> used)) as Hnd.
  { eapply sublist_NoDup; [|by apply fmap_sublist]. rewrite groups_of_peers. apply first_hops_nodup. }
  assert (forall group, group ∈ used -> group ∈ groups_of (route <$> items)) as Hin by (intros group H; by eapply elem_of_sublist).
  clear Hsub. induction Hcs as [|c group cs used [Hi Hpeer] Hcs IH]; [apply sublist_nil_l|].
  cbn in Hnd. apply NoDup_cons in Hnd as [Hg Hnd]. unfold handed in *. rewrite filter_cons.
  destruct (decide (xc_peer_node_id (ca_context c) = peer)) as [<-|Hne]; [|apply IH; [done|intros; apply Hin; by right]].
  assert (filter (fun c' => xc_peer_node_id (ca_context c') = xc_peer_node_id (ca_context c)) cs = []) as Hnone.
  { clear -Hcs Hg Hpeer. induction Hcs as [|c' g' cs used [_ Hp'] _ IH]; [done|]. cbn in Hg. apply not_elem_of_cons in Hg as [Hne Hg].
    rewrite filter_cons, decide_False by congruence. by apply IH. }
  rewrite Hnone. cbn. rewrite app_nil_r, Hi. destruct (group_of _ _ (Hin group ltac:(left))) as [_ ->].
  rewrite Hpeer. by rewrite positions_items.
Qed.

Lemma chunk_ok class (route : T -> Z * Z) (items : list T) (d : T) submit tr :
  (forall group results tr, group ∈ groups_of (route <$> items) -> ledger tr = Some [] ->
     all (submit group results) (fun tr' '(ret, results') => ledger tr' = Some [] /\
       group_outcome class group ((fun i => default d (items !! i)) <$> pg_item_indices group) results tr tr' ret results') tr) ->
  ledger tr = Some [] ->
  all (let '(results, groups) := group_items (route <$> items) 0 [] in submit_groups submit groups results 0)
    (fun tr' '(ret, results) => ledger tr' = Some [] /\ exists cs, calls tr' = calls tr ++ cs /\ dispatched class route items cs ret results) tr.
Proof.
  intros Hsub Hl. rewrite group_items_spec. set (routes := route <$> items) in *.
  assert (Forall (fun r => r <> 0) (verdict_of routes <$> routes)) as Hnz.
  { apply Forall_fmap, Forall_true. intros r. apply verdict_nonzero. }
  eapply all_mono; [apply (submit_groups_ok class items d); [exact Hsub|done| |apply groups_positions_nodup| |done]|].
  - unfold routes. by rewrite !length_fmap.
  - intros group Hg i Hi. destruct (group_of _ _ Hg) as [_ E]. rewrite E in Hi. apply elem_of_positions in Hi.
    exists (verdict_of routes (0, pg_peer_node_id group)). rewrite list_lookup_fmap, Hi. split; [done|apply verdict_nonzero].
  - intros tr' [ret results] _ (H1&cs&used&H2&H3&H4&H5&H6&H7&H8). split; [done|]. exists cs. split; [done|].
    assert (length results = length items) as Hlen by (rewrite H4; unfold routes; by rewrite !length_fmap).
    rewrite (accepted_none items _ Hnz) in H5. cbn in H5. unfold dispatched. splits; [done..| |by eapply handed_groups].
    rewrite H6, <- H5, count_accepted by done. by rewrite Z.add_0_l.
Qed.
End Transmit.

(** ** Sending *)

(** What the transport is given of an item, and the route it takes. *)
Definition view (item : linkg_scheduler_tx_item) : linkg_transport_tx_item := TxItem (ki_packet item) (ki_type item) (ki_destination_node_id item).
Definition next_hop (rc : linkg_scheduler_route_context) (item : linkg_transport_tx_item) : Z * Z :=
  tx_route rc (SchedulerItem (xi_packet item) (xi_type item) (xi_destination_node_id item) 0).

Lemma group_size routes group : group ∈ groups_of routes -> (length routes <= 32)%nat ->
  pg_item_indices group <> [] /\ (length (pg_item_indices group) <= 32)%nat /\
  (Z.of_nat (length (pg_item_indices group)) =? 0) || (LINKG_SCHEDULER_TX_CHUNK_MAX <? Z.of_nat (length (pg_item_indices group))) = false.
Proof.
  intros Hg Hl. destruct (group_of _ _ Hg) as [Hp E]. destruct (positions_size _ _ Hp) as [Hne Hle]. rewrite <- E in Hne, Hle.
  splits; [done|lia|]. unfold LINKG_SCHEDULER_TX_CHUNK_MAX.
  assert (length (pg_item_indices group) <> 0%nat) by (by rewrite length_zero_iff_nil). apply orb_false_iff. rewrite Z.eqb_neq, Z.ltb_ge. split; lia.
Qed.

Lemma tx_chunk_ok context rc items tr : ledger tr = Some [] -> items <> [] -> (length items <= 32)%nat ->
  all (_linkg_scheduler_submit_tx_chunk context rc items) (fun tr' '(ret, results) => ledger tr' = Some [] /\
    exists cs, calls tr' = calls tr ++ cs /\ dispatched (kc_traffic_class context) (next_hop rc) (view <$> items) cs ret results) tr.
Proof.
  intros Hl Hne Hlen. unfold _linkg_scheduler_submit_tx_chunk. unfold LINKG_SCHEDULER_TX_CHUNK_MAX at 1.
  rewrite bool_decide_false by done. destruct (Z.ltb_spec 32 (Z.of_nat (length items))); [lia|]. cbn [orb].
  assert (tx_route rc <$> items = next_hop rc <$> (view <$> items)) as -> by (rewrite <- list_fmap_compose; by apply list_fmap_ext; intros ? [] ?).
  apply (chunk_ok _ _ _ (TxItem None 0 0)); [|done]. intros group results tr1 Hg Hl1.
  destruct (group_size _ _ Hg) as (Hi&H32&Hsize); [by rewrite !length_fmap|].
  unfold _linkg_scheduler_submit_tx_group. rewrite Hsize.
  assert ((fun i => default (TxItem None 0 0) ((view <$> items) !! i)) <$> pg_item_indices group = transport_item items <$> pg_item_indices group) as ->.
  { apply list_fmap_ext. intros _ i _. unfold transport_item. rewrite list_lookup_fmap. by destruct (items !! i). }
  apply (transmit_ok (TM := sending) (kc_traffic_class context) (kc_policy context) (kc_specified_link_id context)); [done| |by rewrite length_fmap].
  by destruct (pg_item_indices group).
Qed.

Lemma dispatched_app class (route : linkg_transport_tx_item -> Z * Z) xs ys cs cs' ret ret' results results' code :
  dispatched class route xs cs ret results -> dispatched class route ys cs' ret' results' ->
  code = i32_of_u32 (u32 (count_zero results + count_zero results')) -> dispatched class route (xs ++ ys) (cs ++ cs') code (results ++ results').
Proof.
  intros (H1&H2&H3&_&H5) (G1&G2&G3&_&G5) ->. unfold dispatched. splits.
  - by apply Forall_app.
  - rewrite !length_app. lia.
  - rewrite fmap_app, concat_app, <- H3, <- G3. unfold accepted. by rewrite zip_with_app, filter_app, fmap_app.
  - do 2 f_equal. unfold count_zero. by rewrite sumZ_app.
  - intros peer. unfold handed. rewrite !filter_app, fmap_app, concat_app. apply sublist_app; [apply H5|apply G5].
Qed.

Lemma count_zero_range results : 0 <= count_zero results <= Z.of_nat (length results).
Proof. unfold count_zero. induction results as [|r results IH]; cbn; [lia|]. destruct (r =? 0); lia. Qed.

Lemma submit_chunks_ok context rc fuel : forall items success first_error processed done tr,
  ledger tr = Some [] -> (length items <= fuel)%nat -> (processed = true \/ items <> []) -> u32 success = success ->
  all (submit_chunks fuel context rc items success first_error processed done) (fun tr' '(ret, out) => ledger tr' = Some [] /\
    exists cs results code, out = done ++ results /\ calls tr' = calls tr ++ cs /\
      dispatched (kc_traffic_class context) (next_hop rc) (view <$> items) cs code results /\
      ret = i32_of_u32 (u32 (success + count_zero results))) tr.
Proof.
  induction fuel as [|fuel IH]; intros items success fe processed done tr Hl Hf Hp Hs.
  { destruct items; [|cbn in Hf; lia]. destruct Hp as [->|]; [|done]. cbn. split; [done|]. exists [], [], 0. rewrite !app_nil_r, Z.add_0_r, Hs.
    splits; try done. }
  destruct items as [|x items0]; cbn [submit_chunks].
  { destruct Hp as [->|]; [|done]. cbn. split; [done|]. exists [], [], 0. rewrite !app_nil_r, Z.add_0_r, Hs.
    splits; try done. }
  change (Z.to_nat LINKG_SCHEDULER_TX_CHUNK_MAX) with 32%nat. remember (x :: items0) as items eqn:Eitems.
  assert (items <> []) as Hne by (by subst). clear Eitems x items0.
  assert (view <$> items = (view <$> take 32 items) ++ (view <$> drop 32 items)) as Ev by (by rewrite <- fmap_app, take_drop).
  assert (length (take 32 items) <= 32)%nat as H32 by (rewrite length_take; lia).
  eapply all_seq; [apply tx_chunk_ok; [done|by destruct items|done]|]. intros tr1 [ret results] _ [Hl1 (cs&Ec&Hd)].
  pose proof Hd as (_&Hlen&_&Eret&_). rewrite length_fmap in Hlen. pose proof (count_zero_range results) as Hrange.
  assert (ret = count_zero results) as ->.
  { rewrite Eret. unfold i32_of_u32. rewrite wrap_small by (widths; lia). destruct (Z.ltb_spec (count_zero results) (2 ^ 31)); lia. }
  rewrite (proj2 (Z.ltb_ge _ 0)) by lia.
  eapply all_mono; [apply IH; [done| |by left|unfold wrap; by rewrite Zmod_mod]|].
  { rewrite length_drop. destruct items; [done|]. cbn [length] in *. lia. }
  intros tr' [ret' out] _ [Hl' (cs'&results'&code&->&Ec'&Hd'&->)]. split; [done|].
  exists (cs ++ cs'), (results ++ results'), (i32_of_u32 (u32 (count_zero results + count_zero results'))).
  rewrite Ev. splits; [by rewrite app_assoc|by rewrite Ec', Ec, app_assoc|by eapply dispatched_app|].
  rewrite wrap_add_l. do 2 f_equal. unfold count_zero. rewrite sumZ_app. lia.
Qed.

(** ** The route of a batch *)

(** The route comes from the node: its identity, and for a station the access point it
    is connected to. *)
Definition route_ok (rc : linkg_scheduler_route_context) (tr : list event) : Prop :=
  Event Get_local (Some (rc_local rc)) ∈ tr /\
  (ni_role (rc_local rc) = LINKG_DEVICE_ROLE_AP \/
   ni_role (rc_local rc) = LINKG_DEVICE_ROLE_STA /\
   (rc_sta_peer_result rc = 0 -> exists n info, Event (Peer_snapshot n) (0, info) ∈ tr /\
      ni_role info = LINKG_DEVICE_ROLE_AP /\ rc_sta_peer_node_id rc = ni_node_id info)).

(** The answer of a search for the access point, once [tr] is over. *)
Definition peer_found (tr : list event) (ret peer : Z) : Prop :=
  ret = 0 -> exists n info, Event (Peer_snapshot n) (0, info) ∈ tr /\ ni_role info = LINKG_DEVICE_ROLE_AP /\ peer = ni_node_id info.

Lemma scan_peers_ok {T} `{Transmission T} node_ids tr0 : forall tr, quiet_to (T := T) tr0 [] tr ->
  all (scan_peers node_ids) (fun tr' '(ret, peer) => quiet_to (T := T) tr0 [] tr' /\ peer_found tr' ret peer) tr.
Proof.
  induction node_ids as [|n ns IH]; intros tr Hq; cbn [scan_peers]; [by split; [|intros ?]|].
  cbn. intros [ret info] _. pose proof (quiet_step _ _ _ (Event (Peer_snapshot n) (ret, info)) Hq eq_refl eq_refl) as H1.
  destruct (ret =? - ENOENT); [by apply IH|]. destruct (Z.eqb_spec ret 0) as [->|Hr]; cbn; [|by split; [|intros ?]].
  destruct (Z.eqb_spec (ni_role info) LINKG_DEVICE_ROLE_AP) as [Ha|Ha]; cbn; [|by split; [|intros ?]].
  intros u _ v _. split; [by do 2 (apply quiet_step; [|done..])|]. intros _. exists n, info. splits; [|done..].
  apply elem_of_app. left. apply elem_of_app. left. apply elem_of_app. right. by left.
Qed.

Lemma find_sta_peer_ok {T} `{Transmission T} tr0 tr : quiet_to (T := T) tr0 [] tr ->
  all _linkg_scheduler_find_sta_peer (fun tr' '(ret, peer) => quiet_to (T := T) tr0 [] tr' /\ peer_found tr' ret peer) tr.
Proof.
  intros Hq. unfold _linkg_scheduler_find_sta_peer. cbn [perform sbind all]. intros cached _.
  pose proof (quiet_step _ _ _ (Event Load_peer_cached cached) Hq eq_refl eq_refl) as H1.
  destruct cached; [|by apply scan_peers_ok]. cbn [perform sbind all]. intros n _.
  pose proof (quiet_step _ _ _ (Event Load_peer_node_id n) H1 eq_refl eq_refl) as H2. intros [ret info] _.
  pose proof (quiet_step _ _ _ (Event (Peer_snapshot n) (ret, info)) H2 eq_refl eq_refl) as H3.
  destruct (Z.eqb_spec ret 0) as [->|Hr].
  - destruct (Z.eqb_spec (ni_role info) LINKG_DEVICE_ROLE_AP) as [Ha|Ha]; cbn [negb all]; [|by split; [|intros ?]]. split; [done|]. intros _.
    exists n, info. splits; [|done..]. apply elem_of_app. right. by left.
  - destruct (ret =? - ENOENT); cbn [negb]; [|by split; [|intros ?]]. cbn [perform sbind all]. intros u _. apply scan_peers_ok. by apply quiet_step.
Qed.

Lemma prepare_ok {T} `{Transmission T} tr0 tr : quiet_to (T := T) tr0 [] tr ->
  all _linkg_scheduler_prepare_route_context (fun tr' '(ret, rc) => quiet_to (T := T) tr0 [] tr' /\
    (ret < 0 \/ ret = 0 /\ route_ok rc tr')) tr.
Proof.
  intros Hq. unfold _linkg_scheduler_prepare_route_context. cbn [perform sbind all]. intros local _.
  pose proof (quiet_step _ _ _ (Event Get_local local) Hq eq_refl eq_refl) as H1. destruct local as [local|]; [|by split; [|left]].
  destruct (Z.eqb_spec (ni_role local) LINKG_DEVICE_ROLE_AP) as [Ha|Ha], (Z.eqb_spec (ni_role local) LINKG_DEVICE_ROLE_STA) as [Hs|Hs]; cbn [negb andb];
    [by rewrite Ha in Hs| | |by split; [|left]].
  - cbn. split; [done|]. right. split; [done|]. split; [|by left]. apply elem_of_app. right. by left.
  - eapply all_seq; [by apply find_sta_peer_ok|]. intros tr' [ret peer] Hp [H2 H3]. cbn. split; [done|]. right. split; [done|].
    split; [|by right]. eapply elem_of_prefix; [|exact Hp]. apply elem_of_app. right. by left.
Qed.

(** ** The entry points *)

(** C4: submitting a batch. Whatever the node, the link manager, the switching module,
    the links and the transport answer, and whatever other threads do meanwhile: the
    call of the transport for a group holds a reference, acquired for the group's
    peer, to the path of each of its targets, and every reference taken is given
    back once ([ledger]). Unless the batch is refused as a whole, with nothing
    handed over, its route comes from the node ([route_ok]), every call passes the
    checks of the transport, each next hop gets its packets in the order of the
    batch and none twice, the packets with result 0 are exactly those the transport
    accepted, and the code counts them ([dispatched]). *)
Theorem submit_batch_dispatch context items :
  all (linkg_scheduler_submit_batch context items) (fun tr '(ret, results) =>
    ledger tr = Some [] /\
    ((ret < 0 /\ calls (T := linkg_transport_tx_item) tr = []) \/
     exists c l rc, context = Some c /\ items = Some l /\ l <> [] /\ _linkg_scheduler_validate_context context = 0 /\ route_ok rc tr /\
       dispatched (kc_traffic_class c) (next_hop rc) (view <$> l) (calls tr) ret results)) [].
Proof.
  assert (quiet_to (T := linkg_transport_tx_item) [] [] []) as H0 by done.
  unfold linkg_scheduler_submit_batch. cbn [perform sbind all]. intros initialized _.
  pose proof (quiet_step _ _ _ (Event Load_initialized initialized) H0 eq_refl eq_refl) as H1.
  assert (forall tr, quiet_to (T := linkg_transport_tx_item) [] [] tr -> forall e, e < 0 -> ledger tr = Some [] /\
    ((e < 0 /\ calls (T := linkg_transport_tx_item) tr = []) \/
     exists c l rc, context = Some c /\ items = Some l /\ l <> [] /\ _linkg_scheduler_validate_context context = 0 /\ route_ok rc tr /\
       dispatched (kc_traffic_class c) (next_hop rc) (view <$> l) (calls tr) e [])) as Hout by (intros tr [H2 H3] e He; split; [done|by left]).
  assert (_linkg_scheduler_validate_context context <> 0 -> _linkg_scheduler_validate_context context < 0) as Hneg.
  { unfold _linkg_scheduler_validate_context. destruct context; [|done]. by repeat destruct (_ && _) || destruct (_ || _). }
  destruct H1 as [Hc1 Hl1]. destruct initialized; cbn [negb]; [|split; [done|by left]].
  destruct (Z.eqb_spec (_linkg_scheduler_validate_context context) 0) as [Hv|Hv]; cbn [negb]; [|split; [done|left; split; [by apply Hneg|done]]].
  destruct context as [c|]; [|split; [done|by left]]. destruct items as [l|]; [|split; [done|by left]].
  destruct (bool_decide_reflect (l = [])) as [->|Hne]; [split; [done|by left]|].
  eapply all_seq; [by apply (prepare_ok (T := linkg_transport_tx_item))|]. intros tr2 [ret rc] _ [[Hc2 Hl2] [Hr|[-> Hrc]]].
  { rewrite (proj2 (Z.eqb_neq ret 0)) by lia. cbn. split; [done|]. left. by rewrite Hc2. }
  cbn [Z.eqb negb]. eapply all_mono; [apply submit_chunks_ok; [done|lia|by right|done]|].
  intros tr' [ret out] Hp [Hl' (cs&results&code&->&Ec&Hd&->)]. split; [done|]. right. exists c, l, rc. splits; try done.
  - destruct Hrc as [Hin Hrole]. assert (forall e, e ∈ tr2 -> e ∈ tr') as Hsub by (intros e He; by eapply elem_of_prefix).
    split; [by apply Hsub|]. destruct Hrole as [?|[? Hs]]; [by left|]. right. split; [done|]. intros E. destruct (Hs E) as (n&info&?&?).
    exists n, info. split; [by apply Hsub|done].
  - assert (calls (T := linkg_transport_tx_item) tr2 = []) as E0 by (etrans; [exact Hc2|done]). rewrite E0 in Ec. cbn [app] in Ec. rewrite Ec. destruct Hd as (?&?&?&?&?). unfold dispatched. by splits.
Qed.

(** C14: relaying. The transport's handler keeps the same promises for the frames it is
    given, on an access point only; and a frame goes to its destination and never
    back to the hop it came from. *)
Theorem relay_dispatch traffic_class items before :
  all (_linkg_scheduler_transport_forward traffic_class items before) (fun tr '(ret, results) =>
    ledger tr = Some [] /\
    ((ret < 0 /\ calls (T := linkg_transport_forward_item) tr = []) \/
     exists l local, items = Some l /\ (0 < length l <= 32)%nat /\ Event Get_local (Some local) ∈ tr /\ ni_role local = LINKG_DEVICE_ROLE_AP /\
       dispatched traffic_class (forward_route local) l (calls tr) ret results /\
       forall c item, c ∈ calls tr -> item ∈ ca_items c ->
         fi_destination_node_id item = xc_peer_node_id (ca_context c) /\ fi_peer_node_id item <> xc_peer_node_id (ca_context c))) [].
Proof.
  unfold _linkg_scheduler_transport_forward. cbn [perform sbind all]. intros initialized _.
  destruct initialized; cbn [negb]; [|split; [done|by left]].
  destruct items as [l|]; [|split; [done|by left]]. destruct before as [before|]; [|split; [done|by left]].
  destruct (_linkg_scheduler_class_valid traffic_class) eqn:Ecl; cbn [negb orb]; [|split; [done|by left]].
  destruct (bool_decide_reflect (l = [])) as [->|Hne]; [split; [done|by left]|]. unfold LINKG_SCHEDULER_TX_CHUNK_MAX.
  destruct (Z.ltb_spec 32 (Z.of_nat (length l))) as [Hbig|Hlen]; [split; [done|by left]|].
  cbn [perform sbind all]. intros local _. destruct local as [local|]; [|split; [done|by left]].
  destruct (Z.eqb_spec (ni_role local) LINKG_DEVICE_ROLE_AP) as [Ha|Ha]; cbn [negb]; [|split; [done|by left]].
  eapply all_mono; [apply (chunk_ok traffic_class (forward_route local) l forward_item_zero); [|done]|].
  - intros group results tr1 Hg Hl1. destruct (group_size _ _ Hg) as (Hi&H32&Hsize); [rewrite length_fmap; lia|].
    unfold _linkg_scheduler_submit_forward_group. rewrite Ecl. cbn [negb orb]. rewrite Hsize.
    apply (transmit_ok (TM := relaying) traffic_class LINKG_SCHEDULER_POLICY_DEFAULT LINKG_LINK_ID_INVALID); [done| |by rewrite length_fmap].
    by destruct (pg_item_indices group).
  - intros tr' [ret results] Hp [Hl' (cs&Ec&Hd)]. split; [done|]. right. exists l, local. cbn in Ec. rewrite Ec.
    splits; [done|destruct l; [done|cbn; lia]|lia| |done|done|].
    + eapply elem_of_prefix; [|exact Hp]. right. by left.
    + intros c item Hc Hitem. destruct Hd as (_&_&_&_&Hh). specialize (Hh (xc_peer_node_id (ca_context c))).
      assert (item ∈ handed (xc_peer_node_id (ca_context c)) cs) as Hin.
      { unfold handed. apply elem_of_concat. exists (ca_items c). split; [|done]. apply list_elem_of_fmap_2.
        by apply list_elem_of_filter. }
      pose proof (elem_of_sublist _ _ _ Hin Hh) as [Hroute _]%list_elem_of_filter. revert Hroute. unfold forward_route, _linkg_scheduler_resolve_peer.
      rewrite Ha. destruct (_ || _ || _ || _); [done|]. destruct (negb _); [done|]. destruct (_ =? ni_node_id local); [done|]. cbn [Z.eqb Pos.eqb].
      cbn. destruct (Z.eqb_spec (fi_destination_node_id item) (fi_peer_node_id item)) as [|Hne']; [done|]. intros [= <-]. split; congruence.
Qed.

(** ** A run *)

(** The trace and the result when every operation is answered by [w]. *)
Fixpoint answered {A} (w : forall X, op X -> X) (p : sched A) (tr : list event) : list event * A :=
  match p with
  | Done a => (tr, a)
  | Do o k => answered w (k (w _ o)) (tr ++ [Event o (w _ o)])
  end.

Lemma answered_all {A} (w : forall X, op X -> X) (p : sched A) Q : (forall X (o : op X), answer_ok o (w X o)) -> forall tr,
  all p Q tr -> Q (answered w p tr).1 (answered w p tr).2.
Proof. intros Hw. induction p as [a|X o k IH]; intros tr H; cbn in *; [done|]. apply IH, H, Hw. Qed.

(** An access point (node 1) with two links; stations 2 and 3 use both, the others the
    first one. Link 20 is under maintenance for station 3. *)
Definition demo_answer X (o : op X) : X :=
  match o in op X return X with
  | Load_initialized => true
  | Store_initialized _ => tt | Exchange_initialized => true | Load_peer_cached => false | Store_peer_cached _ => tt
  | Load_peer_node_id => 0 | Store_peer_node_id _ => tt
  | Get_local => Some (NodeInfo 1 LINKG_DEVICE_ROLE_AP)
  | Peer_snapshot _ => (- ENOENT, NodeInfo 0 0)
  | Link_id_of access => 10 * access
  | Get_link link_id => Some link_id
  | Is_running _ => true
  | Get_access link => link / 10
  | Is_blocked peer access => (peer =? 3) && (access =? 2)
  | Class_plan peer _ => (0, if peer <=? 3 then ClassSendPlan LINKG_SEND_MODE_REDUNDANT 10 20 else ClassSendPlan LINKG_SEND_MODE_SINGLE 10 20)
  | Path_acquire peer link_id => (0, 100 * peer + link_id, [])
  | Path_release _ => tt
  | Send_batch _ items => (Z.of_nat (length items), (fun _ => 0) <$> items)
  | Forward_batch _ items => (Z.of_nat (length items), (fun _ => 0) <$> items)
  | Register_forward => 0
  | Unregister_forward => 0
  end.

Lemma demo_answer_ok X (o : op X) : answer_ok o (demo_answer X o).
Proof. destruct o; try done; cbn; intros _; by rewrite length_fmap. Qed.

Definition demo_items : list linkg_scheduler_tx_item :=
  (fun '(packet, destination) => SchedulerItem (Some packet) 1 destination 0) <$> [(0%nat, 2); (1%nat, 3); (2%nat, 2); (3%nat, 1); (4%nat, 4)].

(** Packets 0 and 2 go to station 2 over both links, 1 to station 3 over the first, 4 to
    station 4 over its primary; packet 3 is for this node itself. *)
Example demo_submit :
  let '(tr, (ret, results)) := answered demo_answer
    (linkg_scheduler_submit_batch (Some (SchedulerContext 1 LINKG_SCHEDULER_POLICY_DEFAULT 0)) (Some demo_items)) [] in
  (ret, results) = (4, [0; 0; 0; - EHOSTUNREACH; 0]) /\
  (fun c => (xc_peer_node_id (ca_context c), tg_path <$> default [] (xc_targets (ca_context c)), xi_packet <$> ca_items c)) <$>
    calls (T := linkg_transport_tx_item) tr =
    [(2, [Some 210; Some 220], [Some 0%nat; Some 2%nat]); (3, [Some 310], [Some 1%nat]); (4, [Some 410], [Some 4%nat])].
Proof. vm_compute. split; reflexivity. Qed.
